(* ===== verification/_CoqProject ===== *)
-Q . S2P
Prelude.v
Tools.v
IpAddr.v
Nlist.v
Timer.v
Mblock.v
Pktbuf.v
PktbufSpec.v
PktbufChain.v
PktbufOps.v
PktbufFrame.v
PktbufProps.v
Sys.v
Fixq.v
FixqConc.v
Dns.v
Virtqueue.v
TcpState.v
TcpInv.v
Net.v
Netif.v
Ether.v
Arp.v
NetifLink.v
Ipv4.v
Icmp.v
Udp.v
Tcp.v
TcpQueue.v
Input.v
Owner.v
OwnerPkt.v
OwnerQueue.v
OwnerOut.v
OwnerArp.v
OwnerResolve.v
OwnerIp.v
OwnerIcmp.v
OwnerTcp.v
OwnerSegment.v
OwnerRelease.v
OwnerTcpIn.v
OwnerTcpSeg.v
OwnerTcpOpen.v
OwnerTcpInput.v
OwnerUdp.v
OwnerInput.v
NetStack.v
OwnerStack.v
OwnerRecv.v
OwnerWire.v
TcpWire.v
TcpStream.v
OwnerTcpApi.v
OwnerTcpConnect.v
OwnerTcpTimer.v
OwnerUdpOpen.v
Socket.v
SocketInv.v
Worker.v
OwnerTimer.v
OwnerSocket.v
OwnerWorker.v
NetDemo.v
Boot.v
NetProps.v
StackProps.v
NetExec.v
Sha256.v
Paging.v
Frames.v
PageTree.v
PageSpace.v
VmProps.v
Task.v
TaskInv.v
TaskSteps.v
TaskProps.v
SchedProps.v
ProcProps.v
