(* ===== verification/Prelude.v ===== *)
(** * quard-star-riscv64-net: a verification library

    The repository is a kernel for the quard-star RISC-V machine with a network
    stack of its own: drivers for virtio devices, an IPv4 stack (Ethernet, ARP,
    IPv4, ICMP, UDP, TCP) run by one worker task, a socket layer for the system
    calls, and user programs.  This library models the whole network stack, from
    the frames of the device to the sockets, with the data structures under it
    (src/kernel/src/net, src/kernel/src/virtqueue.c, the semaphores of
    src/kernel/src/wait.c), the physical pages and page tables of the kernel
    (src/kernel/src/address.c), the tasks and the scheduler
    (src/kernel/src/task.c) and the SHA-256 of the user programs
    (src/user/sha256.c), and proves what makes them correct.

    ** How the code is modelled

    A C function is a function of the state monad [M S] of this file: it takes
    the state, and returns a value and a new state, or is [Stuck], which stands
    for a null dereference, an access outside an object, a failed [dbg_assert]
    or a [panic].  A theorem that a call returns [Ret] thus says that none of
    these happens.  Loops are structural recursions, or recursions on fuel
    whose bound is a quantity of the state (the length of a list or a queue, the
    three levels of a page table, the 64 bytes of a block of SHA-256); a loop
    that runs out of fuel is [Stuck], so the theorems show that the fuel is
    enough.  Integers are [Z] with the conversions of C written out ([u8],
    [u16], [u32], [u64], [s32]).  A pointer to an object of a static pool is an
    index into a [gmap], a pointer that may be null is an [option], a pointer to
    a function is a tag of an inductive type.  A mutex delimits the atomic
    sections; where tasks run concurrently the model is a step relation with
    one step for each section.

    Files, and what they model of src/kernel:
    - Tools.v: byte order and the Internet checksum (include/timeros/net/tools.h)
    - IpAddr.v: addresses, masks and their text form (net/ipaddr.c)
    - Nlist.v: the intrusive doubly linked list on a heap of nodes (net/nlist.c)
    - Timer.v: the delta list of timers (net/timer.c)
    - Mblock.v: pools of blocks (net/mblock.c)
    - Pktbuf.v: packets as chains of blocks (net/pktbuf.c); PktbufSpec.v,
      PktbufChain.v, PktbufOps.v, PktbufFrame.v and PktbufProps.v have the
      invariant of the pool, the byte string a packet stands for, and the
      behaviour of each operation
    - Sys.v: the semaphores (wait.c, net/net_sys.c)
    - Fixq.v: bounded queues (net/fixq.c), one call at a time; FixqConc.v: the
      same code as interleaved steps of many tasks
    - Dns.v: DNS messages (net/dns.c)
    - Virtqueue.v: the split virtqueue (virtqueue.c)
    - Net.v: the state of the stack; Netif.v, Ether.v, Arp.v, NetifLink.v,
      Ipv4.v, Icmp.v, Udp.v, Input.v and NetStack.v: the functions of
      net/netif.c, net/loop.c, net/netif_virtio.c, net/ether.c, net/arp.c,
      net/ipv4.c, net/icmpv4.c, net/udp.c, and the input path of
      net/net_stack.c.  The functions call each other as in the code; Input.v
      and NetifLink.v hold those whose calls go up the layers
    - TcpState.v, Tcp.v: the control blocks and every function of net/tcp.c;
      TcpInv.v: their invariant; TcpQueue.v, TcpStream.v and TcpWire.v: the ring
      of received bytes as a byte string, and the format of a segment
    - Socket.v: net/socket.c; SocketInv.v: the table of sockets
    - Worker.v: the initialisation and the loop of the worker of net/net_stack.c,
      the callbacks of the timers, and the calls that syscall.c hands to it
    - Owner.v and the files Owner*.v: the ownership invariant of the packets
      and its proof for every function of the stack (below)
    - OwnerWire.v: what is on the wire after a call, and what becomes of a
      frame from the wire
    - NetDemo.v: a concrete stack for the witnesses; Boot.v: the stack after
      [net_stack_init] and a TCP connection from there; NetProps.v and
      StackProps.v: the properties of the stack as a whole
    - NetExec.v: calls into the worker task (net/net_exec.c) as a step relation
    - Paging.v: address.c; Frames.v: the free list of pages; PageTree.v: the
      tree of page tables; PageSpace.v: freeing and copying an address space;
      VmProps.v: their properties
    - Task.v: task.c, as a machine whose steps are the sections under the lock
      of the tasks; TaskInv.v: its invariant; TaskSteps.v and TaskProps.v: every
      step keeps it, and concrete runs; SchedProps.v: the properties;
      ProcProps.v: the memory of a process from its creation to its end
    - Sha256.v: src/user/sha256.c

    ** What the theorems show

    - Data structures: the linked list refines lists; timers fire when they are
      due, and adding or removing one moves no other; a packet is the byte
      string that its chain of blocks holds, and each operation does to it what
      its name says, keeps the other packets and neither loses nor shares a
      block; the checksum is the one's complement sum, over any split into
      blocks, verifies, and detects a changed byte.
    - Ownership: [core] says that the reference count of a packet is the number
      of its owners (the queues, the packets that wait for an ARP reply, the
      received datagrams, the segments that TCP keeps for retransmission, and
      the functions that hold it), [arp_ok], [udp_ok] and [tcp_ok] that the
      cache and the control blocks are consistent.  Every function keeps them,
      on every path: a function that consumes a packet frees it or hands it on
      exactly once, an input function that fails leaves the packet to its
      caller.  The class [InputHandler] is the contract of a protocol's input
      function; ICMP, UDP and TCP are instances of it, and the input path is
      proved against it.
    - The whole stack: from [net_stack_init] on zeroed memory, every turn of the
      worker and every call of the other tasks returns and keeps the invariants,
      for every frame the device delivers.
    - Sockets: a handle that was closed names no socket ever again.
    - TCP: a segment that continues the stream appends exactly its data to the
      bytes that the reader gets, in order; what [tcp_make_segment] builds is
      what [tcp_in] accepts.
    - End to end: an echo request is answered on the wire with the right frame,
      a datagram that was sent is on the wire in the format that the receiver
      accepts, and the receiver gets the bytes, the address and the port.
    - Concurrency: a queue with many senders and receivers is first in, first
      out, and loses no wake-up; a call into the worker runs at most once and
      only while its caller waits for it, whatever timeouts fire, and its slot
      is released.
    - Untrusted input: the DNS parser stays inside its buffers and terminates
      on every packet; a virtqueue refuses a completion that it does not know.
    - Virtual memory: the allocator refines a set of free pages; a mapping is
      what the page walk of the hardware finds; tearing down a process returns
      each of its pages once, copying one gives the child pages of its own, and
      creating and freeing a process leaves the free pages as they were.
    - Tasks: whatever the processors do, a task runs on one of them at most, the
      tree of processes is sound, and a parent that waits is woken by the exit
      of a child (but for the first task, which can miss a child that it has
      adopted: [init_misses_adopted_zombie]); the choice of the scheduler leaves
      no ready task that no processor would take.
    - SHA-256: the streaming code computes the function of FIPS 180-4, however
      the message is cut into pieces.

    ** Assumptions

    The device behind [virtio_net_send] and [virtio_net_receive] is a list of
    results; in the stack, tasks other than the running one are the parameter
    [task_sleep] of the functions that may block.  In Task.v, what user programs
    and [exec] do to the memory is arbitrary.  The debug output is left out, as are the
    probes and marks that only the test kernels contain.

    ** Not modelled

    The DNS resolver (net/dns_resolver.c), the drivers of the virtio devices
    (virtio_net.c, virtio_disk.c: device registers and interrupts around the
    virtqueue), the system calls other than those of the sockets, the loader,
    the buffer cache, the file table, the library functions, the kernel page
    table and the flushing of the TLBs, and the other user programs.  The code
    that is mostly control registers and assembly (traps, context switches,
    interrupt controllers, the trusted runtime's port of FreeRTOS) and the
    third-party FatFs have no model in this style. *)

From Stdlib Require Export ZArith Lia.
From stdpp Require Export base tactics option list list_numbers numbers sets gmap.

#[global] Open Scope Z_scope.
#[global] Set Default Goal Selector "!".

(** ** C integers

    A C integer is a [Z]; the conversions below are the implicit and explicit
    casts of the source, written at the places where the source (or the usual
    arithmetic conversions of C) performs them. *)

Definition u8 (z : Z) : Z := z mod 2 ^ 8.
Definition u16 (z : Z) : Z := z mod 2 ^ 16.
Definition u32 (z : Z) : Z := z mod 2 ^ 32.
Definition u64 (z : Z) : Z := z mod 2 ^ 64.

(** The two's complement reading of the low 32 bits, [(int32_t)x]. *)
Definition s32 (z : Z) : Z :=
  let w := u32 z in if w <? 2 ^ 31 then w else w - 2 ^ 32.

Definition INT_MAX : Z := 2 ^ 31 - 1.

(** A byte and an array of bytes, as [uint8_t] and [uint8_t[]]. *)
Definition is_byte (b : Z) : Prop := 0 <= b < 256.
Abbreviation bytes := (list Z).
Abbreviation are_bytes := (Forall is_byte).

(** The length of an array, as a C [int]. *)
Abbreviation len l := (Z.of_nat (length l)).

(** ** [net_err_t] (net_err.h) *)

Definition NET_ERR_OK : Z := 0.
Definition NET_ERR_SYS : Z := -1.
Definition NET_ERR_MEM : Z := -2.
Definition NET_ERR_FULL : Z := -3.
Definition NET_ERR_TMO : Z := -4.
Definition NET_ERR_NONE : Z := -5.
Definition NET_ERR_SIZE : Z := -6.
Definition NET_ERR_PARAM : Z := -7.
Definition NET_ERR_EXIST : Z := -8.
Definition NET_ERR_STATE : Z := -9.
Definition NET_ERR_IO : Z := -10.
Definition NET_ERR_NOT_SUPPORT : Z := -11.
Definition NET_ERR_UNREACH : Z := -14.
Definition NET_ERR_CHKSUM : Z := -15.
Definition NET_ERR_FORMAT : Z := -28.

(** ** The monad of C functions

    A C function over a state [S] returns a value and a new state, or gets
    stuck: a null dereference, an out-of-range index, a [panic], a loop that
    has spent its fuel. *)

Inductive res (S A : Type) : Type :=
| Ret (a : A) (s : S)
| Stuck.
Arguments Ret {S A} a s.
Arguments Stuck {S A}.

Definition M (S A : Type) : Type := S -> res S A.

Definition rbind {S A B} (f : A -> S -> res S B) (r : res S A) : res S B :=
  match r with Ret a s => f a s | Stuck => Stuck end.

#[global] Instance M_ret {S} : MRet (M S) := fun A a s => Ret a s.
#[global] Instance M_bind {S} : MBind (M S) :=
  fun A B (f : A -> M S B) m s => rbind f (m s).

Definition get {S} : M S S := fun s => Ret s s.
Definition gets {S A} (f : S -> A) : M S A := fun s => Ret (f s) s.
Definition modify {S} (f : S -> S) : M S unit := fun s => Ret () (f s).
Definition stuck {S A} : M S A := fun _ => Stuck.
Definition when {S} (c : bool) (m : M S unit) : M S unit :=
  if c then m else mret ().

(** Reading through a pointer that may be null. *)
Definition deref {S A} (o : option A) : M S A :=
  match o with Some a => mret a | None => stuck end.

Lemma deref_ret {S A} (o : option A) a (s : S) : o = Some a -> deref o s = Ret a s.
Proof. by intros ->. Qed.

(** Running the first command of a sequence. *)
Lemma mbind_ret {S A B} (m : M S A) (f : A -> M S B) s a s' :
  m s = Ret a s' -> (m ≫= f) s = f a s'.
Proof. intros H. unfold mbind, M_bind. by rewrite H. Qed.

(** ... or its first two commands. *)
Lemma mbind_ret2 {S A B C} (m : M S A) (f : A -> M S B) (g : B -> M S C) s b s' :
  (m ≫= f) s = Ret b s' -> (m ≫= fun a => f a ≫= g) s = g b s'.
Proof. unfold mbind, M_bind. destruct (m s); cbn; [|done]. by intros ->. Qed.

Lemma mbind_ret4 {S A B C D E} (m : M S A) (f : A -> M S B) (g : M S C) (h : M S D)
    (k : D -> M S E) s d s' :
  (m ≫= fun a => f a ≫= fun _ => g ≫= fun _ => h) s = Ret d s' ->
  (m ≫= fun a => f a ≫= fun _ => g ≫= fun _ => h ≫= k) s = k d s'.
Proof.
  unfold mbind, M_bind. destruct (m s) as [a s1|]; cbn; [|done].
  destruct (f a s1) as [? s2|]; cbn; [|done]. destruct (g s2) as [? s3|]; cbn; [|done]. by intros ->.
Qed.

Tactic Notation "mstep" "by" tactic3(tac) :=
  erewrite mbind_ret by tac; cbv beta match.
Ltac mstep := erewrite mbind_ret by reflexivity; cbv beta match.

(** A component of a larger state, and the component's functions run on it. *)
Record lens (S T : Type) : Type := Lens {
  lget : S -> T;
  lset : T -> S -> S }.
Arguments Lens {S T} lget lset.
Arguments lget {S T} l s.
Arguments lset {S T} l t s.

Definition zoom {S T A} (l : lens S T) (m : M T A) : M S A :=
  fun s => match m (lget l s) with
           | Ret a t => Ret a (lset l t s)
           | Stuck => Stuck
           end.

Lemma zoom_ret {S T A} (l : lens S T) (m : M T A) s a t :
  m (lget l s) = Ret a t -> zoom l m s = Ret a (lset l t s).
Proof. intros H. unfold zoom. by rewrite H. Qed.

(** *** Weakest preconditions

    [wp Q r]: the call [r] returns, in a state and with a value that satisfy
    [Q]; a call that gets stuck satisfies no [wp]. *)
Definition wp {S A} (Q : A -> S -> Prop) (r : res S A) : Prop :=
  match r with Ret a s => Q a s | Stuck => False end.

Lemma wp_and {S A} (P Q : A -> S -> Prop) (r : res S A) : wp P r -> wp Q r -> wp (fun a s => P a s /\ Q a s) r.
Proof. by destruct r. Qed.

Lemma wp_exists {S A} (Q : A -> S -> Prop) (r : res S A) : wp Q r -> exists a s, r = Ret a s /\ Q a s.
Proof. destruct r as [a s|]; [|done]. by exists a, s. Qed.

Lemma wp_bind {S A B} (Q : B -> S -> Prop) (m : M S A) (f : A -> M S B) s :
  wp (fun a s => wp Q (f a s)) (m s) -> wp Q ((m ≫= f) s).
Proof. unfold mbind, M_bind. by destruct (m s). Qed.

Lemma wp_mono {S A} (Q Q' : A -> S -> Prop) r :
  (forall a s, Q a s -> Q' a s) -> wp Q r -> wp Q' r.
Proof. destruct r; simpl; auto. Qed.

Lemma wp_step {S A B} (P : A -> S -> Prop) (Q : B -> S -> Prop) (m : M S A) (f : A -> M S B) s :
  wp P (m s) -> (forall a s', P a s' -> wp Q (f a s')) -> wp Q ((m ≫= f) s).
Proof. intros Hm Hf. apply wp_bind. eapply wp_mono; [|exact Hm]. done. Qed.

Lemma wp_run {S A} (Q : A -> S -> Prop) r a s : r = Ret a s -> Q a s -> wp Q r.
Proof. by intros ->. Qed.

Lemma wp_eq {S A B} (Q : B -> S -> Prop) (m : M S A) (f : A -> M S B) s a s' :
  m s = Ret a s' -> wp Q (f a s') -> wp Q ((m ≫= f) s).
Proof. intros Hm Hf. apply wp_bind. by rewrite Hm. Qed.

Lemma wp_assoc {S A C D} (m : M S A) (f : A -> M S C) (g : C -> M S D) s (Q : D -> S -> Prop) :
  wp Q (((m ≫= f) ≫= g) s) -> wp Q ((m ≫= fun a => f a ≫= g) s).
Proof. unfold mbind, M_bind. by destruct (m s). Qed.

Lemma wp_ret {S A} (Q : A -> S -> Prop) r :
  wp Q r <-> exists a s, r = Ret a s /\ Q a s.
Proof.
  destruct r as [a s|]; simpl; split; [eauto| |done|].
  - by intros (? & ? & [= -> ->] & ?).
  - by intros (? & ? & ? & ?).
Qed.

(** ** Record update

    [r <| f := v |>] is the C assignment [r->f = v]. *)

Class Settable (R : Type) := eta_of : R -> R.
Class Setter {R T : Type} (proj : R -> T) := upd_field : (T -> T) -> R -> R.

Ltac solve_setter :=
  lazymatch goal with
  | |- @Setter ?R ?T ?proj =>
      let e := constr:(@eta_of R _) in
      let e' := eval hnf in e in
      lazymatch (eval pattern proj in e') with
      | ?g _ => exact (fun f => g (fun r => f (proj r)))
      end
  end.
#[export] Hint Extern 1 (Setter _) => solve_setter : typeclass_instances.

Declare Scope record_scope.
Notation "x '<|' proj ':=' v '|>'" :=
  (upd_field (proj := proj) (fun _ => v) x)
  (at level 1, left associativity, format "x  '<|'  proj  ':='  v  '|>'")
  : record_scope.
#[global] Open Scope record_scope.

(** ** Arithmetic of shifts and masks

    The lemmas turn the bit operations of the source into [div], [mod], [*]
    and [+], which [lia] (with [Z.div_mod_to_equations]) decides. *)

Ltac zdm := Z.div_mod_to_equations; lia.

Lemma land_mask z n : 0 <= n -> Z.land z (2 ^ n - 1) = z mod 2 ^ n.
Proof. intros. rewrite <- Z.land_ones, Z.ones_equiv, Z.sub_1_r; done. Qed.

Lemma lor_shiftl_add a n b :
  0 <= n -> 0 <= b < 2 ^ n -> Z.lor (Z.shiftl a n) b = a * 2 ^ n + b.
Proof.
  intros Hn Hb. rewrite <- Z.shiftl_mul_pow2 by done.
  symmetry. rewrite <- Z.lxor_lor, Z.add_nocarry_lxor; [done| |].
  all: apply Z.bits_inj_0; intros i; rewrite Z.land_spec.
  all: destruct (Z.ltb_spec i 0); [by rewrite Z.testbit_neg_r by lia|].
  all: destruct (Z.ltb_spec i n);
    [rewrite Z.shiftl_spec_low by lia; done|].
  all: apply andb_false_iff; right.
  all: rewrite <- (Z.mod_small b (2 ^ n)) by lia; by rewrite Z.mod_pow2_bits_high by lia.
Qed.

Lemma lor_shiftl_add_comm a n b :
  0 <= n -> 0 <= b < 2 ^ n -> Z.lor b (Z.shiftl a n) = a * 2 ^ n + b.
Proof. intros. rewrite Z.lor_comm. by apply lor_shiftl_add. Qed.

Lemma shiftr_div z n : 0 <= n -> Z.shiftr z n = z / 2 ^ n.
Proof. intros. by apply Z.shiftr_div_pow2. Qed.

Lemma shiftl_mul z n : 0 <= n -> Z.shiftl z n = z * 2 ^ n.
Proof. intros. by apply Z.shiftl_mul_pow2. Qed.

Lemma lor_mul_add a n b :
  0 <= n -> 0 <= b < 2 ^ n -> Z.lor (a * 2 ^ n) b = a * 2 ^ n + b.
Proof. intros. rewrite <- (shiftl_mul a n) by done. rewrite lor_shiftl_add, shiftl_mul; done. Qed.

Lemma land_mask_shiftl z m k :
  0 <= k -> Z.land z (Z.shiftl m k) = Z.shiftl (Z.land (Z.shiftr z k) m) k.
Proof.
  intros Hk. apply Z.bits_inj'. intros i Hi. rewrite Z.land_spec.
  destruct (Z.ltb_spec i k).
  - rewrite !Z.shiftl_spec_low by lia. by rewrite andb_false_r.
  - rewrite !Z.shiftl_spec, Z.land_spec, Z.shiftr_spec by lia.
    by rewrite Z.sub_add.
Qed.

(** The byte [k/8] of a word, in place: [z & (0xff << k)]. *)
Lemma land_byte z k :
  0 <= k -> Z.land z (0xff * 2 ^ k) = (z / 2 ^ k) mod 256 * 2 ^ k.
Proof.
  intros. rewrite <- shiftl_mul, land_mask_shiftl, shiftl_mul, shiftr_div by done.
  by rewrite (land_mask _ 8).
Qed.

Lemma u8_range z : 0 <= u8 z < 2 ^ 8.
Proof. by apply Z.mod_pos_bound. Qed.
Lemma u16_range z : 0 <= u16 z < 2 ^ 16.
Proof. by apply Z.mod_pos_bound. Qed.
Lemma u32_range z : 0 <= u32 z < 2 ^ 32.
Proof. by apply Z.mod_pos_bound. Qed.
Lemma u8_small z : 0 <= z < 2 ^ 8 -> u8 z = z.
Proof. apply Z.mod_small. Qed.
Lemma u16_small z : 0 <= z < 2 ^ 16 -> u16 z = z.
Proof. apply Z.mod_small. Qed.
Lemma u32_small z : 0 <= z < 2 ^ 32 -> u32 z = z.
Proof. apply Z.mod_small. Qed.

(** ** Multi-byte fields

    The header structs of the stack are packed and overlay the packet's
    bytes, and the machine is little-endian ([NET_ENDIAN_LITTLE]): a store of
    a [uint16_t] field writes [le16] of the value. *)

Definition le16 (w : Z) : bytes := [u8 w; u8 (Z.shiftr w 8)].
Definition le32 (w : Z) : bytes :=
  [u8 w; u8 (Z.shiftr w 8); u8 (Z.shiftr w 16); u8 (Z.shiftr w 24)].
Definition be16 (w : Z) : bytes := [u8 (Z.shiftr w 8); u8 w].
Definition be32 (w : Z) : bytes :=
  [u8 (Z.shiftr w 24); u8 (Z.shiftr w 16); u8 (Z.shiftr w 8); u8 w].

(** The byte at index [i] of an array that is large enough. *)
Definition byte_at (l : bytes) (i : nat) : Z := nth i l 0.

Definition load16 (l : bytes) (i : nat) : Z :=
  byte_at l i + 2 ^ 8 * byte_at l (S i).
Definition load32 (l : bytes) (i : nat) : Z :=
  byte_at l i + 2 ^ 8 * byte_at l (S i) +
  2 ^ 16 * byte_at l (S (S i)) + 2 ^ 24 * byte_at l (S (S (S i))).

(** Writing [bs] over the bytes of [l] from index [i] on. *)
Definition splice {A} (i : nat) (bs l : list A) : list A :=
  take i l ++ bs ++ drop (i + length bs) l.

Lemma length_splice {A} i (bs l : list A) :
  (i + length bs <= length l)%nat -> length (splice i bs l) = length l.
Proof.
  intros. unfold splice. rewrite !length_app, length_take, length_drop. lia.
Qed.

Lemma splice_app_l {A} (a bs b l : list A) :
  length bs = length b -> splice (length a) bs (a ++ b ++ l) = a ++ bs ++ l.
Proof.
  intros Hl. unfold splice. rewrite take_app_length. do 2 f_equal.
  rewrite <- drop_drop, drop_app_length, Hl, drop_app_length. done.
Qed.

Lemma Forall_splice {A} (P : A -> Prop) i bs l :
  Forall P bs -> Forall P l -> Forall P (splice i bs l).
Proof.
  intros. unfold splice. rewrite !Forall_app.
  split; [by apply Forall_take|split; [done|by apply Forall_drop]].
Qed.

(** ** Lists *)

Lemma list_filter_id {A} (P : A -> Prop) `{!forall x, Decision (P x)} l :
  Forall P l -> filter P l = l.
Proof. induction 1; [done|]. rewrite filter_cons_True by done. by f_equal. Qed.

Lemma list_filter_none {A} (P : A -> Prop) `{!forall x, Decision (P x)} l :
  Forall (fun x => ~ P x) l -> filter P l = [].
Proof. induction 1; [done|]. by rewrite filter_cons_False by done. Qed.

Lemma Forall_list_filter {A} (P Q : A -> Prop) `{!forall x, Decision (P x)} l :
  Forall Q l -> Forall Q (filter P l).
Proof.
  rewrite !Forall_forall. intros HQ x [_ Hx]%list_elem_of_filter. auto.
Qed.

(** A list is what is before, in and after a segment. *)
Lemma split3 {A} (d n : nat) (l : list A) :
  l = take d l ++ take n (drop d l) ++ drop (d + n) l.
Proof. rewrite <- drop_drop, take_drop, take_drop. done. Qed.

Lemma take_drop_app3 {A} (a b c : list A) :
  take (length b) (drop (length a) (a ++ b ++ c)) = b.
Proof. by rewrite drop_app_length, take_app_length. Qed.

Lemma splice_app_mid {A} i (bs a b c : list A) :
  (i + length bs <= length b)%nat ->
  splice (length a + i) bs (a ++ b ++ c) = a ++ splice i bs b ++ c.
Proof.
  intros Hi. unfold splice. rewrite take_app_add, take_app_le, <- app_assoc by lia.
  rewrite <- Nat.add_assoc, drop_app_add, drop_app_le by lia.
  by rewrite <- !app_assoc.
Qed.

(** Writing inside a segment of a list. *)
Lemma splice_segment {A} d n off (bs l : list A) :
  (off + length bs <= n)%nat -> (d + n <= length l)%nat ->
  take n (drop d (splice (d + off) bs l)) = splice off bs (take n (drop d l)).
Proof.
  intros Ho Hd. rewrite (split3 d n l) at 1.
  assert (Hl1 : length (take d l) = d) by (rewrite length_take; lia).
  assert (Hl2 : length (take n (drop d l)) = n) by (rewrite length_take, length_drop; lia).
  rewrite <- Hl1 at 2. rewrite splice_app_mid by lia.
  rewrite <- Hl1 at 1. rewrite drop_app_length, take_app_length'; [done|].
  rewrite length_splice; lia.
Qed.

(** A segment of a segment. *)
Lemma take_drop_segment {A} c off n d (l : list A) :
  (off + c <= n)%nat ->
  take c (drop off (take n (drop d l))) = take c (drop (d + off) l).
Proof.
  intros Hc. rewrite take_drop_commute, take_take, Nat.min_l by lia.
  by rewrite <- take_drop_commute, drop_drop.
Qed.

(** Writing two adjacent pieces. *)
Lemma splice_splice {A} n (a b l : list A) :
  (n + length a <= length l)%nat ->
  splice (n + length a) b (splice n a l) = splice n (a ++ b) l.
Proof.
  intros Hn. assert (Hl : length (take n l) = n) by (rewrite length_take; lia).
  assert (Hl2 : length (take n l ++ a) = (n + length a)%nat) by (rewrite length_app; lia).
  unfold splice at 2 3. rewrite app_assoc. unfold splice.
  rewrite take_app_length' by done. rewrite drop_app_add' by done.
  rewrite drop_drop, length_app, Nat.add_assoc. by rewrite <- !app_assoc.
Qed.

Lemma splice_nil {A} n (l : list A) : splice n [] l = l.
Proof. unfold splice. cbn. by rewrite Nat.add_0_r, take_drop. Qed.
