(* ===== verification/Tools.v ===== *)
(** * Byte order and the Internet checksum (net/tools.h)

    [swap_u16]/[swap_u32] and the [x_hton]/[x_ntoh] macros, the folding loop
    [net_checksum_fold] and the checksum loop [checksum16].  The reference
    definition is [ones_sum]: the end-around-carry sum of RFC 1071.  *)

From S2P Require Import Prelude.

(** ** Definitions *)

Definition swap_u16 (value : Z) : Z :=
  u16 (Z.lor (Z.shiftl value 8) (Z.shiftr value 8)).

Definition swap_u32 (value : Z) : Z :=
  Z.lor (Z.lor (Z.lor (u32 (Z.shiftl (Z.land value 0xff) 24))
                      (u32 (Z.shiftl (Z.land value 0xff00) 8)))
               (Z.shiftr (Z.land value 0xff0000) 8))
        (Z.shiftr (Z.land value 0xff000000) 24).

Definition x_htons (value : Z) : Z := swap_u16 (u16 value).
Definition x_ntohs (value : Z) : Z := swap_u16 (u16 value).
Definition x_htonl (value : Z) : Z := swap_u32 (u32 value).
Definition x_ntohl (value : Z) : Z := swap_u32 (u32 value).

(** [while (sum >> 16) sum = (sum & 0xffff) + (sum >> 16);] *)
Fixpoint net_checksum_fold_loop (fuel : nat) (sum : Z) : Z :=
  if Z.shiftr sum 16 =? 0 then sum
  else match fuel with
       | O => sum
       | S fuel =>
           net_checksum_fold_loop fuel
             (u32 (Z.land sum 0xffff + Z.shiftr sum 16))
       end.

(** Two rounds are enough for every [u32] ([net_checksum_fold_exits]). *)
Definition net_checksum_fold (sum : Z) : Z := net_checksum_fold_loop 2 sum.

(** The loop of [checksum16]; [data] is the array of the [len] bytes that
    [buf] points to and [i] the index of its head. *)
Fixpoint checksum16_loop (offset i : Z) (data : bytes) (sum : Z) : Z :=
  match data with
  | [] => sum
  | b :: rest =>
      let sum := if Z.land (u32 (offset + i)) 1 =? 0
                 then u32 (sum + u32 (Z.shiftl b 8))
                 else u32 (sum + b) in
      checksum16_loop offset (i + 1) rest (net_checksum_fold sum)
  end.

Definition checksum16 (offset : Z) (data : bytes) (pre_sum : Z)
    (complement : bool) : Z :=
  let sum := checksum16_loop offset 0 data pre_sum in
  if complement then u16 (Z.lnot sum) else u16 sum.

Definition net_checksum16 (data : bytes) (sum : Z) : Z :=
  checksum16 0 data sum false.

(** ** The reference: one's complement sums *)

(** The end-around-carry sum of a list of 16-bit words that add up to [s]. *)
Definition ones_sum (s : Z) : Z :=
  if s =? 0 then 0 else (s - 1) mod 65535 + 1.

(** The sum of the big-endian 16-bit words of [data], whose first byte is at
    offset [off] of the packet; an odd last byte is padded with zero. *)
Fixpoint word_sum (off : Z) (data : bytes) : Z :=
  match data with
  | [] => 0
  | b :: rest => (if Z.even off then 256 * b else b) + word_sum (off + 1) rest
  end.

(** ** Byte order *)

Lemma swap_u16_eq v :
  0 <= v < 2 ^ 16 -> swap_u16 v = (v mod 256) * 256 + v / 256.
Proof.
  intros Hv. unfold swap_u16, u16.
  rewrite shiftr_div, lor_shiftl_add by (try done; zdm). zdm.
Qed.

Lemma swap_u32_eq v :
  0 <= v < 2 ^ 32 ->
  swap_u32 v = (v mod 256) * 2 ^ 24 + (v / 2 ^ 8 mod 256) * 2 ^ 16
               + (v / 2 ^ 16 mod 256) * 2 ^ 8 + v / 2 ^ 24.
Proof.
  intros Hv. unfold swap_u32, u32.
  change 0xff with (2 ^ 8 - 1). change 0xff00 with (0xff * 2 ^ 8).
  change 0xff0000 with (0xff * 2 ^ 16). change 0xff000000 with (0xff * 2 ^ 24).
  rewrite land_mask, !land_byte by done.
  set (b0 := v mod 2 ^ 8). set (b1 := (v / 2 ^ 8) mod 256).
  set (b2 := (v / 2 ^ 16) mod 256). set (b3 := (v / 2 ^ 24) mod 256).
  assert (0 <= b0 < 256 /\ 0 <= b1 < 256 /\ 0 <= b2 < 256 /\ 0 <= b3 < 256)
    as (?&?&?&?) by (subst b0 b1 b2 b3; zdm).
  replace (v / 2 ^ 24) with b3 by (subst b3; zdm).
  rewrite !shiftl_mul, !shiftr_div, !Z.div_mul by done.
  replace (b2 * 2 ^ 16 / 2 ^ 8) with (b2 * 2 ^ 8) by zdm.
  rewrite !Z.mod_small by lia.
  replace (b1 * 2 ^ 8 * 2 ^ 8) with (b1 * 2 ^ 16) by lia.
  rewrite (lor_mul_add b0 24) by lia.
  replace (b0 * 2 ^ 24 + b1 * 2 ^ 16) with ((b0 * 2 ^ 8 + b1) * 2 ^ 16) by lia.
  rewrite (lor_mul_add _ 16) by lia.
  replace ((b0 * 2 ^ 8 + b1) * 2 ^ 16 + b2 * 2 ^ 8)
    with (((b0 * 2 ^ 8 + b1) * 2 ^ 8 + b2) * 2 ^ 8) by lia.
  rewrite (lor_mul_add _ 8) by lia. change (v mod 256) with b0. lia.
Qed.

(** Storing the swapped value in memory order gives network byte order. *)
Lemma le16_x_htons v : le16 (x_htons v) = be16 (u16 v).
Proof.
  unfold x_htons, le16, be16, u8. pose proof (u16_range v).
  rewrite swap_u16_eq, !shiftr_div by done. f_equal; [zdm|f_equal; zdm].
Qed.

(** A 32-bit word is the sum of its four bytes. *)
Lemma u32_bytes v :
  0 <= v < 2 ^ 32 ->
  exists b0 b1 b2 b3, is_byte b0 /\ is_byte b1 /\ is_byte b2 /\ is_byte b3 /\
    v = b3 * 2 ^ 24 + b2 * 2 ^ 16 + b1 * 2 ^ 8 + b0 /\
    v mod 256 = b0 /\ v / 2 ^ 8 mod 256 = b1 /\
    v / 2 ^ 16 mod 256 = b2 /\ v / 2 ^ 24 = b3.
Proof.
  intros Hv. unfold is_byte.
  exists (v mod 256), (v / 2 ^ 8 mod 256), (v / 2 ^ 16 mod 256), (v / 2 ^ 24).
  repeat split; zdm.
Qed.

Lemma le32_x_htonl v : le32 (x_htonl v) = be32 (u32 v).
Proof.
  unfold x_htonl, le32, be32, u8. pose proof (u32_range v) as Hv.
  rewrite swap_u32_eq, !shiftr_div by done.
  destruct (u32_bytes _ Hv) as (b0&b1&b2&b3&?&?&?&?&E&->&->&->&->).
  unfold is_byte in *. clear Hv. rewrite E. clear E v.
  repeat (f_equal; [zdm|]); f_equal; zdm.
Qed.

(** Reading a field back: [x_ntohs] of the bytes in memory order is the
    big-endian value of the field. *)
Lemma x_ntohs_load16 l i b1 b0 :
  is_byte b1 -> is_byte b0 -> byte_at l i = b1 -> byte_at l (S i) = b0 ->
  x_ntohs (load16 l i) = b1 * 256 + b0.
Proof.
  unfold is_byte, load16. intros H1 H0 -> ->.
  unfold x_ntohs. rewrite u16_small by lia. rewrite swap_u16_eq by lia. zdm.
Qed.

(** ** The folding loop *)

Lemma ones_sum_range s : 0 <= s -> 0 <= ones_sum s <= 65535.
Proof. intros. unfold ones_sum. case_match; zdm. Qed.

Lemma ones_sum_small s : 0 <= s <= 65535 -> ones_sum s = s.
Proof. intros. unfold ones_sum. case_match; zdm. Qed.

(** A sum is determined by its residue modulo [65535] and by being zero. *)
Lemma ones_sum_unique s s' :
  0 <= s -> 0 <= s' -> (s - s') mod 65535 = 0 -> (s = 0 <-> s' = 0) ->
  ones_sum s = ones_sum s'.
Proof.
  intros H H' Hm Hz. unfold ones_sum.
  destruct (Z.eqb_spec s 0), (Z.eqb_spec s' 0); [done|tauto|tauto|]. zdm.
Qed.

Lemma ones_sum_add a b :
  0 <= a -> 0 <= b -> ones_sum (ones_sum a + b) = ones_sum (a + b).
Proof.
  intros Ha Hb. pose proof (ones_sum_range a Ha).
  apply ones_sum_unique; [lia|lia| |]; unfold ones_sum in *;
    destruct (Z.eqb_spec a 0); subst; zdm.
Qed.

Lemma net_checksum_fold_step sum :
  0 <= sum < 2 ^ 32 ->
  u32 (Z.land sum 0xffff + Z.shiftr sum 16) = sum mod 65536 + sum / 65536.
Proof.
  intros. change 0xffff with (2 ^ 16 - 1).
  rewrite land_mask, shiftr_div by done. rewrite u32_small by zdm. done.
Qed.

Lemma net_checksum_fold_ones sum :
  0 <= sum < 2 ^ 32 -> net_checksum_fold sum = ones_sum sum.
Proof.
  intros H. unfold net_checksum_fold; cbn [net_checksum_fold_loop].
  rewrite net_checksum_fold_step by done.
  set (s1 := sum mod 65536 + sum / 65536).
  assert (0 <= s1 <= 131070) by (unfold s1; zdm).
  rewrite (net_checksum_fold_step s1), !shiftr_div by (try done; lia).
  destruct (Z.eqb_spec (sum / 2 ^ 16) 0) as [E|E].
  { symmetry. apply ones_sum_small. zdm. }
  assert (ones_sum sum = ones_sum s1) as ->.
  { apply ones_sum_unique; unfold s1; try zdm. }
  destruct (Z.eqb_spec (s1 / 2 ^ 16) 0) as [E1|E1].
  { symmetry. apply ones_sum_small. zdm. }
  replace (ones_sum s1) with (s1 mod 65536 + s1 / 65536).
  { by case_match. }
  unfold ones_sum. destruct (Z.eqb_spec s1 0); zdm.
Qed.

(** The loop has left: its exit test holds of the result for every [u32]. *)
Lemma net_checksum_fold_exits sum :
  0 <= sum < 2 ^ 32 -> Z.shiftr (net_checksum_fold sum) 16 = 0.
Proof.
  intros H. rewrite net_checksum_fold_ones, shiftr_div by done.
  pose proof (ones_sum_range sum). zdm.
Qed.

(** ** The checksum loop *)

Lemma land_1_even z : (Z.land z 1 =? 0) = Z.even z.
Proof.
  change 1 with (2 ^ 1 - 1). rewrite land_mask by done.
  change (2 ^ 1) with 2. rewrite Zmod_even. by destruct (Z.even z).
Qed.

Lemma even_u32 z : Z.even (u32 z) = Z.even z.
Proof. unfold u32. rewrite !Zeven_mod. f_equal. zdm. Qed.

Lemma word_sum_nonneg off data : are_bytes data -> 0 <= word_sum off data.
Proof.
  intros H. revert off. induction H as [|b data Hb _ IH]; intros off; simpl; [lia|].
  unfold is_byte in Hb. specialize (IH (off + 1)). case_match; lia.
Qed.

Lemma checksum16_loop_ones offset i data sum :
  are_bytes data -> 0 <= sum <= 65535 ->
  checksum16_loop offset i data sum =
    ones_sum (sum + word_sum (offset + i) data).
Proof.
  intros H. revert i sum. induction H as [|b data Hb Hd IH]; intros i sum Hs.
  { simpl. rewrite Z.add_0_r. symmetry. by apply ones_sum_small. }
  unfold is_byte in Hb. pose proof (word_sum_nonneg (offset + i + 1) data Hd).
  cbn [checksum16_loop word_sum]. rewrite land_1_even, even_u32, shiftl_mul by done.
  destruct (Z.even (offset + i)).
  all: rewrite ?(u32_small (b * _)) by lia; rewrite u32_small by lia.
  all: rewrite net_checksum_fold_ones by lia.
  all: rewrite IH by (apply ones_sum_range; lia).
  all: replace (offset + (i + 1)) with (offset + i + 1) by lia.
  all: rewrite ones_sum_add by lia.
  all: f_equal; lia.
Qed.

Lemma checksum16_ones offset data pre :
  are_bytes data -> 0 <= pre <= 65535 ->
  checksum16 offset data pre false = ones_sum (pre + word_sum offset data).
Proof.
  intros Hd Hp. unfold checksum16. rewrite checksum16_loop_ones, Z.add_0_r by done.
  pose proof (word_sum_nonneg offset data Hd).
  apply u16_small. pose proof (ones_sum_range (pre + word_sum offset data)). lia.
Qed.

Lemma checksum16_ones_compl offset data pre :
  are_bytes data -> 0 <= pre <= 65535 ->
  checksum16 offset data pre true = 65535 - ones_sum (pre + word_sum offset data).
Proof.
  intros Hd Hp. unfold checksum16. rewrite checksum16_loop_ones, Z.add_0_r by done.
  pose proof (word_sum_nonneg offset data Hd).
  pose proof (ones_sum_range (pre + word_sum offset data)).
  unfold u16, Z.lnot. zdm.
Qed.

Lemma word_sum_app off a b :
  word_sum off (a ++ b) = word_sum off a + word_sum (off + len a) b.
Proof.
  revert off. induction a as [|x a IH]; intros off.
  { cbn. by rewrite Z.add_0_r. }
  cbn [app word_sum length]. rewrite IH. replace (off + Z.of_nat (S (length a))) with (off + 1 + len a) by lia. lia.
Qed.

Lemma word_sum_parity off off' data :
  Z.even off = Z.even off' -> word_sum off data = word_sum off' data.
Proof.
  revert off off'. induction data as [|b data IH]; intros off off' E; simpl; [done|].
  rewrite E. f_equal. apply IH. by rewrite !Z.even_add, E.
Qed.

Lemma checksum16_app offset a b pre c :
  are_bytes a -> are_bytes b -> 0 <= pre <= 65535 ->
  checksum16 (offset + len a) b (checksum16 offset a pre false) c =
    checksum16 offset (a ++ b) pre c.
Proof.
  intros Ha Hb Hp. pose proof (word_sum_nonneg offset a Ha).
  pose proof (word_sum_nonneg (offset + len a) b Hb).
  pose proof (ones_sum_range (pre + word_sum offset a)).
  assert (are_bytes (a ++ b)) by (by apply Forall_app).
  rewrite (checksum16_ones offset a) by done.
  destruct c; [rewrite !checksum16_ones_compl by (done || lia)
              |rewrite !checksum16_ones by (done || lia)].
  all: rewrite ones_sum_add, word_sum_app by lia.
  all: by rewrite Z.add_assoc.
Qed.

(** ** Properties of the checksum *)

(** C29: [checksum16] computes the RFC 1071 one's complement sum of the
    big-endian 16-bit words of the data, whatever the offset of its first
    byte and the partial sum it continues; with [complement] it returns the
    bitwise complement of that sum.  The 32-bit accumulator never overflows
    and the folding loop always leaves. *)
Theorem checksum16_refines_rfc1071 offset data pre :
  are_bytes data -> 0 <= pre <= 65535 ->
  checksum16 offset data pre false = ones_sum (pre + word_sum offset data) /\
  checksum16 offset data pre true =
    65535 - ones_sum (pre + word_sum offset data).
Proof. intros. split; [by apply checksum16_ones|by apply checksum16_ones_compl]. Qed.

Lemma checksum16_refines_rfc1071_witness :
  checksum16 0 [0x45; 0x00; 0x00; 0x73; 0x40; 0x11] 7 false = ones_sum (7 + 0x4500 + 0x73 + 0x4011).
Proof.
  apply (checksum16_refines_rfc1071 0 [0x45; 0x00; 0x00; 0x73; 0x40; 0x11] 7).
  - repeat constructor; done.
  - done.
Defined.

(** The zero test of the receivers: the complemented checksum is zero exactly
    when the words add up to a positive multiple of [65535]. *)
Lemma checksum16_zero offset data pre :
  are_bytes data -> 0 <= pre <= 65535 ->
  checksum16 offset data pre true = 0 <->
    (pre + word_sum offset data) mod 65535 = 0 /\ 0 < pre + word_sum offset data.
Proof.
  intros Hd Hp. rewrite checksum16_ones_compl by done.
  pose proof (word_sum_nonneg offset data Hd).
  unfold ones_sum. destruct (Z.eqb_spec (pre + word_sum offset data) 0); split; zdm.
Qed.

Lemma are_bytes_be16 v : are_bytes (be16 v).
Proof. unfold be16, is_byte. repeat constructor; apply u8_range. Qed.

Lemma word_sum_be16 off v :
  0 <= v < 2 ^ 16 -> Z.even off = true -> word_sum off (be16 v) = v.
Proof.
  intros Hv He. unfold be16. cbn [word_sum].
  rewrite Z.even_add, He. cbn. rewrite shiftr_div by done.
  unfold u8. zdm.
Qed.

(** A checksum field at an even offset, filled in from the sum of the rest. *)
Lemma checksum_field_verifies a b pre c c' :
  are_bytes a -> are_bytes b -> 0 <= pre <= 65535 ->
  Z.even (len a) = true ->
  c = checksum16 0 (a ++ [0; 0] ++ b) pre true ->
  c' = c \/ c' = (if c =? 0 then 0xffff else c) ->
  checksum16 0 (a ++ le16 (x_htons c') ++ b) pre true = 0.
Proof.
  intros Ha Hb Hp He Hc Hc'.
  assert (are_bytes (a ++ [0; 0] ++ b)) as Hz.
  { rewrite !Forall_app. repeat split; [done| |done]. by repeat constructor. }
  pose proof (word_sum_nonneg 0 _ Hz) as Hnn.
  rewrite (checksum16_ones_compl 0 _ pre Hz Hp) in Hc.
  pose proof (ones_sum_range (pre + word_sum 0 (a ++ [0; 0] ++ b))) as Hr.
  assert (0 <= c' < 2 ^ 16) as Hc'r.
  { destruct Hc' as [->| ->]; [lia|]. case_match; lia. }
  rewrite le16_x_htons, u16_small by done.
  apply checksum16_zero; [|done|].
  { rewrite !Forall_app. repeat split; [done|apply are_bytes_be16|done]. }
  rewrite !word_sum_app, word_sum_be16 by done.
  rewrite !word_sum_app in Hnn, Hc, Hr. cbn [word_sum] in *.
  replace (0 + len a + len (be16 c')) with (0 + len a + len [0; 0]) by done.
  pose proof (word_sum_nonneg 0 a Ha).
  pose proof (word_sum_nonneg (0 + len a + len [0; 0]) b Hb).
  set (x := word_sum 0 a) in *. set (y := word_sum _ b) in *.
  replace (pre + (x + ((if Z.even (0 + len a) then 256 * 0 else 0) +
    ((if Z.even (0 + len a + 1) then 256 * 0 else 0) + 0) + y)))
    with (pre + x + y) in * by (repeat case_match; lia).
  unfold ones_sum in *. destruct (Z.eqb_spec (pre + x + y) 0).
  all: destruct Hc' as [->| ->]; [|destruct (Z.eqb_spec c 0)]; zdm.
Qed.

(** C30: a checksum field filled in by a sender verifies at the receiver.
    The senders compute the complemented checksum of the packet with a zero
    field (ICMP, IPv4), or replace a computed zero by [0xffff] (UDP, TCP), and
    store [x_htons] of it in the field, at an even offset; the receivers
    recompute the complemented checksum over the whole packet, with the same
    pseudo-header sum, and accept when it is zero. *)
Theorem checksum16_verifies a b pre c c' :
  are_bytes a -> are_bytes b -> 0 <= pre <= 65535 ->
  Z.even (len a) = true ->
  c = checksum16 0 (a ++ [0; 0] ++ b) pre true ->
  c' = c \/ c' = (if c =? 0 then 0xffff else c) ->
  checksum16 0 (a ++ le16 (x_htons c') ++ b) pre true = 0.
Proof. apply checksum_field_verifies. Qed.

Lemma checksum16_verifies_witness :
  checksum16 0 ([0x45; 0x00; 0x12; 0x34] ++ le16 (x_htons 0xa8cb) ++ [0; 0]) 0 true = 0.
Proof.
  apply (checksum16_verifies [0x45; 0x00; 0x12; 0x34] [0; 0] 0 0xa8cb 0xa8cb).
  - repeat constructor; done.
  - repeat constructor; done.
  - done.
  - done.
  - vm_compute; reflexivity.
  - by left.
Defined.

(** The checksum detects every change of a single byte: when a packet is
    accepted, no packet that differs from it in exactly one byte is. *)
Lemma checksum16_detects_byte_error offset a x y b pre :
  are_bytes a -> are_bytes b -> is_byte x -> is_byte y -> x <> y ->
  0 <= pre <= 65535 ->
  checksum16 offset (a ++ x :: b) pre true = 0 ->
  checksum16 offset (a ++ y :: b) pre true <> 0.
Proof.
  intros Ha Hb Hx Hy Hne Hp Hok.
  assert (forall z, is_byte z -> are_bytes (a ++ z :: b)) as Hab.
  { intros z Hz. apply Forall_app; split; [done|]. by constructor. }
  rewrite checksum16_zero by auto. apply checksum16_zero in Hok; [|by auto|done].
  rewrite !word_sum_app in *. cbn [word_sum] in *. unfold is_byte in *.
  destruct Hok as [Hm Hpos]. intros [Hm' _].
  case_match; zdm.
Qed.

