(* ===== verification/IpAddr.v ===== *)
(** * IPv4 addresses (net/ipaddr.c)

    An [ipaddr_t] is its [q_addr], a [uint32_t] in host order; a pointer to
    one that may be null is an [option].  A C string is the list of its
    characters; reading at or past the end of the list reads the NUL. *)

From S2P Require Import Prelude.

(** ** Definitions *)

Definition IPV4_ADDR_BROADCAST : Z := 0xffffffff.
Definition IPV4_ADDR_SIZE : nat := 4.

(** [*p] *)
Definition cur (p : bytes) : Z := hd 0 p.
Definition is_digit (c : Z) : bool := (48 <=? c) && (c <=? 57).

Fixpoint parse_octet_loop (p : bytes) (number digits : Z)
    : option (Z * Z * bytes) :=
  match p with
  | c :: p' =>
      if is_digit c then
        let number := u32 (number * 10 + (c - 48)) in
        if 255 <? number then None
        else parse_octet_loop p' number (digits + 1)
      else Some (number, digits, p)
  | [] => Some (number, digits, [])
  end.

(** [None] is the return value -1; otherwise the octet and the new cursor. *)
Definition parse_octet (cursor : bytes) : option (Z * bytes) :=
  match parse_octet_loop cursor 0 0 with
  | None => None
  | Some (number, digits, p) =>
      if (digits =? 0) || ((1 <? digits) && (cur cursor =? 48)) then None
      else Some (u8 number, p)
  end.

Definition ipaddr_set_any : Z := 0.

(** [ipaddr_from_buf] on a buffer of four bytes. *)
Definition ipaddr_from_buf (ip_buf : bytes) : Z :=
  Z.lor (Z.lor (Z.lor (u32 (Z.shiftl (byte_at ip_buf 0) 24))
                      (u32 (Z.shiftl (byte_at ip_buf 1) 16)))
               (u32 (Z.shiftl (byte_at ip_buf 2) 8)))
        (byte_at ip_buf 3).

(** The four bytes [ipaddr_to_buf] stores. *)
Definition ipaddr_to_buf (src : Z) : bytes :=
  [u8 (Z.shiftr src 24); u8 (Z.shiftr src 16); u8 (Z.shiftr src 8); u8 src].

(** The loop over the octets, [n] of them left; [acc] holds the bytes so far. *)
Fixpoint ipaddr_from_str_loop (n : nat) (cursor acc : bytes)
    : option (bytes * bytes) :=
  match n with
  | O => Some (acc, cursor)
  | S n' =>
      match parse_octet cursor with
      | None => None
      | Some (value, cursor) =>
          match n' with
          | O => Some (acc ++ [value], cursor)
          | S _ =>
              if cur cursor =? 46
              then ipaddr_from_str_loop n' (tail cursor) (acc ++ [value])
              else None
          end
      end
  end.

(** The error code and the new contents of [*dest]. *)
Definition ipaddr_from_str (dest : option Z) (str : option bytes)
    : Z * option Z :=
  match dest, str with
  | Some d, Some s =>
      match ipaddr_from_str_loop IPV4_ADDR_SIZE s [] with
      | None => (NET_ERR_PARAM, Some d)
      | Some (bs, cursor) =>
          if cur cursor =? 0 then (NET_ERR_OK, Some (ipaddr_from_buf bs))
          else (NET_ERR_PARAM, Some d)
      end
  | _, _ => (NET_ERR_PARAM, dest)
  end.

Definition ipaddr_get_any : Z := 0.

Definition ipaddr_copy (dest src : option Z) : option Z :=
  match dest, src with Some _, Some s => Some s | _, _ => dest end.

Definition ipaddr_is_equal (left right : option Z) : bool :=
  match left, right with Some l, Some r => l =? r | _, _ => false end.

Definition ipaddr_is_local_broadcast (ip : option Z) : bool :=
  match ip with Some a => a =? IPV4_ADDR_BROADCAST | None => false end.

(** [~x] of a [uint32_t]. *)
Definition not32 (x : Z) : Z := u32 (Z.lnot x).

Definition ipaddr_is_direct_broadcast (ip netmask : option Z) : bool :=
  match ip, netmask with
  | Some a, Some m =>
      Z.land a (not32 m) =? Z.land IPV4_ADDR_BROADCAST (not32 m)
  | _, _ => false
  end.

Definition ipaddr_is_any (ip : option Z) : bool :=
  match ip with Some a => a =? 0 | None => false end.

Definition ipaddr_get_net (ip netmask : option Z) : Z :=
  match ip, netmask with Some a, Some m => Z.land a m | _, _ => 0 end.

Definition ipaddr_is_match (dest src netmask : option Z) : bool :=
  match dest, src, netmask with
  | Some _, Some _, Some _ =>
      let dest_net := ipaddr_get_net dest netmask in
      let src_net := ipaddr_get_net src netmask in
      if ipaddr_is_local_broadcast dest ||
         (ipaddr_is_direct_broadcast dest netmask &&
          ipaddr_is_equal (Some dest_net) (Some src_net))
      then true
      else ipaddr_is_equal dest src
  | _, _, _ => false
  end.

Definition ipaddr_set_all_1 : Z := IPV4_ADDR_BROADCAST.

Fixpoint ipaddr_1_cnt_loop (fuel : nat) (value count : Z) : Z :=
  if value =? 0 then count
  else match fuel with
       | O => count
       | S fuel => ipaddr_1_cnt_loop fuel (Z.shiftr value 1)
                     (count + Z.land value 1)
       end.

(** A [uint32_t] is zero after 32 shifts. *)
Definition ipaddr_1_cnt (ip : option Z) : Z :=
  match ip with Some a => ipaddr_1_cnt_loop 32 a 0 | None => 0 end.

Definition ipaddr_set_loop : Z := 0x7f000001.

(** ** Specification: dotted-decimal notation *)

(** The decimal numeral of an octet, without leading zeros. *)
Definition dec_octet (v : Z) : bytes :=
  if v <? 10 then [48 + v]
  else if v <? 100 then [48 + v / 10; 48 + v mod 10]
  else [48 + v / 100; 48 + v / 10 mod 10; 48 + v mod 10].

(** "a.b.c.d" *)
Definition dotted (v : Z) : bytes :=
  dec_octet (v / 2 ^ 24) ++ 46 :: dec_octet (v / 2 ^ 16 mod 256) ++
  46 :: dec_octet (v / 2 ^ 8 mod 256) ++ 46 :: dec_octet (v mod 256).

(** ** Octets *)

Lemma is_digit_spec c : is_digit c = true <-> 48 <= c <= 57.
Proof. unfold is_digit. lia. Qed.

Lemma is_digit_false c : is_digit c = false <-> ~ 48 <= c <= 57.
Proof. unfold is_digit. lia. Qed.

Lemma parse_octet_loop_nondigit p n d :
  is_digit (cur p) = false -> parse_octet_loop p n d = Some (n, d, p).
Proof. destruct p as [|c p]; [done|]. cbn. by intros ->. Qed.

Lemma parse_octet_loop_digit c p n d :
  is_digit c = true -> 0 <= n <= 255 ->
  parse_octet_loop (c :: p) n d =
    if 255 <? n * 10 + (c - 48) then None
    else parse_octet_loop p (n * 10 + (c - 48)) (d + 1).
Proof.
  intros Hc Hn. cbn. rewrite Hc. apply is_digit_spec in Hc.
  by rewrite u32_small by lia.
Qed.

Lemma parse_octet_loop_digits p n d n' d' p' :
  parse_octet_loop p n d = Some (n', d', p') -> d <= d'.
Proof.
  revert n d. induction p as [|c p IH]; intros n d; cbn; [by intros [= <- <- <-]|].
  destruct (is_digit c); [|by intros [= <- <- <-]].
  case_match; [done|]. intros Hp%IH. lia.
Qed.

Lemma parse_octet_dec v rest :
  0 <= v < 256 -> is_digit (cur rest) = false ->
  parse_octet (dec_octet v ++ rest) = Some (v, rest).
Proof.
  intros Hv Hr. unfold parse_octet, dec_octet.
  destruct (Z.ltb_spec v 10); [|destruct (Z.ltb_spec v 100)]; cbn [app].
  all: repeat (rewrite parse_octet_loop_digit by (try apply is_digit_spec; zdm);
       rewrite (proj2 (Z.ltb_ge _ _)) by zdm).
  all: rewrite parse_octet_loop_nondigit by done; cbn [cur hd].
  all: rewrite (proj2 (orb_false_iff _ _)) by (split; [done|];
         apply andb_false_iff; zdm).
  all: do 2 f_equal; rewrite u8_small; zdm.
Qed.

Lemma cur_cons_digit s : is_digit (cur s) = true -> exists c s', s = c :: s' /\ 48 <= c <= 57.
Proof. destruct s as [|c s]; [done|]. intros ?%is_digit_spec. by exists c, s. Qed.

(** One more character of the numeral: either it ends here, or its next
    character is a digit that has been read. *)
Ltac octet_step H s c s' :=
  let D := fresh "D" in
  destruct (is_digit (cur s)) eqn:D;
  [apply cur_cons_digit in D as (c & s' & -> & ?);
   rewrite parse_octet_loop_digit in H by (try apply is_digit_spec; lia)
  |rewrite parse_octet_loop_nondigit in H by done].

Ltac octet_done H :=
  cbn in H; injection H as <- <-; rewrite u8_small by lia; unfold dec_octet;
  rewrite ?(proj2 (Z.ltb_ge _ _)), ?(proj2 (Z.ltb_lt _ _)) by lia;
  repeat split; [lia..| |done]; cbn; repeat (f_equal; [zdm|]); f_equal; zdm.

Lemma parse_octet_inv s v rest :
  parse_octet s = Some (v, rest) ->
  0 <= v < 256 /\ s = dec_octet v ++ rest /\ is_digit (cur rest) = false.
Proof.
  unfold parse_octet. intros H.
  octet_step H s c1 s1; [|done].
  rewrite (proj2 (Z.ltb_ge _ _)) in H by lia. cbn [cur hd] in H.
  octet_step H s1 c2 s2; [|octet_done H].
  rewrite (proj2 (Z.ltb_ge _ _)) in H by lia.
  destruct (Z.eqb_spec c1 48) as [->|Hc1].
  { destruct (parse_octet_loop s2 _ _) as [[[n d] p]|] eqn:E; [|done].
    apply parse_octet_loop_digits in E.
    rewrite (proj2 (orb_true_iff _ _)) in H; [done|]. lia. }
  octet_step H s2 c3 s3; [|octet_done H].
  destruct (Z.ltb_spec 255 (((0 * 10 + (c1 - 48)) * 10 + (c2 - 48)) * 10 + (c3 - 48)));
    [done|].
  octet_step H s3 c4 s4; [|octet_done H].
  by rewrite (proj2 (Z.ltb_lt _ _)) in H by lia.
Qed.

(** ** Buffers *)

Lemma ipaddr_from_buf_eq b0 b1 b2 b3 :
  is_byte b0 -> is_byte b1 -> is_byte b2 -> is_byte b3 ->
  ipaddr_from_buf [b0; b1; b2; b3] =
    b0 * 2 ^ 24 + b1 * 2 ^ 16 + b2 * 2 ^ 8 + b3.
Proof.
  unfold is_byte. intros. unfold ipaddr_from_buf, byte_at. cbn [nth].
  rewrite !shiftl_mul, !u32_small by lia.
  rewrite (lor_mul_add b0 24) by lia.
  replace (b0 * 2 ^ 24 + b1 * 2 ^ 16) with ((b0 * 2 ^ 8 + b1) * 2 ^ 16) by lia.
  rewrite (lor_mul_add _ 16) by lia.
  replace ((b0 * 2 ^ 8 + b1) * 2 ^ 16 + b2 * 2 ^ 8)
    with (((b0 * 2 ^ 8 + b1) * 2 ^ 8 + b2) * 2 ^ 8) by lia.
  rewrite (lor_mul_add _ 8) by lia. lia.
Qed.

Lemma length_ipaddr_to_buf a : length (ipaddr_to_buf a) = IPV4_ADDR_SIZE.
Proof. done. Qed.

Lemma are_bytes_ipaddr_to_buf a : are_bytes (ipaddr_to_buf a).
Proof. repeat constructor; apply u8_range. Qed.

Lemma ipaddr_from_to_buf a :
  0 <= a < 2 ^ 32 -> ipaddr_from_buf (ipaddr_to_buf a) = a.
Proof.
  intros Ha. unfold ipaddr_to_buf.
  rewrite ipaddr_from_buf_eq by apply u8_range.
  rewrite !shiftr_div by done. unfold u8. zdm.
Qed.

Lemma ipaddr_to_from_buf bs :
  are_bytes bs -> length bs = IPV4_ADDR_SIZE ->
  ipaddr_to_buf (ipaddr_from_buf bs) = bs.
Proof.
  intros Hb Hl. destruct bs as [|b0 [|b1 [|b2 [|b3 [|]]]]]; try done.
  decompose_Forall_hyps.
  rewrite ipaddr_from_buf_eq by done. unfold is_byte in *.
  unfold ipaddr_to_buf, u8. rewrite !shiftr_div by done.
  repeat (f_equal; [zdm|]). f_equal. zdm.
Qed.

Lemma ipaddr_from_buf_range bs :
  are_bytes bs -> length bs = IPV4_ADDR_SIZE -> 0 <= ipaddr_from_buf bs < 2 ^ 32.
Proof.
  intros Hb Hl. destruct bs as [|b0 [|b1 [|b2 [|b3 [|]]]]]; try done.
  decompose_Forall_hyps.
  rewrite ipaddr_from_buf_eq by done. unfold is_byte in *. lia.
Qed.

(** ** The parser *)

Lemma ipaddr_from_str_loop_step n s acc v rest :
  parse_octet s = Some (v, 46 :: rest) ->
  ipaddr_from_str_loop (S (S n)) s acc =
    ipaddr_from_str_loop (S n) rest (acc ++ [v]).
Proof. intros H. cbn [ipaddr_from_str_loop]. by rewrite H. Qed.

Lemma ipaddr_from_str_loop_inv n s acc bs rest :
  ipaddr_from_str_loop (S (S n)) s acc = Some (bs, rest) ->
  exists v s', 0 <= v < 256 /\ s = dec_octet v ++ 46 :: s' /\
    ipaddr_from_str_loop (S n) s' (acc ++ [v]) = Some (bs, rest).
Proof.
  cbn [ipaddr_from_str_loop]. intros H.
  destruct (parse_octet s) as [[v p]|] eqn:E; [|done].
  apply parse_octet_inv in E as (Hv & -> & _).
  destruct (Z.eqb_spec (cur p) 46) as [Ec|]; [|done].
  destruct p as [|c p]; [done|]. cbn in Ec. subst c. by exists v, p.
Qed.

Lemma ipaddr_from_str_loop_last s acc bs rest :
  ipaddr_from_str_loop 1 s acc = Some (bs, rest) ->
  exists v, 0 <= v < 256 /\ s = dec_octet v ++ rest /\ bs = acc ++ [v].
Proof.
  cbn [ipaddr_from_str_loop]. intros H.
  destruct (parse_octet s) as [[v p]|] eqn:E; [|done].
  apply parse_octet_inv in E as (Hv & -> & _). injection H as <- <-. by exists v.
Qed.

(** C31: [ipaddr_from_str] accepts exactly the canonical dotted-decimal
    notation (four octets in 0..255 without leading zeros or other characters
    before, between or after them) and stores the address it denotes; on any
    other string it reports [NET_ERR_PARAM] and leaves [*dest] as it was.
    In particular parsing inverts printing. *)
Theorem ipaddr_from_str_iff d s a :
  Forall (fun c => c <> 0) s ->
  (ipaddr_from_str (Some d) (Some s) = (NET_ERR_OK, Some a) <->
     0 <= a < 2 ^ 32 /\ s = dotted a) /\
  (fst (ipaddr_from_str (Some d) (Some s)) <> NET_ERR_OK ->
     ipaddr_from_str (Some d) (Some s) = (NET_ERR_PARAM, Some d)).
Proof.
  intros Hs. unfold ipaddr_from_str, IPV4_ADDR_SIZE. split; [split|].
  - destruct (ipaddr_from_str_loop 4 s []) as [[bs rest]|] eqn:E; [|done].
    destruct (Z.eqb_spec (cur rest) 0) as [Er|]; [|done].
    apply ipaddr_from_str_loop_inv in E as (v0 & s0 & ? & -> & E).
    apply ipaddr_from_str_loop_inv in E as (v1 & s1 & ? & -> & E).
    apply ipaddr_from_str_loop_inv in E as (v2 & s2 & ? & -> & E).
    apply ipaddr_from_str_loop_last in E as (v3 & ? & -> & ->).
    assert (rest = []) as ->.
    { destruct rest as [|c rest]; [done|]. cbn in Er. subst c.
      rewrite Forall_forall in Hs. exfalso. apply (Hs 0); [|done].
      set_solver. }
    cbn [app]. rewrite ipaddr_from_buf_eq by done. intros [= <-].
    split; [lia|]. unfold dotted. rewrite app_nil_r.
    f_equal; [f_equal; zdm|]. do 2 f_equal; [f_equal; zdm|].
    do 2 f_equal; [f_equal; zdm|]. do 2 f_equal. zdm.
  - intros [Ha ->]. unfold dotted.
    rewrite (ipaddr_from_str_loop_step 2 _ [] (a / 2 ^ 24) _), (ipaddr_from_str_loop_step 1 _ _ (a / 2 ^ 16 mod 256) _),
      (ipaddr_from_str_loop_step 0 _ _ (a / 2 ^ 8 mod 256) _)
      by (apply parse_octet_dec; [zdm|done]).
    cbn [ipaddr_from_str_loop].
    rewrite <- (app_nil_r (dec_octet (a mod 256))), parse_octet_dec by (try done; zdm).
    cbn. rewrite ipaddr_from_buf_eq by (unfold is_byte; zdm).
    do 2 f_equal. zdm.
  - destruct (ipaddr_from_str_loop 4 s []) as [[bs rest]|]; [|done].
    by destruct (cur rest =? 0).
Qed.

(** "192.168.100.2" *)
Lemma ipaddr_from_str_iff_witness :
  ipaddr_from_str (Some 0) (Some [49;57;50;46;49;54;56;46;49;48;48;46;50]) =
    (NET_ERR_OK, Some 0xc0a86402).
Proof.
  apply (ipaddr_from_str_iff 0 [49;57;50;46;49;54;56;46;49;48;48;46;50] 0xc0a86402).
  - by repeat constructor.
  - split; [done|vm_compute; reflexivity].
Defined.

