(* ===== verification/Nlist.v ===== *)
(** * The intrusive doubly linked list (net/nlist.c, net/nlist.h)

    Nodes live in a heap; a node pointer that may be null is an [option nat].
    The list object itself is never null at a call site (it is a static object
    or a member of a struct), so the [list == 0] tests of the source do not
    appear.  Dereferencing a node that is not in the heap is [Stuck]. *)

From S2P Require Import Prelude.

(** ** Definitions *)

Record nlist_node_t := Node { next : option nat; pre : option nat }.
Record nlist_t := NList { nl_first : option nat; nl_last : option nat; nl_count : Z }.
Record nlist_mem := NMem { heap : gmap nat nlist_node_t; lst : nlist_t }.

#[global] Instance nlist_node_settable : Settable nlist_node_t :=
  fun r => Node (next r) (pre r).
#[global] Instance nlist_settable : Settable nlist_t :=
  fun r => NList (nl_first r) (nl_last r) (nl_count r).
#[global] Instance nlist_mem_settable : Settable nlist_mem :=
  fun r => NMem (heap r) (lst r).

Definition load (n : nat) : M nlist_mem nlist_node_t :=
  s ← get; deref (heap s !! n).

Definition store (n : nat) (f : nlist_node_t -> nlist_node_t)
    : M nlist_mem unit :=
  nd ← load n; modify (fun s => s <| heap := <[n := f nd]> (heap s) |>).

Definition set_list (f : nlist_t -> nlist_t) : M nlist_mem unit :=
  modify (fun s => s <| lst := f (lst s) |>).

Definition nlist_node_init (node : option nat) : M nlist_mem unit :=
  match node with
  | Some n => store n (fun _ => Node None None)
  | None => mret ()
  end.

Definition nlist_node_next (node : option nat) : M nlist_mem (option nat) :=
  match node with
  | Some n => nd ← load n; mret (next nd)
  | None => mret None
  end.

Definition nlist_node_pre (node : option nat) : M nlist_mem (option nat) :=
  match node with
  | Some n => nd ← load n; mret (pre nd)
  | None => mret None
  end.

Definition nlist_node_set_next (p nx : option nat) : M nlist_mem unit :=
  match p with
  | Some n => store n (fun nd => nd <| next := nx |>)
  | None => mret ()
  end.

Definition nlist_init : M nlist_mem unit := set_list (fun _ => NList None None 0).
Definition nlist_is_empty : M nlist_mem bool := gets (fun s => nl_count (lst s) =? 0).
Definition nlist_count : M nlist_mem Z := gets (fun s => nl_count (lst s)).
Definition nlist_first : M nlist_mem (option nat) := gets (fun s => nl_first (lst s)).
Definition nlist_last : M nlist_mem (option nat) := gets (fun s => nl_last (lst s)).

Definition nlist_insert_first (node : option nat) : M nlist_mem unit :=
  match node with
  | None => mret ()
  | Some n =>
      store n (fun nd => nd <| pre := None |>);;
      f ← nlist_first;
      store n (fun nd => nd <| next := f |>);;
      match f with
      | Some f => store f (fun nd => nd <| pre := Some n |>)
      | None => set_list (fun l => l <| nl_last := Some n |>)
      end;;
      set_list (fun l => l <| nl_first := Some n |> <| nl_count := nl_count l + 1 |>)
  end.

Definition nlist_remove (node : option nat) : M nlist_mem (option nat) :=
  match node with
  | None => mret None
  | Some n =>
      l ← gets lst;
      if nl_count l =? 0 then mret None
      else
        nd ← load n;
        when (bool_decide (nl_first l = Some n))
          (set_list (fun l => l <| nl_first := next nd |>));;
        when (bool_decide (nl_last l = Some n))
          (set_list (fun l => l <| nl_last := pre nd |>));;
        match pre nd with
        | Some p => store p (fun pd => pd <| next := next nd |>)
        | None => mret ()
        end;;
        match next nd with
        | Some x => store x (fun xd => xd <| pre := pre nd |>)
        | None => mret ()
        end;;
        store n (fun nd => nd <| pre := None |>);;
        store n (fun nd => nd <| next := None |>);;
        set_list (fun l => l <| nl_count := nl_count l - 1 |>);;
        mret (Some n)
  end.

Definition nlist_insert_last (node : option nat) : M nlist_mem unit :=
  match node with
  | None => mret ()
  | Some n =>
      store n (fun nd => nd <| next := None |>);;
      l ← nlist_last;
      store n (fun nd => nd <| pre := l |>);;
      match l with
      | Some l => store l (fun nd => nd <| next := Some n |>)
      | None => set_list (fun l => l <| nl_first := Some n |>)
      end;;
      set_list (fun l => l <| nl_last := Some n |> <| nl_count := nl_count l + 1 |>)
  end.

Definition nlist_insert_after (p node : option nat) : M nlist_mem unit :=
  match p, node with
  | Some p, Some n =>
      c ← nlist_count;
      if c =? 0 then nlist_insert_first (Some n)
      else
        store n (fun nd => nd <| pre := Some p |>);;
        pd ← load p;
        store n (fun nd => nd <| next := next pd |>);;
        match next pd with
        | Some x => store x (fun xd => xd <| pre := Some n |>)
        | None => set_list (fun l => l <| nl_last := Some n |>)
        end;;
        store p (fun pd => pd <| next := Some n |>);;
        set_list (fun l => l <| nl_count := nl_count l + 1 |>)
  | _, _ => mret ()
  end.

Definition nlist_remove_first : M nlist_mem (option nat) :=
  f ← nlist_first;
  match f with
  | Some f => nlist_remove (Some f);; mret (Some f)
  | None => mret None
  end.

Definition nlist_remove_last : M nlist_mem (option nat) :=
  l ← nlist_last;
  match l with
  | Some l => nlist_remove (Some l);; mret (Some l)
  | None => mret None
  end.

(** The nodes an [nlist_for_each] loop visits, in order. *)
Fixpoint nlist_walk (fuel : nat) (node : option nat) : M nlist_mem (list nat) :=
  match node, fuel with
  | None, _ => mret []
  | Some _, O => stuck
  | Some n, S fuel =>
      nx ← nlist_node_next (Some n);
      rest ← nlist_walk fuel nx;
      mret (n :: rest)
  end.

Definition nlist_for_each : M nlist_mem (list nat) :=
  s ← get; nlist_walk (Z.to_nat (nl_count (lst s))) (nl_first (lst s)).

(** ** The representation of a list of nodes *)

(** [links h p xs n]: the nodes [xs] are chained in both directions in [h];
    the node before the first one is [p] and the one after the last is [n]. *)
Fixpoint links (h : gmap nat nlist_node_t) (p : option nat) (xs : list nat)
    (n : option nat) : Prop :=
  match xs with
  | [] => True
  | x :: rest =>
      h !! x = Some (Node (head (rest ++ option_list n)) p) /\
      links h (Some x) rest n
  end.

Definition nlist_rep (s : nlist_mem) (xs : list nat) : Prop :=
  NoDup xs /\ links (heap s) None xs None /\
  lst s = NList (head xs) (last xs) (len xs).

(** The heap [h'] agrees with [h] on the nodes outside [xs]. *)
Definition frame_out (xs : list nat) (h h' : gmap nat nlist_node_t) : Prop :=
  forall m, m ∉ xs -> h' !! m = h !! m.

Lemma links_insert_ne h p xs n y nd :
  y ∉ xs -> links (<[y := nd]> h) p xs n <-> links h p xs n.
Proof.
  revert p. induction xs as [|x xs IH]; intros p Hy; simpl; [done|].
  apply not_elem_of_cons in Hy as [Hne Hy].
  rewrite lookup_insert_ne, IH by done. done.
Qed.

Lemma links_app h p l1 l2 n :
  links h p (l1 ++ l2) n <->
    links h p l1 (head (l2 ++ option_list n)) /\
    links h (match last l1 with Some x => Some x | None => p end) l2 n.
Proof.
  revert p. induction l1 as [|x l1 IH]; intros p; simpl; [tauto|].
  rewrite IH. replace (head ((l1 ++ l2) ++ option_list n))
    with (head (l1 ++ option_list (head (l2 ++ option_list n)))).
  - destruct l1 as [|y l1]; [cbn; tauto|]. rewrite last_cons_cons.
    destruct (last (y :: l1)) eqn:E; [tauto|]. by apply last_None in E.
  - rewrite <- app_assoc. destruct l1; [|done]. cbn.
    by destruct l2; [destruct n|].
Qed.

(** ** Every operation implements its list counterpart *)

Lemma load_ret s n nd : heap s !! n = Some nd -> load n s = Ret nd s.
Proof.
  intros H. unfold load. erewrite mbind_ret by reflexivity.
  unfold deref. by rewrite H.
Qed.

Lemma store_ret s n f nd :
  heap s !! n = Some nd ->
  store n f s = Ret () (s <| heap := <[n := f nd]> (heap s) |>).
Proof. intros H. unfold store. erewrite mbind_ret by (by apply load_ret). done. Qed.

(** Runs the next store or load of the code, whose node is in the heap. *)
Ltac nstep :=
  first
    [ erewrite mbind_ret by (apply store_ret; cbn; simplify_map_eq; reflexivity)
    | erewrite mbind_ret by (apply load_ret; cbn; simplify_map_eq; reflexivity) ];
  cbn beta.

(** Membership of a concrete node in a list of distinct nodes. *)
Ltac nodup_solve :=
  rewrite ?NoDup_app, ?NoDup_cons in *; set_solver.

Ltac nsimpl :=
  unfold upd_field in *; cbn [heap lst next pre nl_first nl_last nl_count
       links head app option_list last] in *.

(** Closes the [links] clause of [nlist_rep] after an update. *)
Ltac links_solve :=
  nsimpl; rewrite ?links_app, ?last_snoc; nsimpl;
  rewrite ?links_insert_ne by nodup_solve;
  split_and?; simplify_map_eq; first [done | by destruct (last _)].

Definition op_ok {A} (r : A) (m : M nlist_mem A) (s : nlist_mem)
    (touched ys : list nat) : Prop :=
  exists s', m s = Ret r s' /\ nlist_rep s' ys /\
    frame_out touched (heap s) (heap s') /\ dom (heap s') = dom (heap s).

Lemma frame_out_insert t h h' n nd :
  frame_out t h h' -> n ∈ t -> frame_out t h (<[n := nd]> h').
Proof.
  intros H Hn m Hm. rewrite lookup_insert_ne by set_solver. by apply H.
Qed.

Lemma dom_insert_in (h h' : gmap nat nlist_node_t) n nd nd' :
  dom h' = dom h -> h !! n = Some nd' -> dom (<[n := nd]> h') = dom h.
Proof. intros H Hn%elem_of_dom_2. rewrite dom_insert_L, H. set_solver. Qed.

Ltac frame_solve :=
  nsimpl; split;
  [repeat (apply frame_out_insert; [|set_solver]); intros ??; done
  |repeat (eapply dom_insert_in; [|by simplify_map_eq]); done].

Lemma nlist_insert_first_rep s xs n :
  nlist_rep s xs -> n ∉ xs -> n ∈ dom (heap s) ->
  op_ok () (nlist_insert_first (Some n)) s (n :: xs) (n :: xs).
Proof.
  intros (Hnd & Hl & Hs) Hn [nd Hd]%elem_of_dom.
  destruct s as [h l]. cbn in *. subst l.
  unfold nlist_insert_first. unfold op_ok. nstep.
  erewrite mbind_ret by reflexivity. cbn. nstep.
  destruct xs as [|x xs]; cbn.
  - eexists. split; [done|]. split; [|frame_solve].
    split_and!; [by apply NoDup_singleton|links_solve|done].
  - destruct Hl as [Hx Hl]. apply not_elem_of_cons in Hn as [Hne Hn].
    nstep. eexists. split; [done|]. split; [|frame_solve].
    split_and!; [nodup_solve|links_solve|].
    unfold upd_field; cbn [lst nl_count nl_last nl_first head length]. f_equal. lia.
Qed.

Lemma nlist_insert_last_rep s xs n :
  nlist_rep s xs -> n ∉ xs -> n ∈ dom (heap s) ->
  op_ok () (nlist_insert_last (Some n)) s (n :: xs) (xs ++ [n]).
Proof.
  intros (Hnd & Hl & Hs) Hn [nd Hd]%elem_of_dom.
  destruct s as [h l]. cbn in *. subst l.
  unfold nlist_insert_last. unfold op_ok. nstep.
  erewrite mbind_ret by reflexivity. cbn. nstep.
  destruct xs as [|x xs _] using rev_ind; cbn.
  - eexists. split; [done|]. split; [|frame_solve].
    split_and!; [by apply NoDup_singleton|links_solve|done].
  - rewrite last_snoc. rewrite links_app in Hl. destruct Hl as [Hl [Hx _]].
    apply not_elem_of_app in Hn as [Hn Hne%not_elem_of_cons]. destruct Hne as [Hne _].
    cbn in Hx. nstep. eexists. split; [done|]. split; [|frame_solve].
    split_and!; [nodup_solve|links_solve|].
    nsimpl. rewrite !last_snoc, !length_app. cbn [length].
    destruct xs; cbn; f_equal; lia.
Qed.

Lemma head_mid (l1 : list nat) n l2 :
  NoDup (l1 ++ n :: l2) ->
  bool_decide (head (l1 ++ n :: l2) = Some n) = bool_decide (l1 = []).
Proof.
  intros Hnd. destruct l1 as [|x l1]; [by rewrite !bool_decide_eq_true_2|].
  rewrite !bool_decide_eq_false_2; [done..|]. cbn. intros [= ->].
  rewrite <- app_comm_cons, NoDup_cons in Hnd. set_solver.
Qed.

Lemma last_mid (l1 : list nat) n l2 :
  NoDup (l1 ++ n :: l2) ->
  bool_decide (last (l1 ++ n :: l2) = Some n) = bool_decide (l2 = []).
Proof.
  intros Hnd. destruct l2 as [|x l2 _] using rev_ind.
  { rewrite last_snoc. by rewrite !bool_decide_eq_true_2. }
  rewrite app_comm_cons, app_assoc, last_snoc in *.
  rewrite !bool_decide_eq_false_2; [done| |].
  - intros ?%(f_equal length). rewrite length_app in H. cbn in H. lia.
  - intros [= ->]. apply NoDup_app in Hnd. set_solver.
Qed.

(** A node of the list has the previous and the next node of the list. *)
Lemma links_mid (h : gmap nat nlist_node_t) l1 n l2 :
  links h None (l1 ++ n :: l2) None ->
  links h None l1 (Some n) /\ h !! n = Some (Node (head l2) (last l1)) /\
  links h (Some n) l2 None.
Proof.
  rewrite links_app. cbn. rewrite app_nil_r.
  intros (? & Hn & ?). split_and!; [done| |done]. by destruct (last l1).
Qed.

(** Closes the clause of [nlist_rep] about the list object. *)
Ltac list_object_solve l1 :=
  rewrite ?last_app, ?length_app; cbn [length last];
  f_equal; first [done | lia | by destruct l1 | by destruct (last _)].

Lemma nlist_remove_rep s l1 n l2 :
  nlist_rep s (l1 ++ n :: l2) ->
  op_ok (Some n) (nlist_remove (Some n)) s (l1 ++ n :: l2) (l1 ++ l2).
Proof.
  intros (Hnd & Hl & Hs). destruct s as [h l]. cbn in *. subst l.
  apply links_mid in Hl as (Hl1 & Hn & Hl2).
  assert (Hc : (len (l1 ++ n :: l2) =? 0) = false) by (apply Z.eqb_neq; rewrite length_app; cbn [length]; lia).
  unfold nlist_remove, op_ok. erewrite mbind_ret by reflexivity. cbn [nl_count lst].
  rewrite Hc. nstep. cbn [lst nl_first nl_last pre next].
  rewrite head_mid, last_mid by done.
  destruct l1 as [|p l1 _] using rev_ind; destruct l2 as [|x l2].
  all: rewrite ?links_app, ?last_snoc in *; nsimpl; destruct_and?.
  all: try assert (n <> p) by nodup_solve; try assert (n <> x) by nodup_solve.
  all: try assert (p <> x) by nodup_solve.
  all: try rewrite (bool_decide_eq_false_2 (_ ++ [_] = [])) by (by destruct l1).
  all: unfold when; cbn [bool_decide decide_rel].
  all: repeat (first [nstep | erewrite mbind_ret by reflexivity]).
  all: eexists; split; [reflexivity|]; split; [|frame_solve].
  all: split_and!; [nodup_solve|links_solve|].
  all: nsimpl; rewrite ?app_nil_r; list_object_solve l1.
Qed.

Lemma nlist_insert_after_rep s l1 p l2 n :
  nlist_rep s (l1 ++ p :: l2) -> n ∉ l1 ++ p :: l2 -> n ∈ dom (heap s) ->
  op_ok () (nlist_insert_after (Some p) (Some n)) s
    (n :: l1 ++ p :: l2) (l1 ++ p :: n :: l2).
Proof.
  intros (Hnd & Hl & Hs) Hnin [nd Hd]%elem_of_dom.
  destruct s as [h l]. cbn in *. subst l.
  apply links_mid in Hl as (Hl1 & Hp & Hl2).
  assert (Hc : (len (l1 ++ p :: l2) =? 0) = false)
    by (apply Z.eqb_neq; rewrite length_app; cbn [length]; lia).
  unfold nlist_insert_after, op_ok. erewrite mbind_ret by reflexivity.
  cbn [nl_count lst]. rewrite Hc. assert (n <> p) by set_solver.
  nstep. nstep. nstep. cbn [next].
  destruct l2 as [|x l2]; nsimpl; destruct_and?.
  all: try assert (n <> x) by set_solver; try assert (p <> x) by nodup_solve.
  all: repeat (first [nstep | erewrite mbind_ret by reflexivity]).
  all: eexists; split; [reflexivity|]; split; [|frame_solve].
  all: split_and!; [nodup_solve|links_solve|].
  all: nsimpl; list_object_solve l1.
Qed.

Lemma nlist_remove_first_rep s xs :
  nlist_rep s xs -> op_ok (head xs) nlist_remove_first s xs (tail xs).
Proof.
  intros Hr. pose proof Hr as (_ & _ & Hl).
  unfold op_ok, nlist_remove_first, nlist_first.
  erewrite mbind_ret by reflexivity. rewrite Hl. cbn [nl_first].
  destruct xs as [|x xs]; cbn [head tail].
  - exists s. by split_and!.
  - destruct (nlist_remove_rep s [] x xs Hr) as (s' & He & H).
    exists s'. split; [|done]. by erewrite mbind_ret by done.
Qed.

Lemma nlist_remove_last_rep s xs :
  nlist_rep s xs -> op_ok (last xs) nlist_remove_last s xs (removelast xs).
Proof.
  intros Hr. pose proof Hr as (_ & _ & Hl).
  unfold op_ok, nlist_remove_last, nlist_last.
  erewrite mbind_ret by reflexivity. rewrite Hl. cbn [nl_last].
  destruct xs as [|x xs _] using rev_ind; cbn [head tail].
  - exists s. by split_and!.
  - rewrite last_snoc, removelast_last.
    destruct (nlist_remove_rep s xs x [] Hr) as (s' & He & H).
    exists s'. rewrite app_nil_r in H. split; [|done]. by erewrite mbind_ret by done.
Qed.

Lemma nlist_walk_links s p xs :
  links (heap s) p xs None -> nlist_walk (length xs) (head xs) s = Ret xs s.
Proof.
  revert p. induction xs as [|x xs IH]; intros p; [done|].
  cbn [links length head nlist_walk]. intros [Hx Hl].
  unfold nlist_node_next. erewrite mbind_ret; cycle 1.
  { erewrite mbind_ret by (by apply load_ret). done. }
  cbn [next]. rewrite app_nil_r. erewrite mbind_ret by (by eapply IH). done.
Qed.

Lemma nlist_for_each_rep s xs :
  nlist_rep s xs -> nlist_for_each s = Ret xs s.
Proof.
  intros (_ & Hl & Hs). unfold nlist_for_each. erewrite mbind_ret by reflexivity.
  rewrite Hs. cbn [nl_count nl_first]. rewrite Nat2Z.id. by eapply nlist_walk_links.
Qed.

(** ** Sequences of operations

    The abstract list: the operations on a list of distinct nodes, defined
    when the caller respects their contract (an inserted node is not already
    linked, the node removed or inserted after is). *)

Inductive nl_op :=
| InsertFirst (n : nat)
| InsertLast (n : nat)
| InsertAfter (p n : nat)
| Remove (n : nat)
| RemoveFirst
| RemoveLast.

Definition run_op (o : nl_op) : M nlist_mem (option nat) :=
  match o with
  | InsertFirst n => nlist_insert_first (Some n);; mret None
  | InsertLast n => nlist_insert_last (Some n);; mret None
  | InsertAfter p n => nlist_insert_after (Some p) (Some n);; mret None
  | Remove n => nlist_remove (Some n)
  | RemoveFirst => nlist_remove_first
  | RemoveLast => nlist_remove_last
  end.

Fixpoint run_ops (os : list nl_op) : M nlist_mem (list (option nat)) :=
  match os with
  | [] => mret []
  | o :: os => r ← run_op o; rs ← run_ops os; mret (r :: rs)
  end.

Definition op_node (o : nl_op) : option nat :=
  match o with
  | InsertFirst n | InsertLast n | InsertAfter _ n => Some n
  | _ => None
  end.

Fixpoint insert_after (p n : nat) (xs : list nat) : list nat :=
  match xs with
  | [] => []
  | x :: xs => if decide (x = p) then x :: n :: xs else x :: insert_after p n xs
  end.

Fixpoint remove_node (n : nat) (xs : list nat) : list nat :=
  match xs with
  | [] => []
  | x :: xs => if decide (x = n) then xs else x :: remove_node n xs
  end.

Definition spec_op (o : nl_op) (xs : list nat) : option (option nat * list nat) :=
  match o with
  | InsertFirst n => guard (n ∉ xs);; Some (None, n :: xs)
  | InsertLast n => guard (n ∉ xs);; Some (None, xs ++ [n])
  | InsertAfter p n => guard (n ∉ xs);; guard (p ∈ xs);; Some (None, insert_after p n xs)
  | Remove n => guard (n ∈ xs);; Some (Some n, remove_node n xs)
  | RemoveFirst => Some (head xs, tail xs)
  | RemoveLast => Some (last xs, removelast xs)
  end.

Fixpoint spec_ops (os : list nl_op) (xs : list nat)
    : option (list (option nat) * list nat) :=
  match os with
  | [] => Some ([], xs)
  | o :: os =>
      '(r, ys) ← spec_op o xs; '(rs, zs) ← spec_ops os ys; Some (r :: rs, zs)
  end.

Lemma insert_after_mid l1 p n l2 :
  p ∉ l1 -> insert_after p n (l1 ++ p :: l2) = l1 ++ p :: n :: l2.
Proof.
  induction l1 as [|x l1 IH]; cbn; intros Hp; [by rewrite decide_True|].
  rewrite decide_False by set_solver. f_equal. apply IH. set_solver.
Qed.

Lemma insert_before (l1 l2 : list nat) x :
  NoDup (l1 ++ l2) ->
  (match last l1 with Some p => insert_after p x | None => cons x end) (l1 ++ l2)
    = l1 ++ x :: l2.
Proof.
  intros Hnd. destruct l1 as [|p l1 _] using rev_ind; [done|].
  rewrite last_snoc, <- !app_assoc. cbn. rewrite insert_after_mid; [done|].
  nodup_solve.
Qed.

Lemma remove_node_mid l1 n l2 :
  n ∉ l1 -> remove_node n (l1 ++ n :: l2) = l1 ++ l2.
Proof.
  induction l1 as [|x l1 IH]; cbn; intros Hp; [by rewrite decide_True|].
  rewrite decide_False by set_solver. f_equal. apply IH. set_solver.
Qed.

Lemma op_ok_seq {A} (r : A) (m : M nlist_mem unit) s t ys :
  op_ok () m s t ys -> op_ok r (m;; mret r) s t ys.
Proof.
  intros (s' & He & H). exists s'. split; [|done]. by erewrite mbind_ret by done.
Qed.

Lemma run_op_ok o s xs r ys :
  nlist_rep s xs -> Forall (fun n => n ∈ dom (heap s)) (option_list (op_node o)) ->
  spec_op o xs = Some (r, ys) ->
  op_ok r (run_op o) s (option_list (op_node o) ++ xs) ys.
Proof.
  intros Hr Hd Hs. destruct o as [n|n|p n|n| |]; cbn in *.
  all: decompose_Forall_hyps; try case_guard; simplify_option_eq.
  - by apply op_ok_seq, nlist_insert_first_rep.
  - by apply op_ok_seq, nlist_insert_last_rep.
  - destruct (list_elem_of_split xs p) as (l1 & l2 & ->); [done|].
    rewrite insert_after_mid; [by apply op_ok_seq, nlist_insert_after_rep|].
    destruct Hr as (Hnd & _). nodup_solve.
  - destruct (list_elem_of_split xs n) as (l1 & l2 & ->); [done|].
    rewrite remove_node_mid; [by apply nlist_remove_rep|].
    destruct Hr as (Hnd & _). nodup_solve.
  - by apply nlist_remove_first_rep.
  - by apply nlist_remove_last_rep.
Qed.

Lemma spec_op_subset o xs r ys :
  spec_op o xs = Some (r, ys) -> ys ⊆ option_list (op_node o) ++ xs.
Proof.
  intros Hs. destruct o as [n|n|p n|n| |]; cbn in *; simplify_option_eq; try set_solver.
  - induction xs as [|x xs IH]; cbn; [set_solver|]. case_decide; [set_solver|].
    destruct (decide (p ∈ xs)); [set_solver|]. set_solver.
  - clear. induction xs as [|x xs IH]; cbn; [set_solver|]. case_decide; set_solver.
  - destruct xs; set_solver.
  - clear. induction xs as [|x xs IH]; [set_solver|].
    cbn. destruct xs; set_solver.
Qed.

Definition ops_nodes (os : list nl_op) : list nat :=
  os ≫= fun o => option_list (op_node o).

(** C28: The linked list of nlist.c refines a list of distinct nodes.  Any
    sequence of insertions and removals that respects the contract runs
    without touching a node outside the heap, returns what the list operations
    return, leaves a list whose [nlist_for_each] traversal visits exactly the
    abstract list in order, and does not write any other node. *)
Theorem nlist_refines_list os s xs rs ys :
  nlist_rep s xs ->
  Forall (fun n => n ∈ dom (heap s)) (ops_nodes os) ->
  spec_ops os xs = Some (rs, ys) ->
  exists s', run_ops os s = Ret rs s' /\ nlist_rep s' ys /\
    nlist_for_each s' = Ret ys s' /\
    frame_out (ops_nodes os ++ xs) (heap s) (heap s').
Proof.
  revert s xs rs. induction os as [|o os IH]; intros s xs rs Hr Hd Hs.
  { simplify_eq/=. exists s. split_and!; [done..|by apply nlist_for_each_rep|done]. }
  cbn in Hd. rewrite Forall_app in Hd. destruct Hd as [Hd1 Hd2].
  cbn [spec_ops] in Hs. apply bind_Some in Hs as ([r zs] & Hs1 & Hs).
  apply bind_Some in Hs as ([rs' ws] & Hs2 & [= <- <-]).
  pose proof (spec_op_subset _ _ _ _ Hs1) as Hsub.
  destruct (run_op_ok o s xs r zs) as (s1 & He1 & Hr1 & Hf1 & Hdom); [done..|].
  destruct (IH s1 zs rs') as (s2 & He2 & Hr2 & Hw2 & Hf2); [done|by rewrite Hdom|done|].
  exists s2. split_and!; [|done..|].
  - cbn [run_ops]. erewrite mbind_ret by done. by erewrite mbind_ret by done.
  - intros m Hm. cbn in Hm. rewrite Hf2, Hf1; [done| |]; set_solver.
Qed.

(** Four nodes, of which two are used. *)
Definition four_nodes : nlist_mem :=
  NMem (list_to_map ((fun n => (n, Node None None)) <$> [1; 2; 3; 4]%nat))
    (NList None None 0).

Lemma nlist_refines_list_witness :
  exists s', run_ops [InsertFirst 1; InsertLast 3; InsertAfter 1 2; RemoveFirst]
               four_nodes = Ret [None; None; None; Some 1%nat] s' /\
    nlist_rep s' [2; 3]%nat /\ nlist_for_each s' = Ret [2; 3]%nat s' /\
    frame_out ([1; 3; 2] ++ [])%nat (heap four_nodes) (heap s').
Proof.
  apply (nlist_refines_list [InsertFirst 1; InsertLast 3; InsertAfter 1 2; RemoveFirst]
           four_nodes []).
  - split_and!; [apply NoDup_nil_2|done|done].
  - repeat constructor; vm_compute; eauto.
  - reflexivity.
Defined.
