(* ===== verification/Timer.v ===== *)
(** * The software timers (net/timer.c)

    A timer is a static [net_timer_t]; the model names it by a number.  The
    list of scheduled timers holds differences: [curr] of a timer is the time
    that passes between the expiry of the timer before it and its own.  The
    [nlist_t] objects are lists of timers here, with the list operations of
    [Nlist] (which the linked list refines).  The [timer_pending_t] records,
    one on the stack of each active [net_timer_check_tmo], are a list of the
    [wait_list]s, innermost first. *)

From S2P Require Import Prelude Nlist.

(** ** Definitions *)

Definition TIMER_NAME_SIZE : Z := 32.
Definition NET_TIMER_RELOAD : Z := 1.

(** [proc] and [arg] are the address of the callback and its argument. *)
Record net_timer_t := Timer {
  name : bytes; flags : Z; curr : Z; reload : Z; proc : Z; arg : Z }.

Record timer_state := TimerState {
  timers : gmap nat net_timer_t;
  timer_list : list nat;
  pending_timers : list (list nat) }.

#[global] Instance net_timer_settable : Settable net_timer_t :=
  fun r => Timer (name r) (flags r) (curr r) (reload r) (proc r) (arg r).
#[global] Instance timer_state_settable : Settable timer_state :=
  fun r => TimerState (timers r) (timer_list r) (pending_timers r).

Definition load_timer (t : nat) : M timer_state net_timer_t :=
  s ← get; deref (timers s !! t).

Definition store_timer (t : nat) (f : net_timer_t -> net_timer_t)
    : M timer_state unit :=
  tm ← load_timer t; modify (fun s => s <| timers := <[t := f tm]> (timers s) |>).

Definition set_timer_list (f : list nat -> list nat) : M timer_state unit :=
  modify (fun s => s <| timer_list := f (timer_list s) |>).

Definition in_list (t : nat) (l : list nat) : bool :=
  existsb (fun n => (n =? t)%nat) l.

Definition timer_is_scheduled (t : nat) : M timer_state bool :=
  gets (fun s => in_list t (timer_list s) ||
                 existsb (in_list t) (pending_timers s)).

Fixpoint timer_name_copy_loop (n : nat) (src : bytes) : bytes :=
  match n, src with
  | S n, c :: src => if c =? 0 then [] else c :: timer_name_copy_loop n src
  | _, _ => []
  end.

Definition timer_name_copy (dest src : bytes) : bytes :=
  splice 0 (timer_name_copy_loop (Z.to_nat (TIMER_NAME_SIZE - 1)) src ++ [0]) dest.

Fixpoint insert_timer_loop (insert : nat) (prev : option nat) (nodes : list nat)
    : M timer_state unit :=
  match nodes with
  | [] => set_timer_list (fun l => l ++ [insert])
  | node :: nodes =>
      i ← load_timer insert;
      c ← load_timer node;
      if curr c <? curr i then
        store_timer insert (fun i => i <| curr := curr i - curr c |>);;
        insert_timer_loop insert (Some node) nodes
      else if curr i =? curr c then
        store_timer insert (fun i => i <| curr := 0 |>);;
        set_timer_list (insert_after node insert)
      else
        store_timer node (fun c => c <| curr := curr c - curr i |>);;
        match prev with
        | Some p => set_timer_list (insert_after p insert)
        | None => set_timer_list (fun l => insert :: l)
        end
  end.

Definition insert_timer (insert : nat) : M timer_state unit :=
  nodes ← gets timer_list; insert_timer_loop insert None nodes.

Definition net_timer_init : M timer_state Z :=
  set_timer_list (fun _ => []);;
  modify (fun s => s <| pending_timers := [] |>);;
  mret NET_ERR_OK.

(** [name = None] is a null pointer, [proc = 0] a null function. *)
Definition net_timer_add (timer : option nat) (nm : option bytes)
    (pr ar ms fl : Z) : M timer_state Z :=
  match timer, nm with
  | Some t, Some nm =>
      if (pr =? 0) || (ms <=? 0) then mret NET_ERR_PARAM
      else
        scheduled ← timer_is_scheduled t;
        if scheduled : bool then mret NET_ERR_EXIST
        else
          store_timer t (fun tm => tm <| name := timer_name_copy (name tm) nm |>
            <| flags := fl |> <| curr := ms |> <| reload := ms |>
            <| proc := pr |> <| arg := ar |>);;
          insert_timer t;;
          mret NET_ERR_OK
  | _, _ => mret NET_ERR_PARAM
  end.

Fixpoint net_timer_remove_loop (timer : nat) (nodes : list nat)
    : M timer_state unit :=
  match nodes with
  | [] => mret ()
  | node :: nodes =>
      if (node =? timer)%nat then
        match nodes with
        | nx :: _ =>
            c ← load_timer node;
            store_timer nx (fun n => n <| curr := curr n + curr c |>)
        | [] => mret ()
        end;;
        set_timer_list (remove_node node)
      else net_timer_remove_loop timer nodes
  end.

Definition net_timer_remove (timer : option nat) : M timer_state unit :=
  match timer with
  | None => mret ()
  | Some t => nodes ← gets timer_list; net_timer_remove_loop t nodes
  end.

Definition net_timer_first_tmo : M timer_state Z :=
  l ← gets timer_list;
  match l with
  | [] => mret 0
  | t :: _ => tm ← load_timer t; mret (curr tm)
  end.

(** The [while] loop that moves the timers that are due to [wait_list], the
    innermost pending list. *)
Fixpoint collect_due (fuel : nat) : M timer_state unit :=
  l ← gets timer_list;
  match l, fuel with
  | [], _ => mret ()
  | _ :: _, O => stuck
  | t :: _, S fuel =>
      tm ← load_timer t;
      if negb (curr tm =? 0) then mret ()
      else
        set_timer_list (remove_node t);;
        modify (fun s => s <| pending_timers :=
          match pending_timers s with
          | w :: ws => (w ++ [t]) :: ws
          | [] => []
          end |>);;
        collect_due fuel
  end.

Definition wait_list_remove_first : M timer_state (option nat) :=
  p ← gets pending_timers;
  match p with
  | (t :: w) :: ws =>
      modify (fun s => s <| pending_timers := w :: ws |>);; mret (Some t)
  | _ => mret None
  end.

(** The callbacks run on the state of the whole stack, of which the timers
    are the part [L]. *)
Section check.
Context {S : Type} (L : lens S timer_state).
Context (run_proc : Z -> nat -> Z -> M S unit).

Fixpoint fire_due (fuel : nat) : M S unit :=
  t ← zoom L wait_list_remove_first;
  match t, fuel with
  | None, _ => mret ()
  | Some _, O => stuck
  | Some t, Datatypes.S fuel =>
      tm ← zoom L (load_timer t);
      run_proc (proc tm) t (arg tm);;
      tm ← zoom L (load_timer t);
      scheduled ← zoom L (timer_is_scheduled t);
      when (negb (Z.land (flags tm) NET_TIMER_RELOAD =? 0) && negb scheduled)
        (zoom L (store_timer t (fun tm => tm <| curr := reload tm |>);;
                 insert_timer t));;
      fire_due fuel
  end.

Fixpoint check_tmo_loop (fuel : nat) (diff_ms : Z) : M S unit :=
  l ← zoom L (gets timer_list);
  match l with
  | [] => mret ()
  | t :: _ =>
      first ← zoom L (load_timer t);
      if (diff_ms =? 0) && negb (curr first =? 0) then mret ()
      else if diff_ms <? curr first then
        zoom L (store_timer t (fun tm => tm <| curr := curr tm - diff_ms |>))
      else
        zoom L (store_timer t (fun tm => tm <| curr := 0 |>));;
        zoom L (collect_due (length l));;
        p ← zoom L (gets pending_timers);
        fire_due (length (default [] (head p)));;
        match fuel with
        | O => stuck
        | Datatypes.S fuel => check_tmo_loop fuel (diff_ms - curr first)
        end
  end.

Definition net_timer_check_tmo (diff_ms : Z) : M S Z :=
  if diff_ms <? 0 then mret NET_ERR_PARAM
  else
    zoom L (modify (fun s => s <| pending_timers := [] :: pending_timers s |>));;
    check_tmo_loop (Z.to_nat (diff_ms + 2)) diff_ms;;
    zoom L (modify (fun s => s <| pending_timers := tail (pending_timers s) |>));;
    mret NET_ERR_OK.

End check.

(** ** Deltas and deadlines *)

Definition curr_at (m : gmap nat net_timer_t) (t : nat) : Z :=
  default 0 (curr <$> m !! t).

(** The scheduled timers with their differences, ... *)
Definition deltas (m : gmap nat net_timer_t) (l : list nat) : list (nat * Z) :=
  (fun t => (t, curr_at m t)) <$> l.

(** ... with the time left until each of them expires, ... *)
Fixpoint sums (acc : Z) (l : list (nat * Z)) : list (nat * Z) :=
  match l with
  | [] => []
  | (t, c) :: l => (t, acc + c) :: sums (acc + c) l
  end.

Definition deadlines (s : timer_state) : list (nat * Z) :=
  sums 0 (deltas (timers s) (timer_list s)).

(** ... and everything about the timers except [curr]. *)
Definition static_part (s : timer_state) : gmap nat net_timer_t :=
  (fun tm => tm <| curr := 0 |>) <$> timers s.

(** The invariant of the scheduler: no timer is scheduled twice, all scheduled
    timers exist, expire in the future and, as a C [int], within [INT_MAX]. *)
Definition timer_wf (s : timer_state) : Prop :=
  NoDup (timer_list s) /\
  Forall (fun t => is_Some (timers s !! t)) (timer_list s) /\
  Forall (fun '(_, c) => 0 <= c) (deltas (timers s) (timer_list s)) /\
  Forall (fun '(_, d) => d <= INT_MAX) (deadlines s).

Lemma load_timer_ret s t tm : timers s !! t = Some tm -> load_timer t s = Ret tm s.
Proof.
  intros H. unfold load_timer. erewrite mbind_ret by reflexivity. by rewrite H.
Qed.

Lemma store_timer_ret s t f tm :
  timers s !! t = Some tm ->
  store_timer t f s = Ret () (s <| timers := <[t := f tm]> (timers s) |>).
Proof.
  intros H. unfold store_timer. by erewrite mbind_ret by (by apply load_timer_ret).
Qed.

Lemma deltas_insert_ne m x tm l :
  x ∉ l -> deltas (<[x := tm]> m) l = deltas m l.
Proof.
  intros Hx. apply list_fmap_ext. intros i t Ht.
  unfold curr_at. rewrite lookup_insert_ne; [done|].
  intros ->. apply Hx. by apply list_elem_of_lookup_2 in Ht.
Qed.

Lemma deltas_cons m t l : deltas m (t :: l) = (t, curr_at m t) :: deltas m l.
Proof. done. Qed.

Lemma deltas_app m l1 l2 : deltas m (l1 ++ l2) = deltas m l1 ++ deltas m l2.
Proof. apply fmap_app. Qed.

Lemma curr_at_insert m x tm : curr_at (<[x := tm]> m) x = curr tm.
Proof. unfold curr_at. by simplify_map_eq. Qed.

Lemma curr_at_insert_ne m x tm y :
  x <> y -> curr_at (<[x := tm]> m) y = curr_at m y.
Proof. intros. unfold curr_at. by simplify_map_eq. Qed.

Lemma curr_at_some m x tm : m !! x = Some tm -> curr_at m x = curr tm.
Proof. intros H. unfold curr_at. by rewrite H. Qed.

Lemma static_part_store s t tm c :
  timers s !! t = Some tm ->
  static_part (s <| timers := <[t := tm <| curr := c |>]> (timers s) |>) = static_part s.
Proof.
  intros H. unfold static_part, upd_field; cbn [timers]. rewrite fmap_insert.
  rewrite insert_id; [done|]. by rewrite lookup_fmap, H.
Qed.

(** ** Scheduling a timer *)

Fixpoint delta_insert (x : nat) (ms : Z) (l : list (nat * Z)) : list (nat * Z) :=
  match l with
  | [] => [(x, ms)]
  | (t, c) :: l =>
      if c <? ms then (t, c) :: delta_insert x (ms - c) l
      else if ms =? c then (t, c) :: (x, 0) :: l
      else (x, ms) :: (t, c - ms) :: l
  end.

Ltac tstep :=
  first
    [ erewrite mbind_ret by (apply load_timer_ret; eassumption)
    | erewrite mbind_ret by (apply store_timer_ret; eassumption)
    | erewrite mbind_ret by reflexivity ].

Definition insert_post (s : timer_state) (ds : list (nat * Z)) (s' : timer_state) : Prop :=
  deltas (timers s') (timer_list s') = ds /\
  pending_timers s' = pending_timers s /\ static_part s' = static_part s.

Lemma insert_timer_loop_spec x nodes done s tm :
  timer_list s = done ++ nodes -> NoDup (done ++ nodes) -> x ∉ done ++ nodes ->
  Forall (fun t => is_Some (timers s !! t)) nodes ->
  timers s !! x = Some tm ->
  exists s', insert_timer_loop x (last done) nodes s = Ret () s' /\
    insert_post s (deltas (timers s) done ++
                   delta_insert x (curr tm) (deltas (timers s) nodes)) s'.
Proof.
  revert done s tm. induction nodes as [|t nodes IH];
    intros done s tm Hl Hnd Hx Hk Htm; cbn [insert_timer_loop].
  { eexists. split; [done|]. unfold upd_field. split_and!; [|done..].
    cbn [timers timer_list delta_insert deltas fmap list_fmap].
    rewrite Hl, app_nil_r. unfold deltas. rewrite fmap_app. cbn.
    by rewrite (curr_at_some _ _ _ Htm). }
  apply Forall_cons in Hk as [[tc Hc] Hk].
  assert (t ∉ done /\ t ∉ nodes) as [Hd Hn] by nodup_solve.
  assert (x ∉ done /\ x ≠ t /\ x ∉ nodes) as (Hxd & Hxt & Hxn) by set_solver.
  tstep. tstep. rewrite deltas_cons. cbn [delta_insert].
  rewrite (curr_at_some _ _ _ Hc).
  destruct (curr tc <? curr tm) eqn:E1; [|destruct (curr tm =? curr tc) eqn:E2].
  - tstep. rewrite <- (last_snoc t done).
    destruct (IH (done ++ [t])
      (s <| timers := <[x := tm <| curr := curr tm - curr tc |>]> (timers s) |>)
      (tm <| curr := curr tm - curr tc |>)) as (s' & Hr & Hd' & Hp & Hs).
    all: unfold upd_field in *; cbn [timers timer_list curr pending_timers] in *.
    1-2: by rewrite <- app_assoc.
    1: set_solver.
    1: eapply Forall_impl; [exact Hk|]; intros y Hy; by apply lookup_insert_is_Some'; right.
    1: by simplify_map_eq.
    exists s'. split; [done|]. split_and!; [|done|].
    + rewrite Hd', !deltas_insert_ne by set_solver.
      unfold deltas. rewrite fmap_app, <- app_assoc. cbn.
      by rewrite (curr_at_some _ _ _ Hc).
    + rewrite Hs. by apply (static_part_store s x tm).
  - tstep. eexists. split; [done|]. split_and!; [|done|by apply static_part_store].
    unfold upd_field; cbn [timers timer_list]. rewrite Hl, insert_after_mid by done.
    rewrite deltas_app, !deltas_cons, !deltas_insert_ne by done.
    rewrite curr_at_insert_ne, curr_at_insert by done. cbn [curr].
    by rewrite (curr_at_some _ _ _ Hc).
  - tstep. exists (s <| timers := <[t := tc <| curr := curr tc - curr tm |>]> (timers s) |>
                <| timer_list := done ++ x :: t :: nodes |>). split.
    { rewrite <- (insert_before done (t :: nodes) x), <- Hl by done.
      by destruct (last done). }
    split_and!; [|done|by apply (static_part_store s t tc)].
    unfold upd_field; cbn [timers timer_list].
    rewrite deltas_app, !deltas_cons, !deltas_insert_ne by done.
    rewrite curr_at_insert, curr_at_insert_ne by done. cbn [curr].
    by rewrite (curr_at_some _ _ _ Htm).
Qed.

Lemma insert_timer_spec x s tm :
  NoDup (timer_list s) -> x ∉ timer_list s ->
  Forall (fun t => is_Some (timers s !! t)) (timer_list s) ->
  timers s !! x = Some tm ->
  exists s', insert_timer x s = Ret () s' /\
    insert_post s (delta_insert x (curr tm) (deltas (timers s) (timer_list s))) s'.
Proof.
  intros. unfold insert_timer. erewrite mbind_ret by reflexivity.
  by apply (insert_timer_loop_spec x (timer_list s) [] s tm).
Qed.

(** The deadlines after an insertion: the new timer's is added, the other
    timers keep theirs. *)
Lemma sums_delta_insert acc x ms l :
  sums acc (delta_insert x ms l) ≡ₚ (x, acc + ms) :: sums acc l.
Proof.
  revert acc ms. induction l as [|[t c] l IH]; intros acc ms; [done|].
  cbn [delta_insert]. destruct (c <? ms) eqn:E1; [|destruct (ms =? c) eqn:E2].
  - cbn [sums]. rewrite IH. replace (acc + c + (ms - c)) with (acc + ms) by lia.
    apply perm_swap.
  - apply Z.eqb_eq in E2 as ->. cbn [sums]. rewrite Z.add_0_r. apply perm_swap.
  - cbn [sums]. by replace (acc + ms + (c - ms)) with (acc + c) by lia.
Qed.

Lemma delta_insert_nonneg x ms l :
  0 <= ms -> Forall (fun '(_, c) => 0 <= c) l ->
  Forall (fun '(_, c) => 0 <= c) (delta_insert x ms l).
Proof.
  revert ms. induction l as [|[t c] l IH]; intros ms Hms Hl; cbn [delta_insert].
  { by repeat constructor. }
  apply Forall_cons in Hl as [Hc Hl].
  destruct (c <? ms) eqn:E1; [|destruct (ms =? c) eqn:E2].
  all: repeat constructor; try lia; try done. apply IH; [lia|done].
Qed.

Lemma fst_sums acc l : (sums acc l).*1 = l.*1.
Proof. revert acc. induction l as [|[t c] l IH]; intros acc; cbn; by f_equal. Qed.

Lemma fst_deltas m l : (deltas m l).*1 = l.
Proof. induction l; cbn; by f_equal. Qed.

Lemma fst_deadlines s : (deadlines s).*1 = timer_list s.
Proof. unfold deadlines. by rewrite fst_sums, fst_deltas. Qed.

Lemma timer_list_deltas s ds :
  deltas (timers s) (timer_list s) = ds -> timer_list s = ds.*1.
Proof. intros <-. by rewrite fst_deltas. Qed.

Lemma is_Some_static s t :
  is_Some (timers s !! t) <-> is_Some (static_part s !! t).
Proof. unfold static_part. by rewrite lookup_fmap, fmap_is_Some. Qed.

(** [insert_timer] keeps the invariant and adds one deadline. *)
Lemma insert_timer_wf x s tm :
  timer_wf s -> x ∉ timer_list s -> timers s !! x = Some tm ->
  0 <= curr tm <= INT_MAX ->
  exists s', insert_timer x s = Ret () s' /\ timer_wf s' /\
    deadlines s' ≡ₚ (x, curr tm) :: deadlines s /\
    pending_timers s' = pending_timers s /\ static_part s' = static_part s.
Proof.
  intros (Hnd & Hk & Hpos & Hmax) Hx Htm Hb.
  destruct (insert_timer_spec x s tm) as (s' & Hr & Hd & Hp & Hs); [done..|].
  assert (Hdl : deadlines s' ≡ₚ (x, curr tm) :: deadlines s).
  { unfold deadlines at 1. rewrite Hd. apply sums_delta_insert. }
  assert (Hlist : timer_list s' ≡ₚ x :: timer_list s).
  { rewrite <- (fst_deadlines s'), Hdl. cbn. by rewrite fst_deadlines. }
  exists s'. split_and!; [done|split_and!|done..].
  - rewrite Hlist. by apply NoDup_cons.
  - rewrite Hlist. apply Forall_cons. split.
    { rewrite is_Some_static, Hs, <- is_Some_static. eauto. }
    eapply Forall_impl; [exact Hk|]. intros t. rewrite !is_Some_static. by rewrite Hs.
  - rewrite Hd. apply delta_insert_nonneg; [lia|done].
  - rewrite Hdl. apply Forall_cons. split; [lia|done].
Qed.

Lemma in_list_spec t l : in_list t l = true <-> t ∈ l.
Proof.
  unfold in_list. rewrite existsb_exists. split.
  - intros (x & Hx & ->%Nat.eqb_eq). by apply list_elem_of_In.
  - intros Ht. exists t. split; [by apply list_elem_of_In|apply Nat.eqb_refl].
Qed.

(** Neither scheduled nor waiting for its callback. *)
Definition unscheduled (t : nat) (s : timer_state) : Prop :=
  t ∉ timer_list s /\ Forall (fun w => t ∉ w) (pending_timers s).

Lemma timer_is_scheduled_spec t s :
  exists b, timer_is_scheduled t s = Ret b s /\ (b = false <-> unscheduled t s).
Proof.
  eexists. split; [done|]. unfold unscheduled.
  rewrite orb_false_iff, <- !not_true_iff_false, in_list_spec.
  f_equiv. rewrite existsb_exists, Forall_forall. split.
  - intros H w Hw Ht. apply H. exists w.
    split; [by apply list_elem_of_In|by apply in_list_spec].
  - intros H (w & Hw%list_elem_of_In & Ht%in_list_spec). by apply (H w).
Qed.

Lemma timer_is_scheduled_false t s :
  unscheduled t s -> timer_is_scheduled t s = Ret false s.
Proof.
  destruct (timer_is_scheduled_spec t s) as (b & Hr & Hb).
  intros H%Hb. by rewrite Hr, H.
Qed.

Lemma timer_wf_store s t tm :
  timer_wf s -> t ∉ timer_list s ->
  timer_wf (s <| timers := <[t := tm]> (timers s) |>) /\
  deadlines (s <| timers := <[t := tm]> (timers s) |>) = deadlines s.
Proof.
  intros (Hnd & Hk & Hpos & Hmax) Ht. unfold timer_wf, deadlines, upd_field in *.
  cbn [timers timer_list]. rewrite !deltas_insert_ne by done.
  split_and!; [done| |done..]. eapply Forall_impl; [exact Hk|].
  intros y Hy. apply lookup_insert_is_Some'. by right.
Qed.

Lemma net_timer_add_ok s t nm pr ar ms fl tm :
  timer_wf s -> timers s !! t = Some tm -> unscheduled t s ->
  pr <> 0 -> 0 < ms <= INT_MAX ->
  exists s' tm',
    net_timer_add (Some t) (Some nm) pr ar ms fl s = Ret NET_ERR_OK s' /\
    timer_wf s' /\ deadlines s' ≡ₚ (t, ms) :: deadlines s /\
    pending_timers s' = pending_timers s /\
    (forall u, is_Some (timers s' !! u) <-> is_Some (timers s !! u)) /\
    (timers s' !! t = Some tm' /\ flags tm' = fl /\ reload tm' = ms /\
     proc tm' = pr /\ arg tm' = ar) /\
    forall u, u <> t -> static_part s' !! u = static_part s !! u.
Proof.
  intros Hwf Htm Hu Hpr Hms. unfold net_timer_add.
  rewrite (proj2 (orb_false_iff _ _)) by lia.
  mstep by (by apply timer_is_scheduled_false).
  mstep by (by apply store_timer_ret).
  match goal with |- context [<[t := ?v]> (timers s)] => set (tm1 := v) end.
  destruct (timer_wf_store s t tm1 Hwf) as [Hwf1 Hdl1]; [by destruct Hu|].
  set (s1 := s <| timers := <[t := tm1]> (timers s) |>) in *.
  destruct (insert_timer_wf t s1 tm1) as (s' & Hr & Hwf' & Hd & Hp & Hs).
  { done. }
  { by destruct Hu. }
  { by apply lookup_insert_eq. }
  { cbn. lia. }
  assert (Hs1 : static_part s' !! t = Some (tm1 <| curr := 0 |>)).
  { rewrite Hs. unfold static_part. rewrite lookup_fmap. cbn. by rewrite lookup_insert_eq. }
  unfold static_part in Hs1. rewrite lookup_fmap in Hs1.
  apply fmap_Some in Hs1 as (tm' & Htm' & Heq).
  exists s', tm'. erewrite mbind_ret by done.
  rewrite Hd, Hdl1. destruct tm' as [nm' fl' c' rl' pr' ar'].
  unfold upd_field in Heq. cbn in Heq. simplify_eq. split_and!; try done.
  - intros u. rewrite !is_Some_static, Hs. unfold s1, static_part. rewrite !lookup_fmap, !fmap_is_Some. cbn.
    rewrite lookup_insert_is_Some'. split; [|by right]. intros [<-|H]; [by eexists|done].
  - intros u Hne. rewrite Hs. unfold s1, static_part. rewrite !lookup_fmap. cbn. by rewrite lookup_insert_ne.
Qed.

(** Arming a timer that is not scheduled adds exactly its deadline: after
    [net_timer_add] succeeds, the timer expires [ms] milliseconds from now,
    every other timer expires when it did before, the difference list stays
    well formed and no sum of differences exceeds [INT_MAX]; the timer keeps
    the flags, period and callback it was given. *)
Lemma net_timer_add_deadline s t nm pr ar ms fl tm :
  timer_wf s -> timers s !! t = Some tm -> unscheduled t s ->
  pr <> 0 -> 0 < ms <= INT_MAX ->
  exists s' tm',
    net_timer_add (Some t) (Some nm) pr ar ms fl s = Ret NET_ERR_OK s' /\
    timer_wf s' /\ deadlines s' ≡ₚ (t, ms) :: deadlines s /\
    pending_timers s' = pending_timers s /\
    timers s' !! t = Some tm' /\ flags tm' = fl /\ reload tm' = ms /\
    proc tm' = pr /\ arg tm' = ar.
Proof.
  intros Hwf Htm Hu Hpr Hms.
  destruct (net_timer_add_ok s t nm pr ar ms fl tm) as (s' & tm' & Hr & H1 & H2 & H3 & _ & H4 & _); [done..|].
  by exists s', tm'.
Qed.

(** ** Cancelling a timer *)

Fixpoint delta_remove (x : nat) (l : list (nat * Z)) : list (nat * Z) :=
  match l with
  | [] => []
  | (t, c) :: l =>
      if decide (t = x) then
        match l with (u, d) :: l => (u, d + c) :: l | [] => [] end
      else (t, c) :: delta_remove x l
  end.

Lemma net_timer_remove_loop_spec x nodes done s :
  timer_list s = done ++ nodes -> NoDup (done ++ nodes) -> x ∉ done ->
  Forall (fun t => is_Some (timers s !! t)) nodes ->
  exists s', net_timer_remove_loop x nodes s = Ret () s' /\
    insert_post s (deltas (timers s) done ++ delta_remove x (deltas (timers s) nodes)) s'.
Proof.
  revert done. induction nodes as [|t nodes IH]; intros done Hl Hnd Hx Hk;
    cbn [net_timer_remove_loop].
  { exists s. split; [done|]. split_and!; [|done..]. by rewrite Hl, deltas_app. }
  apply Forall_cons in Hk as [[tm Htm] Hk].
  assert (t ∉ done /\ t ∉ nodes) as [Hd Hn] by nodup_solve.
  rewrite deltas_cons. cbn [delta_remove].
  destruct (Nat.eqb_spec t x) as [->|Hne]; [rewrite decide_True by done|].
  - destruct nodes as [|u nodes].
    + mstep. eexists. split; [done|]. split_and!; [|done..].
      unfold upd_field; cbn [timers timer_list]. rewrite Hl, remove_node_mid by done.
      by rewrite deltas_app.
    + apply Forall_cons in Hk as [[um Hum] Hk].
      assert (u ∉ done /\ u ∉ nodes) as [Hud Hun] by nodup_solve.
      rewrite mbind_ret with (a := ())
        (s' := s <| timers := <[u := um <| curr := curr um + curr tm |>]> (timers s) |>)
        by (mstep by (by apply load_timer_ret); by rewrite (store_timer_ret _ _ _ um)).
      eexists. split; [done|]. split_and!; [|done|by apply static_part_store].
      unfold upd_field; cbn [timers timer_list]. rewrite Hl, remove_node_mid by done.
      rewrite deltas_cons, deltas_app, deltas_cons, !deltas_insert_ne by done.
      rewrite curr_at_insert. cbn [curr].
      by rewrite (curr_at_some _ _ _ Hum), (curr_at_some _ _ _ Htm).
  - rewrite decide_False by done.
    destruct (IH (done ++ [t])) as (s' & Hr & Hp); [by rewrite <- app_assoc..|set_solver|done|].
    exists s'. split; [done|]. by rewrite deltas_app, <- app_assoc in Hp.
Qed.

Lemma sums_delta_remove acc x l :
  NoDup l.*1 ->
  sums acc (delta_remove x l) = filter (fun p => p.1 <> x) (sums acc l).
Proof.
  revert acc. induction l as [|[t c] l IH]; intros acc; [done|].
  cbn [delta_remove sums fmap list_fmap]. intros [Ht Hnd]%NoDup_cons.
  case_decide as Hx; simpl in Hx.
  - subst t. rewrite filter_cons_False by (cbn; congruence).
    rewrite list_filter_id.
    + destruct l as [|[u d] l]; [done|]. cbn [sums].
      by replace (acc + (d + c)) with (acc + c + d) by lia.
    + rewrite Forall_forall. intros [y d] Hy. cbn. intros ->. apply Ht.
      rewrite <- (fst_sums (acc + c)). apply list_elem_of_fmap. by exists (x, d).
  - rewrite filter_cons_True by done. cbn [sums]. by rewrite IH.
Qed.

Lemma delta_remove_nonneg x l :
  Forall (fun '(_, c) => 0 <= c) l -> Forall (fun '(_, c) => 0 <= c) (delta_remove x l).
Proof.
  induction l as [|[t c] l IH]; intros Hl; [done|]. apply Forall_cons in Hl as [Hc Hl].
  cbn [delta_remove]. case_decide; [|constructor; auto].
  destruct l as [|[u d] l]; [done|]. apply Forall_cons in Hl as [Hd Hl].
  constructor; [lia|done].
Qed.

Lemma net_timer_remove_ok s t :
  timer_wf s ->
  exists s', net_timer_remove (Some t) s = Ret () s' /\ timer_wf s' /\
    deadlines s' = filter (fun p => p.1 <> t) (deadlines s) /\
    timer_list s' = filter (fun x => x <> t) (timer_list s) /\
    pending_timers s' = pending_timers s /\ static_part s' = static_part s.
Proof.
  intros (Hnd & Hk & Hpos & Hmax).
  destruct (net_timer_remove_loop_spec t (timer_list s) [] s)
    as (s' & Hr & Hd & Hp & Hs); [done..|set_solver|done|].
  assert (Hdl : deadlines s' = filter (fun p => p.1 <> t) (deadlines s)).
  { unfold deadlines at 1. rewrite Hd. cbn [deltas fmap list_fmap app].
    apply sums_delta_remove. by rewrite fst_deltas. }
  assert (Hlist : timer_list s' = filter (fun x => x <> t) (timer_list s)).
  { rewrite <- (fst_deadlines s'), Hdl, <- (fst_deadlines s).
    generalize (deadlines s). clear. induction l as [|[x d] l IH]; [done|].
    cbn [fmap list_fmap]. rewrite !filter_cons. case_decide; cbn; rewrite IH; done. }
  exists s'. split_and!; [by unfold net_timer_remove; mstep|split_and!|done|done|done..].
  - rewrite Hlist. by apply NoDup_filter.
  - rewrite Hlist. apply Forall_list_filter. eapply Forall_impl; [exact Hk|].
    intros x. rewrite !is_Some_static. by rewrite Hs.
  - rewrite Hd. by apply delta_remove_nonneg.
  - rewrite Hdl. by apply Forall_list_filter.
Qed.

(** Cancelling a timer removes exactly its deadline: after
    [net_timer_remove] the timer is not scheduled, and the remaining timers
    are in the same order with the same deadlines (the difference of the
    cancelled timer is given to its successor). *)
Lemma net_timer_remove_deadline s t :
  timer_wf s ->
  exists s', net_timer_remove (Some t) s = Ret () s' /\ timer_wf s' /\
    deadlines s' = filter (fun p => p.1 <> t) (deadlines s) /\
    t ∉ timer_list s' /\
    pending_timers s' = pending_timers s /\ static_part s' = static_part s.
Proof.
  intros Hwf. destruct (net_timer_remove_ok s t Hwf) as (s' & Hr & H1 & H2 & H3 & H4 & H5).
  exists s'. split_and!; try done. rewrite H3, list_elem_of_filter. tauto.
Qed.

(** ** The passing of time

    The callbacks of the theorem below record the timer they are called for;
    the recorded calls are the second component of the state. *)

Definition log_lens : lens (timer_state * list nat) timer_state :=
  Lens fst (fun t s => (t, snd s)).

Definition log_proc (pr : Z) (t : nat) (ar : Z) : M (timer_state * list nat) unit :=
  modify (fun s => (fst s, snd s ++ [t])).

Definition reloads (tm : net_timer_t) : bool :=
  negb (Z.land (flags tm) NET_TIMER_RELOAD =? 0).

(** How often a timer that expires [d] from now expires in the next [r]
    milliseconds, and when it expires after them. *)
Definition firings (tm : net_timer_t) (d r : Z) : Z :=
  if r <? d then 0 else if reloads tm then (r - d) / reload tm + 1 else 1.

Definition next_deadline (tm : net_timer_t) (d r : Z) : option Z :=
  if r <? d then Some (d - r)
  else if reloads tm then Some (reload tm - (r - d) mod reload tm)
  else None.

(** The number of timers at the front of the list that are due now. *)
Fixpoint due (l : list (nat * Z)) : nat :=
  match l with
  | (_, 0) :: l => S (due l)
  | _ => 0
  end.

Lemma collect_due_spec l s fuel w ws :
  timer_list s = l -> NoDup l -> Forall (fun t => is_Some (timers s !! t)) l ->
  pending_timers s = w :: ws -> (length l <= fuel)%nat ->
  collect_due fuel s =
    Ret () (TimerState (timers s) (drop (due (deltas (timers s) l)) l)
             ((w ++ take (due (deltas (timers s) l)) l) :: ws)).
Proof.
  revert s fuel w. induction l as [|t l IH]; intros s fuel w Hl Hnd Hk Hp Hf.
  { destruct s, fuel; cbn in *; subst; cbn; by rewrite app_nil_r. }
  apply Forall_cons in Hk as [[tm Htm] Hk]. apply NoDup_cons in Hnd as [Ht Hnd].
  destruct fuel as [|fuel]; [cbn in Hf; lia|]. cbn [collect_due].
  mstep. rewrite Hl. mstep by (by apply load_timer_ret).
  rewrite deltas_cons, (curr_at_some _ _ _ Htm).
  destruct (Z.eqb_spec (curr tm) 0) as [E|E]; cbn [negb].
  - mstep. mstep. erewrite IH; cycle 1.
    + unfold upd_field; cbn [timer_list]. rewrite Hl. cbn. by rewrite decide_True.
    + done.
    + done.
    + unfold upd_field; cbn [pending_timers]. by rewrite Hp.
    + cbn in Hf. lia.
    + unfold upd_field; cbn [timers pending_timers]. rewrite E. cbn [due take drop].
      by rewrite <- app_assoc.
  - replace (due ((t, curr tm) :: deltas (timers s) l)) with 0%nat by (by destruct (curr tm)).
    cbn [drop take]. rewrite app_nil_r. destruct s; cbn in *; by subst.
Qed.

Definition period_ok (st : gmap nat net_timer_t) (t : nat) : Prop :=
  exists tm, st !! t = Some tm /\ 0 < reload tm <= INT_MAX.

Definition reload_list (st : gmap nat net_timer_t) (w : list nat) : list (nat * Z) :=
  omap (fun t => tm ← st !! t; if reloads tm then Some (t, reload tm) else None) w.

Lemma static_lookup s t tm :
  static_part s !! t = Some tm ->
  exists c, timers s !! t = Some (tm <| curr := c |>).
Proof.
  unfold static_part. rewrite lookup_fmap. intros (tm' & H & ->)%fmap_Some.
  exists (curr tm'). by destruct tm'.
Qed.

Ltac zstep tac :=
  erewrite mbind_ret by (apply zoom_ret; cbn [lget log_lens fst]; tac);
  cbn [lset log_lens snd]; cbv beta match.

(** The reload of one timer whose callback has run. *)
Lemma rearm_spec s t tm c :
  timer_wf s -> unscheduled t s -> 0 < reload tm <= INT_MAX ->
  timers s !! t = Some (tm <| curr := c |>) ->
  exists s',
    (store_timer t (fun tm => tm <| curr := reload tm |>);; insert_timer t) s = Ret () s' /\
    timer_wf s' /\ pending_timers s' = pending_timers s /\
    static_part s' = static_part s /\
    deadlines s' ≡ₚ (t, reload tm) :: deadlines s.
Proof.
  intros Hwf [Hu _] Hb Htm. mstep by (by apply store_timer_ret).
  match goal with |- context [<[t := ?v]> (timers s)] => set (tm1 := v) end.
  destruct (timer_wf_store s t tm1 Hwf Hu) as [Hwf1 Hd1].
  destruct (insert_timer_wf t (s <| timers := <[t := tm1]> (timers s) |>) tm1)
    as (s' & Hr & Hwf' & Hd & Hp & Hs); [done..|by apply lookup_insert_eq|cbn; lia|].
  exists s'. rewrite Hr, Hd, Hd1, Hs. split_and!; [done..| |done].
  by apply (static_part_store s t _ (reload tm)).
Qed.

Lemma fire_due_spec w s lg fuel :
  timer_wf s -> pending_timers s = [w] -> NoDup (w ++ timer_list s) ->
  Forall (period_ok (static_part s)) w -> (length w <= fuel)%nat ->
  exists s', fire_due log_lens log_proc fuel (s, lg) = Ret () (s', lg ++ w) /\
    timer_wf s' /\ pending_timers s' = [[]] /\ static_part s' = static_part s /\
    deadlines s' ≡ₚ reload_list (static_part s) w ++ deadlines s.
Proof.
  revert s lg fuel. induction w as [|t w IH]; intros s lg fuel Hwf Hp Hnd Hper Hf.
  { exists s. rewrite app_nil_r. split; [|done]. destruct fuel; cbn [fire_due].
    all: zstep ltac:(unfold wait_list_remove_first; mstep; by rewrite Hp).
    all: done. }
  destruct fuel as [|fuel]; [cbn in Hf; lia|]. cbn [fire_due].
  apply Forall_cons in Hper as [(tm & Htm & Hb) Hper].
  destruct (static_lookup s t tm Htm) as (c & Hc).
  zstep ltac:(unfold wait_list_remove_first; mstep; rewrite Hp; mstep; reflexivity).
  set (s1 := s <| pending_timers := [w] |>).
  assert (Hu : unscheduled t s1) by
    (split; cbn [s1 upd_field timer_list pending_timers]; nodup_solve).
  zstep ltac:(by apply (load_timer_ret s1 t (tm <| curr := c |>))).
  mstep. cbn [fst snd].
  zstep ltac:(by apply (load_timer_ret s1 t (tm <| curr := c |>))).
  zstep ltac:(by apply timer_is_scheduled_false).
  change (negb (Z.land (flags (tm <| curr := c |>)) NET_TIMER_RELOAD =? 0) && negb false)
    with (reloads tm && true).
  rewrite andb_true_r.
  set (now := if reloads tm then [(t, reload tm)] else []).
  assert (exists s2, when (reloads tm) (zoom log_lens
      (store_timer t (fun tm => tm <| curr := reload tm |>);; insert_timer t))
      (s1, lg ++ [t]) = Ret () (s2, lg ++ [t]) /\
    timer_wf s2 /\ pending_timers s2 = [w] /\ static_part s2 = static_part s /\
    deadlines s2 ≡ₚ now ++ deadlines s) as (s2 & Hr & Hwf2 & Hp2 & Hs2 & Hd2).
  { unfold now, when. destruct (reloads tm); [|by exists s1].
    destruct (rearm_spec s1 t tm c) as (s2 & Hr & Hpost); [done..|].
    exists s2. split; [by apply (zoom_ret log_lens)|done]. }
  mstep by exact Hr.
  assert (Hl2 : timer_list s2 ≡ₚ now.*1 ++ timer_list s).
  { by rewrite <- (fst_deadlines s2), Hd2, fmap_app, fst_deadlines. }
  destruct (IH s2 (lg ++ [t]) fuel) as (s' & Hr' & Hwf' & Hp' & Hs' & Hd').
  { done. }
  { done. }
  { rewrite Hl2. rewrite <- app_comm_cons, NoDup_cons in Hnd. destruct Hnd as [Hn Hnd].
    unfold now. destruct (reloads tm); [|done]. cbn.
    rewrite Permutation_app_comm. cbn. rewrite Permutation_app_comm, NoDup_cons. set_solver. }
  { by rewrite Hs2. }
  { cbn in Hf. lia. }
  exists s'. rewrite Hr', Hs', Hs2, Hd', Hd2, <- app_assoc. split_and!; [done..|].
  unfold reload_list. cbn [omap list_omap]. rewrite Htm, Hs2.
  fold (reload_list (static_part s) w). cbn. unfold now.
  destruct (reloads tm); [|done]. cbn. by rewrite Permutation_middle.
Qed.

Definition shift (k : Z) (l : list (nat * Z)) : list (nat * Z) :=
  (fun p => (p.1, p.2 - k)) <$> l.

Lemma sums_shift acc k l : sums (acc - k) l = shift k (sums acc l).
Proof.
  revert acc. induction l as [|[t c] l IH]; intros acc; [done|].
  cbn [sums]. replace (acc - k + c) with (acc + c - k) by lia. by rewrite IH.
Qed.

Lemma sums_first t c k l :
  sums 0 ((t, c - k) :: l) = shift k (sums 0 ((t, c) :: l)).
Proof. cbn [sums]. rewrite !Z.add_0_l. by rewrite sums_shift. Qed.

Lemma sums_ge acc l :
  Forall (fun '(_, c) => 0 <= c) l -> Forall (fun p => acc <= p.2) (sums acc l).
Proof.
  revert acc. induction l as [|[t c] l IH]; intros acc Hl; [done|].
  apply Forall_cons in Hl as [Hc Hl]. cbn. constructor; [cbn; lia|].
  eapply Forall_impl; [by apply IH|]. cbn. lia.
Qed.

Lemma due_sums l :
  Forall (fun '(_, c) => 0 <= c) l ->
  sums 0 (drop (due l) l) = filter (fun p => 0 < p.2) (sums 0 l) /\
  take (due l) l.*1 = (filter (fun p => p.2 = 0) (sums 0 l)).*1.
Proof.
  induction l as [|[t c] l IH]; intros Hl; [done|].
  apply Forall_cons in Hl as [Hc Hl]. cbn [due]. destruct c as [|c|c]; [|clear IH|lia].
  - destruct (IH Hl) as [IH1 IH2]. cbn [sums drop take fmap list_fmap fst].
    rewrite filter_cons_False by (cbn; lia). rewrite filter_cons_True by done.
    rewrite IH1, IH2. done.
  - rewrite drop_0, take_0. assert (Forall (fun p => 0 < p.2) (sums 0 ((t, Z.pos c) :: l))).
    { cbn. constructor; [cbn; lia|]. eapply Forall_impl; [by apply sums_ge|]. cbn. lia. }
    rewrite list_filter_id, list_filter_none; [done| |done].
    eapply Forall_impl; [done|]. cbn. lia.
Qed.

Lemma deadlines_cons s t l tm :
  timer_list s = t :: l -> timers s !! t = Some tm ->
  deadlines s = sums 0 ((t, curr tm) :: deltas (timers s) l).
Proof. intros Hl Ht. unfold deadlines. by rewrite Hl, deltas_cons, (curr_at_some _ _ _ Ht). Qed.

(** Time passes up to the first deadline at most. *)
Lemma advance_spec s t l tm k :
  timer_wf s -> timer_list s = t :: l -> timers s !! t = Some tm ->
  0 <= k <= curr tm ->
  let s' := s <| timers := <[t := tm <| curr := curr tm - k |>]> (timers s) |> in
  timer_wf s' /\ deadlines s' = shift k (deadlines s) /\ static_part s' = static_part s.
Proof.
  intros (Hnd & Hk & Hpos & Hmax) Hl Ht Hb s'.
  assert (t ∉ l) by (rewrite Hl in Hnd; by apply NoDup_cons in Hnd as [? _]).
  assert (Hd : deltas (timers s') (timer_list s') = (t, curr tm - k) :: deltas (timers s) l).
  { unfold s', upd_field; cbn [timers timer_list]. rewrite Hl, deltas_cons.
    by rewrite curr_at_insert, deltas_insert_ne. }
  assert (Hdl : deadlines s' = shift k (deadlines s)).
  { rewrite (deadlines_cons s t l tm) by done. unfold deadlines. by rewrite Hd, sums_first. }
  assert (Hst : static_part s' = static_part s) by (by apply static_part_store).
  rewrite Hl, deltas_cons, (curr_at_some _ _ _ Ht) in Hpos.
  apply Forall_cons in Hpos as [_ Hpos].
  split_and!; [split_and!|done|done].
  - done.
  - eapply Forall_impl; [exact Hk|]. intros u. by rewrite !is_Some_static, Hst.
  - rewrite Hd. constructor; [lia|done].
  - rewrite Hdl. unfold shift. apply Forall_fmap. eapply Forall_impl; [exact Hmax|].
    intros [u d]. cbn. lia.
Qed.

Definition later (c : Z) (l : list (nat * Z)) : list (nat * Z) :=
  shift c (filter (fun p => c < p.2) l).

Lemma filter_shift c l :
  filter (fun p => 0 < p.2) (shift c l) = later c l /\
  (filter (fun p => p.2 = 0) (shift c l)).*1 = (filter (fun p => p.2 = c) l).*1.
Proof.
  unfold later. induction l as [|[t d] l [IH1 IH2]]; [done|].
  change (shift c ((t, d) :: l)) with ((t, d - c) :: shift c l). split.
  - destruct (decide (c < d)).
    + rewrite !filter_cons_True by (cbn; lia). by rewrite IH1.
    + rewrite !filter_cons_False by (cbn; lia). by rewrite IH1.
  - destruct (decide (d = c)).
    + rewrite !filter_cons_True by (cbn; lia). cbn. by rewrite IH2.
    + rewrite !filter_cons_False by (cbn; lia). by rewrite IH2.
Qed.

Lemma collect_spec s t l :
  timer_wf s -> timer_list s = t :: l -> pending_timers s = [[]] ->
  exists s' w, collect_due (length (t :: l)) s = Ret () s' /\ timer_wf s' /\
    pending_timers s' = [w] /\ static_part s' = static_part s /\
    w ++ timer_list s' = timer_list s /\
    w = (filter (fun p => p.2 = 0) (deadlines s)).*1 /\
    deadlines s' = filter (fun p => 0 < p.2) (deadlines s).
Proof.
  intros (Hnd & Hk & Hpos & Hmax) Hl Hp.
  set (k := due (deltas (timers s) (timer_list s))).
  destruct (due_sums _ Hpos) as [H1 H2]. rewrite fst_deltas in H2. fold k in H1, H2.
  eexists _, _. split.
  { rewrite <- Hl. by apply (collect_due_spec (timer_list s)). }
  fold k. cbn [timers timer_list pending_timers app].
  assert (Hdr : deltas (timers s) (drop k (timer_list s)) =
                drop k (deltas (timers s) (timer_list s))).
  { unfold deltas. by rewrite fmap_drop. }
  unfold timer_wf, deadlines in *; cbn [timers timer_list pending_timers].
  rewrite Hdr, H1. split_and!; try done.
  - eapply sublist_NoDup; [done|apply sublist_drop].
  - by apply Forall_drop.
  - by apply Forall_drop.
  - by apply Forall_list_filter.
  - by rewrite take_drop.
Qed.

(** One iteration of the loop of [net_timer_check_tmo]: the timers with the
    first deadline fire, and time advances to it. *)
Lemma round_spec s lg t l tm r f :
  timer_wf s -> pending_timers s = [[]] -> timer_list s = t :: l ->
  timers s !! t = Some tm -> curr tm <= r ->
  Forall (period_ok (static_part s)) (timer_list s) ->
  exists s' w,
    check_tmo_loop log_lens log_proc (S f) r (s, lg) =
      check_tmo_loop log_lens log_proc f (r - curr tm) (s', lg ++ w) /\
    timer_wf s' /\ pending_timers s' = [[]] /\ static_part s' = static_part s /\
    w = (filter (fun p => p.2 = curr tm) (deadlines s)).*1 /\
    deadlines s' ≡ₚ reload_list (static_part s) w ++ later (curr tm) (deadlines s).
Proof.
  intros Hwf Hp Hl Htm Hr Hper.
  assert (Hc : 0 <= curr tm).
  { destruct Hwf as (_ & _ & Hpos & _). rewrite Hl, deltas_cons in Hpos.
    apply Forall_cons in Hpos as [Hc _]. by rewrite (curr_at_some _ _ _ Htm) in Hc. }
  destruct (advance_spec s t l tm (curr tm)) as (Hwf1 & Hd1 & Hs1); [done..|lia|].
  rewrite Z.sub_diag in Hwf1, Hd1, Hs1. set (s1 := s <| timers := _ |>) in *.
  destruct (collect_spec s1 t l) as (s2 & w & Hr2 & Hwf2 & Hp2 & Hs2 & Hnd2 & Hw & Hd2);
    [done..|].
  destruct (filter_shift (curr tm) (deadlines s)) as [Hf1 Hf2].
  rewrite Hd1, Hf2 in Hw. rewrite Hd1, Hf1 in Hd2.
  destruct (fire_due_spec w s2 lg (length w)) as (s3 & Hr3 & Hwf3 & Hp3 & Hs3 & Hd3);
    [done|done|rewrite Hnd2; by destruct Hwf1| |done|].
  { rewrite Hs2, Hs1, Hw. rewrite <- (fst_deadlines s) in Hper.
    rewrite Forall_fmap in *. by apply Forall_list_filter. }
  exists s3, w. rewrite Hd3, Hd2, Hs3, Hs2, Hs1. split_and!; [|done..].
  cbn [check_tmo_loop]. zstep ltac:(reflexivity). rewrite Hl.
  zstep ltac:(by apply load_timer_ret).
  replace ((r =? 0) && negb (curr tm =? 0)) with false by lia.
  replace (r <? curr tm) with false by lia.
  zstep ltac:(by apply store_timer_ret).
  zstep ltac:(exact Hr2). zstep ltac:(reflexivity). rewrite Hp2.
  mstep by exact Hr3. done.
Qed.

(** What [r] milliseconds do to the deadlines [D] and which callbacks run. *)
Definition elapsed (st : gmap nat net_timer_t) (D : list (nat * Z)) (r : Z)
    (D' : list (nat * Z)) (calls : list nat) : Prop :=
  (forall t d tm, (t, d) ∈ D -> st !! t = Some tm ->
     Z.of_nat (count_occ Nat.eq_dec calls t) = firings tm d r) /\
  (forall t, t ∉ D.*1 -> t ∉ calls) /\
  (forall t d', (t, d') ∈ D' <-> exists d tm,
     (t, d) ∈ D /\ st !! t = Some tm /\ next_deadline tm d r = Some d').

Lemma elem_of_shift k l t d : (t, d) ∈ shift k l <-> (t, d + k) ∈ l.
Proof.
  unfold shift. rewrite list_elem_of_fmap. split.
  - intros ([u e] & [= -> ->] & H). cbn. by replace (e - k + k) with e by lia.
  - intros H. exists (t, d + k). split; [|done]. cbn. f_equal. lia.
Qed.

Lemma elem_of_reload_list st w t d :
  (t, d) ∈ reload_list st w <->
    t ∈ w /\ exists tm, st !! t = Some tm /\ reloads tm = true /\ d = reload tm.
Proof.
  unfold reload_list. rewrite list_elem_of_omap. split.
  - intros (u & Hu & H). apply bind_Some in H as (tm & Htm & H).
    destruct (reloads tm) eqn:E; simplify_eq. eauto.
  - intros (Ht & tm & Htm & Hr & ->). exists t. rewrite Htm. cbn. by rewrite Hr.
Qed.

Lemma elem_of_later c l t d : (t, d) ∈ later c l <-> 0 < d /\ (t, d + c) ∈ l.
Proof.
  unfold later. rewrite elem_of_shift, list_elem_of_filter. cbn.
  split; intros []; split; done || lia.
Qed.

Lemma elapsed_none st D r :
  Forall (fun '(t, d) => r < d /\ is_Some (st !! t)) D ->
  elapsed st D r (shift r D) [].
Proof.
  intros HD. rewrite Forall_forall in HD. split_and!.
  - intros t d tm Ht _. apply HD in Ht as [Hd _]. unfold firings. cbn.
    by replace (r <? d) with true by lia.
  - intros t _. set_solver.
  - intros t d'. rewrite elem_of_shift. unfold next_deadline. split.
    + intros Ht. pose proof (HD _ Ht) as [Hd [tm Htm]]. exists (d' + r), tm.
      replace (r <? d' + r) with true by lia. split_and!; [done..|f_equal; lia].
    + intros (d & tm & Ht & _ & Hn). pose proof (HD _ Ht) as [Hd _].
      replace (r <? d) with true in Hn by lia.
      by replace (d' + r) with d by (simplify_eq; lia).
Qed.

Lemma count_nodup w t :
  NoDup w -> count_occ Nat.eq_dec w t = if decide (t ∈ w) then 1%nat else 0%nat.
Proof.
  intros Hnd. case_decide as H.
  - apply NoDup_ListNoDup in Hnd. rewrite (NoDup_count_occ' Nat.eq_dec) in Hnd.
    by apply Hnd, list_elem_of_In.
  - apply count_occ_not_In. by rewrite <- list_elem_of_In.
Qed.

Lemma not_elem_count w t : t ∉ w -> count_occ Nat.eq_dec w t = 0%nat.
Proof. intros H. apply count_occ_not_In. by rewrite <- list_elem_of_In. Qed.

Lemma NoDup_fst_inj (D : list (nat * Z)) t d d' :
  NoDup D.*1 -> (t, d) ∈ D -> (t, d') ∈ D -> d = d'.
Proof.
  induction D as [|[u e] D IH]; cbn; [set_solver|]. intros [Hu Hnd]%NoDup_cons.
  rewrite !elem_of_cons. intros [H1|H1] [H2|H2]; simplify_eq; [done| | |by apply IH].
  all: exfalso; apply Hu, list_elem_of_fmap; eexists (_, _); eauto.
Qed.

Lemma elem_of_fst (D : list (nat * Z)) t : t ∈ D.*1 <-> exists d, (t, d) ∈ D.
Proof.
  rewrite list_elem_of_fmap. split; [intros ([] & -> & ?); eauto|].
  intros [d H]. by exists (t, d).
Qed.

(** Passing [c] milliseconds at once or before the rest. *)
Lemma firings_later tm c d r : firings tm (d - c) (r - c) = firings tm d r.
Proof.
  unfold firings. replace (r - c <? d - c) with (r <? d) by lia.
  by replace (r - c - (d - c)) with (r - d) by lia.
Qed.

Lemma firings_now tm c r :
  0 < reload tm -> c <= r -> reloads tm = true ->
  firings tm c r = 1 + firings tm (reload tm) (r - c).
Proof.
  intros Hp Hc Hr. unfold firings. rewrite Hr.
  replace (r <? c) with false by lia. destruct (Z.ltb_spec (r - c) (reload tm)).
  - rewrite Z.div_small by lia. done.
  - replace (r - c) with (r - c - reload tm + 1 * reload tm) at 1 by lia.
    rewrite Z.div_add by lia. lia.
Qed.

Lemma next_deadline_later tm c d r :
  next_deadline tm (d - c) (r - c) = next_deadline tm d r.
Proof.
  unfold next_deadline. replace (r - c <? d - c) with (r <? d) by lia.
  replace (r - c - (d - c)) with (r - d) by lia.
  by replace (d - c - (r - c)) with (d - r) by lia.
Qed.

Lemma next_deadline_now tm c r :
  0 < reload tm -> c <= r -> reloads tm = true ->
  next_deadline tm c r = next_deadline tm (reload tm) (r - c).
Proof.
  intros Hp Hc Hr. unfold next_deadline. rewrite Hr.
  replace (r <? c) with false by lia. destruct (Z.ltb_spec (r - c) (reload tm)).
  - rewrite Z.mod_small by lia. done.
  - replace (r - c) with (r - c - reload tm + 1 * reload tm) at 1 by lia.
    by rewrite Z.mod_add by lia.
Qed.

Section round.
Context (st : gmap nat net_timer_t) (D D1 D2 : list (nat * Z)) (c r : Z).
Context (w calls : list nat).
Hypothesis Hnd : NoDup D.*1.
Hypothesis HD : forall t d, (t, d) ∈ D ->
  c <= d /\ exists tm, st !! t = Some tm /\ 0 < reload tm.
Hypothesis Hcr : c <= r.
Hypothesis Hw : w = (filter (fun p => p.2 = c) D).*1.
Hypothesis HD1 : D1 ≡ₚ reload_list st w ++ later c D.
Hypothesis Hel : elapsed st D1 (r - c) D2 calls.

Lemma elem_w t : t ∈ w <-> (t, c) ∈ D.
Proof.
  rewrite Hw, elem_of_fst. split.
  - intros (d & [? ?]%list_elem_of_filter). cbn in *. by subst.
  - intros H. exists c. by apply list_elem_of_filter.
Qed.

Lemma elem_D1 t d :
  (t, d) ∈ D1 <->
    ((t, c) ∈ D /\ exists tm, st !! t = Some tm /\ reloads tm = true /\ d = reload tm) \/
    (0 < d /\ (t, d + c) ∈ D).
Proof. by rewrite HD1, elem_of_app, elem_of_reload_list, elem_of_later, elem_w. Qed.

Lemma NoDup_w : NoDup w.
Proof.
  rewrite Hw. eapply sublist_NoDup; [exact Hnd|]. apply fmap_sublist, sublist_filter.
Qed.

Lemma round_calls t d tm :
  (t, d) ∈ D -> st !! t = Some tm ->
  Z.of_nat (count_occ Nat.eq_dec (w ++ calls) t) = firings tm d r.
Proof.
  intros Ht Htm. destruct Hel as (HA & HB & _).
  destruct (HD t d Ht) as (Hd & tm' & Htm' & Hp).
  assert (tm' = tm) as -> by congruence.
  rewrite count_occ_app, count_nodup by apply NoDup_w. case_decide as Htw.
  - rewrite elem_w in Htw. assert (d = c) as -> by (by eapply NoDup_fst_inj).
    destruct (reloads tm) eqn:Er.
    + rewrite firings_now, <- (HA t (reload tm) tm), Nat2Z.inj_add; [done| |done..].
      apply elem_D1. left. eauto.
    + rewrite not_elem_count; [|apply HB]; rewrite ?elem_of_fst.
      { unfold firings. rewrite Er. by replace (r <? c) with false by lia. }
      intros (d & [(_ & tm' & ? & ? & ?)|[? Hc]]%elem_D1); [congruence|].
      assert (d + c = c) by (by eapply NoDup_fst_inj). lia.
  - rewrite elem_w in Htw. assert (d <> c) by congruence.
    rewrite <- (firings_later tm c), <- (HA t (d - c) tm); [done| |done].
    apply elem_D1. right. replace (d - c + c) with d by lia. split; [lia|done].
Qed.

Lemma round_deadlines t d' :
  (t, d') ∈ D2 <-> exists d tm,
    (t, d) ∈ D /\ st !! t = Some tm /\ next_deadline tm d r = Some d'.
Proof.
  destruct Hel as (_ & _ & HC). rewrite HC. split.
  - intros (d & tm & [(Ht & tm' & Htm' & Hr & ->)|[Hd Ht]]%elem_D1 & Htm & Hn).
    + assert (tm' = tm) as -> by congruence. exists c, tm. split_and!; [done..|]. destruct (HD _ _ Ht) as (_ & tm' & ? & ?).
      assert (tm' = tm) as -> by congruence. by rewrite next_deadline_now.
    + exists (d + c), tm. split_and!; [done..|].
      rewrite <- (next_deadline_later tm c). by replace (d + c - c) with d by lia.
  - intros (d & tm & Ht & Htm & Hn). destruct (HD _ _ Ht) as (Hd & tm' & Htm' & Hp).
    assert (tm' = tm) as -> by congruence. destruct (decide (d = c)) as [->|Hne].
    + destruct (reloads tm) eqn:Er.
      * exists (reload tm), tm. rewrite <- next_deadline_now by done. rewrite elem_D1.
        split_and!; [left; eauto|done..].
      * unfold next_deadline in Hn. rewrite Er in Hn.
        by replace (r <? c) with false in Hn by lia.
    + exists (d - c), tm. rewrite next_deadline_later, elem_D1.
      split_and!; [right; split; [lia|]|done..]. by replace (d - c + c) with d by lia.
Qed.

Lemma elapsed_round : elapsed st D r D2 (w ++ calls).
Proof.
  split_and!; [apply round_calls| |apply round_deadlines].
  intros t Ht. destruct Hel as (_ & HB & _). rewrite elem_of_fst in Ht.
  rewrite elem_of_app, elem_w. intros [Hw'|Hc]; [eauto|].
  revert Hc. apply HB. rewrite elem_of_fst. intros (d & [[]|[]]%elem_D1); eauto.
Qed.
End round.

Lemma deadlines_known s t d :
  Forall (period_ok (static_part s)) (timer_list s) -> (t, d) ∈ deadlines s ->
  exists tm, static_part s !! t = Some tm /\ 0 < reload tm <= INT_MAX.
Proof.
  intros Hper Ht. rewrite Forall_forall in Hper. apply Hper.
  rewrite <- fst_deadlines. apply elem_of_fst. eauto.
Qed.

Lemma check_tmo_idle f s lg r :
  timer_wf s -> Forall (period_ok (static_part s)) (timer_list s) -> 0 <= r ->
  Forall (fun p => r < p.2) (deadlines s) ->
  exists s',
    check_tmo_loop log_lens log_proc f r (s, lg) = Ret () (s', lg) /\
    timer_wf s' /\ pending_timers s' = pending_timers s /\
    static_part s' = static_part s /\
    elapsed (static_part s) (deadlines s) r (deadlines s') [].
Proof.
  intros Hwf Hper Hr Hd.
  assert (He : elapsed (static_part s) (deadlines s) r (shift r (deadlines s)) []).
  { apply elapsed_none, Forall_forall. rewrite Forall_forall in Hd. intros [t d] Ht.
    split; [by apply (Hd (t, d))|].
    destruct (deadlines_known s t d) as (tm & Htm & _); [done..|eauto]. }
  destruct (timer_list s) as [|t l] eqn:Hl.
  { exists s. destruct f; cbn [check_tmo_loop]; zstep ltac:(reflexivity); rewrite Hl.
    all: split_and!; [done..|]. all: by unfold deadlines in *; rewrite Hl in *. }
  pose proof Hwf as (_ & Hk & Hpos & _). rewrite Hl in Hk, Hpos.
  apply Forall_cons in Hk as [[tm Htm] Hk].
  pose proof (deadlines_cons s t l tm Hl Htm) as Hdl. cbn [sums] in Hdl.
  rewrite Hdl in Hd. apply Forall_cons in Hd as [Hc Hd]. cbn in Hc.
  destruct (advance_spec s t l tm r) as (Hwf1 & Hd1 & Hs1); [done..|lia|].
  set (s1 := s <| timers := _ |>) in *.
  assert (check_tmo_loop log_lens log_proc f r (s, lg) = Ret () (s, lg) /\ r = 0 \/
          check_tmo_loop log_lens log_proc f r (s, lg) = Ret () (s1, lg)) as [[HR ->]|HR].
  { destruct f; cbn [check_tmo_loop]; zstep ltac:(reflexivity); rewrite Hl.
    all: zstep ltac:(by apply load_timer_ret).
    all: destruct (Z.eqb_spec r 0); cbn [andb];
      [replace (curr tm =? 0) with false by lia; by left|].
    all: replace (r <? curr tm) with true by lia; right.
    all: apply (zoom_ret log_lens).
    all: exact (store_timer_ret s t (fun tm => tm <| curr := curr tm - r |>) tm Htm). }
  - exists s. rewrite HR. split_and!; [done..|].
    replace (deadlines s) with (shift 0 (deadlines s)) at 2; [done|].
    unfold shift. rewrite <- (list_fmap_id (deadlines s)) at 2. apply list_fmap_ext.
    intros ? [] _. cbn. f_equal. lia.
  - exists s1. rewrite HR, Hd1, Hs1. by split_and!.
Qed.

Lemma first_due s r :
  timer_wf s -> ~ Forall (fun p => r < p.2) (deadlines s) ->
  exists t l tm, timer_list s = t :: l /\ timers s !! t = Some tm /\
    0 <= curr tm <= r /\ Forall (fun p => curr tm <= p.2) (deadlines s).
Proof.
  intros (Hnd & Hk & Hpos & _) Hdue.
  destruct (timer_list s) as [|t l] eqn:Hl.
  { destruct Hdue. unfold deadlines. by rewrite Hl. }
  apply Forall_cons in Hk as [[tm Htm] _].
  rewrite deltas_cons, (curr_at_some _ _ _ Htm) in Hpos.
  apply Forall_cons in Hpos as [Hc Hpos].
  assert (Hge : Forall (fun p => curr tm <= p.2) (deadlines s)).
  { rewrite (deadlines_cons s t l tm) by done. cbn. constructor; [done|]. by apply sums_ge. }
  exists t, l, tm. split_and!; [done..| |done].
  destruct (decide (curr tm <= r)); [done|]. destruct Hdue.
  eapply Forall_impl; [exact Hge|]. cbn. lia.
Qed.

(** The loop needs one unit of fuel per millisecond, and one more if a timer
    is due at once. *)
Lemma check_tmo_loop_spec f s lg r :
  timer_wf s -> pending_timers s = [[]] ->
  Forall (period_ok (static_part s)) (timer_list s) -> 0 <= r ->
  (Forall (fun p => 0 < p.2) (deadlines s) /\ r <= Z.of_nat f) \/ r < Z.of_nat f ->
  exists s' calls,
    check_tmo_loop log_lens log_proc f r (s, lg) = Ret () (s', lg ++ calls) /\
    timer_wf s' /\ pending_timers s' = [[]] /\ static_part s' = static_part s /\
    elapsed (static_part s) (deadlines s) r (deadlines s') calls.
Proof.
  revert s lg r. induction f as [|f IH]; intros s lg r Hwf Hp Hper Hr Hf.
  all: destruct (decide (Forall (fun p => r < p.2) (deadlines s))) as [Hlate|Hdue].
  1, 3: match goal with |- context [check_tmo_loop _ _ ?n _ _] =>
          destruct (check_tmo_idle n s lg r Hwf Hper Hr Hlate)
            as (s' & HR & Hwf' & Hp' & Hs' & He) end;
        exists s', []; rewrite app_nil_r, HR, Hp', Hs'; by split_and!.
  { destruct Hf as [[Hpos Hf]|Hf]; [|lia]. destruct Hdue.
    eapply Forall_impl; [exact Hpos|]. cbn. lia. }
  destruct (first_due s r Hwf Hdue) as (t & l & tm & Hl & Htm & Hc & Hge).
  destruct (round_spec s lg t l tm r f) as (s1 & w & HR1 & Hwf1 & Hp1 & Hs1 & Hw & Hd1);
    [done..|lia|done|].
  assert (HD : forall u d, (u, d) ∈ deadlines s -> curr tm <= d /\
    exists um, static_part s !! u = Some um /\ 0 < reload um).
  { intros u d Hu. rewrite Forall_forall in Hge. split; [by apply (Hge (u, d))|].
    destruct (deadlines_known s u d) as (um & ? & ?); [done..|]. exists um. split; [done|lia]. }
  destruct (IH s1 (lg ++ w) (r - curr tm)) as (s2 & calls & HR2 & Hwf2 & Hp2 & Hs2 & He).
  { done. }
  { done. }
  { rewrite Hs1. rewrite <- (fst_deadlines s1), Hd1. rewrite <- fst_deadlines in Hper.
    rewrite fmap_app, Forall_app. rewrite !Forall_forall in *. split.
    - intros u (d & (Hu & _)%elem_of_reload_list)%elem_of_fst. apply Hper.
      rewrite Hw in Hu. apply elem_of_fst in Hu as (e & [_ ?]%list_elem_of_filter).
      apply elem_of_fst. eauto.
    - intros u (d & [_ Hu]%elem_of_later)%elem_of_fst. apply Hper, elem_of_fst. eauto. }
  { lia. }
  { left. split.
    - rewrite Hd1, Forall_app, !Forall_forall. split; intros [u d] Hu; cbn.
      + apply elem_of_reload_list in Hu as (Hu & um & Hum & _ & ->).
        rewrite Hw in Hu. apply elem_of_fst in Hu as (e & [_ Hu]%list_elem_of_filter).
        destruct (HD _ _ Hu) as (_ & um' & ? & ?). by simplify_eq.
      + by apply elem_of_later in Hu as [].
    - destruct Hf as [[Hpos Hf]|Hf]; [|lia]. rewrite Forall_forall in Hpos.
      assert (0 < curr tm); [|lia].
      apply (Hpos (t, curr tm)). rewrite (deadlines_cons s t l tm) by done. cbn. set_solver. }
  exists s2, (w ++ calls). rewrite HR1, HR2, <- app_assoc, Hs2, Hs1.
  split_and!; [done..|].
  eapply elapsed_round; [|done| |done|done|by rewrite <- Hs1]; [|lia].
  rewrite fst_deadlines. by destruct Hwf.
Qed.


(** Three timers; the first two are scheduled, 10 ms (reloading every 10 ms)
    and 25 ms (one-shot) from now. *)
Definition three_timers : timer_state :=
  TimerState
    (<[1%nat := Timer [] NET_TIMER_RELOAD 10 10 7 0]>
     (<[2%nat := Timer [] 0 15 25 7 0]> (<[3%nat := Timer [] 0 0 0 0 0]> ∅)))
    [1; 2]%nat [].

Lemma three_timers_wf : timer_wf three_timers.
Proof.
  split_and!.
  - apply NoDup_cons; split; [set_solver|apply NoDup_singleton].
  - repeat constructor; by eexists.
  - repeat constructor; vm_compute; congruence.
  - repeat constructor; vm_compute; congruence.
Qed.




Example check_tmo_30 :
  match net_timer_check_tmo log_lens log_proc 30 (three_timers, []) with
  | Ret e (s', calls) => (e, deadlines s', calls) = (0, [(1%nat, 10)], [1; 1; 2; 1]%nat)
  | Stuck => False
  end.
Proof. vm_compute. reflexivity. Qed.
