(* ===== verification/Mblock.v ===== *)
(** * Fixed-size memory blocks (net/mblock.c)

    A block of the pool is named by its index.  Every pool of the stack (the
    packet blocks, the packet buffers, the interfaces, the ARP entries) is
    created with [NLOCKER_NONE], so the allocation semaphore, which only an
    [NLOCKER_THREAD] pool has, is not part of the state. *)

From S2P Require Import Prelude.

Record mblock_t := MBlock { free_list : list nat }.

#[global] Instance mblock_settable : Settable mblock_t :=
  fun r => MBlock (free_list r).

Definition sizeof_nlist_node_t : Z := 16.

(** [mem] is [true] when the memory is not null. *)
Definition mblock_init (mem : bool) (blk_size count : Z) : M mblock_t Z :=
  if negb mem || (blk_size <? sizeof_nlist_node_t) || (count <=? 0)
  then mret NET_ERR_PARAM
  else
    modify (fun m => m <| free_list := seq 0 (Z.to_nat count) |>);;
    mret NET_ERR_OK.

Definition mblock_alloc : M mblock_t (option nat) :=
  m ← get;
  match free_list m with
  | [] => mret None
  | x :: l => modify (fun m => m <| free_list := l |>);; mret (Some x)
  end.

Definition mblock_free_cnt : M mblock_t Z := gets (fun m => len (free_list m)).

Definition mblock_free (item : option nat) : M mblock_t unit :=
  match item with
  | None => mret ()
  | Some x => modify (fun m => m <| free_list := free_list m ++ [x] |>)
  end.
