(* ===== verification/Pktbuf.v ===== *)
(** * Packet buffers (net/pktbuf.c, net/pktbuf.h)

    A packet is a chain of fixed-size blocks.  Blocks and packet buffers are
    elements of two static arrays and are named by their indices; the free
    ones are in the pools of mblock.c.  A chain of blocks is the list of its
    indices ([blk_list], and the temporary chain [pktblock_alloc_list]
    returns, whose empty list is the null pointer).  [blk_data] is the offset
    of [data] in [payload]; [blk_offset] is the offset of the access position
    in the payload of [curr_blk].  The pools and the chains are only changed
    under [locker], so each function is one transition here. *)

From S2P Require Import Prelude Tools Nlist Mblock.

(** ** Definitions *)

Definition PKTBUF_BLK_SIZE : Z := 1024.
Definition PKTBUF_BLK_CNT : Z := 256.
Definition PKTBUF_BUF_CNT : Z := 128.

Record pktblk_t := PktBlk {
  blk_size : Z; blk_data : option Z; payload : bytes }.

Record pktbuf_t := PktBuf {
  total_size : Z; blk_list : list nat; ref : Z; pos : Z;
  curr_blk : option nat; blk_offset : option Z }.

Record pkt_state := PktState {
  block_buffer : gmap nat pktblk_t; block_list : mblock_t;
  pktbuf_buffer : gmap nat pktbuf_t; pktbuf_list : mblock_t }.

#[global] Instance pktblk_settable : Settable pktblk_t :=
  fun r => PktBlk (blk_size r) (blk_data r) (payload r).
#[global] Instance pktbuf_settable : Settable pktbuf_t :=
  fun r => PktBuf (total_size r) (blk_list r) (ref r) (pos r) (curr_blk r) (blk_offset r).
#[global] Instance pkt_state_settable : Settable pkt_state :=
  fun r => PktState (block_buffer r) (block_list r) (pktbuf_buffer r) (pktbuf_list r).

Definition block_list_lens : lens pkt_state mblock_t :=
  Lens block_list (fun m s => s <| block_list := m |>).
Definition pktbuf_list_lens : lens pkt_state mblock_t :=
  Lens pktbuf_list (fun m s => s <| pktbuf_list := m |>).

Definition load_blk (i : nat) : M pkt_state pktblk_t :=
  s ← get; deref (block_buffer s !! i).
Definition store_blk (i : nat) (f : pktblk_t -> pktblk_t) : M pkt_state unit :=
  k ← load_blk i;
  modify (fun s => s <| block_buffer := <[i := f k]> (block_buffer s) |>).
Definition load_buf (b : nat) : M pkt_state pktbuf_t :=
  s ← get; deref (pktbuf_buffer s !! b).
Definition store_buf (b : nat) (f : pktbuf_t -> pktbuf_t) : M pkt_state unit :=
  p ← load_buf b;
  modify (fun s => s <| pktbuf_buffer := <[b := f p]> (pktbuf_buffer s) |>).

(** [dbg_assert] panics when its condition is false. *)
Definition dbg_assert (c : bool) : M pkt_state unit :=
  if c then mret () else stuck.

(** The element after [i] in a chain, [pktbuf_blk_next]. *)
Fixpoint pktbuf_blk_next (i : nat) (l : list nat) : option nat :=
  match l with
  | [] => None
  | x :: l => if (x =? i)%nat then head l else pktbuf_blk_next i l
  end.

Definition pktbuf_first_blk (p : pktbuf_t) : option nat := head (blk_list p).
Definition pktbuf_last_blk (p : pktbuf_t) : option nat := last (blk_list p).

Definition pktbuf_total (buf : option nat) : M pkt_state Z :=
  match buf with
  | None => mret 0
  | Some b => p ← load_buf b; mret (total_size p)
  end.

(** The address of the first byte of a packet: a block and an offset. *)
Definition pktbuf_data (buf : option nat) : M pkt_state (option (nat * Z)) :=
  match buf with
  | None => mret None
  | Some b =>
      p ← load_buf b;
      match pktbuf_first_blk p with
      | None => mret None
      | Some i => k ← load_blk i; mret (d ← blk_data k; Some (i, d))
      end
  end.

Definition total_blk_remain (p : pktbuf_t) : Z := total_size p - pos p.

Definition curr_blk_remain (b : nat) : M pkt_state Z :=
  p ← load_buf b;
  match curr_blk p, blk_offset p with
  | Some c, Some o =>
      k ← load_blk c; d ← deref (blk_data k); mret (d + blk_size k - o)
  | _, _ => mret 0
  end.

Definition curr_blk_tail_free (i : nat) : M pkt_state Z :=
  k ← load_blk i; d ← deref (blk_data k); mret (PKTBUF_BLK_SIZE - d - blk_size k).

Definition pktbuf_reset_acc (b : nat) : M pkt_state unit :=
  p ← load_buf b;
  o ← match pktbuf_first_blk p with
      | Some i => k ← load_blk i; mret (blk_data k)
      | None => mret None
      end;
  store_buf b (fun p => p <| pos := 0 |> <| curr_blk := pktbuf_first_blk p |>
                          <| blk_offset := o |>).

Definition pktblock_free (i : nat) : M pkt_state unit :=
  zoom block_list_lens (mblock_free (Some i)).

Fixpoint pktblock_free_list (chain : list nat) : M pkt_state unit :=
  match chain with
  | [] => mret ()
  | i :: chain => pktblock_free i;; pktblock_free_list chain
  end.

Definition pktbuf_free (buf : option nat) : M pkt_state unit :=
  match buf with
  | None => mret ()
  | Some b =>
      p ← load_buf b;
      when (0 <? ref p)
        (store_buf b (fun p => p <| ref := ref p - 1 |>);;
         when (ref p - 1 =? 0)
           (pktblock_free_list (blk_list p);;
            zoom pktbuf_list_lens (mblock_free (Some b))))
  end.

Definition pktblock_alloc : M pkt_state (option nat) :=
  block ← zoom block_list_lens mblock_alloc;
  match block with
  | None => mret None
  | Some i =>
      store_blk i (fun k => k <| blk_size := 0 |> <| blk_data := None |>);;
      mret (Some i)
  end.

(** [chain] holds the blocks allocated so far, first block first. *)
Fixpoint pktblock_alloc_loop (fuel : nat) (size : Z) (add_front : bool)
    (chain : list nat) : M pkt_state (list nat) :=
  if size =? 0 then mret chain
  else
    match fuel with
    | O => stuck
    | S fuel =>
        new_block ← pktblock_alloc;
        match new_block with
        | None => pktblock_free_list chain;; mret []
        | Some i =>
            let curr_size := if PKTBUF_BLK_SIZE <? size then PKTBUF_BLK_SIZE else size in
            if add_front then
              store_blk i (fun k => k <| blk_size := curr_size |>
                <| blk_data := Some (PKTBUF_BLK_SIZE - curr_size) |>);;
              pktblock_alloc_loop fuel (size - curr_size) add_front (i :: chain)
            else
              store_blk i (fun k => k <| blk_size := curr_size |> <| blk_data := Some 0 |>);;
              pktblock_alloc_loop fuel (size - curr_size) add_front (chain ++ [i])
        end
    end.

Definition pktblock_alloc_list (size : Z) (add_front : bool) : M pkt_state (list nat) :=
  if size <=? 0 then mret []
  else pktblock_alloc_loop (Z.to_nat (size / PKTBUF_BLK_SIZE + 1)) size add_front [].

Fixpoint insert_blk_last (b : nat) (chain : list nat) : M pkt_state unit :=
  match chain with
  | [] => mret ()
  | i :: chain =>
      k ← load_blk i;
      store_buf b (fun p => p <| blk_list := blk_list p ++ [i] |>
                              <| total_size := total_size p + blk_size k |>);;
      insert_blk_last b chain
  end.

Fixpoint insert_blk_front (b : nat) (prev : option nat) (chain : list nat)
    : M pkt_state unit :=
  match chain with
  | [] => mret ()
  | i :: chain =>
      k ← load_blk i;
      store_buf b (fun p =>
        p <| blk_list := (match prev with
                          | Some pr => insert_after pr i
                          | None => cons i
                          end) (blk_list p) |>
          <| total_size := total_size p + blk_size k |>);;
      insert_blk_front b (Some i) chain
  end.

Definition pktbuf_insert_blk_list (b : nat) (chain : list nat) (add_last : bool)
    : M pkt_state unit :=
  if add_last then insert_blk_last b chain else insert_blk_front b None chain.

Definition pktbuf_inc_ref (buf : option nat) : M pkt_state unit :=
  match buf with
  | None => mret ()
  | Some b =>
      p ← load_buf b;
      when (0 <? ref p) (store_buf b (fun p => p <| ref := ref p + 1 |>))
  end.

Definition pktbuf_alloc (size : Z) : M pkt_state (option nat) :=
  if size <? 0 then mret None
  else
    buf ← zoom pktbuf_list_lens mblock_alloc;
    match buf with
    | None => mret None
    | Some b =>
        store_buf b (fun p => p <| ref := 1 |> <| total_size := 0 |> <| blk_list := [] |>);;
        ok ← (if size =? 0 then mret true
              else
                chain ← pktblock_alloc_list size false;
                match chain with
                | [] => zoom pktbuf_list_lens (mblock_free (Some b));; mret false
                | _ => pktbuf_insert_blk_list b chain true;; mret true
                end);
        if ok : bool then
          store_buf b (fun p => p <| ref := 1 |>);;
          pktbuf_reset_acc b;;
          mret (Some b)
        else mret None
    end.

(** [None] stands for the null pointer. *)
Definition pktbuf_add_header (buf : option nat) (size : Z) (cont : bool)
    : M pkt_state Z :=
  match buf with
  | None => mret NET_ERR_PARAM
  | Some b =>
      if size <? 0 then mret NET_ERR_PARAM
      else if size =? 0 then mret NET_ERR_OK
      else
        p ← load_buf b;
        dbg_assert (negb (ref p =? 0));;
        match pktbuf_first_blk p with
        | None =>
            chain ← pktblock_alloc_list size true;
            match chain with
            | [] => mret NET_ERR_MEM
            | _ =>
                pktbuf_insert_blk_list b chain false;;
                pktbuf_reset_acc b;;
                mret NET_ERR_OK
            end
        | Some block =>
            k ← load_blk block;
            resv_size ← deref (blk_data k);
            if size <=? resv_size then
              store_blk block (fun k => k <| blk_size := blk_size k + size |>
                                          <| blk_data := Some (resv_size - size) |>);;
              store_buf b (fun p => p <| total_size := total_size p + size |>);;
              pktbuf_reset_acc b;;
              mret NET_ERR_OK
            else if cont then
              if PKTBUF_BLK_SIZE <? size then mret NET_ERR_SIZE
              else
                chain ← pktblock_alloc_list size true;
                match chain with
                | [] => mret NET_ERR_MEM
                | _ =>
                    pktbuf_insert_blk_list b chain false;;
                    pktbuf_reset_acc b;;
                    mret NET_ERR_OK
                end
            else
              chain ← pktblock_alloc_list (size - resv_size) true;
              match chain with
              | [] => mret NET_ERR_MEM
              | _ =>
                  store_blk block (fun k => k <| blk_size := blk_size k + resv_size |>
                                              <| blk_data := Some 0 |>);;
                  store_buf b (fun p => p <| total_size := total_size p + resv_size |>);;
                  pktbuf_insert_blk_list b chain false;;
                  pktbuf_reset_acc b;;
                  mret NET_ERR_OK
              end
        end
  end.

(** The loop of [pktbuf_remove_header], over the blocks of the packet. *)
Fixpoint remove_header_loop (b : nat) (size : Z) (chain : list nat) : M pkt_state unit :=
  if size =? 0 then mret ()
  else
    match chain with
    | [] => stuck
    | block :: chain =>
        k ← load_blk block;
        if size <? blk_size k then
          store_blk block (fun k => k <| blk_size := blk_size k - size |>
                                      <| blk_data := (fun d => d + size) <$> blk_data k |>);;
          store_buf b (fun p => p <| total_size := total_size p - size |>)
        else
          store_buf b (fun p => p <| blk_list := tail (blk_list p) |>);;
          pktblock_free block;;
          store_buf b (fun p => p <| total_size := total_size p - blk_size k |>);;
          remove_header_loop b (size - blk_size k) chain
    end.

Definition pktbuf_remove_header (buf : option nat) (size : Z) : M pkt_state Z :=
  match buf with
  | None => mret NET_ERR_PARAM
  | Some b =>
      if size <? 0 then mret NET_ERR_PARAM
      else if size =? 0 then mret NET_ERR_OK
      else
        p ← load_buf b;
        if total_size p <? size then mret NET_ERR_SIZE
        else
          dbg_assert (negb (ref p =? 0));;
          remove_header_loop b size (blk_list p);;
          pktbuf_reset_acc b;;
          mret NET_ERR_OK
  end.

(** Removing and freeing all blocks, the loop of [pktbuf_resize] to 0. *)
Fixpoint free_blocks_loop (b : nat) (chain : list nat) : M pkt_state unit :=
  match chain with
  | [] => mret ()
  | block :: chain =>
      store_buf b (fun p => p <| blk_list := tail (blk_list p) |>);;
      pktblock_free block;;
      free_blocks_loop b chain
  end.

(** The last block to keep: the blocks after it, and the block itself. *)
Fixpoint find_tail (total to_size : Z) (chain : list nat)
    : M pkt_state (option (nat * list nat)) :=
  match chain with
  | [] => mret None
  | block :: chain =>
      k ← load_blk block;
      if to_size <=? total + blk_size k then mret (Some (block, chain))
      else find_tail (total + blk_size k) to_size chain
  end.

(** Removes and frees the blocks [chain]; the sum of their sizes. *)
Fixpoint drop_blocks (b : nat) (total : Z) (chain : list nat) : M pkt_state Z :=
  match chain with
  | [] => mret total
  | block :: chain =>
      store_buf b (fun p => p <| blk_list := remove_node block (blk_list p) |>);;
      pktblock_free block;;
      k ← load_blk block;
      drop_blocks b (total + blk_size k) chain
  end.

Definition resize_grow (b : nat) (p : pktbuf_t) (to_size : Z) : M pkt_state (option Z) :=
  tail_blk ← deref (pktbuf_last_blk p);
  let inc_size := to_size - total_size p in
  remain_size ← curr_blk_tail_free tail_blk;
  if inc_size <=? remain_size then
    store_blk tail_blk (fun k => k <| blk_size := blk_size k + inc_size |>);;
    store_buf b (fun p => p <| total_size := total_size p + inc_size |>);;
    mret None
  else
    chain ← pktblock_alloc_list (inc_size - remain_size) false;
    match chain with
    | [] => mret (Some NET_ERR_MEM)
    | _ =>
        store_blk tail_blk (fun k => k <| blk_size := blk_size k + remain_size |>);;
        store_buf b (fun p => p <| total_size := total_size p + remain_size |>);;
        pktbuf_insert_blk_list b chain true;;
        mret None
    end.

Definition resize_shrink (b : nat) (p : pktbuf_t) (to_size : Z) : M pkt_state (option Z) :=
  t ← find_tail 0 to_size (blk_list p);
  match t with
  | None => mret (Some NET_ERR_SIZE)
  | Some (tail_blk, rest) =>
      dropped ← drop_blocks b 0 rest;
      store_blk tail_blk (fun k =>
        k <| blk_size := blk_size k - (total_size p - dropped - to_size) |>);;
      store_buf b (fun p => p <| total_size := to_size |>);;
      mret None
  end.

(** A branch of [pktbuf_resize] returns early with an error ([Some]) or falls
    through to the end of the function. *)
Definition pktbuf_resize (buf : option nat) (to_size : Z) : M pkt_state Z :=
  match buf with
  | None => mret NET_ERR_PARAM
  | Some b =>
      if to_size <? 0 then mret NET_ERR_PARAM
      else
        p ← load_buf b;
        dbg_assert (negb (ref p =? 0));;
        if to_size =? total_size p then mret NET_ERR_OK
        else
          err ← (if to_size =? 0 then
                   free_blocks_loop b (blk_list p);;
                   store_buf b (fun p => p <| total_size := 0 |>);;
                   pktbuf_reset_acc b;;
                   mret None
                 else if total_size p =? 0 then
                   chain ← pktblock_alloc_list to_size false;
                   match chain with
                   | [] => mret (Some NET_ERR_MEM)
                   | _ =>
                       pktbuf_insert_blk_list b chain true;;
                       pktbuf_reset_acc b;;
                       mret None
                   end
                 else if total_size p <? to_size then resize_grow b p to_size
                 else resize_shrink b p to_size);
          match err with
          | Some e => mret e
          | None => pktbuf_reset_acc b;; mret NET_ERR_OK
          end
  end.

Fixpoint join_loop (dest src : nat) (chain : list nat) : M pkt_state unit :=
  match chain with
  | [] => mret ()
  | first :: chain =>
      store_buf src (fun p => p <| blk_list := tail (blk_list p) |>);;
      pktbuf_insert_blk_list dest [first] true;;
      join_loop dest src chain
  end.

Definition pktbuf_join (dest src : option nat) : M pkt_state Z :=
  match dest, src with
  | Some d, Some s =>
      if (d =? s)%nat then mret NET_ERR_PARAM
      else
        pd ← load_buf d;
        dbg_assert (negb (ref pd =? 0));;
        ps ← load_buf s;
        dbg_assert (negb (ref ps =? 0));;
        join_loop d s (blk_list ps);;
        pktbuf_free (Some s);;
        pktbuf_reset_acc d;;
        mret NET_ERR_OK
  | _, _ => mret NET_ERR_PARAM
  end.

(** [plat_memcpy] into and out of the payload of a block. *)
Definition blk_write (i : nat) (off : Z) (bs : bytes) : M pkt_state unit :=
  k ← load_blk i;
  if (0 <=? off) && (off + len bs <=? len (payload k)) then
    store_blk i (fun k => k <| payload := splice (Z.to_nat off) bs (payload k) |>)
  else stuck.

Definition blk_read (i : nat) (off n : Z) : M pkt_state bytes :=
  k ← load_blk i;
  if (0 <=? off) && (0 <=? n) && (off + n <=? len (payload k)) then
    mret (take (Z.to_nat n) (drop (Z.to_nat off) (payload k)))
  else stuck.

(** [for (i = 0; i < n; i++) *dest++ = data[i];] with [data] at offset [d]. *)
Fixpoint copy_down (n i d : nat) (pl : bytes) : bytes :=
  match n with
  | O => pl
  | S n => copy_down n (S i) d (<[i := byte_at pl (d + i)]> pl)
  end.

Fixpoint set_cont_loop (b first : nat) (dest remain_size : Z) (chain : list nat)
    : M pkt_state unit :=
  match chain with
  | [] => mret ()
  | curr :: chain =>
      if remain_size =? 0 then mret ()
      else
        k ← load_blk curr;
        let curr_size := if remain_size <? blk_size k then remain_size else blk_size k in
        d ← deref (blk_data k);
        bs ← blk_read curr d curr_size;
        blk_write first dest bs;;
        store_blk curr (fun k => k <| blk_data := Some (d + curr_size) |>
                                   <| blk_size := blk_size k - curr_size |>);;
        store_blk first (fun k => k <| blk_size := blk_size k + curr_size |>);;
        if blk_size k - curr_size =? 0 then
          store_buf b (fun p => p <| blk_list := remove_node curr (blk_list p) |>);;
          pktblock_free curr;;
          set_cont_loop b first (dest + curr_size) (remain_size - curr_size) chain
        else
          (* the block still has data, so nothing remains to be moved *)
          if remain_size - curr_size =? 0 then mret () else stuck
  end.

Definition pktbuf_set_cont (buf : option nat) (size : Z) : M pkt_state Z :=
  match buf with
  | None => mret NET_ERR_PARAM
  | Some b =>
      if size <? 0 then mret NET_ERR_PARAM
      else if size =? 0 then mret NET_ERR_OK
      else
        p ← load_buf b;
        dbg_assert (negb (ref p =? 0));;
        if total_size p <? size then mret NET_ERR_SIZE
        else if PKTBUF_BLK_SIZE <? size then mret NET_ERR_SIZE
        else
          match blk_list p with
          | [] => mret NET_ERR_SIZE
          | first :: chain =>
              k ← load_blk first;
              if size <=? blk_size k then pktbuf_reset_acc b;; mret NET_ERR_OK
              else
                d ← deref (blk_data k);
                store_blk first (fun k => k
                  <| payload := copy_down (Z.to_nat (blk_size k)) 0 (Z.to_nat d) (payload k) |>
                  <| blk_data := Some 0 |>);;
                set_cont_loop b first (blk_size k) (size - blk_size k) chain;;
                pktbuf_reset_acc b;;
                mret NET_ERR_OK
          end
  end.

Definition pktbuf_init : M pkt_state Z :=
  err ← zoom block_list_lens (mblock_init true 1048 PKTBUF_BLK_CNT);
  if err <? 0 then mret err
  else
    err ← zoom pktbuf_list_lens (mblock_init true 72 PKTBUF_BUF_CNT);
    if err <? 0 then mret err else mret NET_ERR_OK.

(** ** The access position *)

Definition move_forward (b : nat) (size : Z) : M pkt_state unit :=
  p ← load_buf b;
  match curr_blk p with
  | None => mret ()
  | Some curr =>
      if size <=? 0 then mret ()
      else
        o ← deref (blk_offset p);
        k ← load_blk curr;
        d ← deref (blk_data k);
        if d + blk_size k <=? o + size then
          let nx := pktbuf_blk_next curr (blk_list p) in
          o' ← match nx with
               | Some n => kn ← load_blk n; mret (blk_data kn)
               | None => mret None
               end;
          store_buf b (fun p => p <| pos := pos p + size |> <| curr_blk := nx |>
                                  <| blk_offset := o' |>)
        else
          store_buf b (fun p => p <| pos := pos p + size |>
                                  <| blk_offset := Some (o + size) |>)
  end.

(** The memory at the access position, [buf->blk_offset]. *)
Definition acc_write (b : nat) (bs : bytes) : M pkt_state unit :=
  p ← load_buf b;
  match curr_blk p, blk_offset p with
  | Some c, Some o => blk_write c o bs
  | _, _ => if len bs =? 0 then mret () else stuck
  end.

Definition acc_read (b : nat) (n : Z) : M pkt_state bytes :=
  p ← load_buf b;
  match curr_blk p, blk_offset p with
  | Some c, Some o => blk_read c o n
  | _, _ => if n =? 0 then mret [] else stuck
  end.

(** Each round of a loop below that does not finish it moves to the next
    block, so the number of blocks bounds the number of rounds. *)
Definition acc_fuel (p : pktbuf_t) : nat := S (length (blk_list p)).

Fixpoint write_loop (fuel : nat) (b : nat) (src : bytes) (size : Z) : M pkt_state unit :=
  if size <=? 0 then mret ()
  else
    match fuel with
    | O => stuck
    | S fuel =>
        blk ← curr_blk_remain b;
        let curr_copy := if blk <? size then blk else size in
        if len src <? curr_copy then stuck
        else
          acc_write b (take (Z.to_nat curr_copy) src);;
          move_forward b curr_copy;;
          write_loop fuel b (drop (Z.to_nat curr_copy) src) (size - curr_copy)
    end.

Definition pktbuf_write (buf : option nat) (src : option bytes) (size : Z) : M pkt_state Z :=
  match buf with
  | None => mret NET_ERR_PARAM
  | Some b =>
      if (size <? 0) || ((0 <? size) && bool_decide (src = None)) then mret NET_ERR_PARAM
      else if size =? 0 then mret NET_ERR_OK
      else
        p ← load_buf b;
        dbg_assert (negb (ref p =? 0));;
        if total_blk_remain p <? size then mret NET_ERR_SIZE
        else
          src ← deref src;
          write_loop (acc_fuel p) b src size;;
          mret NET_ERR_OK
  end.

Fixpoint read_loop (fuel : nat) (b : nat) (size : Z) : M pkt_state bytes :=
  if size <=? 0 then mret []
  else
    match fuel with
    | O => stuck
    | S fuel =>
        blk ← curr_blk_remain b;
        let curr_copy := if blk <? size then blk else size in
        bs ← acc_read b curr_copy;
        move_forward b curr_copy;;
        rest ← read_loop fuel b (size - curr_copy);
        mret (bs ++ rest)
    end.

(** The bytes stored in [dest], whose pointer is null when [dest] is [false]. *)
Definition pktbuf_read (buf : option nat) (dest : bool) (size : Z) : M pkt_state (Z * bytes) :=
  match buf with
  | None => mret (NET_ERR_PARAM, [])
  | Some b =>
      if (size <? 0) || ((0 <? size) && negb dest) then mret (NET_ERR_PARAM, [])
      else if size =? 0 then mret (NET_ERR_OK, [])
      else
        p ← load_buf b;
        dbg_assert (negb (ref p =? 0));;
        if total_blk_remain p <? size then mret (NET_ERR_SIZE, [])
        else bs ← read_loop (acc_fuel p) b size; mret (NET_ERR_OK, bs)
  end.

Fixpoint seek_loop (fuel : nat) (b : nat) (move_bytes : Z) : M pkt_state unit :=
  if move_bytes =? 0 then mret ()
  else
    match fuel with
    | O => stuck
    | S fuel =>
        remain_size ← curr_blk_remain b;
        let curr_move := if remain_size <? move_bytes then remain_size else move_bytes in
        move_forward b curr_move;;
        seek_loop fuel b (move_bytes - curr_move)
    end.

Definition pktbuf_seek (buf : option nat) (offset : Z) : M pkt_state Z :=
  match buf with
  | None => mret NET_ERR_PARAM
  | Some b =>
      if offset <? 0 then mret NET_ERR_PARAM
      else
        p ← load_buf b;
        dbg_assert (negb (ref p =? 0));;
        if pos p =? offset then mret NET_ERR_OK
        else if total_size p <? offset then mret NET_ERR_SIZE
        else
          move_bytes ←
            (if offset <? pos p then
               first ← deref (pktbuf_first_blk p);
               k ← load_blk first;
               store_buf b (fun p => p <| curr_blk := Some first |>
                                       <| blk_offset := blk_data k |> <| pos := 0 |>);;
               mret offset
             else mret (offset - pos p));
          seek_loop (acc_fuel p) b move_bytes;;
          mret NET_ERR_OK
  end.

Fixpoint copy_loop (fuel : nat) (dest src : nat) (size : Z) : M pkt_state unit :=
  if size =? 0 then mret ()
  else
    match fuel with
    | O => stuck
    | S fuel =>
        dest_remain ← curr_blk_remain dest;
        src_remain ← curr_blk_remain src;
        let copy_size := if src_remain <? dest_remain then src_remain else dest_remain in
        let copy_size := if size <? copy_size then size else copy_size in
        bs ← acc_read src copy_size;
        acc_write dest bs;;
        move_forward dest copy_size;;
        move_forward src copy_size;;
        copy_loop fuel dest src (size - copy_size)
    end.

Definition pktbuf_copy (dest src : option nat) (size : Z) : M pkt_state Z :=
  match dest, src with
  | Some d, Some s =>
      if size <? 0 then mret NET_ERR_PARAM
      else if size =? 0 then mret NET_ERR_OK
      else
        ps ← load_buf s;
        dbg_assert (negb (ref ps =? 0));;
        pd ← load_buf d;
        dbg_assert (negb (ref pd =? 0));;
        if (total_blk_remain pd <? size) || (total_blk_remain ps <? size)
        then mret NET_ERR_SIZE
        else copy_loop (acc_fuel pd + acc_fuel ps) d s size;; mret NET_ERR_OK
  | _, _ => mret NET_ERR_PARAM
  end.

Fixpoint fill_loop (fuel : nat) (b : nat) (v size : Z) : M pkt_state unit :=
  if size <=? 0 then mret ()
  else
    match fuel with
    | O => stuck
    | S fuel =>
        blk ← curr_blk_remain b;
        let curr_fill := if blk <? size then blk else size in
        acc_write b (replicate (Z.to_nat curr_fill) v);;
        move_forward b curr_fill;;
        fill_loop fuel b v (size - curr_fill)
    end.

Definition pktbuf_fill (buf : option nat) (v size : Z) : M pkt_state Z :=
  match buf with
  | None => mret NET_ERR_PARAM
  | Some b =>
      if size <? 0 then mret NET_ERR_PARAM
      else if size =? 0 then mret NET_ERR_OK
      else
        p ← load_buf b;
        dbg_assert (negb (ref p =? 0));;
        if total_blk_remain p <? size then mret NET_ERR_SIZE
        else fill_loop (acc_fuel p) b v size;; mret NET_ERR_OK
  end.

Fixpoint checksum_loop (fuel : nat) (b : nat) (size sum offset : Z) : M pkt_state Z :=
  if size <=? 0 then mret sum
  else
    match fuel with
    | O => stuck
    | S fuel =>
        blk ← curr_blk_remain b;
        let curr_size := if size <? blk then size else blk in
        bs ← acc_read b curr_size;
        let sum := checksum16 offset bs sum false in
        p ← load_buf b;
        c ← deref (curr_blk p);
        k ← load_blk c;
        o ← deref (blk_offset p);
        d ← deref (blk_data k);
        dbg_assert (o + curr_size <=? d + PKTBUF_BLK_SIZE);;
        move_forward b curr_size;;
        checksum_loop fuel b (size - curr_size) sum (offset + curr_size)
    end.

Definition pktbuf_checksum16 (buf : option nat) (size pre_sum : Z) (complement : bool)
    : M pkt_state Z :=
  match buf with
  | None => mret 0
  | Some b =>
      if size <? 0 then mret 0
      else
        p ← load_buf b;
        dbg_assert (negb (ref p =? 0));;
        if total_blk_remain p <? size then mret 0
        else
          sum ← checksum_loop (acc_fuel p) b size pre_sum 0;
          mret (if complement then u16 (Z.lnot sum) else u16 sum)
  end.
