(* ===== verification/PktbufSpec.v ===== *)
(** * Packet buffers: the byte string a packet holds, and its invariant

    The abstract view of a packet buffer is a byte string, an access position
    and a reference count.  This file defines that view and the invariant of
    the pool, and proves how the loops that move the access position act on
    the byte string. *)

From S2P Require Import Prelude Tools Nlist Mblock Pktbuf.

(** ** Blocks and chains *)

Definition blk_ok (k : pktblk_t) : Prop :=
  len (payload k) = PKTBUF_BLK_SIZE /\ are_bytes (payload k).

Definition blk_used (k : pktblk_t) : Prop :=
  blk_ok k /\ exists d, blk_data k = Some d /\ 0 <= d /\ 1 <= blk_size k /\
    d + blk_size k <= PKTBUF_BLK_SIZE.

Definition blk_bytes (k : pktblk_t) : bytes :=
  match blk_data k with
  | Some d => take (Z.to_nat (blk_size k)) (drop (Z.to_nat d) (payload k))
  | None => []
  end.

Abbreviation blk_map := (gmap nat pktblk_t).

Definition bytes_of (m : blk_map) (i : nat) : bytes :=
  match m !! i with Some k => blk_bytes k | None => [] end.

Fixpoint chain_bytes (m : blk_map) (l : list nat) : bytes :=
  match l with
  | [] => []
  | i :: l => bytes_of m i ++ chain_bytes m l
  end.

Definition chain_ok (m : blk_map) (l : list nat) : Prop :=
  Forall (fun i => exists k, m !! i = Some k /\ blk_used k) l.

(** The blocks from the one that holds byte [n] on, and the offset in it. *)
Fixpoint seek_to (m : blk_map) (l : list nat) (n : Z) : list nat * Z :=
  match l with
  | [] => ([], n)
  | i :: l' =>
      let sz := len (bytes_of m i) in
      if n <? sz then (l, n) else seek_to m l' (n - sz)
  end.

Definition locate (m : blk_map) (l : list nat) (n : Z) : option nat * option Z :=
  match seek_to m l n with
  | ([], _) => (None, None)
  | (i :: _, off) => (Some i, k ← m !! i; d ← blk_data k; Some (d + off))
  end.

Lemma len_blk_bytes k : blk_used k -> len (blk_bytes k) = blk_size k.
Proof.
  intros ((Hl & _) & d & Hd & ? & ? & ?). unfold blk_bytes. rewrite Hd.
  rewrite length_take, length_drop. lia.
Qed.

Lemma are_bytes_blk k : blk_used k -> are_bytes (blk_bytes k).
Proof.
  intros ((_ & Hb) & d & Hd & _). unfold blk_bytes. rewrite Hd.
  by apply Forall_take, Forall_drop.
Qed.

Lemma bytes_of_some m i k : m !! i = Some k -> bytes_of m i = blk_bytes k.
Proof. intros H. unfold bytes_of. by rewrite H. Qed.

Lemma chain_bytes_app m l1 l2 :
  chain_bytes m (l1 ++ l2) = chain_bytes m l1 ++ chain_bytes m l2.
Proof. induction l1 as [|i l1 IH]; cbn; [done|]. by rewrite IH, app_assoc. Qed.

Lemma chain_ok_app m l1 l2 : chain_ok m (l1 ++ l2) <-> chain_ok m l1 /\ chain_ok m l2.
Proof. apply Forall_app. Qed.

Lemma are_bytes_chain m l : chain_ok m l -> are_bytes (chain_bytes m l).
Proof.
  induction 1 as [|i l (k & Hk & Hu) Hl IH]; cbn; [done|].
  rewrite (bytes_of_some _ _ _ Hk), Forall_app. split; [by apply are_bytes_blk|done].
Qed.

(** Blocks that do not change keep their bytes. *)
Definition agree (l : list nat) (m m' : blk_map) : Prop :=
  forall i, i ∈ l -> m' !! i = m !! i.

Lemma agree_chain_bytes m m' l : agree l m m' -> chain_bytes m' l = chain_bytes m l.
Proof.
  induction l as [|i l IH]; intros H; cbn; [done|].
  rewrite IH by (intros j Hj; apply H; set_solver). f_equal.
  unfold bytes_of. by rewrite H by set_solver.
Qed.

Lemma agree_chain_ok m m' l : agree l m m' -> chain_ok m l -> chain_ok m' l.
Proof.
  intros H. unfold chain_ok. rewrite !Forall_forall. intros Hm i Hi.
  rewrite H by done. by apply Hm.
Qed.

(** Blocks that keep their data pointer and size keep their positions. *)
Definition same_shape (l : list nat) (m m' : blk_map) : Prop :=
  forall i, i ∈ l -> len (bytes_of m' i) = len (bytes_of m i) /\
    (k ← m' !! i; blk_data k) = (k ← m !! i; blk_data k).

Lemma seek_to_subset m l n : (seek_to m l n).1 ⊆ l.
Proof.
  revert n. induction l as [|i l IH]; intros n; cbn; [set_solver|].
  case_match; cbn; [set_solver|]. specialize (IH (n - len (bytes_of m i))). set_solver.
Qed.

Lemma same_shape_seek m m' l n : same_shape l m m' -> seek_to m' l n = seek_to m l n.
Proof.
  revert n. induction l as [|i l IH]; intros n H; cbn; [done|].
  destruct (H i) as [-> _]; [set_solver|]. case_match; [done|].
  apply IH. intros j Hj. apply H. set_solver.
Qed.

Lemma same_shape_locate m m' l n : same_shape l m m' -> locate m' l n = locate m l n.
Proof.
  intros H. unfold locate. rewrite (same_shape_seek m) by done.
  pose proof (seek_to_subset m l n) as Hsub.
  destruct (seek_to m l n) as [[|i sfx] off]; [done|].
  destruct (H i) as [_ Hd]; [cbn in Hsub; set_solver|]. f_equal.
  destruct (m' !! i) as [k'|], (m !! i) as [k|]; cbn in *;
    [by rewrite Hd|by rewrite Hd|by rewrite <- Hd|done].
Qed.

Lemma agree_locate m m' l n : agree l m m' -> locate m' l n = locate m l n.
Proof.
  intros H. apply same_shape_locate. intros i Hi. unfold bytes_of. by rewrite H.
Qed.

(** [at_pos m l n l1 i l2 k d off]: byte [n] of the chain [l] is byte [off] of
    the block [i], which has the blocks [l1] before it and [l2] after it. *)
Definition at_pos (m : blk_map) (l : list nat) (n : Z)
    (l1 : list nat) (i : nat) (l2 : list nat) (k : pktblk_t) (d off : Z) : Prop :=
  l = l1 ++ i :: l2 /\ m !! i = Some k /\ blk_used k /\ blk_data k = Some d /\
  0 <= off < blk_size k /\ n = len (chain_bytes m l1) + off.

Lemma at_pos_exists m l n :
  chain_ok m l -> 0 <= n < len (chain_bytes m l) ->
  exists l1 i l2 k d off, at_pos m l n l1 i l2 k d off.
Proof.
  intros Hok. revert n. induction Hok as [|i l (k & Hk & Hu) Hl IH]; cbn; intros n Hn; [lia|].
  rewrite (bytes_of_some _ _ _ Hk), length_app in Hn.
  pose proof (len_blk_bytes k Hu) as Hlen.
  destruct (decide (n < blk_size k)).
  - pose proof Hu as (_ & d & Hd & _). exists [], i, l, k, d, n.
    split_and!; done || (cbn; lia).
  - destruct (IH (n - blk_size k)) as (l1 & j & l2 & k' & d & off & -> & ? & ? & ? & ? & ?).
    { lia. }
    exists (i :: l1), j, l2, k', d, off. split_and!; try done || lia. cbn.
    rewrite (bytes_of_some _ _ _ Hk), length_app. lia.
Qed.

Lemma seek_to_app m l1 l2 n :
  0 <= n -> seek_to m (l1 ++ l2) (len (chain_bytes m l1) + n) = seek_to m l2 n.
Proof.
  intros Hn. induction l1 as [|i l1 IH]; cbn; [by f_equal|].
  rewrite length_app. case_match eqn:E; [apply Z.ltb_lt in E; lia|].
  rewrite <- IH. f_equal. lia.
Qed.

Lemma seek_to_end m l : chain_ok m l -> seek_to m l (len (chain_bytes m l)) = ([], 0).
Proof.
  intros. rewrite <- (app_nil_r l) at 1. rewrite <- (Z.add_0_r (len _)).
  by rewrite seek_to_app.
Qed.

Lemma seek_to_in m i l k off :
  m !! i = Some k -> blk_used k -> 0 <= off < blk_size k ->
  seek_to m (i :: l) off = (i :: l, off).
Proof.
  intros Hk Hu Ho. cbn. rewrite (bytes_of_some _ _ _ Hk), len_blk_bytes by done.
  by replace (off <? blk_size k) with true by lia.
Qed.

Lemma at_pos_locate m l n l1 i l2 k d off :
  at_pos m l n l1 i l2 k d off -> locate m l n = (Some i, Some (d + off)).
Proof.
  intros (-> & Hk & Hu & Hd & Ho & ->). unfold locate.
  rewrite seek_to_app by lia. rewrite (seek_to_in _ _ _ k) by done. rewrite Hk. cbn. by rewrite Hd.
Qed.

Lemma locate_end m l : chain_ok m l -> locate m l (len (chain_bytes m l)) = (None, None).
Proof. intros. unfold locate. by rewrite seek_to_end. Qed.

(** Moving [c] bytes inside the block, or to the start of the next one. *)
Lemma at_pos_locate_move m l n l1 i l2 k d off c :
  chain_ok m l -> at_pos m l n l1 i l2 k d off -> 0 < c <= blk_size k - off ->
  locate m l (n + c) =
    if d + blk_size k <=? d + off + c then
      (head l2, j ← head l2; k' ← m !! j; blk_data k')
    else (Some i, Some (d + off + c)).
Proof.
  intros Hok (-> & Hk & Hu & Hd & Ho & ->) Hc.
  destruct (Z.leb_spec (d + blk_size k) (d + off + c)).
  - replace c with (blk_size k - off) by lia. unfold locate.
    rewrite cons_middle, app_assoc.
    replace (len (chain_bytes m l1) + off + (blk_size k - off))
      with (len (chain_bytes m (l1 ++ [i])) + 0).
    2: { rewrite chain_bytes_app. cbn. rewrite (bytes_of_some _ _ _ Hk), app_nil_r, length_app.
         pose proof (len_blk_bytes k Hu). lia. }
    rewrite seek_to_app by lia. destruct l2 as [|j l2]; [done|].
    rewrite chain_ok_app in Hok. destruct Hok as [_ Hok].
    apply Forall_cons in Hok as [_ Hok]. apply Forall_cons in Hok as [(k' & Hk' & Hu') _].
    pose proof Hu' as (_ & d' & Hd' & ? & ? & ?).
    rewrite (seek_to_in _ _ _ k') by (done || lia). cbn. rewrite Hk'. cbn. rewrite Hd'. cbn.
    by rewrite Z.add_0_r.
  - rewrite (at_pos_locate m _ _ l1 i l2 k d (off + c)).
    + by rewrite Z.add_assoc.
    + split_and!; try done || lia.
Qed.

(** ** The invariant of the pool *)

Definition buf_ok (m : blk_map) (p : pktbuf_t) : Prop :=
  1 <= ref p /\ chain_ok m (blk_list p) /\ NoDup (blk_list p) /\
  total_size p = len (chain_bytes m (blk_list p)) /\
  0 <= pos p <= total_size p /\
  (curr_blk p, blk_offset p) = locate m (blk_list p) (pos p).

(** An allocated buffer. *)
Definition live (s : pkt_state) (b : nat) (p : pktbuf_t) : Prop :=
  pktbuf_buffer s !! b = Some p /\ b ∉ free_list (pktbuf_list s).

(** Every block is in the free list or in the chain of one live buffer, once;
    so no block is lost, shared or freed twice. *)
Definition pkt_wf (s : pkt_state) : Prop :=
  let fb := free_list (block_list s) in
  let fp := free_list (pktbuf_list s) in
  NoDup fb /\ NoDup fp /\
  (forall i, i ∈ fb -> i ∈ dom (block_buffer s)) /\
  (forall b, b ∈ fp -> b ∈ dom (pktbuf_buffer s)) /\
  (forall i k, block_buffer s !! i = Some k -> blk_ok k) /\
  (forall b p, live s b p -> buf_ok (block_buffer s) p) /\
  (forall b p, live s b p -> blk_list p ## fb) /\
  (forall b b' p p', live s b p -> live s b' p' -> b <> b' -> blk_list p ## blk_list p') /\
  (forall i, i ∈ dom (block_buffer s) ->
     i ∈ fb \/ exists b p, live s b p /\ i ∈ blk_list p).

(** The abstract view: the bytes, the access position, the references. *)
Record view := View { v_bytes : bytes; v_pos : Z; v_ref : Z }.

Definition has_view (s : pkt_state) (b : nat) (v : view) : Prop :=
  exists p, live s b p /\ v = View (chain_bytes (block_buffer s) (blk_list p)) (pos p) (ref p).

(** The buffers outside [bs] have the same record and the same blocks in [s']
    as in [s], so the same view ([views_kept_view]). *)
Definition views_kept (bs : list nat) (s s' : pkt_state) : Prop :=
  forall b p, b ∉ bs -> (live s b p <-> live s' b p) /\
    (live s b p -> agree (blk_list p) (block_buffer s) (block_buffer s')).

#[global] Instance views_kept_refl bs : Reflexive (views_kept bs).
Proof. by split. Qed.

#[global] Instance views_kept_trans bs : Transitive (views_kept bs).
Proof.
  intros s1 s2 s3 H12 H23 b p Hb. destruct (H12 b p Hb) as [HL1 HA1], (H23 b p Hb) as [HL2 HA2].
  split; [by rewrite HL1|]. intros Hp i Hi. rewrite HA2, HA1; [done..| |done]. by apply HL1.
Qed.

Lemma views_kept_mono bs bs' s s' : bs ⊆ bs' -> views_kept bs s s' -> views_kept bs' s s'.
Proof. intros Hs H b p Hb. apply H. set_solver. Qed.

Lemma views_kept_view bs s s' b v :
  views_kept bs s s' -> b ∉ bs -> has_view s b v <-> has_view s' b v.
Proof.
  intros Hk Hb. split; intros (p & Hp & ->); exists p; destruct (Hk b p Hb) as [HL HA].
  - split; [by apply HL|]. by rewrite (agree_chain_bytes _ _ _ (HA Hp)).
  - apply HL in Hp. split; [done|]. by rewrite (agree_chain_bytes _ _ _ (HA Hp)).
Qed.

Lemma buf_ok_agree m m' p : agree (blk_list p) m m' -> buf_ok m p -> buf_ok m' p.
Proof.
  intros Ha (Hr & Hok & Hnd & Ht & Hp & Hc).
  split_and!; [done|by eapply agree_chain_ok|done| |lia..|].
  - by rewrite (agree_chain_bytes _ _ _ Ha).
  - by rewrite (agree_locate _ _ _ _ Ha).
Qed.

(** How one buffer's chain may change: blocks move between the chain and the
    free list, and no block of another chain is written. *)
Definition upd (s s' : pkt_state) (b : nat) (p' : pktbuf_t) : Prop :=
  exists p, live s b p /\
  pktbuf_buffer s' = <[b := p']> (pktbuf_buffer s) /\
  pktbuf_list s' = pktbuf_list s /\
  blk_list p' ++ free_list (block_list s') ≡ₚ blk_list p ++ free_list (block_list s) /\
  dom (block_buffer s') = dom (block_buffer s) /\
  (forall i k, block_buffer s' !! i = Some k -> blk_ok k) /\
  (forall i, i ∉ blk_list p ++ free_list (block_list s) ->
     block_buffer s' !! i = block_buffer s !! i) /\
  buf_ok (block_buffer s') p'.

Lemma upd_live s s' b p' b' q :
  upd s s' b p' -> live s' b' q <-> (b' = b /\ q = p') \/ (b' <> b /\ live s b' q).
Proof.
  intros (p & [Hp Hf] & Hb & Hl & _). unfold live. rewrite Hb, Hl.
  destruct (decide (b' = b)) as [->|Hne].
  - rewrite lookup_insert_eq. naive_solver.
  - rewrite lookup_insert_ne by done. naive_solver.
Qed.

Lemma upd_agree s s' b p' b' q :
  pkt_wf s -> upd s s' b p' -> live s b' q -> b' <> b ->
  agree (blk_list q) (block_buffer s) (block_buffer s').
Proof.
  intros (_ & _ & _ & _ & _ & _ & Hfree & Hdisj & _) (p & Hp & _ & _ & _ & _ & _ & Hfr & _) Hq Hne.
  intros i Hi. apply Hfr.
  pose proof (Hdisj b b' p q Hp Hq ltac:(done)). pose proof (Hfree b' q Hq). set_solver.
Qed.

Section upd.
Context (s s' : pkt_state) (b : nat) (p' : pktbuf_t).
Hypothesis Hwf : pkt_wf s.
Hypothesis Hu : upd s s' b p'.

Lemma upd_self : live s' b p'.
Proof. apply (upd_live s s' b p' b p' Hu). by left. Qed.

Lemma upd_blocks p :
  live s b p ->
  NoDup (blk_list p' ++ free_list (block_list s')) /\
  forall i, i ∈ blk_list p' \/ i ∈ free_list (block_list s') <->
            i ∈ blk_list p \/ i ∈ free_list (block_list s).
Proof.
  intros Hp. destruct Hwf as (Hfb & _ & _ & _ & _ & Hbuf & Hfree & _).
  destruct Hu as (q & Hq & _ & _ & Hperm & _).
  assert (q = p) as -> by (destruct Hp, Hq; congruence).
  pose proof (Hbuf b p Hp) as (_ & _ & Hndp & _). pose proof (Hfree b p Hp) as Hpf.
  split.
  - rewrite Hperm. apply NoDup_app. set_solver.
  - intros i. rewrite <- !elem_of_app. by rewrite Hperm.
Qed.

(** The blocks of the new chain and the new free list belong to no other
    buffer. *)
Lemma upd_other b' q i :
  live s b' q -> b' <> b -> i ∈ blk_list q ->
  i ∉ blk_list p' /\ i ∉ free_list (block_list s').
Proof.
  intros Hq Hne Hi. pose proof Hu as (p & Hp & _). destruct (upd_blocks p Hp) as [_ Hset].
  destruct Hwf as (_ & _ & _ & _ & _ & _ & Hfree & Hdisj & _).
  pose proof (Hdisj b b' p q Hp Hq ltac:(done)). pose proof (Hfree b' q Hq).
  split; intros Hx; [destruct (proj1 (Hset i) (or_introl Hx))
                    |destruct (proj1 (Hset i) (or_intror Hx))]; set_solver.
Qed.

Lemma upd_wf : pkt_wf s'.
Proof.
  pose proof (fun b' q => upd_live s s' b p' b' q Hu) as Hlive.
  pose proof (fun b' q => upd_agree s s' b p' b' q Hwf Hu) as Hagree.
  pose proof Hwf as (_ & Hfp & Hfbd & Hfpd & _ & Hbuf & _ & Hdisj & Hall).
  pose proof Hu as (p & Hp & Hb & Hl & _ & Hdom & Hblk' & _ & Hok).
  destruct (upd_blocks p Hp) as [(_ & Hpf' & Hfb')%NoDup_app Hset].
  split_and!; [done|by rewrite Hl| | |done|..].
  - intros i Hi. rewrite Hdom. destruct (proj1 (Hset i) (or_intror Hi)) as [Hip|]; [|by apply Hfbd].
    destruct (Hbuf b p Hp) as (_ & Hc & _). unfold chain_ok in Hc. rewrite Forall_forall in Hc.
    destruct (Hc i Hip) as (k & Hk & _). apply elem_of_dom. eauto.
  - intros x Hx. rewrite Hb, dom_insert. rewrite Hl in Hx. apply Hfpd in Hx. set_solver.
  - intros b' q [[-> ->]|[Hne Hq]]%Hlive; [done|].
    eapply buf_ok_agree; [by apply (Hagree b' q)|by apply (Hbuf b')].
  - intros b' q [[-> ->]|[Hne Hq]]%Hlive; [set_solver|].
    intros i Hi. by apply (upd_other b' q i).
  - intros b1 b2 q1 q2 H1%Hlive H2%Hlive Hne.
    destruct H1 as [[-> ->]|[Hn1 H1]], H2 as [[-> ->]|[Hn2 H2]]; [done| | |by eapply Hdisj].
    all: intros i Hi1 Hi2.
    + by destruct (upd_other b2 q2 i H2 Hn2 Hi2).
    + by destruct (upd_other b1 q1 i H1 Hn1 Hi1).
  - intros i Hi. rewrite Hdom in Hi.
    assert (i ∈ blk_list p \/ i ∈ free_list (block_list s) \/
            exists b' q, b' <> b /\ live s b' q /\ i ∈ blk_list q) as Hi'.
    { destruct (Hall i Hi) as [?|(b' & q & Hq & Hiq)]; [by right; left|].
      destruct (decide (b' = b)) as [->|]; [left|right; right; eauto].
      destruct Hq, Hp. by simplify_eq. }
    pose proof upd_self.
    destruct Hi' as [Hi'|[Hi'|(b' & q & Hne & Hq & Hiq)]].
    1: destruct (proj2 (Hset i) (or_introl Hi')); [right|left]; eauto.
    1: destruct (proj2 (Hset i) (or_intror Hi')); [right|left]; eauto.
    right. exists b', q. split; [|done]. apply Hlive. by right.
Qed.

Lemma upd_views : views_kept [b] s s'.
Proof.
  pose proof (fun b' q => upd_live s s' b p' b' q Hu) as Hlive.
  pose proof (fun b' q => upd_agree s s' b p' b' q Hwf Hu) as Hagree.
  intros b' q Hne. rewrite Hlive. split; [|intros Hq; eapply Hagree; [done|set_solver]].
  split; [right; set_solver|]. intros [[-> ->]|[_ ?]]; [set_solver|done].
Qed.

Lemma upd_view :
  has_view s' b (View (chain_bytes (block_buffer s') (blk_list p')) (pos p') (ref p')).
Proof. exists p'. split; [apply upd_self|done]. Qed.
End upd.

Lemma upd_refl s b p : pkt_wf s -> live s b p -> upd s s b p.
Proof.
  intros (_ & _ & _ & _ & Hblk & Hbuf & _) Hp. exists p.
  split_and!; try done; [|by eapply Hbuf]. symmetry. apply insert_id. by destruct Hp.
Qed.

Lemma upd_trans s1 s2 s3 b p2 p3 :
  pkt_wf s1 -> upd s1 s2 b p2 -> upd s2 s3 b p3 -> upd s1 s3 b p3.
Proof.
  intros Hwf H12 (p2' & Hp2' & Hb23 & Hl23 & Hperm23 & Hdom23 & Hok3 & Hfr23 & Hbuf3).
  pose proof (upd_self _ _ _ _ H12) as Hp2.
  assert (p2' = p2) as -> by (destruct Hp2, Hp2'; congruence).
  destruct H12 as (p1 & Hp1 & Hb12 & Hl12 & Hperm12 & Hdom12 & _ & Hfr12 & _).
  exists p1. split_and!; try done.
  - by rewrite Hb23, Hb12, insert_insert_eq.
  - by rewrite Hl23.
  - by rewrite Hperm23.
  - by rewrite Hdom23.
  - intros i Hi. rewrite Hfr23, Hfr12; [done..|]. by rewrite Hperm12.
Qed.

(** ** Running the code *)

Lemma load_blk_ret s i k : block_buffer s !! i = Some k -> load_blk i s = Ret k s.
Proof. intros H. unfold load_blk. mstep. by rewrite H. Qed.
Lemma load_buf_ret s b p : pktbuf_buffer s !! b = Some p -> load_buf b s = Ret p s.
Proof. intros H. unfold load_buf. mstep. by rewrite H. Qed.
Lemma store_blk_ret s i f k :
  block_buffer s !! i = Some k ->
  store_blk i f s = Ret () (s <| block_buffer := <[i := f k]> (block_buffer s) |>).
Proof. intros H. unfold store_blk. by mstep by (by apply load_blk_ret). Qed.
Lemma store_buf_ret s b f p :
  pktbuf_buffer s !! b = Some p ->
  store_buf b f s = Ret () (s <| pktbuf_buffer := <[b := f p]> (pktbuf_buffer s) |>).
Proof. intros H. unfold store_buf. by mstep by (by apply load_buf_ret). Qed.

(** Runs the next command of a function of pktbuf.c. *)
Ltac pstep :=
  first
    [ mstep by (apply load_buf_ret; eassumption)
    | mstep by (apply load_blk_ret; eassumption)
    | mstep by (apply store_buf_ret; eassumption)
    | mstep by (apply store_blk_ret; eassumption)
    | mstep by (apply deref_ret; eassumption)
    | mstep ].

Lemma pktbuf_blk_next_mid i l1 l2 :
  i ∉ l1 -> pktbuf_blk_next i (l1 ++ i :: l2) = head l2.
Proof.
  induction l1 as [|x l1 IH]; cbn; intros Hi; [by rewrite Nat.eqb_refl|].
  destruct (Nat.eqb_spec x i); [set_solver|]. apply IH. set_solver.
Qed.

Section access.
Context (s : pkt_state) (b : nat) (p : pktbuf_t).
Context (l1 : list nat) (i : nat) (l2 : list nat) (k : pktblk_t) (d off : Z).
Hypothesis Hp : pktbuf_buffer s !! b = Some p.
Hypothesis Hok : buf_ok (block_buffer s) p.
Hypothesis Hat : at_pos (block_buffer s) (blk_list p) (pos p) l1 i l2 k d off.

Lemma at_pos_cursor : curr_blk p = Some i /\ blk_offset p = Some (d + off).
Proof.
  destruct Hok as (_ & _ & _ & _ & _ & Hc). rewrite (at_pos_locate _ _ _ _ _ _ _ _ _ Hat) in Hc.
  by simplify_eq.
Qed.

Lemma curr_blk_remain_at : curr_blk_remain b s = Ret (blk_size k - off) s.
Proof.
  destruct at_pos_cursor as [Hc Ho]. destruct Hat as (_ & Hk & _ & Hd & _).
  unfold curr_blk_remain. pstep. rewrite Hc, Ho. pstep. pstep.
  unfold mret, M_ret. f_equal. lia.
Qed.

Definition moved (c : Z) : pktbuf_t :=
  let '(cb, bo) := locate (block_buffer s) (blk_list p) (pos p + c) in
  p <| pos := pos p + c |> <| curr_blk := cb |> <| blk_offset := bo |>.

Lemma move_forward_at c :
  0 < c <= blk_size k - off ->
  move_forward b c s = Ret () (s <| pktbuf_buffer := <[b := moved c]> (pktbuf_buffer s) |>).
Proof.
  intros Hc. destruct at_pos_cursor as [Hcb Ho].
  pose proof Hok as (_ & Hch & Hnd & _). pose proof Hat as (Hl & Hk & _ & Hd & _).
  unfold move_forward, moved. rewrite (at_pos_locate_move _ _ _ _ _ _ _ _ _ _ Hch Hat Hc).
  pstep. rewrite Hcb. replace (c <=? 0) with false by lia.
  pstep. pstep. pstep. case_match.
  - rewrite Hl, pktbuf_blk_next_mid.
    2: { rewrite Hl in Hnd. apply NoDup_app in Hnd. set_solver. }
    destruct l2 as [|j l2']; cbn [head].
    + pstep. by erewrite store_buf_ret.
    + rewrite Hl, chain_ok_app in Hch. destruct Hch as [_ Hch].
      apply Forall_cons in Hch as [_ Hch]. apply Forall_cons in Hch as [(kj & Hkj & _) _].
      mstep by (mstep by (by apply load_blk_ret); reflexivity).
      erewrite store_buf_ret by done. cbn. by rewrite Hkj.
  - erewrite store_buf_ret by done. unfold upd_field. cbn [total_size blk_list ref pos curr_blk].
    by rewrite Hcb.
Qed.

Lemma moved_ok c :
  0 < c <= blk_size k - off ->
  buf_ok (block_buffer s) (moved c) /\ blk_list (moved c) = blk_list p /\
  pos (moved c) = pos p + c /\ ref (moved c) = ref p.
Proof.
  intros Hc. pose proof Hok as (Hr & Hch & Hnd & Ht & Hpos & _).
  pose proof Hat as (Hl & Hk & Hu & Hd & Ho & Hn).
  unfold moved. destruct (locate _ _ _) as [cb bo] eqn:E.
  split; [|done]. unfold upd_field. split_and!; try done; cbn -[locate]; [lia|].
  rewrite Ht, Hl, chain_bytes_app. cbn.
  rewrite (bytes_of_some _ _ _ Hk), !length_app.
  pose proof (len_blk_bytes k Hu). lia.
Qed.

(** The rest of the current block is a segment of the byte string. *)
Lemma blk_segment c :
  0 <= c <= blk_size k - off ->
  take (Z.to_nat c) (drop (Z.to_nat (d + off)) (payload k)) =
    take (Z.to_nat c) (drop (Z.to_nat (pos p)) (chain_bytes (block_buffer s) (blk_list p))).
Proof.
  intros Hc. pose proof Hat as (Hl & Hk & Hu & Hd & Ho & Hn).
  pose proof Hu as (_ & d' & Hd' & ? & ? & ?). assert (d' = d) as -> by congruence.
  rewrite Hl, chain_bytes_app. cbn. rewrite (bytes_of_some _ _ _ Hk).
  rewrite drop_app_ge by lia.
  replace (Z.to_nat (pos p) - _)%nat with (Z.to_nat off) by lia.
  assert (Hlen : (Z.to_nat off + Z.to_nat c <= length (blk_bytes k))%nat).
  { pose proof (len_blk_bytes k Hu). lia. }
  rewrite drop_app_le, take_app_le by (rewrite ?length_drop; lia).
  unfold blk_bytes. rewrite Hd. rewrite take_drop_segment by lia.
  f_equal. f_equal. lia.
Qed.

Lemma acc_read_at c :
  0 <= c <= blk_size k - off ->
  acc_read b c s = Ret (take (Z.to_nat c) (drop (Z.to_nat (pos p))
                          (chain_bytes (block_buffer s) (blk_list p)))) s.
Proof.
  intros Hc. destruct at_pos_cursor as [Hcb Ho].
  pose proof Hat as (_ & Hk & ((Hpl & _) & d' & Hd' & ? & ? & ?) & Hd & Hoff & _).
  assert (d' = d) as -> by congruence.
  unfold acc_read. pstep. rewrite Hcb, Ho. unfold blk_read. pstep.
  rewrite (proj2 (andb_true_iff _ _)).
  2: { split; [|lia]. apply andb_true_iff. lia. }
  unfold mret, M_ret. by rewrite blk_segment.
Qed.

Definition written (bs : bytes) : pkt_state :=
  s <| block_buffer :=
    <[i := k <| payload := splice (Z.to_nat (d + off)) bs (payload k) |>]> (block_buffer s) |>.

Lemma acc_write_at bs :
  len bs <= blk_size k - off -> acc_write b bs s = Ret () (written bs).
Proof.
  intros Hc. destruct at_pos_cursor as [Hcb Ho].
  pose proof Hat as (_ & Hk & ((Hpl & _) & d' & Hd' & ? & ? & ?) & Hd & Hoff & _).
  assert (d' = d) as -> by congruence.
  unfold acc_write. pstep. rewrite Hcb, Ho. unfold blk_write. pstep.
  rewrite (proj2 (andb_true_iff _ _)) by lia.
  by erewrite store_blk_ret.
Qed.

Lemma written_bytes bs :
  len bs <= blk_size k - off ->
  bytes_of (block_buffer (written bs)) i = splice (Z.to_nat off) bs (blk_bytes k).
Proof.
  intros Hc. pose proof Hat as (_ & Hk & Hu & Hd & Hoff & _).
  pose proof Hu as ((Hpl & _) & d' & Hd' & ? & ? & ?). assert (d' = d) as -> by congruence.
  unfold written, upd_field; cbn [block_buffer]. erewrite bytes_of_some by apply lookup_insert_eq.
  unfold blk_bytes; cbn [blk_data blk_size payload]. rewrite Hd.
  rewrite Z2Nat.inj_add by lia. apply splice_segment; lia.
Qed.

Lemma written_chain bs :
  len bs <= blk_size k - off ->
  chain_bytes (block_buffer (written bs)) (blk_list p) =
    splice (Z.to_nat (pos p)) bs (chain_bytes (block_buffer s) (blk_list p)).
Proof.
  intros Hc. pose proof Hok as (_ & _ & Hnd & _). pose proof Hat as (Hl & Hk & Hu & Hd & Hoff & Hn).
  rewrite Hl in Hnd |- *. apply NoDup_app in Hnd as (_ & Hni & [Hnj _]%NoDup_cons).
  rewrite !chain_bytes_app. cbn [chain_bytes]. rewrite written_bytes by done.
  rewrite (agree_chain_bytes (block_buffer s) (block_buffer (written bs)) l1).
  1: rewrite (agree_chain_bytes (block_buffer s) (block_buffer (written bs)) l2).
  - rewrite (bytes_of_some _ _ _ Hk), Hn.
    rewrite Z2Nat.inj_add, Nat2Z.id by lia. symmetry. apply splice_app_mid.
    pose proof (len_blk_bytes k Hu). lia.
  - intros j Hj. apply lookup_insert_ne. set_solver.
  - intros j Hj. apply lookup_insert_ne. set_solver.
Qed.

Lemma written_blk bs :
  are_bytes bs -> len bs <= blk_size k - off ->
  blk_used (k <| payload := splice (Z.to_nat (d + off)) bs (payload k) |>).
Proof.
  intros Hb Hc. pose proof Hat as (_ & Hk & ((Hpl & Hbs) & d' & Hd' & ? & ? & ?) & Hd & Hoff & _).
  assert (d' = d) as -> by congruence. split; [split|].
  - cbn. rewrite length_splice; lia.
  - cbn. by apply Forall_splice.
  - exists d. by split_and!.
Qed.

Lemma written_shape bs :
  len bs <= blk_size k - off ->
  same_shape (blk_list p) (block_buffer s) (block_buffer (written bs)).
Proof.
  intros Hc j _. pose proof Hat as (_ & Hk & Hu & _ & Hoff & _).
  destruct (decide (j = i)) as [->|].
  - rewrite written_bytes, (bytes_of_some _ _ _ Hk), length_splice by
      (pose proof (len_blk_bytes k Hu); lia).
    split; [done|]. cbn [written upd_field block_buffer]. rewrite lookup_insert_eq, Hk. done.
  - unfold bytes_of. cbn [written upd_field block_buffer]. by rewrite lookup_insert_ne.
Qed.

Lemma written_ok bs :
  are_bytes bs -> len bs <= blk_size k - off -> buf_ok (block_buffer (written bs)) p.
Proof.
  intros Hb Hc. pose proof Hok as (Hr & Hch & Hnd & Ht & Hpos & Hcur).
  pose proof Hat as (Hl & Hk & Hu & Hd & Hoff & Hn). pose proof (written_blk bs Hb Hc) as Hw.
  assert (Hlen : len (splice (Z.to_nat (pos p)) bs (chain_bytes (block_buffer s) (blk_list p)))
                 = total_size p).
  { rewrite Ht, length_splice; [done|]. rewrite Hl, chain_bytes_app. cbn.
    rewrite (bytes_of_some _ _ _ Hk), !length_app. pose proof (len_blk_bytes k Hu). lia. }
  split_and!; [done| |done| |lia..|].
  - unfold chain_ok in *. eapply Forall_impl; [exact Hch|]. intros j (kj & Hkj & Huj). cbn in *.
    destruct (decide (j = i)) as [->|]; [rewrite lookup_insert_eq|rewrite lookup_insert_ne by done]; eauto.
  - by rewrite written_chain.
  - by rewrite (same_shape_locate (block_buffer s)) by (by apply written_shape).
Qed.
End access.

(** The number of blocks from the access position on. *)
Definition blocks_left (m : blk_map) (l : list nat) (n : Z) : nat :=
  length (seek_to m l n).1.

Lemma seek_to_length m l n : (length (seek_to m l n).1 <= length l)%nat.
Proof.
  revert n. induction l as [|i l IH]; intros n; cbn; [done|].
  case_match; cbn; [lia|]. specialize (IH (n - len (bytes_of m i))). lia.
Qed.

Lemma blocks_left_at m l n l1 i l2 k d off :
  at_pos m l n l1 i l2 k d off -> blocks_left m l n = S (length l2).
Proof.
  intros (-> & Hk & Hu & Hd & Ho & ->). unfold blocks_left.
  rewrite seek_to_app by lia. by rewrite (seek_to_in _ _ _ k).
Qed.

Lemma blocks_left_next m l n l1 i l2 k d off :
  at_pos m l n l1 i l2 k d off ->
  (blocks_left m l (n + (blk_size k - off)) <= length l2)%nat.
Proof.
  intros (-> & Hk & Hu & Hd & Ho & ->). unfold blocks_left.
  replace (len (chain_bytes m l1) + off + (blk_size k - off))
    with (len (chain_bytes m l1) + blk_size k) by lia.
  rewrite seek_to_app by lia. cbn.
  rewrite (bytes_of_some _ _ _ Hk), len_blk_bytes by done.
  replace (blk_size k <? blk_size k) with false by lia. apply seek_to_length.
Qed.

(** What an access that moves the position by [c] keeps. *)
Definition acc_post (s : pkt_state) (b : nat) (p : pktbuf_t) (c : Z) (bs : bytes)
    (s' : pkt_state) (p' : pktbuf_t) : Prop :=
  upd s s' b p' /\ blk_list p' = blk_list p /\ ref p' = ref p /\ pos p' = pos p + c /\
  chain_bytes (block_buffer s') (blk_list p') = bs.

Lemma move_round s b p l1 i l2 k d off c :
  pkt_wf s -> live s b p ->
  at_pos (block_buffer s) (blk_list p) (pos p) l1 i l2 k d off ->
  0 < c <= blk_size k - off ->
  exists s' p', move_forward b c s = Ret () s' /\
    acc_post s b p c (chain_bytes (block_buffer s) (blk_list p)) s' p' /\
    block_buffer s' = block_buffer s.
Proof.
  intros Hwf Hp Hat Hc. pose proof Hwf as (_ & _ & _ & _ & Hblk & Hbuf & _).
  pose proof (Hbuf b p Hp) as Hok. pose proof Hp as [Hb _].
  destruct (moved_ok s p l1 i l2 k d off Hok Hat c Hc) as (Hok' & Hl & Hpos & Hr).
  exists (s <| pktbuf_buffer := <[b := moved s p c]> (pktbuf_buffer s) |>), (moved s p c).
  split; [by eapply move_forward_at|]. split; [|done]. split_and!; [|done..|by rewrite Hl].
  exists p. rewrite Hl. by split_and!.
Qed.

Lemma write_round s b p l1 i l2 k d off bs :
  pkt_wf s -> live s b p ->
  at_pos (block_buffer s) (blk_list p) (pos p) l1 i l2 k d off ->
  are_bytes bs -> 0 < len bs <= blk_size k - off ->
  exists s' p', (acc_write b bs;; move_forward b (len bs)) s = Ret () s' /\
    acc_post s b p (len bs)
      (splice (Z.to_nat (pos p)) bs (chain_bytes (block_buffer s) (blk_list p))) s' p' /\
    same_shape (blk_list p) (block_buffer s) (block_buffer s').
Proof.
  intros Hwf Hp Hat Hbs Hc. pose proof Hwf as (_ & _ & _ & _ & Hblk & Hbuf & _).
  pose proof (Hbuf b p Hp) as Hok. pose proof Hp as [Hb _].
  assert (Hup : upd s (written s i k d off bs) b p).
  { exists p. pose proof Hat as (Hl & Hk & _).
    split_and!; try done.
    - symmetry. by apply insert_id.
    - cbn. apply dom_insert_lookup_L. eauto.
    - intros j kj Hj. cbn in Hj. apply lookup_insert_Some in Hj as [[<- <-]|[_ Hj]]; [|eauto].
      eapply written_blk; done || lia.
    - intros j Hj. cbn. apply lookup_insert_ne. rewrite Hl in Hj. set_solver.
    - eapply written_ok; done || lia. }
  pose proof (upd_wf _ _ _ _ Hwf Hup) as Hwf1. pose proof (upd_self _ _ _ _ Hup) as Hp1.
  destruct (move_round (written s i k d off bs) b p l1 i l2
              (k <| payload := splice (Z.to_nat (d + off)) bs (payload k) |>) d off (len bs))
    as (s' & p' & Hr & (Hu2 & Hl' & Hrf & Hpos & Hby) & Hbb); [done..| |done|].
  { pose proof Hat as (Hl & Hk & Hu & Hd & Ho & Hn). split_and!; try done || lia.
    - cbn. apply lookup_insert_eq.
    - eapply written_blk; done || lia.
    - cbn. lia.
    - rewrite (agree_chain_bytes (block_buffer s)); [done|].
      intros j Hj. cbn. apply lookup_insert_ne. destruct Hok as (_ & _ & Hnd & _).
      rewrite Hl in Hnd. apply NoDup_app in Hnd. set_solver. }
  exists s', p'. split; [|split; [split_and!; try done|]].
  - mstep by (eapply acc_write_at; done || lia). done.
  - by eapply upd_trans.
  - rewrite Hby. eapply written_chain; done || lia.
  - rewrite Hbb. eapply written_shape; done || lia.
Qed.

Lemma acc_post_trans s b p c1 bs1 s1 p1 c2 bs2 s2 p2 :
  pkt_wf s -> acc_post s b p c1 bs1 s1 p1 -> acc_post s1 b p1 c2 bs2 s2 p2 ->
  acc_post s b p (c1 + c2) bs2 s2 p2.
Proof.
  intros Hwf (Hu1 & Hl1 & Hr1 & Hp1 & _) (Hu2 & Hl2 & Hr2 & Hp2 & Hb2).
  split_and!; [by eapply upd_trans|congruence|congruence|lia|done].
Qed.

Lemma acc_post_refl s b p :
  pkt_wf s -> live s b p ->
  acc_post s b p 0 (chain_bytes (block_buffer s) (blk_list p)) s p.
Proof. intros. split_and!; [by apply upd_refl|done|done|lia|done]. Qed.

(** A round of an access loop: the current block, and the fuel for the rest. *)
Lemma round_start fuel s b p n :
  pkt_wf s -> live s b p -> 0 < n <= total_size p - pos p ->
  (blocks_left (block_buffer s) (blk_list p) (pos p) <= fuel)%nat ->
  exists f l1 i l2 k d off,
    fuel = S f /\ (length l2 <= f)%nat /\
    at_pos (block_buffer s) (blk_list p) (pos p) l1 i l2 k d off /\
    curr_blk_remain b s = Ret (blk_size k - off) s /\ 0 < blk_size k - off.
Proof.
  intros Hwf Hp Hn Hf. pose proof Hwf as (_ & _ & _ & _ & _ & Hbuf & _).
  pose proof (Hbuf b p Hp) as Hok. pose proof Hok as (_ & Hch & _ & Ht & Hps & _).
  destruct (at_pos_exists _ (blk_list p) (pos p) Hch) as (l1 & i & l2 & k & d & off & Hat); [lia|].
  rewrite (blocks_left_at _ _ _ _ _ _ _ _ _ Hat) in Hf.
  destruct fuel as [|f]; [lia|]. exists f, l1, i, l2, k, d, off.
  pose proof Hat as (_ & _ & _ & _ & Ho & _). pose proof Hp as [Hb _].
  split_and!; [done|lia|done|by eapply curr_blk_remain_at|lia].
Qed.

(** The number of bytes a round handles, [c], and what is left after it. *)
Definition round_size (rem size : Z) : Z := if rem <? size then rem else size.

Lemma round_size_spec rem size :
  0 < rem -> 0 < size ->
  0 < round_size rem size <= rem /\ round_size rem size <= size /\
  (0 < size - round_size rem size -> round_size rem size = rem).
Proof. intros. unfold round_size. destruct (Z.ltb_spec rem size); lia. Qed.

Lemma round_end s b p l1 i l2 k d off c m s1 p1 bs f size :
  at_pos (block_buffer s) (blk_list p) (pos p) l1 i l2 k d off ->
  acc_post s b p c bs s1 p1 -> same_shape (blk_list p) (block_buffer s) (block_buffer s1) ->
  (0 < size - c -> c = blk_size k - off) -> (length l2 <= f)%nat ->
  m = size - c -> 0 < m ->
  (blocks_left (block_buffer s1) (blk_list p1) (pos p1) <= f)%nat.
Proof.
  intros Hat (_ & Hl & _ & Hpos & _) Hsh Hc Hf -> Hm.
  rewrite Hl, Hpos, Hc by done. unfold blocks_left.
  rewrite (same_shape_seek _ _ _ _ Hsh). fold (blocks_left (block_buffer s) (blk_list p)
    (pos p + (blk_size k - off))). pose proof (blocks_left_next _ _ _ _ _ _ _ _ _ Hat). lia.
Qed.

Lemma acc_post_state s b p c bs s1 p1 :
  pkt_wf s -> live s b p -> acc_post s b p c bs s1 p1 ->
  len bs = len (chain_bytes (block_buffer s) (blk_list p)) ->
  pkt_wf s1 /\ live s1 b p1 /\ total_size p1 - pos p1 = total_size p - pos p - c.
Proof.
  intros Hwf Hp (Hu & Hl & _ & Hpos & Hb) Hlen.
  pose proof (upd_wf _ _ _ _ Hwf Hu) as Hwf1. pose proof (upd_self _ _ _ _ Hu) as Hp1.
  split_and!; [done..|]. pose proof Hwf as (_ & _ & _ & _ & _ & Hbuf & _).
  pose proof Hwf1 as (_ & _ & _ & _ & _ & Hbuf1 & _).
  destruct (Hbuf b p Hp) as (_ & _ & _ & Ht & _). destruct (Hbuf1 b p1 Hp1) as (_ & _ & _ & Ht1 & _).
  rewrite Hb in Ht1. lia.
Qed.

Lemma pos_bounds s b p :
  pkt_wf s -> live s b p ->
  0 <= pos p <= total_size p /\ total_size p = len (chain_bytes (block_buffer s) (blk_list p)).
Proof.
  intros (_ & _ & _ & _ & _ & Hbuf & _) Hp.
  destruct (Hbuf b p Hp) as (_ & _ & _ & Ht & Hpos & _). done.
Qed.

Lemma splice_step n c (src l : bytes) :
  0 <= n -> 0 <= c <= len src -> n + c <= len l ->
  splice (Z.to_nat (n + c)) (drop (Z.to_nat c) src)
    (splice (Z.to_nat n) (take (Z.to_nat c) src) l) = splice (Z.to_nat n) src l.
Proof.
  intros. assert (length (take (Z.to_nat c) src) = Z.to_nat c) as Hl by (rewrite length_take; lia).
  rewrite Z2Nat.inj_add by lia. rewrite <- Hl at 1.
  rewrite splice_splice by lia. by rewrite take_drop.
Qed.

Lemma write_loop_spec fuel s b p src :
  pkt_wf s -> live s b p -> are_bytes src ->
  len src <= total_size p - pos p ->
  (0 < len src -> (blocks_left (block_buffer s) (blk_list p) (pos p) <= fuel)%nat) ->
  exists s' p', write_loop fuel b src (len src) s = Ret () s' /\
    acc_post s b p (len src)
      (splice (Z.to_nat (pos p)) src (chain_bytes (block_buffer s) (blk_list p))) s' p'.
Proof.
  revert s p src. induction fuel as [|fuel0 IH]; intros s p src Hwf Hp Hb Hsz Hf.
  all: destruct (decide (len src = 0)) as [E|Hpos];
    [destruct src; [|done]; exists s, p; split;
     [done|rewrite splice_nil; by apply acc_post_refl]|].
  all: edestruct round_start as (f & l1 & i & l2 & k & d & off & Hfu & Hf2 & Hat & Hrem & Hr0);
    [done|done| |apply Hf; lia|]; [split; [|exact Hsz]; lia|]; simplify_eq.
  destruct (round_size_spec (blk_size k - off) (len src)) as (Hc & Hcs & Hlast); [lia..|].
  set (c := round_size (blk_size k - off) (len src)) in *.
  unfold write_loop; fold write_loop. replace (len src <=? 0) with false by lia.
  mstep by exact Hrem. fold (round_size (blk_size k - off) (len src)). fold c.
  replace (len src <? c) with false by lia.
  assert (Hlt : len (take (Z.to_nat c) src) = c) by (rewrite length_take; lia).
  destruct (write_round s b p l1 i l2 k d off (take (Z.to_nat c) src)) as
    (s1 & p1 & Hr1 & Hpost1 & Hshape); [done..|by apply Forall_take|lia|].
  rewrite Hlt in *. rewrite (mbind_ret2 _ _ _ _ _ _ Hr1).
  assert (Hdl : len (drop (Z.to_nat c) src) = len src - c) by (rewrite length_drop; lia).
  destruct (pos_bounds s b p Hwf Hp) as [Hps Ht].
  destruct (acc_post_state _ _ _ _ _ _ _ Hwf Hp Hpost1) as (Hwf1 & Hp1 & Htot1);
    [rewrite length_splice; lia|].
  destruct (IH s1 p1 (drop (Z.to_nat c) src)) as (s2 & p2 & Hr2 & Hpost2);
    [done|done|by apply Forall_drop|lia| |].
  { intros Hm. by eapply (round_end s b p l1 i l2 k d off c). }
  exists s2, p2. rewrite <- Hdl. split; [done|].
  rewrite <- (Zplus_minus c (len src)), <- Hdl.
  pose proof Hpost1 as (_ & _ & _ & Hpos1 & Hb1).
  eapply acc_post_trans; [done..|].
  by rewrite Hb1, Hpos1, splice_step in Hpost2 by lia.
Qed.

(** The current block of a round that has [n] bytes to handle. *)
Ltac start_round Hwf Hp Hf n :=
  let H := fresh in
  assert (H : 0 < n) by lia;
  destruct (round_start _ _ _ _ n Hwf Hp ltac:(lia) (Hf H))
    as (f & l1 & i & l2 & k & d & off & Hfu & Hf2 & Hat & Hrem & Hr0);
  simplify_eq; clear H;
  destruct (round_size_spec (blk_size k - off) n) as (Hc & Hcs & Hlast); try lia.

Lemma fill_loop_spec fuel s b p v size :
  pkt_wf s -> live s b p -> is_byte v -> 0 <= size <= total_size p - pos p ->
  (0 < size -> (blocks_left (block_buffer s) (blk_list p) (pos p) <= fuel)%nat) ->
  exists s' p', fill_loop fuel b v size s = Ret () s' /\
    acc_post s b p size (splice (Z.to_nat (pos p)) (replicate (Z.to_nat size) v)
                           (chain_bytes (block_buffer s) (blk_list p))) s' p'.
Proof.
  revert s p size. induction fuel as [|fuel0 IH]; intros s p size Hwf Hp Hb Hsz Hf.
  all: destruct (decide (size = 0)) as [->|Hpos];
    [exists s, p; split; [done|];
     change (replicate (Z.to_nat 0) v) with (@nil Z); rewrite splice_nil; by apply acc_post_refl|].
  all: start_round Hwf Hp Hf size.
  set (c := round_size (blk_size k - off) size) in *.
  unfold fill_loop; fold fill_loop. replace (size <=? 0) with false by lia.
  mstep by exact Hrem. fold (round_size (blk_size k - off) size). fold c.
  assert (Hlt : len (replicate (Z.to_nat c) v) = c) by (rewrite length_replicate; lia).
  destruct (write_round s b p l1 i l2 k d off (replicate (Z.to_nat c) v)) as
    (s1 & p1 & Hr1 & Hpost1 & Hshape); [done..|by apply Forall_replicate|lia|].
  rewrite Hlt in *. rewrite (mbind_ret2 _ _ _ _ _ _ Hr1).
  destruct (pos_bounds s b p Hwf Hp) as [Hps Ht].
  destruct (acc_post_state _ _ _ _ _ _ _ Hwf Hp Hpost1) as (Hwf1 & Hp1 & Htot1);
    [rewrite length_splice; lia|].
  destruct (IH s1 p1 (size - c)) as (s2 & p2 & Hr2 & Hpost2); [done|done|done|lia| |].
  { intros Hm. by eapply (round_end s b p l1 i l2 k d off c). }
  exists s2, p2. split; [done|]. rewrite <- (Zplus_minus c size) at 1.
  pose proof Hpost1 as (_ & _ & _ & Hpos1 & Hb1). eapply acc_post_trans; [done..|].
  rewrite Hb1, Hpos1 in Hpost2.
  pose proof (splice_step (pos p) c (replicate (Z.to_nat size) v)
    (chain_bytes (block_buffer s) (blk_list p))) as Hst.
  rewrite length_replicate, take_replicate, drop_replicate, Nat.min_l in Hst by lia.
  rewrite Z2Nat.inj_sub, Hst in Hpost2 by lia. done.
Qed.

Lemma seek_loop_spec fuel s b p size :
  pkt_wf s -> live s b p -> 0 <= size <= total_size p - pos p ->
  (0 < size -> (blocks_left (block_buffer s) (blk_list p) (pos p) <= fuel)%nat) ->
  exists s' p', seek_loop fuel b size s = Ret () s' /\
    acc_post s b p size (chain_bytes (block_buffer s) (blk_list p)) s' p' /\
    block_buffer s' = block_buffer s.
Proof.
  revert s p size. induction fuel as [|fuel0 IH]; intros s p size Hwf Hp Hsz Hf.
  all: destruct (decide (size = 0)) as [->|Hpos];
    [exists s, p; split; [done|split; [by apply acc_post_refl|done]]|].
  all: start_round Hwf Hp Hf size.
  set (c := round_size (blk_size k - off) size) in *.
  unfold seek_loop; fold seek_loop. replace (size =? 0) with false by lia.
  mstep by exact Hrem. fold (round_size (blk_size k - off) size). fold c.
  destruct (move_round s b p l1 i l2 k d off c) as (s1 & p1 & Hr1 & Hpost1 & Hbb);
    [done..|lia|].
  mstep by exact Hr1.
  destruct (acc_post_state _ _ _ _ _ _ _ Hwf Hp Hpost1) as (Hwf1 & Hp1 & Htot1); [done|].
  destruct (IH s1 p1 (size - c)) as (s2 & p2 & Hr2 & Hpost2 & Hbb2); [done|done|lia| |].
  { intros Hm. eapply (round_end s b p l1 i l2 k d off c); try done.
    rewrite Hbb. intros ? _. done. }
  exists s2, p2. split; [done|]. rewrite <- (Zplus_minus c size).
  pose proof Hpost1 as (_ & _ & _ & Hpos1 & Hb1). split; [|congruence].
  eapply acc_post_trans; [done..|]. by rewrite Hb1 in Hpost2.
Qed.

Lemma read_loop_spec fuel s b p size :
  pkt_wf s -> live s b p -> 0 <= size <= total_size p - pos p ->
  (0 < size -> (blocks_left (block_buffer s) (blk_list p) (pos p) <= fuel)%nat) ->
  exists s' p', read_loop fuel b size s =
      Ret (take (Z.to_nat size) (drop (Z.to_nat (pos p))
             (chain_bytes (block_buffer s) (blk_list p)))) s' /\
    acc_post s b p size (chain_bytes (block_buffer s) (blk_list p)) s' p'.
Proof.
  revert s p size. induction fuel as [|fuel0 IH]; intros s p size Hwf Hp Hsz Hf.
  all: destruct (decide (size = 0)) as [->|Hpos];
    [exists s, p; split; [done|by apply acc_post_refl]|].
  all: start_round Hwf Hp Hf size.
  set (c := round_size (blk_size k - off) size) in *.
  unfold read_loop; fold read_loop. replace (size <=? 0) with false by lia.
  mstep by exact Hrem. fold (round_size (blk_size k - off) size). fold c.
  pose proof Hwf as (_ & _ & _ & _ & _ & Hbuf & _). pose proof Hp as [Hpb _].
  mstep by (eapply acc_read_at; [done|by eapply Hbuf|done|lia]).
  destruct (move_round s b p l1 i l2 k d off c) as (s1 & p1 & Hr1 & Hpost1 & Hbb);
    [done..|lia|].
  mstep by exact Hr1.
  destruct (acc_post_state _ _ _ _ _ _ _ Hwf Hp Hpost1) as (Hwf1 & Hp1 & Htot1); [done|].
  destruct (IH s1 p1 (size - c)) as (s2 & p2 & Hr2 & Hpost2); [done|done|lia| |].
  { intros Hm. eapply (round_end s b p l1 i l2 k d off c); try done.
    rewrite Hbb. intros ? _. done. }
  destruct (pos_bounds s b p Hwf Hp) as [Hps Ht].
  mstep by exact Hr2.
  pose proof Hpost1 as (_ & _ & _ & Hpos1 & Hb1). rewrite Hb1 in Hpost2.
  exists s2, p2. split.
  - unfold mret, M_ret. f_equal. rewrite Hb1, Hpos1.
    rewrite (Z2Nat.inj_add (pos p)), <- drop_drop, take_take_drop by lia. f_equal. lia.
  - rewrite <- (Zplus_minus c size). by eapply acc_post_trans.
Qed.

Lemma checksum16_range offset data pre :
  are_bytes data -> 0 <= pre <= 65535 -> 0 <= checksum16 offset data pre false <= 65535.
Proof. intros. unfold checksum16. pose proof (u16_range (checksum16_loop offset 0 data pre)). lia. Qed.

Lemma checksum16_nil offset pre : 0 <= pre <= 65535 -> checksum16 offset [] pre false = pre.
Proof. intros. unfold checksum16. cbn. apply u16_small. lia. Qed.

(** The sum does not depend on how the bytes are spread over the blocks. *)
Lemma checksum_loop_spec fuel s b p size sum offset :
  pkt_wf s -> live s b p -> 0 <= size <= total_size p - pos p -> 0 <= sum <= 65535 ->
  (0 < size -> (blocks_left (block_buffer s) (blk_list p) (pos p) <= fuel)%nat) ->
  exists s' p', checksum_loop fuel b size sum offset s =
      Ret (checksum16 offset (take (Z.to_nat size) (drop (Z.to_nat (pos p))
             (chain_bytes (block_buffer s) (blk_list p)))) sum false) s' /\
    acc_post s b p size (chain_bytes (block_buffer s) (blk_list p)) s' p'.
Proof.
  revert s p size sum offset. induction fuel as [|fuel0 IH];
    intros s p size sum offset Hwf Hp Hsz Hsum Hf.
  all: destruct (decide (size = 0)) as [->|Hpos];
    [exists s, p; split; [|by apply acc_post_refl]; change (take (Z.to_nat 0) _) with (@nil Z);
     by rewrite checksum16_nil|].
  all: start_round Hwf Hp Hf size.
  set (c := round_size (blk_size k - off) size) in *.
  pose proof Hwf as (_ & _ & _ & _ & _ & Hbuf & _). pose proof Hp as [Hpb _].
  pose proof (Hbuf b p Hp) as Hok. pose proof Hok as (_ & Hch & _).
  destruct (at_pos_cursor s p _ _ _ _ _ _ Hok Hat) as [Hcb Hbo].
  pose proof Hat as (_ & Hk & Hu & Hd & _). pose proof Hu as (_ & d' & Hd' & ? & ? & ?).
  assert (d' = d) as -> by congruence.
  unfold checksum_loop; fold checksum_loop. replace (size <=? 0) with false by lia.
  mstep by exact Hrem.
  replace (if size <? blk_size k - off then size else blk_size k - off) with c
    by (unfold c, round_size; destruct (Z.ltb_spec size (blk_size k - off)),
          (Z.ltb_spec (blk_size k - off) size); lia).
  mstep by (eapply acc_read_at; [done|by eapply Hbuf|done|lia]).
  pstep. pstep. pstep. pstep. pstep.
  rewrite (proj2 (Z.leb_le _ _)) by lia. mstep.
  destruct (move_round s b p l1 i l2 k d off c) as (s1 & p1 & Hr1 & Hpost1 & Hbb);
    [done..|lia|].
  mstep by exact Hr1.
  set (X := chain_bytes (block_buffer s) (blk_list p)) in *.
  assert (HX : are_bytes X) by (by apply are_bytes_chain).
  destruct (acc_post_state _ _ _ _ _ _ _ Hwf Hp Hpost1) as (Hwf1 & Hp1 & Htot1); [done|].
  edestruct (IH s1 p1 (size - c)) as (s2 & p2 & Hr2 & Hpost2); [done|done|lia| | |].
  { apply checksum16_range; [|exact Hsum]. by apply Forall_take, Forall_drop. }
  { intros Hm. eapply (round_end s b p l1 i l2 k d off c); try done.
    rewrite Hbb. intros ? _. done. }
  destruct (pos_bounds s b p Hwf Hp) as [Hps Ht]. fold X in Ht.
  pose proof Hpost1 as (_ & _ & _ & Hpos1 & Hb1). rewrite Hb1 in Hpost2, Hr2.
  exists s2, p2. split.
  - rewrite Hr2. f_equal. rewrite Hpos1.
    replace (offset + c) with (offset + len (take (Z.to_nat c) (drop (Z.to_nat (pos p)) X))).
    2: { rewrite length_take, length_drop. lia. }
    rewrite checksum16_app; [|by apply Forall_take, Forall_drop..|done].
    f_equal. rewrite (Z2Nat.inj_add (pos p)), <- drop_drop, take_take_drop by lia. f_equal. lia.
  - rewrite <- (Zplus_minus c size). by eapply acc_post_trans.
Qed.
