(* ===== verification/PktbufChain.v ===== *)
(** * Packet buffers: allocation and the operations that change the chain

    The allocator takes blocks from the free list and gives all of them back
    when it runs out; adding and removing headers, resizing, joining and
    freeing move blocks between a chain and the free list. *)

From S2P Require Import Prelude Tools Nlist Mblock Pktbuf PktbufSpec.

(** ** Allocating a chain *)

(** What the allocator relies on. *)
Definition pool_ok (s : pkt_state) : Prop :=
  NoDup (free_list (block_list s)) /\
  (forall i, i ∈ free_list (block_list s) -> i ∈ dom (block_buffer s)) /\
  (forall i k, block_buffer s !! i = Some k -> blk_ok k).

Lemma wf_pool s : pkt_wf s -> pool_ok s.
Proof. intros (? & _ & ? & _ & ? & _). by split_and!. Qed.

(** [s'] is [s] with the blocks [chain] taken from the free list. *)
Definition taken (s s' : pkt_state) (chain : list nat) : Prop :=
  pktbuf_buffer s' = pktbuf_buffer s /\ pktbuf_list s' = pktbuf_list s /\
  chain ++ free_list (block_list s') ≡ₚ free_list (block_list s) /\
  dom (block_buffer s') = dom (block_buffer s) /\
  (forall i k, block_buffer s' !! i = Some k -> blk_ok k) /\
  (forall i, i ∉ free_list (block_list s) -> block_buffer s' !! i = block_buffer s !! i).

Lemma pktblock_alloc_none s :
  free_list (block_list s) = [] -> pktblock_alloc s = Ret None s.
Proof.
  intros Hf. unfold pktblock_alloc. destruct s as [bb [fl] pb pl]; cbn in *. subst. done.
Qed.

Lemma pktblock_alloc_some s i fr k :
  free_list (block_list s) = i :: fr -> block_buffer s !! i = Some k ->
  pktblock_alloc s =
    Ret (Some i) (s <| block_list := MBlock fr |>
      <| block_buffer := <[i := k <| blk_size := 0 |> <| blk_data := None |>]> (block_buffer s) |>).
Proof.
  intros Hf Hk. unfold pktblock_alloc.
  mstep by (apply zoom_ret; unfold mblock_alloc; cbn [lget block_list_lens];
            mstep; rewrite Hf; by mstep).
  by mstep by (by apply store_blk_ret).
Qed.

Lemma pktblock_free_ret i s :
  pktblock_free i s =
    Ret () (s <| block_list := MBlock (free_list (block_list s) ++ [i]) |>).
Proof. by destruct s as [? [] ? ?]. Qed.

Lemma pktblock_free_list_ret chain s :
  pktblock_free_list chain s =
    Ret () (s <| block_list := MBlock (free_list (block_list s) ++ chain) |>).
Proof.
  revert s. induction chain as [|i chain IH]; intros s; cbn.
  { rewrite app_nil_r. destruct s as [? [] ? ?]. done. }
  mstep by (apply pktblock_free_ret). rewrite IH. destruct s as [? [] ? ?]. unfold upd_field. cbn. by rewrite <- app_assoc.
Qed.

(** The next block of the loop of [pktblock_alloc_list], with its size and
    position set. *)
Definition with_block (s : pkt_state) (i : nat) (fr : list nat) (k : pktblk_t) (sz d : Z)
    : pkt_state :=
  s <| block_list := MBlock fr |>
    <| block_buffer := <[i := k <| blk_size := sz |> <| blk_data := Some d |>]> (block_buffer s) |>.

Lemma alloc_loop_step fuel size front chain s i fr k :
  free_list (block_list s) = i :: fr -> block_buffer s !! i = Some k -> 0 < size ->
  let c := round_size PKTBUF_BLK_SIZE size in
  pktblock_alloc_loop (S fuel) size front chain s =
    pktblock_alloc_loop fuel (size - c) front
      (if front then i :: chain else chain ++ [i])
      (with_block s i fr k c (if front then PKTBUF_BLK_SIZE - c else 0)).
Proof.
  intros Hf Hk Hs c. cbn [pktblock_alloc_loop].
  replace (size =? 0) with false by lia.
  mstep by (by apply pktblock_alloc_some). fold (round_size PKTBUF_BLK_SIZE size). fold c.
  destruct front.
  - mstep by (apply store_blk_ret; apply lookup_insert_eq).
    f_equal. unfold with_block, upd_field. cbn [block_buffer block_list pktbuf_buffer pktbuf_list].
    by rewrite insert_insert_eq.
  - mstep by (apply store_blk_ret; apply lookup_insert_eq).
    f_equal. unfold with_block, upd_field. cbn [block_buffer block_list pktbuf_buffer pktbuf_list].
    by rewrite insert_insert_eq.
Qed.

Definition alloc_inv (s0 s : pkt_state) (chain : list nat) (done : Z) : Prop :=
  taken s0 s chain /\ chain_ok (block_buffer s) chain /\
  len (chain_bytes (block_buffer s) chain) = done.

Lemma taken_step s0 s chain front i fr k c d :
  NoDup (free_list (block_list s0)) ->
  free_list (block_list s) = i :: fr -> block_buffer s !! i = Some k ->
  1 <= c <= PKTBUF_BLK_SIZE -> 0 <= d <= PKTBUF_BLK_SIZE - c ->
  forall n, alloc_inv s0 s chain n ->
  alloc_inv s0 (with_block s i fr k c d) (if front : bool then i :: chain else chain ++ [i]) (n + c).
Proof.
  intros Hnd Hf Hk Hc Hd n ((Hb & Hl & Hperm & Hdom & Hblk & Hfr) & Hok & Hn).
  set (k' := k <| blk_size := c |> <| blk_data := Some d |>).
  assert (Hu : blk_used k').
  { split; [by apply (Hblk i k)|]. exists d. cbn. split_and!; done || lia. }
  assert (Hni : i ∉ chain).
  { rewrite <- Hperm, Hf in Hnd. apply NoDup_app in Hnd as (_ & Hd' & _).
    intros Hi. apply (Hd' i Hi). set_solver. }
  assert (Hag : agree chain (block_buffer s) (block_buffer (with_block s i fr k c d))).
  { intros j Hj. cbn. apply lookup_insert_ne. set_solver. }
  assert (Hki : block_buffer (with_block s i fr k c d) !! i = Some k') by apply lookup_insert_eq.
  split_and!.
  - unfold with_block, upd_field. split_and!; cbn; try done.
    + rewrite <- Hperm, Hf. destruct front; cbn; [|rewrite <- app_assoc; cbn];
        by rewrite ?Permutation_middle.
    + rewrite <- Hdom. apply dom_insert_lookup_L. eauto.
    + intros j kj [[<- <-]|[_ Hj]]%lookup_insert_Some; [by destruct Hu|eauto].
    + intros j Hj. rewrite lookup_insert_ne; [by apply Hfr|]. intros ->. apply Hj.
      rewrite <- Hperm, Hf. set_solver.
  - assert (chain_ok (block_buffer (with_block s i fr k c d)) chain) by eauto using agree_chain_ok.
    destruct front; [constructor; [eauto|done]|].
    apply chain_ok_app. split; [done|]. constructor; [eauto|constructor].
  - destruct front; [|rewrite chain_bytes_app]; cbn [chain_bytes]; rewrite ?app_nil_r, length_app;
      rewrite (bytes_of_some _ _ _ Hki), (agree_chain_bytes _ _ _ Hag);
      pose proof (len_blk_bytes k' Hu) as Hl'; change (blk_size k') with c in Hl'; lia.
Qed.

Lemma chain_bytes_bound m l :
  chain_ok m l -> len (chain_bytes m l) <= PKTBUF_BLK_SIZE * len l.
Proof.
  induction 1 as [|i l (k & Hk & Hu) Hl IH]; cbn [chain_bytes length]; [done|].
  rewrite length_app, (bytes_of_some _ _ _ Hk). pose proof (len_blk_bytes k Hu).
  destruct Hu as (_ & d & _ & ? & ? & ?). lia.
Qed.

(** The allocator's loop: it returns a chain of exactly the bytes asked for,
    or gives everything back when the blocks do not suffice. *)
Lemma alloc_loop_spec fuel size front s0 s chain n :
  pool_ok s0 -> alloc_inv s0 s chain n ->
  (0 < size -> n = PKTBUF_BLK_SIZE * len chain) ->
  0 <= size -> size <= PKTBUF_BLK_SIZE * Z.of_nat fuel ->
  exists s' chain', pktblock_alloc_loop fuel size front chain s = Ret chain' s' /\
    ((alloc_inv s0 s' chain' (n + size) /\
      n + size <= PKTBUF_BLK_SIZE * len (free_list (block_list s0))) \/
     (chain' = [] /\ taken s0 s' [] /\
      PKTBUF_BLK_SIZE * len (free_list (block_list s0)) < n + size)).
Proof.
  intros (Hnd & Hfd & _).
  revert size s chain n. induction fuel as [|fuel IH]; intros size s chain n Hinv Hn Hs Hf.
  all: pose proof Hinv as (Htk & Hok & Hlen); pose proof Htk as (Hb & Hl & Hperm & Hdom & Hblk & Hfr).
  all: assert (Hcnt : len chain + len (free_list (block_list s)) = len (free_list (block_list s0)))
    by (rewrite <- Hperm, length_app; lia).
  all: destruct (decide (size = 0)) as [->|Hne].
  1, 3: exists s, chain; split; [done|left; rewrite Z.add_0_r; split; [done|]];
    pose proof (chain_bytes_bound _ _ Hok); unfold PKTBUF_BLK_SIZE in *; lia.
  { unfold PKTBUF_BLK_SIZE in *. lia. }
  destruct (free_list (block_list s)) as [|i fr] eqn:Hfl.
  - exists (s <| block_list := MBlock chain |>), []. split.
    + cbn [pktblock_alloc_loop]. replace (size =? 0) with false by lia.
      mstep by (by apply pktblock_alloc_none). mstep by (apply pktblock_free_list_ret).
      by rewrite Hfl.
    + right. cbn in Hcnt. split_and!; try done; [by rewrite app_nil_r in Hperm|].
      unfold PKTBUF_BLK_SIZE in *. lia.
  - destruct (block_buffer s !! i) as [k|] eqn:Hk.
    2: { apply not_elem_of_dom in Hk. destruct Hk. rewrite Hdom. apply Hfd.
         rewrite <- Hperm. set_solver. }
    rewrite (alloc_loop_step _ _ _ _ _ i fr k) by (done || lia).
    destruct (round_size_spec PKTBUF_BLK_SIZE size) as (Hc & Hcs & Hlast); [done|lia|].
    set (c := round_size PKTBUF_BLK_SIZE size) in *.
    destruct (IH (size - c) (with_block s i fr k c (if front then PKTBUF_BLK_SIZE - c else 0))
                (if front then i :: chain else chain ++ [i]) (n + c))
      as (s' & chain' & Hr & Hpost).
    + apply taken_step; try done; [lia|destruct front; lia].
    + intros Hpos. rewrite Hlast, Hn by lia. destruct front; rewrite ?length_app; cbn; unfold PKTBUF_BLK_SIZE in *; lia.
    + lia.
    + unfold round_size in c. subst c. destruct (Z.ltb_spec PKTBUF_BLK_SIZE size);
        unfold PKTBUF_BLK_SIZE in *; lia.
    + exists s', chain'. rewrite Hr. replace (n + c + (size - c)) with (n + size) in Hpost by lia. done.
Qed.

Lemma alloc_list_pool size front s :
  pool_ok s -> 0 < size ->
  exists s' chain, pktblock_alloc_list size front s = Ret chain s' /\
    ((chain <> [] /\ alloc_inv s s' chain size /\
      size <= PKTBUF_BLK_SIZE * len (free_list (block_list s))) \/
     (chain = [] /\ taken s s' [] /\
      PKTBUF_BLK_SIZE * len (free_list (block_list s)) < size)).
Proof.
  intros Hwf Hs. unfold pktblock_alloc_list. replace (size <=? 0) with false by lia.
  destruct (alloc_loop_spec (Z.to_nat (size / PKTBUF_BLK_SIZE + 1)) size front s s [] 0)
    as (s' & chain & Hr & Hpost).
  - done.
  - destruct Hwf as (_ & _ & Hblk).
    split_and!; [by split_and!|constructor|done].
  - unfold PKTBUF_BLK_SIZE. cbn. lia.
  - lia.
  - unfold PKTBUF_BLK_SIZE. zdm.
  - exists s', chain. split; [done|]. rewrite Z.add_0_l in Hpost.
    destruct Hpost as [[Hinv Hle]|(-> & Ht & Hlt)]; [left|right; done].
    split; [|done]. intros ->. destruct Hinv as (_ & _ & Hlen). cbn in Hlen. lia.
Qed.

Lemma alloc_list_spec size front s :
  pkt_wf s -> 0 < size ->
  exists s' chain, pktblock_alloc_list size front s = Ret chain s' /\
    ((chain <> [] /\ alloc_inv s s' chain size /\
      size <= PKTBUF_BLK_SIZE * len (free_list (block_list s))) \/
     (chain = [] /\ taken s s' [] /\
      PKTBUF_BLK_SIZE * len (free_list (block_list s)) < size)).
Proof. intros Hwf. apply alloc_list_pool. by apply wf_pool. Qed.

(** Giving all blocks back changes the order of the free list only. *)
Lemma taken_nil s s' :
  pkt_wf s -> taken s s' [] ->
  pkt_wf s' /\ views_kept [] s s' /\ (forall b p, live s' b p <-> live s b p) /\
  (forall b p, live s b p -> agree (blk_list p) (block_buffer s) (block_buffer s')).
Proof.
  intros (Hfb & Hfp & Hfbd & Hfpd & Hblk & Hbuf & Hfree & Hdisj & Hall)
    (Hb & Hl & Hperm & Hdom & Hblk' & Hfr). cbn in Hperm.
  assert (Hlive : forall b p, live s' b p <-> live s b p).
  { intros b p. unfold live. by rewrite Hb, Hl. }
  assert (Hag : forall b p, live s b p -> agree (blk_list p) (block_buffer s) (block_buffer s')).
  { intros b p Hp i Hi. apply Hfr. pose proof (Hfree b p Hp). set_solver. }
  split_and!; [split_and!| |done..].
  - by rewrite Hperm.
  - by rewrite Hl.
  - intros i. rewrite Hperm, Hdom. apply Hfbd.
  - intros b. rewrite Hl, Hb. apply Hfpd.
  - done.
  - intros b p Hp%Hlive. eapply buf_ok_agree; eauto.
  - intros b p Hp%Hlive i Hi. rewrite Hperm. by apply (Hfree b p).
  - intros b b' p p' Hp%Hlive Hp'%Hlive. eauto.
  - intros i. rewrite Hdom. intros [Hi|(b & p & Hp & Hi)]%Hall; [left; by rewrite Hperm|].
    right. exists b, p. by rewrite Hlive.
  - intros b p _. split; [by rewrite Hlive|apply Hag].
Qed.

(** ** Linking blocks into a packet *)

Lemma insert_blk_last_ret b chain s p :
  chain_ok (block_buffer s) chain -> pktbuf_buffer s !! b = Some p ->
  insert_blk_last b chain s =
    Ret () (s <| pktbuf_buffer := <[b := p <| blk_list := blk_list p ++ chain |>
      <| total_size := total_size p + len (chain_bytes (block_buffer s) chain) |>]>
      (pktbuf_buffer s) |>).
Proof.
  intros Hch. revert s p Hch. induction chain as [|i chain IH]; intros s p Hch Hp; cbn.
  { rewrite app_nil_r, Z.add_0_r. unfold mret, M_ret. f_equal.
    rewrite insert_id; [by destruct s|]. rewrite Hp. by destruct p. }
  apply Forall_cons in Hch as [(k & Hk & Hu) Hch].
  pstep. pstep. erewrite IH; [|done|apply lookup_insert_eq].
  f_equal. unfold upd_field. cbn [block_buffer block_list pktbuf_buffer pktbuf_list].
  rewrite insert_insert_eq. do 2 f_equal. cbn. rewrite <- app_assoc. cbn. f_equal.
  rewrite (bytes_of_some _ _ _ Hk), length_app. pose proof (len_blk_bytes k Hu). lia.
Qed.

Lemma insert_blk_front_ret b chain pre old s p :
  chain_ok (block_buffer s) chain -> pktbuf_buffer s !! b = Some p ->
  blk_list p = pre ++ old -> NoDup (pre ++ chain ++ old) ->
  insert_blk_front b (last pre) chain s =
    Ret () (s <| pktbuf_buffer := <[b := p <| blk_list := pre ++ chain ++ old |>
      <| total_size := total_size p + len (chain_bytes (block_buffer s) chain) |>]>
      (pktbuf_buffer s) |>).
Proof.
  revert pre s p. induction chain as [|i chain IH]; intros pre s p Hch Hp Hl Hnd; cbn.
  { rewrite Z.add_0_r, <- Hl. unfold mret, M_ret. f_equal.
    rewrite insert_id; [by destruct s|]. rewrite Hp. by destruct p. }
  apply Forall_cons in Hch as [(k & Hk & Hu) Hch].
  assert (Hnd' : NoDup (pre ++ old)).
  { eapply sublist_NoDup; [exact Hnd|]. apply sublist_app; [done|]. by apply sublist_inserts_l. }
  pstep. pstep. rewrite <- (last_snoc i pre).
  erewrite (IH (pre ++ [i])); [|done|apply lookup_insert_eq| |].
  - f_equal. unfold upd_field. cbn [block_buffer block_list pktbuf_buffer pktbuf_list].
    rewrite insert_insert_eq. do 2 f_equal. cbn. rewrite <- app_assoc. cbn. f_equal.
    rewrite (bytes_of_some _ _ _ Hk), length_app. pose proof (len_blk_bytes k Hu). lia.
  - unfold upd_field; cbn [blk_list]. rewrite <- app_assoc. cbn.
    rewrite Hl. rewrite <- (insert_before pre old i) by done. by destruct (last pre).
  - by rewrite <- app_assoc.
Qed.

(** ** Resetting the access position *)

Definition reset (m : blk_map) (p : pktbuf_t) : pktbuf_t :=
  p <| pos := 0 |> <| curr_blk := (locate m (blk_list p) 0).1 |>
    <| blk_offset := (locate m (blk_list p) 0).2 |>.

Lemma pktbuf_reset_acc_ret s b p :
  pktbuf_buffer s !! b = Some p -> chain_ok (block_buffer s) (blk_list p) ->
  pktbuf_reset_acc b s =
    Ret () (s <| pktbuf_buffer := <[b := reset (block_buffer s) p]> (pktbuf_buffer s) |>).
Proof.
  intros Hp Hch. unfold pktbuf_reset_acc, reset. pstep. unfold pktbuf_first_blk.
  destruct (blk_list p) as [|i l] eqn:Hl; cbn [head].
  - pstep. erewrite store_buf_ret by done. cbn. by rewrite Hl.
  - apply Forall_cons in Hch as [(k & Hk & Hu) Hch]. pose proof Hu as (_ & d & Hd & ? & ? & ?).
    mstep by (mstep by (by apply load_blk_ret); reflexivity).
    erewrite store_buf_ret by done. unfold locate. rewrite (seek_to_in _ _ _ k) by (done || lia).
    rewrite Hl, Hk. cbn [mbind option_bind fst snd head]. rewrite Hd. cbn. by rewrite Z.add_0_r.
Qed.

(** [pre_upd s s1 b q]: [s1] is as [upd] says, except that the access position
    of [b] is not yet valid. *)
Definition pre_upd (s s1 : pkt_state) (b : nat) (q : pktbuf_t) : Prop :=
  exists p, live s b p /\
  pktbuf_buffer s1 = <[b := q]> (pktbuf_buffer s) /\
  pktbuf_list s1 = pktbuf_list s /\
  blk_list q ++ free_list (block_list s1) ≡ₚ blk_list p ++ free_list (block_list s) /\
  dom (block_buffer s1) = dom (block_buffer s) /\
  (forall i k, block_buffer s1 !! i = Some k -> blk_ok k) /\
  (forall i, i ∉ blk_list p ++ free_list (block_list s) ->
     block_buffer s1 !! i = block_buffer s !! i) /\
  1 <= ref q /\ chain_ok (block_buffer s1) (blk_list q) /\
  total_size q = len (chain_bytes (block_buffer s1) (blk_list q)).

Lemma perm_nodup s b p (l fr : list nat) :
  pkt_wf s -> live s b p -> l ++ fr ≡ₚ blk_list p ++ free_list (block_list s) -> NoDup (l ++ fr).
Proof.
  intros (Hfb & _ & _ & _ & _ & Hbuf & Hfree & _) Hp ->.
  destruct (Hbuf b p Hp) as (_ & _ & Hnd & _). pose proof (Hfree b p Hp).
  apply NoDup_app. set_solver.
Qed.

Lemma pre_upd_reset s s1 b q :
  pkt_wf s -> pre_upd s s1 b q ->
  exists s', pktbuf_reset_acc b s1 = Ret () s' /\
    upd s s' b (reset (block_buffer s1) q) /\ block_buffer s' = block_buffer s1.
Proof.
  intros Hwf (p & Hp & Hb & Hl & Hperm & Hdom & Hblk & Hfr & Hr & Hch & Ht).
  eexists. split; [apply pktbuf_reset_acc_ret; [|done]|split; [|done]].
  { rewrite Hb. apply lookup_insert_eq. }
  pose proof (perm_nodup s b p _ _ Hwf Hp Hperm) as (Hnd & _)%NoDup_app.
  exists p. unfold upd_field; cbn [pktbuf_buffer pktbuf_list block_buffer block_list].
  split_and!; try done.
  - by rewrite Hb, insert_insert_eq.
  - unfold reset, upd_field. split_and!; try done; cbn -[locate]; [lia|].
    by destruct (locate _ _ _).
Qed.

(** ** Adding a header *)

Lemma blk_extend k d n :
  blk_used k -> blk_data k = Some d -> 0 <= n <= d ->
  let k' := k <| blk_size := blk_size k + n |> <| blk_data := Some (d - n) |> in
  blk_used k' /\ exists hdr, len hdr = n /\ blk_bytes k' = hdr ++ blk_bytes k.
Proof.
  intros Hu Hd Hn k'. pose proof Hu as (Hb & d' & Hd' & ? & ? & ?). simplify_eq.
  split.
  - split; [done|]. exists (d - n). cbn. split_and!; done || lia.
  - exists (take (Z.to_nat n) (drop (Z.to_nat (d - n)) (payload k))). split.
    + destruct Hb as [Hb _]. rewrite length_take, length_drop. lia.
    + unfold blk_bytes. cbn [k' upd_field blk_data blk_size payload]. rewrite Hd.
      rewrite Z.add_comm, Z2Nat.inj_add, <- take_take_drop, drop_drop by lia.
      do 3 f_equal. lia.
Qed.

(** The blocks [m'] of a chain whose first block [i] was replaced by [k']. *)
Lemma chain_replace_first m i l k' :
  i ∉ l -> chain_ok m l -> blk_used k' ->
  chain_ok (<[i := k']> m) (i :: l) /\
  chain_bytes (<[i := k']> m) (i :: l) = blk_bytes k' ++ chain_bytes m l.
Proof.
  intros Hi Hok Hu. assert (agree l m (<[i := k']> m)).
  { intros j Hj. apply lookup_insert_ne. set_solver. }
  split.
  - constructor; [exists k'; by rewrite lookup_insert_eq|by eapply agree_chain_ok].
  - cbn. erewrite bytes_of_some by apply lookup_insert_eq. f_equal. by apply agree_chain_bytes.
Qed.

(** A packet after an operation, and the other packets. *)
Definition post (s : pkt_state) (b : nat) (s' : pkt_state) (bs : bytes) (n r : Z) : Prop :=
  pkt_wf s' /\ has_view s' b (View bs n r) /\ views_kept [b] s s'.

(** The packet [b] has its first bytes in the block [i], from the offset [d]
    of its payload on, [n] of them at least. *)
Definition front (s : pkt_state) (b i : nat) (d n : Z) : Prop :=
  exists p l k, live s b p /\ blk_list p = i :: l /\ block_buffer s !! i = Some k /\
    blk_data k = Some d /\ n <= blk_size k.

(** The first block of the packet record [q], in the state [s1]. *)
Definition leads (s1 : pkt_state) (q : pktbuf_t) (s' : pkt_state) (b : nat) : Prop :=
  forall i l k d, blk_list q = i :: l -> block_buffer s1 !! i = Some k -> blk_data k = Some d ->
    front s' b i d (blk_size k).

Lemma post_reset_front s s1 b q :
  pkt_wf s -> pre_upd s s1 b q ->
  exists s', pktbuf_reset_acc b s1 = Ret () s' /\
    post s b s' (chain_bytes (block_buffer s1) (blk_list q)) 0 (ref q) /\ leads s1 q s' b.
Proof.
  intros Hwf Hpre. destruct (pre_upd_reset s s1 b q Hwf Hpre) as (s' & Hr & Hu & Hbb).
  exists s'. split; [done|]. split; [split_and!|].
  - by eapply upd_wf.
  - pose proof (upd_view _ _ _ _ Hu) as Hv. by rewrite Hbb in Hv.
  - by eapply upd_views.
  - intros i l k d Hl Hk Hd. exists (reset (block_buffer s1) q), l, k.
    rewrite Hbb. split_and!; [by eapply upd_self|done..].
Qed.

Lemma post_reset s s1 b q :
  pkt_wf s -> pre_upd s s1 b q ->
  exists s', (pktbuf_reset_acc b;; mret NET_ERR_OK) s1 = Ret NET_ERR_OK s' /\
    post s b s' (chain_bytes (block_buffer s1) (blk_list q)) 0 (ref q) /\ leads s1 q s' b.
Proof.
  intros Hwf Hpre. destruct (post_reset_front s s1 b q Hwf Hpre) as (s' & Hr & Hpost).
  exists s'. split; [by mstep by exact Hr|done].
Qed.

(** The common case of [pre_upd]: the blocks of [chain] were taken, blocks of
    [b] were changed, and the packet record became [q]. *)
Lemma mk_pre_upd s s1 s2 b p chain q :
  pkt_wf s -> live s b p -> taken s s1 chain ->
  pktbuf_buffer s2 = <[b := q]> (pktbuf_buffer s1) -> pktbuf_list s2 = pktbuf_list s1 ->
  block_list s2 = block_list s1 ->
  dom (block_buffer s2) = dom (block_buffer s1) ->
  (forall i, i ∉ blk_list p -> block_buffer s2 !! i = block_buffer s1 !! i) ->
  blk_list q ≡ₚ blk_list p ++ chain -> 1 <= ref q ->
  chain_ok (block_buffer s2) (blk_list q) ->
  total_size q = len (chain_bytes (block_buffer s2) (blk_list q)) ->
  pre_upd s s2 b q.
Proof.
  intros Hwf Hp (Hb & Hl & Hperm & Hdom & Hblk & Hfr) Hb2 Hl2 Hbl2 Hdom2 Hag Hq Hr Hch Ht.
  exists p. split_and!; try done.
  - by rewrite Hb2, Hb.
  - by rewrite Hl2.
  - rewrite Hq, Hbl2, <- Hperm. by rewrite <- app_assoc.
  - by rewrite Hdom2.
  - intros i k Hk. destruct (decide (i ∈ blk_list p)) as [Hi|Hi]; [|rewrite Hag in Hk; eauto].
    unfold chain_ok in Hch. rewrite Forall_forall in Hch.
    destruct (Hch i) as (k' & Hk' & [Hok _]); [rewrite Hq; set_solver|congruence].
  - intros i Hi. rewrite Hag by set_solver. apply Hfr. set_solver.
Qed.

(** Linking a chain in front of a packet and resetting its position. *)
Lemma insert_front_reset s s1 s2 b p q chain :
  pkt_wf s -> live s b p -> taken s s1 chain -> chain_ok (block_buffer s1) chain ->
  s2 = s1 <| block_buffer := block_buffer s2 |>
          <| pktbuf_buffer := <[b := q]> (pktbuf_buffer s) |> ->
  dom (block_buffer s2) = dom (block_buffer s1) ->
  (forall i, i ∉ blk_list p -> block_buffer s2 !! i = block_buffer s1 !! i) ->
  blk_list q = blk_list p -> 1 <= ref q ->
  chain_ok (block_buffer s2) (blk_list p) ->
  total_size q = len (chain_bytes (block_buffer s2) (blk_list p)) ->
  exists s',
    (pktbuf_insert_blk_list b chain false;; pktbuf_reset_acc b;; mret NET_ERR_OK) s2
      = Ret NET_ERR_OK s' /\
    post s b s' (chain_bytes (block_buffer s1) chain ++ chain_bytes (block_buffer s2) (blk_list p))
      0 (ref q) /\
    (forall i l k d, chain = i :: l -> block_buffer s1 !! i = Some k -> blk_data k = Some d ->
       front s' b i d (blk_size k)).
Proof.
  intros Hwf Hp Htk Hch Hs2 Hdom Hag Hlq Hr Hch2 Ht.
  pose proof Hwf as (Hfb & _ & _ & _ & _ & Hbuf & Hfree & _).
  pose proof Htk as (Hb & Hl & Hperm & _).
  assert (Hdis : forall i, i ∈ chain -> i ∉ blk_list p).
  { intros i Hi Hi'. apply (Hfree b p Hp i Hi'). rewrite <- Hperm. set_solver. }
  assert (Hnd : NoDup (chain ++ blk_list p)).
  { rewrite <- Hperm in Hfb. apply NoDup_app in Hfb as (Hndc & _ & _).
    destruct (Hbuf b p Hp) as (_ & _ & Hndp & _). apply NoDup_app. set_solver. }
  assert (Hagc : agree chain (block_buffer s1) (block_buffer s2)).
  { intros i Hi. apply Hag. by apply Hdis. }
  assert (Hpb : pktbuf_buffer s2 !! b = Some q) by (rewrite Hs2; apply lookup_insert_eq).
  unfold pktbuf_insert_blk_list.
  mstep by (apply (insert_blk_front_ret b chain [] (blk_list p));
    [by eapply agree_chain_ok|done|done|done]).
  edestruct post_reset as (s' & Hr' & Hpost & Hlead); [exact Hwf| |exists s'; split; [exact Hr'|]].
  - eapply (mk_pre_upd s s1 _ b p chain _ Hwf Hp Htk).
    + unfold upd_field; cbn [pktbuf_buffer]. rewrite Hs2. unfold upd_field; cbn [pktbuf_buffer].
      by rewrite insert_insert_eq, Hb.
    + rewrite Hs2. done.
    + rewrite Hs2. done.
    + done.
    + done.
    + cbn. by rewrite Permutation_app_comm.
    + done.
    + change (chain_ok (block_buffer s2) (chain ++ blk_list p)).
      apply chain_ok_app. split; [by eapply agree_chain_ok|done].
    + cbn. rewrite chain_bytes_app, length_app. lia.
  - cbn in Hpost. rewrite chain_bytes_app, (agree_chain_bytes _ _ _ Hagc) in Hpost.
    split; [done|]. intros i l k d Hc Hk Hd. eapply Hlead; [|cbn; rewrite Hagc; [exact Hk|]|exact Hd].
    + cbn. by rewrite Hc.
    + rewrite Hc. by left.
Qed.

Lemma taken_agree s s1 chain b p :
  pkt_wf s -> live s b p -> taken s s1 chain ->
  agree (blk_list p) (block_buffer s) (block_buffer s1).
Proof.
  intros (_ & _ & _ & _ & _ & _ & Hfree & _) Hp (_ & _ & _ & _ & _ & Hfr) i Hi.
  apply Hfr. intros Hf. by apply (Hfree b p Hp i).
Qed.

Definition free_bytes (s : pkt_state) : Z :=
  PKTBUF_BLK_SIZE * len (free_list (block_list s)).

(** What [pktbuf_add_header] does, by its result [e]. *)
Definition add_header_post (s : pkt_state) (b : nat) (bs : bytes) (n r size : Z) (cont : bool)
    (e : Z) (s' : pkt_state) : Prop :=
  (e = NET_ERR_OK /\ (exists hdr, len hdr = size /\ post s b s' (hdr ++ bs) 0 r) /\
   (cont = true -> size <= PKTBUF_BLK_SIZE -> exists i d, front s' b i d size)) \/
  (e = NET_ERR_MEM /\ free_bytes s < size /\ post s b s' bs n r) \/
  (e = NET_ERR_SIZE /\ cont = true /\ PKTBUF_BLK_SIZE < size /\ s' = s).

Lemma taken_post s s' b bs n r :
  pkt_wf s -> taken s s' [] -> has_view s b (View bs n r) -> post s b s' bs n r.
Proof.
  intros Hwf Htk Hv. destruct (taken_nil s s' Hwf Htk) as (Hwf' & Hk & _).
  split_and!; [done| |].
  - by apply (views_kept_view _ _ _ _ _ Hk); [set_solver|].
  - intros b' v _. apply Hk. set_solver.
Qed.

(** Up to a block, one block is enough. *)
Lemma alloc_list_single size fr s s' chain :
  pkt_wf s -> 0 < size <= PKTBUF_BLK_SIZE -> pktblock_alloc_list size fr s = Ret chain s' ->
  (length chain <= 1)%nat.
Proof.
  intros Hwf Hs. unfold pktblock_alloc_list. rewrite (proj2 (Z.leb_gt _ _)) by lia.
  replace (Z.to_nat (size / PKTBUF_BLK_SIZE + 1)) with (S (Z.to_nat (size / PKTBUF_BLK_SIZE)))
    by (unfold PKTBUF_BLK_SIZE in *; zdm).
  destruct (free_list (block_list s)) as [|i fl] eqn:Hf.
  - cbn [pktblock_alloc_loop]. rewrite (proj2 (Z.eqb_neq _ _)) by lia.
    mstep by (by apply pktblock_alloc_none). intros [= <- _]. cbn. lia.
  - pose proof Hwf as (_ & _ & Hfd & _). destruct (block_buffer s !! i) as [k|] eqn:Hk.
    2: { apply not_elem_of_dom in Hk. destruct Hk. apply Hfd. rewrite Hf. by left. }
    rewrite (alloc_loop_step _ _ _ _ _ i fl k) by (done || lia).
    assert (Hc : round_size PKTBUF_BLK_SIZE size = size)
      by (unfold round_size; by rewrite (proj2 (Z.ltb_ge _ _)) by lia).
    rewrite Hc, Z.sub_diag. destruct (Z.to_nat _), fr; cbn [pktblock_alloc_loop Z.eqb]; intros [= <- _]; cbn; lia.
Qed.

(** Allocating [size] bytes and linking them in front of the packet. *)
Lemma add_blocks_front s b p size cont :
  pkt_wf s -> live s b p -> 0 < size ->
  exists s' e,
    (chain ← pktblock_alloc_list size true;
     match chain with
     | [] => mret NET_ERR_MEM
     | _ => pktbuf_insert_blk_list b chain false;; pktbuf_reset_acc b;; mret NET_ERR_OK
     end) s = Ret e s' /\
    add_header_post s b (chain_bytes (block_buffer s) (blk_list p)) (pos p) (ref p) size cont e s'.
Proof.
  intros Hwf Hp Hs. pose proof Hwf as (_ & _ & _ & _ & _ & Hbuf & _).
  pose proof (Hbuf b p Hp) as (Hr & Hch & Hnd & Ht & _).
  destruct (alloc_list_spec size true s Hwf Hs) as (s1 & chain & Hal & Hcase).
  destruct Hcase as [(Hne & (Htk & Hchn & Hlen) & Hle)|(-> & Htk & Hlt)].
  - pose proof Htk as (Hb1 & _). pose proof (taken_agree s s1 chain b p Hwf Hp Htk) as Hag.
    destruct (insert_front_reset s s1 s1 b p p chain) as (s' & Hr' & Hpost & Hfront); try done.
    { destruct s1; unfold upd_field; cbn in *. f_equal. subst. symmetry. apply insert_id.
      by destruct Hp. }
    { by eapply agree_chain_ok. }
    { by rewrite (agree_chain_bytes _ _ _ Hag). }
    exists s', NET_ERR_OK. split.
    { mstep by exact Hal. by destruct chain. }
    left. split; [done|]. rewrite (agree_chain_bytes _ _ _ Hag) in Hpost. split; [by eauto|].
    intros _ Hle1. assert (length chain <= 1)%nat as Hone by (by eapply alloc_list_single).
    destruct chain as [|i [|]]; [done| |cbn in Hone; lia].
    apply Forall_cons in Hchn as [(k & Hk & Hu) _]. cbn in Hlen. rewrite app_nil_r in Hlen.
    rewrite (bytes_of_some _ _ _ Hk), (len_blk_bytes k Hu) in Hlen. pose proof Hu as (_ & d & Hd & _).
    exists i, d. rewrite <- Hlen. by eapply Hfront.
  - exists s1, NET_ERR_MEM. split; [by mstep by exact Hal|]. right. left.
    split_and!; [done|done|]. apply taken_post; [done..|]. by exists p.
Qed.

(** The part of [pktbuf_add_header] that uses the room in front of the first
    block and allocates the rest. *)
Lemma add_header_split s b p i l k d size :
  pkt_wf s -> live s b p -> blk_list p = i :: l -> block_buffer s !! i = Some k ->
  blk_data k = Some d -> d < size ->
  exists s' e,
    (chain ← pktblock_alloc_list (size - d) true;
     match chain with
     | [] => mret NET_ERR_MEM
     | _ =>
         store_blk i (fun k => k <| blk_size := blk_size k + d |> <| blk_data := Some 0 |>);;
         store_buf b (fun p => p <| total_size := total_size p + d |>);;
         pktbuf_insert_blk_list b chain false;; pktbuf_reset_acc b;; mret NET_ERR_OK
     end) s = Ret e s' /\
    add_header_post s b (chain_bytes (block_buffer s) (blk_list p)) (pos p) (ref p) size false e s'.
Proof.
  intros Hwf Hp Hl Hk Hd Hs. pose proof Hwf as (_ & _ & _ & _ & _ & Hbuf & _).
  pose proof (Hbuf b p Hp) as (Hr & Hch & Hnd & Ht & _). rewrite Hl in Hch, Hnd.
  apply NoDup_cons in Hnd as [Hi _]. apply Forall_cons in Hch as [(k0 & Hk0 & Hu) Hch]. simplify_eq.
  destruct (blk_extend k d d Hu Hd) as (Hu' & hdr & Hhdr & Hbk).
  { destruct Hu as (_ & d' & ? & ? & _). simplify_eq. lia. }
  rewrite Z.sub_diag in Hu', Hbk. set (k' := k <| blk_size := _ |> <| blk_data := _ |>) in *.
  destruct (alloc_list_spec (size - d) true s Hwf) as (s1 & chain & Hal & Hcase); [lia|].
  destruct Hcase as [(Hne & (Htk & Hchn & Hlen) & Hle)|(-> & Htk & Hlt)].
  2: { exists s1, NET_ERR_MEM. split; [by mstep by exact Hal|]. right. left.
       split_and!; [done| |apply taken_post; [done..|by exists p]]. unfold free_bytes.
       destruct Hu as (_ & d' & ? & ? & _). simplify_eq. lia. }
  pose proof Htk as (Hb1 & _). pose proof (taken_agree s s1 chain b p Hwf Hp Htk) as Hag.
  rewrite Hl in Hag. assert (Hk1 : block_buffer s1 !! i = Some k) by (rewrite Hag; set_solver).
  destruct (chain_replace_first (block_buffer s1) i l k') as [Hch2 Hby2]; [done| |done|].
  { eapply agree_chain_ok; [|exact Hch]. intros j Hj. apply Hag. set_solver. }
  assert (Hby : chain_bytes (<[i := k']> (block_buffer s1)) (i :: l) =
                hdr ++ chain_bytes (block_buffer s) (i :: l)).
  { rewrite Hby2, Hbk. cbn [chain_bytes]. rewrite (bytes_of_some _ _ _ Hk), <- app_assoc. do 2 f_equal.
    apply agree_chain_bytes. intros j Hj. apply Hag. set_solver. }
  destruct (insert_front_reset s s1
    (s1 <| block_buffer := <[i := k']> (block_buffer s1) |>
        <| pktbuf_buffer := <[b := p <| total_size := total_size p + d |>]> (pktbuf_buffer s) |>)
    b p (p <| total_size := total_size p + d |>) chain) as (s' & Hr' & Hpost & _); try done.
  { cbn. apply dom_insert_lookup_L. eauto. }
  { intros j Hj. cbn. apply lookup_insert_ne. rewrite Hl in Hj. set_solver. }
  { by rewrite Hl. }
  { rewrite Hl in Ht |- *. cbn [upd_field total_size block_buffer]. rewrite Hby, length_app. lia. }
  exists s', NET_ERR_OK. split.
  { mstep by exact Hal. destruct chain as [|c0 chain]; [done|].
    mstep by (by apply store_blk_ret). rewrite <- Hb1 in Hr'.
    mstep by (apply store_buf_ret; cbn; rewrite Hb1; by destruct Hp). exact Hr'. }
  left. split; [done|]. split; [|done]. exists (chain_bytes (block_buffer s1) chain ++ hdr).
  split; [rewrite length_app; lia|]. rewrite Hl in Hpost |- *.
  cbn [upd_field block_buffer ref] in Hpost. rewrite Hby in Hpost. by rewrite <- app_assoc.
Qed.

Lemma taken_refl s : pkt_wf s -> taken s s [].
Proof. intros (_ & _ & _ & _ & Hblk & _). by split_and!. Qed.

(** The header fits in front of the first block. *)
Lemma add_header_in_place s b p i l k d size :
  pkt_wf s -> live s b p -> blk_list p = i :: l -> block_buffer s !! i = Some k ->
  blk_data k = Some d -> 0 < size <= d ->
  exists s',
    (store_blk i (fun k => k <| blk_size := blk_size k + size |>
                             <| blk_data := Some (d - size) |>);;
     store_buf b (fun p => p <| total_size := total_size p + size |>);;
     pktbuf_reset_acc b;; mret NET_ERR_OK) s = Ret NET_ERR_OK s' /\
    (exists hdr, len hdr = size /\
      post s b s' (hdr ++ chain_bytes (block_buffer s) (blk_list p)) 0 (ref p)) /\
    front s' b i (d - size) size.
Proof.
  intros Hwf Hp Hl Hk Hd Hs. pose proof Hwf as (_ & _ & _ & _ & _ & Hbuf & _).
  pose proof (Hbuf b p Hp) as (Hr & Hch & Hnd & Ht & _). rewrite Hl in Hch, Hnd.
  apply NoDup_cons in Hnd as [Hi _]. apply Forall_cons in Hch as [(k0 & Hk0 & Hu) Hch]. simplify_eq.
  destruct (blk_extend k d size Hu Hd) as (Hu' & hdr & Hhdr & Hbk); [lia|].
  set (k' := k <| blk_size := _ |> <| blk_data := _ |>) in *.
  destruct (chain_replace_first (block_buffer s) i l k') as [Hch2 Hby2]; [done..|].
  assert (Hby : chain_bytes (<[i := k']> (block_buffer s)) (i :: l) =
                hdr ++ chain_bytes (block_buffer s) (i :: l)).
  { rewrite Hby2, Hbk. cbn [chain_bytes]. by rewrite (bytes_of_some _ _ _ Hk), <- app_assoc. }
  mstep by (by apply store_blk_ret). fold k'.
  mstep by (apply store_buf_ret; by destruct Hp).
  match goal with |- context [(pktbuf_reset_acc b ≫= _) ?s2] =>
    destruct (post_reset s s2 b (p <| total_size := total_size p + size |>))
      as (s' & Hr' & Hpost & Hlead); [done| |]
  end.
  - apply (mk_pre_upd s s _ b p [] _ Hwf Hp (taken_refl s Hwf)); try done.
    + cbn. apply dom_insert_lookup_L. eauto.
    + intros j Hj. cbn. apply lookup_insert_ne. rewrite Hl in Hj. set_solver.
    + cbn. by rewrite app_nil_r.
    + cbn. by rewrite Hl.
    + cbn [upd_field total_size block_buffer blk_list]. rewrite Hl in Ht |- *.
      rewrite Hby, length_app. lia.
  - exists s'. split; [done|]. split.
    + exists hdr. split; [done|].
      cbn [upd_field block_buffer blk_list ref] in Hpost. rewrite Hl in Hpost |- *. by rewrite Hby in Hpost.
    + destruct (Hlead i l k' (d - size)) as (p' & l' & k2 & ? & ? & ? & ? & Hge); [done|apply lookup_insert_eq|done|].
      exists p', l', k2. split_and!; try done. pose proof Hu as (_ & ? & _ & _ & ? & _).
      cbn in Hge. lia.
Qed.

(** Adding a header to a packet.  [pktbuf_add_header] puts exactly [size]
    new bytes in front of the packet's bytes, in place or in new blocks, and
    resets the access position; when the pool has fewer than [size] free bytes
    it may fail with [NET_ERR_MEM] and then gives every block back, and a
    contiguous header larger than a block is refused with [NET_ERR_SIZE].
    Whatever happens, no block is lost or shared (the pool invariant holds) and
    no other packet changes. *)
Lemma pktbuf_add_header_ok s b bs n r size cont :
  pkt_wf s -> has_view s b (View bs n r) -> 0 < size ->
  exists e s', pktbuf_add_header (Some b) size cont s = Ret e s' /\
    add_header_post s b bs n r size cont e s'.
Proof.
  intros Hwf (p & Hp & [= -> -> ->]) Hs.
  pose proof Hwf as (_ & _ & _ & _ & _ & Hbuf & _).
  pose proof (Hbuf b p Hp) as (Hr & Hch & _). pose proof Hp as [Hpb _].
  unfold pktbuf_add_header. replace (size <? 0) with false by lia.
  replace (size =? 0) with false by lia. pstep.
  rewrite (proj2 (negb_true_iff _)) by lia. mstep. unfold pktbuf_first_blk.
  destruct (blk_list p) as [|i l] eqn:Hl; cbn [head].
  { rewrite <- Hl. destruct (add_blocks_front s b p size cont) as (s' & e & ? & ?); eauto. }
  apply Forall_cons in Hch as [(k & Hk & Hu) _]. pose proof Hu as (_ & d & Hd & ? & _).
  pstep. pstep. rewrite <- Hl in *. destruct (Z.leb_spec size d); [|destruct cont].
  - destruct (add_header_in_place s b p i l k d size) as (s' & Hr' & Hpost & Hfr); try done.
    exists NET_ERR_OK, s'. split; [done|]. left. split_and!; [done|done|by eauto].
  - destruct (Z.ltb_spec PKTBUF_BLK_SIZE size).
    + exists NET_ERR_SIZE, s. split; [done|]. by right; right.
    + destruct (add_blocks_front s b p size true) as (s' & e & ? & ?); eauto.
  - destruct (add_header_split s b p i l k d size) as (s' & e & ? & ?); eauto.
Qed.

(** ** Removing a header *)

Lemma pre_upd_refl s b p : pkt_wf s -> live s b p -> pre_upd s s b p.
Proof.
  intros Hwf Hp. pose proof Hwf as (_ & _ & _ & _ & Hblk & Hbuf & _).
  destruct (Hbuf b p Hp) as (Hr & Hch & _ & Ht & _).
  exists p. split_and!; try done. symmetry. apply insert_id. by destruct Hp.
Qed.

Lemma pre_upd_buf s s1 b q : pre_upd s s1 b q -> pktbuf_buffer s1 !! b = Some q.
Proof. intros (p & _ & Hb & _). rewrite Hb. apply lookup_insert_eq. Qed.

Lemma pre_upd_nodup s s1 b q : pkt_wf s -> pre_upd s s1 b q -> NoDup (blk_list q).
Proof.
  intros Hwf (p & Hp & _ & _ & Hperm & _).
  by pose proof (perm_nodup s b p _ _ Hwf Hp Hperm) as (Hnd & _)%NoDup_app.
Qed.

(** Replacing a block of the chain, and the packet record. *)
Lemma pre_upd_block s s1 b q i k' q' :
  pre_upd s s1 b q -> i ∈ blk_list q -> blk_ok k' ->
  blk_list q' = blk_list q -> 1 <= ref q' ->
  chain_ok (<[i := k']> (block_buffer s1)) (blk_list q) ->
  total_size q' = len (chain_bytes (<[i := k']> (block_buffer s1)) (blk_list q)) ->
  pre_upd s (s1 <| block_buffer := <[i := k']> (block_buffer s1) |>
                <| pktbuf_buffer := <[b := q']> (pktbuf_buffer s1) |>) b q'.
Proof.
  intros (p & Hp & Hb & Hl & Hperm & Hdom & Hblk & Hfr & Hr & Hch & Ht) Hi Hk' Hlq Hr' Hch' Ht'.
  exists p. rewrite Hlq. split_and!; try done.
  - cbn. by rewrite Hb, insert_insert_eq.
  - cbn. rewrite <- Hdom. apply dom_insert_lookup_L. unfold chain_ok in Hch.
    rewrite Forall_forall in Hch. destruct (Hch i Hi) as (k & Hk & _). eauto.
  - intros j kj Hj. cbn in Hj. apply lookup_insert_Some in Hj as [[<- <-]|[_ Hj]]; eauto.
  - intros j Hj. cbn. rewrite lookup_insert_ne; [by apply Hfr|]. intros ->.
    rewrite <- Hperm in Hj. set_solver.
Qed.

(** Unlinking a block of the chain and freeing it. *)
Lemma pre_upd_unlink s s1 b q l1 i l2 q' :
  pre_upd s s1 b q -> blk_list q = l1 ++ i :: l2 -> blk_list q' = l1 ++ l2 -> ref q' = ref q ->
  total_size q' = len (chain_bytes (block_buffer s1) (l1 ++ l2)) ->
  pre_upd s (s1 <| block_list := MBlock (free_list (block_list s1) ++ [i]) |>
                <| pktbuf_buffer := <[b := q']> (pktbuf_buffer s1) |>) b q'.
Proof.
  intros (p & Hp & Hb & Hl & Hperm & Hdom & Hblk & Hfr & Hr & Hch & Ht) Hlq Hlq' Hrq Ht'.
  exists p. rewrite Hlq'. split_and!; try done.
  - cbn. by rewrite Hb, insert_insert_eq.
  - cbn. rewrite <- Hperm, Hlq. rewrite <- !app_assoc. cbn. f_equiv.
    by rewrite app_assoc, Permutation_app_comm.
  - by rewrite Hrq.
  - cbn. rewrite Hlq, chain_ok_app in Hch. destruct Hch as [? Hch].
    apply Forall_cons in Hch as [_ Hch]. by apply chain_ok_app.
Qed.

Lemma blk_shrink_front k d n :
  blk_used k -> blk_data k = Some d -> 0 <= n < blk_size k ->
  let k' := k <| blk_size := blk_size k - n |> <| blk_data := Some (d + n) |> in
  blk_used k' /\ blk_bytes k' = drop (Z.to_nat n) (blk_bytes k).
Proof.
  intros Hu Hd Hn k'. pose proof Hu as (Hb & d' & Hd' & ? & ? & ?). simplify_eq. split.
  - split; [done|]. exists (d + n). cbn. split_and!; done || lia.
  - unfold blk_bytes. cbn [k' upd_field blk_data blk_size payload]. rewrite Hd.
    rewrite skipn_firstn_comm, drop_drop, Z2Nat.inj_sub, (Z2Nat.inj_add d) by lia. done.
Qed.

Lemma remove_header_loop_spec s b chain s1 q size :
  pkt_wf s -> pre_upd s s1 b q -> blk_list q = chain ->
  0 <= size <= total_size q ->
  exists s2 q2, remove_header_loop b size chain s1 = Ret () s2 /\ pre_upd s s2 b q2 /\
    ref q2 = ref q /\
    chain_bytes (block_buffer s2) (blk_list q2) =
      drop (Z.to_nat size) (chain_bytes (block_buffer s1) chain).
Proof.
  intros Hwf. revert s1 q size. induction chain as [|i chain IH]; intros s1 q size Hpre Hl Hs.
  all: pose proof Hpre as (_ & _ & _ & _ & _ & _ & _ & _ & Hr & Hch & Ht); rewrite Hl in Ht, Hch.
  { cbn in Ht. assert (size = 0) as -> by lia. exists s1, q. split_and!; try done. by rewrite Hl. }
  destruct (decide (size = 0)) as [->|Hne].
  { exists s1, q. split_and!; try done. by rewrite Hl. }
  cbn [remove_header_loop]. replace (size =? 0) with false by lia.
  apply Forall_cons in Hch as [(k & Hk & Hu) Hch]. pose proof Hu as (_ & d & Hd & ? & ? & ?).
  cbn [chain_bytes] in Ht |- *. rewrite (bytes_of_some _ _ _ Hk) in Ht |- *.
  rewrite length_app in Ht. pose proof (len_blk_bytes k Hu) as Hlen.
  pose proof (pre_upd_buf _ _ _ _ Hpre) as Hpb.
  pose proof (pre_upd_nodup _ _ _ _ Hwf Hpre) as Hnd. rewrite Hl in Hnd.
  apply NoDup_cons in Hnd as [Hi _].
  pstep. destruct (Z.ltb_spec size (blk_size k)).
  - destruct (blk_shrink_front k d size Hu Hd) as [Hu' Hbk]; [lia|].
    set (k' := k <| blk_size := _ |> <| blk_data := _ |>) in *.
    destruct (chain_replace_first (block_buffer s1) i chain k') as [Hch2 Hby2]; [done..|].
    mstep by (by apply store_blk_ret). rewrite Hd. cbn [fmap option_fmap option_map]. fold k'.
    erewrite store_buf_ret by done. eexists _, _. split; [done|].
    split; [apply (pre_upd_block s s1 b q i k'); try done|split; [done|]].
    + rewrite Hl. set_solver.
    + by destruct Hu'.
    + by rewrite Hl.
    + cbn [upd_field total_size]. rewrite Hl, Hby2, Hbk, length_app, length_drop. lia.
    + cbn [upd_field block_buffer blk_list]. rewrite Hl, Hby2, Hbk. rewrite drop_app_le; [done|lia].
  - mstep by (by apply store_buf_ret). mstep by (apply pktblock_free_ret).
    mstep by (apply store_buf_ret; apply lookup_insert_eq).
    match goal with |- context [remove_header_loop b ?sz chain ?s2] =>
      destruct (IH s2 (q <| blk_list := tail (blk_list q) |>
                         <| total_size := total_size q - blk_size k |>) sz) as (s3 & q3 & Hr3 & Hpre3 & Href3 & Hby3) end.
    + unfold upd_field; cbn [block_buffer block_list pktbuf_buffer pktbuf_list free_list].
      rewrite insert_insert_eq.
      eapply (pre_upd_unlink s s1 b q [] i chain); [done|done|by rewrite Hl|done|].
      change (total_size q - blk_size k = len (chain_bytes (block_buffer s1) chain)). lia.
    + cbn. by rewrite Hl.
    + change (0 <= size - blk_size k <= total_size q - blk_size k). lia.
    + exists s3, q3. split; [exact Hr3|]. split; [done|]. split; [done|].
      rewrite Hby3. rewrite drop_app_ge by lia. cbn [upd_field block_buffer]. f_equal. lia.
Qed.

(** Removing a header.  [pktbuf_remove_header] drops exactly the first
    [size] bytes of the packet and resets the access position, freeing the
    blocks that become empty; a request for more bytes than the packet has is
    refused with [NET_ERR_SIZE] and changes nothing.  The pool invariant holds
    afterwards and no other packet changes. *)
Lemma pktbuf_remove_header_ok s b bs n r size :
  pkt_wf s -> has_view s b (View bs n r) -> 0 < size ->
  exists e s', pktbuf_remove_header (Some b) size s = Ret e s' /\
    (if len bs <? size then e = NET_ERR_SIZE /\ s' = s
     else e = NET_ERR_OK /\ post s b s' (drop (Z.to_nat size) bs) 0 r).
Proof.
  intros Hwf (p & Hp & [= -> -> ->]) Hs.
  pose proof Hwf as (_ & _ & _ & _ & _ & Hbuf & _).
  pose proof (Hbuf b p Hp) as (Hr & Hch & _ & Ht & _). pose proof Hp as [Hpb _].
  unfold pktbuf_remove_header. replace (size <? 0) with false by lia.
  replace (size =? 0) with false by lia. pstep. rewrite <- Ht.
  destruct (Z.ltb_spec (total_size p) size); [by eexists _, _|].
  rewrite (proj2 (negb_true_iff _)) by lia. mstep.
  destruct (remove_header_loop_spec s b (blk_list p) s p size)
    as (s2 & q2 & Hr2 & Hpre2 & Href2 & Hby2); [done|by apply pre_upd_refl|done|lia|].
  mstep by exact Hr2. destruct (post_reset s s2 b q2 Hwf Hpre2) as (s' & Hr' & Hpost & _).
  exists NET_ERR_OK, s'. split; [done|]. split; [done|]. by rewrite Hby2, Href2 in Hpost.
Qed.

(** ** Resizing *)

Lemma chain_replace_mid m l1 i l2 k' :
  i ∉ l1 ++ l2 -> chain_ok m (l1 ++ l2) -> blk_used k' ->
  chain_ok (<[i := k']> m) (l1 ++ i :: l2) /\
  chain_bytes (<[i := k']> m) (l1 ++ i :: l2) =
    chain_bytes m l1 ++ blk_bytes k' ++ chain_bytes m l2.
Proof.
  intros Hi [Hok1 Hok2]%chain_ok_app Hu.
  destruct (chain_replace_first m i l2 k') as [Hc Hb]; [set_solver|done..|].
  assert (agree l1 m (<[i := k']> m)).
  { intros j Hj. apply lookup_insert_ne. set_solver. }
  split.
  - apply chain_ok_app. split; [by eapply agree_chain_ok|done].
  - rewrite chain_bytes_app, Hb. f_equal. by apply agree_chain_bytes.
Qed.

Lemma blk_resize k n :
  blk_used k -> 1 <= n ->
  (forall d, blk_data k = Some d -> d + n <= PKTBUF_BLK_SIZE) ->
  let k' := k <| blk_size := n |> in
  blk_used k' /\ len (blk_bytes k') = n /\
  (n <= blk_size k -> blk_bytes k' = take (Z.to_nat n) (blk_bytes k)) /\
  (blk_size k <= n -> exists ext, blk_bytes k' = blk_bytes k ++ ext).
Proof.
  intros Hu Hn Hd k'. pose proof Hu as (Hb & d & Hd' & ? & ? & ?). specialize (Hd d Hd').
  assert (Hu' : blk_used k') by (split; [done|]; exists d; cbn; split_and!; done || lia).
  split_and!; [done|by rewrite len_blk_bytes|..]; unfold blk_bytes;
    cbn [k' upd_field blk_data blk_size payload]; rewrite Hd'; intros Hle.
  - rewrite take_take. f_equal. lia.
  - exists (take (Z.to_nat (n - blk_size k)) (drop (Z.to_nat (blk_size k)) (drop (Z.to_nat d) (payload k)))).
    rewrite take_take_drop. f_equal. lia.
Qed.

(** The chain is cut after [l1]; the blocks after it are freed. *)
Definition cut (s : pkt_state) (b : nat) (q : pktbuf_t) (chain : list nat) : pkt_state :=
  s <| block_list := MBlock (free_list (block_list s) ++ chain) |>
    <| pktbuf_buffer := <[b := q]> (pktbuf_buffer s) |>.

Lemma drop_blocks_ret b l1 chain s p total :
  pktbuf_buffer s !! b = Some p -> blk_list p = l1 ++ chain -> NoDup (l1 ++ chain) ->
  chain_ok (block_buffer s) chain ->
  drop_blocks b total chain s =
    Ret (total + len (chain_bytes (block_buffer s) chain))
      (cut s b (p <| blk_list := l1 |>) chain).
Proof.
  revert s p total. induction chain as [|i chain IH]; intros s p total Hp Hl Hnd Hch;
    cbn [drop_blocks].
  { unfold mret, M_ret, cut, upd_field. cbn. rewrite Z.add_0_r, app_nil_r. f_equal.
    rewrite app_nil_r in Hl. rewrite insert_id; [by destruct s as [? [] ? ?]|].
    rewrite Hp, <- Hl. by destruct p. }
  apply Forall_cons in Hch as [(k & Hk & Hu) Hch].
  mstep by (by apply store_buf_ret). mstep by (apply pktblock_free_ret).
  mstep by (by apply load_blk_ret).
  assert (Hi : i ∉ l1) by (apply NoDup_app in Hnd; set_solver).
  erewrite IH; [|apply lookup_insert_eq| | |done].
  - f_equal.
    + cbn [upd_field block_buffer chain_bytes]. rewrite (bytes_of_some _ _ _ Hk), length_app.
      pose proof (len_blk_bytes k Hu). lia.
    + unfold cut, upd_field; cbn [block_buffer block_list pktbuf_buffer pktbuf_list free_list].
      by rewrite insert_insert_eq, <- app_assoc.
  - unfold upd_field; cbn [blk_list]. by rewrite Hl, remove_node_mid.
  - eapply sublist_NoDup; [exact Hnd|]. apply sublist_app; [done|]. by constructor.
Qed.

Lemma free_blocks_loop_ret b chain s p :
  pktbuf_buffer s !! b = Some p -> blk_list p = chain ->
  free_blocks_loop b chain s = Ret () (cut s b (p <| blk_list := [] |>) chain).
Proof.
  revert s p. induction chain as [|i chain IH]; intros s p Hp Hl; cbn [free_blocks_loop].
  { unfold mret, M_ret, cut, upd_field. cbn. rewrite app_nil_r. f_equal.
    rewrite insert_id; [by destruct s as [? [] ? ?]|]. rewrite Hp, <- Hl. by destruct p. }
  mstep by (by apply store_buf_ret). mstep by (apply pktblock_free_ret).
  erewrite IH; [|apply lookup_insert_eq|unfold upd_field; cbn [blk_list]; by rewrite Hl].
  unfold cut, upd_field; cbn [block_buffer block_list pktbuf_buffer pktbuf_list free_list].
  by rewrite insert_insert_eq, <- app_assoc.
Qed.

Lemma pre_upd_cut s b p l1 chain q :
  pkt_wf s -> live s b p -> blk_list p = l1 ++ chain -> blk_list q = l1 -> ref q = ref p ->
  total_size q = len (chain_bytes (block_buffer s) l1) ->
  pre_upd s (cut s b q chain) b q.
Proof.
  intros Hwf Hp Hl Hlq Hr Ht. pose proof Hwf as (_ & _ & _ & _ & Hblk & Hbuf & _).
  destruct (Hbuf b p Hp) as (Hr' & Hch & _). rewrite Hl, chain_ok_app in Hch. destruct Hch.
  exists p. rewrite Hlq. split_and!; try done.
  - cbn. rewrite Hl, <- app_assoc. f_equiv. apply Permutation_app_comm.
  - by rewrite Hr.
Qed.

Lemma upd_pre s s1 b q : upd s s1 b q -> pre_upd s s1 b q.
Proof.
  intros (p & Hp & Hb & Hl & Hperm & Hdom & Hblk & Hfr & Hr & Hch & _ & Ht & _).
  exists p. by split_and!.
Qed.

(** The end of [pktbuf_resize] after a branch that did not return. *)
Lemma resize_end s s1 b q (m : M pkt_state (option Z)) s0 :
  pkt_wf s -> m s0 = Ret None s1 -> pre_upd s s1 b q ->
  exists s', (err ← m; match err with
                       | Some e => mret e
                       | None => pktbuf_reset_acc b;; mret NET_ERR_OK
                       end) s0 = Ret NET_ERR_OK s' /\
    post s b s' (chain_bytes (block_buffer s1) (blk_list q)) 0 (ref q).
Proof.
  intros Hwf Hm Hpre. destruct (post_reset s s1 b q Hwf Hpre) as (s' & Hr & Hpost & _).
  exists s'. split; [by mstep by exact Hm|done].
Qed.

Lemma find_tail_spec m l s total to_size :
  block_buffer s = m -> chain_ok m l -> total < to_size <= total + len (chain_bytes m l) ->
  exists l1 i l2 k, find_tail total to_size l s = Ret (Some (i, l2)) s /\
    l = l1 ++ i :: l2 /\ m !! i = Some k /\
    total + len (chain_bytes m l1) < to_size <= total + len (chain_bytes m l1) + blk_size k.
Proof.
  intros Hm Hch. revert total. induction Hch as [|i l (k & Hk & Hu) Hl IH]; intros total Ht.
  { cbn in Ht. lia. }
  cbn [find_tail chain_bytes] in *. rewrite (bytes_of_some _ _ _ Hk), length_app in Ht.
  pose proof (len_blk_bytes k Hu). mstep by (apply load_blk_ret; by rewrite Hm).
  destruct (Z.leb_spec to_size (total + blk_size k)).
  - exists [], i, l, k. split_and!; try done; cbn; lia.
  - destruct (IH (total + blk_size k)) as (l1 & j & l2 & kj & Hf & -> & Hkj & ? & ?); [lia|].
    exists (i :: l1), j, l2, kj. split_and!; try done.
    all: cbn [chain_bytes]; rewrite (bytes_of_some _ _ _ Hk), length_app; lia.
Qed.

Lemma resize_shrink_spec s b p to_size :
  pkt_wf s -> live s b p -> 0 < to_size < total_size p ->
  exists s1 q, resize_shrink b p to_size s = Ret None s1 /\ pre_upd s s1 b q /\ ref q = ref p /\
    chain_bytes (block_buffer s1) (blk_list q) =
      take (Z.to_nat to_size) (chain_bytes (block_buffer s) (blk_list p)).
Proof.
  intros Hwf Hp Hs. pose proof Hwf as (_ & _ & _ & _ & _ & Hbuf & _).
  pose proof (Hbuf b p Hp) as (Hr & Hch & Hnd & Ht & _). pose proof Hp as [Hpb _].
  destruct (find_tail_spec (block_buffer s) (blk_list p) s 0 to_size)
    as (l1 & i & l2 & k & Hf & Hl & Hk & Hlo & Hhi); [done|done|lia|].
  rewrite Hl, cons_middle, app_assoc in Hch, Hnd. apply chain_ok_app in Hch as [Hch1 Hch2].
  assert (Hu : blk_used k).
  { apply chain_ok_app in Hch1 as [_ Hch1]. apply Forall_cons in Hch1 as [(k' & ? & ?) _]. by simplify_eq. }
  pose proof (len_blk_bytes k Hu) as Hlk.
  set (m := block_buffer s) in *.
  assert (Hbl : chain_bytes m (l1 ++ [i]) = chain_bytes m l1 ++ blk_bytes k).
  { rewrite chain_bytes_app. cbn. by rewrite (bytes_of_some _ _ _ Hk), app_nil_r. }
  assert (Hall : chain_bytes m (blk_list p) = (chain_bytes m l1 ++ blk_bytes k) ++ chain_bytes m l2).
  { by rewrite Hl, cons_middle, app_assoc, chain_bytes_app, Hbl. }
  rewrite Hall in Ht. rewrite !length_app in Ht.
  set (sz := to_size - len (chain_bytes m l1)).
  destruct (blk_resize k sz Hu) as (Hu' & Hlen' & Hcut & _); [lia| |].
  { intros d Hd. destruct Hu as (_ & d' & ? & ? & ? & ?). simplify_eq. lia. }
  destruct (chain_replace_mid m l1 i [] (k <| blk_size := sz |>)) as [Hch3 Hby3].
  { rewrite app_nil_r. apply NoDup_app in Hnd as (Hnd & _). apply NoDup_app in Hnd. set_solver. }
  { rewrite app_nil_r. by apply chain_ok_app in Hch1 as []. }
  { done. }
  set (q1 := p <| blk_list := l1 ++ [i] |> <| total_size := len (chain_bytes m (l1 ++ [i])) |>).
  set (q2 := p <| blk_list := l1 ++ [i] |> <| total_size := to_size |>).
  cbn in Hby3. rewrite app_nil_r in Hby3.
  assert (Hpre : pre_upd s ((cut s b q1 l2) <| block_buffer := <[i := k <| blk_size := sz |>]> m |>
      <| pktbuf_buffer := <[b := q2]> (pktbuf_buffer (cut s b q1 l2)) |>) b q2).
  { apply (pre_upd_block s (cut s b q1 l2) b q1 i); try done.
    - apply (pre_upd_cut s b p (l1 ++ [i])); try done. by rewrite Hl, cons_middle, app_assoc.
    - cbn. set_solver.
    - by destruct Hu'.
    - cbn [upd_field q1 q2 blk_list total_size cut block_buffer]. fold m. rewrite Hby3, length_app. lia. }
  eexists _, q2. split; [|split; [exact Hpre|split; [done|]]].
  - unfold resize_shrink. mstep by exact Hf. mstep by (eapply (drop_blocks_ret b (l1 ++ [i]));
      [done|by rewrite Hl, cons_middle, app_assoc|done|done]).
    mstep by (by apply store_blk_ret). mstep by (apply store_buf_ret; apply lookup_insert_eq).
    unfold mret, M_ret. f_equal. unfold cut, q2, upd_field;
      cbn [block_buffer block_list pktbuf_buffer pktbuf_list total_size blk_list ref pos curr_blk blk_offset].
    rewrite !insert_insert_eq. do 3 f_equal. fold m. lia.
  - cbn [upd_field block_buffer q2 blk_list]. rewrite Hby3, Hall, Hcut by lia.
    rewrite <- app_assoc, take_app_ge by lia. f_equal.
    replace (Z.to_nat to_size - length (chain_bytes m l1))%nat with (Z.to_nat sz) by lia.
    rewrite take_app_le by lia. done.
Qed.

(** Linking a chain behind a packet, some of whose blocks may have changed. *)
Lemma insert_last_pre s s1 s2 b p q chain :
  pkt_wf s -> live s b p -> taken s s1 chain -> chain_ok (block_buffer s1) chain ->
  s2 = s1 <| block_buffer := block_buffer s2 |>
          <| pktbuf_buffer := <[b := q]> (pktbuf_buffer s) |> ->
  dom (block_buffer s2) = dom (block_buffer s1) ->
  (forall i, i ∉ blk_list p -> block_buffer s2 !! i = block_buffer s1 !! i) ->
  blk_list q = blk_list p -> 1 <= ref q ->
  chain_ok (block_buffer s2) (blk_list p) ->
  total_size q = len (chain_bytes (block_buffer s2) (blk_list p)) ->
  exists s3 q3,
    pktbuf_insert_blk_list b chain true s2 = Ret () s3 /\ pre_upd s s3 b q3 /\ ref q3 = ref q /\
    chain_bytes (block_buffer s3) (blk_list q3) =
      chain_bytes (block_buffer s2) (blk_list p) ++ chain_bytes (block_buffer s1) chain.
Proof.
  intros Hwf Hp Htk Hch Hs2 Hdom Hag Hlq Hr Hch2 Ht.
  pose proof Hwf as (_ & _ & _ & _ & _ & _ & Hfree & _). pose proof Htk as (Hb & Hl & Hperm & _).
  assert (Hagc : agree chain (block_buffer s1) (block_buffer s2)).
  { intros i Hi. apply Hag. intros Hi'. apply (Hfree b p Hp i Hi'). rewrite <- Hperm. set_solver. }
  assert (Hpb : pktbuf_buffer s2 !! b = Some q) by (rewrite Hs2; apply lookup_insert_eq).
  set (q3 := q <| blk_list := blk_list q ++ chain |>
               <| total_size := total_size q + len (chain_bytes (block_buffer s2) chain) |>).
  exists (s2 <| pktbuf_buffer := <[b := q3]> (pktbuf_buffer s2) |>), q3.
  split; [apply insert_blk_last_ret; [by eapply agree_chain_ok|done]|].
  split; [|split; [done|]].
  - apply (mk_pre_upd s s1 _ b p chain _ Hwf Hp Htk).
    + unfold upd_field at 1; cbn [pktbuf_buffer]. rewrite Hs2 at 1.
      unfold upd_field at 1; cbn [pktbuf_buffer]. by rewrite insert_insert_eq, Hb.
    + rewrite Hs2. done.
    + rewrite Hs2. done.
    + done.
    + done.
    + cbn. by rewrite Hlq.
    + done.
    + cbn. rewrite Hlq. apply chain_ok_app. split; [done|by eapply agree_chain_ok].
    + cbn [q3 upd_field total_size blk_list block_buffer]. rewrite Hlq, chain_bytes_app, length_app. lia.
  - cbn [q3 upd_field blk_list block_buffer].
    by rewrite Hlq, chain_bytes_app, (agree_chain_bytes _ _ _ Hagc).
Qed.

Definition grow_post (s : pkt_state) (b : nat) (p : pktbuf_t) (inc : Z)
    (err : option Z) (s1 : pkt_state) : Prop :=
  (err = None /\ exists q ext, pre_upd s s1 b q /\ ref q = ref p /\ len ext = inc /\
     chain_bytes (block_buffer s1) (blk_list q) =
       chain_bytes (block_buffer s) (blk_list p) ++ ext) \/
  (err = Some NET_ERR_MEM /\ free_bytes s < inc /\ taken s s1 []).

(** Growing a packet that has no bytes. *)
Lemma grow_empty s b p size :
  pkt_wf s -> live s b p -> total_size p = 0 -> 0 < size ->
  exists s1 err,
    (chain ← pktblock_alloc_list size false;
     match chain with
     | [] => mret (Some NET_ERR_MEM)
     | _ => pktbuf_insert_blk_list b chain true;; pktbuf_reset_acc b;; mret None
     end) s = Ret err s1 /\ grow_post s b p size err s1.
Proof.
  intros Hwf Hp Ht Hs. pose proof Hwf as (_ & _ & _ & _ & _ & Hbuf & _).
  pose proof (Hbuf b p Hp) as (Hr & Hch & _ & Ht' & _).
  destruct (alloc_list_spec size false s Hwf Hs) as (s1 & chain & Hal & Hcase).
  destruct Hcase as [(Hne & (Htk & Hchn & Hlen) & Hle)|(-> & Htk & Hlt)].
  2: { exists s1, (Some NET_ERR_MEM). split; [by mstep by exact Hal|]. by right. }
  pose proof Htk as (Hb1 & _). pose proof (taken_agree s s1 chain b p Hwf Hp Htk) as Hag.
  destruct (insert_last_pre s s1 s1 b p p chain) as (s2 & q2 & Hr2 & Hpre & Href & Hby); try done.
  { destruct s1; unfold upd_field; cbn in *. f_equal. subst. symmetry. apply insert_id. by destruct Hp. }
  { by eapply agree_chain_ok. }
  { by rewrite (agree_chain_bytes _ _ _ Hag). }
  destruct (pre_upd_reset s s2 b q2 Hwf Hpre) as (s3 & Hr3 & Hu3 & Hbb3).
  exists s3, None. split.
  { mstep by exact Hal. destruct chain; [done|]. mstep by exact Hr2. by mstep by exact Hr3. }
  left. split; [done|]. eexists _, _. split; [by apply upd_pre|]. split; [done|]. split; [exact Hlen|].
  rewrite Hbb3. cbn [reset upd_field blk_list]. by rewrite Hby, (agree_chain_bytes _ _ _ Hag).
Qed.

Lemma last_split (l : list nat) i : last l = Some i -> exists l1, l = l1 ++ [i].
Proof. intros H. apply last_Some in H as [l1 ->]. eauto. Qed.

(** The last block of a packet grows by [n] bytes. *)
Lemma grow_tail m l1 i k n d :
  chain_ok m (l1 ++ [i]) -> NoDup (l1 ++ [i]) -> m !! i = Some k -> blk_data k = Some d ->
  0 <= n <= PKTBUF_BLK_SIZE - d - blk_size k ->
  let m' := <[i := k <| blk_size := blk_size k + n |>]> m in
  chain_ok m' (l1 ++ [i]) /\
  exists ext, len ext = n /\ chain_bytes m' (l1 ++ [i]) = chain_bytes m (l1 ++ [i]) ++ ext.
Proof.
  intros Hch Hnd Hk Hd Hn m'. apply chain_ok_app in Hch as [Hch1 Hch2].
  apply Forall_cons in Hch2 as [(k0 & Hk0 & Hu) _]. assert (k0 = k) as -> by congruence.
  assert (1 <= blk_size k) by (by destruct Hu as (_ & ? & _ & _ & ? & _)).
  destruct (blk_resize k (blk_size k + n) Hu) as (Hu' & Hlen' & _ & Hext); [lia| |].
  { intros d' ?. simplify_eq. lia. }
  destruct Hext as [ext Hext]; [lia|].
  destruct (chain_replace_mid m l1 i [] (k <| blk_size := blk_size k + n |>)) as [Hc Hb].
  { rewrite app_nil_r. apply NoDup_app in Hnd. set_solver. }
  { by rewrite app_nil_r. }
  { done. }
  split; [done|]. exists ext. split.
  - rewrite Hext, length_app in Hlen'. pose proof (len_blk_bytes k Hu). lia.
  - unfold m'. rewrite Hb, Hext, chain_bytes_app. cbn. rewrite (bytes_of_some _ _ _ Hk).
    by rewrite !app_nil_r, app_assoc.
Qed.

Lemma resize_grow_spec s b p to_size :
  pkt_wf s -> live s b p -> 0 < total_size p < to_size ->
  exists s1 err, resize_grow b p to_size s = Ret err s1 /\
    grow_post s b p (to_size - total_size p) err s1.
Proof.
  intros Hwf Hp Hs. pose proof Hwf as (_ & _ & _ & _ & _ & Hbuf & _).
  pose proof (Hbuf b p Hp) as (Hr & Hch & Hnd & Ht & _). pose proof Hp as [Hpb _].
  destruct (last (blk_list p)) as [i|] eqn:Hlast.
  2: { apply last_None in Hlast. rewrite Hlast in Ht. cbn in Ht. lia. }
  destruct (last_split _ _ Hlast) as [l1 Hl].
  set (inc := to_size - total_size p). assert (Hch' := Hch).
  rewrite Hl in Hch'. apply chain_ok_app in Hch' as [_ Hci].
  apply Forall_cons in Hci as [(k & Hk & Hu) _]. pose proof Hu as (_ & d & Hd & ? & ? & ?).
  unfold resize_grow, pktbuf_last_blk. mstep by (by apply deref_ret). fold inc.
  mstep by (unfold curr_blk_tail_free; mstep by (by apply load_blk_ret);
            mstep by (by apply deref_ret); reflexivity).
  set (rem := PKTBUF_BLK_SIZE - d - blk_size k). destruct (Z.leb_spec inc rem).
  - rewrite Hl in Hch, Hnd. destruct (grow_tail _ l1 i k inc d Hch Hnd Hk Hd) as (Hc & ext & He & Hb); [lia|].
    eexists _, None. split.
    { mstep by (by apply store_blk_ret). by mstep by (by apply store_buf_ret). }
    left. split; [done|]. exists (p <| total_size := total_size p + inc |>), ext.
    split; [|split; [done|split; [exact He|]]].
    + apply (mk_pre_upd s s _ b p [] _ Hwf Hp (taken_refl s Hwf)); try done.
      * cbn. apply dom_insert_lookup_L. eauto.
      * intros j Hj. cbn. apply lookup_insert_ne. rewrite Hl in Hj. set_solver.
      * cbn. by rewrite app_nil_r.
      * cbn. by rewrite Hl.
      * cbn [upd_field total_size blk_list block_buffer]. rewrite Hl in Ht |- *. rewrite Hb, length_app. lia.
    + cbn [upd_field blk_list block_buffer]. by rewrite Hl, Hb.
  - destruct (alloc_list_spec (inc - rem) false s Hwf) as (s1 & chain & Hal & Hcase); [lia|].
    destruct Hcase as [(Hne & (Htk & Hchn & Hlen) & Hle)|(-> & Htk & Hlt)].
    2: { exists s1, (Some NET_ERR_MEM). split; [by mstep by exact Hal|]. right.
         split_and!; [done| |done]. unfold free_bytes. lia. }
    pose proof Htk as (Hb1 & _). pose proof (taken_agree s s1 chain b p Hwf Hp Htk) as Hag.
    assert (Hk1 : block_buffer s1 !! i = Some k) by (rewrite Hag; [done|rewrite Hl; set_solver]).
    pose proof (agree_chain_ok _ _ _ Hag Hch) as Hch1. rewrite Hl in Hch1, Hnd.
    destruct (grow_tail _ l1 i k rem d Hch1 Hnd Hk1 Hd) as (Hc & ext & He & Hb); [lia|].
    rewrite <- Hl in Hc, Hb. rewrite (agree_chain_bytes _ _ _ Hag) in Hb.
    set (m' := <[i := _]> (block_buffer s1)) in *.
    set (q := p <| total_size := total_size p + rem |>).
    destruct (insert_last_pre s s1 (s1 <| block_buffer := m' |>
        <| pktbuf_buffer := <[b := q]> (pktbuf_buffer s) |>) b p q chain)
      as (s2 & q2 & Hr2 & Hpre & Href & Hby); try done.
    { cbn. apply dom_insert_lookup_L. eauto. }
    { intros j Hj. cbn. apply lookup_insert_ne. rewrite Hl in Hj. set_solver. }
    { cbn [upd_field total_size block_buffer q]. rewrite Hb, length_app. lia. }
    exists s2, None. split.
    { mstep by exact Hal. destruct chain; [done|]. mstep by (by apply store_blk_ret).
      mstep by (apply store_buf_ret; cbn; rewrite Hb1; exact Hpb). rewrite <- Hb1 in Hr2.
      by mstep by exact Hr2. }
    left. split; [done|]. exists q2, (ext ++ chain_bytes (block_buffer s1) chain).
    split; [done|]. split; [done|]. split; [rewrite length_app; lia|].
    rewrite Hby. cbn [upd_field block_buffer]. by rewrite Hb, app_assoc.
Qed.
