(* ===== verification/PktbufOps.v ===== *)
(** * Packet buffers: the operations of pktbuf.h

    The contracts of the remaining operations: resizing, allocating, freeing,
    joining, making the front contiguous, and the reads and writes at the
    access position. *)

From S2P Require Import Prelude Tools Nlist Mblock Pktbuf PktbufSpec PktbufChain.

(** ** Resizing *)

(** The branch that frees all blocks. *)
Lemma resize_zero s b p :
  pkt_wf s -> live s b p ->
  exists s1 q,
    (free_blocks_loop b (blk_list p);;
     store_buf b (fun p => p <| total_size := 0 |>);;
     pktbuf_reset_acc b;; mret None) s = Ret (@None Z) s1 /\
    pre_upd s s1 b q /\ ref q = ref p /\ chain_bytes (block_buffer s1) (blk_list q) = [].
Proof.
  intros Hwf Hp. pose proof Hp as [Hpb _].
  set (q := p <| blk_list := [] |> <| total_size := 0 |>).
  assert (Hpre : pre_upd s (cut s b q (blk_list p)) b q) by (by eapply (pre_upd_cut s b p [])).
  destruct (pre_upd_reset s _ b q Hwf Hpre) as (s1 & Hr1 & Hu1 & _).
  exists s1, (reset (block_buffer s) q). split; [|by split; [apply upd_pre|]].
  mstep by (by apply free_blocks_loop_ret).
  mstep by (apply store_buf_ret; apply lookup_insert_eq).
  unfold cut, upd_field in Hr1 |- *. cbn [block_buffer block_list pktbuf_buffer pktbuf_list] in Hr1 |- *.
  rewrite insert_insert_eq. by mstep by exact Hr1.
Qed.

(** The end of [pktbuf_resize] after a branch that may have failed. *)
Lemma grow_end s b p inc (m : M pkt_state (option Z)) s1 err :
  pkt_wf s -> live s b p -> m s = Ret err s1 -> grow_post s b p inc err s1 ->
  exists e s', (err ← m; match err with
                         | Some e => mret e
                         | None => pktbuf_reset_acc b;; mret NET_ERR_OK
                         end) s = Ret e s' /\
    ((e = NET_ERR_OK /\ exists ext, len ext = inc /\
        post s b s' (chain_bytes (block_buffer s) (blk_list p) ++ ext) 0 (ref p)) \/
     (e = NET_ERR_MEM /\ free_bytes s < inc /\
        post s b s' (chain_bytes (block_buffer s) (blk_list p)) (pos p) (ref p))).
Proof.
  intros Hwf Hp Hm [(-> & q & ext & Hpre & Href & He & Hby)|(-> & Hlt & Htk)].
  - destruct (resize_end s s1 b q m s Hwf Hm Hpre) as (s' & Hr & Hpost).
    exists NET_ERR_OK, s'. split; [done|]. left. split; [done|]. exists ext.
    split; [done|]. by rewrite Hby, Href in Hpost.
  - exists NET_ERR_MEM, s1. split; [by mstep by exact Hm|]. right. split_and!; [done|done|].
    apply taken_post; [done..|]. by exists p.
Qed.

(** Resizing a packet.  [pktbuf_resize] keeps the first [to_size] bytes of
    a packet that shrinks and all bytes of one that grows, extends it by
    exactly the missing bytes, and resets the access position; only a growing
    packet can fail, when the pool has too few free blocks, and then keeps its
    bytes.  The pool invariant holds afterwards and no other packet changes. *)
Lemma pktbuf_resize_ok s b bs n r to_size :
  pkt_wf s -> has_view s b (View bs n r) -> 0 <= to_size ->
  exists e s', pktbuf_resize (Some b) to_size s = Ret e s' /\
    (if to_size =? len bs then e = NET_ERR_OK /\ s' = s
     else if to_size <? len bs then
       e = NET_ERR_OK /\ post s b s' (take (Z.to_nat to_size) bs) 0 r
     else
       (e = NET_ERR_OK /\ exists ext, len ext = to_size - len bs /\ post s b s' (bs ++ ext) 0 r) \/
       (e = NET_ERR_MEM /\ free_bytes s < to_size - len bs /\ post s b s' bs n r)).
Proof.
  intros Hwf Hv Hs. pose proof Hv as (p & Hp & [= -> -> ->]).
  pose proof Hwf as (_ & _ & _ & _ & _ & Hbuf & _).
  pose proof (Hbuf b p Hp) as (Hr & _ & _ & Ht & _). pose proof Hp as [Hpb _].
  unfold pktbuf_resize. replace (to_size <? 0) with false by lia.
  mstep by (by apply load_buf_ret). rewrite (proj2 (negb_true_iff _)) by lia. mstep.
  rewrite <- Ht. destruct (Z.eqb_spec to_size (total_size p)); [by eexists _, _|].
  destruct (Z.eqb_spec to_size 0) as [->|Hnz];
    [|destruct (Z.eqb_spec (total_size p) 0); [|destruct (Z.ltb_spec (total_size p) to_size)]].
  - replace (0 <? total_size p) with true by lia.
    destruct (resize_zero s b p Hwf Hp) as (s1 & q & Hr1 & Hpre & Href & Hby).
    destruct (resize_end s s1 b q _ s Hwf Hr1 Hpre) as (s' & Hr' & Hpost).
    exists NET_ERR_OK, s'. split; [done|]. split; [done|]. by rewrite Hby, Href in Hpost.
  - replace (to_size <? total_size p) with false by lia.
    destruct (grow_empty s b p to_size) as (s1 & err & Hr1 & Hg); [done|done|lia|lia|].
    replace to_size with (to_size - total_size p) in Hg by lia. by eapply grow_end.
  - replace (to_size <? total_size p) with false by lia.
    destruct (resize_grow_spec s b p to_size) as (s1 & err & Hr1 & Hg); [done|done|lia|].
    by eapply grow_end.
  - replace (to_size <? total_size p) with true by lia.
    destruct (resize_shrink_spec s b p to_size) as (s1 & q & Hr1 & Hpre & Href & Hby); [done|done|lia|].
    destruct (resize_end s s1 b q _ s Hwf Hr1 Hpre) as (s' & Hr' & Hpost).
    exists NET_ERR_OK, s'. split; [done|]. split; [done|]. by rewrite Hby, Href in Hpost.
Qed.

(** ** Allocating and freeing a packet *)

(** Buffers without blocks may become live or free. *)
Lemma wf_relive s s' :
  pkt_wf s -> block_buffer s' = block_buffer s -> block_list s' = block_list s ->
  NoDup (free_list (pktbuf_list s')) ->
  (forall b, b ∈ free_list (pktbuf_list s') -> b ∈ dom (pktbuf_buffer s')) ->
  (forall b q, live s' b q -> live s b q \/ (blk_list q = [] /\ buf_ok (block_buffer s) q)) ->
  (forall b q, live s b q -> live s' b q \/ blk_list q = []) ->
  pkt_wf s'.
Proof.
  intros (Hfb & _ & Hfbd & _ & Hblk & Hbuf & Hfree & Hdisj & Hall) Hbb Hbl Hnd Hfd Hto Hfrom.
  unfold pkt_wf. rewrite Hbb, Hbl. split_and!; try done.
  - intros b q [Hq|[_ Hq]]%Hto; eauto.
  - intros b q [Hq|[Hq _]]%Hto; [eauto|rewrite Hq; set_solver].
  - intros b b' q q' [Hq|[Hq _]]%Hto [Hq'|[Hq' _]]%Hto Hne; [eauto|rewrite ?Hq, ?Hq'; set_solver..].
  - intros i [Hi|(b & q & Hq & Hi)]%Hall; [by left|]. right.
    destruct (Hfrom b q Hq) as [Hq'|Hq']; [eauto|]. rewrite Hq' in Hi. set_solver.
Qed.

Definition empty_buf : pktbuf_t := PktBuf 0 [] 1 0 None None.

Lemma empty_buf_ok m : buf_ok m empty_buf.
Proof. split_and!; cbn; done || lia || constructor. Qed.

(** The state in which the free buffer [b] is an empty packet. *)
Definition add_empty (s : pkt_state) (b : nat) (fr : list nat) : pkt_state :=
  s <| pktbuf_buffer := <[b := empty_buf]> (pktbuf_buffer s) |> <| pktbuf_list := MBlock fr |>.

Lemma add_empty_live s b fr b' q :
  pkt_wf s -> free_list (pktbuf_list s) = b :: fr ->
  live (add_empty s b fr) b' q <-> (b' = b /\ q = empty_buf) \/ (b' <> b /\ live s b' q).
Proof.
  intros (_ & Hnd & _) Hf. unfold live, add_empty, upd_field. cbn [pktbuf_buffer pktbuf_list free_list].
  rewrite Hf in Hnd |- *. apply NoDup_cons in Hnd as [Hb _]. destruct (decide (b' = b)) as [->|].
  - rewrite lookup_insert_eq. naive_solver.
  - rewrite lookup_insert_ne by done. rewrite not_elem_of_cons. naive_solver.
Qed.

Lemma add_empty_wf s b fr :
  pkt_wf s -> free_list (pktbuf_list s) = b :: fr ->
  pkt_wf (add_empty s b fr) /\ views_kept [b] s (add_empty s b fr).
Proof.
  intros Hwf Hf. pose proof (fun b' q => add_empty_live s b fr b' q Hwf Hf) as Hlive.
  assert (Hdead : forall q, ~ live s b q) by (intros q [_ Hq]; rewrite Hf in Hq; set_solver).
  split.
  - pose proof Hwf as (_ & Hnd & _ & Hfd & _). rewrite Hf in Hnd, Hfd.
    apply NoDup_cons in Hnd as [Hb Hnd]. apply (wf_relive s); try done.
    + intros x Hx. cbn. rewrite dom_insert. cbn in Hx. specialize (Hfd x). set_solver.
    + intros b' q [[-> ->]|[_ Hq]]%Hlive; [right|by left]. split; [done|apply empty_buf_ok].
    + intros b' q Hq. left. apply Hlive. right. split; [|done]. intros ->. by apply (Hdead q).
  - intros b' q Hb'. split; [|done]. rewrite Hlive. split; [right; set_solver|].
    intros [[-> _]|[_ ?]]; [set_solver|done].
Qed.

Lemma post_trans s1 s2 s3 b bs n r :
  views_kept [b] s1 s2 -> post s2 b s3 bs n r -> post s1 b s3 bs n r.
Proof. intros Hk (Hwf & Hv & Hk'). split_and!; [done..|by etransitivity]. Qed.

Lemma buf_alloc_none s :
  free_list (pktbuf_list s) = [] -> zoom pktbuf_list_lens mblock_alloc s = Ret None s.
Proof. destruct s as [? ? ? [l]]. cbn. by intros ->. Qed.

Lemma buf_alloc_some s b fr :
  free_list (pktbuf_list s) = b :: fr ->
  zoom pktbuf_list_lens mblock_alloc s = Ret (Some b) (s <| pktbuf_list := MBlock fr |>).
Proof. destruct s as [? ? ? [l]]. cbn. by intros ->. Qed.

Lemma buf_free_ret s b :
  zoom pktbuf_list_lens (mblock_free (Some b)) s =
    Ret () (s <| pktbuf_list := MBlock (free_list (pktbuf_list s) ++ [b]) |>).
Proof. by destruct s as [? ? ? []]. Qed.

(** The record of a buffer just taken from the pool. *)
Definition fresh (p : pktbuf_t) : pktbuf_t :=
  p <| ref := 1 |> <| total_size := 0 |> <| blk_list := [] |>.

Definition taken_buf (s : pkt_state) (b : nat) (fr : list nat) (p : pktbuf_t) : pkt_state :=
  s <| pktbuf_list := MBlock fr |> <| pktbuf_buffer := <[b := fresh p]> (pktbuf_buffer s) |>.

Lemma alloc_end s b fr s1 q :
  pkt_wf s -> free_list (pktbuf_list s) = b :: fr ->
  pre_upd (add_empty s b fr) s1 b q -> ref q = 1 ->
  exists s', (store_buf b (fun p => p <| ref := 1 |>);; pktbuf_reset_acc b;; mret (Some b)) s1
      = Ret (Some b) s' /\
    post s b s' (chain_bytes (block_buffer s1) (blk_list q)) 0 1 /\ leads s1 q s' b.
Proof.
  intros Hwf Hf Hpre Hr. destruct (add_empty_wf s b fr Hwf Hf) as [Hwf0 Hk0].
  pose proof (pre_upd_buf _ _ _ _ Hpre) as Hq.
  destruct (post_reset_front (add_empty s b fr) s1 b q Hwf0 Hpre) as (s' & Hr' & Hpost & Hlead).
  exists s'. split; [|split; [rewrite <- Hr; by eapply post_trans|done]].
  mstep by (by apply store_buf_ret).
  replace (s1 <| pktbuf_buffer := <[b := q <| ref := 1 |>]> (pktbuf_buffer s1) |>) with s1.
  - by mstep by exact Hr'.
  - destruct s1; unfold upd_field; cbn in *. f_equal. symmetry. apply insert_id.
    rewrite Hq. f_equal. destruct q; cbn in *. by subst.
Qed.

(** The allocator gave up: every buffer is as before. *)
Lemma alloc_failed s b fr p s2 :
  pkt_wf s -> free_list (pktbuf_list s) = b :: fr -> pktbuf_buffer s !! b = Some p ->
  taken (taken_buf s b fr p) s2 [] ->
  pkt_wf (s2 <| pktbuf_list := MBlock (free_list (pktbuf_list s2) ++ [b]) |>) /\
  views_kept [] s (s2 <| pktbuf_list := MBlock (free_list (pktbuf_list s2) ++ [b]) |>).
Proof.
  intros Hwf Hf Hp (Hb2 & Hl2 & Hperm & Hdom & Hblk & Hfr).
  set (s3 := s2 <| pktbuf_list := _ |>).
  set (s4 := s2 <| pktbuf_buffer := pktbuf_buffer s |> <| pktbuf_list := pktbuf_list s |>).
  assert (Htk : taken s s4 []) by (by split_and!).
  destruct (taken_nil s s4 Hwf Htk) as (Hwf4 & Hk4 & _).
  assert (Hlive : forall b' q, live s3 b' q <-> live s4 b' q).
  { intros b' q. unfold live, s3, s4, upd_field. cbn [pktbuf_buffer pktbuf_list free_list].
    rewrite Hb2, Hl2, Hf. change (free_list (pktbuf_list (taken_buf s b fr p))) with fr.
    change (pktbuf_buffer (taken_buf s b fr p)) with (<[b := fresh p]> (pktbuf_buffer s)).
    destruct (decide (b' = b)) as [->|]; [set_solver|]. rewrite lookup_insert_ne by done. set_solver. }
  split.
  - pose proof Hwf as (_ & Hnd & _ & Hfd & _). rewrite Hf in Hnd, Hfd. apply (wf_relive s4); try done.
    + cbn. rewrite Hl2. cbn. by rewrite Permutation_app_comm.
    + intros x Hx. cbn in Hx |- *. rewrite Hb2. rewrite Hl2 in Hx. cbn in Hx |- *.
      rewrite dom_insert. specialize (Hfd x). set_solver.
    + intros b' q Hq%Hlive. by left.
    + intros b' q Hq%Hlive. by left.
  - intros b' q Hb'. rewrite Hlive. apply (Hk4 b' q Hb').
Qed.

(** The allocator's blocks become the chain of the new packet. *)
Lemma alloc_linked s b fr p s2 chain :
  pkt_wf s -> free_list (pktbuf_list s) = b :: fr -> pktbuf_buffer s !! b = Some p ->
  taken (taken_buf s b fr p) s2 chain -> chain_ok (block_buffer s2) chain ->
  exists s',
    ((pktbuf_insert_blk_list b chain true;; mret true) ≫= fun ok : bool =>
       if ok then store_buf b (fun p => p <| ref := 1 |>);; pktbuf_reset_acc b;; mret (Some b)
       else mret None) s2 = Ret (Some b) s' /\
    post s b s' (chain_bytes (block_buffer s2) chain) 0 1 /\
    (forall i l k d, chain = i :: l -> block_buffer s2 !! i = Some k -> blk_data k = Some d ->
       front s' b i d (blk_size k)).
Proof.
  intros Hwf Hf Hp (Hb2 & Hl2 & Hperm & Hdom & Hblk & Hfr) Hchn.
  destruct (add_empty_wf s b fr Hwf Hf) as [Hwf0 _].
  assert (Hbuf2 : pktbuf_buffer s2 !! b = Some (fresh p)) by (rewrite Hb2; apply lookup_insert_eq).
  set (q := (fresh p) <| blk_list := [] ++ chain |>
              <| total_size := 0 + len (chain_bytes (block_buffer s2) chain) |>).
  set (s3 := s2 <| pktbuf_buffer := <[b := q]> (pktbuf_buffer s2) |>).
  assert (Hi : pktbuf_insert_blk_list b chain true s2 = Ret () s3) by (by apply (insert_blk_last_ret b chain s2 (fresh p))).
  set (s2' := s2 <| pktbuf_buffer := pktbuf_buffer (add_empty s b fr) |>).
  destruct (alloc_end s b fr s3 q) as (s' & Hr' & Hpost & Hlead); [done|done| |done|].
  - apply (mk_pre_upd _ s2' s3 b empty_buf chain); try done.
    + by apply (add_empty_live s b fr b); [| |left].
    + unfold s3, s2', add_empty, upd_field; cbn [pktbuf_buffer]. rewrite Hb2.
      unfold taken_buf, upd_field; cbn [pktbuf_buffer]. by rewrite !insert_insert_eq.
  - exists s'. split; [|split; [done|intros i l k dd Hc Hk Hd; by eapply (Hlead i l)]].
    rewrite <- Hr'. mstep by (by mstep by exact Hi). done.
Qed.

(** The first block of a chain allocated for appending is filled first. *)
Lemma alloc_loop_keep fuel size s s' i l c chain' :
  pktblock_alloc_loop fuel size false (i :: l) s = Ret (c :: chain') s' ->
  i ∉ free_list (block_list s) ->
  c = i /\ block_buffer s' !! i = block_buffer s !! i.
Proof.
  revert size s l. induction fuel as [|fuel IH]; intros size s l H Hi; cbn [pktblock_alloc_loop] in H.
  - destruct (size =? 0); [|done]. unfold mret, M_ret in H. by simplify_eq.
  - destruct (Z.eqb_spec size 0); [unfold mret, M_ret in H; by simplify_eq|].
    destruct (free_list (block_list s)) as [|x fr] eqn:Hf.
    + unfold mbind, M_bind in H. rewrite (pktblock_alloc_none s Hf) in H. cbn [rbind] in H.
      by rewrite pktblock_free_list_ret in H.
    + destruct (block_buffer s !! x) as [k|] eqn:Hk.
      * unfold mbind, M_bind in H. rewrite (pktblock_alloc_some s x fr k Hf Hk) in H. cbn [rbind] in H.
        erewrite store_blk_ret in H by apply lookup_insert_eq. cbn [rbind] in H.
        apply IH in H as [-> Hb]; [|set_solver]. split; [done|]. rewrite Hb. cbn.
        rewrite !lookup_insert_ne by set_solver. done.
      * unfold mbind, M_bind, pktblock_alloc, zoom, mblock_alloc in H. cbn in H.
        unfold mbind, M_bind in H. cbn in H. rewrite Hf in H. cbn in H.
        unfold store_blk, load_blk, mbind, M_bind in H. cbn in H. by rewrite Hk in H.
Qed.

Lemma alloc_list_head size s s' i l :
  pool_ok s -> 0 < size -> pktblock_alloc_list size false s = Ret (i :: l) s' ->
  exists k, block_buffer s' !! i = Some k /\ blk_size k = Z.min size PKTBUF_BLK_SIZE.
Proof.
  intros Hwf Hs H. unfold pktblock_alloc_list in H. rewrite (proj2 (Z.leb_gt _ _)) in H by lia.
  replace (Z.to_nat (size / PKTBUF_BLK_SIZE + 1)) with (S (Z.to_nat (size / PKTBUF_BLK_SIZE))) in H
    by (unfold PKTBUF_BLK_SIZE; zdm).
  pose proof Hwf as (Hnd & Hfd & _). destruct (free_list (block_list s)) as [|x fr] eqn:Hf.
  - cbn [pktblock_alloc_loop] in H. rewrite (proj2 (Z.eqb_neq _ _)) in H by lia.
    unfold mbind, M_bind in H. by rewrite (pktblock_alloc_none s Hf) in H.
  - destruct (block_buffer s !! x) as [k|] eqn:Hk.
    2: { apply not_elem_of_dom in Hk. destruct Hk. apply Hfd. by left. }
    rewrite (alloc_loop_step _ _ _ _ _ x fr k) in H by (done || lia).
    apply NoDup_cons in Hnd as [Hx _].
    apply alloc_loop_keep in H as [-> Hb]; [|done]. rewrite Hb. cbn. rewrite lookup_insert_eq.
    eexists. split; [done|]. cbn. unfold round_size. case_match; lia.
Qed.

(** Allocating a packet.  [pktbuf_alloc size] returns a buffer that was
    free, holding exactly [size] bytes, at position 0, with one reference; or
    null, when no buffer is free or the pool has fewer than [size] free bytes,
    and then all blocks it took are back in the pool.  The pool invariant holds
    in both cases and no existing packet changes. *)
Lemma pktbuf_alloc_ok s size :
  pkt_wf s -> 0 <= size ->
  exists o s', pktbuf_alloc size s = Ret o s' /\
    match o with
    | Some b => (forall p, ~ live s b p) /\ (exists bs, len bs = size /\ post s b s' bs 0 1) /\
        (0 < size -> exists i d, front s' b i d (Z.min size PKTBUF_BLK_SIZE))
    | None => (free_list (pktbuf_list s) = [] \/ free_bytes s < size) /\
              pkt_wf s' /\ views_kept [] s s'
    end.
Proof.
  intros Hwf Hs. unfold pktbuf_alloc. replace (size <? 0) with false by lia.
  destruct (free_list (pktbuf_list s)) as [|b fr] eqn:Hf.
  { exists None, s. split; [|by split; [left|]].
    by mstep by (by apply buf_alloc_none). }
  mstep by (by apply buf_alloc_some).
  assert (Hdead : forall p, ~ live s b p) by (intros q [_ Hq]; rewrite Hf in Hq; set_solver).
  destruct (add_empty_wf s b fr Hwf Hf) as [Hwf0 Hk0].
  pose proof Hwf as (_ & _ & _ & Hfd & _).
  assert (b ∈ dom (pktbuf_buffer s)) as [p Hp]%elem_of_dom by (apply Hfd; rewrite Hf; set_solver).
  mstep by (by apply store_buf_ret).
  fold (fresh p). fold (taken_buf s b fr p).
  set (s1 := taken_buf s b fr p).
  assert (Hbuf1 : pktbuf_buffer s1 !! b = Some (fresh p)) by apply lookup_insert_eq.
  destruct (Z.eqb_spec size 0) as [->|Hnz].
  { mstep. destruct (alloc_end s b fr s1 (fresh p)) as (s' & Hr' & Hpost & _); [done|done| |done|].
    - apply (mk_pre_upd _ (add_empty s b fr) s1 b empty_buf []); try done.
      + by apply (add_empty_live s b fr b); [| |left].
      + by apply taken_refl.
      + unfold s1, taken_buf, add_empty, upd_field; cbn [pktbuf_buffer]. by rewrite insert_insert_eq.
      + constructor.
    - exists (Some b), s'. split; [done|]. split_and!; [done|by exists []|done]. }
  destruct (alloc_list_pool size false s1) as (s2 & chain & Hal & Hcase);
    [by apply (wf_pool (add_empty s b fr))|lia|].
  destruct Hcase as [(Hne & (Htk & Hchn & Hlen) & Hle)|(-> & Htk & Hlt)].
  2: { destruct (alloc_failed s b fr p s2) as [Hwf2 Hk2]; [done..|].
       exists None. eexists. split; [|split; [by right|split; [exact Hwf2|exact Hk2]]].
       mstep by (mstep by exact Hal; by mstep by (apply buf_free_ret)). done. }
  destruct (alloc_linked s b fr p s2 chain) as (s' & Hr' & Hpost & Hlead); [done..|].
  exists (Some b), s'. split; [|split_and!; [done|by eexists|]].
  2: { intros _. destruct chain as [|i l]; [done|].
       destruct (alloc_list_head size s1 s2 i l) as (k & Hk & Hsz);
         [by apply (wf_pool (add_empty s b fr))|lia|done|].
       apply Forall_cons in Hchn as [(k' & Hk' & Hu) _]. simplify_eq.
       pose proof Hu as (_ & d & Hd & _). exists i, d. rewrite <- Hsz. by eapply Hlead. }
  change (s <| pktbuf_list := _ |> <| pktbuf_buffer := _ |>) with s1.
  rewrite <- Hr'. unfold mbind, M_bind. rewrite Hal. cbn [rbind]. by destruct chain.
Qed.

(** Changing the reference count only. *)
Lemma set_ref_upd s b p r :
  pkt_wf s -> live s b p -> 1 <= r ->
  upd s (s <| pktbuf_buffer := <[b := p <| ref := r |>]> (pktbuf_buffer s) |>) b (p <| ref := r |>).
Proof.
  intros Hwf Hp Hr. pose proof Hwf as (_ & _ & _ & _ & Hblk & Hbuf & _).
  destruct (Hbuf b p Hp) as (_ & Hch & Hnd & Ht & Hpos & Hc).
  exists p. by split_and!.
Qed.

(** The last reference is dropped. *)
Lemma free_last s b p :
  pkt_wf s -> live s b p ->
  let s' := s <| pktbuf_buffer := <[b := p <| ref := ref p - 1 |>]> (pktbuf_buffer s) |>
              <| block_list := MBlock (free_list (block_list s) ++ blk_list p) |>
              <| pktbuf_list := MBlock (free_list (pktbuf_list s) ++ [b]) |> in
  pkt_wf s' /\ views_kept [b] s s' /\ forall q, ~ live s' b q.
Proof.
  intros Hwf Hp s'. pose proof Hp as [Hpb Hpf].
  set (q := p <| blk_list := [] |> <| total_size := 0 |>).
  assert (Hpre : pre_upd s (cut s b q (blk_list p)) b q) by (by eapply (pre_upd_cut s b p [])).
  destruct (pre_upd_reset s _ b q Hwf Hpre) as (s1 & Hr1 & Hu & Hbb).
  pose proof (upd_wf _ _ _ _ Hwf Hu) as Hwf1. pose proof (upd_views _ _ _ _ Hwf Hu) as Hk1.
  pose proof (fun b' q' => upd_live s s1 b _ b' q' Hu) as Hlive1.
  assert (Hbl1 : block_list s1 = block_list (cut s b q (blk_list p))).
  { rewrite (pktbuf_reset_acc_ret _ b q) in Hr1; [by simplify_eq|apply lookup_insert_eq|constructor]. }
  pose proof Hu as (_ & _ & Hb1 & Hl1 & _).
  assert (Hlive : forall b' q', live s' b' q' <-> b' <> b /\ live s b' q').
  { intros b' q'. unfold live, s', upd_field. cbn [pktbuf_buffer pktbuf_list free_list].
    destruct (decide (b' = b)) as [->|]; [set_solver|]. rewrite lookup_insert_ne by done. set_solver. }
  split_and!.
  - pose proof Hwf as (_ & Hnd & _ & Hfd & _). apply (wf_relive s1); try done.
    + cbn. apply NoDup_app. split_and!; [done|set_solver|apply NoDup_singleton].
    + intros x Hx. cbn in Hx |- *. rewrite dom_insert. specialize (Hfd x). set_solver.
    + intros b' q' [Hne Hq]%Hlive. left. apply Hlive1. by right.
    + intros b' q' [[-> ->]|[Hne Hq]]%Hlive1; [by right|]. left. by apply Hlive.
  - intros b' q' Hb'. split; [|done]. rewrite Hlive. split; [set_solver|by intros [_ ?]].
  - intros q' [Hne _]%Hlive. done.
Qed.

(** Freeing a packet.  [pktbuf_free] drops one reference; when it was the
    last one, every block of the packet and the buffer itself return to the
    pool, exactly once; otherwise the packet keeps its bytes.  The pool
    invariant holds afterwards and no other packet changes. *)
Lemma pktbuf_free_ok s b bs n r :
  pkt_wf s -> has_view s b (View bs n r) ->
  exists s', pktbuf_free (Some b) s = Ret () s' /\ pkt_wf s' /\ views_kept [b] s s' /\
    if r =? 1 then (forall q, ~ live s' b q) /\ b ∈ free_list (pktbuf_list s') /\
                   len bs <= free_bytes s' - free_bytes s
    else has_view s' b (View bs n (r - 1)).
Proof.
  intros Hwf (p & Hp & [= -> -> ->]). pose proof Hp as [Hpb _].
  pose proof Hwf as (_ & _ & _ & _ & _ & Hbuf & _). pose proof (Hbuf b p Hp) as (Hr & Hch & _).
  unfold pktbuf_free. mstep by (by apply load_buf_ret).
  replace (0 <? ref p) with true by lia. cbn [when].
  mstep by (by apply store_buf_ret).
  destruct (Z.eqb_spec (ref p) 1) as [E|E].
  - destruct (free_last s b p Hwf Hp) as (Hwf' & Hk & Hdead).
    replace (ref p - 1 =? 0) with true by lia. cbn [when].
    eexists. split; [mstep by (apply pktblock_free_list_ret); apply buf_free_ret|].
    split_and!; [exact Hwf'|exact Hk|exact Hdead|cbn; set_solver|].
    unfold free_bytes. cbn [upd_field block_list free_list]. rewrite length_app.
    pose proof (chain_bytes_bound _ _ Hch). unfold PKTBUF_BLK_SIZE in *. lia.
  - replace (ref p - 1 =? 0) with false by lia. cbn [when].
    eexists. split; [done|]. pose proof (set_ref_upd s b p (ref p - 1) Hwf Hp ltac:(lia)) as Hu.
    split_and!; [by eapply upd_wf|by eapply upd_views|]. apply (upd_view _ _ _ _ Hu).
Qed.

Lemma pktbuf_inc_ref_spec s b bs n r :
  pkt_wf s -> has_view s b (View bs n r) ->
  exists s', pktbuf_inc_ref (Some b) s = Ret () s' /\ post s b s' bs n (r + 1).
Proof.
  intros Hwf (p & Hp & [= -> -> ->]). pose proof Hp as [Hpb _].
  pose proof Hwf as (_ & _ & _ & _ & _ & Hbuf & _). pose proof (Hbuf b p Hp) as (Hr & _).
  unfold pktbuf_inc_ref. mstep by (by apply load_buf_ret).
  replace (0 <? ref p) with true by lia. cbn [when].
  eexists. split; [by erewrite store_buf_ret|].
  pose proof (set_ref_upd s b p (ref p + 1) Hwf Hp ltac:(lia)) as Hu.
  split_and!; [by eapply upd_wf|apply (upd_view _ _ _ _ Hu)|by eapply upd_views].
Qed.

(** ** Reading and writing at the access position *)

Lemma acc_post_post s b p c bs s' p' :
  pkt_wf s -> acc_post s b p c bs s' p' -> post s b s' bs (pos p + c) (ref p).
Proof.
  intros Hwf (Hu & Hl & Hr & Hpos & Hb). split_and!.
  - by eapply upd_wf.
  - pose proof (upd_view _ _ _ _ Hu) as Hv. by rewrite Hb, Hpos, Hr in Hv.
  - by eapply upd_views.
Qed.

Lemma acc_fuel_enough s p n :
  (blocks_left (block_buffer s) (blk_list p) n <= acc_fuel p)%nat.
Proof. unfold blocks_left, acc_fuel. pose proof (seek_to_length (block_buffer s) (blk_list p) n). lia. Qed.

(** Enters a function that checks [buf->ref] after its other guards. *)
Ltac acc_start Hwf Hp :=
  let Hbuf := fresh "Hbuf" in
  pose proof Hwf as (_ & _ & _ & _ & _ & Hbuf & _);
  pose proof (Hbuf _ _ Hp) as (Hr & Hch & _ & Ht & Hpos & _); pose proof Hp as [Hpb _];
  mstep by (by apply load_buf_ret); rewrite (proj2 (negb_true_iff _)) by lia; mstep.

Lemma pktbuf_write_ok s b bs n r src :
  pkt_wf s -> has_view s b (View bs n r) -> are_bytes src -> 0 < len src ->
  exists e s', pktbuf_write (Some b) (Some src) (len src) s = Ret e s' /\
    if len bs - n <? len src then e = NET_ERR_SIZE /\ s' = s
    else e = NET_ERR_OK /\ post s b s' (splice (Z.to_nat n) src bs) (n + len src) r.
Proof.
  intros Hwf (p & Hp & [= -> -> ->]) Hb Hs. unfold pktbuf_write.
  rewrite (proj2 (orb_false_iff _ _)) by (split; [lia|apply andb_false_r]).
  replace (len src =? 0) with false by lia. acc_start Hwf Hp.
  unfold total_blk_remain. rewrite <- Ht.
  destruct (Z.ltb_spec (total_size p - pos p) (len src)); [by eexists _, _|]. mstep.
  destruct (write_loop_spec (acc_fuel p) s b p src) as (s' & p' & Hr' & Hpost);
    [done|done|done|lia|intros _; apply acc_fuel_enough|].
  exists NET_ERR_OK, s'. split; [by mstep by exact Hr'|]. split; [done|].
  by eapply acc_post_post.
Qed.

Lemma pktbuf_fill_ok s b bs n r v size :
  pkt_wf s -> has_view s b (View bs n r) -> is_byte v -> 0 < size ->
  exists e s', pktbuf_fill (Some b) v size s = Ret e s' /\
    if len bs - n <? size then e = NET_ERR_SIZE /\ s' = s
    else e = NET_ERR_OK /\
         post s b s' (splice (Z.to_nat n) (replicate (Z.to_nat size) v) bs) (n + size) r.
Proof.
  intros Hwf (p & Hp & [= -> -> ->]) Hb Hs. unfold pktbuf_fill.
  replace (size <? 0) with false by lia. replace (size =? 0) with false by lia.
  acc_start Hwf Hp. unfold total_blk_remain. rewrite <- Ht.
  destruct (Z.ltb_spec (total_size p - pos p) size); [by eexists _, _|].
  destruct (fill_loop_spec (acc_fuel p) s b p v size) as (s' & p' & Hr' & Hpost);
    [done|done|done|lia|intros _; apply acc_fuel_enough|].
  exists NET_ERR_OK, s'. split; [by mstep by exact Hr'|]. split; [done|].
  by eapply acc_post_post.
Qed.

Lemma pktbuf_read_ok s b bs n r size :
  pkt_wf s -> has_view s b (View bs n r) -> 0 < size ->
  exists e s', pktbuf_read (Some b) true size s = Ret e s' /\
    if len bs - n <? size then e = (NET_ERR_SIZE, []) /\ s' = s
    else e = (NET_ERR_OK, take (Z.to_nat size) (drop (Z.to_nat n) bs)) /\
         post s b s' bs (n + size) r.
Proof.
  intros Hwf (p & Hp & [= -> -> ->]) Hs. unfold pktbuf_read.
  rewrite (proj2 (orb_false_iff _ _)) by (split; [lia|apply andb_false_r]).
  replace (size =? 0) with false by lia. acc_start Hwf Hp.
  unfold total_blk_remain. rewrite <- Ht.
  destruct (Z.ltb_spec (total_size p - pos p) size); [by eexists _, _|].
  destruct (read_loop_spec (acc_fuel p) s b p size) as (s' & p' & Hr' & Hpost);
    [done|done|lia|intros _; apply acc_fuel_enough|].
  eexists _, s'. split; [by mstep by exact Hr'|]. split; [done|]. by eapply acc_post_post.
Qed.

(** Seeking backwards starts from the first block. *)
Lemma rewind s b p i l k s1 offset :
  pktbuf_buffer s !! b = Some p -> chain_ok (block_buffer s) (blk_list p) ->
  blk_list p = i :: l -> block_buffer s !! i = Some k -> blk_used k ->
  pktbuf_reset_acc b s = Ret () s1 ->
  (first ← deref (head (i :: l)); k ← load_blk first;
   store_buf b (fun p => p <| curr_blk := Some first |> <| blk_offset := blk_data k |>
                           <| pos := 0 |>);; mret offset) s = Ret (offset : Z) s1.
Proof.
  intros Hp Hch Hl Hk Hu Hr. rewrite (pktbuf_reset_acc_ret s b p) in Hr by done. simplify_eq.
  cbn [head]. mstep. mstep by (by apply load_blk_ret). mstep by (by apply store_buf_ret).
  unfold mret, M_ret, reset. rewrite Hl. unfold locate.
  pose proof Hu as (_ & d & Hd & ? & ? & ?). rewrite (seek_to_in _ _ _ k) by (done || lia).
  rewrite Hk. cbn [mbind option_bind fst snd]. rewrite Hd. cbn [mbind option_bind].
  by rewrite Z.add_0_r.
Qed.

Lemma pktbuf_seek_ok s b bs n r offset :
  pkt_wf s -> has_view s b (View bs n r) -> 0 <= offset ->
  exists e s', pktbuf_seek (Some b) offset s = Ret e s' /\
    if len bs <? offset then e = NET_ERR_SIZE /\ s' = s
    else e = NET_ERR_OK /\ post s b s' bs offset r.
Proof.
  intros Hwf (p & Hp & [= -> -> ->]) Hs. unfold pktbuf_seek.
  replace (offset <? 0) with false by lia. acc_start Hwf Hp. rewrite <- Ht.
  destruct (Z.eqb_spec (pos p) offset) as [<-|Hne].
  { exists NET_ERR_OK, s. split; [done|]. replace (total_size p <? pos p) with false by lia.
    split; [done|]. split_and!; [done|by exists p|done]. }
  destruct (Z.ltb_spec (total_size p) offset); [by eexists _, _|].
  destruct (Z.ltb_spec offset (pos p)).
  - unfold pktbuf_first_blk.
    destruct (blk_list p) as [|i l] eqn:Hl; [cbn in Ht; lia|]. rewrite <- Hl in *.
    pose proof Hch as Hch'. rewrite Hl in Hch'. apply Forall_cons in Hch' as [(k & Hk & Hu) _].
    destruct (pre_upd_reset s s b p Hwf (pre_upd_refl s b p Hwf Hp)) as (s1 & Hr1 & Hu1 & Hbb1).
    pose proof (upd_wf _ _ _ _ Hwf Hu1) as Hwf1. pose proof (upd_self _ _ _ _ Hu1) as Hp1.
    mstep by (rewrite Hl; exact (rewind s b p i l k s1 offset Hpb Hch Hl Hk Hu Hr1)).
    destruct (seek_loop_spec (acc_fuel p) s1 b (reset (block_buffer s) p) offset)
      as (s2 & p2 & Hr2 & Hpost2 & _); [done|done|cbn; lia|intros _; exact (acc_fuel_enough s1 p _)|].
    exists NET_ERR_OK, s2. split; [by mstep by exact Hr2|]. split; [done|].
    apply acc_post_post in Hpost2 as (Hwf2 & Hv2 & Hk2); [|done]. cbn in Hv2.
    rewrite Hbb1 in Hv2. split_and!; [done|done|].
    etransitivity; [by eapply upd_views|done].
  - mstep. destruct (seek_loop_spec (acc_fuel p) s b p (offset - pos p))
      as (s2 & p2 & Hr2 & Hpost2 & _); [done|done|lia|intros _; apply acc_fuel_enough|].
    exists NET_ERR_OK, s2. split; [by mstep by exact Hr2|]. split; [done|].
    apply acc_post_post in Hpost2; [|done]. by replace (pos p + (offset - pos p)) with offset in Hpost2 by lia.
Qed.


Lemma checksum16_compl offset data pre :
  checksum16 offset data pre true = u16 (Z.lnot (checksum16 offset data pre false)).
Proof. unfold checksum16, u16, Z.lnot. rewrite <- !Z.sub_1_r. zdm. Qed.

(** The checksum of a packet is the checksum of its bytes: from position
    [n], [pktbuf_checksum16] over any number of blocks gives what [checksum16]
    gives for the same bytes in one array (odd-sized blocks included), and
    moves the position behind them. *)
Lemma pktbuf_checksum16_ok s b bs n r size pre c :
  pkt_wf s -> has_view s b (View bs n r) -> 0 <= n -> 0 <= size <= len bs - n ->
  0 <= pre <= 65535 ->
  exists s', pktbuf_checksum16 (Some b) size pre c s =
      Ret (checksum16 0 (take (Z.to_nat size) (drop (Z.to_nat n) bs)) pre c) s' /\
    post s b s' bs (n + size) r.
Proof.
  intros Hwf (p & Hp & [= -> -> ->]) Hn Hs Hpre. unfold pktbuf_checksum16.
  replace (size <? 0) with false by lia. acc_start Hwf Hp. unfold total_blk_remain.
  replace (total_size p - pos p <? size) with false by lia.
  destruct (checksum_loop_spec (acc_fuel p) s b p size pre 0) as (s' & p' & Hr' & Hpost);
    [done|done|lia|done|intros _; apply acc_fuel_enough|].
  exists s'. split; [|by eapply acc_post_post]. mstep by exact Hr'. unfold mret, M_ret. f_equal.
  destruct c; [by rewrite checksum16_compl|]. apply u16_small.
  pose proof (checksum16_range 0 (take (Z.to_nat size) (drop (Z.to_nat (pos p))
    (chain_bytes (block_buffer s) (blk_list p)))) pre) as Hrg.
  assert (0 <= checksum16 0 (take (Z.to_nat size) (drop (Z.to_nat (pos p))
    (chain_bytes (block_buffer s) (blk_list p)))) pre false <= 65535); [|lia].
  apply Hrg; [|done]. by apply Forall_take, Forall_drop, are_bytes_chain.
Qed.

(** ** Joining two packets *)

Lemma join_loop_ret d s chain st pd ps :
  d <> s -> pktbuf_buffer st !! d = Some pd -> pktbuf_buffer st !! s = Some ps ->
  blk_list ps = chain -> chain_ok (block_buffer st) chain ->
  join_loop d s chain st =
    Ret () (st <| pktbuf_buffer :=
      <[d := pd <| blk_list := blk_list pd ++ chain |>
                <| total_size := total_size pd + len (chain_bytes (block_buffer st) chain) |>]>
      (<[s := ps <| blk_list := [] |>]> (pktbuf_buffer st)) |>).
Proof.
  intros Hne. revert st pd ps. induction chain as [|i chain IH]; intros st pd ps Hd Hs Hl Hch;
    cbn [join_loop].
  { unfold mret, M_ret, upd_field. cbn. f_equal. rewrite app_nil_r, Z.add_0_r.
    rewrite (insert_id _ s), insert_id.
    - by destruct st.
    - rewrite Hd. by destruct pd.
    - rewrite Hs, <- Hl. by destruct ps. }
  apply Forall_cons in Hch as [(k & Hk & Hu) Hch].
  mstep by (by apply store_buf_ret).
  mstep by (apply (insert_blk_last_ret d [i]); [by constructor; [eauto|constructor]|];
            cbn; by rewrite lookup_insert_ne).
  erewrite IH; [|apply lookup_insert_eq|cbn; rewrite lookup_insert_ne, lookup_insert_eq by done; reflexivity
                |unfold upd_field; cbn [blk_list]; by rewrite Hl|done].
  f_equal. unfold upd_field. cbn [block_buffer block_list pktbuf_buffer pktbuf_list
    total_size blk_list ref pos curr_blk blk_offset].
  rewrite (insert_insert_ne _ s d) by done. rewrite !insert_insert_eq. do 2 f_equal.
  cbn [chain_bytes]. rewrite <- app_assoc, app_nil_r. cbn [app]. f_equal.
  rewrite length_app. lia.
Qed.

(** The record of a free buffer does not matter. *)
Lemma dead_record s b x :
  pkt_wf s -> b ∈ free_list (pktbuf_list s) ->
  let s' := s <| pktbuf_buffer := <[b := x]> (pktbuf_buffer s) |> in
  pkt_wf s' /\ views_kept [] s s'.
Proof.
  intros Hwf Hb s'.
  assert (Hlive : forall b' q, live s' b' q <-> live s b' q).
  { intros b' q. unfold live, s', upd_field. cbn [pktbuf_buffer pktbuf_list].
    destruct (decide (b' = b)) as [->|]; [naive_solver|]. by rewrite lookup_insert_ne. }
  split.
  - pose proof Hwf as (_ & Hnd & _ & Hfd & _). apply (wf_relive s); try done.
    + intros y Hy. cbn. rewrite dom_insert. specialize (Hfd y Hy). set_solver.
    + intros b' q Hq%Hlive. by left.
    + intros b' q Hq%Hlive. by left.
  - intros b' q _. by rewrite Hlive.
Qed.

Lemma join_run s d sr pd ps :
  d <> sr -> pktbuf_buffer s !! d = Some pd -> pktbuf_buffer s !! sr = Some ps ->
  ref pd <> 0 -> ref ps = 1 ->
  chain_ok (block_buffer s) (blk_list pd) -> chain_ok (block_buffer s) (blk_list ps) ->
  pktbuf_join (Some d) (Some sr) s =
    Ret NET_ERR_OK (s <| pktbuf_buffer :=
      <[d := reset (block_buffer s)
               (pd <| blk_list := blk_list pd ++ blk_list ps |>
                   <| total_size := total_size pd +
                        len (chain_bytes (block_buffer s) (blk_list ps)) |>)]>
      (<[sr := ps <| blk_list := [] |> <| ref := ref ps - 1 |>]> (pktbuf_buffer s)) |>
      <| pktbuf_list := MBlock (free_list (pktbuf_list s) ++ [sr]) |>).
Proof.
  intros Hne Hd Hs Hrd Hrs Hchd Hchs. unfold pktbuf_join.
  replace (d =? sr)%nat with false by (symmetry; by apply Nat.eqb_neq).
  mstep by (by apply load_buf_ret). rewrite (proj2 (negb_true_iff _)) by lia. mstep.
  mstep by (by apply load_buf_ret). rewrite (proj2 (negb_true_iff _)) by lia. mstep.
  mstep by (by apply join_loop_ret).
  set (q := pd <| blk_list := _ |> <| total_size := _ |>). set (ps' := ps <| blk_list := [] |>).
  assert (Hfree : pktbuf_free (Some sr) (s <| pktbuf_buffer := <[d := q]> (<[sr := ps']>
      (pktbuf_buffer s)) |>) = Ret () (s <| pktbuf_buffer := <[d := q]> (<[sr :=
      ps' <| ref := ref ps - 1 |>]> (pktbuf_buffer s)) |>
      <| pktbuf_list := MBlock (free_list (pktbuf_list s) ++ [sr]) |>)).
  { unfold pktbuf_free. mstep by (apply load_buf_ret; cbn;
      rewrite lookup_insert_ne, lookup_insert_eq by done; reflexivity).
    change (ref ps') with (ref ps). replace (0 <? ref ps) with true by lia.
    replace (ref ps - 1 =? 0) with true by lia. cbn [when].
    mstep by (apply store_buf_ret; cbn; rewrite lookup_insert_ne, lookup_insert_eq by done; reflexivity).
    mstep. rewrite buf_free_ret. f_equal.
    unfold upd_field. cbn [block_buffer block_list pktbuf_buffer pktbuf_list].
    by rewrite (insert_insert_ne _ sr d), insert_insert_eq by done. }
  mstep by exact Hfree.
  mstep by (apply (pktbuf_reset_acc_ret _ d q); [apply lookup_insert_eq|by apply chain_ok_app]).
  unfold mret, M_ret. f_equal. unfold upd_field. cbn [block_buffer block_list pktbuf_buffer pktbuf_list].
  by rewrite insert_insert_eq.
Qed.

(** Joining two packets.  [pktbuf_join dest src] appends the bytes of [src]
    to [dest] without copying them, frees the buffer [src] and resets the
    position of [dest]; the pool invariant holds afterwards and no other packet
    changes.  ([src] must have no other reference.) *)
Lemma pktbuf_join_ok s d sr bsd nd rd bss ns :
  pkt_wf s -> d <> sr -> has_view s d (View bsd nd rd) -> has_view s sr (View bss ns 1) ->
  exists s', pktbuf_join (Some d) (Some sr) s = Ret NET_ERR_OK s' /\
    pkt_wf s' /\ has_view s' d (View (bsd ++ bss) 0 rd) /\ (forall q, ~ live s' sr q) /\
    views_kept [d; sr] s s'.
Proof.
  intros Hwf Hne (pd & Hpd & [= -> -> ->]) (ps & Hps & [= -> -> Hrs]).
  pose proof Hwf as (_ & _ & _ & _ & _ & Hbuf & _).
  pose proof (Hbuf d pd Hpd) as (Hrd & Hchd & _ & Htd & _).
  pose proof (Hbuf sr ps Hps) as (_ & Hchs & _ & _ & _). symmetry in Hrs.
  pose proof Hpd as [Hpdb Hpdf]. pose proof Hps as [Hpsb Hpsf].
  destruct (free_last s sr ps Hwf Hps) as (Hwf0 & Hk0 & Hdead0).
  set (s0 := s <| pktbuf_buffer := _ |> <| block_list := _ |> <| pktbuf_list := _ |>) in *.
  set (m := block_buffer s) in *.
  set (q := pd <| blk_list := blk_list pd ++ blk_list ps |>
               <| total_size := total_size pd + len (chain_bytes m (blk_list ps)) |>).
  set (s1 := s <| pktbuf_buffer := <[d := q]> (pktbuf_buffer s0) |>
               <| pktbuf_list := pktbuf_list s0 |>).
  assert (Hpd0 : live s0 d pd).
  { split; cbn; [by rewrite lookup_insert_ne by done|set_solver]. }
  assert (Hpre : pre_upd s0 s1 d q).
  { exists pd. split_and!; try done.
    - cbn. rewrite <- app_assoc. by rewrite (Permutation_app_comm (blk_list ps)).
    - by destruct (wf_pool s Hwf) as (_ & _ & ?).
    - by apply chain_ok_app.
    - cbn [q upd_field total_size blk_list]. change (block_buffer s1) with m.
      rewrite chain_bytes_app, length_app. lia. }
  destruct (post_reset_front s0 s1 d q Hwf0 Hpre) as (s2 & Hr2 & (Hwf2 & Hv2 & Hk2) & _).
  cbn [q upd_field blk_list ref] in Hv2. change (block_buffer s1) with m in Hv2.
  rewrite chain_bytes_app in Hv2.
  assert (Hs2 : s2 = s1 <| pktbuf_buffer := <[d := reset m q]> (pktbuf_buffer s1) |>).
  { rewrite (pktbuf_reset_acc_ret s1 d q) in Hr2; [by simplify_eq|apply lookup_insert_eq|].
    by apply chain_ok_app. }
  assert (Hsr : sr ∈ free_list (pktbuf_list s2)) by (rewrite Hs2; cbn; set_solver).
  destruct (dead_record s2 sr (ps <| blk_list := [] |> <| ref := ref ps - 1 |>) Hwf2 Hsr)
    as [Hwf3 Hv3].
  exists (s2 <| pktbuf_buffer := <[sr := ps <| blk_list := [] |> <| ref := ref ps - 1 |>]>
                                 (pktbuf_buffer s2) |>).
  split_and!; [|done|by apply (views_kept_view _ _ _ _ _ Hv3); [set_solver|]|by intros q' [_ Hq']|].
  - rewrite (join_run s d sr pd ps) by (done || lia). f_equal.
    rewrite Hs2. unfold s1, s0, upd_field. cbn [block_buffer block_list pktbuf_buffer pktbuf_list].
    rewrite !insert_insert_eq, (insert_insert_ne _ sr d) by done. by rewrite insert_insert_eq.
  - transitivity s0; [eapply views_kept_mono, Hk0; set_solver|].
    transitivity s2; [eapply views_kept_mono, Hk2; set_solver|].
    eapply views_kept_mono, Hv3. set_solver.
Qed.

(** ** Making the front of a packet contiguous *)

Lemma copy_down_eq n i d pl :
  (d + i + n <= length pl)%nat ->
  copy_down n i d pl = take i pl ++ take n (drop (d + i) pl) ++ drop (i + n) pl.
Proof.
  revert i pl. induction n as [|n IH]; intros i pl Hl; cbn [copy_down].
  { rewrite take_0, (Nat.add_0_r i). cbn [app]. by rewrite take_drop. }
  destruct (lookup_lt_is_Some_2 pl (d + i)) as [x Hx]; [lia|].
  unfold byte_at. rewrite (nth_lookup_Some _ _ _ _ Hx).
  rewrite IH by (rewrite length_insert; lia).
  rewrite (take_S_r _ _ x) by (apply list_lookup_insert_eq; lia).
  rewrite take_insert_ge by lia. rewrite !drop_insert_lt by lia.
  rewrite <- app_assoc. f_equal. cbn [app].
  assert (drop (d + i) pl = x :: drop (S (d + i)) pl) as -> by (by apply drop_S).
  cbn [take app]. rewrite Nat.add_succ_r. do 2 f_equal. f_equal. lia.
Qed.

(** [pre_upd] after blocks of the chain changed and some of them were freed. *)
Lemma pre_upd_step s s1 s2 b q q' freed :
  pre_upd s s1 b q ->
  pktbuf_buffer s2 = <[b := q']> (pktbuf_buffer s1) -> pktbuf_list s2 = pktbuf_list s1 ->
  block_list s2 = MBlock (free_list (block_list s1) ++ freed) ->
  blk_list q' ++ freed ≡ₚ blk_list q ->
  dom (block_buffer s2) = dom (block_buffer s1) ->
  (forall i, i ∉ blk_list q -> block_buffer s2 !! i = block_buffer s1 !! i) ->
  (forall i k, block_buffer s2 !! i = Some k -> blk_ok k) ->
  1 <= ref q' -> chain_ok (block_buffer s2) (blk_list q') ->
  total_size q' = len (chain_bytes (block_buffer s2) (blk_list q')) ->
  pre_upd s s2 b q'.
Proof.
  intros (p & Hp & Hb & Hl & Hperm & Hdom & Hblk & Hfr & Hr & Hch & Ht)
    Hb2 Hl2 Hbl2 Hq Hdom2 Hag Hok2 Hr2 Hch2 Ht2.
  exists p. split_and!; try done.
  - by rewrite Hb2, Hb, insert_insert_eq.
  - by rewrite Hl2.
  - rewrite Hbl2. cbn. rewrite <- Hperm, <- Hq, <- app_assoc.
    by rewrite (Permutation_app_comm freed).
  - by rewrite Hdom2.
  - intros i Hi. rewrite <- Hperm in Hi. rewrite Hag by set_solver.
    apply Hfr. by rewrite <- Hperm.
Qed.

(** Appending bytes to a block that starts at offset 0 of its payload. *)
Lemma blk_append k bs :
  blk_used k -> blk_data k = Some 0 -> are_bytes bs -> blk_size k + len bs <= PKTBUF_BLK_SIZE ->
  let k' := k <| payload := splice (Z.to_nat (blk_size k)) bs (payload k) |>
              <| blk_size := blk_size k + len bs |> in
  blk_used k' /\ blk_bytes k' = blk_bytes k ++ bs.
Proof.
  intros Hu Hd Hbs Hl k'. pose proof Hu as ((Hpl & Hpb) & d & Hd' & ? & ? & ?). simplify_eq.
  assert (Hlen : length (payload k) = Z.to_nat PKTBUF_BLK_SIZE) by lia.
  split.
  - split; [split|].
    + cbn. rewrite length_splice; lia.
    + cbn. by apply Forall_splice.
    + exists 0. cbn. split_and!; done || lia.
  - unfold blk_bytes. cbn [k' upd_field blk_data blk_size payload]. rewrite Hd.
    unfold splice. change (Z.to_nat 0) with 0%nat. rewrite !drop_0.
    rewrite take_app_ge by (rewrite length_take; lia). f_equal.
    rewrite length_take, Nat.min_l by lia. apply take_app_length'. lia.
Qed.

(** Moving the front bytes out of a block: it is shortened or becomes empty. *)
Lemma blk_take_front k d c :
  blk_used k -> blk_data k = Some d -> 0 <= c <= blk_size k ->
  let k' := k <| blk_data := Some (d + c) |> <| blk_size := blk_size k - c |> in
  blk_ok k' /\ blk_bytes k' = drop (Z.to_nat c) (blk_bytes k) /\
  (c < blk_size k -> blk_used k').
Proof.
  intros Hu Hd Hc k'. pose proof Hu as (Hb & d' & Hd' & ? & ? & ?). simplify_eq. split_and!.
  - done.
  - unfold blk_bytes. cbn [k' upd_field blk_data blk_size payload]. rewrite Hd.
    rewrite skipn_firstn_comm, drop_drop, Z2Nat.inj_sub, (Z2Nat.inj_add d) by lia. done.
  - intros. split; [done|]. exists (d + c). cbn. split_and!; done || lia.
Qed.

(** One block of the loop: [c] bytes move from [curr] to the end of [first]. *)
Lemma move_bytes s1 first curr kf k d c :
  block_buffer s1 !! first = Some kf -> block_buffer s1 !! curr = Some k -> first <> curr ->
  blk_used kf -> blk_used k -> blk_data k = Some d -> 0 < c <= blk_size k ->
  blk_size kf + c <= PKTBUF_BLK_SIZE ->
  let bs := take (Z.to_nat c) (blk_bytes k) in
  let kf' := kf <| payload := splice (Z.to_nat (blk_size kf)) bs (payload kf) |>
                <| blk_size := blk_size kf + c |> in
  let k' := k <| blk_data := Some (d + c) |> <| blk_size := blk_size k - c |> in
  (bs ← blk_read curr d c;
   blk_write first (blk_size kf) bs;;
   store_blk curr (fun k => k <| blk_data := Some (d + c) |> <| blk_size := blk_size k - c |>);;
   store_blk first (fun k => k <| blk_size := blk_size k + c |>)) s1 =
    Ret () (s1 <| block_buffer := <[first := kf']> (<[curr := k']> (block_buffer s1)) |>).
Proof.
  intros Hf Hk Hne Huf Hu Hd Hc Hle bs kf' k'.
  pose proof Hu as ((Hpl & _) & d' & Hd' & ? & ? & ?). assert (d' = d) as -> by congruence.
  pose proof Huf as ((Hplf & _) & df & _ & ? & ? & ?).
  assert (Hbs : take (Z.to_nat c) (drop (Z.to_nat d) (payload k)) = bs).
  { unfold bs, blk_bytes. rewrite Hd, take_take. f_equal. lia. }
  assert (Hlbs : len bs = c) by (rewrite <- Hbs, length_take, length_drop; lia).
  mstep by (unfold blk_read; mstep by (by apply load_blk_ret);
    rewrite !(proj2 (andb_true_iff _ _)) by lia; reflexivity). rewrite Hbs.
  mstep by (unfold blk_write; mstep by (by apply load_blk_ret);
    rewrite (proj2 (andb_true_iff _ _)) by lia; by apply store_blk_ret).
  mstep by (apply store_blk_ret; cbn; by rewrite lookup_insert_ne).
  erewrite store_blk_ret; [|cbn; rewrite lookup_insert_ne by done; apply lookup_insert_eq].
  f_equal. unfold upd_field. cbn [block_buffer block_list pktbuf_buffer pktbuf_list].
  f_equal. rewrite (insert_insert_ne _ curr first) by done. by rewrite insert_insert_eq.
Qed.

Lemma chain_move m first curr l kf k kf' k' c bs :
  first ∉ curr :: l -> curr ∉ l -> chain_ok m l ->
  m !! first = Some kf -> m !! curr = Some k ->
  blk_bytes kf' = blk_bytes kf ++ bs -> blk_bytes k' = drop c (blk_bytes k) ->
  bs = take c (blk_bytes k) ->
  let m' := <[first := kf']> (<[curr := k']> m) in
  chain_bytes m' (first :: curr :: l) = chain_bytes m (first :: curr :: l) /\
  chain_ok m' l /\ agree l m m'.
Proof.
  intros Hf Hc Hch Hkf Hk Hbf Hbk -> m'. apply not_elem_of_cons in Hf as [Hne Hf].
  assert (Hag : agree l m m').
  { intros j Hj. unfold m'. rewrite !lookup_insert_ne; set_solver. }
  split_and!; [|by eapply agree_chain_ok|done].
  cbn [chain_bytes]. rewrite (agree_chain_bytes _ _ _ Hag).
  rewrite (bytes_of_some m' first kf') by apply lookup_insert_eq.
  rewrite (bytes_of_some m' curr k')
    by (unfold m'; rewrite lookup_insert_ne, lookup_insert_eq by done; done).
  rewrite (bytes_of_some m first kf), (bytes_of_some m curr k), Hbf, Hbk by done.
  rewrite <- !app_assoc. f_equal. by rewrite app_assoc, take_drop.
Qed.

Definition cont_post (s s1 s2 : pkt_state) (b first : nat) (q : pktbuf_t) (n : Z) : Prop :=
  exists q2 chain2 k2, pre_upd s s2 b q2 /\ ref q2 = ref q /\
    chain_bytes (block_buffer s2) (blk_list q2) = chain_bytes (block_buffer s1) (blk_list q) /\
    blk_list q2 = first :: chain2 /\ block_buffer s2 !! first = Some k2 /\ n <= blk_size k2.

(** The state after one block of the loop, whose block [curr] is kept (it has
    bytes left) or unlinked and freed. *)
Section cont_round.
Context (s s1 : pkt_state) (b first curr : nat) (chain : list nat) (q : pktbuf_t).
Context (kf' k' : pktblk_t).
Let m' : blk_map := <[first := kf']> (<[curr := k']> (block_buffer s1)).
Hypothesis Hwf : pkt_wf s.
Hypothesis Hpre : pre_upd s s1 b q.
Hypothesis Hl : blk_list q = first :: curr :: chain.
Hypothesis Huf' : blk_used kf'.
Hypothesis Hok' : blk_ok k'.
Hypothesis Hch' : chain_ok m' chain.
Hypothesis Hby : chain_bytes m' (first :: curr :: chain) =
                 chain_bytes (block_buffer s1) (first :: curr :: chain).

Lemma cont_blocks :
  dom m' = dom (block_buffer s1) /\
  (forall i, i ∉ blk_list q -> m' !! i = block_buffer s1 !! i) /\
  (forall i k, m' !! i = Some k -> blk_ok k) /\
  m' !! first = Some kf' /\ (first <> curr -> m' !! curr = Some k').
Proof.
  pose proof Hpre as (_ & _ & _ & _ & _ & _ & Hblk & _ & _ & Hch & _). rewrite Hl in Hch |- *.
  apply Forall_cons in Hch as [(kf & Hkf & _) Hch]. apply Forall_cons in Hch as [(k & Hk & _) _].
  split_and!.
  - unfold m'. rewrite !dom_insert_L. apply elem_of_dom_2 in Hkf, Hk. set_solver.
  - intros i Hi. unfold m'. rewrite !lookup_insert_ne; set_solver.
  - intros i ki. unfold m'. intros [[_ <-]|[_ [[_ <-]|[_ Hi]]%lookup_insert_Some]]%lookup_insert_Some;
      [by destruct Huf'|done|eauto].
  - apply lookup_insert_eq.
  - intros Hne. unfold m'. by rewrite lookup_insert_ne, lookup_insert_eq.
Qed.

Lemma cont_keep :
  first <> curr -> blk_used k' -> pre_upd s (s1 <| block_buffer := m' |>) b q.
Proof.
  intros Hne Hu'. destruct cont_blocks as (Hdom & Hag & Hblk & Hmf & Hmc).
  pose proof Hpre as (_ & _ & _ & _ & _ & _ & _ & _ & Hr & _ & Ht).
  apply (pre_upd_step s s1 _ b q q []); try done.
  - cbn. symmetry. apply insert_id. by eapply pre_upd_buf.
  - cbn. rewrite app_nil_r. by destruct (block_list s1).
  - by rewrite app_nil_r.
  - rewrite Hl. cbn. constructor; [eauto|]. constructor; [eauto|done].
  - rewrite Ht, Hl. cbn [upd_field block_buffer]. by rewrite Hby.
Qed.

Lemma cont_unlink :
  first <> curr -> blk_bytes k' = [] ->
  let q' := q <| blk_list := first :: chain |> in
  let s2 := s1 <| block_buffer := m' |> <| pktbuf_buffer := <[b := q']> (pktbuf_buffer s1) |>
               <| block_list := MBlock (free_list (block_list s1) ++ [curr]) |> in
  pre_upd s s2 b q' /\
  chain_bytes m' (first :: chain) = chain_bytes (block_buffer s1) (blk_list q).
Proof.
  intros Hne Hk' q' s2. destruct cont_blocks as (Hdom & Hag & Hblk & Hmf & Hmc).
  pose proof Hpre as (_ & _ & _ & _ & _ & _ & _ & _ & Hr & _ & Ht).
  assert (Hby2 : chain_bytes m' (first :: chain) = chain_bytes (block_buffer s1) (blk_list q)).
  { rewrite Hl, <- Hby. cbn [chain_bytes]. rewrite (bytes_of_some m' curr k') by auto. by rewrite Hk'. }
  split; [|done]. apply (pre_upd_step s s1 _ b q q' [curr]); try done.
  - cbn. rewrite Hl. by rewrite (Permutation_app_comm chain).
  - cbn. constructor; [eauto|done].
  - cbn [q' s2 upd_field total_size blk_list block_buffer]. by rewrite Hby2.
Qed.
End cont_round.

Lemma set_cont_loop_spec s b first chain s1 q kf remain :
  pkt_wf s -> pre_upd s s1 b q -> blk_list q = first :: chain ->
  block_buffer s1 !! first = Some kf -> blk_data kf = Some 0 ->
  0 <= remain <= len (chain_bytes (block_buffer s1) chain) ->
  blk_size kf + remain <= PKTBUF_BLK_SIZE ->
  exists s2, set_cont_loop b first (blk_size kf) remain chain s1 = Ret () s2 /\
    cont_post s s1 s2 b first q (blk_size kf + remain).
Proof.
  intros Hwf. revert s1 q kf remain. induction chain as [|curr chain IH];
    intros s1 q kf remain Hpre Hl Hkf Hdf Hrem Hle.
  all: destruct (decide (remain = 0)) as [->|Hnz];
    [exists s1; split; [done|]; eexists q, _, kf; split_and!; (done || lia)|].
  { cbn in Hrem. lia. }
  pose proof (pre_upd_nodup _ _ _ _ Hwf Hpre) as Hnd. rewrite Hl in Hnd.
  apply NoDup_cons in Hnd as [Hf [Hc _]%NoDup_cons].
  assert (Hne : first <> curr) by set_solver.
  pose proof Hpre as (_ & _ & _ & _ & _ & _ & _ & _ & _ & Hch & Ht). rewrite Hl in Hch, Ht.
  apply Forall_cons in Hch as [(kf0 & Hkf0 & Huf) Hch]. assert (kf0 = kf) as -> by congruence.
  apply Forall_cons in Hch as [(k & Hk & Hu) Hch]. pose proof Hu as (_ & d & Hd & ? & ? & ?).
  pose proof (len_blk_bytes k Hu) as Hlk.
  destruct (round_size_spec (blk_size k) remain) as (Hcs & Hcr & Hlast); [lia..|].
  set (c := round_size (blk_size k) remain) in *.
  set (bs := take (Z.to_nat c) (blk_bytes k)).
  assert (Hlbs : len bs = c) by (unfold bs; rewrite length_take; lia).
  destruct (blk_append kf bs Huf Hdf) as [Huf' Hbf'];
    [by apply Forall_take, are_bytes_blk|lia|]. rewrite Hlbs in Huf', Hbf'.
  destruct (blk_take_front k d c Hu Hd) as (Hok' & Hbk' & Hu'); [lia|].
  pose proof (move_bytes s1 first curr kf k d c Hkf Hk Hne Huf Hu Hd Hcs ltac:(lia)) as Hmv.
  cbv zeta in Hmv. fold bs in Hmv.
  set (kf' := kf <| payload := _ |> <| blk_size := _ |>) in *.
  set (k' := k <| blk_data := _ |> <| blk_size := _ |>) in *.
  destruct (chain_move (block_buffer s1) first curr chain kf k kf' k' (Z.to_nat c) bs)
    as (Hby & Hch' & Hag); [done..|].
  cbn [set_cont_loop]. replace (remain =? 0) with false by lia.
  mstep by (by apply load_blk_ret).
  replace (if remain <? blk_size k then remain else blk_size k) with c
    by (unfold c, round_size; destruct (Z.ltb_spec remain (blk_size k)),
          (Z.ltb_spec (blk_size k) remain); lia).
  mstep by (by apply deref_ret). rewrite (mbind_ret4 _ _ _ _ _ _ _ _ Hmv).
  set (m' := <[first := kf']> (<[curr := k']> (block_buffer s1))) in *.
  assert (Hmf : m' !! first = Some kf') by apply lookup_insert_eq.
  destruct (Z.eqb_spec (blk_size k - c) 0).
  - destruct (cont_unlink s s1 b first curr chain q kf' k') as (Hpre2 & Hby2); try done.
    { rewrite Hbk'. apply drop_ge. lia. }
    mstep by (apply store_buf_ret; exact (pre_upd_buf _ _ _ _ Hpre)).
    mstep by (apply pktblock_free_ret).
    cbn [chain_bytes] in Hrem. rewrite (bytes_of_some _ _ _ Hk), length_app in Hrem.
    destruct (IH _ _ kf' (remain - c) Hpre2) as (s3 & Hr3 & Hpost3);
      [done|done|done|cbn [upd_field block_buffer]|cbn; lia|].
    { fold m'. rewrite (agree_chain_bytes _ _ _ Hag). lia. }
    exists s3. split.
    + rewrite <- Hr3. change (blk_size kf') with (blk_size kf + c). f_equal.
      unfold upd_field. cbn [block_buffer block_list pktbuf_buffer pktbuf_list]. do 3 f_equal.
      unfold upd_field. cbn. rewrite Hl. cbn. rewrite decide_False, decide_True by done. done.
    + destruct Hpost3 as (q3 & ch3 & k3 & Hp3 & Hr3' & Hb3 & Hl3 & Hk3 & Hle3).
      exists q3, ch3, k3. split_and!; try done.
      * rewrite Hb3. cbn [upd_field block_buffer blk_list]. done.
      * cbn in Hle3. lia.
  - replace (remain - c =? 0) with true by lia.
    exists (s1 <| block_buffer := m' |>). split; [done|].
    exists q, (curr :: chain), kf'. split_and!; try done.
    + apply (cont_keep s s1 b first curr chain q kf' k'); try done. apply Hu'. lia.
    + cbn [upd_field block_buffer]. by rewrite Hl.
    + cbn. lia.
Qed.

(** The first block of the packet holds at least [size] bytes. *)
Definition contiguous (s : pkt_state) (b : nat) (size : Z) : Prop :=
  exists i d, front s b i d size.

Lemma cont_end s s1 s2 b first q n r (m : M pkt_state unit) s0 bs :
  pkt_wf s -> m s0 = Ret () s2 -> cont_post s s1 s2 b first q n -> ref q = r ->
  chain_bytes (block_buffer s1) (blk_list q) = bs ->
  exists s', (m;; pktbuf_reset_acc b;; mret NET_ERR_OK) s0 = Ret NET_ERR_OK s' /\
    post s b s' bs 0 r /\ contiguous s' b n.
Proof.
  intros Hwf Hm (q2 & ch2 & k2 & Hpre & Href & Hby & Hl & Hk & Hle) Hr Hbs.
  destruct (pre_upd_reset s s2 b q2 Hwf Hpre) as (s' & Hr' & Hu & Hbb).
  exists s'. split; [mstep by exact Hm; by mstep by exact Hr'|]. split.
  - split_and!; [by eapply upd_wf| |by eapply upd_views].
    pose proof (upd_view _ _ _ _ Hu) as Hv. rewrite Hbb in Hv. cbn in Hv.
    by rewrite Hby, Hbs, Href, Hr in Hv.
  - pose proof (upd_wf _ _ _ _ Hwf Hu) as (_ & _ & _ & _ & _ & Hbuf & _).
    pose proof (upd_self _ _ _ _ Hu) as Hlive.
    destruct (Hbuf b _ Hlive) as (_ & Hch & _). cbn in Hch. rewrite Hl, Hbb in Hch.
    apply Forall_cons in Hch as [(k & Hk' & _ & d & Hd & _) _]. simplify_eq.
    exists first, d, (reset (block_buffer s2) q2), ch2, k2. rewrite Hbb. by split_and!.
Qed.

(** The bytes of the first block move to the start of its payload. *)
Lemma blk_align k d :
  blk_used k -> blk_data k = Some d ->
  let k' := k <| payload := copy_down (Z.to_nat (blk_size k)) 0 (Z.to_nat d) (payload k) |>
              <| blk_data := Some 0 |> in
  blk_used k' /\ blk_bytes k' = blk_bytes k.
Proof.
  intros Hu Hd k'. pose proof Hu as ((Hpl & Hpb) & d' & Hd' & ? & ? & ?). simplify_eq.
  assert (Hcd : payload k' = take (Z.to_nat (blk_size k)) (drop (Z.to_nat d) (payload k)) ++
                             drop (Z.to_nat (blk_size k)) (payload k)).
  { cbn [k' upd_field payload]. rewrite copy_down_eq by lia. cbn. by rewrite Nat.add_0_r. }
  split.
  - split; [split|].
    + rewrite Hcd, length_app, length_take, !length_drop. lia.
    + rewrite Hcd, Forall_app. split; [by apply Forall_take, Forall_drop|by apply Forall_drop].
    + exists 0. cbn. split_and!; done || lia.
  - unfold blk_bytes. change (blk_data k') with (Some 0). change (blk_size k') with (blk_size k).
    rewrite Hd, Hcd. change (Z.to_nat 0) with 0%nat. rewrite drop_0. apply take_app_length'.
    rewrite length_take, length_drop. lia.
Qed.

(** Making a header contiguous.  [pktbuf_set_cont size] leaves the bytes of
    the packet unchanged, moves the first [size] of them into the first block
    (freeing the blocks that become empty) and resets the access position; it
    refuses, changing nothing, when the packet is shorter than [size] or [size]
    exceeds a block.  The pool invariant holds and no other packet changes. *)
Lemma pktbuf_set_cont_ok s b bs n r size :
  pkt_wf s -> has_view s b (View bs n r) -> 0 < size ->
  exists e s', pktbuf_set_cont (Some b) size s = Ret e s' /\
    if (size <=? len bs) && (size <=? PKTBUF_BLK_SIZE)
    then e = NET_ERR_OK /\ post s b s' bs 0 r /\ contiguous s' b size
    else e = NET_ERR_SIZE /\ s' = s.
Proof.
  intros Hwf (p & Hp & [= -> -> ->]) Hs. unfold pktbuf_set_cont.
  replace (size <? 0) with false by lia. replace (size =? 0) with false by lia.
  acc_start Hwf Hp. rewrite <- Ht.
  destruct (Z.ltb_spec (total_size p) size), (Z.leb_spec size (total_size p)); try lia;
    [by eexists _, _|].
  destruct (Z.ltb_spec PKTBUF_BLK_SIZE size), (Z.leb_spec size PKTBUF_BLK_SIZE); try lia;
    [by eexists _, _|].
  cbn [andb]. destruct (blk_list p) as [|first chain] eqn:Hl; [cbn in Ht; lia|].
  pose proof Hch as Hch0. apply Forall_cons in Hch as [(k & Hk & Hu) Hch].
  pose proof Hu as (_ & d & Hd & ? & ? & ?).
  pose proof (pre_upd_refl s b p Hwf Hp) as Hpre0.
  mstep by (by apply load_blk_ret). destruct (Z.leb_spec size (blk_size k)).
  - destruct (cont_end s s s b first p size (ref p) (mret ()) s (chain_bytes (block_buffer s) (blk_list p)))
      as (s' & Hr' & Hpost); [done|done| |done|done|].
    { exists p, chain, k. by split_and!. }
    exists NET_ERR_OK, s'. rewrite <- Hl. split; [done|]. by split.
  - mstep by (by apply deref_ret). destruct (blk_align k d Hu Hd) as [Hu' Hbk].
    mstep by (by apply store_blk_ret).
    set (k' := k <| payload := _ |> <| blk_data := _ |>) in *.
    set (s1 := s <| block_buffer := <[first := k']> (block_buffer s) |>).
    pose proof (pre_upd_nodup _ _ _ _ Hwf Hpre0) as Hnd. rewrite Hl in Hnd.
    apply NoDup_cons in Hnd as [Hf _].
    destruct (chain_replace_first (block_buffer s) first chain k') as [Hch1 Hby1]; [done..|].
    assert (Hby : chain_bytes (block_buffer s1) (blk_list p) =
                  chain_bytes (block_buffer s) (first :: chain)).
    { rewrite Hl. cbn [s1 upd_field block_buffer]. rewrite Hby1, Hbk. cbn [chain_bytes].
      by rewrite (bytes_of_some _ _ _ Hk). }
    assert (Hpre1 : pre_upd s s1 b p).
    { pose proof (pre_upd_block s s b p first k' p Hpre0) as Hb. rewrite Hl in Hb.
      replace s1 with (s <| block_buffer := <[first := k']> (block_buffer s) |>
        <| pktbuf_buffer := <[b := p]> (pktbuf_buffer s) |>).
      - apply Hb; try done; [set_solver|by destruct Hu'|].
        rewrite Ht, <- Hby, Hl. done.
      - unfold s1, upd_field. f_equal. cbn. by apply insert_id. }
    cbn [chain_bytes] in Ht. rewrite (bytes_of_some _ _ _ Hk), length_app in Ht.
    pose proof (len_blk_bytes k Hu).
    destruct (set_cont_loop_spec s b first chain s1 p k' (size - blk_size k))
      as (s2 & Hr2 & Hpost2); [done|done|done|apply lookup_insert_eq|done| |cbn; lia|].
    { cbn [s1 upd_field block_buffer]. rewrite (agree_chain_bytes (block_buffer s)); [lia|].
      intros j Hj. apply lookup_insert_ne. set_solver. }
    change (blk_size k') with (blk_size k) in Hr2, Hpost2.
    replace (blk_size k + (size - blk_size k)) with size in Hpost2 by lia.
    destruct (cont_end s s1 s2 b first p size (ref p) _ s1 _ Hwf Hr2 Hpost2 eq_refl Hby)
      as (s' & Hr' & Hpost).
    exists NET_ERR_OK, s'. split; [exact Hr'|]. by split.
Qed.

(** ** Copying between packets *)

Lemma blocks_left_move m l n l1 i l2 k d off c :
  at_pos m l n l1 i l2 k d off -> 0 <= c <= blk_size k - off ->
  (blocks_left m l (n + c) <= if (c =? blk_size k - off)%Z then length l2 else S (length l2))%nat.
Proof.
  intros Hat Hc. destruct (Z.eqb_spec c (blk_size k - off)) as [->|].
  - by eapply blocks_left_next.
  - rewrite (blocks_left_at m l (n + c) l1 i l2 k d (off + c)); [done|].
    destruct Hat as (-> & Hk & Hu & Hd & Ho & ->). split_and!; done || lia.
Qed.

Lemma at_pos_agree m m' l n l1 i l2 k d off :
  agree l m m' -> at_pos m l n l1 i l2 k d off -> at_pos m' l n l1 i l2 k d off.
Proof.
  intros Hag (-> & Hk & Hu & Hd & Ho & ->). split_and!; try done || lia.
  - rewrite Hag; [done|set_solver].
  - rewrite (agree_chain_bytes m m'); [done|]. intros j Hj. apply Hag. set_solver.
Qed.

Lemma agree_seek m m' l n : agree l m m' -> seek_to m' l n = seek_to m l n.
Proof.
  intros H. apply same_shape_seek. intros i Hi. unfold bytes_of. by rewrite H.
Qed.

(** One round: [c] bytes go from [sr] to [d]. *)
Lemma copy_round s d sr pd ps l1 i l2 k dd off l1' i' l2' k' ds off' c :
  pkt_wf s -> d <> sr -> live s d pd -> live s sr ps ->
  at_pos (block_buffer s) (blk_list pd) (pos pd) l1 i l2 k dd off ->
  at_pos (block_buffer s) (blk_list ps) (pos ps) l1' i' l2' k' ds off' ->
  0 < c <= blk_size k - off -> c <= blk_size k' - off' ->
  let data := take (Z.to_nat c) (drop (Z.to_nat (pos ps)) (chain_bytes (block_buffer s) (blk_list ps))) in
  exists s1 pd1 s2 ps2,
    acc_read sr c s = Ret data s /\
    (acc_write d data;; move_forward d c) s = Ret () s1 /\
    move_forward sr c s1 = Ret () s2 /\
    acc_post s d pd c (splice (Z.to_nat (pos pd)) data (chain_bytes (block_buffer s) (blk_list pd))) s1 pd1 /\
    acc_post s1 sr ps c (chain_bytes (block_buffer s) (blk_list ps)) s2 ps2 /\
    same_shape (blk_list pd) (block_buffer s) (block_buffer s1) /\
    agree (blk_list ps) (block_buffer s) (block_buffer s1) /\
    block_buffer s2 = block_buffer s1.
Proof.
  intros Hwf Hne Hpd Hps Hatd Hats Hcd Hcs data.
  pose proof Hwf as (_ & _ & _ & _ & _ & Hbuf & _).
  pose proof (Hbuf sr ps Hps) as (_ & Hchs & _ & Hts & Hposs & _).
  pose proof Hats as (_ & _ & Hus & _ & Hoffs & Hns). pose proof Hps as [Hpsb _].
  assert (Hmax : c <= len (chain_bytes (block_buffer s) (blk_list ps)) - pos ps).
  { pose proof Hats as (Hl & Hk & _). rewrite Hl at 1. rewrite chain_bytes_app. cbn.
    rewrite (bytes_of_some _ _ _ Hk), !length_app. pose proof (len_blk_bytes k' Hus). lia. }
  assert (Hld : len data = c) by (unfold data; rewrite length_take, length_drop; lia).
  assert (Hdb : are_bytes data) by (by apply Forall_take, Forall_drop, are_bytes_chain).
  destruct (write_round s d pd l1 i l2 k dd off data) as (s1 & pd1 & Hr1 & Hpost1 & Hsh); try done.
  { lia. }
  rewrite Hld in Hr1, Hpost1. pose proof Hpost1 as (Hu1 & _).
  pose proof (upd_wf _ _ _ _ Hwf Hu1) as Hwf1.
  assert (Hps1 : live s1 sr ps) by (apply (upd_live _ _ _ _ _ _ Hu1); right; by split).
  assert (Hag : agree (blk_list ps) (block_buffer s) (block_buffer s1))
    by (by eapply upd_agree).
  destruct (move_round s1 sr ps l1' i' l2' k' ds off' c) as (s2 & ps2 & Hr2 & Hpost2 & Hbb2); try done.
  { by eapply at_pos_agree. }
  { lia. }
  rewrite (agree_chain_bytes _ _ _ Hag) in Hpost2.
  exists s1, pd1, s2, ps2. split_and!; try done.
  eapply acc_read_at; [done|by apply (Hbuf sr)|exact Hats|lia].
Qed.

Lemma copy_loop_spec fuel s d sr pd ps size :
  pkt_wf s -> d <> sr -> live s d pd -> live s sr ps -> 0 <= size ->
  size <= total_size pd - pos pd -> size <= total_size ps - pos ps ->
  (0 < size -> (blocks_left (block_buffer s) (blk_list pd) (pos pd) +
                blocks_left (block_buffer s) (blk_list ps) (pos ps) <= fuel)%nat) ->
  let bd := chain_bytes (block_buffer s) (blk_list pd) in
  let bs := chain_bytes (block_buffer s) (blk_list ps) in
  exists s', copy_loop fuel d sr size s = Ret () s' /\ pkt_wf s' /\
    has_view s' d (View (splice (Z.to_nat (pos pd))
      (take (Z.to_nat size) (drop (Z.to_nat (pos ps)) bs)) bd) (pos pd + size) (ref pd)) /\
    has_view s' sr (View bs (pos ps + size) (ref ps)) /\ views_kept [d; sr] s s'.
Proof.
  intros Hwf Hne. revert s pd ps size Hwf. induction fuel as [|fuel IH];
    intros s pd ps size Hwf Hpd Hps Hsz Hd Hs Hf bd bs.
  all: destruct (decide (size = 0)) as [->|Hpos];
    [exists s; split; [done|]; change (take (Z.to_nat 0) _) with (@nil Z);
     rewrite splice_nil, !Z.add_0_r; split_and!; [done|by exists pd|by exists ps|done]|].
  all: destruct (pos_bounds s d pd Hwf Hpd) as [Hpd1 Htd]; destruct (pos_bounds s sr ps Hwf Hps) as [Hps1 Hts].
  all: pose proof Hwf as (_ & _ & _ & _ & _ & Hbuf & _).
  all: pose proof (Hbuf d pd Hpd) as (_ & Hchd & _); pose proof (Hbuf sr ps Hps) as (_ & Hchs & _).
  all: destruct (at_pos_exists _ _ (pos pd) Hchd) as (l1 & i & l2 & k & dd & off & Hatd); [lia|].
  all: destruct (at_pos_exists _ _ (pos ps) Hchs) as (l1' & i' & l2' & k' & ds & off' & Hats); [lia|].
  all: rewrite (blocks_left_at _ _ _ _ _ _ _ _ _ Hatd), (blocks_left_at _ _ _ _ _ _ _ _ _ Hats) in Hf.
  { lia. }
  pose proof Hatd as (_ & _ & _ & _ & Hod & _). pose proof Hats as (_ & _ & _ & _ & Hos & _).
  pose proof Hpd as [Hpdb _]. pose proof Hps as [Hpsb _].
  unfold copy_loop; fold copy_loop. replace (size =? 0) with false by lia.
  mstep by (eapply curr_blk_remain_at; [done|by apply (Hbuf d)|exact Hatd]).
  mstep by (eapply curr_blk_remain_at; [done|by apply (Hbuf sr)|exact Hats]).
  set (rd := blk_size k - off). set (rs := blk_size k' - off').
  assert (0 < rd /\ 0 < rs) as [Hrd0 Hrs0] by (unfold rd, rs; lia).
  set (c0 := if rs <? rd then rs else rd). set (c := if size <? c0 then size else c0).
  assert (Hc : 0 < c <= rd /\ c <= rs /\ c <= size /\ (c = size \/ c = rd \/ c = rs)).
  { unfold c, c0. destruct (Z.ltb_spec rs rd), (Z.ltb_spec size rs), (Z.ltb_spec size rd); lia. }
  clearbody c. clear c0.
  destruct (copy_round s d sr pd ps l1 i l2 k dd off l1' i' l2' k' ds off' c)
    as (s1 & pd1 & s2 & ps2 & Hrd & Hw & Hm & Hp1 & Hp2 & Hsh & Hag & Hbb); try done; [lia..|].
  mstep by exact Hrd. rewrite (mbind_ret2 _ _ _ _ _ _ Hw). mstep by exact Hm.
  fold bd in Hp1, Htd. fold bs in Hp1, Hp2, Hts.
  set (data := take (Z.to_nat c) (drop (Z.to_nat (pos ps)) bs)) in *.
  assert (Hld : len data = c) by (unfold data; rewrite length_take, length_drop; lia).
  destruct (acc_post_state _ _ _ _ _ _ _ Hwf Hpd Hp1) as (Hwf1 & Hpd1' & Ht1);
    [rewrite length_splice; [done|lia]|].
  assert (Hps1' : live s1 sr ps)
    by (pose proof Hp1 as (Hu1 & _); apply (upd_live _ _ _ _ _ _ Hu1); by right).
  destruct (acc_post_state _ _ _ _ _ _ _ Hwf1 Hps1' Hp2) as (Hwf2 & Hps2 & Ht2);
    [by rewrite (agree_chain_bytes _ _ _ Hag)|].
  pose proof Hp1 as (Hu1 & Hl1 & Hr1 & Hn1 & Hb1). pose proof Hp2 as (Hu2 & Hl2 & Hr2 & Hn2 & Hb2).
  assert (Hpd2 : live s2 d pd1) by (apply (upd_live _ _ _ _ _ _ Hu2); by right).
  destruct (IH s2 pd1 ps2 (size - c)) as (s3 & Hr3 & Hwf3 & Hvd & Hvs & Hk3); try done; [lia..| |].
  { intros Hm'. rewrite Hbb, Hl1, Hl2, Hn1, Hn2.
    unfold blocks_left. rewrite (same_shape_seek _ _ _ _ Hsh), (agree_seek _ _ _ _ Hag).
    fold (blocks_left (block_buffer s) (blk_list pd) (pos pd + c)).
    fold (blocks_left (block_buffer s) (blk_list ps) (pos ps + c)).
    pose proof (blocks_left_move _ _ _ _ _ _ _ _ _ c Hatd ltac:(lia)) as Hd'.
    pose proof (blocks_left_move _ _ _ _ _ _ _ _ _ c Hats ltac:(lia)) as Hs'. fold rd in Hd'. fold rs in Hs'.
    destruct (Z.eqb_spec c rd), (Z.eqb_spec c rs); lia. }
  exists s3. split; [done|]. split; [done|]. rewrite Hb2 in Hvs, Hvd. rewrite Hbb, Hb1 in Hvd.
  rewrite Hn1, Hn2, Hr1 in Hvd. rewrite Hn2, Hr2 in Hvs.
  split_and!.
  - replace (pos pd + c + (size - c)) with (pos pd + size) in Hvd by lia.
    replace (splice (Z.to_nat (pos pd)) (take (Z.to_nat size) (drop (Z.to_nat (pos ps)) bs)) bd)
      with (splice (Z.to_nat (pos pd + c)) (take (Z.to_nat (size - c)) (drop (Z.to_nat (pos ps + c)) bs))
        (splice (Z.to_nat (pos pd)) data bd)); [done|].
    rewrite <- (splice_step (pos pd) c (take (Z.to_nat size) (drop (Z.to_nat (pos ps)) bs)) bd);
      [|lia|rewrite length_take, length_drop; lia|lia].
    rewrite take_take, Nat.min_l by lia. f_equal.
    rewrite skipn_firstn_comm, drop_drop. f_equal; [lia|]. f_equal. lia.
  - by replace (pos ps + c + (size - c)) with (pos ps + size) in Hvs by lia.
  - etransitivity; [|exact Hk3]. transitivity s1.
    + eapply views_kept_mono; [|by eapply upd_views]. set_solver.
    + eapply views_kept_mono; [|by eapply (upd_views s1)]. set_solver.
Qed.

(** Copying between packets.  [pktbuf_copy dest src size] writes the [size]
    bytes at the position of [src] over those at the position of [dest],
    whatever the block boundaries of the two, and advances both positions; it
    fails with [NET_ERR_SIZE], changing nothing, when either packet has fewer
    bytes left. *)
Lemma pktbuf_copy_ok s d sr bd nd rd bs ns rs size :
  pkt_wf s -> d <> sr -> has_view s d (View bd nd rd) -> has_view s sr (View bs ns rs) ->
  0 < size ->
  exists e s', pktbuf_copy (Some d) (Some sr) size s = Ret e s' /\
    if (len bd - nd <? size) || (len bs - ns <? size) then e = NET_ERR_SIZE /\ s' = s
    else e = NET_ERR_OK /\ pkt_wf s' /\
      has_view s' d (View (splice (Z.to_nat nd)
        (take (Z.to_nat size) (drop (Z.to_nat ns) bs)) bd) (nd + size) rd) /\
      has_view s' sr (View bs (ns + size) rs) /\ views_kept [d; sr] s s'.
Proof.
  intros Hwf Hne (pd & Hpd & [= -> -> ->]) (ps & Hps & [= -> -> ->]) Hs. unfold pktbuf_copy.
  replace (size <? 0) with false by lia. replace (size =? 0) with false by lia.
  destruct (pos_bounds s d pd Hwf Hpd) as [Hpd1 Htd]. destruct (pos_bounds s sr ps Hwf Hps) as [Hps1 Hts].
  pose proof Hwf as (_ & _ & _ & _ & _ & Hbuf & _).
  pose proof (Hbuf d pd Hpd) as (Hrd & _). pose proof (Hbuf sr ps Hps) as (Hrs & _).
  pose proof Hpd as [Hpdb _]. pose proof Hps as [Hpsb _].
  mstep by (by apply load_buf_ret). rewrite (proj2 (negb_true_iff _)) by lia. mstep.
  mstep by (by apply load_buf_ret). rewrite (proj2 (negb_true_iff _)) by lia. mstep.
  unfold total_blk_remain. rewrite <- Htd, <- Hts.
  destruct ((total_size pd - pos pd <? size) || (total_size ps - pos ps <? size)) eqn:E.
  { by eexists _, _. }
  apply orb_false_iff in E as [E1%Z.ltb_ge E2%Z.ltb_ge].
  destruct (copy_loop_spec (acc_fuel pd + acc_fuel ps) s d sr pd ps size) as (s' & Hr & Hpost);
    try done; [lia| |].
  { intros _. pose proof (acc_fuel_enough s pd (pos pd)). pose proof (acc_fuel_enough s ps (pos ps)). lia. }
  exists NET_ERR_OK, s'. split; [by mstep by exact Hr|done].
Qed.
