(* ===== verification/PktbufFrame.v ===== *)
(** * What the packet operations leave alone

    The protocol layers keep a pointer into the first block of a packet (its
    header) across calls that move the access position, compute a checksum or
    resize the packet.  [keeps R m] says that a function only makes changes of
    the kind [R]; two relations on the pool, [shape] and [stored], say which
    calls leave such a pointer valid and which leave the bytes behind it. *)

From S2P Require Import Prelude Tools Nlist Mblock Pktbuf PktbufSpec PktbufChain PktbufOps.

Definition keeps {S A} (R : S -> S -> Prop) (m : M S A) : Prop :=
  forall s a s', m s = Ret a s' -> R s s'.

Lemma keeps_ret {S A} (R : relation S) `{!Reflexive R} (a : A) : keeps R (mret a).
Proof. by intros s ? ? [= _ <-]. Qed.

Lemma keeps_stuck {S A} (R : relation S) : keeps R (@stuck S A).
Proof. by intros s ? ? [=]. Qed.

Lemma keeps_get {S} (R : relation S) `{!Reflexive R} : keeps R get.
Proof. by intros s ? ? [= _ <-]. Qed.

Lemma keeps_gets {S A} (R : relation S) `{!Reflexive R} (f : S -> A) : keeps R (gets f).
Proof. by intros s ? ? [= _ <-]. Qed.

Lemma keeps_deref {S A} (R : relation S) `{!Reflexive R} (o : option A) : keeps R (deref o).
Proof. destruct o; [apply keeps_ret|apply keeps_stuck]. done. Qed.

Lemma keeps_bind {S A B} (R : relation S) `{!Transitive R} (m : M S A) (f : A -> M S B) :
  keeps R m -> (forall a, keeps R (f a)) -> keeps R (m ≫= f).
Proof.
  intros Hm Hf s b s' H. unfold mbind, M_bind in H. destruct (m s) as [a s1|] eqn:E; [|done].
  etransitivity; [by eapply Hm|by eapply Hf].
Qed.

Lemma keeps_if {S A} (R : relation S) (c : bool) (m1 m2 : M S A) :
  keeps R m1 -> keeps R m2 -> keeps R (if c then m1 else m2).
Proof. by destruct c. Qed.

Lemma keeps_when {S} (R : relation S) `{!Reflexive R} c (m : M S unit) :
  keeps R m -> keeps R (when c m).
Proof. intros. destruct c; [done|]. by apply keeps_ret. Qed.

Lemma keeps_option {S A B} (R : relation S) (o : option B) (m1 : B -> M S A) (m2 : M S A) :
  (forall b, keeps R (m1 b)) -> keeps R m2 -> keeps R (match o with Some b => m1 b | None => m2 end).
Proof. by destruct o. Qed.

Lemma keeps_list {S A B} (R : relation S) (l : list B) (m1 : M S A) (m2 : B -> list B -> M S A) :
  keeps R m1 -> (forall x l, keeps R (m2 x l)) ->
  keeps R (match l with [] => m1 | x :: l => m2 x l end).
Proof. by destruct l. Qed.

Lemma keeps_nat {S A} (R : relation S) (n : nat) (m1 : M S A) (m2 : nat -> M S A) :
  keeps R m1 -> (forall n, keeps R (m2 n)) -> keeps R (match n with O => m1 | Datatypes.S n => m2 n end).
Proof. by destruct n. Qed.

Create HintDb frame.
#[export] Hint Resolve keeps_ret keeps_stuck keeps_get keeps_gets keeps_deref keeps_when : frame.

(** Splits a function into its commands; the hints close the known ones. *)
Ltac keep := repeat first
  [ solve [eauto with frame typeclass_instances]
  | apply keeps_bind; [tc_solve| |intros ?]
  | apply keeps_if | apply keeps_option; [intros ?|] | apply keeps_list; [|intros ? ?]
  | apply keeps_when; [tc_solve|]
  | lazymatch goal with |- keeps _ (match ?x with (_, _) => _ end) => destruct x end ].

(** ** Calls that move the access position or write bytes *)

(** The chains of all packets, and where each block's data begins and ends. *)
Definition shape (s s' : pkt_state) : Prop :=
  (forall b, blk_list <$> pktbuf_buffer s' !! b = blk_list <$> pktbuf_buffer s !! b) /\
  (forall i, (fun k => (blk_size k, blk_data k)) <$> block_buffer s' !! i =
             (fun k => (blk_size k, blk_data k)) <$> block_buffer s !! i).

#[global] Instance shape_refl : Reflexive shape.
Proof. by split. Qed.
#[global] Instance shape_trans : Transitive shape.
Proof. intros s1 s2 s3 [H1 H2] [H3 H4]. split; intros; congruence. Qed.

Lemma shape_load_blk i : keeps shape (load_blk i).
Proof. unfold load_blk. keep. Qed.
Lemma shape_load_buf b : keeps shape (load_buf b).
Proof. unfold load_buf. keep. Qed.
#[export] Hint Resolve shape_load_blk shape_load_buf : frame.

Lemma shape_store_buf b f :
  (forall p, blk_list (f p) = blk_list p) -> keeps shape (store_buf b f).
Proof.
  intros Hf s a s' H. unfold store_buf, load_buf in H. unfold mbind, M_bind in H. cbn in H.
  destruct (pktbuf_buffer s !! b) as [p|] eqn:E; [|done]. injection H as _ <-.
  split; [|done]. intros b'. cbn. destruct (decide (b' = b)) as [->|].
  - rewrite lookup_insert_eq, E. cbn. by rewrite Hf.
  - by rewrite lookup_insert_ne.
Qed.

Lemma shape_store_blk i f :
  (forall k, blk_size (f k) = blk_size k /\ blk_data (f k) = blk_data k) -> keeps shape (store_blk i f).
Proof.
  intros Hf s a s' H. unfold store_blk, load_blk in H. unfold mbind, M_bind in H. cbn in H.
  destruct (block_buffer s !! i) as [k|] eqn:E; [|done]. injection H as _ <-.
  split; [done|]. intros j. cbn. destruct (decide (j = i)) as [->|].
  - rewrite lookup_insert_eq, E. cbn. by destruct (Hf k) as [-> ->].
  - by rewrite lookup_insert_ne.
Qed.
#[export] Hint Extern 1 (keeps shape (store_buf _ _)) => apply shape_store_buf; done : frame.
#[export] Hint Extern 1 (keeps shape (store_blk _ _)) => apply shape_store_blk; done : frame.

Lemma shape_blk_write i off bs : keeps shape (blk_write i off bs).
Proof. unfold blk_write. keep. Qed.
Lemma shape_blk_read i off n : keeps shape (blk_read i off n).
Proof. unfold blk_read. keep. Qed.
#[export] Hint Resolve shape_blk_write shape_blk_read : frame.

Lemma shape_dbg_assert c : keeps shape (dbg_assert c).
Proof. unfold dbg_assert. keep. Qed.
Lemma shape_curr_blk_remain b : keeps shape (curr_blk_remain b).
Proof. unfold curr_blk_remain. keep. Qed.
Lemma shape_reset_acc b : keeps shape (pktbuf_reset_acc b).
Proof. unfold pktbuf_reset_acc. keep. Qed.
Lemma shape_move_forward b n : keeps shape (move_forward b n).
Proof. unfold move_forward. keep. Qed.
Lemma shape_acc_write b bs : keeps shape (acc_write b bs).
Proof. unfold acc_write. keep. Qed.
Lemma shape_acc_read b n : keeps shape (acc_read b n).
Proof. unfold acc_read. keep. Qed.
#[export] Hint Resolve shape_dbg_assert shape_curr_blk_remain shape_reset_acc shape_move_forward
  shape_acc_write shape_acc_read : frame.

Lemma shape_write_loop fuel b src size : keeps shape (write_loop fuel b src size).
Proof. revert src size. induction fuel; intros; cbn [write_loop]; keep. Qed.
Lemma shape_fill_loop fuel b v size : keeps shape (fill_loop fuel b v size).
Proof. revert size. induction fuel; intros; cbn [fill_loop]; keep. Qed.
Lemma shape_seek_loop fuel b n : keeps shape (seek_loop fuel b n).
Proof. revert n. induction fuel; intros; cbn [seek_loop]; keep. Qed.
Lemma shape_read_loop fuel b n : keeps shape (read_loop fuel b n).
Proof. revert n. induction fuel; intros; cbn [read_loop]; keep. Qed.
Lemma shape_checksum_loop fuel b n sum off : keeps shape (checksum_loop fuel b n sum off).
Proof. revert n sum off. induction fuel; intros; cbn [checksum_loop]; keep. Qed.
#[export] Hint Resolve shape_write_loop shape_fill_loop shape_seek_loop shape_read_loop
  shape_checksum_loop : frame.

Lemma shape_write buf src n : keeps shape (pktbuf_write buf src n).
Proof. unfold pktbuf_write. keep. Qed.
Lemma shape_read buf d n : keeps shape (pktbuf_read buf d n).
Proof. unfold pktbuf_read. keep. Qed.
Lemma shape_fill buf v n : keeps shape (pktbuf_fill buf v n).
Proof. unfold pktbuf_fill. keep. Qed.
Lemma shape_seek buf n : keeps shape (pktbuf_seek buf n).
Proof. unfold pktbuf_seek. keep. Qed.
Lemma shape_checksum16 buf n sum c : keeps shape (pktbuf_checksum16 buf n sum c).
Proof. unfold pktbuf_checksum16. keep. Qed.

(** ** Calls that write no packet bytes *)

Definition stored (s s' : pkt_state) : Prop :=
  forall i, payload <$> block_buffer s' !! i = payload <$> block_buffer s !! i.

#[global] Instance stored_refl : Reflexive stored.
Proof. done. Qed.
#[global] Instance stored_trans : Transitive stored.
Proof. intros s1 s2 s3 H1 H2 i. congruence. Qed.

Lemma stored_load_blk i : keeps stored (load_blk i).
Proof. unfold load_blk. keep. Qed.
Lemma stored_load_buf b : keeps stored (load_buf b).
Proof. unfold load_buf. keep. Qed.
#[export] Hint Resolve stored_load_blk stored_load_buf : frame.

Lemma stored_store_buf b f : keeps stored (store_buf b f).
Proof.
  intros s a s' H. unfold store_buf, load_buf in H. unfold mbind, M_bind in H. cbn in H.
  destruct (pktbuf_buffer s !! b) as [p|] eqn:E; [|done]. by injection H as _ <-.
Qed.

Lemma stored_store_blk i f : (forall k, payload (f k) = payload k) -> keeps stored (store_blk i f).
Proof.
  intros Hf s a s' H. unfold store_blk, load_blk in H. unfold mbind, M_bind in H. cbn in H.
  destruct (block_buffer s !! i) as [k|] eqn:E; [|done]. injection H as _ <-.
  intros j. cbn. destruct (decide (j = i)) as [->|].
  - rewrite lookup_insert_eq, E. cbn. by rewrite Hf.
  - by rewrite lookup_insert_ne.
Qed.

Lemma stored_zoom_block_list {A} (m : M mblock_t A) : keeps stored (zoom block_list_lens m).
Proof. intros s a s' H. unfold zoom in H. by destruct (m _); simplify_eq. Qed.
Lemma stored_zoom_pktbuf_list {A} (m : M mblock_t A) : keeps stored (zoom pktbuf_list_lens m).
Proof. intros s a s' H. unfold zoom in H. by destruct (m _); simplify_eq. Qed.

#[export] Hint Resolve stored_store_buf stored_zoom_block_list stored_zoom_pktbuf_list : frame.
#[export] Hint Extern 1 (keeps stored (store_blk _ _)) => apply stored_store_blk; done : frame.

Lemma stored_dbg_assert c : keeps stored (dbg_assert c).
Proof. unfold dbg_assert. keep. Qed.
Lemma stored_reset_acc b : keeps stored (pktbuf_reset_acc b).
Proof. unfold pktbuf_reset_acc. keep. Qed.
Lemma stored_pktblock_free i : keeps stored (pktblock_free i).
Proof. unfold pktblock_free. keep. Qed.
#[export] Hint Resolve stored_dbg_assert stored_reset_acc stored_pktblock_free : frame.
Lemma stored_pktblock_free_list l : keeps stored (pktblock_free_list l).
Proof. induction l; cbn [pktblock_free_list]; keep. Qed.
Lemma stored_pktblock_alloc : keeps stored pktblock_alloc.
Proof. unfold pktblock_alloc. keep. Qed.
#[export] Hint Resolve stored_pktblock_free_list stored_pktblock_alloc : frame.
Lemma stored_alloc_loop fuel size front chain : keeps stored (pktblock_alloc_loop fuel size front chain).
Proof. revert size chain. induction fuel; intros; cbn [pktblock_alloc_loop]; keep. Qed.
#[export] Hint Resolve stored_alloc_loop : frame.
Lemma stored_alloc_list size front : keeps stored (pktblock_alloc_list size front).
Proof. unfold pktblock_alloc_list. keep. Qed.
Lemma stored_insert_last b chain : keeps stored (insert_blk_last b chain).
Proof. induction chain; cbn [insert_blk_last]; keep. Qed.
Lemma stored_insert_front b prev chain : keeps stored (insert_blk_front b prev chain).
Proof. revert prev. induction chain; intros; cbn [insert_blk_front]; keep. Qed.
#[export] Hint Resolve stored_alloc_list stored_insert_last stored_insert_front : frame.
Lemma stored_insert b chain l : keeps stored (pktbuf_insert_blk_list b chain l).
Proof. unfold pktbuf_insert_blk_list. keep. Qed.
Lemma stored_free_blocks b l : keeps stored (free_blocks_loop b l).
Proof. induction l; cbn [free_blocks_loop]; keep. Qed.
Lemma stored_find_tail total n l : keeps stored (find_tail total n l).
Proof. revert total. induction l; intros; cbn [find_tail]; keep. Qed.
Lemma stored_drop_blocks b total l : keeps stored (drop_blocks b total l).
Proof. revert total. induction l; intros; cbn [drop_blocks]; keep. Qed.
Lemma stored_tail_free i : keeps stored (curr_blk_tail_free i).
Proof. unfold curr_blk_tail_free. keep. Qed.
#[export] Hint Resolve stored_insert stored_free_blocks stored_find_tail stored_drop_blocks
  stored_tail_free : frame.
Lemma stored_resize_grow b p n : keeps stored (resize_grow b p n).
Proof. unfold resize_grow. keep. Qed.
Lemma stored_resize_shrink b p n : keeps stored (resize_shrink b p n).
Proof. unfold resize_shrink. keep. Qed.
#[export] Hint Resolve stored_resize_grow stored_resize_shrink : frame.
Lemma stored_resize buf n : keeps stored (pktbuf_resize buf n).
Proof. unfold pktbuf_resize. keep. Qed.

Lemma stored_blk_read i off n : keeps stored (blk_read i off n).
Proof. unfold blk_read. keep. Qed.
Lemma stored_curr_blk_remain b : keeps stored (curr_blk_remain b).
Proof. unfold curr_blk_remain. keep. Qed.
Lemma stored_move_forward b n : keeps stored (move_forward b n).
Proof. unfold move_forward. keep. Qed.
#[export] Hint Resolve stored_blk_read stored_curr_blk_remain stored_move_forward : frame.
Lemma stored_acc_read b n : keeps stored (acc_read b n).
Proof. unfold acc_read. keep. Qed.
#[export] Hint Resolve stored_acc_read : frame.
Lemma stored_checksum_loop fuel b n sum off : keeps stored (checksum_loop fuel b n sum off).
Proof. revert n sum off. induction fuel; intros; cbn [checksum_loop]; keep. Qed.
#[export] Hint Resolve stored_checksum_loop : frame.
Lemma stored_checksum16 buf n sum c : keeps stored (pktbuf_checksum16 buf n sum c).
Proof. unfold pktbuf_checksum16. keep. Qed.

(** ** Headers *)

Lemma front_shape s s' b i d n v :
  front s b i d n -> shape s s' -> has_view s' b v -> front s' b i d n.
Proof.
  intros (p & l & k & [Hp _] & Hl & Hk & Hd & Hn) [Hs1 Hs2] (p' & Hp' & _).
  specialize (Hs1 b). specialize (Hs2 i). destruct Hp' as [Hp' Hf'].
  rewrite Hp, Hp' in Hs1. rewrite Hk in Hs2. cbn in Hs1, Hs2.
  destruct (block_buffer s' !! i) as [k'|] eqn:Hk'; [|done]. cbn in Hs2. simplify_eq.
  exists p', l, k'. split_and!; [done|congruence|done|congruence|lia].
Qed.

Lemma front_le s b i d n m : front s b i d n -> m <= n -> front s b i d m.
Proof. intros (p & l & k & ? & ? & ? & ? & ?) Hm. exists p, l, k. split_and!; done || lia. Qed.

(** The packet's bytes from the start of its first block. *)
Lemma front_bytes s b i d n v :
  pkt_wf s -> has_view s b v -> front s b i d n ->
  exists p l k, live s b p /\ blk_list p = i :: l /\ block_buffer s !! i = Some k /\ blk_used k /\
    blk_data k = Some d /\ n <= blk_size k /\ i ∉ l /\
    v_bytes v = blk_bytes k ++ chain_bytes (block_buffer s) l.
Proof.
  intros Hwf (p & Hp & ->) (p' & l & k & Hp' & Hl & Hk & Hd & Hn).
  assert (p' = p) as -> by (destruct Hp, Hp'; congruence).
  pose proof Hwf as (_ & _ & _ & _ & _ & Hbuf & _). destruct (Hbuf b p Hp) as (_ & Hch & Hnd & _).
  rewrite Hl in Hch, Hnd. apply Forall_cons in Hch as [(k' & Hk' & Hu) _]. simplify_eq.
  apply NoDup_cons in Hnd as [Hni _].
  exists p, l, k. split_and!; try done. cbn. rewrite Hl. cbn. by rewrite (bytes_of_some _ _ _ Hk).
Qed.

Lemma pktbuf_data_front s b i d n :
  front s b i d n -> pktbuf_data (Some b) s = Ret (Some (i, d)) s.
Proof.
  intros (p & l & k & [Hp _] & Hl & Hk & Hd & _). unfold pktbuf_data. mstep by (by apply load_buf_ret).
  unfold pktbuf_first_blk. rewrite Hl. cbn [head]. mstep by (by apply load_blk_ret). by rewrite Hd.
Qed.

(** Reading a field of the header. *)
Lemma header_read s b i d n v off m :
  pkt_wf s -> has_view s b v -> front s b i d n -> 0 <= off -> 0 <= m -> off + m <= n ->
  blk_read i (d + off) m s = Ret (take (Z.to_nat m) (drop (Z.to_nat off) (v_bytes v))) s.
Proof.
  intros Hwf Hv Hf Ho Hm Hn.
  destruct (front_bytes s b i d n v Hwf Hv Hf) as (p & l & k & Hp & Hl & Hk & Hu & Hd & Hle & _ & ->).
  pose proof Hu as ((Hlp & _) & d' & Hd' & ? & ? & ?). simplify_eq.
  unfold blk_read. mstep by (by apply load_blk_ret).
  rewrite (proj2 (andb_true_iff _ _)); [|split; [apply andb_true_iff; lia|lia]].
  unfold mret, M_ret. f_equal. pose proof (len_blk_bytes k Hu) as Hlen.
  rewrite drop_app_le, take_app_le by (rewrite ?length_drop; lia).
  unfold blk_bytes. rewrite Hd, (take_drop_commute _ (Z.to_nat m) (Z.to_nat off)), take_take, Nat.min_l by lia.
  rewrite !take_drop_commute, drop_drop. f_equal; [lia|]. f_equal. lia.
Qed.

(** Writing a field of the header. *)
Lemma header_write s b i d n bs p0 r off v :
  pkt_wf s -> has_view s b (View bs p0 r) -> front s b i d n ->
  are_bytes v -> 0 <= off -> off + len v <= n ->
  exists s', blk_write i (d + off) v s = Ret () s' /\
    post s b s' (splice (Z.to_nat off) v bs) p0 r /\ front s' b i d n.
Proof.
  intros Hwf Hv Hf Hb Ho Hn.
  destruct (front_bytes s b i d n _ Hwf Hv Hf) as (p & l & k & Hp & Hl & Hk & Hu & Hd & Hle & Hni & Hby).
  cbn in Hby. pose proof Hu as ((Hlp & Hpb) & d' & Hd' & ? & ? & ?).
  assert (d' = d) as -> by congruence.
  set (k' := k <| payload := splice (Z.to_nat (d + off)) v (payload k) |>).
  set (s' := s <| block_buffer := <[i := k']> (block_buffer s) |>).
  assert (Hu' : blk_used k').
  { split; [split|by exists d]. - cbn. rewrite length_splice; lia.
    - cbn. by apply Forall_splice. }
  assert (Hbk : blk_bytes k' = splice (Z.to_nat off) v (blk_bytes k)).
  { unfold blk_bytes. change (blk_data k') with (blk_data k). change (blk_size k') with (blk_size k).
    rewrite Hd. cbn [k' upd_field payload]. rewrite Z2Nat.inj_add by lia. apply splice_segment; lia. }
  pose proof Hwf as (_ & _ & _ & _ & Hblk & Hbuf & _).
  destruct (Hbuf b p Hp) as (Hr & Hch & Hnd & Ht & Hpos & Hloc). rewrite Hl in Hch.
  destruct (chain_replace_first (block_buffer s) i l k') as [Hch' Hby']; [done| |done|].
  { by apply Forall_cons in Hch as [_ ?]. }
  assert (Hsh : same_shape (i :: l) (block_buffer s) (<[i := k']> (block_buffer s))).
  { intros j Hj. destruct (decide (j = i)) as [->|Hne].
    - rewrite (bytes_of_some _ _ _ Hk), lookup_insert_eq, Hk. erewrite bytes_of_some by apply lookup_insert_eq.
      by rewrite !len_blk_bytes.
    - unfold bytes_of. by rewrite lookup_insert_ne. }
  pose proof (len_blk_bytes k Hu) as Hlen.
  assert (Hbl : blk_size k <= len bs) by (rewrite Hby, length_app; lia).
  assert (Hbytes : chain_bytes (<[i := k']> (block_buffer s)) (i :: l) = splice (Z.to_nat off) v bs).
  { rewrite Hby', Hbk, Hby. symmetry.
    apply (splice_app_mid (Z.to_nat off) v [] (blk_bytes k)). rewrite <- Hlen in Hle. lia. }
  exists s'. assert (Hupd : upd s s' b p).
  { exists p. unfold s', upd_field; cbn [pktbuf_buffer pktbuf_list block_buffer block_list].
    split_and!; try done.
    - symmetry. apply insert_id. by destruct Hp.
    - apply dom_insert_lookup_L. eauto.
    - intros j kj [[<- <-]|[_ Hj]]%lookup_insert_Some; [by destruct Hu'|eauto].
    - intros j Hj. apply lookup_insert_ne. rewrite Hl in Hj. set_solver.
    - split_and!; try done; rewrite ?Hl; try done; try lia.
      + rewrite <- Hl in *. rewrite Hbytes, length_splice; [|lia]. rewrite Ht, Hl. cbn.
        by rewrite (bytes_of_some _ _ _ Hk), Hby.
      + by rewrite (same_shape_locate (block_buffer s)), <- Hl. }
  destruct Hv as (p2 & Hp2 & [= Hb2 -> ->]). assert (p2 = p) as -> by (destruct Hp, Hp2; congruence).
  split_and!.
  - unfold blk_write. mstep by (by apply load_blk_ret).
    rewrite (proj2 (andb_true_iff _ _)) by lia. by rewrite (store_blk_ret _ _ _ k).
  - split_and!; [by eapply upd_wf| |by eapply upd_views].
    pose proof (upd_view _ _ _ _ Hupd) as Hview. cbn in Hview. rewrite Hl, Hbytes in Hview. exact Hview.
  - exists p, l, k'. split_and!; [by eapply upd_self|done|apply lookup_insert_eq|done|done].
Qed.
