(* ===== verification/PktbufProps.v ===== *)
(** * Packet buffers: the properties of the operations

    The statements the protocol layers rely on, in terms of the byte string,
    the access position and the reference count of a packet, each with an
    instance on a small pool. *)

From S2P Require Import Prelude Tools Nlist Mblock Pktbuf PktbufSpec PktbufChain PktbufOps.

(** Adding a header to a packet.  [pktbuf_add_header] puts exactly [size]
    new bytes in front of the packet's bytes, in place or in new blocks, and
    resets the access position; when the pool has fewer than [size] free bytes
    it may fail with [NET_ERR_MEM] and then gives every block back, and a
    contiguous header larger than a block is refused with [NET_ERR_SIZE].
    Whatever happens, no block is lost or shared (the pool invariant holds) and
    no other packet changes. *)
Lemma pktbuf_add_header_spec s b bs n r size cont :
  pkt_wf s -> has_view s b (View bs n r) -> 0 < size ->
  exists e s', pktbuf_add_header (Some b) size cont s = Ret e s' /\
    add_header_post s b bs n r size cont e s'.
Proof. by apply pktbuf_add_header_ok. Qed.

(** Removing a header.  [pktbuf_remove_header] drops exactly the first
    [size] bytes of the packet and resets the access position, freeing the
    blocks that become empty; a request for more bytes than the packet has is
    refused with [NET_ERR_SIZE] and changes nothing.  The pool invariant holds
    afterwards and no other packet changes. *)
Lemma pktbuf_remove_header_spec s b bs n r size :
  pkt_wf s -> has_view s b (View bs n r) -> 0 < size ->
  exists e s', pktbuf_remove_header (Some b) size s = Ret e s' /\
    (if len bs <? size then e = NET_ERR_SIZE /\ s' = s
     else e = NET_ERR_OK /\ post s b s' (drop (Z.to_nat size) bs) 0 r).
Proof. by apply pktbuf_remove_header_ok. Qed.

(** Resizing a packet.  [pktbuf_resize] keeps the first [to_size] bytes of
    a packet that shrinks and all bytes of one that grows, extends it by
    exactly the missing bytes, and resets the access position; only a growing
    packet can fail, when the pool has too few free blocks, and then keeps its
    bytes.  The pool invariant holds afterwards and no other packet changes. *)
Lemma pktbuf_resize_spec s b bs n r to_size :
  pkt_wf s -> has_view s b (View bs n r) -> 0 <= to_size ->
  exists e s', pktbuf_resize (Some b) to_size s = Ret e s' /\
    (if to_size =? len bs then e = NET_ERR_OK /\ s' = s
     else if to_size <? len bs then
       e = NET_ERR_OK /\ post s b s' (take (Z.to_nat to_size) bs) 0 r
     else
       (e = NET_ERR_OK /\ exists ext, len ext = to_size - len bs /\ post s b s' (bs ++ ext) 0 r) \/
       (e = NET_ERR_MEM /\ free_bytes s < to_size - len bs /\ post s b s' bs n r)).
Proof. by apply pktbuf_resize_ok. Qed.

(** Allocating a packet.  [pktbuf_alloc size] returns a buffer that was
    free, holding exactly [size] bytes, at position 0, with one reference; or
    null, when no buffer is free or the pool has fewer than [size] free bytes,
    and then all blocks it took are back in the pool.  The pool invariant holds
    in both cases and no existing packet changes. *)
Lemma pktbuf_alloc_spec s size :
  pkt_wf s -> 0 <= size ->
  exists o s', pktbuf_alloc size s = Ret o s' /\
    match o with
    | Some b => (forall p, ~ live s b p) /\ (exists bs, len bs = size /\ post s b s' bs 0 1) /\
        (0 < size -> exists i d, front s' b i d (Z.min size PKTBUF_BLK_SIZE))
    | None => (free_list (pktbuf_list s) = [] \/ free_bytes s < size) /\
              pkt_wf s' /\ views_kept [] s s'
    end.
Proof. by apply pktbuf_alloc_ok. Qed.

(** C33: Freeing a packet.  [pktbuf_free] drops one reference; when it was the
    last one, every block of the packet and the buffer itself return to the
    pool, exactly once; otherwise the packet keeps its bytes.  The pool
    invariant holds afterwards and no other packet changes. *)
Theorem pktbuf_free_spec s b bs n r :
  pkt_wf s -> has_view s b (View bs n r) ->
  exists s', pktbuf_free (Some b) s = Ret () s' /\ pkt_wf s' /\ views_kept [b] s s' /\
    if r =? 1 then (forall q, ~ live s' b q) /\ b ∈ free_list (pktbuf_list s') /\
                   len bs <= free_bytes s' - free_bytes s
    else has_view s' b (View bs n (r - 1)).
Proof. by apply pktbuf_free_ok. Qed.

(** C34: What is written at a position is read back from it: after writing
    [src] at position [n] of a packet and seeking back to [n], reading the same
    number of bytes returns [src], whatever the block boundaries; the other
    bytes of the packet are unchanged, and so are all other packets. *)
Theorem pktbuf_write_read s b bs n r src :
  pkt_wf s -> has_view s b (View bs n r) -> are_bytes src ->
  0 <= n -> 0 < len src <= len bs - n ->
  exists s1 s2 s3,
    pktbuf_write (Some b) (Some src) (len src) s = Ret NET_ERR_OK s1 /\
    pktbuf_seek (Some b) n s1 = Ret NET_ERR_OK s2 /\
    pktbuf_read (Some b) true (len src) s2 = Ret (NET_ERR_OK, src) s3 /\
    post s b s3 (splice (Z.to_nat n) src bs) (n + len src) r.
Proof.
  intros Hwf Hv Hb Hn Hs.
  assert (Hlen : len (splice (Z.to_nat n) src bs) = len bs) by (rewrite length_splice; lia).
  destruct (pktbuf_write_ok s b bs n r src) as (e1 & s1 & Hr1 & H1); [done..|lia|].
  replace (len bs - n <? len src) with false in H1 by lia. destruct H1 as [-> (Hwf1 & Hv1 & Hk1)].
  destruct (pktbuf_seek_ok s1 b _ _ r n Hwf1 Hv1 Hn) as (e2 & s2 & Hr2 & H2).
  rewrite Hlen in H2. replace (len bs <? n) with false in H2 by lia.
  destruct H2 as [-> (Hwf2 & Hv2 & Hk2)].
  destruct (pktbuf_read_ok s2 b _ _ r (len src) Hwf2 Hv2) as (e3 & s3 & Hr3 & H3); [lia|].
  rewrite Hlen in H3. replace (len bs - n <? len src) with false in H3 by lia.
  destruct H3 as [-> (Hwf3 & Hv3 & Hk3)]. exists s1, s2, s3. rewrite Nat2Z.id in Hr3.
  split_and!; [done|done| |split_and!; [done|done|]].
  - rewrite Hr3. do 2 f_equal. unfold splice.
    rewrite drop_app_length' by (rewrite length_take; lia). by rewrite take_app_length.
  - transitivity s2; [by transitivity s1|done].
Qed.

(** C35: The checksum of a packet is the checksum of its bytes: from position
    [n], [pktbuf_checksum16] over any number of blocks gives what [checksum16]
    gives for the same bytes in one array (odd-sized blocks included), and
    moves the position behind them. *)
Theorem pktbuf_checksum16_spec s b bs n r size pre c :
  pkt_wf s -> has_view s b (View bs n r) -> 0 <= n -> 0 <= size <= len bs - n ->
  0 <= pre <= 65535 ->
  exists s', pktbuf_checksum16 (Some b) size pre c s =
      Ret (checksum16 0 (take (Z.to_nat size) (drop (Z.to_nat n) bs)) pre c) s' /\
    post s b s' bs (n + size) r.
Proof. by apply pktbuf_checksum16_ok. Qed.

(** Joining two packets.  [pktbuf_join dest src] appends the bytes of [src]
    to [dest] without copying them, frees the buffer [src] and resets the
    position of [dest]; the pool invariant holds afterwards and no other packet
    changes.  ([src] must have no other reference.) *)
Lemma pktbuf_join_spec s d sr bsd nd rd bss ns :
  pkt_wf s -> d <> sr -> has_view s d (View bsd nd rd) -> has_view s sr (View bss ns 1) ->
  exists s', pktbuf_join (Some d) (Some sr) s = Ret NET_ERR_OK s' /\
    pkt_wf s' /\ has_view s' d (View (bsd ++ bss) 0 rd) /\ (forall q, ~ live s' sr q) /\
    views_kept [d; sr] s s'.
Proof. by apply pktbuf_join_ok. Qed.

(** Making a header contiguous.  [pktbuf_set_cont size] leaves the bytes of
    the packet unchanged, moves the first [size] of them into the first block
    (freeing the blocks that become empty) and resets the access position; it
    refuses, changing nothing, when the packet is shorter than [size] or [size]
    exceeds a block.  The pool invariant holds and no other packet changes. *)
Lemma pktbuf_set_cont_spec s b bs n r size :
  pkt_wf s -> has_view s b (View bs n r) -> 0 < size ->
  exists e s', pktbuf_set_cont (Some b) size s = Ret e s' /\
    if (size <=? len bs) && (size <=? PKTBUF_BLK_SIZE)
    then e = NET_ERR_OK /\ post s b s' bs 0 r /\ contiguous s' b size
    else e = NET_ERR_SIZE /\ s' = s.
Proof. by apply pktbuf_set_cont_ok. Qed.

(** Copying between packets.  [pktbuf_copy dest src size] writes the [size]
    bytes at the position of [src] over those at the position of [dest],
    whatever the block boundaries of the two, and advances both positions; it
    fails with [NET_ERR_SIZE], changing nothing, when either packet has fewer
    bytes left. *)
Lemma pktbuf_copy_spec s d sr bd nd rd bs ns rs size :
  pkt_wf s -> d <> sr -> has_view s d (View bd nd rd) -> has_view s sr (View bs ns rs) ->
  0 < size ->
  exists e s', pktbuf_copy (Some d) (Some sr) size s = Ret e s' /\
    if (len bd - nd <? size) || (len bs - ns <? size) then e = NET_ERR_SIZE /\ s' = s
    else e = NET_ERR_OK /\ pkt_wf s' /\
      has_view s' d (View (splice (Z.to_nat nd)
        (take (Z.to_nat size) (drop (Z.to_nat ns) bs)) bd) (nd + size) rd) /\
      has_view s' sr (View bs (ns + size) rs) /\ views_kept [d; sr] s s'.
Proof. by apply pktbuf_copy_ok. Qed.

(** ** Witnesses

    Two packets: the first has two blocks (8 and 3 bytes), the second one
    block (3 bytes); one block and one buffer are free. *)

Definition page : bytes := replicate 1024 7.

Definition demo_bufs : gmap nat pktbuf_t :=
  <[0%nat := PktBuf 11 [0; 1]%nat 1 0 (Some 0%nat) (Some 1000)]>
  (<[1%nat := PktBuf 3 [2]%nat 1 0 (Some 2%nat) (Some 0)]>
  (<[2%nat := PktBuf 0 [] 0 0 None None]> ∅)).

Definition demo_blks : blk_map :=
  <[0%nat := PktBlk 8 (Some 1000) page]>
  (<[1%nat := PktBlk 3 (Some 0) page]>
  (<[2%nat := PktBlk 3 (Some 0) page]>
  (<[3%nat := PktBlk 0 None page]> ∅))).

Definition demo : pkt_state :=
  PktState demo_blks (MBlock [3%nat]) demo_bufs (MBlock [2%nat]).

Lemma page_ok : len page = PKTBUF_BLK_SIZE /\ are_bytes page.
Proof. split; [done|]. apply Forall_replicate. done. Qed.

Lemma demo_live b p :
  live demo b p <->
    (b = 0%nat /\ p = PktBuf 11 [0; 1]%nat 1 0 (Some 0%nat) (Some 1000)) \/
    (b = 1%nat /\ p = PktBuf 3 [2]%nat 1 0 (Some 2%nat) (Some 0)).
Proof.
  unfold live, demo; cbn [pktbuf_buffer pktbuf_list free_list]. unfold demo_bufs.
  rewrite !lookup_insert_Some, lookup_empty. split.
  - intros [[[<- <-]|[? [[<- <-]|[? [[<- <-]|[? ?]]]]]] Hb]; [by left|by right|set_solver|done].
  - intros [[-> ->]|[-> ->]]; (split; [naive_solver|set_solver]).
Qed.

Lemma demo_blk_used i k :
  demo_blks !! i = Some k -> blk_ok k /\ ((i < 3)%nat -> blk_used k).
Proof.
  unfold demo_blks. rewrite !lookup_insert_Some, lookup_empty. pose proof page_ok.
  intros [[<- <-]|[? [[<- <-]|[? [[<- <-]|[? [[<- <-]|[? ?]]]]]]]]; try done.
  all: split; [done|]. all: intros; split; [done|]; cbn; eexists; split_and!; done || lia.
Qed.

Lemma demo_wf : pkt_wf demo.
Proof.
  split_and!; cbn [demo block_list pktbuf_list free_list block_buffer pktbuf_buffer].
  - apply NoDup_singleton.
  - apply NoDup_singleton.
  - intros i ->%list_elem_of_singleton. apply elem_of_dom. by eexists.
  - intros b ->%list_elem_of_singleton. apply elem_of_dom. by eexists.
  - intros i k Hk. by destruct (demo_blk_used i k Hk).
  - intros b p [[-> ->]|[-> ->]]%demo_live; split_and!; cbn; try done || lia.
    + constructor; [eexists; split; [done|]; eapply (demo_blk_used 0); [done|lia]|].
      constructor; [eexists; split; [done|]; eapply (demo_blk_used 1); [done|lia]|constructor].
    + apply NoDup_cons. split; [set_solver|apply NoDup_singleton].
    + constructor; [eexists; split; [done|]; eapply (demo_blk_used 2); [done|lia]|constructor].
    + apply NoDup_singleton.
  - intros b p [[-> ->]|[-> ->]]%demo_live; cbn; set_solver.
  - intros b b' p p' [[-> ->]|[-> ->]]%demo_live [[-> ->]|[-> ->]]%demo_live; cbn; set_solver.
  - intros i [k Hk]%elem_of_dom. unfold demo_blks in Hk. rewrite !lookup_insert_Some, lookup_empty in Hk.
    assert (i = 0 \/ i = 1 \/ i = 2 \/ i = 3)%nat as [-> | [-> | [-> | ->]]] by naive_solver.
    + right. eexists 0%nat, _. rewrite demo_live. split; [by left|set_solver].
    + right. eexists 0%nat, _. rewrite demo_live. split; [by left|set_solver].
    + right. eexists 1%nat, _. rewrite demo_live. split; [by right|set_solver].
    + left. set_solver.
Qed.

Definition sevens (n : nat) : bytes := replicate n 7.

Lemma demo_view0 : has_view demo 0 (View (sevens 11) 0 1).
Proof. eexists. split; [apply demo_live; by left|vm_compute; reflexivity]. Qed.

Lemma demo_view1 : has_view demo 1 (View (sevens 3) 0 1).
Proof. eexists. split; [apply demo_live; by right|vm_compute; reflexivity]. Qed.




Lemma pktbuf_free_spec_witness :
  exists s', pktbuf_free (Some 0%nat) demo = Ret () s' /\ pkt_wf s' /\ views_kept [0%nat] demo s' /\
    (forall q, ~ live s' 0 q) /\ 0%nat ∈ free_list (pktbuf_list s') /\
    11 <= free_bytes s' - free_bytes demo.
Proof. apply (pktbuf_free_spec demo 0 (sevens 11) 0 1 demo_wf demo_view0). Defined.

Lemma pktbuf_write_read_witness :
  exists s1 s2 s3,
    pktbuf_write (Some 0%nat) (Some [1; 2; 3; 4; 5; 6; 7; 8; 9]) 9 demo = Ret NET_ERR_OK s1 /\
    pktbuf_seek (Some 0%nat) 0 s1 = Ret NET_ERR_OK s2 /\
    pktbuf_read (Some 0%nat) true 9 s2 = Ret (NET_ERR_OK, [1; 2; 3; 4; 5; 6; 7; 8; 9]) s3 /\
    post demo 0 s3 (splice 0 [1; 2; 3; 4; 5; 6; 7; 8; 9] (sevens 11)) (0 + 9) 1.
Proof.
  apply (pktbuf_write_read demo 0 (sevens 11) 0 1 [1; 2; 3; 4; 5; 6; 7; 8; 9] demo_wf demo_view0).
  - repeat constructor; done.
  - lia.
  - cbn. lia.
Defined.

Lemma pktbuf_checksum16_spec_witness :
  exists s', pktbuf_checksum16 (Some 0%nat) 9 0 true demo =
      Ret (checksum16 0 (take 9 (drop 0 (sevens 11))) 0 true) s' /\
    post demo 0 s' (sevens 11) (0 + 9) 1.
Proof.
  apply (pktbuf_checksum16_spec demo 0 (sevens 11) 0 1 9 0 true demo_wf demo_view0); cbn; lia.
Defined.
