(* ===== verification/Sys.v ===== *)
(** * Semaphores of the network stack (wait.c, net/net_sys.c)

    The stack takes its semaphores from a static pool; a [sys_sem_t] is a
    pointer into it, an index here.  [spin_lock]/[spin_unlock] pairs delimit
    the sections that are atomic in this model.  Two calls leave the
    component: [task_wake], recorded in [wakeups] as the semaphore whose
    sleepers it addresses, and [task_sleep], a parameter of the functions that
    may block, which stands for what the other tasks do meanwhile. *)

From S2P Require Import Prelude.

(** ** wait.c *)

(** [struct semaphore] with the [waiters] of its wait queue. *)
Record semaphore := Sem { sem_count : Z; waiters : Z }.
#[global] Instance semaphore_settable : Settable semaphore :=
  fun r => Sem (sem_count r) (waiters r).

Definition wait_queue_init (s : semaphore) : semaphore := s <| waiters := 0 |>.

(** [None] is the [panic] on a negative count. *)
Definition sem_init (count : Z) : option semaphore :=
  if count <? 0 then None else Some (wait_queue_init (Sem count 0)).

(** One turn of the loop of [sem_timedwait]: the token is taken, or the task
    counts itself as a waiter and goes to sleep. *)
Definition sem_turn (s : semaphore) : semaphore * bool :=
  if sem_count s =? 0 then (s <| waiters := u32 (waiters s + 1) |>, false)
  else (s <| sem_count := sem_count s - 1 |>, true).

(** After [task_sleep] returned. *)
Definition sem_wakened (s : semaphore) : semaphore :=
  s <| waiters := u32 (waiters s - 1) |>.

(** [sem_post]; the flag says that [task_wake] is called. *)
Definition sem_post (s : semaphore) : semaphore * bool :=
  (s <| sem_count := sem_count s + 1 |>, negb (waiters s =? 0)).

(** ** net_sys.c, the RISC-V half *)

Definition NET_SYS_SEM_MAX : nat := 68.
Definition NET_TIME_TICKS_PER_MS : Z := 10000.

Record net_sys_sem := NetSysSem { sem : semaphore; used : bool }.
Record sys_state := SysState { sem_pool : list net_sys_sem; wakeups : list nat }.
#[global] Instance net_sys_sem_settable : Settable net_sys_sem :=
  fun r => NetSysSem (sem r) (used r).
#[global] Instance sys_state_settable : Settable sys_state :=
  fun r => SysState (sem_pool r) (wakeups r).

Abbreviation sys_sem_t := (option nat).
Abbreviation SYS_SEM_INVALID := (@None nat).

Definition net_sys_init : M sys_state Z :=
  modify (fun s => s <| sem_pool := map (fun e => e <| used := false |>) (sem_pool s) |>);;
  mret NET_ERR_OK.

Definition sem_pool_index (s : sys_sem_t) : M sys_state Z :=
  st ← get;
  mret match s with
       | Some i => if (i <? length (sem_pool st))%nat then Z.of_nat i else -1
       | None => -1
       end.

Definition set_sem (i : nat) (f : net_sys_sem -> net_sys_sem) : M sys_state unit :=
  modify (fun s => s <| sem_pool := alter f i (sem_pool s) |>).

(** The scan of [sys_sem_create] from index [i] on. *)
Fixpoint sem_create_loop (i : nat) (pool : list net_sys_sem) (initial_count : Z)
    : M sys_state sys_sem_t :=
  match pool with
  | [] => mret SYS_SEM_INVALID
  | e :: pool =>
      if negb (used e) then
        x ← deref (sem_init initial_count);
        set_sem i (fun _ => NetSysSem x true);;
        mret (Some i)
      else sem_create_loop (S i) pool initial_count
  end.

Definition sys_sem_create (initial_count : Z) : M sys_state sys_sem_t :=
  if initial_count <? 0 then mret SYS_SEM_INVALID
  else pool ← gets sem_pool; sem_create_loop 0 pool initial_count.

Definition sys_sem_free (s : sys_sem_t) : M sys_state unit :=
  match s with
  | None => mret ()
  | Some i =>
      index ← sem_pool_index s;
      when (0 <=? index) (set_sem (Z.to_nat index) (fun e => e <| used := false |>))
  end.

Definition sys_sem_valid (s : sys_sem_t) : M sys_state bool :=
  index ← sem_pool_index s;
  if index <? 0 then mret false
  else e ← (st ← get; deref (sem_pool st !! Z.to_nat index)); mret (used e).

Definition load_sem (i : nat) : M sys_state semaphore :=
  st ← get; e ← deref (sem_pool st !! i); mret (sem e).

Definition store_sem (i : nat) (x : semaphore) : M sys_state unit :=
  set_sem i (fun e => e <| sem := x |>).

Definition task_wake (i : nat) : M sys_state unit :=
  modify (fun s => s <| wakeups := wakeups s ++ [i] |>).

Definition sys_sem_notify (s : sys_sem_t) : M sys_state unit :=
  valid ← sys_sem_valid s;
  match s, valid with
  | Some i, true =>
      x ← load_sem i;
      when (sem_count x <? INT_MAX) (store_sem i (x <| sem_count := sem_count x + 1 |>));;
      when (negb (waiters x =? 0)) (task_wake i)
  | _, _ => mret ()
  end.

(** The calls that may block run on the state of the whole stack, of which
    the semaphore pool is the part [L]. *)
Section blocking.
Context {T : Type} (L : lens T sys_state).

(** [task_sleep sem deadline]: the other tasks run; negative when the
    deadline passed. *)
Context (task_sleep : nat -> Z -> M T Z).

Definition WAIT_FOREVER : Z := 2 ^ 64 - 1.

(** [fuel] bounds the number of times the task is woken without a token. *)
Fixpoint sem_timedwait (fuel : nat) (i : nat) (deadline : Z) : M T Z :=
  x ← zoom L (load_sem i);
  let '(x, taken) := sem_turn x in
  zoom L (store_sem i x);;
  if (taken : bool) then mret 0
  else
    result ← task_sleep i deadline;
    x ← zoom L (load_sem i);
    zoom L (store_sem i (sem_wakened x));;
    if result <? 0 then mret (-1)
    else match fuel with
         | O => stuck
         | S fuel => sem_timedwait fuel i deadline
         end.

Definition sem_wait (fuel : nat) (i : nat) : M T Z := sem_timedwait fuel i WAIT_FOREVER.

(** [mtime] is the value of the machine timer, [r_mtime()]. *)
Definition sys_sem_wait (fuel : nat) (mtime : Z) (s : sys_sem_t) (timeout_ms : Z) : M T Z :=
  valid ← zoom L (sys_sem_valid s);
  match s, valid with
  | Some i, true =>
      if timeout_ms <? 0 then
        x ← zoom L (load_sem i);
        if 0 <? sem_count x then
          zoom L (store_sem i (x <| sem_count := sem_count x - 1 |>));; mret NET_ERR_OK
        else mret NET_ERR_TMO
      else if timeout_ms =? 0 then
        r ← sem_wait fuel i; mret (if r =? 0 then NET_ERR_OK else NET_ERR_SYS)
      else
        r ← sem_timedwait fuel i (u64 (mtime + u64 (timeout_ms * NET_TIME_TICKS_PER_MS)));
        mret (if r =? 0 then NET_ERR_OK else NET_ERR_TMO)
  | _, _ => mret NET_ERR_PARAM
  end.

End blocking.

Definition sys_time_curr (mtime : Z) : Z := mtime / NET_TIME_TICKS_PER_MS.

(** The elapsed time and the new [*previous]. *)
Definition sys_time_goes (mtime previous : Z) : Z * Z :=
  let current := sys_time_curr mtime in
  let elapsed := u64 (current - previous) in
  (if INT_MAX <? elapsed then INT_MAX else elapsed, current).
