(* ===== verification/Fixq.v ===== *)
(** * Bounded message queues (net/fixq.c)

    A queue is a ring of [size] slots guarded by two semaphores: [send_sem]
    counts the free slots and [recv_sem] the messages.  A queue is a part of
    a larger state; [qref] says how to reach it there. *)

From S2P Require Import Prelude Sys.

(** ** Definitions *)

Record fixq_t (A : Type) := Fixq {
  size : Z; buf : list (option A); in_ : Z; out : Z; count : Z;
  send_sem : sys_sem_t; recv_sem : sys_sem_t }.
Arguments Fixq {A}. Arguments size {A}. Arguments buf {A}. Arguments in_ {A}.
Arguments out {A}. Arguments count {A}. Arguments send_sem {A}. Arguments recv_sem {A}.
#[global] Instance fixq_settable {A} : Settable (fixq_t A) := fun r =>
  Fixq (size r) (buf r) (in_ r) (out r) (count r) (send_sem r) (recv_sem r).

(** A pointer to a queue inside the state [T]. *)
Record qref (T A : Type) := QRef {
  q_get : T -> option (fixq_t A);
  q_set : fixq_t A -> T -> T }.
Arguments QRef {T A}. Arguments q_get {T A}. Arguments q_set {T A}.

Section queue.
Context {T A : Type} (L : lens T sys_state) (Q : qref T A).
Context (task_sleep : nat -> Z -> M T Z) (fuel : nat) (mtime : Z).

Definition load_q : M T (fixq_t A) := s ← get; deref (q_get Q s).
Definition store_q (f : fixq_t A -> fixq_t A) : M T unit :=
  q ← load_q; modify (q_set Q (f q)).

(** [mem] is the [void *] array the caller passes. *)
Definition fixq_init (mem : option (list (option A))) (sz : Z) : M T Z :=
  match mem with
  | None => mret NET_ERR_PARAM
  | Some mem =>
      if sz <=? 0 then mret NET_ERR_PARAM
      else
        store_q (fun q => Fixq sz mem 0 0 0 SYS_SEM_INVALID SYS_SEM_INVALID);;
        x ← zoom L (sys_sem_create sz);
        store_q (fun q => q <| send_sem := x |>);;
        match x with
        | None => mret NET_ERR_MEM
        | Some _ =>
            y ← zoom L (sys_sem_create 0);
            store_q (fun q => q <| recv_sem := y |>);;
            match y with
            | None =>
                zoom L (sys_sem_free x);;
                store_q (fun q => q <| send_sem := SYS_SEM_INVALID |>);;
                mret NET_ERR_MEM
            | Some _ => mret NET_ERR_OK
            end
        end
  end.

Definition store_slot (q : fixq_t A) (i : Z) (v : option A) : M T (list (option A)) :=
  if (0 <=? i) && (i <? len (buf q)) then mret (<[Z.to_nat i := v]> (buf q)) else stuck.

Definition fixq_put (msg : A) : M T unit :=
  q ← load_q;
  b ← store_slot q (in_ q) (Some msg);
  store_q (fun q => q <| buf := b |> <| in_ := Z.rem (in_ q + 1) (size q) |>
                      <| count := count q + 1 |>).

Definition fixq_send (msg : option A) (timeout : Z) : M T Z :=
  match msg with
  | None => mret NET_ERR_PARAM
  | Some msg =>
      q ← load_q;
      if (timeout <? 0) && (count q =? size q) then mret NET_ERR_FULL
      else
        error ← sys_sem_wait L task_sleep fuel mtime (send_sem q) timeout;
        if error <? 0 then
          mret (if (timeout <? 0) && (error =? NET_ERR_TMO) then NET_ERR_FULL else error)
        else
          fixq_put msg;;
          zoom L (sys_sem_notify (recv_sem q));;
          mret NET_ERR_OK
  end.

(** The slot read under the lock, [None] when the queue is empty. *)
Definition fixq_take : M T (option (option A)) :=
  q ← load_q;
  if count q =? 0 then mret None
  else
    msg ← deref (if (0 <=? out q) then buf q !! Z.to_nat (out q) else None);
    store_q (fun q => q <| out := Z.rem (out q + 1) (size q) |>
                        <| count := count q - 1 |>);;
    mret (Some msg).

Definition fixq_recv (timeout : Z) : M T (option A) :=
  q ← load_q;
  if (timeout <? 0) && (count q =? 0) then mret None
  else
    error ← sys_sem_wait L task_sleep fuel mtime (recv_sem q) timeout;
    if error <? 0 then mret None
    else
      msg ← fixq_take;
      match msg with
      | None => mret None
      | Some msg => zoom L (sys_sem_notify (send_sem q));; mret msg
      end.

Definition fixq_wake_receiver : M T unit :=
  q ← load_q; zoom L (sys_sem_notify (recv_sem q)).

Definition fixq_destroy : M T unit :=
  q ← load_q; zoom L (sys_sem_free (send_sem q));; zoom L (sys_sem_free (recv_sem q)).

Definition fixq_count : M T Z := q ← load_q; mret (count q).

End queue.

(** ** The queue as a list *)

(** The semaphore [i] of the pool, in use with count [c]. *)
Definition sem_at (y : sys_state) (i : nat) (c : Z) : Prop :=
  exists w, sem_pool y !! i = Some (NetSysSem (Sem c w) true).

(** The semaphore [i] is in use and can be posted. *)
Definition sem_live (y : sys_state) (i : nat) : Prop := exists c, sem_at y i c /\ 0 <= c <= INT_MAX.

(** The part of the pool a queue does not own. *)
Definition sems_kept (own : list nat) (y y' : sys_state) : Prop :=
  forall i, i ∉ own -> sem_pool y' !! i = sem_pool y !! i.

Definition ring_ok {A} (q : fixq_t A) (l : list A) : Prop :=
  0 < size q <= INT_MAX /\ len (buf q) = size q /\
  0 <= out q < size q /\ in_ q = (out q + count q) mod size q /\
  count q = len l /\ len l <= size q /\
  forall k x, l !! k = Some x ->
    buf q !! Z.to_nat ((out q + Z.of_nat k) mod size q) = Some (Some x).

(** The queue [q] holds the messages [l]; it owns the semaphores [own]. *)
Definition fixq_ok {A} (y : sys_state) (q : fixq_t A) (own : list nat) (l : list A) : Prop :=
  ring_ok q l /\
  exists i j rc, own = [i; j] /\ i <> j /\ send_sem q = Some i /\ recv_sem q = Some j /\
    sem_at y i (size q - len l) /\ sem_at y j rc /\ len l <= rc <= INT_MAX.

Lemma mod_add_inj n a b c :
  0 <= b < n -> 0 <= c < n -> (a + b) mod n = (a + c) mod n -> b = c.
Proof.
  intros Hb Hc E. assert (E' : (b - c) mod n = 0).
  { replace (b - c) with (a + b - (a + c)) by lia. rewrite Zminus_mod, E, Z.sub_diag. done. }
  apply Z.mod_divide in E' as [k Hk]; [|lia]. assert (k = 0) by nia. lia.
Qed.

Lemma ring_put {A} (q : fixq_t A) l x :
  ring_ok q l -> len l < size q ->
  ring_ok (q <| buf := <[Z.to_nat (in_ q) := Some x]> (buf q) |>
             <| in_ := Z.rem (in_ q + 1) (size q) |> <| count := count q + 1 |>) (l ++ [x]).
Proof.
  intros (Hs & Hb & Ho & Hi & Hc & Hl & Hget) Hlt.
  assert (Hin : 0 <= in_ q < size q) by (rewrite Hi; apply Z.mod_pos_bound; lia).
  split_and!; cbn; rewrite ?length_insert, ?length_app; try done; try (cbn; lia).
  - rewrite Z.rem_mod_nonneg, Hi by lia. rewrite Z.add_mod_idemp_l by lia. f_equal. lia.
  - intros k y Hk. apply lookup_app_Some in Hk as [Hk|[Hk1 Hk2]].
    + pose proof (lookup_lt_Some _ _ _ Hk). rewrite list_lookup_insert_ne; [by apply Hget|].
      assert (0 <= (out q + Z.of_nat k) mod size q < size q) by (apply Z.mod_pos_bound; lia).
      rewrite Hi. intros E. apply Z2Nat.inj in E; [|apply Z.mod_pos_bound; lia|lia].
      assert (Hkc : 0 <= Z.of_nat k < count q) by lia. clear -E Hs Ho Hlt Hc Hkc.
      apply (mod_add_inj (size q) (out q) (count q) (Z.of_nat k)) in E; lia.
    + apply list_lookup_singleton_Some in Hk2 as [? ->].
      replace (out q + Z.of_nat k) with (out q + count q) by lia. rewrite <- Hi.
      apply list_lookup_insert_eq. lia.
Qed.

Lemma ring_take {A} (q : fixq_t A) x l :
  ring_ok q (x :: l) ->
  buf q !! Z.to_nat (out q) = Some (Some x) /\
  ring_ok (q <| out := Z.rem (out q + 1) (size q) |> <| count := count q - 1 |>) l.
Proof.
  intros (Hs & Hb & Ho & Hi & Hc & Hl & Hget). cbn in Hc, Hl. split.
  - specialize (Hget 0%nat x eq_refl). cbn in Hget. by rewrite Z.add_0_r, Z.mod_small in Hget.
  - assert (Z.rem (out q + 1) (size q) = (out q + 1) mod size q) as E by (apply Z.rem_mod_nonneg; lia).
    split_and!; cbn; rewrite ?E; try done; try lia; try (apply Z.mod_pos_bound; lia).
    + rewrite Z.add_mod_idemp_l, Hi by lia. f_equal. lia.
    + intros k y Hk. rewrite Z.add_mod_idemp_l by lia. rewrite <- (Hget (S k) y Hk).
      do 2 f_equal. f_equal. lia.
Qed.

(** What the state promises about the queue in it and the semaphore pool. *)
Class QueueIn {T A} (L : lens T sys_state) (Q : qref T A) : Prop := {
  q_get_set : forall q s, is_Some (q_get Q s) -> q_get Q (q_set Q q s) = Some q;
  q_get_sys : forall y s, q_get Q (lset L y s) = q_get Q s;
  q_set_set : forall q q' s, q_set Q q (q_set Q q' s) = q_set Q q s;
  q_set_sys : forall q y s, q_set Q q (lset L y s) = lset L y (q_set Q q s);
  sys_q_set : forall q s, lget L (q_set Q q s) = lget L s;
  sys_get_set : forall y s, lget L (lset L y s) = y;
  sys_set_get : forall s, lset L (lget L s) s = s;
  sys_set_set : forall y y' s, lset L y (lset L y' s) = lset L y s }.

Lemma sem_valid y i c : sem_at y i c -> sys_sem_valid (Some i) y = Ret true y.
Proof.
  intros [w Hi]. unfold sys_sem_valid, sem_pool_index. mstep.
  rewrite (proj2 (Nat.ltb_lt _ _)) by (by eapply lookup_lt_Some).
  rewrite (proj2 (Z.ltb_ge _ _)) by lia. 
  mstep by (mstep; apply deref_ret; rewrite Nat2Z.id; exact Hi). done.
Qed.

Lemma load_sem_at y i c w :
  sem_pool y !! i = Some (NetSysSem (Sem c w) true) -> load_sem i y = Ret (Sem c w) y.
Proof. intros Hi. unfold load_sem. mstep. mstep by (by apply deref_ret). done. Qed.

(** [store_sem] on a semaphore of the pool. *)
Lemma store_sem_at y i c x c' w' :
  sem_at y i c -> x = Sem c' w' ->
  exists y', store_sem i x y = Ret () y' /\ sem_at y' i c' /\ sems_kept [i] y y'.
Proof.
  intros [w Hi] ->. eexists. split; [reflexivity|]. split.
  - exists w'. cbn. by rewrite list_lookup_alter_eq, Hi.
  - intros j Hj. cbn. apply list_lookup_alter_ne. set_solver.
Qed.

Lemma notify_at y i c :
  sem_at y i c -> c <= INT_MAX ->
  exists y' c', sys_sem_notify (Some i) y = Ret () y' /\ sem_at y' i c' /\
    c' = Z.min INT_MAX (c + 1) /\ sems_kept [i] y y'.
Proof.
  intros Hi Hc. unfold sys_sem_notify. mstep by (by eapply sem_valid).
  pose proof Hi as [w Hw]. mstep by (by eapply load_sem_at). cbn [sem_count waiters].
  assert (Hwake : forall y0, exists y', when (negb (w =? 0)) (task_wake i) y0 = Ret () y' /\
    sem_pool y' = sem_pool y0).
  { intros y0. destruct (negb _); cbn; by eexists. }
  destruct (Z.ltb_spec c INT_MAX).
  - destruct (store_sem_at y i c ((Sem c w) <| sem_count := c + 1 |>) (c + 1) w Hi eq_refl)
      as (y1 & H1 & Hs & Hk). destruct (Hwake y1) as (y2 & H2 & E).
    exists y2, (c + 1). split_and!; [cbn [when]; by mstep by exact H1| | lia|].
    + unfold sem_at. by rewrite E.
    + intros j Hj. rewrite E. by apply Hk.
  - destruct (Hwake y) as (y2 & H2 & E). exists y2, c.
    split_and!; [cbn [when]; by mstep| unfold sem_at; by rewrite E | lia|].
    intros j Hj. by rewrite E.
Qed.

Lemma sem_at_kept own y y' i c : sems_kept own y y' -> i ∉ own -> sem_at y i c -> sem_at y' i c.
Proof. intros Hk Hi [w Hw]. exists w. by rewrite Hk. Qed.

Lemma sem_live_kept own y y' i : sems_kept own y y' -> i ∉ own -> sem_live y i -> sem_live y' i.
Proof. intros Hk Hi (c & Hc & ?). exists c. split; [by eapply sem_at_kept|done]. Qed.

Ltac sem_frame := eapply sem_at_kept; [eassumption| |eassumption]; set_solver.

Lemma sems_kept_trans own own' y y1 y2 :
  sems_kept own y y1 -> sems_kept own' y1 y2 -> sems_kept (own ++ own') y y2.
Proof. intros H1 H2 i Hi. rewrite H2, H1; set_solver. Qed.

(** A queue keeps its contents when others use their own semaphores. *)
Lemma fixq_ok_kept {A} y y' (q : fixq_t A) own own' l :
  fixq_ok y q own l -> sems_kept own' y y' -> own ## own' -> fixq_ok y' q own l.
Proof.
  intros (Hr & i & j & rc & -> & ? & ? & ? & Hi & Hj & ?) Hk Hd. split; [done|].
  exists i, j, rc. split_and!; try done; try lia; by sem_frame.
Qed.

Lemma fixq_ok_live {A} y (q : fixq_t A) own l i : fixq_ok y q own l -> i ∈ own -> sem_live y i.
Proof.
  intros ((? & _ & _ & _ & _ & ? & _) & a & b & rc & -> & _ & _ & _ & Ha & Hb & ?) Hi.
  apply elem_of_cons in Hi as [-> | ->%list_elem_of_singleton]; [exists (size q - len l)|exists rc]; (split; [done|lia]).
Qed.

Section try_ops.
Context {T A : Type} {L : lens T sys_state} {Q : qref T A} `{!QueueIn L Q}.
Context (task_sleep : nat -> Z -> M T Z) (fuel : nat) (mtime : Z).

Lemma trywait_at s i c :
  sem_at (lget L s) i c -> 0 <= c ->
  exists e y', sys_sem_wait L task_sleep fuel mtime (Some i) (-1) s = Ret e
      (if 0 <? c then lset L y' s else s) /\
    if 0 <? c then e = NET_ERR_OK /\ sem_at y' i (c - 1) /\ sems_kept [i] (lget L s) y'
    else e = NET_ERR_TMO.
Proof.
  intros Hi Hc. unfold sys_sem_wait. pose proof Hi as [w Hw].
  mstep by (apply zoom_ret; by eapply sem_valid). rewrite sys_set_get. cbv iota beta.
  change (-1 <? 0) with true. cbv iota.
  mstep by (apply zoom_ret; by eapply load_sem_at). rewrite sys_set_get. cbn [sem_count].
  destruct (Z.ltb_spec 0 c).
  - destruct (store_sem_at (lget L s) i c ((Sem c w) <| sem_count := c - 1 |>) (c - 1) w Hi eq_refl)
      as (y' & H1 & H2 & H3). exists NET_ERR_OK, y'. split; [|done].
    by mstep by (apply zoom_ret; exact H1).
  - by exists NET_ERR_TMO, (lget L s).
Qed.

Lemma load_q_at s q : q_get Q s = Some q -> load_q Q s = Ret q s.
Proof. intros Hq. unfold load_q. mstep. by apply deref_ret. Qed.

Lemma store_q_at s q f : q_get Q s = Some q -> store_q Q f s = Ret () (q_set Q (f q) s).
Proof. intros Hq. unfold store_q. by mstep by (by apply load_q_at). Qed.

(** [fixq_send] without waiting appends to a queue that is not full. *)
Lemma fixq_send_try s q own l x :
  q_get Q s = Some q -> fixq_ok (lget L s) q own l ->
  exists e s', fixq_send L Q task_sleep fuel mtime (Some x) (-1) s = Ret e s' /\
    if len l =? size q then e = NET_ERR_FULL /\ s' = s
    else e = NET_ERR_OK /\ exists q' y', s' = q_set Q q' (lset L y' s) /\
      fixq_ok y' q' own (l ++ [x]) /\ sems_kept own (lget L s) y' /\ size q' = size q.
Proof.
  intros Hq (Hr & i & j & rc & -> & Hij & Hsi & Hsj & Hi & Hj & Hrc). pose proof Hr as Hr'.
  destruct Hr as (Hs & Hb & Ho & Hin & Hc & Hl & _).
  unfold fixq_send. mstep by (by apply load_q_at). change (-1 <? 0) with true. rewrite Hc. cbn [andb].
  destruct (Z.eqb_spec (len l) (size q)) as [E|E]; [by eexists _, _|]. rewrite Hsi.
  destruct (trywait_at s i _ Hi) as (e & y1 & H1 & Hpost); [lia|].
  rewrite (proj2 (Z.ltb_lt 0 _)) in H1, Hpost by lia. destruct Hpost as (-> & Hi1 & Hk1).
  mstep by exact H1. cbn [NET_ERR_OK Z.ltb Z.compare].
  assert (Hq1 : q_get Q (lset L y1 s) = Some q) by (by rewrite q_get_sys).
  pose proof (ring_put q l x Hr' ltac:(lia)) as Hr2.
  set (q2 := q <| buf := _ |> <| in_ := _ |> <| count := _ |>) in Hr2.
  assert (Hin' : 0 <= in_ q < size q) by (rewrite Hin; apply Z.mod_pos_bound; lia).
  assert (H2 : fixq_put Q x (lset L y1 s) = Ret () (q_set Q q2 (lset L y1 s))).
  { unfold fixq_put. mstep by (by apply load_q_at). unfold store_slot.
    rewrite (proj2 (andb_true_iff _ _)) by lia. mstep. by erewrite store_q_at. }
  mstep by exact H2. rewrite Hsj.
  destruct (notify_at y1 j rc) as (y2 & c2 & H3 & Hj2 & Hc2 & Hk2);
    [by sem_frame|lia|].
  eexists _, _. split.
  { mstep by (apply zoom_ret; rewrite sys_q_set, sys_get_set; exact H3). reflexivity. }
  split; [done|]. exists q2, y2.
  rewrite q_set_sys, sys_set_set, <- q_set_sys. split; [done|]. split_and!; [| |done].
  - split; [done|]. exists i, j, c2. split_and!; try done; rewrite ?length_app; try (cbn; lia).
    cbn [q2 upd_field size]. replace (size q - _) with (size q - len l - 1) by (cbn; lia).
    by sem_frame.
  - by eapply (sems_kept_trans [i] [j]).
Qed.

(** [fixq_recv] without waiting takes the oldest message. *)
Lemma fixq_recv_try s q own l :
  q_get Q s = Some q -> fixq_ok (lget L s) q own l ->
  exists s', fixq_recv L Q task_sleep fuel mtime (-1) s = Ret (head l) s' /\
    match l with
    | [] => s' = s
    | x :: l' => exists q' y', s' = q_set Q q' (lset L y' s) /\
        fixq_ok y' q' own l' /\ sems_kept own (lget L s) y' /\ size q' = size q
    end.
Proof.
  intros Hq (Hr & i & j & rc & -> & Hij & Hsi & Hsj & Hi & Hj & Hrc). pose proof Hr as Hr'.
  destruct Hr as (Hs & Hb & Ho & Hin & Hc & Hl & _).
  unfold fixq_recv. mstep by (by apply load_q_at). change (-1 <? 0) with true. rewrite Hc. cbn [andb].
  destruct l as [|x l]; [by eexists|]. cbn [length] in *. rewrite (proj2 (Z.eqb_neq _ _)) by lia.
  rewrite Hsj. destruct (trywait_at s j _ Hj) as (e & y1 & H1 & Hpost); [lia|].
  rewrite (proj2 (Z.ltb_lt 0 _)) in H1, Hpost by lia. destruct Hpost as (-> & Hj1 & Hk1).
  mstep by exact H1. cbn [NET_ERR_OK Z.ltb Z.compare].
  assert (Hq1 : q_get Q (lset L y1 s) = Some q) by (by rewrite q_get_sys).
  destruct (ring_take q x l Hr') as [Hx Hr2].
  set (q2 := q <| out := _ |> <| count := _ |>) in Hr2.
  assert (H2 : fixq_take Q (lset L y1 s) = Ret (Some (Some x)) (q_set Q q2 (lset L y1 s))).
  { unfold fixq_take. mstep by (by apply load_q_at). rewrite (proj2 (Z.eqb_neq _ _)) by lia.
    rewrite (proj2 (Z.leb_le _ _)) by lia. mstep by (by apply deref_ret).
    mstep by (by erewrite store_q_at). done. }
  mstep by exact H2. rewrite Hsi.
  destruct (notify_at y1 i (size q - Z.of_nat (S (length l)))) as (y2 & c2 & H3 & Hi2 & Hc2 & Hk2);
    [by sem_frame|lia|].
  eexists. split.
  { mstep by (apply zoom_ret; rewrite sys_q_set, sys_get_set; exact H3). reflexivity. }
  exists q2, y2. rewrite q_set_sys, sys_set_set, <- q_set_sys. split; [done|]. split_and!; [| |done].
  - split; [done|]. exists i, j, (rc - 1). split_and!; try done; try lia.
    + cbn [q2 upd_field size]. by replace (size q - len l) with c2 by lia.
    + by sem_frame.
  - intros k Hk.
    eapply (sems_kept_trans [j] [i]); [done|done|set_solver].
Qed.
End try_ops.
