(* ===== verification/FixqConc.v ===== *)
(** * Concurrent senders and receivers of a queue

    A fixed set of tasks calls [fixq_send], [fixq_recv] and
    [fixq_wake_receiver] on one queue.  Each [spin_lock]/[spin_unlock] section
    of the source is one atomic step; between two sections any other task may
    run.  A task that finds its semaphore at 0 goes to sleep and runs again
    after a [task_wake] addressed to that semaphore, or after its deadline. *)

From S2P Require Import Prelude Sys Fixq.

Section conc.
Context {A : Type}.

(** Where a task is, with the arguments its call still needs. *)
Inductive pc :=
| Idle
| SendStart (msg : A) (timeout : Z)
| SendWait (msg : A) (timeout : Z)
| SendAsleep (msg : A) (timeout : Z)
| SendWoken (msg : A) (timeout : Z) (result : Z)
| SendPut (msg : A)
| SendNotify
| RecvStart (timeout : Z)
| RecvWait (timeout : Z)
| RecvAsleep (timeout : Z)
| RecvWoken (timeout : Z) (result : Z)
| RecvTake
| RecvNotify
| WakeReceiver.

(** The two semaphores, as the channels tasks sleep on. *)
Inductive chan := SendChan | RecvChan.

(** The queue, its semaphores, and the history of messages put and taken. *)
Record shared := Shared {
  ring : fixq_t A; ssem : semaphore; rsem : semaphore;
  sent : list A; received : list A }.
#[local] Instance shared_settable : Settable shared :=
  fun r => Shared (ring r) (ssem r) (rsem r) (sent r) (received r).

Definition ring_ref : qref shared A :=
  QRef (fun s => Some (ring s)) (fun q s => s <| ring := q |>).

(** [sys_sem_notify] on a semaphore in use; the flag says that [task_wake] is
    called. *)
Definition notify (x : semaphore) : semaphore * bool :=
  (if sem_count x <? INT_MAX then x <| sem_count := sem_count x + 1 |> else x,
   negb (waiters x =? 0)).

Definition notify_chan (c : chan) : M shared (option chan) :=
  s ← get;
  let '(x, w) := notify (match c with SendChan => ssem s | RecvChan => rsem s end) in
  modify (fun s => match c with
                   | SendChan => s <| ssem := x |>
                   | RecvChan => s <| rsem := x |>
                   end);;
  mret (if (w : bool) then Some c else None).

(** The [timeout_ms < 0] branch of [sys_sem_wait]: was the token taken? *)
Definition trywait (x : semaphore) : semaphore * bool :=
  if 0 <? sem_count x then (x <| sem_count := sem_count x - 1 |>, true) else (x, false).

Definition wait_turn (timeout : Z) (x : semaphore) : semaphore * bool :=
  if timeout <? 0 then trywait x else sem_turn x.

(** One atomic section of a task: where it goes next, and the channel whose
    sleepers it addresses. *)
Definition exec (p : pc) : M shared (pc * option chan) :=
  match p with
  | Idle | SendAsleep _ _ | RecvAsleep _ => stuck
  | SendStart msg timeout =>
      q ← gets ring;
      mret (if (timeout <? 0) && (count q =? size q) then Idle else SendWait msg timeout, None)
  | SendWait msg timeout =>
      x ← gets ssem;
      let '(x, taken) := wait_turn timeout x in
      modify (fun s => s <| ssem := x |>);;
      mret (if (taken : bool) then SendPut msg
            else if timeout <? 0 then Idle else SendAsleep msg timeout, None)
  | SendWoken msg timeout result =>
      modify (fun s => s <| ssem := sem_wakened (ssem s) |>);;
      if result <? 0 then mret (Idle, None)
      else
        x ← gets ssem;
        let '(x, taken) := sem_turn x in
        modify (fun s => s <| ssem := x |>);;
        mret (if (taken : bool) then SendPut msg else SendAsleep msg timeout, None)
  | SendPut msg =>
      fixq_put ring_ref msg;;
      modify (fun s => s <| sent := sent s ++ [msg] |>);;
      mret (SendNotify, None)
  | SendNotify => w ← notify_chan RecvChan; mret (Idle, w)
  | RecvStart timeout =>
      q ← gets ring;
      mret (if (timeout <? 0) && (count q =? 0) then Idle else RecvWait timeout, None)
  | RecvWait timeout =>
      x ← gets rsem;
      let '(x, taken) := wait_turn timeout x in
      modify (fun s => s <| rsem := x |>);;
      mret (if (taken : bool) then RecvTake
            else if timeout <? 0 then Idle else RecvAsleep timeout, None)
  | RecvWoken timeout result =>
      modify (fun s => s <| rsem := sem_wakened (rsem s) |>);;
      if result <? 0 then mret (Idle, None)
      else
        x ← gets rsem;
        let '(x, taken) := sem_turn x in
        modify (fun s => s <| rsem := x |>);;
        mret (if (taken : bool) then RecvTake else RecvAsleep timeout, None)
  | RecvTake =>
      msg ← fixq_take ring_ref;
      match msg with
      | None => mret (Idle, None)
      | Some msg =>
          m ← deref msg;
          modify (fun s => s <| received := received s ++ [m] |>);;
          mret (RecvNotify, None)
      end
  | RecvNotify => w ← notify_chan SendChan; mret (Idle, w)
  | WakeReceiver => w ← notify_chan RecvChan; mret (Idle, w)
  end.

(** A task asleep on a channel, and the same task made ready with the result
    [r] of [task_sleep]. *)
Definition asleep_on (c : chan) (p : pc) : bool :=
  match c, p with
  | SendChan, SendAsleep _ _ | RecvChan, RecvAsleep _ => true
  | _, _ => false
  end.

Definition ready (r : Z) (p : pc) : pc :=
  match p with
  | SendAsleep msg timeout => SendWoken msg timeout r
  | RecvAsleep timeout => RecvWoken timeout r
  | p => p
  end.

Definition sleep_timeout (p : pc) : Z :=
  match p with SendAsleep _ t | RecvAsleep t => t | _ => 0 end.

Definition start_of (p : pc) : bool :=
  match p with SendStart _ _ | RecvStart _ | WakeReceiver => true | _ => false end.

Record conf := Conf { tasks : list pc; mem : shared }.

(** [task_wake] on the channel [w] makes one of its sleepers ready, if there
    is one. *)
Inductive wakes : option chan -> list pc -> list pc -> Prop :=
| wakes_nobody ts : wakes None ts ts
| wakes_none c ts : Forall (fun p => asleep_on c p = false) ts -> wakes (Some c) ts ts
| wakes_one c ts u p : ts !! u = Some p -> asleep_on c p = true ->
    wakes (Some c) ts (<[u := ready 0 p]> ts).

Inductive step : conf -> conf -> Prop :=
| step_call ts m t p : ts !! t = Some Idle -> start_of p = true ->
    step (Conf ts m) (Conf (<[t := p]> ts) m)
| step_exec ts m t p p' w m' ts' :
    ts !! t = Some p -> exec p m = Ret (p', w) m' -> wakes w (<[t := p']> ts) ts' ->
    step (Conf ts m) (Conf ts' m')
| step_timeout ts m t p : ts !! t = Some p -> asleep_on SendChan p || asleep_on RecvChan p = true ->
    0 < sleep_timeout p -> step (Conf ts m) (Conf (<[t := ready (-1) p]> ts) m).

Definition reachable (c0 c : conf) : Prop := rtc step c0 c.

(** The queue as [fixq_init] leaves it, with [n] idle tasks. *)
Definition init_conf (n : nat) (mem : list (option A)) : conf :=
  Conf (replicate n Idle)
    (Shared (Fixq (len mem) mem 0 0 0 None None) (Sem (len mem) 0) (Sem 0 0) [] []).

(** ** Counting tasks *)

Fixpoint tally (f : pc -> bool) (ts : list pc) : Z :=
  match ts with
  | [] => 0
  | p :: ts => Z.b2z (f p) + tally f ts
  end.

Lemma tally_insert f ts t p p' :
  ts !! t = Some p -> tally f (<[t := p']> ts) = tally f ts - Z.b2z (f p) + Z.b2z (f p').
Proof.
  revert t. induction ts as [|x ts IH]; intros [|t] Ht; [done|done| |].
  - cbn in *. simplify_eq. lia.
  - change (<[S t := p']> (x :: ts)) with (x :: <[t := p']> ts). cbn [tally].
    rewrite (IH t) by done. lia.
Qed.

Lemma tally_bounds f ts : 0 <= tally f ts <= len ts.
Proof. induction ts as [|x ts IH]; cbn; [lia|]. destruct (f x); cbn; lia. Qed.

Lemma tally_pos f ts t p : ts !! t = Some p -> f p = true -> 1 <= tally f ts.
Proof.
  intros Ht Hf. revert t Ht. induction ts as [|x ts IH]; intros [|t] Ht; cbn in *; simplify_eq.
  - rewrite Hf. pose proof (tally_bounds f ts). cbn. lia.
  - apply IH in Ht. destruct (f x); cbn; lia.
Qed.

Lemma tally_witness f ts : 1 <= tally f ts -> exists t p, ts !! t = Some p /\ f p = true.
Proof.
  induction ts as [|x ts IH]; cbn; [lia|]. intros H. destruct (f x) eqn:E.
  - by exists 0%nat, x.
  - destruct IH as (t & p & ? & ?); [cbn in H; lia|]. by exists (S t), p.
Qed.

Lemma tally_zero f ts : Forall (fun p => f p = false) ts -> tally f ts = 0.
Proof. induction 1 as [|x ts E _ IH]; cbn; [done|]. rewrite E. cbn. lia. Qed.

(** The groups of tasks the invariant counts. *)
Definition putting (p : pc) : bool := match p with SendPut _ => true | _ => false end.
Definition sent_not_posted (p : pc) : bool := match p with SendNotify => true | _ => false end.
Definition taking (p : pc) : bool := match p with RecvTake => true | _ => false end.
Definition taken_not_posted (p : pc) : bool := match p with RecvNotify => true | _ => false end.

Definition woken_on (c : chan) (p : pc) : bool :=
  match c, p with
  | SendChan, SendWoken _ _ r | RecvChan, RecvWoken _ r => 0 <=? r
  | _, _ => false
  end.

Definition waiter_on (c : chan) (p : pc) : bool :=
  match c, p with
  | SendChan, (SendAsleep _ _ | SendWoken _ _ _) | RecvChan, (RecvAsleep _ | RecvWoken _ _) => true
  | _, _ => false
  end.

Definition chan_sem (c : chan) (m : shared) : semaphore :=
  match c with SendChan => ssem m | RecvChan => rsem m end.

(** The waiters are counted, and while a task sleeps every token, but for
    [k] of them, has a woken task that has not run yet. *)
Definition chan_ok (k : Z) (c : chan) (ts : list pc) (m : shared) : Prop :=
  0 <= sem_count (chan_sem c m) <= INT_MAX /\
  waiters (chan_sem c m) = tally (waiter_on c) ts /\
  (1 <= tally (asleep_on c) ts -> sem_count (chan_sem c m) <= tally (woken_on c) ts + k).

(** The tokens that a [task_wake] still to come accounts for. *)
Definition owed (w : option chan) (c : chan) : Z :=
  match w, c with
  | Some SendChan, SendChan | Some RecvChan, RecvChan => 1
  | _, _ => 0
  end.

Record conf_ok (w : option chan) (c : conf) : Prop := ConfOk {
  ok_tasks : len (tasks c) < 2 ^ 32 - 1;
  ok_ring : exists l, ring_ok (ring (mem c)) l /\ sent (mem c) = received (mem c) ++ l;
  ok_free : sem_count (ssem (mem c)) + tally putting (tasks c) + count (ring (mem c)) +
    tally taken_not_posted (tasks c) = size (ring (mem c));
  ok_full : count (ring (mem c)) <=
    sem_count (rsem (mem c)) + tally taking (tasks c) + tally sent_not_posted (tasks c);
  ok_send : chan_ok (owed w SendChan) SendChan (tasks c) (mem c);
  ok_recv : chan_ok (owed w RecvChan) RecvChan (tasks c) (mem c) }.

Lemma init_ok n mem :
  0 < len mem <= INT_MAX -> Z.of_nat n < 2 ^ 32 - 1 -> conf_ok None (init_conf n mem).
Proof.
  intros Hm Hn. assert (Ht : forall f, f Idle = false -> tally f (replicate n Idle) = 0).
  { intros f Hf. apply tally_zero, Forall_replicate. done. }
  split; unfold chan_ok; cbn; rewrite ?Ht by done; try lia.
  - by rewrite length_replicate.
  - exists []. split; [|done]. split_and!; cbn; try done; try lia.
Qed.

Lemma waiter_le c ts :
  tally (waiter_on c) ts = 0 -> tally (asleep_on c) ts = 0.
Proof.
  induction ts as [|p ts IH]; cbn; [done|]. pose proof (tally_bounds (waiter_on c) ts).
  pose proof (tally_bounds (asleep_on c) ts).
  destruct c, p; cbn in *; lia.
Qed.

(** The effect of replacing one task on every count. *)
Ltac tallies Ht p' :=
  repeat match goal with
  | |- context [tally ?f (<[_ := p']> ?ts)] => rewrite (tally_insert f ts _ _ p' Ht)
  end.

Lemma wakes_ok w ts ts' m :
  conf_ok w (Conf ts m) -> wakes w ts ts' -> conf_ok None (Conf ts' m).
Proof.
  intros Hok Hw. destruct Hw as [ts|c ts Hf|c ts u p Hu Hs]; [done| |].
  - destruct Hok as [H1 H2 H3 H4 H5 H6]. apply tally_zero in Hf.
    split; try done; [destruct H5 as (? & ? & H5)|destruct H6 as (? & ? & H6)];
      split_and!; try done; cbn in *; destruct c; cbn in *; lia.
  - destruct Hok as [H1 H2 H3 H4 H5 H6]. cbn in *.
    destruct c, p; try done; split; unfold chan_ok in *; cbn in *;
      rewrite ?length_insert, ?(tally_insert _ _ _ _ _ Hu); cbn; try done; try lia.
Qed.

(** A task that is not asleep. *)
Definition runnable (p : pc) : bool :=
  match p with Idle | SendAsleep _ _ | RecvAsleep _ => false | _ => true end.

(** Closes [conf_ok] after one task was replaced: the counts move as
    [tally_insert] says. *)
Ltac settle Ht :=
  split; unfold chan_ok in *; cbn in *;
  rewrite ?length_insert, ?(tally_insert _ _ _ _ _ Ht); cbn; rewrite ?u32_small by lia; eauto; try lia.

Ltac bounds ts :=
  pose proof (tally_bounds (waiter_on SendChan) ts);
  pose proof (tally_bounds (waiter_on RecvChan) ts);
  pose proof (tally_bounds (woken_on SendChan) ts);
  pose proof (tally_bounds (woken_on RecvChan) ts).

Lemma notify_chan_ret c m :
  notify_chan c m = Ret (if negb (waiters (chan_sem c m) =? 0) then Some c else None)
    (match c with
     | SendChan => m <| ssem := (notify (ssem m)).1 |>
     | RecvChan => m <| rsem := (notify (rsem m)).1 |>
     end).
Proof. by destruct c. Qed.

Lemma notify_ok c ts m t p w m' :
  chan_ok 0 c ts m -> ts !! t = Some p -> waiter_on c p = false -> asleep_on c p = false ->
  woken_on c p = false ->
  notify_chan c m = Ret w m' ->
  chan_ok (owed w c) c (<[t := Idle]> ts) m' /\
  (sem_count (chan_sem c m') = sem_count (chan_sem c m) + 1 \/
   sem_count (chan_sem c m) = INT_MAX /\ sem_count (chan_sem c m') = INT_MAX).
Proof.
  intros (Hc & Hw & Hl) Ht F1 F2 F3 Hn. rewrite notify_chan_ret in Hn.
  injection Hn as <- <-. pose proof (waiter_le c ts).
  assert (Hcount : sem_count (notify (chan_sem c m)).1 = Z.min INT_MAX (sem_count (chan_sem c m) + 1) /\
    waiters (notify (chan_sem c m)).1 = waiters (chan_sem c m)).
  { unfold notify. destruct (Z.ltb_spec (sem_count (chan_sem c m)) INT_MAX); cbn; lia. }
  destruct Hcount as [Hk1 Hk2].
  destruct (Z.eqb_spec (waiters (chan_sem c m)) 0); cbn [negb];
    (unfold chan_ok; rewrite !(tally_insert _ _ _ _ _ Ht), F1, F2, F3; clear F1 F2 F3;
     destruct c; cbn in *; lia).
Qed.

Section exec.
Context (ts : list pc) (m : shared) (t : nat) (l : list A).
Context (Hlen : len ts < 2 ^ 32 - 1) (Hr : ring_ok (ring m) l) (Hl : sent m = received m ++ l).
Context (Hfree : sem_count (ssem m) + tally putting ts + count (ring m) +
    tally taken_not_posted ts = size (ring m)).
Context (Hfull : count (ring m) <= sem_count (rsem m) + tally taking ts + tally sent_not_posted ts).
Context (Hs : chan_ok 0 SendChan ts m) (Hv : chan_ok 0 RecvChan ts m).

Definition goal (p : pc) : Prop :=
  exists p' w m', exec p m = Ret (p', w) m' /\ conf_ok w (Conf (<[t := p']> ts) m').

Lemma exec_start p :
  ts !! t = Some p -> start_of p = true -> p <> WakeReceiver -> goal p.
Proof.
  intros Ht. destruct p; try done; intros _ _; unfold goal; cbn [exec];
    (eexists _, _, _; split; [mstep; reflexivity|]);
    (case_match; settle Ht).
Qed.

Lemma exec_wait p :
  ts !! t = Some p -> (match p with SendWait _ _ | RecvWait _ => true | _ => false end) = true ->
  goal p.
Proof.
  intros Ht. bounds ts.
  destruct p; try done; intros _; unfold goal; cbn [exec];
    unfold mbind, M_bind; cbn [rbind gets]; unfold wait_turn, trywait, sem_turn;
    repeat case_match; simplify_eq;
    (eexists _, _, _; split; [reflexivity|]); settle Ht.
Qed.

Lemma exec_woken p :
  ts !! t = Some p -> (match p with SendWoken _ _ _ | RecvWoken _ _ => true | _ => false end) = true ->
  goal p.
Proof.
  intros Ht Hp.
  assert (Hpos : forall c, waiter_on c p = true -> 1 <= tally (waiter_on c) ts)
    by (intros c; by apply tally_pos with t).
  assert (Hwok : forall c, woken_on c p = true -> 1 <= tally (woken_on c) ts)
    by (intros c; by apply tally_pos with t).
  bounds ts.
  destruct p as [| | | |msg timeout result| | | | | |timeout result| | |]; try done;
    [specialize (Hpos SendChan eq_refl); specialize (Hwok SendChan)
    |specialize (Hpos RecvChan eq_refl); specialize (Hwok RecvChan)];
    unfold goal; cbn [exec]; unfold mbind, M_bind; cbn [rbind gets modify];
    (destruct (Z.ltb_spec result 0);
     [assert ((0 <=? result) = false) as E by lia|assert ((0 <=? result) = true) as E by lia]);
    cbn [rbind gets]; unfold sem_turn; repeat case_match; simplify_eq;
    (eexists _, _, _; split; [reflexivity|]);
    unfold chan_ok, sem_wakened in *; cbn in *; settle Ht; rewrite ?E; cbn; try lia.
  all: specialize (Hwok E); rewrite (u32_small (_ - 1)), u32_small by lia; lia.
Qed.

Lemma exec_put msg : ts !! t = Some (SendPut msg) -> goal (SendPut msg).
Proof.
  intros Ht. pose proof (tally_pos putting _ _ _ Ht eq_refl).
  pose proof (tally_bounds taken_not_posted ts). pose proof Hr as (Hsz & Hb & Ho & Hin & Hc & Hll & _).
  assert (Hin' : 0 <= in_ (ring m) < size (ring m)) by (rewrite Hin; apply Z.mod_pos_bound; lia).
  assert (Hlt : len l < size (ring m)) by (destruct Hs; cbn in *; lia).
  unfold goal. cbn [exec].
  pose proof (ring_put (ring m) l msg Hr Hlt) as Hr2. set (q2 := _ <| count := _ |>) in Hr2.
  assert (Hput : fixq_put ring_ref msg m = Ret () (m <| ring := q2 |>)).
  { unfold fixq_put. mstep. unfold store_slot. rewrite (proj2 (andb_true_iff _ _)) by lia. done. }
  eexists _, _, _. split; [mstep by exact Hput; mstep; reflexivity|].
  settle Ht. exists (l ++ [msg]). by rewrite Hl, app_assoc.
Qed.

Lemma exec_take : ts !! t = Some RecvTake -> goal RecvTake.
Proof.
  intros Ht. pose proof (tally_pos taking _ _ _ Ht eq_refl). pose proof Hr as (Hsz & Hb & Ho & Hin & Hc & Hll & _).
  unfold goal. cbn [exec]. destruct l as [|x l'].
  - eexists _, _, _. split.
    { mstep by (unfold fixq_take; mstep; rewrite Hc; reflexivity). reflexivity. }
    cbn in Hc. pose proof (tally_bounds taking ts). pose proof (tally_bounds sent_not_posted ts).
    settle Ht. 
  - destruct (ring_take (ring m) x l' Hr) as [Hx Hr2]. cbn [length] in *.
    set (q2 := _ <| count := _ |>) in Hr2.
    assert (Htk : fixq_take ring_ref m = Ret (Some (Some x)) (m <| ring := q2 |>)).
    { unfold fixq_take. mstep. rewrite (proj2 (Z.eqb_neq _ _)), (proj2 (Z.leb_le _ _)) by lia.
      by mstep by (by apply deref_ret). }
    eexists _, _, _. split; [mstep by exact Htk; mstep; mstep; reflexivity|].
    settle Ht. exists l'. rewrite Hl, <- app_assoc. done.
Qed.

Lemma exec_notify p :
  ts !! t = Some p -> (match p with SendNotify | WakeReceiver | RecvNotify => true | _ => false end) = true ->
  goal p.
Proof.
  intros Ht Hp. unfold goal.
  assert (Hposs : forall f, f p = true -> 1 <= tally f ts) by (intros f; by apply tally_pos with t).
  pose proof Hr as (Hsz & _ & _ & _ & Hc & Hll & _).
  pose proof (tally_bounds taking ts). pose proof (tally_bounds sent_not_posted ts).
  pose proof (tally_bounds putting ts). pose proof (tally_bounds taken_not_posted ts).
  assert (Hex : exists c w m', exec p m = Ret (Idle, w) m' /\ notify_chan c m = Ret w m' /\
    c = match p with RecvNotify => SendChan | _ => RecvChan end).
  { destruct p; try done; cbn [exec]; eexists _, _, _; (split; [mstep by (apply notify_chan_ret); reflexivity|]);
      (split; [apply notify_chan_ret|done]). }
  destruct Hex as (c & w & m' & He & Hn & ->). exists Idle, w, m'. split; [done|].
  assert (Hok : chan_ok 0 (match p with RecvNotify => SendChan | _ => RecvChan end) ts m)
    by (by destruct p).
  destruct (notify_ok _ ts m t p w m' Hok Ht) as [Hok' Hcnt]; [by destruct p..|done|].
  rewrite notify_chan_ret in Hn. injection Hn as Hw Hm.
  destruct p; try done; cbn in Hok', Hcnt, Hm, Hw;
    [pose proof (Hposs sent_not_posted eq_refl)|pose proof (Hposs taken_not_posted eq_refl)|];
    split; subst m' w; try exact Hok'; cbn in *;
    rewrite ?length_insert, ?(tally_insert _ _ _ _ _ Ht); cbn; try lia; eauto.
  all: unfold chan_ok in *; cbn in *; rewrite ?(tally_insert _ _ _ _ _ Ht); cbn;
    destruct (negb _); cbn; lia.
Qed.
End exec.

Lemma exec_ok ts m t p :
  conf_ok None (Conf ts m) -> ts !! t = Some p -> runnable p = true ->
  exists p' w m', exec p m = Ret (p', w) m' /\ conf_ok w (Conf (<[t := p']> ts) m').
Proof.
  intros [H1 (l & Hr & Hl) H3 H4 H5 H6] Ht Hrun. cbn in *.
  destruct p; try done;
    first [by eapply exec_start|by eapply exec_wait|by eapply exec_woken|by eapply exec_put
          |by eapply exec_take|by eapply exec_notify].
Qed.

Lemma step_ok c c' : conf_ok None c -> step c c' -> conf_ok None c'.
Proof.
  intros Hok Hst. destruct Hst as [ts m t p Ht Hp|ts m t p p' w m' ts' Ht He Hw|ts m t p Ht Hs Htm].
  - destruct Hok as [H1 H2 H3 H4 H5 H6]. destruct p; try done; settle Ht.
  - destruct (exec_ok ts m t p Hok Ht) as (p2 & w2 & m2 & He2 & Hok2); [by destruct p|].
    rewrite He in He2. injection He2 as <- <- <-. by eapply wakes_ok.
  - destruct Hok as [H1 H2 H3 H4 H5 H6]. destruct p; try done; settle Ht.
Qed.

Lemma reachable_ok n mem c :
  0 < len mem <= INT_MAX -> Z.of_nat n < 2 ^ 32 - 1 ->
  reachable (init_conf n mem) c -> conf_ok None c.
Proof.
  intros Hm Hn Hr. unfold reachable in Hr. remember (init_conf n mem) as c0 eqn:E.
  assert (conf_ok None c0) as Hok by (subst; by apply init_ok). clear E.
  induction Hr as [|c0 c1 c2 Hst _ IH]; [done|]. apply IH. by eapply step_ok.
Qed.

(** The messages in the ring, oldest first. *)
Definition contents (q : fixq_t A) : list (option A) :=
  map (fun k => mjoin (buf q !! Z.to_nat ((out q + Z.of_nat k) mod size q)))
      (seq 0 (Z.to_nat (count q))).

Lemma ring_contents q l : ring_ok q l -> contents q = map Some l.
Proof.
  intros (Hs & Hb & Ho & Hi & Hc & Hl & Hget). unfold contents. rewrite Hc, Nat2Z.id.
  apply list_eq_same_length with (length l); rewrite ?length_map, ?length_seq; [done..|].
  intros k x y Hk Hx Hy. rewrite list_lookup_fmap, lookup_seq_lt in Hx by done.
  rewrite list_lookup_fmap in Hy. destruct (l !! k) as [z|] eqn:Hz; [|done]. cbn in Hx, Hy.
  rewrite (Hget k z Hz) in Hx. cbn in Hx. congruence.
Qed.

(** C36: whatever the interleaving of senders, receivers, wake-ups and
    timeouts, the messages received are, in order, a prefix of the messages
    sent, and the rest is in the ring: no message is lost, duplicated,
    overwritten or reordered, and the ring holds at most [size] messages. *)
Theorem fixq_fifo n mm c :
  0 < len mm <= INT_MAX -> Z.of_nat n < 2 ^ 32 - 1 ->
  reachable (init_conf n mm) c ->
  map Some (sent (mem c)) = map Some (received (mem c)) ++ contents (ring (mem c)) /\
  len (contents (ring (mem c))) <= size (ring (mem c)).
Proof.
  intros Hm Hn Hr. destruct (reachable_ok n mm c Hm Hn Hr) as [_ (l & Hl & Hs) _ _ _ _].
  rewrite (ring_contents _ l Hl), Hs, length_map. split; [apply map_app|]. by destruct Hl; intuition.
Qed.

(** C37: no wake-up is lost.  If a task sleeps in [fixq_recv] while the ring
    holds a message, or sleeps in [fixq_send] while the ring has room, then
    some task is awake that will take the message (put into the room) or post
    the semaphore the sleeper waits for; and no task that is awake gets stuck. *)
Theorem fixq_no_lost_wakeup n mm c :
  0 < len mm <= INT_MAX -> Z.of_nat n < 2 ^ 32 - 1 ->
  reachable (init_conf n mm) c ->
  (1 <= tally (asleep_on RecvChan) (tasks c) -> 0 < count (ring (mem c)) ->
     exists t p, tasks c !! t = Some p /\
       woken_on RecvChan p || taking p || sent_not_posted p = true) /\
  (1 <= tally (asleep_on SendChan) (tasks c) -> count (ring (mem c)) < size (ring (mem c)) ->
     exists t p, tasks c !! t = Some p /\
       woken_on SendChan p || putting p || taken_not_posted p = true) /\
  (forall t p, tasks c !! t = Some p -> runnable p = true -> exists r m', exec p (mem c) = Ret r m').
Proof.
  intros Hm Hn Hr. pose proof (reachable_ok n mm c Hm Hn Hr) as Hok. destruct c as [ts m].
  pose proof Hok as [H1 (l & Hl & Hs) H3 H4 (_ & _ & H5) (_ & _ & H6)]. cbn in *.
  pose proof (tally_bounds (woken_on RecvChan) ts). pose proof (tally_bounds taking ts).
  pose proof (tally_bounds sent_not_posted ts). pose proof (tally_bounds (woken_on SendChan) ts).
  pose proof (tally_bounds putting ts). pose proof (tally_bounds taken_not_posted ts).
  assert (Hfind : forall f g h, 1 <= tally f ts + tally g ts + tally h ts ->
    exists t p, ts !! t = Some p /\ f p || g p || h p = true).
  { intros f g h Hge. pose proof (tally_bounds f ts). pose proof (tally_bounds g ts).
    assert (1 <= tally f ts \/ 1 <= tally g ts \/ 1 <= tally h ts) as [H'|[H'|H']] by lia;
      apply tally_witness in H' as (t & p & ? & E); exists t, p; rewrite E, ?orb_true_r; done. }
  split_and!.
  - intros Ha Hc. apply (Hfind (woken_on RecvChan) taking sent_not_posted). lia.
  - intros Ha Hc. apply (Hfind (woken_on SendChan) putting taken_not_posted). lia.
  - intros t p Ht Hp. destruct (exec_ok ts m t p Hok Ht Hp) as (p' & w & m' & He & _). eauto.
Qed.
End conc.

(** ** Witnesses *)

(** One receiver and one sender on a queue with two slots: the receiver went
    to sleep on the empty queue, then the sender put the message 7. *)
Definition two_tasks : conf := init_conf (A := Z) 2 [None; None].

Definition put_while_asleep : conf :=
  Conf [RecvAsleep 0; SendNotify]
    (Shared (Fixq 2 [Some 7; None] 1 0 1 None None) (Sem 1 0) (Sem 0 1) [7] []).

Lemma two_tasks_run : reachable two_tasks put_while_asleep.
Proof.
  unfold reachable, two_tasks, init_conf.
  eapply rtc_l; [by apply (step_call _ _ 0 (RecvStart 0))|].
  do 2 (eapply rtc_l; [by eapply (step_exec _ _ 0); [reflexivity..|constructor]|]).
  eapply rtc_l; [by apply (step_call _ _ 1 (SendStart 7 (-1)))|].
  do 3 (eapply rtc_l; [by eapply (step_exec _ _ 1); [reflexivity..|constructor]|]).
  apply rtc_refl.
Qed.

Lemma fixq_fifo_witness :
  reachable two_tasks put_while_asleep /\
  map Some (sent (mem put_while_asleep)) =
    map Some (received (mem put_while_asleep)) ++ contents (ring (mem put_while_asleep)) /\
  len (contents (ring (mem put_while_asleep))) <= size (ring (mem put_while_asleep)).
Proof.
  split; [exact two_tasks_run|].
  apply (fixq_fifo 2 [None; None]); [unfold INT_MAX; cbn; lia|lia|exact two_tasks_run].
Defined.

Lemma fixq_no_lost_wakeup_witness :
  exists t p, tasks put_while_asleep !! t = Some p /\
    woken_on RecvChan p || taking p || sent_not_posted p = true.
Proof.
  apply (fixq_no_lost_wakeup 2 [None; None]);
    [unfold INT_MAX; cbn; lia|lia|exact two_tasks_run|cbn; lia|cbn; lia].
Defined.
