(* ===== verification/Dns.v ===== *)
(** * DNS messages (net/dns.c)

    Reads and writes of a byte array return [None] outside its bounds; so do
    loops that run out of fuel.  A C string is the list of its characters
    before the terminating 0. *)

From S2P Require Import Prelude IpAddr.

(** ** Definitions *)

Definition DNS_HEADER_SIZE : Z := 12.
Definition DNS_FLAG_RESPONSE : Z := 0x8000.
Definition DNS_FLAG_TRUNCATED : Z := 0x0200.
Definition DNS_TYPE_A : Z := 1.
Definition DNS_CLASS_IN : Z := 1.

Record dns_query_t := DnsQuery { id : Z; query_bytes : bytes; query_length : Z }.

Definition rd (p : bytes) (i : Z) : option Z :=
  if 0 <=? i then p !! Z.to_nat i else None.

(** [memcpy(p + i, bs, len bs)]. *)
Definition wr (p : bytes) (i : Z) (bs : bytes) : option bytes :=
  if (0 <=? i) && (i + len bs <=? len p) then Some (splice (Z.to_nat i) bs p) else None.

Definition read_u16 (p : bytes) (i : Z) : option Z :=
  a ← rd p i; b ← rd p (i + 1); Some (Z.lor (Z.shiftl a 8) b).

Definition write_u16 (p : bytes) (i : Z) (value : Z) : option bytes :=
  p ← wr p i [u8 (Z.shiftr value 8)]; wr p (i + 1) [u8 value].

(** The inner loop of [append_name]: the label and the rest of the string. *)
Fixpoint take_label (cursor : bytes) : bytes * bytes :=
  match cursor with
  | [] => ([], [])
  | c :: cursor' =>
      if c =? 46 then ([], cursor)
      else let '(label, rest) := take_label cursor' in (c :: label, rest)
  end.

Fixpoint append_name_loop (fuel : nat) (packet : bytes) (length encoded : Z) (cursor : bytes)
    : option (Z * bytes * Z) :=
  match cursor, fuel with
  | [], _ => packet ← wr packet length [0]; Some (NET_ERR_OK, packet, length + 1)
  | _, O => None
  | _, S fuel =>
      let '(label, cursor) := take_label cursor in
      let label_length := len label in
      if (label_length =? 0) || (63 <? label_length) || (255 <? encoded + label_length + 1)
      then Some (NET_ERR_PARAM, packet, length)
      else
        packet ← wr packet length [u8 label_length];
        packet ← wr packet (length + 1) label;
        let length := length + 1 + label_length in
        let encoded := encoded + (label_length + 1) in
        match cursor with
        | 46 :: [] => Some (NET_ERR_PARAM, packet, length)
        | 46 :: cursor => append_name_loop fuel packet length encoded cursor
        | _ => append_name_loop fuel packet length encoded cursor
        end
  end.

Definition append_name (packet : bytes) (length : Z) (name : bytes) : option (Z * bytes * Z) :=
  append_name_loop (Datatypes.length name) packet length 1 name.

(** The error code and the query ([query] is not null). *)
Definition dns_query_encode (qid : Z) (name : option bytes) : option (Z * dns_query_t) :=
  let query := DnsQuery 0 (replicate 512 0) 0 in
  match name with
  | None | Some [] => Some (NET_ERR_PARAM, query)
  | Some name =>
      packet ← write_u16 (query_bytes query) 0 qid;
      packet ← write_u16 packet 2 0x0100;
      packet ← write_u16 packet 4 1;
      '(result, packet, length) ← append_name packet DNS_HEADER_SIZE name;
      if result <? 0 then Some (result, DnsQuery qid packet 0)
      else
        packet ← write_u16 packet length DNS_TYPE_A;
        let length := length + 2 in
        packet ← write_u16 packet length DNS_CLASS_IN;
        Some (NET_ERR_OK, DnsQuery qid packet (length + 2))
  end.

(** The loop of [parse_name].  [name_size] is [None] for a null [name]; [out]
    is what was written to [name] so far; [next] is [None] until [*next] is
    written ([jumped] is then set, or the function returns). *)
Fixpoint parse_name_loop (fuel : nat) (packet : bytes) (length : Z) (cursor : Z)
    (name_size : option Z) (out : bytes) (next : option Z) (jumps : Z)
    : option (Z * bytes * option Z) :=
  match fuel with
  | O => None
  | S fuel =>
      if length <=? cursor then Some (NET_ERR_SIZE, out, next)
      else
        label ← rd packet cursor;
        let cursor := cursor + 1 in
        if label =? 0 then
          if (match name_size with Some n => n <=? len out | None => false end)
          then Some (NET_ERR_SIZE, out, next)
          else Some (NET_ERR_OK, out, match next with None => Some cursor | _ => next end)
        else if Z.land label 0xc0 =? 0xc0 then
          if length <=? cursor then Some (NET_ERR_FORMAT, out, next)
          else if length <? jumps + 1 then Some (NET_ERR_FORMAT, out, next)
          else
            low ← rd packet cursor;
            let cursor := cursor + 1 in
            let target := Z.lor (Z.shiftl (Z.land label 0x3f) 8) low in
            if length <=? target then Some (NET_ERR_FORMAT, out, next)
            else
              parse_name_loop fuel packet length target name_size out
                (match next with None => Some cursor | _ => next end) (jumps + 1)
        else if negb (Z.land label 0xc0 =? 0) || (63 <? label) || (length <? cursor + label)
        then Some (NET_ERR_FORMAT, out, next)
        else
          match name_size with
          | None => parse_name_loop fuel packet length (cursor + label) name_size out next jumps
          | Some n =>
              if negb (len out =? 0) && (n <=? len out + 1) then Some (NET_ERR_SIZE, out, next)
              else
                let out := if len out =? 0 then out else out ++ [46] in
                if n <=? len out + label then Some (NET_ERR_SIZE, out, next)
                else
                  let data := take (Z.to_nat label) (drop (Z.to_nat cursor) packet) in
                  if len packet <? cursor + label then None
                  else parse_name_loop fuel packet length (cursor + label) name_size
                         (out ++ data) next jumps
          end
  end.

(** Each round moves the cursor forward or jumps, and there are at most
    [length] jumps. *)
Definition parse_fuel (length : Z) : nat := Z.to_nat ((length + 2) * (length + 2)).

Definition parse_name (packet : bytes) (length offset : Z) (name_size : option Z)
    : option (Z * bytes * option Z) :=
  if (offset <? 0) || (length <=? offset) then Some (NET_ERR_SIZE, [], None)
  else parse_name_loop (parse_fuel length) packet length offset name_size [] None 0.

(** [plat_strlen] of a buffer that holds [out] and a terminating 0. *)
Fixpoint strlen (out : bytes) : Z :=
  match out with
  | [] => 0
  | c :: out => if c =? 0 then 0 else 1 + strlen out
  end.

(** The loop over the answer records, [n] of them left. *)
Fixpoint answers_loop (n : nat) (packet : bytes) (length cursor : Z) : option (Z * option Z) :=
  match n with
  | O => Some (NET_ERR_NOT_SUPPORT, None)
  | S n =>
      '(result, _, next) ← parse_name packet length cursor None;
      if result <? 0 then Some (result, None)
      else
        cursor ← next;
        if length <? cursor + 10 then Some (NET_ERR_SIZE, None)
        else
          type ← read_u16 packet cursor;
          class ← read_u16 packet (cursor + 2);
          data_length ← read_u16 packet (cursor + 8);
          let cursor := cursor + 10 in
          if length <? cursor + data_length then Some (NET_ERR_SIZE, None)
          else if (type =? DNS_TYPE_A) && (class =? DNS_CLASS_IN) &&
                  (data_length =? Z.of_nat IPV4_ADDR_SIZE)
          then
            let buf := take 4 (drop (Z.to_nat cursor) packet) in
            if len buf <? 4 then None else Some (NET_ERR_OK, Some (ipaddr_from_buf buf))
          else answers_loop n packet length (cursor + data_length)
  end.

(** The result and, when it was stored, the address. *)
Definition dns_response_parse (packet : bytes) (length : Z) (qid : Z) (name : bytes)
    : option (Z * option Z) :=
  if length <? DNS_HEADER_SIZE then Some (NET_ERR_SIZE, None)
  else
    i ← read_u16 packet 0;
    if negb (i =? qid) then Some (NET_ERR_PARAM, None)
    else
      flags ← read_u16 packet 2;
      if Z.land flags DNS_FLAG_RESPONSE =? 0 then Some (NET_ERR_FORMAT, None)
      else if negb (Z.land flags DNS_FLAG_TRUNCATED =? 0) then Some (NET_ERR_SIZE, None)
      else if negb (Z.land flags 0x000f =? 0) then Some (NET_ERR_UNREACH, None)
      else
        questions ← read_u16 packet 4;
        answers ← read_u16 packet 6;
        if negb (questions =? 1) || (answers =? 0) then Some (NET_ERR_FORMAT, None)
        else
          '(result, question, next) ← parse_name packet length DNS_HEADER_SIZE (Some 256);
          if result <? 0 then Some (result, None)
          else
            cursor ← next;
            if negb (strlen question =? len name) ||
               negb (bool_decide (take (Datatypes.length name) question = name))
            then Some (NET_ERR_PARAM, None)
            else if length <? cursor + 4 then Some (NET_ERR_NOT_SUPPORT, None)
            else
              type ← read_u16 packet cursor;
              class ← read_u16 packet (cursor + 2);
              if negb (type =? DNS_TYPE_A) || negb (class =? DNS_CLASS_IN)
              then Some (NET_ERR_NOT_SUPPORT, None)
              else answers_loop (Z.to_nat answers) packet length (cursor + 4).

(** ** Safety on every packet *)

Lemma rd_in p i : are_bytes p -> 0 <= i < len p -> exists b, rd p i = Some b /\ is_byte b.
Proof.
  intros Hp Hi. unfold rd. rewrite (proj2 (Z.leb_le _ _)) by lia.
  destruct (lookup_lt_is_Some_2 p (Z.to_nat i)) as [b Hb]; [lia|]. exists b. split; [done|].
  by eapply Forall_lookup_1.
Qed.

Lemma read_u16_in p i :
  are_bytes p -> 0 <= i -> i + 2 <= len p -> exists w, read_u16 p i = Some w /\ 0 <= w < 2 ^ 16.
Proof.
  intros Hp H0 Hi. unfold read_u16.
  destruct (rd_in p i Hp) as (a & -> & Ha); [lia|].
  destruct (rd_in p (i + 1) Hp) as (b & -> & Hb); [lia|]. cbn.
  eexists. split; [done|]. rewrite lor_shiftl_add by (unfold is_byte in *; lia).
  unfold is_byte in *. lia.
Qed.

(** What [parse_name] promises of its result. *)
Definition name_result (length : Z) (name_size : option Z) (r : Z * bytes * option Z) : Prop :=
  let '(e, out, next) := r in
  are_bytes out /\ (forall n, name_size = Some n -> len out <= n) /\
  (e = NET_ERR_OK /\ (exists nx, next = Some nx /\ 0 < nx <= length) \/ e < 0).

Ltac name_err := eexists; split; [done|]; split_and!; [done|done|by right].

Lemma parse_name_loop_total fuel packet length cursor name_size out next jumps :
  are_bytes packet -> length <= len packet -> 0 <= cursor <= length -> 0 <= jumps <= length ->
  are_bytes out -> (forall n, name_size = Some n -> len out <= n) ->
  (forall nx, next = Some nx -> 0 < nx <= length) ->
  (length - jumps) * (length + 1) + (length - cursor) + 1 <= Z.of_nat fuel ->
  exists r, parse_name_loop fuel packet length cursor name_size out next jumps = Some r /\
    name_result length name_size r.
Proof.
  intros Hp Hl. revert cursor out next jumps.
  induction fuel as [|fuel IH]; intros cursor out next jumps Hc Hj Ho Hn Hnx Hf; [nia|].
  cbn [parse_name_loop]. unfold name_result, NET_ERR_SIZE, NET_ERR_FORMAT, NET_ERR_OK in *.
  destruct (Z.leb_spec length cursor); [name_err|].
  destruct (rd_in packet cursor Hp) as (label & -> & Hb); [lia|]. unfold is_byte in Hb. cbn.
  assert (Hnx' : exists nx, match next with None => Some (cursor + 1) | _ => next end = Some nx /\
    0 < nx <= length) by (destruct next; eexists; (split; [done|]); [by apply Hnx|lia]).
  destruct (Z.eqb_spec label 0) as [Hz|Hz].
  { destruct (match name_size with Some n => _ | None => _ end); [name_err|].
    eexists. split; [done|]. split_and!; [done|done|by left]. }
  destruct (Z.eqb_spec (Z.land label 192) 192) as [Hptr|Hptr].
  { destruct (Z.leb_spec length (cursor + 1)); [name_err|].
    destruct (Z.ltb_spec length (jumps + 1)); [name_err|].
    destruct (rd_in packet (cursor + 1) Hp) as (low & -> & Hb2); [lia|]. cbn.
    change 63 with (2 ^ 6 - 1). rewrite (land_mask label 6), lor_shiftl_add by (unfold is_byte in *; lia).
    set (target := label mod 2 ^ 6 * 2 ^ 8 + low).
    assert (0 <= target) by (unfold is_byte in *; subst target; zdm).
    destruct (Z.leb_spec length target); [name_err|].
    apply IH; try done; try lia; try nia. intros nx Hx. destruct next; [by apply Hnx|]. simplify_eq. lia. }
  destruct (_ || _) eqn:Hbad; [name_err|].
  apply orb_false_iff in Hbad as [[_ H63]%orb_false_iff Hfit].
  destruct name_size as [sz|]; [|apply IH; try done; try lia; nia].
  specialize (Hn sz eq_refl).
  destruct (_ && _) eqn:Hdot; [eexists; split; [done|]; split_and!; try done; [|by right]; by intros ? [= ->]|].
  set (out' := if len out =? 0 then out else out ++ [46]).
  assert (Ho' : are_bytes out' /\ len out' <= sz).
  { subst out'. destruct (Z.eqb_spec (len out) 0); [done|]. rewrite Forall_app, length_app. cbn in *.
    split; [split; [done|]; repeat constructor; done|lia]. }
  destruct Ho' as [Ho1 Ho2].
  destruct (Z.leb_spec sz (len out' + label)).
  { eexists; split; [done|]. split_and!; try done; [|by right]. by intros ? [= <-]. }
  rewrite (proj2 (Z.ltb_ge _ _)) by lia.
  apply IH; try done; try lia; try nia.
  - rewrite Forall_app. split; [done|]. by apply Forall_take, Forall_drop.
  - intros ? [= <-]. rewrite length_app, length_take, length_drop. lia.
Qed.

Lemma parse_name_total packet length offset name_size :
  are_bytes packet -> length <= len packet -> (forall n, name_size = Some n -> 0 <= n) ->
  exists r, parse_name packet length offset name_size = Some r /\ name_result length name_size r.
Proof.
  intros Hp Hl Hn. unfold parse_name. destruct (_ || _) eqn:Ho.
  { eexists. split; [done|]. split_and!; [done|done|by right]. }
  apply parse_name_loop_total; try done; try lia. unfold parse_fuel. nia.
Qed.

Lemma answers_loop_total n packet length cursor :
  are_bytes packet -> length <= len packet -> 0 <= cursor ->
  exists r, answers_loop n packet length cursor = Some r.
Proof.
  intros Hp Hl. revert cursor. induction n as [|n IH]; intros cursor Hc; [by eexists|].
  cbn [answers_loop].
  destruct (parse_name_total packet length cursor None Hp Hl) as ([[e out] next] & -> & _ & _ & He); [done|].
  cbn. destruct He as [(-> & nx & -> & Hnx)|He]; [|rewrite (proj2 (Z.ltb_lt _ _)) by done; by eexists].
  cbn. destruct (Z.ltb_spec length (nx + 10)); [by eexists|].
  destruct (read_u16_in packet nx Hp) as (ty & -> & _); [lia..|].
  destruct (read_u16_in packet (nx + 2) Hp) as (cl & -> & _); [lia..|].
  destruct (read_u16_in packet (nx + 8) Hp) as (dl & -> & Hdl); [lia..|]. cbn.
  destruct (Z.ltb_spec length (nx + 10 + dl)); [by eexists|].
  destruct (_ && _) eqn:E; [|apply IH; lia].
  apply andb_true_iff in E as [_ E%Z.eqb_eq]. change (Z.of_nat IPV4_ADDR_SIZE) with 4 in E.
  rewrite (proj2 (Z.ltb_ge _ _)); [by eexists|]. rewrite length_take, length_drop. lia.
Qed.

(** C38: [dns_response_parse] returns on every packet, whatever its bytes:
    compression pointers that form a loop, truncated records and labels that
    reach past the end included, it never reads outside the [length] bytes
    received, writes the 256-byte name buffer only inside its bounds, and
    terminates. *)
Theorem dns_response_parse_total packet length qid name :
  are_bytes packet -> length <= len packet ->
  exists e addr, dns_response_parse packet length qid name = Some (e, addr) /\
    (forall r, parse_name packet length DNS_HEADER_SIZE (Some 256) = Some r ->
       len r.1.2 <= 256).
Proof.
  intros Hp Hl.
  destruct (parse_name_total packet length DNS_HEADER_SIZE (Some 256) Hp Hl)
    as ([[e out] next] & Hpn & Hob & Hout & He); [by intros ? [= <-]|].
  assert (Hgoal : exists r, dns_response_parse packet length qid name = Some r).
  { unfold dns_response_parse. rewrite Hpn. unfold DNS_HEADER_SIZE in *.
    destruct (Z.ltb_spec length 12); [by eexists|].
    destruct (read_u16_in packet 0 Hp) as (w0 & -> & _); [lia..|].
    destruct (read_u16_in packet 2 Hp) as (w2 & -> & _); [lia..|].
    destruct (read_u16_in packet 4 Hp) as (w4 & -> & _); [lia..|].
    destruct (read_u16_in packet 6 Hp) as (w6 & -> & _); [lia..|]. cbn.
    repeat (case_match; [by eexists|]).
    destruct He as [(-> & nx & -> & Hnx)|He]; [|lia]. cbn.
    case_match; [by eexists|]. destruct (Z.ltb_spec length (nx + 4)); [by eexists|].
    destruct (read_u16_in packet nx Hp) as (ty & -> & _); [lia..|].
    destruct (read_u16_in packet (nx + 2) Hp) as (cl & -> & _); [lia..|]. cbn.
    case_match; [by eexists|]. apply answers_loop_total; done || lia. }
  destruct Hgoal as [[e' addr] Hr]. exists e', addr. split; [done|].
  intros r Hr'. simplify_eq. by apply Hout.
Qed.

(** ** Names *)

(** A name as its labels: the text and the wire format. *)
Fixpoint text (ls : list bytes) : bytes :=
  match ls with
  | [] => []
  | [l] => l
  | l :: ls => l ++ 46 :: text ls
  end.

Fixpoint enc (ls : list bytes) : bytes :=
  match ls with
  | [] => []
  | l :: ls => len l :: l ++ enc ls
  end.

Definition label_ok (l : bytes) : Prop := 1 <= len l <= 63 /\ 46 ∉ l.

Lemma take_label_spec c l r :
  take_label c = (l, r) -> c = l ++ r /\ 46 ∉ l /\ (r = [] \/ exists r', r = 46 :: r').
Proof.
  revert l r. induction c as [|x c IH]; intros l r H; cbn in H; [simplify_eq; set_solver|].
  destruct (Z.eqb_spec x 46); [simplify_eq; set_solver|].
  destruct (take_label c) as [l' r'] eqn:E. simplify_eq. destruct (IH l' r eq_refl) as (-> & ? & ?).
  set_solver.
Qed.

Lemma wr_in p i bs : 0 <= i -> i + len bs <= len p -> wr p i bs = Some (splice (Z.to_nat i) bs p).
Proof. intros. unfold wr. by rewrite (proj2 (andb_true_iff _ _)) by lia. Qed.

(** A run of [append_name] from [length] on. *)
Lemma append_name_loop_ok fuel packet length encoded cursor :
  0 <= length -> 1 <= encoded <= 255 -> length + (256 - encoded) <= len packet ->
  (Datatypes.length cursor <= fuel)%nat ->
  exists e packet' length', append_name_loop fuel packet length encoded cursor = Some (e, packet', length') /\
    (e = NET_ERR_PARAM \/
     e = NET_ERR_OK /\ exists ls, Forall label_ok ls /\ cursor = text ls /\
       encoded + len (enc ls) <= 255 /\ length' = length + len (enc ls) + 1 /\
       packet' = splice (Z.to_nat length) (enc ls ++ [0]) packet).
Proof.
  revert packet length encoded cursor.
  induction fuel as [|fuel IH]; intros packet length encoded cursor H0 He Hfit Hf.
  { destruct cursor; [|cbn in Hf; lia]. cbn [append_name_loop]. rewrite wr_in by (cbn; lia). cbn.
    eexists _, _, _. split; [done|]. right. split; [done|]. exists []. cbn. split_and!; done || lia. }
  destruct cursor as [|x cursor].
  { cbn [append_name_loop]. rewrite wr_in by (cbn; lia). cbn.
    eexists _, _, _. split; [done|]. right. split; [done|]. exists []. cbn. split_and!; done || lia. }
  cbn [append_name_loop]. remember (x :: cursor) as c eqn:Hc. clear Hc.
  destruct (take_label c) as [l r] eqn:El. apply take_label_spec in El as (-> & Hdot & Hr).
  destruct (_ || _) eqn:Hbad; [eexists _, _, _; split; [done|]; by left|].
  apply orb_false_iff in Hbad as [[Hb1 Hb2]%orb_false_iff Hb3].
  assert (Hl : label_ok l) by (split; [lia|done]).
  rewrite wr_in by (cbn; lia). cbn [mbind option_bind].
  rewrite wr_in by (rewrite ?length_splice; cbn; lia). cbn [mbind option_bind].
  set (p2 := splice _ l _).
  assert (Hp2 : p2 = splice (Z.to_nat length) (len l :: l) packet).
  { subst p2. rewrite u8_small by lia. rewrite Z2Nat.inj_add by lia.
    by rewrite (splice_splice _ [len l] l) by (cbn; lia). }
  assert (Hlp : len p2 = len packet) by (rewrite Hp2, length_splice; cbn; lia).
  assert (Hfin : forall c', (Datatypes.length c' <= fuel)%nat ->
    (c' = [] -> r = []) -> (c' <> [] -> r = 46 :: c') ->
    exists e packet' length',
    append_name_loop fuel p2 (length + 1 + len l) (encoded + (len l + 1)) c' = Some (e, packet', length') /\
    (e = NET_ERR_PARAM \/
     e = NET_ERR_OK /\ exists ls, Forall label_ok ls /\ l ++ r = text ls /\
       encoded + len (enc ls) <= 255 /\ length' = length + len (enc ls) + 1 /\
       packet' = splice (Z.to_nat length) (enc ls ++ [0]) packet)).
  { intros c' Hc' Hnil Hcons. destruct (IH p2 (length + 1 + len l) (encoded + (len l + 1)) c')
      as (e & p' & l' & H1 & H2); [lia..|]. exists e, p', l'. split; [done|].
    destruct H2 as [H2|(-> & ls & Hls & Ht & Hsz & Hl' & Hp')]; [by left|right]. split; [done|].
    exists (l :: ls). cbn [enc]. rewrite Hl', Hp', Hp2. split_and!; [by constructor| | | |].
    - destruct ls as [|l2 ls]; cbn [text] in Ht |- *; subst c'; [by rewrite Hnil, app_nil_r|].
      rewrite Hcons; [done|]. apply Forall_cons in Hls as [[Hl2 _] _].
      destruct l2; [cbn in Hl2; lia|by destruct ls].
    - cbn. rewrite length_app. lia.
    - cbn. rewrite length_app. lia.
    - replace (Z.to_nat (length + 1 + len l)) with (Z.to_nat length + Datatypes.length (len l :: l))%nat
        by (cbn; lia).
      rewrite splice_splice; [by cbn; rewrite <- app_assoc|]. cbn in *. lia. }
  rewrite length_app in Hf. destruct Hr as [->|[r' ->]].
  - cbn in Hf. apply (Hfin []); [cbn; lia|done|done].
  - destruct r' as [|y r'].
    + eexists _, _, _; split; [done|]; by left.
    + apply (Hfin (y :: r')); [cbn in *; lia|done|done].
Qed.

(** The question section of a query for the labels [ls]. *)
Definition question (ls : list bytes) : bytes := enc ls ++ [0; 0; 1; 0; 1].

Lemma write_u16_in p i w :
  0 <= i -> i + 2 <= len p -> write_u16 p i w = Some (splice (Z.to_nat i) (be16 w) p).
Proof.
  intros Hi Hl. unfold write_u16. rewrite wr_in by (cbn; lia). cbn [mbind option_bind].
  rewrite wr_in by (rewrite ?length_splice; cbn; lia). f_equal.
  rewrite Z2Nat.inj_add by lia. by rewrite (splice_splice _ [_] [_]) by (cbn; lia).
Qed.

Lemma length_be16 w : length (be16 w) = 2%nat.
Proof. done. Qed.

Ltac wr_side :=
  rewrite ?length_be16; first [lia | rewrite length_splice by wr_side; wr_side].

Definition query_header (qid : Z) : bytes := be16 qid ++ [1; 0; 0; 1; 0; 0; 0; 0; 0; 0].

Lemma dns_query_encode_ok qid name :
  exists e q, dns_query_encode qid (Some name) = Some (e, q) /\
    (e = NET_ERR_PARAM \/
     e = NET_ERR_OK /\ exists ls rest, Forall label_ok ls /\ name = text ls /\ ls <> [] /\
       len (enc ls) <= 254 /\ query_length q = 12 + len (question ls) /\
       query_bytes q = query_header qid ++ question ls ++ rest).
Proof.
  unfold dns_query_encode. destruct name as [|c name]; [eexists _, _; split; [done|]; by left|].
  cbn [query_bytes]. set (z := replicate 512 0).
  assert (Hz : len z = 512) by (unfold z; rewrite length_replicate; done).
  rewrite write_u16_in by lia. cbn [mbind option_bind].
  rewrite write_u16_in by wr_side. cbn [mbind option_bind].
  rewrite write_u16_in by wr_side. cbn [mbind option_bind].
  set (p := splice _ _ _).
  assert (Hp : p = query_header qid ++ replicate 500 0) by reflexivity.
  assert (Hlp : len p = 512) by (rewrite Hp, length_app, length_replicate; done).
  unfold append_name, DNS_HEADER_SIZE. destruct (append_name_loop_ok (length (c :: name)) p 12 1 (c :: name))
    as (e & p' & l' & -> & H2); [lia..|]. cbn [mbind option_bind].
  destruct H2 as [->|(-> & ls & Hls & Ht & Hsz & -> & ->)].
  { eexists _, _. split; [done|]. by left. }
  cbn [Z.ltb Z.compare NET_ERR_OK].
  assert (Hl2 : len (splice (Z.to_nat 12) (enc ls ++ [0]) p) = 512)
    by (rewrite length_splice; [done|rewrite length_app; cbn; lia]).
  rewrite write_u16_in by lia. cbn [mbind option_bind].
  rewrite write_u16_in by wr_side. cbn [mbind option_bind].
  eexists _, _. split; [done|]. right. split; [done|]. exists ls. eexists.
  split_and!; [done|done| |lia| |].
  - intros ->. done.
  - cbn. unfold question. rewrite length_app. cbn. lia.
  - cbn [query_bytes].
    replace (Z.to_nat (12 + len (enc ls) + 1)) with (Z.to_nat 12 + length (enc ls ++ [0%Z]))%nat
      by (rewrite length_app; cbn; lia).
    rewrite splice_splice by (rewrite length_app; cbn; lia).
    replace (Z.to_nat (12 + len (enc ls) + 1 + 2))
      with (Z.to_nat 12 + length ((enc ls ++ [0%Z]) ++ be16 DNS_TYPE_A))%nat
      by (rewrite !length_app; cbn; lia).
    rewrite splice_splice by (rewrite !length_app; cbn; lia). unfold splice at 1.
    rewrite Hp. change (Z.to_nat 12) with (length (query_header qid)). rewrite take_app_length.
    rewrite <- !app_assoc. unfold question. rewrite <- app_assoc. reflexivity.
Qed.

(** [parse_name] inverts [append_name]. *)
Lemma rd_at pre x rest : rd (pre ++ x :: rest) (len pre) = Some x.
Proof.
  unfold rd. rewrite (proj2 (Z.leb_le _ _)), Nat2Z.id by lia. by apply list_lookup_middle.
Qed.

Lemma text_cons l ls : ls <> [] -> text (l :: ls) = l ++ 46 :: text ls.
Proof. by destruct ls. Qed.

Lemma parse_name_loop_enc ls fuel packet length pre rest out :
  Forall label_ok ls -> packet = pre ++ enc ls ++ 0 :: rest -> length <= len packet ->
  len pre + len (enc ls) + 1 <= length -> (Datatypes.length ls < fuel)%nat ->
  len out + 1 + len (enc ls) < 256 ->
  (out = [] \/ 0 < len out) ->
  parse_name_loop fuel packet length (len pre) (Some 256) out None 0 =
    Some (NET_ERR_OK, (if len out =? 0 then text ls
                       else match ls with [] => out | _ => out ++ 46 :: text ls end),
          Some (len pre + len (enc ls) + 1)).
Proof.
  intros Hls. revert fuel pre out. induction Hls as [|l ls [Hl1 Hl2] Hls IH];
    intros fuel pre out Hp Hlen Hsz Hf Ho Hout; (destruct fuel as [|fuel]; [lia|]); cbn [parse_name_loop].
  - rewrite (proj2 (Z.leb_gt _ _)) by (cbn in *; lia). subst packet. cbn [enc app]. rewrite rd_at.
    cbn. rewrite (proj2 (Z.leb_gt _ _)) by (cbn in *; lia). rewrite Z.add_0_r.
    destruct Hout as [->|Hout]; [done|]. by rewrite (proj2 (Z.eqb_neq _ _)) by lia.
  - cbn [enc app Datatypes.length] in *. rewrite (proj2 (Z.leb_gt _ _)) by lia.
    rewrite Hp at 1. rewrite rd_at. cbn [mbind option_bind].
    rewrite length_app in *.
    assert (Hland : Z.land (len l) 192 = 0).
    { change 192 with (Z.shiftl 3 6). rewrite land_mask_shiftl, shiftr_div by lia.
      by rewrite Z.div_small by lia. }
    rewrite (proj2 (Z.eqb_neq (len l) 0)), Hland by lia. cbn [Z.eqb].
    rewrite (proj2 (orb_false_iff _ _)) by (split; [|lia]; apply orb_false_iff; split; [done|lia]).
    rewrite (proj2 (andb_false_iff _ _)) by lia.
    set (out' := if len out =? 0 then out else out ++ [46]).
    assert (Hout' : len out' <= len out + 1)
      by (subst out'; destruct (len out =? 0); rewrite ?length_app; cbn [Datatypes.length]; lia).
    rewrite (proj2 (Z.leb_gt _ _)) by lia. rewrite (proj2 (Z.ltb_ge _ _)) by lia.
    assert (Hdata : take (Z.to_nat (len l)) (drop (Z.to_nat (len pre + 1)) packet) = l).
    { replace (Z.to_nat (len pre + 1)) with (Datatypes.length (pre ++ [len l])) by (rewrite length_app; cbn; lia).
      rewrite Hp, Nat2Z.id. replace (pre ++ len l :: (l ++ enc ls) ++ 0 :: rest)
        with ((pre ++ [len l]) ++ l ++ (enc ls ++ 0 :: rest)) by (by rewrite <- !app_assoc).
      apply take_drop_app3. }
    rewrite Hdata.
    specialize (IH fuel (pre ++ len l :: l) (out' ++ l)).
    replace (len (pre ++ len l :: l)) with (len pre + 1 + len l) in IH by (rewrite length_app; cbn; lia).
    rewrite length_app in IH. rewrite IH; [| |done|cbn in *; lia|cbn in *; lia|cbn in *; lia|right; lia].
    + rewrite (proj2 (Z.eqb_neq (Z.of_nat (Datatypes.length out' + Datatypes.length l)) 0)) by lia.
      f_equal. f_equal; [f_equal|f_equal; cbn; lia]. subst out'.
      destruct (Z.eqb_spec (len out) 0); [assert (out = []) as -> by (by destruct out)|].
      * destruct ls; [done|]. by rewrite (text_cons l) by done.
      * destruct ls; [by rewrite <- app_assoc|]. rewrite (text_cons l) by done. by rewrite <- !app_assoc.
    + rewrite Hp. by rewrite <- !app_assoc.
Qed.

(** ** Queries and their responses *)

Lemma read_u16_at pre w rest : 0 <= w < 2 ^ 16 -> read_u16 (pre ++ be16 w ++ rest) (len pre) = Some w.
Proof.
  intros Hw. unfold read_u16, be16. cbn [app]. rewrite rd_at. cbn [mbind option_bind].
  replace (len pre + 1) with (len (pre ++ [u8 (Z.shiftr w 8)])) by (rewrite length_app; cbn; lia).
  replace (pre ++ u8 (Z.shiftr w 8) :: u8 w :: rest)
    with ((pre ++ [u8 (Z.shiftr w 8)]) ++ u8 w :: rest) by (by rewrite <- app_assoc).
  rewrite rd_at. cbn [mbind option_bind]. f_equal.
  rewrite shiftr_div, lor_shiftl_add by (unfold u8; zdm || lia). unfold u8. zdm.
Qed.

Lemma strlen_no_zero s : Forall (fun c => c <> 0) s -> strlen s = len s.
Proof.
  induction 1 as [|c s Hc _ IH]; [done|]. cbn [strlen].
  rewrite (proj2 (Z.eqb_neq _ _)) by done. rewrite IH. cbn [length]. lia.
Qed.

(** The answer record a server adds: a pointer to the name of the question,
    type A, class IN, a time to live and an address. *)
Definition answer (ttl addr : bytes) : bytes :=
  [0xc0; 0x0c] ++ be16 DNS_TYPE_A ++ be16 DNS_CLASS_IN ++ ttl ++ be16 4 ++ addr.

(** A response with the question section of a query. *)
Definition response (qid flags answers : Z) (counts question ttl addr rest : bytes) : bytes :=
  be16 qid ++ be16 flags ++ be16 1 ++ be16 answers ++ counts ++ question ++ answer ttl addr ++ rest.

Lemma parse_name_loop_skip ls fuel packet length pre rest out next jumps :
  Forall label_ok ls -> packet = pre ++ enc ls ++ 0 :: rest -> length <= len packet ->
  len pre + len (enc ls) + 1 <= length -> (Datatypes.length ls < fuel)%nat ->
  parse_name_loop fuel packet length (len pre) None out next jumps =
    Some (NET_ERR_OK, out,
          match next with None => Some (len pre + len (enc ls) + 1) | _ => next end).
Proof.
  intros Hls. revert fuel pre. induction Hls as [|l ls [Hl1 Hl2] Hls IH];
    intros fuel pre Hp Hlen Hsz Hf; (destruct fuel as [|fuel]; [lia|]); cbn [parse_name_loop].
  - rewrite (proj2 (Z.leb_gt _ _)) by (cbn in *; lia). subst packet. cbn [enc app]. rewrite rd_at.
    cbn. by rewrite Z.add_0_r.
  - cbn [enc app Datatypes.length] in *. rewrite (proj2 (Z.leb_gt _ _)) by lia.
    rewrite Hp at 1. rewrite rd_at. cbn [mbind option_bind]. rewrite length_app in *.
    assert (Hland : Z.land (len l) 192 = 0).
    { change 192 with (Z.shiftl 3 6). rewrite land_mask_shiftl, shiftr_div by lia.
      by rewrite Z.div_small by lia. }
    rewrite (proj2 (Z.eqb_neq (len l) 0)), Hland by lia. cbn [Z.eqb].
    rewrite (proj2 (orb_false_iff _ _)) by (split; [|lia]; apply orb_false_iff; split; [done|lia]).
    specialize (IH fuel (pre ++ len l :: l)).
    replace (len (pre ++ len l :: l)) with (len pre + 1 + len l) in IH by (rewrite length_app; cbn; lia).
    rewrite IH; [|rewrite Hp; by rewrite <- !app_assoc|done|lia|lia].
    destruct next; [done|]. do 3 f_equal. cbn. lia.
Qed.

Lemma enc_length ls : Forall label_ok ls -> (length ls <= length (enc ls))%nat.
Proof. induction 1 as [|l ls [H _] _ IH]; cbn; [done|]. rewrite length_app. lia. Qed.

Section roundtrip.
Context (h : bytes) (ls : list bytes) (ttl addr rest : bytes).
Context (Hh : len h = 12) (Hls : Forall label_ok ls) (Hsz : len (enc ls) <= 254).
Context (Httl : len ttl = 4) (Haddr : len addr = 4).

Let resp : bytes := h ++ enc ls ++ [0; 0; 1; 0; 1] ++ answer ttl addr ++ rest.
Let e : Z := 12 + len (enc ls).

Lemma resp_length : len resp = e + 21 + len rest.
Proof. unfold resp, e, answer. rewrite !length_app. cbn [length be16]. lia. Qed.

Lemma resp_fuel : (length ls + 2 <= parse_fuel (len resp))%nat.
Proof.
  pose proof (enc_length ls Hls). pose proof resp_length. unfold parse_fuel, e in *.
  assert (Z.of_nat (length ls) <= len resp) by lia. nia.
Qed.

Lemma resp_question :
  parse_name resp (len resp) 12 (Some 256) = Some (NET_ERR_OK, text ls, Some (e + 1)).
Proof.
  pose proof resp_length as Hl. pose proof resp_fuel. unfold e in *. unfold parse_name.
  rewrite (proj2 (orb_false_iff _ _)) by lia. rewrite <- Hh at 1.
  rewrite (parse_name_loop_enc ls _ resp (len resp) h ([0; 1; 0; 1] ++ answer ttl addr ++ rest));
    [by rewrite Hh|done|done|done|lia|lia|cbn; lia|by left].
Qed.

(** Reading a 16-bit field after the first [pre] bytes. *)
Lemma resp_field pre w post i :
  resp = pre ++ be16 w ++ post -> len pre = i -> 0 <= w < 2 ^ 16 -> read_u16 resp i = Some w.
Proof. intros -> <- Hw. by apply read_u16_at. Qed.

Lemma resp_type : read_u16 resp (e + 1) = Some 1 /\ read_u16 resp (e + 3) = Some 1.
Proof.
  split; [apply (resp_field (h ++ enc ls ++ [0]) 1 ([0; 1] ++ answer ttl addr ++ rest))
         |apply (resp_field (h ++ enc ls ++ [0; 0; 1]) 1 (answer ttl addr ++ rest))];
    unfold resp, e; rewrite <- ?app_assoc; try done; rewrite !length_app; cbn; lia.
Qed.

Lemma resp_pointer :
  parse_name resp (len resp) (e + 5) None = Some (NET_ERR_OK, [], Some (e + 7)).
Proof.
  pose proof resp_length as Hl. pose proof resp_fuel as Hf. unfold parse_name.
  assert (He : 12 <= e) by (unfold e; lia).
  rewrite (proj2 (orb_false_iff _ _)) by lia.
  destruct (parse_fuel (len resp)) as [|f]; [lia|]. cbn [parse_name_loop].
  rewrite (proj2 (Z.leb_gt _ _)) by lia.
  set (pre := h ++ enc ls ++ [0; 0; 1; 0; 1]).
  assert (Hpre : len pre = e + 5) by (unfold pre, e; rewrite !length_app; cbn; lia).
  assert (H1 : rd resp (e + 5) = Some 0xc0).
  { rewrite <- Hpre. unfold resp. replace (h ++ _) with (pre ++ answer ttl addr ++ rest)
      by (unfold pre; by rewrite <- !app_assoc). apply rd_at. }
  assert (H2 : rd resp (e + 5 + 1) = Some 0x0c).
  { replace (e + 5 + 1) with (len (pre ++ [0xc0])) by (rewrite length_app; cbn; lia).
    unfold resp. replace (h ++ _) with ((pre ++ [0xc0]) ++ 0x0c ::
        be16 DNS_TYPE_A ++ be16 DNS_CLASS_IN ++ ttl ++ be16 4 ++ addr ++ rest)
      by (unfold pre, answer; by rewrite <- !app_assoc). apply rd_at. }
  rewrite H1. cbn [mbind option_bind]. change (0xc0 =? 0) with false.
  change (Z.land 0xc0 0xc0 =? 0xc0) with true. cbv iota. rewrite (proj2 (Z.leb_gt _ _)) by lia.
  rewrite (proj2 (Z.ltb_ge _ _)) by lia. rewrite H2. cbn [mbind option_bind].
  change (Z.lor _ _) with 12. rewrite (proj2 (Z.leb_gt _ _)) by lia. rewrite <- Hh.
  rewrite (parse_name_loop_skip ls f resp (len resp) h ([0; 1; 0; 1] ++ answer ttl addr ++ rest));
    [|done|done|done|unfold e in *; lia|lia].
  do 3 f_equal. lia.
Qed.

Lemma resp_answer n :
  answers_loop (S n) resp (len resp) (e + 5) = Some (NET_ERR_OK, Some (ipaddr_from_buf addr)).
Proof.
  pose proof resp_length as Hl. cbn [answers_loop]. rewrite resp_pointer.
  cbn [mbind option_bind]. change (NET_ERR_OK <? 0) with false. cbv iota.
  rewrite (proj2 (Z.ltb_ge _ _)) by lia.
  set (pre := h ++ enc ls ++ [0; 0; 1; 0; 1; 0xc0; 0x0c]).
  assert (Hpre : len pre = e + 7) by (unfold pre, e; rewrite !length_app; cbn; lia).
  assert (Hresp : resp = pre ++ be16 DNS_TYPE_A ++ be16 DNS_CLASS_IN ++ ttl ++ be16 4 ++ addr ++ rest)
    by (unfold resp, pre, answer; by rewrite <- !app_assoc).
  rewrite (resp_field pre DNS_TYPE_A (be16 DNS_CLASS_IN ++ ttl ++ be16 4 ++ addr ++ rest) (e + 7))
    by first [exact Hresp|exact Hpre|unfold DNS_TYPE_A; lia].
  cbn [mbind option_bind].
  rewrite (resp_field (pre ++ be16 DNS_TYPE_A) DNS_CLASS_IN (ttl ++ be16 4 ++ addr ++ rest) (e + 7 + 2))
    by (rewrite ?length_app; rewrite <- ?app_assoc; first [exact Hresp|unfold DNS_CLASS_IN; lia|cbn; lia]).
  cbn [mbind option_bind].
  rewrite (resp_field (pre ++ be16 DNS_TYPE_A ++ be16 DNS_CLASS_IN ++ ttl) 4 (addr ++ rest) (e + 7 + 8))
    by (rewrite ?length_app; rewrite <- ?app_assoc; first [exact Hresp|unfold DNS_CLASS_IN; lia|cbn; lia]).
  cbn [mbind option_bind]. rewrite (proj2 (Z.ltb_ge _ _)) by lia.
  change (_ && _) with true. cbv iota.
  replace (take 4 _) with addr; [by rewrite (proj2 (Z.ltb_ge _ _)) by lia|].
  set (pre2 := pre ++ be16 DNS_TYPE_A ++ be16 DNS_CLASS_IN ++ ttl ++ be16 4).
  replace resp with (pre2 ++ addr ++ rest) by (rewrite Hresp; unfold pre2; by rewrite <- !app_assoc).
  replace (Z.to_nat (e + 7 + 10)) with (length pre2) by (unfold pre2; rewrite !length_app; cbn; lia).
  replace 4%nat with (length addr) by lia. by rewrite take_drop_app3.
Qed.

End roundtrip.

(** C39: a query encodes its name so that the server's answer is understood:
    for every name [dns_query_encode] accepts, a response that repeats the
    identifier and the question section of that query and adds an A record is
    accepted by [dns_response_parse], which returns the record's address. *)
Theorem dns_query_response qid name q flags answers counts ttl addr rest :
  dns_query_encode qid (Some name) = Some (NET_ERR_OK, q) ->
  0 <= qid < 2 ^ 16 -> Forall (fun c => c <> 0) name ->
  0 <= flags < 2 ^ 16 -> Z.land flags DNS_FLAG_RESPONSE <> 0 ->
  Z.land flags DNS_FLAG_TRUNCATED = 0 -> Z.land flags 0x000f = 0 ->
  1 <= answers < 2 ^ 16 -> len counts = 4 -> len ttl = 4 -> len addr = 4 ->
  let resp := response qid flags answers counts
    (take (Z.to_nat (query_length q - 12)) (drop 12 (query_bytes q))) ttl addr rest in
  dns_response_parse resp (len resp) qid name = Some (NET_ERR_OK, Some (ipaddr_from_buf addr)).
Proof.
  intros Hq Hid Hnz Hfl F1 F2 F3 Han Hcn Httl Hadr.
  destruct (dns_query_encode_ok qid name) as (e & q' & Hq' & H). rewrite Hq in Hq'. simplify_eq.
  destruct H as [[=]|(_ & ls & qrest & Hls & -> & Hne & Hsz & Hql & Hqb)].
  rewrite Hql, Hqb. replace (12 + _ - 12) with (len (question ls)) by lia. rewrite Nat2Z.id.
  change 12%nat with (length (query_header qid)). rewrite take_drop_app3. intros resp.
  set (h := be16 qid ++ be16 flags ++ be16 1 ++ be16 answers ++ counts).
  assert (Hh : len h = 12) by (unfold h; rewrite !length_app; cbn; lia).
  assert (Hr : resp = h ++ enc ls ++ [0; 0; 1; 0; 1] ++ answer ttl addr ++ rest)
    by (subst resp h; unfold response, question; by rewrite <- !app_assoc).
  assert (R0 : read_u16 resp 0 = Some qid) by (by apply (read_u16_at [])).
  assert (R2 : read_u16 resp 2 = Some flags) by (by apply (read_u16_at (be16 qid))).
  assert (R4 : read_u16 resp 4 = Some 1) by (by apply (read_u16_at (be16 qid ++ be16 flags))).
  assert (R6 : read_u16 resp 6 = Some answers)
    by (apply (read_u16_at (be16 qid ++ be16 flags ++ be16 1)); lia).
  pose proof (resp_length h ls ttl addr rest Hh Httl Hadr) as Hlr.
  pose proof (resp_question h ls ttl addr rest Hh Hls Hsz Httl Hadr) as Hpq.
  destruct (resp_type h ls ttl addr rest Hh) as [Hty Hcl].
  pose proof (resp_answer h ls ttl addr rest Hh Hls Hsz Httl Hadr (Z.to_nat answers - 1)) as Hans.
  rewrite <- Hr in Hlr, Hpq, Hty, Hcl, Hans. clearbody resp.
  unfold dns_response_parse, DNS_HEADER_SIZE. rewrite (proj2 (Z.ltb_ge _ _)) by lia.
  rewrite R0. cbn [mbind option_bind]. rewrite Z.eqb_refl, R2. cbn [mbind option_bind negb].
  rewrite (proj2 (Z.eqb_neq _ _) F1), F2, F3, R4. cbn [mbind option_bind negb Z.eqb]. rewrite R6.
  cbn [mbind option_bind negb Z.eqb orb Pos.eqb]. rewrite (proj2 (Z.eqb_neq _ _)) by lia. cbn [orb].
  rewrite Hpq. cbn [mbind option_bind]. change (NET_ERR_OK <? 0) with false. cbv iota.
  rewrite strlen_no_zero, Z.eqb_refl, take_ge, bool_decide_true by done. cbn [negb orb].
  rewrite (proj2 (Z.ltb_ge _ _)) by lia. rewrite Hty. cbn [mbind option_bind].
  replace (_ + 1 + 2) with (12 + len (enc ls) + 3) by lia. rewrite Hcl. cbn [mbind option_bind].
  change (negb _ || negb _) with false. cbv iota.
  replace (Z.to_nat answers) with (S (Z.to_nat answers - 1)) by lia.
  replace (_ + 1 + 4) with (12 + len (enc ls) + 5) by lia. exact Hans.
Qed.

(** ** Witnesses *)

(** A response whose only name points to itself. *)
Definition self_pointer : bytes :=
  be16 7 ++ be16 0x8180 ++ be16 1 ++ be16 1 ++ [0; 0; 0; 0; 0xc0; 0x0c].

Lemma dns_response_parse_total_witness :
  exists e addr, dns_response_parse self_pointer 14 7 [97] = Some (e, addr) /\
    (forall r, parse_name self_pointer 14 DNS_HEADER_SIZE (Some 256) = Some r -> len r.1.2 <= 256).
Proof.
  apply dns_response_parse_total; [|cbn; lia].
  apply (bool_decide_unpack _). by vm_compute.
Defined.

(** "a.bc" is answered with 10.0.2.3. *)
Lemma dns_query_response_witness :
  exists q, dns_query_encode 5 (Some [97; 46; 98; 99]) = Some (NET_ERR_OK, q) /\
    let resp := response 5 0x8180 1 [0; 0; 0; 0]
      (take (Z.to_nat (query_length q - 12)) (drop 12 (query_bytes q))) [0; 0; 0; 60] [10; 0; 2; 3] [] in
    dns_response_parse resp (len resp) 5 [97; 46; 98; 99] =
      Some (NET_ERR_OK, Some (ipaddr_from_buf [10; 0; 2; 3])).
Proof.
  eexists. split; [vm_compute; reflexivity|].
  apply dns_query_response; [vm_compute; reflexivity|lia|by repeat constructor|lia|done|done|done|lia|done..].
Defined.
