(* ===== verification/Virtqueue.v ===== *)
(** * Split virtqueues (virtqueue.c)

    The descriptor table, the available ring and the used ring are memory
    shared with the device.  [virtq_submit] publishes the head of a chain of
    descriptors, the device hands it back through the used ring.  [q] and the
    pointer arguments are not null here; an index outside an array is stuck. *)

From S2P Require Import Prelude.

(** ** Definitions *)

Definition VIRTQ_NUM : nat := 8.
Abbreviation NUM := (Z.of_nat VIRTQ_NUM).
Definition VIRTQ_PAGE_SIZE : Z := 4096.
Definition VRING_DESC_F_NEXT : Z := 1.
Definition VRING_DESC_F_WRITE : Z := 2.

Record virtq_desc := Desc { addr : Z; d_len : Z; d_flags : Z; d_next : Z }.
Record virtq_used_elem := UsedElem { u_id : Z; u_len : Z }.

Record virtqueue := Virtqueue {
  desc : list virtq_desc;
  avail_idx : Z; avail_ring : list Z;
  dev_used_idx : Z; used_ring : list virtq_used_elem;
  free : list bool; active : list bool;
  used_idx : Z; free_count : Z }.
#[global] Instance desc_settable : Settable virtq_desc :=
  fun r => Desc (addr r) (d_len r) (d_flags r) (d_next r).
#[global] Instance virtqueue_settable : Settable virtqueue := fun r =>
  Virtqueue (desc r) (avail_idx r) (avail_ring r) (dev_used_idx r) (used_ring r)
    (free r) (active r) (used_idx r) (free_count r).

Definition zero_desc : virtq_desc := Desc 0 0 0 0.

(** [pages] is the address of the two pages of the queue. *)
Definition virtq_init (pages : option Z) (num : Z) : M virtqueue Z :=
  match pages with
  | None => mret (-1)
  | Some p =>
      if negb (num =? NUM) || negb (Z.land p (VIRTQ_PAGE_SIZE - 1) =? 0) then mret (-1)
      else
        modify (fun _ => Virtqueue (replicate VIRTQ_NUM zero_desc) 0 (replicate VIRTQ_NUM 0)
                           0 (replicate VIRTQ_NUM (UsedElem 0 0))
                           (replicate VIRTQ_NUM true) (replicate VIRTQ_NUM false) 0 NUM);;
        mret 0
  end.

Definition idx {A} (l : list A) (i : Z) : M virtqueue A :=
  deref (if 0 <=? i then l !! Z.to_nat i else None).

Definition set_desc (i : Z) (f : virtq_desc -> virtq_desc) : M virtqueue unit :=
  q ← get; d ← idx (desc q) i;
  modify (fun q => q <| desc := <[Z.to_nat i := f d]> (desc q) |>).

Definition set_free (i : Z) (v : bool) : M virtqueue unit :=
  q ← get; _ ← idx (free q) i;
  modify (fun q => q <| free := <[Z.to_nat i := v]> (free q) |>).

Definition set_active (i : Z) (v : bool) : M virtqueue unit :=
  q ← get; _ ← idx (active q) i;
  modify (fun q => q <| active := <[Z.to_nat i := v]> (active q) |>).

(** The scan of [alloc_desc] from index [i] on. *)
Fixpoint alloc_desc_loop (n : nat) (i : Z) : M virtqueue Z :=
  match n with
  | O => mret (-1)
  | S n =>
      q ← get; f ← idx (free q) i;
      if (f : bool) then
        set_free i false;;
        modify (fun q => q <| free_count := u16 (free_count q - 1) |>);;
        set_desc i (fun _ => zero_desc);;
        mret i
      else alloc_desc_loop n (i + 1)
  end.

Definition alloc_desc : M virtqueue Z := alloc_desc_loop VIRTQ_NUM 0.

Definition release_desc (i : Z) : M virtqueue unit :=
  set_desc i (fun _ => zero_desc);;
  set_free i true;;
  modify (fun q => q <| free_count := u16 (free_count q + 1) |>).

Fixpoint release_all (l : list Z) : M virtqueue unit :=
  match l with
  | [] => mret ()
  | i :: l => release_desc i;; release_all l
  end.

(** [indices] holds the descriptors allocated so far; [n] are left to do. *)
Fixpoint alloc_chain_loop (n : nat) (indices : list Z) : M virtqueue (Z * list Z) :=
  match n with
  | O => mret (0, indices)
  | S n =>
      index ← alloc_desc;
      if index <? 0 then release_all indices;; mret (-1, indices)
      else
        match last indices with
        | Some previous =>
            set_desc previous (fun d => d <| d_flags := Z.lor (d_flags d) VRING_DESC_F_NEXT |>
                                          <| d_next := u16 index |>)
        | None => mret ()
        end;;
        alloc_chain_loop n (indices ++ [index])
  end.

Definition virtq_alloc_chain (count : Z) : M virtqueue (Z * list Z) :=
  if (count <? 1) || (NUM <? count) then mret (-1, [])
  else alloc_chain_loop (Z.to_nat count) [].

(** The walk of [virtq_free_chain]; [None] is a malformed chain. *)
Fixpoint chain_loop (fuel : nat) (seen : list Z) (index : Z) : M virtqueue (option (list Z)) :=
  if NUM <=? index then mret None
  else
    q ← get; f ← idx (free q) index;
    if (f : bool) || bool_decide (index ∈ seen) || (NUM <=? len seen) then mret None
    else
      d ← idx (desc q) index;
      let seen := seen ++ [index] in
      if Z.land (d_flags d) VRING_DESC_F_NEXT =? 0 then mret (Some seen)
      else match fuel with
           | O => stuck
           | S fuel => chain_loop fuel seen (d_next d)
           end.

Definition virtq_free_chain (head : Z) : M virtqueue Z :=
  if NUM <=? head then mret (-1)
  else
    q ← get; f ← idx (free q) head; a ← idx (active q) head;
    if (f : bool) || (a : bool) then mret (-1)
    else
      chain ← chain_loop VIRTQ_NUM [] head;
      match chain with
      | None => mret (-1)
      | Some chain => release_all chain;; mret (len chain)
      end.

Definition virtq_submit (head : Z) : M virtqueue unit :=
  if NUM <=? head then mret ()
  else
    q ← get; f ← idx (free q) head; a ← idx (active q) head;
    if (f : bool) || (a : bool) then mret ()
    else
      set_active head true;;
      _ ← idx (avail_ring q) (avail_idx q mod NUM);
      modify (fun q => q <| avail_ring := <[Z.to_nat (avail_idx q mod NUM) := head]> (avail_ring q) |>
                         <| avail_idx := u16 (avail_idx q + 1) |>).

(** The result with [*head] and [*length] when they are stored. *)
Definition virtq_pop_used_len : M virtqueue (Z * option (Z * Z)) :=
  q ← get;
  if used_idx q =? dev_used_idx q then mret (0, None)
  else
    e ← idx (used_ring q) (used_idx q mod NUM);
    modify (fun q => q <| used_idx := u16 (used_idx q + 1) |>);;
    if NUM <=? u_id e then mret (-1, None)
    else
      a ← idx (active q) (u_id e);
      if negb a then mret (-1, None)
      else
        set_active (u_id e) false;;
        mret (1, Some (u16 (u_id e), u_len e)).

Definition virtq_pop_used : M virtqueue (Z * option Z) :=
  r ← virtq_pop_used_len; mret (r.1, fst <$> r.2).

Definition virtq_free_count : M virtqueue Z := gets free_count.

(** ** Chains *)

(** The descriptors [c], linked in this order. *)
Definition linked (ds : list virtq_desc) (c : list nat) : Prop :=
  forall k i, c !! k = Some i -> exists d, ds !! i = Some d /\
    match c !! S k with
    | Some j => Z.land (d_flags d) VRING_DESC_F_NEXT <> 0 /\ d_next d = Z.of_nat j
    | None => Z.land (d_flags d) VRING_DESC_F_NEXT = 0
    end.

(** The queue holds the chains [cs]; those with their head in [act] are with
    the device. *)
Record vq_rep (q : virtqueue) (cs : list (list nat)) (act : list nat) : Prop := VqRep {
  rep_desc : length (desc q) = VIRTQ_NUM;
  rep_free_len : length (free q) = VIRTQ_NUM;
  rep_active_len : length (active q) = VIRTQ_NUM;
  rep_avail : length (avail_ring q) = VIRTQ_NUM;
  rep_used : length (used_ring q) = VIRTQ_NUM /\ Forall (fun e => 0 <= u_id e) (used_ring q);
  rep_idx : 0 <= avail_idx q /\ 0 <= used_idx q;
  rep_nodup : NoDup (concat cs);
  rep_in : Forall (fun i => i < VIRTQ_NUM)%nat (concat cs);
  rep_free : forall i, (i < VIRTQ_NUM)%nat -> free q !! i = Some (bool_decide (i ∉ concat cs));
  rep_count : free_count q = NUM - len (concat cs);
  rep_active : forall i, (i < VIRTQ_NUM)%nat -> active q !! i = Some (bool_decide (i ∈ act));
  rep_heads : forall h, h ∈ act -> exists c, c ∈ cs /\ head c = Some h;
  rep_linked : Forall (linked (desc q)) cs;
  rep_act : NoDup act }.

Lemma idx_ret {A} (l : list A) (i : nat) x q : l !! i = Some x -> idx l (Z.of_nat i) q = Ret x q.
Proof. intros H. unfold idx. rewrite (proj2 (Z.leb_le _ _)), Nat2Z.id by lia. by apply deref_ret. Qed.

Lemma set_desc_ret q i d f :
  desc q !! i = Some d ->
  set_desc (Z.of_nat i) f q = Ret () (q <| desc := <[i := f d]> (desc q) |>).
Proof. intros H. unfold set_desc. mstep. mstep by (by apply idx_ret). by rewrite Nat2Z.id. Qed.

Lemma set_free_ret q i b v :
  free q !! i = Some b -> set_free (Z.of_nat i) v q = Ret () (q <| free := <[i := v]> (free q) |>).
Proof. intros H. unfold set_free. mstep. mstep by (by apply idx_ret). by rewrite Nat2Z.id. Qed.

Lemma set_active_ret q i b v :
  active q !! i = Some b ->
  set_active (Z.of_nat i) v q = Ret () (q <| active := <[i := v]> (active q) |>).
Proof. intros H. unfold set_active. mstep. mstep by (by apply idx_ret). by rewrite Nat2Z.id. Qed.

Lemma linked_insert ds c i d : i ∉ c -> linked ds c -> linked (<[i := d]> ds) c.
Proof.
  intros Hi Hl k j Hk. destruct (Hl k j Hk) as (d' & Hd & Hn). exists d'. split; [|done].
  rewrite list_lookup_insert_ne; [done|]. intros ->. apply Hi. by apply list_elem_of_lookup_2 with k.
Qed.

Lemma Forall_linked_insert ds cs i d :
  i ∉ concat cs -> Forall (linked ds) cs -> Forall (linked (<[i := d]> ds)) cs.
Proof.
  intros Hi. rewrite !Forall_forall. intros H c Hc. apply linked_insert; [|auto].
  intros ?. apply Hi. rewrite list_elem_of_In, in_concat. exists c. by rewrite <- !list_elem_of_In.
Qed.

Lemma bool_decide_insert_in (i j : nat) l :
  j <> i -> bool_decide (j ∉ i :: l) = bool_decide (j ∉ l).
Proof. intros. apply bool_decide_ext. set_solver. Qed.

(** Changing only the flags of one descriptor of the arrays. *)
Lemma free_array (fr : list bool) (l l' : list nat) i b :
  length fr = VIRTQ_NUM -> (i < VIRTQ_NUM)%nat ->
  (forall j, (j < VIRTQ_NUM)%nat -> fr !! j = Some (bool_decide (j ∉ l))) ->
  b = bool_decide (i ∉ l') -> (forall j, j <> i -> j ∈ l' <-> j ∈ l) ->
  forall j, (j < VIRTQ_NUM)%nat -> <[i := b]> fr !! j = Some (bool_decide (j ∉ l')).
Proof.
  intros Hl Hi Hf -> Hj j Hlt. destruct (decide (j = i)) as [->|Hne].
  - by rewrite list_lookup_insert_eq by lia.
  - rewrite list_lookup_insert_ne, Hf by done. f_equal. apply bool_decide_ext. by rewrite Hj.
Qed.

Lemma rep_free_range q cs act : vq_rep q cs act -> len (concat cs) <= NUM.
Proof.
  intros H. assert (length (concat cs) <= length (seq 0 VIRTQ_NUM))%nat; [|rewrite length_seq in *; lia].
  apply submseteq_length, NoDup_submseteq; [apply H|]. intros i Hi. apply elem_of_seq.
  pose proof (rep_in _ _ _ H) as Hin. rewrite Forall_forall in Hin. specialize (Hin i Hi). lia.
Qed.

(** A descriptor taken from the free ones is a chain of its own. *)
Lemma take_desc q cs act i :
  vq_rep q cs act -> (i < VIRTQ_NUM)%nat -> i ∉ concat cs ->
  vq_rep (q <| free := <[i := false]> (free q) |> <| free_count := u16 (free_count q - 1) |>
            <| desc := <[i := zero_desc]> (desc q) |>) ([i] :: cs) act.
Proof.
  intros H Hi Hn. pose proof (rep_free_range _ _ _ H) as Hr.
  assert (Hlt : len (concat cs) + 1 <= NUM).
  { assert (length (i :: concat cs) <= length (seq 0 VIRTQ_NUM))%nat; [|rewrite length_seq in *; cbn in *; lia].
    apply submseteq_length, NoDup_submseteq; [constructor; [done|apply H]|].
    intros j Hj. apply elem_of_seq. pose proof (rep_in _ _ _ H) as Hin. rewrite Forall_forall in Hin.
    apply elem_of_cons in Hj as [-> | Hj]; [lia|]. specialize (Hin j Hj). lia. }
  destruct H. split; cbn; rewrite ?length_insert; try done.
  - by constructor.
  - by constructor.
  - eapply free_array; [done|done|exact rep_free0| |set_solver].
    symmetry. apply bool_decide_false. set_solver.
  - rewrite rep_count0, u16_small by (change NUM with 8 in *; lia). lia.
  - intros h Hh. destruct (rep_heads0 h Hh) as (c & ? & ?). exists c. set_solver.
  - constructor; [|by apply Forall_linked_insert].
    intros [|k] j [= <-]. exists zero_desc. by rewrite list_lookup_insert_eq by lia.
Qed.

Lemma alloc_desc_spec q cs act :
  vq_rep q cs act ->
  (exists i q', alloc_desc q = Ret (Z.of_nat i) q' /\ vq_rep q' ([i] :: cs) act /\ i ∉ concat cs) \/
  (alloc_desc q = Ret (-1) q /\ len (concat cs) = NUM).
Proof.
  intros H. unfold alloc_desc.
  assert (Hloop : forall n i, (i + n = VIRTQ_NUM)%nat ->
    (forall j, (j < i)%nat -> j ∈ concat cs) ->
    (exists i' q', alloc_desc_loop n (Z.of_nat i) q = Ret (Z.of_nat i') q' /\
       vq_rep q' ([i'] :: cs) act /\ i' ∉ concat cs) \/
    (alloc_desc_loop n (Z.of_nat i) q = Ret (-1) q /\ len (concat cs) = NUM)).
  { induction n as [|n IH]; intros i Hn Hbelow; cbn [alloc_desc_loop].
    - right. split; [done|]. pose proof (rep_free_range _ _ _ H).
      assert (length (seq 0 VIRTQ_NUM) <= length (concat cs))%nat; [|rewrite length_seq in *; lia].
      apply submseteq_length, NoDup_submseteq; [apply NoDup_seq|].
      intros j Hj%elem_of_seq. apply Hbelow. lia.
    - assert (Hi : (i < VIRTQ_NUM)%nat) by lia. pose proof (rep_free _ _ _ H i Hi) as Hfi.
      mstep. mstep by (by apply idx_ret). case_bool_decide as Hd.
      + left. eexists i, _. split; [|split; [by eapply take_desc|done]].
        mstep by (by eapply set_free_ret). mstep.
        destruct (lookup_lt_is_Some_2 (desc q) i) as [d Hdi]; [rewrite (rep_desc _ _ _ H); done|].
        mstep by (by eapply set_desc_ret). done.
      + replace (Z.of_nat i + 1) with (Z.of_nat (S i)) by lia. apply IH; [lia|].
        intros j Hj. destruct (decide (j = i)) as [->|]; [destruct (decide (i ∈ concat cs)); done|apply Hbelow; lia]. }
  apply (Hloop VIRTQ_NUM 0%nat); [done|lia].
Qed.

(** Rewriting the descriptor table and regrouping the same descriptors. *)
Lemma rep_change q ds cs cs' act :
  vq_rep q cs act -> length ds = VIRTQ_NUM -> concat cs' ≡ₚ concat cs ->
  (forall h, h ∈ act -> exists c, c ∈ cs' /\ head c = Some h) -> Forall (linked ds) cs' ->
  vq_rep (q <| desc := ds |>) cs' act.
Proof.
  intros H Hds Hp Hh Hl. destruct H. split; cbn; try done.
  - by rewrite Hp.
  - by rewrite Hp.
  - intros i Hi. rewrite rep_free0 by done. f_equal. apply bool_decide_ext. by rewrite Hp.
  - by rewrite Hp.
Qed.

Lemma rep_group q cs cs' act :
  vq_rep q cs act -> concat cs' ≡ₚ concat cs ->
  (forall h, h ∈ act -> exists c, c ∈ cs' /\ head c = Some h) -> Forall (linked (desc q)) cs' ->
  vq_rep q cs' act.
Proof.
  intros H. replace q with (q <| desc := desc q |>) at 2 by (by destruct q).
  apply rep_change; apply H.
Qed.

Lemma linked_snoc ds c0 p i d di f :
  NoDup ((c0 ++ [p]) ++ [i]) -> linked ds (c0 ++ [p]) ->
  ds !! p = Some d -> ds !! i = Some di -> Z.land (d_flags di) VRING_DESC_F_NEXT = 0 ->
  Z.land f VRING_DESC_F_NEXT <> 0 ->
  linked (<[p := d <| d_flags := f |> <| d_next := Z.of_nat i |>]> ds) ((c0 ++ [p]) ++ [i]).
Proof.
  intros Hnd Hl Hd Hdi Hfi Hf k j Hk.
  assert (Hplt : (p < length ds)%nat) by (by eapply lookup_lt_Some).
  assert (Hpos : forall k', ((c0 ++ [p]) ++ [i]) !! k' = Some p -> k' = length c0).
  { intros k' Hk'. eapply NoDup_lookup; [exact Hnd|exact Hk'|].
    rewrite lookup_app_l by (rewrite length_app; cbn; lia). by rewrite lookup_app_r, Nat.sub_diag. }
  destruct (decide (j = p)) as [->|Hjp].
  - apply Hpos in Hk as ->. eexists. split; [by apply list_lookup_insert_eq|].
    rewrite lookup_app_r by (rewrite length_app; cbn; lia).
    replace (S (length c0) - length (c0 ++ [p]))%nat with 0%nat by (rewrite length_app; cbn; lia). done.
  - rewrite list_lookup_insert_ne by done. apply lookup_app_Some in Hk as [Hk|[Hge Hk]].
    + destruct (Hl k j Hk) as (d' & Hd' & Hn). exists d'. split; [done|].
      destruct (decide (S k < length (c0 ++ [p]))%nat) as [Hlt|Hge].
      * by rewrite lookup_app_l.
      * apply lookup_lt_Some in Hk as Hk'. rewrite length_app in *. cbn in *.
        assert (k = length c0) as -> by lia. rewrite lookup_app_r, Nat.sub_diag in Hk by done.
        cbn in Hk; congruence.
    + apply list_lookup_singleton_Some in Hk as [Hk0 <-]. exists di. split; [done|].
      rewrite lookup_ge_None_2; [done|]. rewrite !length_app in *. cbn in *. lia.
Qed.

Lemma lor_bit0 z : Z.land (Z.lor z VRING_DESC_F_NEXT) VRING_DESC_F_NEXT <> 0.
Proof.
  intros E. assert (Z.testbit (Z.land (Z.lor z 1) 1) 0 = false) as E'
    by (unfold VRING_DESC_F_NEXT in E; by rewrite E).
  rewrite Z.land_spec, Z.lor_spec in E'. cbn in E'. by rewrite orb_true_r in E'.
Qed.

(** Linking a fresh descriptor behind the last one of a chain. *)
Lemma link_desc q cs act c p i :
  vq_rep q ([i] :: c :: cs) act -> last c = Some p -> i ∉ act ->
  exists q', set_desc (Z.of_nat p) (fun d => d <| d_flags := Z.lor (d_flags d) VRING_DESC_F_NEXT |>
      <| d_next := u16 (Z.of_nat i) |>) q = Ret () q' /\
    vq_rep q' ((c ++ [i]) :: cs) act.
Proof.
  intros H Hp Hia. apply last_Some in Hp as [c0 ->].
  pose proof (rep_nodup _ _ _ H) as Hnd. pose proof (rep_in _ _ _ H) as Hin. cbn in Hnd, Hin.
  assert (Hp8 : (p < VIRTQ_NUM)%nat) by (rewrite Forall_forall in Hin; apply Hin; set_solver).
  assert (Hi8 : (i < VIRTQ_NUM)%nat) by (rewrite Forall_forall in Hin; apply Hin; set_solver).
  destruct (lookup_lt_is_Some_2 (desc q) p) as [d Hd]; [rewrite (rep_desc _ _ _ H); done|].
  pose proof (rep_linked _ _ _ H) as Hl. apply Forall_cons in Hl as [Hli Hl].
  apply Forall_cons in Hl as [Hlc Hl]. destruct (Hli 0%nat i eq_refl) as (di & Hdi & Hfi). cbn in Hfi.
  rewrite u16_small by (unfold VIRTQ_NUM in *; lia).
  eexists. split; [by apply set_desc_ret|]. eapply rep_change; [exact H|..].
  - rewrite length_insert. apply H.
  - cbn. rewrite <- !app_assoc. cbn. solve_Permutation.
  - intros h Hh. destruct (rep_heads _ _ _ H h Hh) as (c & Hc & Hhd).
    apply elem_of_cons in Hc as [-> |Hc]; [cbn in Hhd; congruence|].
    apply elem_of_cons in Hc as [-> |Hc].
    + eexists. split; [by left|]. by destruct c0.
    + exists c. split; [by right|done].
  - constructor.
    + apply (linked_snoc _ _ _ _ d di); try done; [|apply lor_bit0].
      apply NoDup_cons in Hnd as [Hni Hnd]. apply NoDup_app in Hnd as (Hnd & _ & _).
      apply NoDup_app. split_and!; [done|set_solver|apply NoDup_singleton].
    + apply Forall_linked_insert; [|done]. apply NoDup_cons in Hnd as [_ Hnd].
      apply NoDup_app in Hnd as (_ & Hnd & _). apply Hnd. set_solver.
Qed.

(** Giving the first descriptor of a chain back. *)
Lemma release_desc_spec q cs act i c :
  vq_rep q ((i :: c) :: cs) act -> i ∉ act ->
  exists q', release_desc (Z.of_nat i) q = Ret () q' /\ vq_rep q' (c :: cs) act.
Proof.
  intros H Hia. pose proof (rep_nodup _ _ _ H) as Hnd. pose proof (rep_in _ _ _ H) as Hin.
  cbn in Hnd, Hin. apply NoDup_cons in Hnd as [Hi Hnd]. apply Forall_cons in Hin as [Hi8 Hin].
  destruct (lookup_lt_is_Some_2 (desc q) i) as [d Hd]; [rewrite (rep_desc _ _ _ H); done|].
  pose proof (rep_free_range _ _ _ H) as Hr. cbn in Hr.
  eexists. split.
  { unfold release_desc. mstep by (by eapply set_desc_ret).
    mstep by (eapply set_free_ret; by apply (rep_free _ _ _ H)). reflexivity. }
  pose proof (rep_linked _ _ _ H) as Hl. apply Forall_cons in Hl as [Hlc Hl].
  assert (Hl' : linked (desc q) c) by (intros k j Hk; by apply (Hlc (S k) j)).
  destruct H. split; cbn; rewrite ?length_insert; try done.
  - eapply free_array; [done|done|exact rep_free0| |cbn; set_solver].
    symmetry. by apply bool_decide_true.
  - rewrite rep_count0, u16_small; cbn [concat length app] in *; change NUM with 8 in *; lia.
  - intros h Hh. destruct (rep_heads0 h Hh) as (c' & Hc & Hhd).
    apply elem_of_cons in Hc as [-> |Hc]; [cbn in Hhd; congruence|]. exists c'. split; [by right|done].
  - constructor; [by apply linked_insert; [set_solver|]|].
    apply Forall_linked_insert; [set_solver|done].
Qed.

Lemma rep_drop_nil q cs act : vq_rep q ([] :: cs) act -> vq_rep q cs act.
Proof.
  intros H. destruct H. split; try done.
  - intros h Hh. destruct (rep_heads0 h Hh) as (c & Hc & Hhd).
    apply elem_of_cons in Hc as [-> |Hc]; [done|]. by exists c.
  - by apply Forall_cons in rep_linked0 as [_ ?].
Qed.

Lemma head_in_concat (cs : list (list nat)) c h : c ∈ cs -> head c = Some h -> h ∈ concat cs.
Proof.
  intros Hc Hh%head_Some_elem_of. rewrite list_elem_of_In, in_concat. exists c.
  by rewrite <- !list_elem_of_In.
Qed.

(** The members of a chain that the device does not hold are not active. *)
Lemma chain_inactive q cs act c i :
  vq_rep q (c :: cs) act -> (forall h, head c = Some h -> h ∉ act) -> i ∈ c -> i ∉ act.
Proof.
  intros H Hh Hi Hact. destruct (rep_heads _ _ _ H i Hact) as (c' & Hc & Hhd).
  apply elem_of_cons in Hc as [-> |Hc]; [by apply (Hh i)|].
  pose proof (rep_nodup _ _ _ H) as Hnd. cbn in Hnd. apply NoDup_app in Hnd as (_ & Hd & _).
  apply (Hd i Hi). by eapply head_in_concat.
Qed.

Lemma release_all_spec q cs act c :
  vq_rep q (c :: cs) act -> (forall i, i ∈ c -> i ∉ act) ->
  exists q', release_all (map Z.of_nat c) q = Ret () q' /\ vq_rep q' cs act.
Proof.
  revert q. induction c as [|i c IH]; intros q H Hn.
  { exists q. split; [done|by apply rep_drop_nil]. }
  destruct (release_desc_spec q cs act i c H) as (q1 & H1 & Hr1); [apply Hn; by left|].
  destruct (IH q1 Hr1) as (q2 & H2 & Hr2); [intros j Hj; apply Hn; by right|].
  exists q2. split; [|done]. cbn [map release_all]. by mstep by exact H1.
Qed.

(** Allocation is all or nothing. *)
Lemma alloc_chain_loop_spec n q cs act c :
  vq_rep q (c :: cs) act -> (forall i, i ∈ c -> i ∉ act) ->
  exists e c' q', alloc_chain_loop n (map Z.of_nat c) q = Ret (e, map Z.of_nat c') q' /\
    if len (concat (c :: cs)) + Z.of_nat n <=? NUM
    then e = 0 /\ length c' = (length c + n)%nat /\ vq_rep q' (c' :: cs) act
    else e = -1 /\ vq_rep q' cs act.
Proof.
  revert q c. induction n as [|n IH]; intros q c H Hn; cbn [alloc_chain_loop].
  { pose proof (rep_free_range _ _ _ H). rewrite (proj2 (Z.leb_le _ _)) by lia.
    exists 0, c, q. split_and!; done || lia. }
  destruct (alloc_desc_spec q (c :: cs) act H) as [(i & q1 & H1 & Hr1 & Hni)|[H1 Hfull]].
  - mstep by exact H1. rewrite (proj2 (Z.ltb_ge _ _)) by lia.
    assert (Hia : i ∉ act).
    { intros Hi. destruct (rep_heads _ _ _ H i Hi) as (c' & Hc & Hhd). apply Hni. by eapply head_in_concat. }
    assert (Hlink : exists q2, (match last (map Z.of_nat c) with
      | Some previous => set_desc previous (fun d =>
          d <| d_flags := Z.lor (d_flags d) VRING_DESC_F_NEXT |> <| d_next := u16 (Z.of_nat i) |>)
      | None => mret () end) q1 = Ret () q2 /\ vq_rep q2 ((c ++ [i]) :: cs) act).
    { change (map Z.of_nat c) with (Z.of_nat <$> c). rewrite fmap_last. destruct (last c) as [p|] eqn:Hp; cbn [fmap option_fmap option_map].
      - by apply link_desc.
      - apply last_None in Hp as ->. exists q1. split; [done|].
        eapply rep_group; [exact Hr1|done| |].
        + intros h Hh. destruct (rep_heads _ _ _ Hr1 h Hh) as (c' & Hc & Hhd).
          apply elem_of_cons in Hc as [-> |Hc]; [exists [i]; split; [by left|done]|].
          apply elem_of_cons in Hc as [-> |Hc]; [done|]. exists c'. split; [by right|done].
        + pose proof (rep_linked _ _ _ Hr1) as Hl. apply Forall_cons in Hl as [? Hl].
          apply Forall_cons in Hl as [? Hl]. by constructor. }
    destruct Hlink as (q2 & H2 & Hr2). mstep by exact H2.
    destruct (IH q2 (c ++ [i])) as (e & c' & q' & H3 & Hpost); [done|set_solver|].
    exists e, c', q'. split; [by rewrite map_app in H3|].
    replace (len (concat (c :: cs)) + Z.of_nat (S n))
      with (len (concat ((c ++ [i]) :: cs)) + Z.of_nat n) by (cbn; rewrite !length_app; cbn; lia).
    case_match; [|done]. rewrite length_app in Hpost. cbn in Hpost.
    destruct Hpost as (-> & ? & ?). split_and!; done || lia.
  - mstep by exact H1. cbn [Z.ltb Z.compare].
    destruct (release_all_spec q cs act c H Hn) as (q' & H2 & Hr2).
    exists (-1), c, q'. split; [by mstep by exact H2|]. by rewrite (proj2 (Z.leb_gt _ _)) by lia.
Qed.

Lemma rep_add_nil q cs act : vq_rep q cs act -> vq_rep q ([] :: cs) act.
Proof.
  intros H. destruct H. split; try done.
  - intros h Hh. destruct (rep_heads0 h Hh) as (c & Hc & Hhd). exists c. split; [by right|done].
  - constructor; [|done]. by intros k i Hk.
Qed.

(** The walk of a chain, one descriptor and the whole. *)
Lemma chain_round q cs act c seen i rest :
  vq_rep q (c :: cs) act -> c = seen ++ i :: rest ->
  exists d, desc q !! i = Some d /\
    match rest with
    | j :: _ => Z.land (d_flags d) VRING_DESC_F_NEXT <> 0 /\ d_next d = Z.of_nat j
    | [] => Z.land (d_flags d) VRING_DESC_F_NEXT = 0
    end /\
    forall fuel, chain_loop fuel (map Z.of_nat seen) (Z.of_nat i) q =
      if Z.land (d_flags d) VRING_DESC_F_NEXT =? 0 then Ret (Some (map Z.of_nat (seen ++ [i]))) q
      else match fuel with
           | O => Stuck
           | S fuel => chain_loop fuel (map Z.of_nat (seen ++ [i])) (d_next d) q
           end.
Proof.
  intros H Hc. assert (Hin : i ∈ concat (c :: cs)) by (rewrite Hc; cbn; set_solver).
  assert (Hi8 : (i < VIRTQ_NUM)%nat)
    by (pose proof (rep_in _ _ _ H) as HF; rewrite Forall_forall in HF; by apply HF).
  pose proof (rep_nodup _ _ _ H) as Hnd. cbn in Hnd. apply NoDup_app in Hnd as (Hnd & _ & _).
  rewrite Hc in Hnd. apply NoDup_app in Hnd as (_ & Hnd & _).
  pose proof (rep_free_range _ _ _ H) as Hr. cbn in Hr. rewrite Hc, !length_app in Hr. cbn in Hr.
  pose proof (rep_linked _ _ _ H) as Hl. apply Forall_cons in Hl as [Hl _].
  destruct (Hl (length seen) i) as (d & Hd & Hnx); [rewrite Hc; by apply list_lookup_middle|].
  exists d. split; [done|]. split.
  { rewrite Hc, lookup_app_r in Hnx by lia.
    replace (S (length seen) - length seen)%nat with 1%nat in Hnx by lia. by destruct rest. }
  intros fuel. assert (Hs : bool_decide (Z.of_nat i ∈ map Z.of_nat seen) = false).
  { apply bool_decide_false. intros (x & E%Nat2Z.inj & Hx)%list_elem_of_In%in_map_iff. subst x.
    apply (Hnd i); [by apply list_elem_of_In|by left]. }
  assert (Hfr : bool_decide (i ∉ concat (c :: cs)) = false)
    by (apply bool_decide_false; intros Hx; by apply Hx).
  destruct fuel; cbn [chain_loop]; rewrite (proj2 (Z.leb_gt _ _)) by lia; mstep;
    (mstep by (apply idx_ret; by apply (rep_free _ _ _ H)));
    rewrite Hfr, Hs, length_map, (proj2 (Z.leb_gt _ _)) by lia; cbn [orb];
    (mstep by (by apply idx_ret)); rewrite map_app; by destruct (Z.land _ _ =? 0).
Qed.

Lemma chain_loop_spec q cs act c seen i rest fuel :
  vq_rep q (c :: cs) act -> c = seen ++ i :: rest -> (length rest <= fuel)%nat ->
  chain_loop fuel (map Z.of_nat seen) (Z.of_nat i) q = Ret (Some (map Z.of_nat c)) q.
Proof.
  intros H. revert seen i fuel. induction rest as [|j rest IH]; intros seen i fuel Hc Hf;
    destruct (chain_round q cs act c seen i _ H Hc) as (d & Hd & Hn & ->).
  - by rewrite Hn, Hc.
  - destruct Hn as [Hn1 ->]. rewrite (proj2 (Z.eqb_neq _ _)) by done.
    destruct fuel as [|fuel]; [cbn in Hf; lia|]. apply IH; [|cbn in Hf; lia].
    by rewrite <- app_assoc.
Qed.

Lemma rep_perm q cs cs' act : cs ≡ₚ cs' -> vq_rep q cs act -> vq_rep q cs' act.
Proof.
  intros Hp H. eapply rep_group; [exact H|by rewrite Hp| |].
  - intros h Hh. destruct (rep_heads _ _ _ H h Hh) as (c & Hc & ?). exists c. by rewrite <- Hp.
  - rewrite <- Hp. apply H.
Qed.

(** ** The driver and the device

    The driver allocates chains, fills their descriptors, submits them, pops
    the completed ones and frees them; it submits and frees heads of chains it
    allocated.  The device writes the used ring and its index as it pleases,
    at any time. *)

Record vconf := VConf {
  vq : virtqueue; chains : list (list nat);
  submitted : list nat; completed : list nat }.

Inductive vstep : vconf -> vconf -> Prop :=
| v_alloc q cs su co n e c q' :
    virtq_alloc_chain n q = Ret (e, map Z.of_nat c) q' ->
    vstep (VConf q cs su co) (VConf q' (if e =? 0 then c :: cs else cs) su co)
| v_fill q cs su co i d a l (w : bool) :
    desc q !! i = Some d ->
    vstep (VConf q cs su co)
      (VConf (q <| desc := <[i := Desc a l (Z.lor (d_flags d) (if w then VRING_DESC_F_WRITE else 0))
                                (d_next d)]> (desc q) |>) cs su co)
| v_submit q cs su co c h q' :
    c ∈ cs -> head c = Some h -> virtq_submit (Z.of_nat h) q = Ret () q' ->
    vstep (VConf q cs su co)
      (VConf q' cs (if decide (active q !! h = Some true) then su else su ++ [h]) co)
| v_device q cs su co i (l : list virtq_used_elem) :
    length l = VIRTQ_NUM -> Forall (fun e => 0 <= u_id e) l ->
    vstep (VConf q cs su co) (VConf (q <| dev_used_idx := i |> <| used_ring := l |>) cs su co)
| v_pop q cs su co e r q' :
    virtq_pop_used_len q = Ret (e, r) q' ->
    vstep (VConf q cs su co)
      (VConf q' cs su (match r with Some (h, _) => co ++ [Z.to_nat h] | None => co end))
| v_free q cs su co c cs' h e q' :
    cs ≡ₚ c :: cs' -> head c = Some h -> virtq_free_chain (Z.of_nat h) q = Ret e q' ->
    vstep (VConf q cs su co) (VConf q' (if e <? 0 then cs else cs') su co).

(** The chains with the device are those submitted and not completed. *)
Definition vconf_ok (c : vconf) : Prop :=
  exists act, vq_rep (vq c) (chains c) act /\ submitted c ≡ₚ completed c ++ act.

Lemma virtq_alloc_chain_spec q cs act n :
  vq_rep q cs act ->
  exists e c q', virtq_alloc_chain n q = Ret (e, map Z.of_nat c) q' /\
    if (1 <=? n) && (n <=? free_count q)
    then e = 0 /\ len c = n /\ vq_rep q' (c :: cs) act
    else e = -1 /\ vq_rep q' cs act.
Proof.
  intros H. unfold virtq_alloc_chain. pose proof (rep_free_range _ _ _ H).
  rewrite (rep_count _ _ _ H). destruct (_ || _) eqn:E.
  { exists (-1), [], q. split; [done|]. by rewrite (proj2 (andb_false_iff _ _)) by lia. }
  destruct (alloc_chain_loop_spec (Z.to_nat n) q cs act []) as (e & c & q' & H1 & Hp);
    [by apply rep_add_nil|set_solver|].
  exists e, c, q'. split; [exact H1|]. cbn [concat app length] in Hp.
  apply orb_false_iff in E as [E1 E2]. rewrite (proj2 (Z.leb_le 1 n)) by lia. cbn [andb].
  destruct (Z.leb_spec (len (concat cs) + Z.of_nat (Z.to_nat n)) NUM) as [Hle|Hgt].
  - rewrite (proj2 (Z.leb_le _ _)) by lia. destruct Hp as (-> & ? & ?). split_and!; done || lia.
  - by rewrite (proj2 (Z.leb_gt _ _)) by lia.
Qed.

Lemma virtq_free_chain_spec q cs act c h :
  vq_rep q (c :: cs) act -> head c = Some h ->
  exists e q', virtq_free_chain (Z.of_nat h) q = Ret e q' /\
    if decide (h ∈ act) then e = -1 /\ q' = q else e = len c /\ vq_rep q' cs act.
Proof.
  intros H Hh. destruct c as [|h' c]; [done|]. injection Hh as ->.
  assert (Hin : h ∈ concat ((h :: c) :: cs)) by (cbn; set_solver).
  assert (Hi8 : (h < VIRTQ_NUM)%nat)
    by (pose proof (rep_in _ _ _ H) as HF; rewrite Forall_forall in HF; by apply HF).
  unfold virtq_free_chain. rewrite (proj2 (Z.leb_gt _ _)) by lia. mstep.
  mstep by (apply idx_ret; by apply (rep_free _ _ _ H)).
  rewrite bool_decide_false by (intros Hx; by apply Hx).
  mstep by (apply idx_ret; by apply (rep_active _ _ _ H)). cbn [orb].
  destruct (decide (h ∈ act)) as [Ha|Ha].
  { rewrite bool_decide_true by done. by exists (-1), q. }
  rewrite bool_decide_false by done.
  pose proof (rep_free_range _ _ _ H) as Hr. cbn in Hr. rewrite length_app in Hr.
  mstep by (apply (chain_loop_spec q cs act (h :: c) [] h c); [done|done|lia]).
  destruct (release_all_spec q cs act (h :: c) H) as (q' & H1 & Hr1).
  { intros i Hi. apply (chain_inactive _ _ _ _ _ H); [|done]. by intros ? [= <-]. }
  exists (len (h :: c)), q'. split; [|done]. mstep by exact H1. by rewrite length_map.
Qed.

Lemma virtq_submit_spec q cs act c h :
  vq_rep q cs act -> c ∈ cs -> head c = Some h ->
  exists q', virtq_submit (Z.of_nat h) q = Ret () q' /\
    vq_rep q' cs (if decide (h ∈ act) then act else act ++ [h]).
Proof.
  intros H Hc Hh. pose proof (head_in_concat cs c h Hc Hh) as Hin.
  assert (Hi8 : (h < VIRTQ_NUM)%nat)
    by (pose proof (rep_in _ _ _ H) as HF; rewrite Forall_forall in HF; by apply HF).
  unfold virtq_submit. rewrite (proj2 (Z.leb_gt _ _)) by lia. mstep.
  mstep by (apply idx_ret; by apply (rep_free _ _ _ H)).
  rewrite bool_decide_false by (intros Hx; by apply Hx).
  mstep by (apply idx_ret; by apply (rep_active _ _ _ H)). cbn [orb].
  destruct (decide (h ∈ act)) as [Ha|Ha].
  { rewrite bool_decide_true by done. by exists q. }
  rewrite bool_decide_false by done.
  mstep by (eapply set_active_ret; by apply (rep_active _ _ _ H)).
  assert (Hm : 0 <= avail_idx q mod NUM < NUM) by (apply Z.mod_pos_bound; done).
  destruct (lookup_lt_is_Some_2 (avail_ring q) (Z.to_nat (avail_idx q mod NUM))) as [x Hx];
    [rewrite (rep_avail _ _ _ H); lia|].
  eexists. split.
  { rewrite <- (Z2Nat.id (avail_idx q mod NUM)) at 1 by lia. mstep by (by apply idx_ret). reflexivity. }
  destruct H. split; cbn; rewrite ?length_insert; try done.
  - split; [|lia]. apply u16_range.
  - intros i Hi. destruct (decide (i = h)) as [->|Hne].
    + rewrite list_lookup_insert_eq by lia. f_equal. symmetry. apply bool_decide_true. set_solver.
    + rewrite list_lookup_insert_ne, rep_active0 by done. f_equal. apply bool_decide_ext. set_solver.
  - intros h' [Hh'|Hh']%elem_of_app; [auto|]. apply list_elem_of_singleton in Hh' as ->. eauto.
  - apply NoDup_app. split_and!; [done|set_solver|apply NoDup_singleton].
Qed.

Lemma virtq_pop_used_spec q cs act :
  vq_rep q cs act ->
  exists e r q', virtq_pop_used_len q = Ret (e, r) q' /\
    match r with
    | Some (h, l) => e = 1 /\ exists a1 a2, act = a1 ++ Z.to_nat h :: a2 /\ vq_rep q' cs (a1 ++ a2)
    | None => e <= 0 /\ vq_rep q' cs act
    end.
Proof.
  intros H. unfold virtq_pop_used_len. mstep.
  destruct (Z.eqb_spec (used_idx q) (dev_used_idx q)); [by exists 0, None, q|].
  assert (Hm : 0 <= used_idx q mod NUM < NUM) by (apply Z.mod_pos_bound; done).
  destruct (rep_used _ _ _ H) as [Hul Hpos].
  destruct (lookup_lt_is_Some_2 (used_ring q) (Z.to_nat (used_idx q mod NUM))) as [u Hu]; [lia|].
  rewrite <- (Z2Nat.id (used_idx q mod NUM)) by lia. mstep by (by apply idx_ret). mstep.
  assert (H1 : vq_rep (q <| used_idx := u16 (used_idx q + 1) |>) cs act).
  { destruct H. split; cbn; try done. split; [lia|]. apply u16_range. }
  destruct (Z.leb_spec NUM (u_id u)); [by eexists _, None, _|].
  assert (Hid : 0 <= u_id u) by (by eapply (Forall_lookup_1 _ _ _ _ Hpos)).
  set (i := Z.to_nat (u_id u)). replace (u_id u) with (Z.of_nat i) by (subst i; lia).
  assert (Hi8 : (i < VIRTQ_NUM)%nat) by (subst i; lia).
  mstep by (apply idx_ret; by apply (rep_active _ _ _ H)).
  case_bool_decide as Ha; cbn [negb]; [|by eexists _, None, _].
  eexists _, (Some (_, _)), _. split.
  { mstep by (eapply set_active_ret; by apply (rep_active _ _ _ H1)). reflexivity. }
  split; [done|]. apply list_elem_of_split in Ha as (a1 & a2 & ->). exists a1, a2.
  rewrite u16_small, Nat2Z.id by (unfold VIRTQ_NUM in *; lia). split; [done|].
  pose proof (rep_act _ _ _ H) as Hnd. clear H. destruct H1. split; cbn in *; rewrite ?length_insert; try done.
  - assert (i ∉ a1 ++ a2) as Hni.
    { apply NoDup_app in Hnd as (_ & Hd & Hnd). apply NoDup_cons in Hnd as [Hn _].
      intros [?|?]%elem_of_app; [apply (Hd i); [done|by left]|done]. }
    intros j Hj. destruct (decide (j = i)) as [->|Hne].
    + rewrite list_lookup_insert_eq by lia. f_equal. symmetry. by apply bool_decide_false.
    + rewrite list_lookup_insert_ne, rep_active0 by done. f_equal. apply bool_decide_ext. set_solver.
  - intros h Hh. apply rep_heads0. set_solver.
  - apply NoDup_app in Hnd as (? & Hd & Hnd). apply NoDup_cons in Hnd as [_ Hnd].
    apply NoDup_app. split_and!; [done|set_solver|done].
Qed.

Lemma map_of_nat_inj (c c' : list nat) : map Z.of_nat c = map Z.of_nat c' -> c = c'.
Proof.
  revert c'. induction c as [|x c IH]; intros [|y c']; try done. cbn.
  intros [= E%Nat2Z.inj E2]. f_equal; auto.
Qed.

Lemma linked_fill ds c i d a l f :
  ds !! i = Some d -> Z.land f VRING_DESC_F_NEXT = Z.land (d_flags d) VRING_DESC_F_NEXT ->
  linked ds c -> linked (<[i := Desc a l f (d_next d)]> ds) c.
Proof.
  intros Hd Hf Hl k j Hk. destruct (Hl k j Hk) as (d' & Hd' & Hn).
  destruct (decide (j = i)) as [->|Hne].
  - rewrite list_lookup_insert_eq by (by eapply lookup_lt_Some). simplify_eq.
    eexists. split; [done|]. cbn. by rewrite Hf.
  - rewrite list_lookup_insert_ne by done. eauto.
Qed.

Lemma vstep_ok c c' : vconf_ok c -> vstep c c' -> vconf_ok c'.
Proof.
  intros (act & H & Hs) Hst. destruct Hst; cbn in *.
  - destruct (virtq_alloc_chain_spec q cs act n H) as (e' & c' & q2 & E & Hp).
    rewrite H0 in E. injection E as -> Ec ->. apply map_of_nat_inj in Ec as ->.
    exists act. split; [|done]. cbn. case_match; destruct Hp as [-> Hp]; cbn; tauto.
  - exists act. split; [|done]. cbn. eapply rep_change; [done|rewrite length_insert; apply H|done|apply H|].
    eapply Forall_impl; [apply H|]. intros c Hc. apply linked_fill; [done| |done].
    apply Z.bits_inj'. intros b Hb. rewrite !Z.land_spec, Z.lor_spec.
    destruct w; [|by rewrite Z.bits_0, orb_false_r].
    destruct (decide (b = 0)) as [->|]; [by rewrite orb_false_r|].
    unfold VRING_DESC_F_NEXT. by rewrite (Z.bits_above_log2 1 b), !andb_false_r by (cbn; lia).
  - destruct (virtq_submit_spec q cs act c h H H0 H1) as (q2 & E & Hp).
    rewrite H2 in E. injection E as ->. eexists. split; [exact Hp|]. cbn.
    assert (Hi8 : (h < VIRTQ_NUM)%nat).
    { pose proof (rep_in _ _ _ H) as HF. rewrite Forall_forall in HF. apply HF. by eapply head_in_concat. }
    rewrite (rep_active _ _ _ H h Hi8). destruct (decide (h ∈ act)) as [Ha|Ha].
    + rewrite decide_True by (by rewrite bool_decide_true). done.
    + rewrite decide_False by (rewrite bool_decide_false by done; congruence).
      by rewrite Hs, app_assoc.
  - exists act. split; [|done]. destruct H. by split.
  - destruct (virtq_pop_used_spec q cs act H) as (e' & r' & q2 & E & Hp).
    rewrite H0 in E. injection E as -> -> ->. destruct r' as [[h l]|]; [|exists act; by destruct Hp].
    destruct Hp as (_ & a1 & a2 & -> & Hp). exists (a1 ++ a2). split; [done|]. cbn.
    rewrite Hs, <- app_assoc. cbn. by rewrite Permutation_middle.
  - assert (Hc : vq_rep q (c :: cs') act) by (by eapply rep_perm).
    destruct (virtq_free_chain_spec q cs' act c h Hc H1) as (e' & q2 & E & Hp).
    rewrite H2 in E. injection E as -> ->. exists act. split; [|done]. cbn.
    destruct (decide (h ∈ act)); destruct Hp as [-> Hp]; [by subst|].
    by rewrite (proj2 (Z.ltb_ge _ _)) by lia.
Qed.

(** A queue as [virtq_init] leaves it. *)
Definition fresh_queue (q : virtqueue) : Prop := virtq_init (Some 0) NUM q = Ret 0 q.

Lemma fresh_ok q : fresh_queue q -> vconf_ok (VConf q [] [] []).
Proof.
  unfold fresh_queue. cbn. intros [= <-]. exists []. split; [|done].
  split; cbn; try done; try (by repeat constructor).
  - intros i Hi. do 8 (destruct i as [|i]; [done|]). unfold VIRTQ_NUM in Hi. lia.
  - intros i Hi. do 8 (destruct i as [|i]; [done|]). unfold VIRTQ_NUM in Hi. lia.
  - by intros h Hh%not_elem_of_nil.
Qed.

(** C40: whatever the device writes to the used ring, and in any order of
    allocations, submissions, completions and releases: no descriptor belongs
    to two chains, every descriptor is in a chain or counted as free, a chain
    that is with the device is still allocated, and every completion reported
    to the driver is a distinct earlier submission.  An allocation succeeds
    exactly when enough descriptors are free, and is all or nothing. *)
Theorem virtq_safe q c :
  fresh_queue q -> rtc vstep (VConf q [] [] []) c ->
  NoDup (concat (chains c)) /\ free_count (vq c) + len (concat (chains c)) = NUM /\
  (exists act, submitted c ≡ₚ completed c ++ act /\ NoDup act /\
     forall h, h ∈ act -> exists ch, ch ∈ chains c /\ head ch = Some h) /\
  (forall n, exists e ch q', virtq_alloc_chain n (vq c) = Ret (e, map Z.of_nat ch) q' /\
     (e = 0 <-> 1 <= n <= free_count (vq c)) /\
     free_count q' = free_count (vq c) - if e =? 0 then n else 0).
Proof.
  intros Hq Hr. assert (Hok : vconf_ok c).
  { remember (VConf q [] [] []) as c0. assert (vconf_ok c0) as H0 by (subst; by apply fresh_ok).
    clear Heqc0. induction Hr as [|c0 c1 c2 Hst _ IH]; [done|]. apply IH. by eapply vstep_ok. }
  destruct Hok as (act & H & Hs). split_and!.
  - apply H.
  - rewrite (rep_count _ _ _ H). lia.
  - exists act. split_and!; [done|apply H|apply H].
  - intros n. destruct (virtq_alloc_chain_spec _ _ _ n H) as (e & ch & q' & E & Hp).
    exists e, ch, q'. split; [done|]. rewrite (rep_count _ _ _ H) in Hp |- *. case_match eqn:Hb.
    + destruct Hp as (-> & Hl & Hr'). rewrite (rep_count _ _ _ Hr').
      cbn [concat Z.eqb]. rewrite length_app. lia.
    + destruct Hp as [-> Hr']. rewrite (rep_count _ _ _ Hr'). cbn [Z.eqb].
      apply andb_false_iff in Hb. split; [|lia]. split; [done|]. lia.
Qed.

(** ** Witness *)

Definition queue0 : virtqueue :=
  Virtqueue (replicate VIRTQ_NUM zero_desc) 0 (replicate VIRTQ_NUM 0) 0
    (replicate VIRTQ_NUM (UsedElem 0 0)) (replicate VIRTQ_NUM true) (replicate VIRTQ_NUM false) 0 NUM.

(** After one allocation of three descriptors. *)
Definition queue3 : virtqueue :=
  match virtq_alloc_chain 3 queue0 with Ret _ q => q | Stuck => queue0 end.

Definition conf3 : vconf := VConf queue3 [[0; 1; 2]%nat] [] [].

Lemma conf3_reached : rtc vstep (VConf queue0 [] [] []) conf3.
Proof.
  eapply rtc_l; [|apply rtc_refl].
  apply (v_alloc queue0 [] [] [] 3 0 [0; 1; 2]%nat queue3). vm_compute. reflexivity.
Qed.

Lemma virtq_safe_witness :
  NoDup (concat (chains conf3)) /\ free_count (vq conf3) + len (concat (chains conf3)) = NUM /\
  (exists act, submitted conf3 ≡ₚ completed conf3 ++ act /\ NoDup act /\
     forall h, h ∈ act -> exists ch, ch ∈ chains conf3 /\ head ch = Some h) /\
  (forall n, exists e ch q', virtq_alloc_chain n (vq conf3) = Ret (e, map Z.of_nat ch) q' /\
     (e = 0 <-> 1 <= n <= free_count (vq conf3)) /\
     free_count q' = free_count (vq conf3) - if e =? 0 then n else 0).
Proof.
  exact (virtq_safe queue0 conf3 ltac:(vm_compute; reflexivity) conf3_reached).
Defined.
