(* ===== verification/TcpState.v ===== *)
(** * The state of TCP (net/tcp.h, the static variables of net/tcp.c)

    A [tcp_pcb_t *] is an index into [pcb_storage].  The locks of a control
    block are left out; its two timers and the entry of [release_timers] for
    its slot are timers of [Timer.v], named by the functions below. *)

From S2P Require Import Prelude Timer Sys.

Definition TCP_HEADER_SIZE : Z := 20.
Definition TCP_PCB_MAX : nat := 12.
Definition TCP_RECV_MAX : Z := 2048.
Definition TCP_MSS : Z := 512.
Definition TCP_RETRANS_MS : Z := 500.
Definition TCP_RETRY_MAX : Z := 5.
Definition TCP_TIME_WAIT_MS : Z := 1000.
Definition TCP_ACCEPT_MAX : nat := 4.

Definition TCP_FLAG_FIN : Z := 0x01.
Definition TCP_FLAG_SYN : Z := 0x02.
Definition TCP_FLAG_RST : Z := 0x04.
Definition TCP_FLAG_PSH : Z := 0x08.
Definition TCP_FLAG_ACK : Z := 0x10.
Definition TCP_FLAG_URG : Z := 0x20.

Inductive tcp_state_t :=
| TCP_STATE_CLOSED | TCP_STATE_LISTEN | TCP_STATE_SYN_SENT | TCP_STATE_SYN_RECEIVED
| TCP_STATE_ESTABLISHED | TCP_STATE_FIN_WAIT_1 | TCP_STATE_FIN_WAIT_2 | TCP_STATE_TIME_WAIT.
#[global] Instance tcp_state_eq : EqDecision tcp_state_t.
Proof. solve_decision. Defined.

Module Pcb.
Record tcp_pcb_t := TcpPcb {
    opened : bool; netif : option nat; local_ip : Z; remote_ip : Z; local_port : Z;
    remote_port : Z; state : tcp_state_t; iss : Z; snd_una : Z; snd_nxt : Z; rcv_nxt : Z;
    peer_fin_seen : bool; window : Z; outstanding : option nat; outstanding_end : Z;
    retry_count : Z; recv_storage : bytes; recv_head : Z; recv_count : Z; connect_waiters : Z;
    recv_waiters : Z; close_waiters : Z; listener : option nat; accept_queue : list (option nat);
    accept_head : Z; accept_count : Z; pending_count : Z; backlog : Z; accept_waiters : Z;
    accept_pins : Z; bound : bool; passive : bool; accepted : bool; close_requested : bool;
    release_pending : bool; socket_attached : bool; connect_done : sys_sem_t;
    recv_done : sys_sem_t; close_done : sys_sem_t; accept_done : sys_sem_t; error : Z;
    terminal_notified : bool }.

#[global] Instance tcp_pcb_settable : Settable tcp_pcb_t := fun r =>
  TcpPcb
    (opened r) (netif r) (local_ip r) (remote_ip r) (local_port r) (remote_port r) (state r)
    (iss r) (snd_una r) (snd_nxt r) (rcv_nxt r) (peer_fin_seen r) (window r) (outstanding r)
    (outstanding_end r) (retry_count r) (recv_storage r) (recv_head r) (recv_count r)
    (connect_waiters r) (recv_waiters r) (close_waiters r) (listener r) (accept_queue r)
    (accept_head r) (accept_count r) (pending_count r) (backlog r) (accept_waiters r)
    (accept_pins r) (bound r) (passive r) (accepted r) (close_requested r) (release_pending r)
    (socket_attached r) (connect_done r) (recv_done r) (close_done r) (accept_done r) (error r)
    (terminal_notified r).

(** A control block of zero bytes. *)
Definition zero_pcb : tcp_pcb_t :=
  TcpPcb
    false None 0 0 0 0 TCP_STATE_CLOSED 0 0 0 0 false 0 None 0 0
    (replicate (Z.to_nat TCP_RECV_MAX) 0) 0 0 0 0 0 None (replicate TCP_ACCEPT_MAX None) 0 0 0 0 0
    0 false false false false false false SYS_SEM_INVALID SYS_SEM_INVALID SYS_SEM_INVALID
    SYS_SEM_INVALID 0 false.
End Pcb.

Record tcp_vars := TcpVars {
  pcb_storage : list Pcb.tcp_pcb_t; tcp_pcbs : list (option nat); detached_listeners : list (option nat);
  next_ephemeral : Z; next_iss : Z }.
#[global] Instance tcp_vars_settable : Settable tcp_vars := fun r =>
  TcpVars (pcb_storage r) (tcp_pcbs r) (detached_listeners r) (next_ephemeral r) (next_iss r).

(** The variables after [tcp_init]. *)
Definition tcp_cleared : tcp_vars :=
  TcpVars (replicate TCP_PCB_MAX Pcb.zero_pcb) (replicate TCP_PCB_MAX None) (replicate TCP_PCB_MAX None) 49152 1000.

(** The timers of the control block [p] and of the slot [i], and the addresses
    of their callbacks. *)
Definition retrans_timer (p : nat) : nat := (100 + p)%nat.
Definition time_wait_timer (p : nat) : nat := (200 + p)%nat.
Definition release_timer (i : nat) : nat := (300 + i)%nat.
Definition tcp_timer_proc_addr : Z := 2.
Definition tcp_time_wait_proc_addr : Z := 3.
Definition tcp_release_proc_addr : Z := 4.
