(* ===== verification/TcpInv.v ===== *)
(** * The invariants of TCP

    Two parts of the state: the variables of tcp.c, a [tcp_vars], and which
    timers run, a function [T] from the number of a timer to [bool].  The
    operations of tcp.c are sequences of the updates below; the lemmas say
    which updates keep the invariants. *)

From S2P Require Import Prelude Timer Sys TcpState.
Import Pcb.

(** ** Updates *)

Definition upd (p : nat) (f : tcp_pcb_t -> tcp_pcb_t) (t : tcp_vars) : tcp_vars :=
  t <| pcb_storage := alter f p (pcb_storage t) |>.
Definition set_slot (p : nat) (v : option nat) (t : tcp_vars) : tcp_vars :=
  t <| tcp_pcbs := <[p := v]> (tcp_pcbs t) |>.
Definition set_detached (p : nat) (v : option nat) (t : tcp_vars) : tcp_vars :=
  t <| detached_listeners := <[p := v]> (detached_listeners t) |>.
Definition run_timer (k : nat) (v : bool) (T : nat -> bool) : nat -> bool :=
  fun j => if decide (j = k) then v else T j.

Abbreviation pcb_at t p := (pcb_storage t !! p).
Abbreviation slot_at t p := (tcp_pcbs t !! p).
Abbreviation detached_at t p := (detached_listeners t !! p).

(** ** One control block *)

(** The states in which a segment can be in flight. *)
Definition busy (st : tcp_state_t) : Prop :=
  st = TCP_STATE_SYN_SENT \/ st = TCP_STATE_SYN_RECEIVED \/ st = TCP_STATE_ESTABLISHED \/ st = TCP_STATE_FIN_WAIT_1.

(** At most one segment is in flight: [snd_nxt] is where it ends, or equal to
    [snd_una]. *)
Definition flight_ok (x : tcp_pcb_t) : Prop :=
  match outstanding x with
  | Some _ => outstanding_end x = snd_nxt x /\ busy (state x)
  | None => state x = TCP_STATE_CLOSED \/ state x = TCP_STATE_LISTEN \/ snd_una x = snd_nxt x
  end.

Lemma flight_none x : outstanding x = None -> snd_una x = snd_nxt x -> flight_ok x.
Proof. intros Ho E. unfold flight_ok. rewrite Ho. auto. Qed.
Lemma flight_idle x : flight_ok x -> ~ busy (state x) -> outstanding x = None.
Proof. unfold flight_ok. destruct (outstanding x); tauto. Qed.

Record pcb_ok (D : gset nat) (x : tcp_pcb_t) : Prop := {
  ok_ring : length (recv_storage x) = Z.to_nat TCP_RECV_MAX /\ are_bytes (recv_storage x);
  ok_recv : 0 <= recv_head x < TCP_RECV_MAX /\ 0 <= recv_count x <= TCP_RECV_MAX;
  ok_accept : length (accept_queue x) = TCP_ACCEPT_MAX /\ 0 <= accept_head x < Z.of_nat TCP_ACCEPT_MAX /\
              0 <= accept_count x <= Z.of_nat TCP_ACCEPT_MAX;
  ok_remote : 0 <= remote_ip x < 2 ^ 32;
  ok_netif : forall n, netif x = Some n -> n ∈ D;
  ok_route : state x <> TCP_STATE_CLOSED \/ outstanding x <> None -> netif x <> None;
  ok_seq : 0 <= snd_una x < 2 ^ 32 /\ 0 <= snd_nxt x < 2 ^ 32 /\ 0 <= rcv_nxt x < 2 ^ 32;
  ok_syn : state x = TCP_STATE_SYN_SENT \/ state x = TCP_STATE_SYN_RECEIVED ->
           snd_una x = iss x /\ snd_nxt x = u32 (iss x + 1);
  ok_flight : flight_ok x;
  ok_release : release_pending x = true -> state x = TCP_STATE_CLOSED \/ state x = TCP_STATE_LISTEN }.

(** A control block that no slot refers to. *)
Definition unused (x : tcp_pcb_t) : Prop :=
  opened x = false /\ state x = TCP_STATE_CLOSED /\ outstanding x = None /\ listener x = None /\
  release_pending x = false /\ connect_done x = None /\ recv_done x = None /\ close_done x = None /\
  accept_done x = None.

(** ** Listeners and their children *)

Definition is_listener (t : tcp_vars) (l : nat) : Prop :=
  exists y, pcb_at t l = Some y /\ opened y = true /\ state y = TCP_STATE_LISTEN.

(** [c] waits to be accepted from [l]. *)
Definition ready_child (t : tcp_vars) (l c : nat) : Prop :=
  exists x, pcb_at t c = Some x /\ listener x = Some l /\ state x = TCP_STATE_ESTABLISHED.

(** The accept queue, the oldest entry first. *)
Definition accept_list (y : tcp_pcb_t) : list (option nat) :=
  (fun i => mjoin (accept_queue y !! Z.to_nat ((accept_head y + Z.of_nat i) mod Z.of_nat TCP_ACCEPT_MAX)))
    <$> seq 0 (Z.to_nat (accept_count y)).

(** How many children [l] has. *)
Definition children (t : tcp_vars) (l : nat) : Z :=
  len (filter (fun x => listener x = Some l) (pcb_storage t)).

Definition queue_inv (t : tcp_vars) (l : nat) (y : tcp_pcb_t) : Prop :=
  exists cs, accept_list y = Some <$> cs /\ NoDup cs /\ forall c, c ∈ cs <-> ready_child t l c.

Definition child_ok (t : tcp_vars) (x : tcp_pcb_t) : Prop :=
  forall l, listener x = Some l ->
    is_listener t l /\ opened x = true /\ release_pending x = false /\ close_requested x = false /\
    (state x = TCP_STATE_SYN_RECEIVED \/ state x = TCP_STATE_ESTABLISHED).

Definition backlog_ok (t : tcp_vars) (l : nat) (y : tcp_pcb_t) : Prop :=
  pending_count y = children t l /\ pending_count y <= backlog y <= Z.of_nat TCP_ACCEPT_MAX.

(** ** All of them *)

Record tcp_ok (D : gset nat) (t : tcp_vars) : Prop := {
  tcp_lengths : length (pcb_storage t) = TCP_PCB_MAX /\ length (tcp_pcbs t) = TCP_PCB_MAX /\
                length (detached_listeners t) = TCP_PCB_MAX;
  tcp_own_slot : forall i p, slot_at t i = Some (Some p) -> p = i;
  tcp_each : forall p x, pcb_at t p = Some x -> pcb_ok D x;
  tcp_used : forall p x, pcb_at t p = Some x -> slot_at t p = Some (Some p) -> opened x = true;
  tcp_unused : forall p x, pcb_at t p = Some x -> slot_at t p = Some None -> unused x;
  tcp_child : forall p x, pcb_at t p = Some x -> child_ok t x;
  tcp_queue : forall p x, pcb_at t p = Some x -> queue_inv t p x;
  tcp_backlog : forall p x, pcb_at t p = Some x -> backlog_ok t p x;
  tcp_detached : forall i l, detached_at t i = Some (Some l) -> is_listener t l;
  tcp_one_listener : forall l l', is_listener t l -> is_listener t l' -> l = l';
  tcp_counters : 49152 <= next_ephemeral t < 2 ^ 16 /\ 0 <= next_iss t < 2 ^ 32 }.

(** The timer [k] runs when [b] holds.  [W] are timers that are due and whose
    callbacks have not run yet; [E] are exempt. *)
Definition tick (E W : list nat) (T : nat -> bool) (k : nat) (b : bool) : Prop :=
  k ∉ E -> (T k = true -> b = true) /\ (b = true -> T k = true \/ k ∈ W).

(** The control block is on its way out, or gone. *)
Definition leaving (x : tcp_pcb_t) : Prop := release_pending x = true \/ opened x = false.

(** The timers that run are those of a control block with a segment in
    flight, in TIME_WAIT, or on its way out. *)
Definition timers_ok (E W : list nat) (t : tcp_vars) (T : nat -> bool) : Prop :=
  forall p x, pcb_at t p = Some x ->
    tick E W T (retrans_timer p) (bool_decide (outstanding x <> None)) /\
    tick E W T (time_wait_timer p) (bool_decide (state x = TCP_STATE_TIME_WAIT)) /\
    tick E W T (release_timer p) (release_pending x) /\
    (release_timer p ∈ W -> leaving x).

(** ** Lemmas on updates *)

Lemma insert_alter {A} (f : A -> A) p (l : list A) x : l !! p = Some x -> <[p := f x]> l = alter f p l.
Proof.
  intros H. apply list_eq. intros q. destruct (decide (q = p)) as [->|].
  - rewrite list_lookup_alter_eq, H. cbn. apply list_lookup_insert_eq. by eapply lookup_lt_Some.
  - by rewrite list_lookup_alter_ne, list_lookup_insert_ne.
Qed.

Lemma pcb_upd t p f q :
  pcb_at (upd p f t) q = if decide (q = p) then f <$> pcb_at t q else pcb_at t q.
Proof.
  unfold upd. cbn. destruct (decide (q = p)) as [->|]; [by rewrite list_lookup_alter_eq|by rewrite list_lookup_alter_ne].
Qed.
Lemma pcb_upd_eq t p f x : pcb_at t p = Some x -> pcb_at (upd p f t) p = Some (f x).
Proof. intros H. by rewrite pcb_upd, decide_True, H. Qed.
Lemma pcb_upd_ne t p f q : q <> p -> pcb_at (upd p f t) q = pcb_at t q.
Proof. intros H. by rewrite pcb_upd, decide_False. Qed.

Lemma upd_upd p f g t : upd p f (upd p g t) = upd p (f ∘ g) t.
Proof. unfold upd. cbn. rewrite list_alter_alter_eq. by destruct t. Qed.
Lemma upd_ext p f g t x : pcb_at t p = Some x -> f x = g x -> upd p f t = upd p g t.
Proof.
  intros Hx E. unfold upd. assert (alter f p (pcb_storage t) = alter g p (pcb_storage t)) as ->; [|done].
  apply list_alter_ext; [|done]. intros y Hy. congruence.
Qed.
Lemma upd_id p f t x : pcb_at t p = Some x -> f x = x -> upd p f t = t.
Proof.
  intros Hx E. unfold upd. assert (alter f p (pcb_storage t) = pcb_storage t) as ->; [|by destruct t].
  apply list_eq. intros q. destruct (decide (q = p)) as [->|]; [by rewrite list_lookup_alter_eq, Hx; cbn; rewrite E|by rewrite list_lookup_alter_ne].
Qed.
Lemma upd_comm p q f g t : p <> q -> upd p f (upd q g t) = upd q g (upd p f t).
Proof. intros H. unfold upd. cbn. rewrite list_alter_alter_ne by done. by destruct t. Qed.

(** Counting after a change of one element. *)
Lemma filter_alter_len {A} (P : A -> Prop) `{!forall x, Decision (P x)} f c (l : list A) x :
  l !! c = Some x ->
  len (filter P (alter f c l)) =
  len (filter P l) - (if decide (P x) then 1 else 0) + (if decide (P (f x)) then 1 else 0).
Proof.
  revert c. induction l as [|y l IH]; intros [|c]; try done.
  - intros [= ->]. cbn [alter list_alter]. rewrite !filter_cons. repeat case_decide; cbn [length]; lia.
  - cbn [lookup list_lookup]. intros Hx. specialize (IH c Hx). cbn [alter list_alter]. fold (alter f c l).
    rewrite !filter_cons. repeat case_decide; cbn [length]; lia.
Qed.

Lemma children_upd t p f x l :
  pcb_at t p = Some x ->
  children (upd p f t) l = children t l - (if decide (listener x = Some l) then 1 else 0)
    + (if decide (listener (f x) = Some l) then 1 else 0).
Proof. intros H. unfold children, upd. cbn. by rewrite (filter_alter_len _ f p _ x). Qed.

Lemma children_pos t p x l : pcb_at t p = Some x -> listener x = Some l -> 0 < children t l.
Proof.
  intros Hx Hl. unfold children. destruct (filter _ _) as [|y k] eqn:E; [|cbn; lia].
  assert (Hin : x ∈ filter (fun x => listener x = Some l) (pcb_storage t)).
  { apply list_elem_of_filter. split; [done|by eapply list_elem_of_lookup_2]. }
  rewrite E in Hin. set_solver.
Qed.

(** ** Changing one control block *)

(** What the invariants on listeners and children see of a control block. *)
Record role_kept (x x' : tcp_pcb_t) : Prop := {
  kept_listener : listener x' = listener x;
  kept_opened : opened x' = opened x;
  kept_listen : state x' = TCP_STATE_LISTEN <-> state x = TCP_STATE_LISTEN;
  kept_accept : accept_list x' = accept_list x;
  kept_pending : pending_count x' = pending_count x;
  kept_backlog : pending_count x' <= backlog x' <= Z.of_nat TCP_ACCEPT_MAX;
  kept_child : listener x <> None ->
    state x' = state x /\ release_pending x' = release_pending x /\ close_requested x' = close_requested x }.

Section change.
Context {D : gset nat} {t : tcp_vars} (Hok : tcp_ok D t).

Lemma tcp_pcb_in p : (p < TCP_PCB_MAX)%nat -> exists x, pcb_at t p = Some x.
Proof. intros H. apply lookup_lt_is_Some. destruct (tcp_lengths _ _ Hok) as (-> & _). done. Qed.
Lemma pcb_range p x : pcb_at t p = Some x -> (p < TCP_PCB_MAX)%nat.
Proof. intros H. destruct (tcp_lengths _ _ Hok) as (<- & _). by eapply lookup_lt_Some. Qed.
Lemma slot_cases p : (p < TCP_PCB_MAX)%nat -> slot_at t p = Some (Some p) \/ slot_at t p = Some None.
Proof.
  intros H. destruct (lookup_lt_is_Some_2 (tcp_pcbs t) p) as [[q|] Hq].
  - destruct (tcp_lengths _ _ Hok) as (_ & -> & _). done.
  - left. by rewrite (tcp_own_slot _ _ Hok _ _ Hq) in Hq.
  - by right.
Qed.
Lemma slot_pcb p : slot_at t p = Some (Some p) -> exists x, pcb_at t p = Some x /\ opened x = true.
Proof.
  intros H. destruct (tcp_pcb_in p) as [x Hx].
  - destruct (tcp_lengths _ _ Hok) as (_ & <- & _). by eapply lookup_lt_Some.
  - exists x. split; [done|by eapply tcp_used].
Qed.

(** Only a listener has children. *)
Lemma childless p y : pcb_at t p = Some y -> state y <> TCP_STATE_LISTEN -> forall x, listener x = Some p -> x ∉ pcb_storage t.
Proof.
  intros Hy Hs x Hl (q & Hq)%list_elem_of_lookup.
  destruct (tcp_child _ _ Hok q x Hq p Hl) as ((y' & Hy' & _ & Hst) & _). congruence.
Qed.
Lemma no_children p y : pcb_at t p = Some y -> state y <> TCP_STATE_LISTEN -> children t p = 0.
Proof.
  intros Hy Hs. unfold children. destruct (filter _ _) as [|x k] eqn:E; [done|].
  assert (Hin : x ∈ filter (fun x => listener x = Some p) (pcb_storage t)) by (rewrite E; set_solver).
  apply list_elem_of_filter in Hin as [Hl Hin]. by destruct (childless p y Hy Hs x Hl).
Qed.
Lemma plain_queue p y : pcb_at t p = Some y -> state y <> TCP_STATE_LISTEN -> accept_list y = [] /\ pending_count y = 0.
Proof.
  intros Hy Hs. destruct (tcp_queue _ _ Hok p y Hy) as (cs & E & _ & Hcs), (tcp_backlog _ _ Hok p y Hy) as [Hp _].
  rewrite Hp, (no_children p y) by done. split; [|done]. rewrite E. destruct cs as [|c cs]; [done|].
  destruct (proj1 (Hcs c)) as (x & Hx & Hl & _); [by left|].
  destruct (childless p y Hy Hs x Hl). by eapply list_elem_of_lookup_2.
Qed.

Lemma is_listener_upd p f x l :
  pcb_at t p = Some x -> opened (f x) = opened x -> (state (f x) = TCP_STATE_LISTEN <-> state x = TCP_STATE_LISTEN) ->
  is_listener (upd p f t) l <-> is_listener t l.
Proof.
  intros Hx Ho Hs. unfold is_listener. rewrite pcb_upd. destruct (decide (l = p)) as [->|]; [|done].
  rewrite Hx. cbn. naive_solver.
Qed.

Lemma tcp_ok_upd p f x :
  pcb_at t p = Some x -> pcb_ok D (f x) -> role_kept x (f x) ->
  (slot_at t p = Some None -> unused (f x)) -> tcp_ok D (upd p f t).
Proof.
  intros Hx Hpcb [Hl Ho Hs Ha Hp Hb Hc] Hfree. pose proof Hok as [H1 H2 H3 H4 H5 H6 H7 H8 H9 H10 H11].
  assert (Hli : forall l, is_listener (upd p f t) l <-> is_listener t l) by (intros; by eapply is_listener_upd).
  assert (Hch : forall l, children (upd p f t) l = children t l).
  { intros l. rewrite (children_upd _ _ _ _ _ Hx), Hl. case_decide; lia. }
  assert (Hrd : forall l c, ready_child (upd p f t) l c <-> ready_child t l c).
  { intros l c. unfold ready_child. rewrite pcb_upd. destruct (decide (c = p)) as [->|]; [|done].
    rewrite Hx. cbn. split; intros (z & [= <-] & Hz & Hst).
    - rewrite Hl in Hz. exists x. split_and!; [done..|]. destruct Hc as [<- _]; [by rewrite Hz|done].
    - exists (f x). rewrite Hl. split_and!; [done..|]. destruct Hc as [-> _]; [by rewrite Hz|done]. }
  assert (Hall : forall q y, pcb_at (upd p f t) q = Some y ->
    (q = p /\ y = f x) \/ (q <> p /\ pcb_at t q = Some y)).
  { intros q y. rewrite pcb_upd. case_decide; [subst q|by right]. rewrite Hx. intros [= <-]. by left. }
  split; try done.
  - cbn. by rewrite length_alter.
  - intros q y [[-> ->]|[_ Hy]]%Hall; [done|by eapply H3].
  - intros q y [[-> ->]|[_ Hy]]%Hall Hq; [|by eapply H4]. rewrite Ho. by eapply H4.
  - intros q y [[-> ->]|[_ Hy]]%Hall Hq; [by apply Hfree|by eapply H5].
  - assert (Hcx : forall q y, pcb_at t q = Some y -> forall l, listener y = Some l -> is_listener (upd p f t) l /\
      opened y = true /\ release_pending y = false /\ close_requested y = false /\
      (state y = TCP_STATE_SYN_RECEIVED \/ state y = TCP_STATE_ESTABLISHED)).
    { intros q y Hy l Hyl. rewrite Hli. by eapply H6. }
    intros q y [[-> ->]|[_ Hy]]%Hall l Hyl; [|by eapply Hcx].
    rewrite Hl in Hyl. destruct Hc as (-> & -> & ->); [by rewrite Hyl|]. rewrite Ho. by eapply Hcx.
  - intros q y [[-> ->]|[_ Hy]]%Hall; unfold queue_inv; setoid_rewrite Hrd; [rewrite Ha; by apply H7|by apply H7].
  - intros q y [[-> ->]|[_ Hy]]%Hall; unfold backlog_ok; rewrite Hch; [|by apply H8].
    split; [|done]. rewrite Hp. by apply H8.
  - intros i l Hd. rewrite Hli. by eapply H9.
  - intros l l'. rewrite !Hli. apply H10.
Qed.
End change.

(** ** Unlinking a child from its listener *)

Section unlink.
Context {D : gset nat} {t : tcp_vars} (Hok : tcp_ok D t).
Context {c l : nat} {x y : tcp_pcb_t} (Hx : pcb_at t c = Some x) (Hy : pcb_at t l = Some y).
Context (Hl : listener x = Some l).

Lemma child_ne : c <> l.
Proof.
  intros ->. rewrite Hx in Hy. injection Hy as <-.
  destruct (tcp_child _ _ Hok l x Hx l Hl) as ((z & Hz & _ & Hs) & _ & _ & _ & Hst).
  rewrite Hx in Hz. injection Hz as <-. destruct Hst; congruence.
Qed.
Lemma child_listener : opened y = true /\ state y = TCP_STATE_LISTEN /\ listener y = None.
Proof.
  destruct (tcp_child _ _ Hok c x Hx l Hl) as ((z & Hz & Ho & Hs) & _). rewrite Hy in Hz. injection Hz as <-.
  split_and!; [done..|]. destruct (listener y) as [l'|] eqn:E; [|done].
  destruct (tcp_child _ _ Hok l y Hy l' E) as (_ & _ & _ & _ & [?|?]); congruence.
Qed.

Lemma tcp_ok_unlink f g v :
  pcb_ok D (f x) -> pcb_ok D (g y) ->
  opened (f x) = true -> listener (f x) = None -> state (f x) <> TCP_STATE_LISTEN ->
  accept_list (f x) = accept_list x -> pending_count (f x) = pending_count x ->
  pending_count (f x) <= backlog (f x) <= Z.of_nat TCP_ACCEPT_MAX ->
  opened (g y) = true -> listener (g y) = None -> state (g y) = TCP_STATE_LISTEN ->
  (forall cs, accept_list y = Some <$> cs -> NoDup cs -> accept_list (g y) = Some <$> filter (fun d => d <> c) cs) ->
  pending_count (g y) = pending_count y - 1 -> backlog (g y) = backlog y ->
  v = None \/ v = Some l ->
  tcp_ok D (set_detached c v (upd c f (upd l g t))).
Proof.
  intros Hf Hg Hfo Hfl Hfs Hfa Hfp Hfb Hgo Hgl Hgs Hga Hgp Hgb Hv.
  pose proof child_ne as Hne. destruct child_listener as (Hyo & Hys & Hyl).
  pose proof Hok as [H1 H2 H3 H4 H5 H6 H7 H8 H9 H10 H11].
  set (t' := set_detached c v (upd c f (upd l g t))).
  assert (Hat : forall q, pcb_at t' q = if decide (q = c) then Some (f x) else if decide (q = l) then Some (g y) else pcb_at t q).
  { intros q. unfold t', set_detached. cbn. fold (upd l g t). change (pcb_at (upd c f (upd l g t)) q = 
      if decide (q = c) then Some (f x) else if decide (q = l) then Some (g y) else pcb_at t q).
    rewrite !pcb_upd. repeat case_decide; subst; rewrite ?Hx, ?Hy; done. }
  assert (Hsl : forall p, slot_at t' p = slot_at t p) by done.
  assert (Hall : forall q z, pcb_at t' q = Some z ->
    (q = c /\ z = f x) \/ (q = l /\ z = g y) \/ (q <> c /\ q <> l /\ pcb_at t q = Some z)).
  { intros q z. rewrite Hat. repeat case_decide; naive_solver. }
  assert (Hxs : state x <> TCP_STATE_LISTEN).
  { destruct (H6 c x Hx l Hl) as (_ & _ & _ & _ & [?|?]); congruence. }
  assert (Hli : forall k, is_listener t' k <-> is_listener t k).
  { intros k. unfold is_listener. rewrite Hat. repeat case_decide; subst; naive_solver. }
  assert (Hrd : forall k d, ready_child t' k d <-> ready_child t k d /\ d <> c).
  { intros k d. unfold ready_child. rewrite Hat. repeat case_decide; subst; naive_solver. }
  assert (Hch : forall k, children t' k = children t k - (if decide (k = l) then 1 else 0)).
  { intros k. change (children t' k) with (children (upd c f (upd l g t)) k).
    rewrite (children_upd _ _ _ x) by (by rewrite pcb_upd_ne). rewrite (children_upd _ _ _ y) by done.
    rewrite Hl, Hfl, Hyl, Hgl. repeat case_decide; simplify_eq; lia. }
  split; try done.
  - unfold t'. cbn. by rewrite length_insert, !length_alter.
  - intros q z [[-> ->]|[[-> ->]|(_ & _ & Hz)]]%Hall; [done..|by eapply H3].
  - intros q z [[-> ->]|[[-> ->]|(_ & _ & Hz)]]%Hall Hq; [done..|by eapply H4].
  - intros q z [[-> ->]|[[-> ->]|(_ & _ & Hz)]]%Hall Hq; rewrite Hsl in Hq.
    + destruct (H5 c x Hx Hq) as (_ & _ & _ & ? & _). congruence.
    + destruct (H5 l y Hy Hq) as (? & _). congruence.
    + by eapply H5.
  - intros q z [[-> ->]|[[-> ->]|(_ & _ & Hz)]]%Hall k Hk; [congruence..|]. rewrite Hli. by eapply H6.
  - intros q z Hz. unfold queue_inv. setoid_rewrite Hrd. apply Hall in Hz as [[-> ->]|[[-> ->]|(Hqc & Hql & Hz)]].
    + rewrite Hfa. destruct (plain_queue Hok c x Hx Hxs) as [E _]. exists []. rewrite E. split; [done|].
      split; [apply NoDup_nil_2|]. intros d. split; [set_solver|]. intros [(z & Hz & Hzl & _) _].
      destruct (childless Hok c x Hx Hxs z Hzl). by eapply list_elem_of_lookup_2.
    + destruct (H7 l y Hy) as (cs & E & Hnd & Hcs). exists (filter (fun d => d <> c) cs).
      split; [by apply Hga|]. split; [by apply NoDup_filter|]. intros d. rewrite list_elem_of_filter, Hcs. tauto.
    + destruct (H7 q z Hz) as (cs & E & Hnd & Hcs). exists cs. split; [done|]. split; [done|].
      intros d. rewrite Hcs. split; [|tauto]. intros Hd. split; [done|]. intros ->.
      destruct Hd as (z' & Hz' & Hzl & _). rewrite Hx in Hz'. injection Hz' as <-. congruence.
  - intros q z Hz. unfold backlog_ok. rewrite Hch. apply Hall in Hz as [[-> ->]|[[-> ->]|(Hqc & Hql & Hz)]].
    + rewrite decide_False by done. split; [|done]. rewrite Hfp. destruct (H8 c x Hx) as [-> _]. lia.
    + rewrite decide_True by done. destruct (H8 l y Hy) as [E ?]. rewrite Hgp, Hgb, E. lia.
    + rewrite decide_False by done. rewrite Z.sub_0_r. by apply H8.
  - intros i k Hd. rewrite Hli. unfold t', set_detached in Hd. cbn in Hd.
    apply list_lookup_insert_Some in Hd as [(-> & E & _)|[_ Hd]]; [|by eapply H9].
    destruct Hv as [-> | ->]; [done|]. injection E as ->. by exists y.
  - intros k k'. rewrite !Hli. apply H10.
Qed.
End unlink.

(** ** Linking a child, and queueing it *)

Section link.
Context {D : gset nat} {t : tcp_vars} (Hok : tcp_ok D t).
Context {c l : nat} {x y : tcp_pcb_t} (Hx : pcb_at t c = Some x) (Hy : pcb_at t l = Some y).
Context (Hyo : opened y = true) (Hys : state y = TCP_STATE_LISTEN) (Hslot : slot_at t c = Some (Some c)).
Context (Hfrom : (listener x = None /\ state x <> TCP_STATE_LISTEN) \/
                 (listener x = Some l /\ state x = TCP_STATE_SYN_RECEIVED)).

Lemma tcp_ok_link f g :
  pcb_ok D (f x) -> pcb_ok D (g y) ->
  opened (f x) = true -> listener (f x) = Some l -> release_pending (f x) = false ->
  close_requested (f x) = false ->
  (state (f x) = TCP_STATE_SYN_RECEIVED \/ state (f x) = TCP_STATE_ESTABLISHED) ->
  accept_list (f x) = accept_list x -> pending_count (f x) = pending_count x ->
  pending_count (f x) <= backlog (f x) <= Z.of_nat TCP_ACCEPT_MAX ->
  opened (g y) = true -> listener (g y) = None -> state (g y) = TCP_STATE_LISTEN ->
  accept_list (g y) = accept_list y ++ (if decide (state (f x) = TCP_STATE_ESTABLISHED) then [Some c] else []) ->
  pending_count (g y) = pending_count y + (if decide (listener x = None) then 1 else 0) ->
  pending_count (g y) <= backlog (g y) <= Z.of_nat TCP_ACCEPT_MAX ->
  tcp_ok D (upd l g (upd c f t)).
Proof.
  intros Hf Hg Hfo Hfl Hfr Hfc Hfs Hfa Hfp Hfb Hgo Hgl Hgs Hga Hgp Hgb.
  pose proof Hok as [H1 H2 H3 H4 H5 H6 H7 H8 H9 H10 H11].
  assert (Hxs : state x <> TCP_STATE_LISTEN) by (destruct Hfrom as [[_ ?]|[_ ?]]; congruence).
  assert (Hne : c <> l) by (intros ->; congruence).
  assert (Hyl : listener y = None).
  { destruct (listener y) as [k|] eqn:E; [|done].
    destruct (H6 l y Hy k E) as (_ & _ & _ & _ & [?|?]); congruence. }
  set (t' := upd l g (upd c f t)).
  assert (Hat : forall q, pcb_at t' q = if decide (q = c) then Some (f x) else if decide (q = l) then Some (g y) else pcb_at t q).
  { intros q. unfold t'. rewrite !pcb_upd. repeat case_decide; subst; rewrite ?Hx, ?Hy; done. }
  assert (Hall : forall q z, pcb_at t' q = Some z ->
    (q = c /\ z = f x) \/ (q = l /\ z = g y) \/ (q <> c /\ q <> l /\ pcb_at t q = Some z)).
  { intros q z. rewrite Hat. repeat case_decide; naive_solver. }
  assert (Hli : forall k, is_listener t' k <-> is_listener t k).
  { intros k. unfold is_listener. rewrite Hat. destruct (decide (k = c)) as [->|].
    - split; intros (z & Hz & ? & ?); [injection Hz as <-; destruct Hfs; congruence|congruence].
    - destruct (decide (k = l)) as [->|]; [|done]. split; intros _; [by exists y|by exists (g y)]. }
  assert (Hrdc : forall k, ~ ready_child t k c).
  { intros k (z & Hz & ? & ?). rewrite Hx in Hz. injection Hz as <-. destruct Hfrom as [[? _]|[? ?]]; congruence. }
  assert (Hrd : forall k d, ready_child t' k d <->
    ready_child t k d \/ (d = c /\ k = l /\ state (f x) = TCP_STATE_ESTABLISHED)).
  { intros k d. unfold ready_child at 1. rewrite Hat. destruct (decide (d = c)) as [->|].
    - split; [|intros [[]%Hrdc|(_ & -> & ?)]; by exists (f x)]. intros (z & [= <-] & Hz & Hst). right. naive_solver.
    - destruct (decide (d = l)) as [->|].
      + split; [intros (z & [= <-] & ? & ?); congruence|]. intros [(z & Hz & ? & ?)|(? & _)]; [congruence|done].
      + unfold ready_child. naive_solver. }
  assert (Hch : forall k, children t' k = children t k + (if decide (k = l /\ listener x = None) then 1 else 0)).
  { intros k. unfold t'. rewrite (children_upd _ _ _ y) by (by rewrite pcb_upd_ne).
    rewrite (children_upd _ _ _ x) by done. rewrite Hfl, Hyl, Hgl.
    assert (E : Some l = Some k <-> k = l) by naive_solver.
    destruct Hfrom as [[-> _]|[-> _]]; clear -E; repeat case_decide; first [lia|exfalso; intuition congruence]. }
  split; try done.
  - unfold t'. cbn. by rewrite !length_alter.
  - intros q z [[-> ->]|[[-> ->]|(_ & _ & Hz)]]%Hall; [done..|by eapply H3].
  - intros q z [[-> ->]|[[-> ->]|(_ & _ & Hz)]]%Hall Hq; [done..|by eapply H4].
  - intros q z [[-> ->]|[[-> ->]|(_ & _ & Hz)]]%Hall Hq; change (slot_at t' ?a) with (slot_at t a) in Hq.
    + congruence.
    + destruct (H5 l y Hy Hq) as (? & _). congruence.
    + by eapply H5.
  - intros q z [[-> ->]|[[-> ->]|(_ & _ & Hz)]]%Hall k Hk; [|congruence|].
    + rewrite Hfl in Hk. injection Hk as <-. rewrite Hli. split_and!; [by exists y|done..].
    + rewrite Hli. by eapply H6.
  - intros q z Hz. unfold queue_inv. setoid_rewrite Hrd. apply Hall in Hz as [[-> ->]|[[-> ->]|(Hqc & Hql & Hz)]].
    + rewrite Hfa. destruct (H7 c x Hx) as (cs & E & Hnd & Hcs). exists cs. split_and!; [done..|].
      intros d. rewrite Hcs. split; [tauto|]. intros [?|(_ & ? & _)]; [done|congruence].
    + destruct (H7 l y Hy) as (cs & E & Hnd & Hcs). rewrite Hga, E.
      exists (cs ++ if decide (state (f x) = TCP_STATE_ESTABLISHED) then [c] else []).
      assert (c ∉ cs) by (by intros ?%Hcs%Hrdc).
      destruct (decide (state (f x) = TCP_STATE_ESTABLISHED)) as [Hst|Hst].
      * split; [by rewrite fmap_app|]. split; [apply NoDup_app; split_and!; [done|set_solver|apply NoDup_singleton]|].
        intros d. rewrite elem_of_app, list_elem_of_singleton, Hcs. naive_solver.
      * rewrite !app_nil_r. split_and!; [done..|]. intros d. rewrite Hcs. naive_solver.
    + destruct (H7 q z Hz) as (cs & E & Hnd & Hcs). exists cs. split_and!; [done..|].
      intros d. rewrite Hcs. split; [tauto|]. intros [?|(_ & ? & _)]; [done|congruence].
  - intros q z Hz. unfold backlog_ok. rewrite Hch. apply Hall in Hz as [[-> ->]|[[-> ->]|(Hqc & Hql & Hz)]].
    + rewrite decide_False by naive_solver. split; [|done]. rewrite Hfp. destruct (H8 c x Hx) as [-> _]. lia.
    + split; [|done]. rewrite Hgp. destruct (H8 l y Hy) as [-> _]. f_equal. repeat case_decide; naive_solver.
    + rewrite decide_False by naive_solver. rewrite Z.add_0_r. by apply H8.
  - intros i k Hd. rewrite Hli. by eapply H9.
  - intros k k'. rewrite !Hli. apply H10.
Qed.
End link.

(** ** Taking and leaving a slot, and starting to listen *)

(** Nothing refers to [p]. *)
Definition unreferenced (t : tcp_vars) (p : nat) : Prop :=
  (forall q z, pcb_at t q = Some z -> listener z <> Some p) /\ forall i, detached_at t i <> Some (Some p).

Section slot.
Context {D : gset nat} {t : tcp_vars} (Hok : tcp_ok D t).
Context {p : nat} {x : tcp_pcb_t} (Hx : pcb_at t p = Some x).

Lemma plain_unreferenced : state x <> TCP_STATE_LISTEN -> unreferenced t p.
Proof.
  intros Hs. split.
  - intros q z Hz Hl. destruct (childless Hok p x Hx Hs z Hl). by eapply list_elem_of_lookup_2.
  - intros i Hi. destruct (tcp_detached _ _ Hok i p Hi) as (z & Hz & _ & ?). congruence.
Qed.

(** The control block [p], its slot and its entry of [detached_listeners]
    change together. *)
Lemma tcp_ok_place f v d :
  unreferenced t p -> listener x = None ->
  pcb_ok D (f x) -> listener (f x) = None -> accept_list (f x) = [] -> pending_count (f x) = 0 ->
  0 <= backlog (f x) <= Z.of_nat TCP_ACCEPT_MAX ->
  (v = None /\ unused (f x)) \/ (v = Some p /\ opened (f x) = true) ->
  d = None \/ detached_at t p = Some d ->
  (state (f x) = TCP_STATE_LISTEN -> forall q, is_listener t q -> q = p) ->
  tcp_ok D (set_slot p v (set_detached p d (upd p f t))).
Proof.
  intros Hu Hl Hpcb Hfl Hfa Hfp Hfb Hv Hd Hone.
  set (t1 := set_slot p v (set_detached p d t)).
  assert (Hr : (p < length (tcp_pcbs t))%nat).
  { destruct (tcp_lengths _ _ Hok) as (_ & -> & _). by eapply pcb_range. }
  assert (E : set_slot p v (set_detached p d (upd p f t)) = upd p f t1) by (by destruct t).
  rewrite E. clear E. pose proof Hok as [H1 H2 H3 H4 H5 H6 H7 H8 H9 H10 H11]. destruct Hu as [Hu1 Hu2].
  assert (Hall : forall q y, pcb_at (upd p f t1) q = Some y -> (q = p /\ y = f x) \/ (q <> p /\ pcb_at t q = Some y)).
  { intros q y. rewrite pcb_upd. change (pcb_at t1 q) with (pcb_at t q). case_decide; [subst q|by right].
    rewrite Hx. intros [= <-]. by left. }
  assert (Hat : forall q, pcb_at (upd p f t1) q = pcb_at (upd p f t) q) by done.
  assert (Hli : forall k, k <> p -> is_listener (upd p f t1) k <-> is_listener t k).
  { intros k Hk. unfold is_listener. by rewrite Hat, pcb_upd_ne. }
  assert (Hch : forall k, children (upd p f t1) k = children t k).
  { intros k. change (children (upd p f t1) k) with (children (upd p f t) k).
    rewrite (children_upd _ _ _ _ _ Hx), Hl, Hfl. case_decide; [done|lia]. }
  assert (Hrd : forall k e, ready_child (upd p f t1) k e <-> ready_child t k e).
  { intros k e. unfold ready_child. rewrite Hat, pcb_upd. case_decide; [subst e|done]. rewrite Hx. cbn.
    split; intros (z & [= <-] & ? & _); congruence. }
  assert (Hnc : children t p = 0).
  { unfold children. destruct (filter _ _) as [|z k] eqn:E; [done|].
    assert (Hin : z ∈ filter (fun x => listener x = Some p) (pcb_storage t)) by (rewrite E; set_solver).
    apply list_elem_of_filter in Hin as [Hz (q & Hq)%list_elem_of_lookup]. by destruct (Hu1 q z Hq). }
  assert (Hslot : forall q, q <> p -> slot_at (upd p f t1) q = slot_at t q).
  { intros q Hq. unfold t1. cbn. by rewrite list_lookup_insert_ne. }
  assert (Hslotp : slot_at (upd p f t1) p = Some v).
  { unfold t1. cbn. by rewrite list_lookup_insert_eq. }
  split; try done.
  - cbn. by rewrite !length_insert, length_alter.
  - intros i q. destruct (decide (i = p)) as [->|]; [rewrite Hslotp|rewrite Hslot by done; apply H2].
    intros [= ->]. destruct Hv as [[? _]|[? _]]; [done|congruence].
  - intros q y [[-> ->]|[_ Hy]]%Hall; [done|by eapply H3].
  - intros q y [[-> ->]|[Hq Hy]]%Hall; [rewrite Hslotp|rewrite Hslot by done; by eapply H4].
    intros [= ->]. by destruct Hv as [[? _]|[_ ?]].
  - intros q y [[-> ->]|[Hq Hy]]%Hall; [rewrite Hslotp|rewrite Hslot by done; by eapply H5].
    intros [= ->]. by destruct Hv as [[_ ?]|[? _]].
  - intros q y [[-> ->]|[_ Hy]]%Hall k Hk; [congruence|]. rewrite Hli; [by eapply H6|].
    intros ->. by apply (Hu1 q y Hy).
  - intros q y Hy. unfold queue_inv. setoid_rewrite Hrd. apply Hall in Hy as [[-> ->]|[_ Hy]]; [|by apply H7].
    rewrite Hfa. exists []. split_and!; [done|apply NoDup_nil_2|]. intros e. split; [set_solver|].
    intros (z & Hz & Hzl & _). by destruct (Hu1 e z Hz).
  - intros q y Hy. unfold backlog_ok. rewrite Hch. apply Hall in Hy as [[-> ->]|[_ Hy]]; [lia|by apply H8].
  - intros i k Hi. assert (Hik : detached_at t i = Some (Some k)).
    { unfold t1 in Hi. cbn in Hi. apply list_lookup_insert_Some in Hi as [(<- & -> & _)|[_ Hi]]; [|done]. by destruct Hd. }
    rewrite Hli; [by eapply H9|]. intros ->. by apply (Hu2 i).
  - assert (Hp : forall k, is_listener (upd p f t1) p -> is_listener t k -> k = p).
    { intros k (z & Hz & Ho & Hs). rewrite Hat, (pcb_upd_eq _ _ _ _ Hx) in Hz. injection Hz as <-. by apply Hone. }
    intros k k' Hk Hk'. destruct (decide (k = p)) as [->|Hkp], (decide (k' = p)) as [->|Hkp']; [done|..].
    + rewrite Hli in Hk' by done. symmetry. by apply Hp.
    + rewrite Hli in Hk by done. by apply Hp.
    + rewrite Hli in Hk, Hk' by done. by apply H10.
Qed.

(** Only the control block changes. *)
Lemma tcp_ok_plain f :
  unreferenced t p -> listener x = None ->
  pcb_ok D (f x) -> listener (f x) = None -> accept_list (f x) = [] -> pending_count (f x) = 0 ->
  0 <= backlog (f x) <= Z.of_nat TCP_ACCEPT_MAX ->
  (slot_at t p = Some (Some p) -> opened (f x) = true) -> (slot_at t p = Some None -> unused (f x)) ->
  (state (f x) = TCP_STATE_LISTEN -> forall q, is_listener t q -> q = p) ->
  tcp_ok D (upd p f t).
Proof.
  intros Hu Hl Hpcb Hfl Hfa Hfp Hfb Hused Hfree Hone. pose proof (pcb_range Hok _ _ Hx) as Hr.
  destruct (lookup_lt_is_Some_2 (detached_listeners t) p) as [d Hd].
  { by destruct (tcp_lengths _ _ Hok) as (_ & _ & ->). }
  assert (exists v, slot_at t p = Some v /\ ((v = None /\ unused (f x)) \/ (v = Some p /\ opened (f x) = true)))
    as (v & Hv & Hcase).
  { destruct (slot_cases Hok p Hr) as [E|E]; eexists; (split; [exact E|]); auto. }
  assert (E : upd p f t = set_slot p v (set_detached p d (upd p f t))).
  { unfold set_slot, set_detached. cbn. rewrite !list_insert_id by done. by destruct t. }
  rewrite E. apply tcp_ok_place; auto.
Qed.
End slot.

(** ** The timers of one control block *)

Lemma run_timer_eq k v T : run_timer k v T k = v.
Proof. unfold run_timer. by rewrite decide_True. Qed.
Lemma run_timer_ne k v T j : j <> k -> run_timer k v T j = T j.
Proof. intros. unfold run_timer. by rewrite decide_False. Qed.

Lemma tick_off E W T k b : T k = false -> b = false -> tick E W T k b.
Proof. intros H1 H2 _. split; congruence. Qed.
Lemma tick_on E W T k b : T k = true \/ k ∈ W -> b = true -> tick E W T k b.
Proof. intros H1 H2 _. by split. Qed.
Lemma tick_ext E W T T' k b b' : tick E W T k b -> T' k = T k -> b' = b -> tick E W T' k b'.
Proof. intros H E1 E2. unfold tick. by rewrite E1, E2. Qed.

(** The timers of [p]. *)
Definition timer_of (p k : nat) : Prop := k = retrans_timer p \/ k = time_wait_timer p \/ k = release_timer p.
Lemma timer_of_apart p q k :
  (p < TCP_PCB_MAX)%nat -> (q < TCP_PCB_MAX)%nat -> p <> q -> timer_of p k -> ~ timer_of q k.
Proof. unfold timer_of, retrans_timer, time_wait_timer, release_timer, TCP_PCB_MAX. lia. Qed.

Lemma timers_ok_upd {E W t T} p f x T' :
  length (pcb_storage t) = TCP_PCB_MAX -> timers_ok E W t T -> pcb_at t p = Some x ->
  (forall k, ~ timer_of p k -> T' k = T k) ->
  tick E W T' (retrans_timer p) (bool_decide (outstanding (f x) <> None)) ->
  tick E W T' (time_wait_timer p) (bool_decide (state (f x) = TCP_STATE_TIME_WAIT)) ->
  tick E W T' (release_timer p) (release_pending (f x)) ->
  (release_timer p ∈ W -> leaving x -> leaving (f x)) ->
  timers_ok E W (upd p f t) T'.
Proof.
  intros Hl Hok Hx HT H1 H2 H3 H4 q z Hz. rewrite pcb_upd in Hz. destruct (decide (q = p)) as [->|Hne].
  - rewrite Hx in Hz. injection Hz as <-. split_and!; [done..|]. intros HW. apply H4; [done|]. by apply (Hok p x Hx).
  - assert (Hn : forall k, timer_of q k -> T' k = T k).
    { intros k Hk. apply HT. apply (timer_of_apart q p); [..|done|done].
      - rewrite <- Hl. by eapply lookup_lt_Some.
      - rewrite <- Hl. by eapply lookup_lt_Some. }
    destruct (Hok q z Hz) as (K1 & K2 & K3 & K4).
    split_and!; [(eapply tick_ext; [eassumption|apply Hn; unfold timer_of; tauto|done])..|done].
Qed.

(** A change the timers do not depend on. *)
Lemma timers_ok_same {E W t T} p f x :
  length (pcb_storage t) = TCP_PCB_MAX -> timers_ok E W t T -> pcb_at t p = Some x ->
  outstanding (f x) = outstanding x -> (state (f x) = TCP_STATE_TIME_WAIT <-> state x = TCP_STATE_TIME_WAIT) ->
  release_pending (f x) = release_pending x -> opened (f x) = opened x \/ W = [] -> timers_ok E W (upd p f t) T.
Proof.
  intros Hl Hok Hx Ho Hs Hr Hop. destruct (Hok p x Hx) as (K1 & K2 & K3 & K4).
  eapply (timers_ok_upd p f x (E := E) (W := W)); [done..| | | |].
  - eapply tick_ext; [exact K1|done|by rewrite Ho].
  - eapply tick_ext; [exact K2|done|by apply bool_decide_ext].
  - by eapply tick_ext.
  - unfold leaving. rewrite Hr. destruct Hop as [-> | ->]; [done|set_solver].
Qed.

Lemma timers_ok_storage {E W t t' T} : timers_ok E W t T -> pcb_storage t' = pcb_storage t -> timers_ok E W t' T.
Proof. intros H Es p x. rewrite Es. apply H. Qed.
Lemma timers_ok_ext {E W t T T'} : timers_ok E W t T -> (forall k, T' k = T k) -> timers_ok E W t T'.
Proof.
  intros H HT p x Hx. destruct (H p x Hx) as (H1 & H2 & H3 & H4).
  split_and!; [(eapply tick_ext; [eassumption|apply HT|done])..|done].
Qed.
Lemma tick_drop E W T k j b : tick (k :: E) W T j b -> j <> k -> tick E W T j b.
Proof. intros H Hne Hj. apply H. rewrite elem_of_cons. tauto. Qed.
Lemma timers_ok_mono {E E' W t T} : timers_ok E W t T -> E ⊆ E' -> timers_ok E' W t T.
Proof. intros H HE p x Hx. destruct (H p x Hx) as (H1 & H2 & H3 & H4). split_and!; [intros Hk; apply H1|intros Hk; apply H2|intros Hk; apply H3|done]; set_solver. Qed.

(** An exempt timer is back in step. *)
Lemma timers_ok_settle {E W t T} p x k :
  length (pcb_storage t) = TCP_PCB_MAX -> timers_ok (k :: E) W t T -> timer_of p k -> pcb_at t p = Some x ->
  (k = retrans_timer p -> tick E W T k (bool_decide (outstanding x <> None))) ->
  (k = time_wait_timer p -> tick E W T k (bool_decide (state x = TCP_STATE_TIME_WAIT))) ->
  (k = release_timer p -> tick E W T k (release_pending x)) ->
  timers_ok E W t T.
Proof.
  intros Hl Hok Hk Hx H1 H2 H3 q z Hz. destruct (Hok q z Hz) as (K1 & K2 & K3 & K4). destruct (decide (q = p)) as [->|Hne].
  - rewrite Hx in Hz. injection Hz as <-.
    split_and!; [destruct (decide (retrans_timer p = k)) as [<-|]|destruct (decide (time_wait_timer p = k)) as [<-|]
      |destruct (decide (release_timer p = k)) as [<-|]|]; eauto using tick_drop.
  - assert (Hn : forall j, timer_of q j -> j <> k).
    { intros j Hj ->. revert Hj Hk. apply timer_of_apart; [..|done].
      - rewrite <- Hl. by eapply lookup_lt_Some.
      - rewrite <- Hl. by eapply lookup_lt_Some. }
    split_and!; [(eapply tick_drop; [eassumption|apply Hn; unfold timer_of; tauto])..|done].
Qed.

(** ** The variables after [tcp_init] *)

Lemma cleared_pcb p x : pcb_at tcp_cleared p = Some x -> x = zero_pcb.
Proof. cbn [tcp_cleared pcb_storage]. by intros [-> _]%lookup_replicate. Qed.

Lemma zero_pcb_ok D : pcb_ok D zero_pcb.
Proof.
  split; try done.
  - split; [exact (length_replicate _ _)|]. apply Forall_forall. by intros v [-> _]%elem_of_replicate.
  - by intros [].
  - by intros [].
  - by left.
Qed.

Lemma tcp_cleared_ok D : tcp_ok D tcp_cleared.
Proof.
  assert (Hs : forall i p, slot_at tcp_cleared i <> Some (Some p)).
  { intros i p. cbn [tcp_cleared tcp_pcbs]. by intros [? _]%lookup_replicate. }
  assert (Hl : forall l, ~ is_listener tcp_cleared l) by (by intros l (y & ->%cleared_pcb & ? & _)).
  assert (Hc : forall l, children tcp_cleared l = 0).
  { intros l. unfold children. destruct (filter _ _) as [|x k] eqn:E; [done|].
    assert (Hin : x ∈ filter (fun x => listener x = Some l) (pcb_storage tcp_cleared)) by (rewrite E; by left).
    apply list_elem_of_filter in Hin as [Hx (q & Hq)%list_elem_of_lookup]. by rewrite (cleared_pcb q x Hq) in Hx. }
  split; try done.
  - by intros i p ?%Hs.
  - intros p x ->%cleared_pcb. apply zero_pcb_ok.
  - by intros p x _ ?%Hs.
  - intros p x ->%cleared_pcb _. done.
  - intros p x ->%cleared_pcb. done.
  - intros p x ->%cleared_pcb. exists []. split_and!; [done|apply NoDup_nil_2|]. intros c. split; [set_solver|].
    by intros (z & ->%cleared_pcb & ? & _).
  - intros p x ->%cleared_pcb. unfold backlog_ok. by rewrite Hc.
  - intros i l. cbn [tcp_cleared detached_listeners]. by intros [? _]%lookup_replicate.
  - intros l l' H. by destruct (Hl l).
Qed.

Lemma tcp_cleared_timers W : timers_ok [] W tcp_cleared (fun _ => false).
Proof. intros p x ->%cleared_pcb. split_and!; [by apply tick_off..|]. intros _. by right. Qed.
