(* ===== verification/Net.v ===== *)
(** * The state of the network stack

    One record holds the static variables of the modules under net/; the
    operations of each module are in the file of its name.  A [netif_t *] is an
    index into [netif_buffer], a [pktbuf_t *] an index into the packet pool.  A
    pointer to a function is a tag naming the function. *)

From S2P Require Import Prelude IpAddr Timer Mblock Pktbuf Sys Fixq TcpState.

(** ** net_cfg.h, netif.h, ether.h *)

Definition NETIF_HWADDR_SIZE : Z := 10.
Definition NETIF_NAME_SIZE : nat := 16.
Definition NETIF_DEV_CNT : Z := 4.
Definition NETIF_INQ_SIZE : nat := 16.
Definition NETIF_OUTQ_SIZE : nat := 16.

Definition ETH_HWA_SIZE : nat := 6.
Definition ETH_MTU : Z := 1500.
Definition ETH_DATA_MIN : Z := 46.
Definition ETH_FRAME_MIN : Z := Z.of_nat ETH_HWA_SIZE + Z.of_nat ETH_HWA_SIZE + 2 + ETH_DATA_MIN.
Definition ETH_FRAME_MAX : Z := Z.of_nat ETH_HWA_SIZE + Z.of_nat ETH_HWA_SIZE + 2 + ETH_MTU.

Definition NET_PROTOCOL_ARP : Z := 0x0806.
Definition NET_PROTOCOL_IPV4 : Z := 0x0800.
Definition NET_PROTOCOL_ICMPV4 : Z := 0x01.
Definition NET_PROTOCOL_UDP : Z := 0x11.
Definition NET_PROTOCOL_TCP : Z := 0x06.

(** The functions of the two drivers, [loop_*] and [netif_virtio_*]. *)
Inductive driver := LoopDriver | VirtioDriver.
Record netif_ops_t := NetifOps {
  op_open : option driver; op_close : option driver; op_xmit : option driver }.

(** The functions of the only link layer, [ether_link_*]. *)
Inductive link := EtherLink.
Inductive netif_type_t := NETIF_TYPE_NONE | NETIF_TYPE_ETHER | NETIF_TYPE_LOOP.
Record link_layer_t := LinkLayer {
  ll_type : netif_type_t; ll_open : option link; ll_close : option link;
  ll_in : option link; ll_out : option link }.

Inductive netif_state_t := NETIF_CLOSED | NETIF_OPENED | NETIF_ACTIVE.
#[global] Instance netif_type_eq : EqDecision netif_type_t.
Proof. solve_decision. Defined.
#[global] Instance netif_state_eq : EqDecision netif_state_t.
Proof. solve_decision. Defined.

Record netif_hwaddr_t := HwAddr { hw_len : Z; hw_addr : bytes }.

Record netif_t := Netif {
  name : bytes; hwaddr : netif_hwaddr_t;
  ipaddr : Z; netmask : Z; gateway : Z;
  state : netif_state_t; type : netif_type_t; mtu : Z;
  ops : option netif_ops_t; link_layer : option link_layer_t;
  in_q : fixq_t nat; out_q : fixq_t nat }.
#[global] Instance netif_settable : Settable netif_t := fun r =>
  Netif (name r) (hwaddr r) (ipaddr r) (netmask r) (gateway r) (state r) (type r) (mtu r)
    (ops r) (link_layer r) (in_q r) (out_q r).

(** ** arp.h *)

Inductive arp_state_t := NET_ARP_FREE | NET_ARP_RESOLVED | NET_ARP_WAITING.
#[global] Instance arp_state_eq : EqDecision arp_state_t.
Proof. solve_decision. Defined.

Record arp_entry_t := ArpEntry {
  paddr : Z; haddr : bytes; arp_state : arp_state_t; tmo : Z; retry : Z;
  arp_netif : option nat; buf_list : list nat }.
#[global] Instance arp_entry_settable : Settable arp_entry_t := fun r =>
  ArpEntry (paddr r) (haddr r) (arp_state r) (tmo r) (retry r) (arp_netif r) (buf_list r).

(** ** Handlers *)

Inductive ether_input := ArpIn | Ipv4In.
Inductive ipv4_input := Icmpv4In | UdpIn | TcpIn.

(** ** icmpv4.h, udp.h *)

Record icmpv4_stats_t := IcmpStats {
  echo_requests : Z; echo_replies : Z;
  last_reply_identifier : Z; last_reply_sequence : Z }.
#[global] Instance icmp_stats_settable : Settable icmpv4_stats_t := fun r =>
  IcmpStats (echo_requests r) (echo_replies r) (last_reply_identifier r) (last_reply_sequence r).

Definition UDP_PCB_MAX : nat := 16.
Definition UDP_RECV_MAX : nat := 8.

(** What the receive queue of a control block holds: a slot of
    [recv_records], or the control block itself as a mark. *)
Inductive udp_item := UdpRecord (i j : nat) | UdpMark (pcb : nat).

Record udp_recv_t := UdpRecv { rec_buf : option nat; rec_src : Z; rec_port : Z }.
Record udp_pcb_t := UdpPcb {
  local_port : Z; pcb_open : bool; recv_queue : fixq_t udp_item;
  close_done : sys_sem_t; recv_waiting : bool }.
#[global] Instance udp_recv_settable : Settable udp_recv_t := fun r =>
  UdpRecv (rec_buf r) (rec_src r) (rec_port r).
#[global] Instance udp_pcb_settable : Settable udp_pcb_t := fun r =>
  UdpPcb (local_port r) (pcb_open r) (recv_queue r) (close_done r) (recv_waiting r).

(** ** The whole state *)

Record net := Net {
  pkt : pkt_state; sys : sys_state; timers : timer_state;
  (** netif.c *)
  netif_buffer : gmap nat netif_t; netif_mblock : mblock_t; netif_list : list nat;
  netif_default : option nat; link_layers : list (option link_layer_t);
  (** loop.c *)
  loop_netif : option nat;
  (** ether.c *)
  ether_handlers : list (Z * option ether_input);
  (** arp.c *)
  cache_entries : gmap nat arp_entry_t; cache_blocks : mblock_t; cache_list : list nat;
  initialized : bool;
  (** ipv4.c *)
  ipv4_handlers : list (option ipv4_input); next_packet_id : Z;
  (** icmpv4.c *)
  icmpv4_stats : icmpv4_stats_t;
  (** udp.c *)
  pcbs : list (option nat); udp_pcbs : gmap nat udp_pcb_t;
  recv_records : list (list udp_recv_t);
  (** tcp.c *)
  tcp : tcp_vars;
  (** The driver of the network device: the frames given to
      [virtio_net_send] and what its next calls return, what the next calls of
      [virtio_net_receive] return, and the MAC address if the device is up. *)
  tx_frames : list bytes; tx_results : list Z;
  rx_results : list (option bytes); virtio_mac : option bytes }.
#[global] Instance net_settable : Settable net := fun r =>
  Net (pkt r) (sys r) (timers r) (netif_buffer r) (netif_mblock r) (netif_list r)
    (netif_default r) (link_layers r) (loop_netif r) (ether_handlers r)
    (cache_entries r) (cache_blocks r) (cache_list r) (initialized r)
    (ipv4_handlers r) (next_packet_id r) (icmpv4_stats r)
    (pcbs r) (udp_pcbs r) (recv_records r) (tcp r) (tx_frames r) (tx_results r) (rx_results r) (virtio_mac r).

Definition pkt_lens : lens net pkt_state := Lens pkt (fun x s => s <| pkt := x |>).
Definition sys_lens : lens net sys_state := Lens sys (fun x s => s <| sys := x |>).
Definition timer_lens : lens net timer_state := Lens timers (fun x s => s <| timers := x |>).
Definition netif_mblock_lens : lens net mblock_t :=
  Lens netif_mblock (fun x s => s <| netif_mblock := x |>).
Definition cache_blocks_lens : lens net mblock_t :=
  Lens cache_blocks (fun x s => s <| cache_blocks := x |>).

(** A call of pktbuf.c. *)
Abbreviation pk m := (zoom pkt_lens m).

Definition load_netif (n : nat) : M net netif_t := s ← get; deref (netif_buffer s !! n).
Definition store_netif (n : nat) (f : netif_t -> netif_t) : M net unit :=
  i ← load_netif n; modify (fun s => s <| netif_buffer := <[n := f i]> (netif_buffer s) |>).

(** The queues of an interface. *)
Definition in_ref (n : nat) : qref net nat :=
  QRef (fun s => in_q <$> netif_buffer s !! n)
       (fun q s => s <| netif_buffer := alter (fun i => i <| in_q := q |>) n (netif_buffer s) |>).
Definition out_ref (n : nat) : qref net nat :=
  QRef (fun s => out_q <$> netif_buffer s !! n)
       (fun q s => s <| netif_buffer := alter (fun i => i <| out_q := q |>) n (netif_buffer s) |>).

(** A call with a negative timeout never reaches [task_sleep]. *)
Definition no_sleep {S} : nat -> Z -> M S Z := fun _ _ => stuck.

(** Storing to and loading from the header [hdr] of a packet. *)
Definition hdr_store (hdr : nat * Z) (off : Z) (v : bytes) : M net unit :=
  pk (blk_write hdr.1 (hdr.2 + off) v).
Definition hdr_load (hdr : nat * Z) (off n : Z) : M net bytes :=
  pk (blk_read hdr.1 (hdr.2 + off) n).
Definition hdr_load8 (hdr : nat * Z) (off : Z) : M net Z :=
  v ← hdr_load hdr off 1; mret (byte_at v 0).
Definition hdr_load16 (hdr : nat * Z) (off : Z) : M net Z :=
  v ← hdr_load hdr off 2; mret (load16 v 0).
Definition hdr_load32 (hdr : nat * Z) (off : Z) : M net Z :=
  v ← hdr_load hdr off 4; mret (load32 v 0).
