(* ===== verification/Netif.v ===== *)
(** * Network interfaces and their drivers (net/netif.c, net/loop.c,
      net/netif_virtio.c)

    The functions of netif.c that call a link layer ([netif_out],
    [netif_set_active], [netif_set_deactive]) are in NetifLink.v, after the
    link layer. *)

From S2P Require Import Prelude IpAddr Nlist Mblock Pktbuf Sys Fixq Net.

(** ** netif.c *)

Fixpoint netif_name_copy_loop (n : nat) (src : bytes) : bytes :=
  match n, src with
  | S n, c :: src => if c =? 0 then [] else c :: netif_name_copy_loop n src
  | _, _ => []
  end.

(** The 16 bytes of [dest] afterwards. *)
Definition netif_name_copy (src : option bytes) : bytes :=
  let c := netif_name_copy_loop (NETIF_NAME_SIZE - 1) (default [] src) in
  c ++ replicate (NETIF_NAME_SIZE - length c) 0.

Section queues.
Context (task_sleep : nat -> Z -> M net Z) (fuel : nat) (mtime : Z).

Definition netif_put_in (netif buf : option nat) (timeout : Z) : M net Z :=
  match netif, buf with
  | Some n, Some b => fixq_send sys_lens (in_ref n) task_sleep fuel mtime (Some b) timeout
  | _, _ => mret NET_ERR_PARAM
  end.

Definition netif_put_out (netif buf : option nat) (timeout : Z) : M net Z :=
  match netif, buf with
  | Some n, Some b => fixq_send sys_lens (out_ref n) task_sleep fuel mtime (Some b) timeout
  | _, _ => mret NET_ERR_PARAM
  end.

Definition netif_get_in (netif : option nat) (timeout : Z) : M net (option nat) :=
  match netif with
  | None => mret None
  | Some n =>
      buf ← fixq_recv sys_lens (in_ref n) task_sleep fuel mtime timeout;
      match buf with
      | Some b => pk (pktbuf_reset_acc b);; mret (Some b)
      | None => mret None
      end
  end.

Definition netif_get_out (netif : option nat) (timeout : Z) : M net (option nat) :=
  match netif with
  | None => mret None
  | Some n =>
      buf ← fixq_recv sys_lens (out_ref n) task_sleep fuel mtime timeout;
      match buf with
      | Some b => pk (pktbuf_reset_acc b);; mret (Some b)
      | None => mret None
      end
  end.

End queues.

(** The calls of the stack itself, which do not wait. *)
Abbreviation put_in n b := (netif_put_in no_sleep 0 0 n b (-1)).
Abbreviation put_out n b := (netif_put_out no_sleep 0 0 n b (-1)).
Abbreviation get_in n := (netif_get_in no_sleep 0 0 n (-1)).
Abbreviation get_out n := (netif_get_out no_sleep 0 0 n (-1)).

Fixpoint netif_drain_loop (fuel : nat) (Q : qref net nat) : M net unit :=
  buf ← fixq_recv sys_lens Q no_sleep 0 0 (-1);
  match buf, fuel with
  | None, _ => mret ()
  | Some _, O => stuck
  | Some b, S fuel => pk (pktbuf_free (Some b));; netif_drain_loop fuel Q
  end.

Definition netif_drain_queue (Q : qref net nat) : M net unit :=
  q ← load_q Q; netif_drain_loop (Z.to_nat (count q)) Q.

Definition netif_set_addr (netif : option nat) (ip netmask_ gateway_ : option Z) : M net Z :=
  match netif with
  | None => mret NET_ERR_PARAM
  | Some n =>
      store_netif n (fun i => i <| ipaddr := default ipaddr_get_any ip |>
                                <| netmask := default ipaddr_get_any netmask_ |>
                                <| gateway := default ipaddr_get_any gateway_ |>);;
      mret NET_ERR_OK
  end.

Definition netif_set_hwaddr (netif : option nat) (hwaddr_ : option bytes) (length : Z) : M net Z :=
  match netif, hwaddr_ with
  | Some n, Some h =>
      if length <=? 0 then mret NET_ERR_PARAM
      else if NETIF_HWADDR_SIZE <? length then mret NET_ERR_SIZE
      else
        store_netif n (fun i => i <| hwaddr := HwAddr (u8 length)
          (splice 0 (take (Z.to_nat length) h) (hw_addr (hwaddr i))) |>);;
        mret NET_ERR_OK
  | _, _ => mret NET_ERR_PARAM
  end.

Definition netif_set_default (netif : option nat) : M net unit :=
  modify (fun s => s <| netif_default := netif |>).

Definition netif_get_default : M net (option nat) := gets netif_default.

Definition netif_type_index (t : netif_type_t) : nat :=
  match t with NETIF_TYPE_NONE => 0 | NETIF_TYPE_ETHER => 1 | NETIF_TYPE_LOOP => 2 end.
Definition NETIF_TYPE_SIZE : Z := 3.

Definition netif_register_layer (ty : Z) (layer : option link_layer_t) : M net Z :=
  match layer with
  | None => mret NET_ERR_PARAM
  | Some layer =>
      if (ty <? 0) || (NETIF_TYPE_SIZE <=? ty) then mret NET_ERR_PARAM
      else
        l ← gets link_layers;
        old ← deref (l !! Z.to_nat ty);
        match old with
        | Some _ => mret NET_ERR_EXIST
        | None =>
            modify (fun s => s <| link_layers := <[Z.to_nat ty := Some layer]> (link_layers s) |>);;
            mret NET_ERR_OK
        end
  end.

Definition netif_init : M net Z :=
  modify (fun s => s <| netif_list := [] |> <| netif_default := None |>
                     <| link_layers := replicate (Z.to_nat NETIF_TYPE_SIZE) None |>);;
  zoom netif_mblock_lens (mblock_init true 800 NETIF_DEV_CNT).

(** ** loop.c *)

Definition loop_open (netif : nat) : M net Z :=
  store_netif netif (fun i => i <| type := NETIF_TYPE_LOOP |> <| mtu := ETH_MTU |>);;
  mret NET_ERR_OK.

Definition loop_close (netif : nat) : M net unit :=
  l ← gets loop_netif;
  when (bool_decide (l = Some netif)) (modify (fun s => s <| loop_netif := None |>)).

Definition loop_xmit (netif : nat) : M net Z :=
  buf ← get_out (Some netif);
  match buf with
  | None => mret NET_ERR_NONE
  | Some b =>
      err ← put_in (Some netif) (Some b);
      when (err <? 0) (pk (pktbuf_free (Some b)));;
      mret err
  end.

Definition loop_ops : netif_ops_t :=
  NetifOps (Some LoopDriver) (Some LoopDriver) (Some LoopDriver).

(** ** netif_virtio.c *)

Definition ETHERNET_HEADER_SIZE : Z := 14.
Definition ETHERNET_MIN_FRAME : Z := 60.
Definition ETHERNET_MAX_FRAME : Z := 1514.

(** The calls of virtio_net.c. *)
Definition virtio_net_send (frame : bytes) : M net Z :=
  r ← gets tx_results;
  modify (fun s => s <| tx_frames := tx_frames s ++ [frame] |> <| tx_results := tail r |>);;
  mret (default 0 (head r)).

Definition virtio_net_receive : M net (option bytes) :=
  r ← gets rx_results;
  modify (fun s => s <| rx_results := tail r |>);;
  mret (default None (head r)).

Definition netif_virtio_open (netif : option nat) : M net Z :=
  match netif with
  | None => mret NET_ERR_PARAM
  | Some n =>
      mac ← gets virtio_mac;
      match mac with
      | None => mret NET_ERR_IO
      | Some mac =>
          err ← netif_set_hwaddr netif (Some mac) 6;
          if err <? 0 then mret err
          else
            store_netif n (fun i => i <| type := NETIF_TYPE_ETHER |>
              <| mtu := ETHERNET_MAX_FRAME - ETHERNET_HEADER_SIZE |>);;
            mret NET_ERR_OK
      end
  end.

Definition netif_virtio_close (netif : nat) : M net unit := mret ().

(** One packet of the loop of [netif_virtio_xmit]: the new [result], or the
    code the function returns with. *)
Definition virtio_xmit_one (b : nat) (result : Z) : M net (Z + Z) :=
  size ← pk (pktbuf_total (Some b));
  if (size <? 0) || (ETHERNET_MAX_FRAME <? size) then
    pk (pktbuf_free (Some b));; mret (inl NET_ERR_SIZE)
  else
    pk (pktbuf_reset_acc b);;
    read ← (if size =? 0 then mret (NET_ERR_OK, [])
            else pk (pktbuf_read (Some b) true size));
    if negb (read.1 =? NET_ERR_OK) then
      pk (pktbuf_free (Some b));; mret (inl NET_ERR_SIZE)
    else
      let frame := splice 0 read.2 (replicate (Z.to_nat ETHERNET_MAX_FRAME) 0) in
      let frame_size := if size <? ETHERNET_MIN_FRAME then ETHERNET_MIN_FRAME else size in
      r ← virtio_net_send (take (Z.to_nat frame_size) frame);
      pk (pktbuf_free (Some b));;
      if r <? 0 then mret (inr NET_ERR_IO) else mret (inl result).

Fixpoint virtio_xmit_loop (fuel : nat) (netif : nat) (result : Z) : M net Z :=
  buf ← get_out (Some netif);
  match buf, fuel with
  | None, _ => mret result
  | Some _, O => stuck
  | Some b, S fuel =>
      r ← virtio_xmit_one b result;
      match r with
      | inr e => mret e
      | inl result => virtio_xmit_loop fuel netif result
      end
  end.

Definition netif_virtio_xmit (netif : option nat) : M net Z :=
  match netif with
  | None => mret NET_ERR_PARAM
  | Some n => i ← load_netif n; virtio_xmit_loop (Z.to_nat (count (out_q i))) n NET_ERR_OK
  end.

Definition netif_virtio_poll (netif : option nat) : M net Z :=
  match netif with
  | None => mret NET_ERR_PARAM
  | Some n =>
      frame ← virtio_net_receive;
      match frame with
      | None => mret NET_ERR_TMO
      | Some frame =>
          let length := len frame in
          if (length <? ETHERNET_MIN_FRAME) || (ETHERNET_MAX_FRAME <? length) then mret NET_ERR_SIZE
          else
            buf ← pk (pktbuf_alloc length);
            match buf with
            | None => mret NET_ERR_MEM
            | Some b =>
                w ← pk (pktbuf_write (Some b) (Some frame) length);
                if negb (w =? NET_ERR_OK) then pk (pktbuf_free (Some b));; mret NET_ERR_SIZE
                else
                  err ← put_in (Some n) (Some b);
                  if err <? 0 then pk (pktbuf_free (Some b));; mret err
                  else mret NET_ERR_OK
            end
      end
  end.

Definition netif_virtio_ops : netif_ops_t :=
  NetifOps (Some VirtioDriver) (Some VirtioDriver) (Some VirtioDriver).

(** ** Calls through [netif_ops_t] *)

Definition call_open (d : driver) (n : nat) : M net Z :=
  match d with LoopDriver => loop_open n | VirtioDriver => netif_virtio_open (Some n) end.
Definition call_close (d : driver) (n : nat) : M net unit :=
  match d with LoopDriver => loop_close n | VirtioDriver => netif_virtio_close n end.
Definition call_xmit (d : driver) (n : nat) : M net Z :=
  match d with LoopDriver => loop_xmit n | VirtioDriver => netif_virtio_xmit (Some n) end.

Definition call_close_opt (o : option driver) (n : nat) : M net unit :=
  match o with Some d => call_close d n | None => mret () end.

(** ** Opening and closing *)

Definition zero_netif : netif_t :=
  Netif (replicate NETIF_NAME_SIZE 0) (HwAddr 0 (replicate (Z.to_nat NETIF_HWADDR_SIZE) 0))
    0 0 0 NETIF_CLOSED NETIF_TYPE_NONE 0 None None
    (Fixq 0 [] 0 0 0 None None) (Fixq 0 [] 0 0 0 None None).

Definition queue_mem (n : nat) : option (list (option nat)) := Some (replicate n None).

(** The failure path after [ops->open] was called. *)
Definition netif_open_undo (n : nat) (o : netif_ops_t) : M net (option nat) :=
  call_close_opt (op_close o) n;;
  fixq_destroy sys_lens (in_ref n);;
  fixq_destroy sys_lens (out_ref n);;
  zoom netif_mblock_lens (mblock_free (Some n));;
  mret None.

Definition netif_open (dev_name : option bytes) (o : option netif_ops_t) : M net (option nat) :=
  match dev_name, o with
  | Some dev_name, Some o =>
      match op_open o with
      | None => mret None
      | Some open =>
          n ← zoom netif_mblock_lens mblock_alloc;
          match n with
          | None => mret None
          | Some n =>
              store_netif n (fun _ => zero_netif <| name := netif_name_copy (Some dev_name) |>
                                        <| ops := Some o |>);;
              err ← fixq_init sys_lens (in_ref n) (queue_mem NETIF_INQ_SIZE) (Z.of_nat NETIF_INQ_SIZE);
              err ← (if negb (err =? NET_ERR_OK) then mret err
                     else fixq_init sys_lens (out_ref n) (queue_mem NETIF_OUTQ_SIZE)
                            (Z.of_nat NETIF_OUTQ_SIZE));
              if negb (err =? NET_ERR_OK) then
                fixq_destroy sys_lens (in_ref n);;
                zoom netif_mblock_lens (mblock_free (Some n));;
                mret None
              else
                err ← call_open open n;
                i ← load_netif n;
                if (err <? 0) || bool_decide (type i = NETIF_TYPE_NONE) then netif_open_undo n o
                else
                  layers ← gets link_layers;
                  layer ← deref (layers !! netif_type_index (type i));
                  store_netif n (fun i => i <| link_layer := layer |>);;
                  if bool_decide (type i <> NETIF_TYPE_LOOP) && bool_decide (layer = @None link_layer_t)
                  then netif_open_undo n o
                  else
                    store_netif n (fun i => i <| state := NETIF_OPENED |>);;
                    modify (fun s => s <| netif_list := netif_list s ++ [n] |>);;
                    mret (Some n)
          end
      end
  | _, _ => mret None
  end.

Definition netif_close (netif : option nat) : M net Z :=
  match netif with
  | None => mret NET_ERR_PARAM
  | Some n =>
      i ← load_netif n;
      if negb (bool_decide (state i = NETIF_OPENED)) then mret NET_ERR_STATE
      else
        match ops i with Some o => call_close_opt (op_close o) n | None => mret () end;;
        netif_drain_queue (in_ref n);;
        netif_drain_queue (out_ref n);;
        fixq_destroy sys_lens (in_ref n);;
        fixq_destroy sys_lens (out_ref n);;
        modify (fun s => s <| netif_list := remove_node n (netif_list s) |>);;
        d ← gets netif_default;
        when (bool_decide (d = Some n)) (modify (fun s => s <| netif_default := None |>));;
        store_netif n (fun i => i <| state := NETIF_CLOSED |>);;
        zoom netif_mblock_lens (mblock_free (Some n));;
        mret NET_ERR_OK
  end.
