(* ===== verification/Ether.v ===== *)
(** * Ethernet frames (net/ether.c)

    [ether_in], which calls the input handlers of ARP and IPv4, is in Input.v.
    An [ether_hdr_t] is read and written through the packet's first block: the
    offsets below are those of the packed struct. *)

From S2P Require Import Prelude Tools IpAddr Timer Mblock Pktbuf Sys Fixq Net Netif.

Definition ETHER_HANDLER_MAX : nat := 4.
Definition sizeof_ether_hdr_t : Z := 14.
Definition ether_dest : Z := 0.
Definition ether_src : Z := 6.
Definition ether_protocol : Z := 12.

(** The error path of the output functions: the packet is given back. *)
Definition free_return (b : nat) (err : Z) : M net Z := pk (pktbuf_free (Some b));; mret err.

Definition ether_link_open (netif : nat) : M net Z := mret NET_ERR_OK.

(** The link layer's functions are called through [ll_open], [ll_close],
    [ll_in] and [ll_out], in NetifLink.v and Input.v. *)
Definition ether_link_layer : link_layer_t :=
  LinkLayer NETIF_TYPE_ETHER (Some EtherLink) (Some EtherLink) (Some EtherLink) (Some EtherLink).

Fixpoint find_handler (protocol : Z) (l : list (Z * option ether_input)) : option ether_input :=
  match l with
  | [] => None
  | (p, Some h) :: l => if p =? protocol then Some h else find_handler protocol l
  | (_, None) :: l => find_handler protocol l
  end.

Definition ether_find_handler (protocol : Z) : M net (option ether_input) :=
  gets (fun s => find_handler protocol (ether_handlers s)).

Definition ether_is_broadcast (addr : bytes) : bool :=
  forallb (fun i => byte_at addr i =? 0xff) (seq 0 ETH_HWA_SIZE).

Definition ether_broadcast_addr : bytes := replicate ETH_HWA_SIZE 0xff.

(** The first slot without a handler gets the new one. *)
Fixpoint register_loop (protocol : Z) (handler : ether_input) (l : list (Z * option ether_input))
    : option (list (Z * option ether_input)) :=
  match l with
  | [] => None
  | (_, None) :: l => Some ((protocol, Some handler) :: l)
  | x :: l => l' ← register_loop protocol handler l; Some (x :: l')
  end.

Definition ether_register_handler (protocol : Z) (handler : option ether_input) : M net Z :=
  match handler with
  | None => mret NET_ERR_PARAM
  | Some h =>
      old ← ether_find_handler protocol;
      match old with
      | Some _ => mret NET_ERR_EXIST
      | None =>
          l ← gets ether_handlers;
          match register_loop protocol h l with
          | Some l => modify (fun s => s <| ether_handlers := l |>);; mret NET_ERR_OK
          | None => mret NET_ERR_FULL
          end
      end
  end.

(** The zero bytes that bring a short payload to [ETH_DATA_MIN]. *)
Definition ether_pad (b : nat) (payload_size : Z) : M net Z :=
  if payload_size <? ETH_DATA_MIN then
    err ← pk (pktbuf_resize (Some b) ETH_DATA_MIN);
    if err <? 0 then mret err
    else
      pk (pktbuf_reset_acc b);;
      err ← pk (pktbuf_seek (Some b) payload_size);
      if err <? 0 then mret err
      else pk (pktbuf_fill (Some b) 0 (ETH_DATA_MIN - payload_size))
  else mret NET_ERR_OK.

(** The finished frame goes to the interface itself or to the driver. *)
Definition ether_send (n : nat) (i : netif_t) (dest : bytes) (b : nat) : M net Z :=
  if bool_decide (take ETH_HWA_SIZE (hw_addr (hwaddr i)) = take ETH_HWA_SIZE dest) then
    err ← put_in (Some n) (Some b);
    when (err <? 0) (pk (pktbuf_free (Some b)));;
    mret err
  else
    match ops i ≫= op_xmit with
    | None => free_return b NET_ERR_NOT_SUPPORT
    | Some xmit =>
        err ← put_out (Some n) (Some b);
        if err <? 0 then free_return b err else call_xmit xmit n
    end.

Definition ether_raw_out (netif : option nat) (protocol : Z) (dest : option bytes)
    (buf : option nat) : M net Z :=
  match buf, netif, dest with
  | None, _, _ => mret NET_ERR_PARAM
  | Some b, Some n, Some dest =>
      i ← load_netif n;
      if negb (bool_decide (state i = NETIF_ACTIVE)) ||
         (hw_len (hwaddr i) <? Z.of_nat ETH_HWA_SIZE)
      then free_return b NET_ERR_STATE
      else
        payload_size ← pk (pktbuf_total (Some b));
        if (payload_size <? 0) || (ETH_MTU <? payload_size) then free_return b NET_ERR_SIZE
        else
          err ← ether_pad b payload_size;
          if err <? 0 then free_return b err
          else
            err ← pk (pktbuf_add_header (Some b) sizeof_ether_hdr_t true);
            if err <? 0 then free_return b err
            else
              header ← pk (pktbuf_data (Some b));
              match header with
              | None => free_return b NET_ERR_SIZE
              | Some h =>
                  hdr_store h ether_dest (take ETH_HWA_SIZE dest);;
                  hdr_store h ether_src (take ETH_HWA_SIZE (hw_addr (hwaddr i)));;
                  hdr_store h ether_protocol (le16 (x_htons protocol));;
                  ether_send n i dest b
              end
  | Some b, _, _ => free_return b NET_ERR_PARAM
  end.

Definition ether_init : M net Z :=
  modify (fun s => s <| ether_handlers := replicate ETHER_HANDLER_MAX (0, None) |>);;
  netif_register_layer (Z.of_nat (netif_type_index NETIF_TYPE_ETHER)) (Some ether_link_layer).
