(* ===== verification/Arp.v ===== *)
(** * The ARP cache and protocol (net/arp.c)

    A cache entry is named by its index in [cache_entries]; [cache_list] holds
    the entries in use, the most recently used one first, and [buf_list] the
    packets that wait for an entry to be resolved.  The link fields that the
    lists use are part of the entries and packets, so each of these is in at
    most one list.  The test hook under [QS_M6A_TEST] is left out. *)

From S2P Require Import Prelude Tools IpAddr Nlist Timer Mblock Pktbuf Sys Fixq Net Netif.
From S2P Require Import Ether.

Definition ARP_CACHE_SIZE : Z := 8.
Definition ARP_MAX_PKT_WAIT : Z := 8.
Definition ARP_ENTRY_STABLE_TMO : Z := 1200.
Definition ARP_ENTRY_PENDING_TMO : Z := 3.
Definition ARP_ENTRY_RETRY_CNT : Z := 5.
Definition ARP_TIMER_TMO : Z := 1.

Definition ARP_HW_ETHER : Z := 1.
Definition ARP_REQUEST : Z := 1.
Definition ARP_REPLY : Z := 2.

(** The offsets of [arp_pkt_t]. *)
Definition sizeof_arp_pkt_t : Z := 28.
Definition sizeof_arp_entry_t : Z := 72.
Definition arp_htype : Z := 0.
Definition arp_ptype : Z := 2.
Definition arp_hlen : Z := 4.
Definition arp_plen : Z := 5.
Definition arp_opcode : Z := 6.
Definition arp_send_haddr : Z := 8.
Definition arp_send_paddr : Z := 14.
Definition arp_target_haddr : Z := 18.
Definition arp_target_paddr : Z := 24.

(** The static timer and the address of its callback. *)
Definition cache_timer : nat := 0.
Definition arp_cache_tmo_proc : Z := 1.

Definition empty_hwaddr : bytes := replicate ETH_HWA_SIZE 0.

Definition load_entry (e : nat) : M net arp_entry_t := s ← get; deref (cache_entries s !! e).
Definition store_entry (e : nat) (f : arp_entry_t -> arp_entry_t) : M net unit :=
  x ← load_entry e; modify (fun s => s <| cache_entries := <[e := f x]> (cache_entries s) |>).
Definition set_cache_list (f : list nat -> list nat) : M net unit :=
  modify (fun s => s <| cache_list := f (cache_list s) |>).

Definition arp_scan_count (seconds : Z) : Z := 1 + Z.quot (seconds - 1) ARP_TIMER_TMO.

(** [nlist_remove_first(&entry->buf_list)] *)
Definition pop_waiting (e : nat) : M net (option nat) :=
  x ← load_entry e;
  match buf_list x with
  | [] => mret None
  | b :: l => store_entry e (fun x => x <| buf_list := l |>);; mret (Some b)
  end.

Fixpoint free_waiting_loop (fuel : nat) (e : nat) : M net unit :=
  b ← pop_waiting e;
  match b, fuel with
  | None, _ => mret ()
  | Some _, O => stuck
  | Some b, S fuel => pk (pktbuf_free (Some b));; free_waiting_loop fuel e
  end.

(** Each round takes one packet off the list. *)
Definition arp_free_waiting (e : nat) : M net unit :=
  x ← load_entry e; free_waiting_loop (length (buf_list x)) e.

Fixpoint find_entry_loop (netif : nat) (ipaddr : Z) (nodes : list nat) : M net (option nat) :=
  match nodes with
  | [] => mret None
  | e :: nodes =>
      x ← load_entry e;
      if bool_decide (arp_netif x = Some netif) && ipaddr_is_equal (Some (paddr x)) (Some ipaddr) then
        set_cache_list (remove_node e);;
        set_cache_list (cons e);;
        mret (Some e)
      else find_entry_loop netif ipaddr nodes
  end.

Definition arp_find_entry (netif : nat) (ipaddr : Z) : M net (option nat) :=
  l ← gets cache_list; find_entry_loop netif ipaddr l.

Definition zero_entry : arp_entry_t := ArpEntry 0 empty_hwaddr NET_ARP_FREE 0 0 None [].

Definition arp_alloc_entry (force : bool) : M net (option nat) :=
  entry ← zoom cache_blocks_lens mblock_alloc;
  entry ← (if bool_decide (entry = None) && force then
             l ← gets cache_list;
             match last l with
             | None => mret None
             | Some e => set_cache_list (fun l => removelast l);; arp_free_waiting e;; mret (Some e)
             end
           else mret entry);
  match entry with
  | None => mret None
  | Some e => store_entry e (fun _ => zero_entry);; mret (Some e)
  end.

Definition arp_free_entry (e : nat) : M net unit :=
  arp_free_waiting e;;
  x ← load_entry e;
  when (bool_decide (arp_state x <> NET_ARP_FREE)) (set_cache_list (remove_node e));;
  store_entry e (fun x => x <| arp_state := NET_ARP_FREE |>);;
  zoom cache_blocks_lens (mblock_free (Some e)).

Definition arp_set_entry (e netif : nat) (ipbuf mac : bytes) (st : arp_state_t) : M net unit :=
  store_entry e (fun x => x
    <| arp_netif := Some netif |> <| paddr := ipaddr_from_buf ipbuf |>
    <| haddr := take ETH_HWA_SIZE mac |> <| arp_state := st |>
    <| tmo := arp_scan_count (if bool_decide (st = NET_ARP_RESOLVED)
                              then ARP_ENTRY_STABLE_TMO else ARP_ENTRY_PENDING_TMO) |>
    <| retry := ARP_ENTRY_RETRY_CNT |>).

Definition arp_make_request (netif : option nat) (protocol_addr : option Z) : M net Z :=
  match netif, protocol_addr with
  | Some n, Some protocol_addr =>
      buf ← pk (pktbuf_alloc sizeof_arp_pkt_t);
      match buf with
      | None => mret NET_ERR_MEM
      | Some b =>
          pk (pktbuf_reset_acc b);;
          packet ← pk (pktbuf_data (Some b));
          match packet with
          | None => free_return b NET_ERR_MEM
          | Some h =>
              i ← load_netif n;
              hdr_store h arp_htype (le16 (x_htons ARP_HW_ETHER));;
              hdr_store h arp_ptype (le16 (x_htons NET_PROTOCOL_IPV4));;
              hdr_store h arp_hlen [Z.of_nat ETH_HWA_SIZE];;
              hdr_store h arp_plen [Z.of_nat IPV4_ADDR_SIZE];;
              hdr_store h arp_opcode (le16 (x_htons ARP_REQUEST));;
              hdr_store h arp_send_haddr (take ETH_HWA_SIZE (hw_addr (hwaddr i)));;
              hdr_store h arp_send_paddr (ipaddr_to_buf (ipaddr i));;
              hdr_store h arp_target_haddr empty_hwaddr;;
              hdr_store h arp_target_paddr (ipaddr_to_buf protocol_addr);;
              ether_raw_out (Some n) NET_PROTOCOL_ARP (Some ether_broadcast_addr) (Some b)
          end
      end
  | _, _ => mret NET_ERR_PARAM
  end.

Definition arp_make_gratuitous (netif : option nat) : M net Z :=
  match netif with
  | None => mret NET_ERR_PARAM
  | Some n => i ← load_netif n; arp_make_request (Some n) (Some (ipaddr i))
  end.

(** The scan of the cache; [nodes] are the entries from [node] on.  The body
    removes at most [node] itself from [cache_list]. *)
Fixpoint cache_tmo_loop (nodes : list nat) : M net unit :=
  match nodes with
  | [] => mret ()
  | e :: nodes =>
      store_entry e (fun x => x <| tmo := tmo x - 1 |>);;
      x ← load_entry e;
      (if 0 <? tmo x then mret ()
       else
         match arp_state x with
         | NET_ARP_RESOLVED =>
             store_entry e (fun x => x <| arp_state := NET_ARP_WAITING |>
               <| tmo := arp_scan_count ARP_ENTRY_PENDING_TMO |>
               <| retry := ARP_ENTRY_RETRY_CNT |>);;
             arp_make_request (arp_netif x) (Some (paddr x));;
             mret ()
         | NET_ARP_WAITING =>
             store_entry e (fun x => x <| retry := retry x - 1 |>);;
             if retry x - 1 <=? 0 then arp_free_entry e
             else
               store_entry e (fun x => x <| tmo := arp_scan_count ARP_ENTRY_PENDING_TMO |>);;
               arp_make_request (arp_netif x) (Some (paddr x));;
               mret ()
         | NET_ARP_FREE => mret ()
         end);;
      cache_tmo_loop nodes
  end.

Definition arp_cache_tmo : M net unit := l ← gets cache_list; cache_tmo_loop l.

Fixpoint send_waiting_loop (fuel : nat) (e : nat) : M net Z :=
  b ← pop_waiting e;
  match b, fuel with
  | None, _ => mret NET_ERR_OK
  | Some _, O => stuck
  | Some b, S fuel =>
      x ← load_entry e;
      err ← ether_raw_out (arp_netif x) NET_PROTOCOL_IPV4 (Some (haddr x)) (Some b);
      if err <? 0 then arp_free_waiting e;; mret err else send_waiting_loop fuel e
  end.

Definition arp_send_waiting (e : nat) : M net Z :=
  x ← load_entry e; send_waiting_loop (length (buf_list x)) e.

Definition arp_cache_insert (netif : nat) (ipbuf mac : bytes) (force : bool) : M net Z :=
  entry ← arp_find_entry netif (ipaddr_from_buf ipbuf);
  match entry with
  | None =>
      entry ← arp_alloc_entry force;
      match entry with
      | None => mret NET_ERR_MEM
      | Some e =>
          arp_set_entry e netif ipbuf mac NET_ARP_RESOLVED;;
          set_cache_list (cons e);;
          arp_send_waiting e
      end
  | Some e => arp_set_entry e netif ipbuf mac NET_ARP_RESOLVED;; arp_send_waiting e
  end.

Definition arp_packet_check (h : nat * Z) (size : Z) : M net Z :=
  if size <? sizeof_arp_pkt_t then mret NET_ERR_SIZE
  else
    htype ← hdr_load16 h arp_htype;
    hlen ← hdr_load8 h arp_hlen;
    plen ← hdr_load8 h arp_plen;
    ptype ← hdr_load16 h arp_ptype;
    if negb (x_ntohs htype =? ARP_HW_ETHER) || negb (hlen =? Z.of_nat ETH_HWA_SIZE) ||
       negb (plen =? Z.of_nat IPV4_ADDR_SIZE) || negb (x_ntohs ptype =? NET_PROTOCOL_IPV4)
    then mret NET_ERR_NOT_SUPPORT
    else
      op ← hdr_load16 h arp_opcode;
      let opcode := x_ntohs op in
      if negb (opcode =? ARP_REQUEST) && negb (opcode =? ARP_REPLY) then mret NET_ERR_NOT_SUPPORT
      else mret NET_ERR_OK.

Definition arp_init : M net Z :=
  done ← gets initialized;
  if done : bool then mret NET_ERR_EXIST
  else
    set_cache_list (fun _ => []);;
    err ← zoom cache_blocks_lens (mblock_init true sizeof_arp_entry_t ARP_CACHE_SIZE);
    if err <? 0 then mret err
    else
      (* "arp timer" *)
      err ← zoom timer_lens (net_timer_add (Some cache_timer)
              (Some [97; 114; 112; 32; 116; 105; 109; 101; 114])
              arp_cache_tmo_proc 0 (ARP_TIMER_TMO * 1000) NET_TIMER_RELOAD);
      if err <? 0 then mret err
      else
        err ← ether_register_handler NET_PROTOCOL_ARP (Some ArpIn);
        if err <? 0 then zoom timer_lens (net_timer_remove (Some cache_timer));; mret err
        else modify (fun s => s <| initialized := true |>);; mret NET_ERR_OK.

Definition arp_make_reply (netif buf : option nat) : M net Z :=
  match netif, buf with
  | Some n, Some b =>
      c ← pk (pktbuf_set_cont (Some b) sizeof_arp_pkt_t);
      if negb (c =? NET_ERR_OK) then mret NET_ERR_SIZE
      else
        packet ← pk (pktbuf_data (Some b));
        match packet with
        | None => mret NET_ERR_SIZE
        | Some h =>
            target_mac ← hdr_load h arp_send_haddr (Z.of_nat ETH_HWA_SIZE);
            target_ip ← hdr_load h arp_send_paddr (Z.of_nat IPV4_ADDR_SIZE);
            hdr_store h arp_opcode (le16 (x_htons ARP_REPLY));;
            hdr_store h arp_target_haddr target_mac;;
            hdr_store h arp_target_paddr target_ip;;
            i ← load_netif n;
            hdr_store h arp_send_haddr (take ETH_HWA_SIZE (hw_addr (hwaddr i)));;
            hdr_store h arp_send_paddr (ipaddr_to_buf (ipaddr i));;
            pk (pktbuf_inc_ref (Some b));;
            err ← ether_raw_out (Some n) NET_PROTOCOL_ARP (Some target_mac) (Some b);
            when (0 <=? err) (pk (pktbuf_free (Some b)));;
            mret err
        end
  | _, _ => mret NET_ERR_PARAM
  end.

Definition arp_in (netif buf : option nat) : M net Z :=
  match netif, buf with
  | Some n, Some b =>
      c ← pk (pktbuf_set_cont (Some b) sizeof_arp_pkt_t);
      if negb (c =? NET_ERR_OK) then mret NET_ERR_SIZE
      else
        packet ← pk (pktbuf_data (Some b));
        match packet with
        | None => mret NET_ERR_SIZE
        | Some h =>
            size ← pk (pktbuf_total (Some b));
            err ← arp_packet_check h size;
            if err <? 0 then mret err
            else
              op ← hdr_load16 h arp_opcode;
              let opcode := x_ntohs op in
              send_paddr ← hdr_load h arp_send_paddr (Z.of_nat IPV4_ADDR_SIZE);
              send_haddr ← hdr_load h arp_send_haddr (Z.of_nat ETH_HWA_SIZE);
              err ← arp_cache_insert n send_paddr send_haddr (opcode =? ARP_REQUEST);
              if err <? 0 then mret err
              else
                target_paddr ← hdr_load h arp_target_paddr (Z.of_nat IPV4_ADDR_SIZE);
                let target := ipaddr_from_buf target_paddr in
                i ← load_netif n;
                if (opcode =? ARP_REQUEST) && ipaddr_is_equal (Some target) (Some (ipaddr i)) then
                  arp_make_reply netif buf
                else pk (pktbuf_free (Some b));; mret NET_ERR_OK
        end
  | _, _ => mret NET_ERR_PARAM
  end.

(** What [arp_find] points to: the static broadcast address, or [haddr] of an
    entry. *)
Inductive hwaddr_ptr := BroadcastAddr | EntryAddr (e : nat).

Definition arp_find (netif : option nat) (ip : option Z) : M net (option hwaddr_ptr) :=
  match netif, ip with
  | Some n, Some a =>
      i ← load_netif n;
      if ipaddr_is_local_broadcast ip || ipaddr_is_direct_broadcast ip (Some (netmask i))
      then mret (Some BroadcastAddr)
      else
        entry ← arp_find_entry n a;
        match entry with
        | Some e =>
            x ← load_entry e;
            mret (if bool_decide (arp_state x = NET_ARP_RESOLVED) then Some (EntryAddr e) else None)
        | None => mret None
        end
  | _, _ => mret None
  end.

(** The end of [arp_resolve], without an entry for the address. *)
Definition arp_resolve_new (n : nat) (a : Z) (b : nat) : M net Z :=
  entry ← arp_alloc_entry true;
  match entry with
  | None => free_return b NET_ERR_MEM
  | Some e =>
      arp_set_entry e n (ipaddr_to_buf a) empty_hwaddr NET_ARP_WAITING;;
      set_cache_list (cons e);;
      store_entry e (fun x => x <| buf_list := buf_list x ++ [b] |>);;
      err ← arp_make_request (Some n) (Some a);
      if err <? 0 then arp_free_entry e;; mret err
      else mret NET_ERR_OK
  end.

(** Entries that were found: a resolved one is used, a pending one queues. *)
Definition arp_resolve_found (n e : nat) (b : nat) : M net Z :=
  x ← load_entry e;
  if bool_decide (arp_state x = NET_ARP_RESOLVED) then
    ether_raw_out (Some n) NET_PROTOCOL_IPV4 (Some (haddr x)) (Some b)
  else if ARP_MAX_PKT_WAIT <=? len (buf_list x) then free_return b NET_ERR_FULL
  else store_entry e (fun x => x <| buf_list := buf_list x ++ [b] |>);; mret NET_ERR_OK.

Definition arp_resolve (netif : option nat) (ip : option Z) (buf : option nat) : M net Z :=
  match buf, netif, ip with
  | None, _, _ => mret NET_ERR_PARAM
  | Some b, Some n, Some a =>
      broadcast ← arp_find netif ip;
      match broadcast with
      | Some BroadcastAddr =>
          ether_raw_out netif NET_PROTOCOL_IPV4 (Some ether_broadcast_addr) buf
      | _ =>
          entry ← arp_find_entry n a;
          match entry with
          | Some e => arp_resolve_found n e b
          | None => arp_resolve_new n a b
          end
      end
  | Some b, _, _ => free_return b NET_ERR_PARAM
  end.

Fixpoint clear_loop (netif : nat) (nodes : list nat) : M net unit :=
  match nodes with
  | [] => mret ()
  | e :: nodes =>
      x ← load_entry e;
      when (bool_decide (arp_netif x = Some netif)) (arp_free_entry e);;
      clear_loop netif nodes
  end.

Definition arp_clear (netif : option nat) : M net unit :=
  init ← gets initialized;
  match netif with
  | Some n => if init : bool then l ← gets cache_list; clear_loop n l else mret ()
  | None => mret ()
  end.
