(* ===== verification/NetifLink.v ===== *)
(** * The interface functions that call a link layer (net/netif.c, net/loop.c) *)

From S2P Require Import Prelude IpAddr Mblock Pktbuf Sys Fixq Net Netif Ether Arp.

Definition ether_link_close (netif : nat) : M net unit := arp_clear (Some netif).
Definition ether_link_out (netif : nat) (dest : option Z) (buf : nat) : M net Z :=
  arp_resolve (Some netif) dest (Some buf).

(** ** Calls through [link_layer_t] *)

Definition call_link_open (l : link) (n : nat) : M net Z :=
  match l with EtherLink => ether_link_open n end.
Definition call_link_close (l : link) (n : nat) : M net unit :=
  match l with EtherLink => ether_link_close n end.
Definition call_link_out (l : link) (n : nat) (dest : option Z) (b : nat) : M net Z :=
  match l with EtherLink => ether_link_out n dest b end.

(** ** netif.c *)

Definition netif_set_active (netif : option nat) : M net Z :=
  match netif with
  | None => mret NET_ERR_PARAM
  | Some n =>
      i ← load_netif n;
      if negb (bool_decide (state i = NETIF_OPENED)) then mret NET_ERR_STATE
      else
        err ← match link_layer i ≫= ll_open with
              | Some l => call_link_open l n
              | None => mret NET_ERR_OK
              end;
        if err <? 0 then mret err
        else store_netif n (fun i => i <| state := NETIF_ACTIVE |>);; mret NET_ERR_OK
  end.

Definition netif_set_deactive (netif : option nat) : M net Z :=
  match netif with
  | None => mret NET_ERR_PARAM
  | Some n =>
      i ← load_netif n;
      if negb (bool_decide (state i = NETIF_ACTIVE)) then mret NET_ERR_STATE
      else
        match link_layer i ≫= ll_close with
        | Some l => call_link_close l n
        | None => mret ()
        end;;
        netif_drain_queue (in_ref n);;
        netif_drain_queue (out_ref n);;
        store_netif n (fun i => i <| state := NETIF_OPENED |>);;
        mret NET_ERR_OK
  end.

Definition netif_out (netif : option nat) (dest : option Z) (buf : option nat) : M net Z :=
  match buf, netif with
  | None, _ => mret NET_ERR_PARAM
  | Some b, None => free_return b NET_ERR_PARAM
  | Some b, Some n =>
      i ← load_netif n;
      if negb (bool_decide (state i = NETIF_ACTIVE)) then free_return b NET_ERR_STATE
      else
        match link_layer i ≫= ll_out with
        | Some l => call_link_out l n dest b
        | None =>
            match ops i ≫= op_xmit with
            | None => free_return b NET_ERR_NOT_SUPPORT
            | Some xmit =>
                err ← put_out (Some n) (Some b);
                if err <? 0 then free_return b err else call_xmit xmit n
            end
        end
  end.

(** ** loop.c *)

(** "loop", "127.0.0.1" and "255.0.0.0" *)
Definition loop_name : bytes := [108; 111; 111; 112].
Definition loop_ip : bytes := [49; 50; 55; 46; 48; 46; 48; 46; 49].
Definition loop_mask : bytes := [50; 53; 53; 46; 48; 46; 48; 46; 48].

Definition loop_init : M net Z :=
  old ← gets loop_netif;
  match old with
  | Some _ => mret NET_ERR_EXIST
  | None =>
      netif ← netif_open (Some loop_name) (Some loop_ops);
      match netif with
      | None => mret NET_ERR_IO
      | Some n =>
          modify (fun s => s <| loop_netif := Some n |>);;
          let '(err, ip) := ipaddr_from_str (Some 0) (Some loop_ip) in
          let '(err, mask) := if 0 <=? err then ipaddr_from_str (Some 0) (Some loop_mask)
                              else (err, Some 0) in
          err ← (if 0 <=? err then netif_set_addr (Some n) ip mask None else mret err);
          err ← (if 0 <=? err then netif_set_active (Some n) else mret err);
          if err <? 0 then netif_close (Some n);; mret err
          else mret NET_ERR_OK
      end
  end.

Definition loop_get_netif : M net (option nat) := gets loop_netif.
