(* ===== verification/Ipv4.v ===== *)
(** * IPv4 output and the table of its handlers (net/ipv4.c)

    [ipv4_in], which calls the handlers, is in Input.v. *)

From S2P Require Import Prelude Tools IpAddr Mblock Pktbuf Net Netif Ether Arp NetifLink.

Definition NET_VERSION_IPV4 : Z := 4.
Definition NET_IP_DEF_TTL : Z := 64.
Definition IPV4_HEADER_MIN : Z := 20.
Definition IPV4_HEADER_MAX : Z := 60.
Definition IPV4_HANDLER_MAX : nat := 256.

(** The offsets of [ipv4_hdr_t]. *)
Definition ip_version_ihl : Z := 0.
Definition ip_dscp : Z := 1.
Definition ip_total_len : Z := 2.
Definition ip_id : Z := 4.
Definition ip_frag_off : Z := 6.
Definition ip_ttl : Z := 8.
Definition ip_protocol : Z := 9.
Definition ip_hdr_checksum : Z := 10.
Definition ip_src : Z := 12.
Definition ip_dest : Z := 16.

Definition ipv4_find_handler (protocol : Z) : M net (option ipv4_input) :=
  l ← gets ipv4_handlers; deref (l !! Z.to_nat protocol).

Definition ipv4_register_handler (protocol : Z) (handler : option ipv4_input) : M net Z :=
  match handler with
  | None => mret NET_ERR_PARAM
  | Some h =>
      old ← ipv4_find_handler protocol;
      match old with
      | Some _ => mret NET_ERR_EXIST
      | None =>
          modify (fun s => s <| ipv4_handlers := <[Z.to_nat protocol := Some h]> (ipv4_handlers s) |>);;
          mret NET_ERR_OK
      end
  end.

Definition ipv4_init : M net Z :=
  modify (fun s => s <| ipv4_handlers := replicate IPV4_HANDLER_MAX None |>
                     <| next_packet_id := 0 |>);;
  ether_register_handler NET_PROTOCOL_IPV4 (Some Ipv4In).

(** The stores to the header in [ipv4_out]. *)
Definition ipv4_fill_header (h : nat * Z) (src dest protocol payload_size : Z) : M net unit :=
  hdr_store h ip_version_ihl [u8 (Z.lor (Z.shiftl NET_VERSION_IPV4 4) 5)];;
  hdr_store h ip_dscp [0];;
  hdr_store h ip_total_len (le16 (x_htons (u16 (payload_size + IPV4_HEADER_MIN))));;
  id ← gets next_packet_id;
  modify (fun s => s <| next_packet_id := u16 (next_packet_id s + 1) |>);;
  hdr_store h ip_id (le16 (x_htons id));;
  hdr_store h ip_frag_off (le16 (x_htons 0x4000));;
  hdr_store h ip_ttl [NET_IP_DEF_TTL];;
  hdr_store h ip_protocol [protocol];;
  hdr_store h ip_hdr_checksum (le16 0);;
  hdr_store h ip_src (ipaddr_to_buf src);;
  hdr_store h ip_dest (ipaddr_to_buf dest);;
  hdr ← hdr_load h 0 IPV4_HEADER_MIN;
  hdr_store h ip_hdr_checksum (le16 (x_htons (checksum16 0 hdr 0 true))).

Definition ipv4_out (netif : option nat) (dest : option Z) (protocol : Z) (buf : option nat)
    : M net Z :=
  match buf, netif, dest with
  | None, _, _ => mret NET_ERR_PARAM
  | Some b, Some n, Some dest =>
      i ← load_netif n;
      if negb (bool_decide (state i = NETIF_ACTIVE)) then free_return b NET_ERR_STATE
      else
        payload_size ← pk (pktbuf_total (Some b));
        if (payload_size <=? 0) || (mtu i - IPV4_HEADER_MIN <? payload_size)
        then free_return b NET_ERR_SIZE
        else
          err ← pk (pktbuf_add_header (Some b) IPV4_HEADER_MIN true);
          if err <? 0 then free_return b err
          else
            header ← pk (pktbuf_data (Some b));
            match header with
            | None => free_return b NET_ERR_SIZE
            | Some h =>
                ipv4_fill_header h (ipaddr i) dest protocol payload_size;;
                netif_out (Some n) (Some dest) (Some b)
            end
  | Some b, _, _ => free_return b NET_ERR_PARAM
  end.
