(* ===== verification/Icmp.v ===== *)
(** * ICMP echo (net/icmpv4.c) *)

From S2P Require Import Prelude Tools IpAddr Mblock Pktbuf Net Netif Ether Arp NetifLink Ipv4.

Definition ICMPV4_ECHO_REPLY : Z := 0.
Definition ICMPV4_ECHO_REQUEST : Z := 8.
Definition ICMPV4_ECHO_CODE : Z := 0.

(** The offsets of [icmpv4_hdr_t]. *)
Definition sizeof_icmpv4_hdr_t : Z := 8.
Definition icmp_type : Z := 0.
Definition icmp_code : Z := 1.
Definition icmp_checksum : Z := 2.
Definition icmp_identifier : Z := 4.
Definition icmp_sequence : Z := 6.

(** [x_htons(pktbuf_checksum16(buf, pktbuf_total(buf), 0, 1))] *)
Definition icmp_sum (b : nat) : M net Z :=
  size ← pk (pktbuf_total (Some b)); pk (pktbuf_checksum16 (Some b) size 0 true).

Definition icmpv4_echo_reply (netif : nat) (src : Z) (b : nat) : M net Z :=
  c ← pk (pktbuf_set_cont (Some b) sizeof_icmpv4_hdr_t);
  if negb (c =? NET_ERR_OK) then mret NET_ERR_SIZE
  else
    header ← pk (pktbuf_data (Some b));
    match header with
    | None => mret NET_ERR_SIZE
    | Some h =>
        hdr_store h icmp_type [ICMPV4_ECHO_REPLY];;
        hdr_store h icmp_code [ICMPV4_ECHO_CODE];;
        hdr_store h icmp_checksum (le16 0);;
        pk (pktbuf_reset_acc b);;
        sum ← icmp_sum b;
        hdr_store h icmp_checksum (le16 (x_htons sum));;
        pk (pktbuf_inc_ref (Some b));;
        err ← ipv4_out (Some netif) (Some src) NET_PROTOCOL_ICMPV4 (Some b);
        when (0 <=? err) (pk (pktbuf_free (Some b)));;
        mret err
    end.

Definition set_stats (f : icmpv4_stats_t -> icmpv4_stats_t) : M net unit :=
  modify (fun s => s <| icmpv4_stats := f (icmpv4_stats s) |>).

Definition icmpv4_init : M net Z :=
  set_stats (fun _ => IcmpStats 0 0 0 0);;
  ipv4_register_handler NET_PROTOCOL_ICMPV4 (Some Icmpv4In).

Definition icmpv4_get_stats : M net icmpv4_stats_t := gets icmpv4_stats.

Definition icmpv4_in (netif : option nat) (src dest : option Z) (buf : option nat) : M net Z :=
  match netif, src, buf with
  | Some n, Some src, Some b =>
      size ← pk (pktbuf_total (Some b));
      if size <? sizeof_icmpv4_hdr_t then mret NET_ERR_SIZE
      else
        c ← pk (pktbuf_set_cont (Some b) sizeof_icmpv4_hdr_t);
        if negb (c =? NET_ERR_OK) then mret NET_ERR_SIZE
        else
          pk (pktbuf_reset_acc b);;
          sum ← icmp_sum b;
          if negb (sum =? 0) then mret NET_ERR_CHKSUM
          else
            header ← pk (pktbuf_data (Some b));
            match header with
            | None => mret NET_ERR_SIZE
            | Some h =>
                code ← hdr_load8 h icmp_code;
                ty ← hdr_load8 h icmp_type;
                if negb (code =? ICMPV4_ECHO_CODE) then mret NET_ERR_NOT_SUPPORT
                else if ty =? ICMPV4_ECHO_REPLY then
                  identifier ← hdr_load16 h icmp_identifier;
                  sequence ← hdr_load16 h icmp_sequence;
                  set_stats (fun st => st <| echo_replies := u32 (echo_replies st + 1) |>
                    <| last_reply_identifier := x_ntohs identifier |>
                    <| last_reply_sequence := x_ntohs sequence |>);;
                  pk (pktbuf_free (Some b));;
                  mret NET_ERR_OK
                else if negb (ty =? ICMPV4_ECHO_REQUEST) then mret NET_ERR_NOT_SUPPORT
                else
                  set_stats (fun st => st <| echo_requests := u32 (echo_requests st + 1) |>);;
                  icmpv4_echo_reply n src b
            end
  | _, _, _ => mret NET_ERR_PARAM
  end.

Definition icmpv4_out_echo (netif : option nat) (dest : option Z) (identifier sequence : Z)
    (payload : option bytes) (payload_len : Z) : M net Z :=
  match netif, dest with
  | Some n, Some dest =>
      if (payload_len <? 0) || (negb (payload_len =? 0) && bool_decide (payload = None))
      then mret NET_ERR_PARAM
      else
        i ← load_netif n;
        if mtu i - IPV4_HEADER_MIN - sizeof_icmpv4_hdr_t <? payload_len then mret NET_ERR_SIZE
        else
          buf ← pk (pktbuf_alloc (sizeof_icmpv4_hdr_t + payload_len));
          match buf with
          | None => mret NET_ERR_MEM
          | Some b =>
              header ← pk (pktbuf_data (Some b));
              h ← deref header;
              hdr_store h icmp_type [ICMPV4_ECHO_REQUEST];;
              hdr_store h icmp_code [ICMPV4_ECHO_CODE];;
              hdr_store h icmp_checksum (le16 0);;
              hdr_store h icmp_identifier (le16 (x_htons identifier));;
              hdr_store h icmp_sequence (le16 (x_htons sequence));;
              ok ← (if negb (payload_len =? 0) then
                      pk (pktbuf_reset_acc b);;
                      e ← pk (pktbuf_seek (Some b) sizeof_icmpv4_hdr_t);
                      if negb (e =? NET_ERR_OK) then mret false
                      else
                        e ← pk (pktbuf_write (Some b) payload payload_len);
                        mret (e =? NET_ERR_OK)
                    else mret true);
              if negb ok then free_return b NET_ERR_SIZE
              else
                pk (pktbuf_reset_acc b);;
                header ← pk (pktbuf_data (Some b));
                h ← deref header;
                sum ← icmp_sum b;
                hdr_store h icmp_checksum (le16 (x_htons sum));;
                ipv4_out netif (Some dest) NET_PROTOCOL_ICMPV4 (Some b)
          end
  | _, _ => mret NET_ERR_PARAM
  end.
