(* ===== verification/Udp.v ===== *)
(** * UDP (net/udp.c)

    A [udp_pcb_t] belongs to the caller; the model names it by its index in
    [udp_pcbs], and [pcbs] is the static table of pointers to the open ones.
    [recv_records] is the static array of received packets, one row for each
    slot of [pcbs].  The functions that may wait take the parameters of the
    semaphore functions.  [state_locker] delimits atomic sections and the hooks
    under [UDP_TEST] are left out. *)

From S2P Require Import Prelude Tools IpAddr Mblock Pktbuf Sys Fixq Net Netif Ether Arp.
From S2P Require Import NetifLink Ipv4.

Definition UDP_HEADER_SIZE : Z := 8.

(** The offsets of [udp_hdr_t]. *)
Definition udp_src_port : Z := 0.
Definition udp_dest_port : Z := 2.
Definition udp_total_len : Z := 4.
Definition udp_hdr_checksum : Z := 6.

Definition load_pcb (p : nat) : M net udp_pcb_t := s ← get; deref (udp_pcbs s !! p).
Definition store_pcb (p : nat) (f : udp_pcb_t -> udp_pcb_t) : M net unit :=
  x ← load_pcb p; modify (fun s => s <| udp_pcbs := <[p := f x]> (udp_pcbs s) |>).

Definition recv_ref (p : nat) : qref net udp_item :=
  QRef (fun s => recv_queue <$> udp_pcbs s !! p)
       (fun q s => s <| udp_pcbs := alter (fun x => x <| recv_queue := q |>) p (udp_pcbs s) |>).

Definition load_record (i j : nat) : M net udp_recv_t :=
  s ← get; deref (row ← recv_records s !! i; row !! j).
Definition store_record (i j : nat) (f : udp_recv_t -> udp_recv_t) : M net unit :=
  r ← load_record i j;
  modify (fun s => s <| recv_records := alter (alter (fun _ => f r) j) i (recv_records s) |>).

(** The 12 bytes of [udp_pseudo_t]. *)
Definition udp_pseudo (src dest length : Z) : bytes :=
  ipaddr_to_buf src ++ ipaddr_to_buf dest ++ [0; NET_PROTOCOL_UDP] ++ le16 (x_htons length).

Definition udp_checksum (b : nat) (src dest length : Z) : M net Z :=
  let sum := checksum16 0 (udp_pseudo src dest length) 0 false in
  pk (pktbuf_reset_acc b);;
  pk (pktbuf_checksum16 (Some b) length sum true).

Definition udp_init : M net Z :=
  modify (fun s => s <| pcbs := replicate UDP_PCB_MAX None |>);;
  ipv4_register_handler NET_PROTOCOL_UDP (Some UdpIn).

Fixpoint find_slot_loop (pcb : option nat) (i : Z) (l : list (option nat)) : Z :=
  match l with
  | [] => -1
  | x :: l => if bool_decide (x = pcb) then i else find_slot_loop pcb (i + 1) l
  end.

Definition udp_find_slot (pcb : option nat) : M net Z :=
  gets (fun s => find_slot_loop pcb 0 (pcbs s)).

(** The body of the loop of [udp_open] at the free slot [i]. *)
Definition udp_open_slot (p : nat) (i : Z) : M net Z :=
  store_pcb p (fun x => x <| local_port := 0 |> <| pcb_open := true |>);;
  err ← fixq_init sys_lens (recv_ref p) (Some (replicate UDP_RECV_MAX None)) (Z.of_nat UDP_RECV_MAX);
  if err <? 0 then mret err
  else
    sem ← zoom sys_lens (sys_sem_create 0);
    store_pcb p (fun x => x <| close_done := sem |>);;
    match sem with
    | None => fixq_destroy sys_lens (recv_ref p);; mret NET_ERR_MEM
    | Some _ =>
        store_pcb p (fun x => x <| recv_waiting := false |>);;
        modify (fun s => s <| pcbs := <[Z.to_nat i := Some p]> (pcbs s) |>);;
        mret NET_ERR_OK
    end.

Definition udp_open (pcb : option nat) : M net Z :=
  match pcb with
  | None => mret NET_ERR_PARAM
  | Some p =>
      slot ← udp_find_slot pcb;
      if 0 <=? slot then mret NET_ERR_PARAM
      else
        i ← udp_find_slot None;
        if i <? 0 then mret NET_ERR_MEM else udp_open_slot p i
  end.

Fixpoint port_taken (p : nat) (port : Z) (l : list (option nat)) : M net bool :=
  match l with
  | [] => mret false
  | None :: l => port_taken p port l
  | Some q :: l =>
      if (q =? p)%nat then port_taken p port l
      else
        x ← load_pcb q;
        if pcb_open x && (local_port x =? port) then mret true else port_taken p port l
  end.

Definition udp_bind (pcb : option nat) (port : Z) : M net Z :=
  match pcb with
  | None => mret NET_ERR_PARAM
  | Some p =>
      x ← load_pcb p;
      slot ← udp_find_slot pcb;
      if negb (pcb_open x) || (slot <? 0) || (port =? 0) then mret NET_ERR_PARAM
      else
        l ← gets pcbs;
        taken ← port_taken p port l;
        if taken : bool then mret NET_ERR_EXIST
        else store_pcb p (fun x => x <| local_port := port |>);; mret NET_ERR_OK
  end.

(** [pktbuf_free(record->buf); record->buf = 0;] *)
Definition release_record (i j : nat) : M net unit :=
  r ← load_record i j;
  pk (pktbuf_free (rec_buf r));;
  store_record i j (fun r => r <| rec_buf := None |>).

(** [item != pcb] for an item that is not null. *)
Definition release_item (p : nat) (item : udp_item) : M net unit :=
  match item with
  | UdpMark q => if (q =? p)%nat then mret () else stuck
  | UdpRecord i j => release_record i j
  end.

Fixpoint close_drain (fuel : nat) (p : nat) : M net unit :=
  item ← fixq_recv sys_lens (recv_ref p) no_sleep 0 0 (-1);
  match item, fuel with
  | None, _ => mret ()
  | Some _, O => stuck
  | Some item, S fuel => release_item p item;; close_drain fuel p
  end.

Definition udp_sendto (pcb netif : option nat) (dest : option Z) (dest_port : Z)
    (data : option bytes) (size : Z) : M net Z :=
  match pcb with
  | None => mret NET_ERR_PARAM
  | Some p =>
      x ← load_pcb p;
      match netif, dest with
      | Some n, Some dest =>
          if negb (pcb_open x) || (dest_port =? 0) || (size <? 0) ||
             (negb (size =? 0) && bool_decide (data = None))
          then mret NET_ERR_PARAM
          else
            buf ← pk (pktbuf_alloc (UDP_HEADER_SIZE + size));
            match buf with
            | None => mret NET_ERR_MEM
            | Some b =>
                header ← pk (pktbuf_data (Some b));
                h ← deref header;
                hdr_store h udp_src_port (le16 (x_htons (local_port x)));;
                hdr_store h udp_dest_port (le16 (x_htons dest_port));;
                hdr_store h udp_total_len (le16 (x_htons (u16 (UDP_HEADER_SIZE + size))));;
                hdr_store h udp_hdr_checksum (le16 0);;
                ok ← (if 0 <? size then
                        pk (pktbuf_reset_acc b);;
                        e ← pk (pktbuf_seek (Some b) UDP_HEADER_SIZE);
                        if e <? 0 then mret false
                        else
                          e ← pk (pktbuf_write (Some b) data size);
                          mret (0 <=? e)
                      else mret true);
                if negb ok then free_return b NET_ERR_SIZE
                else
                  header ← pk (pktbuf_data (Some b));
                  i ← load_netif n;
                  checksum ← udp_checksum b (ipaddr i) dest (u16 (UDP_HEADER_SIZE + size));
                  h ← deref header;
                  hdr_store h udp_hdr_checksum
                    (le16 (x_htons (if checksum =? 0 then 0xffff else checksum)));;
                  ipv4_out netif (Some dest) NET_PROTOCOL_UDP (Some b)
            end
      | _, _ => mret NET_ERR_PARAM
      end
  end.

Definition udp_header_check (header : option (nat * Z)) (size : Z) : M net Z :=
  match header with
  | None => mret NET_ERR_SIZE
  | Some h =>
      if size <? UDP_HEADER_SIZE then mret NET_ERR_SIZE
      else
        total ← hdr_load16 h udp_total_len;
        if (x_ntohs total <? UDP_HEADER_SIZE) || (size <? x_ntohs total) then mret NET_ERR_SIZE
        else mret NET_ERR_OK
  end.

(** The first record of a row whose [buf] is null. *)
Fixpoint free_record (j : nat) (row : list udp_recv_t) : option nat :=
  match row with
  | [] => None
  | r :: row => match rec_buf r with None => Some j | Some _ => free_record (S j) row end
  end.

(** The packet [b] is stored for the control block [p] in slot [i]. *)
Definition udp_deliver (i p : nat) (src : Z) (h : nat * Z) (b : nat) : M net Z :=
  s ← get;
  row ← deref (recv_records s !! i);
  match free_record 0 row with
  | None => mret NET_ERR_FULL
  | Some j =>
      store_record i j (fun r => r <| rec_buf := Some b |> <| rec_src := src |>);;
      port ← hdr_load16 h udp_src_port;
      store_record i j (fun r => r <| rec_port := x_ntohs port |>);;
      err ← fixq_send sys_lens (recv_ref p) no_sleep 0 0 (Some (UdpRecord i j)) (-1);
      if err <? 0 then
        store_record i j (fun r => r <| rec_buf := None |>);; mret NET_ERR_FULL
      else mret NET_ERR_OK
  end.

Fixpoint udp_in_loop (i : nat) (l : list (option nat)) (src port : Z) (h : nat * Z) (b : nat)
    : M net Z :=
  match l with
  | [] => mret NET_ERR_UNREACH
  | None :: l => udp_in_loop (S i) l src port h b
  | Some p :: l =>
      x ← load_pcb p;
      if negb (pcb_open x) || negb (local_port x =? port) then udp_in_loop (S i) l src port h b
      else udp_deliver i p src h b
  end.

Definition udp_in (netif : option nat) (src dest : option Z) (buf : option nat) : M net Z :=
  match src, buf with
  | Some src, Some b =>
      c ← pk (pktbuf_set_cont (Some b) UDP_HEADER_SIZE);
      if c <? 0 then mret NET_ERR_SIZE
      else
        header ← pk (pktbuf_data (Some b));
        size ← pk (pktbuf_total (Some b));
        err ← udp_header_check header size;
        if err <? 0 then mret err
        else
          h ← deref header;
          total ← hdr_load16 h udp_total_len;
          let length := x_ntohs total in
          checksum ← hdr_load16 h udp_hdr_checksum;
          bad ← (if negb (checksum =? 0) then
                   d ← deref dest;
                   sum ← udp_checksum b src d length;
                   mret (negb (sum =? 0))
                 else mret false);
          if bad : bool then mret NET_ERR_CHKSUM
          else
            err ← pk (pktbuf_resize (Some b) length);
            if err <? 0 then mret NET_ERR_SIZE
            else
              dest_port ← hdr_load16 h udp_dest_port;
              l ← gets pcbs;
              udp_in_loop 0 l src (x_ntohs dest_port) h b
  | _, _ => mret NET_ERR_SIZE
  end.

Definition udp_recv_acquire (pcb : option nat) : M net Z :=
  match pcb with
  | None => mret NET_ERR_PARAM
  | Some p =>
      x ← load_pcb p;
      if negb (pcb_open x) || recv_waiting x then mret NET_ERR_STATE
      else store_pcb p (fun x => x <| recv_waiting := true |>);; mret NET_ERR_OK
  end.

(** A received datagram as the caller sees it: what is stored through [data],
    [src] and [src_port]. *)
Record received := Received { rcv_data : bytes; rcv_src : option Z; rcv_port : option Z }.
Definition nothing : received := Received [] None None.

(** The end of [udp_recvfrom_acquired] with a record. *)
Definition udp_take_record (i j : nat) (size : Z) : M net (Z * received) :=
  r ← load_record i j;
  e ← pk (pktbuf_remove_header (rec_buf r) UDP_HEADER_SIZE);
  if e <? 0 then release_record i j;; mret (NET_ERR_SIZE, nothing)
  else
    total ← pk (pktbuf_total (rec_buf r));
    let copied := if size <? total then size else total in
    b ← deref (rec_buf r);
    pk (pktbuf_reset_acc b);;
    read ← pk (pktbuf_read (rec_buf r) true copied);
    let copied := if read.1 <? 0 then NET_ERR_SIZE else copied in
    release_record i j;;
    mret (copied, Received read.2 (Some (rec_src r)) (Some (rec_port r))).

Section waiting.
Context (task_sleep : nat -> Z -> M net Z) (fuel : nat) (mtime : Z).

Definition udp_recvfrom_acquired (pcb : option nat) (data : bool) (size timeout_ms : Z)
    : M net (Z * received) :=
  match pcb with
  | None => mret (NET_ERR_PARAM, nothing)
  | Some p =>
      if negb data || (size <? 0) then mret (NET_ERR_PARAM, nothing)
      else
        item ← fixq_recv sys_lens (recv_ref p) task_sleep fuel mtime timeout_ms;
        store_pcb p (fun x => x <| recv_waiting := false |>);;
        x ← load_pcb p;
        if negb (pcb_open x) then
          match item with Some item => release_item p item | None => mret () end;;
          zoom sys_lens (sys_sem_notify (close_done x));;
          mret (NET_ERR_STATE, nothing)
        else
          match item with
          | None => mret (if timeout_ms <? 0 then NET_ERR_NONE else NET_ERR_TMO, nothing)
          | Some (UdpRecord i j) => udp_take_record i j size
          | Some (UdpMark _) => stuck
          end
  end.

Definition udp_recvfrom (pcb : option nat) (data : bool) (size timeout_ms : Z)
    : M net (Z * received) :=
  if bool_decide (pcb = None) || negb data || (size <? 0) then mret (NET_ERR_PARAM, nothing)
  else
    e ← udp_recv_acquire pcb;
    if e <? 0 then mret (NET_ERR_STATE, nothing)
    else udp_recvfrom_acquired pcb data size timeout_ms.

Definition udp_close (pcb : option nat) : M net Z :=
  slot ← udp_find_slot pcb;
  match pcb with
  | None => mret NET_ERR_PARAM
  | Some p =>
      if slot <? 0 then mret NET_ERR_PARAM
      else
        x ← load_pcb p;
        if negb (pcb_open x) then mret NET_ERR_PARAM
        else
          store_pcb p (fun x => x <| pcb_open := false |>);;
          when (recv_waiting x)
            (fixq_wake_receiver sys_lens (recv_ref p);;
             sys_sem_wait sys_lens task_sleep fuel mtime (close_done x) 0;;
             mret ());;
          q ← load_q (recv_ref p);
          close_drain (Z.to_nat (count q)) p;;
          fixq_destroy sys_lens (recv_ref p);;
          zoom sys_lens (sys_sem_free (close_done x));;
          store_pcb p (fun x => x <| local_port := 0 |>);;
          modify (fun s => s <| pcbs := <[Z.to_nat slot := None]> (pcbs s) |>);;
          mret NET_ERR_OK
  end.

End waiting.

(** The slot that a search of the table finds. *)
Lemma find_slot_spec c i l :
  match find_slot_loop c i l with
  | k => if k <? 0 then 0 <= i -> c ∉ l else 0 <= i -> exists j, k = i + Z.of_nat j /\ l !! j = Some c
  end.
Proof.
  revert i. induction l as [|x l IH]; intros i; cbn [find_slot_loop].
  { intros _. set_solver. }
  case_bool_decide as Hx.
  - destruct (Z.ltb_spec i 0); [lia|]. intros _. exists 0%nat. split; [lia|]. cbn. by rewrite Hx.
  - specialize (IH (i + 1)). destruct (Z.ltb_spec (find_slot_loop c (i + 1) l) 0).
    + intros Hi. apply not_elem_of_cons. split; [congruence|]. apply IH. lia.
    + intros Hi. destruct IH as (j & Hj & Hl); [lia|]. exists (S j). split; [lia|done].
Qed.
