(* ===== verification/Tcp.v ===== *)
(** * TCP (net/tcp.c): segments, connections and their release

    The locks are left out: a call is atomic, and the functions that may block
    hand the state to the other tasks in [sys_sem_wait].  Timers call back
    [tcp_timer_proc], [tcp_time_wait_proc] and [tcp_release_proc].  The marks
    under [QS_M6C1_TEST] and [QS_M6C2_TEST] are left out. *)

From S2P Require Import Prelude Tools IpAddr Timer Mblock Pktbuf Sys Fixq TcpState Net Netif Ether.
From S2P Require Import Arp NetifLink Ipv4 Udp.
Import Pcb.

(** The offsets of [tcp_hdr_t]. *)
Definition th_src_port : Z := 0.
Definition th_dest_port : Z := 2.
Definition th_seq : Z := 4.
Definition th_ack : Z := 8.
Definition th_data_offset : Z := 12.
Definition th_flags : Z := 13.
Definition th_window : Z := 14.
Definition th_checksum : Z := 16.

Definition load_tcp (p : nat) : M net tcp_pcb_t := s ← get; deref (pcb_storage (tcp s) !! p).
Definition store_tcp (p : nat) (f : tcp_pcb_t -> tcp_pcb_t) : M net unit :=
  x ← load_tcp p;
  modify (fun s => s <| tcp := (tcp s) <| pcb_storage := <[p := f x]> (pcb_storage (tcp s)) |> |>).
Definition set_tcp (f : tcp_vars -> tcp_vars) : M net unit := modify (fun s => s <| tcp := f (tcp s) |>).

Definition notify (sem : sys_sem_t) : M net unit := zoom sys_lens (sys_sem_notify sem).
(** [for (int i = 0; i < n; i++) sys_sem_notify(sem)] *)
Fixpoint notify_times (n : nat) (sem : sys_sem_t) : M net unit :=
  match n with O => mret () | S n => notify sem;; notify_times n sem end.
Definition notify_all (n : Z) (sem : sys_sem_t) : M net unit := notify_times (Z.to_nat n) sem.
(** [for (int i = 0; i < (n != 0 ? n : 1); i++)] *)
Definition notify_some (n : Z) (sem : sys_sem_t) : M net unit := notify_all (if n =? 0 then 1 else n) sem.

Definition timer_remove (t : nat) : M net unit := zoom timer_lens (net_timer_remove (Some t)).
(** A timer whose memory is set to zero; one that is in a list would break it. *)
Definition blank_timer : net_timer_t := Timer (replicate (Z.to_nat TIMER_NAME_SIZE) 0) 0 0 0 0 0.
Definition timer_clear (t : nat) : M timer_state unit :=
  scheduled ← timer_is_scheduled t;
  if (scheduled : bool) then stuck
  else modify (fun s => s <| Timer.timers := <[t := blank_timer]> (Timer.timers s) |>).
Definition zero_timer (t : nat) : M net unit := zoom timer_lens (timer_clear t).

(** ** Tables *)

(** [i] and [d] are the rest of [pcbs] and [detached_listeners]. *)
Fixpoint has_children_loop (listener_ : nat) (l d : list (option nat)) : M net bool :=
  match l, d with
  | c :: l, x :: d =>
      mine ← match c with
             | Some p => x ← load_tcp p; mret (bool_decide (listener x = Some listener_))
             | None => mret false
             end;
      if mine || bool_decide (x = Some listener_) then mret true else has_children_loop listener_ l d
  | _, _ => mret false
  end.

Definition tcp_listener_has_children_locked (listener : nat) : M net bool :=
  t ← gets tcp; has_children_loop listener (tcp_pcbs t) (detached_listeners t).

Definition tcp_find_slot (pcb : nat) : M net Z :=
  t ← gets tcp; mret (find_slot_loop (Some pcb) 0 (tcp_pcbs t)).

(** ** Segments *)

Definition tcp_pseudo (src dest length : Z) : bytes :=
  ipaddr_to_buf src ++ ipaddr_to_buf dest ++ [0; NET_PROTOCOL_TCP] ++ le16 (x_htons length).

Definition tcp_checksum (b : nat) (src dest length : Z) : M net Z :=
  let sum := checksum16 0 (tcp_pseudo src dest length) 0 false in
  pk (pktbuf_reset_acc b);; pk (pktbuf_checksum16 (Some b) length sum true).

Definition tcp_header_check (header : option (nat * Z)) (size : Z) : M net Z :=
  match header with
  | None => mret NET_ERR_SIZE
  | Some h =>
      if size <? TCP_HEADER_SIZE then mret NET_ERR_SIZE
      else
        off ← hdr_load8 h th_data_offset;
        let header_size := Z.shiftr off 4 * 4 in
        if (header_size <? TCP_HEADER_SIZE) || (size <? header_size) then mret NET_ERR_SIZE
        else if negb (Z.land off 0x0f =? 0) then mret NET_ERR_FORMAT
        else mret NET_ERR_OK
  end.

Definition tcp_sequence_in_window (sequence start window : Z) : bool :=
  negb (window =? 0) && (u32 (sequence - start) <? window).

Definition tcp_state_accept_ack (state : tcp_state_t) (ack expected_ack : Z) : Z :=
  if negb (bool_decide (state = TCP_STATE_SYN_SENT)) || negb (ack =? u32 (expected_ack + 1))
  then NET_ERR_STATE else NET_ERR_OK.

Definition tcp_clone (source : nat) : M net (option nat) :=
  size ← pk (pktbuf_total (Some source));
  copy ← pk (pktbuf_alloc size);
  match copy with
  | None => mret None
  | Some c =>
      pk (pktbuf_reset_acc source);;
      pk (pktbuf_reset_acc c);;
      e ← pk (pktbuf_copy copy (Some source) size);
      if e <? 0 then
        pk (pktbuf_free copy);; pk (pktbuf_reset_acc source);; mret None
      else
        pk (pktbuf_reset_acc source);; pk (pktbuf_reset_acc c);; mret copy
  end.

Definition tcp_output_owned (p : nat) : M net Z :=
  x ← load_tcp p;
  source ← deref (outstanding x);
  copy ← tcp_clone source;
  match copy with
  | None => mret NET_ERR_MEM
  | Some _ =>
      x ← load_tcp p;
      ipv4_out (netif x) (Some (remote_ip x)) NET_PROTOCOL_TCP copy
  end.

Definition tcp_make_segment (p : nat) (seq ack flags : Z) (data : option bytes) (size : Z) : M net (option nat) :=
  buf ← pk (pktbuf_alloc (TCP_HEADER_SIZE + size));
  match buf with
  | None => mret None
  | Some b =>
      header ← pk (pktbuf_data buf);
      h ← deref header;
      hdr_store h 0 (replicate 20 0);;
      x ← load_tcp p;
      hdr_store h th_src_port (le16 (x_htons (local_port x)));;
      hdr_store h th_dest_port (le16 (x_htons (remote_port x)));;
      hdr_store h th_seq (le32 (x_htonl seq));;
      hdr_store h th_ack (le32 (x_htonl ack));;
      hdr_store h th_data_offset [Z.shiftl 5 4];;
      hdr_store h th_flags [flags];;
      hdr_store h th_window (le16 (x_htons (u16 (TCP_RECV_MAX - recv_count x))));;
      ok ← (if 0 <? size then
              pk (pktbuf_reset_acc b);;
              e ← pk (pktbuf_seek buf TCP_HEADER_SIZE);
              if e <? 0 then mret false
              else e ← pk (pktbuf_write buf data size); mret (0 <=? e)
            else mret true);
      if negb ok then pk (pktbuf_free buf);; mret None
      else
        header ← pk (pktbuf_data buf);
        x ← load_tcp p;
        checksum ← tcp_checksum b (local_ip x) (remote_ip x) (u16 (TCP_HEADER_SIZE + size));
        h ← deref header;
        hdr_store h th_checksum (le16 (x_htons (if checksum =? 0 then 0xffff else checksum)));;
        pk (pktbuf_reset_acc b);;
        mret buf
  end.

Definition tcp_send_ack (p : nat) : M net Z :=
  x ← load_tcp p;
  ack ← tcp_make_segment p (snd_nxt x) (rcv_nxt x) TCP_FLAG_ACK None 0;
  match ack with
  | None => mret NET_ERR_MEM
  | Some _ =>
      x ← load_tcp p;
      ipv4_out (netif x) (Some (remote_ip x)) NET_PROTOCOL_TCP ack
  end.

Definition tcp_clear_outstanding (p : nat) : M net unit :=
  timer_remove (retrans_timer p);;
  x ← load_tcp p;
  match outstanding x with
  | Some b => pk (pktbuf_free (Some b));; store_tcp p (fun x => x <| outstanding := None |>)
  | None => mret ()
  end;;
  store_tcp p (fun x => x <| outstanding_end := 0 |>).

Definition tcp_notify_terminal (p : nat) : M net unit :=
  x ← load_tcp p;
  if terminal_notified x then mret ()
  else
    store_tcp p (fun x => x <| terminal_notified := true |>);;
    notify_some (connect_waiters x) (connect_done x);;
    notify_all (recv_waiters x) (recv_done x);;
    notify_some (close_waiters x) (close_done x).

(** ["tcp-retrans"], ["tcp-release"] and ["tcp-time-wait"] *)
Definition retrans_name : bytes := [116; 99; 112; 45; 114; 101; 116; 114; 97; 110; 115].
Definition release_name : bytes := [116; 99; 112; 45; 114; 101; 108; 101; 97; 115; 101].
Definition time_wait_name : bytes := [116; 99; 112; 45; 116; 105; 109; 101; 45; 119; 97; 105; 116].

Definition tcp_arm_timer (p : nat) : M net Z :=
  zoom timer_lens (net_timer_add (Some (retrans_timer p)) (Some retrans_name)
    tcp_timer_proc_addr (Z.of_nat p) TCP_RETRANS_MS 0).

Definition tcp_start_outstanding (p : nat) (segment : nat) (end_ : Z) : M net Z :=
  store_tcp p (fun x => x <| outstanding := Some segment |> <| outstanding_end := end_ |> <| retry_count := 0 |>);;
  err ← tcp_output_owned p;
  err ← (if 0 <=? err then tcp_arm_timer p else mret err);
  when (err <? 0) (tcp_clear_outstanding p);;
  mret err.

(** ** Release *)

(** [tcp_reset_connection] *)
Definition tcp_reset_connection (x : tcp_pcb_t) : tcp_pcb_t :=
  x <| netif := None |> <| local_ip := 0 |> <| remote_ip := 0 |> <| local_port := 0 |> <| remote_port := 0 |>
    <| state := TCP_STATE_CLOSED |> <| iss := 0 |> <| snd_una := 0 |> <| snd_nxt := 0 |> <| rcv_nxt := 0 |>
    <| peer_fin_seen := false |> <| window := 0 |> <| outstanding_end := 0 |> <| retry_count := 0 |>
    <| listener := None |> <| accept_queue := replicate TCP_ACCEPT_MAX None |> <| accept_head := 0 |>
    <| accept_count := 0 |> <| pending_count := 0 |> <| backlog := 0 |> <| accept_waiters := 0 |>
    <| accept_pins := 0 |> <| bound := false |> <| passive := false |> <| accepted := false |>
    <| close_requested := false |>.

Definition no_waiters (x : tcp_pcb_t) : bool :=
  (connect_waiters x =? 0) && (recv_waiters x =? 0) && (close_waiters x =? 0).

Definition tcp_release_now_locked (p : nat) : M net Z :=
  slot ← tcp_find_slot p;
  if slot <? 0 then mret NET_ERR_PARAM
  else
    listener_children ← tcp_listener_has_children_locked p;
    x ← load_tcp p;
    if negb (release_pending x && negb (socket_attached x) && bool_decide (listener x = None) &&
             (accept_waiters x =? 0) && no_waiters x && negb listener_children && (accept_pins x =? 0))
    then mret NET_ERR_STATE
    else
      store_tcp p (fun x => x <| opened := false |>);;
      tcp_clear_outstanding p;;
      timer_remove (time_wait_timer p);;
      timer_remove (release_timer (Z.to_nat slot));;
      store_tcp p (fun x => x <| recv_head := 0 |> <| recv_count := 0 |>);;
      store_tcp p (fun x => (tcp_reset_connection x) <| release_pending := false |> <| connect_waiters := 0 |>
        <| recv_waiters := 0 |> <| close_waiters := 0 |>);;
      x ← load_tcp p;
      zoom sys_lens (sys_sem_free (accept_done x));;
      zoom sys_lens (sys_sem_free (close_done x));;
      zoom sys_lens (sys_sem_free (recv_done x));;
      zoom sys_lens (sys_sem_free (connect_done x));;
      store_tcp p (fun x => x <| accept_done := SYS_SEM_INVALID |> <| close_done := SYS_SEM_INVALID |>
        <| recv_done := SYS_SEM_INVALID |> <| connect_done := SYS_SEM_INVALID |>);;
      set_tcp (fun t => t <| detached_listeners := <[Z.to_nat slot := None]> (detached_listeners t) |>
        <| tcp_pcbs := <[Z.to_nat slot := None]> (tcp_pcbs t) |>);;
      mret NET_ERR_OK.

Definition tcp_request_release (p : nat) : M net Z :=
  slot ← tcp_find_slot p;
  if slot <? 0 then mret NET_ERR_PARAM
  else
    store_tcp p (fun x => x <| release_pending := true |>);;
    err ← zoom timer_lens (net_timer_add (Some (release_timer (Z.to_nat slot))) (Some release_name)
            tcp_release_proc_addr (Z.of_nat p) 1 NET_TIMER_RELOAD);
    mret (if err =? NET_ERR_EXIST then NET_ERR_OK else err).

(** ** Listeners and their children *)

(** The position of [child] among the [n] entries from position [i] on. *)
Fixpoint find_queued (child : nat) (x : tcp_pcb_t) (n i : nat) : option nat :=
  match n with
  | O => None
  | S n =>
      let index := ((accept_head x + Z.of_nat i) mod Z.of_nat TCP_ACCEPT_MAX) in
      if bool_decide (accept_queue x !! Z.to_nat index = Some (Some child)) then Some i
      else find_queued child x n (S i)
  end.

(** The entries from position [i] on move one position forward, [n] of them. *)
Fixpoint shift_queued (x : tcp_pcb_t) (n i : nat) (q : list (option nat)) : list (option nat) :=
  match n with
  | O => q
  | S n =>
      let index := (accept_head x + Z.of_nat i) mod Z.of_nat TCP_ACCEPT_MAX in
      let next := (index + 1) mod Z.of_nat TCP_ACCEPT_MAX in
      shift_queued x n (S i) (<[Z.to_nat index := mjoin (q !! Z.to_nat next)]> q)
  end.

Definition tcp_listener_remove_queued_locked (l child : nat) : M net bool :=
  x ← load_tcp l;
  match find_queued child x (Z.to_nat (accept_count x)) 0 with
  | None => mret false
  | Some found =>
      let q := shift_queued x (Z.to_nat (accept_count x - 1) - found) found (accept_queue x) in
      let tail := (accept_head x + accept_count x - 1) mod Z.of_nat TCP_ACCEPT_MAX in
      store_tcp l (fun x => x <| accept_queue := <[Z.to_nat tail := None]> q |>
        <| accept_count := accept_count x - 1 |>);;
      mret true
  end.

Definition tcp_listener_detach_child_locked (child : nat) (err : Z) : M net unit :=
  x ← load_tcp child;
  slot ← tcp_find_slot child;
  match listener x with
  | None => mret ()
  | Some l =>
      if slot <? 0 then mret ()
      else
        tcp_listener_remove_queued_locked l child;;
        store_tcp l (fun x => if 0 <? pending_count x then x <| pending_count := pending_count x - 1 |> else x);;
        tcp_clear_outstanding child;;
        timer_remove (time_wait_timer child);;
        store_tcp child (fun x => x <| listener := None |> <| error := err |> <| state := TCP_STATE_CLOSED |>
          <| close_requested := false |> <| release_pending := true |>);;
        set_tcp (fun t => t <| detached_listeners := <[Z.to_nat slot := Some l]> (detached_listeners t) |>);;
        tcp_notify_terminal child;;
        e ← tcp_request_release child;
        when (e <? 0) (tcp_release_now_locked child;; mret ())
  end.

(** [for (int i = 0; ...)] over the slots [l] of [pcbs], which may change. *)
Fixpoint for_slots (l : list nat) (body : nat -> option nat -> M net unit) : M net unit :=
  match l with
  | [] => mret ()
  | i :: l => t ← gets tcp; c ← deref (tcp_pcbs t !! i); body i c;; for_slots l body
  end.

Definition tcp_listener_release_detached_locked (listener : nat) : M net unit :=
  for_slots (seq 0 TCP_PCB_MAX) (fun i c =>
    t ← gets tcp;
    match c with
    | Some p =>
        when (bool_decide (mjoin (detached_listeners t !! i) = Some listener)) (tcp_release_now_locked p;; mret ())
    | None => mret ()
    end).

Definition tcp_listener_cleanup_locked (listener_ : nat) : M net unit :=
  for_slots (seq 0 TCP_PCB_MAX) (fun i c =>
    match c with
    | Some child =>
        if (child =? listener_)%nat then mret ()
        else
          x ← load_tcp child;
          when (bool_decide (listener x = Some listener_))
            (tcp_listener_detach_child_locked child NET_ERR_STATE)
    | None => mret ()
    end);;
  tcp_listener_release_detached_locked listener_.

Definition tcp_fail (p : nat) (err : Z) : M net Z :=
  tcp_clear_outstanding p;;
  timer_remove (time_wait_timer p);;
  store_tcp p (fun x => x <| error := err |> <| state := TCP_STATE_CLOSED |> <| close_requested := false |>);;
  tcp_notify_terminal p;;
  x ← load_tcp p;
  when (bool_decide (listener x <> None)) (tcp_listener_detach_child_locked p err);;
  mret err.

(** ** The callbacks of the timers *)

Definition tcp_retransmit_due (pcb : option nat) : M net Z :=
  match pcb with
  | None => mret NET_ERR_STATE
  | Some p =>
      slot ← tcp_find_slot p;
      if slot <? 0 then mret NET_ERR_STATE
      else
        x ← load_tcp p;
        if negb (opened x && bool_decide (outstanding x <> None)) then mret NET_ERR_STATE
        else
          timer_remove (retrans_timer p);;
          err ← tcp_output_owned p;
          if err <? 0 then tcp_fail p err
          else
            store_tcp p (fun x => x <| retry_count := retry_count x + 1 |>);;
            x ← load_tcp p;
            if TCP_RETRY_MAX <=? retry_count x then tcp_fail p NET_ERR_TMO
            else
              err ← tcp_arm_timer p;
              if err <? 0 then tcp_fail p err else mret NET_ERR_OK
  end.

Definition tcp_timer_proc (p : nat) : M net unit := tcp_retransmit_due (Some p);; mret ().

Definition tcp_time_wait_proc (p : nat) : M net unit :=
  x ← load_tcp p;
  if opened x && bool_decide (state x = TCP_STATE_TIME_WAIT) && negb (release_pending x) then
    store_tcp p (fun x => x <| state := TCP_STATE_CLOSED |> <| error := NET_ERR_OK |>);;
    notify_some (close_waiters x) (close_done x);;
    tcp_request_release p;;
    mret ()
  else mret ().

Definition clear_timer_flags (t : nat) : M net unit :=
  zoom timer_lens (store_timer t (fun tm => tm <| flags := 0 |>)).

Definition tcp_release_proc (timer p : nat) : M net unit :=
  slot ← tcp_find_slot p;
  if slot <? 0 then clear_timer_flags timer
  else
    x ← load_tcp p;
    let clean_listener := opened x && release_pending x && bool_decide (state x = TCP_STATE_LISTEN) &&
                          (accept_waiters x =? 0) in
    when clean_listener (tcp_listener_cleanup_locked p);;
    listener_children ← (if clean_listener then tcp_listener_has_children_locked p else mret false);
    x ← load_tcp p;
    when (opened x && release_pending x && negb (socket_attached x) && bool_decide (listener x = None) &&
          (accept_waiters x =? 0) && no_waiters x && negb listener_children && (accept_pins x =? 0))
      (clear_timer_flags timer;; tcp_release_now_locked p;; mret ()).

(** ** Ports *)

Fixpoint port_in_use (port : Z) (l : list (option nat)) : M net bool :=
  match l with
  | [] => mret false
  | None :: l => port_in_use port l
  | Some p :: l =>
      x ← load_tcp p;
      if opened x && (local_port x =? port) then mret true else port_in_use port l
  end.
Definition tcp_port_in_use (port : Z) : M net bool := t ← gets tcp; port_in_use port (tcp_pcbs t).

(** [n] ports are left to try. *)
Fixpoint choose_port_loop (n : nat) : M net Z :=
  match n with
  | O => mret 0
  | S n =>
      t ← gets tcp;
      let port := next_ephemeral t in
      let next := u16 (port + 1) in
      set_tcp (fun t => t <| next_ephemeral := if next <? 49152 then 49152 else next |>);;
      used ← (if port =? 0 then mret true else tcp_port_in_use port);
      if negb used then mret port else choose_port_loop n
  end.
Definition tcp_choose_port : M net Z := choose_port_loop (Z.to_nat 16384).

(** [while (sys_sem_wait(sem, -1) == NET_ERR_OK)]; [fuel] is the count of the
    semaphore. *)
Fixpoint drain_loop (fuel : nat) (sem : sys_sem_t) : M net unit :=
  e ← sys_sem_wait sys_lens no_sleep 0 0 sem (-1);
  if negb (e =? NET_ERR_OK) then mret ()
  else match fuel with O => stuck | S fuel => drain_loop fuel sem end.
Definition tcp_drain_sem (sem_ : sys_sem_t) : M net unit :=
  s ← get;
  drain_loop (match sem_ ≫= (sem_pool (sys s) !!.) with Some e => Z.to_nat (sem_count (sem e)) | None => O end) sem_.

(** ** Allocation *)

Definition tcp_init : M net Z :=
  set_tcp (fun _ => tcp_cleared);;
  (fix zero (l : list nat) := match l with
    | [] => mret ()
    | p :: l => zero_timer (retrans_timer p);; zero_timer (time_wait_timer p);; zero_timer (release_timer p);; zero l
    end) (seq 0 TCP_PCB_MAX);;
  ipv4_register_handler NET_PROTOCOL_TCP (Some TcpIn).

(** [goto fail] *)
Definition tcp_alloc_fail (p : nat) : M net (Z * option nat) :=
  x ← load_tcp p;
  zoom sys_lens (sys_sem_free (close_done x));;
  zoom sys_lens (sys_sem_free (recv_done x));;
  zoom sys_lens (sys_sem_free (connect_done x));;
  store_tcp p (fun _ => zero_pcb);;
  mret (NET_ERR_MEM, None).

Definition tcp_alloc_locked (attached : bool) : M net (Z * option nat) :=
  t ← gets tcp;
  let slot := find_slot_loop None 0 (tcp_pcbs t) in
  if slot <? 0 then mret (NET_ERR_MEM, None)
  else
    let p := Z.to_nat slot in
    store_tcp p (fun _ => zero_pcb);;
    zero_timer (retrans_timer p);;
    zero_timer (time_wait_timer p);;
    c ← zoom sys_lens (sys_sem_create 0);
    store_tcp p (fun x => x <| connect_done := c |>);;
    if bool_decide (c = None) then tcp_alloc_fail p
    else
      r ← zoom sys_lens (sys_sem_create 0);
      store_tcp p (fun x => x <| recv_done := r |>);;
      if bool_decide (r = None) then tcp_alloc_fail p
      else
        d ← zoom sys_lens (sys_sem_create 0);
        store_tcp p (fun x => x <| close_done := d |>);;
        if bool_decide (d = None) then tcp_alloc_fail p
        else
          store_tcp p (fun x => x <| accept_done := SYS_SEM_INVALID |> <| opened := true |>
            <| state := TCP_STATE_CLOSED |> <| error := NET_ERR_OK |> <| socket_attached := attached |>);;
          set_tcp (fun t => t <| detached_listeners := <[p := None]> (detached_listeners t) |>
            <| tcp_pcbs := <[p := Some p]> (tcp_pcbs t) |>);;
          mret (NET_ERR_OK, Some p).

Definition tcp_open : M net (Z * option nat) := tcp_alloc_locked false.
Definition tcp_socket_open : M net (Z * option nat) := tcp_alloc_locked true.

(** ** Binding, listening and accepting *)

(** The control blocks other than [p] that [bad] holds of. *)
Fixpoint other_pcb (bad : tcp_pcb_t -> bool) (p : nat) (l : list (option nat)) : M net bool :=
  match l with
  | [] => mret false
  | None :: l => other_pcb bad p l
  | Some q :: l =>
      if (q =? p)%nat then other_pcb bad p l
      else x ← load_tcp q; if bad x then mret true else other_pcb bad p l
  end.

Definition tcp_bind (pcb netif_ : option nat) (local : option Z) (port : Z) : M net Z :=
  match pcb, netif_, local with
  | Some p, Some n, Some a =>
      if port =? 0 then mret NET_ERR_PARAM
      else
        slot ← tcp_find_slot p;
        i ← load_netif n;
        if (slot <? 0) || negb (bool_decide (Net.state i = NETIF_ACTIVE)) then mret NET_ERR_STATE
        else if negb (ipaddr_is_any local) && negb (ipaddr_is_equal local (Some (Net.ipaddr i)))
        then mret NET_ERR_PARAM
        else
          x ← load_tcp p;
          if negb (opened x && negb (release_pending x) && bool_decide (state x = TCP_STATE_CLOSED) &&
                   bool_decide (netif x = None) && (local_port x =? 0))
          then mret NET_ERR_STATE
          else
            t ← gets tcp;
            conflict ← other_pcb (fun x => opened x && (local_port x =? port) &&
                                  (local_ip x =? Net.ipaddr i)) p (tcp_pcbs t);
            if (conflict : bool) then mret NET_ERR_EXIST
            else
              store_tcp p (fun x => x <| netif := Some n |> <| local_ip := Net.ipaddr i |>
                <| local_port := port |> <| bound := true |>);;
              mret NET_ERR_OK
  | _, _, _ => mret NET_ERR_PARAM
  end.

Definition tcp_listen (pcb : option nat) (backlog_ : Z) : M net Z :=
  match pcb with
  | Some p =>
      if (backlog_ <? 1) || (Z.of_nat TCP_ACCEPT_MAX <? backlog_) then mret NET_ERR_PARAM
      else
        slot ← tcp_find_slot p;
        if slot <? 0 then mret NET_ERR_STATE
        else
          x ← load_tcp p;
          if negb (opened x && negb (release_pending x) && bool_decide (state x = TCP_STATE_CLOSED) &&
                   bool_decide (netif x <> None) && negb (local_port x =? 0) && bound x)
          then mret NET_ERR_STATE
          else
            t ← gets tcp;
            listening ← other_pcb (fun x => opened x && bool_decide (state x = TCP_STATE_LISTEN)) p (tcp_pcbs t);
            if (listening : bool) then mret NET_ERR_EXIST
            else
              sem ← zoom sys_lens (sys_sem_create 0);
              if bool_decide (sem = None) then mret NET_ERR_MEM
              else
                store_tcp p (fun x => x <| accept_done := sem |>
                  <| accept_queue := replicate TCP_ACCEPT_MAX None |> <| accept_head := 0 |>
                  <| accept_count := 0 |> <| pending_count := 0 |> <| backlog := backlog_ |>
                  <| accept_waiters := 0 |> <| state := TCP_STATE_LISTEN |>);;
                mret NET_ERR_OK
  | None => mret NET_ERR_PARAM
  end.

Definition tcp_accept_acquire (pcb : option nat) : M net Z :=
  match pcb with
  | None => mret NET_ERR_PARAM
  | Some l =>
      slot ← tcp_find_slot l;
      if slot <? 0 then mret NET_ERR_PARAM
      else
        x ← load_tcp l;
        if negb (opened x) || release_pending x || negb (bool_decide (state x = TCP_STATE_LISTEN))
        then mret NET_ERR_STATE
        else store_tcp l (fun x => x <| accept_waiters := accept_waiters x + 1 |>);; mret NET_ERR_OK
  end.

Section blocking.
Context (task_sleep : nat -> Z -> M net Z) (fuel : nat) (mtime : Z).
Definition sem_wait_ms (sem : sys_sem_t) (timeout_ms : Z) : M net Z :=
  sys_sem_wait sys_lens task_sleep fuel mtime sem timeout_ms.

(** A wait that did not get the semaphore, as the caller reports it. *)
Definition wait_error (timeout_ms err : Z) : Z :=
  if (timeout_ms <? 0) && (err =? NET_ERR_TMO) then NET_ERR_NONE else err.

(** What is stored through [child], [remote] and [remote_port]; [turns] bounds
    the number of times the semaphore was posted without a child in the queue. *)
Fixpoint accept_peek_loop (turns : nat) (l : nat) (timeout_ms : Z) : M net (Z * option (nat * Z * Z)) :=
  x ← load_tcp l;
  if negb (opened x) || negb (bool_decide (state x = TCP_STATE_LISTEN)) || release_pending x
  then mret (NET_ERR_STATE, None)
  else if accept_waiters x <=? 0 then mret (NET_ERR_STATE, None)
  else if negb (accept_count x =? 0) then
    h ← deref (mjoin (accept_queue x !! Z.to_nat (accept_head x)));
    y ← load_tcp h;
    if negb (opened y) || release_pending y || negb (bool_decide (listener y = Some l)) ||
       negb (bool_decide (state y = TCP_STATE_ESTABLISHED))
    then mret (NET_ERR_STATE, None)
    else
      store_tcp h (fun y => y <| accept_pins := accept_pins y + 1 |>);;
      mret (NET_ERR_OK, Some (h, remote_ip y, remote_port y))
  else
    err ← sem_wait_ms (accept_done x) timeout_ms;
    if err <? 0 then mret (wait_error timeout_ms err, None)
    else match turns with O => stuck | S turns => accept_peek_loop turns l timeout_ms end.

Definition tcp_accept_peek_acquired (turns : nat) (pcb : option nat) (timeout_ms : Z)
    : M net (Z * option (nat * Z * Z)) :=
  match pcb with
  | None => mret (NET_ERR_PARAM, None)
  | Some l => accept_peek_loop turns l timeout_ms
  end.
End blocking.

Definition tcp_accept_commit_acquired (listener_ child : option nat) : M net Z :=
  match listener_, child with
  | Some l, Some c =>
      slot ← tcp_find_slot l;
      if slot <? 0 then mret NET_ERR_PARAM
      else
        x ← load_tcp l;
        child_slot ← tcp_find_slot c;
        if negb (opened x && negb (release_pending x) && bool_decide (state x = TCP_STATE_LISTEN) &&
                 (0 <? accept_waiters x) && (0 <? accept_count x) &&
                 bool_decide (accept_queue x !! Z.to_nat (accept_head x) = Some (Some c)) && (0 <=? child_slot))
        then mret NET_ERR_STATE
        else
          y ← load_tcp c;
          if negb (opened y && negb (release_pending y) && bool_decide (listener y = Some l) &&
                   negb (socket_attached y) && bool_decide (state y = TCP_STATE_ESTABLISHED) &&
                   (0 <? accept_pins y))
          then mret NET_ERR_STATE
          else
            store_tcp c (fun y => y <| accept_pins := accept_pins y - 1 |> <| socket_attached := true |>
              <| accepted := true |> <| listener := None |>);;
            y ← load_tcp c;
            set_tcp (fun t => t <| detached_listeners :=
              <[Z.to_nat child_slot := if 0 <? accept_pins y then Some l else None]> (detached_listeners t) |>);;
            store_tcp l (fun x => x <| accept_queue := <[Z.to_nat (accept_head x) := None]> (accept_queue x) |>
              <| accept_head := (accept_head x + 1) mod Z.of_nat TCP_ACCEPT_MAX |>
              <| accept_count := accept_count x - 1 |> <| pending_count := pending_count x - 1 |>
              <| accept_waiters := accept_waiters x - 1 |>);;
            mret NET_ERR_OK
  | _, _ => mret NET_ERR_PARAM
  end.

(** The end of both ways to release an acquired waiter. *)
Definition accept_release (l : nat) : M net Z :=
  store_tcp l (fun x => x <| accept_waiters := accept_waiters x - 1 |>);;
  x ← load_tcp l;
  when (negb (accept_count x =? 0) && negb (release_pending x)) (notify (accept_done x));;
  mret NET_ERR_OK.

Definition tcp_accept_release_acquired (listener_ : option nat) : M net Z :=
  match listener_ with
  | None => mret NET_ERR_PARAM
  | Some l =>
      slot ← tcp_find_slot l;
      if slot <? 0 then mret NET_ERR_PARAM
      else
        x ← load_tcp l;
        if negb (opened x) || (accept_waiters x <=? 0) || negb (bool_decide (state x = TCP_STATE_LISTEN))
        then mret NET_ERR_STATE
        else accept_release l
  end.

Definition tcp_accept_release_child_acquired (listener_ child : option nat) : M net Z :=
  match listener_, child with
  | Some l, Some c =>
      child_slot ← tcp_find_slot c;
      slot ← tcp_find_slot l;
      if (slot <? 0) || (child_slot <? 0) then mret NET_ERR_PARAM
      else
        x ← load_tcp l;
        if negb (opened x) || (accept_waiters x <=? 0) || negb (bool_decide (state x = TCP_STATE_LISTEN))
        then mret NET_ERR_STATE
        else
          y ← load_tcp c;
          t ← gets tcp;
          if negb (opened y) ||
             negb (bool_decide (listener y = Some l) ||
                   bool_decide (mjoin (detached_listeners t !! Z.to_nat child_slot) = Some l)) ||
             (accept_pins y <=? 0)
          then mret NET_ERR_STATE
          else
            store_tcp c (fun y => y <| accept_pins := accept_pins y - 1 |>);;
            y ← load_tcp c;
            when ((accept_pins y =? 0) && socket_attached y)
              (set_tcp (fun t => t <| detached_listeners :=
                 <[Z.to_nat child_slot := None]> (detached_listeners t) |>));;
            accept_release l
  | _, _ => mret NET_ERR_PARAM
  end.

(** ** Connecting and sending *)

Definition tcp_connect_start (pcb netif_ : option nat) (remote : option Z) (remote_port_ : Z) : M net Z :=
  match pcb, netif_, remote with
  | Some p, Some n, Some a =>
      if remote_port_ =? 0 then mret NET_ERR_PARAM
      else
        slot ← tcp_find_slot p;
        if slot <? 0 then mret NET_ERR_STATE
        else
          x ← load_tcp p;
          if negb (opened x) || release_pending x || negb (no_waiters x) ||
             negb (bool_decide (state x = TCP_STATE_CLOSED)) || bound x || bool_decide (outstanding x <> None)
          then mret NET_ERR_STATE
          else
            i ← load_netif n;
            if negb (bool_decide (Net.state i = NETIF_ACTIVE)) then mret NET_ERR_STATE
            else
              local_port_ ← tcp_choose_port;
              if local_port_ =? 0 then mret NET_ERR_FULL
              else
                x ← load_tcp p;
                tcp_drain_sem (connect_done x);;
                tcp_drain_sem (recv_done x);;
                tcp_drain_sem (close_done x);;
                store_tcp p (fun x => x <| recv_head := 0 |> <| recv_count := 0 |>);;
                t ← gets tcp;
                store_tcp p (fun x => (tcp_reset_connection x) <| error := NET_ERR_OK |>
                  <| terminal_notified := false |> <| netif := Some n |> <| local_ip := Net.ipaddr i |>
                  <| remote_ip := a |> <| local_port := local_port_ |> <| remote_port := remote_port_ |>
                  <| iss := next_iss t |>);;
                set_tcp (fun t => t <| next_iss := u32 (next_iss t + 64000) |>);;
                store_tcp p (fun x => x <| snd_una := iss x |> <| snd_nxt := u32 (iss x + 1) |> <| rcv_nxt := 0 |>);;
                x ← load_tcp p;
                syn ← tcp_make_segment p (iss x) 0 TCP_FLAG_SYN None 0;
                match syn with
                | None => store_tcp p tcp_reset_connection;; mret NET_ERR_MEM
                | Some b =>
                    x ← load_tcp p;
                    err ← tcp_start_outstanding p b (snd_nxt x);
                    if err <? 0 then store_tcp p tcp_reset_connection;; mret err
                    else store_tcp p (fun x => x <| state := TCP_STATE_SYN_SENT |>);; mret NET_ERR_OK
                end
  | _, _, _ => mret NET_ERR_PARAM
  end.

Definition tcp_send_start (pcb : option nat) (data : option bytes) (size : Z) : M net Z :=
  match pcb, data with
  | Some p, Some _ =>
      if (size <=? 0) || (TCP_MSS <? size) then mret NET_ERR_PARAM
      else
        slot ← tcp_find_slot p;
        if slot <? 0 then mret NET_ERR_STATE
        else
          x ← load_tcp p;
          if negb (opened x && bool_decide (state x = TCP_STATE_ESTABLISHED)) then mret NET_ERR_STATE
          else if bool_decide (outstanding x <> None) then mret NET_ERR_FULL
          else if (window x =? 0) || (window x <? u16 size) then mret NET_ERR_FULL
          else
            let end_ := u32 (snd_nxt x + size) in
            segment ← tcp_make_segment p (snd_nxt x) (rcv_nxt x) (Z.lor TCP_FLAG_PSH TCP_FLAG_ACK) data size;
            match segment with
            | None => mret NET_ERR_MEM
            | Some b =>
                err ← tcp_start_outstanding p b end_;
                if err <? 0 then mret err
                else store_tcp p (fun x => x <| snd_nxt := end_ |>);; mret NET_ERR_OK
            end
  | _, _ => mret NET_ERR_PARAM
  end.

(** ** Waiting and receiving *)

Definition get_waiters (connect_wait : bool) (x : tcp_pcb_t) : Z :=
  if connect_wait then connect_waiters x else close_waiters x.
Definition add_waiters (connect_wait : bool) (k : Z) (x : tcp_pcb_t) : tcp_pcb_t :=
  if connect_wait then x <| connect_waiters := connect_waiters x + k |>
  else x <| close_waiters := close_waiters x + k |>.

(** A close has finished as far as the waiters are concerned. *)
Definition close_finished (x : tcp_pcb_t) : bool :=
  (bool_decide (state x = TCP_STATE_CLOSED) || bool_decide (state x = TCP_STATE_LISTEN)) && release_pending x.

Definition tcp_wait_completion_acquire (pcb : option nat) (connect_wait : bool) : M net Z :=
  match pcb with
  | None => mret NET_ERR_PARAM
  | Some p =>
      slot ← tcp_find_slot p;
      if slot <? 0 then mret NET_ERR_PARAM
      else
        x ← load_tcp p;
        if negb (opened x) ||
           (release_pending x &&
            (connect_wait || (negb (bool_decide (state x = TCP_STATE_CLOSED)) &&
                              negb (bool_decide (state x = TCP_STATE_LISTEN)))))
        then mret NET_ERR_STATE
        else if negb connect_wait && close_finished x
        then store_tcp p (add_waiters connect_wait 1);; mret NET_ERR_OK
        else if error x <? 0 then mret (error x)
        else if (if connect_wait then
                   negb (bool_decide (state x = TCP_STATE_SYN_SENT)) &&
                   negb (bool_decide (state x = TCP_STATE_ESTABLISHED))
                 else
                   negb (bool_decide (state x = TCP_STATE_FIN_WAIT_1)) &&
                   negb (bool_decide (state x = TCP_STATE_FIN_WAIT_2)) &&
                   negb (bool_decide (state x = TCP_STATE_TIME_WAIT)) &&
                   negb (bool_decide (state x = TCP_STATE_ESTABLISHED) && close_requested x) &&
                   negb (bool_decide (state x = TCP_STATE_CLOSED) && release_pending x))
        then mret NET_ERR_STATE
        else store_tcp p (add_waiters connect_wait 1);; mret NET_ERR_OK
  end.
Definition tcp_wait_connect_acquire (pcb : option nat) : M net Z := tcp_wait_completion_acquire pcb true.
Definition tcp_wait_close_acquire (pcb : option nat) : M net Z := tcp_wait_completion_acquire pcb false.

Definition tcp_recv_acquire (pcb : option nat) : M net Z :=
  match pcb with
  | None => mret NET_ERR_PARAM
  | Some p =>
      slot ← tcp_find_slot p;
      if slot <? 0 then mret NET_ERR_PARAM
      else
        x ← load_tcp p;
        if negb (opened x) || release_pending x then mret NET_ERR_STATE
        else if negb (bool_decide (state x = TCP_STATE_SYN_SENT)) &&
                negb (bool_decide (state x = TCP_STATE_ESTABLISHED)) &&
                negb (bool_decide (state x = TCP_STATE_FIN_WAIT_1)) &&
                negb (bool_decide (state x = TCP_STATE_FIN_WAIT_2))
        then mret (if error x <? 0 then error x else NET_ERR_STATE)
        else store_tcp p (fun x => x <| recv_waiters := recv_waiters x + 1 |>);; mret NET_ERR_OK
  end.

(** The [copied] bytes from the head of the ring. *)
Definition ring_read (x : tcp_pcb_t) (copied : Z) : bytes :=
  let first := Z.min (TCP_RECV_MAX - recv_head x) copied in
  take (Z.to_nat first) (drop (Z.to_nat (recv_head x)) (recv_storage x)) ++
  take (Z.to_nat (copied - first)) (recv_storage x).

Section waiting.
Context (task_sleep : nat -> Z -> M net Z) (fuel : nat) (mtime : Z).

Definition tcp_wait_completion_acquired (pcb : option nat) (timeout_ms : Z) (connect_wait : bool) : M net Z :=
  match pcb with
  | None => mret NET_ERR_PARAM
  | Some p =>
      x ← load_tcp p;
      let immediate :=
        if negb (opened x) then NET_ERR_STATE
        else if negb connect_wait && close_finished x then NET_ERR_OK
        else if error x <? 0 then error x
        else if connect_wait && bool_decide (state x = TCP_STATE_ESTABLISHED) then NET_ERR_OK
        else NET_ERR_NONE in
      if negb (immediate =? NET_ERR_NONE) then
        store_tcp p (add_waiters connect_wait (-1));; mret immediate
      else
        err ← sem_wait_ms task_sleep fuel mtime (if connect_wait then connect_done x else close_done x) timeout_ms;
        x ← load_tcp p;
        let err := if (err =? NET_ERR_OK) && (error x <? 0) then error x else err in
        store_tcp p (add_waiters connect_wait (-1));;
        mret (wait_error timeout_ms err)
  end.

Definition tcp_wait_connect_acquired (pcb : option nat) (timeout_ms : Z) : M net Z :=
  tcp_wait_completion_acquired pcb timeout_ms true.
Definition tcp_wait_close_acquired (pcb : option nat) (timeout_ms : Z) : M net Z :=
  tcp_wait_completion_acquired pcb timeout_ms false.
Definition tcp_wait_connect (pcb : option nat) (timeout_ms : Z) : M net Z :=
  err ← tcp_wait_connect_acquire pcb;
  if err <? 0 then mret err else tcp_wait_connect_acquired pcb timeout_ms.
Definition tcp_wait_close (pcb : option nat) (timeout_ms : Z) : M net Z :=
  err ← tcp_wait_close_acquire pcb;
  if err <? 0 then mret err else tcp_wait_close_acquired pcb timeout_ms.

(** [turns] bounds the number of times the semaphore was posted without data. *)
Fixpoint recv_bytes_loop (turns : nat) (p : nat) (size timeout_ms : Z) : M net (Z * bytes) :=
  x ← load_tcp p;
  if negb (recv_count x =? 0) then
    sem_wait_ms task_sleep fuel mtime (recv_done x) (-1);;
    let copied := if size <? recv_count x then size else recv_count x in
    store_tcp p (fun x => x <| recv_head := (recv_head x + copied) mod TCP_RECV_MAX |>
      <| recv_count := recv_count x - copied |>);;
    when (negb (recv_count x - copied =? 0)) (notify (recv_done x));;
    mret (copied, ring_read x copied)
  else if (error x <? 0) || release_pending x || negb (opened x) || bool_decide (state x = TCP_STATE_CLOSED) ||
          bool_decide (state x = TCP_STATE_TIME_WAIT) then
    sem_wait_ms task_sleep fuel mtime (recv_done x) (-1);;
    mret (if error x <? 0 then error x else NET_ERR_STATE, [])
  else
    err ← sem_wait_ms task_sleep fuel mtime (recv_done x) timeout_ms;
    if err <? 0 then mret (wait_error timeout_ms err, [])
    else match turns with O => stuck | S turns => recv_bytes_loop turns p size timeout_ms end.

(** The result and the bytes stored through [data]. *)
Definition tcp_recv_bytes_acquired (turns : nat) (pcb : option nat) (data : bool) (size timeout_ms : Z)
    : M net (Z * bytes) :=
  match pcb with
  | Some p =>
      if negb data || (size <=? 0) then mret (NET_ERR_PARAM, [])
      else
        r ← recv_bytes_loop turns p size timeout_ms;
        store_tcp p (fun x => x <| recv_waiters := recv_waiters x - 1 |>);;
        mret r
  | None => mret (NET_ERR_PARAM, [])
  end.

Definition tcp_recv_bytes (turns : nat) (pcb : option nat) (data : bool) (size timeout_ms : Z) : M net (Z * bytes) :=
  if bool_decide (pcb = None) || negb data || (size <=? 0) then mret (NET_ERR_PARAM, [])
  else
    err ← tcp_recv_acquire pcb;
    if err <? 0 then mret (err, []) else tcp_recv_bytes_acquired turns pcb data size timeout_ms.
End waiting.

(** ** Closing *)

Definition tcp_socket_detach (pcb : option nat) : M net Z :=
  match pcb with
  | None => mret NET_ERR_PARAM
  | Some p =>
      slot ← tcp_find_slot p;
      if slot <? 0 then mret NET_ERR_PARAM
      else
        listener_children ← tcp_listener_has_children_locked p;
        x ← load_tcp p;
        if negb (opened x && socket_attached x && release_pending x && bool_decide (listener x = None) &&
                 (accept_waiters x =? 0) && (accept_pins x =? 0) && no_waiters x && negb listener_children)
        then mret NET_ERR_STATE
        else
          store_tcp p (fun x => x <| socket_attached := false |>);;
          tcp_release_now_locked p
  end.

Definition tcp_abort_and_release (p : nat) : M net Z :=
  tcp_clear_outstanding p;;
  timer_remove (time_wait_timer p);;
  store_tcp p (fun x => x <| error := NET_ERR_STATE |> <| state := TCP_STATE_CLOSED |>
    <| close_requested := false |>);;
  tcp_notify_terminal p;;
  tcp_request_release p.

(** The end of [tcp_close]: the FIN of an established connection. *)
Definition tcp_close_established (p : nat) (snd_nxt_ rcv_nxt_ : Z) : M net Z :=
  let end_ := u32 (snd_nxt_ + 1) in
  fin ← tcp_make_segment p snd_nxt_ rcv_nxt_ (Z.lor TCP_FLAG_FIN TCP_FLAG_ACK) None 0;
  match fin with
  | None => mret NET_ERR_MEM
  | Some b =>
      err ← tcp_start_outstanding p b end_;
      if err <? 0 then mret err
      else
        store_tcp p (fun x => x <| snd_nxt := end_ |> <| state := TCP_STATE_FIN_WAIT_1 |>);;
        mret NET_ERR_OK
  end.

(** [tcp_close] on a listener that is not yet being released. *)
Definition tcp_close_listener (p : nat) : M net Z :=
  store_tcp p (fun x => x <| close_requested := true |> <| release_pending := true |>);;
  x ← load_tcp p;
  notify_all (accept_waiters x) (accept_done x);;
  notify_all (close_waiters x) (close_done x);;
  when (accept_waiters x =? 0) (tcp_listener_cleanup_locked p);;
  tcp_request_release p.

(** [tcp_close] on a control block that is being released. *)
Definition tcp_close_pending (p : nat) : M net Z :=
  x ← load_tcp p;
  let releasable := no_waiters x && (accept_waiters x =? 0) && bool_decide (listener x = None) &&
                    (accept_pins x =? 0) && negb (socket_attached x) in
  when (bool_decide (state x = TCP_STATE_LISTEN) && (accept_waiters x =? 0)) (tcp_listener_cleanup_locked p);;
  if releasable then tcp_release_now_locked p else mret NET_ERR_OK.

Definition tcp_close (pcb : option nat) : M net Z :=
  match pcb with
  | None => mret NET_ERR_PARAM
  | Some p =>
      slot ← tcp_find_slot p;
      if slot <? 0 then mret NET_ERR_PARAM
      else
        x ← load_tcp p;
        if negb (opened x) then mret NET_ERR_PARAM
        else if bool_decide (listener x <> None) then
          tcp_listener_detach_child_locked p NET_ERR_STATE;; mret NET_ERR_OK
        else if release_pending x then tcp_close_pending p
        else
          match state x with
          | TCP_STATE_TIME_WAIT => mret NET_ERR_OK
          | TCP_STATE_LISTEN => tcp_close_listener p
          | TCP_STATE_CLOSED | TCP_STATE_SYN_SENT | TCP_STATE_SYN_RECEIVED
          | TCP_STATE_FIN_WAIT_1 | TCP_STATE_FIN_WAIT_2 => tcp_abort_and_release p
          | TCP_STATE_ESTABLISHED =>
              if bool_decide (outstanding x <> None) then
                store_tcp p (fun x => x <| close_requested := true |>);; mret NET_ERR_OK
              else tcp_close_established p (snd_nxt x) (rcv_nxt x)
          end
  end.

(** ** Input *)

Fixpoint find_pcb_loop (ok : tcp_pcb_t -> bool) (l : list (option nat)) : M net (option nat) :=
  match l with
  | [] => mret None
  | None :: l => find_pcb_loop ok l
  | Some p :: l => x ← load_tcp p; if ok x then mret (Some p) else find_pcb_loop ok l
  end.

Definition tcp_find_pcb (n : nat) (src dest src_port dest_port : Z) : M net (option nat) :=
  t ← gets tcp;
  find_pcb_loop (fun x => opened x && bool_decide (netif x = Some n) && (local_port x =? dest_port) &&
    (remote_port x =? src_port) && (local_ip x =? dest) && (remote_ip x =? src)) (tcp_pcbs t).

Definition tcp_find_listener (n : nat) (dest dest_port : Z) : M net (option nat) :=
  t ← gets tcp;
  find_pcb_loop (fun x => opened x && negb (release_pending x) && bool_decide (state x = TCP_STATE_LISTEN) &&
    bool_decide (netif x = Some n) && (local_port x =? dest_port) && (local_ip x =? dest)) (tcp_pcbs t).

Definition tcp_passive_syn (l n : nat) (src src_port seq window_ : Z) : M net Z :=
  x ← load_tcp l;
  if release_pending x || (backlog x <=? pending_count x) then mret NET_ERR_FULL
  else
    r ← tcp_alloc_locked false;
    if r.1 <? 0 then mret r.1
    else
      c ← deref r.2;
      x ← load_tcp l;
      t ← gets tcp;
      store_tcp c (fun y => y <| listener := Some l |> <| passive := true |> <| netif := Some n |>
        <| local_ip := local_ip x |> <| remote_ip := src |> <| local_port := local_port x |>
        <| remote_port := src_port |> <| iss := next_iss t |>);;
      set_tcp (fun t => t <| next_iss := u32 (next_iss t + 64000) |>);;
      store_tcp c (fun y => y <| snd_una := iss y |> <| snd_nxt := u32 (iss y + 1) |> <| rcv_nxt := u32 (seq + 1) |>
        <| window := window_ |> <| state := TCP_STATE_SYN_RECEIVED |>);;
      store_tcp l (fun x => x <| pending_count := pending_count x + 1 |>);;
      y ← load_tcp c;
      syn_ack ← tcp_make_segment c (iss y) (rcv_nxt y) (Z.lor TCP_FLAG_SYN TCP_FLAG_ACK) None 0;
      match syn_ack with
      | None => tcp_listener_detach_child_locked c NET_ERR_MEM;; mret NET_ERR_MEM
      | Some b =>
          y ← load_tcp c;
          err ← tcp_start_outstanding c b (snd_nxt y);
          if err <? 0 then tcp_listener_detach_child_locked c err;; mret err
          else mret NET_ERR_OK
      end.

Definition tcp_start_local_fin (p : nat) : M net Z :=
  x ← load_tcp p;
  if negb (opened x) || bool_decide (outstanding x <> None) || negb (bool_decide (state x = TCP_STATE_ESTABLISHED))
  then mret NET_ERR_STATE
  else
    let end_ := u32 (snd_nxt x + 1) in
    fin ← tcp_make_segment p (snd_nxt x) (rcv_nxt x) (Z.lor TCP_FLAG_FIN TCP_FLAG_ACK) None 0;
    match fin with
    | None => mret NET_ERR_MEM
    | Some b =>
        err ← tcp_start_outstanding p b end_;
        if err <? 0 then mret err
        else
          store_tcp p (fun x => x <| snd_nxt := end_ |> <| state := TCP_STATE_FIN_WAIT_1 |>);;
          mret NET_ERR_OK
    end.

(** The update of [tcp_accept_ack] when [ack] completes the outstanding
    segment. *)
Definition ack_complete (ack : Z) (x : tcp_pcb_t) : tcp_pcb_t :=
  let start_fin := close_requested x && bool_decide (state x = TCP_STATE_ESTABLISHED) in
  let x := x <| snd_una := ack |> in
  let x := if start_fin then x <| close_requested := false |> else x in
  if bool_decide (state x = TCP_STATE_FIN_WAIT_1) then
    if peer_fin_seen x then x <| state := TCP_STATE_TIME_WAIT |> <| peer_fin_seen := false |>
    else x <| state := TCP_STATE_FIN_WAIT_2 |>
  else x.

Definition tcp_accept_ack (p : nat) (ack : Z) : M net Z :=
  x ← load_tcp p;
  if (s32 (ack - snd_una x) <? 0) || (0 <? s32 (ack - snd_nxt x)) then mret NET_ERR_STATE
  else if bool_decide (outstanding x <> None) && (ack =? outstanding_end x) then
    store_tcp p (ack_complete ack);;
    tcp_clear_outstanding p;;
    if close_requested x && bool_decide (state x = TCP_STATE_ESTABLISHED) then
      err ← tcp_start_local_fin p;
      if err <? 0 then tcp_fail p err else mret NET_ERR_OK
    else mret NET_ERR_OK
  else mret NET_ERR_OK.

(** The ring with [payload] stored behind its bytes. *)
Definition ring_write (x : tcp_pcb_t) (payload : bytes) : bytes :=
  let tail := (recv_head x + recv_count x) mod TCP_RECV_MAX in
  let first := Z.min (TCP_RECV_MAX - tail) (len payload) in
  splice 0 (drop (Z.to_nat first) payload)
    (splice (Z.to_nat tail) (take (Z.to_nat first) payload) (recv_storage x)).

Definition tcp_queue_data (p b : nat) (header_size payload_size : Z) : M net Z :=
  if TCP_MSS <? payload_size then mret NET_ERR_SIZE
  else
    x ← load_tcp p;
    if TCP_RECV_MAX - recv_count x <? payload_size then mret NET_ERR_FULL
    else
      pk (pktbuf_reset_acc b);;
      e ← pk (pktbuf_seek (Some b) header_size);
      if e <? 0 then mret NET_ERR_SIZE
      else
        read ← pk (pktbuf_read (Some b) true payload_size);
        if read.1 <? 0 then mret NET_ERR_SIZE
        else
          store_tcp p (fun x => x <| recv_storage := ring_write x read.2 |>
            <| recv_count := recv_count x + payload_size |>);;
          when (recv_count x =? 0) (notify (recv_done x));;
          mret NET_ERR_OK.

Definition arm_time_wait_timer (p : nat) : M net Z :=
  timer_remove (time_wait_timer p);;
  zoom timer_lens (net_timer_add (Some (time_wait_timer p)) (Some time_wait_name)
    tcp_time_wait_proc_addr (Z.of_nat p) TCP_TIME_WAIT_MS 0).

Definition tcp_arm_time_wait (p : nat) : M net Z :=
  x ← load_tcp p;
  if negb (bool_decide (state x = TCP_STATE_TIME_WAIT)) then mret NET_ERR_STATE
  else
    store_tcp p (fun x => x <| peer_fin_seen := false |>);;
    notify_all (recv_waiters x) (recv_done x);;
    arm_time_wait_timer p.

(** A segment as [tcp_in] has decoded it. *)
Record segment := Segment {
  sg_seq : Z; sg_ack : Z; sg_flags : Z; sg_window : Z; sg_header_size : Z; sg_payload_size : Z }.
Definition has_flag (g : segment) (f : Z) : bool := negb (Z.land (sg_flags g) f =? 0).

(** The end of every path that takes the packet. *)
Definition tcp_consume (b : nat) : M net Z := pk (pktbuf_free (Some b));; mret NET_ERR_OK.

Definition tcp_in_time_wait (p b : nat) (g : segment) : M net Z :=
  x ← load_tcp p;
  let fin_seq := u32 (sg_seq g + sg_payload_size g) in
  if negb (has_flag g TCP_FLAG_FIN) || negb (has_flag g TCP_FLAG_ACK) || has_flag g TCP_FLAG_SYN ||
     (negb (fin_seq =? rcv_nxt x) && negb (u32 (fin_seq + 1) =? rcv_nxt x))
  then mret NET_ERR_STATE
  else
    err ← tcp_accept_ack p (sg_ack g);
    if err <? 0 then mret err
    else
      err ← tcp_send_ack p;
      if err <? 0 then mret err
      else
        err ← arm_time_wait_timer p;
        if err <? 0 then tcp_fail p err else tcp_consume b.

Definition tcp_in_syn_sent (p b : nat) (g : segment) : M net Z :=
  x ← load_tcp p;
  if negb (sg_payload_size g =? 0) then mret NET_ERR_FORMAT
  else if negb (sg_flags g =? Z.lor TCP_FLAG_SYN TCP_FLAG_ACK) ||
          (tcp_state_accept_ack TCP_STATE_SYN_SENT (sg_ack g) (iss x) <? 0)
  then mret NET_ERR_STATE
  else
    store_tcp p (fun x => x <| window := sg_window g |> <| snd_una := sg_ack g |>
      <| rcv_nxt := u32 (sg_seq g + 1) |>);;
    tcp_clear_outstanding p;;
    err ← tcp_send_ack p;
    if err <? 0 then tcp_fail p err
    else
      store_tcp p (fun x => x <| state := TCP_STATE_ESTABLISHED |>);;
      x ← load_tcp p;
      notify_some (connect_waiters x) (connect_done x);;
      tcp_consume b.

Definition tcp_in_syn_received (p b : nat) (g : segment) : M net Z :=
  x ← load_tcp p;
  if negb (sg_payload_size g =? 0) then mret NET_ERR_FORMAT
  else if (sg_flags g =? TCP_FLAG_SYN) && (u32 (sg_seq g + 1) =? rcv_nxt x) && (sg_ack g =? 0) then
    err ← tcp_output_owned p;
    if err <? 0 then tcp_fail p err else tcp_consume b
  else if negb (sg_flags g =? TCP_FLAG_ACK) || negb (sg_seq g =? rcv_nxt x) || negb (sg_ack g =? u32 (iss x + 1))
  then mret NET_ERR_STATE
  else
    tcp_clear_outstanding p;;
    store_tcp p (fun x => x <| snd_una := sg_ack g |> <| window := sg_window g |>
      <| state := TCP_STATE_ESTABLISHED |>);;
    x ← load_tcp p;
    match listener x with
    | None => tcp_fail p NET_ERR_STATE
    | Some l =>
        y ← load_tcp l;
        if release_pending y || (Z.of_nat TCP_ACCEPT_MAX <=? accept_count y) then tcp_fail p NET_ERR_STATE
        else
          let tail := (accept_head y + accept_count y) mod Z.of_nat TCP_ACCEPT_MAX in
          store_tcp l (fun y => y <| accept_queue := <[Z.to_nat tail := Some p]> (accept_queue y) |>
            <| accept_count := accept_count y + 1 |>);;
          notify (accept_done y);;
          tcp_consume b
    end.

(** The FIN of a segment that is in order. *)
Definition tcp_in_fin (p : nat) (fin_state : tcp_state_t) : M net Z :=
  err ← tcp_send_ack p;
  if err <? 0 then tcp_fail p err
  else
    match fin_state with
    | TCP_STATE_FIN_WAIT_2 =>
        store_tcp p (fun x => x <| state := TCP_STATE_TIME_WAIT |> <| peer_fin_seen := false |>);;
        err ← tcp_arm_time_wait p;
        if err <? 0 then tcp_fail p err else mret NET_ERR_OK
    | TCP_STATE_ESTABLISHED =>
        x ← load_tcp p;
        if bool_decide (listener x <> None) then
          tcp_listener_detach_child_locked p NET_ERR_STATE;; mret NET_ERR_OK
        else
          store_tcp p (fun x => x <| peer_fin_seen := true |>);;
          if bool_decide (outstanding x <> None) then
            store_tcp p (fun x => x <| close_requested := true |>);; mret NET_ERR_OK
          else
            err ← tcp_start_local_fin p;
            if err <? 0 then tcp_fail p err else mret NET_ERR_OK
    | TCP_STATE_FIN_WAIT_1 => store_tcp p (fun x => x <| peer_fin_seen := true |>);; mret NET_ERR_OK
    | _ => mret NET_ERR_OK
    end.

(** The data and the FIN of a segment of a connection. *)
Definition tcp_in_data (p b : nat) (g : segment) : M net Z :=
  x ← load_tcp p;
  err ← (if (0 <? sg_payload_size g) && (s32 (sg_seq g - rcv_nxt x) =? 0) then
           err ← tcp_queue_data p b (sg_header_size g) (sg_payload_size g);
           if err <? 0 then mret err
           else
             store_tcp p (fun x => x <| rcv_nxt := u32 (rcv_nxt x + sg_payload_size g) |>);; mret NET_ERR_OK
         else mret NET_ERR_OK);
  if err <? 0 then mret err
  else
    err ← (if 0 <? sg_payload_size g then tcp_send_ack p else mret NET_ERR_OK);
    if err <? 0 then mret err
    else
      err ← (if has_flag g TCP_FLAG_FIN then
               x ← load_tcp p;
               if u32 (sg_seq g + sg_payload_size g) =? rcv_nxt x then
                 store_tcp p (fun x => x <| rcv_nxt := u32 (rcv_nxt x + 1) |>);; tcp_in_fin p (state x)
               else if sg_payload_size g =? 0 then tcp_send_ack p
               else mret NET_ERR_OK
             else mret NET_ERR_OK);
      if err <? 0 then mret err else tcp_consume b.

Definition tcp_in_connected (p b : nat) (g : segment) : M net Z :=
  if negb (has_flag g TCP_FLAG_ACK) || has_flag g TCP_FLAG_SYN then mret NET_ERR_STATE
  else
    err ← tcp_accept_ack p (sg_ack g);
    if err <? 0 then mret err
    else
      x ← load_tcp p;
      if bool_decide (state x = TCP_STATE_TIME_WAIT) then
        err ← tcp_arm_time_wait p;
        if err <? 0 then tcp_fail p err else tcp_consume b
      else
        store_tcp p (fun x => x <| window := sg_window g |>);;
        tcp_in_data p b g.

(** The segment goes to its connection or to a listener. *)
Definition tcp_dispatch (n : nat) (src dest src_port dest_port : Z) (b : nat) (g : segment) : M net Z :=
  pcb ← tcp_find_pcb n src dest src_port dest_port;
  match pcb with
  | None =>
      l ← tcp_find_listener n dest dest_port;
      match l with
      | None => mret NET_ERR_UNREACH
      | Some l =>
          if negb (sg_payload_size g =? 0) || negb (sg_flags g =? TCP_FLAG_SYN) then mret NET_ERR_STATE
          else
            err ← tcp_passive_syn l n src src_port (sg_seq g) (sg_window g);
            when (0 <=? err) (pk (pktbuf_free (Some b)));;
            mret err
      end
  | Some p =>
      x ← load_tcp p;
      match state x with
      | TCP_STATE_TIME_WAIT => tcp_in_time_wait p b g
      | TCP_STATE_SYN_SENT => tcp_in_syn_sent p b g
      | TCP_STATE_SYN_RECEIVED => tcp_in_syn_received p b g
      | TCP_STATE_ESTABLISHED | TCP_STATE_FIN_WAIT_1 | TCP_STATE_FIN_WAIT_2 => tcp_in_connected p b g
      | TCP_STATE_CLOSED | TCP_STATE_LISTEN => mret NET_ERR_STATE
      end
  end.

Definition tcp_in (netif_ : option nat) (src dest : option Z) (buf : option nat) : M net Z :=
  match netif_, src, dest, buf with
  | Some n, Some src, Some dest, Some b =>
      total ← pk (pktbuf_total buf);
      c ← (if total <? TCP_HEADER_SIZE then mret NET_ERR_SIZE else pk (pktbuf_set_cont buf TCP_HEADER_SIZE));
      if c <? 0 then mret NET_ERR_SIZE
      else
        header ← pk (pktbuf_data buf);
        err ← tcp_header_check header total;
        if err <? 0 then mret err
        else
          h ← deref header;
          off ← hdr_load8 h th_data_offset;
          fl ← hdr_load8 h th_flags;
          let header_size := Z.shiftr off 4 * 4 in
          if negb (Z.land fl (Z.lnot (Z.lor (Z.lor TCP_FLAG_FIN TCP_FLAG_SYN)
                                            (Z.lor TCP_FLAG_PSH TCP_FLAG_ACK))) =? 0)
          then mret NET_ERR_NOT_SUPPORT
          else
            sum ← tcp_checksum b src dest (u16 total);
            if negb (sum =? 0) then mret NET_ERR_CHKSUM
            else
              sport ← hdr_load16 h th_src_port;
              dport ← hdr_load16 h th_dest_port;
              seq ← hdr_load32 h th_seq;
              ack ← hdr_load32 h th_ack;
              wnd ← hdr_load16 h th_window;
              tcp_dispatch n src dest (x_ntohs sport) (x_ntohs dport) b
                (Segment (x_ntohl seq) (x_ntohl ack) fl (x_ntohs wnd) header_size (total - header_size))
  | _, _, _, _ => mret NET_ERR_PARAM
  end.
