(* ===== verification/TcpQueue.v ===== *)
(** * The accept queue and the receive ring of TCP *)

From S2P Require Import Prelude Timer Sys Fixq TcpState Net Tcp TcpInv.
Import Pcb.

(** ** The accept queue *)

Definition accept_ok (y : tcp_pcb_t) : Prop :=
  length (accept_queue y) = TCP_ACCEPT_MAX /\ 0 <= accept_head y < Z.of_nat TCP_ACCEPT_MAX /\
  0 <= accept_count y <= Z.of_nat TCP_ACCEPT_MAX.

(** The queue has four entries: its operations are checked for every position
    of the head and every number of entries. *)
Ltac each_position :=
  repeat match goal with
  | H : 0 <= ?z < 4 |- _ => is_var z;
      let C := fresh in assert (C : z = 0 \/ z = 1 \/ z = 2 \/ z = 3) by lia; clear H;
      destruct C as [->|[->|[->| ->]]]
  | H : 0 <= ?z <= 4 |- _ => is_var z;
      let C := fresh in assert (C : z = 0 \/ z = 1 \/ z = 2 \/ z = 3 \/ z = 4) by lia; clear H;
      destruct C as [->|[->|[->|[->| ->]]]]
  end.

(** The queue as a function of its three fields. *)
Definition entries (q : list (option nat)) (h n : Z) : list (option nat) :=
  (fun i => mjoin (q !! Z.to_nat ((h + Z.of_nat i) mod 4))) <$> seq 0 (Z.to_nat n).
Lemma accept_entries y : accept_list y = entries (accept_queue y) (accept_head y) (accept_count y).
Proof. done. Qed.

Lemma entries_push q h n c :
  length q = 4%nat -> 0 <= h < 4 -> 0 <= n <= 4 -> n < 4 ->
  entries (<[Z.to_nat ((h + n) mod 4) := Some c]> q) h (n + 1) = entries q h n ++ [Some c].
Proof.
  intros Hq Hh Hn Hlt. destruct q as [|a [|b [|d [|e [|? ?]]]]]; try done.
  each_position; try lia; reflexivity.
Qed.

Lemma entries_pop q h n x l :
  length q = 4%nat -> 0 <= h < 4 -> 0 <= n <= 4 -> entries q h n = x :: l ->
  entries (<[Z.to_nat h := None]> q) ((h + 1) mod 4) (n - 1) = l /\ q !! Z.to_nat h = Some x /\ 1 <= n.
Proof.
  intros Hq Hh Hn E. destruct q as [|a [|b [|d [|e [|? ?]]]]]; try done.
  each_position; vm_compute in E; try done; injection E as -> <-; (split_and!; [reflexivity|reflexivity|lia]).
Qed.

Lemma entries_lookup q h n k :
  length q = 4%nat -> 0 <= h < 4 -> 0 <= n <= 4 -> (k < Z.to_nat n)%nat ->
  entries q h n !! k = q !! Z.to_nat ((h + Z.of_nat k) mod 4).
Proof.
  intros Hq Hh Hn Hk. unfold entries. rewrite list_lookup_fmap, lookup_seq_lt by done. cbn.
  destruct (lookup_lt_is_Some_2 q (Z.to_nat ((h + Z.of_nat k) mod 4))) as [v Hv]; [|by rewrite Hv].
  rewrite Hq. pose proof (Z.mod_pos_bound (h + Z.of_nat k) 4 ltac:(lia)). lia.
Qed.

Lemma find_queued_spec c y n i :
  match find_queued c y n i with
  | Some k => (i <= k < i + n)%nat /\
      accept_queue y !! Z.to_nat ((accept_head y + Z.of_nat k) mod Z.of_nat TCP_ACCEPT_MAX) = Some (Some c)
  | None => forall k, (i <= k < i + n)%nat ->
      accept_queue y !! Z.to_nat ((accept_head y + Z.of_nat k) mod Z.of_nat TCP_ACCEPT_MAX) <> Some (Some c)
  end.
Proof.
  revert i. induction n as [|n IH]; intros i; cbn [find_queued]; [lia|].
  case_bool_decide as Hc; [split; [lia|done]|]. specialize (IH (S i)).
  destruct (find_queued c y n (S i)) as [k|].
  - destruct IH. split; [lia|done].
  - intros k Hk. destruct (decide (k = i)) as [->|]; [done|]. apply IH. lia.
Qed.

Lemma entries_remove y q h n k :
  accept_queue y = q -> accept_head y = h -> length q = 4%nat -> 0 <= h < 4 -> 0 <= n <= 4 -> (k < Z.to_nat n)%nat ->
  entries (<[Z.to_nat ((h + n - 1) mod 4) := None]> (shift_queued y (Z.to_nat (n - 1) - k) k q)) h (n - 1) =
  delete k (entries q h n).
Proof.
  intros Eq Eh Hq Hh Hn Hk. destruct q as [|a [|b [|d [|e [|? ?]]]]]; try done.
  destruct y. cbn in Eq, Eh. subst.
  each_position; try lia; (destruct k as [|[|[|[|k]]]]; [..|lia]); try lia; reflexivity.
Qed.
Lemma length_shift_queued y n i q : length (shift_queued y n i q) = length q.
Proof. revert i q. induction n as [|n IH]; intros i q; cbn [shift_queued]; [done|]. by rewrite IH, length_insert. Qed.

Lemma fmap_delete {A B} (f : A -> B) k (l : list A) : f <$> delete k l = delete k (f <$> l).
Proof. revert k. induction l as [|x l IH]; intros [|k]; try done. cbn. f_equal. apply IH. Qed.

(** [tcp_listener_remove_queued_locked] as a function. *)
Definition remove_queued (c : nat) (y : tcp_pcb_t) : tcp_pcb_t :=
  match find_queued c y (Z.to_nat (accept_count y)) 0 with
  | None => y
  | Some found =>
      y <| accept_queue :=
        <[Z.to_nat ((accept_head y + accept_count y - 1) mod Z.of_nat TCP_ACCEPT_MAX) := None]>
          (shift_queued y (Z.to_nat (accept_count y - 1) - found) found (accept_queue y)) |>
        <| accept_count := accept_count y - 1 |>
  end.

Lemma delete_filter {A} (k : nat) (c : A) cs `{!EqDecision A} :
  NoDup cs -> cs !! k = Some c -> delete k cs = filter (fun d => d <> c) cs.
Proof.
  revert k. induction cs as [|x cs IH]; intros [|k] Hnd Hk; try done; apply NoDup_cons in Hnd as [Hx Hnd].
  - injection Hk as ->. cbn [delete list_delete]. rewrite filter_cons_False by (by intros []).
    symmetry. apply list_filter_id, Forall_forall. by intros d Hd ->.
  - cbn [lookup list_lookup] in Hk. cbn [delete list_delete]. rewrite filter_cons_True.
    + f_equal. by apply IH.
    + intros ->. apply Hx. by eapply list_elem_of_lookup_2.
Qed.

Lemma remove_queued_list c y cs :
  accept_ok y -> accept_list y = Some <$> cs -> NoDup cs ->
  accept_list (remove_queued c y) = Some <$> filter (fun d => d <> c) cs.
Proof.
  intros (Hq & Hh & Hn) E Hnd. unfold remove_queued.
  pose proof (find_queued_spec c y (Z.to_nat (accept_count y)) 0) as Hf.
  destruct (find_queued c y _ 0) as [k|].
  - destruct Hf as [Hk Hc]. assert (Ek : accept_list y !! k = Some (Some c)).
    { rewrite accept_entries, entries_lookup by (done || lia). done. }
    rewrite E in Ek. rewrite list_lookup_fmap in Ek. destruct (cs !! k) as [c'|] eqn:Ec; [|done]. cbn in Ek. injection Ek as ->.
    rewrite <- (delete_filter k) by done. rewrite fmap_delete, <- E.
    exact (entries_remove y _ _ _ k eq_refl eq_refl Hq Hh Hn ltac:(lia)).
  - rewrite E. f_equal. symmetry. apply list_filter_id, Forall_lookup. intros k d Hd ->.
    assert (Hk : (k < Z.to_nat (accept_count y))%nat).
    { apply lookup_lt_Some in Hd. apply (f_equal length) in E. unfold accept_list in E.
      rewrite !length_fmap, length_seq in E. lia. }
    apply (Hf k); [lia|]. assert (El : accept_list y !! k = Some (Some c)) by (by rewrite E, list_lookup_fmap, Hd).
    rewrite accept_entries, entries_lookup in El by (done || lia). done.
Qed.

Lemma remove_queued_ok c y : accept_ok y -> accept_ok (remove_queued c y).
Proof.
  intros (Hq & Hh & Hn). unfold remove_queued.
  pose proof (find_queued_spec c y (Z.to_nat (accept_count y)) 0) as Hf.
  destruct (find_queued c y _ 0) as [k|]; [|done]. unfold accept_ok. cbn.
  rewrite length_insert, length_shift_queued. unfold TCP_ACCEPT_MAX in *. destruct Hf. split_and!; [done|lia..].
Qed.

(** ** The receive ring *)

Section ring.
Context {A : Type}.
Implicit Types (st v : list A).

Lemma lookup_splice st v i j :
  (i + length v <= length st)%nat ->
  splice i v st !! j = if decide (i <= j < i + length v)%nat then v !! (j - i)%nat else st !! j.
Proof.
  intros Hl. unfold splice. destruct (decide (j < i)%nat).
  - rewrite lookup_app_l by (rewrite length_take; lia). rewrite lookup_take_lt by done. by rewrite decide_False by lia.
  - rewrite lookup_app_r by (rewrite length_take; lia). rewrite length_take, Nat.min_l by lia.
    destruct (decide (j < i + length v)%nat).
    + rewrite lookup_app_l by lia. by rewrite decide_True by lia.
    + rewrite lookup_app_r, lookup_drop by lia. rewrite decide_False by lia. f_equal. lia.
Qed.

(** The [c] bytes from position [h] on. *)
Definition ring_of st (h c : nat) : list A := take c (drop h (st ++ st)).

Lemma length_ring_of st h c : (h <= length st)%nat -> (c <= length st)%nat -> length (ring_of st h c) = c.
Proof. intros. unfold ring_of. rewrite length_take, length_drop, length_app. lia. Qed.

Lemma lookup_ring_of st h c i :
  (h < length st)%nat -> (c <= length st)%nat ->
  ring_of st h c !! i =
  if decide (i < c)%nat then st !! (if decide (h + i < length st)%nat then h + i else h + i - length st)%nat else None.
Proof.
  intros Hh Hc. unfold ring_of. destruct (decide (i < c)%nat).
  - rewrite lookup_take_lt, lookup_drop by done. case_decide; [by rewrite lookup_app_l|]. by rewrite lookup_app_r by lia.
  - apply lookup_take_ge. lia.
Qed.

Lemma ring_advance st h c k :
  (h < length st)%nat -> (k <= c)%nat -> (c <= length st)%nat ->
  ring_of st (if decide (h + k < length st)%nat then h + k else h + k - length st)%nat (c - k) = drop k (ring_of st h c).
Proof.
  intros Hh Hk Hc. apply list_eq. intros i. rewrite lookup_drop, !lookup_ring_of by (repeat case_decide; lia).
  repeat case_decide; try lia; f_equal; lia.
Qed.

Lemma ring_store st h c v :
  (h < length st)%nat -> (c + length v <= length st)%nat ->
  let tail := (if decide (h + c < length st)%nat then h + c else h + c - length st)%nat in
  let first := Nat.min (length st - tail) (length v) in
  ring_of (splice 0 (drop first v) (splice tail (take first v) st)) h (c + length v) = ring_of st h c ++ v.
Proof.
  intros Hh Hc tail first.
  assert (Ht : (tail <= length st)%nat) by (unfold tail; case_decide; lia).
  assert (L1 : length (splice tail (take first v) st) = length st).
  { apply length_splice. rewrite length_take. unfold first. lia. }
  assert (L2 : length (splice 0 (drop first v) (splice tail (take first v) st)) = length st).
  { rewrite length_splice; rewrite L1; [done|]. rewrite length_drop. lia. }
  apply list_eq. intros i. rewrite lookup_ring_of by lia. rewrite L2.
  rewrite !lookup_splice by (rewrite ?L1, ?length_drop, ?length_take; unfold first; lia).
  rewrite length_drop, length_take.
  destruct (decide (i < c)%nat).
  - rewrite lookup_app_l by (rewrite length_ring_of; lia). rewrite lookup_ring_of by lia.
    unfold first, tail in *. repeat case_decide; try lia; done.
  - rewrite lookup_app_r by (rewrite length_ring_of; lia). rewrite length_ring_of by lia.
    destruct (decide (i < c + length v)%nat); [|symmetry; apply lookup_ge_None; lia].
    unfold first, tail in *. repeat case_decide; try lia.
    all: rewrite ?lookup_drop; try (rewrite lookup_take_lt by lia); f_equal; lia.
Qed.
End ring.

(** The bytes that were received and not yet read. *)
Definition received (x : tcp_pcb_t) : bytes :=
  ring_of (recv_storage x) (Z.to_nat (recv_head x)) (Z.to_nat (recv_count x)).

Section received.
Context {x : tcp_pcb_t} (Hst : length (recv_storage x) = Z.to_nat TCP_RECV_MAX).
Context (Hh : 0 <= recv_head x < TCP_RECV_MAX) (Hc : 0 <= recv_count x <= TCP_RECV_MAX).

Lemma ring_index a b :
  0 <= a < TCP_RECV_MAX -> 0 <= b <= TCP_RECV_MAX ->
  Z.to_nat ((a + b) mod TCP_RECV_MAX) =
  (if decide (Z.to_nat a + Z.to_nat b < length (recv_storage x))%nat then Z.to_nat a + Z.to_nat b
   else Z.to_nat a + Z.to_nat b - length (recv_storage x))%nat.
Proof using Hst.
  intros Ha Hb. rewrite Hst. unfold TCP_RECV_MAX in *. case_decide.
  - rewrite Z.mod_small by lia. lia.
  - rewrite <- (Z.mod_unique (a + b) 2048 1 (a + b - 2048)) by lia. lia.
Qed.

Lemma len_received : len (received x) = recv_count x.
Proof using All. unfold received. rewrite length_ring_of; unfold TCP_RECV_MAX in *; lia. Qed.

Lemma ring_read_received k : 0 <= k <= recv_count x -> ring_read x k = take (Z.to_nat k) (received x).
Proof using All.
  intros Hk. unfold ring_read, received, ring_of. rewrite take_take, Nat.min_l by lia.
  rewrite drop_app_le by (unfold TCP_RECV_MAX in *; lia). rewrite take_app, length_drop, Hst.
  unfold TCP_RECV_MAX in *. destruct (decide (k <= 2048 - recv_head x)).
  - rewrite Z.min_r by lia. rewrite Z.sub_diag. f_equal. by replace (Z.to_nat k - _)%nat with 0%nat by lia.
  - rewrite Z.min_l by lia. f_equal; [|f_equal; lia].
    rewrite !take_ge; [done|rewrite length_drop; lia..].
Qed.

Lemma received_read k :
  0 <= k <= recv_count x ->
  received (x <| recv_head := (recv_head x + k) mod TCP_RECV_MAX |> <| recv_count := recv_count x - k |>) =
  drop (Z.to_nat k) (received x).
Proof using All.
  intros Hk. unfold received. cbn [upd_field recv_storage recv_head recv_count].
  rewrite (ring_index (recv_head x) k) by (unfold TCP_RECV_MAX in *; lia). rewrite Z2Nat.inj_sub by lia.
  apply ring_advance; unfold TCP_RECV_MAX in *; lia.
Qed.

Lemma received_write v :
  recv_count x + len v <= TCP_RECV_MAX ->
  received (x <| recv_storage := ring_write x v |> <| recv_count := recv_count x + len v |>) = received x ++ v.
Proof using All.
  intros Hv. unfold received, ring_write. cbn [upd_field recv_storage recv_head recv_count].
  rewrite <- (ring_store (recv_storage x) (Z.to_nat (recv_head x)) (Z.to_nat (recv_count x)) v) by
    (unfold TCP_RECV_MAX in *; lia).
  rewrite ring_index by done. rewrite Z2Nat.inj_add, Nat2Z.id by lia. 
  assert (E : Z.to_nat (Z.min (TCP_RECV_MAX - (recv_head x + recv_count x) mod TCP_RECV_MAX) (len v)) =
    Nat.min (length (recv_storage x) - Z.to_nat ((recv_head x + recv_count x) mod TCP_RECV_MAX)) (length v)).
  { rewrite Hst. pose proof (Z.mod_pos_bound (recv_head x + recv_count x) TCP_RECV_MAX ltac:(done)). lia. }
  rewrite E, ring_index by done. done.
Qed.

Lemma length_ring_write v : recv_count x + len v <= TCP_RECV_MAX -> length (ring_write x v) = Z.to_nat TCP_RECV_MAX.
Proof using All.
  intros Hv. unfold ring_write. pose proof (Z.mod_pos_bound (recv_head x + recv_count x) TCP_RECV_MAX ltac:(done)).
  rewrite !length_splice; rewrite ?length_splice; rewrite ?length_take, ?length_drop; unfold TCP_RECV_MAX in *; lia.
Qed.
Lemma are_bytes_ring_write v : are_bytes v -> are_bytes (recv_storage x) -> are_bytes (ring_write x v).
Proof using Type.
  intros Hv Hs. unfold ring_write. apply Forall_splice; [by apply Forall_drop|].
  apply Forall_splice; [by apply Forall_take|done].
Qed.
End received.
