(* ===== verification/Input.v ===== *)
(** * Receiving: Ethernet and IPv4 input (net/ether.c, net/ipv4.c)

    The input functions call the registered handlers.  [tcp_in], the handler
    of tcp.c, is a parameter. *)

From S2P Require Import Prelude Tools IpAddr Mblock Pktbuf Net Netif Ether Arp NetifLink Ipv4.
From S2P Require Import Icmp Udp.

Section input.
Context (tcp_in : option nat -> option Z -> option Z -> option nat -> M net Z).

Definition call_ipv4_handler (h : ipv4_input) (n : nat) (src dest : Z) (b : nat) : M net Z :=
  match h with
  | Icmpv4In => icmpv4_in (Some n) (Some src) (Some dest) (Some b)
  | UdpIn => udp_in (Some n) (Some src) (Some dest) (Some b)
  | TcpIn => tcp_in (Some n) (Some src) (Some dest) (Some b)
  end.

(** From the checks of the length on; [h] is the header. *)
Definition ipv4_accept (n b : nat) (total_size header_size : Z) (h : nat * Z) : M net Z :=
  tl ← hdr_load16 h ip_total_len;
  let packet_size := x_ntohs tl in
  if (packet_size <? u16 header_size) || (total_size <? packet_size) then mret NET_ERR_SIZE
  else
    e ← pk (pktbuf_resize (Some b) packet_size);
    if negb (e =? NET_ERR_OK) then mret NET_ERR_SIZE
    else
      pk (pktbuf_reset_acc b);;
      sum ← pk (pktbuf_checksum16 (Some b) header_size 0 true);
      if negb (sum =? 0) then mret NET_ERR_CHKSUM
      else
        frag ← hdr_load16 h ip_frag_off;
        if negb (Z.land (x_ntohs frag) 0x3fff =? 0) then mret NET_ERR_NOT_SUPPORT
        else
          src_ip ← hdr_load h ip_src (Z.of_nat IPV4_ADDR_SIZE);
          dest_ip ← hdr_load h ip_dest (Z.of_nat IPV4_ADDR_SIZE);
          let src := ipaddr_from_buf src_ip in
          let dest := ipaddr_from_buf dest_ip in
          i ← load_netif n;
          if negb (ipaddr_is_match (Some dest) (Some (ipaddr i)) (Some (netmask i)))
          then mret NET_ERR_UNREACH
          else
            protocol ← hdr_load8 h ip_protocol;
            handler ← ipv4_find_handler protocol;
            match handler with
            | None => mret NET_ERR_NOT_SUPPORT
            | Some handler =>
                e ← pk (pktbuf_remove_header (Some b) header_size);
                if negb (e =? NET_ERR_OK) then mret NET_ERR_SIZE
                else
                  pk (pktbuf_reset_acc b);;
                  call_ipv4_handler handler n src dest b
            end.

Definition ipv4_in (netif buf : option nat) : M net Z :=
  match netif, buf with
  | Some n, Some b =>
      total_size ← pk (pktbuf_total (Some b));
      if total_size <? IPV4_HEADER_MIN then mret NET_ERR_SIZE
      else
        c ← pk (pktbuf_set_cont (Some b) IPV4_HEADER_MIN);
        if negb (c =? NET_ERR_OK) then mret NET_ERR_SIZE
        else
          header ← pk (pktbuf_data (Some b));
          match header with
          | None => mret NET_ERR_SIZE
          | Some h =>
              vi ← hdr_load8 h ip_version_ihl;
              let version := u8 (Z.shiftr vi 4) in
              let header_size := Z.land vi 0x0f * 4 in
              if negb (version =? NET_VERSION_IPV4) || (header_size <? IPV4_HEADER_MIN) ||
                 (IPV4_HEADER_MAX <? header_size) || (total_size <? header_size)
              then mret NET_ERR_FORMAT
              else
                c ← (if IPV4_HEADER_MIN <? header_size
                     then pk (pktbuf_set_cont (Some b) header_size) else mret NET_ERR_OK);
                if negb (c =? NET_ERR_OK) then mret NET_ERR_SIZE
                else
                  header ← pk (pktbuf_data (Some b));
                  match header with
                  | None => mret NET_ERR_SIZE
                  | Some h => ipv4_accept n b total_size header_size h
                  end
          end
  | _, _ => mret NET_ERR_PARAM
  end.

Definition call_ether_handler (h : ether_input) (n b : nat) : M net Z :=
  match h with
  | ArpIn => arp_in (Some n) (Some b)
  | Ipv4In => ipv4_in (Some n) (Some b)
  end.

Definition ether_in (netif packet : option nat) : M net Z :=
  match netif, packet with
  | Some n, Some b =>
      total_size ← pk (pktbuf_total (Some b));
      if (total_size <? ETH_FRAME_MIN) || (ETH_FRAME_MAX <? total_size) then mret NET_ERR_SIZE
      else
        c ← pk (pktbuf_set_cont (Some b) sizeof_ether_hdr_t);
        if negb (c =? NET_ERR_OK) then mret NET_ERR_SIZE
        else
          header ← pk (pktbuf_data (Some b));
          match header with
          | None => mret NET_ERR_SIZE
          | Some h =>
              dest ← hdr_load h ether_dest (Z.of_nat ETH_HWA_SIZE);
              i ← load_netif n;
              if (Z.of_nat ETH_HWA_SIZE <=? hw_len (hwaddr i)) &&
                 negb (bool_decide (dest = take ETH_HWA_SIZE (hw_addr (hwaddr i)))) &&
                 negb (ether_is_broadcast dest)
              then mret NET_ERR_UNREACH
              else
                p ← hdr_load16 h ether_protocol;
                entry ← ether_find_handler (x_ntohs p);
                e ← pk (pktbuf_remove_header (Some b) sizeof_ether_hdr_t);
                if negb (e =? NET_ERR_OK) then mret NET_ERR_SIZE
                else
                  pk (pktbuf_reset_acc b);;
                  match entry with
                  | None => mret NET_ERR_NOT_SUPPORT
                  | Some handler => call_ether_handler handler n b
                  end
          end
  | _, _ => mret NET_ERR_PARAM
  end.

Definition ether_link_in (netif buf : option nat) : M net Z := ether_in netif buf.
Definition call_link_in (l : link) (n b : nat) : M net Z :=
  match l with EtherLink => ether_link_in (Some n) (Some b) end.

End input.
