(* ===== verification/Owner.v ===== *)
(** * Who owns a packet

    A packet of the pool is referred to by the places of the stack that store
    packets (the queues of the interfaces, the lists of packets that wait for
    an ARP reply, the records of received datagrams, the segments that wait for
    an acknowledgement) and by the functions that
    hold it in a variable.  The accounting invariant [acct]: a packet is in at
    most one place, and its reference count is the number of variables that
    own it, plus one if it is in a place.  [core] is the invariant of the
    stack: the pool is well formed, the accounting holds, and every queue in
    use is well formed with semaphores of its own. *)

From Stdlib Require Import Permutation.
From S2P Require Import Prelude Tools IpAddr Mblock Pktbuf PktbufSpec PktbufChain PktbufOps.
From S2P Require Import PktbufFrame Sys Fixq TcpState Net.

(** ** Accounting *)

(** How often [b] is in [o]. *)
Definition cnt (b : nat) (o : list nat) : Z := Z.of_nat (count_occ Nat.eq_dec o b).

Lemma cnt_cons b c o : cnt b (c :: o) = cnt b o + (if decide (c = b) then 1 else 0).
Proof. unfold cnt. cbn. destruct (Nat.eq_dec c b), (decide (c = b)); try done; lia. Qed.

Lemma cnt_perm b o o' : o ≡ₚ o' -> cnt b o = cnt b o'.
Proof. intros Hp. unfold cnt. by rewrite (proj1 (Permutation_count_occ Nat.eq_dec o o') Hp b). Qed.

Lemma cnt_elem b o : b ∈ o -> 0 < cnt b o.
Proof. intros Hb. apply list_elem_of_In, (count_occ_In Nat.eq_dec) in Hb. unfold cnt. lia. Qed.

Lemma cnt_pos b o : 0 <= cnt b o.
Proof. unfold cnt. lia. Qed.

Section acct.
Context {P : Type} `{!EqDecision P}.
Implicit Types (R : nat -> Z) (H : P -> list nat) (o : list nat).

(** [b] is in no place. *)
Definition unplaced H (b : nat) : Prop := forall pl, b ∉ H pl.

Definition acct R H o : Prop :=
  (forall pl, NoDup (H pl)) /\
  (forall b pl pl', b ∈ H pl -> b ∈ H pl' -> pl = pl') /\
  forall b, (R b = cnt b o + 1 /\ exists pl, b ∈ H pl) \/ (R b = cnt b o /\ unplaced H b).

Lemma acct_ext R R' H H' o o' :
  acct R H o -> (forall b, R' b = R b) -> (forall pl, H' pl = H pl) -> o ≡ₚ o' -> acct R' H' o'.
Proof.
  intros (Hnd & Huq & Hc) HR HH Ho. split_and!.
  - intros pl. by rewrite HH.
  - intros b pl pl'. rewrite !HH. apply Huq.
  - intros b. rewrite HR, <- (cnt_perm b _ _ Ho). unfold unplaced. setoid_rewrite HH. apply Hc.
Qed.

(** A packet goes from a variable to a place. *)
Lemma acct_put R H H' o b pl :
  acct R H (b :: o) -> unplaced H b -> H' pl = H pl ++ [b] ->
  (forall pl', pl' <> pl -> H' pl' = H pl') -> acct R H' o.
Proof.
  intros (Hnd & Huq & Hc) Hb Hpl Hoth.
  assert (Hin : forall c pl', c ∈ H' pl' <-> c ∈ H pl' \/ (c = b /\ pl' = pl)).
  { intros c pl'. destruct (decide (pl' = pl)) as [->|Hne].
    - rewrite Hpl, elem_of_app, list_elem_of_singleton. tauto.
    - rewrite Hoth by done. tauto. }
  split_and!.
  - intros pl'. destruct (decide (pl' = pl)) as [->|Hne]; [|by rewrite Hoth].
    rewrite Hpl. apply NoDup_app. split_and!; [done| |apply NoDup_singleton].
    intros c Hc1 ->%list_elem_of_singleton. by apply (Hb pl).
  - intros c p1 p2. rewrite !Hin. intros [H1|[-> ->]] [H2|[? ->]]; try done; subst.
    + eauto.
    + by destruct (Hb p1).
    + by destruct (Hb p2).
  - intros c. specialize (Hc c). rewrite cnt_cons in Hc. destruct (decide (b = c)) as [<-|Hne].
    + left. destruct Hc as [[_ (p & Hp)]|[-> _]]; [by destruct (Hb p)|]. split; [lia|].
      exists pl. rewrite Hin. by right.
    + rewrite Z.add_0_r in Hc. destruct Hc as [[-> (p & Hp)]|[-> Hu]]; [left|right]; split; try done.
      * exists p. rewrite Hin. by left.
      * intros p. rewrite Hin. intros [Hp|[-> _]]; [by apply (Hu p)|done].
Qed.

(** A packet goes from a place to a variable. *)
Lemma acct_take R H H' o b l pl :
  acct R H o -> H pl = b :: l -> H' pl = l ->
  (forall pl', pl' <> pl -> H' pl' = H pl') -> acct R H' (b :: o) /\ unplaced H' b.
Proof.
  intros (Hnd & Huq & Hc) Hpl Hpl' Hoth.
  pose proof (Hnd pl) as Hnb. rewrite Hpl in Hnb. apply NoDup_cons in Hnb as [Hbl Hndl].
  assert (Hb : b ∈ H pl) by (rewrite Hpl; set_solver).
  assert (Hin : forall c p, c ∈ H' p <-> c ∈ H p /\ c <> b).
  { intros c p. destruct (decide (p = pl)) as [->|Hne].
    - rewrite Hpl, Hpl', elem_of_cons. split; [|tauto]. intros Hc'. split; [tauto|congruence].
    - rewrite Hoth by done. split; [|tauto]. intros Hp. split; [done|]. intros ->.
      by destruct Hne; eapply Huq. }
  assert (Hu : unplaced H' b) by (intros p; rewrite Hin; tauto).
  split; [|done]. split_and!.
  - intros p. destruct (decide (p = pl)) as [->|Hne]; [by rewrite Hpl'|by rewrite Hoth].
  - intros c p1 p2. rewrite !Hin. intros [H1 _] [H2 _]. eauto.
  - intros c. specialize (Hc c). rewrite cnt_cons. destruct (decide (b = c)) as [<-|Hne].
    + right. destruct Hc as [[-> _]|[_ Hu']]; [done|by destruct (Hu' pl)].
    + rewrite Z.add_0_r. destruct Hc as [[-> (p & Hp)]|[-> Hu']]; [left|right]; split; try done.
      * exists p. rewrite Hin. naive_solver.
      * intros p. rewrite Hin. intros [Hp _]. by apply (Hu' p).
Qed.

(** A reference is added for a variable, or a variable gives its up. *)
Lemma acct_ref R R' H o b :
  R' b = R b + 1 -> (forall c, c <> b -> R' c = R c) -> acct R H o <-> acct R' H (b :: o).
Proof.
  intros Hb Hoth. split; intros (Hnd & Huq & Hc); (split_and!; [done..|]).
  all: intros c; specialize (Hc c); rewrite cnt_cons in *; destruct (decide (b = c)) as [<-|Hne].
  all: try rewrite (Hoth c) in * by done.
  all: destruct Hc as [[Hr Hp]|[Hr Hu]]; [left|right]; split; try done; lia.
Qed.

Lemma acct_pos R H o b : acct R H o -> b ∈ o \/ (exists pl, b ∈ H pl) -> 0 < R b.
Proof.
  intros (_ & _ & Hc) Hb. pose proof (cnt_pos b o). destruct (Hc b) as [[-> _]|[-> Hu]]; [lia|].
  destruct Hb as [Hb%cnt_elem|(pl & Hpl)]; [lia|by destruct (Hu pl)].
Qed.
End acct.

(** ** Reference counts *)

Definition refs (k : pkt_state) (b : nat) : Z :=
  match pktbuf_buffer k !! b with
  | Some p => if bool_decide (b ∈ free_list (pktbuf_list k)) then 0 else ref p
  | None => 0
  end.

Lemma refs_live k b p : live k b p -> refs k b = ref p.
Proof. intros [Hp Hf]. unfold refs. by rewrite Hp, bool_decide_eq_false_2. Qed.

Lemma refs_view k b bs n r : has_view k b (View bs n r) -> refs k b = r.
Proof. intros (p & Hp & [= _ _ ->]). by apply refs_live. Qed.

Lemma refs_dead k b : (forall p, ~ live k b p) -> refs k b = 0.
Proof.
  intros Hd. unfold refs. destruct (pktbuf_buffer k !! b) as [p|] eqn:Hp; [|done].
  case_bool_decide; [done|]. by destruct (Hd p).
Qed.

Lemma refs_pos k b : 0 < refs k b -> exists bs n, has_view k b (View bs n (refs k b)).
Proof.
  unfold refs. destruct (pktbuf_buffer k !! b) as [p|] eqn:Hp; [|done].
  case_bool_decide; [done|]. intros _. eexists _, _, p. by split.
Qed.

Lemma refs_kept bs k k' b : views_kept bs k k' -> b ∉ bs -> refs k' b = refs k b.
Proof.
  intros Hk Hb. unfold refs at 2. destruct (pktbuf_buffer k !! b) as [p|] eqn:Hp.
  1: case_bool_decide as Hf.
  2: { apply refs_live. apply (Hk b p Hb). by split. }
  all: apply refs_dead; intros q Hq; apply (Hk b q Hb) in Hq as [Hq Hf']; congruence.
Qed.

Lemma refs_post k b k' bs n r bs' n' :
  has_view k b (View bs n r) -> post k b k' bs' n' r -> forall c, refs k' c = refs k c.
Proof.
  intros Hv (_ & Hv' & Hk) c. destruct (decide (c = b)) as [->|Hne].
  - by rewrite (refs_view _ _ _ _ _ Hv), (refs_view _ _ _ _ _ Hv').
  - eapply refs_kept; [exact Hk|set_solver].
Qed.

(** ** The places that store packets *)

(** The messages in a queue, the oldest first. *)
Definition q_list {A} (q : fixq_t A) : list A :=
  omap (fun k => mjoin (buf q !! Z.to_nat ((out q + Z.of_nat k) mod size q)))
       (seq 0 (Z.to_nat (count q))).
Definition q_sems {A} (q : fixq_t A) : list nat :=
  option_list (send_sem q) ++ option_list (recv_sem q).
Definition queue_ok {A} (y : sys_state) (q : fixq_t A) : Prop := fixq_ok y q (q_sems q) (q_list q).

Lemma omap_seq {A} (f : nat -> option A) (l : list A) n :
  (forall k x, l !! k = Some x -> f (n + k)%nat = Some x) -> omap f (seq n (length l)) = l.
Proof.
  revert n. induction l as [|x l IH]; intros n Hf; [done|]. cbn.
  pose proof (Hf 0%nat x eq_refl) as E. rewrite Nat.add_0_r in E. rewrite E. f_equal.
  apply IH. intros k y Hk. rewrite Nat.add_succ_comm. by apply Hf.
Qed.

Lemma ring_list {A} (q : fixq_t A) l : ring_ok q l -> q_list q = l.
Proof.
  intros (_ & _ & _ & _ & Hc & _ & Hget). unfold q_list. rewrite Hc, Nat2Z.id.
  apply omap_seq. intros k x Hk. change (0 + k)%nat with k. by rewrite (Hget k x Hk).
Qed.

Lemma fixq_ok_queue {A} y (q : fixq_t A) own l :
  fixq_ok y q own l -> queue_ok y q /\ q_sems q = own /\ q_list q = l.
Proof.
  intros Hq. pose proof Hq as (Hr & i & j & rc & -> & _ & Hi & Hj & _).
  assert (E1 : q_list q = l) by (by apply ring_list).
  assert (E2 : q_sems q = [i; j]) by (unfold q_sems; by rewrite Hi, Hj).
  unfold queue_ok. by rewrite E1, E2.
Qed.

Inductive place :=
| InQueue (n : nat)        (* [in_q] of an interface *)
| OutQueue (n : nat)       (* [out_q] of an interface *)
| Waiting (e : nat)        (* [buf_list] of an ARP entry *)
| Stored (i j : nat)       (* [recv_records[i][j]] *)
| Unacked (p : nat).       (* [outstanding] of a TCP control block *)
#[global] Instance place_eq : EqDecision place.
Proof. solve_decision. Defined.

Definition record_buf (s : net) (i j : nat) : option nat :=
  row ← recv_records s !! i; r ← row !! j; rec_buf r.

Definition holds (s : net) (pl : place) : list nat :=
  match pl with
  | InQueue n => from_option (fun i => q_list (in_q i)) [] (netif_buffer s !! n)
  | OutQueue n => from_option (fun i => q_list (out_q i)) [] (netif_buffer s !! n)
  | Waiting e => from_option buf_list [] (cache_entries s !! e)
  | Stored i j => option_list (record_buf s i j)
  | Unacked p => from_option (fun x => option_list (Pcb.outstanding x)) [] (pcb_storage (tcp s) !! p)
  end.

Abbreviation loose s b := (unplaced (holds s) b).

(** The semaphores in use, by the object that uses them. *)
Inductive sem_user :=
| UIn (n : nat) | UOut (n : nat) | URecv (p : nat) | UClose (p : nat) | UTcp (p : nat).
#[global] Instance sem_user_eq : EqDecision sem_user.
Proof. solve_decision. Defined.

Definition opened (i : netif_t) : bool := negb (bool_decide (state i = NETIF_CLOSED)).

Definition tcp_sems (x : Pcb.tcp_pcb_t) : list nat :=
  option_list (Pcb.connect_done x) ++ option_list (Pcb.recv_done x) ++
  option_list (Pcb.close_done x) ++ option_list (Pcb.accept_done x).

Definition sems_at (s : net) (u : sem_user) : list nat :=
  match u with
  | UIn n => from_option (fun i => if opened i then q_sems (in_q i) else []) [] (netif_buffer s !! n)
  | UOut n => from_option (fun i => if opened i then q_sems (out_q i) else []) [] (netif_buffer s !! n)
  | URecv p => if bool_decide (Some p ∈ pcbs s)
               then from_option (fun x => q_sems (recv_queue x)) [] (udp_pcbs s !! p) else []
  | UClose p => if bool_decide (Some p ∈ pcbs s)
                then from_option (fun x => option_list (close_done x)) [] (udp_pcbs s !! p) else []
  | UTcp p => from_option tcp_sems [] (pcb_storage (tcp s) !! p)
  end.

Definition netif_ok (y : sys_state) (i : netif_t) : Prop :=
  len (hw_addr (hwaddr i)) = NETIF_HWADDR_SIZE /\ are_bytes (hw_addr (hwaddr i)) /\
  (opened i = true -> queue_ok y (in_q i) /\ queue_ok y (out_q i)).

(** The invariant, for callers that hold [o]. *)
Record core (o : list nat) (s : net) : Prop := {
  core_wf : pkt_wf (pkt s);
  core_acct : acct (refs (pkt s)) (holds s) o;
  core_netif : forall n i, netif_buffer s !! n = Some i -> netif_ok (sys s) i;
  core_recv : forall p x, Some p ∈ pcbs s -> udp_pcbs s !! p = Some x -> queue_ok (sys s) (recv_queue x);
  core_sems : forall u u', u <> u' -> sems_at s u ## sems_at s u';
  core_used : forall u k, k ∈ sems_at s u -> sem_live (sys s) k }.

(** ** What a call leaves alone *)

(** The state without the packets, the semaphores, the contents of the
    interfaces' queues and the device. *)
Definition no_packets : pkt_state := PktState ∅ (MBlock []) ∅ (MBlock []).
Definition no_queue : fixq_t nat := Fixq 0 [] 0 0 0 None None.
Definition face (i : netif_t) : netif_t := i <| in_q := no_queue |> <| out_q := no_queue |>.
Definition outside (s : net) : net :=
  s <| pkt := no_packets |> <| sys := SysState [] [] |> <| netif_buffer := face <$> netif_buffer s |>
    <| tx_frames := [] |> <| tx_results := [] |>.

(** The packets outside [bs] that are in no place keep their record, their
    blocks, and stay out of the places. *)
Definition spared (bs : list nat) (s s' : net) : Prop :=
  forall c p, c ∉ bs -> loose s c -> live (pkt s) c p ->
    loose s' c /\ live (pkt s') c p /\
    agree (blk_list p) (block_buffer (pkt s)) (block_buffer (pkt s')).

Definition near (bs : list nat) (s s' : net) : Prop := outside s' = outside s /\ spared bs s s'.

(** Only packets change. *)
Definition calm (bs : list nat) (s s' : net) : Prop := spared bs s s' /\ s' = s <| pkt := pkt s' |>.

#[global] Instance spared_refl bs : Reflexive (spared bs).
Proof. intros s c p. done. Qed.
#[global] Instance spared_trans bs : Transitive (spared bs).
Proof.
  intros s1 s2 s3 H1 H2 c p Hc Hl Hp. destruct (H1 c p Hc Hl Hp) as (Hl2 & Hp2 & Ha2).
  destruct (H2 c p Hc Hl2 Hp2) as (Hl3 & Hp3 & Ha3). split_and!; [done..|].
  intros i Hi. by rewrite Ha3, Ha2.
Qed.
#[global] Instance near_refl bs : Reflexive (near bs).
Proof. by split. Qed.
#[global] Instance near_trans bs : Transitive (near bs).
Proof. intros s1 s2 s3 [E1 H1] [E2 H2]. split; [by rewrite E2|by transitivity s2]. Qed.
#[global] Instance calm_refl bs : Reflexive (calm bs).
Proof. intros s. split; [done|by destruct s]. Qed.
#[global] Instance calm_trans bs : Transitive (calm bs).
Proof.
  intros s1 s2 s3 [H1 E1] [H2 E2]. split; [by transitivity s2|]. rewrite E2, E1. by destruct s1.
Qed.

Lemma spared_mono bs bs' s s' : bs ⊆ bs' -> spared bs s s' -> spared bs' s s'.
Proof. intros Hs H c p Hc. apply H. set_solver. Qed.

Lemma near_mono bs bs' s s' : bs ⊆ bs' -> near bs s s' -> near bs' s s'.
Proof. intros Hs [E H]. split; [done|by eapply spared_mono]. Qed.

Lemma calm_mono bs bs' s s' : bs ⊆ bs' -> calm bs s s' -> calm bs' s s'.
Proof. intros Hs [H E]. split; [by eapply spared_mono|done]. Qed.

Lemma calm_near bs s s' : calm bs s s' -> near bs s s'.
Proof. intros [H E]. split; [|done]. rewrite E. by destruct s. Qed.

(** A packet that was not loose, or not live, need not be mentioned. *)
Lemma spared_drop b bs s s' :
  (~ loose s b \/ (forall p, ~ live (pkt s) b p)) -> spared (b :: bs) s s' -> spared bs s s'.
Proof.
  intros Hb H c p Hc Hl Hp. apply H; [|done..].
  apply not_elem_of_cons. split; [|done]. intros ->. destruct Hb as [Hb|Hb]; [done|by apply (Hb p)].
Qed.

Lemma near_drop b bs s s' :
  (~ loose s b \/ (forall p, ~ live (pkt s) b p)) -> near (b :: bs) s s' -> near bs s s'.
Proof.
  intros Hb [E H]. split; [done|by eapply spared_drop].
Qed.

Lemma calm_drop b bs s s' :
  (~ loose s b \/ (forall p, ~ live (pkt s) b p)) -> calm (b :: bs) s s' -> calm bs s s'.
Proof. intros Hb [H E]. split; [by eapply spared_drop|done]. Qed.

Section outside_eq.
Context {s s' : net} (E : outside s' = outside s).

Lemma outside_faces : face <$> netif_buffer s' = face <$> netif_buffer s.
Proof. by apply (f_equal netif_buffer) in E. Qed.
Lemma outside_entries : cache_entries s' = cache_entries s.
Proof. by apply (f_equal cache_entries) in E. Qed.
Lemma outside_list : cache_list s' = cache_list s.
Proof. by apply (f_equal cache_list) in E. Qed.
Lemma outside_blocks : cache_blocks s' = cache_blocks s.
Proof. by apply (f_equal cache_blocks) in E. Qed.
Lemma outside_pcbs : pcbs s' = pcbs s.
Proof. by apply (f_equal pcbs) in E. Qed.
Lemma outside_udp : udp_pcbs s' = udp_pcbs s.
Proof. by apply (f_equal udp_pcbs) in E. Qed.
Lemma outside_records : recv_records s' = recv_records s.
Proof. by apply (f_equal recv_records) in E. Qed.

Lemma outside_netif n i : netif_buffer s !! n = Some i ->
  exists i', netif_buffer s' !! n = Some i' /\ face i' = face i.
Proof.
  intros Hi. pose proof (f_equal (.!! n) outside_faces) as Hf. cbn in Hf.
  rewrite !lookup_fmap, Hi in Hf. destruct (netif_buffer s' !! n) as [i'|]; [|done].
  exists i'. split; [done|]. by apply (inj Some) in Hf.
Qed.
Lemma outside_dom : dom (netif_buffer s') = dom (netif_buffer s).
Proof. by rewrite <- (dom_fmap_L face), outside_faces, dom_fmap_L. Qed.
End outside_eq.
