(* ===== verification/OwnerPkt.v ===== *)
(** * Packet operations under the ownership invariant

    [own o s b bs n]: the running function owns the packet [b], which is in no
    place and holds the bytes [bs] with the access position at [n]; [o] are the
    packets its callers own.  Each operation of pktbuf.c keeps the invariant
    and changes no packet but [b]. *)

From S2P Require Import Prelude Tools IpAddr Mblock Pktbuf PktbufSpec PktbufChain PktbufOps.
From S2P Require Import PktbufFrame Sys Fixq Net Owner.

Definition own (o : list nat) (s : net) (b : nat) (bs : bytes) (n : Z) : Prop :=
  core (b :: o) s /\ loose s b /\ exists r, has_view (pkt s) b (View bs n r).

Lemma set_pkt_id s : s <| pkt := pkt s |> = s.
Proof. by destruct s. Qed.

Lemma pk_ret {A} (m : M pkt_state A) s a k : m (pkt s) = Ret a k -> pk m s = Ret a (s <| pkt := k |>).
Proof. apply (zoom_ret pkt_lens). Qed.
Lemma pk_same {A} (m : M pkt_state A) s a : m (pkt s) = Ret a (pkt s) -> pk m s = Ret a s.
Proof. intros H. rewrite (pk_ret _ _ _ _ H). by rewrite set_pkt_id. Qed.

Lemma calm_pkt bs s k' :
  views_kept bs (pkt s) k' -> calm bs s (s <| pkt := k' |>).
Proof.
  intros Hk. split; [|by destruct s]. intros c p Hc Hl Hp. cbn.
  destruct (Hk c p Hc) as [HL HA]. split_and!; [done|by apply HL|by apply HA].
Qed.

Lemma core_pkt o o' s k' :
  core o s -> pkt_wf k' -> acct (refs k') (holds s) o' -> core o' (s <| pkt := k' |>).
Proof. intros [] Hwf Ha. by split. Qed.

Lemma own_post o s b bs n r k' bs' n' :
  own o s b bs n -> has_view (pkt s) b (View bs n r) -> post (pkt s) b k' bs' n' r ->
  own o (s <| pkt := k' |>) b bs' n' /\ calm [b] s (s <| pkt := k' |>).
Proof.
  intros (Hc & Hl & _) Hv Hp. pose proof Hp as (Hwf & Hv' & Hk).
  split; [|by apply calm_pkt]. split_and!; [|done|by exists r].
  eapply core_pkt; [done..|]. eapply acct_ext; [by apply core_acct|by eapply refs_post|done..].
Qed.

Lemma own_bytes o s b bs n : own o s b bs n -> are_bytes bs /\ 0 <= n <= len bs.
Proof.
  intros ([Hwf _ _ _ _ _] & _ & r & p & Hp & [= -> -> _]).
  pose proof Hwf as (_ & _ & _ & _ & _ & Hbuf & _). destruct (Hbuf b p Hp) as (_ & Hch & _ & Ht & Hpos & _).
  split; [by apply are_bytes_chain|]. lia.
Qed.

(** ** Allocating and freeing *)

Lemma own_alloc o s size :
  core o s -> 0 <= size ->
  wp (fun x s' => calm [] s s' /\
        match x with
        | None => core o s'
        | Some b => (forall p, ~ live (pkt s) b p) /\ (exists bs, len bs = size /\ own o s' b bs 0) /\
            (0 < size -> exists i d, front (pkt s') b i d (Z.min size PKTBUF_BLK_SIZE))
        end) (pk (pktbuf_alloc size) s).
Proof.
  intros Hc Hs. destruct (pktbuf_alloc_ok (pkt s) size (core_wf _ _ Hc) Hs) as (x & k' & Hr & Hpost).
  eapply wp_run; [by apply pk_ret|]. destruct x as [b|].
  - destruct Hpost as (Hd & (bs & Hlen & Hwf & Hv & Hk) & Hfr).
    assert (Hzero : refs (pkt s) b = 0) by (by apply refs_dead).
    assert (Hl : loose s b).
    { intros pl Hpl. pose proof (acct_pos _ _ _ b (core_acct _ _ Hc)) as Hp. rewrite Hzero in Hp.
      assert (0 < 0); [|lia]. apply Hp. right. by exists pl. }
    split; [apply (calm_drop b); [by right|]; by apply calm_pkt|].
    split; [done|]. split; [|done]. exists bs. split; [done|]. split_and!; [|done|by exists 1].
    eapply core_pkt; [done..|]. apply (acct_ref (refs (pkt s))); [|intros c Hne|by apply core_acct].
    + by rewrite (refs_view _ _ _ _ _ Hv), Hzero.
    + eapply refs_kept; [done|set_solver].
  - destruct Hpost as (_ & Hwf & Hk). split; [by apply calm_pkt|]. eapply core_pkt; [done..|].
    eapply acct_ext; [by apply core_acct| |done..]. intros c. eapply refs_kept; [done|set_solver].
Qed.

(** A packet that a variable owns exists. *)
Lemma core_view o s b :
  core o s -> b ∈ o \/ (exists pl, b ∈ holds s pl) -> exists bs n r, has_view (pkt s) b (View bs n r).
Proof.
  intros Hc Hb. pose proof (acct_pos _ _ _ b (core_acct _ _ Hc) Hb) as Hr.
  destruct (refs_pos _ _ Hr) as (bs & n & Hv). eauto.
Qed.

Lemma own_free o s b :
  core (b :: o) s ->
  wp (fun _ s' => core o s' /\ calm [b] s s') (pk (pktbuf_free (Some b)) s).
Proof.
  intros Hc. destruct (core_view _ _ b Hc) as (bs & n & r & Hv); [left; set_solver|].
  destruct (pktbuf_free_ok (pkt s) b bs n r (core_wf _ _ Hc) Hv) as (k' & Hr & Hwf & Hk & Hpost).
  eapply wp_run; [by apply pk_ret|]. split; [|by apply calm_pkt]. eapply core_pkt; [done..|].
  apply (acct_ref _ (refs (pkt s)) _ _ b); [|intros c Hne|by apply core_acct].
  - rewrite (refs_view _ _ _ _ _ Hv). destruct (Z.eqb_spec r 1) as [->|].
    + destruct Hpost as (Hd & _). by rewrite (refs_dead k').
    + rewrite (refs_view _ _ _ _ _ Hpost). lia.
  - symmetry. eapply refs_kept; [done|set_solver].
Qed.

Lemma own_inc_ref o s b bs n :
  own o s b bs n ->
  wp (fun _ s' => own (b :: o) s' b bs n /\ calm [b] s s') (pk (pktbuf_inc_ref (Some b)) s).
Proof.
  intros (Hc & Hl & r & Hv).
  destruct (pktbuf_inc_ref_spec (pkt s) b bs n r (core_wf _ _ Hc) Hv) as (k' & Hr & Hwf & Hv' & Hk).
  eapply wp_run; [by apply pk_ret|]. split; [|by apply calm_pkt].
  split_and!; [|done|by exists (r + 1)]. eapply core_pkt; [done..|].
  apply (acct_ref (refs (pkt s))); [|intros c Hne|by apply core_acct].
  - by rewrite (refs_view _ _ _ _ _ Hv), (refs_view _ _ _ _ _ Hv').
  - eapply refs_kept; [done|set_solver].
Qed.

(** ** The other operations *)

Section ops.
Context {o : list nat} {s : net} {b : nat} {bs : bytes} {n : Z} (Ho : own o s b bs n).

(** Unpacks [Ho] for the contract [H] of an operation and runs it. *)
Ltac run_op H := eapply wp_run; [by apply pk_ret; exact H|].

Lemma own_total : pk (pktbuf_total (Some b)) s = Ret (len bs) s.
Proof.
  destruct Ho as ([Hwf _ _ _ _ _] & _ & r & p & Hp & [= -> -> _]). pose proof Hp as [Hpb _].
  pose proof Hwf as (_ & _ & _ & _ & _ & Hbuf & _). destruct (Hbuf b p Hp) as (_ & _ & _ & <- & _).
  apply pk_same. unfold pktbuf_total.
  by mstep by (by apply load_buf_ret).
Qed.

Lemma own_reset_acc :
  wp (fun _ s' => own o s' b bs 0 /\ calm [b] s s' /\ shape (pkt s) (pkt s') /\ stored (pkt s) (pkt s'))
     (pk (pktbuf_reset_acc b) s).
Proof.
  pose proof Ho as (Hc & _ & r & Hv). pose proof Hv as (p & Hp & [= -> -> ->]).
  pose proof (core_wf _ _ Hc) as Hwf.
  destruct (post_reset_front (pkt s) (pkt s) b p Hwf) as (k' & Hr & Hpost & _); [by apply pre_upd_refl|].
  run_op Hr. destruct (own_post _ _ _ _ _ _ _ _ _ Ho Hv Hpost) as [? ?].
  split_and!; [done..|by eapply shape_reset_acc|by eapply stored_reset_acc].
Qed.

Lemma own_seek off : 0 <= off ->
  wp (fun e s' => calm [b] s s' /\ shape (pkt s) (pkt s') /\
        if len bs <? off then e = NET_ERR_SIZE /\ s' = s else e = NET_ERR_OK /\ own o s' b bs off)
     (pk (pktbuf_seek (Some b) off) s).
Proof.
  intros Hoff. pose proof Ho as (Hc & _ & r & Hv).
  destruct (pktbuf_seek_ok (pkt s) b bs n r off (core_wf _ _ Hc) Hv Hoff) as (e & k' & Hr & H).
  run_op Hr. assert (Hsh : shape (pkt s) k') by (by eapply shape_seek). destruct (len bs <? off).
  - destruct H as [-> ->]. by rewrite set_pkt_id.
  - destruct H as [-> H]. destruct (own_post _ _ _ _ _ _ _ _ _ Ho Hv H) as [? ?]. done.
Qed.

Lemma own_fill v size : is_byte v -> 0 < size ->
  wp (fun e s' => calm [b] s s' /\ shape (pkt s) (pkt s') /\
        if len bs - n <? size then e = NET_ERR_SIZE /\ s' = s
        else e = NET_ERR_OK /\
          own o s' b (splice (Z.to_nat n) (replicate (Z.to_nat size) v) bs) (n + size))
     (pk (pktbuf_fill (Some b) v size) s).
Proof.
  intros Hv0 Hsz. pose proof Ho as (Hc & _ & r & Hv).
  destruct (pktbuf_fill_ok (pkt s) b bs n r v size (core_wf _ _ Hc) Hv Hv0 Hsz) as (e & k' & Hr & H).
  run_op Hr. assert (Hsh : shape (pkt s) k') by (by eapply shape_fill). destruct (_ <? _).
  - destruct H as [-> ->]. by rewrite set_pkt_id.
  - destruct H as [-> H]. destruct (own_post _ _ _ _ _ _ _ _ _ Ho Hv H) as [? ?]. done.
Qed.

Lemma own_write src : are_bytes src -> 0 < len src ->
  wp (fun e s' => calm [b] s s' /\ shape (pkt s) (pkt s') /\
        if len bs - n <? len src then e = NET_ERR_SIZE /\ s' = s
        else e = NET_ERR_OK /\ own o s' b (splice (Z.to_nat n) src bs) (n + len src))
     (pk (pktbuf_write (Some b) (Some src) (len src)) s).
Proof.
  intros Hsrc Hsz. pose proof Ho as (Hc & _ & r & Hv).
  destruct (pktbuf_write_ok (pkt s) b bs n r src (core_wf _ _ Hc) Hv Hsrc Hsz) as (e & k' & Hr & H).
  run_op Hr. assert (Hsh : shape (pkt s) k') by (by eapply shape_write). destruct (_ <? _).
  - destruct H as [-> ->]. by rewrite set_pkt_id.
  - destruct H as [-> H]. destruct (own_post _ _ _ _ _ _ _ _ _ Ho Hv H) as [? ?]. done.
Qed.

Lemma own_read size : 0 < size ->
  wp (fun e s' => calm [b] s s' /\
        if len bs - n <? size then e = (NET_ERR_SIZE, []) /\ s' = s
        else e = (NET_ERR_OK, take (Z.to_nat size) (drop (Z.to_nat n) bs)) /\ own o s' b bs (n + size))
     (pk (pktbuf_read (Some b) true size) s).
Proof.
  intros Hsz. pose proof Ho as (Hc & _ & r & Hv).
  destruct (pktbuf_read_ok (pkt s) b bs n r size (core_wf _ _ Hc) Hv Hsz) as (e & k' & Hr & H).
  run_op Hr. destruct (_ <? _).
  - destruct H as [-> ->]. by rewrite set_pkt_id.
  - destruct H as [-> H]. destruct (own_post _ _ _ _ _ _ _ _ _ Ho Hv H) as [? ?]. done.
Qed.

Lemma own_checksum size pre c : 0 <= size <= len bs - n -> 0 <= pre <= 65535 ->
  wp (fun e s' => e = checksum16 0 (take (Z.to_nat size) (drop (Z.to_nat n) bs)) pre c /\
        own o s' b bs (n + size) /\ calm [b] s s' /\ shape (pkt s) (pkt s') /\ stored (pkt s) (pkt s'))
     (pk (pktbuf_checksum16 (Some b) size pre c) s).
Proof.
  intros Hsz Hpre. pose proof (own_bytes _ _ _ _ _ Ho) as [_ Hn]. pose proof Ho as (Hc & _ & r & Hv).
  destruct (pktbuf_checksum16_ok (pkt s) b bs n r size pre c (core_wf _ _ Hc) Hv) as (k' & Hr & H);
    [lia..|]. run_op Hr. split; [done|]. destruct (own_post _ _ _ _ _ _ _ _ _ Ho Hv H) as [? ?].
  split_and!; [done..|by eapply shape_checksum16|by eapply stored_checksum16].
Qed.

Lemma own_resize size : 0 <= size ->
  wp (fun e s' => calm [b] s s' /\ stored (pkt s) (pkt s') /\
        (if size <=? len bs then e = NET_ERR_OK /\ exists n', own o s' b (take (Z.to_nat size) bs) n'
         else (e = NET_ERR_OK /\ exists ext, len ext = size - len bs /\ own o s' b (bs ++ ext) 0) \/
              (e = NET_ERR_MEM /\ own o s' b bs n)))
     (pk (pktbuf_resize (Some b) size) s).
Proof.
  intros Hsz. pose proof Ho as (Hc & _ & r & Hv).
  destruct (pktbuf_resize_ok (pkt s) b bs n r size (core_wf _ _ Hc) Hv Hsz) as (e & k' & Hr & H).
  run_op Hr. assert (Hsh : stored (pkt s) k') by (by eapply stored_resize).
  assert (Hpost : forall bs' n', post (pkt s) b k' bs' n' r ->
    own o (s <| pkt := k' |>) b bs' n' /\ calm [b] s (s <| pkt := k' |>)) by (intros; by eapply own_post).
  destruct (Z.eqb_spec size (len bs)) as [->|]; [|destruct (Z.ltb_spec size (len bs))].
  - destruct H as [-> ->]. rewrite set_pkt_id, Z.leb_refl. split_and!; [done..|].
    exists n. by rewrite Nat2Z.id, firstn_all.
  - destruct H as [-> H]. rewrite (proj2 (Z.leb_le _ _)) by lia. apply Hpost in H as [? ?].
    split_and!; [done..|]. by exists 0.
  - rewrite (proj2 (Z.leb_gt _ _)) by lia. destruct H as [(-> & ext & Hl & H)|(-> & _ & H)];
      apply Hpost in H as [? ?]; split_and!; try done; [left|right]; split; try done. by exists ext.
Qed.

Lemma own_add_header size : 0 < size <= PKTBUF_BLK_SIZE ->
  wp (fun e s' => calm [b] s s' /\
        ((e = NET_ERR_OK /\ (exists hdr, len hdr = size /\ own o s' b (hdr ++ bs) 0) /\
          exists i d, front (pkt s') b i d size) \/
         (e = NET_ERR_MEM /\ own o s' b bs n)))
     (pk (pktbuf_add_header (Some b) size true) s).
Proof.
  intros Hsz. pose proof Ho as (Hc & _ & r & Hv).
  destruct (pktbuf_add_header_ok (pkt s) b bs n r size true (core_wf _ _ Hc) Hv) as (e & k' & Hr & H);
    [lia|]. run_op Hr. destruct H as [(-> & (hdr & Hl & H) & Hfr)|[(-> & _ & H)|(_ & _ & ? & _)]]; [| |lia].
  all: destruct (own_post _ _ _ _ _ _ _ _ _ Ho Hv H) as [? ?]; split; [done|].
  - left. split; [done|]. split; [by exists hdr|]. apply Hfr; [done|lia].
  - by right.
Qed.

Lemma own_remove_header size : 0 < size ->
  wp (fun e s' => calm [b] s s' /\
        if len bs <? size then e = NET_ERR_SIZE /\ s' = s
        else e = NET_ERR_OK /\ own o s' b (drop (Z.to_nat size) bs) 0)
     (pk (pktbuf_remove_header (Some b) size) s).
Proof.
  intros Hsz. pose proof Ho as (Hc & _ & r & Hv).
  destruct (pktbuf_remove_header_ok (pkt s) b bs n r size (core_wf _ _ Hc) Hv Hsz) as (e & k' & Hr & H).
  run_op Hr. destruct (_ <? _).
  - destruct H as [-> ->]. by rewrite set_pkt_id.
  - destruct H as [-> H]. destruct (own_post _ _ _ _ _ _ _ _ _ Ho Hv H) as [? ?]. done.
Qed.

Lemma own_set_cont size : 0 < size ->
  wp (fun e s' => calm [b] s s' /\
        if (size <=? len bs) && (size <=? PKTBUF_BLK_SIZE)
        then e = NET_ERR_OK /\ own o s' b bs 0 /\ exists i d, front (pkt s') b i d size
        else e = NET_ERR_SIZE /\ s' = s)
     (pk (pktbuf_set_cont (Some b) size) s).
Proof.
  intros Hsz. pose proof Ho as (Hc & _ & r & Hv).
  destruct (pktbuf_set_cont_ok (pkt s) b bs n r size (core_wf _ _ Hc) Hv Hsz) as (e & k' & Hr & H).
  run_op Hr. destruct (_ && _).
  - destruct H as (-> & H & Hfr). destruct (own_post _ _ _ _ _ _ _ _ _ Ho Hv H) as [? ?]. done.
  - destruct H as [-> ->]. by rewrite set_pkt_id.
Qed.

(** ** The header of the packet *)

Context {i : nat} {d m : Z} (Hf : front (pkt s) b i d m).

Lemma own_data : pk (pktbuf_data (Some b)) s = Ret (Some (i, d)) s.
Proof. apply pk_same. by eapply pktbuf_data_front. Qed.

Lemma own_hdr_load off c : 0 <= off -> 0 <= c -> off + c <= m ->
  hdr_load (i, d) off c s = Ret (take (Z.to_nat c) (drop (Z.to_nat off) bs)) s.
Proof.
  intros. pose proof Ho as (Hc & _ & r & Hv). unfold hdr_load.
  apply pk_same.
  exact (header_read (pkt s) b i d m _ off c (core_wf _ _ Hc) Hv Hf ltac:(lia) ltac:(lia) ltac:(lia)).
Qed.

Lemma own_hdr_store off v : are_bytes v -> 0 <= off -> off + len v <= m ->
  wp (fun _ s' => own o s' b (splice (Z.to_nat off) v bs) n /\ front (pkt s') b i d m /\ calm [b] s s')
     (hdr_store (i, d) off v s).
Proof.
  intros. pose proof Ho as (Hc & _ & r & Hv).
  destruct (header_write (pkt s) b i d m bs n r off v (core_wf _ _ Hc) Hv Hf) as (k' & Hr & H' & Hf');
    [done..|]. unfold hdr_store. run_op Hr.
  destruct (own_post _ _ _ _ _ _ _ _ _ Ho Hv H') as [? ?]. done.
Qed.
End ops.
