(* ===== verification/OwnerQueue.v ===== *)
(** * The queues of the interfaces under the ownership invariant *)

From S2P Require Import Prelude Mblock Pktbuf PktbufSpec PktbufChain PktbufOps PktbufFrame Sys.
From S2P Require Import Fixq Net Netif Owner OwnerPkt.

(** ** The queues in the state *)

Lemma alter_alter {A} (f g : A -> A) n (m : gmap nat A) : alter f n (alter g n m) = alter (f ∘ g) n m.
Proof.
  apply map_eq. intros k. destruct (decide (k = n)) as [->|].
  - rewrite !lookup_alter_eq. by destruct (m !! n).
  - by rewrite !lookup_alter_ne.
Qed.

Lemma fmap_alter_id {A B} (g : A -> B) (f : A -> A) n (m : gmap nat A) :
  (forall x, g (f x) = g x) -> g <$> alter f n m = g <$> m.
Proof.
  intros Hf. apply map_eq. intros k. rewrite !lookup_fmap. destruct (decide (k = n)) as [->|].
  - rewrite lookup_alter_eq. destruct (m !! n); cbn; [by rewrite Hf|done].
  - by rewrite lookup_alter_ne.
Qed.

#[global] Instance in_queue n : QueueIn sys_lens (in_ref n).
Proof.
  split; try done.
  - intros q s [x Hx]. cbn in *. rewrite lookup_alter_eq. by destruct (netif_buffer s !! n).
  - intros q q' s. cbn. unfold upd_field. cbn. rewrite alter_alter. done.
  - by intros [].
Qed.

#[global] Instance out_queue n : QueueIn sys_lens (out_ref n).
Proof.
  split; try done.
  - intros q s [x Hx]. cbn in *. rewrite lookup_alter_eq. by destruct (netif_buffer s !! n).
  - intros q q' s. cbn. unfold upd_field. cbn. rewrite alter_alter. done.
  - by intros [].
Qed.

(** Both queues of an interface at once. *)
Inductive side := SIn | SOut.
Definition side_ref (r : side) (n : nat) : qref net nat :=
  match r with SIn => in_ref n | SOut => out_ref n end.
Definition side_q (r : side) (i : netif_t) : fixq_t nat :=
  match r with SIn => in_q i | SOut => out_q i end.
Definition side_place (r : side) (n : nat) : place :=
  match r with SIn => InQueue n | SOut => OutQueue n end.
Definition side_user (r : side) (n : nat) : sem_user :=
  match r with SIn => UIn n | SOut => UOut n end.
Definition side_set (r : side) (q : fixq_t nat) (i : netif_t) : netif_t :=
  match r with SIn => i <| in_q := q |> | SOut => i <| out_q := q |> end.

#[global] Instance side_queue r n : QueueIn sys_lens (side_ref r n).
Proof. destruct r; apply _. Qed.

Lemma outside_buffer s y X :
  face <$> X = face <$> netif_buffer s ->
  outside (s <| sys := y |> <| netif_buffer := X |>) = outside s.
Proof.
  intros E. transitivity ((outside s) <| netif_buffer := face <$> X |>); [destruct s; reflexivity|].
  rewrite E. destruct s. reflexivity.
Qed.

(** The state after the queue changed. *)
Definition with_queue (s : net) (r : side) (n : nat) (q : fixq_t nat) (y : sys_state) : net :=
  q_set (side_ref r n) q (lset sys_lens y s).

Lemma with_queue_pkt s r n q y : pkt (with_queue s r n q y) = pkt s.
Proof. by destruct r. Qed.
Lemma with_queue_tx s r n q y : tx_frames (with_queue s r n q y) = tx_frames s.
Proof. by destruct r. Qed.
Lemma with_queue_sys s r n q y : sys (with_queue s r n q y) = y.
Proof. by destruct r. Qed.

Lemma queue_ok_kept {A} y y' (q : fixq_t A) own :
  queue_ok y q -> sems_kept own y y' -> q_sems q ## own -> queue_ok y' q.
Proof. intros. by eapply fixq_ok_kept. Qed.

Section step.
Context {s : net} {r : side} {n : nat} {i : netif_t} {q' : fixq_t nat} {y' : sys_state} {l' : list nat}.
Context (Hi : netif_buffer s !! n = Some i) (Hop : opened i = true).
Context (Hq' : fixq_ok y' q' (q_sems (side_q r i)) l').
Context (Hk : sems_kept (q_sems (side_q r i)) (sys s) y').
Let s' := with_queue s r n q' y'.

Lemma with_queue_buffer : netif_buffer s' = <[n := side_set r q' i]> (netif_buffer s).
Proof.
  unfold s', with_queue. destruct r; cbn; apply map_eq; intros m.
  all: destruct (decide (m = n)) as [->|];
    [by rewrite lookup_alter_eq, lookup_insert_eq, Hi|by rewrite lookup_alter_ne, lookup_insert_ne].
Qed.

Lemma with_queue_outside : outside s' = outside s.
Proof.
  unfold s', with_queue. destruct r; apply outside_buffer, fmap_alter_id; intros []; reflexivity.
Qed.

Lemma with_queue_holds pl :
  holds s' pl = if decide (pl = side_place r n) then l' else holds s pl.
Proof.
  destruct (fixq_ok_queue _ _ _ _ Hq') as (_ & _ & El).
  destruct pl as [m|m|e|a j|p]; cbn [holds].
  3-5: by destruct r.
  all: rewrite with_queue_buffer; destruct (decide (m = n)) as [->|Hne];
    [rewrite lookup_insert_eq|rewrite lookup_insert_ne by done].
  all: destruct r; cbn; rewrite ?El, ?Hi.
  all: destruct (decide _) as [E|E]; try done; simplify_eq.
Qed.

Lemma with_queue_sems u : sems_at s' u = sems_at s u.
Proof.
  destruct (fixq_ok_queue _ _ _ _ Hq') as (_ & Es & _).
  destruct u as [m|m|p|p|p]; cbn [sems_at].
  3-5: unfold s', with_queue; by destruct r.
  all: rewrite with_queue_buffer; destruct (decide (m = n)) as [->|Hne];
    [rewrite lookup_insert_eq, Hi|by rewrite lookup_insert_ne by done].
  all: destruct r; cbn; change (opened (upd_field _ i)) with (opened i); rewrite ?Hop; done.
Qed.

Lemma side_sems : q_sems (side_q r i) = sems_at s (side_user r n).
Proof. destruct r; cbn; by rewrite Hi; cbn; rewrite Hop. Qed.

Lemma with_queue_core o o' :
  core o s -> acct (refs (pkt s)) (holds s') o' -> core o' s'.
Proof.
  intros Hc Ha. pose proof Hc as [Hwf _ Hn Hr Hs Hlv].
  destruct (fixq_ok_queue _ _ _ _ Hq') as (Hok & Es & _).
  assert (Hother : forall {A} u (q : fixq_t A), u <> side_user r n -> q_sems q = sems_at s u ->
    queue_ok (sys s) q -> queue_ok y' q).
  { intros A u q Hne E Hqok. eapply queue_ok_kept; [done|exact Hk|]. rewrite E, side_sems. by apply Hs. }
  split.
  - unfold s'. by rewrite with_queue_pkt.
  - unfold s'. by rewrite with_queue_pkt.
  - intros m j. change (sys s') with (sys (with_queue s r n q' y')).
    rewrite with_queue_buffer, with_queue_sys. intros [[<- <-]|[Hne Hj]]%lookup_insert_Some.
    + destruct (Hn n i Hi) as (Hl & Hb & Hqs). destruct (Hqs Hop) as [Hin Hout].
      destruct r; (split_and!; [done..|]); intros _; cbn; split; try exact Hok.
      * apply (Hother _ (UOut n)); [done| |done]. cbn. by rewrite Hi; cbn; rewrite Hop.
      * apply (Hother _ (UIn n)); [done| |done]. cbn. by rewrite Hi; cbn; rewrite Hop.
    + destruct (Hn m j Hj) as (Hl & Hb & Hqs). split_and!; [done..|]. intros Hjo.
      destruct (Hqs Hjo) as [Hin Hout]. split.
      * apply (Hother _ (UIn m)); [destruct r; cbn; congruence| |done]. cbn. by rewrite Hj; cbn; rewrite Hjo.
      * apply (Hother _ (UOut m)); [destruct r; cbn; congruence| |done]. cbn. by rewrite Hj; cbn; rewrite Hjo.
  - intros p x. assert (pcbs s' = pcbs s) as -> by (unfold s', with_queue; by destruct r).
    assert (udp_pcbs s' = udp_pcbs s) as -> by (unfold s', with_queue; by destruct r).
    unfold s'. rewrite with_queue_sys. intros Hp Hx. apply (Hother _ (URecv p)); [by destruct r| |by eapply Hr].
    cbn. by rewrite bool_decide_eq_true_2, Hx.
  - intros u u' Hne. rewrite !with_queue_sems. by apply Hs.
  - intros u k. rewrite with_queue_sems. unfold s'. rewrite with_queue_sys. intros Hu.
    destruct (decide (k ∈ q_sems (side_q r i))); [by eapply (fixq_ok_live _ _ _ _ _ Hq')|].
    eapply sem_live_kept; [exact Hk|done|by eapply Hlv].
Qed.
End step.

(** ** Sending to and receiving from a queue *)

Lemma side_get s r n i : netif_buffer s !! n = Some i -> q_get (side_ref r n) s = Some (side_q r i).
Proof. intros Hi. destruct r; cbn; by rewrite Hi. Qed.

Lemma core_side o s r n i :
  core o s -> netif_buffer s !! n = Some i -> opened i = true -> queue_ok (sys s) (side_q r i).
Proof.
  intros Hc Hi Hop. destruct (core_netif _ _ Hc n i Hi) as (_ & _ & Hq). destruct (Hq Hop), r; done.
Qed.

(** A packet that is put in a queue belongs to the queue; a full queue leaves
    it with the caller. *)
Lemma own_send o s b bs n0 r n i :
  own o s b bs n0 -> netif_buffer s !! n = Some i -> opened i = true ->
  wp (fun e s' => (e = NET_ERR_OK /\ core o s' /\ near [b] s s' /\
                     pkt s' = pkt s /\ tx_frames s' = tx_frames s /\ exists l, holds s (side_place r n) = l /\ forall pl,
                     holds s' pl = if decide (pl = side_place r n) then l ++ [b] else holds s pl) \/
                  (e = NET_ERR_FULL /\ s' = s))
     (fixq_send sys_lens (side_ref r n) no_sleep 0 0 (Some b) (-1) s).
Proof.
  intros (Hc & Hl & _) Hi Hop. pose proof (core_side _ _ r _ _ Hc Hi Hop) as Hq.
  destruct (fixq_send_try (L := sys_lens) no_sleep 0 0 s _ _ _ b (side_get _ r _ _ Hi) Hq) as (e & s' & Hrun & Hpost).
  eapply wp_run; [exact Hrun|]. destruct (_ =? _); [by right|]. left.
  destruct Hpost as (-> & q' & y' & -> & Hq' & Hk & _). split; [done|].
  fold (with_queue s r n q' y'). pose proof (with_queue_holds Hi Hq' Hk) as Hh.
  assert (E : holds s (side_place r n) = q_list (side_q r i)) by (destruct r; cbn; by rewrite Hi).
  assert (Hacct : acct (refs (pkt s)) (holds (with_queue s r n q' y')) o).
  { eapply (acct_put _ (holds s)); [by apply core_acct|done| |].
    - rewrite Hh, decide_True by done. by rewrite E.
    - intros pl Hne. by rewrite Hh, decide_False. }
  split; [by eapply with_queue_core|]. split; [split; [by eapply with_queue_outside|]|].
  - intros c p Hcb Hlc Hp. rewrite with_queue_pkt. split_and!; [|done..].
    intros pl. rewrite Hh. case_decide; [|apply Hlc].
    rewrite <- E. specialize (Hlc (side_place r n)). set_solver.
  - split; [by rewrite with_queue_pkt|]. split; [apply with_queue_tx|].
    exists (q_list (side_q r i)). split; [done|exact Hh].
Qed.

(** A packet taken from a queue belongs to the caller. *)
Lemma own_recv o s r n i :
  core o s -> netif_buffer s !! n = Some i -> opened i = true ->
  wp (fun x s' => near [] s s' /\ pkt s' = pkt s /\ tx_frames s' = tx_frames s /\
        match x with
        | None => s' = s /\ holds s (side_place r n) = []
        | Some b => exists l, core (b :: o) s' /\ loose s' b /\ holds s (side_place r n) = b :: l /\
            forall pl, holds s' pl = if decide (pl = side_place r n) then l else holds s pl
        end)
     (fixq_recv sys_lens (side_ref r n) no_sleep 0 0 (-1) s).
Proof.
  intros Hc Hi Hop. pose proof (core_side _ _ r _ _ Hc Hi Hop) as Hq.
  destruct (fixq_recv_try (L := sys_lens) no_sleep 0 0 s _ _ _ (side_get _ r _ _ Hi) Hq) as (s' & Hrun & Hpost).
  assert (E : holds s (side_place r n) = q_list (side_q r i)) by (destruct r; cbn; by rewrite Hi).
  eapply wp_run; [exact Hrun|]. destruct (q_list (side_q r i)) as [|b l] eqn:Hl; cbn [head].
  { by subst s'. }
  destruct Hpost as (q' & y' & -> & Hq' & Hk & _). fold (with_queue s r n q' y').
  pose proof (with_queue_holds Hi Hq' Hk) as Hh.
  assert (Hacct : acct (refs (pkt s)) (holds (with_queue s r n q' y')) (b :: o) /\
                  loose (with_queue s r n q' y') b).
  { eapply (acct_take _ (holds s)); [by apply core_acct|exact E| |].
    - by rewrite Hh, decide_True.
    - intros pl Hne. by rewrite Hh, decide_False. }
  destruct Hacct as [Hacct Hlb]. split; [split; [by eapply with_queue_outside|]|].
  - intros c p _ Hlc Hp. rewrite with_queue_pkt. split_and!; [|done..].
    intros pl. rewrite Hh. case_decide; [|apply Hlc]. specialize (Hlc (side_place r n)).
    rewrite E in Hlc. set_solver.
  - split; [by rewrite with_queue_pkt|]. split; [apply with_queue_tx|]. exists l. split_and!; [by eapply with_queue_core|done..].
Qed.
