(* ===== verification/OwnerOut.v ===== *)
(** * Sending a frame: the drivers and [ether_raw_out]

    The header ether.h promises that output consumes the packet on every
    return.  Under the ownership invariant this is: a function that is called
    with a packet of its caller leaves the invariant without it. *)

From S2P Require Import Prelude Tools IpAddr Timer Mblock Pktbuf PktbufSpec PktbufChain.
From S2P Require Import PktbufOps PktbufFrame Sys Fixq Net Netif Ether Owner OwnerPkt.
From S2P Require Import OwnerQueue.

(** Runs the first command by the contract [lem]. *)
Tactic Notation "wstep" uconstr(lem) "as" simple_intropattern(pat) :=
  eapply wp_step; [eapply lem; try eassumption|intros ? ? pat].

Lemma load_netif_at s n i : netif_buffer s !! n = Some i -> load_netif n s = Ret i s.
Proof. intros Hi. unfold load_netif. mstep. by apply deref_ret. Qed.

Lemma free_return_ok o s b e (Q : Z -> net -> Prop) :
  core (b :: o) s -> (forall s', core o s' -> calm [b] s s' -> Q e s') -> wp Q (free_return b e s).
Proof. intros Hc HQ. unfold free_return. wstep own_free as [Hc' Hn]. cbn. by apply HQ. Qed.

Lemma calm_holds bs s s' pl : calm bs s s' -> holds s' pl = holds s pl.
Proof. intros [_ E]. rewrite E. by destruct s, pl. Qed.

(** ** The drivers *)

Lemma own_get_out o s n i :
  core o s -> netif_buffer s !! n = Some i -> opened i = true ->
  wp (fun x s' => near [] s s' /\ tx_frames s' = tx_frames s /\
        match x with
        | None => s' = s /\ holds s (OutQueue n) = []
        | Some b => exists bs m l, has_view (pkt s) b (View bs m (refs (pkt s) b)) /\
            own o s' b bs 0 /\ holds s (OutQueue n) = b :: l /\
            forall pl, holds s' pl = if decide (pl = OutQueue n) then l else holds s pl
        end) (get_out (Some n) s).
Proof.
  intros Hc Hi Hop. unfold netif_get_out. change (out_ref n) with (side_ref SOut n).
  wstep own_recv as (Hn & Hp & Htx & H). destruct a as [b|]; [|done].
  destruct H as (l & Hc1 & Hl1 & Hh & Hh'). cbn [side_place] in *.
  destruct (refs_pos (pkt s) b) as (bs & m & Hv).
  { eapply acct_pos; [by apply core_acct|]. right. exists (OutQueue n). rewrite Hh. set_solver. }
  assert (Hown : own o s' b bs m) by (split_and!; [done..|rewrite Hp; eauto]).
  wstep own_reset_acc as (Hown' & Hcalm & _). split_and!.
  - apply (near_drop b). { left. intros Hl. apply (Hl (OutQueue n)). rewrite Hh. set_solver. }
    transitivity s'; [eapply near_mono, Hn; set_solver|by apply calm_near].
  - destruct Hcalm as [_ ->]. exact Htx.
  - exists bs, m, l. split_and!; [done..|]. intros pl. rewrite <- Hh'. by eapply calm_holds.
Qed.

(** What a driver promises the layers above: it takes the packets it sends
    from [out_q], and leaves no reference to them behind. *)
Class Transmits (xmit : nat -> M net Z) : Prop :=
  transmits o s n i : core o s -> netif_buffer s !! n = Some i -> opened i = true ->
    wp (fun _ s' => core o s' /\ near [] s s') (xmit n s).

Lemma near_opened bs s s' n i :
  near bs s s' -> netif_buffer s !! n = Some i ->
  exists i', netif_buffer s' !! n = Some i' /\ face i' = face i /\ opened i' = opened i.
Proof.
  intros [E _] Hi. destruct (outside_netif E n i Hi) as (i' & Hi' & Hf). exists i'.
  split_and!; [done..|]. apply (f_equal opened) in Hf. exact Hf.
Qed.

(** A step that touches the packet [b], which was in a place before. *)
Lemma near_placed b s s1 s' pl :
  b ∈ holds s pl -> near [] s s1 -> near [b] s1 s' -> near [] s s'.
Proof.
  intros Hb H1 H2. apply (near_drop b); [left; intros Hl; by apply (Hl pl)|].
  transitivity s1; [eapply near_mono, H1; set_solver|done].
Qed.

#[global] Instance loop_transmits : Transmits loop_xmit.
Proof.
  intros o s n i Hc Hi Hop. unfold loop_xmit. wstep own_get_out as (Hn & _ & H).
  destruct a as [b|]; [|by destruct H as [-> _]].
  destruct H as (bs & m & l & _ & Hown & Hh & _).
  destruct (near_opened _ _ _ _ _ Hn Hi) as (i1 & Hi1 & _ & Hop1).
  assert (Hb : b ∈ holds s (OutQueue n)) by (rewrite Hh; set_solver).
  unfold netif_put_in. change (in_ref n) with (side_ref SIn n).
  wstep (own_send o s' b bs 0 SIn) as H; [by rewrite Hop1|].
  destruct H as [(-> & Hc2 & Hn2 & _)|[-> ->]].
  - cbn. split; [done|]. by eapply near_placed.
  - cbn [when NET_ERR_FULL Z.ltb Z.compare]. wstep own_free as [Hc3 Hn3]; [by destruct Hown|].
    cbn. split; [done|]. eapply near_placed; [done..|by apply calm_near].
Qed.

(** [virtio_net_send] changes the device only. *)
Lemma send_ok o s b bs n0 frame :
  own o s b bs n0 ->
  wp (fun _ s' => own o s' b bs n0 /\ near [b] s s' /\ (forall pl, holds s' pl = holds s pl) /\
        tx_frames s' = tx_frames s ++ [frame])
     (virtio_net_send frame s).
Proof.
  intros (Hc & Hl & Hv). unfold virtio_net_send. cbn. split_and!; [|done..| |by intros []|done].
  - split_and!; [|done..]. by destruct Hc.
  - split; [destruct s; reflexivity|]. by intros c p.
Qed.

(** The frame on the wire: [bs] with zero bytes up to the minimal length. *)
Definition wire_frame (bs : bytes) : bytes :=
  bs ++ replicate (Z.to_nat (ETHERNET_MIN_FRAME - len bs)) 0.

Lemma wire_frame_eq bs :
  0 < len bs <= ETHERNET_MAX_FRAME ->
  take (Z.to_nat (if len bs <? ETHERNET_MIN_FRAME then ETHERNET_MIN_FRAME else len bs))
    (splice 0 bs (replicate (Z.to_nat ETHERNET_MAX_FRAME) 0)) = wire_frame bs.
Proof.
  unfold wire_frame, splice, ETHERNET_MIN_FRAME, ETHERNET_MAX_FRAME. intros Hl.
  rewrite take_0. cbn [app Nat.add]. rewrite drop_replicate.
  destruct (Z.ltb_spec (len bs) 60).
  - rewrite take_app_ge by lia. f_equal. rewrite take_replicate. f_equal. lia.
  - rewrite take_app_le, firstn_all2 by lia. replace (Z.to_nat (60 - len bs)) with 0%nat by lia.
    by rewrite app_nil_r.
Qed.

Lemma virtio_xmit_one_ok o s b bs result :
  own o s b bs 0 ->
  wp (fun _ s' => core o s' /\ near [b] s s' /\ (forall pl, holds s' pl = holds s pl) /\
        (0 < len bs <= ETHERNET_MAX_FRAME -> tx_frames s' = tx_frames s ++ [wire_frame bs]))
     (virtio_xmit_one b result s).
Proof.
  intros Hown. unfold virtio_xmit_one. eapply wp_eq; [by eapply own_total|].
  rewrite (proj2 (Z.ltb_ge (len bs) 0)) by lia. cbn [orb].
  assert (Hfree : forall e, ~ 0 < len bs <= ETHERNET_MAX_FRAME ->
    wp (fun _ s' => core o s' /\ near [b] s s' /\ (forall pl, holds s' pl = holds s pl) /\
        (0 < len bs <= ETHERNET_MAX_FRAME -> tx_frames s' = tx_frames s ++ [wire_frame bs]))
       ((pk (pktbuf_free (Some b));; mret (A := Z + Z) (inl e)) s)).
  { intros e Hno. wstep own_free as [Hc1 Hn1]; [by destruct Hown|]. cbn.
    split_and!; [done|by apply calm_near|intros; by eapply calm_holds|done]. }
  destruct (Z.ltb_spec ETHERNET_MAX_FRAME (len bs)); [apply Hfree; lia|].
  wstep own_reset_acc as (Hown1 & Hn1 & _).
  eapply (wp_step (fun r s2 => r = (NET_ERR_OK, bs) /\ own o s2 b bs (len bs) /\ calm [b] s' s2)).
  { destruct (Z.eqb_spec (len bs) 0) as [E|E].
    - assert (bs = []) as -> by (by destruct bs). cbn. done.
    - eapply wp_mono; [|eapply (own_read Hown1); lia]. intros r s2 [Hn2 H2].
      rewrite Z.sub_0_r, Z.ltb_irrefl, Z.add_0_l, Nat2Z.id, drop_0, firstn_all in H2. by destruct H2. }
  intros r s2 (-> & Hown2 & Hn2). cbn [fst snd]. rewrite Z.eqb_refl. cbn [negb].
  wstep send_ok as (Hown3 & Hn3 & Hh3 & Htx). wstep own_free as [Hc4 Hn4]; [by destruct Hown3|].
  assert (Hgoal : core o s'1 /\ near [b] s s'1 /\ (forall pl, holds s'1 pl = holds s pl) /\
        (0 < len bs <= ETHERNET_MAX_FRAME -> tx_frames s'1 = tx_frames s ++ [wire_frame bs])).
  { split_and!; [done| | |].
    - transitivity s'; [by apply calm_near|]. transitivity s2; [by apply calm_near|].
      transitivity s'0; [done|by apply calm_near].
    - intros pl. rewrite (calm_holds _ _ _ _ Hn4), Hh3, (calm_holds _ _ _ _ Hn2).
      by apply (calm_holds _ _ _ _ Hn1).
    - intros Hl. destruct Hn4 as [_ ->], Hn1 as [_ E1], Hn2 as [_ E2]. cbn.
      rewrite Htx, E2, E1. cbn. by rewrite wire_frame_eq. }
  by destruct (a0 <? 0).
Qed.

(** [fuel] bounds the packets in the queue; a queue with one packet puts its
    frame on the wire. *)
Lemma virtio_xmit_loop_ok fuel o s n i result :
  core o s -> netif_buffer s !! n = Some i -> opened i = true ->
  (length (holds s (OutQueue n)) <= fuel)%nat ->
  wp (fun _ s' => core o s' /\ near [] s s' /\
        (holds s (OutQueue n) = [] -> tx_frames s' = tx_frames s) /\
        forall b bs m r, holds s (OutQueue n) = [b] -> has_view (pkt s) b (View bs m r) ->
          0 < len bs <= ETHERNET_MAX_FRAME -> tx_frames s' = tx_frames s ++ [wire_frame bs])
     (virtio_xmit_loop fuel n result s).
Proof.
  revert s i result. induction fuel as [|fuel IH]; intros s i result Hc Hi Hop Hf; cbn [virtio_xmit_loop].
  all: wstep own_get_out as (Hn1 & Htx1 & H); destruct a as [b|];
    [|destruct H as [E H]; subst s'; rewrite H; cbn; by split_and!].
  all: destruct H as (bs & m & l & Hv & Hown & Hh & Hh'); rewrite Hh in Hf |- *; cbn in Hf.
  { lia. }
  wstep virtio_xmit_one_ok as (Hc2 & Hn2 & Hh2 & Htx).
  assert (Hn : near [] s s'0) by (eapply near_placed; [rewrite Hh; by left|done..]).
  assert (Htail : holds s'0 (OutQueue n) = l) by (by rewrite Hh2, Hh', decide_True).
  assert (Htx' : forall b' bs' m' r', b :: l = [b'] -> has_view (pkt s) b' (View bs' m' r') ->
    0 < len bs' <= ETHERNET_MAX_FRAME -> tx_frames s'0 = tx_frames s ++ [wire_frame bs']).
  { intros b' bs' m' r' [= <- ->] Hv'. rewrite <- Htx1. assert (bs' = bs) as ->; [|done].
    destruct Hv as (p & Hp & [= -> _ _]), Hv' as (p' & Hp' & [= -> _ _]).
    destruct Hp as [Hp _], Hp' as [Hp' _]. rewrite Hp in Hp'. by injection Hp' as ->. }
  destruct a as [result'|e]; [|by cbn].
  destruct (near_opened _ _ _ _ _ Hn Hi) as (i2 & Hi2 & _ & Hop2).
  eapply wp_mono; [|apply (IH s'0 i2 result' Hc2 Hi2); [by rewrite Hop2|rewrite Htail; lia]].
  intros e s3 (Hc3 & Hn3 & Hnil & _). split_and!; [done|by transitivity s'0|done|].
  intros b' bs' m' r' E Hv' Hl. rewrite Hnil; [by eapply Htx'|]. rewrite Htail. by injection E.
Qed.

#[global] Instance virtio_transmits : Transmits (fun n => netif_virtio_xmit (Some n)).
Proof.
  intros o s n i Hc Hi Hop. unfold netif_virtio_xmit. eapply wp_eq; [by apply load_netif_at|].
  eapply wp_mono; [|apply (virtio_xmit_loop_ok _ o s n i); [done..|]]; [by intros ? ? (? & ? & _)|].
  pose proof (core_side _ _ SOut _ _ Hc Hi Hop) as ((_ & _ & _ & _ & Hcnt & _) & _).
  cbn. rewrite Hi. cbn. cbn in Hcnt. lia.
Qed.

#[global] Instance call_transmits d : Transmits (call_xmit d).
Proof. destruct d; apply _. Qed.

(** ** Building a frame *)

(** Storing the next field of a header: [acc] are the fields before it. *)
Lemma own_hdr_next {o s b acc rest n i d m} off v :
  own o s b (acc ++ rest) n -> front (pkt s) b i d m -> are_bytes v ->
  off = len acc -> len v <= len rest -> len acc + len v <= m ->
  wp (fun _ s' => own o s' b ((acc ++ v) ++ drop (length v) rest) n /\ front (pkt s') b i d m /\
        calm [b] s s') (hdr_store (i, d) off v s).
Proof.
  intros Hown Hf Hv -> Hl Hm.
  eapply wp_mono; [|apply (own_hdr_store Hown Hf); [done|lia|lia]].
  intros _ s' (Hown' & Hf' & Hn). split_and!; [|done..].
  replace ((acc ++ v) ++ drop (length v) rest) with (splice (Z.to_nat (len acc)) v (acc ++ rest)); [done|].
  unfold splice. rewrite Nat2Z.id, take_app_length, drop_app_add. by rewrite app_assoc.
Qed.

(** Fields are arrays of bytes. *)
Lemma are_bytes_le16 v : are_bytes (le16 v).
Proof. unfold le16, is_byte. repeat constructor; apply u8_range. Qed.
Lemma are_bytes_take n l : are_bytes l -> are_bytes (take n l).
Proof. apply Forall_take. Qed.
Lemma are_bytes_drop n l : are_bytes l -> are_bytes (drop n l).
Proof. apply Forall_drop. Qed.
Lemma are_bytes_replicate n v : is_byte v -> are_bytes (replicate n v).
Proof. apply Forall_replicate. Qed.
Lemma are_bytes_app l l' : are_bytes l -> are_bytes l' -> are_bytes (l ++ l').
Proof. intros. by apply Forall_app. Qed.
Lemma are_bytes_le32 v : are_bytes (le32 v).
Proof. unfold le32, is_byte. repeat constructor; apply u8_range. Qed.
Create HintDb bytes.
#[export] Hint Resolve Forall_nil_2 Forall_cons_2 are_bytes_le16 are_bytes_le32 are_bytes_take are_bytes_drop are_bytes_replicate
  are_bytes_app are_bytes_be16 are_bytes_ipaddr_to_buf : bytes.
#[export] Hint Extern 1 (is_byte (u8 _)) => apply u8_range : bytes.
#[export] Hint Extern 1 (is_byte _) => by split : bytes.
#[export] Hint Extern 2 (is_byte _) => by (split; lia) : bytes.

Create HintDb lens.
#[export] Hint Rewrite @length_app @length_drop @length_take @length_replicate @length_ipaddr_to_buf : lens.
Ltac lens := autorewrite with lens; cbn [length le16 be16 le32 be32];
  unfold ETH_HWA_SIZE, IPV4_ADDR_SIZE in *; lia.

(** The next store to a header that is written field by field. *)
Tactic Notation "hdr_next" constr(off) "as" simple_intropattern(pat) :=
  let k := eval vm_compute in off in
  wstep (own_hdr_next k) as pat; [by eauto with bytes|lens..|].

(** The fields of a header that is read. *)
Lemma nth_segment {A} j c k (l : list A) x : (j < c)%nat -> nth j (take c (drop k l)) x = nth (k + j) l x.
Proof. intros Hj. by rewrite !nth_lookup, lookup_take_lt, lookup_drop. Qed.

Lemma own_load8 {o s b bs n i d m} (Ho : own o s b bs n) (Hf : front (pkt s) b i d m) off :
  0 <= off < m -> hdr_load8 (i, d) off s = Ret (byte_at bs (Z.to_nat off)) s.
Proof.
  intros. unfold hdr_load8. mstep by (by apply (own_hdr_load Ho Hf off 1); lia).
  unfold byte_at. rewrite nth_segment by (cbn; lia). by rewrite Nat.add_0_r.
Qed.

Lemma own_load16 {o s b bs n i d m} (Ho : own o s b bs n) (Hf : front (pkt s) b i d m) off :
  0 <= off -> off + 2 <= m -> hdr_load16 (i, d) off s = Ret (load16 bs (Z.to_nat off)) s.
Proof.
  intros. unfold hdr_load16. mstep by (by apply (own_hdr_load Ho Hf off 2); lia).
  unfold load16, byte_at. rewrite !nth_segment by (cbn; lia). by rewrite Nat.add_0_r, Nat.add_1_r.
Qed.

Definition eth_pad (bs : bytes) : bytes := bs ++ replicate (Z.to_nat (ETH_DATA_MIN - len bs)) 0.

(** The frame [ether_raw_out] builds. *)
Definition eth_frame (dest src : bytes) (protocol : Z) (bs : bytes) : bytes :=
  take ETH_HWA_SIZE dest ++ take ETH_HWA_SIZE src ++ be16 (u16 protocol) ++ eth_pad bs.

Lemma ether_pad_ok o s b bs n :
  own o s b bs n ->
  wp (fun e s' => calm [b] s s' /\
        ((e = NET_ERR_OK /\ exists n', own o s' b (eth_pad bs) n') \/
         (e = NET_ERR_MEM /\ core (b :: o) s')))
     (ether_pad b (len bs) s).
Proof.
  intros Hown. unfold ether_pad, eth_pad. destruct (Z.ltb_spec (len bs) ETH_DATA_MIN).
  2: { cbn. split; [done|]. left. split; [done|]. exists n. unfold ETH_DATA_MIN in *.
       replace (Z.to_nat (46 - len bs)) with 0%nat by lia. by rewrite app_nil_r. }
  wstep own_resize as (Hn1 & _ & H1); [done|]. rewrite (proj2 (Z.leb_gt _ _)) in H1 by lia.
  destruct H1 as [(-> & ext & Hl & Hown1)|(-> & Hown1)].
  2: { cbn. split; [done|]. right. split; [done|]. by destruct Hown1. }
  cbn [NET_ERR_OK Z.ltb Z.compare]. wstep own_reset_acc as (Hown2 & Hn2 & _).
  wstep own_seek as (Hn3 & _ & H3); [lia|]. rewrite length_app, (proj2 (Z.ltb_ge _ _)) in H3 by lia.
  destruct H3 as [-> Hown3]. cbn [NET_ERR_OK Z.ltb Z.compare].
  eapply wp_mono; [|apply (own_fill Hown3 0); [split; lia|lia]]. intros e s4 (Hn4 & _ & H4).
  rewrite length_app, (proj2 (Z.ltb_ge _ _)) in H4 by lia. destruct H4 as [-> Hown4].
  split; [by repeat (etransitivity; [eassumption|])|]. left. split; [done|].
  eexists. unfold splice in Hown4.
  rewrite Nat2Z.id, take_app_length, length_replicate, drop_ge, app_nil_r in Hown4
    by (rewrite length_app; lia). exact Hown4.
Qed.

Lemma own_put_out o s b bs n0 n i :
  own o s b bs n0 -> netif_buffer s !! n = Some i -> opened i = true ->
  wp (fun e s' => (e = NET_ERR_OK /\ core o s' /\ near [b] s s' /\
                     pkt s' = pkt s /\ tx_frames s' = tx_frames s /\
                     holds s' (OutQueue n) = holds s (OutQueue n) ++ [b]) \/
                  (e = NET_ERR_FULL /\ s' = s)) (put_out (Some n) (Some b) s).
Proof.
  intros Hown Hi Hop. unfold netif_put_out. change (out_ref n) with (side_ref SOut n).
  eapply wp_mono; [|by eapply (own_send o s b bs n0 SOut)].
  intros e s' [(-> & Hc & Hn & Hp & Htx & l & El & Hh)|H]; [left|by right].
  split_and!; [done..|]. rewrite Hh, decide_True by done. by rewrite <- El.
Qed.

(** A packet of the caller through the driver. *)
Lemma put_xmit_ok o s b bs n0 n i xmit `{!Transmits xmit} :
  own o s b bs n0 -> netif_buffer s !! n = Some i -> opened i = true ->
  wp (fun _ s' => core o s' /\ near [b] s s')
     ((err ← put_out (Some n) (Some b); if err <? 0 then free_return b err else xmit n) s).
Proof.
  intros Hown Hi Hop. wstep own_put_out as H.
  destruct H as [(-> & Hc1 & Hn1 & _)|[-> ->]]; cbn [NET_ERR_OK NET_ERR_FULL Z.ltb Z.compare].
  - destruct (near_opened _ _ _ _ _ Hn1 Hi) as (i1 & Hi1 & _ & Hop1).
    eapply wp_mono; [|apply (transmits o s' n i1); [done..|by rewrite Hop1]].
    intros e s2 [Hc2 Hn2]. split; [done|]. transitivity s'; [done|]. eapply near_mono, Hn2. set_solver.
  - apply (free_return_ok o); [by destruct Hown|]. intros s2 Hc2 Hn2. split; [done|by apply calm_near].
Qed.

Lemma ether_send_ok o s b bs n0 n i i' dest :
  own o s b bs n0 -> netif_buffer s !! n = Some i' -> opened i' = true ->
  wp (fun _ s' => core o s' /\ near [b] s s') (ether_send n i dest b s).
Proof.
  intros Hown Hi Hop. unfold ether_send. case_bool_decide.
  - unfold netif_put_in. change (in_ref n) with (side_ref SIn n).
    wstep (own_send o s b bs n0 SIn) as H0.
    destruct H0 as [(-> & Hc1 & Hn1 & _)|[-> ->]]; [by cbn|].
    cbn [when NET_ERR_FULL Z.ltb Z.compare]. wstep own_free as [Hc2 Hn2]; [by destruct Hown|].
    cbn. split; [done|by apply calm_near].
  - destruct (ops i ≫= op_xmit) as [d|].
    + by eapply put_xmit_ok; [apply _| | |].
    + apply (free_return_ok o); [by destruct Hown|]. intros s2 Hc2 Hn2. split; [done|by apply calm_near].
Qed.

(** [ether_raw_out] fails and frees the packet, or gives the frame to
    [ether_send]. *)
Lemma ether_raw_out_frame {o s b bs n0 n i} protocol dest (Q : Z -> net -> Prop) :
  own o s b bs n0 -> netif_buffer s !! n = Some i ->
  are_bytes dest -> (ETH_HWA_SIZE <= length dest)%nat ->
  (forall e s', e < 0 -> core o s' -> calm [b] s s' -> Q e s') ->
  (forall s', state i = NETIF_ACTIVE -> len bs <= ETH_MTU ->
     own o s' b (eth_frame dest (hw_addr (hwaddr i)) protocol bs) 0 -> calm [b] s s' ->
     wp Q (ether_send n i dest b s')) ->
  wp Q (ether_raw_out (Some n) protocol (Some dest) (Some b) s).
Proof.
  intros Hown Hi Hd Hdl Herr Hsend. unfold ether_raw_out.
  destruct (core_netif _ _ (proj1 Hown) n i Hi) as (Hhl & Hhb & _).
  eapply wp_eq; [by apply load_netif_at|].
  destruct (_ || _) eqn:Hst.
  { apply (free_return_ok o); [by destruct Hown|]. intros. by apply Herr. }
  apply orb_false_iff in Hst as [Hst _]. apply negb_false_iff, bool_decide_eq_true in Hst.
  eapply wp_eq; [by eapply own_total|]. rewrite (proj2 (Z.ltb_ge (len bs) 0)) by lia. cbn [orb].
  destruct (Z.ltb_spec ETH_MTU (len bs)).
  { apply (free_return_ok o); [by destruct Hown|]. intros. by apply Herr. }
  wstep ether_pad_ok as (Hn1 & H1). destruct H1 as [(-> & n1 & Hown1)|(-> & Hc1)].
  2: { apply (free_return_ok o); [done|]. intros. apply Herr; [done..|by transitivity s']. }
  cbn [NET_ERR_OK Z.ltb Z.compare]. wstep own_add_header as (Hn2 & H2); [done|].
  destruct H2 as [(-> & (hdr & Hlh & Hown2) & bi & d & Hf2)|(-> & Hown2)].
  2: { apply (free_return_ok o); [by destruct Hown2|]. intros. apply Herr; [done..|].
       by do 2 (etransitivity; [eassumption|]). }
  cbn [NET_ERR_OK Z.ltb Z.compare]. eapply wp_eq; [by eapply own_data|].
  unfold sizeof_ether_hdr_t in *. unfold ETH_HWA_SIZE, NETIF_HWADDR_SIZE in *.
  assert (Hl1 : length (take 6 dest) = 6%nat) by (rewrite length_take; lia).
  assert (Hl2 : length (take 6 (hw_addr (hwaddr i))) = 6%nat) by (rewrite length_take; lia).
  wstep (own_hdr_next (acc := []) ether_dest) as (Hown3 & Hf3 & Hn3);
    [by apply Forall_take|done|rewrite length_app; lia|change (len []) with 0; lia|].
  wstep (own_hdr_next ether_src) as (Hown4 & Hf4 & Hn4);
    [by apply Forall_take|cbn [app]; by rewrite Hl1|rewrite length_drop, length_app; lia
    |cbn [app]; rewrite Hl1, Hl2; lia|].
  wstep (own_hdr_next ether_protocol) as (Hown5 & Hf5 & Hn5);
    [rewrite le16_x_htons; apply are_bytes_be16|cbn [app]; by rewrite length_app, Hl1, Hl2
    |rewrite !length_drop, length_app; cbn [length le16]; lia
    |cbn [app]; rewrite length_app; cbn [length le16]; lia|].
  apply Hsend; [done|lia| |by repeat (etransitivity; [eassumption|])].
  replace (eth_frame _ _ _ _) with
    (((([] ++ take 6 dest) ++ take 6 (hw_addr (hwaddr i))) ++ le16 (x_htons protocol)) ++
     drop (length (le16 (x_htons protocol))) (drop (length (take 6 (hw_addr (hwaddr i))))
       (drop (length (take 6 dest)) (hdr ++ eth_pad bs)))); [done|].
  unfold eth_frame. rewrite le16_x_htons, <- !app_assoc, Hl1, Hl2. cbn [app]. do 3 f_equal.
  rewrite !drop_drop. cbn [length be16 Nat.add]. by rewrite drop_app_length' by lia.
Qed.

Lemma ether_raw_out_ok o s b bs n0 n i protocol dest :
  own o s b bs n0 -> netif_buffer s !! n = Some i ->
  are_bytes dest -> (ETH_HWA_SIZE <= length dest)%nat ->
  wp (fun _ s' => core o s' /\ near [b] s s')
     (ether_raw_out (Some n) protocol (Some dest) (Some b) s).
Proof.
  intros Hown Hi Hd Hdl. apply (ether_raw_out_frame protocol dest _ Hown Hi Hd Hdl).
  - intros e s' _ Hc Hn. split; [done|by apply calm_near].
  - intros s' Hst _ Hown' Hn.
    destruct (near_opened _ _ _ _ _ (calm_near _ _ _ Hn) Hi) as (i' & Hi' & _ & Hop').
    eapply wp_mono; [|by eapply ether_send_ok; [| |rewrite Hop'; unfold opened; rewrite Hst]].
    intros e s2 [Hc2 Hn2]. split; [done|]. transitivity s'; [by apply calm_near|done].
Qed.
