(* ===== verification/OwnerArp.v ===== *)
(** * The ARP cache under the ownership invariant

    [arp_ok h s]: every entry of the cache is in use, free or in the hands of
    the running function ([h]); the entries in use have distinct keys, belong
    to an interface and hold at most [ARP_MAX_PKT_WAIT] packets; no other
    entry holds a packet. *)

From S2P Require Import Prelude Tools IpAddr Nlist Timer Mblock Pktbuf PktbufSpec PktbufChain.
From S2P Require Import PktbufOps PktbufFrame Sys Fixq Net Netif Ether Arp Owner OwnerPkt.
From S2P Require Import OwnerQueue OwnerOut.

Definition entry_ok (s : net) (x : arp_entry_t) : Prop :=
  (exists n, arp_netif x = Some n /\ n ∈ dom (netif_buffer s)) /\
  arp_state x <> NET_ARP_FREE /\ length (haddr x) = ETH_HWA_SIZE /\ are_bytes (haddr x) /\
  0 <= paddr x < 2 ^ 32 /\ len (buf_list x) <= ARP_MAX_PKT_WAIT.

Record arp_ok (h : list nat) (s : net) : Prop := {
  arp_perm : cache_list s ++ free_list (cache_blocks s) ++ h ≡ₚ elements (dom (cache_entries s));
  arp_used : forall e x, e ∈ cache_list s -> cache_entries s !! e = Some x -> entry_ok s x;
  arp_keys : forall e e' x x', e ∈ cache_list s -> e' ∈ cache_list s ->
    cache_entries s !! e = Some x -> cache_entries s !! e' = Some x' ->
    arp_netif x = arp_netif x' -> paddr x = paddr x' -> e = e';
  arp_idle : forall e x, e ∉ cache_list s -> cache_entries s !! e = Some x -> buf_list x = [] }.

(** The state without the ARP cache. *)
Definition beyond (s : net) : net :=
  (outside s) <| cache_entries := ∅ |> <| cache_list := [] |> <| cache_blocks := MBlock [] |>
    <| next_packet_id := 0 |>.
Definition far (bs : list nat) (s s' : net) : Prop := beyond s' = beyond s /\ spared bs s s'.

#[global] Instance far_refl bs : Reflexive (far bs).
Proof. by split. Qed.
#[global] Instance far_trans bs : Transitive (far bs).
Proof. intros s1 s2 s3 [E1 H1] [E2 H2]. split; [by rewrite E2|by transitivity s2]. Qed.
Lemma far_mono bs bs' s s' : bs ⊆ bs' -> far bs s s' -> far bs' s s'.
Proof. intros Hs [E H]. split; [done|by eapply spared_mono]. Qed.
Lemma near_far bs s s' : near bs s s' -> far bs s s'.
Proof. intros [E H]. split; [|done]. unfold beyond. by rewrite E. Qed.
Lemma calm_far bs s s' : calm bs s s' -> far bs s s'.
Proof. intros. by apply near_far, calm_near. Qed.
Lemma far_drop b bs s s' :
  (~ loose s b \/ (forall p, ~ live (pkt s) b p)) -> far (b :: bs) s s' -> far bs s s'.
Proof. intros Hb [E H]. split; [done|by eapply spared_drop]. Qed.

Lemma beyond_netif {s s'} n i : beyond s' = beyond s -> netif_buffer s !! n = Some i ->
  exists i', netif_buffer s' !! n = Some i' /\ face i' = face i.
Proof.
  intros E Hi. apply (f_equal netif_buffer), (f_equal (.!! n)) in E. cbn in E.
  rewrite !lookup_fmap, Hi in E. destruct (netif_buffer s' !! n) as [i'|]; [|done].
  exists i'. split; [done|]. by apply (inj Some) in E.
Qed.

Lemma beyond_dom {s s'} : beyond s' = beyond s -> dom (netif_buffer s') = dom (netif_buffer s).
Proof.
  intros E. apply (f_equal netif_buffer) in E. cbn in E.
  by rewrite <- (dom_fmap_L face), E, dom_fmap_L.
Qed.

(** The packet of the running function is as it was. *)
Lemma own_spared o s s' b bs n bs' :
  own o s b bs n -> spared bs' s s' -> b ∉ bs' -> core (b :: o) s' -> own o s' b bs n.
Proof.
  intros (_ & Hl & r & p & Hp & E) Hs Hb Hc. destruct (Hs b p Hb Hl Hp) as (Hl' & Hp' & Ha).
  split_and!; [done..|]. exists r, p. split; [done|]. by rewrite (agree_chain_bytes _ _ _ Ha).
Qed.

Lemma front_spared s s' b i d m bs' :
  front (pkt s) b i d m -> loose s b -> spared bs' s s' -> b ∉ bs' -> front (pkt s') b i d m.
Proof.
  intros (p & l & k & Hp & Hl & Hk & Hd & Hm) Hlo Hs Hb. destruct (Hs b p Hb Hlo Hp) as (_ & Hp' & Ha).
  exists p, l, k. split_and!; [done..| |done|done]. rewrite Ha; [done|]. rewrite Hl. by left.
Qed.

Lemma arp_ok_near h s s' bs : near bs s s' -> arp_ok h s -> arp_ok h s'.
Proof.
  intros [E _] []. split; rewrite ?(outside_list E), ?(outside_entries E), ?(outside_blocks E); try done.
  intros e x He Hx. destruct (arp_used0 e x He Hx) as ((n & Hn & Hd) & ?).
  split; [|done]. exists n. by rewrite (outside_dom E).
Qed.

Lemma arp_in_dom h s e : arp_ok h s -> e ∈ cache_list s -> exists x, cache_entries s !! e = Some x.
Proof.
  intros Ha He. apply elem_of_dom. apply elem_of_elements. rewrite <- (arp_perm _ _ Ha). set_solver.
Qed.

Lemma arp_nodup h s : arp_ok h s -> NoDup (cache_list s ++ free_list (cache_blocks s) ++ h).
Proof. intros Ha. rewrite (arp_perm _ _ Ha). apply NoDup_elements. Qed.

(** ** Changing an entry *)

Definition with_entry (s : net) (e : nat) (x : arp_entry_t) : net :=
  s <| cache_entries := <[e := x]> (cache_entries s) |>.

Lemma load_entry_at s e x : cache_entries s !! e = Some x -> load_entry e s = Ret x s.
Proof. intros H. unfold load_entry. mstep. by apply deref_ret. Qed.

Lemma store_entry_at s e x f :
  cache_entries s !! e = Some x -> store_entry e f s = Ret () (with_entry s e (f x)).
Proof. intros H. unfold store_entry. by mstep by (by apply load_entry_at). Qed.

Lemma with_entry_holds s e x pl :
  holds (with_entry s e x) pl = if decide (pl = Waiting e) then buf_list x else holds s pl.
Proof.
  destruct pl as [m|m|e'|a j|p]; try done. cbn. destruct (decide (e' = e)) as [->|Hne].
  - by rewrite lookup_insert_eq, decide_True.
  - rewrite lookup_insert_ne by done. by rewrite decide_False by congruence.
Qed.

Lemma with_entry_core o o' s e x :
  core o s -> acct (refs (pkt s)) (holds (with_entry s e x)) o' -> core o' (with_entry s e x).
Proof. intros [] Ha. by split. Qed.

Lemma with_entry_id s e x : cache_entries s !! e = Some x -> with_entry s e x = s.
Proof. intros Hx. unfold with_entry. rewrite insert_id by done. by destruct s. Qed.

Lemma with_entry_twice s k e x y :
  with_entry ((with_entry s e x) <| pkt := k |>) e y = (with_entry s e y) <| pkt := k |>.
Proof.
  unfold with_entry. cbn [upd_field cache_entries]. rewrite insert_insert_eq. by destruct s.
Qed.

Lemma no_waiting x : buf_list x = [] -> x <| buf_list := [] |> = x.
Proof. destruct x. cbn. by intros ->. Qed.

(** A change of an entry that keeps its packets. *)
Lemma with_entry_same o s e x x' :
  core o s -> cache_entries s !! e = Some x -> buf_list x' = buf_list x ->
  core o (with_entry s e x') /\ far [] s (with_entry s e x').
Proof.
  intros Hc Hx Hb.
  assert (Hh : forall pl, holds (with_entry s e x') pl = holds s pl).
  { intros pl. rewrite with_entry_holds. case_decide as E; [|done]. subst pl. cbn. by rewrite Hx. }
  split.
  - eapply with_entry_core; [done|]. eapply acct_ext; [by apply core_acct|done..|done].
  - split; [by destruct s|]. intros c p _ Hl Hp. split_and!; [|done..]. intros pl. rewrite Hh. apply Hl.
Qed.

Lemma set_list_same o s f :
  core o s -> let s' := s <| cache_list := f (cache_list s) |> in
  set_cache_list f s = Ret () s' /\ core o s' /\ far [] s s'.
Proof. intros [] s'. split_and!; [done|by split|]. split; [by destruct s|]. by intros c p. Qed.

(** ** Packets that wait *)

Lemma own_intro o s b :
  core (b :: o) s -> loose s b -> exists bs n, own o s b bs n.
Proof.
  intros Hc Hl. destruct (core_view _ _ b Hc) as (bs & n & r & Hv); [left; set_solver|].
  exists bs, n. split_and!; [done..|]. by exists r.
Qed.

Lemma pop_waiting_ok o s e x :
  core o s -> cache_entries s !! e = Some x ->
  match buf_list x with
  | [] => pop_waiting e s = Ret None s
  | b :: l => pop_waiting e s = Ret (Some b) (with_entry s e (x <| buf_list := l |>)) /\
      (exists bs n, own o (with_entry s e (x <| buf_list := l |>)) b bs n) /\
      far [] s (with_entry s e (x <| buf_list := l |>)) /\ ~ loose s b
  end.
Proof.
  intros Hc Hx. destruct (buf_list x) as [|b l] eqn:Hb; unfold pop_waiting;
    (mstep by (by apply load_entry_at)); rewrite Hb; [done|].
  set (s' := with_entry s e (x <| buf_list := l |>)).
  assert (Hpl : holds s (Waiting e) = b :: l) by (cbn; by rewrite Hx).
  assert (Hacct : acct (refs (pkt s)) (holds s') (b :: o) /\ loose s' b).
  { apply (acct_take _ (holds s) _ _ _ l (Waiting e)); [by apply core_acct|done| |].
    - unfold s'. by rewrite with_entry_holds, decide_True.
    - intros pl Hne. unfold s'. by rewrite with_entry_holds, decide_False. }
  destruct Hacct as [Ha Hl]. split_and!.
  - by mstep by (by apply store_entry_at).
  - apply own_intro; [by eapply with_entry_core|done].
  - split; [by destruct s|]. intros c p _ Hlc Hp. split_and!; [|done..]. intros pl. unfold s'.
    rewrite with_entry_holds. case_decide; [|apply Hlc]. cbn. specialize (Hlc (Waiting e)).
    rewrite Hpl in Hlc. set_solver.
  - intros Hlc. apply (Hlc (Waiting e)). rewrite Hpl. set_solver.
Qed.

Lemma with_entry_calm bs s s' e x :
  calm bs (with_entry s e x) s' -> s' = (with_entry s e x) <| pkt := pkt s' |>.
Proof. by intros [_ ?]. Qed.

(** The packets of the entry [e] are freed; nothing else changes. *)
Lemma free_waiting_loop_ok fuel o s e x :
  core o s -> cache_entries s !! e = Some x -> (length (buf_list x) <= fuel)%nat ->
  wp (fun _ s' => core o s' /\ far [] s s' /\
        s' = (with_entry s e (x <| buf_list := [] |>)) <| pkt := pkt s' |>)
     (free_waiting_loop fuel e s).
Proof.
  revert s x. induction fuel as [|fuel IH]; intros s x Hc Hx Hf; cbn [free_waiting_loop];
    pose proof (pop_waiting_ok o s e x Hc Hx) as Hpop; destruct (buf_list x) as [|b l] eqn:Hb.
  1, 3: eapply wp_eq; [exact Hpop|]; cbn; split_and!; [done..|];
    rewrite no_waiting, with_entry_id by done; by destruct s.
  { cbn in Hf. lia. }
  destruct Hpop as (Hrun & (bs & n & Hown) & Hfar & Hnl). eapply wp_eq; [exact Hrun|].
  wstep own_free as [Hc2 Hn2]; [by destruct Hown|].
  assert (Hx2 : cache_entries s' !! e = Some (x <| buf_list := l |>)).
  { destruct Hn2 as [_ ->]. cbn. apply lookup_insert_eq. }
  eapply wp_mono; [|apply (IH s' (x <| buf_list := l |>)); [done..|cbn in *; lia]].
  intros _ s3 (Hc3 & Hfar3 & E3). split_and!; [done| |].
  - transitivity s'; [|done]. apply (far_drop b); [by left|].
    transitivity (with_entry s e (x <| buf_list := l |>)); [|by apply calm_far].
    eapply far_mono, Hfar. set_solver.
  - rewrite E3. destruct Hn2 as [_ E2]. rewrite E2, with_entry_twice. by destruct s.
Qed.

Lemma arp_free_waiting_ok o s e x :
  core o s -> cache_entries s !! e = Some x ->
  wp (fun _ s' => core o s' /\ far [] s s' /\
        s' = (with_entry s e (x <| buf_list := [] |>)) <| pkt := pkt s' |>)
     (arp_free_waiting e s).
Proof.
  intros Hc Hx. unfold arp_free_waiting. eapply wp_eq; [by apply load_entry_at|].
  by apply free_waiting_loop_ok.
Qed.

(** ** Finding and allocating entries *)

Definition has_key (n : nat) (a : Z) (x : arp_entry_t) : Prop := arp_netif x = Some n /\ paddr x = a.

Lemma remove_node_perm e (l : list nat) : e ∈ l -> e :: remove_node e l ≡ₚ l.
Proof.
  induction l as [|y l IH]; intros He; [set_solver|]. cbn. case_decide as E; [by subst|].
  rewrite Permutation_swap. f_equiv. apply IH. set_solver.
Qed.

Definition touched (s : net) (e : nat) : net :=
  s <| cache_list := e :: remove_node e (cache_list s) |>.

Lemma find_entry_loop_ok s n a nodes :
  (forall e, e ∈ nodes -> exists x, cache_entries s !! e = Some x) ->
  exists r, find_entry_loop n a nodes s = Ret r (from_option (touched s) s r) /\
    match r with
    | Some e => e ∈ nodes /\ exists x, cache_entries s !! e = Some x /\ has_key n a x
    | None => forall e x, e ∈ nodes -> cache_entries s !! e = Some x -> ~ has_key n a x
    end.
Proof.
  induction nodes as [|e nodes IH]; intros Hin; cbn [find_entry_loop].
  { exists None. split; [done|]. set_solver. }
  destruct (Hin e) as [x Hx]; [by left|]. mstep by (by apply load_entry_at).
  cbn [ipaddr_is_equal]. destruct (_ && _) eqn:Hk.
  - apply andb_true_iff in Hk as [Hn%bool_decide_eq_true Ha%Z.eqb_eq].
    exists (Some e). split; [by destruct s|]. split; [by left|]. by exists x.
  - destruct IH as (r & Hr & Hpost); [set_solver|]. exists r. split; [done|].
    assert (Hno : ~ has_key n a x).
    { intros [Hn Ha]. by rewrite bool_decide_eq_true_2, (proj2 (Z.eqb_eq _ _)) in Hk. }
    destruct r as [e'|]; [destruct Hpost; split; [by right|done]|].
    intros e' x' [->|He']%elem_of_cons Hx'; [congruence|by eapply Hpost].
Qed.

Lemma arp_find_entry_ok o h s n a :
  core o s -> arp_ok h s ->
  wp (fun r s' => core o s' /\ arp_ok h s' /\ far [] s s' /\ cache_entries s' = cache_entries s /\
        (forall e, e ∈ cache_list s' <-> e ∈ cache_list s) /\
        match r with
        | Some e => e ∈ cache_list s' /\ exists x, cache_entries s' !! e = Some x /\ has_key n a x
        | None => s' = s /\
            forall e x, e ∈ cache_list s -> cache_entries s !! e = Some x -> ~ has_key n a x
        end) (arp_find_entry n a s).
Proof.
  intros Hc Ha. unfold arp_find_entry. eapply wp_eq; [reflexivity|].
  destruct (find_entry_loop_ok s n a (cache_list s)) as (r & Hr & Hpost).
  { intros e He. by eapply arp_in_dom. }
  eapply wp_run; [exact Hr|]. destruct r as [e|]; cbn [from_option].
  2: { by split_and!. }
  destruct Hpost as (He & x & Hx & Hk).
  assert (Hp : cache_list (touched s e) ≡ₚ cache_list s) by (by apply remove_node_perm).
  assert (Hin : forall e', e' ∈ cache_list (touched s e) <-> e' ∈ cache_list s) by (intros; by rewrite Hp).
  split_and!; [by destruct Hc| | |done|done|by apply Hin|by exists x].
  - destruct Ha as [Hperm Hu Hky Hid]. split.
    + by rewrite Hp.
    + intros e' y He'%Hin. by apply Hu.
    + intros e1 e2 x1 x2 H1%Hin H2%Hin. by apply Hky.
    + intros e' y He'. apply Hid. by rewrite <- Hin.
  - split; [by destruct s|]. by intros c p.
Qed.

(** The entries in use that stay as they are. *)
Definition fewer (s s' : net) : Prop :=
  forall e, e ∈ cache_list s' -> e ∈ cache_list s /\ cache_entries s' !! e = cache_entries s !! e.

#[global] Instance fewer_refl : Reflexive fewer.
Proof. by intros s e. Qed.

(** [arp_ok] for a cache whose entries in use are some of those of [s]. *)
Lemma arp_ok_fewer h h' s s' :
  arp_ok h s -> fewer s s' -> beyond s' = beyond s ->
  dom (cache_entries s') = dom (cache_entries s) ->
  cache_list s' ++ free_list (cache_blocks s') ++ h' ≡ₚ cache_list s ++ free_list (cache_blocks s) ++ h ->
  (forall e x, e ∉ cache_list s' -> cache_entries s' !! e = Some x -> buf_list x = []) ->
  arp_ok h' s'.
Proof.
  intros [Hp Hu Hk _] Hf E Hd Hperm Hid. split; [by rewrite Hperm, Hd| | |done].
  - intros e x He Hx. destruct (Hf e He) as [He' Ex]. rewrite Ex in Hx.
    destruct (Hu e x He' Hx) as ((n & Hn & Hdn) & ?). split; [|done]. exists n. by rewrite (beyond_dom E).
  - intros e1 e2 x1 x2 H1 H2. destruct (Hf e1 H1) as [? ->], (Hf e2 H2) as [? ->]. by apply Hk.
Qed.

Lemma removelast_last {A} (l : list A) x : last l = Some x -> removelast l ++ [x] = l.
Proof.
  destruct l as [|y l _] using rev_ind; [done|]. rewrite last_snoc. intros [= ->].
  by rewrite removelast_last.
Qed.

Definition alloc_post (o : list nat) (s : net) (r : option nat) (s' : net) : Prop :=
  core o s' /\ far [] s s' /\ fewer s s' /\
  match r with
  | Some e => arp_ok [e] s' /\ e ∉ cache_list s' /\ cache_entries s' !! e = Some zero_entry
  | None => s' = s
  end.

Definition clear_entry (e : nat) : M net (option nat) :=
  store_entry e (fun _ => zero_entry);; mret (Some e).

(** The entry comes from the free list. *)
Lemma alloc_free_ok o s e fr :
  core o s -> arp_ok [] s -> free_list (cache_blocks s) = e :: fr ->
  wp (alloc_post o s) (clear_entry e (s <| cache_blocks := MBlock fr |>)).
Proof.
  intros Hc Ha Hfr. pose proof (arp_nodup _ _ Ha) as Hnd. rewrite Hfr, app_nil_r in Hnd.
  set (s1 := s <| cache_blocks := MBlock fr |>).
  destruct (cache_entries s !! e) as [x|] eqn:Hx.
  2: { apply not_elem_of_dom in Hx. destruct Hx. apply elem_of_elements.
       rewrite <- (arp_perm _ _ Ha), Hfr. set_solver. }
  assert (He : e ∉ cache_list s).
  { apply NoDup_app in Hnd as (_ & Hdis & _). intros He. apply (Hdis e He). by left. }
  assert (Hc1 : core o s1) by (by destruct Hc).
  destruct (with_entry_same o s1 e x zero_entry Hc1 Hx) as [Hc2 Hfar2];
    [by rewrite (arp_idle _ _ Ha e x He Hx)|].
  eapply wp_eq; [by apply store_entry_at|]. cbn [wp mret M_ret].
  assert (Hfar : far [] s (with_entry s1 e zero_entry)).
  { transitivity s1; [|done]. split; [by destruct s|]. by intros c p. }
  assert (Hfew : fewer s (with_entry s1 e zero_entry)).
  { intros e' He'. change (cache_list (with_entry s1 e zero_entry)) with (cache_list s) in He'.
    split; [done|]. cbn. apply lookup_insert_ne. by intros ->. }
  split_and!; [done..| |done|apply lookup_insert_eq].
  apply (arp_ok_fewer [] [e] s); [done|done|by destruct Hfar| | |].
  + cbn. by rewrite dom_insert_lookup_L.
  + cbn. rewrite Hfr, app_nil_r. by rewrite <- Permutation_cons_append.
  + intros e' y He' Hy. cbn in Hy. apply lookup_insert_Some in Hy as [[<- <-]|[_ Hy]]; [done|].
    by apply (arp_idle _ _ Ha e').
Qed.

(** The entry that was used least recently is evicted; its packets are
    freed. *)
Lemma alloc_evict_ok o s e x l :
  core o s -> arp_ok [] s -> free_list (cache_blocks s) = [] -> cache_list s = l ++ [e] ->
  cache_entries s !! e = Some x ->
  wp (fun _ s2 => wp (alloc_post o s) (clear_entry e s2)) (arp_free_waiting e (s <| cache_list := l |>)).
Proof.
  intros Hc Ha Hfr Hl Hx. pose proof (arp_nodup _ _ Ha) as Hnd.
  rewrite Hfr, Hl, !app_nil_r in Hnd. set (s1 := s <| cache_list := l |>).
  destruct (set_list_same o s (fun _ => l) Hc) as (_ & Hc1 & Hfar1). fold s1 in Hc1, Hfar1.
  eapply wp_mono; [|by apply (arp_free_waiting_ok o s1 e x)].
  intros _ s2 (Hc2 & Hfar2 & E2). set (s3 := with_entry s2 e zero_entry).
  assert (Hx2 : cache_entries s2 !! e = Some (x <| buf_list := [] |>)).
  { rewrite E2. cbn. apply lookup_insert_eq. }
  destruct (with_entry_same o s2 e _ zero_entry Hc2 Hx2) as [Hc3 Hfar3]; [done|].
  eapply wp_eq; [by apply store_entry_at|]. cbn [wp mret M_ret]. fold s3 in Hc3, Hfar3 |- *.
  assert (Hl3 : cache_list s3 = l) by (unfold s3; by rewrite E2).
  assert (Hent : forall e', e' <> e -> cache_entries s3 !! e' = cache_entries s !! e').
  { intros e' Hne. cbn. rewrite lookup_insert_ne, E2 by done. cbn. by rewrite lookup_insert_ne. }
  apply NoDup_app in Hnd as (Hndl & Hdis & _).
  assert (He : e ∉ l) by (intros He; by apply (Hdis e He); left).
  assert (Hfew : fewer s s3).
  { intros e' He'. rewrite Hl3 in He'. split; [rewrite Hl; set_solver|]. apply Hent. set_solver. }
  assert (Hfar : far [] s s3) by (transitivity s1; [done|]; by transitivity s2).
  split_and!; [done..| |by rewrite Hl3|apply lookup_insert_eq].
  apply (arp_ok_fewer [] [e] s); [done|done|by destruct Hfar| | |].
  + cbn. rewrite E2. cbn. rewrite dom_insert_lookup_L, dom_insert_lookup_L; [done|eauto|].
    cbn. rewrite lookup_insert_eq. eauto.
  + rewrite Hl3, Hl. unfold s3. rewrite E2. cbn. rewrite Hfr. cbn. by rewrite app_nil_r.
  + intros e' y. rewrite Hl3. intros He' Hy. destruct (decide (e' = e)) as [->|Hne].
    * cbn in Hy. rewrite lookup_insert_eq in Hy. by simplify_eq.
    * rewrite Hent in Hy by done. apply (arp_idle _ _ Ha e'); [|done]. rewrite Hl. set_solver.
Qed.

Lemma arp_alloc_entry_ok o s force :
  core o s -> arp_ok [] s -> wp (alloc_post o s) (arp_alloc_entry force s).
Proof.
  intros Hc Ha. unfold arp_alloc_entry. destruct (free_list (cache_blocks s)) as [|e fr] eqn:Hfr.
  - eapply wp_eq; [apply zoom_ret; unfold mblock_alloc; mstep; cbn [cache_blocks_lens lget]; by rewrite Hfr|].
    assert (lset cache_blocks_lens (cache_blocks s) s = s) as -> by (by destruct s).
    rewrite bool_decide_eq_true_2 by done. cbn [andb]. destruct force.
    2: { eapply wp_eq; [reflexivity|]. cbn [wp mret M_ret]. by split_and!. }
    destruct (last (cache_list s)) as [e|] eqn:Hlast.
    2: { eapply wp_eq; [mstep; by rewrite Hlast|]. cbn [wp mret M_ret]. by split_and!. }
    pose proof (removelast_last _ _ Hlast) as Hl.
    destruct (arp_in_dom _ _ e Ha) as [x Hx]; [rewrite <- Hl; set_solver|].
    apply wp_bind. eapply wp_eq; [reflexivity|]. rewrite Hlast. eapply wp_eq; [reflexivity|].
    eapply wp_step; [by eapply (alloc_evict_ok o s e x)|]. done.
  - eapply wp_eq; [apply zoom_ret; unfold mblock_alloc; mstep; cbn [cache_blocks_lens lget];
      rewrite Hfr; mstep; reflexivity|].
    rewrite bool_decide_eq_false_2 by done. cbn [andb]. eapply wp_eq; [reflexivity|].
    by apply alloc_free_ok.
Qed.

(** ** Entering and removing entries *)

(** A new or changed entry of [cache_list], with the key [n], [a]. *)
Lemma arp_ok_enter h s s' e x' n :
  arp_ok h s -> beyond s' = beyond s -> cache_entries s' = <[e := x']> (cache_entries s) ->
  (forall c, c ∈ cache_list s' <-> c = e \/ c ∈ cache_list s) ->
  e ∈ dom (cache_entries s) ->
  cache_list s' ++ free_list (cache_blocks s') ≡ₚ cache_list s ++ free_list (cache_blocks s) ++ h ->
  entry_ok s x' -> arp_netif x' = Some n ->
  (forall c y, c ∈ cache_list s -> c <> e -> cache_entries s !! c = Some y -> ~ has_key n (paddr x') y) ->
  arp_ok [] s'.
Proof.
  intros [Hp Hu Hk Hid] E Hent Hin Hd Hperm Hx' Hn Hnew.
  assert (Hentry : forall y, entry_ok s y -> entry_ok s' y).
  { intros y ((m & Hm & Hdm) & ?). split; [|done]. exists m. by rewrite (beyond_dom E). }
  split; rewrite ?Hent.
  - rewrite app_nil_r, Hperm, Hp, dom_insert_lookup_L; [done|]. by apply elem_of_dom.
  - intros c y Hc [[<- <-]|[Hne Hy]]%lookup_insert_Some; [by apply Hentry|].
    apply Hin in Hc as [->|Hc]; [done|]. eauto.
  - intros c c' y y' Hc Hc' Hy Hy' Hnn Hpp.
    apply lookup_insert_Some in Hy as [[<- <-]|[Hne Hy]], Hy' as [[<- <-]|[Hne' Hy']]; [done|..].
    + apply Hin in Hc' as [->|Hc']; [done|]. destruct (Hnew c' y'); [done..|]. split; congruence.
    + apply Hin in Hc as [->|Hc]; [done|]. destruct (Hnew c y); [done..|]. split; congruence.
    + apply Hin in Hc as [->|Hc]; [done|]. apply Hin in Hc' as [->|Hc']; [done|]. eauto.
  - intros c y Hc [[<- <-]|[Hne Hy]]%lookup_insert_Some; [destruct Hc; apply Hin; by left|].
    apply (Hid c); [|done]. intros Hc'. apply Hc, Hin. by right.
Qed.

Lemma remove_node_subset e (l : list nat) c : c ∈ remove_node e l -> c ∈ l.
Proof.
  induction l as [|y l IH]; cbn; [done|]. case_decide; set_solver.
Qed.

Lemma remove_node_gone e (l : list nat) : NoDup l -> e ∉ remove_node e l.
Proof.
  intros Hnd. destruct (decide (e ∈ l)) as [He|He]; [|intros ?%remove_node_subset; done].
  pose proof (remove_node_perm e l He) as Hp. rewrite <- Hp in Hnd. by apply NoDup_cons in Hnd as [? _].
Qed.

(** The state after [arp_free_entry], apart from the packets. *)
Definition without_entry (s : net) (e : nat) (x : arp_entry_t) : net :=
  s <| cache_list := remove_node e (cache_list s) |>
    <| cache_entries := <[e := x <| buf_list := [] |> <| arp_state := NET_ARP_FREE |>]> (cache_entries s) |>
    <| cache_blocks := MBlock (free_list (cache_blocks s) ++ [e]) |>.

Lemma arp_free_entry_ok o s e x :
  core o s -> arp_ok [] s -> e ∈ cache_list s -> cache_entries s !! e = Some x ->
  wp (fun _ s' => core o s' /\ arp_ok [] s' /\ far [] s s' /\ fewer s s' /\
        s' = (without_entry s e x) <| pkt := pkt s' |>)
     (arp_free_entry e s).
Proof.
  intros Hc Ha He Hx. destruct (arp_used _ _ Ha e x He Hx) as (_ & Hst & _).
  unfold arp_free_entry. wstep arp_free_waiting_ok as (Hc1 & Hfar1 & E1).
  assert (Hx1 : cache_entries s' !! e = Some (x <| buf_list := [] |>)).
  { rewrite E1. cbn. apply lookup_insert_eq. }
  eapply wp_eq; [by apply load_entry_at|]. rewrite bool_decide_eq_true_2 by done. cbn [when].
  destruct (set_list_same o s' (remove_node e) Hc1) as (Hr2 & Hc2 & Hfar2).
  eapply wp_eq; [exact Hr2|]. eapply wp_eq; [by apply store_entry_at|].
  set (s2 := s' <| cache_list := remove_node e (cache_list s') |>) in *.
  destruct (with_entry_same o s2 e _ (x <| buf_list := [] |> <| arp_state := NET_ARP_FREE |>) Hc2 Hx1)
    as [Hc3 Hfar3]; [done|].
  set (s3 := with_entry s2 e _) in Hc3, Hfar3 |- *.
  set (s4 := s3 <| cache_blocks := MBlock (free_list (cache_blocks s3) ++ [e]) |>).
  eapply wp_run; [apply (zoom_ret cache_blocks_lens); reflexivity|].
  change (lset _ _ s3) with s4.
  assert (E4 : s4 = (without_entry s e x) <| pkt := pkt s4 |>).
  { unfold s4, s3, s2, with_entry. rewrite E1. destruct s. unfold without_entry, with_entry. cbn.
    by rewrite insert_insert_eq. }
  assert (Hfar : far [] s s4).
  { transitivity s'; [done|]. transitivity s2; [done|]. transitivity s3; [done|].
    split; [by destruct s3|]. by intros c p. }
  pose proof (arp_nodup _ _ Ha) as Hnd. apply NoDup_app in Hnd as (Hnd & _ & _).
  assert (Hfew : fewer s s4).
  { intros c Hcl. rewrite E4 in Hcl |- *. cbn in Hcl |- *.
    split; [by eapply remove_node_subset|]. apply lookup_insert_ne. intros <-.
    by apply (remove_node_gone e (cache_list s)). }
  split_and!; [by destruct Hc3| |done|done|done].
  apply (arp_ok_fewer [] [] s); [done|done|by destruct Hfar| | |]; rewrite E4; cbn.
  - by rewrite dom_insert_lookup_L.
  - rewrite !app_nil_r, (app_assoc _ _ [e]), Permutation_app_comm. cbn.
    rewrite app_comm_cons. by rewrite remove_node_perm.
  - intros c y Hcl [[<- <-]|[Hne Hy]]%lookup_insert_Some; [done|].
    apply (arp_idle _ _ Ha c); [|done]. intros Hcl'. apply Hcl.
    rewrite <- (remove_node_perm e) in Hcl' by done. set_solver.
Qed.
