(* ===== verification/OwnerResolve.v ===== *)
(** * The ARP protocol under the ownership invariant

    Requests and replies, the timer of the cache, the answer to a packet that
    came in, and the resolution of an address for a packet that goes out. *)

From S2P Require Import Prelude Tools IpAddr Nlist Timer Mblock Pktbuf PktbufSpec PktbufChain.
From S2P Require Import PktbufOps PktbufFrame Sys Fixq Net Netif Ether Arp Owner OwnerPkt.
From S2P Require Import OwnerQueue OwnerOut OwnerArp.

(** ** Requests *)

(** An ARP packet for IPv4 over Ethernet (RFC 826). *)
Definition arp_bytes (op : Z) (smac : bytes) (sip : Z) (tmac : bytes) (tip : Z) : bytes :=
  be16 1 ++ be16 0x0800 ++ [6; 4] ++ be16 op ++ smac ++ ipaddr_to_buf sip ++ tmac ++ ipaddr_to_buf tip.

Lemma length_empty_hwaddr : length empty_hwaddr = 6%nat.
Proof. done. Qed.
Lemma are_bytes_empty_hwaddr : are_bytes empty_hwaddr.
Proof. unfold empty_hwaddr. by eauto with bytes. Qed.
Lemma are_bytes_broadcast : are_bytes ether_broadcast_addr.
Proof. unfold ether_broadcast_addr. by eauto with bytes. Qed.
#[export] Hint Rewrite length_empty_hwaddr : lens.
#[export] Hint Resolve are_bytes_empty_hwaddr are_bytes_broadcast : bytes.

Lemma calm_fresh s s1 s2 b :
  (forall p, ~ live (pkt s) b p) -> calm [] s s1 -> calm [b] s1 s2 -> calm [] s s2.
Proof.
  intros Hb H1 H2. apply (calm_drop b); [by right|]. transitivity s1; [|done].
  eapply calm_mono, H1. set_solver.
Qed.

Lemma near_fresh s s1 s2 b :
  (forall p, ~ live (pkt s) b p) -> near [] s s1 -> near [b] s1 s2 -> near [] s s2.
Proof.
  intros Hb H1 H2. apply (near_drop b); [by right|]. transitivity s1; [|done].
  eapply near_mono, H1. set_solver.
Qed.

Lemma calm_netif bs s s' : calm bs s s' -> netif_buffer s' = netif_buffer s.
Proof. intros [_ ->]. by destruct s. Qed.

(** [arp_make_request] runs out of memory, or gives the request to
    [ether_raw_out]. *)
Lemma arp_make_request_frame {o s n i} a (Q : Z -> net -> Prop) :
  core o s -> netif_buffer s !! n = Some i ->
  (forall s', core o s' -> calm [] s s' -> Q NET_ERR_MEM s') ->
  (forall s' b m, (forall p, ~ live (pkt s) b p) -> calm [] s s' ->
     own o s' b (arp_bytes ARP_REQUEST (take ETH_HWA_SIZE (hw_addr (hwaddr i))) (ipaddr i) empty_hwaddr a) m ->
     wp Q (ether_raw_out (Some n) NET_PROTOCOL_ARP (Some ether_broadcast_addr) (Some b) s')) ->
  wp Q (arp_make_request (Some n) (Some a) s).
Proof.
  intros Hc Hi Hmem Hout. unfold arp_make_request.
  destruct (core_netif _ _ Hc n i Hi) as (Hhl & Hhb & _). unfold NETIF_HWADDR_SIZE in Hhl.
  wstep own_alloc as [Hn1 H1]; [done|]. destruct a0 as [b|]; [|by apply Hmem].
  destruct H1 as (Hd & (bs & Hl & Hown1) & Hf1). destruct (Hf1 eq_refl) as (bi & d & Hf). clear Hf1.
  wstep own_reset_acc as (Hown2 & Hn2 & Hsh2 & _).
  assert (Hf2 : front (pkt s'0) b bi d 28).
  { destruct Hown2 as (_ & _ & r & Hv). by eapply front_shape. }
  eapply wp_eq; [by eapply own_data|]. eapply wp_eq.
  { apply load_netif_at. by rewrite (calm_netif _ _ _ Hn2), (calm_netif _ _ _ Hn1). }
  unfold sizeof_arp_pkt_t in Hl. change bs with ([] ++ bs) in Hown2.
  hdr_next arp_htype as (Hown3 & Hf3 & Hn3).
  hdr_next arp_ptype as (Hown4 & Hf4 & Hn4).
  hdr_next arp_hlen as (Hown5 & Hf5 & Hn5).
  hdr_next arp_plen as (Hown6 & Hf6 & Hn6).
  hdr_next arp_opcode as (Hown7 & Hf7 & Hn7).
  hdr_next arp_send_haddr as (Hown8 & Hf8 & Hn8).
  hdr_next arp_send_paddr as (Hown9 & Hf9 & Hn9).
  hdr_next arp_target_haddr as (Hown10 & Hf10 & Hn10).
  hdr_next arp_target_paddr as (Hown11 & Hf11 & Hn11).
  apply (Hout _ b 0); [done| |].
  - eapply calm_fresh; [done..|]. by repeat (etransitivity; [eassumption|]).
  - rewrite drop_ge, app_nil_r, !le16_x_htons, <- !app_assoc in Hown11 by lens. exact Hown11.
Qed.

Lemma arp_make_request_ok o s n i a :
  core o s -> netif_buffer s !! n = Some i ->
  wp (fun _ s' => core o s' /\ near [] s s') (arp_make_request (Some n) (Some a) s).
Proof.
  intros Hc Hi. apply (arp_make_request_frame a _ Hc Hi).
  - intros s' Hc' Hn. split; [done|by apply calm_near].
  - intros s' b m Hd Hn Hown. rewrite <- (calm_netif _ _ _ Hn) in Hi.
    eapply wp_mono; [|eapply ether_raw_out_ok; [done..|by eauto with bytes|done]].
    intros _ s2 [Hc2 Hn2]. split; [done|]. eapply near_fresh; [done| |done]. by apply calm_near.
Qed.

(** ** Changing an entry in use *)

Lemma arp_ok_outside h s s' : outside s' = outside s -> arp_ok h s -> arp_ok h s'.
Proof.
  intros E [Hp Hu Hk Hid]. split; rewrite ?(outside_list E), ?(outside_entries E), ?(outside_blocks E); try done.
  intros e x He Hx. destruct (Hu e x He Hx) as ((n & Hn & Hd) & ?).
  split; [|done]. exists n. by rewrite (outside_dom E).
Qed.

Lemma arp_ok_update s e x x' :
  arp_ok [] s -> e ∈ cache_list s -> cache_entries s !! e = Some x -> entry_ok s x' ->
  arp_netif x' = arp_netif x -> paddr x' = paddr x -> arp_ok [] (with_entry s e x').
Proof.
  intros Ha He Hx Hx' Hn Hp. destruct Hx' as ((n & Hn' & Hd) & Hrest).
  apply (arp_ok_enter [] s _ e x' n); [done|by destruct s|done|..|done|].
  - intros c. change (cache_list (with_entry s e x')) with (cache_list s). split; [by right|].
    by intros [->|].
  - by apply elem_of_dom.
  - change (cache_list (with_entry s e x')) with (cache_list s).
    change (cache_blocks (with_entry s e x')) with (cache_blocks s). by rewrite app_nil_r.
  - split; [by exists n|done].
  - intros c y Hc Hne Hy [Hny Hpy]. apply Hne.
    apply (arp_keys _ _ Ha c e y x); congruence.
Qed.

(** ** Sending the packets that wait *)

Lemma outside_with_entry s e x : outside (with_entry s e x) = with_entry (outside s) e x.
Proof. by destruct s. Qed.

Lemma with_entry_over s e x y : with_entry (with_entry s e x) e y = with_entry s e y.
Proof. unfold with_entry. cbn [upd_field cache_entries]. rewrite insert_insert_eq. by destruct s. Qed.

(** The packets of the entry are gone and nothing else of the cache changed. *)
Definition emptied (o : list nat) (s : net) (e : nat) (x : arp_entry_t) (s' : net) : Prop :=
  core o s' /\ far [] s s' /\ outside s' = outside (with_entry s e (x <| buf_list := [] |>)).

Lemma emptied_free o s e x :
  core o s -> cache_entries s !! e = Some x -> wp (fun _ s' => emptied o s e x s') (arp_free_waiting e s).
Proof.
  intros Hc Hx. eapply wp_mono; [|by eapply arp_free_waiting_ok].
  intros _ s' (Hc' & Hf & E). split_and!; [done..|]. rewrite E. by destruct s.
Qed.

(** A step that changed the packets of [e] only. *)
Lemma emptied_step o s s1 e x l s' :
  far [] s s1 -> outside s1 = outside (with_entry s e (x <| buf_list := l |>)) ->
  emptied o s1 e (x <| buf_list := l |>) s' -> emptied o s e x s'.
Proof.
  intros Hf E (Hc & Hf' & E'). split_and!; [done|by transitivity s1|].
  rewrite E', !outside_with_entry, E, outside_with_entry, with_entry_over. done.
Qed.

Lemma send_waiting_loop_ok fuel o s e x n :
  core o s -> cache_entries s !! e = Some x -> arp_netif x = Some n -> n ∈ dom (netif_buffer s) ->
  are_bytes (haddr x) -> length (haddr x) = ETH_HWA_SIZE -> (length (buf_list x) <= fuel)%nat ->
  wp (fun r s' => emptied o s e x s') (send_waiting_loop fuel e s).
Proof.
  revert s x. induction fuel as [|fuel IH]; intros s x Hc Hx Hn Hd Hb Hl Hf; cbn [send_waiting_loop];
    pose proof (pop_waiting_ok o s e x Hc Hx) as Hpop; destruct (buf_list x) as [|b l] eqn:Hbl.
  1, 3: eapply wp_eq; [exact Hpop|]; cbn [wp mret M_ret]; split_and!; [done..|];
    by rewrite no_waiting, with_entry_id.
  { cbn in Hf. lia. }
  destruct Hpop as (Hrun & (bs & m & Hown) & Hfar & Hnl). eapply wp_eq; [exact Hrun|].
  set (x1 := x <| buf_list := l |>) in *. set (s1 := with_entry s e x1) in *.
  assert (Hx1 : cache_entries s1 !! e = Some x1) by apply lookup_insert_eq.
  eapply wp_eq; [by apply load_entry_at|]. change (arp_netif x1) with (arp_netif x). rewrite Hn.
  apply elem_of_dom in Hd as [i Hi].
  wstep (ether_raw_out_ok o s1 b bs m n i) as [Hc2 Hn2];
    [change (haddr x1) with (haddr x); by rewrite Hl|].
  assert (Hf2 : far [] s s').
  { apply (far_drop b); [by left|]. transitivity s1; [eapply far_mono, Hfar; set_solver|by apply near_far]. }
  assert (Ho2 : outside s' = outside s1) by (by destruct Hn2).
  assert (Hx2 : cache_entries s' !! e = Some x1) by (by rewrite (outside_entries Ho2)).
  destruct (a <? 0).
  - wstep emptied_free as H3. cbn [wp mret M_ret]. by eapply emptied_step.
  - eapply wp_mono; [|apply (IH s' x1); try done].
    + intros r s3 H3. by eapply emptied_step.
    + rewrite (outside_dom Ho2). apply elem_of_dom. by exists i.
    + cbn in Hf |- *. lia.
Qed.

(** ** Entering an address *)

(** The entry after [arp_set_entry]. *)
Definition set_fields (n : nat) (ipbuf mac : bytes) (st : arp_state_t) (x : arp_entry_t) : arp_entry_t :=
  ArpEntry (ipaddr_from_buf ipbuf) (take ETH_HWA_SIZE mac) st
    (arp_scan_count (if bool_decide (st = NET_ARP_RESOLVED)
                     then ARP_ENTRY_STABLE_TMO else ARP_ENTRY_PENDING_TMO))
    ARP_ENTRY_RETRY_CNT (Some n) (buf_list x).

Lemma arp_set_entry_at s e x n ipbuf mac st :
  cache_entries s !! e = Some x ->
  arp_set_entry e n ipbuf mac st s = Ret () (with_entry s e (set_fields n ipbuf mac st x)).
Proof. intros Hx. unfold arp_set_entry. rewrite (store_entry_at _ _ _ _ Hx). by destruct x. Qed.

Section key.
Context (n : nat) (ipbuf mac : bytes).
Context (Hip : are_bytes ipbuf) (Hipl : length ipbuf = IPV4_ADDR_SIZE).
Context (Hmac : are_bytes mac) (Hmacl : length mac = ETH_HWA_SIZE).

Lemma entry_ok_fields s st x :
  n ∈ dom (netif_buffer s) -> st <> NET_ARP_FREE -> len (buf_list x) <= ARP_MAX_PKT_WAIT ->
  entry_ok s (set_fields n ipbuf mac st x).
Proof using Hip Hipl Hmac Hmacl.
  intros Hd Hst Hb. split_and!; [by exists n|done|..|done].
  - cbn [set_fields haddr]. rewrite length_take. lia.
  - by apply Forall_take.
  - apply ipaddr_from_buf_range; done.
  - apply ipaddr_from_buf_range; done.
Qed.

(** An entry that was taken from the free ones enters the list. *)
Lemma enter_new o s e st :
  core o s -> arp_ok [e] s -> e ∉ cache_list s -> cache_entries s !! e = Some zero_entry ->
  n ∈ dom (netif_buffer s) -> st <> NET_ARP_FREE ->
  (forall c y, c ∈ cache_list s -> cache_entries s !! c = Some y -> ~ has_key n (ipaddr_from_buf ipbuf) y) ->
  let s' := (with_entry s e (set_fields n ipbuf mac st zero_entry)) <| cache_list := e :: cache_list s |> in
  core o s' /\ arp_ok [] s' /\ far [] s s'.
Proof using Hip Hipl Hmac Hmacl.
  intros Hc Ha He Hx Hd Hst Hnew s'. set (y := set_fields n ipbuf mac st zero_entry) in s'.
  destruct (with_entry_same o s e _ y Hc Hx) as [Hc1 Hf1]; [done|].
  destruct (set_list_same o _ (cons e) Hc1) as (_ & Hc2 & Hf2).
  assert (Hf : far [] s s') by (by transitivity (with_entry s e y)).
  split_and!; [done| |done]. apply (arp_ok_enter [e] s _ e y n); [done|by destruct Hf|done|..|done|].
  - intros c. change (cache_list s') with (e :: cache_list s). by rewrite elem_of_cons.
  - by apply elem_of_dom.
  - change (cache_list s') with (e :: cache_list s). change (cache_blocks s') with (cache_blocks s).
    rewrite app_assoc, (Permutation_app_comm _ [e]). done.
  - by apply entry_ok_fields.
  - intros c z Hcl _. by apply Hnew.
Qed.
End key.

(** The cache has the address [mac] for the key [n], [a]. *)
Definition resolved (s : net) (n : nat) (a : Z) (mac : bytes) : Prop :=
  exists e x, e ∈ cache_list s /\ cache_entries s !! e = Some x /\ has_key n a x /\
    arp_state x = NET_ARP_RESOLVED /\ haddr x = mac.

Lemma arp_send_waiting_ok o s e x :
  core o s -> arp_ok [] s -> e ∈ cache_list s -> cache_entries s !! e = Some x ->
  wp (fun _ s' => core o s' /\ arp_ok [] s' /\ far [] s s' /\ cache_list s' = cache_list s /\
        cache_entries s' !! e = Some (x <| buf_list := [] |>)) (arp_send_waiting e s).
Proof.
  intros Hc Ha He Hx. destruct (arp_used _ _ Ha e x He Hx) as ((n & Hn & Hd) & ? & Hl & Hb & [? ?] & Hw).
  unfold arp_send_waiting. eapply wp_eq; [by apply load_entry_at|].
  eapply wp_mono; [|by eapply send_waiting_loop_ok]. intros _ s' (Hc' & Hf & E). split_and!; [done| |done|..].
  - eapply arp_ok_outside; [exact E|]. eapply arp_ok_update; [done..| |done|done].
    split; [by exists n|]. by split_and!.
  - rewrite (outside_list E). done.
  - rewrite (outside_entries E). apply lookup_insert_eq.
Qed.

Lemma arp_cache_insert_ok o s n ipbuf mac force :
  core o s -> arp_ok [] s -> n ∈ dom (netif_buffer s) ->
  are_bytes ipbuf -> length ipbuf = IPV4_ADDR_SIZE -> are_bytes mac -> length mac = ETH_HWA_SIZE ->
  wp (fun r s' => core o s' /\ arp_ok [] s' /\ far [] s s' /\
        (resolved s' n (ipaddr_from_buf ipbuf) mac \/ (r = NET_ERR_MEM /\ s' = s)))
     (arp_cache_insert n ipbuf mac force s).
Proof.
  intros Hc Ha Hd Hip Hipl Hm Hml. unfold arp_cache_insert.
  assert (Hmac : take ETH_HWA_SIZE mac = mac) by (apply firstn_all2; lia).
  assert (Hfin : forall s1 e x, core o s1 -> arp_ok [] s1 -> far [] s s1 -> e ∈ cache_list s1 ->
    cache_entries s1 !! e = Some (set_fields n ipbuf mac NET_ARP_RESOLVED x) ->
    wp (fun r s' => core o s' /\ arp_ok [] s' /\ far [] s s' /\
        (resolved s' n (ipaddr_from_buf ipbuf) mac \/ (r = NET_ERR_MEM /\ s' = s)))
     (arp_send_waiting e s1)).
  { intros s1 e x Hc1 Ha1 Hf1 He Hx1. eapply wp_mono; [|by eapply arp_send_waiting_ok].
    intros r s' (Hc' & Ha' & Hf' & El & Ex). split_and!; [done..|by transitivity s1|]. left.
    exists e, (set_fields n ipbuf mac NET_ARP_RESOLVED x <| buf_list := [] |>). by rewrite El. }
  wstep arp_find_entry_ok as (Hc1 & Ha1 & Hf1 & He1 & Hl1 & H). destruct a as [e|].
  - destruct H as (He & x & Hx & Hk & Hp).
    destruct (with_entry_same o s' e x (set_fields n ipbuf mac NET_ARP_RESOLVED x) Hc1 Hx) as [Hc2 Hf2]; [done|].
    eapply wp_eq; [by apply arp_set_entry_at|]. apply (Hfin _ _ x); [done| |by transitivity s'|done|].
    + eapply arp_ok_update; [done..| |by rewrite Hk|by rewrite Hp].
      destruct (arp_used _ _ Ha1 e x He Hx) as (_ & _ & _ & _ & _ & Hw).
      apply entry_ok_fields; try done. by rewrite (beyond_dom (proj1 Hf1)).
    + apply lookup_insert_eq.
  - destruct H as [-> Hno]. wstep arp_alloc_entry_ok as (Hc2 & Hf2 & Hfew & H). destruct a as [e|].
    2: { subst s'. cbn [wp mret M_ret]. split_and!; [done..|by right]. }
    destruct H as (Ha2 & He & Hx). eapply wp_eq; [by apply arp_set_entry_at|]. eapply wp_eq; [reflexivity|].
    destruct (enter_new n ipbuf mac Hip Hipl Hm Hml o s' e NET_ARP_RESOLVED) as (Hc3 & Ha3 & Hf3); try done.
    { by rewrite (beyond_dom (proj1 Hf2)). }
    { intros c y Hcl Hy. destruct (Hfew c Hcl) as [Hcl' Ey]. apply (Hno c); [done|by rewrite <- Ey]. }
    eapply (Hfin _ e zero_entry); [done|done|by transitivity s'| |].
    + change (cache_list _) with (e :: cache_list s'). by left.
    + apply lookup_insert_eq.
Qed.

(** ** The timer *)

Lemma arp_list_nodup h s : arp_ok h s -> NoDup (cache_list s).
Proof. intros Ha. pose proof (arp_nodup _ _ Ha) as H. by apply NoDup_app in H as (? & _). Qed.

Lemma entry_change_ok o s e x x' :
  core o s -> arp_ok [] s -> e ∈ cache_list s -> cache_entries s !! e = Some x ->
  arp_netif x' = arp_netif x -> paddr x' = paddr x -> haddr x' = haddr x -> buf_list x' = buf_list x ->
  arp_state x' <> NET_ARP_FREE ->
  core o (with_entry s e x') /\ arp_ok [] (with_entry s e x') /\ far [] s (with_entry s e x').
Proof.
  intros Hc Ha He Hx Hn Hp Hh Hb Hst. destruct (with_entry_same o s e x x' Hc Hx Hb) as [Hc' Hf].
  split_and!; [done| |done]. eapply arp_ok_update; [done..| |done|done].
  destruct (arp_used _ _ Ha e x He Hx) as (? & _ & ?). unfold entry_ok. by rewrite Hn, Hp, Hh, Hb.
Qed.

(** What the scan does to the rest of the cache while it is at [e]. *)
Definition scanned (o : list nat) (s : net) (e : nat) (s' : net) : Prop :=
  core o s' /\ arp_ok [] s' /\ far [] s s' /\
  forall c, c ∈ cache_list s -> c <> e -> c ∈ cache_list s'.

Lemma scanned_request o s s1 e n a :
  scanned o s e s1 -> n ∈ dom (netif_buffer s1) ->
  wp (fun _ s' => scanned o s e s') ((arp_make_request (Some n) (Some a);; mret ()) s1).
Proof.
  intros (Hc & Ha & Hf & Hl) [i Hi]%elem_of_dom. wstep arp_make_request_ok as [Hc2 Hn2].
  cbn [wp mret M_ret]. split_and!; [done|by eapply arp_ok_near|etransitivity; [done|by apply near_far]|].
  intros c Hcl Hne. rewrite (outside_list (proj1 Hn2)). by apply Hl.
Qed.

Lemma scanned_free o s s1 e :
  scanned o s e s1 -> e ∈ cache_list s1 -> wp (fun _ s' => scanned o s e s') (arp_free_entry e s1).
Proof.
  intros (Hc & Ha & Hf & Hl) He. destruct (arp_in_dom _ _ e Ha He) as [x Hx].
  eapply wp_mono; [|by eapply arp_free_entry_ok]. intros _ s' (Hc' & Ha' & Hf' & _ & E).
  split_and!; [done..|by transitivity s1|]. intros c Hcl Hne.
  assert (cache_list s' = remove_node e (cache_list s1)) as -> by (by rewrite E).
  specialize (Hl c Hcl Hne). rewrite <- (remove_node_perm e) in Hl by done. set_solver.
Qed.

Lemma cache_tmo_loop_ok o s nodes :
  core o s -> arp_ok [] s -> NoDup nodes -> (forall c, c ∈ nodes -> c ∈ cache_list s) ->
  wp (fun _ s' => core o s' /\ arp_ok [] s' /\ far [] s s') (cache_tmo_loop nodes s).
Proof.
  revert s. induction nodes as [|e nodes IH]; intros s Hc Ha Hnd Hin; cbn [cache_tmo_loop]; [by cbn|].
  apply NoDup_cons in Hnd as [Hne Hnd]. assert (He : e ∈ cache_list s) by (apply Hin; by left).
  destruct (arp_in_dom _ _ e Ha He) as [x Hx].
  destruct (arp_used _ _ Ha e x He Hx) as ((n & Hn & Hd) & Hst & _).
  assert (Hchg : forall x', arp_netif x' = arp_netif x -> paddr x' = paddr x -> haddr x' = haddr x ->
    buf_list x' = buf_list x -> arp_state x' <> NET_ARP_FREE -> scanned o s e (with_entry s e x')).
  { intros x' H1 H2 H3 H4 H5. destruct (entry_change_ok o s e x x') as (? & ? & ?); done. }
  eapply wp_eq; [by apply store_entry_at|]. set (x1 := x <| tmo := tmo x - 1 |>).
  assert (Hx1 : forall y, cache_entries (with_entry s e y) !! e = Some y) by (intros; apply lookup_insert_eq).
  eapply wp_eq; [by apply load_entry_at|].
  eapply (wp_step (fun _ s' => scanned o s e s')).
  2: { intros _ s' (Hc' & Ha' & Hf' & Hl'). eapply wp_mono; [|apply (IH s'); try done].
       - intros _ s2 (? & ? & ?). split_and!; [done..|by transitivity s'].
       - intros c Hcn. apply Hl'; [apply Hin; by right|]. by intros ->. }
  fold x1. destruct (0 <? tmo x1); [by apply Hchg|]. change (arp_state x1) with (arp_state x).
  change (arp_netif x1) with (arp_netif x). rewrite Hn.
  destruct (arp_state x) eqn:Hstx; [done|..].
  - eapply wp_eq; [by apply store_entry_at|]. rewrite with_entry_over.
    by apply scanned_request; [apply Hchg|].
  - eapply wp_eq; [by apply store_entry_at|]. rewrite with_entry_over. destruct (_ <=? 0).
    + apply scanned_free; [apply Hchg; try done; cbn; congruence|done].
    + eapply wp_eq; [by apply store_entry_at|]. rewrite with_entry_over.
      apply scanned_request; [apply Hchg; try done; cbn; congruence|done].
Qed.

Lemma arp_cache_tmo_ok o s :
  core o s -> arp_ok [] s ->
  wp (fun _ s' => core o s' /\ arp_ok [] s' /\ far [] s s') (arp_cache_tmo s).
Proof.
  intros Hc Ha. unfold arp_cache_tmo. eapply wp_eq; [reflexivity|].
  apply cache_tmo_loop_ok; try done. by eapply arp_list_nodup.
Qed.

(** ** Closing an interface *)

Lemma clear_loop_ok o s n nodes :
  core o s -> arp_ok [] s -> NoDup nodes -> (forall c, c ∈ nodes -> c ∈ cache_list s) ->
  wp (fun _ s' => core o s' /\ arp_ok [] s' /\ far [] s s' /\ fewer s s' /\
        forall e x, e ∈ cache_list s' -> cache_entries s' !! e = Some x -> e ∈ nodes ->
          arp_netif x <> Some n) (clear_loop n nodes s).
Proof.
  revert s. induction nodes as [|e nodes IH]; intros s Hc Ha Hnd Hin; cbn [clear_loop].
  { cbn [wp mret M_ret]. split_and!; [done..|]. intros e x _ _ He. by apply elem_of_nil in He. }
  apply NoDup_cons in Hnd as [Hne Hnd]. assert (He : e ∈ cache_list s) by (apply Hin; by left).
  destruct (arp_in_dom _ _ e Ha He) as [x Hx]. eapply wp_eq; [by apply load_entry_at|].
  eapply (wp_step (fun _ s' => scanned o s e s' /\ fewer s s' /\
    forall x, e ∈ cache_list s' -> cache_entries s' !! e = Some x -> arp_netif x <> Some n)).
  - case_bool_decide as Hk; cbn [when].
    2: { cbn [wp mret M_ret]. split_and!; [done..|]. intros. by simplify_eq. }
    eapply wp_mono; [|by eapply arp_free_entry_ok]. intros _ s' (Hc' & Ha' & Hf' & Hfew & E).
    assert (El : cache_list s' = remove_node e (cache_list s)) by (by rewrite E).
    split; [|split; [done|]].
    + split_and!; [done..|]. intros c Hcl Hcn. rewrite El.
      rewrite <- (remove_node_perm e) in Hcl by done. set_solver.
    + intros y Hy. exfalso. rewrite El in Hy. eapply remove_node_gone, Hy.
      by eapply arp_list_nodup.
  - intros _ s' ((Hc' & Ha' & Hf' & Hl') & Hfew & Hgone).
    eapply wp_mono; [|apply (IH s'); try done].
    2: { intros c Hcn. apply Hl'; [apply Hin; by right|]. by intros ->. }
    intros _ s2 (Hc2 & Ha2 & Hf2 & Hfew2 & Hg2). split_and!; [done..|by transitivity s'| |].
    + intros c Hcl. destruct (Hfew2 c Hcl) as [Hcl' ->]. by apply Hfew.
    + intros c y Hcl Hy [->|Hcn]%elem_of_cons; [|by eapply Hg2].
      destruct (Hfew2 e Hcl) as [Hcl' E]. apply (Hgone y Hcl'). by rewrite <- E.
Qed.

(** [arp_clear] removes exactly the entries of the interface. *)
Lemma arp_clear_ok o s n :
  core o s -> arp_ok [] s ->
  wp (fun _ s' => core o s' /\ arp_ok [] s' /\ far [] s s' /\ fewer s s' /\
        (initialized s = true -> forall e x, e ∈ cache_list s' -> cache_entries s' !! e = Some x ->
           arp_netif x <> Some n)) (arp_clear (Some n) s).
Proof.
  intros Hc Ha. unfold arp_clear. eapply wp_eq; [reflexivity|]. destruct (initialized s); [|by cbn].
  eapply wp_eq; [reflexivity|]. eapply wp_mono; [|apply (clear_loop_ok o s n); try done].
  - intros _ s' (? & ? & ? & Hfew & Hg). split_and!; [done..|]. intros _ e x He Hx.
    eapply Hg; [done..|]. by apply Hfew.
  - by eapply arp_list_nodup.
Qed.

(** ** Answering a request *)

(** The packet [bs] with its fields turned around by [arp_make_reply]. *)
Definition arp_reply (i : netif_t) (bs : bytes) : bytes :=
  take 6 bs ++ be16 ARP_REPLY ++ take ETH_HWA_SIZE (hw_addr (hwaddr i)) ++ ipaddr_to_buf (ipaddr i) ++
  take 6 (drop 8 bs) ++ take 4 (drop 14 bs) ++ drop 28 bs.

Lemma splice_at {A} (a bs b l whole : list A) k :
  whole = a ++ b ++ l -> k = length a -> length bs = length b -> splice k bs whole = a ++ bs ++ l.
Proof. intros -> ->. apply splice_app_l. Qed.

Lemma cut {A} n k (l r : list A) : drop (k + n) l = r -> drop k l = take n (drop k l) ++ r.
Proof. intros <-. by rewrite <- drop_drop, take_drop. Qed.

Lemma arp_reply_stores i bs :
  (28 <= length bs)%nat -> len (hw_addr (hwaddr i)) = NETIF_HWADDR_SIZE ->
  splice 14 (ipaddr_to_buf (ipaddr i)) (splice 8 (take ETH_HWA_SIZE (hw_addr (hwaddr i)))
    (splice 24 (take 4 (drop 14 bs)) (splice 18 (take 6 (drop 8 bs)) (splice 6 (be16 ARP_REPLY) bs)))) =
  arp_reply i bs.
Proof.
  unfold NETIF_HWADDR_SIZE, arp_reply. intros Hl Hh.
  assert (E : bs = take 6 bs ++ take 2 (drop 6 bs) ++ take 6 (drop 8 bs) ++ take 4 (drop 14 bs) ++
    take 6 (drop 18 bs) ++ take 4 (drop 24 bs) ++ drop 28 bs).
  { apply (cut 6 0). apply (cut 2 6). apply (cut 6 8). apply (cut 4 14). apply (cut 6 18).
    by apply (cut 4 24). }
  set (f := take 6 bs) in *. set (op := take 2 (drop 6 bs)) in *. set (sh := take 6 (drop 8 bs)) in *.
  set (sp := take 4 (drop 14 bs)) in *. set (th := take 6 (drop 18 bs)) in *.
  set (tp := take 4 (drop 24 bs)) in *. set (tl := drop 28 bs) in *. set (hw := take ETH_HWA_SIZE _).
  assert (length f = 6 /\ length op = 2 /\ length sh = 6 /\ length sp = 4 /\ length th = 6 /\
    length tp = 4 /\ length hw = 6)%nat as (? & ? & ? & ? & ? & ? & ?)
    by (subst f op sh sp th tp hw; split_and!; lens).
  clearbody f op sh sp th tp tl hw. rewrite E.
  set (op' := be16 ARP_REPLY). assert (length op' = 2%nat) by done. clearbody op'.
  rewrite (splice_at f op' op (sh ++ sp ++ th ++ tp ++ tl)) by (done || lens).
  rewrite (splice_at (f ++ op' ++ sh ++ sp) sh th (tp ++ tl)) by (by rewrite <- ?app_assoc || lens).
  rewrite (splice_at (f ++ op' ++ sh ++ sp ++ sh) sp tp tl) by (by rewrite <- ?app_assoc || lens).
  rewrite (splice_at (f ++ op') hw sh (sp ++ sh ++ sp ++ tl)) by (by rewrite <- ?app_assoc || lens).
  rewrite (splice_at (f ++ op' ++ hw) _ sp (sh ++ sp ++ tl)) by (by rewrite <- ?app_assoc || lens).
  by rewrite <- !app_assoc.
Qed.

(** The end of [arp_make_reply]: a reference is kept for the caller in case
    the reply cannot be sent. *)
Definition send_reply (n b : nat) (mac : bytes) : M net Z :=
  pk (pktbuf_inc_ref (Some b));;
  err ← ether_raw_out (Some n) NET_PROTOCOL_ARP (Some mac) (Some b);
  when (0 <=? err) (pk (pktbuf_free (Some b)));;
  mret err.

Lemma arp_make_reply_frame {o s b bs m n i} (Q : Z -> net -> Prop) :
  own o s b bs m -> netif_buffer s !! n = Some i ->
  (len bs < sizeof_arp_pkt_t -> Q NET_ERR_SIZE s) ->
  (forall s', sizeof_arp_pkt_t <= len bs -> own o s' b (arp_reply i bs) 0 -> calm [b] s s' ->
     wp Q (send_reply n b (take 6 (drop 8 bs)) s')) ->
  wp Q (arp_make_reply (Some n) (Some b) s).
Proof.
  intros Hown Hi Hsize Hsend. unfold arp_make_reply.
  destruct (core_netif _ _ (proj1 Hown) n i Hi) as (Hhl & Hhb & _).
  destruct (own_bytes _ _ _ _ _ Hown) as [Hby _].
  wstep own_set_cont as [Hn1 H1]; [done|].
  destruct (Z.leb_spec sizeof_arp_pkt_t (len bs)); cbn [andb] in H1.
  2: { destruct H1 as [-> ->]. by apply Hsize. }
  change (sizeof_arp_pkt_t <=? PKTBUF_BLK_SIZE) with true in H1. destruct H1 as (-> & Hown1 & bi & d & Hf1).
  unfold sizeof_arp_pkt_t in *. cbn [NET_ERR_OK Z.eqb negb]. eapply wp_eq; [by eapply own_data|].
  eapply wp_eq; [by eapply (own_hdr_load Hown1 Hf1)|]. eapply wp_eq; [by eapply (own_hdr_load Hown1 Hf1)|].
  rewrite le16_x_htons. change (u16 ARP_REPLY) with ARP_REPLY.
  change (Z.to_nat (Z.of_nat ETH_HWA_SIZE)) with 6%nat. change (Z.to_nat (Z.of_nat IPV4_ADDR_SIZE)) with 4%nat.
  change (Z.to_nat arp_send_haddr) with 8%nat. change (Z.to_nat arp_send_paddr) with 14%nat.
  wstep (own_hdr_store Hown1 Hf1 6) as (Hown2 & Hf2 & Hn2); [by eauto with bytes|done|lens|].
  wstep (own_hdr_store Hown2 Hf2 18) as (Hown3 & Hf3 & Hn3); [by eauto with bytes|done|lens|].
  wstep (own_hdr_store Hown3 Hf3 24) as (Hown4 & Hf4 & Hn4); [by eauto with bytes|done|lens|].
  eapply wp_eq.
  { apply load_netif_at. rewrite (calm_netif _ _ _ Hn4), (calm_netif _ _ _ Hn3), (calm_netif _ _ _ Hn2).
    by rewrite (calm_netif _ _ _ Hn1). }
  wstep (own_hdr_store Hown4 Hf4 8) as (Hown5 & Hf5 & Hn5); [by eauto with bytes|done|lens|].
  wstep (own_hdr_store Hown5 Hf5 14) as (Hown6 & Hf6 & Hn6); [by eauto with bytes|done|lens|].
  apply Hsend; [done| |by repeat (etransitivity; [eassumption|])].
  rewrite <- (arp_reply_stores i bs) by (lia || done). exact Hown6.
Qed.

(** What an input function promises: it takes the packet when it succeeds, and
    leaves it to its caller when it fails. *)
Definition accepts (o : list nat) (b : nat) (r : Z) (s' : net) : Prop :=
  if r <? 0 then core (b :: o) s' else core o s'.

Lemma send_reply_ok o s b bs m n i mac :
  own o s b bs m -> netif_buffer s !! n = Some i -> are_bytes mac -> (ETH_HWA_SIZE <= length mac)%nat ->
  wp (fun r s' => accepts o b r s' /\ near [b] s s') (send_reply n b mac s).
Proof.
  intros Hown Hi Hm Hml. unfold send_reply. wstep own_inc_ref as [Hown1 Hn1].
  rewrite <- (calm_netif _ _ _ Hn1) in Hi. wstep ether_raw_out_ok as [Hc2 Hn2].
  unfold accepts. destruct (Z.ltb_spec a0 0).
  - rewrite (proj2 (Z.leb_gt _ _)) by lia. cbn [when]. eapply wp_eq; [reflexivity|]. cbn [wp mret M_ret].
    rewrite (proj2 (Z.ltb_lt _ _)) by lia. split; [done|]. transitivity s'; [by apply calm_near|done].
  - rewrite (proj2 (Z.leb_le _ _)) by lia. cbn [when]. wstep own_free as [Hc3 Hn3]. cbn [wp mret M_ret].
    rewrite (proj2 (Z.ltb_ge _ _)) by lia. split; [done|]. transitivity s'; [by apply calm_near|].
    transitivity s'0; [done|by apply calm_near].
Qed.

Lemma arp_make_reply_ok o s b bs m n i :
  own o s b bs m -> netif_buffer s !! n = Some i ->
  wp (fun r s' => accepts o b r s' /\ near [b] s s') (arp_make_reply (Some n) (Some b) s).
Proof.
  intros Hown Hi. apply (arp_make_reply_frame _ Hown Hi).
  - intros _. split; [|done]. by destruct Hown.
  - intros s' Hl Hown' Hn. destruct (own_bytes _ _ _ _ _ Hown) as [Hby _].
    rewrite <- (calm_netif _ _ _ Hn) in Hi. unfold sizeof_arp_pkt_t in Hl.
    eapply wp_mono; [|eapply send_reply_ok; [done..|by eauto with bytes|lens]].
    intros r s2 [Ha H2]. split; [done|]. transitivity s'; [by apply calm_near|done].
Qed.

(** ** Input *)

(** The packets [arp_packet_check] lets pass. *)
Definition arp_valid (bs : bytes) : bool :=
  (sizeof_arp_pkt_t <=? len bs) && (x_ntohs (load16 bs 0) =? ARP_HW_ETHER) &&
  (byte_at bs 4 =? 6) && (byte_at bs 5 =? 4) && (x_ntohs (load16 bs 2) =? NET_PROTOCOL_IPV4) &&
  ((x_ntohs (load16 bs 6) =? ARP_REQUEST) || (x_ntohs (load16 bs 6) =? ARP_REPLY)).

Lemma arp_packet_check_ok o s b bs m i d :
  own o s b bs m -> front (pkt s) b i d sizeof_arp_pkt_t ->
  exists r, arp_packet_check (i, d) (len bs) s = Ret r s /\ r <= 0 /\ (r = NET_ERR_OK <-> arp_valid bs = true).
Proof.
  intros Hown Hf. unfold arp_packet_check, arp_valid. rewrite Z.leb_antisym.
  destruct (len bs <? sizeof_arp_pkt_t); cbn [negb andb]; [by exists NET_ERR_SIZE|].
  do 4 (mstep by (by (eapply own_load16 || eapply own_load8))).
  change (Z.to_nat arp_htype) with 0%nat. change (Z.to_nat arp_hlen) with 4%nat.
  change (Z.to_nat arp_plen) with 5%nat. change (Z.to_nat arp_ptype) with 2%nat.
  destruct (_ =? ARP_HW_ETHER); cbn [negb andb orb]; [|by exists NET_ERR_NOT_SUPPORT].
  destruct (_ =? Z.of_nat ETH_HWA_SIZE) eqn:E1; change (Z.of_nat ETH_HWA_SIZE) with 6 in E1; rewrite E1;
    cbn [negb andb orb]; [|by exists NET_ERR_NOT_SUPPORT].
  destruct (_ =? Z.of_nat IPV4_ADDR_SIZE) eqn:E2; change (Z.of_nat IPV4_ADDR_SIZE) with 4 in E2; rewrite E2;
    cbn [negb andb orb]; [|by exists NET_ERR_NOT_SUPPORT].
  destruct (_ =? NET_PROTOCOL_IPV4); cbn [negb andb orb]; [|by exists NET_ERR_NOT_SUPPORT].
  mstep by (by eapply own_load16). change (Z.to_nat arp_opcode) with 6%nat.
  destruct (_ =? ARP_REQUEST), (_ =? ARP_REPLY); cbn [negb andb orb];
    [by exists NET_ERR_OK..|by exists NET_ERR_NOT_SUPPORT].
Qed.

Lemma resolved_near bs s s' n a mac : near bs s s' -> resolved s n a mac -> resolved s' n a mac.
Proof.
  intros [E _] (e & x & H). exists e, x. by rewrite (outside_list E), (outside_entries E).
Qed.

Definition sender_ip (bs : bytes) : Z := ipaddr_from_buf (take 4 (drop 14 bs)).
Definition sender_mac (bs : bytes) : bytes := take 6 (drop 8 bs).

Lemma arp_in_ok o s b bs m n :
  own o s b bs m -> arp_ok [] s -> n ∈ dom (netif_buffer s) ->
  wp (fun r s' => accepts o b r s' /\ arp_ok [] s' /\ far [b] s s' /\
        (0 <= r -> arp_valid bs = true /\ resolved s' n (sender_ip bs) (sender_mac bs)))
     (arp_in (Some n) (Some b) s).
Proof.
  intros Hown Ha Hd. unfold arp_in. destruct (own_bytes _ _ _ _ _ Hown) as [Hby _].
  wstep own_set_cont as [Hn1 H1]; [done|].
  destruct (Z.leb_spec sizeof_arp_pkt_t (len bs)); cbn [andb] in H1.
  2: { destruct H1 as [-> ->]. cbn [negb NET_ERR_SIZE NET_ERR_OK Z.eqb wp mret M_ret].
       split_and!; [by destruct Hown|done..]. }
  change (sizeof_arp_pkt_t <=? PKTBUF_BLK_SIZE) with true in H1. destruct H1 as (-> & Hown1 & bi & d & Hf1).
  cbn [NET_ERR_OK Z.eqb negb]. eapply wp_eq; [by eapply own_data|]. eapply wp_eq; [by eapply own_total|].
  assert (Ha1 : arp_ok [] s') by (eapply arp_ok_near; [by apply calm_near|done]).
  assert (Hd1 : n ∈ dom (netif_buffer s')) by (by rewrite (calm_netif _ _ _ Hn1)).
  assert (Hf01 : far [b] s s') by (by apply calm_far).
  destruct (arp_packet_check_ok _ _ _ _ _ _ _ Hown1 Hf1) as (r & Hr & Hr0 & Hval).
  eapply wp_eq; [exact Hr|]. destruct (Z.ltb_spec r 0).
  { cbn [wp mret M_ret]. unfold accepts. rewrite (proj2 (Z.ltb_lt _ _)) by lia.
    split_and!; [by destruct Hown1|done..|lia]. }
  assert (arp_valid bs = true) as Hv by (apply Hval; unfold NET_ERR_OK; lia).
  unfold sizeof_arp_pkt_t in *. eapply wp_eq; [by eapply own_load16|].
  eapply wp_eq; [by eapply (own_hdr_load Hown1 Hf1)|]. eapply wp_eq; [by eapply (own_hdr_load Hown1 Hf1)|].
  change (Z.to_nat (Z.of_nat ETH_HWA_SIZE)) with 6%nat. change (Z.to_nat (Z.of_nat IPV4_ADDR_SIZE)) with 4%nat.
  change (Z.to_nat arp_send_haddr) with 8%nat. change (Z.to_nat arp_send_paddr) with 14%nat.
  wstep (arp_cache_insert_ok (b :: o)) as (Hc2 & Ha2 & Hf2 & Hres);
    [by destruct Hown1|by eauto with bytes|lens|by eauto with bytes|lens|].
  assert (Hf02 : far [b] s s'0) by (transitivity s'; [done|eapply far_mono, Hf2; set_solver]).
  destruct (Z.ltb_spec a 0).
  { cbn [wp mret M_ret]. unfold accepts. rewrite (proj2 (Z.ltb_lt _ _)) by lia.
    split_and!; [done..|lia]. }
  destruct Hres as [Hres|[-> _]]; [|done].
  assert (Hown2 : own o s'0 b bs 0) by (eapply own_spared; [exact Hown1|by destruct Hf2|set_solver|done]).
  assert (Hf' : front (pkt s'0) b bi d 28).
  { eapply front_spared; [done|by destruct Hown1 as (_ & ? & _)|by destruct Hf2|set_solver]. }
  eapply wp_eq; [by eapply (own_hdr_load Hown2 Hf')|].
  assert (exists i2, netif_buffer s'0 !! n = Some i2) as [i2 Hi2].
  { apply elem_of_dom. by rewrite (beyond_dom (proj1 Hf2)). }
  eapply wp_eq; [by apply load_netif_at|]. destruct (_ && _).
  - eapply wp_mono; [|by eapply arp_make_reply_ok]. intros r' s3 [Hacc Hn3].
    split_and!; [done|by eapply arp_ok_near|etransitivity; [done|by apply near_far]|].
    intros _. split; [done|]. by eapply resolved_near.
  - wstep own_free as [Hc3 Hn3]. cbn [wp mret M_ret]. apply calm_near in Hn3.
    split_and!; [done|by eapply arp_ok_near|etransitivity; [done|by apply near_far]|].
    intros _. split; [done|]. by eapply resolved_near.
Qed.

(** ** Resolving an address *)

(** A packet that waits for the entry [e]. *)
Lemma queue_waiting_ok o s b bs m e x :
  own o s b bs m -> arp_ok [] s -> e ∈ cache_list s -> cache_entries s !! e = Some x ->
  len (buf_list x) < ARP_MAX_PKT_WAIT ->
  let s' := with_entry s e (x <| buf_list := buf_list x ++ [b] |>) in
  store_entry e (fun x => x <| buf_list := buf_list x ++ [b] |>) s = Ret () s' /\
  core o s' /\ arp_ok [] s' /\ far [b] s s'.
Proof.
  intros (Hc & Hl & _) Ha He Hx Hlen s'.
  assert (Hh : forall pl, holds s' pl = if decide (pl = Waiting e) then buf_list x ++ [b] else holds s pl)
    by (intros; apply with_entry_holds).
  assert (Hx' : holds s (Waiting e) = buf_list x) by (cbn; by rewrite Hx).
  destruct (arp_used _ _ Ha e x He Hx) as (Hn & Hst & Hhl & Hhb & Hp & _). split_and!.
  - exact (store_entry_at s e x (fun x => x <| buf_list := buf_list x ++ [b] |>) Hx).
  - eapply with_entry_core; [done|].
    eapply (acct_put _ (holds s) _ _ b (Waiting e)); [by apply core_acct|done| |].
    + by rewrite Hh, decide_True, Hx'.
    + intros pl Hne. by rewrite Hh, decide_False.
  - eapply arp_ok_update; [done..| |done|done]. destruct Hp. split_and!; try done.
    cbn. rewrite length_app. cbn. lia.
  - split; [by destruct s|]. intros c p Hcb Hlc Hp'. split_and!; [|done..]. intros pl. rewrite Hh.
    case_decide; [|apply Hlc]. specialize (Hlc (Waiting e)). rewrite Hx' in Hlc. set_solver.
Qed.

Lemma arp_resolve_new_ok o s b bs m n a :
  own o s b bs m -> arp_ok [] s -> n ∈ dom (netif_buffer s) -> 0 <= a < 2 ^ 32 ->
  (forall e x, e ∈ cache_list s -> cache_entries s !! e = Some x -> ~ has_key n a x) ->
  wp (fun _ s' => core o s' /\ arp_ok [] s' /\ far [b] s s') (arp_resolve_new n a b s).
Proof.
  intros Hown Ha Hd Hr Hno. unfold arp_resolve_new.
  wstep (arp_alloc_entry_ok (b :: o)) as (Hc1 & Hf1 & Hfew & H); [by destruct Hown|]. destruct a0 as [e|].
  2: { subst s'. apply (free_return_ok o); [done|]. intros s' Hc' Hn.
       split_and!; [done|by eapply arp_ok_near, Ha; apply calm_near|by apply calm_far]. }
  destruct H as (Ha1 & He & Hx). eapply wp_eq; [by apply arp_set_entry_at|]. eapply wp_eq; [reflexivity|].
  destruct (enter_new n (ipaddr_to_buf a) empty_hwaddr ltac:(eauto with bytes) eq_refl
    ltac:(eauto with bytes) eq_refl (b :: o) s' e NET_ARP_WAITING) as (Hc2 & Ha2 & Hf2); try done.
  { by rewrite (beyond_dom (proj1 Hf1)). }
  { intros c y Hcl Hy. destruct (Hfew c Hcl) as [Hcl' Ey]. rewrite ipaddr_from_to_buf by done.
    apply (Hno c); [done|by rewrite <- Ey]. }
  set (x := set_fields _ _ _ _ _) in *. set (s2 := (with_entry s' e x) <| cache_list := _ |>) in *.
  change (modify _ _) with (Ret () s2). assert (Hown2 : own o s2 b bs m).
  { apply (own_spared o s s2 b bs m []); [done| |set_solver|done]. by transitivity s'; [apply Hf1|apply Hf2]. }
  assert (He2 : e ∈ cache_list s2) by (change (cache_list s2) with (e :: cache_list s'); by left).
  destruct (queue_waiting_ok o s2 b bs m e x Hown2 Ha2 He2) as (Hq & Hc3 & Ha3 & Hf3);
    [apply lookup_insert_eq|done|].
  eapply wp_eq; [exact Hq|]. set (s3 := with_entry s2 e _) in *.
  assert (Hf03 : far [b] s s3).
  { transitivity s2; [|done]. apply (far_mono []); [set_solver|]. by transitivity s'. }
  assert (exists i, netif_buffer s3 !! n = Some i) as [i Hi].
  { apply elem_of_dom. by rewrite (beyond_dom (proj1 Hf03)). }
  wstep arp_make_request_ok as [Hc4 Hn4]. assert (Ha4 : arp_ok [] s'0) by (by eapply arp_ok_near).
  assert (Hf04 : far [b] s s'0).
  { transitivity s3; [done|]. eapply far_mono; [|by apply near_far]. set_solver. }
  destruct (a0 <? 0); [|by cbn].
  assert (He4 : e ∈ cache_list s'0) by (by rewrite (outside_list (proj1 Hn4))).
  destruct (arp_in_dom _ _ e Ha4 He4) as [x4 Hx4]. wstep arp_free_entry_ok as (Hc5 & Ha5 & Hf5 & _).
  cbn [wp mret M_ret]. split_and!; [done..|]. transitivity s'0; [done|]. eapply far_mono, Hf5. set_solver.
Qed.

Lemma arp_resolve_found_ok o s b bs m n e x :
  own o s b bs m -> arp_ok [] s -> n ∈ dom (netif_buffer s) -> e ∈ cache_list s ->
  cache_entries s !! e = Some x ->
  wp (fun _ s' => core o s' /\ arp_ok [] s' /\ far [b] s s') (arp_resolve_found n e b s).
Proof.
  intros Hown Ha [i Hi]%elem_of_dom He Hx. unfold arp_resolve_found.
  destruct (arp_used _ _ Ha e x He Hx) as (_ & _ & Hhl & Hhb & _).
  eapply wp_eq; [by apply load_entry_at|]. case_bool_decide.
  - eapply wp_mono; [|eapply ether_raw_out_ok; [done..|by rewrite Hhl]]. intros _ s' [Hc Hn].
    split_and!; [done|by eapply arp_ok_near|by apply near_far].
  - destruct (Z.leb_spec ARP_MAX_PKT_WAIT (len (buf_list x))).
    + apply (free_return_ok o); [by destruct Hown|]. intros s' Hc Hn.
      split_and!; [done|by eapply arp_ok_near, Ha; apply calm_near|by apply calm_far].
    + destruct (queue_waiting_ok o s b bs m e x) as (Hq & ? & ? & ?); [done..|lia|].
      eapply wp_eq; [exact Hq|]. by cbn.
Qed.

Lemma arp_find_ok o s n a :
  core o s -> arp_ok [] s -> n ∈ dom (netif_buffer s) ->
  wp (fun _ s' => core o s' /\ arp_ok [] s' /\ far [] s s') (arp_find (Some n) (Some a) s).
Proof.
  intros Hc Ha [i Hi]%elem_of_dom. unfold arp_find. eapply wp_eq; [by apply load_netif_at|].
  destruct (_ || _); [by cbn|]. wstep arp_find_entry_ok as (Hc1 & Ha1 & Hf1 & _ & _ & H).
  destruct a0 as [e|]; [|by cbn]. destruct H as (_ & x & Hx & _).
  eapply wp_eq; [by apply load_entry_at|]. by cbn.
Qed.

(** A packet for the address [a] is sent, waits, or is freed. *)
Lemma arp_resolve_ok o s b bs m n a :
  own o s b bs m -> arp_ok [] s -> n ∈ dom (netif_buffer s) -> 0 <= a < 2 ^ 32 ->
  wp (fun _ s' => core o s' /\ arp_ok [] s' /\ far [b] s s') (arp_resolve (Some n) (Some a) (Some b) s).
Proof.
  intros Hown Ha Hd Hr. unfold arp_resolve.
  wstep (arp_find_ok (b :: o)) as (Hc1 & Ha1 & Hf1); [by destruct Hown|].
  assert (Hown1 : own o s' b bs m) by (eapply own_spared; [done|by destruct Hf1|set_solver|done]).
  assert (Hd1 : n ∈ dom (netif_buffer s')) by (by rewrite (beyond_dom (proj1 Hf1))).
  assert (Hlift : forall (P : M net Z), wp (fun _ s2 => core o s2 /\ arp_ok [] s2 /\ far [b] s' s2) (P s') ->
    wp (fun _ s2 => core o s2 /\ arp_ok [] s2 /\ far [b] s s2) (P s')).
  { intros P HP. eapply wp_mono, HP. intros _ s2 (? & ? & ?). split_and!; [done..|].
    transitivity s'; [eapply far_mono, Hf1; set_solver|done]. }
  apply Hlift. clear Hlift Hown Ha Hf1 Hd s.
  assert (Hent : wp (fun _ s2 => core o s2 /\ arp_ok [] s2 /\ far [b] s' s2)
    ((entry ← arp_find_entry n a;
      match entry with Some e => arp_resolve_found n e b | None => arp_resolve_new n a b end) s')).
  { wstep arp_find_entry_ok as (Hc2 & Ha2 & Hf2 & _ & _ & H).
    assert (Hown2 : own o s'0 b bs m) by (eapply own_spared; [exact Hown1|by destruct Hf2|set_solver|done]).
    assert (Hd2 : n ∈ dom (netif_buffer s'0)) by (by rewrite (beyond_dom (proj1 Hf2))).
    assert (Hf2' : far [b] s' s'0) by (eapply far_mono, Hf2; set_solver).
    destruct a1 as [e|].
    - destruct H as (He & x & Hx & _). eapply wp_mono; [|by eapply arp_resolve_found_ok].
      intros _ s2 (? & ? & ?). split_and!; [done..|by transitivity s'0].
    - destruct H as [-> Hno]. by eapply arp_resolve_new_ok. }
  destruct a0 as [[|e]|]; [|done|done]. apply elem_of_dom in Hd1 as [i Hi].
  eapply wp_mono; [|eapply ether_raw_out_ok; [done..|by eauto with bytes|done]].
  intros _ s2 [? Hn]. split_and!; [done|by eapply arp_ok_near|by apply near_far].
Qed.
