(* ===== verification/OwnerIp.v ===== *)
(** * IPv4 under the ownership invariant: output and input

    Output consumes the packet on every return.  Input gives the payload of a
    well-formed packet to the handler of its protocol and leaves any other
    packet to the caller; [ipv4_parse] is the reference definition of the
    packets that are well formed. *)

From S2P Require Import Prelude Tools IpAddr Nlist Timer Mblock Pktbuf PktbufSpec PktbufChain.
From S2P Require Import PktbufOps PktbufFrame Sys Fixq Net Netif Ether Arp NetifLink Ipv4.
From S2P Require Import Icmp Udp Input Owner OwnerPkt OwnerQueue OwnerOut OwnerArp OwnerResolve.

(** ** Output *)

(** The state after a function that consumes the packet [b]. *)
Definition consumed (o : list nat) (b : nat) (s s' : net) : Prop :=
  core o s' /\ arp_ok [] s' /\ far [b] s s'.

Lemma consumed_near o b s s' : arp_ok [] s -> core o s' -> near [b] s s' -> consumed o b s s'.
Proof. intros Ha Hc Hn. split_and!; [done|by eapply arp_ok_near|by apply near_far]. Qed.

Lemma consumed_calm o b s s' : arp_ok [] s -> core o s' -> calm [b] s s' -> consumed o b s s'.
Proof. intros Ha Hc Hn. apply consumed_near; [done..|by apply calm_near]. Qed.

Lemma consumed_far o b s s1 s' : far [b] s s1 -> consumed o b s1 s' -> consumed o b s s'.
Proof. intros Hf (? & ? & ?). split_and!; [done..|by transitivity s1]. Qed.

Lemma consumed_free o b s e :
  core (b :: o) s -> arp_ok [] s -> wp (fun _ s' => consumed o b s s') (free_return b e s).
Proof. intros Hc Ha. apply (free_return_ok o); [done|]. intros. by apply consumed_calm. Qed.

Lemma netif_out_ok o s b bs m n a :
  own o s b bs m -> arp_ok [] s -> n ∈ dom (netif_buffer s) -> 0 <= a < 2 ^ 32 ->
  wp (fun _ s' => consumed o b s s') (netif_out (Some n) (Some a) (Some b) s).
Proof.
  intros Hown Ha Hd Hr. pose proof Hd as [i Hi]%elem_of_dom. unfold netif_out.
  eapply wp_eq; [by apply load_netif_at|]. case_bool_decide as Hst; cbn [negb].
  2: { apply consumed_free; [by destruct Hown|done]. }
  assert (Hop : opened i = true) by (unfold opened; by rewrite Hst).
  destruct (link_layer i ≫= ll_out) as [[]|]; [by apply (arp_resolve_ok o s b bs m n a)|].
  destruct (ops i ≫= op_xmit) as [d|].
  - eapply wp_mono; [|by eapply put_xmit_ok; [apply _| | |]]. intros _ s' [? ?]. by apply consumed_near.
  - apply consumed_free; [by destruct Hown|done].
Qed.

(** The header [ipv4_out] writes, with the checksum [ck]. *)
Definition ipv4_hdr (id total proto src dest ck : Z) : bytes :=
  [0x45; 0] ++ be16 total ++ be16 id ++ be16 0x4000 ++ [NET_IP_DEF_TTL; proto] ++ be16 ck ++
  ipaddr_to_buf src ++ ipaddr_to_buf dest.
Definition ipv4_packet (id proto src dest : Z) (payload : bytes) : bytes :=
  let total := len payload + IPV4_HEADER_MIN in
  ipv4_hdr id total proto src dest (checksum16 0 (ipv4_hdr id total proto src dest 0) 0 true) ++ payload.

Lemma be16_u16 v : be16 (u16 v) = be16 v.
Proof.
  unfold be16, u8, u16. rewrite !shiftr_div by done. f_equal; [|f_equal]; zdm.
Qed.

Lemma own_eq {o s b bs bs' m} : own o s b bs m -> bs = bs' -> own o s b bs' m.
Proof. by intros ? <-. Qed.

(** The packet changed and got an identification. *)
Definition stamped (b : nat) (s s' : net) : Prop :=
  spared [b] s s' /\ s' = s <| pkt := pkt s' |> <| next_packet_id := u16 (next_packet_id s + 1) |>.

Lemma stamped_far b s s' : stamped b s s' -> far [b] s s'.
Proof. intros [H E]. split; [|done]. rewrite E. by destruct s. Qed.
Lemma stamped_arp b s s' h : stamped b s s' -> arp_ok h s -> arp_ok h s'.
Proof. intros [_ ->] []. by split. Qed.
Lemma stamped_netif b s s' : stamped b s s' -> netif_buffer s' = netif_buffer s.
Proof. intros [_ ->]. by destruct s. Qed.

Lemma own_stamp o s b bs m :
  own o s b bs m -> let s' := s <| next_packet_id := u16 (next_packet_id s + 1) |> in
  own o s' b bs m /\ stamped b s s'.
Proof.
  intros (Hc & Hl & Hv) s'. split; [split_and!; [by destruct Hc|done..]|].
  split; [by intros c p|by destruct s].
Qed.

Lemma stamped_calm b s s1 s2 s3 :
  calm [b] s s1 -> s2 = s1 <| next_packet_id := u16 (next_packet_id s1 + 1) |> -> calm [b] s2 s3 ->
  stamped b s s3.
Proof.
  intros [H1 E1] E2 [H3 E3]. split.
  - transitivity s1; [done|]. transitivity s2; [|done]. rewrite E2. by intros c p.
  - rewrite E3, E2, E1. by destruct s.
Qed.

Lemma ipv4_fill_ok o s b hdr payload m i d src dest proto :
  own o s b (hdr ++ payload) m -> front (pkt s) b i d IPV4_HEADER_MIN -> len hdr = IPV4_HEADER_MIN ->
  is_byte proto ->
  wp (fun _ s' => own o s' b (ipv4_packet (next_packet_id s) proto src dest payload) m /\ stamped b s s')
     (ipv4_fill_header (i, d) src dest proto (len payload) s).
Proof.
  unfold IPV4_HEADER_MIN. intros Hown Hf Hl Hp. unfold ipv4_fill_header.
  change (hdr ++ payload) with ([] ++ (hdr ++ payload)) in Hown.
  hdr_next ip_version_ihl as (Hown1 & Hf1 & Hn1).
  hdr_next ip_dscp as (Hown2 & Hf2 & Hn2).
  hdr_next ip_total_len as (Hown3 & Hf3 & Hn3).
  eapply wp_eq; [reflexivity|]. eapply wp_eq; [reflexivity|].
  destruct (own_stamp _ _ _ _ _ Hown3) as [Hown4 _]. set (s4 := s'1 <| next_packet_id := _ |>) in *.
  assert (Hf4 : front (pkt s4) b i d 20) by done.
  hdr_next ip_id as (Hown5 & Hf5 & Hn5).
  hdr_next ip_frag_off as (Hown6 & Hf6 & Hn6).
  hdr_next ip_ttl as (Hown7 & Hf7 & Hn7).
  hdr_next ip_protocol as (Hown8 & Hf8 & Hn8).
  hdr_next ip_hdr_checksum as (Hown9 & Hf9 & Hn9).
  hdr_next ip_src as (Hown10 & Hf10 & Hn10).
  hdr_next ip_dest as (Hown11 & Hf11 & Hn11).
  assert (Hid : next_packet_id s'1 = next_packet_id s).
  { destruct Hn3 as [_ ->], Hn2 as [_ ->], Hn1 as [_ ->]. by destruct s. }
  set (total := len payload + IPV4_HEADER_MIN) in *.
  assert (Hown12 : own o s'8 b (ipv4_hdr (next_packet_id s) total proto src dest 0 ++ payload) m).
  { eapply own_eq; [exact Hown11|]. rewrite Hid, !le16_x_htons, !be16_u16, !drop_drop.
    rewrite drop_app_length' by (cbn [length be16 le16 ipaddr_to_buf]; lia).
    unfold ipv4_hdr. by rewrite <- !app_assoc. }
  eapply wp_eq; [by eapply (own_hdr_load Hown12 Hf11)|].
  change (Z.to_nat 0) with 0%nat. change (Z.to_nat IPV4_HEADER_MIN) with 20%nat.
  rewrite drop_0, take_app_length' by done.
  eapply wp_mono; [|apply (own_hdr_store Hown12 Hf11 10); [by eauto with bytes|done|done]].
  intros _ s12 (Hown13 & _ & Hn13). split.
  - unfold ipv4_packet. rewrite le16_x_htons, be16_u16 in Hown13. fold total. exact Hown13.
  - apply (stamped_calm b s s'1 s4 s12); [by repeat (etransitivity; [eassumption|])|done|].
    by repeat (etransitivity; [eassumption|]).
Qed.

Lemma calm_stamped b s s1 s2 : calm [b] s s1 -> stamped b s1 s2 -> stamped b s s2.
Proof.
  intros [H1 E1] [H2 E2]. split; [by transitivity s1|]. rewrite E2, E1. by destruct s.
Qed.

(** [ipv4_out] fails and frees the packet, or gives the datagram to
    [netif_out]. *)
Lemma ipv4_out_frame {o s b bs m n i} dest proto (Q : Z -> net -> Prop) :
  own o s b bs m -> netif_buffer s !! n = Some i -> is_byte proto ->
  (forall e s', e < 0 -> core o s' -> calm [b] s s' -> Q e s') ->
  (forall s', state i = NETIF_ACTIVE -> 0 < len bs <= mtu i - IPV4_HEADER_MIN ->
     own o s' b (ipv4_packet (next_packet_id s) proto (ipaddr i) dest bs) 0 -> stamped b s s' ->
     wp Q (netif_out (Some n) (Some dest) (Some b) s')) ->
  wp Q (ipv4_out (Some n) (Some dest) proto (Some b) s).
Proof.
  intros Hown Hi Hp Herr Hout. unfold ipv4_out. eapply wp_eq; [by apply load_netif_at|].
  case_bool_decide as Hst; cbn [negb].
  2: { apply (free_return_ok o); [by destruct Hown|]. intros. by apply Herr. }
  eapply wp_eq; [by eapply own_total|]. destruct (_ || _) eqn:Hsz.
  { apply (free_return_ok o); [by destruct Hown|]. intros. by apply Herr. }
  apply orb_false_iff in Hsz as [Hsz1%Z.leb_gt Hsz2%Z.ltb_ge].
  wstep own_add_header as (Hn1 & H1); [done|].
  destruct H1 as [(-> & (hdr & Hlh & Hown1) & bi & d & Hf1)|(-> & Hown1)].
  2: { apply (free_return_ok o); [by destruct Hown1|]. intros. apply Herr; [done..|by transitivity s']. }
  cbn [NET_ERR_OK Z.ltb Z.compare]. eapply wp_eq; [by eapply own_data|].
  wstep ipv4_fill_ok as [Hown2 Hst2]; [done..|]. apply Hout; [done|lia| |by eapply calm_stamped].
  replace (next_packet_id s) with (next_packet_id s'); [done|]. destruct Hn1 as [_ ->]. by destruct s.
Qed.

Lemma ipv4_out_ok o s b bs m n dest proto :
  own o s b bs m -> arp_ok [] s -> n ∈ dom (netif_buffer s) -> is_byte proto -> 0 <= dest < 2 ^ 32 ->
  wp (fun _ s' => consumed o b s s') (ipv4_out (Some n) (Some dest) proto (Some b) s).
Proof.
  intros Hown Ha Hd Hp Hr. pose proof Hd as [i Hi]%elem_of_dom.
  apply (ipv4_out_frame dest proto _ Hown Hi Hp).
  - intros. by apply consumed_calm.
  - intros s' _ _ Hown' Hst. eapply wp_mono; [|eapply (netif_out_ok o s' b); [done|by eapply stamped_arp| |done]].
    + intros e s2 H2. eapply consumed_far; [by apply stamped_far|done].
    + by rewrite (stamped_netif _ _ _ Hst).
Qed.

(** ** Input *)

(** The first [k] bytes of [bs] can be read at the pointer [h]. *)
Definition readable (h : nat * Z) (bs : bytes) (k : Z) (s : net) : Prop :=
  forall off c, 0 <= off -> 0 <= c -> off + c <= k ->
    hdr_load h off c s = Ret (take (Z.to_nat c) (drop (Z.to_nat off) bs)) s.

Lemma readable_front o s b bs n i d m :
  own o s b bs n -> front (pkt s) b i d m -> readable (i, d) bs m s.
Proof. intros Ho Hf off c. exact (own_hdr_load Ho Hf off c). Qed.

(** The header stays where it is while no packet bytes are written. *)
Lemma readable_stored h bs k s s' : readable h bs k s -> stored (pkt s) (pkt s') -> readable h bs k s'.
Proof.
  intros Hr Hst off c H1 H2 H3. specialize (Hr off c H1 H2 H3). specialize (Hst h.1).
  unfold hdr_load in *. apply pk_same. unfold zoom in Hr. cbn [pkt_lens lget lset] in Hr.
  unfold blk_read, load_blk in *. revert Hr. unfold mbind, M_bind, get. cbn [rbind].
  destruct (block_buffer (pkt s) !! h.1) as [x|], (block_buffer (pkt s') !! h.1) as [y|]; try done.
  cbn in Hst. injection Hst as Hst. cbn. rewrite Hst. destruct (_ && _); [|done].
  cbn. intros Hr. f_equal. congruence.
Qed.

Lemma readable8 h bs k s off :
  readable h bs k s -> 0 <= off < k -> hdr_load8 h off s = Ret (byte_at bs (Z.to_nat off)) s.
Proof.
  intros Hr Ho. unfold hdr_load8. mstep by (apply Hr; lia). unfold byte_at.
  rewrite nth_segment by (cbn; lia). by rewrite Nat.add_0_r.
Qed.

Lemma readable16 h bs k s off :
  readable h bs k s -> 0 <= off -> off + 2 <= k -> hdr_load16 h off s = Ret (load16 bs (Z.to_nat off)) s.
Proof.
  intros Hr H0 H1. unfold hdr_load16. mstep by (apply Hr; lia). unfold load16, byte_at.
  rewrite !nth_segment by (cbn; lia). by rewrite Nat.add_0_r, Nat.add_1_r.
Qed.

Record datagram := Datagram { dg_proto : Z; dg_src : Z; dg_dest : Z; dg_payload : bytes }.

(** The datagram in the bytes [bs], if they are well formed. *)
Definition ipv4_parse (bs : bytes) : option datagram :=
  let header_size := Z.land (byte_at bs 0) 0x0f * 4 in
  let packet_size := x_ntohs (load16 bs 2) in
  if (IPV4_HEADER_MIN <=? len bs) && (Z.shiftr (byte_at bs 0) 4 =? NET_VERSION_IPV4) &&
     (IPV4_HEADER_MIN <=? header_size) && (header_size <=? len bs) &&
     (header_size <=? packet_size) && (packet_size <=? len bs) &&
     (checksum16 0 (take (Z.to_nat header_size) bs) 0 true =? 0) &&
     (Z.land (x_ntohs (load16 bs 6)) 0x3fff =? 0)
  then Some (Datagram (byte_at bs 9) (ipaddr_from_buf (take 4 (drop 12 bs)))
               (ipaddr_from_buf (take 4 (drop 16 bs)))
               (drop (Z.to_nat header_size) (take (Z.to_nat packet_size) bs)))
  else None.

(** The datagram and the handler that get the packet [bs] of the interface
    [i]. *)
Definition ipv4_target (s : net) (i : netif_t) (bs : bytes) : option (datagram * ipv4_input) :=
  g ← ipv4_parse bs;
  if ipaddr_is_match (Some (dg_dest g)) (Some (ipaddr i)) (Some (netmask i))
  then h ← mjoin (ipv4_handlers s !! Z.to_nat (dg_proto g)); Some (g, h) else None.

Lemma byte_at_range bs k : are_bytes bs -> 0 <= byte_at bs k < 256.
Proof.
  intros Hb. unfold byte_at. rewrite nth_lookup. destruct (bs !! k) as [x|] eqn:E; [|done].
  by apply (Forall_lookup_1 _ _ _ _ Hb E).
Qed.

Section input.
Context (tcp_in : option nat -> option Z -> option Z -> option nat -> M net Z).
Context {o : list nat} {s : net} {b : nat} {bs : bytes} {m : Z} {n : nat} {i : netif_t}.
Context (Hown : own o s b bs m) (Hi : netif_buffer s !! n = Some i).
Context (Hh : length (ipv4_handlers s) = IPV4_HANDLER_MAX).
Context (Q : Z -> net -> Prop).
Context (Herr : forall e s', e < 0 -> ipv4_target s i bs = None -> core (b :: o) s' -> calm [b] s s' -> Q e s').
Context (Hok : forall g h s', ipv4_target s i bs = Some (g, h) -> own o s' b (dg_payload g) 0 ->
  calm [b] s s' -> wp Q (call_ipv4_handler tcp_in h n (dg_src g) (dg_dest g) b s')).

(** The header is well formed as far as [ipv4_in] has checked it. *)
Let hs := Z.land (byte_at bs 0) 0x0f * 4.
Let ps := x_ntohs (load16 bs 2).

Lemma ipv4_accept_frame s1 m1 h :
  own o s1 b bs m1 -> calm [b] s s1 -> readable h bs IPV4_HEADER_MIN s1 ->
  IPV4_HEADER_MIN <= hs <= len bs -> hs <= IPV4_HEADER_MAX ->
  Z.shiftr (byte_at bs 0) 4 = NET_VERSION_IPV4 ->
  wp Q (ipv4_accept tcp_in n b (len bs) hs h s1).
Proof using Hown Hi Hh Herr Hok.
  unfold IPV4_HEADER_MIN, IPV4_HEADER_MAX. intros Hown1 Hn1 Hr Hhs Hmax Hver. unfold ipv4_accept.
  assert (Hparse : ipv4_parse bs = if (hs <=? ps) && (ps <=? len bs) &&
     (checksum16 0 (take (Z.to_nat hs) bs) 0 true =? 0) && (Z.land (x_ntohs (load16 bs 6)) 0x3fff =? 0)
     then Some (Datagram (byte_at bs 9) (ipaddr_from_buf (take 4 (drop 12 bs)))
               (ipaddr_from_buf (take 4 (drop 16 bs))) (drop (Z.to_nat hs) (take (Z.to_nat ps) bs)))
     else None).
  { unfold ipv4_parse, IPV4_HEADER_MIN. fold hs ps. rewrite Hver, Z.eqb_refl.
    rewrite (proj2 (Z.leb_le 20 (len bs))), (proj2 (Z.leb_le 20 hs)), (proj2 (Z.leb_le hs _)) by lia. done. }
  assert (Hnone : ipv4_parse bs = None -> ipv4_target s i bs = None) by (unfold ipv4_target; by intros ->).
  eapply wp_eq; [by eapply readable16|]. change (Z.to_nat ip_total_len) with 2%nat. fold ps.
  rewrite u16_small by lia. rewrite (Z.leb_antisym ps hs), (Z.leb_antisym (len bs) ps) in Hparse.
  destruct (Z.ltb_spec ps hs); cbn [orb negb andb] in *.
  { apply Herr; [done|by apply Hnone|by destruct Hown1|done]. }
  destruct (Z.ltb_spec (len bs) ps); cbn [orb negb andb] in *.
  { apply Herr; [done|by apply Hnone|by destruct Hown1|done]. }
  wstep own_resize as (Hn2 & Hst2 & H2); [lia|]. rewrite (proj2 (Z.leb_le _ _)) in H2 by done.
  destruct H2 as (-> & m2 & Hown2). cbn [NET_ERR_OK Z.eqb negb].
  wstep own_reset_acc as (Hown3 & Hn3 & _ & Hst3).
  wstep own_checksum as (-> & Hown4 & Hn4 & _ & Hst4); [rewrite length_take; lia|done|].
  change (Z.to_nat 0) with 0%nat. rewrite drop_0, take_take, Nat.min_l by lia.
  assert (Hcalm : calm [b] s s'1) by (by repeat (etransitivity; [eassumption|])).
  assert (Hr4 : readable h bs 20 s'1).
  { eapply readable_stored; [exact Hr|]. by repeat (etransitivity; [eassumption|]). }
  destruct (checksum16 _ _ _ _ =? 0); cbn [negb andb] in *.
  2: { apply Herr; [done|by apply Hnone|by destruct Hown4|done]. }
  eapply wp_eq; [by eapply readable16|]. change (Z.to_nat ip_frag_off) with 6%nat.
  destruct (Z.land _ 0x3fff =? 0); cbn [negb andb] in *.
  2: { apply Herr; [done|by apply Hnone|by destruct Hown4|done]. }
  eapply wp_eq; [by apply Hr4|]. eapply wp_eq; [by apply Hr4|].
  change (Z.to_nat (Z.of_nat IPV4_ADDR_SIZE)) with 4%nat.
  change (Z.to_nat ip_src) with 12%nat. change (Z.to_nat ip_dest) with 16%nat.
  eapply wp_eq; [apply load_netif_at; by rewrite (calm_netif _ _ _ Hcalm)|].
  unfold ipv4_target in Herr, Hok. rewrite Hparse in Herr, Hok. cbn [mbind option_bind dg_dest dg_proto] in Herr, Hok.
  destruct (ipaddr_is_match _ _ _); cbn [negb].
  2: { apply Herr; [done..|by destruct Hown4|done]. }
  eapply wp_eq; [by eapply readable8|]. change (Z.to_nat ip_protocol) with 9%nat.
  pose proof (byte_at_range bs 9 (proj1 (own_bytes _ _ _ _ _ Hown))) as Hpb.
  destruct (ipv4_handlers s !! Z.to_nat (byte_at bs 9)) as [h0|] eqn:Eh.
  2: { apply lookup_ge_None in Eh. rewrite Hh in Eh. unfold IPV4_HANDLER_MAX in Eh. lia. }
  eapply wp_eq.
  { unfold ipv4_find_handler. mstep. apply deref_ret. destruct Hcalm as [_ ->]. exact Eh. }
  cbn [mjoin option_join mbind option_bind] in Herr, Hok. destruct h0 as [h0|]; cbn in Herr, Hok.
  2: { apply Herr; [done..|by destruct Hown4|done]. }
  wstep own_remove_header as [Hn5 H5]; [lia|]. rewrite length_take, (proj2 (Z.ltb_ge _ _)) in H5 by lia.
  destruct H5 as [-> Hown5]. cbn [NET_ERR_OK Z.eqb negb]. wstep own_reset_acc as (Hown6 & Hn6 & _).
  apply (Hok _ _ _ eq_refl Hown6). by repeat (etransitivity; [eassumption|]).
Qed.

Lemma ipv4_in_frame : wp Q (ipv4_in tcp_in (Some n) (Some b) s).
Proof using Hown Hi Hh Herr Hok.
  unfold ipv4_in. eapply wp_eq; [by eapply own_total|].
  assert (Hnone : ipv4_parse bs = None -> ipv4_target s i bs = None) by (unfold ipv4_target; by intros ->).
  destruct (own_bytes _ _ _ _ _ Hown) as [Hby _]. pose proof (byte_at_range bs 0 Hby) as Hvi.
  unfold ipv4_parse in Hnone. fold hs ps in Hnone.
  rewrite (Z.leb_antisym (len bs)), (Z.leb_antisym hs IPV4_HEADER_MIN), (Z.leb_antisym (len bs) hs) in Hnone.
  destruct (Z.ltb_spec (len bs) IPV4_HEADER_MIN); cbn [negb andb] in Hnone.
  { apply Herr; [done|by apply Hnone|by destruct Hown|done]. }
  wstep own_set_cont as [Hn1 H1]; [done|]. rewrite (proj2 (Z.leb_le _ _)) in H1 by done.
  change (IPV4_HEADER_MIN <=? PKTBUF_BLK_SIZE) with true in H1. destruct H1 as (-> & Hown1 & bi & d & Hf1).
  cbn [NET_ERR_OK Z.eqb negb]. eapply wp_eq; [by eapply own_data|]. eapply wp_eq; [by eapply own_load8|].
  change (Z.to_nat ip_version_ihl) with 0%nat. fold hs.
  assert (Hsh : 0 <= Z.shiftr (byte_at bs 0) 4 < 16) by (rewrite shiftr_div by done; zdm).
  assert (Hhs : 0 <= hs <= 60).
  { unfold hs. change 0x0f with (2 ^ 4 - 1). rewrite land_mask by done. zdm. }
  rewrite u8_small by lia. destruct (Z.eqb_spec (Z.shiftr (byte_at bs 0) 4) NET_VERSION_IPV4) as [Hver|];
    cbn [negb andb orb] in Hnone |- *.
  2: { apply Herr; [done|by apply Hnone|by destruct Hown1|done]. }
  destruct (Z.ltb_spec hs IPV4_HEADER_MIN); cbn [negb andb orb] in Hnone |- *.
  { apply Herr; [done|by apply Hnone|by destruct Hown1|done]. }
  rewrite (proj2 (Z.ltb_ge IPV4_HEADER_MAX hs)) by (unfold IPV4_HEADER_MAX; lia).
  destruct (Z.ltb_spec (len bs) hs); cbn [negb andb orb] in Hnone |- *.
  { apply Herr; [done|by apply Hnone|by destruct Hown1|done]. }
  eapply (wp_step (fun c s2 => c = NET_ERR_OK /\ calm [b] s' s2 /\ own o s2 b bs 0 /\
    exists bi d, front (pkt s2) b bi d IPV4_HEADER_MIN)).
  { destruct (Z.ltb_spec IPV4_HEADER_MIN hs).
    - eapply wp_mono; [|apply (own_set_cont Hown1); unfold IPV4_HEADER_MIN in *; lia].
      intros c s2 [Hn2 H3]. rewrite (proj2 (Z.leb_le hs (len bs))), (proj2 (Z.leb_le hs _)) in H3
        by (unfold PKTBUF_BLK_SIZE; lia).
      destruct H3 as (-> & Hown2 & bi2 & d2 & Hf2). split_and!; [done..|]. exists bi2, d2.
      eapply front_le; [done|lia].
    - cbn [wp mret M_ret]. split_and!; [done..|]. by exists bi, d. }
  intros c s2 (-> & Hn2 & Hown2 & bi2 & d2 & Hf2). cbn [NET_ERR_OK Z.eqb negb].
  eapply wp_eq; [by eapply own_data|].
  eapply ipv4_accept_frame; [done|by transitivity s'|by eapply readable_front|done|unfold IPV4_HEADER_MAX; lia|done].
Qed.
End input.

(** ** Round trip *)

Lemma byte_at_app l l' k : (k < length l)%nat -> byte_at (l ++ l') k = byte_at l k.
Proof. intros. unfold byte_at. by apply app_nth1. Qed.

Lemma x_ntohs_be16 l k v :
  byte_at l k = u8 (Z.shiftr v 8) -> byte_at l (S k) = u8 v -> 0 <= v < 2 ^ 16 -> x_ntohs (load16 l k) = v.
Proof.
  intros H1 H2 Hv. erewrite x_ntohs_load16; [|apply u8_range|apply u8_range|exact H1|exact H2].
  unfold u8. rewrite shiftr_div by done. zdm.
Qed.

Lemma length_ipv4_hdr id total proto src dest ck : length (ipv4_hdr id total proto src dest ck) = 20%nat.
Proof. done. Qed.

Lemma ipv4_hdr_checksum id total proto src dest :
  is_byte proto ->
  checksum16 0 (ipv4_hdr id total proto src dest
    (checksum16 0 (ipv4_hdr id total proto src dest 0) 0 true)) 0 true = 0.
Proof.
  intros Hp. set (c := checksum16 0 (ipv4_hdr _ _ _ _ _ 0) 0 true).
  assert (Hb : are_bytes ([0x45; 0] ++ be16 total ++ be16 id ++ be16 0x4000 ++ [NET_IP_DEF_TTL; proto])).
  { unfold be16. cbn [app]. repeat (apply Forall_cons; split; [by eauto with bytes|]). done. }
  pose proof (checksum_field_verifies _ (ipaddr_to_buf src ++ ipaddr_to_buf dest) 0 c c Hb
    ltac:(eauto with bytes) ltac:(lia) eq_refl) as Hv.
  rewrite le16_x_htons, be16_u16 in Hv. apply Hv; [|by left].
  unfold c, ipv4_hdr. rewrite <- !app_assoc. done.
Qed.

Lemma ipv4_parse_packet id proto src dest payload pad :
  is_byte proto -> 0 <= src < 2 ^ 32 -> 0 <= dest < 2 ^ 32 -> len payload + IPV4_HEADER_MIN < 2 ^ 16 ->
  ipv4_parse (ipv4_packet id proto src dest payload ++ pad) = Some (Datagram proto src dest payload).
Proof.
  unfold IPV4_HEADER_MIN. intros Hp Hs Hd Hl. unfold ipv4_packet.
  set (total := len payload + IPV4_HEADER_MIN). pose proof (ipv4_hdr_checksum id total proto src dest Hp) as Hck.
  revert Hck. generalize (checksum16 0 (ipv4_hdr id total proto src dest 0) 0 true). intros ck Hck.
  set (h := ipv4_hdr _ _ _ _ _ ck) in *. rewrite <- app_assoc.
  assert (Hh : length h = 20%nat) by done.
  assert (Htot : total = len payload + 20) by done.
  assert (Hlen : len (h ++ payload ++ pad) = 20 + len payload + len pad) by (rewrite !length_app; lia).
  unfold ipv4_parse. rewrite !byte_at_app by lia.
  change (byte_at h 0) with 0x45. change (byte_at h 9) with proto.
  change (Z.land 0x45 0x0f * 4) with 20. change (Z.shiftr 0x45 4 =? NET_VERSION_IPV4) with true.
  rewrite (x_ntohs_be16 _ 2 total); [|by rewrite byte_at_app by lia..|lia].
  rewrite (x_ntohs_be16 _ 6 0x4000); [|by rewrite byte_at_app by lia..|lia].
  change (Z.to_nat 20) with 20%nat. rewrite take_app_length' by done. rewrite Hck.
  change (Z.land 0x4000 0x3fff =? 0) with true. change (IPV4_HEADER_MIN <=? 20) with true.
  unfold IPV4_HEADER_MIN. rewrite Hlen.
  rewrite (proj2 (Z.leb_le 20 _)), (proj2 (Z.leb_le 20 total)), (proj2 (Z.leb_le total _)) by lia.
  cbn [andb Z.eqb]. rewrite !(drop_app_le h) by lia.
  change (drop 12 h) with (ipaddr_to_buf src ++ ipaddr_to_buf dest).
  change (drop 16 h) with (ipaddr_to_buf dest).
  rewrite <- (app_assoc (ipaddr_to_buf src)), (take_app_length' (ipaddr_to_buf src)) by reflexivity.
  rewrite (take_app_length' (ipaddr_to_buf dest)) by reflexivity. rewrite !ipaddr_from_to_buf by done.
  replace (Z.to_nat total) with (length (h ++ payload)) by (rewrite length_app; lia).
  by rewrite app_assoc, take_app_length, drop_app_length'.
Qed.

(** ** Segments of the protocols above *)

(** The partial checksum over a pseudo header. *)
Definition pseudo_sum (pseudo : bytes) : Z := checksum16 0 pseudo 0 false.

Lemma pseudo_sum_range pseudo : are_bytes pseudo -> 0 <= pseudo_sum pseudo <= 65535.
Proof.
  intros Hb. unfold pseudo_sum. rewrite checksum16_ones by (done || lia).
  apply ones_sum_range. rewrite Z.add_0_l. by apply word_sum_nonneg.
Qed.

Lemma own_pseudo_sum {o s b bs m length} pseudo :
  own o s b bs m -> 0 <= length <= len bs -> are_bytes pseudo ->
  wp (fun c s' => c = checksum16 0 (take (Z.to_nat length) bs) (pseudo_sum pseudo) true /\
        (exists m', own o s' b bs m') /\ calm [b] s s' /\ shape (pkt s) (pkt s') /\ stored (pkt s) (pkt s'))
     ((pk (pktbuf_reset_acc b);; pk (pktbuf_checksum16 (Some b) length (pseudo_sum pseudo) true)) s).
Proof.
  intros Hown Hl Hp. wstep own_reset_acc as (Hown1 & Hn1 & Hsh1 & Hst1).
  eapply wp_mono; [|apply (own_checksum Hown1 length (pseudo_sum pseudo) true); [lia|by apply pseudo_sum_range]].
  intros c s2 (-> & Hown2 & Hn2 & Hsh2 & Hst2). change (Z.to_nat 0) with 0%nat. rewrite drop_0.
  split_and!; [done|by eexists|by transitivity s'|by etransitivity|by etransitivity].
Qed.

(** The bytes of the caller are copied behind the header. *)
Lemma own_copy_in {o s b hdr rest data m} src k :
  own o s b (hdr ++ rest) m -> are_bytes data -> (0 < len data -> src = Some data) ->
  len rest = len data -> len hdr = k ->
  wp (fun ok s' => ok = true /\ (exists m', own o s' b (hdr ++ data) m') /\ calm [b] s s' /\
        shape (pkt s) (pkt s'))
     ((if 0 <? len data then
         pk (pktbuf_reset_acc b);;
         e ← pk (pktbuf_seek (Some b) k);
         if e <? 0 then mret false
         else e ← pk (pktbuf_write (Some b) src (len data)); mret (0 <=? e)
       else mret true) s).
Proof.
  intros Hown Hd Hsrc Hl Hk. destruct (Z.ltb_spec 0 (len data)) as [Hpos|].
  2: { destruct data; [|cbn in *; lia]. destruct rest; [|done]. cbn [wp mret M_ret].
       split_and!; [done|by exists m|done..]. }
  rewrite (Hsrc Hpos). clear Hsrc. wstep own_reset_acc as (Hown1 & Hn1 & Hsh1 & _).
  wstep own_seek as (Hn2 & Hsh2 & H2); [lia|].
  rewrite length_app, (proj2 (Z.ltb_ge _ _)) in H2 by lia. destruct H2 as [-> Hown2].
  cbn [NET_ERR_OK Z.ltb Z.compare]. wstep own_write as (Hn3 & Hsh3 & H3).
  rewrite length_app, (proj2 (Z.ltb_ge _ _)) in H3 by lia. destruct H3 as [-> Hown3].
  cbn [wp mret M_ret]. split; [done|]. split; [|split; by repeat (etransitivity; [eassumption|])].
  eexists. eapply own_eq; [exact Hown3|]. unfold splice.
  rewrite take_app_length' by lia. f_equal. rewrite drop_ge, app_nil_r by (rewrite length_app; lia). done.
Qed.
