(* ===== verification/OwnerIcmp.v ===== *)
(** * ICMP echo under the ownership invariant *)

From S2P Require Import Prelude Tools IpAddr Nlist Timer Mblock Pktbuf PktbufSpec PktbufChain.
From S2P Require Import PktbufOps PktbufFrame Sys Fixq Net Netif Ether Arp NetifLink Ipv4 Icmp.
From S2P Require Import Owner OwnerPkt OwnerQueue OwnerOut OwnerArp OwnerResolve OwnerIp.

(** Only packets and the statistics change. *)
Definition counted (bs : list nat) (s s' : net) : Prop :=
  spared bs s s' /\ s' = s <| pkt := pkt s' |> <| icmpv4_stats := icmpv4_stats s' |>.

#[global] Instance counted_refl bs : Reflexive (counted bs).
Proof. intros s. split; [done|by destruct s]. Qed.
#[global] Instance counted_trans bs : Transitive (counted bs).
Proof.
  intros s1 s2 s3 [H1 E1] [H2 E2]. split; [by transitivity s2|]. rewrite E2, E1. by destruct s1.
Qed.
Lemma calm_counted bs s s' : calm bs s s' -> counted bs s s' /\ icmpv4_stats s' = icmpv4_stats s.
Proof. intros [H E]. split; [split; [done|]|]; rewrite E; by destruct s. Qed.
Lemma counted_arp bs s s' h : counted bs s s' -> arp_ok h s -> arp_ok h s'.
Proof. intros [_ ->] []. by split. Qed.
Lemma counted_netif bs s s' : counted bs s s' -> netif_buffer s' = netif_buffer s.
Proof. intros [_ ->]. by destruct s. Qed.

Lemma own_stats o s b bs m f :
  own o s b bs m -> let s' := s <| icmpv4_stats := f (icmpv4_stats s) |> in
  set_stats f s = Ret () s' /\ own o s' b bs m /\ counted [b] s s'.
Proof.
  intros (Hc & Hl & Hv) s'. split; [done|]. split; [split_and!; [by destruct Hc|done..]|].
  split; [by intros c p|by destruct s].
Qed.

(** The reply to the echo request [bs]. *)
Definition icmp_reply (bs : bytes) : bytes :=
  let rest := drop 4 bs in
  [ICMPV4_ECHO_REPLY; ICMPV4_ECHO_CODE] ++
  be16 (checksum16 0 ([ICMPV4_ECHO_REPLY; ICMPV4_ECHO_CODE; 0; 0] ++ rest) 0 true) ++ rest.

(** The end of [icmpv4_echo_reply]. *)
Definition send_echo (n : nat) (src : Z) (b : nat) : M net Z :=
  pk (pktbuf_inc_ref (Some b));;
  err ← ipv4_out (Some n) (Some src) NET_PROTOCOL_ICMPV4 (Some b);
  when (0 <=? err) (pk (pktbuf_free (Some b)));;
  mret err.

Lemma icmp_sum_ok o s b bs :
  own o s b bs 0 ->
  wp (fun c s' => c = checksum16 0 bs 0 true /\ own o s' b bs (len bs) /\ calm [b] s s' /\
        shape (pkt s) (pkt s')) (icmp_sum b s).
Proof.
  intros Hown. unfold icmp_sum. eapply wp_eq; [by eapply own_total|].
  eapply wp_mono; [|apply (own_checksum Hown (len bs) 0 true); lia].
  intros c s' (-> & Hown' & Hn & Hsh & _).
  rewrite Nat2Z.id in *. change (Z.to_nat 0) with 0%nat. rewrite drop_0, firstn_all. done.
Qed.

Lemma own_front_shape {o s s' b bs m i d k} :
  own o s' b bs m -> front (pkt s) b i d k -> shape (pkt s) (pkt s') -> front (pkt s') b i d k.
Proof. intros (_ & _ & r & Hv) Hf Hs. by eapply front_shape. Qed.

Lemma icmpv4_echo_reply_frame {o s b bs m} n src (Q : Z -> net -> Prop) :
  own o s b bs m -> sizeof_icmpv4_hdr_t <= len bs ->
  (forall s' m', own o s' b (icmp_reply bs) m' -> calm [b] s s' -> wp Q (send_echo n src b s')) ->
  wp Q (icmpv4_echo_reply n src b s).
Proof.
  unfold sizeof_icmpv4_hdr_t. intros Hown Hl Hsend. unfold icmpv4_echo_reply.
  wstep own_set_cont as [Hn1 H1]; [done|]. rewrite (proj2 (Z.leb_le _ _)) in H1 by done.
  change (sizeof_icmpv4_hdr_t <=? PKTBUF_BLK_SIZE) with true in H1. destruct H1 as (-> & Hown1 & bi & d & Hf1).
  unfold sizeof_icmpv4_hdr_t in Hf1. cbn [NET_ERR_OK Z.eqb negb]. eapply wp_eq; [by eapply own_data|].
  change bs with ([] ++ bs) in Hown1.
  hdr_next icmp_type as (Hown2 & Hf2 & Hn2).
  hdr_next icmp_code as (Hown3 & Hf3 & Hn3).
  hdr_next icmp_checksum as (Hown4 & Hf4 & Hn4).
  rewrite !drop_drop in Hown4. cbn [length app Nat.add le16] in Hown4.
  wstep own_reset_acc as (Hown5 & Hn5 & Hsh5 & _). pose proof (own_front_shape Hown5 Hf4 Hsh5) as Hf5.
  wstep icmp_sum_ok as (-> & Hown6 & Hn6 & Hsh6). pose proof (own_front_shape Hown6 Hf5 Hsh6) as Hf6.
  set (z := _ :: _ :: _ :: _ :: drop 4 bs) in *.
  wstep (own_hdr_store Hown6 Hf6 2) as (Hown7 & _ & Hn7); [by eauto with bytes|done|done|].
  eapply Hsend; [|by repeat (etransitivity; [eassumption|])].
  eapply own_eq; [exact Hown7|]. rewrite le16_x_htons, be16_u16. reflexivity.
Qed.

(** ** What an input function leaves alone *)

(** The state without what the input functions change: the packets, the cache,
    the statistics and the received datagrams. *)
Definition no_stats : icmpv4_stats_t := IcmpStats 0 0 0 0.
Definition no_recv (x : udp_pcb_t) : udp_pcb_t := x <| recv_queue := Fixq 0 [] 0 0 0 None None |>.
Definition no_records (s : net) : net :=
  s <| icmpv4_stats := no_stats |> <| udp_pcbs := no_recv <$> udp_pcbs s |> <| recv_records := [] |>.
Definition config (s : net) : net := no_records (beyond s).
Definition served (bs : list nat) (s s' : net) : Prop := config s' = config s /\ spared bs s s'.

#[global] Instance served_refl bs : Reflexive (served bs).
Proof. by split. Qed.
#[global] Instance served_trans bs : Transitive (served bs).
Proof. intros s1 s2 s3 [E1 H1] [E2 H2]. split; [by rewrite E2|by transitivity s2]. Qed.
Lemma far_served bs s s' : far bs s s' -> served bs s s'.
Proof. intros [E H]. split; [exact (f_equal no_records E)|done]. Qed.
Lemma calm_served bs s s' : calm bs s s' -> served bs s s'.
Proof. intros. by apply far_served, calm_far. Qed.
Lemma counted_served bs s s' : counted bs s s' -> served bs s s'.
Proof. intros [H E]. split; [|done]. rewrite E. by destruct s. Qed.

(** The UDP part of the state is as it was. *)
Definition udp_same (s s' : net) : Prop :=
  pcbs s' = pcbs s /\ udp_pcbs s' = udp_pcbs s /\ recv_records s' = recv_records s.
Lemma far_udp bs s s' : far bs s s' -> udp_same s s'.
Proof.
  intros [E _]. split_and!; [apply (f_equal pcbs) in E|apply (f_equal udp_pcbs) in E
    |apply (f_equal recv_records) in E]; exact E.
Qed.

(** The state after an input function, with the code [r] that it returned. *)
Definition handled (o : list nat) (b : nat) (s : net) (r : Z) (s' : net) : Prop :=
  accepts o b r s' /\ arp_ok [] s' /\ served [b] s s'.

Lemma handled_err o b s e s' :
  e < 0 -> core (b :: o) s' -> arp_ok [] s' -> served [b] s s' -> handled o b s e s'.
Proof.
  intros He Hc Ha Hs. split_and!; [|done..]. unfold accepts. by rewrite (proj2 (Z.ltb_lt _ _)).
Qed.
Lemma handled_ok o b s e s' :
  0 <= e -> core o s' -> arp_ok [] s' -> served [b] s s' -> handled o b s e s'.
Proof.
  intros He Hc Ha Hs. split_and!; [|done..]. unfold accepts. by rewrite (proj2 (Z.ltb_ge _ _)).
Qed.
Lemma handled_step o b s s1 r s' : served [b] s s1 -> handled o b s1 r s' -> handled o b s r s'.
Proof. intros Hs (? & ? & ?). split_and!; [done..|by transitivity s1]. Qed.

(** ** Echo requests and replies *)

Lemma send_echo_ok o s b bs m n src :
  own o s b bs m -> arp_ok [] s -> n ∈ dom (netif_buffer s) -> 0 <= src < 2 ^ 32 ->
  wp (fun r s' => handled o b s r s' /\ udp_same s s') (send_echo n src b s).
Proof.
  intros Hown Ha Hd Hr. unfold send_echo. wstep own_inc_ref as [Hown1 Hn1].
  wstep ipv4_out_ok as (Hc2 & Ha2 & Hf2); [by eapply arp_ok_near, Ha; apply calm_near|
    by rewrite (calm_netif _ _ _ Hn1)|done|].
  assert (Hf : far [b] s s'0) by (transitivity s'; [by apply calm_far|done]).
  destruct (Z.leb_spec 0 a0); cbn [when].
  - wstep own_free as [Hc3 Hn3]. cbn [wp mret M_ret].
    assert (far [b] s s'1) by (transitivity s'0; [done|by apply calm_far]). split; [|by eapply far_udp].
    apply handled_ok; [done..|by eapply arp_ok_near, Ha2; apply calm_near|by apply far_served].
  - eapply wp_eq; [reflexivity|]. cbn [wp mret M_ret]. split; [|by eapply far_udp].
    apply handled_err; [lia|done..|by apply far_served].
Qed.

(** The messages [icmpv4_in] takes. *)
Definition icmp_valid (bs : bytes) : Prop :=
  sizeof_icmpv4_hdr_t <= len bs /\ checksum16 0 bs 0 true = 0 /\ byte_at bs 1 = ICMPV4_ECHO_CODE.

Definition count_request (st : icmpv4_stats_t) : icmpv4_stats_t :=
  st <| echo_requests := u32 (echo_requests st + 1) |>.
Definition count_reply (bs : bytes) (st : icmpv4_stats_t) : icmpv4_stats_t :=
  st <| echo_replies := u32 (echo_replies st + 1) |>
     <| last_reply_identifier := x_ntohs (load16 bs 4) |> <| last_reply_sequence := x_ntohs (load16 bs 6) |>.

Lemma icmpv4_in_frame {o s b bs m} n src dest (Q : Z -> net -> Prop) :
  own o s b bs m ->
  (forall e s', e < 0 -> core (b :: o) s' -> calm [b] s s' -> Q e s') ->
  (forall s', icmp_valid bs -> byte_at bs 0 = ICMPV4_ECHO_REPLY -> core o s' -> counted [b] s s' ->
     icmpv4_stats s' = count_reply bs (icmpv4_stats s) -> Q NET_ERR_OK s') ->
  (forall s' m', icmp_valid bs -> byte_at bs 0 = ICMPV4_ECHO_REQUEST -> own o s' b (icmp_reply bs) m' ->
     counted [b] s s' -> icmpv4_stats s' = count_request (icmpv4_stats s) -> wp Q (send_echo n src b s')) ->
  wp Q (icmpv4_in (Some n) (Some src) dest (Some b) s).
Proof.
  unfold icmp_valid, sizeof_icmpv4_hdr_t. intros Hown Herr Hreply Hreq. unfold icmpv4_in.
  eapply wp_eq; [by eapply own_total|]. destruct (Z.ltb_spec (len bs) sizeof_icmpv4_hdr_t) as [|Hl].
  { apply Herr; [done|by destruct Hown|done]. }
  wstep own_set_cont as [Hn1 H1]; [done|]. rewrite (proj2 (Z.leb_le _ _)) in H1 by done.
  change (sizeof_icmpv4_hdr_t <=? PKTBUF_BLK_SIZE) with true in H1. destruct H1 as (-> & Hown1 & bi & d & Hf1).
  unfold sizeof_icmpv4_hdr_t in Hf1, Hl. cbn [NET_ERR_OK Z.eqb negb].
  wstep own_reset_acc as (Hown2 & Hn2 & Hsh2 & _). pose proof (own_front_shape Hown2 Hf1 Hsh2) as Hf2.
  wstep icmp_sum_ok as (-> & Hown3 & Hn3 & Hsh3). pose proof (own_front_shape Hown3 Hf2 Hsh3) as Hf3.
  assert (Hn : calm [b] s s'1) by (by repeat (etransitivity; [eassumption|])). clear Hn1 Hn2 Hn3.
  destruct (Z.eqb_spec (checksum16 0 bs 0 true) 0) as [Hck|]; cbn [negb].
  2: { apply Herr; [done|by destruct Hown3|done]. }
  eapply wp_eq; [by eapply own_data|]. eapply wp_eq; [by eapply own_load8|]. eapply wp_eq; [by eapply own_load8|].
  change (Z.to_nat icmp_code) with 1%nat. change (Z.to_nat icmp_type) with 0%nat.
  destruct (Z.eqb_spec (byte_at bs 1) ICMPV4_ECHO_CODE) as [Hco|]; cbn [negb].
  2: { apply Herr; [done|by destruct Hown3|done]. }
  destruct (calm_counted _ _ _ Hn) as [Hcnt Est].
  destruct (Z.eqb_spec (byte_at bs 0) ICMPV4_ECHO_REPLY) as [Hty|Hty].
  - eapply wp_eq; [by eapply own_load16|]. eapply wp_eq; [by eapply own_load16|].
    change (Z.to_nat icmp_identifier) with 4%nat. change (Z.to_nat icmp_sequence) with 6%nat.
    destruct (own_stats _ _ _ _ _ (count_reply bs) Hown3) as (Hr & Hown4 & Hcnt4).
    eapply wp_eq; [exact Hr|]. wstep own_free as [Hc5 Hn5]; [by destruct Hown4|].
    destruct (calm_counted _ _ _ Hn5) as [Hcnt5 Est5]. cbn [wp mret M_ret].
    apply Hreply; [done..|by repeat (etransitivity; [eassumption|])|]. rewrite Est5, <- Est. by destruct s'1.
  - destruct (Z.eqb_spec (byte_at bs 0) ICMPV4_ECHO_REQUEST) as [Hty'|]; cbn [negb].
    2: { apply Herr; [done|by destruct Hown3|done]. }
    destruct (own_stats _ _ _ _ _ count_request Hown3) as (Hr & Hown4 & Hcnt4).
    eapply wp_eq; [exact Hr|]. eapply icmpv4_echo_reply_frame; [done..|].
    intros s5 m5 Hown5 Hn5. destruct (calm_counted _ _ _ Hn5) as [Hcnt5 Est5].
    eapply Hreq; [done..|by repeat (etransitivity; [eassumption|])|]. rewrite Est5, <- Est. by destruct s'1.
Qed.

Lemma icmpv4_in_ok o s b bs m n src dest :
  own o s b bs m -> arp_ok [] s -> n ∈ dom (netif_buffer s) -> 0 <= src < 2 ^ 32 ->
  wp (fun r s' => handled o b s r s' /\ udp_same s s') (icmpv4_in (Some n) (Some src) dest (Some b) s).
Proof.
  intros Hown Ha Hd Hr. apply (icmpv4_in_frame n src dest _ Hown).
  - intros e s' He Hc Hn. split; [|by eapply far_udp, calm_far].
    apply handled_err; [done..|by eapply arp_ok_near, Ha; apply calm_near|by apply calm_served].
  - intros s' _ _ Hc Hn _. split; [|destruct Hn as [_ ->]; by destruct s].
    apply handled_ok; [done..|by eapply counted_arp|by apply counted_served].
  - intros s' m' _ _ Hown' Hn _. eapply wp_mono; [|eapply send_echo_ok; [done|by eapply counted_arp| |done]].
    + intros r s2 [Hh Hu]. split; [eapply handled_step; [by apply counted_served|done]|].
      destruct Hn as [_ E]. rewrite E in Hu. exact Hu.
    + by rewrite (counted_netif _ _ _ Hn).
Qed.

(** ** Sending an echo request *)

Definition icmp_msg (ty ck identifier sequence : Z) (payload : bytes) : bytes :=
  [ty; ICMPV4_ECHO_CODE] ++ be16 ck ++ be16 identifier ++ be16 sequence ++ payload.
Definition icmp_request (identifier sequence : Z) (payload : bytes) : bytes :=
  icmp_msg ICMPV4_ECHO_REQUEST
    (checksum16 0 (icmp_msg ICMPV4_ECHO_REQUEST 0 identifier sequence payload) 0 true)
    identifier sequence payload.

(** The payload is copied behind the header. *)
Lemma copy_payload_ok o s b hdr rest data m k :
  own o s b (hdr ++ rest) m -> are_bytes data -> len rest = len data -> len hdr = k ->
  wp (fun ok s' => ok = true /\ (exists m', own o s' b (hdr ++ data) m') /\ calm [b] s s' /\
        shape (pkt s) (pkt s'))
     ((if negb (len data =? 0) then
         pk (pktbuf_reset_acc b);;
         e ← pk (pktbuf_seek (Some b) k);
         if negb (e =? NET_ERR_OK) then mret false
         else e ← pk (pktbuf_write (Some b) (Some data) (len data)); mret (e =? NET_ERR_OK)
       else mret true) s).
Proof.
  intros Hown Hd Hl Hk. destruct (Z.eqb_spec (len data) 0) as [E|E]; cbn [negb].
  { destruct data; [|done]. destruct rest; [|done]. cbn [wp mret M_ret]. split_and!; [done|by exists m|done..]. }
  wstep own_reset_acc as (Hown1 & Hn1 & Hsh1 & _). wstep own_seek as (Hn2 & Hsh2 & H2); [lia|].
  rewrite length_app, (proj2 (Z.ltb_ge _ _)) in H2 by lia. destruct H2 as [-> Hown2].
  cbn [NET_ERR_OK Z.eqb negb]. wstep own_write as (Hn3 & Hsh3 & H3); [lia|].
  rewrite length_app, (proj2 (Z.ltb_ge _ _)) in H3 by lia. destruct H3 as [-> Hown3].
  cbn [wp mret M_ret]. split; [done|]. split; [|split; by repeat (etransitivity; [eassumption|])].
  eexists. eapply own_eq; [exact Hown3|]. unfold splice.
  rewrite take_app_length' by lia. f_equal. rewrite drop_ge, app_nil_r by (rewrite length_app; lia). done.
Qed.

Lemma icmpv4_out_echo_frame {o s n i} dest identifier sequence data (Q : Z -> net -> Prop) :
  core o s -> netif_buffer s !! n = Some i -> are_bytes data ->
  (forall e s', e < 0 -> core o s' -> calm [] s s' -> Q e s') ->
  (forall s' b m, (forall p, ~ live (pkt s) b p) -> own o s' b (icmp_request identifier sequence data) m ->
     calm [] s s' -> wp Q (ipv4_out (Some n) (Some dest) NET_PROTOCOL_ICMPV4 (Some b) s')) ->
  wp Q (icmpv4_out_echo (Some n) (Some dest) identifier sequence (Some data) (len data) s).
Proof.
  intros Hc Hi Hd Herr Hout. unfold icmpv4_out_echo. rewrite (proj2 (Z.ltb_ge (len data) 0)) by lia.
  rewrite bool_decide_eq_false_2, andb_false_r by done. cbn [orb].
  eapply wp_eq; [by apply load_netif_at|]. destruct (_ <? len data); [by apply Herr|].
  wstep own_alloc as [Hn1 H1]; [unfold sizeof_icmpv4_hdr_t; lia|]. destruct a as [b|]; [|by apply Herr].
  destruct H1 as (Hdead & (bs & Hl & Hown1) & Hf1). unfold sizeof_icmpv4_hdr_t in *.
  destruct Hf1 as (bi & d & Hf1); [lia|]. apply (front_le _ _ _ _ _ 8) in Hf1; [|unfold PKTBUF_BLK_SIZE; lia].
  eapply wp_eq; [by eapply own_data|]. cbn [deref]. eapply wp_eq; [reflexivity|].
  change bs with ([] ++ bs) in Hown1.
  hdr_next icmp_type as (Hown2 & Hf2 & Hn2).
  hdr_next icmp_code as (Hown3 & Hf3 & Hn3).
  hdr_next icmp_checksum as (Hown4 & Hf4 & Hn4).
  hdr_next icmp_identifier as (Hown5 & Hf5 & Hn5).
  hdr_next icmp_sequence as (Hown6 & Hf6 & Hn6).
  rewrite !drop_drop in Hown6.
  wstep copy_payload_ok as (-> & (m7 & Hown7) & Hn7 & Hsh7);
    [rewrite length_drop; cbn [length le16]; lia|rewrite !length_app; reflexivity|].
  pose proof (own_front_shape Hown7 Hf6 Hsh7) as Hf7. cbn [negb].
  wstep own_reset_acc as (Hown8 & Hn8 & Hsh8 & _). pose proof (own_front_shape Hown8 Hf7 Hsh8) as Hf8.
  eapply wp_eq; [by eapply own_data|]. cbn [deref]. eapply wp_eq; [reflexivity|].
  rewrite !le16_x_htons, !be16_u16, <- !app_assoc in Hown8.
  wstep icmp_sum_ok as (-> & Hown9 & Hn9 & Hsh9). pose proof (own_front_shape Hown9 Hf8 Hsh9) as Hf9.
  wstep (own_hdr_store Hown9 Hf9 2) as (Hown10 & _ & Hn10); [by eauto with bytes|done|done|].
  eapply Hout; [done| |eapply calm_fresh; [done..|]; by repeat (etransitivity; [eassumption|])].
  eapply own_eq; [exact Hown10|]. rewrite le16_x_htons, be16_u16. reflexivity.
Qed.

Lemma icmpv4_out_echo_ok o s n dest identifier sequence data :
  core o s -> arp_ok [] s -> n ∈ dom (netif_buffer s) -> are_bytes data -> 0 <= dest < 2 ^ 32 ->
  wp (fun _ s' => core o s' /\ arp_ok [] s' /\ far [] s s')
     (icmpv4_out_echo (Some n) (Some dest) identifier sequence (Some data) (len data) s).
Proof.
  intros Hc Ha Hd Hb Hr. pose proof Hd as [i Hi]%elem_of_dom.
  apply (icmpv4_out_echo_frame dest identifier sequence data _ Hc Hi Hb).
  - intros e s' _ Hc' Hn. split_and!; [done|by eapply arp_ok_near, Ha; apply calm_near|by apply calm_far].
  - intros s' b m Hdead Hown Hn. rewrite <- (calm_netif _ _ _ Hn) in Hd.
    eapply wp_mono; [|eapply ipv4_out_ok; [done|by eapply arp_ok_near, Ha; apply calm_near|done..]].
    intros _ s2 (Hc2 & Ha2 & Hf2). split_and!; [done..|]. apply (far_drop b); [by right|].
    transitivity s'; [|done]. eapply far_mono; [|by apply calm_far]. set_solver.
Qed.

(** ** Round trip *)

(** A message whose checksum was filled in verifies. *)
Lemma icmp_msg_verifies ty identifier sequence payload :
  is_byte ty -> are_bytes payload ->
  checksum16 0 (icmp_msg ty (checksum16 0 (icmp_msg ty 0 identifier sequence payload) 0 true)
    identifier sequence payload) 0 true = 0.
Proof.
  intros Ht Hp. unfold icmp_msg at 1. set (rest := be16 identifier ++ be16 sequence ++ payload).
  assert (Hb : are_bytes rest) by (unfold rest; by eauto with bytes).
  rewrite <- (be16_u16 (checksum16 _ _ _ _)), <- le16_x_htons.
  eapply (checksum_field_verifies [ty; ICMPV4_ECHO_CODE] rest 0); [|done|lia|done|reflexivity|left].
  - by repeat (apply Forall_cons; split; [by eauto with bytes|]).
  - f_equal.
Qed.

(** The reply to a request carries its identifier, sequence number and
    payload, and a checksum that verifies. *)
Lemma icmp_reply_msg ck identifier sequence payload :
  icmp_reply (icmp_msg ICMPV4_ECHO_REQUEST ck identifier sequence payload) =
  icmp_msg ICMPV4_ECHO_REPLY (checksum16 0 (icmp_msg ICMPV4_ECHO_REPLY 0 identifier sequence payload) 0 true)
    identifier sequence payload.
Proof. unfold icmp_reply, icmp_msg. by do 3 f_equal. Qed.

Lemma icmp_request_valid identifier sequence payload :
  are_bytes payload -> icmp_valid (icmp_request identifier sequence payload) /\
  byte_at (icmp_request identifier sequence payload) 0 = ICMPV4_ECHO_REQUEST.
Proof.
  intros Hp. split; [|done]. split_and!; [unfold sizeof_icmpv4_hdr_t, icmp_request, icmp_msg; lens| |done].
  unfold icmp_request. apply (icmp_msg_verifies ICMPV4_ECHO_REQUEST); [by split|done].
Qed.
