(* ===== verification/OwnerTcp.v ===== *)
(** * TCP under the ownership invariant: the elementary steps

    [tcx B o P s0 s t T]: a function of tcp.c that started in [s0] is in the
    state [s], where the invariant of the stack holds, the variables of tcp.c
    are [t], the timers that run are [T] and those that wait for their callback
    are [P]; the packets in [o] belong to the function and its callers, and the
    packets that were in no place, other than [B], are as they were. *)

From S2P Require Import Prelude Tools IpAddr Nlist Timer Mblock Pktbuf PktbufSpec PktbufChain.
From S2P Require Import PktbufOps PktbufFrame Sys Fixq TcpState Net Netif Ether Arp NetifLink Ipv4 Udp Tcp.
From S2P Require Import TcpInv TcpQueue Owner OwnerPkt OwnerQueue OwnerOut OwnerArp OwnerResolve OwnerIp.
Import Pcb.

#[local] Opaque checksum16.

(** ** What TCP leaves alone *)

Definition tcp_blank : tcp_vars := TcpVars [] [] [] 0 0.
Definition sans_tcp (s : net) : net := s <| tcp := tcp_blank |> <| timers := TimerState ∅ [] [] |>.
Definition tended (B : list nat) (s s' : net) : Prop :=
  sans_tcp (beyond s') = sans_tcp (beyond s) /\ spared B s s'.

#[global] Instance tended_refl B : Reflexive (tended B).
Proof. by split. Qed.
#[global] Instance tended_trans B : Transitive (tended B).
Proof. intros s1 s2 s3 [E1 H1] [E2 H2]. split; [by rewrite E2|by transitivity s2]. Qed.
Lemma far_tended B s s' : far B s s' -> tended B s s'.
Proof. intros [E H]. split; [exact (f_equal sans_tcp E)|done]. Qed.
Lemma calm_tended B s s' : calm B s s' -> tended B s s'.
Proof. intros. by apply far_tended, calm_far. Qed.
Lemma tended_mono B B' s s' : B ⊆ B' -> tended B s s' -> tended B' s s'.
Proof. intros HB [E H]. split; [done|by eapply spared_mono]. Qed.
Lemma tended_dom B s s' : tended B s s' -> dom (netif_buffer s') = dom (netif_buffer s).
Proof.
  intros [E _]. apply (f_equal netif_buffer) in E. cbn in E.
  by rewrite <- (dom_fmap_L face), E, dom_fmap_L.
Qed.
Lemma far_tcp B s s' : far B s s' -> tcp s' = tcp s /\ timers s' = timers s.
Proof. intros [E _]. split; [exact (f_equal tcp E)|exact (f_equal timers E)]. Qed.

(** ** Timers *)

Definition armed (m : timer_state) (k : nat) : bool := in_list k (timer_list m).
Definition is_tcp_timer (k : nat) : Prop :=
  exists p, (p < TCP_PCB_MAX)%nat /\ (k = retrans_timer p \/ k = time_wait_timer p \/ k = release_timer p).
(** ** The timers of the stack *)

(** What a scheduled timer has in its fields, [curr] apart. *)
Inductive kind : nat -> net_timer_t -> Prop :=
| KindRetrans p tm : (p < TCP_PCB_MAX)%nat -> proc tm = tcp_timer_proc_addr -> arg tm = Z.of_nat p -> flags tm = 0 ->
    kind (retrans_timer p) tm
| KindTimeWait p tm : (p < TCP_PCB_MAX)%nat -> proc tm = tcp_time_wait_proc_addr -> arg tm = Z.of_nat p -> flags tm = 0 ->
    kind (time_wait_timer p) tm
| KindRelease p tm : (p < TCP_PCB_MAX)%nat -> proc tm = tcp_release_proc_addr -> arg tm = Z.of_nat p ->
    flags tm = NET_TIMER_RELOAD -> reload tm = 1 -> kind (release_timer p) tm
| KindArp tm : proc tm = arp_cache_tmo_proc -> flags tm = NET_TIMER_RELOAD -> reload tm = ARP_TIMER_TMO * 1000 ->
    kind cache_timer tm.

(** The timers of tcp.c that run once. *)
Definition one_shot (k : nat) : Prop := exists p, (p < TCP_PCB_MAX)%nat /\ (k = retrans_timer p \/ k = time_wait_timer p).

Definition scheduled (m : timer_state) : list nat := timer_list m ++ concat (pending_timers m).

(** The fields of a timer, [curr] apart. *)
Abbreviation fields m k := (static_part m !! k).

Record timers_good (m : timer_state) : Prop := {
  good_wf : timer_wf m;
  good_known : forall k, is_tcp_timer k -> is_Some (fields m k);
  good_late : Forall (fun '(_, d) => 1 <= d) (deadlines m);
  good_once : NoDup (scheduled m);
  good_kind : forall k, k ∈ scheduled m -> exists tm, fields m k = Some tm /\ kind k tm;
  good_shot : forall k tm, one_shot k -> fields m k = Some tm -> flags tm = 0 }.

(** A timer that is set to run again keeps its fields. *)
Definition reloads_kept (m m' : timer_state) : Prop :=
  forall k tm, ~ one_shot k -> fields m k = Some tm -> kind k tm -> exists tm', fields m' k = Some tm' /\ kind k tm'.
#[global] Instance reloads_kept_refl : Reflexive reloads_kept.
Proof. intros m k tm _ H1 H2. by exists tm. Qed.
#[global] Instance reloads_kept_trans : Transitive reloads_kept.
Proof. intros m1 m2 m3 H1 H2 k tm Hk E Hd. destruct (H1 k tm Hk E Hd) as (tm' & E' & Hd'). by apply (H2 k tm'). Qed.

Definition timers_wf (m0 m : timer_state) : Prop := timers_good m /\ reloads_kept m0 m.

Lemma armed_iff m k : armed m k = true <-> k ∈ timer_list m.
Proof. apply in_list_spec. Qed.

Lemma bool_eq (a b : bool) : (a = true <-> b = true) -> a = b.
Proof. destruct a, b; intros [H1 H2]; naive_solver. Qed.

Lemma reloads_static m m' : static_part m' = static_part m -> reloads_kept m m'.
Proof. intros E k tm _. rewrite E. eauto. Qed.

Lemma timer_remove_armed m0 m k :
  timers_wf m0 m ->
  exists m', net_timer_remove (Some k) m = Ret () m' /\ timers_wf m0 m' /\ pending_timers m' = pending_timers m /\
    forall j, armed m' j = run_timer k false (armed m) j.
Proof.
  intros [[Hwf Hk Hlate Honce Hkind Hshot] Hre].
  destruct (net_timer_remove_ok m k Hwf) as (m' & Hr & Hwf' & Hd & Hl & Hp & Hs).
  assert (Hsub : forall j, j ∈ scheduled m' -> j ∈ scheduled m).
  { intros j. unfold scheduled. rewrite !elem_of_app, Hl, Hp, list_elem_of_filter. tauto. }
  exists m'. split_and!; [done|split; [split|]|done|]; try (rewrite Hs; done).
  - done.
  - rewrite Hd. rewrite Forall_forall in Hlate |- *. intros d [_ ?]%list_elem_of_filter. by apply Hlate.
  - unfold scheduled in *. rewrite Hl, Hp. apply NoDup_app in Honce as (N1 & N2 & N3). apply NoDup_app.
    split_and!; [by apply NoDup_filter| |done]. intros j [_ Hj]%list_elem_of_filter. by apply N2.
  - intros j Hj. rewrite Hs. by apply Hkind, Hsub.
  - etransitivity; [exact Hre|by apply reloads_static].
  - intros j. apply bool_eq. rewrite armed_iff, Hl, list_elem_of_filter. unfold run_timer.
    case_decide; [naive_solver|]. rewrite armed_iff. naive_solver.
Qed.

Lemma unscheduled_iff m k : unscheduled k m <-> k ∉ scheduled m.
Proof.
  unfold unscheduled, scheduled. rewrite not_elem_of_app, Forall_forall, list_elem_of_In, (list_elem_of_In (concat _)), in_concat.
  setoid_rewrite list_elem_of_In. naive_solver.
Qed.

Lemma timer_add_armed m0 m k nm pr ar ms fl :
  timers_wf m0 m -> is_tcp_timer k -> pr <> 0 -> 0 < ms <= INT_MAX ->
  (forall tm, proc tm = pr -> arg tm = ar -> flags tm = fl -> reload tm = ms -> kind k tm) ->
  exists m' e, net_timer_add (Some k) (Some nm) pr ar ms fl m = Ret e m' /\ timers_wf m0 m' /\
    pending_timers m' = pending_timers m /\
    ((e = NET_ERR_OK /\ armed m k = false /\ k ∉ concat (pending_timers m) /\
      forall j, armed m' j = run_timer k true (armed m) j) \/
     (e = NET_ERR_EXIST /\ m' = m /\ (armed m k = true \/ k ∈ concat (pending_timers m)))).
Proof.
  intros Hw Htk Hpr Hms Hkd. pose proof Hw as [[Hwf Hk Hlate Honce Hkind Hshot] Hre].
  destruct (timer_is_scheduled_spec k m) as ([|] & Hb & Hiff).
  - exists m, NET_ERR_EXIST. split_and!; [|done..|].
    + unfold net_timer_add. rewrite (proj2 (orb_false_iff _ _)) by lia. by mstep by exact Hb.
    + right. split_and!; [done..|]. rewrite armed_iff, <- elem_of_app. fold (scheduled m).
      destruct (decide (k ∈ scheduled m)) as [?|Hn]; [done|]. by apply unscheduled_iff, Hiff in Hn.
  - assert (Hu : k ∉ scheduled m) by (by apply unscheduled_iff, Hiff).
    destruct (Hk k Htk) as [st [c Htm]%static_lookup].
    destruct (net_timer_add_ok m k nm pr ar ms fl _ Hwf Htm) as (m' & tm' & Hr & Hwf' & Hd & Hp' & Hdom & (Htm' & F1 & F2 & F3 & F4) & Hoth);
      [by apply Hiff|done..|].
    assert (El : timer_list m' ≡ₚ k :: timer_list m).
    { rewrite <- (fst_deadlines m'), Hd. cbn. by rewrite fst_deadlines. }
    assert (Es : scheduled m' ≡ₚ k :: scheduled m) by (unfold scheduled; by rewrite El, Hp').
    assert (Hfk : fields m' k = Some (tm' <| curr := 0 |>)) by (unfold static_part; by rewrite lookup_fmap, Htm').
    assert (Hkk : kind k (tm' <| curr := 0 |>)) by (by apply Hkd).
    exists m', NET_ERR_OK. split_and!; [done|split; [split|]|done|].
    + done.
    + intros j Hj. rewrite <- is_Some_static, Hdom, is_Some_static. by apply Hk.
    + rewrite Hd. constructor; [lia|done].
    + rewrite Es. by constructor.
    + intros j. rewrite Es, elem_of_cons. destruct (decide (j = k)) as [->|Hne]; [eauto|].
      intros [?|Hj]; [done|]. rewrite Hoth by done. by apply Hkind.
    + intros j st' Hj. destruct (decide (j = k)) as [->|Hne]; [|rewrite Hoth by done; by apply Hshot].
      rewrite Hfk. intros [= <-]. destruct Hj as (q & Hq & Hj). inversion Hkk; subst; try done;
        exfalso; clear -Hj H Hq; unfold retrans_timer, time_wait_timer, release_timer, cache_timer, TCP_PCB_MAX in *; lia.
    + intros j st' Hn Hj Hkj. destruct (Hre j st' Hn Hj Hkj) as (st2 & Hj2 & Hk2).
      destruct (decide (j = k)) as [->|Hne]; [eauto|]. rewrite Hoth by done. eauto.
    + unfold scheduled in Hu. rewrite not_elem_of_app in Hu. destruct Hu as [Hu1 Hu2].
      left. split_and!; [done| |done|].
      * apply not_true_iff_false. by rewrite armed_iff.
      * intros j. apply bool_eq. rewrite armed_iff. unfold run_timer.
        rewrite El, elem_of_cons. case_decide; [naive_solver|]. rewrite armed_iff. naive_solver.
Qed.

(** ** The context of a TCP function *)

Record tcx (B o : list nat) (P : list (list nat)) (s0 s : net) (t : tcp_vars) (T : nat -> bool) : Prop := {
  cx_core : core o s;
  cx_arp : arp_ok [] s;
  cx_frame : tended B s0 s;
  cx_tcp : tcp s = t;
  cx_wf : timers_wf (timers s0) (timers s);
  cx_armed : forall k, armed (timers s) k = T k;
  cx_pending : pending_timers (timers s) = P }.

(** Everything but the packets, the queues and the cache stays. *)
Lemma tcx_far {B o o' P s0 s s' t T} :
  tcx B o P s0 s t T -> core o' s' -> arp_ok [] s' -> far B s s' -> tcx B o' P s0 s' t T.
Proof.
  intros [] Hc Ha Hf. destruct (far_tcp _ _ _ Hf) as [Et Em]. split; rewrite ?Et, ?Em; try done.
  etransitivity; [done|by apply far_tended].
Qed.
Lemma tcx_calm {B o o' P s0 s s' t T} :
  tcx B o P s0 s t T -> core o' s' -> calm B s s' -> tcx B o' P s0 s' t T.
Proof.
  intros Hx Hc Hn. eapply tcx_far; [exact Hx|done| |by apply calm_far].
  eapply arp_ok_near; [by apply calm_near|by destruct Hx].
Qed.
Lemma tcx_timers {B o P s0 s t T} T' :
  tcx B o P s0 s t T -> (forall k, T k = T' k) -> tcx B o P s0 s t T'.
Proof. intros [] E. split; try done. intros k. by rewrite <- E. Qed.

Lemma tcx_dom {B o P s0 s t T} : tcx B o P s0 s t T -> dom (netif_buffer s) = dom (netif_buffer s0).
Proof. intros Hx. eapply tended_dom, Hx. Qed.

(** ** Memory *)

Section steps.
Context {B o : list nat} {P : list (list nat)} {s0 s : net} {t : tcp_vars} {T : nat -> bool}.
Context (Hx : tcx B o P s0 s t T).

Lemma load_tcp_at p x : pcb_at t p = Some x -> load_tcp p s = Ret x s.
Proof using Hx. intros H. unfold load_tcp. mstep. apply deref_ret. by rewrite (cx_tcp _ _ _ _ _ _ _ Hx). Qed.

Lemma gets_tcp_at : gets tcp s = Ret t s.
Proof using Hx. unfold gets. by rewrite (cx_tcp _ _ _ _ _ _ _ Hx). Qed.

(** The state with other TCP variables. *)
Lemma tcx_vars o' t' :
  (forall pl, holds (s <| tcp := t' |>) pl = holds s pl) ->
  (forall u, sems_at (s <| tcp := t' |>) u = sems_at s u) -> o' = o ->
  tcx B o' P s0 (s <| tcp := t' |>) t' T.
Proof using Hx.
  intros Hh Hs ->. destruct Hx as [[C1 C2 C3 C4 C5 C6] Ha Hf Ht Hw Har Hp]. split; try done.
  - split; try done.
    + eapply acct_ext; [exact C2|done|exact Hh|done].
    + intros u u'. rewrite !Hs. apply C5.
    + intros u k. rewrite Hs. apply C6.
  - by destruct Ha.
  - etransitivity; [exact Hf|]. split; [by destruct s|]. intros c k _ Hl Hk. split_and!; [|done..].
    intros pl. rewrite Hh. apply Hl.
Qed.

Lemma store_tcp_run p f x : pcb_at t p = Some x -> store_tcp p f s = Ret () (s <| tcp := upd p f t |>).
Proof using Hx.
  intros H. unfold store_tcp. mstep by (by apply load_tcp_at). cbn. unfold modify, upd.
  rewrite (cx_tcp _ _ _ _ _ _ _ Hx). do 2 f_equal. 
  by rewrite (insert_alter f p _ x H).
Qed.

(** A store that touches neither the segment in flight nor the semaphores. *)
Lemma store_tcp_ok p f x :
  pcb_at t p = Some x -> outstanding (f x) = outstanding x -> tcp_sems (f x) = tcp_sems x ->
  wp (fun _ s' => tcx B o P s0 s' (upd p f t) T) (store_tcp p f s).
Proof using Hx.
  intros H Ho Hs. eapply wp_run; [by eapply store_tcp_run|]. pose proof (cx_tcp _ _ _ _ _ _ _ Hx) as Et.
  apply tcx_vars; [| |done].
  - intros [m|m|e|i j|q]; try done. cbn. rewrite Et. change (alter f p (pcb_storage t) !! q) with (pcb_at (upd p f t) q).
    rewrite pcb_upd. case_decide; [subst q|done]. rewrite H. cbn. by rewrite Ho.
  - intros [m|m|q|q|q]; try done. cbn. rewrite Et. change (alter f p (pcb_storage t) !! q) with (pcb_at (upd p f t) q).
    rewrite pcb_upd. case_decide; [subst q|done]. rewrite H. cbn. by rewrite Hs.
Qed.

Lemma set_tcp_ok f :
  pcb_storage (f t) = pcb_storage t -> wp (fun _ s' => tcx B o P s0 s' (f t) T) (set_tcp f s).
Proof using Hx.
  intros H. pose proof (cx_tcp _ _ _ _ _ _ _ Hx) as Et. unfold set_tcp, modify. cbn. rewrite Et.
  apply tcx_vars; [| |done].
  - intros []; try done. cbn. by rewrite H, Et.
  - intros []; try done. cbn. by rewrite H, Et.
Qed.

Lemma tcp_find_slot_at p :
  exists k, tcp_find_slot p s = Ret k s /\
    if k <? 0 then Some p ∉ tcp_pcbs t else slot_at t (Z.to_nat k) = Some (Some p).
Proof using Hx.
  eexists. split; [unfold tcp_find_slot; mstep by apply gets_tcp_at; done|].
  pose proof (find_slot_spec (Some p) 0 (tcp_pcbs t)) as H. cbn in H.
  destruct (Z.ltb_spec (find_slot_loop (Some p) 0 (tcp_pcbs t)) 0); [by apply H|].
  destruct H as (j & -> & Hj); [done|]. by rewrite Z.add_0_l, Nat2Z.id.
Qed.

(** ** Timers *)

Lemma tcx_timer_state m' T' :
  timers_wf (timers s0) m' -> (forall k, armed m' k = T' k) -> pending_timers m' = P ->
  tcx B o P s0 (s <| timers := m' |>) t T'.
Proof using Hx.
  intros Hw Har Hp. destruct Hx as [[C1 C2 C3 C4 C5 C6] Ha Hf Ht Hw0 Har0 Hp0]. split; try done. by destruct Ha.
Qed.

Lemma timer_remove_ok k : wp (fun _ s' => tcx B o P s0 s' t (run_timer k false T)) (timer_remove k s).
Proof using Hx.
  pose proof Hx as [_ _ _ _ Hw Har Hp].
  destruct (timer_remove_armed _ (timers s) k Hw) as (m' & Hr & Hw' & Hp' & Har').
  unfold timer_remove. eapply wp_run; [by apply zoom_ret|]. cbn. apply tcx_timer_state; [done| |congruence].
  intros j. rewrite Har'. unfold run_timer. by case_decide.
Qed.

Lemma timer_add_ok k nm pr ar ms fl :
  is_tcp_timer k -> pr <> 0 -> 0 < ms <= INT_MAX ->
  (forall tm, proc tm = pr -> arg tm = ar -> flags tm = fl -> reload tm = ms -> kind k tm) ->
  wp (fun e s' => (e = NET_ERR_OK /\ T k = false /\ k ∉ concat P /\ tcx B o P s0 s' t (run_timer k true T)) \/
                  (e = NET_ERR_EXIST /\ (T k = true \/ k ∈ concat P) /\ s' = s))
     (zoom timer_lens (net_timer_add (Some k) (Some nm) pr ar ms fl) s).
Proof using Hx.
  intros Hk Hpr Hms Hkd. pose proof Hx as [_ _ _ _ Hw Har Hp].
  destruct (timer_add_armed _ (timers s) k nm pr ar ms fl Hw Hk Hpr Hms Hkd) as (m' & e & Hr & Hw' & Hp' & Hcase).
  eapply wp_run; [by apply zoom_ret|]. cbn. rewrite Hp, Har in Hcase.
  destruct Hcase as [(-> & Hf & Hn & Har')|(-> & -> & Hor)]; [left|right].
  - split_and!; [done..|]. apply tcx_timer_state; [done| |congruence]. intros j. rewrite Har'. unfold run_timer. by case_decide.
  - split_and!; [done..|by destruct s].
Qed.

Lemma zero_timer_ok k :
  T k = false -> k ∉ concat P -> one_shot k -> wp (fun _ s' => tcx B o P s0 s' t T) (zero_timer k s).
Proof using Hx.
  intros Hk Hn Hsh. pose proof Hx as [_ _ _ _ [[Hwf Hkn Hlate Honce Hkind Hshot] Hre] Har Hp]. unfold zero_timer.
  assert (Hu : k ∉ scheduled (timers s)).
  { unfold scheduled. rewrite not_elem_of_app, Hp, <- armed_iff, Har, Hk. done. }
  pose proof (proj2 (unscheduled_iff _ _) Hu) as Hu'. pose proof Hu' as [Hl _].
  eapply wp_run; [apply zoom_ret; unfold timer_clear; mstep by (by apply timer_is_scheduled_false); reflexivity|].
  set (m' := (timers s) <| Timer.timers := <[k := blank_timer]> (Timer.timers (timers s)) |>).
  assert (Hf : forall j, fields m' j = if decide (j = k) then Some blank_timer else fields (timers s) j).
  { intros j. unfold m', static_part. cbn. rewrite fmap_insert. destruct (decide (j = k)) as [->|Hne].
    - by rewrite lookup_insert_eq.
    - by rewrite lookup_insert_ne. }
  destruct (timer_wf_store (timers s) k blank_timer Hwf Hl) as [Hwf' Hd'].
  fold m' in Hwf', Hd'. apply (tcx_timer_state m'); [split; [split|]|done|done].
  - done.
  - intros j Hj. rewrite Hf. case_decide; [done|]. by apply Hkn.
  - by rewrite Hd'.
  - done.
  - intros j Hj. change (j ∈ scheduled (timers s)) in Hj. rewrite Hf. case_decide; [congruence|by apply Hkind].
  - intros j tm Hj. rewrite Hf. case_decide; [by intros [= <-]|by apply Hshot].
  - intros j tm Hj Htm Hkj. destruct (Hre j tm Hj Htm Hkj) as (tm' & ? & ?). exists tm'. rewrite Hf.
    case_decide; [congruence|done].
Qed.

(** ** Semaphores *)

Lemma tcx_sems y' own :
  sems_kept own (sys s) y' -> (forall u, (forall p, u <> UTcp p) -> sems_at s u ## own) ->
  (forall u k, k ∈ sems_at s u -> k ∈ own -> sem_live y' k) ->
  tcx B o P s0 (s <| sys := y' |>) t T.
Proof using Hx.
  intros Hk Hd Hl. destruct Hx as [[C1 C2 C3 C4 C5 C6] Ha Hf Ht Hw Har Hp]. split; try done.
  - assert (Hq : forall {A} u (q : fixq_t A), (forall p, u <> UTcp p) -> q_sems q = sems_at s u ->
      queue_ok (sys s) q -> queue_ok y' q).
    { intros A u q Hu E Hq. eapply queue_ok_kept; [done|exact Hk|]. rewrite E. by apply Hd. }
    split; try done.
    + intros n i Hi. destruct (C3 n i Hi) as (H1 & H2 & H3). split_and!; [done..|]. intros Hop.
      destruct (H3 Hop) as [Hin Hout]. split.
      * apply (Hq _ (UIn n)); [done| |done]. cbn in Hi |- *. by rewrite Hi; cbn; rewrite Hop.
      * apply (Hq _ (UOut n)); [done| |done]. cbn in Hi |- *. by rewrite Hi; cbn; rewrite Hop.
    + intros q x Hq' Hx'. cbn in Hq', Hx'. apply (Hq _ (URecv q)); [done| |by eapply C4].
      cbn. by rewrite bool_decide_eq_true_2, Hx'.
    + intros u k Hu. change (sems_at (s <| sys := y' |>) u) with (sems_at s u) in Hu. cbn.
      destruct (decide (k ∈ own)); [by eapply Hl|]. eapply sem_live_kept; [done..|by eapply C6].
  - by destruct Ha.
Qed.

Lemma tcp_sem_live p x k : pcb_at t p = Some x -> k ∈ tcp_sems x -> sem_live (sys s) k.
Proof using Hx.
  intros Hp Hk. apply (core_used _ _ (cx_core _ _ _ _ _ _ _ Hx) (UTcp p)). cbn.
  by rewrite (cx_tcp _ _ _ _ _ _ _ Hx), Hp.
Qed.
Lemma tcp_sem_apart p x u :
  pcb_at t p = Some x -> (forall p, u <> UTcp p) -> sems_at s u ## tcp_sems x.
Proof using Hx.
  intros Hp Hu. pose proof (core_sems _ _ (cx_core _ _ _ _ _ _ _ Hx) u (UTcp p) (Hu p)) as H. cbn in H.
  by rewrite (cx_tcp _ _ _ _ _ _ _ Hx), Hp in H.
Qed.
End steps.

Lemma tcx_notify {B o P s0 s t T} p x sem :
  tcx B o P s0 s t T -> pcb_at t p = Some x -> option_list sem ⊆ tcp_sems x ->
  wp (fun _ s' => tcx B o P s0 s' t T) (notify sem s).
Proof.
  intros Hx Hp Hs. unfold notify. destruct sem as [k|].
  - assert (Hk : k ∈ tcp_sems x) by set_solver. destruct (tcp_sem_live Hx p x k Hp Hk) as (c & Hc & Hr).
    destruct (notify_at (sys s) k c Hc) as (y' & c' & Hrun & Hc' & -> & Hkept); [lia|].
    eapply wp_run; [by apply zoom_ret|]. cbn. eapply (tcx_sems Hx); [exact Hkept| |].
    + intros u Hu. pose proof (tcp_sem_apart Hx p x u Hp Hu). set_solver.
    + intros u k' _ ->%list_elem_of_singleton. eexists. split; [done|]. lia.
  - eapply wp_run; [reflexivity|]. cbn. by replace (s <| sys := sys s |>) with s by (by destruct s).
Qed.

Lemma tcx_notify_times {B o P s0 s t T} p x sem n :
  tcx B o P s0 s t T -> pcb_at t p = Some x -> option_list sem ⊆ tcp_sems x ->
  wp (fun _ s' => tcx B o P s0 s' t T) (notify_times n sem s).
Proof.
  revert s. induction n as [|n IH]; intros s Hx Hp Hs; cbn [notify_times]; [done|].
  eapply wp_step; [by eapply tcx_notify|]. intros [] s' Hx'. by apply IH.
Qed.
