(* ===== verification/OwnerSegment.v ===== *)
(** * TCP segments under the ownership invariant

    Building a segment, copying it, sending it, and keeping it until it is
    acknowledged. *)

From S2P Require Import Prelude Tools IpAddr Nlist Timer Mblock Pktbuf PktbufSpec PktbufChain.
From S2P Require Import PktbufOps PktbufFrame Sys Fixq TcpState Net Netif Ether Arp NetifLink Ipv4 Udp Tcp.
From S2P Require Import TcpInv TcpQueue Owner OwnerPkt OwnerQueue OwnerOut OwnerArp OwnerResolve OwnerIp OwnerIcmp.
From S2P Require Import OwnerTcp.
Import Pcb.

#[local] Opaque checksum16.

(** ** The format of a segment *)

Definition tcp_hdr (sport dport seq ack flags window ck : Z) : bytes :=
  be16 sport ++ be16 dport ++ be32 seq ++ be32 ack ++ [Z.shiftl 5 4; flags] ++ be16 window ++ be16 ck ++ [0; 0].

Definition tcp_sum (src dest length : Z) : Z := pseudo_sum (tcp_pseudo src dest length).

(** The segment that [x] sends: a checksum of zero is stored as [0xffff]. *)
Definition tcp_segment (x : tcp_pcb_t) (seq ack flags : Z) (data : bytes) : bytes :=
  let hdr := tcp_hdr (local_port x) (remote_port x) (u32 seq) (u32 ack) flags (TCP_RECV_MAX - recv_count x) in
  let c := checksum16 0 (hdr 0 ++ data) (tcp_sum (local_ip x) (remote_ip x) (TCP_HEADER_SIZE + len data)) true in
  hdr (if c =? 0 then 0xffff else c) ++ data.

Lemma tcp_checksum_ok o s b bs m src dest length :
  own o s b bs m -> 0 <= length <= len bs ->
  wp (fun c s' => c = checksum16 0 (take (Z.to_nat length) bs) (tcp_sum src dest length) true /\
        (exists m', own o s' b bs m') /\ calm [b] s s' /\ shape (pkt s) (pkt s') /\ stored (pkt s) (pkt s'))
     (tcp_checksum b src dest length s).
Proof. intros Hown Hl. apply (own_pseudo_sum _ Hown Hl). unfold tcp_pseudo. by eauto with bytes. Qed.

(** ** Packets that are new *)

(** The frame condition of a function that started in [s0] does not speak of [b]. *)
Definition fresh (B : list nat) (s0 : net) (b : nat) : Prop :=
  b ∈ B \/ ~ loose s0 b \/ forall p, ~ live (pkt s0) b p.

Lemma fresh_dead {B s0 s b} : tended B s0 s -> (forall p, ~ live (pkt s) b p) -> fresh B s0 b.
Proof.
  intros [_ Hs] Hd. destruct (decide (b ∈ B)); [by left|]. right.
  destruct (pktbuf_buffer (pkt s0) !! b) as [p|] eqn:Hp;
    [destruct (decide (b ∈ free_list (pktbuf_list (pkt s0))))|].
  all: try (right; intros q [? ?]; congruence).
  left; intros Hl; destruct (Hs b p) as (_ & ? & _); [done..|by apply (Hd p)].
Qed.

Lemma fresh_placed {B s0 s b} : tended B s0 s -> ~ loose s b -> fresh B s0 b.
Proof.
  intros [_ Hs] Hd. destruct (decide (b ∈ B)); [by left|]. right.
  destruct (pktbuf_buffer (pkt s0) !! b) as [p|] eqn:Hp;
    [destruct (decide (b ∈ free_list (pktbuf_list (pkt s0))))|].
  all: try (right; intros q [? ?]; congruence).
  left; intros Hl; destruct (Hs b p) as (? & _); [done..|]. by apply Hd.
Qed.

Lemma tended_fresh {B s0 s b} : fresh B s0 b -> tended (b :: B) s0 s -> tended B s0 s.
Proof.
  intros Hf [E Hs]. split; [done|]. intros c p Hc Hl Hp. apply Hs; [|done..].
  apply not_elem_of_cons. split; [|done]. intros ->. destruct Hf as [?|[?|H]]; [done..|by apply (H p)].
Qed.

Lemma tcx_fresh {B o P s0 s t T b} : fresh B s0 b -> tcx (b :: B) o P s0 s t T -> tcx B o P s0 s t T.
Proof. intros Hf []. split; try done. by eapply tended_fresh. Qed.
Lemma tcx_mono {B B' o P s0 s t T} : B ⊆ B' -> tcx B o P s0 s t T -> tcx B' o P s0 s t T.
Proof. intros Hs []. split; try done. by eapply tended_mono. Qed.

(** The function holds [bs], which it has made. *)
Definition made (B o : list nat) (P : list (list nat)) (s0 s : net) (t : tcp_vars) (T : nat -> bool) (b : nat) (bs : bytes) : Prop :=
  fresh B s0 b /\ tcx (b :: B) (b :: o) P s0 s t T /\ exists m, own o s b bs m.

Lemma tcp_make_segment_frame {o s p x} seq ack flags src data (Q : option nat -> net -> Prop) :
  core o s -> pcb_storage (tcp s) !! p = Some x -> is_byte flags -> are_bytes data ->
  (0 < len data -> src = Some data) -> TCP_HEADER_SIZE + len data < 2 ^ 16 -> 0 <= recv_count x <= TCP_RECV_MAX ->
  (forall s', core o s' -> calm [] s s' -> Q None s') ->
  (forall s' b, (forall k, ~ live (pkt s) b k) -> own o s' b (tcp_segment x seq ack flags data) 0 -> calm [] s s' ->
     Q (Some b) s') ->
  wp Q (tcp_make_segment p seq ack flags src (len data) s).
Proof.
  unfold TCP_HEADER_SIZE. intros Hc Hx Hfl Hd Hsrc Hsmall Hrc Herr Hok. unfold tcp_make_segment, TCP_HEADER_SIZE.
  wstep own_alloc as [Hn1 H1]; [lia|]. destruct a as [b|]; [|by apply Herr].
  destruct H1 as (Hdead & (bs & Hl & Hown1) & Hf1). destruct Hf1 as (bi & d & Hf1); [lia|].
  apply (front_le _ _ _ _ _ 20) in Hf1; [|unfold PKTBUF_BLK_SIZE; lia].
  eapply wp_eq; [by eapply own_data|]. cbn [deref]. eapply wp_eq; [reflexivity|].
  wstep (own_hdr_store Hown1 Hf1 0) as (Hown2 & Hf2 & Hn2); [by apply are_bytes_replicate|done|rewrite length_replicate; lia|].
  assert (Hload : forall s', calm [b] s' s' -> tcp s' = tcp s -> load_tcp p s' = Ret x s').
  { intros s2 _ E. unfold load_tcp. mstep. apply deref_ret. by rewrite E. }
  assert (Hcalm : forall B s1 s2, calm B s1 s2 -> tcp s2 = tcp s1) by (intros ? s1 s2 [_ ->]; by destruct s1).
  eapply wp_eq; [apply Hload; [done|by rewrite (Hcalm _ _ _ Hn2), (Hcalm _ _ _ Hn1)]|].
  unfold splice in Hown2. change (Z.to_nat 0) with 0%nat in Hown2. rewrite length_replicate in Hown2.
  change (take 0 bs ++ ?r) with ([] ++ r) in Hown2.
  hdr_next th_src_port as (Hown3 & Hf3 & Hn3).
  hdr_next th_dest_port as (Hown4 & Hf4 & Hn4).
  hdr_next th_seq as (Hown5 & Hf5 & Hn5).
  hdr_next th_ack as (Hown6 & Hf6 & Hn6).
  hdr_next th_data_offset as (Hown7 & Hf7 & Hn7).
  hdr_next th_flags as (Hown8 & Hf8 & Hn8).
  hdr_next th_window as (Hown9 & Hf9 & Hn9).
  set (win := u16 (TCP_RECV_MAX - recv_count x)) in *.
  assert (Ew : win = TCP_RECV_MAX - recv_count x) by (apply u16_small; unfold TCP_RECV_MAX in *; lia).
  set (h0 := tcp_hdr (local_port x) (remote_port x) (u32 seq) (u32 ack) flags (TCP_RECV_MAX - recv_count x) 0).
  assert (Hl0 : length h0 = 20%nat) by done.
  eapply (own_eq (bs' := h0 ++ drop 20 bs)) in Hown9.
  2: { rewrite !drop_drop, !le16_x_htons, !le32_x_htonl, !be16_u16, Ew. reflexivity. }
  wstep (own_copy_in src 20) as (-> & (m10 & Hown10) & Hn10 & Hsh10); [rewrite length_drop; lia|lia|].
  pose proof (own_front_shape Hown10 Hf9 Hsh10) as Hf10. cbn [negb].
  eapply wp_eq; [by eapply own_data|].
  assert (Htcp : tcp s'8 = tcp s).
  { by rewrite (Hcalm _ _ _ Hn10), (Hcalm _ _ _ Hn9), (Hcalm _ _ _ Hn8), (Hcalm _ _ _ Hn7), (Hcalm _ _ _ Hn6),
      (Hcalm _ _ _ Hn5), (Hcalm _ _ _ Hn4), (Hcalm _ _ _ Hn3), (Hcalm _ _ _ Hn2), (Hcalm _ _ _ Hn1). }
  eapply wp_eq; [by apply Hload|].
  assert (Hlen : len (h0 ++ data) = 20 + len data) by (rewrite length_app; lia).
  rewrite (u16_small (20 + len data)) by lia.
  wstep tcp_checksum_ok as (-> & (m11 & Hown11) & Hn11 & Hsh11 & _); [lia|].
  pose proof (own_front_shape Hown11 Hf10 Hsh11) as Hf11. eapply wp_eq; [reflexivity|].
  wstep (own_hdr_store Hown11 Hf11 16) as (Hown12 & Hf12 & Hn12); [by eauto with bytes|done|done|].
  wstep own_reset_acc as (Hown13 & Hn13 & _). cbn [wp mret M_ret].
  apply Hok; [done| |eapply calm_fresh; [done..|]; by repeat (etransitivity; [eassumption|])].
  eapply own_eq; [exact Hown13|]. rewrite firstn_all2 by lia. rewrite le16_x_htons, be16_u16.
  unfold tcp_segment, TCP_HEADER_SIZE. fold h0. cbv zeta. generalize (checksum16 0 (h0 ++ data) (tcp_sum (local_ip x) (remote_ip x) (20 + len data)) true).
  intros c. reflexivity.
Qed.

(** ** Copying a packet that stays where it is *)

Lemma view_total o s b bs n r :
  core o s -> has_view (pkt s) b (View bs n r) -> pk (pktbuf_total (Some b)) s = Ret (len bs) s.
Proof.
  intros Hc (p & Hp & [= -> -> _]). pose proof Hp as [Hpb _].
  pose proof (core_wf _ _ Hc) as (_ & _ & _ & _ & _ & Hbuf & _). destruct (Hbuf b p Hp) as (_ & _ & _ & <- & _).
  apply pk_same. unfold pktbuf_total. by mstep by (by apply load_buf_ret).
Qed.

Lemma view_views B k k' b v : views_kept B k k' -> b ∉ B -> has_view k b v -> has_view k' b v.
Proof.
  intros Hs Hb (p & Hp & ->). destruct (Hs b p Hb) as [Hl Ha]. exists p. split; [by apply Hl|].
  by rewrite (agree_chain_bytes _ _ _ (Ha Hp)).
Qed.


Lemma reset_views k b bs n r :
  pkt_wf k -> has_view k b (View bs n r) -> exists k', pktbuf_reset_acc b k = Ret () k' /\ post k b k' bs 0 r.
Proof.
  intros Hwf (p & Hp & [= -> -> ->]).
  destruct (post_reset_front k k b p Hwf) as (k' & Hr & Hpost & _); [by apply pre_upd_refl|]. by exists k'.
Qed.

(** The copy [c] of [b], which keeps its bytes. *)
Definition cloned (k : pkt_state) (b : nat) (bs : bytes) (r : Z) (x : option nat) (k' : pkt_state) : Prop :=
  pkt_wf k' /\ (exists n, has_view k' b (View bs n r)) /\
  match x with
  | None => views_kept [b] k k'
  | Some c => c <> b /\ (forall p, ~ live k c p) /\ has_view k' c (View bs 0 1) /\ views_kept [b; c] k k'
  end.

Lemma set_pkt_twice (s : net) k k' : s <| pkt := k |> <| pkt := k' |> = s <| pkt := k' |>.
Proof. by destruct s. Qed.

Lemma copy_whole k c b bs1 bs r :
  pkt_wf k -> c <> b -> len bs1 = len bs -> has_view k c (View bs1 0 1) -> has_view k b (View bs 0 r) ->
  exists k' m n, pktbuf_copy (Some c) (Some b) (len bs) k = Ret NET_ERR_OK k' /\ pkt_wf k' /\
    has_view k' c (View bs m 1) /\ has_view k' b (View bs n r) /\ views_kept [c; b] k k'.
Proof.
  intros Hwf Hne Hl Hc Hv. destruct (decide (len bs = 0)) as [E|E].
  - assert (bs = []) as -> by (by destruct bs). assert (bs1 = []) as -> by (by destruct bs1).
    exists k, 0, 0. by split_and!.
  - destruct (pktbuf_copy_ok k c b bs1 0 1 bs 0 r (len bs) Hwf Hne Hc Hv) as (e & k4 & H4 & Hp4); [lia|].
    rewrite !(proj2 (Z.ltb_ge _ _)) in Hp4 by lia. destruct Hp4 as (-> & Hwf4 & Hc4 & Hv4 & Hk4).
    exists k4, (0 + len bs), (0 + len bs). split_and!; try done. revert Hc4. change (Z.to_nat 0) with 0%nat.
    rewrite drop_0, Nat2Z.id, firstn_all. unfold splice. cbn [take app Nat.add].
    by rewrite (drop_ge bs1), app_nil_r by lia.
Qed.

Lemma tcp_clone_run s b bs n r :
  pkt_wf (pkt s) -> has_view (pkt s) b (View bs n r) -> pk (pktbuf_total (Some b)) s = Ret (len bs) s ->
  exists x k', tcp_clone b s = Ret x (s <| pkt := k' |>) /\ cloned (pkt s) b bs r x k'.
Proof.
  intros Hwf Hv Htot. unfold tcp_clone. mstep by exact Htot.
  destruct (pktbuf_alloc_ok (pkt s) (len bs) Hwf ltac:(lia)) as (x & k1 & H1 & Hp1). mstep by (by apply pk_ret).
  destruct x as [c|].
  2: { exists None, k1. split; [done|]. destruct Hp1 as (_ & Hwf1 & Hk1). split_and!; [done| |].
       - exists n. eapply view_views; [done|set_solver|done].
       - intros e p He. apply Hk1. set_solver. }
  destruct Hp1 as (Hd & (bs1 & Hl1 & Hwf1 & Hc1 & Hk1) & _).
  assert (Hne : c <> b) by (intros ->; destruct Hv as (p & Hp & _); by apply (Hd p)).
  assert (Hv1 : has_view k1 b (View bs n r)) by (eapply view_views; [done|set_solver|done]).
  destruct (reset_views k1 b bs n r Hwf1 Hv1) as (k2 & H2 & Hwf2 & Hv2 & Hk2). mstep by (by apply pk_ret).
  rewrite set_pkt_twice. assert (Hc2 : has_view k2 c (View bs1 0 1)) by (eapply view_views; [done|set_solver|done]).
  destruct (reset_views k2 c bs1 0 1 Hwf2 Hc2) as (k3 & H3 & Hwf3 & Hc3 & Hk3). mstep by (by apply pk_ret).
  rewrite set_pkt_twice. assert (Hv3 : has_view k3 b (View bs 0 r)) by (eapply view_views; [done|set_solver|done]).
  destruct (copy_whole k3 c b bs1 bs r Hwf3 Hne Hl1 Hc3 Hv3) as (k4 & m4 & n4 & H4 & Hwf4 & Hc4 & Hv4 & Hk4).
  mstep by (by apply pk_ret). rewrite set_pkt_twice. cbn [NET_ERR_OK Z.ltb Z.compare].
  destruct (reset_views k4 b bs _ r Hwf4 Hv4) as (k5 & H5 & Hwf5 & Hv5 & Hk5). mstep by (by apply pk_ret).
  rewrite set_pkt_twice.
  assert (Hc5 : has_view k5 c (View bs m4 1)) by (eapply view_views; [done|set_solver|done]).
  destruct (reset_views k5 c bs _ 1 Hwf5 Hc5) as (k6 & H6 & Hwf6 & Hc6 & Hk6). mstep by (by apply pk_ret).
  rewrite set_pkt_twice. exists (Some c), k6. split; [done|]. split_and!; [done| |done..| |].
  - exists 0. eapply view_views; [done|set_solver|done].
  - done.
  - assert (Hm : forall B k k', B ⊆ [b; c] -> views_kept B k k' -> views_kept [b; c] k k').
    { intros B k k' HB Hk e p He. apply Hk. set_solver. }
    transitivity k1; [eapply Hm, Hk1; set_solver|]. transitivity k2; [eapply Hm, Hk2; set_solver|].
    transitivity k3; [eapply Hm, Hk3; set_solver|]. transitivity k4; [eapply Hm, Hk4; set_solver|].
    transitivity k5; [eapply Hm, Hk5; set_solver|]. eapply Hm, Hk6. set_solver.
Qed.

Lemma tcp_clone_ok o s b bs n r :
  core o s -> ~ loose s b -> has_view (pkt s) b (View bs n r) ->
  wp (fun x s' => calm [] s s' /\
        match x with
        | None => core o s'
        | Some c => (forall p, ~ live (pkt s) c p) /\ own o s' c bs 0
        end) (tcp_clone b s).
Proof.
  intros Hc Hnl Hv.
  destruct (tcp_clone_run s b bs n r (core_wf _ _ Hc) Hv (view_total _ _ _ _ _ _ Hc Hv)) as (x & k' & Hr & Hcl).
  eapply wp_run; [exact Hr|]. destruct Hcl as (Hwf & (n' & Hv') & Hx).
  assert (Hrb : refs k' b = refs (pkt s) b).
  { by rewrite (refs_view _ _ _ _ _ Hv), (refs_view _ _ _ _ _ Hv'). }
  destruct x as [c|].
  - destruct Hx as (Hne & Hd & Hcv & Hk). assert (Hzero : refs (pkt s) c = 0) by (by apply refs_dead).
    assert (Hl : loose s c).
    { intros pl Hpl. pose proof (acct_pos _ _ _ c (core_acct _ _ Hc)) as Hp. rewrite Hzero in Hp.
      assert (0 < 0); [|lia]. apply Hp. right. by exists pl. }
    split; [apply (calm_drop b); [by left|]; apply (calm_drop c); [by right|]|].
    { eapply calm_mono, calm_pkt, Hk. set_solver. }
    split; [done|]. split_and!; [|done|by exists 1]. eapply core_pkt; [done..|].
    apply (acct_ref (refs (pkt s))); [|intros e Hec|by apply core_acct].
    + by rewrite (refs_view _ _ _ _ _ Hcv), Hzero.
    + destruct (decide (e = b)) as [->|]; [done|]. eapply refs_kept; [done|set_solver].
  - split; [apply (calm_drop b); [by left|]; by apply calm_pkt|]. eapply core_pkt; [done..|].
    eapply acct_ext; [by apply core_acct| |done..]. intros e. destruct (decide (e = b)) as [->|]; [done|].
    eapply refs_kept; [done|set_solver].
Qed.

(** ** Sending *)

Section sending.
Context {B o : list nat} {P : list (list nat)} {s0 : net} {t : tcp_vars} {T : nat -> bool}.

Lemma make_segment_ok {s} p x seq ack flags src data :
  tcx B o P s0 s t T -> pcb_at t p = Some x -> is_byte flags -> are_bytes data ->
  (0 < len data -> src = Some data) -> len data <= TCP_MSS -> 0 <= recv_count x <= TCP_RECV_MAX ->
  wp (fun r s' => match r with
        | None => tcx B o P s0 s' t T
        | Some b => made B o P s0 s' t T b (tcp_segment x seq ack flags data)
        end) (tcp_make_segment p seq ack flags src (len data) s).
Proof.
  unfold TCP_MSS. intros Hx Hp Hfl Hd Hsrc Hl Hrc.
  eapply (tcp_make_segment_frame seq ack flags src data); [by apply (cx_core _ _ _ _ _ _ _ Hx)| |done..| |done| |].
  - by rewrite (cx_tcp _ _ _ _ _ _ _ Hx).
  - unfold TCP_HEADER_SIZE. lia.
  - intros s' Hc Hn. eapply tcx_calm; [exact Hx|done|]. eapply calm_mono, Hn. set_solver.
  - intros s' b Hdead Hown Hn. split; [eapply fresh_dead; [by apply Hx|done]|]. split; [|by exists 0].
    eapply tcx_calm; [eapply tcx_mono, Hx; set_solver|by destruct Hown|]. eapply calm_mono, Hn. set_solver.
Qed.

(** A segment without data. *)
Lemma make_control_ok {s} p x seq ack flags :
  tcx B o P s0 s t T -> pcb_at t p = Some x -> is_byte flags -> 0 <= recv_count x <= TCP_RECV_MAX ->
  wp (fun r s' => match r with
        | None => tcx B o P s0 s' t T
        | Some b => made B o P s0 s' t T b (tcp_segment x seq ack flags [])
        end) (tcp_make_segment p seq ack flags None 0 s).
Proof. intros. by apply (make_segment_ok p x seq ack flags None []). Qed.

Lemma send_made_ok {s} b bs n dest :
  made B o P s0 s t T b bs -> n ∈ dom (netif_buffer s0) -> 0 <= dest < 2 ^ 32 ->
  wp (fun _ s' => tcx B o P s0 s' t T) (ipv4_out (Some n) (Some dest) NET_PROTOCOL_TCP (Some b) s).
Proof.
  intros (Hf & Hx & m & Hown) Hn Hr.
  eapply wp_mono; [|eapply ipv4_out_ok; [done|by apply Hx|by rewrite (tcx_dom Hx)|done..]].
  intros _ s' (Hc & Ha & Hfar). eapply tcx_fresh; [exact Hf|]. eapply tcx_far; [exact Hx|done..|].
  eapply far_mono, Hfar. set_solver.
Qed.

Lemma output_owned_ok {s} p x b n :
  tcx B o P s0 s t T -> pcb_at t p = Some x -> outstanding x = Some b -> netif x = Some n ->
  n ∈ dom (netif_buffer s0) -> 0 <= remote_ip x < 2 ^ 32 ->
  wp (fun _ s' => tcx B o P s0 s' t T) (tcp_output_owned p s).
Proof.
  intros Hx Hp Hb Hn Hd Hr. unfold tcp_output_owned. eapply wp_eq; [by eapply load_tcp_at|].
  rewrite Hb. eapply wp_eq; [reflexivity|]. pose proof (cx_core _ _ _ _ _ _ _ Hx) as Hc.
  assert (Hin : b ∈ holds s (Unacked p)).
  { cbn. rewrite (cx_tcp _ _ _ _ _ _ _ Hx), Hp. cbn. rewrite Hb. set_solver. }
  destruct (core_view _ _ b Hc) as (bs & m & r & Hv); [right; by exists (Unacked p)|].
  eapply wp_step; [eapply tcp_clone_ok; [done| |exact Hv]|].
  { intros Hl. by apply (Hl (Unacked p)). }
  intros [c|] s' [Hn' H'].
  - destruct H' as [Hdead Hown]. assert (Hx' : tcx (c :: B) (c :: o) P s0 s' t T).
    { eapply tcx_calm; [eapply tcx_mono, Hx; set_solver|by destruct Hown|]. eapply calm_mono, Hn'. set_solver. }
    eapply wp_eq; [by eapply load_tcp_at|]. rewrite Hn. eapply send_made_ok; [|done..].
    split; [eapply fresh_dead; [by apply Hx|done]|]. split; [done|by exists 0].
  - cbn [wp mret M_ret]. eapply tcx_calm; [exact Hx|done|]. eapply calm_mono, Hn'. set_solver.
Qed.

Lemma send_ack_ok {s} p x n :
  tcx B o P s0 s t T -> pcb_at t p = Some x -> netif x = Some n -> n ∈ dom (netif_buffer s0) ->
  0 <= remote_ip x < 2 ^ 32 -> 0 <= recv_count x <= TCP_RECV_MAX ->
  wp (fun _ s' => tcx B o P s0 s' t T) (tcp_send_ack p s).
Proof.
  intros Hx Hp Hn Hd Hr Hrc. unfold tcp_send_ack. eapply wp_eq; [by eapply load_tcp_at|].
  eapply wp_step; [by eapply (make_control_ok p x)|].
  intros [b|] s' H'; [|by cbn].
  destruct H' as (Hf & Hx' & Hown). eapply wp_eq; [by eapply load_tcp_at|]. rewrite Hn.
  eapply send_made_ok; [by split|done..].
Qed.
End sending.

(** ** Keeping a segment until it is acknowledged *)

Definition sent (b : nat) (end_ : Z) (x : tcp_pcb_t) : tcp_pcb_t :=
  x <| outstanding := Some b |> <| outstanding_end := end_ |> <| retry_count := 0 |>.
Definition cleared (x : tcp_pcb_t) : tcp_pcb_t := x <| outstanding := None |> <| outstanding_end := 0 |>.

Section keeping.
Context {P : list (list nat)} {s0 : net}.

(** The variables change in the segment in flight of [p] only. *)
Lemma tcx_unacked {B o o' s t T} p f x :
  tcx B o P s0 s t T -> pcb_at t p = Some x -> tcp_sems (f x) = tcp_sems x ->
  let s' := s <| tcp := upd p f t |> in
  (forall pl, holds s' pl = if decide (pl = Unacked p) then option_list (outstanding (f x)) else holds s pl) /\
  (acct (refs (pkt s)) (holds s') o' -> spared B s s' -> tcx B o' P s0 s' (upd p f t) T).
Proof.
  intros Hx Hp Hs s'. pose proof (cx_tcp _ _ _ _ _ _ _ Hx) as Et. split.
  - intros pl. destruct pl as [m|m|e|i j|q]; try done. cbn [holds s' tcp upd_field]. rewrite Et.
    change (tcp (upd_field _ _)) with (upd p f t). rewrite pcb_upd. destruct (decide (q = p)) as [->|].
    + rewrite Hp, decide_True by done. done.
    + by rewrite decide_False by congruence.
  - intros Ha Hsp. destruct Hx as [[C1 C2 C3 C4 C5 C6] Har Hf Ht Hw Harm Hpd].
    assert (Hu : forall u, sems_at s' u = sems_at s u).
    { intros [m|m|q|q|q]; try done. cbn. rewrite Et. change (alter f p (pcb_storage t) !! q) with (pcb_at (upd p f t) q).
      rewrite pcb_upd. case_decide; [subst q|done]. rewrite Hp. cbn. by rewrite Hs. }
    split; try done.
    + split; try done; [intros u u'; rewrite !Hu; apply C5|intros u k; rewrite Hu; apply C6].
    + by destruct Har.
    + etransitivity; [exact Hf|]. split; [by destruct s|done].
Qed.

Lemma keep_segment_ok {B o s t T} p x b bs end_ :
  made B o P s0 s t T b bs -> pcb_at t p = Some x -> outstanding x = None ->
  wp (fun _ s' => tcx B o P s0 s' (upd p (sent b end_) t) T) (store_tcp p (sent b end_) s).
Proof.
  intros (Hf & Hx & m & Hown) Hp Hn. eapply wp_run; [by eapply store_tcp_run|].
  eapply tcx_fresh; [exact Hf|].
  destruct (tcx_unacked (o' := o) p (sent b end_) x Hx Hp eq_refl) as [Hh Hk]. apply Hk.
  - destruct Hown as (Hc & Hl & _). eapply (acct_put _ (holds s) _ _ b (Unacked p)); [by apply core_acct|done| |].
    + rewrite Hh, decide_True by done. cbn. by rewrite (cx_tcp _ _ _ _ _ _ _ Hx), Hp; cbn; rewrite Hn.
    + intros pl Hne. by rewrite Hh, decide_False.
  - intros c k Hc Hl Hk'. split_and!; [|done..]. intros pl. rewrite Hh. case_decide; [|apply Hl]. set_solver.
Qed.

Lemma clear_outstanding_ok {B o s t T} p x :
  tcx B o P s0 s t T -> pcb_at t p = Some x ->
  wp (fun _ s' => tcx B o P s0 s' (upd p cleared t) (run_timer (retrans_timer p) false T)) (tcp_clear_outstanding p s).
Proof.
  intros Hx Hp. unfold tcp_clear_outstanding. eapply wp_step; [by apply (timer_remove_ok Hx)|].
  intros [] s1 Hx1. eapply wp_eq; [by eapply load_tcp_at|]. set (T1 := run_timer _ _ _) in *.
  assert (Hend : forall f s', tcx B o P s0 s' (upd p f t) T1 -> cleared (f x) = cleared x -> outstanding (f x) = None ->
    wp (fun _ s' => tcx B o P s0 s' (upd p cleared t) T1) (store_tcp p (fun x => x <| outstanding_end := 0 |>) s')).
  { intros f s' Hx' Ef En. eapply wp_mono; [|eapply (store_tcp_ok Hx'); [by apply pcb_upd_eq|done..]].
    intros ? s'' Hx''. cbn beta in Hx''. rewrite upd_upd in Hx''. erewrite (upd_ext p cleared); [exact Hx''|done|]. cbn.
    rewrite <- Ef. revert En. generalize (f x). intros []. cbn. by intros ->. }
  destruct (outstanding x) as [b|] eqn:Hb.
  2: { eapply wp_eq; [reflexivity|]. apply (Hend id); [|done..]. by rewrite (upd_id p id t x). }
  (* the packet is freed before the pointer to it is cleared *)
  set (clr := fun x => x <| outstanding := None |>).
  destruct (tcx_unacked (o' := b :: o) p clr x Hx1 Hp eq_refl) as [Hh Hk].
  set (s2 := s1 <| tcp := upd p clr t |>) in *.
  assert (Eb : holds s1 (Unacked p) = [b]) by (cbn; by rewrite (cx_tcp _ _ _ _ _ _ _ Hx1), Hp; cbn; rewrite Hb).
  assert (Hacct : acct (refs (pkt s1)) (holds s2) (b :: o) /\ loose s2 b).
  { eapply (acct_take _ (holds s1)); [by apply core_acct, Hx1|exact Eb| |].
    - by rewrite Hh, decide_True.
    - intros pl Hne. by rewrite Hh, decide_False. }
  assert (Hx2 : tcx B (b :: o) P s0 s2 (upd p clr t) T1).
  { apply Hk; [apply Hacct|]. intros c k Hc Hl Hlk. split_and!; [|done..]. intros pl. rewrite Hh.
    case_decide; [cbn; set_solver|apply Hl]. }
  pose proof (own_free o s2 b (cx_core _ _ _ _ _ _ _ Hx2)) as Hfree.
  destruct (pk (pktbuf_free (Some b)) s2) as [[] s3|] eqn:Hrun; [|done]. destruct Hfree as [Hc3 Hn3].
  assert (Hrun1 : pk (pktbuf_free (Some b)) s1 = Ret () (s1 <| pkt := pkt s3 |>)).
  { revert Hrun. unfold zoom. cbn [lget pkt_lens lset]. change (pkt s2) with (pkt s1).
    destruct (pktbuf_free (Some b) (pkt s1)) as [[] k|]; [|done]. intros [= <-]. done. }
  assert (E3 : s3 = s1 <| pkt := pkt s3 |> <| tcp := upd p clr t |>).
  { destruct Hn3 as [_ ->]. by destruct s1. }
  assert (Hx3 : tcx B o P s0 s3 (upd p clr t) T1).
  { apply (tcx_fresh (b := b)).
    - apply (fresh_placed (cx_frame _ _ _ _ _ _ _ Hx1)). intros Hl. apply (Hl (Unacked p)). rewrite Eb. by left.
    - eapply tcx_calm; [eapply tcx_mono, Hx2; set_solver|done|]. eapply calm_mono, Hn3. set_solver. }
  assert (Hload : load_tcp p (s1 <| pkt := pkt s3 |>) = Ret x (s1 <| pkt := pkt s3 |>)).
  { unfold load_tcp. mstep. apply deref_ret. cbn. by rewrite (cx_tcp _ _ _ _ _ _ _ Hx1). }
  eapply wp_eq with (a := ()) (s' := s3).
  { mstep by exact Hrun1. unfold store_tcp. mstep by exact Hload.
    transitivity (Ret () (s1 <| pkt := pkt s3 |> <| tcp := upd p clr t |>)); [|by rewrite <- E3].
    unfold modify, upd. cbn. rewrite (cx_tcp _ _ _ _ _ _ _ Hx1). by rewrite (insert_alter clr p _ x Hp). }
  by apply (Hend clr).
Qed.
End keeping.

Lemma retrans_tcp p : (p < TCP_PCB_MAX)%nat -> is_tcp_timer (retrans_timer p).
Proof. intros. exists p. tauto. Qed.
Lemma time_wait_tcp p : (p < TCP_PCB_MAX)%nat -> is_tcp_timer (time_wait_timer p).
Proof. intros. exists p. tauto. Qed.
Lemma release_tcp p : (p < TCP_PCB_MAX)%nat -> is_tcp_timer (release_timer p).
Proof. intros. exists p. tauto. Qed.

(** The segment is sent and waits for its acknowledgement, or it is gone. *)
Lemma start_outstanding_ok {B o P s0 s t T} p x n b bs end_ :
  made B o P s0 s t T b bs -> pcb_at t p = Some x -> (p < TCP_PCB_MAX)%nat -> outstanding x = None ->
  netif x = Some n -> n ∈ dom (netif_buffer s0) -> 0 <= remote_ip x < 2 ^ 32 ->
  T (retrans_timer p) = false -> retrans_timer p ∉ concat P ->
  wp (fun e s' => (e = NET_ERR_OK /\ tcx B o P s0 s' (upd p (sent b end_) t) (run_timer (retrans_timer p) true T)) \/
                  (e < 0 /\ tcx B o P s0 s' (upd p (cleared ∘ sent b end_) t) (run_timer (retrans_timer p) false T)))
     (tcp_start_outstanding p b end_ s).
Proof.
  intros Hm Hp Hr Hn Hif Hd Hip HT HP. unfold tcp_start_outstanding.
  eapply wp_step; [by eapply (keep_segment_ok p x b bs end_)|]. intros [] s1 Hx1.
  assert (Hp1 : pcb_at (upd p (sent b end_) t) p = Some (sent b end_ x)) by (by apply pcb_upd_eq).
  eapply wp_step; [by eapply (output_owned_ok p _ b n)|]. intros e s2 Hx2.
  assert (Hclear : forall e s', e < 0 -> tcx B o P s0 s' (upd p (sent b end_) t) T ->
    wp (fun e s' => (e = NET_ERR_OK /\ tcx B o P s0 s' (upd p (sent b end_) t) (run_timer (retrans_timer p) true T)) \/
                  (e < 0 /\ tcx B o P s0 s' (upd p (cleared ∘ sent b end_) t) (run_timer (retrans_timer p) false T)))
      ((when (e <? 0) (tcp_clear_outstanding p);; mret e) s')).
  { intros e' s' He Hx'. rewrite (proj2 (Z.ltb_lt _ _)) by done. cbn [when].
    eapply wp_step; [by eapply clear_outstanding_ok|]. intros [] s'' Hx''. cbn [wp mret M_ret]. right.
    by rewrite upd_upd in Hx''. }
  destruct (Z.leb_spec 0 e) as [He|He].
  - eapply wp_step; [eapply (timer_add_ok Hx2 (retrans_timer p)); [by apply retrans_tcp|done|done|intros; by apply KindRetrans]|].
    intros e3 s3 [(-> & _ & _ & Hx3)|(-> & [?|?] & _)]; [|congruence|done].
    cbn [NET_ERR_OK Z.ltb Z.compare when]. eapply wp_eq; [reflexivity|]. cbn [wp mret M_ret]. by left.
  - eapply wp_eq; [reflexivity|]. by apply Hclear.
Qed.
