(* ===== verification/OwnerRelease.v ===== *)
(** * The release of TCP control blocks under the invariants

    Semaphores that are made and given back, the end of a connection, and the
    release of control blocks, of children and of listeners. *)

From S2P Require Import Prelude Tools IpAddr Nlist Timer Mblock Pktbuf PktbufSpec PktbufChain.
From S2P Require Import PktbufOps PktbufFrame Sys Fixq TcpState Net Netif Ether Arp NetifLink Ipv4 Udp Tcp.
From S2P Require Import TcpInv TcpQueue Owner OwnerPkt OwnerQueue OwnerOut OwnerArp OwnerResolve OwnerIp OwnerIcmp.
From S2P Require Import OwnerTcp OwnerSegment.
Import Pcb.

(** ** Semaphores that are made and given back *)

Lemma sem_free_at y k : exists y', sys_sem_free k y = Ret () y' /\ sems_kept (option_list k) y y'.
Proof.
  unfold sys_sem_free. destruct k as [i|]; [|by exists y]. unfold sem_pool_index.
  destruct (i <? length (sem_pool y))%nat eqn:E.
  - eexists. split; [mstep by (mstep; rewrite E; reflexivity); rewrite (proj2 (Z.leb_le 0 _)) by lia; reflexivity|].
    intros j Hj. cbn. rewrite Nat2Z.id. apply list_lookup_alter_ne. set_solver.
  - exists y. split; [|done]. by mstep by (mstep; rewrite E; reflexivity).
Qed.

Lemma sem_create_loop_at y i pool n :
  0 <= n <= INT_MAX -> (forall j, pool !! j = sem_pool y !! (i + j)%nat) ->
  exists r y', sem_create_loop i pool n y = Ret r y' /\
    match r with
    | None => y' = y
    | Some k => (forall c, ~ sem_at y k c) /\ sem_at y' k n /\ sems_kept [k] y y'
    end.
Proof.
  intros Hn. revert i. induction pool as [|e pool IH]; intros i Hp; cbn [sem_create_loop].
  { by exists None, y. }
  pose proof (Hp 0%nat) as He. rewrite Nat.add_0_r in He. cbn in He. destruct (used e) eqn:Hu; cbn [negb].
  - apply IH. intros j. rewrite Nat.add_succ_comm. apply (Hp (S j)).
  - unfold sem_init. rewrite (proj2 (Z.ltb_ge _ _)) by lia. eexists _, _. split; [reflexivity|]. split_and!.
    + intros c [w Hw]. rewrite <- He in Hw. injection Hw as ->. done.
    + eexists. cbn. rewrite list_lookup_alter_eq, <- He. done.
    + intros j Hj. cbn. apply list_lookup_alter_ne. set_solver.
Qed.

Lemma sem_create_at y n :
  0 <= n <= INT_MAX ->
  exists r y', sys_sem_create n y = Ret r y' /\
    match r with
    | None => y' = y
    | Some k => (forall c, ~ sem_at y k c) /\ sem_at y' k n /\ sems_kept [k] y y'
    end.
Proof.
  intros Hn. unfold sys_sem_create. rewrite (proj2 (Z.ltb_ge _ _)) by lia. unfold gets. cbn. by apply sem_create_loop_at.
Qed.

Section sems.
Context {B o : list nat} {P : list (list nat)} {s0 s : net} {t : tcp_vars} {T : nat -> bool}.
Context (Hx : tcx B o P s0 s t T).

(** A semaphore nobody uses. *)
Definition spare (s : net) (k : nat) : Prop := sem_live (sys s) k /\ forall u, k ∉ sems_at s u.

(** A store that leaves the segment in flight alone; a semaphore it brings in
    was not used before. *)
Lemma tcx_store p f x :
  pcb_at t p = Some x -> outstanding (f x) = outstanding x ->
  (forall k, k ∈ tcp_sems (f x) -> k ∈ tcp_sems x \/ spare s k) ->
  tcx B o P s0 (s <| tcp := upd p f t |>) (upd p f t) T.
Proof using Hx.
  intros Hp Ho Hs. pose proof (cx_tcp _ _ _ _ _ _ _ Hx) as Et. set (s' := s <| tcp := upd p f t |>).
  assert (Hh : forall pl, holds s' pl = holds s pl).
  { intros [m|m|e|i j|q]; try done. unfold s'. cbn. rewrite Et.
    change (alter f p (pcb_storage t) !! q) with (pcb_at (upd p f t) q).
    rewrite pcb_upd. case_decide; [subst q|done]. rewrite Hp. cbn. by rewrite Ho. }
  assert (Hu : forall u, sems_at s' u = if decide (u = UTcp p) then tcp_sems (f x) else sems_at s u).
  { intros [m|m|q|q|q]; try done. unfold s'. cbn. rewrite Et.
    change (alter f p (pcb_storage t) !! q) with (pcb_at (upd p f t) q). rewrite pcb_upd.
    destruct (decide (q = p)) as [->|]; [by rewrite Hp, decide_True|by rewrite decide_False by congruence]. }
  assert (Hpu : sems_at s (UTcp p) = tcp_sems x) by (cbn; by rewrite Et, Hp).
  destruct Hx as [[C1 C2 C3 C4 C5 C6] Ha Hf Ht Hw Har Hpd]. split; try done.
  - split; try done.
    + eapply acct_ext; [exact C2|done|exact Hh|done].
    + assert (Hd : forall u, u <> UTcp p -> sems_at s u ## tcp_sems (f x)).
      { intros u Hne k Hk [Hk'|[_ Hk']]%Hs; [|by apply (Hk' u)]. rewrite <- Hpu in Hk'. by apply (C5 u (UTcp p) Hne k). }
      intros u u' Hne. rewrite !Hu. destruct (decide (u = UTcp p)) as [->|], (decide (u' = UTcp p)) as [->|]; [done|..].
      * intros k Hk Hk'. by apply (Hd u' ltac:(done) k).
      * by apply Hd.
      * by apply C5.
    + intros u k. rewrite Hu. destruct (decide (u = UTcp p)) as [->|]; [|apply C6].
      intros [Hk|[Hk _]]%Hs; [|done]. apply (C6 (UTcp p)). by rewrite Hpu.
  - by destruct Ha.
  - etransitivity; [exact Hf|]. split; [by destruct s|]. intros c k _ Hl Hk. split_and!; [|done..].
    intros pl. rewrite Hh. apply Hl.
Qed.

Lemma store_tcp_sems p f x :
  pcb_at t p = Some x -> outstanding (f x) = outstanding x ->
  (forall k, k ∈ tcp_sems (f x) -> k ∈ tcp_sems x \/ spare s k) ->
  wp (fun _ s' => tcx B o P s0 s' (upd p f t) T) (store_tcp p f s).
Proof using Hx.
  intros Hp Ho Hs. eapply wp_run; [by eapply (store_tcp_run Hx)|]. by eapply tcx_store.
Qed.

(** Freeing semaphores nobody uses. *)
Lemma tcx_free y' own :
  sems_kept own (sys s) y' -> (forall u, sems_at s u ## own) -> tcx B o P s0 (s <| sys := y' |>) t T.
Proof using Hx.
  intros Hk Hd. eapply (tcx_sems Hx); [exact Hk|done|]. intros u k Hu Hk'. by destruct (Hd u k).
Qed.

Lemma sem_create_ok :
  wp (fun r s' => tcx B o P s0 s' t T /\ (s' = s <| sys := sys s' |>) /\
        match r with
        | None => s' = s
        | Some k => spare s' k /\ sems_kept [k] (sys s) (sys s') /\ forall u, k ∉ sems_at s u
        end) (zoom sys_lens (sys_sem_create 0) s).
Proof using Hx.
  destruct (sem_create_at (sys s) 0) as (r & y' & Hr & Hcase); [done|]. eapply wp_run; [by apply zoom_ret|]. cbn.
  destruct r as [k|]; [|subst y'].
  - destruct Hcase as (Hd & Hl & Hk). assert (Hn : forall u, k ∉ sems_at s u).
    { intros u Hu. destruct (core_used _ _ (cx_core _ _ _ _ _ _ _ Hx) u k Hu) as (c & Hc & _). by apply (Hd c). }
    split_and!; [|by destruct s|split; [by exists 0|done]|done|done]. apply (tcx_free y' [k]); [done|]. intros u i Hi ->%list_elem_of_singleton.
    by apply (Hn u).
  - replace (s <| sys := sys s |>) with s by (by destruct s). done.
Qed.
End sems.

(** ** The invariant inside TCP *)

Record tinv (B o : list nat) (P : list (list nat)) (E : list nat) (s0 s : net) (t : tcp_vars) (T : nat -> bool) : Prop := {
  in_cx : tcx B o P s0 s t T;
  in_ok : tcp_ok (dom (netif_buffer s0)) t;
  in_tm : timers_ok E (concat P) t T }.

Definition own_slots (t : tcp_vars) : Prop := forall i q, slot_at t i = Some (Some q) -> q = i.

Section slots.
Context {B o : list nat} {P : list (list nat)} {s0 s : net} {t : tcp_vars} {T : nat -> bool}.
Context (Hx : tcx B o P s0 s t T) (Hown : own_slots t).

Lemma find_slot_used p : slot_at t p = Some (Some p) -> tcp_find_slot p s = Ret (Z.of_nat p) s.
Proof using All.
  intros Hp. destruct (tcp_find_slot_at Hx p) as (k & -> & Hk). destruct (Z.ltb_spec k 0).
  - destruct Hk. by eapply list_elem_of_lookup_2.
  - apply Hown in Hk. do 2 f_equal. lia.
Qed.
Lemma find_slot_cases p :
  (exists k, k < 0 /\ tcp_find_slot p s = Ret k s /\ slot_at t p <> Some (Some p)) \/
  (slot_at t p = Some (Some p) /\ tcp_find_slot p s = Ret (Z.of_nat p) s).
Proof using All.
  destruct (tcp_find_slot_at Hx p) as (k & Hr & Hk). destruct (Z.ltb_spec k 0); [left|right].
  - exists k. split_and!; [done..|]. intros Hp. apply Hk. by eapply list_elem_of_lookup_2.
  - pose proof (Hown _ _ Hk) as E. rewrite <- E in Hk. split; [done|]. rewrite Hr. do 2 f_equal. lia.
Qed.
End slots.

(** ** The end of a connection *)

Definition notified (x : tcp_pcb_t) : tcp_pcb_t := x <| terminal_notified := true |>.
Definition releasing (x : tcp_pcb_t) : tcp_pcb_t := x <| release_pending := true |>.

Lemma in_tcp_sems x :
  option_list (connect_done x) ⊆ tcp_sems x /\ option_list (recv_done x) ⊆ tcp_sems x /\
  option_list (close_done x) ⊆ tcp_sems x /\ option_list (accept_done x) ⊆ tcp_sems x.
Proof. unfold tcp_sems. set_solver. Qed.

Lemma notify_terminal_ok {B o P s0 s t T} p x :
  tcx B o P s0 s t T -> pcb_at t p = Some x ->
  wp (fun _ s' => tcx B o P s0 s' (upd p notified t) T) (tcp_notify_terminal p s).
Proof.
  intros Hx Hp. unfold tcp_notify_terminal. eapply wp_eq; [by eapply load_tcp_at|].
  destruct (in_tcp_sems x) as (S1 & S2 & S3 & _). destruct (terminal_notified x) eqn:Hn.
  - cbn. rewrite (upd_id _ _ _ x); [done..|]. clear -Hn. destruct x. cbn in *. by subst.
  - eapply wp_step; [by eapply (store_tcp_ok Hx p notified)|]. intros [] s1 Hx1.
    assert (Hp1 : pcb_at (upd p notified t) p = Some (notified x)) by (by apply pcb_upd_eq).
    unfold notify_some, notify_all.
    eapply wp_step; [by eapply (tcx_notify_times p (notified x))|]. intros [] s2 Hx2.
    eapply wp_step; [by eapply (tcx_notify_times p (notified x))|]. intros [] s3 Hx3.
    by eapply (tcx_notify_times p (notified x)).
Qed.

Lemma request_release_ok {B o P s0 s t T} p x :
  tcx B o P s0 s t T -> own_slots t -> pcb_at t p = Some x -> slot_at t p = Some (Some p) -> (p < TCP_PCB_MAX)%nat ->
  wp (fun e s' => e = NET_ERR_OK /\ exists v, (v = true \/ release_timer p ∈ concat P) /\
        tcx B o P s0 s' (upd p releasing t) (run_timer (release_timer p) v T)) (tcp_request_release p s).
Proof.
  intros Hx Hown Hp Hs Hr. unfold tcp_request_release. eapply wp_eq; [by apply (find_slot_used Hx)|].
  rewrite (proj2 (Z.ltb_ge _ _)) by lia. rewrite Nat2Z.id.
  eapply wp_step; [by eapply (store_tcp_ok Hx p releasing)|]. intros [] s1 Hx1.
  eapply wp_step; [eapply (timer_add_ok Hx1 (release_timer p)); [by apply release_tcp|done|done|intros; by apply KindRelease]|].
  intros e s2 [(-> & _ & _ & Hx2)|(-> & Hor & ->)]; cbn [wp mret M_ret].
  - split; [done|]. exists true. split; [by left|done].
  - split; [done|]. exists (T (release_timer p)). split; [done|].
    eapply tcx_timers; [exact Hx1|]. intros k. unfold run_timer. by case_decide; [subst k|].
Qed.

(** ** Children *)

Lemma has_children_loop_at {B o P s0 s t T} l ps ds :
  tcx B o P s0 s t T -> length ps = length ds -> (forall p, Some p ∈ ps -> exists x, pcb_at t p = Some x) ->
  exists b, has_children_loop l ps ds s = Ret b s /\
    (b = false <-> (forall p x, Some p ∈ ps -> pcb_at t p = Some x -> listener x <> Some l) /\ Some l ∉ ds).
Proof.
  intros Hx. revert ds. induction ps as [|c ps IH]; intros [|d ds] Hl Hps; try done; cbn [has_children_loop].
  { exists false. split; [done|]. split; [|done]. intros _. split; set_solver. }
  destruct (IH ds) as (b & Hb & Hspec); [by injection Hl|intros p Hp; apply Hps; by right|].
  assert (exists m, (match c with Some p => x ← load_tcp p; mret (bool_decide (listener x = Some l)) | None => mret false end) s
    = Ret m s /\ (m = false <-> forall p x, c = Some p -> pcb_at t p = Some x -> listener x <> Some l)) as (m & Hm & Hmf).
  { destruct c as [p|]; [|by exists false]. destruct (Hps p) as [x Hp]; [by left|].
    exists (bool_decide (listener x = Some l)). split; [by mstep by (by eapply load_tcp_at)|].
    rewrite bool_decide_eq_false. split; [intros E q y [= <-] Hy; congruence|]. intros H. by eapply H. }
  exists (m || bool_decide (d = Some l) || b). split.
  { mstep by exact Hm. by destruct (m || _). }
  rewrite !orb_false_iff, Hmf, bool_decide_eq_false, Hspec. split.
  - intros [[H1 H2] [H3 H4]]. split; [|set_solver]. intros p x [E|Hin]%elem_of_cons Hp; [by eapply H1|by eapply H3].
  - intros [H1 H2]. split_and!; [|set_solver| |set_solver].
    + intros p x -> Hp. eapply H1; [by left|done].
    + intros p x Hin Hp. eapply H1; [by right|done].
Qed.

Lemma has_children_at {B o P s0 s t T D} l :
  tcx B o P s0 s t T -> tcp_ok D t ->
  exists b, tcp_listener_has_children_locked l s = Ret b s /\ (b = false <-> unreferenced t l).
Proof.
  intros Hx Hok. destruct (tcp_lengths _ _ Hok) as (L1 & L2 & L3).
  destruct (has_children_loop_at l (tcp_pcbs t) (detached_listeners t) Hx) as (b & Hb & Hspec).
  { congruence. }
  { intros p (i & Hi)%list_elem_of_lookup. pose proof (tcp_own_slot _ _ Hok _ _ Hi) as ->.
    destruct (slot_pcb Hok i Hi) as (x & Hp & _). eauto. }
  exists b. split; [unfold tcp_listener_has_children_locked; by mstep by (by apply (gets_tcp_at Hx))|].
  rewrite Hspec. split; intros [H1 H2]; split.
  - intros q z Hz Hl. destruct (slot_cases Hok q) as [Hs|Hs]; [by eapply pcb_range| |].
    + apply (H1 q z); [by eapply list_elem_of_lookup_2|done..].
    + destruct (tcp_unused _ _ Hok q z Hz Hs) as (_ & _ & _ & ? & _). congruence.
  - intros i Hi. apply H2. by eapply list_elem_of_lookup_2.
  - intros q z _. apply H1.
  - intros (i & Hi)%list_elem_of_lookup. by apply (H2 i).
Qed.

(** ** Releasing a control block *)

Lemma tcx_drop_sems {B o P s0 s t T} p f x y' :
  tcx B o P s0 s t T -> pcb_at t p = Some x -> outstanding (f x) = outstanding x -> tcp_sems (f x) = [] ->
  sems_kept (tcp_sems x) (sys s) y' -> tcx B o P s0 (s <| sys := y' |> <| tcp := upd p f t |>) (upd p f t) T.
Proof.
  intros Hx Hp Ho Hs Hk. pose proof (cx_tcp _ _ _ _ _ _ _ Hx) as Et.
  assert (Hx1 : tcx B o P s0 (s <| tcp := upd p f t |>) (upd p f t) T).
  { eapply (tcx_store Hx); [done..|]. rewrite Hs. set_solver. }
  apply (tcx_free Hx1 y' (tcp_sems x)); [exact Hk|].
  assert (Hpu : sems_at s (UTcp p) = tcp_sems x) by (cbn; by rewrite Et, Hp).
  pose proof (core_sems _ _ (cx_core _ _ _ _ _ _ _ Hx)) as C5. rewrite <- Hpu.
  intros u k Hu Hk'. destruct (decide (u = UTcp p)) as [->|Hne].
  - cbn in Hu. change (alter f p (pcb_storage t) !! p) with (pcb_at (upd p f t) p) in Hu.
    rewrite (pcb_upd_eq _ _ _ _ Hp) in Hu. cbn in Hu. rewrite Hs in Hu. set_solver.
  - apply (C5 u (UTcp p) Hne k); [|done]. destruct u as [m|m|q|q|q]; try done. cbn in Hu |- *. rewrite Et.
    change (alter f p (pcb_storage t) !! q) with (pcb_at (upd p f t) q) in Hu. rewrite pcb_upd_ne in Hu by congruence. done.
Qed.

Lemma sem_free_run s k :
  exists y', zoom sys_lens (sys_sem_free k) s = Ret () (s <| sys := y' |>) /\ sems_kept (option_list k) (sys s) y'.
Proof. destruct (sem_free_at (sys s) k) as (y' & Hr & Hk). exists y'. split; [exact (zoom_ret sys_lens _ _ _ _ Hr)|done]. Qed.

Definition closed_down (x : tcp_pcb_t) : tcp_pcb_t :=
  (tcp_reset_connection (x <| recv_head := 0 |> <| recv_count := 0 |>)) <| release_pending := false |> <| connect_waiters := 0 |>
    <| recv_waiters := 0 |> <| close_waiters := 0 |>.
Definition without_sems (x : tcp_pcb_t) : tcp_pcb_t :=
  x <| accept_done := SYS_SEM_INVALID |> <| close_done := SYS_SEM_INVALID |>
    <| recv_done := SYS_SEM_INVALID |> <| connect_done := SYS_SEM_INVALID |>.
Definition released (x : tcp_pcb_t) : tcp_pcb_t := without_sems (closed_down (cleared (x <| opened := false |>))).
Definition vacate (p : nat) (t : tcp_vars) : tcp_vars := set_slot p None (set_detached p None (upd p released t)).

Lemma released_unused x : unused (released x).
Proof. done. Qed.
Lemma released_ok D x : pcb_ok D x -> pcb_ok D (released x).
Proof.
  intros [H1 H2 H3 H4 H5 H6 H7 H8 H9 H10]. destruct x. split; cbn in *; try done.
  - intros [?|?]; congruence.
  - by intros [].
  - by left.
Qed.

Lemma vacate_ok D t p x :
  tcp_ok D t -> pcb_at t p = Some x -> unreferenced t p -> listener x = None -> tcp_ok D (vacate p t).
Proof.
  intros Hok Hp Hu Hl. apply (tcp_ok_place Hok Hp released None None Hu Hl); [|done|done|done|done|by left|by left|done].
  apply released_ok. by eapply tcp_each.
Qed.
Lemma vacate_timers {E W t T} p x :
  length (pcb_storage t) = TCP_PCB_MAX -> timers_ok E W t T -> pcb_at t p = Some x ->
  timers_ok E W (vacate p t)
    (run_timer (release_timer p) false (run_timer (time_wait_timer p) false (run_timer (retrans_timer p) false T))).
Proof.
  intros Hl Ht Hp. assert (Hno : retrans_timer p <> time_wait_timer p /\ time_wait_timer p <> release_timer p /\
    retrans_timer p <> release_timer p).
  { unfold retrans_timer, time_wait_timer, release_timer. lia. }
  eapply (timers_ok_storage (t := upd p released t)); [|done].
  eapply timers_ok_upd; [done..| | | | |by right].
  - unfold timer_of. intros k Hk. rewrite !run_timer_ne by tauto. done.
  - apply tick_off; [|done]. by rewrite !run_timer_ne, run_timer_eq by tauto.
  - apply tick_off; [|done]. by rewrite run_timer_ne, run_timer_eq by tauto.
  - apply tick_off; [|done]. by rewrite run_timer_eq.
Qed.

Lemma store_sys_run {B o P s0 s t T} p f x y' :
  tcx B o P s0 s t T -> pcb_at t p = Some x ->
  store_tcp p f (s <| sys := y' |>) = Ret () (s <| sys := y' |> <| tcp := upd p f t |>).
Proof.
  intros Hx Hp. unfold store_tcp. mstep by (unfold load_tcp; mstep; apply deref_ret; cbn; by rewrite (cx_tcp _ _ _ _ _ _ _ Hx)).
  unfold modify, upd. cbn. rewrite (cx_tcp _ _ _ _ _ _ _ Hx). by rewrite (insert_alter f p _ x Hp).
Qed.

(** The four semaphores are freed, and then the pointers to them are cleared. *)
Lemma free_sems_ok {B o P s0 s t T A} p x (Q : A -> net -> Prop) (m : M net A) :
  tcx B o P s0 s t T -> pcb_at t p = Some x ->
  (forall s', tcx B o P s0 s' (upd p without_sems t) T -> wp Q (m s')) ->
  wp Q ((zoom sys_lens (sys_sem_free (accept_done x));; zoom sys_lens (sys_sem_free (close_done x));;
      zoom sys_lens (sys_sem_free (recv_done x));; zoom sys_lens (sys_sem_free (connect_done x));;
      store_tcp p without_sems;; m) s).
Proof.
  intros Hx Hp Hm. destruct (sem_free_run s (accept_done x)) as (y1 & H1 & K1).
  destruct (sem_free_run (s <| sys := y1 |>) (close_done x)) as (y2 & H2 & K2).
  destruct (sem_free_run (s <| sys := y2 |>) (recv_done x)) as (y3 & H3 & K3).
  destruct (sem_free_run (s <| sys := y3 |>) (connect_done x)) as (y4 & H4 & K4).
  change (sys (s <| sys := ?y |>)) with y in K2, K3, K4. do 4 (eapply wp_eq; [eassumption|]).
  eapply wp_eq; [exact (store_sys_run p without_sems x y4 Hx Hp)|]. apply Hm. eapply tcx_drop_sems; [done..|]. intros k Hk. unfold tcp_sems in Hk. rewrite !not_elem_of_app in Hk.
  destruct Hk as (N1 & N2 & N3 & N4). by rewrite (K4 k), (K3 k), (K2 k), (K1 k).
Qed.

(** Nothing keeps the control block. *)
Definition idle (x : tcp_pcb_t) : bool :=
  release_pending x && negb (socket_attached x) && bool_decide (listener x = None) && (accept_waiters x =? 0) && no_waiters x &&
  (accept_pins x =? 0).
Definition releasable (t : tcp_vars) (p : nat) : Prop :=
  exists x, pcb_at t p = Some x /\ slot_at t p = Some (Some p) /\ idle x = true /\ unreferenced t p.

Lemma release_now_ok {B o P E s0 s t T} p :
  tinv B o P E s0 s t T ->
  wp (fun e s' => (e < 0 /\ s' = s /\ ~ releasable t p) \/
        (e = NET_ERR_OK /\ unreferenced t p /\ (exists x, pcb_at t p = Some x /\ release_pending x = true) /\
         exists T', (forall k, ~ timer_of p k -> T' k = T k) /\ T' (release_timer p) = false /\ tinv B o P E s0 s' (vacate p t) T'))
     (tcp_release_now_locked p s).
Proof.
  intros [Hx Hok Htm]. unfold tcp_release_now_locked.
  destruct (find_slot_cases Hx (tcp_own_slot _ _ Hok) p) as [(k & Hk & Hr & Hno)|[Hs Hr]]; (eapply wp_eq; [exact Hr|]).
  { rewrite (proj2 (Z.ltb_lt _ _)) by done. left. split_and!; [done..|]. by intros (x & _ & ? & _). }
  rewrite (proj2 (Z.ltb_ge _ _)) by lia. rewrite Nat2Z.id.
  destruct (has_children_at p Hx Hok) as (b & Hb & Hu). eapply wp_eq; [exact Hb|].
  destruct (slot_pcb Hok p Hs) as (x & Hp & _). eapply wp_eq; [by eapply load_tcp_at|].
  destruct (negb _) eqn:Hg.
  { left. split_and!; [done..|]. intros (x' & Hp' & _ & Hid & Hu'%Hu). rewrite Hp in Hp'. injection Hp' as <-. subst b.
    unfold idle in Hid. apply negb_true_iff in Hg. rewrite !andb_true_iff in Hid. destruct Hid as (((((I1 & I2) & I3) & I4) & I5) & I6).
    by rewrite I1, I2, I3, I4, I5, I6 in Hg. }
  apply negb_false_iff in Hg. rewrite !andb_true_iff in Hg.
  destruct Hg as ((((((Hrp & _) & Hl%bool_decide_eq_true) & _) & _) & Hc%negb_true_iff) & _).
  apply Hu in Hc as Hu'. clear Hb b Hc Hu. rename Hu' into Hu.
  eapply wp_step; [by eapply (store_tcp_ok Hx p (fun x => x <| opened := false |>))|]. intros [] s1 Hx1.
  eapply wp_step; [eapply (clear_outstanding_ok p _ Hx1); by apply pcb_upd_eq|]. intros [] s2 Hx2. rewrite upd_upd in Hx2.
  eapply wp_step; [by apply (timer_remove_ok Hx2)|]. intros [] s3 Hx3.
  eapply wp_step; [by apply (timer_remove_ok Hx3)|]. intros [] s4 Hx4.
  eapply wp_step; [eapply (store_tcp_ok Hx4 p); [by apply pcb_upd_eq|done..]|]. intros [] s5 Hx5. rewrite upd_upd in Hx5.
  eapply wp_step; [eapply (store_tcp_ok Hx5 p); [by apply pcb_upd_eq|done..]|]. intros [] s6 Hx6. rewrite upd_upd in Hx6.
  match type of Hx6 with tcx _ _ _ _ _ (upd p ?f t) _ => set (g := f) in Hx6 end.
  assert (Hp6 : pcb_at (upd p g t) p = Some (g x)) by (by apply pcb_upd_eq).
  eapply wp_eq; [by eapply load_tcp_at|].
  eapply free_sems_ok; [exact Hx6|exact Hp6|]. intros s7 Hx7. rewrite upd_upd in Hx7.
  rewrite (upd_ext p (without_sems ∘ g) released t x Hp) in Hx7 by (unfold g; clear; by destruct x).
  eapply wp_step; [by eapply (set_tcp_ok Hx7)|]. intros [] s8 Hx8. cbn [wp mret M_ret]. right.
  split; [done|]. split; [done|]. split; [by exists x|]. eexists. split; [|split]; cycle 2.
  - split; [exact Hx8|by eapply vacate_ok|]. eapply vacate_timers; [by destruct (tcp_lengths _ _ Hok)|done..].
  - unfold timer_of. intros k Hk. by rewrite !run_timer_ne by tauto.
  - apply run_timer_eq.
Qed.

(** ** Detaching a child from its listener *)

Lemma remove_queued_run {B o P s0 s t T} l c y :
  tcx B o P s0 s t T -> pcb_at t l = Some y ->
  wp (fun _ s' => tcx B o P s0 s' (upd l (remove_queued c) t) T) (tcp_listener_remove_queued_locked l c s).
Proof.
  intros Hx Hy. unfold tcp_listener_remove_queued_locked. eapply wp_eq; [by eapply load_tcp_at|].
  destruct (find_queued c y (Z.to_nat (accept_count y)) 0) as [k|] eqn:Ef.
  - eapply wp_step; [eapply (store_tcp_ok Hx l); [exact Hy|done..]|]. intros [] s1 Hx1. cbn [wp mret M_ret].
    erewrite upd_ext; [exact Hx1|exact Hy|]. unfold remove_queued. by rewrite Ef.
  - cbn [wp mret M_ret]. rewrite (upd_id _ _ _ y); [done..|]. unfold remove_queued. by rewrite Ef.
Qed.

(** A control block without a segment in flight in the state CLOSED. *)
Definition shut (x : tcp_pcb_t) : tcp_pcb_t := (cleared x) <| state := TCP_STATE_CLOSED |>.
Lemma shut_ok D x : pcb_ok D x -> pcb_ok D (shut x).
Proof.
  intros [H1 H2 H3 H4 H5 H6 H7 H8 H9 H10]. destruct x. split; cbn in *; try done.
  - intros [?|?]; congruence.
  - by intros [].
  - by left.
  - by left.
Qed.

Definition drop_pending (y : tcp_pcb_t) : tcp_pcb_t :=
  if 0 <? pending_count y then y <| pending_count := pending_count y - 1 |> else y.
Definition orphan (err : Z) (x : tcp_pcb_t) : tcp_pcb_t :=
  x <| listener := None |> <| error := err |> <| state := TCP_STATE_CLOSED |>
    <| close_requested := false |> <| release_pending := true |>.
(** The child and the listener after [tcp_listener_detach_child_locked]. *)
Definition detached_child (err : Z) (x : tcp_pcb_t) : tcp_pcb_t := releasing (notified (orphan err (cleared x))).
Definition detached_listener (c : nat) (y : tcp_pcb_t) : tcp_pcb_t := drop_pending (remove_queued c y).

Lemma detached_child_ok D err x : pcb_ok D (shut x) -> pcb_ok D (detached_child err x).
Proof. intros [H1 H2 H3 H4 H5 H6 H7 H8 H9 H10]. destruct x. split; try done. by left. Qed.

Lemma remove_queued_same c y :
  opened (remove_queued c y) = opened y /\ listener (remove_queued c y) = listener y /\
  state (remove_queued c y) = state y /\ pending_count (remove_queued c y) = pending_count y /\
  backlog (remove_queued c y) = backlog y /\ release_pending (remove_queued c y) = release_pending y /\
  outstanding (remove_queued c y) = outstanding y /\ tcp_sems (remove_queued c y) = tcp_sems y.
Proof. unfold remove_queued. by destruct (find_queued _ _ _ _). Qed.

Lemma drop_pending_same y :
  opened (drop_pending y) = opened y /\ listener (drop_pending y) = listener y /\
  state (drop_pending y) = state y /\ accept_list (drop_pending y) = accept_list y /\
  backlog (drop_pending y) = backlog y /\ release_pending (drop_pending y) = release_pending y /\
  outstanding (drop_pending y) = outstanding y /\ tcp_sems (drop_pending y) = tcp_sems y.
Proof. unfold drop_pending. by destruct (0 <? pending_count y). Qed.

Lemma detached_listener_ok D c y : pcb_ok D y -> pcb_ok D (detached_listener c y).
Proof.
  intros [H1 H2 H3 H4 H5 H6 H7 H8 H9 H10]. pose proof (remove_queued_ok c y H3) as H3'. unfold detached_listener, drop_pending.
  assert (H : pcb_ok D (remove_queued c y)).
  { revert H3'. unfold remove_queued. destruct (find_queued _ _ _ _); intros; by split. }
  destruct (0 <? _); [|done]. destruct H. by split.
Qed.

(** What a change of a child may not touch before it is detached. *)
Record still_child (x x' : tcp_pcb_t) : Prop := {
  still_listener : listener x' = listener x;
  still_opened : opened x' = opened x;
  still_accept : accept_list x' = accept_list x;
  still_pending : pending_count x' = pending_count x;
  still_backlog : backlog x' = backlog x }.
Lemma still_child_refl x : still_child x x.
Proof. by split. Qed.

(** The variables after [tcp_listener_detach_child_locked]. *)
Definition unlinked (c l : nat) (err : Z) (h : tcp_pcb_t -> tcp_pcb_t) (t : tcp_vars) : tcp_vars :=
  set_detached c (Some l) (upd c (detached_child err ∘ h) (upd l (detached_listener c) t)).

Section detach.
Context {D : gset nat} {t : tcp_vars} (Hok : tcp_ok D t).
Context {c l : nat} {x y : tcp_pcb_t} (Hx : pcb_at t c = Some x) (Hy : pcb_at t l = Some y) (Hl : listener x = Some l).

Lemma child_slot : slot_at t c = Some (Some c).
Proof.
  destruct (slot_cases Hok c) as [Hs|Hs]; [by eapply pcb_range|done|].
  destruct (tcp_unused _ _ Hok c x Hx Hs) as (_ & _ & _ & ? & _). congruence.
Qed.

Lemma drop_pending_child z : pending_count z = pending_count y -> pending_count (drop_pending z) = pending_count y - 1.
Proof.
  intros E. unfold drop_pending. destruct (tcp_backlog _ _ Hok l y Hy) as [Hp _].
  pose proof (children_pos t c x l Hx Hl). rewrite (proj2 (Z.ltb_lt _ _)) by lia. cbn. lia.
Qed.

Lemma unlinked_ok err h :
  pcb_ok D (shut (h x)) -> still_child x (h x) -> tcp_ok D (unlinked c l err h t).
Proof.
  intros Hs [S1 S2 S3 S4 S5]. pose proof (child_listener Hok Hx Hy Hl) as (Yo & Ys & Yl).
  destruct (tcp_child _ _ Hok c x Hx l Hl) as (_ & Xo & _).
  destruct (tcp_backlog _ _ Hok c x Hx) as [_ Xb].
  pose proof (drop_pending_same (remove_queued c y)) as (G1 & G2 & G3 & G4 & G5 & _).
  pose proof (remove_queued_same c y) as (R1 & R2 & R3 & R4 & R5 & _).
  apply (tcp_ok_unlink Hok Hx Hy Hl); unfold detached_listener; rewrite ?G1, ?G2, ?G3, ?G4, ?G5, ?R1, ?R2, ?R3, ?R5; try done.
  - by apply detached_child_ok.
  - apply detached_listener_ok. by eapply tcp_each.
  - unfold compose. cbn. congruence.
  - unfold compose. cbn. lia.
  - intros cs Hcs Hnd. apply remove_queued_list; [|done..]. exact (ok_accept _ _ (tcp_each _ _ Hok l y Hy)).
  - by apply drop_pending_child.
  - by right.
Qed.

Lemma unlinked_timers {E W T} err h T' :
  timers_ok E W t T -> (forall k, ~ timer_of c k -> T' k = T k) -> T' (retrans_timer c) = false ->
  T' (time_wait_timer c) = false -> T' (release_timer c) = true \/ release_timer c ∈ W ->
  timers_ok E W (unlinked c l err h t) T'.
Proof.
  intros Ht HT H1 H2 H3. pose proof (child_ne Hok Hx Hy Hl) as Hne.
  pose proof (drop_pending_same (remove_queued c y)) as (G1 & _ & G3 & _ & _ & G6 & G7 & _).
  pose proof (remove_queued_same c y) as (R1 & _ & R3 & _ & _ & R6 & R7 & _).
  eapply (timers_ok_storage (t := upd c (detached_child err ∘ h) (upd l (detached_listener c) t))); [|done].
  assert (Hlen : length (pcb_storage t) = TCP_PCB_MAX) by (by destruct (tcp_lengths _ _ Hok)).
  eapply (timers_ok_upd c _ x (T := T)); [..|by apply tick_off|by apply tick_off|by apply tick_on|by left].
  - unfold upd. cbn. by rewrite length_alter.
  - eapply (timers_ok_same l _ y); [done..| | | |left]; unfold detached_listener; by rewrite ?G1, ?G3, ?G6, ?G7, ?R1, ?R3, ?R6, ?R7.
  - by rewrite pcb_upd_ne.
  - done.
Qed.
End detach.

Lemma detach_child_ok {B o P E s0 s t T T0} c l x err h :
  tcx B o P s0 s (upd c h t) T -> tcp_ok (dom (netif_buffer s0)) t -> timers_ok E (concat P) t T0 ->
  (forall k, ~ timer_of c k -> T k = T0 k) -> pcb_at t c = Some x -> listener x = Some l ->
  pcb_ok (dom (netif_buffer s0)) (shut (h x)) -> still_child x (h x) ->
  wp (fun _ s' => exists T', tinv B o P E s0 s' (unlinked c l err h t) T' /\ forall k, ~ timer_of c k -> T' k = T k)
     (tcp_listener_detach_child_locked c err s).
Proof.
  intros Hx Hok Htm HT Hc Hl Hs Hst.
  destruct (tcp_child _ _ Hok c x Hc l Hl) as ((y & Hy & _) & _). pose proof (child_ne Hok Hc Hy Hl) as Hne.
  pose proof (child_slot Hok Hc Hl) as Hsl. pose proof (pcb_range Hok _ _ Hc) as Hr.
  assert (Hcl : pcb_at (upd c h t) c = Some (h x)) by (by apply pcb_upd_eq).
  unfold tcp_listener_detach_child_locked. eapply wp_eq; [by eapply load_tcp_at|].
  eapply wp_eq; [by apply (find_slot_used Hx (tcp_own_slot _ _ Hok))|]. rewrite (still_listener _ _ Hst), Hl.
  rewrite (proj2 (Z.ltb_ge _ _)) by lia. rewrite Nat2Z.id.
  eapply wp_step; [eapply (remove_queued_run l c y Hx); by rewrite pcb_upd_ne|]. intros ? s1 Hx1. rewrite upd_comm in Hx1 by done.
  eapply wp_step; [eapply (store_tcp_ok Hx1 l drop_pending (remove_queued c y))|].
  { rewrite pcb_upd_ne by done. by apply pcb_upd_eq. }
  { apply drop_pending_same. }
  { apply drop_pending_same. }
  intros ? s2 Hx2. cbn beta in Hx2. rewrite (upd_comm l c), upd_upd in Hx2 by done.
  change (drop_pending ∘ remove_queued c) with (detached_listener c) in Hx2. set (t1 := upd l (detached_listener c) t) in *.
  assert (Hc1 : pcb_at t1 c = Some x) by (unfold t1; by rewrite pcb_upd_ne).
  eapply wp_step; [eapply (clear_outstanding_ok c _ Hx2); by apply pcb_upd_eq|]. intros [] s3 Hx3. rewrite upd_upd in Hx3.
  eapply wp_step; [by apply (timer_remove_ok Hx3)|]. intros [] s4 Hx4.
  eapply wp_step; [eapply (store_tcp_ok Hx4 c (orphan err)); [by apply pcb_upd_eq|done..]|]. intros [] s5 Hx5. rewrite upd_upd in Hx5.
  eapply wp_step; [by eapply (set_tcp_ok Hx5)|]. intros [] s6 Hx6.
  change (tcx B o P s0 s6 (upd c (orphan err ∘ (cleared ∘ h)) (set_detached c (Some l) t1))
    (run_timer (time_wait_timer c) false (run_timer (retrans_timer c) false T))) in Hx6.
  assert (Hc6 : pcb_at (set_detached c (Some l) t1) c = Some x) by done.
  eapply wp_step; [eapply (notify_terminal_ok c _ Hx6); by apply pcb_upd_eq|]. intros [] s7 Hx7. rewrite upd_upd in Hx7.
  eapply wp_step; [eapply (request_release_ok c _ Hx7); [exact (tcp_own_slot _ _ Hok)|by apply pcb_upd_eq|done..]|].
  intros e s8 (-> & v & Hv & Hx8). rewrite upd_upd in Hx8. cbn [NET_ERR_OK Z.ltb Z.compare when wp mret M_ret].
  assert (Hno : retrans_timer c <> time_wait_timer c /\ time_wait_timer c <> release_timer c /\
    retrans_timer c <> release_timer c).
  { unfold retrans_timer, time_wait_timer, release_timer. lia. }
  eexists. split; [split; [exact Hx8|by eapply unlinked_ok|]; eapply unlinked_timers; [done..| | | |]|].
  - intros k Hk. rewrite !run_timer_ne by (unfold timer_of in Hk; tauto). by apply HT.
  - by rewrite !run_timer_ne, run_timer_eq by tauto.
  - by rewrite run_timer_ne, run_timer_eq by tauto.
  - by rewrite run_timer_eq.
  - intros k Hk. by rewrite !run_timer_ne by (unfold timer_of in Hk; tauto).
Qed.

(** ** Giving up a connection *)

Definition failed (err : Z) (x : tcp_pcb_t) : tcp_pcb_t :=
  (cleared x) <| error := err |> <| state := TCP_STATE_CLOSED |> <| close_requested := false |>.

Lemma failed_ok D err x : pcb_ok D (shut x) -> pcb_ok D (notified (failed err x)).
Proof. intros [H1 H2 H3 H4 H5 H6 H7 H8 H9 H10]. destruct x. by split. Qed.

(** [h] is what happened to [p] since the invariant held; the timers of [p] for
    retransmission and TIME_WAIT may be in any state. *)
Lemma fail_ok {B o P E s0 s t T T0} p x err h :
  tcx B o P s0 s (upd p h t) T -> tcp_ok (dom (netif_buffer s0)) t -> timers_ok E (concat P) t T0 ->
  (forall k, k <> retrans_timer p -> k <> time_wait_timer p -> T k = T0 k) ->
  pcb_at t p = Some x -> slot_at t p = Some (Some p) -> state x <> TCP_STATE_LISTEN ->
  pcb_ok (dom (netif_buffer s0)) (shut (h x)) -> still_child x (h x) -> release_pending (h x) = release_pending x ->
  wp (fun e s' => e = err /\ exists t' T', tinv B o P E s0 s' t' T') (tcp_fail p err s).
Proof.
  intros Hx Hok Htm HT Hp Hsl Hnl Hs Hst Hrp. unfold tcp_fail.
  eapply wp_step; [eapply (clear_outstanding_ok p _ Hx); by apply pcb_upd_eq|]. intros [] s1 Hx1. rewrite upd_upd in Hx1.
  eapply wp_step; [by apply (timer_remove_ok Hx1)|]. intros [] s2 Hx2.
  eapply wp_step; [eapply (store_tcp_ok Hx2 p); [by apply pcb_upd_eq|done..]|]. intros [] s3 Hx3. rewrite upd_upd in Hx3.
  eapply wp_step; [eapply (notify_terminal_ok p _ Hx3); by apply pcb_upd_eq|]. intros [] s4 Hx4. rewrite upd_upd in Hx4.
  rewrite (upd_ext p _ (notified ∘ (failed err ∘ h)) t x Hp) in Hx4 by done.
  eapply wp_eq; [eapply (load_tcp_at Hx4); by apply pcb_upd_eq|].
  match goal with |- context [listener ?z] => change (listener z) with (listener (h x)) end.
  set (T4 := run_timer (time_wait_timer p) false (run_timer (retrans_timer p) false T)) in *.
  assert (Hno : retrans_timer p <> time_wait_timer p /\ time_wait_timer p <> release_timer p /\
    retrans_timer p <> release_timer p) by (unfold retrans_timer, time_wait_timer, release_timer; lia).
  assert (HT4 : forall k, k <> retrans_timer p -> k <> time_wait_timer p -> T4 k = T0 k).
  { intros k K1 K2. unfold T4. rewrite !run_timer_ne by done. by apply HT. }
  rewrite (still_listener _ _ Hst). destruct (listener x) as [l|] eqn:Hl.
  - rewrite bool_decide_eq_true_2 by done. cbn [when].
    eapply wp_step; [eapply (detach_child_ok (T0 := T0) p l x err _ Hx4); [done|done| |done|done| |]|].
    + intros k Hk. apply HT4; unfold timer_of in Hk; tauto.
    + apply shut_ok. by apply failed_ok.
    + destruct Hst. by split.
    + intros ? s5 (T' & H' & _). cbn [wp mret M_ret]. split; [done|]. eexists _, T'. exact H'.
  - rewrite bool_decide_eq_false_2 by (by intros []). cbn [when]. eapply wp_eq; [reflexivity|]. cbn [wp mret M_ret].
    split; [done|]. eexists _, _. split; [exact Hx4| |].
    + apply (tcp_ok_upd Hok p _ x Hp); [by apply failed_ok| |congruence].
      destruct (tcp_backlog _ _ Hok p x Hp) as [_ Hb]. destruct Hst as [S1 S2 S3 S4 S5].
      split; try done. unfold compose. cbn. lia.
    + eapply (timers_ok_upd p _ x); [by destruct (tcp_lengths _ _ Hok)|exact Htm|done|..].
      * intros k Hk. apply HT4; unfold timer_of in Hk; tauto.
      * apply tick_off; [|done]. unfold T4. by rewrite run_timer_ne, run_timer_eq by tauto.
      * apply tick_off; [|done]. unfold T4. by rewrite run_timer_eq.
      * destruct (Htm p x Hp) as (_ & _ & K & _). eapply tick_ext; [exact K|apply HT4; [intros E'; symmetry in E'|intros E'; symmetry in E']; tauto|].
        exact Hrp.
      * intros _. unfold leaving. change (release_pending ((notified ∘ (failed err ∘ h)) x)) with (release_pending (h x)).
        change (opened ((notified ∘ (failed err ∘ h)) x)) with (opened (h x)). by rewrite Hrp, (still_opened _ _ Hst).
Qed.

(** ** Listeners that go away *)

(** What the release of its children leaves of a listener. *)
Record same_listener (y y' : tcp_pcb_t) : Prop := {
  same_release : release_pending y' = release_pending y;
  same_state : state y' = state y;
  same_opened : opened y' = opened y;
  same_unacked : outstanding y' = outstanding y;
  same_origin : listener y' = listener y }.
Definition stands (l : nat) (t t' : tcp_vars) : Prop :=
  slot_at t' l = slot_at t l /\
  forall y, pcb_at t l = Some y -> exists y', pcb_at t' l = Some y' /\ same_listener y y'.

#[global] Instance stands_refl l : Reflexive (stands l).
Proof. intros t. split; [done|]. intros y Hy. exists y. by split. Qed.
#[global] Instance stands_trans l : Transitive (stands l).
Proof.
  intros t1 t2 t3 [E1 H1] [E2 H2]. split; [congruence|]. intros y Hy. destruct (H1 y Hy) as (y2 & Hy2 & []).
  destruct (H2 y2 Hy2) as (y3 & Hy3 & []). exists y3. split; [done|]. split; congruence.
Qed.

Lemma stands_vacate l p t : p <> l -> stands l t (vacate p t).
Proof.
  intros Hne. split.
  - unfold vacate. cbn. by rewrite list_lookup_insert_ne.
  - intros y Hy. exists y. split; [|by split]. change (pcb_at (upd p released t) l = Some y). by rewrite pcb_upd_ne.
Qed.
Lemma stands_unlinked c l err h t : c <> l -> stands l t (unlinked c l err h t).
Proof.
  intros Hne. split; [done|]. intros y Hy. exists (detached_listener c y). split.
  - change (pcb_at (upd c (detached_child err ∘ h) (upd l (detached_listener c) t)) l = Some (detached_listener c y)).
    rewrite pcb_upd_ne by done. by apply pcb_upd_eq.
  - pose proof (drop_pending_same (remove_queued c y)) as (G1 & G2 & G3 & _ & _ & G6 & G7 & _).
    pose proof (remove_queued_same c y) as (R1 & R2 & R3 & _ & _ & R6 & R7 & _).
    unfold detached_listener. split; congruence.
Qed.

Lemma for_slots_ok (I : net -> Prop) l body s :
  (forall s i, I s -> i ∈ l ->
     exists c, tcp_pcbs (tcp s) !! i = Some c /\ wp (fun _ s' => I s') (body i c s)) ->
  I s -> wp (fun _ s' => I s') (for_slots l body s).
Proof.
  revert s. induction l as [|i l IH]; intros s Hb HI; cbn [for_slots]; [done|].
  destruct (Hb s i HI) as (c & Hc & Hw); [by left|].
  eapply wp_eq; [reflexivity|]. eapply wp_eq; [by apply deref_ret|]. eapply wp_step; [exact Hw|].
  intros ? s' HI'. apply IH; [|done]. intros s2 j Hs2 Hj. apply Hb; [done|by right].
Qed.

Section cleanup.
Context {B o : list nat} {P : list (list nat)} {E : list nat} {s0 : net} (l : nat) (t : tcp_vars) (T : nat -> bool).
Context (Hrange : (l < TCP_PCB_MAX)%nat).

Let I (s : net) : Prop :=
  exists t' T', tinv B o P E s0 s t' T' /\ stands l t t' /\ forall k, timer_of l k -> T' k = T k.

Lemma slots_in s i : I s -> i ∈ seq 0 TCP_PCB_MAX ->
  exists c t' T', tcp_pcbs (tcp s) !! i = Some c /\ tinv B o P E s0 s t' T' /\ stands l t t' /\
    (forall k, timer_of l k -> T' k = T k) /\ slot_at t' i = Some c /\ (c = Some i \/ c = None).
Proof using All.
  intros (t' & T' & Hi & Hs & HT) Hin%elem_of_seq. pose proof Hi as [Hx Hok _].
  assert (Hr : (i < TCP_PCB_MAX)%nat) by lia.
  destruct (slot_cases Hok i Hr) as [Hc|Hc]; eexists _, t', T'; rewrite (cx_tcp _ _ _ _ _ _ _ Hx);
    (split_and!; [exact Hc|done..|auto]).
Qed.

Lemma release_detached_ok {s} : I s -> wp (fun _ s' => I s') (tcp_listener_release_detached_locked l s).
Proof using All.
  intros HI0. apply (for_slots_ok I); [|done].
  intros s1 i HI Hin. destruct (slots_in s1 i HI Hin) as (c & t1 & T1 & Hc & Hi1 & Hs1 & HT1 & Hsl & Hcase).
  exists c. split; [done|]. pose proof Hi1 as [Hx1 _ _]. eapply wp_eq; [by apply (gets_tcp_at Hx1)|].
  destruct c as [p|]; [|done]. destruct Hcase as [[= ->]|?]; [|done].
  case_bool_decide as Hd; cbn [when]; [|done].
  eapply wp_step; [by apply (release_now_ok i Hi1)|]. intros e s2 [(_ & -> & _)|(_ & [_ Hu] & _ & T2 & HT2 & _ & Hi2)]; cbn [wp mret M_ret].
  - by exists t1, T1.
  - assert (Hne : i <> l).
    { intros ->. apply (Hu l). destruct (detached_at t1 l); [|done]. cbn in Hd. congruence. }
    exists (vacate i t1), T2. split; [done|]. split; [etransitivity; [exact Hs1|by apply stands_vacate]|].
    intros k Hk. rewrite HT2; [by apply HT1|]. eapply (timer_of_apart l i); [done| |by intros E'|done].
    destruct Hi1 as [_ Hok1 _]. apply elem_of_seq in Hin. lia.
Qed.

Lemma listener_cleanup_ok {s} :
  tinv B o P E s0 s t T ->
  wp (fun _ s' => I s') (tcp_listener_cleanup_locked l s).
Proof using All.
  intros Hi. unfold tcp_listener_cleanup_locked. eapply wp_step.
  { apply (for_slots_ok I); [|by exists t, T].
    intros s1 i HI Hin. destruct (slots_in s1 i HI Hin) as (c & t1 & T1 & Hc & Hi1 & Hs1 & HT1 & Hsl & Hcase).
    exists c. split; [done|]. destruct c as [p|]; [|done]. destruct Hcase as [[= ->]|?]; [|done].
    destruct (Nat.eqb_spec i l) as [->|Hne]; [done|]. pose proof Hi1 as [Hx1 Hok1 Htm1].
    destruct (slot_pcb Hok1 i Hsl) as (x & Hp & _). eapply wp_eq; [by eapply load_tcp_at|].
    case_bool_decide as Hl; cbn [when]; [|done].
    eapply wp_mono; [|eapply (detach_child_ok (t := t1) (T0 := T1) i l x NET_ERR_STATE id); [|done..| |by split]].
    - intros ? s2 (T2 & H2 & HT2). cbn beta in H2. eexists _, T2. split; [exact H2|].
      split; [etransitivity; [exact Hs1|by apply stands_unlinked]|].
      intros k Hk. rewrite HT2; [by apply HT1|]. eapply (timer_of_apart l i); [done| |by intros E'|done]. by eapply pcb_range.
    - by rewrite (upd_id i id t1 x).
    - apply shut_ok. by eapply tcp_each. }
  intros ? s1 HI. by apply release_detached_ok.
Qed.
End cleanup.
