(* ===== verification/OwnerTcpIn.v ===== *)
(** * TCP input under the invariants: the steps of a connection

    The functions of tcp.c that a segment of a connection runs: the
    acknowledgement, the data, the FIN and the states around them.  They run
    while no timer waits for its callback. *)

From S2P Require Import Prelude Tools IpAddr Nlist Timer Mblock Pktbuf PktbufSpec PktbufChain.
From S2P Require Import PktbufOps PktbufFrame Sys Fixq TcpState Net Netif Ether Arp NetifLink Ipv4 Udp Tcp.
From S2P Require Import TcpInv TcpQueue Owner OwnerPkt OwnerQueue OwnerOut OwnerArp OwnerResolve OwnerIp OwnerIcmp.
From S2P Require Import OwnerTcp OwnerSegment OwnerRelease.
Import Pcb.

(** [p] is the control block [x] of a connection. *)
Definition alive (t : tcp_vars) (p : nat) (x : tcp_pcb_t) : Prop :=
  pcb_at t p = Some x /\ slot_at t p = Some (Some p) /\ state x <> TCP_STATE_CLOSED /\ state x <> TCP_STATE_LISTEN.

Lemma tinv_timers {B o P E s0 s t T} E' :
  tinv B o P E s0 s t T -> timers_ok E' (concat P) t T -> tinv B o P E' s0 s t T.
Proof. intros [] H. by split. Qed.

Lemma tinv_retime {B o P E s0 s t T} T' :
  tinv B o P E s0 s t T -> (forall k, T k = T' k) -> tinv B o P E s0 s t T'.
Proof. intros [] H. split; [by eapply tcx_timers|done|by eapply timers_ok_ext]. Qed.

Section connection.
Context {B o : list nat} {E : list nat} {s0 : net}.
Abbreviation D := (dom (netif_buffer s0)).

(** A store to a connection that keeps its timers and its role. *)
Lemma tinv_store {P s t T} p f x :
  tinv B o P E s0 s t T -> pcb_at t p = Some x -> slot_at t p = Some (Some p) ->
  pcb_ok D (f x) -> role_kept x (f x) ->
  outstanding (f x) = outstanding x -> tcp_sems (f x) = tcp_sems x ->
  (state (f x) = TCP_STATE_TIME_WAIT <-> state x = TCP_STATE_TIME_WAIT) -> release_pending (f x) = release_pending x ->
  wp (fun _ s' => tinv B o P E s0 s' (upd p f t) T) (store_tcp p f s).
Proof.
  intros [Hx Hok Htm] Hp Hs Hf Hr Ho Hse Hst Hrp. eapply wp_mono; [|by eapply (store_tcp_ok Hx p f x)].
  intros ? s' Hx'. cbn beta in Hx'. split; [done| |].
  - eapply tcp_ok_upd; [done..|]. congruence.
  - eapply timers_ok_same; [by destruct (tcp_lengths _ _ Hok)|done..|]. left. by destruct Hr.
Qed.

Lemma tinv_route {P s t T} p x :
  tinv B o P E s0 s t T -> pcb_at t p = Some x -> state x <> TCP_STATE_CLOSED ->
  exists n, netif x = Some n /\ n ∈ D /\ 0 <= remote_ip x < 2 ^ 32 /\ 0 <= recv_count x <= TCP_RECV_MAX.
Proof.
  intros [_ Hok _] Hp Hs. destruct (tcp_each _ _ Hok p x Hp) as [_ Hrc _ Hrem Hn Hro _ _ _ _].
  destruct (netif x) as [n|] eqn:En; [|by destruct Hro; [left|]].
  exists n. split_and!; [done|by apply Hn|lia..].
Qed.

Lemma tinv_send_ack {P s t T} p x :
  tinv B o P E s0 s t T -> pcb_at t p = Some x -> state x <> TCP_STATE_CLOSED ->
  wp (fun _ s' => tinv B o P E s0 s' t T) (tcp_send_ack p s).
Proof.
  intros Hi Hp Hs. destruct (tinv_route p x Hi Hp Hs) as (n & Hn & Hd & Hr & Hrc). destruct Hi as [Hx Hok Htm].
  eapply wp_mono; [|by eapply (send_ack_ok p x n Hx)]. intros ? s' Hx'. by split.
Qed.

Lemma tinv_notify {P s t T} p x sem n :
  tinv B o P E s0 s t T -> pcb_at t p = Some x -> option_list sem ⊆ tcp_sems x ->
  wp (fun _ s' => tinv B o P E s0 s' t T) (notify_times n sem s).
Proof.
  intros [Hx Hok Htm] Hp Hs. eapply wp_mono; [|by eapply (tcx_notify_times p x sem n Hx)]. intros ? s' Hx'. by split.
Qed.
Lemma tinv_notify_once {P s t T} p x sem :
  tinv B o P E s0 s t T -> pcb_at t p = Some x -> option_list sem ⊆ tcp_sems x ->
  wp (fun _ s' => tinv B o P E s0 s' t T) (notify sem s).
Proof.
  intros [Hx Hok Htm] Hp Hs. eapply wp_mono; [|by eapply (tcx_notify p x sem Hx)]. intros ? s' Hx'. by split.
Qed.

(** ** Giving up, from a state where the invariant holds *)

Lemma tinv_fail {P s t T} p x err :
  tinv B o P E s0 s t T -> alive t p x ->
  wp (fun e s' => e = err /\ exists t' T', tinv B o P E s0 s' t' T') (tcp_fail p err s).
Proof.
  intros [Hx Hok Htm] (Hp & Hs & Hc & Hl). eapply (fail_ok (t := t) (T0 := T) p x err id); try done.
  - by rewrite (upd_id p id t x).
  - apply shut_ok. by eapply tcp_each.
Qed.

Lemma tinv_detach {P s t T} p x l err :
  tinv B o P E s0 s t T -> pcb_at t p = Some x -> listener x = Some l ->
  wp (fun _ s' => exists t' T', tinv B o P E s0 s' t' T') (tcp_listener_detach_child_locked p err s).
Proof.
  intros [Hx Hok Htm] Hp Hl. eapply wp_mono; [|eapply (detach_child_ok (t := t) (T0 := T) p l x err id); try done].
  - intros ? s' (T' & H' & _). cbn beta in H'. by eexists _, T'.
  - by rewrite (upd_id p id t x).
  - apply shut_ok. by eapply tcp_each.
Qed.
End connection.

(** ** The local FIN *)

(** A change of the sequence numbers and the state. *)
Lemma pcb_ok_seq D x x' :
  pcb_ok D x -> netif x <> None ->
  (recv_storage x', recv_head x', recv_count x', accept_queue x', accept_head x', accept_count x', remote_ip x', netif x') =
  (recv_storage x, recv_head x, recv_count x, accept_queue x, accept_head x, accept_count x, remote_ip x, netif x) ->
  0 <= snd_una x' < 2 ^ 32 -> 0 <= snd_nxt x' < 2 ^ 32 -> 0 <= rcv_nxt x' < 2 ^ 32 ->
  (state x' = TCP_STATE_SYN_SENT \/ state x' = TCP_STATE_SYN_RECEIVED ->
   snd_una x' = iss x' /\ snd_nxt x' = u32 (iss x' + 1)) -> flight_ok x' ->
  state x <> TCP_STATE_CLOSED -> state x <> TCP_STATE_LISTEN -> release_pending x' = release_pending x -> pcb_ok D x'.
Proof.
  intros [H1 H2 H3 H4 H5 H6 H7 H8 H9 H10] Hn [= E1 E2 E3 E4 E5 E6 E7 E8]. intros.
  split; rewrite ?E1, ?E2, ?E3, ?E4, ?E5, ?E6, ?E7, ?E8; try done.
  intros Hr. destruct H10; congruence.
Qed.

Definition in_syn (x : tcp_pcb_t) : Prop := state x = TCP_STATE_SYN_SENT \/ state x = TCP_STATE_SYN_RECEIVED.

(** The connection [p] goes on, its TIME_WAIT timer as in [T]. *)
Definition goes_on (B o E : list nat) (s0 : net) (p : nat) (T : nat -> bool) (Q : tcp_pcb_t -> Prop) (s : net) : Prop :=
  exists t' T' x', tinv B o [] E s0 s t' T' /\ alive t' p x' /\ T' (time_wait_timer p) = T (time_wait_timer p) /\ Q x'.

Definition fin_sent (end_ : Z) (x : tcp_pcb_t) : tcp_pcb_t := x <| snd_nxt := end_ |> <| state := TCP_STATE_FIN_WAIT_1 |>.

Lemma role_refl D t p x f :
  tcp_ok D t -> pcb_at t p = Some x -> listener (f x) = listener x -> opened (f x) = opened x -> state (f x) = state x ->
  accept_list (f x) = accept_list x -> pending_count (f x) = pending_count x -> backlog (f x) = backlog x ->
  release_pending (f x) = release_pending x -> close_requested (f x) = close_requested x -> role_kept x (f x).
Proof.
  intros Hok Hp H1 H2 H3 H4 H5 H6 H7 H8. destruct (tcp_backlog _ _ Hok p x Hp) as [_ Hb].
  split; try done; [by rewrite H3|by rewrite H5, H6].
Qed.

(** A control block that is nobody's child, and no listener. *)
Lemma role_alone D t p x f :
  tcp_ok D t -> pcb_at t p = Some x -> listener x = None -> listener (f x) = None -> opened (f x) = opened x ->
  state x <> TCP_STATE_LISTEN -> state (f x) <> TCP_STATE_LISTEN ->
  accept_list (f x) = accept_list x -> pending_count (f x) = pending_count x -> backlog (f x) = backlog x ->
  role_kept x (f x).
Proof.
  intros Hok Hp H1 H2 H3 H4 H5 H6 H7 H8. destruct (tcp_backlog _ _ Hok p x Hp) as [_ Hb].
  split; try done; [congruence|by rewrite H7, H8].
Qed.

Lemma timer_apart p :
  retrans_timer p <> time_wait_timer p /\ time_wait_timer p <> release_timer p /\ retrans_timer p <> release_timer p.
Proof. unfold retrans_timer, time_wait_timer, release_timer. lia. Qed.

Lemma tick_idle {E W T k} : tick E W T k false -> k ∉ E -> T k = false.
Proof. intros H HE. destruct (H HE) as [H1 _]. destruct (T k); [by rewrite H1|done]. Qed.

(** Nothing in flight. *)
Lemma idle_retrans {B o P E s0 s t T} p x :
  tinv B o P E s0 s t T -> pcb_at t p = Some x -> outstanding x = None -> retrans_timer p ∉ E -> T (retrans_timer p) = false.
Proof.
  intros [_ _ Htm] Hp Ho HE. destruct (Htm p x Hp) as (K & _). rewrite Ho in K. by apply (tick_idle K).
Qed.

(** The timers when [p] changes, with [v] for its retransmission timer. *)
Lemma timers_flight {E W t T D} p f x v :
  tcp_ok D t -> timers_ok E W t T -> pcb_at t p = Some x -> v = bool_decide (outstanding (f x) <> None) ->
  (time_wait_timer p ∈ E \/ (state (f x) = TCP_STATE_TIME_WAIT <-> state x = TCP_STATE_TIME_WAIT)) ->
  release_pending (f x) = release_pending x -> opened (f x) = opened x ->
  timers_ok E W (upd p f t) (run_timer (retrans_timer p) v T).
Proof.
  intros Hok Htm Hp -> Hs Hr Hop. destruct (Htm p x Hp) as (_ & K2 & K3 & _). destruct (timer_apart p) as (N1 & N2 & N3).
  eapply timers_ok_upd; [by destruct (tcp_lengths _ _ Hok)|done..| | | | |].
  - intros k Hk. apply run_timer_ne. unfold timer_of in Hk. tauto.
  - intros _. rewrite run_timer_eq. tauto.
  - destruct Hs as [Hs|Hs]; [by intros []|]. eapply tick_ext; [exact K2|by apply run_timer_ne|by apply bool_decide_ext].
  - eapply tick_ext; [exact K3|by apply run_timer_ne|done].
  - intros _. unfold leaving. by rewrite Hr, Hop.
Qed.

(** The next segment of an established connection with nothing in flight: it
    is in flight and [h] records it, or the connection is as it was. *)
Lemma transmit_ok {B o E s0 s t T} p x b bs end_ h :
  made B o [] s0 s t T b bs -> tcp_ok (dom (netif_buffer s0)) t -> timers_ok E (concat []) t T ->
  alive t p x -> state x = TCP_STATE_ESTABLISHED -> outstanding x = None -> retrans_timer p ∉ E -> 0 <= end_ < 2 ^ 32 ->
  (forall z, outstanding (h z) = outstanding z /\ outstanding_end (h z) = outstanding_end z /\ tcp_sems (h z) = tcp_sems z /\
    snd_nxt (h z) = end_ /\ snd_una (h z) = snd_una z /\ rcv_nxt (h z) = rcv_nxt z /\ release_pending (h z) = release_pending z /\
    (recv_storage (h z), recv_head (h z), recv_count (h z), accept_queue (h z), accept_head (h z), accept_count (h z),
     remote_ip (h z), netif (h z)) =
    (recv_storage z, recv_head z, recv_count z, accept_queue z, accept_head z, accept_count z, remote_ip z, netif z)) ->
  (forall b end_, let st := state (h (sent b end_ x)) in st = TCP_STATE_ESTABLISHED \/ st = TCP_STATE_FIN_WAIT_1) ->
  (forall b end_, role_kept x (h (sent b end_ x))) ->
  wp (fun e s' => (e < 0 /\ goes_on B o E s0 p T (fun _ => True) s') \/
                  (e = NET_ERR_OK /\ goes_on B o E s0 p T (fun x' => state x' = state (h (sent b end_ x))) s'))
     ((err ← tcp_start_outstanding p b end_; if err <? 0 then mret err else store_tcp p h;; mret NET_ERR_OK) s).
Proof.
  intros Hm Hok Htm Ha Hst Ho HE Hend Hh Hhst Hrole. pose proof Ha as (Hp & Hs & Hnc & Hnl).
  pose proof Hm as (_ & Hx & _). pose proof (tcp_each _ _ Hok p x Hp) as Hpcb. pose proof Hpcb as [P1 P2 P3 P4 P5 P6 P7 P8 P9 P10].
  destruct (netif x) as [n|] eqn:Hn; [|by destruct P6; [left|]].
  assert (Hfl : snd_una x = snd_nxt x) by (unfold flight_ok in P9; rewrite Ho in P9; destruct P9 as [?|[?|Hf]]; congruence).
  destruct (timer_apart p) as (N1 & N2 & N3).
  eapply wp_step; [eapply (start_outstanding_ok p x n b bs end_ Hm); [done|by eapply pcb_range|done|done|by apply P5|done| |set_solver]|].
  { destruct (Htm p x Hp) as (K & _). rewrite Ho in K. by apply (tick_idle K). }
  intros e s2 [[-> Hx2]|[He Hx2]].
  - cbn [NET_ERR_OK Z.ltb Z.compare]. set (x1 := sent b end_ x). specialize (Hhst b end_). specialize (Hrole b end_). fold x1 in Hhst, Hrole |- *.
    destruct (Hh x1) as (A1 & A2 & A3 & A4 & A5 & A6 & A7 & A8).
    eapply wp_step; [eapply (store_tcp_ok Hx2 p h x1); [by apply pcb_upd_eq|done..]|].
    intros [] s3 Hx3. cbn [wp mret M_ret]. rewrite upd_upd in Hx3. right. split; [done|].
    eexists _, _, _. split; [split; [exact Hx3| |]|split_and!].
    + apply (tcp_ok_upd Hok p _ x Hp); [|exact Hrole|congruence]. unfold compose. fold x1.
      apply (pcb_ok_seq _ x); [done|congruence|exact A8|rewrite A5; apply P7|by rewrite A4|rewrite A6; apply P7| | |done|done|exact A7].
      * cbv zeta in Hhst. destruct Hhst as [-> | ->]; by intros [].
      * unfold flight_ok. rewrite A1, A2, A4. split; [done|]. cbv zeta in Hhst. unfold busy. tauto.
    + eapply (timers_flight p _ x); [done..| | |exact A7|by destruct Hrole].
      * unfold compose. fold x1. by rewrite A1.
      * right. unfold compose. fold x1. rewrite Hst. cbv zeta in Hhst. destruct Hhst as [-> | ->]; done.
    + split_and!; [by apply pcb_upd_eq|done|..]; unfold compose; fold x1; cbv zeta in Hhst; destruct Hhst as [-> | ->]; done.
    + by rewrite run_timer_ne.
    + done.
  - rewrite (proj2 (Z.ltb_lt _ _)) by done. cbn [wp mret M_ret]. left. split; [done|].
    eexists _, _, _. split; [split; [exact Hx2| |]|split_and!].
    + apply (tcp_ok_upd Hok p _ x Hp); [|by eapply role_refl|congruence].
      apply (pcb_ok_seq _ x); [done|congruence|done|apply P7|apply P7|apply P7|done| |done|done|done].
      by right; right.
    + eapply (timers_flight p _ x); [done..| |done|done]. by right.
    + split_and!; [by apply pcb_upd_eq|done..].
    + by rewrite run_timer_ne.
    + done.
Qed.

Lemma close_established_ok {B o E s0 s t T} p x :
  tinv B o [] E s0 s t T -> alive t p x -> listener x = None -> retrans_timer p ∉ E -> state x = TCP_STATE_ESTABLISHED ->
  outstanding x = None ->
  wp (fun e s' => (e < 0 /\ goes_on B o E s0 p T (fun _ => True) s') \/
                  (e = NET_ERR_OK /\ goes_on B o E s0 p T (fun x => state x = TCP_STATE_FIN_WAIT_1) s'))
     (tcp_close_established p (snd_nxt x) (rcv_nxt x) s).
Proof.
  intros Hi Ha Hl HE Hst Ho. pose proof Ha as (Hp & Hs & Hnc & Hnl). pose proof Hi as [Hx Hok Htm].
  destruct (tinv_route p x Hi Hp Hnc) as (n & Hn & Hd & Hr & Hrc). unfold tcp_close_established.
  eapply wp_step; [by eapply (make_control_ok p x)|]. intros [b|] s1 H1.
  2: { cbn [wp mret M_ret]. left. split; [done|]. exists t, T, x. by split. }
  eapply wp_mono; [|eapply (transmit_ok p x b _ _ (fin_sent (u32 (snd_nxt x + 1))) H1); try done].
  - done.
  - apply u32_range.
  - by right.
  - intros b' e'. by eapply (role_alone _ t p x (fun z => fin_sent _ (sent b' e' z))).
Qed.

Lemma start_local_fin_ok {B o E s0 s t T} p x :
  tinv B o [] E s0 s t T -> alive t p x -> listener x = None -> retrans_timer p ∉ E ->
  wp (fun e s' => (e < 0 /\ goes_on B o E s0 p T (fun _ => True) s') \/
                  (e = NET_ERR_OK /\ goes_on B o E s0 p T (fun x => state x = TCP_STATE_FIN_WAIT_1) s'))
     (tcp_start_local_fin p s).
Proof.
  intros Hi Ha Hl HE. pose proof Ha as (Hp & _). pose proof Hi as [Hx _ _].
  unfold tcp_start_local_fin. eapply wp_eq; [by eapply load_tcp_at|].
  destruct (_ || _) eqn:Hg; [left; split; [done|]; by exists t, T, x|].
  rewrite !orb_false_iff in Hg. destruct Hg as [[_ Ho%bool_decide_eq_false] Hst%negb_false_iff%bool_decide_eq_true].
  apply dec_stable in Ho. by eapply (close_established_ok p x).
Qed.

(** ** Acknowledgements *)

Lemma in_flight D x b : pcb_ok D x -> outstanding x = Some b -> outstanding_end x = snd_nxt x.
Proof. intros [] Ho. unfold flight_ok in ok_flight. rewrite Ho in ok_flight. tauto. Qed.
Lemma none_in_flight D x : pcb_ok D x -> state x <> TCP_STATE_CLOSED -> state x <> TCP_STATE_LISTEN ->
  outstanding x = None -> snd_una x = snd_nxt x.
Proof. intros [] H1 H2 Ho. unfold flight_ok in ok_flight. rewrite Ho in ok_flight. tauto. Qed.

(** The connection after the acknowledgement of its segment. *)
Definition acked (ack : Z) (x : tcp_pcb_t) : tcp_pcb_t := cleared (ack_complete ack x).

Lemma acked_state ack x :
  state (acked ack x) =
  match state x with
  | TCP_STATE_FIN_WAIT_1 => if peer_fin_seen x then TCP_STATE_TIME_WAIT else TCP_STATE_FIN_WAIT_2
  | st => st
  end.
Proof. unfold acked, ack_complete. destruct x; destruct state0, close_requested0, peer_fin_seen0; reflexivity. Qed.

Lemma acked_syn ack x : ~ in_syn x -> ~ in_syn (acked ack x).
Proof.
  unfold in_syn. rewrite acked_state. intros H1 H2. apply H1. destruct (state x); try tauto; destruct H2 as [H2|H2]; try done;
    by destruct (peer_fin_seen x).
Qed.

Lemma acked_keeps ack x :
  (recv_storage (acked ack x), recv_head (acked ack x), recv_count (acked ack x), accept_queue (acked ack x),
   accept_head (acked ack x), accept_count (acked ack x), remote_ip (acked ack x), netif (acked ack x)) =
  (recv_storage x, recv_head x, recv_count x, accept_queue x, accept_head x, accept_count x, remote_ip x, netif x) /\
  (snd_una (acked ack x) = ack /\ snd_nxt (acked ack x) = snd_nxt x /\ rcv_nxt (acked ack x) = rcv_nxt x /\
   outstanding (acked ack x) = None) /\
  (listener (acked ack x) = listener x /\ opened (acked ack x) = opened x /\ accept_list (acked ack x) = accept_list x /\
   pending_count (acked ack x) = pending_count x /\ backlog (acked ack x) = backlog x /\
   release_pending (acked ack x) = release_pending x) /\
  tcp_sems (acked ack x) = tcp_sems x /\ (close_requested x = false -> close_requested (acked ack x) = false).
Proof. unfold acked, ack_complete. destruct x; destruct state0, close_requested0, peer_fin_seen0; by split_and!. Qed.

Section acked.
Context {D : gset nat} {t : tcp_vars} {p : nat} {x : tcp_pcb_t} {b : nat}.
Context (Hok : tcp_ok D t) (Ha : alive t p x) (Hsyn : ~ in_syn x) (Ho : outstanding x = Some b).

Lemma acked_ok : tcp_ok D (upd p (acked (outstanding_end x)) t).
Proof.
  destruct Ha as (Hp & Hs & Hnc & Hnl). pose proof (tcp_each _ _ Hok p x Hp) as Hpcb.
  pose proof (in_flight _ _ _ Hpcb Ho) as Hfl. set (ack := outstanding_end x) in *.
  pose proof (acked_keeps ack x) as (K1 & (K2 & K3 & K4 & K5) & (K6 & K7 & K8 & K9 & K10 & K11) & _ & K12).
  pose proof (acked_state ack x) as Ks. unfold in_syn in Hsyn.
  assert (Hst : state (acked ack x) <> TCP_STATE_CLOSED /\ state (acked ack x) <> TCP_STATE_LISTEN /\
    state (acked ack x) <> TCP_STATE_SYN_SENT /\ state (acked ack x) <> TCP_STATE_SYN_RECEIVED).
  { rewrite Ks. destruct (state x); try done; try (by destruct Hsyn; auto). by destruct (peer_fin_seen x). }
  destruct Hst as (S1 & S2 & S3 & S4). pose proof Hpcb as [P1 P2 P3 P4 P5 P6 P7 P8 P9 P10].
  apply (tcp_ok_upd Hok p _ x Hp); [| |congruence].
  - apply (pcb_ok_seq _ x); [done|by apply P6; left|exact K1| | | | | |done|done|exact K11].
    + rewrite K2. rewrite Hfl. apply P7.
    + rewrite K3. apply P7.
    + rewrite K4. apply P7.
    + intros [?|?]; congruence.
    + unfold flight_ok. rewrite K5, K2, K3. by right; right.
  - destruct (tcp_backlog _ _ Hok p x Hp) as [_ Hb]. split; try done.
    + by rewrite K9, K10.
    + intros Hl. destruct (listener x) as [l|] eqn:El; [|done].
      destruct (tcp_child _ _ Hok p x Hp l El) as (_ & _ & Hr & Hc & Hst).
      rewrite K11, Ks, Hr, Hc, K12 by done. split; [|done]. destruct Hst as [Hst|Hst]; rewrite Hst; [|done].
      destruct Hsyn. by right.
Qed.

Lemma acked_alive : alive (upd p (acked (outstanding_end x)) t) p (acked (outstanding_end x) x).
Proof.
  destruct Ha as (Hp & Hs & Hnc & Hnl). split_and!; [by apply pcb_upd_eq|done|..]; rewrite acked_state;
    destruct (state x); try done; by destruct (peer_fin_seen x).
Qed.
End acked.

(** After an acknowledgement that was accepted, [p] may have entered TIME_WAIT,
    and its timer is not yet armed. *)
Lemma accept_ack_ok {B o s0 s t T} p x ack :
  tinv B o [] [] s0 s t T -> alive t p x -> ~ in_syn x ->
  wp (fun e s' => (e < 0 /\ exists t' T', tinv B o [] [] s0 s' t' T') \/
        (e = NET_ERR_OK /\ goes_on B o [time_wait_timer p] s0 p T
           (fun x' => ~ in_syn x' /\ (state x = TCP_STATE_TIME_WAIT -> state x' = TCP_STATE_TIME_WAIT)) s'))
     (tcp_accept_ack p ack s).
Proof.
  intros Hi Ha Hsyn. pose proof Ha as (Hp & Hs & Hnc & Hnl). pose proof Hi as [Hx Hok Htm].
  assert (Hexempt : forall s' t' T', tinv B o [] [] s0 s' t' T' -> tinv B o [] [time_wait_timer p] s0 s' t' T').
  { intros s' t' T' H. eapply tinv_timers; [exact H|]. eapply timers_ok_mono; [by destruct H|set_solver]. }
  assert (Hsame : goes_on B o [time_wait_timer p] s0 p T
    (fun x' => ~ in_syn x' /\ (state x = TCP_STATE_TIME_WAIT -> state x' = TCP_STATE_TIME_WAIT)) s).
  { exists t, T, x. split_and!; auto. }
  unfold tcp_accept_ack. eapply wp_eq; [by eapply load_tcp_at|].
  destruct (_ || _); [left; split; [done|by exists t, T]|].
  destruct (_ && _) eqn:Hg; [|by right]. apply andb_true_iff in Hg as [Ho%bool_decide_eq_true Hack%Z.eqb_eq]. subst ack.
  destruct (outstanding x) as [b|] eqn:Hb; [clear Ho|done].
  pose proof (acked_keeps (outstanding_end x) x) as (K1 & (K2 & K3 & K4 & K5) & (K6 & K7 & K8 & K9 & K10 & K11) & K13 & K12).
  eapply wp_step; [eapply (store_tcp_ok Hx p (ack_complete (outstanding_end x)) x Hp)|].
  { clear. unfold ack_complete. destruct x; destruct state0, close_requested0, peer_fin_seen0; reflexivity. }
  { clear. unfold ack_complete. destruct x; destruct state0, close_requested0, peer_fin_seen0; reflexivity. }
  intros ? s1 Hx1. cbn beta in Hx1.
  eapply wp_step; [eapply (clear_outstanding_ok p _ Hx1); by apply pcb_upd_eq|]. intros [] s2 Hx2. rewrite upd_upd in Hx2.
  change (cleared ∘ ack_complete (outstanding_end x)) with (acked (outstanding_end x)) in Hx2.
  set (f := acked (outstanding_end x)) in *. set (T2 := run_timer (retrans_timer p) false T) in *.
  destruct (timer_apart p) as (N1 & N2 & N3).
  assert (Htw : T2 (time_wait_timer p) = T (time_wait_timer p)) by (unfold T2; by rewrite run_timer_ne).
  pose proof (acked_ok Hok Ha Hsyn Hb) as Hok2. pose proof (acked_alive Ha) as Ha2. fold f in Hok2, Ha2.
  assert (Htm2 : forall E, time_wait_timer p ∈ E \/ (state (f x) = TCP_STATE_TIME_WAIT <-> state x = TCP_STATE_TIME_WAIT) ->
    timers_ok E (concat []) (upd p f t) T2).
  { intros E HE. eapply (timers_flight p f x false Hok); [eapply timers_ok_mono; [exact Htm|set_solver]|done|by rewrite K5|done|done|exact K7]. }
  destruct (_ && _) eqn:Hg.
  - apply andb_true_iff in Hg as [Hcr Hst%bool_decide_eq_true].
    assert (Hl : listener x = None).
    { destruct (listener x) as [l|] eqn:El; [|done]. destruct (tcp_child _ _ Hok p x Hp l El) as (_ & _ & _ & ? & _). congruence. }
    assert (Hi2 : tinv B o [] [] s0 s2 (upd p f t) T2).
    { split; [done..|]. apply Htm2. right. unfold f. by rewrite acked_state, Hst. }
    eapply wp_step; [eapply (start_local_fin_ok p (f x) Hi2 Ha2); [congruence|set_solver]|].
    intros e s3 [[He (t3 & T3 & x3 & Hi3 & Ha3 & _)]|[-> (t3 & T3 & x3 & Hi3 & Ha3 & E3 & Hst3)]].
    + rewrite (proj2 (Z.ltb_lt _ _)) by done. eapply wp_mono; [|by eapply (tinv_fail p x3 e Hi3)].
      intros e' s4 [-> Hi4]. by left.
    + cbn [NET_ERR_OK Z.ltb Z.compare wp mret M_ret]. right. split; [done|]. exists t3, T3, x3.
      split_and!; [by apply Hexempt|done|congruence|..].
      * unfold in_syn. rewrite Hst3. by intros [].
      * rewrite Hst. done.
  - cbn [wp mret M_ret]. right. split; [done|]. exists (upd p f t), T2, (f x).
    split_and!; [|done|done| |].
    + split; [done..|]. apply Htm2. left. set_solver.
    + by apply acked_syn.
    + intros E. unfold f. by rewrite acked_state, E.
Qed.
