(* ===== verification/OwnerTcpSeg.v ===== *)
(** * TCP input under the invariants: the segments of a connection

    One lemma per state of the connection: the segment is taken, or it is left
    to the caller with an error, and the invariant holds after it. *)

From S2P Require Import Prelude Tools IpAddr Nlist Timer Mblock Pktbuf PktbufSpec PktbufChain.
From S2P Require Import PktbufOps PktbufFrame Sys Fixq TcpState Net Netif Ether Arp NetifLink Ipv4 Udp Tcp.
From S2P Require Import TcpInv TcpQueue Owner OwnerPkt OwnerQueue OwnerOut OwnerArp OwnerResolve OwnerIp OwnerIcmp.
From S2P Require Import OwnerTcp OwnerSegment OwnerRelease OwnerTcpIn.
Import Pcb.

#[local] Hint Resolve list_subseteq_nil : core.

(** ** Data *)

(** [v] is stored behind the bytes that were received. *)
Definition with_data (v : bytes) (x : tcp_pcb_t) : tcp_pcb_t :=
  x <| recv_storage := ring_write x v |> <| recv_count := recv_count x + len v |>.

Lemma pcb_ring D x :
  pcb_ok D x -> length (recv_storage x) = Z.to_nat TCP_RECV_MAX /\ 0 <= recv_head x < TCP_RECV_MAX /\
  0 <= recv_count x <= TCP_RECV_MAX.
Proof. intros [[? _] [? ?] _ _ _ _ _ _ _ _]. done. Qed.

Lemma with_data_ok D v x : pcb_ok D x -> are_bytes v -> recv_count x + len v <= TCP_RECV_MAX -> pcb_ok D (with_data v x).
Proof.
  intros H Hv Hl. pose proof (pcb_ring _ _ H) as (R1 & R2 & R3). destruct H as [[_ H1] H2 H3 H4 H5 H6 H7 H8 H9 H10]. split; try done.
  - split; [by apply length_ring_write|by apply are_bytes_ring_write].
  - split; [done|]. cbn. lia.
Qed.

Lemma tinv_calm {B o o' P E s0 s s' t T} :
  tinv B o P E s0 s t T -> core o' s' -> calm B s s' -> tinv B o' P E s0 s' t T.
Proof. intros [] Hc Hn. split; [by eapply tcx_calm|done..]. Qed.
Lemma tinv_mono {B B' o P E s0 s t T} : B ⊆ B' -> tinv B o P E s0 s t T -> tinv B' o P E s0 s t T.
Proof. intros HB []. split; [by eapply tcx_mono|done..]. Qed.

Lemma queue_data_ok {B o P E s0 s t T b bs m} p x hs ps :
  b ∈ B -> own o s b bs m -> tinv B (b :: o) P E s0 s t T -> pcb_at t p = Some x -> slot_at t p = Some (Some p) ->
  0 <= hs -> 0 < ps -> hs + ps <= len bs ->
  wp (fun e s' => if (ps <=? TCP_MSS) && (ps <=? TCP_RECV_MAX - recv_count x)
        then e = NET_ERR_OK /\
             tinv B (b :: o) P E s0 s' (upd p (with_data (take (Z.to_nat ps) (drop (Z.to_nat hs) bs))) t) T
        else e < 0 /\ tinv B (b :: o) P E s0 s' t T)
     (tcp_queue_data p b hs ps s).
Proof.
  intros Hb Hown Hi Hp Hs Hhs Hps Hl. unfold tcp_queue_data.
  destruct (Z.ltb_spec TCP_MSS ps); [by rewrite (proj2 (Z.leb_gt _ _))|]. rewrite (proj2 (Z.leb_le _ _)) by done.
  pose proof Hi as [Hx Hok _]. eapply wp_eq; [by eapply load_tcp_at|]. cbn [andb].
  destruct (Z.ltb_spec (TCP_RECV_MAX - recv_count x) ps) as [|Hroom]; [by rewrite (proj2 (Z.leb_gt _ _))|].
  rewrite (proj2 (Z.leb_le _ _)) by done.
  assert (Hsub : [b] ⊆ B) by set_solver.
  wstep own_reset_acc as (Hown1 & Hn1 & _). wstep own_seek as (Hn2 & _ & H2).
  rewrite (proj2 (Z.ltb_ge _ _)) in H2 by lia. destruct H2 as [-> Hown2]. cbn [NET_ERR_OK Z.ltb Z.compare].
  wstep own_read as [Hn3 H3]. rewrite (proj2 (Z.ltb_ge _ _)) in H3 by lia. destruct H3 as [-> Hown3].
  set (v := take (Z.to_nat ps) (drop (Z.to_nat hs) bs)) in *. cbn [fst snd NET_ERR_OK Z.ltb Z.compare].
  assert (Hv : len v = ps) by (unfold v; rewrite length_take, length_drop; lia).
  assert (Hvb : are_bytes v) by (apply Forall_take, Forall_drop; by apply (own_bytes _ _ _ _ _ Hown)).
  assert (Hi3 : tinv B (b :: o) P E s0 s'1 t T).
  { eapply tinv_calm; [exact Hi|by destruct Hown3|]. eapply calm_mono; [exact Hsub|].
    by repeat (etransitivity; [eassumption|]). }
  eapply wp_step.
  { eapply (tinv_store p (fun x => x <| recv_storage := ring_write x v |> <| recv_count := recv_count x + ps |>) x Hi3 Hp Hs);
      try done; rewrite <- Hv.
    - apply (with_data_ok _ v x); [by eapply tcp_each|done|lia].
    - by apply (role_refl _ t p x (with_data v) Hok). }
  intros ? s4 Hi4. cbn beta in Hi4. rewrite <- Hv in Hi4. fold (with_data v) in Hi4.
  change (tinv B (b :: o) P E s0 s4 (upd p (with_data v) t) T) in Hi4.
  assert (Hend : forall s', tinv B (b :: o) P E s0 s' (upd p (with_data v) t) T ->
    wp (fun e s' => e = NET_ERR_OK /\ tinv B (b :: o) P E s0 s' (upd p (with_data v) t) T) ((mret NET_ERR_OK : M net Z) s')).
  { by intros s5 H5. }
  destruct (recv_count x =? 0); cbn [when]; [|eapply wp_eq; [reflexivity|]; by apply Hend].
  eapply wp_step; [eapply (tinv_notify_once p _ (recv_done x) Hi4); [by apply pcb_upd_eq|]|intros [] s5 Hi5; by apply Hend].
  apply (in_tcp_sems (with_data v x)).
Qed.

(** ** TIME_WAIT *)

Lemma arm_time_wait_timer_ok {B o E s0 s t T} p x :
  tinv B o [] (time_wait_timer p :: E) s0 s t T -> pcb_at t p = Some x -> state x = TCP_STATE_TIME_WAIT ->
  wp (fun e s' => e = NET_ERR_OK /\ exists T', tinv B o [] E s0 s' t T') (arm_time_wait_timer p s).
Proof.
  intros [Hx Hok Htm] Hp Hst. unfold arm_time_wait_timer.
  eapply wp_step; [by apply (timer_remove_ok Hx)|]. intros [] s1 Hx1.
  eapply wp_mono; [|eapply (timer_add_ok Hx1 (time_wait_timer p)); [apply time_wait_tcp; by eapply pcb_range|done|done|intros; apply KindTimeWait; [by eapply pcb_range|done..]]].
  intros e s2 [(-> & _ & _ & Hx2)|(_ & [Ht|Ht] & _)]; [|by rewrite run_timer_eq in Ht|set_solver].
  split; [done|]. eexists. split; [exact Hx2|done|]. destruct (timer_apart p) as (N1 & N2 & N3).
  assert (Hl : length (pcb_storage t) = TCP_PCB_MAX) by (by destruct (tcp_lengths _ _ Hok)).
  eapply (timers_ok_settle p x (time_wait_timer p)); [done| |right; by left|done|congruence| |congruence].
  - rewrite <- (upd_id p id t x) by done. destruct (Htm p x Hp) as (K1 & _ & K3 & _).
    eapply timers_ok_upd; [done..| | | | |done].
    + intros k Hk. rewrite !run_timer_ne by (unfold timer_of in Hk; tauto). done.
    + eapply tick_ext; [exact K1|by rewrite !run_timer_ne|done].
    + intros []. by left.
    + eapply tick_ext; [exact K3|by rewrite !run_timer_ne|done].
  - intros _. apply tick_on; [|by apply bool_decide_eq_true]. left. by rewrite run_timer_eq.
Qed.

Lemma arm_time_wait_ok {B o E s0 s t T} p x :
  tinv B o [] (time_wait_timer p :: E) s0 s t T -> alive t p x -> state x = TCP_STATE_TIME_WAIT ->
  wp (fun e s' => e = NET_ERR_OK /\ exists t' T', tinv B o [] E s0 s' t' T') (tcp_arm_time_wait p s).
Proof.
  intros Hi (Hp & Hs & _) Hst. pose proof Hi as [Hx Hok Htm]. unfold tcp_arm_time_wait.
  eapply wp_eq; [by eapply load_tcp_at|]. rewrite bool_decide_eq_true_2 by done. cbn [negb].
  set (f := fun x => x <| peer_fin_seen := false |>).
  eapply wp_step; [eapply (tinv_store p f x Hi Hp Hs); try done|].
  { destruct (tcp_each _ _ Hok p x Hp). by split. }
  { by eapply role_refl. }
  intros ? s1 Hi1. cbn beta in Hi1. unfold notify_all.
  eapply wp_step; [eapply (tinv_notify p (f x) _ _ Hi1); [by apply pcb_upd_eq|apply (in_tcp_sems (f x))]|].
  intros [] s2 Hi2. eapply wp_mono; [|eapply (arm_time_wait_timer_ok p (f x) Hi2); [by apply pcb_upd_eq|done]].
  intros e s3 [-> (T' & H')]. split; [done|]. by eexists _, T'.
Qed.

Lemma time_wait_flag {B o E s0 s t T} p x :
  tinv B o [] E s0 s t T -> pcb_at t p = Some x -> time_wait_timer p ∉ E ->
  T (time_wait_timer p) = bool_decide (state x = TCP_STATE_TIME_WAIT).
Proof.
  intros [_ _ Htm] Hp HE. destruct (Htm p x Hp) as (_ & K & _). destruct (K HE) as [K1 K2].
  apply bool_eq. split; [done|]. intros [?|?]%K2; [done|set_solver].
Qed.

Lemma time_wait_settle {B o s0 s t T} p x :
  tinv B o [] [time_wait_timer p] s0 s t T -> pcb_at t p = Some x ->
  T (time_wait_timer p) = bool_decide (state x = TCP_STATE_TIME_WAIT) -> tinv B o [] [] s0 s t T.
Proof.
  intros Hi Hp HT. pose proof Hi as [_ Hok Htm]. destruct (timer_apart p) as (N1 & N2 & N3). eapply tinv_timers; [exact Hi|].
  eapply (timers_ok_settle p x (time_wait_timer p)); [by destruct (tcp_lengths _ _ Hok)|done|right; by left|done|congruence| |congruence].
  intros _ _. rewrite HT. tauto.
Qed.
Lemma tinv_exempt {B o P E E' s0 s t T} : tinv B o P E s0 s t T -> E ⊆ E' -> tinv B o P E' s0 s t T.
Proof. intros Hi HE. eapply tinv_timers; [exact Hi|]. eapply timers_ok_mono; [by destruct Hi|done]. Qed.

Section segments.
Context {o : list nat} {s0 : net} {b : nat}.

(** The end of the input of a segment. *)
Definition seg_done (e : Z) (s : net) : Prop :=
  exists t T, tinv [b] (if e <? 0 then b :: o else o) [] [] s0 s t T.

Lemma seg_err {B s t T} e : tinv B (b :: o) [] [] s0 s t T -> e < 0 -> B ⊆ [b] -> seg_done e s.
Proof. intros Hi He HB. exists t, T. rewrite (proj2 (Z.ltb_lt _ _)) by done. by eapply tinv_mono. Qed.

Lemma seg_ret {B s t T} e : tinv B (b :: o) [] [] s0 s t T -> e < 0 -> B ⊆ [b] -> wp seg_done ((mret e : M net Z) s).
Proof. exact (seg_err e). Qed.

Lemma consume_ok {B s t T} : tinv B (b :: o) [] [] s0 s t T -> B ⊆ [b] -> wp seg_done (tcp_consume b s).
Proof.
  intros Hi HB. unfold tcp_consume. eapply wp_step; [apply own_free, (in_cx _ _ _ _ _ _ _ _ Hi)|].
  intros ? s' [Hc Hn]. cbn [wp mret M_ret]. exists t, T. cbn [NET_ERR_OK Z.ltb Z.compare].
  eapply tinv_calm; [by eapply tinv_mono|done|done].
Qed.

(** Giving the connection up with the error [e]. *)
Lemma seg_fail {B s t T} p x e :
  tinv B (b :: o) [] [] s0 s t T -> alive t p x -> e < 0 -> B ⊆ [b] -> wp seg_done (tcp_fail p e s).
Proof.
  intros Hi Ha He HB. eapply wp_mono; [|by eapply (tinv_fail p x e Hi)]. intros e' s' [-> (t' & T' & H')]. by eapply seg_err.
Qed.

Lemma in_time_wait_ok {s t T} p x g :
  tinv [] (b :: o) [] [] s0 s t T -> alive t p x -> state x = TCP_STATE_TIME_WAIT ->
  wp seg_done (tcp_in_time_wait p b g s).
Proof.
  intros Hi Ha Hst. pose proof Ha as (Hp & _). pose proof Hi as [Hx _ _]. unfold tcp_in_time_wait.
  eapply wp_eq; [by eapply load_tcp_at|]. destruct (_ || _); [by eapply seg_ret|].
  eapply wp_step; [eapply (accept_ack_ok p x _ Hi Ha); unfold in_syn; rewrite Hst; by intros []|].
  intros e s1 [[He (t1 & T1 & Hi1)]|[-> (t1 & T1 & x1 & Hi1 & Ha1 & HT1 & _ & Hst1)]].
  { rewrite (proj2 (Z.ltb_lt _ _)) by done. by eapply seg_ret. }
  cbn [NET_ERR_OK Z.ltb Z.compare]. specialize (Hst1 Hst). pose proof Ha1 as (Hp1 & _ & Hc1 & _).
  apply (time_wait_settle p x1) in Hi1; [|done|].
  2: { rewrite HT1, (time_wait_flag p x Hi Hp), Hst, Hst1 by set_solver. done. }
  eapply wp_step; [by eapply (tinv_send_ack p x1 Hi1)|]. intros e s2 Hi2. cbn beta in Hi2.
  destruct (Z.ltb_spec e 0); [by eapply seg_ret|].
  eapply wp_step; [eapply (arm_time_wait_timer_ok (E := []) p x1); [eapply tinv_exempt; [exact Hi2|set_solver]|done..]|].
  intros ? s3 [-> (T3 & Hi3)]. cbn [NET_ERR_OK Z.ltb Z.compare]. by eapply consume_ok.
Qed.

Definition syn_acked (g : segment) (x : tcp_pcb_t) : tcp_pcb_t :=
  x <| window := sg_window g |> <| snd_una := sg_ack g |> <| rcv_nxt := u32 (sg_seq g + 1) |>.
Definition established (x : tcp_pcb_t) : tcp_pcb_t := x <| state := TCP_STATE_ESTABLISHED |>.

(** [p] is not a child: it has opened the connection itself. *)
Lemma not_child {D t} p x : tcp_ok D t -> pcb_at t p = Some x ->
  state x <> TCP_STATE_SYN_RECEIVED -> state x <> TCP_STATE_ESTABLISHED -> listener x = None.
Proof.
  intros Hok Hp H1 H2. destruct (listener x) as [l|] eqn:El; [|done].
  destruct (tcp_child _ _ Hok p x Hp l El) as (_ & _ & _ & _ & [?|?]); congruence.
Qed.

Lemma established_timers {E W t T D} p x h :
  tcp_ok D t -> timers_ok E W t T -> pcb_at t p = Some x -> state x <> TCP_STATE_TIME_WAIT ->
  outstanding (h x) = None -> state (h x) = TCP_STATE_ESTABLISHED -> release_pending (h x) = release_pending x ->
  opened (h x) = opened x -> timers_ok E W (upd p h t) (run_timer (retrans_timer p) false T).
Proof.
  intros Hok Htm Hp Hx Ho Hst Hr Hop. eapply (timers_flight p h x false Hok Htm Hp); [by rewrite Ho| |done|done].
  right. rewrite Hst. split; congruence.
Qed.

Lemma in_syn_sent_ok {s t T} p x g :
  0 <= sg_ack g < 2 ^ 32 -> tinv [] (b :: o) [] [] s0 s t T -> alive t p x -> state x = TCP_STATE_SYN_SENT ->
  wp seg_done (tcp_in_syn_sent p b g s).
Proof.
  intros Hg Hi Ha Hst. pose proof Ha as (Hp & Hs & Hnc & Hnl). pose proof Hi as [Hx Hok Htm]. unfold tcp_in_syn_sent.
  eapply wp_eq; [by eapply load_tcp_at|].
  destruct (negb _); [by eapply seg_ret|]. destruct (_ || _) eqn:Hc; [by eapply seg_ret|].
  apply orb_false_iff in Hc as [_ Hack]. unfold tcp_state_accept_ack in Hack. rewrite bool_decide_eq_true_2 in Hack by done.
  cbn [negb orb] in Hack. destruct (Z.eqb_spec (sg_ack g) (u32 (iss x + 1))) as [Eack|]; [clear Hack|done].
  pose proof (tcp_each _ _ Hok p x Hp) as Hpcb. pose proof Hpcb as [P1 P2 P3 P4 P5 P6 P7 P8 P9 P10].
  destruct (P8 (or_introl Hst)) as [Eu En].
  assert (Hl : listener x = None) by (eapply not_child; [done..|congruence|congruence]).
  eapply wp_step; [by eapply (store_tcp_ok Hx p (syn_acked g))|]. intros [] s1 Hx1.
  eapply wp_step; [eapply (clear_outstanding_ok p _ Hx1); by apply pcb_upd_eq|]. intros [] s2 Hx2. rewrite upd_upd in Hx2.
  set (f := cleared ∘ syn_acked g) in *. assert (Hpf : pcb_at (upd p f t) p = Some (f x)) by (by apply pcb_upd_eq).
  destruct (tinv_route p x Hi Hp Hnc) as (n & Hn & Hd & Hr & Hrc).
  eapply wp_step; [by eapply (send_ack_ok p (f x) n Hx2)|]. intros e s3 Hx3. cbn beta in Hx3.
  assert (Hfin : pcb_ok (dom (netif_buffer s0)) (established (f x))).
  { apply (pcb_ok_seq _ x); [done|congruence|done|done|apply P7|apply u32_range|by intros []| |done|done|done].
    apply flight_none; [done|]. cbn. congruence. }
  destruct (Z.ltb_spec e 0).
  { eapply wp_mono; [|eapply (fail_ok (t := t) (T0 := T) p x e f Hx3 Hok Htm);
      [|exact Hp|exact Hs|exact Hnl|exact (shut_ok _ _ Hfin)|by split|done]].
    - intros e' s4 [-> (t' & T' & H')]. by eapply seg_err.
    - intros k K1 K2. by apply run_timer_ne. }
  eapply wp_step; [by eapply (store_tcp_ok Hx3 p established)|]. intros [] s4 Hx4. rewrite upd_upd in Hx4.
  assert (Hi4 : tinv [] (b :: o) [] [] s0 s4 (upd p (established ∘ f) t) (run_timer (retrans_timer p) false T)).
  { split; [done| |].
    - apply (tcp_ok_upd Hok p _ x Hp Hfin); [by eapply role_alone|congruence].
    - eapply (established_timers p x); [done..|congruence|done|done|done|done]. }
  assert (Hp4 : pcb_at (upd p (established ∘ f) t) p = Some (established (f x))) by exact (pcb_upd_eq t p (established ∘ f) x Hp).
  eapply wp_eq; [by eapply (load_tcp_at Hx4)|]. unfold notify_some, notify_all.
  eapply wp_step; [eapply (tinv_notify p _ _ _ Hi4 Hp4); apply (in_tcp_sems (established (f x)))|].
  intros [] s5 Hi5. by eapply consume_ok.
Qed.

(** ** SYN_RECEIVED *)

Definition completed (g : segment) (x : tcp_pcb_t) : tcp_pcb_t :=
  (cleared x) <| snd_una := sg_ack g |> <| window := sg_window g |> <| state := TCP_STATE_ESTABLISHED |>.
Definition queue_child (c : nat) (y : tcp_pcb_t) : tcp_pcb_t :=
  y <| accept_queue := <[Z.to_nat ((accept_head y + accept_count y) mod Z.of_nat TCP_ACCEPT_MAX) := Some c]> (accept_queue y) |>
    <| accept_count := accept_count y + 1 |>.

Lemma queue_child_ok D c y :
  pcb_ok D y -> accept_count y < Z.of_nat TCP_ACCEPT_MAX ->
  pcb_ok D (queue_child c y) /\ accept_list (queue_child c y) = accept_list y ++ [Some c].
Proof.
  intros [H1 H2 (Q1 & Q2 & Q3) H4 H5 H6 H7 H8 H9 H10] Hc. split.
  - split; try done. cbn. rewrite length_insert. unfold TCP_ACCEPT_MAX in *. split_and!; [done|lia..].
  - rewrite !accept_entries. by apply entries_push.
Qed.

(** A control block in SYN_RECEIVED or SYN_SENT has its SYN in flight. *)
Lemma syn_in_flight D x : pcb_ok D x -> in_syn x -> exists c, outstanding x = Some c.
Proof.
  intros H Hs. pose proof H as [_ _ _ _ _ _ P7 P8 _ _]. destruct (P8 Hs) as [Eu En].
  destruct (outstanding x) as [c|] eqn:Ho; [by exists c|].
  assert (Hf : snd_una x = snd_nxt x).
  { apply (none_in_flight D); [done| | |done]; destruct Hs; congruence. }
  rewrite Eu, En in Hf. destruct P7 as (P7 & _). rewrite Eu in P7. unfold u32 in Hf. zdm.
Qed.

Section syn_received.
Context {D : gset nat} {t : tcp_vars} {p : nat} {x : tcp_pcb_t} (Hok : tcp_ok D t) (Ha : alive t p x).
Context (Hst : state x = TCP_STATE_SYN_RECEIVED) (g : segment) (Hack : sg_ack g = u32 (iss x + 1)).

Lemma completed_ok : pcb_ok D (completed g x).
Proof using All.
  destruct Ha as (Hp & _). pose proof (tcp_each _ _ Hok p x Hp) as Hpcb. pose proof Hpcb as [_ _ _ _ _ P6 P7 P8 _ _].
  destruct (P8 (or_intror Hst)) as [Eu En]. apply (pcb_ok_seq _ x); [done| |done| |apply P7|apply P7|by intros []| |congruence|congruence|done].
  - apply P6. left. congruence.
  - cbn. rewrite Hack. apply u32_range.
  - apply flight_none; [done|]. cbn. congruence.
Qed.

Lemma completed_queued l y :
  listener x = Some l -> pcb_at t l = Some y -> accept_count y < Z.of_nat TCP_ACCEPT_MAX ->
  tcp_ok D (upd l (queue_child p) (upd p (completed g) t)).
Proof using All.
  intros Hl Hy Hc. pose proof Ha as (Hp & Hs & _). destruct (child_listener Hok Hp Hy Hl) as (Yo & Ys & Yl).
  destruct (queue_child_ok D p y (tcp_each _ _ Hok l y Hy) Hc) as [Hq Hql].
  destruct (tcp_child _ _ Hok p x Hp l Hl) as (_ & Xo & Xr & Xc & _).
  apply (tcp_ok_link Hok Hp Hy Yo Ys Hs); try done.
  - by right.
  - exact completed_ok.
  - by right.
  - exact (proj2 (tcp_backlog _ _ Hok p x Hp)).
  - rewrite decide_False by congruence. cbn. lia.
  - exact (proj2 (tcp_backlog _ _ Hok l y Hy)).
Qed.
End syn_received.

Lemma in_syn_received_ok {s t T} p x g :
  tinv [] (b :: o) [] [] s0 s t T -> alive t p x -> state x = TCP_STATE_SYN_RECEIVED ->
  wp seg_done (tcp_in_syn_received p b g s).
Proof.
  intros Hi Ha Hst. pose proof Ha as (Hp & Hs & Hnc & Hnl). pose proof Hi as [Hx Hok Htm]. unfold tcp_in_syn_received.
  eapply wp_eq; [by eapply load_tcp_at|]. destruct (negb _); [by eapply seg_ret|]. destruct (_ && _).
  { destruct (syn_in_flight _ x (tcp_each _ _ Hok p x Hp)) as (c & Hc); [by right|].
    destruct (tinv_route p x Hi Hp Hnc) as (n & Hn & Hd & Hr & Hrc).
    eapply wp_step; [by eapply (output_owned_ok p x c n Hx)|]. intros e s1 Hx1. cbn beta in Hx1.
    assert (Hi1 : tinv [] (b :: o) [] [] s0 s1 t T) by (by split).
    destruct (Z.ltb_spec e 0); [by eapply seg_fail|by eapply consume_ok]. }
  destruct (_ || _) eqn:Hc; [by eapply seg_ret|]. apply orb_false_iff in Hc as [_ Hack%negb_false_iff%Z.eqb_eq].
  eapply wp_step; [by eapply (clear_outstanding_ok p _ Hx)|]. intros [] s1 Hx1.
  eapply wp_step; [eapply (store_tcp_ok Hx1 p); [by apply pcb_upd_eq|done..]|]. intros [] s2 Hx2. rewrite upd_upd in Hx2.
  rewrite (upd_ext p _ (completed g) t x Hp) in Hx2 by done.
  pose proof (pcb_upd_eq t p (completed g) x Hp) as Hp2. eapply wp_eq; [by eapply (load_tcp_at Hx2)|].
  change (listener (completed g x)) with (listener x). set (T2 := run_timer (retrans_timer p) false T) in *.
  pose proof (completed_ok Hok Ha Hst g Hack) as Hpcb.
  assert (Hfail : wp seg_done (tcp_fail p NET_ERR_STATE s2)).
  { eapply wp_mono; [|eapply (fail_ok (t := t) (T0 := T) p x NET_ERR_STATE (completed g) Hx2 Hok Htm);
      [|exact Hp|exact Hs|exact Hnl|exact (shut_ok _ _ Hpcb)|by split|done]].
    - intros e' s4 [-> (t' & T' & H')]. by eapply seg_err.
    - intros k K1 K2. by apply run_timer_ne. }
  destruct (listener x) as [l|] eqn:Hl; [|exact Hfail].
  destruct (tcp_child _ _ Hok p x Hp l Hl) as ((y & Hy & _) & _). pose proof (child_ne Hok Hp Hy Hl) as Hne.
  assert (Hy2 : pcb_at (upd p (completed g) t) l = Some y) by (by rewrite pcb_upd_ne).
  eapply wp_eq; [by eapply (load_tcp_at Hx2)|]. destruct (_ || _) eqn:Hfull; [exact Hfail|].
  apply orb_false_iff in Hfull as [_ Hroom%Z.leb_gt].
  eapply wp_step; [by eapply (store_tcp_ok Hx2 l)|]. intros [] s3 Hx3.
  rewrite (upd_ext l _ (queue_child p) _ y Hy2) in Hx3 by done.
  assert (Hi3 : tinv [] (b :: o) [] [] s0 s3 (upd l (queue_child p) (upd p (completed g) t)) T2).
  { split; [done|by eapply completed_queued|].
    eapply (timers_ok_same l _ y); [|eapply (established_timers p x); try done; congruence|done..|by right].
    unfold upd. cbn. rewrite length_alter. by destruct (tcp_lengths _ _ Hok). }
  eapply wp_step; [eapply (tinv_notify_once l _ (accept_done y) Hi3); [by apply pcb_upd_eq|apply (in_tcp_sems (queue_child p y))]|].
  intros [] s4 Hi4. by eapply consume_ok.
Qed.

(** ** Data and FIN of an open connection *)

(** A change that the invariant of the control block does not see, but for
    [rcv_nxt]. *)
Lemma pcb_ok_field D x x' :
  pcb_ok D x ->
  (recv_storage x', recv_head x', recv_count x', accept_queue x', accept_head x', accept_count x', remote_ip x', netif x') =
  (recv_storage x, recv_head x, recv_count x, accept_queue x, accept_head x, accept_count x, remote_ip x, netif x) ->
  state x' = state x -> outstanding x' = outstanding x -> outstanding_end x' = outstanding_end x ->
  snd_una x' = snd_una x -> snd_nxt x' = snd_nxt x -> iss x' = iss x -> 0 <= rcv_nxt x' < 2 ^ 32 ->
  release_pending x' = release_pending x -> pcb_ok D x'.
Proof.
  intros [H1 H2 H3 H4 H5 H6 H7 H8 H9 H10] [= E1 E2 E3 E4 E5 E6 E7 E8] F1 F2 F3 F4 F5 F6 Hr Hrp.
  split; unfold flight_ok; rewrite ?E1, ?E2, ?E3, ?E4, ?E5, ?E6, ?E7, ?E8, ?F1, ?F2, ?F3, ?F4, ?F5, ?F6, ?Hrp; try done.
  destruct H7 as (? & ? & _). done.
Qed.

Definition fin_seen (x : tcp_pcb_t) : tcp_pcb_t := x <| peer_fin_seen := true |>.
Definition closing (x : tcp_pcb_t) : tcp_pcb_t := x <| close_requested := true |>.
Definition waiting (x : tcp_pcb_t) : tcp_pcb_t := x <| state := TCP_STATE_TIME_WAIT |> <| peer_fin_seen := false |>.

(** An open connection that is nobody's child enters TIME_WAIT. *)
Lemma enter_time_wait_ok {B o' s t T} p x :
  tinv B o' [] [] s0 s t T -> alive t p x -> listener x = None -> state x = TCP_STATE_FIN_WAIT_2 ->
  wp (fun _ s' => tinv B o' [] [time_wait_timer p] s0 s' (upd p waiting t) T) (store_tcp p waiting s).
Proof.
  intros [Hx Hok Htm] (Hp & Hs & Hnc & Hnl) Hl Hst. eapply wp_mono; [|by eapply (store_tcp_ok Hx p waiting x)].
  intros ? s' Hx'. cbn beta in Hx'. pose proof (tcp_each _ _ Hok p x Hp) as Hpcb. pose proof Hpcb as [_ _ _ _ _ P6 P7 _ P9 _].
  split; [done| |].
  - apply (tcp_ok_upd Hok p _ x Hp); [|by eapply role_alone|congruence].
    apply (pcb_ok_seq _ x); [done|by apply P6; left|done|apply P7..|by intros []| |done|done|done].
    assert (Ho : outstanding x = None) by (apply flight_idle; [done|]; rewrite Hst; unfold busy; naive_solver).
    apply flight_none; [done|]. unfold flight_ok in P9. rewrite Ho in P9. destruct P9 as [?|[?|?]]; done.
  - destruct (Htm p x Hp) as (K1 & _ & K3 & _). destruct (timer_apart p) as (N1 & N2 & N3).
    eapply (timers_ok_upd p _ x (T := T)); [by destruct (tcp_lengths _ _ Hok)|eapply timers_ok_mono; [done|set_solver]|done..| | | |done].
    + intros _. apply K1. set_solver.
    + intros []. by left.
    + intros _. apply K3. set_solver.
Qed.

Lemma in_fin_ok {B o' s t T} p x :
  tinv B o' [] [] s0 s t T -> alive t p x ->
  wp (fun _ s' => exists t' T', tinv B o' [] [] s0 s' t' T') (tcp_in_fin p (state x) s).
Proof.
  intros Hi Ha. pose proof Ha as (Hp & Hs & Hnc & Hnl). unfold tcp_in_fin.
  eapply wp_step; [by eapply (tinv_send_ack p x Hi)|]. intros e s1 Hi1. cbn beta in Hi1. clear Hi s.
  assert (Hfail : forall e s2 t2 T2 x2, tinv B o' [] [] s0 s2 t2 T2 -> alive t2 p x2 ->
    wp (fun _ s' => exists t' T', tinv B o' [] [] s0 s' t' T') (tcp_fail p e s2)).
  { intros e' s2 t2 T2 x2 Hi2 Ha2. eapply wp_mono; [|by eapply (tinv_fail p x2 e' Hi2)]. by intros e2 s3 [_ H3]. }
  destruct (Z.ltb_spec e 0); [by eapply Hfail|]. pose proof Hi1 as [Hx1 Hok Htm].
  pose proof (tcp_each _ _ Hok p x Hp) as Hpcb. pose proof Hpcb as [_ _ _ _ _ P6 P7 _ P9 _].
  assert (Hseen : wp (fun _ s' => tinv B o' [] [] s0 s' (upd p fin_seen t) T) (store_tcp p fin_seen s1)).
  { eapply (tinv_store p fin_seen x Hi1 Hp Hs); try done; [|by eapply role_refl].
    by apply (pcb_ok_field _ x); [..|apply P7|]. }
  assert (Hsame : exists t' T', tinv B o' [] [] s0 s1 t' T') by (by exists t, T).
  destruct (state x) eqn:Hst; try exact Hsame.
  - (* ESTABLISHED *)
    eapply wp_eq; [by eapply load_tcp_at|]. destruct (listener x) as [l|] eqn:Hl.
    { rewrite bool_decide_eq_true_2 by done. eapply wp_step; [by eapply (tinv_detach p x l _ Hi1)|].
      intros ? s2 H2. exact H2. }
    rewrite bool_decide_eq_false_2 by (by intros []). eapply wp_step; [exact Hseen|]. intros ? s2 Hi2. cbn beta in Hi2.
    pose proof (pcb_upd_eq t p fin_seen x Hp) as Hp2. pose proof Hi2 as [Hx2 Hok2 _].
    case_bool_decide as Ho.
    + eapply wp_step; [eapply (tinv_store p closing _ Hi2 Hp2 Hs); try done|].
      { by apply (pcb_ok_field _ x); [..|apply P7|]. }
      { apply (role_alone _ _ p _ closing Hok2 Hp2); try done; change (state x <> TCP_STATE_LISTEN); congruence. }
      intros ? s3 Hi3. cbn [wp mret M_ret]. eexists _, T. exact Hi3.
    + assert (Ha2 : alive (upd p fin_seen t) p (fin_seen x)).
      { split_and!; [done..| |]; change (state (fin_seen x)) with (state x); congruence. }
      eapply wp_step; [eapply (start_local_fin_ok p _ Hi2 Ha2); [done|set_solver]|].
      intros e3 s3 [[He (t3 & T3 & x3 & Hi3 & Ha3 & _)]|[-> (t3 & T3 & x3 & Hi3 & _)]].
      * rewrite (proj2 (Z.ltb_lt _ _)) by done. by eapply Hfail.
      * cbn [NET_ERR_OK Z.ltb Z.compare wp mret M_ret]. by exists t3, T3.
  - (* FIN_WAIT_1 *)
    eapply wp_step; [exact Hseen|]. intros ? s2 Hi2. cbn [wp mret M_ret]. eexists _, T. exact Hi2.
  - (* FIN_WAIT_2 *)
    assert (Hl : listener x = None) by (eapply not_child; [done..|congruence|congruence]).
    eapply wp_step; [eapply (enter_time_wait_ok p x Hi1); [|done|done]; by split_and!; [..|congruence|congruence]|].
    intros ? s2 Hi2. cbn beta in Hi2.
    eapply wp_step; [eapply (arm_time_wait_ok (E := []) p (waiting x) Hi2); [|done]|].
    { split_and!; [by apply pcb_upd_eq|done..]. }
    intros ? s3 [-> H3]. exact H3.
Qed.

Definition advance (k : Z) (x : tcp_pcb_t) : tcp_pcb_t := x <| rcv_nxt := u32 (rcv_nxt x + k) |>.

Lemma tinv_advance {B o' s t T} p x k :
  tinv B o' [] [] s0 s t T -> alive t p x ->
  wp (fun _ s' => tinv B o' [] [] s0 s' (upd p (advance k) t) T) (store_tcp p (advance k) s).
Proof.
  intros Hi (Hp & Hs & Hnc & Hnl). pose proof Hi as [_ Hok _].
  eapply (tinv_store p (advance k) x Hi Hp Hs); try done; [|by eapply role_refl].
  apply (pcb_ok_field _ x); try done; [by eapply tcp_each|apply u32_range].
Qed.

(** A change to the fields of a connection that keeps its state. *)
Lemma alive_upd t p x f : alive t p x -> state (f x) = state x -> alive (upd p f t) p (f x).
Proof. intros (Hp & Hs & Hnc & Hnl) E. split_and!; [by apply pcb_upd_eq|done|congruence..]. Qed.

Section data.
Context {bs : bytes} {m : Z} (Hown : own o s0 b bs m).

(** The data of the segment, when it is the next. *)
Lemma in_order_ok {s t T} p x g :
  tinv [] (b :: o) [] [] s0 s t T -> alive t p x -> 0 <= sg_header_size g -> sg_header_size g + sg_payload_size g <= len bs ->
  wp (fun e s' => exists t' x', tinv [b] (b :: o) [] [] s0 s' t' T /\ alive t' p x' /\ state x' = state x)
    ((if (0 <? sg_payload_size g) && (s32 (sg_seq g - rcv_nxt x) =? 0) then
        err ← tcp_queue_data p b (sg_header_size g) (sg_payload_size g);
        if err <? 0 then mret err
        else store_tcp p (advance (sg_payload_size g));; mret NET_ERR_OK
      else mret NET_ERR_OK) s).
Proof using All.
  intros Hi Ha Hhs Hps. pose proof Ha as (Hp & Hs & _). assert (Hi1 : tinv [b] (b :: o) [] [] s0 s t T) by (by apply (tinv_mono (list_subseteq_nil _))).
  destruct (_ && _) eqn:Hg; [|by exists t, x]. apply andb_true_iff in Hg as [Hpos%Z.ltb_lt _].
  assert (Hown1 : own o s b bs m).
  { destruct Hi as [[Hc _ [_ Hsp] _ _ _ _] _ _]. eapply own_spared; [done..|set_solver|done]. }
  eapply wp_step; [eapply (queue_data_ok p x); [by left|done..]|].
  intros e s1 H1. cbn beta in H1. destruct (_ && _); destruct H1 as [He Hi2]; [subst e|].
  2: { rewrite (proj2 (Z.ltb_lt _ _)) by done. by exists t, x. }
  - cbn [NET_ERR_OK Z.ltb Z.compare]. match type of Hi2 with tinv _ _ _ _ _ _ (upd p ?f t) _ => set (h := f) in Hi2 end.
    assert (Ha2 : alive (upd p h t) p (h x)) by (by apply alive_upd).
    eapply wp_step; [by eapply (tinv_advance p _ _ Hi2)|]. intros ? s2 Hi3. cbn [wp mret M_ret].
    eexists _, _. split; [exact Hi3|]. split; [by apply alive_upd|done].
Qed.

Lemma in_data_ok {s t T} p x g :
  tinv [] (b :: o) [] [] s0 s t T -> alive t p x -> 0 <= sg_header_size g -> sg_header_size g + sg_payload_size g <= len bs ->
  wp seg_done (tcp_in_data p b g s).
Proof using All.
  intros Hi Ha Hhs Hps. pose proof Ha as (Hp & Hs & _). unfold tcp_in_data. pose proof Hi as [Hx _ _].
  eapply wp_eq; [by eapply load_tcp_at|]. eapply wp_step; [by eapply (in_order_ok p x g Hi)|].
  intros e s1 (t1 & x1 & Hi1 & Ha1 & Hst1). clear Hi Hx. destruct (Z.ltb_spec e 0); [by eapply seg_ret|].
  pose proof Ha1 as (Hp1 & Hs1 & Hnc1 & _).
  eapply (wp_step (fun _ s' => tinv [b] (b :: o) [] [] s0 s' t1 T)).
  { destruct (0 <? _); [by eapply (tinv_send_ack p x1)|done]. }
  intros e2 s2 Hi2. destruct (Z.ltb_spec e2 0); [by eapply seg_ret|].
  eapply (wp_step (fun _ s' => exists t' T', tinv [b] (b :: o) [] [] s0 s' t' T')).
  { destruct (has_flag g TCP_FLAG_FIN); [|by exists t1, T]. pose proof Hi2 as [Hx2 _ _].
    eapply wp_eq; [by eapply (load_tcp_at Hx2)|]. destruct (_ =? _).
    - eapply wp_step; [by eapply (tinv_advance p x1 1 Hi2)|]. intros ? s3 Hi3. cbn beta in Hi3.
      by apply (in_fin_ok p (advance 1 x1) Hi3), alive_upd.
    - destruct (_ =? 0); [|by exists t1, T]. eapply wp_mono; [|by eapply (tinv_send_ack p x1 Hi2)].
      intros ? s3 Hi3. by exists t1, T. }
  intros e3 s3 (t3 & T3 & Hi3). destruct (Z.ltb_spec e3 0); [by eapply seg_ret|by eapply consume_ok].
Qed.

Lemma in_connected_ok {s t T} p x g :
  tinv [] (b :: o) [] [] s0 s t T -> alive t p x -> ~ in_syn x -> state x <> TCP_STATE_TIME_WAIT ->
  0 <= sg_header_size g -> sg_header_size g + sg_payload_size g <= len bs ->
  wp seg_done (tcp_in_connected p b g s).
Proof using All.
  intros Hi Ha Hsyn Hntw Hhs Hps. unfold tcp_in_connected. destruct (_ || _); [by eapply seg_ret|].
  eapply wp_step; [by eapply (accept_ack_ok p x _ Hi Ha)|].
  intros e s1 [[He (t1 & T1 & Hi1)]|[-> (t1 & T1 & x1 & Hi1 & Ha1 & HT1 & _ & _)]].
  { rewrite (proj2 (Z.ltb_lt _ _)) by done. by eapply seg_ret. }
  cbn [NET_ERR_OK Z.ltb Z.compare]. pose proof Ha1 as (Hp1 & Hs1 & Hnc1 & Hnl1). pose proof Ha as (Hp & _).
  pose proof Hi1 as [Hx1 _ _]. eapply wp_eq; [by eapply (load_tcp_at Hx1)|]. case_bool_decide as Htw.
  - eapply wp_step; [by eapply (arm_time_wait_ok p x1 Hi1)|]. intros ? s2 [-> (t2 & T2 & Hi2)].
    cbn [NET_ERR_OK Z.ltb Z.compare]. by eapply consume_ok.
  - apply (time_wait_settle p x1) in Hi1; [|done|].
    2: { rewrite HT1, (time_wait_flag p x Hi Hp) by set_solver. by rewrite !bool_decide_eq_false_2. }
    pose proof Hi1 as [_ Hok1 _]. set (f := fun x => x <| window := sg_window g |>).
    eapply wp_step; [eapply (tinv_store p f x1 Hi1 Hp1 Hs1); try done; [|by eapply role_refl]|].
    { destruct (tcp_each _ _ Hok1 p x1 Hp1). by split. }
    intros ? s2 Hi2. eapply (in_data_ok p (f x1) g Hi2); [by apply alive_upd|done..].
Qed.
End data.
End segments.
