(* ===== verification/OwnerTcpOpen.v ===== *)
(** * New TCP control blocks under the invariants

    Allocation, and the connection that a SYN to a listener opens. *)

From S2P Require Import Prelude Tools IpAddr Nlist Timer Mblock Pktbuf PktbufSpec PktbufChain.
From S2P Require Import PktbufOps PktbufFrame Sys Fixq TcpState Net Netif Ether Arp NetifLink Ipv4 Udp Tcp.
From S2P Require Import TcpInv TcpQueue Owner OwnerPkt OwnerQueue OwnerOut OwnerArp OwnerResolve OwnerIp OwnerIcmp.
From S2P Require Import OwnerTcp OwnerSegment OwnerRelease OwnerTcpIn OwnerTcpSeg.
Import Pcb.

#[local] Hint Resolve list_subseteq_nil : core.

(** ** Allocation *)

Definition zeroed (_ : tcp_pcb_t) : tcp_pcb_t := zero_pcb.
(** A control block after [tcp_alloc_locked]. *)
Definition opened_pcb (attached : bool) (c r d : sys_sem_t) : tcp_pcb_t :=
  zero_pcb <| connect_done := c |> <| recv_done := r |> <| close_done := d |> <| accept_done := SYS_SEM_INVALID |>
    <| opened := true |> <| state := TCP_STATE_CLOSED |> <| error := NET_ERR_OK |> <| socket_attached := attached |>.
Definition occupy (p : nat) (z : tcp_pcb_t) (t : tcp_vars) : tcp_vars :=
  set_slot p (Some p) (set_detached p None (upd p (fun _ => z) t)).

Lemma opened_ok D a c r d : pcb_ok D (opened_pcb a c r d).
Proof. destruct (zero_pcb_ok D) as [H1 H2 H3 H4 H5 H6 H7 H8 H9 H10]. by split. Qed.

Section alloc.
Context {B o : list nat} {s0 : net} {t : tcp_vars} {T : nat -> bool} {p : nat} {x : tcp_pcb_t}.
Abbreviation D := (dom (netif_buffer s0)).
Context (Hok : tcp_ok D t) (Htm : timers_ok [] [] t T) (Hp : pcb_at t p = Some x) (Hs : slot_at t p = Some None).

Lemma free_unused : unused x.
Proof using Hok Hp Hs. by eapply tcp_unused. Qed.

Lemma zeroed_inv s : tcx B o [] s0 s (upd p zeroed t) T -> tinv B o [] [] s0 s (upd p zeroed t) T.
Proof using All.
  intros Hx. destruct free_unused as (_ & U2 & U3 & U4 & U5 & _). split; [done| |].
  - apply (tcp_ok_plain Hok Hp); try done; [eapply plain_unreferenced; [done..|congruence]|apply zero_pcb_ok|congruence].
  - eapply (timers_ok_same p _ x); [by destruct (tcp_lengths _ _ Hok)|done|done|by rewrite U3|by rewrite U2|by rewrite U5|by right].
Qed.

Lemma alloc_fail_ok s z :
  tcx B o [] s0 s (upd p (fun _ => z) t) T -> outstanding z = None -> accept_done z = None ->
  wp (fun r s' => r = (NET_ERR_MEM, None) /\ tinv B o [] [] s0 s' (upd p zeroed t) T) (tcp_alloc_fail p s).
Proof using All.
  intros Hx Ho Hacc. unfold tcp_alloc_fail. pose proof (pcb_upd_eq t p (fun _ => z) x Hp) as Hz.
  eapply wp_eq; [by eapply load_tcp_at|].
  destruct (sem_free_run s (close_done z)) as (y1 & H1 & K1).
  destruct (sem_free_run (s <| sys := y1 |>) (recv_done z)) as (y2 & H2 & K2).
  destruct (sem_free_run (s <| sys := y2 |>) (connect_done z)) as (y3 & H3 & K3).
  change (sys (s <| sys := ?y |>)) with y in K2, K3. do 3 (eapply wp_eq; [eassumption|]).
  eapply wp_eq; [exact (store_sys_run p zeroed z y3 Hx Hz)|]. cbn [wp mret M_ret]. split; [done|]. apply zeroed_inv.
  rewrite <- (upd_ext p (zeroed ∘ (fun _ => z)) zeroed t x Hp eq_refl), <- upd_upd.
  eapply tcx_drop_sems; [exact Hx|exact Hz|by rewrite Ho|done|].
  intros k Hk. unfold tcp_sems in Hk. rewrite Hacc in Hk. cbn [option_list] in Hk. rewrite app_nil_r, !not_elem_of_app in Hk.
  destruct Hk as (N1 & N2 & N3). by rewrite (K3 k), (K2 k), (K1 k).
Qed.

(** A semaphore is made and stored with [f]. *)
Lemma alloc_sem_ok s z (f : sys_sem_t -> tcp_pcb_t -> tcp_pcb_t) A (m : sys_sem_t -> M net A) Q :
  tcx B o [] s0 s (upd p (fun _ => z) t) T ->
  (forall k, outstanding (f k z) = outstanding z /\ forall i, i ∈ tcp_sems (f k z) -> i ∈ tcp_sems z \/ k = Some i) ->
  (forall k s', tcx B o [] s0 s' (upd p (fun _ => f k z) t) T -> wp Q (m k s')) ->
  wp Q ((k ← zoom sys_lens (sys_sem_create 0); store_tcp p (f k);; m k) s).
Proof using Hp.
  intros Hx Hf Hm. eapply wp_step; [by apply (sem_create_ok Hx)|]. intros k s1 (Hx1 & _ & Hk).
  pose proof (pcb_upd_eq t p (fun _ => z) x Hp) as Hz. destruct (Hf k) as [Ho Hsem].
  eapply wp_step; [eapply (store_tcp_sems Hx1 p (f k) z Hz Ho)|].
  - intros i [Hi|Hi]%Hsem; [by left|]. right. subst k. by destruct Hk.
  - intros ? s2 Hx2. cbn beta in Hx2. rewrite upd_upd in Hx2. by apply Hm.
Qed.

Lemma occupy_ok z :
  pcb_ok D z -> opened z = true -> state z = TCP_STATE_CLOSED -> listener z = None -> accept_list z = [] ->
  pending_count z = 0 -> backlog z = 0 -> tcp_ok D (occupy p z t).
Proof using Hok Hp Hs.
  intros Hz H1 H2 H3 H4 H5 H6. destruct free_unused as (_ & U2 & U3 & U4 & U5 & _).
  apply (tcp_ok_place Hok Hp (fun _ => z) (Some p) None); try done.
  - eapply plain_unreferenced; [done..|congruence].
  - rewrite H6. done.
  - by right.
  - by left.
  - congruence.
Qed.

Lemma occupy_timers z :
  outstanding z = None -> state z = TCP_STATE_CLOSED -> release_pending z = false -> timers_ok [] [] (occupy p z t) T.
Proof using Hok Htm Hp Hs.
  intros H1 H2 H3. destruct free_unused as (_ & U2 & U3 & U4 & U5 & _).
  eapply (timers_ok_storage (t := upd p (fun _ => z) t)); [|done].
  eapply (timers_ok_same p _ x); [by destruct (tcp_lengths _ _ Hok)|done|done|by rewrite U3|by rewrite U2, H2|by rewrite U5|by right].
Qed.
End alloc.

Lemma alloc_locked_ok {B o s0 s t T} attached :
  tinv B o [] [] s0 s t T ->
  wp (fun r s' => (r.1 < 0 /\ exists t', tinv B o [] [] s0 s' t' T) \/
        exists p x c d e, r = (NET_ERR_OK, Some p) /\ slot_at t p = Some None /\ pcb_at t p = Some x /\
          tinv B o [] [] s0 s' (occupy p (opened_pcb attached c d e) t) T)
     (tcp_alloc_locked attached s).
Proof.
  intros Hi. pose proof Hi as [Hx Hok Htm]. unfold tcp_alloc_locked. eapply wp_eq; [by apply (gets_tcp_at Hx)|].
  pose proof (find_slot_spec None 0 (tcp_pcbs t)) as Hf. cbn in Hf.
  destruct (Z.ltb_spec (find_slot_loop None 0 (tcp_pcbs t)) 0); [left; split; [done|by exists t]|].
  destruct Hf as (p & E & Hs); [done|]. rewrite E, Z.add_0_l, Nat2Z.id. clear E.
  destruct (tcp_pcb_in Hok p) as [x Hp].
  { destruct (tcp_lengths _ _ Hok) as (_ & <- & _). by eapply lookup_lt_Some. }
  pose proof (tcp_unused _ _ Hok p x Hp Hs) as (U1 & U2 & U3 & U4 & U5 & U6 & U7 & U8 & U9).
  eapply wp_step; [eapply (store_tcp_ok Hx p zeroed x Hp); [by rewrite U3|unfold tcp_sems; by rewrite U6, U7, U8, U9]|].
  intros ? s1 Hx1. cbn beta in Hx1. destruct (Htm p x Hp) as (K1 & K2 & _). rewrite U3 in K1. rewrite U2 in K2.
  pose proof (pcb_range Hok p x Hp) as Hrange.
  eapply wp_step; [eapply (zero_timer_ok Hx1); [apply (tick_idle K1); set_solver|set_solver|exists p; tauto]|]. intros [] s2 Hx2.
  eapply wp_step; [eapply (zero_timer_ok Hx2); [apply (tick_idle K2); set_solver|set_solver|exists p; tauto]|]. intros [] s3 Hx3. clear K1 K2.
  assert (Hfail : forall s z, tcx B o [] s0 s (upd p (fun _ => z) t) T -> outstanding z = None -> accept_done z = None ->
    wp (fun r s' => (r.1 < 0 /\ exists t', tinv B o [] [] s0 s' t' T) \/
        exists p x c d e, r = (NET_ERR_OK, Some p) /\ slot_at t p = Some None /\ pcb_at t p = Some x /\
          tinv B o [] [] s0 s' (occupy p (opened_pcb attached c d e) t) T) (tcp_alloc_fail p s)).
  { intros s4 z Hx4 Ho Ha. eapply wp_mono; [|by eapply (alloc_fail_ok Hok Htm Hp Hs s4 z)].
    intros r s5 [-> H5]. left. split; [done|by eexists]. }
  eapply (alloc_sem_ok Hp s3 zero_pcb (fun k x => x <| connect_done := k |>)); [exact Hx3|intros k; split; [done|intros i; destruct k; set_solver]|].
  intros c s4 Hx4. cbn beta. case_bool_decide; [by eapply Hfail|].
  eapply (alloc_sem_ok Hp s4 _ (fun k x => x <| recv_done := k |>)); [exact Hx4|intros k; split; [done|intros i; destruct k; set_solver]|].
  intros r s5 Hx5. cbn beta. case_bool_decide; [by eapply Hfail|].
  eapply (alloc_sem_ok Hp s5 _ (fun k x => x <| close_done := k |>)); [exact Hx5|intros k; split; [done|intros i; destruct k; set_solver]|].
  intros d s6 Hx6. cbn beta. case_bool_decide; [by eapply Hfail|].
  eapply wp_step; [eapply (store_tcp_ok Hx6 p); [by apply pcb_upd_eq|done..]|]. intros ? s7 Hx7. cbn beta in Hx7. rewrite upd_upd in Hx7.
  eapply wp_step; [by eapply (set_tcp_ok Hx7)|]. intros ? s8 Hx8. cbn [wp mret M_ret].
  right. exists p, x, c, r, d. split_and!; [done..|]. split.
  - exact Hx8.
  - apply (occupy_ok Hok Hp Hs); [apply opened_ok|done..].
  - by apply (occupy_timers Hok Htm Hp Hs).
Qed.

(** ** A SYN to a listener *)

Lemma tcp_ok_iss D t v : tcp_ok D t -> 0 <= v < 2 ^ 32 -> tcp_ok D (t <| next_iss := v |>).
Proof. intros [H1 H2 H3 H4 H5 H6 H7 H8 H9 H10 [H11 _]] Hv. by split. Qed.

(** What a control block that was just opened has. *)
Record newborn (D : gset nat) (z : tcp_pcb_t) : Prop := {
  new_ok : pcb_ok D z;
  new_opened : opened z = true;
  new_closed : state z = TCP_STATE_CLOSED;
  new_unacked : outstanding z = None;
  new_listener : listener z = None;
  new_release : release_pending z = false;
  new_close : close_requested z = false;
  new_pending : pending_count z = 0 /\ backlog z = 0;
  new_retry : retry_count z = 0 }.
Lemma opened_newborn D a c r d : newborn D (opened_pcb a c r d).
Proof. split; [apply opened_ok|done..]. Qed.

Definition more_pending (y : tcp_pcb_t) : tcp_pcb_t := y <| pending_count := pending_count y + 1 |>.

(** The fields of the child, in two steps as the code sets them. *)
Definition child_addr (l n : nat) (y : tcp_pcb_t) (src src_port iss_ : Z) (x : tcp_pcb_t) : tcp_pcb_t :=
  x <| listener := Some l |> <| passive := true |> <| netif := Some n |> <| local_ip := local_ip y |> <| remote_ip := src |>
    <| local_port := local_port y |> <| remote_port := src_port |> <| iss := iss_ |>.
Definition child_syn (seq window_ : Z) (x : tcp_pcb_t) : tcp_pcb_t :=
  x <| snd_una := iss x |> <| snd_nxt := u32 (iss x + 1) |> <| rcv_nxt := u32 (seq + 1) |> <| window := window_ |>
    <| state := TCP_STATE_SYN_RECEIVED |>.

Section passive.
Context {s0 : net} {t : tcp_vars} {T : nat -> bool} {c l n : nat} {z y : tcp_pcb_t}.
Abbreviation D := (dom (netif_buffer s0)).
Context (Hok : tcp_ok D t) (Htm : timers_ok [] [] t T) (Hz : pcb_at t c = Some z) (Hy : pcb_at t l = Some y).
Context (Hs : slot_at t c = Some (Some c)) (Hd : n ∈ D).
Context (Hyo : opened y = true) (Hys : state y = TCP_STATE_LISTEN) (Hpend : pending_count y < backlog y).
Context (Hzero : newborn D z).
Context (src sport seq win iss_ : Z) (Hsrc : 0 <= src < 2 ^ 32) (Hiss : 0 <= iss_ < 2 ^ 32).

Let born (x : tcp_pcb_t) : tcp_pcb_t := child_syn seq win (child_addr l n y src sport iss_ x).

Lemma born_ok b : pcb_ok D (sent b (snd_nxt (born z)) (born z)).
Proof using Hzero Hd Hsrc Hiss.
  destruct (new_ok _ _ Hzero) as [H1 H2 H3 _ _ _ _ _ _ _].
  split; [exact H1|exact H2|exact H3|exact Hsrc| |done| |by intros _|split; [done|right; by left]| ].
  3: { change (release_pending z = true -> TCP_STATE_SYN_RECEIVED = TCP_STATE_CLOSED \/ TCP_STATE_SYN_RECEIVED = TCP_STATE_LISTEN).
       rewrite (new_release _ _ Hzero). done. }
  - intros m E. injection E as <-. exact Hd.
  - split; [exact Hiss|]. split; apply u32_range.
Qed.

Lemma passive_ne : c <> l.
Proof using All.
  intros ->. rewrite Hz in Hy. injection Hy as <-. pose proof (new_closed _ _ Hzero). congruence.
Qed.

(** With its SYN in flight, the child is linked. *)
Lemma linked_ok b : tcp_ok D (upd l more_pending (upd c (sent b (snd_nxt (born z)) ∘ born) t)).
Proof using All.
  destruct Hzero as [Z1 Z2 Z3 Z4 Z5 Z6 Z7 [Z8 Z9] Z10].
  destruct (tcp_backlog _ _ Hok l y Hy) as [_ Hyb].
  assert (Hg : pcb_ok D (more_pending y)) by (destruct (tcp_each _ _ Hok l y Hy); by split).
  assert (Hyl : listener y = None) by (eapply not_child; [done..|congruence|congruence]).
  assert (Hfrom : listener z = None /\ state z <> TCP_STATE_LISTEN) by (split; congruence).
  apply (tcp_ok_link Hok Hz Hy Hyo Hys Hs (or_introl Hfrom)); [apply born_ok|exact Hg|exact Z2|done|exact Z6|exact Z7|by left|done|done| |
    exact Hyo|exact Hyl|exact Hys| | |].
  - change (pending_count z <= backlog z <= Z.of_nat TCP_ACCEPT_MAX). rewrite Z8, Z9. done.
  - rewrite decide_False by done. by rewrite app_nil_r.
  - rewrite Z5, decide_True by done. done.
  - cbn. lia.
Qed.

Lemma linked_timers b :
  timers_ok [] [] (upd l more_pending (upd c (sent b (snd_nxt (born z)) ∘ born) t)) (run_timer (retrans_timer c) true T).
Proof using All.
  destruct Hzero as [Z1 Z2 Z3 Z4 Z5 Z6 Z7 _ Z10]. pose proof passive_ne as Hne.
  eapply (timers_ok_same l _ y); [|eapply (timers_flight c _ z true Hok Htm Hz); [done| |done|done]|by rewrite pcb_upd_ne|done..|by right].
  - unfold upd. cbn. rewrite length_alter. by destruct (tcp_lengths _ _ Hok).
  - right. rewrite Z3. done.
Qed.

(** The child could not be started: it is detached again. *)
Lemma abandon_ok {B o} s x' T' err :
  tcx B o [] s0 s (upd l more_pending (upd c (fun _ => x') t)) T' -> (forall k, ~ timer_of c k -> T' k = T k) ->
  shut x' = shut (born z) -> still_child (born z) x' ->
  wp (fun _ s' => exists t' T', tinv B o [] [] s0 s' t' T') (tcp_listener_detach_child_locked c err s).
Proof using All.
  intros Hx HT Hsh Hst. set (f := sent 0 (snd_nxt (born z)) ∘ born). pose proof passive_ne as Hne.
  set (t0 := upd l more_pending (upd c f t)).
  assert (E : upd l more_pending (upd c (fun _ => x') t) = upd c (fun _ => x') t0).
  { unfold t0. rewrite (upd_comm c l) by done. rewrite upd_upd. done. }
  rewrite E in Hx. eapply wp_mono; [|eapply (detach_child_ok (T0 := run_timer (retrans_timer c) true T) c l (f z) err _ Hx)].
  - intros ? s' (T2 & H2 & _). cbn beta in H2. by eexists _, T2.
  - apply linked_ok.
  - apply linked_timers.
  - intros k Hk. rewrite run_timer_ne by (unfold timer_of in Hk; tauto). by apply HT.
  - unfold t0. rewrite pcb_upd_ne by done. by apply pcb_upd_eq.
  - done.
  - rewrite Hsh. assert (E0 : shut (born z) = shut (f z)); [|rewrite E0; exact (shut_ok _ _ (born_ok 0))].
    pose proof (new_retry _ _ Hzero) as Hr. unfold f, born. clear -Hr. destruct z. cbn in Hr. by subst.
  - destruct Hst as [A1 A2 A3 A4 A5]. split; [rewrite A1|rewrite A2|rewrite A3|rewrite A4|rewrite A5];
    unfold f, born; clear; by destruct z.
Qed.
End passive.

Lemma still_sent b end_ x : still_child x (cleared (sent b end_ x)).
Proof. by split. Qed.

Lemma occupy_other p z t q : q <> p -> pcb_at (occupy p z t) q = pcb_at t q.
Proof. intros Hne. change (pcb_at (upd p (fun _ => z) t) q = pcb_at t q). by apply pcb_upd_ne. Qed.
Lemma occupy_at {D} p z t x : tcp_ok D t -> pcb_at t p = Some x -> pcb_at (occupy p z t) p = Some z /\ slot_at (occupy p z t) p = Some (Some p).
Proof.
  intros Hok Hp. split; [exact (pcb_upd_eq t p (fun _ => z) x Hp)|]. cbn. apply list_lookup_insert_eq.
  destruct (tcp_lengths _ _ Hok) as (L1 & -> & _). rewrite <- L1. by eapply lookup_lt_Some.
Qed.

Lemma passive_syn_ok {B o s0 s t T} l n y src sport seq win :
  tinv B o [] [] s0 s t T -> pcb_at t l = Some y -> slot_at t l = Some (Some l) -> opened y = true ->
  state y = TCP_STATE_LISTEN -> n ∈ dom (netif_buffer s0) -> 0 <= src < 2 ^ 32 ->
  wp (fun _ s' => exists t' T', tinv B o [] [] s0 s' t' T') (tcp_passive_syn l n src sport seq win s).
Proof.
  intros Hi Hy Hsl Hyo Hys Hd Hsrc. pose proof Hi as [Hx Hok Htm]. unfold tcp_passive_syn.
  eapply wp_eq; [by eapply load_tcp_at|]. destruct (_ || _) eqn:Hfull; [by exists t, T|].
  apply orb_false_iff in Hfull as [_ Hpend%Z.leb_gt].
  eapply wp_step; [by eapply (alloc_locked_ok false Hi)|].
  intros r s1 [[He (t1 & Hi1)]|(c & x & a & d & e & -> & Hsc & Hxc & Hi1)].
  { rewrite (proj2 (Z.ltb_lt _ _)) by done. by exists t1, T. }
  cbn [fst snd NET_ERR_OK Z.ltb Z.compare deref]. eapply wp_eq; [reflexivity|].
  assert (Hne : l <> c) by congruence. destruct (occupy_at c (opened_pcb false a d e) t x Hok Hxc) as [Hz Hs].
  pose proof (occupy_other c (opened_pcb false a d e) t l Hne) as Hy1. rewrite Hy in Hy1.
  pose proof (opened_newborn (dom (netif_buffer s0)) false a d e) as Hnew.
  revert Hi1 Hz Hs Hy1 Hnew. generalize (opened_pcb false a d e) as z. intros z. generalize (occupy c z t) as t1.
  clear Hi Hy Hsl Hx Hok Htm Hsc Hxc. intros t1 [Hx1 Hok1 Htm1] Hz Hs Hy Hnew.
  eapply wp_eq; [by eapply (load_tcp_at Hx1)|]. eapply wp_eq; [by apply (gets_tcp_at Hx1)|].
  pose proof (tcp_counters _ _ Hok1) as [_ Hiss]. set (iss_ := next_iss t1) in *.
  eapply wp_step; [eapply (store_tcp_ok Hx1 c (child_addr l n y src sport iss_) z Hz); done|]. intros ? s2 Hx2. cbn beta in Hx2.
  eapply wp_step; [by eapply (set_tcp_ok Hx2)|]. intros ? s3 Hx3. cbn beta in Hx3.
  set (t2 := t1 <| next_iss := u32 (iss_ + 64000) |>).
  change (tcx B o [] s0 s3 (upd c (child_addr l n y src sport iss_) t2) T) in Hx3.
  assert (Hok2 : tcp_ok (dom (netif_buffer s0)) t2) by (apply tcp_ok_iss; [done|apply u32_range]).
  assert (Htm2 : timers_ok [] [] t2 T) by done.
  assert (Hz2 : pcb_at t2 c = Some z) by done. assert (Hy2 : pcb_at t2 l = Some y) by done.
  assert (Hs2 : slot_at t2 c = Some (Some c)) by done. clearbody t2. clear Hx1 Hx2 Hok1 Htm1 Hz Hs Hy.
  eapply wp_step; [eapply (store_tcp_ok Hx3 c (child_syn seq win)); [by apply pcb_upd_eq|done..]|].
  intros ? s4 Hx4. cbn beta in Hx4. rewrite upd_upd in Hx4.
  set (born := child_syn seq win ∘ child_addr l n y src sport iss_) in *.
  assert (Hy4 : pcb_at (upd c born t2) l = Some y) by (by rewrite pcb_upd_ne).
  eapply wp_step; [by eapply (store_tcp_ok Hx4 l more_pending)|]. intros ? s5 Hx5. cbn beta in Hx5.
  assert (Hc5 : pcb_at (upd l more_pending (upd c born t2)) c = Some (born z)).
  { rewrite pcb_upd_ne by done. exact (pcb_upd_eq t2 c born z Hz2). }
  eapply wp_eq; [by eapply (load_tcp_at Hx5)|].
  assert (Hrc : 0 <= recv_count (born z) <= TCP_RECV_MAX).
  { exact (proj2 (ok_recv _ _ (new_ok _ _ Hnew))). }
  pose proof (new_unacked _ _ Hnew) as Hout.
  assert (Habandon : forall s x' T' err, tcx B o [] s0 s (upd l more_pending (upd c (fun _ => x') t2)) T' ->
    (forall k, ~ timer_of c k -> T' k = T k) -> shut x' = shut (born z) -> still_child (born z) x' ->
    wp (fun _ s' => exists t' T', tinv B o [] [] s0 s' t' T') ((tcp_listener_detach_child_locked c err;; mret err) s)).
  { intros s6 x' T' err Hx6 HT Hsh Hst.
    eapply wp_step; [eapply (abandon_ok Hok2 Htm2 Hz2 Hy2 Hs2 Hd Hyo Hys Hpend Hnew src sport seq win iss_ Hsrc Hiss); done|].
    intros ? s7 H7. exact H7. }
  eapply wp_step; [by eapply (make_control_ok c (born z))|]. intros [b|] s6 H6.
  2: { eapply (Habandon _ (born z) T); [|done|done|by split].
       rewrite (upd_ext c _ born t2 z Hz2) by done. exact H6. }
  pose proof H6 as (_ & Hx6 & _). eapply wp_eq; [by eapply (load_tcp_at Hx6)|].
  eapply wp_step; [eapply (start_outstanding_ok c (born z) n b _ (snd_nxt (born z)) H6 Hc5);
    [by eapply pcb_range|exact Hout|done|done|done| |set_solver]|].
  { destruct (Htm2 c z Hz2) as (K1 & _). rewrite Hout in K1. apply (tick_idle K1). set_solver. }
  intros e' s7 [[-> Hx7]|[He Hx7]].
  - cbn [NET_ERR_OK Z.ltb Z.compare wp mret M_ret]. rewrite (upd_comm c l), upd_upd in Hx7 by done.
    eexists _, _. split; [exact Hx7| |].
    + apply (linked_ok Hok2 Htm2 Hz2 Hy2 Hs2 Hd Hyo Hys Hpend Hnew src sport seq win iss_ Hsrc Hiss).
    + apply (linked_timers Hok2 Htm2 Hz2 Hy2 Hs2 Hd Hyo Hys Hpend Hnew src sport seq win iss_ Hsrc Hiss).
  - rewrite (proj2 (Z.ltb_lt _ _)) by done. rewrite (upd_comm c l), upd_upd in Hx7 by done.
    eapply (Habandon _ (cleared (sent b (snd_nxt (born z)) (born z)))).
    + erewrite (upd_ext c (fun _ => _)); [exact Hx7|exact Hz2|done].
    + intros k Hk. apply run_timer_ne. unfold timer_of in Hk. tauto.
    + pose proof (new_retry _ _ Hnew) as Hr. unfold born. clear -Hr. destruct z. cbn in Hr. by subst.
    + apply still_sent.
Qed.
