(* ===== verification/OwnerTcpInput.v ===== *)
(** * TCP input under the invariants

    The parser of a segment, the search for its connection or listener, and
    [tcp_in]: whatever the segment contains, the packet is taken or left to the
    caller, and the invariants of the stack and of TCP hold afterwards. *)

From S2P Require Import Prelude Tools IpAddr Nlist Timer Mblock Pktbuf PktbufSpec PktbufChain.
From S2P Require Import PktbufOps PktbufFrame Sys Fixq TcpState Net Netif Ether Arp NetifLink Ipv4 Udp Tcp.
From S2P Require Import TcpInv TcpQueue Owner OwnerPkt OwnerQueue OwnerOut OwnerArp OwnerResolve OwnerIp OwnerIcmp.
From S2P Require Import OwnerTcp OwnerSegment OwnerRelease OwnerTcpIn OwnerTcpSeg OwnerTcpOpen.
Import Pcb.

#[local] Opaque checksum16.
#[local] Hint Resolve list_subseteq_nil : core.

(** ** Finding the control block *)

Lemma find_pcb_loop_at {B o P s0 s t T} ok l :
  tcx B o P s0 s t T -> (forall p, Some p ∈ l -> exists x, pcb_at t p = Some x) ->
  exists r, find_pcb_loop ok l s = Ret r s /\
    match r with
    | Some p => Some p ∈ l /\ exists x, pcb_at t p = Some x /\ ok x = true
    | None => forall p x, Some p ∈ l -> pcb_at t p = Some x -> ok x = false
    end.
Proof.
  intros Hx. induction l as [|[q|] l IH]; intros Hl; cbn [find_pcb_loop].
  - exists None. split; [done|]. set_solver.
  - destruct (Hl q) as [y Hy]; [by left|]. destruct IH as (r & Hr & Hspec); [intros p Hp; apply Hl; by right|].
    destruct (ok y) eqn:Eok.
    + exists (Some q). split; [mstep by (by eapply load_tcp_at); by rewrite Eok|]. split; [by left|by exists y].
    + exists r. split; [mstep by (by eapply load_tcp_at); by rewrite Eok|]. destruct r as [p|].
      * destruct Hspec as [? ?]. split; [by right|done].
      * intros p x [[= ->]|Hin]%elem_of_cons Hp; [congruence|by eapply Hspec].
  - destruct IH as (r & Hr & Hspec); [intros p Hp; apply Hl; by right|]. exists r. split; [done|]. destruct r as [p|].
    + destruct Hspec. split; [by right|done].
    + intros p x [?|?]%elem_of_cons; [done|by apply Hspec].
Qed.

Lemma find_pcb_at {B o P s0 s t T D} ok :
  tcx B o P s0 s t T -> tcp_ok D t ->
  exists r, find_pcb_loop ok (tcp_pcbs t) s = Ret r s /\
    match r with
    | Some p => exists x, pcb_at t p = Some x /\ slot_at t p = Some (Some p) /\ ok x = true
    | None => forall p x, slot_at t p = Some (Some p) -> pcb_at t p = Some x -> ok x = false
    end.
Proof.
  intros Hx Hok. destruct (find_pcb_loop_at ok (tcp_pcbs t) Hx) as (r & Hr & Hspec).
  { intros p (i & Hi)%list_elem_of_lookup. pose proof (tcp_own_slot _ _ Hok _ _ Hi) as ->.
    destruct (slot_pcb Hok i Hi) as (x & Hp & _). eauto. }
  exists r. split; [done|]. destruct r as [p|].
  - destruct Hspec as [(i & Hi)%list_elem_of_lookup (x & Hp & Eok)]. pose proof (tcp_own_slot _ _ Hok _ _ Hi) as ->. by exists x.
  - intros p x Hs Hp. apply (Hspec p); [by eapply list_elem_of_lookup_2|done].
Qed.

(** ** The segment goes to its connection *)

Lemma dispatch_ok {o s b bs m t T} n src dest sport dport g :
  own o s b bs m -> tinv [] (b :: o) [] [] s s t T -> n ∈ dom (netif_buffer s) -> 0 <= src < 2 ^ 32 ->
  0 <= sg_ack g < 2 ^ 32 -> 0 <= sg_header_size g -> sg_header_size g + sg_payload_size g <= len bs ->
  wp (fun e s' => seg_done (o := o) (s0 := s) (b := b) e s') (tcp_dispatch n src dest sport dport b g s).
Proof.
  intros Hown Hi Hd Hsrc Hack Hhs Hps. pose proof Hi as [Hx Hok Htm]. unfold tcp_dispatch.
  destruct (find_pcb_at (fun x => opened x && bool_decide (netif x = Some n) && (local_port x =? dport) &&
    (remote_port x =? sport) && (local_ip x =? dest) && (remote_ip x =? src)) Hx Hok) as (r & Hr & Hspec).
  eapply wp_eq; [unfold tcp_find_pcb; mstep by (by apply (gets_tcp_at Hx)); exact Hr|].
  destruct r as [p|].
  - destruct Hspec as (x & Hp & Hs & _). eapply wp_eq; [by eapply load_tcp_at|].
    assert (Hal : state x <> TCP_STATE_CLOSED -> state x <> TCP_STATE_LISTEN -> alive t p x) by (by intros; split_and!).
    destruct (state x) eqn:Hst; try (by eapply seg_ret).
    + eapply (in_syn_sent_ok p x); [done..|by apply Hal|done].
    + eapply (in_syn_received_ok p x); [done|by apply Hal|done].
    + eapply (in_connected_ok Hown p x); [done|by apply Hal| |congruence|done..]. unfold in_syn. rewrite Hst. by intros [].
    + eapply (in_connected_ok Hown p x); [done|by apply Hal| |congruence|done..]. unfold in_syn. rewrite Hst. by intros [].
    + eapply (in_connected_ok Hown p x); [done|by apply Hal| |congruence|done..]. unfold in_syn. rewrite Hst. by intros [].
    + eapply (in_time_wait_ok p x); [done|by apply Hal|done].
  - clear Hr Hspec.
    destruct (find_pcb_at (fun x => opened x && negb (release_pending x) && bool_decide (state x = TCP_STATE_LISTEN) &&
      bool_decide (netif x = Some n) && (local_port x =? dport) && (local_ip x =? dest)) Hx Hok) as (r & Hr & Hspec).
    eapply wp_eq; [unfold tcp_find_listener; mstep by (by apply (gets_tcp_at Hx)); exact Hr|].
    destruct r as [l|]; [|by eapply seg_ret]. destruct Hspec as (y & Hy & Hsl & Hg). rewrite !andb_true_iff in Hg.
    destruct Hg as (((((Hyo & _) & Hys%bool_decide_eq_true) & _) & _) & _).
    destruct (_ || _); [by eapply seg_ret|].
    eapply wp_step; [by eapply (passive_syn_ok l n y)|]. intros e s1 (t1 & T1 & Hi1).
    destruct (Z.leb_spec 0 e); cbn [when].
    + eapply wp_step; [apply own_free, (in_cx _ _ _ _ _ _ _ _ Hi1)|]. intros ? s2 [Hc2 Hn2]. cbn [wp mret M_ret].
      exists t1, T1. rewrite (proj2 (Z.ltb_ge _ _)) by done.
      eapply tinv_calm; [by apply (tinv_mono (list_subseteq_nil _) Hi1)|done|done].
    + eapply wp_eq; [reflexivity|]. by eapply seg_ret.
Qed.

(** ** The format of a segment *)

Definition TCP_FLAGS_KNOWN : Z := 0x1b.

Definition tcp_parse (src dest : Z) (bs : bytes) : option (Z * Z * segment) :=
  let off := byte_at bs 12 in
  let fl := byte_at bs 13 in
  let header_size := Z.shiftr off 4 * 4 in
  if (TCP_HEADER_SIZE <=? len bs) && (TCP_HEADER_SIZE <=? header_size) && (header_size <=? len bs) &&
     (Z.land off 0x0f =? 0) && (Z.land fl (Z.lnot TCP_FLAGS_KNOWN) =? 0) &&
     (checksum16 0 (take (Z.to_nat (u16 (len bs))) bs) (tcp_sum src dest (u16 (len bs))) true =? 0)
  then Some (x_ntohs (load16 bs 0), x_ntohs (load16 bs 2),
             Segment (x_ntohl (load32 bs 4)) (x_ntohl (load32 bs 8)) fl (x_ntohs (load16 bs 14))
                     header_size (len bs - header_size))
  else None.

Lemma own_load32 {o s b bs n i d m} (Ho : own o s b bs n) (Hf : front (pkt s) b i d m) off :
  0 <= off -> off + 4 <= m -> hdr_load32 (i, d) off s = Ret (load32 bs (Z.to_nat off)) s.
Proof.
  intros. unfold hdr_load32. mstep by (by apply (own_hdr_load Ho Hf off 4); lia).
  unfold load32, byte_at. rewrite !nth_segment by (cbn; lia). by rewrite Nat.add_0_r, !Nat.add_succ_r, Nat.add_0_r.
Qed.

Lemma x_ntohl_range v : 0 <= x_ntohl v < 2 ^ 32.
Proof. unfold x_ntohl. rewrite swap_u32_eq by apply u32_range. pose proof (u32_range v). zdm. Qed.

Lemma u16_le z : 0 <= z -> 0 <= u16 z <= z.
Proof. intros Hz. unfold u16. pose proof (Z.mod_le z (2 ^ 16)). pose proof (Z.mod_pos_bound z (2 ^ 16)). lia. Qed.

Lemma tcp_in_frame {o s b bs m} n src dest (Q : Z -> net -> Prop) :
  own o s b bs m ->
  (forall e s', e < 0 -> tcp_parse src dest bs = None -> core (b :: o) s' -> calm [b] s s' -> Q e s') ->
  (forall sport dport g s' m', tcp_parse src dest bs = Some (sport, dport, g) -> own o s' b bs m' -> calm [b] s s' ->
     wp Q (tcp_dispatch n src dest sport dport b g s')) ->
  wp Q (tcp_in (Some n) (Some src) (Some dest) (Some b) s).
Proof.
  intros Hown Herr Hok. unfold tcp_in, tcp_parse in *. eapply wp_eq; [by eapply own_total|].
  destruct (Z.leb_spec TCP_HEADER_SIZE (len bs)) as [Hl|Hl]; cbn [andb] in Herr, Hok.
  2: { rewrite (proj2 (Z.ltb_lt _ _)) by done. eapply wp_eq; [reflexivity|]. apply Herr; [done..|by destruct Hown|done]. }
  rewrite (proj2 (Z.ltb_ge _ _)) by done. wstep own_set_cont as [Hn1 H1]; [done|].
  rewrite (proj2 (Z.leb_le _ _)) in H1 by done. change (TCP_HEADER_SIZE <=? PKTBUF_BLK_SIZE) with true in H1.
  destruct H1 as (-> & Hown1 & bi & d & Hf1). cbn [NET_ERR_OK Z.ltb Z.compare].
  eapply wp_eq; [by eapply own_data|]. unfold TCP_HEADER_SIZE in *.
  set (off := byte_at bs 12) in *. set (hs := Z.shiftr off 4 * 4) in *.
  assert (Hcheck : tcp_header_check (Some (bi, d)) (len bs) s' =
    Ret (if (20 <=? hs) && (hs <=? len bs) then if Z.land off 0x0f =? 0 then NET_ERR_OK else NET_ERR_FORMAT else NET_ERR_SIZE) s').
  { unfold tcp_header_check, TCP_HEADER_SIZE. rewrite (proj2 (Z.ltb_ge _ _)) by done.
    mstep by (by eapply (own_load8 Hown1 Hf1)). change (byte_at bs (Z.to_nat th_data_offset)) with off. fold hs.
    rewrite (Z.leb_antisym hs 20), (Z.leb_antisym (len bs) hs).
    destruct (hs <? 20), (len bs <? hs); cbn [orb negb andb]; try done. by destruct (_ =? 0). }
  eapply wp_eq; [exact Hcheck|]. clear Hcheck.
  destruct (20 <=? hs), (hs <=? len bs); cbn [andb] in Herr, Hok |- *.
  2-4: apply Herr; [done..|by destruct Hown1|done].
  destruct (Z.land off 0x0f =? 0); cbn [andb] in Herr, Hok |- *; [|apply Herr; [done..|by destruct Hown1|done]].
  cbn [NET_ERR_OK Z.ltb Z.compare deref]. eapply wp_eq; [reflexivity|].
  eapply wp_eq; [by eapply (own_load8 Hown1 Hf1)|]. eapply wp_eq; [by eapply (own_load8 Hown1 Hf1)|].
  change (byte_at bs (Z.to_nat th_data_offset)) with off. change (Z.to_nat th_flags) with 13%nat. fold hs.
  change (Z.lor (Z.lor TCP_FLAG_FIN TCP_FLAG_SYN) (Z.lor TCP_FLAG_PSH TCP_FLAG_ACK)) with TCP_FLAGS_KNOWN.
  destruct (Z.land _ _ =? 0); cbn [andb negb] in Herr, Hok |- *; [|apply Herr; [done..|by destruct Hown1|done]].
  pose proof (u16_le (len bs)) as Hu. wstep tcp_checksum_ok as (-> & (m2 & Hown2) & Hn2 & Hsh2 & _); [lia|].
  pose proof (own_front_shape Hown2 Hf1 Hsh2) as Hf2. destruct (_ =? 0); cbn [negb].
  2: { apply Herr; [done..|by destruct Hown2|by transitivity s']. }
  eapply wp_eq; [by eapply (own_load16 Hown2 Hf2)|]. eapply wp_eq; [by eapply (own_load16 Hown2 Hf2)|].
  eapply wp_eq; [by eapply (own_load32 Hown2 Hf2)|]. eapply wp_eq; [by eapply (own_load32 Hown2 Hf2)|].
  eapply wp_eq; [by eapply (own_load16 Hown2 Hf2)|].
  by eapply Hok; [|exact Hown2|transitivity s'].
Qed.

Lemma tcp_parse_range src dest bs sport dport g :
  tcp_parse src dest bs = Some (sport, dport, g) ->
  0 <= sg_ack g < 2 ^ 32 /\ 20 <= sg_header_size g /\ sg_header_size g + sg_payload_size g = len bs /\ 0 <= sg_payload_size g.
Proof.
  unfold tcp_parse. destruct (_ && _) eqn:Hc; [|done]. intros [= _ _ <-]. cbn [sg_ack sg_header_size sg_payload_size].
  rewrite !andb_true_iff in Hc. destruct Hc as (((((_ & H1%Z.leb_le) & H2%Z.leb_le) & _) & _) & _).
  unfold TCP_HEADER_SIZE in H1. split; [apply x_ntohl_range|lia].
Qed.

(** ** The invariant of TCP between two calls *)

(** [P] are the timers whose callbacks have not run yet, [E] those that are
    not in step. *)
Record tcp_inv_at (P : list (list nat)) (E : list nat) (s : net) : Prop := {
  inv_tcp : tcp_ok (dom (netif_buffer s)) (tcp s);
  inv_wf : timers_good (timers s);
  inv_pending : pending_timers (timers s) = P;
  inv_timers : timers_ok E (concat P) (tcp s) (armed (timers s)) }.
Abbreviation tcp_inv := (tcp_inv_at [] []).

Lemma tinv_begin {o P E s} B :
  core o s -> arp_ok [] s -> tcp_inv_at P E s -> tinv B o P E s s (tcp s) (armed (timers s)).
Proof. intros Hc Ha []. by split. Qed.
Lemma tinv_start {o s} B : core o s -> arp_ok [] s -> tcp_inv s -> tinv B o [] [] s s (tcp s) (armed (timers s)).
Proof. apply tinv_begin. Qed.

Lemma tinv_finish {B o P E s0 s t T} :
  tinv B o P E s0 s t T -> core o s /\ arp_ok [] s /\ tended B s0 s /\ tcp_inv_at P E s.
Proof.
  intros [Hx Hok Htm]. pose proof (tcx_dom Hx) as Ed. destruct Hx as [Hc Ha Hf Ht [Hw _] Har Hp]. split_and!; [done..|].
  split; rewrite ?Ed, ?Ht; try done. by eapply timers_ok_ext.
Qed.
Lemma tinv_end {B o s0 s t T} :
  tinv B o [] [] s0 s t T -> core o s /\ arp_ok [] s /\ tended B s0 s /\ tcp_inv s.
Proof. apply tinv_finish. Qed.

Lemma tcp_inv_same {P E s s'} :
  tcp_inv_at P E s -> tcp s' = tcp s -> timers s' = timers s -> dom (netif_buffer s') = dom (netif_buffer s) ->
  tcp_inv_at P E s'.
Proof. intros [] E1 E2 E3. by split; rewrite ?E1, ?E2, ?E3. Qed.

Lemma tcp_inv_calm {B P E s s'} : tcp_inv_at P E s -> calm B s s' -> tcp_inv_at P E s'.
Proof. intros Hi [_ Hs]. eapply tcp_inv_same; [exact Hi|..]; rewrite Hs; by destruct s. Qed.

Lemma tcp_in_ok o s b bs m n src dest :
  own o s b bs m -> arp_ok [] s -> tcp_inv s -> n ∈ dom (netif_buffer s) -> 0 <= src < 2 ^ 32 ->
  wp (fun r s' => core (if r <? 0 then b :: o else o) s' /\ arp_ok [] s' /\ tended [b] s s' /\ tcp_inv s')
     (tcp_in (Some n) (Some src) (Some dest) (Some b) s).
Proof.
  intros Hown Ha Hi Hd Hsrc. apply (tcp_in_frame n src dest _ Hown).
  - intros e s' He _ Hc Hn. rewrite (proj2 (Z.ltb_lt _ _)) by done.
    split_and!; [done|eapply arp_ok_near; [by apply calm_near|done]|by apply calm_tended|by eapply tcp_inv_calm].
  - intros sport dport g s' m' Hp Hown' Hn. destruct (tcp_parse_range _ _ _ _ _ _ Hp) as (R1 & R2 & R3 & R4).
    assert (Hc' : core (b :: o) s') by (by destruct Hown').
    assert (Ha' : arp_ok [] s') by (eapply arp_ok_near; [by apply calm_near|done]).
    assert (Hi' : tcp_inv s') by (by eapply tcp_inv_calm).
    eapply wp_mono; [|eapply (dispatch_ok n src dest sport dport g Hown' (tinv_start [] Hc' Ha' Hi'))].
    + intros r s2 (t2 & T2 & H2). destruct (tinv_end H2) as (C1 & C2 & C3 & C4). split_and!; try done.
      etransitivity; [by apply calm_tended|done].
    + by rewrite (calm_netif _ _ _ Hn).
    + done.
    + done.
    + lia.
    + lia.
Qed.
