(* ===== verification/OwnerUdp.v ===== *)
(** * UDP under the ownership invariant

    [udp_ok]: every open control block has a receive queue whose items are the
    used records of its slot, each once; no two open control blocks are bound
    to the same port. *)

From S2P Require Import Prelude Tools IpAddr Nlist Timer Mblock Pktbuf PktbufSpec PktbufChain.
From S2P Require Import PktbufOps PktbufFrame Sys Fixq Net Netif Ether Arp NetifLink Ipv4 Udp.
From S2P Require Import Owner OwnerPkt OwnerQueue OwnerOut OwnerArp OwnerResolve OwnerIp OwnerIcmp.

(** The proofs treat the checksum as a function of the bytes. *)
#[local] Opaque checksum16.

(** ** Receive queues *)

#[global] Instance recv_queue_in p : QueueIn sys_lens (recv_ref p).
Proof.
  split; try done.
  - intros q s [x Hx]. cbn in *. rewrite lookup_alter_eq. by destruct (udp_pcbs s !! p).
  - intros q q' s. cbn. unfold upd_field. cbn. rewrite alter_alter. done.
  - by intros [].
Qed.

(** The state after the queue of [p] changed. *)
Definition with_recv (s : net) (p : nat) (q : fixq_t udp_item) (y : sys_state) : net :=
  q_set (recv_ref p) q (lset sys_lens y s).

Section step.
Context {s : net} {p : nat} {x : udp_pcb_t} {q' : fixq_t udp_item} {y' : sys_state} {l' : list udp_item}.
Context (Hx : udp_pcbs s !! p = Some x) (Hp : Some p ∈ pcbs s).
Context (Hq' : fixq_ok y' q' (q_sems (recv_queue x)) l').
Context (Hk : sems_kept (q_sems (recv_queue x)) (sys s) y').
Let s' := with_recv s p q' y'.

Lemma with_recv_pcbs : udp_pcbs s' = <[p := x <| recv_queue := q' |>]> (udp_pcbs s).
Proof using Hx.
  unfold s', with_recv. cbn. apply map_eq. intros k. destruct (decide (k = p)) as [->|].
  - by rewrite lookup_alter_eq, lookup_insert_eq, Hx.
  - by rewrite lookup_alter_ne, lookup_insert_ne.
Qed.

Lemma with_recv_sems u : sems_at s' u = sems_at s u.
Proof using Hx Hq'.
  destruct (fixq_ok_queue _ _ _ _ Hq') as (_ & Es & _).
  destruct u as [m|m|r|r|r]; cbn [sems_at]; try done.
  all: change (pcbs s') with (pcbs s); case_bool_decide; [|done]; rewrite with_recv_pcbs;
    (destruct (decide (r = p)) as [->|]; [rewrite lookup_insert_eq, Hx|by rewrite lookup_insert_ne]); cbn; done.
Qed.

Lemma with_recv_core o : core o s -> core o s'.
Proof using Hx Hp Hq' Hk.
  intros Hc. pose proof Hc as [Hwf Ha Hn Hr Hs Hlv].
  destruct (fixq_ok_queue _ _ _ _ Hq') as (Hok & Es & _).
  assert (Esem : q_sems (recv_queue x) = sems_at s (URecv p)).
  { cbn. by rewrite bool_decide_eq_true_2, Hx. }
  assert (Hother : forall {A} u (q : fixq_t A), u <> URecv p -> q_sems q = sems_at s u ->
    queue_ok (sys s) q -> queue_ok y' q).
  { intros A u q Hne E Hqok. eapply queue_ok_kept; [done|exact Hk|]. rewrite E, Esem. by apply Hs. }
  split; [done| | | | |].
  - eapply acct_ext; [exact Ha|done| |done]. by intros [].
  - intros m j Hj. change (netif_buffer s') with (netif_buffer s) in Hj.
    destruct (Hn m j Hj) as (Hl & Hb & Hqs). split_and!; [done..|]. intros Hjo. destruct (Hqs Hjo) as [Hin Hout].
    change (sys s') with y'. split.
    + apply (Hother _ (UIn m)); [done| |done]. cbn. by rewrite Hj; cbn; rewrite Hjo.
    + apply (Hother _ (UOut m)); [done| |done]. cbn. by rewrite Hj; cbn; rewrite Hjo.
  - intros r z Hrp. change (pcbs s') with (pcbs s) in Hrp. change (sys s') with y'.
    rewrite with_recv_pcbs. intros [[<- <-]|[Hne Hz]]%lookup_insert_Some; [done|].
    apply (Hother _ (URecv r)); [congruence| |by eapply Hr]. cbn. by rewrite bool_decide_eq_true_2, Hz.
  - intros u u' Hne. rewrite !with_recv_sems. by apply Hs.
  - intros u k. rewrite with_recv_sems. change (sys s') with y'. intros Hu.
    destruct (decide (k ∈ q_sems (recv_queue x))); [by eapply (fixq_ok_live _ _ _ _ _ Hq')|].
    eapply sem_live_kept; [exact Hk|done|by eapply Hlv].
Qed.
End step.

(** ** Records *)

Definition record_at (s : net) (i j : nat) : option udp_recv_t := row ← recv_records s !! i; row !! j.
Definition with_record (s : net) (i j : nat) (r : udp_recv_t) : net :=
  s <| recv_records := alter (alter (fun _ => r) j) i (recv_records s) |>.

Lemma record_buf_at s i j : record_buf s i j = record_at s i j ≫= rec_buf.
Proof. unfold record_buf, record_at. by destruct (recv_records s !! i). Qed.

Lemma load_record_at s i j r : record_at s i j = Some r -> load_record i j s = Ret r s.
Proof. intros H. unfold load_record. mstep. by apply deref_ret. Qed.

Lemma store_record_at s i j r f :
  record_at s i j = Some r -> store_record i j f s = Ret () (with_record s i j (f r)).
Proof. intros H. unfold store_record. by mstep by (by apply load_record_at). Qed.

Lemma with_record_at s i j r i' j' :
  is_Some (record_at s i j) ->
  record_at (with_record s i j r) i' j' = if decide (i' = i /\ j' = j) then Some r else record_at s i' j'.
Proof.
  unfold record_at, with_record. intros [r0 Hr]. cbn.
  destruct (recv_records s !! i) as [row|] eqn:Hrow; [|done]. cbn in Hr.
  destruct (decide (i' = i)) as [->|Hi].
  - rewrite list_lookup_alter_eq, Hrow. cbn. destruct (decide (j' = j)) as [->|Hj].
    + rewrite list_lookup_alter_eq, Hr. by rewrite decide_True.
    + rewrite list_lookup_alter_ne by done. by rewrite decide_False by tauto.
  - rewrite list_lookup_alter_ne by done. by rewrite decide_False by tauto.
Qed.

Lemma with_record_holds s i j r pl :
  is_Some (record_at s i j) ->
  holds (with_record s i j r) pl = if decide (pl = Stored i j) then option_list (rec_buf r) else holds s pl.
Proof.
  intros Hr. destruct pl as [m|m|e|i' j'|p]; try done. cbn [holds]. rewrite !record_buf_at, with_record_at by done.
  destruct (decide (i' = i /\ j' = j)) as [[-> ->]|Hne]; [by rewrite decide_True|].
  rewrite decide_False; [done|]. intros [= -> ->]. tauto.
Qed.

Lemma with_record_core o o' s i j r :
  core o s -> acct (refs (pkt s)) (holds (with_record s i j r)) o' -> core o' (with_record s i j r).
Proof. intros [] Ha. by split. Qed.

Lemma with_record_twice s i j r r' : with_record (with_record s i j r) i j r' = with_record s i j r'.
Proof.
  assert (E : forall l : list (list udp_recv_t),
    alter (alter (fun _ => r') j) i (alter (alter (fun _ => r) j) i l) = alter (alter (fun _ => r') j) i l).
  { intros l. rewrite list_alter_alter_eq. apply list_alter_ext; [|done]. intros row _. cbn.
    by rewrite list_alter_alter_eq. }
  unfold with_record. destruct s. cbn. by rewrite E.
Qed.

(** ** The invariant *)

(** The items of a queue are the used records of the slot [i]. *)
Definition slot_ok (s : net) (i : nat) (x : udp_pcb_t) : Prop :=
  size (recv_queue x) = Z.of_nat UDP_RECV_MAX /\ NoDup (q_list (recv_queue x)) /\
  (forall it, it ∈ q_list (recv_queue x) -> exists j, it = UdpRecord i j) /\
  (forall j, UdpRecord i j ∈ q_list (recv_queue x) <-> record_buf s i j <> None) /\
  0 <= local_port x < 2 ^ 16.

Record udp_ok (s : net) : Prop := {
  udp_slots : length (pcbs s) = UDP_PCB_MAX;
  udp_rows : length (recv_records s) = UDP_PCB_MAX /\
             Forall (fun row => length row = UDP_RECV_MAX) (recv_records s);
  udp_slot : forall i p, pcbs s !! i = Some (Some p) -> exists x, udp_pcbs s !! p = Some x /\ slot_ok s i x;
  udp_once : forall i i' p, pcbs s !! i = Some (Some p) -> pcbs s !! i' = Some (Some p) -> i = i';
  udp_empty : forall i j, pcbs s !! i = Some None -> record_buf s i j = None;
  udp_ports : forall p q x y, Some p ∈ pcbs s -> Some q ∈ pcbs s -> p <> q ->
    udp_pcbs s !! p = Some x -> udp_pcbs s !! q = Some y ->
    pcb_open x = true -> pcb_open y = true -> local_port x = local_port y -> local_port x = 0 }.

Lemma udp_ok_same s s' : udp_same s s' -> udp_ok s -> udp_ok s'.
Proof.
  intros (Ep & Ex & Er) [H1 H2 H3 H4 H5 H6].
  assert (Eb : forall i j, record_buf s' i j = record_buf s i j) by (intros; unfold record_buf; by rewrite Er).
  split; rewrite ?Ep, ?Ex, ?Er; try done.
  - intros i p Hp. destruct (H3 i p Hp) as (x & Hx & Hs1 & Hs2 & Hs3 & Hs4 & [Hs5 Hs6]). exists x.
    split; [done|]. unfold slot_ok. split_and!; try done. intros j. rewrite Eb. apply Hs4.
  - intros i j Hi. rewrite Eb. by apply H5.
Qed.

Lemma far_udp_ok bs s s' : far bs s s' -> udp_ok s -> udp_ok s'.
Proof. intros Hf. by eapply udp_ok_same, far_udp. Qed.

Lemma record_in s i j :
  udp_ok s -> (i < UDP_PCB_MAX)%nat -> (j < UDP_RECV_MAX)%nat -> is_Some (record_at s i j).
Proof.
  intros Hu Hi Hj. destruct (udp_rows _ Hu) as [Hl Hr]. unfold record_at.
  destruct (lookup_lt_is_Some_2 (recv_records s) i) as [row Hrow]; [lia|]. rewrite Hrow. cbn.
  apply lookup_lt_is_Some_2. by rewrite (Forall_lookup_1 _ _ _ _ Hr Hrow).
Qed.

Lemma record_range s i j : udp_ok s -> record_buf s i j <> None -> (j < UDP_RECV_MAX)%nat.
Proof.
  intros Hu Hb. unfold record_buf in Hb. destruct (recv_records s !! i) as [row|] eqn:Hrow; [|done]. cbn in Hb.
  destruct (udp_rows _ Hu) as [_ Hr]. rewrite <- (Forall_lookup_1 _ _ _ _ Hr Hrow).
  apply lookup_lt_is_Some. by destruct (row !! j).
Qed.

(** A slot with a free record has room in its queue. *)
Lemma slot_room s i x j :
  udp_ok s -> slot_ok s i x -> (j < UDP_RECV_MAX)%nat -> record_buf s i j = None ->
  len (q_list (recv_queue x)) < Z.of_nat UDP_RECV_MAX.
Proof.
  intros Hu (_ & Hnd & Hit & Hrec & _) Hj Hfree.
  set (l := q_list (recv_queue x)) in *.
  assert (Hsub : UdpRecord i j :: l ⊆+ (UdpRecord i <$> seq 0 UDP_RECV_MAX)).
  { apply NoDup_submseteq.
    - apply NoDup_cons. split; [|done]. intros Hin. by apply (Hrec j) in Hin.
    - intros it [->|Hin]%elem_of_cons; apply list_elem_of_fmap.
      + exists j. split; [done|]. apply elem_of_seq. lia.
      + destruct (Hit it Hin) as [j' ->]. exists j'. split; [done|]. apply elem_of_seq.
        apply Hrec, record_range in Hin; [lia|done]. }
  apply submseteq_length in Hsub. rewrite length_fmap, length_seq in Hsub. cbn [length] in Hsub. lia.
Qed.

(** A record that is filled or emptied together with the queue of its slot. *)
Lemma udp_ok_record s i j r p x q' y' :
  udp_ok s -> pcbs s !! i = Some (Some p) -> udp_pcbs s !! p = Some x -> is_Some (record_at s i j) ->
  size q' = size (recv_queue x) -> NoDup (q_list q') ->
  (forall it, it ∈ q_list q' -> exists j', it = UdpRecord i j') ->
  (UdpRecord i j ∈ q_list q' <-> rec_buf r <> None) ->
  (forall j', j' <> j -> UdpRecord i j' ∈ q_list q' <-> UdpRecord i j' ∈ q_list (recv_queue x)) ->
  udp_ok (with_recv (with_record s i j r) p q' y').
Proof.
  intros [H1 H2 H3 H4 H5 H6] Hi Hx Hr Hsz Hnd Hit Hj Hoth. set (s' := with_recv _ _ _ _).
  assert (Ep : udp_pcbs s' = <[p := x <| recv_queue := q' |>]> (udp_pcbs s)) by (exact (with_recv_pcbs (s := with_record s i j r) Hx)).
  assert (Eb : forall i' j', record_buf s' i' j' =
    if decide (i' = i /\ j' = j) then rec_buf r else record_buf s i' j').
  { intros i' j'. change (record_buf s' i' j') with (record_buf (with_record s i j r) i' j').
    rewrite !record_buf_at, with_record_at by done. by case_decide. }
  split.
  - done.
  - change (recv_records s') with (alter (alter (fun _ => r) j) i (recv_records s)).
    destruct H2 as [Hl Hrow]. rewrite length_alter. split; [done|]. apply Forall_alter; [done|].
    intros row Hrw Hl'. cbn. by rewrite length_alter.
  - intros i' p' Hp'. change (pcbs s') with (pcbs s) in Hp'. rewrite Ep.
    destruct (decide (p' = p)) as [->|Hne].
    + rewrite lookup_insert_eq. eexists. split; [done|]. destruct (H3 i' p Hp') as (x' & Hx' & Hok).
      assert (x' = x) as -> by congruence. assert (i' = i) as -> by eauto.
      destruct Hok as (Hs1 & _ & _ & Hs4 & Hs5). split_and!; try done; [by cbn; rewrite Hsz| |by destruct Hs5..].
      intros j'. rewrite Eb. cbn. destruct (decide (j' = j)) as [->|Hnj]; [by rewrite decide_True|].
      rewrite decide_False by tauto. rewrite <- Hs4. by apply Hoth.
    + rewrite lookup_insert_ne by done. destruct (H3 i' p' Hp') as (x' & Hx' & Hok). exists x'. split; [done|].
      destruct Hok as (Hs1 & Hs2 & Hs3 & Hs4 & Hs5). split_and!; try done; [|by destruct Hs5..].
      intros j'. rewrite Eb, decide_False; [apply Hs4|]. intros [-> _]. rewrite Hi in Hp'. congruence.
  - done.
  - intros i' j' Hi'. change (pcbs s') with (pcbs s) in Hi'. rewrite Eb, decide_False; [by apply H5|].
    intros [-> _]. congruence.
  - intros p1 p2 x1 x2 Hp1 Hp2 Hne. change (pcbs s') with (pcbs s) in Hp1, Hp2. rewrite Ep.
    intros Hx1 Hx2. assert (Hsame : forall p' z, <[p := x <| recv_queue := q' |>]> (udp_pcbs s) !! p' = Some z ->
      exists z', udp_pcbs s !! p' = Some z' /\ pcb_open z = pcb_open z' /\ local_port z = local_port z').
    { intros p' z [[<- <-]|[_ Hz]]%lookup_insert_Some; [by exists x|by exists z]. }
    destruct (Hsame _ _ Hx1) as (z1 & Hz1 & -> & ->), (Hsame _ _ Hx2) as (z2 & Hz2 & -> & ->).
    by apply (H6 p1 p2).
Qed.

(** ** Delivery *)

Lemma free_record_spec row k :
  match free_record k row with
  | Some j => (k <= j)%nat /\ exists r, row !! (j - k)%nat = Some r /\ rec_buf r = None
  | None => Forall (fun r => rec_buf r <> None) row
  end.
Proof.
  revert k. induction row as [|r row IH]; intros k; cbn [free_record]; [done|].
  destruct (rec_buf r) as [b|] eqn:Hb.
  - specialize (IH (S k)). destruct (free_record (S k) row) as [j|].
    + destruct IH as (Hk & r' & Hr & Hn). split; [lia|]. exists r'. split; [|done].
      replace (j - k)%nat with (S (j - S k)) by lia. done.
    + constructor; [by rewrite Hb|done].
  - split; [lia|]. exists r. by rewrite Nat.sub_diag.
Qed.

(** The packet [b] with the segment [seg] from [src], [port] is the newest item
    for [p]. *)
Definition delivered (s s' : net) (i p b : nat) (seg : bytes) (src port : Z) : Prop :=
  exists j x q m r, record_at s' i j = Some (UdpRecv (Some b) src port) /\
    udp_pcbs s !! p = Some x /\ udp_pcbs s' !! p = Some (x <| recv_queue := q |>) /\
    q_list q = q_list (recv_queue x) ++ [UdpRecord i j] /\
    has_view (pkt s') b (View seg m r).

(** Every record of the slot is used. *)
Definition slot_full (s : net) (i : nat) : Prop :=
  forall j, (j < UDP_RECV_MAX)%nat -> record_buf s i j <> None.

Lemma put_record_ok o s b bs m i j r0 r :
  own o s b bs m -> record_at s i j = Some r0 -> rec_buf r0 = None -> rec_buf r = Some b ->
  core o (with_record s i j r) /\ served [b] s (with_record s i j r).
Proof.
  intros (Hc & Hl & _) Hr0 Hb0 Hb. assert (Hs : is_Some (record_at s i j)) by (by exists r0).
  assert (Hst : holds s (Stored i j) = []) by (cbn; by rewrite record_buf_at, Hr0; cbn; rewrite Hb0).
  split.
  - eapply with_record_core; [done|].
    apply (acct_put _ (holds s) _ _ b (Stored i j)); [by apply core_acct|done| |].
    + by rewrite with_record_holds, decide_True, Hst, Hb.
    + intros pl Hne. by rewrite with_record_holds, decide_False.
  - split; [by destruct s|]. intros c p Hcb Hlc Hp. split_and!; [|done..]. intros pl.
    rewrite with_record_holds by done. case_decide; [|apply Hlc]. rewrite Hb. cbn. set_solver.
Qed.

Lemma no_recv_alter p q (u : gmap nat udp_pcb_t) : no_recv <$> alter (fun x => x <| recv_queue := q |>) p u = no_recv <$> u.
Proof.
  apply map_eq. intros k. rewrite !lookup_fmap. destruct (decide (k = p)) as [->|]; [|by rewrite lookup_alter_ne].
  rewrite lookup_alter_eq. by destruct (u !! p).
Qed.

Lemma set_udp_same (z : net) u : udp_pcbs z = u -> z <| udp_pcbs := u |> = z.
Proof. intros <-. by destruct z. Qed.

Lemma with_recv_served bs s p q y : served bs s (with_recv s p q y).
Proof.
  split.
  { assert (E : config (with_recv s p q y) =
      (config s) <| udp_pcbs := no_recv <$> alter (fun x => x <| recv_queue := q |>) p (udp_pcbs s) |>) by (by destruct s).
    rewrite E, no_recv_alter. exact (set_udp_same (config s) _ eq_refl). }
  intros c k _ Hl Hk. split_and!; [|done..].
  intros pl. specialize (Hl pl). by destruct pl.
Qed.

Lemma udp_deliver_ok o s b bs m h hdr i p src :
  own o s b bs m -> arp_ok [] s -> udp_ok s -> pcbs s !! i = Some (Some p) ->
  readable h hdr UDP_HEADER_SIZE s ->
  wp (fun r s' => (r = NET_ERR_FULL /\ s' = s /\ slot_full s i) \/
        (r = NET_ERR_OK /\ core o s' /\ arp_ok [] s' /\ udp_ok s' /\ served [b] s s' /\
         delivered s s' i p b bs src (x_ntohs (load16 hdr 0))))
     (udp_deliver i p src h b s).
Proof.
  intros Hown Ha Hu Hi Hr. unfold udp_deliver. mstep.
  assert (Hil : (i < UDP_PCB_MAX)%nat) by (rewrite <- (udp_slots _ Hu); by eapply lookup_lt_Some).
  destruct (udp_rows _ Hu) as [Hrl Hrows].
  destruct (lookup_lt_is_Some_2 (recv_records s) i) as [row Hrow]; [lia|].
  eapply wp_eq; [by apply deref_ret|]. pose proof (free_record_spec row 0) as Hfree.
  pose proof (Forall_lookup_1 _ _ _ _ Hrows Hrow) as Hrl'. cbn in Hrl'.
  destruct (free_record 0 row) as [j|].
  2: { left. split_and!; [done..|]. intros j Hj. unfold record_buf. rewrite Hrow. cbn.
       destruct (lookup_lt_is_Some_2 row j) as [r Hrj]; [lia|]. rewrite Hrj.
       by apply (Forall_lookup_1 _ _ _ _ Hfree Hrj). }
  destruct Hfree as (_ & r & Hrj & Hnone). rewrite Nat.sub_0_r in Hrj.
  assert (Hat : record_at s i j = Some r) by (unfold record_at; by rewrite Hrow).
  assert (Hj : (j < UDP_RECV_MAX)%nat) by (rewrite <- Hrl'; by eapply lookup_lt_Some).
  assert (Hbuf : record_buf s i j = None) by (by rewrite record_buf_at, Hat).
  set (r1 := r <| rec_buf := Some b |> <| rec_src := src |>).
  set (r2 := UdpRecv (Some b) src (x_ntohs (load16 hdr 0))).
  eapply wp_eq; [by eapply (store_record_at s i j r)|]. fold r1.
  assert (Hr1 : readable h hdr UDP_HEADER_SIZE (with_record s i j r1)) by (by eapply readable_stored).
  eapply wp_eq; [by eapply readable16|]. change (Z.to_nat udp_src_port) with 0%nat.
  eapply wp_eq.
  { apply (store_record_at _ i j r1). rewrite with_record_at by (by exists r). by rewrite decide_True. }
  rewrite with_record_twice. change (r1 <| rec_port := _ |>) with r2. set (s1 := with_record s i j r2).
  destruct (put_record_ok o s b bs m i j r r2 Hown Hat Hnone eq_refl) as [Hc1 Hs1]. fold s1 in Hc1, Hs1.
  destruct (udp_slot _ Hu i p Hi) as (x & Hx & Hslot). pose proof Hslot as (Hsz & Hnd & Hit & Hrec & _).
  assert (Hp : Some p ∈ pcbs s) by (by eapply list_elem_of_lookup_2).
  assert (Hq : queue_ok (sys s1) (recv_queue x)) by (by eapply (core_recv _ _ Hc1 p)).
  assert (Hg : q_get (recv_ref p) s1 = Some (recv_queue x)) by (cbn; by rewrite Hx).
  destruct (fixq_send_try (L := sys_lens) no_sleep 0 0 s1 _ _ _ (UdpRecord i j) Hg Hq) as (e & s2 & Hrun & Hpost).
  eapply wp_eq; [exact Hrun|]. pose proof (slot_room s i x j Hu Hslot Hj Hbuf) as Hroom.
  rewrite Hsz, (proj2 (Z.eqb_neq _ _)) in Hpost by lia.
  destruct Hpost as (-> & q' & y' & -> & Hq' & Hk & Hsz'). cbn [NET_ERR_OK Z.ltb Z.compare wp mret M_ret]. right.
  fold (with_recv s1 p q' y'). destruct (fixq_ok_queue _ _ _ _ Hq') as (_ & _ & El).
  assert (Hnew : UdpRecord i j ∉ q_list (recv_queue x)) by (rewrite Hrec; by intros []).
  split_and!; [done|by eapply with_recv_core| | |etransitivity; [exact Hs1|apply with_recv_served]|].
  - by destruct Ha.
  - apply (udp_ok_record s i j r2 p x q' y'); [done..|by exists r|congruence| | | |]; rewrite El.
    + apply NoDup_app. split_and!; [done| |apply NoDup_singleton]. intros it H1 H2. set_solver.
    + intros it [Hin|Hin]%elem_of_app; [by apply Hit|]. exists j. set_solver.
    + split; [done|]. intros _. set_solver.
    + intros j' Hne. rewrite elem_of_app, list_elem_of_singleton. naive_solver.
  - destruct Hown as (_ & _ & rc & Hv). exists j, x, q', m, rc.
    split; [|split; [done|split; [|split; [exact El|exact Hv]]]].
    + change (record_at s1 i j = Some r2). unfold s1. rewrite with_record_at by (by exists r).
      by rewrite decide_True.
    + rewrite (with_recv_pcbs (s := s1) Hx). apply lookup_insert_eq.
Qed.

(** The open control block that is bound to [port]. *)
Definition port_owner (s : net) (port : Z) (i p : nat) : Prop :=
  pcbs s !! i = Some (Some p) /\
  exists x, udp_pcbs s !! p = Some x /\ pcb_open x = true /\ local_port x = port.

Lemma udp_in_loop_ok o s b bs m h hdr src port k l :
  own o s b bs m -> arp_ok [] s -> udp_ok s -> readable h hdr UDP_HEADER_SIZE s -> l = drop k (pcbs s) ->
  wp (fun r s' =>
        (r = NET_ERR_UNREACH /\ s' = s /\ forall i p, (k <= i)%nat -> ~ port_owner s port i p) \/
        exists i p, port_owner s port i p /\
          ((r = NET_ERR_FULL /\ s' = s /\ slot_full s i) \/
           (r = NET_ERR_OK /\ core o s' /\ arp_ok [] s' /\ udp_ok s' /\ served [b] s s' /\
            delivered s s' i p b bs src (x_ntohs (load16 hdr 0)))))
     (udp_in_loop k l src port h b s).
Proof.
  intros Hown Ha Hu Hr. revert k. induction l as [|c l IH]; intros k El; cbn [udp_in_loop].
  { left. split_and!; [done..|]. intros i p Hk [Hi _]. apply lookup_lt_Some in Hi.
    apply (f_equal length) in El. rewrite length_drop in El. cbn in El. lia. }
  assert (Hk : pcbs s !! k = Some c).
  { rewrite <- (Nat.add_0_r k), <- lookup_drop, <- El. done. }
  assert (El' : l = drop (S k) (pcbs s)) by (by erewrite drop_S in El by done; injection El).
  specialize (IH (S k) El').
  assert (Hskip : (forall p, ~ port_owner s port k p) -> wp (fun r s' =>
        (r = NET_ERR_UNREACH /\ s' = s /\ forall i p, (k <= i)%nat -> ~ port_owner s port i p) \/
        exists i p, port_owner s port i p /\
          ((r = NET_ERR_FULL /\ s' = s /\ slot_full s i) \/
           (r = NET_ERR_OK /\ core o s' /\ arp_ok [] s' /\ udp_ok s' /\ served [b] s s' /\
            delivered s s' i p b bs src (x_ntohs (load16 hdr 0)))))
     (udp_in_loop (S k) l src port h b s)).
  { intros Hno. eapply wp_mono, IH. intros r s' [(-> & -> & Hn)|H]; [left|by right].
    split_and!; [done..|]. intros i p Hi. destruct (decide (i = k)) as [->|]; [apply Hno|apply Hn; lia]. }
  destruct c as [p|]; [|apply Hskip; intros p [Hp _]; congruence].
  destruct (udp_slot _ Hu k p Hk) as (x & Hx & _).
  eapply wp_eq; [unfold load_pcb; mstep; by apply deref_ret|]. destruct (_ || _) eqn:Hc.
  - apply Hskip. intros q [Hq (y & Hy & Ho & Hl)]. assert (q = p) as -> by congruence.
    assert (y = x) as -> by congruence. by rewrite Ho, Hl, Z.eqb_refl in Hc.
  - apply orb_false_iff in Hc as [Ho%negb_false_iff Hl%negb_false_iff%Z.eqb_eq].
    eapply wp_mono; [|by eapply udp_deliver_ok]. intros r s' H. right. exists k, p. split; [|done].
    split; [done|]. by exists x.
Qed.

(** The ports and the bytes of a segment, if it is well formed. *)
Definition udp_sum (src dest length : Z) : Z := checksum16 0 (udp_pseudo src dest length) 0 false.
Definition udp_parse (src dest : Z) (bs : bytes) : option (Z * Z * bytes) :=
  let total := x_ntohs (load16 bs 4) in
  if (UDP_HEADER_SIZE <=? len bs) && (UDP_HEADER_SIZE <=? total) && (total <=? len bs) &&
     ((load16 bs 6 =? 0) || (checksum16 0 (take (Z.to_nat total) bs) (udp_sum src dest total) true =? 0))
  then Some (x_ntohs (load16 bs 0), x_ntohs (load16 bs 2), take (Z.to_nat total) bs)
  else None.

Lemma udp_sum_range src dest length : 0 <= udp_sum src dest length <= 65535.
Proof. apply pseudo_sum_range. unfold udp_pseudo. by eauto with bytes. Qed.

Lemma udp_checksum_ok o s b bs m src dest length :
  own o s b bs m -> 0 <= length <= len bs ->
  wp (fun c s' => c = checksum16 0 (take (Z.to_nat length) bs) (udp_sum src dest length) true /\
        (exists m', own o s' b bs m') /\ calm [b] s s' /\ shape (pkt s) (pkt s') /\ stored (pkt s) (pkt s'))
     (udp_checksum b src dest length s).
Proof. intros Hown Hl. apply (own_pseudo_sum _ Hown Hl). unfold udp_pseudo. by eauto with bytes. Qed.

(** What becomes of the packet [bs] from [src]. *)
Definition udp_outcome (s : net) (b : nat) (src dest : Z) (bs : bytes) (r : Z) (s' : net) : Prop :=
  match udp_parse src dest bs with
  | None => r < 0
  | Some (sport, dport, seg) =>
      (r = NET_ERR_UNREACH /\ forall i p, ~ port_owner s dport i p) \/
      exists i p, port_owner s dport i p /\
        ((r = NET_ERR_FULL /\ slot_full s i) \/ (r = NET_ERR_OK /\ delivered s s' i p b seg src sport))
  end.

Lemma udp_header_check_ok h bs s :
  UDP_HEADER_SIZE <= len bs -> readable h bs UDP_HEADER_SIZE s ->
  let total := x_ntohs (load16 bs 4) in
  udp_header_check (Some h) (len bs) s =
  Ret (if (UDP_HEADER_SIZE <=? total) && (total <=? len bs) then NET_ERR_OK else NET_ERR_SIZE) s.
Proof.
  intros Hl Hr total. unfold udp_header_check. rewrite (proj2 (Z.ltb_ge _ _)) by done.
  mstep by (by eapply readable16). change (Z.to_nat udp_total_len) with 4%nat. fold total.
  rewrite !Z.leb_antisym, <- negb_orb. by destruct (_ || _).
Qed.

Lemma handled_calm_err o b s e s' :
  arp_ok [] s -> e < 0 -> core (b :: o) s' -> calm [b] s s' -> handled o b s e s'.
Proof.
  intros. apply handled_err; [done..|by eapply arp_ok_near; [apply calm_near|]|by apply calm_served].
Qed.

(** The last part of [udp_in], where the segment is well formed. *)
Lemma udp_in_deliver_ok o s s1 b bs seg m1 h src dest :
  arp_ok [] s -> udp_ok s -> own o s1 b seg m1 -> calm [b] s s1 -> readable h bs UDP_HEADER_SIZE s1 ->
  udp_parse src dest bs = Some (x_ntohs (load16 bs 0), x_ntohs (load16 bs 2), seg) ->
  wp (fun r s' => handled o b s r s' /\ udp_ok s' /\ udp_outcome s b src dest bs r s')
     (udp_in_loop 0 (pcbs s1) src (x_ntohs (load16 bs 2)) h b s1).
Proof.
  intros Ha Hu Hown Hn Hr Hparse. assert (Es : udp_same s s1) by (by eapply far_udp, calm_far).
  assert (Hu1 : udp_ok s1) by (by eapply udp_ok_same).
  assert (Ha1 : arp_ok [] s1) by (by eapply arp_ok_near; [apply calm_near|]).
  pose proof Es as (Ep & Ex & Er).
  assert (Hpo : forall port i p, port_owner s1 port i p <-> port_owner s port i p).
  { intros. unfold port_owner. by rewrite Ep, Ex. }
  eapply wp_mono; [|by eapply (udp_in_loop_ok o s1 b seg m1 h bs src _ 0)]. intros r s' H.
  unfold udp_outcome. rewrite Hparse. destruct H as [(-> & -> & Hno)|(i & p & Hp & H)].
  - split_and!; [apply handled_calm_err; [done..|by destruct Hown|done]|done|]. left. split; [done|].
    intros i p Hp%Hpo. by apply (Hno i p); [lia|].
  - apply Hpo in Hp. destruct H as [(-> & -> & Hfull)|(-> & Hc & Ha' & Hu' & Hs & Hdel)].
    + split_and!; [apply handled_calm_err; [done..|by destruct Hown|done]|done|]. right. exists i, p.
      split; [done|]. left. split; [done|]. intros j Hj. unfold record_buf. rewrite <- Er. by apply Hfull.
    + split_and!; [apply handled_ok; [done..|]|done|].
      * transitivity s1; [by apply calm_served|done].
      * right. exists i, p. split; [done|]. right. split; [done|].
        destruct Hdel as (j & x & q & m & rc & H). exists j, x, q, m, rc. by rewrite <- Ex.
Qed.

Lemma udp_in_ok o s b bs m n src dest :
  own o s b bs m -> arp_ok [] s -> udp_ok s ->
  wp (fun r s' => handled o b s r s' /\ udp_ok s' /\ udp_outcome s b src dest bs r s')
     (udp_in n (Some src) (Some dest) (Some b) s).
Proof.
  intros Hown Ha Hu. unfold udp_in. set (total := x_ntohs (load16 bs 4)).
  assert (Herr : forall e s', e < 0 -> udp_parse src dest bs = None -> core (b :: o) s' -> calm [b] s s' ->
    handled o b s e s' /\ udp_ok s' /\ udp_outcome s b src dest bs e s').
  { intros e s' He Hnone Hc Hn. split; [by apply handled_calm_err|]. split; [|unfold udp_outcome; by rewrite Hnone].
    by eapply far_udp_ok; [apply calm_far|]. }
  wstep own_set_cont as [Hn1 H1]; [done|]. unfold udp_parse in Herr. fold total in Herr.
  destruct (Z.leb_spec UDP_HEADER_SIZE (len bs)) as [Hl|]; cbn [andb] in H1, Herr.
  2: { destruct H1 as [-> ->]. apply Herr; [done..|by destruct Hown|done]. }
  change (UDP_HEADER_SIZE <=? PKTBUF_BLK_SIZE) with true in H1. destruct H1 as (-> & Hown1 & bi & d & Hf1).
  cbn [NET_ERR_OK Z.ltb Z.compare]. eapply wp_eq; [by eapply own_data|]. eapply wp_eq; [by eapply own_total|].
  pose proof (readable_front _ _ _ _ _ _ _ _ Hown1 Hf1) as Hr1.
  eapply wp_eq; [by apply udp_header_check_ok|]. fold total.
  destruct (Z.leb_spec UDP_HEADER_SIZE total), (Z.leb_spec total (len bs)); cbn [andb] in Herr |- *.
  2-4: apply Herr; [done..|by destruct Hown1|done].
  cbn [NET_ERR_OK Z.ltb Z.compare deref]. eapply wp_eq; [reflexivity|].
  eapply wp_eq; [by eapply readable16|]. change (Z.to_nat udp_total_len) with 4%nat. fold total.
  eapply wp_eq; [by eapply readable16|]. change (Z.to_nat udp_hdr_checksum) with 6%nat.
  set (good := (load16 bs 6 =? 0) ||
    (checksum16 0 (take (Z.to_nat total) bs) (udp_sum src dest total) true =? 0)) in Herr.
  unfold UDP_HEADER_SIZE in *.
  eapply (wp_step (fun bad s2 => bad = negb good /\ (exists m2, own o s2 b bs m2) /\ calm [b] s' s2 /\
    stored (pkt s') (pkt s2))).
  { unfold good. destruct (load16 bs 6 =? 0); cbn [negb orb].
    - cbn [wp mret M_ret]. split_and!; [done|by exists 0|done..].
    - cbn [deref]. eapply wp_eq; [reflexivity|]. wstep udp_checksum_ok as (-> & Hown2 & Hn2 & _ & Hst2); [lia|].
      cbn [wp mret M_ret]. done. }
  intros bad s2 (-> & (m2 & Hown2) & Hn2 & Hst2). destruct good eqn:Hgood; cbn [negb].
  2: { apply Herr; [done..|by destruct Hown2|by transitivity s']. }
  wstep own_resize as (Hn3 & Hst3 & H3); [lia|]. rewrite (proj2 (Z.leb_le _ _)) in H3 by done.
  destruct H3 as (-> & m3 & Hown3). cbn [NET_ERR_OK Z.ltb Z.compare].
  assert (Hr3 : readable (bi, d) bs 8 s'0) by (eapply readable_stored; [exact Hr1|by etransitivity]).
  eapply wp_eq; [by eapply readable16|]. eapply wp_eq; [reflexivity|].
  eapply udp_in_deliver_ok; [done..|by repeat (etransitivity; [eassumption|])|done|].
  unfold udp_parse. fold total. unfold UDP_HEADER_SIZE.
  rewrite (proj2 (Z.leb_le 8 (len bs))), (proj2 (Z.leb_le 8 total)), (proj2 (Z.leb_le total (len bs))) by lia.
  unfold good in Hgood. by rewrite Hgood.
Qed.

(** ** Sending *)

Definition udp_hdr (sport dport total ck : Z) : bytes := be16 sport ++ be16 dport ++ be16 total ++ be16 ck.
(** The segment [udp_sendto] builds; a computed checksum of zero is sent as
    [0xffff]. *)
Definition udp_segment (sport dport src dest : Z) (data : bytes) : bytes :=
  let total := UDP_HEADER_SIZE + len data in
  let c := checksum16 0 (udp_hdr sport dport total 0 ++ data) (udp_sum src dest total) true in
  udp_hdr sport dport total (if c =? 0 then 0xffff else c) ++ data.

Lemma udp_sendto_frame {o s p x n i} dest dport data (Q : Z -> net -> Prop) :
  core o s -> udp_pcbs s !! p = Some x -> pcb_open x = true -> netif_buffer s !! n = Some i ->
  dport <> 0 -> are_bytes data ->
  (forall s', core o s' -> calm [] s s' -> Q NET_ERR_MEM s') ->
  (forall s' b seg m, (forall k, ~ live (pkt s) b k) -> own o s' b seg m -> calm [] s s' ->
     (UDP_HEADER_SIZE + len data < 2 ^ 16 -> seg = udp_segment (local_port x) dport (ipaddr i) dest data) ->
     wp Q (ipv4_out (Some n) (Some dest) NET_PROTOCOL_UDP (Some b) s')) ->
  wp Q (udp_sendto (Some p) (Some n) (Some dest) dport (Some data) (len data) s).
Proof.
  intros Hc Hx Hop Hi Hdp Hd Herr Hout. unfold udp_sendto.
  eapply wp_eq; [unfold load_pcb; mstep; by apply deref_ret|]. rewrite Hop.
  rewrite (proj2 (Z.eqb_neq dport 0)), (proj2 (Z.ltb_ge (len data) 0)), bool_decide_eq_false_2 by (done || lia).
  rewrite andb_false_r. cbn [negb orb].
  wstep own_alloc as [Hn1 H1]; [unfold UDP_HEADER_SIZE; lia|]. destruct a as [b|]; [|by apply Herr].
  destruct H1 as (Hdead & (bs & Hl & Hown1) & Hf1). unfold UDP_HEADER_SIZE in Hl, Hf1.
  destruct Hf1 as (bi & d & Hf1); [lia|]. apply (front_le _ _ _ _ _ 8) in Hf1; [|unfold PKTBUF_BLK_SIZE; lia].
  eapply wp_eq; [by eapply own_data|]. cbn [deref]. eapply wp_eq; [reflexivity|].
  change bs with ([] ++ bs) in Hown1.
  hdr_next udp_src_port as (Hown2 & Hf2 & Hn2).
  hdr_next udp_dest_port as (Hown3 & Hf3 & Hn3).
  hdr_next udp_total_len as (Hown4 & Hf4 & Hn4).
  hdr_next udp_hdr_checksum as (Hown5 & Hf5 & Hn5).
  rewrite !drop_drop in Hown5.
  wstep (own_copy_in (Some data)) as (-> & (m6 & Hown6) & Hn6 & Hsh6);
    [done|rewrite length_drop; cbn [length le16]; lia|rewrite !length_app; reflexivity|].
  pose proof (own_front_shape Hown6 Hf5 Hsh6) as Hf6. cbn [negb].
  eapply wp_eq; [by eapply own_data|].
  eapply wp_eq.
  { apply load_netif_at. rewrite (calm_netif _ _ _ Hn6), (calm_netif _ _ _ Hn5), (calm_netif _ _ _ Hn4).
    by rewrite (calm_netif _ _ _ Hn3), (calm_netif _ _ _ Hn2), (calm_netif _ _ _ Hn1). }
  rewrite !le16_x_htons, !be16_u16 in Hown6. set (total := UDP_HEADER_SIZE + len data) in *.
  set (hdr := ((([] ++ be16 (local_port x)) ++ _) ++ _) ++ _) in Hown6.
  assert (Htot : 0 <= u16 total <= total) by (pose proof (u16_range total); unfold u16, total, UDP_HEADER_SIZE; zdm).
  assert (Hlh : len (hdr ++ data) = total).
  { assert (length hdr = 8%nat) by done. rewrite length_app. unfold total, UDP_HEADER_SIZE. lia. }
  wstep udp_checksum_ok as (-> & (m7 & Hown7) & Hn7 & Hsh7 & _); [lia|].
  pose proof (own_front_shape Hown7 Hf6 Hsh7) as Hf7. eapply wp_eq; [reflexivity|].
  wstep (own_hdr_store Hown7 Hf7 6) as (Hown8 & _ & Hn8); [by eauto with bytes|done|done|].
  eapply Hout; [done|exact Hown8|eapply calm_fresh; [done..|]; by repeat (etransitivity; [eassumption|])|].
  intros Hsmall. unfold UDP_HEADER_SIZE in total. rewrite u16_small by lia.
  rewrite firstn_all2 by lia. rewrite le16_x_htons, be16_u16.
  assert (hdr = udp_hdr (local_port x) dport total 0) as ->.
  { unfold hdr, udp_hdr. by rewrite <- !app_assoc. }
  unfold udp_segment, UDP_HEADER_SIZE. fold total. reflexivity.
Qed.

Lemma udp_sendto_ok o s p x n dest dport data :
  core o s -> arp_ok [] s -> udp_ok s -> udp_pcbs s !! p = Some x -> n ∈ dom (netif_buffer s) ->
  are_bytes data -> 0 <= dest < 2 ^ 32 ->
  wp (fun _ s' => core o s' /\ arp_ok [] s' /\ udp_ok s' /\ far [] s s')
     (udp_sendto (Some p) (Some n) (Some dest) dport (Some data) (len data) s).
Proof.
  intros Hc Ha Hu Hx Hd Hb Hr. pose proof Hd as [i Hi]%elem_of_dom.
  assert (Hsame : wp (fun _ s' => core o s' /\ arp_ok [] s' /\ udp_ok s' /\ far [] s s')
    (mret (M := M net) NET_ERR_PARAM s)) by (cbn [wp mret M_ret]; by split_and!).
  destruct (pcb_open x) eqn:Hop; [destruct (decide (dport = 0)) as [->|Hne]|].
  2: apply (udp_sendto_frame dest dport data _ Hc Hx Hop Hi Hne Hb).
  - unfold udp_sendto. eapply wp_eq; [unfold load_pcb; mstep; by apply deref_ret|].
    rewrite Z.eqb_refl, orb_true_r. exact Hsame.
  - intros s' Hc' Hn. assert (far [] s s') by (by apply calm_far).
    split_and!; [done|by eapply arp_ok_near, Ha; apply calm_near|by eapply far_udp_ok|done].
  - intros s' b seg m Hdead Hown Hn _. rewrite <- (calm_netif _ _ _ Hn) in Hd.
    eapply wp_mono; [|eapply ipv4_out_ok; [done|by eapply arp_ok_near, Ha; apply calm_near|done..]].
    intros _ s2 (Hc2 & Ha2 & Hf2). assert (far [] s s2).
    { apply (far_drop b); [by right|]. transitivity s'; [|done]. eapply far_mono; [|by apply calm_far]. set_solver. }
    split_and!; [done..|by eapply far_udp_ok|done].
  - unfold udp_sendto. eapply wp_eq; [unfold load_pcb; mstep; by apply deref_ret|]. rewrite Hop. exact Hsame.
Qed.

(** A segment that was sent is well formed for the receiver. *)
Lemma udp_parse_segment sport dport src dest data :
  0 <= sport < 2 ^ 16 -> 0 <= dport < 2 ^ 16 -> are_bytes data -> UDP_HEADER_SIZE + len data < 2 ^ 16 ->
  udp_parse src dest (udp_segment sport dport src dest data) =
  Some (sport, dport, udp_segment sport dport src dest data).
Proof.
  unfold UDP_HEADER_SIZE. intros Hs Hd Hb Hl. unfold udp_segment, UDP_HEADER_SIZE.
  set (total := 8 + len data) in *.
  set (c := checksum16 0 (udp_hdr sport dport total 0 ++ data) (udp_sum src dest total) true).
  pose proof (udp_sum_range src dest total) as Hsum.
  pose proof (checksum_field_verifies (be16 sport ++ be16 dport ++ be16 total) data (udp_sum src dest total)
    c (if c =? 0 then 0xffff else c) ltac:(eauto with bytes) Hb Hsum eq_refl) as Hv.
  rewrite le16_x_htons, be16_u16, <- !app_assoc in Hv. set (c' := if c =? 0 then _ else c) in *.
  set (seg := udp_hdr sport dport total c' ++ data).
  assert (Hseg : len seg = total) by (unfold seg; rewrite length_app; unfold total; cbn [length udp_hdr be16 app]; lia).
  unfold udp_parse, UDP_HEADER_SIZE. rewrite Hseg.
  rewrite (x_ntohs_be16 seg 4 total), (x_ntohs_be16 seg 0 sport), (x_ntohs_be16 seg 2 dport) by (done || lia).
  rewrite firstn_all2 by lia. rewrite (proj2 (Z.leb_le 8 total)), Z.leb_refl by lia.
  replace (checksum16 0 seg _ true) with 0; [by rewrite orb_true_r|]. symmetry.
  unfold seg, udp_hdr. rewrite <- !app_assoc. apply Hv; [|by right]. unfold c, udp_hdr. by rewrite <- !app_assoc.
Qed.
