(* ===== verification/OwnerInput.v ===== *)
(** * Receiving a frame under the ownership invariant

    [ether_in] takes the frame when it succeeds and leaves it to its caller
    when it fails, whatever the frame contains.  The class [InputHandler] is
    what the callers rely on; the instances below show that ICMP, UDP and TCP
    provide it. *)

From S2P Require Import Prelude Tools IpAddr Nlist Timer Mblock Pktbuf PktbufSpec PktbufChain.
From S2P Require Import PktbufOps PktbufFrame Sys Fixq TcpState Net Netif Ether Arp NetifLink Ipv4 Icmp Udp Tcp Input.
From S2P Require Import Owner OwnerPkt OwnerQueue OwnerOut OwnerArp OwnerResolve OwnerIp OwnerIcmp OwnerUdp.
From S2P Require Import OwnerTcp OwnerTcpInput.

#[local] Opaque checksum16.

(** The invariant of the stack between two calls, for callers that own [o]. *)
Record stack_ok (o : list nat) (s : net) : Prop := {
  stack_core : core o s;
  stack_arp : arp_ok [] s;
  stack_udp : udp_ok s;
  stack_tcp : tcp_inv s;
  stack_handlers : length (ipv4_handlers s) = IPV4_HANDLER_MAX }.

(** What the input functions leave alone: the interfaces, the tables of
    handlers and of UDP control blocks, and the packets of others. *)
Definition passed (bs : list nat) (s s' : net) : Prop :=
  sans_tcp (config s') = sans_tcp (config s) /\ spared bs s s'.
#[global] Instance passed_refl bs : Reflexive (passed bs).
Proof. by split. Qed.
#[global] Instance passed_trans bs : Transitive (passed bs).
Proof. intros s1 s2 s3 [E1 H1] [E2 H2]. split; [by rewrite E2|by transitivity s2]. Qed.
Lemma served_passed bs s s' : served bs s s' -> passed bs s s'.
Proof. intros [E H]. split; [exact (f_equal sans_tcp E)|done]. Qed.
Lemma calm_passed bs s s' : calm bs s s' -> passed bs s s'.
Proof. intros. by apply served_passed, calm_served. Qed.
Lemma tended_passed bs s s' : tended bs s s' -> passed bs s s'.
Proof. intros [E H]. split; [exact (f_equal no_records E)|done]. Qed.
Lemma passed_handlers bs s s' : passed bs s s' -> ipv4_handlers s' = ipv4_handlers s.
Proof. intros [E _]. by apply (f_equal ipv4_handlers) in E. Qed.
Lemma passed_dom bs s s' : passed bs s s' -> dom (netif_buffer s') = dom (netif_buffer s).
Proof.
  intros [E _]. apply (f_equal netif_buffer) in E. cbn in E.
  by rewrite <- (dom_fmap_L face), E, dom_fmap_L.
Qed.

Lemma served_tcp bs s s' : served bs s s' -> tcp_inv s -> tcp_inv s'.
Proof.
  intros Hs Hi. pose proof (passed_dom _ _ _ (served_passed _ _ _ Hs)) as Ed. destruct Hs as [E _].
  eapply tcp_inv_same; [exact Hi|exact (f_equal tcp E)|exact (f_equal timers E)|done].
Qed.
Lemma tended_udp bs s s' : tended bs s s' -> udp_same s s'.
Proof.
  intros [E _]. split_and!; [apply (f_equal pcbs) in E|apply (f_equal udp_pcbs) in E
    |apply (f_equal recv_records) in E]; exact E.
Qed.

(** The result [r] of an input function that was called with the packet [b]. *)
Definition taken (o : list nat) (b : nat) (s : net) (r : Z) (s' : net) : Prop :=
  stack_ok (if r <? 0 then b :: o else o) s' /\ passed [b] s s'.

Class InputHandler (f : option nat -> option Z -> option Z -> option nat -> M net Z) : Prop :=
  input_handler o s b bs m n src dest :
    own o s b bs m -> stack_ok (b :: o) s -> n ∈ dom (netif_buffer s) ->
    0 <= src < 2 ^ 32 -> 0 <= dest < 2 ^ 32 ->
    wp (fun r s' => taken o b s r s') (f (Some n) (Some src) (Some dest) (Some b) s).

Lemma taken_handled o b s r s' :
  stack_ok (b :: o) s -> handled o b s r s' -> udp_ok s' -> taken o b s r s'.
Proof.
  intros [_ _ _ Ht Hh] (Hacc & Ha & Hs) Hu. split; [|by apply served_passed]. split; [|done..| |].
  - unfold accepts in Hacc. by destruct (r <? 0).
  - by eapply served_tcp.
  - by rewrite (passed_handlers _ _ _ (served_passed _ _ _ Hs)).
Qed.

Lemma taken_after o b s s1 r s' : passed [b] s s1 -> taken o b s1 r s' -> taken o b s r s'.
Proof. intros Hs [H1 H2]. split; [done|by transitivity s1]. Qed.

Lemma taken_err o b s e s' :
  stack_ok (b :: o) s -> e < 0 -> core (b :: o) s' -> calm [b] s s' -> taken o b s e s'.
Proof.
  intros Hst He Hc Hn. apply taken_handled; [done| |].
  - apply handled_calm_err; [by destruct Hst|done..].
  - eapply far_udp_ok; [by apply calm_far|by destruct Hst].
Qed.

Lemma stack_calm o o' b s s' :
  stack_ok o s -> core o' s' -> calm [b] s s' -> stack_ok o' s'.
Proof.
  intros [_ Ha Hu Ht Hh] Hc Hn. split; [done|by eapply arp_ok_near, Ha; apply calm_near|
    by eapply far_udp_ok, Hu; apply calm_far|by eapply tcp_inv_calm|by rewrite (passed_handlers _ _ _ (calm_passed _ _ _ Hn))].
Qed.

#[global] Instance icmp_input : InputHandler icmpv4_in.
Proof.
  intros o s b bs m n src dest Hown Hst Hd Hs _.
  eapply wp_mono; [|eapply icmpv4_in_ok; [done|by destruct Hst|done..]].
  intros r s' [Hh Hu]. apply taken_handled; [done..|]. eapply udp_ok_same; [done|by destruct Hst].
Qed.

#[global] Instance udp_input : InputHandler udp_in.
Proof.
  intros o s b bs m n src dest Hown Hst Hd _ _.
  eapply wp_mono; [|eapply udp_in_ok; [done|by destruct Hst..]].
  intros r s' (Hh & Hu & _). by apply taken_handled.
Qed.

#[global] Instance tcp_input : InputHandler tcp_in.
Proof.
  intros o s b bs m n src dest Hown Hst Hd Hsrc _. destruct Hst as [_ Ha Hu Ht Hh].
  eapply wp_mono; [|by eapply (tcp_in_ok o s b bs m n src dest)].
  intros r s' (Hc & Ha' & Hte & Hi). pose proof (tended_passed _ _ _ Hte) as Hp. split; [|done].
  split; [done..|eapply udp_ok_same; [by eapply tended_udp|done]|done|by rewrite (passed_handlers _ _ _ Hp)].
Qed.

Section ether.
Context (tcp_in : option nat -> option Z -> option Z -> option nat -> M net Z) `{!InputHandler tcp_in}.

Lemma call_ipv4_handler_ok h o s b bs m n src dest :
  own o s b bs m -> stack_ok (b :: o) s -> n ∈ dom (netif_buffer s) ->
  0 <= src < 2 ^ 32 -> 0 <= dest < 2 ^ 32 ->
  wp (fun r s' => taken o b s r s') (call_ipv4_handler tcp_in h n src dest b s).
Proof.
  destruct h; [exact (icmp_input o s b bs m n src dest)|exact (udp_input o s b bs m n src dest)|].
  exact (input_handler o s b bs m n src dest).
Qed.

Lemma ipv4_parse_range bs g :
  are_bytes bs -> ipv4_parse bs = Some g -> 0 <= dg_src g < 2 ^ 32 /\ 0 <= dg_dest g < 2 ^ 32.
Proof.
  unfold ipv4_parse. intros Hb Hg. destruct (_ && _) eqn:Hc; [|done]. injection Hg as <-. cbn [dg_src dg_dest].
  assert (IPV4_HEADER_MIN <= len bs) as Hl.
  { repeat (apply andb_true_iff in Hc as [Hc _]). by apply Z.leb_le. }
  unfold IPV4_HEADER_MIN in Hl. split; (apply ipaddr_from_buf_range; [by eauto with bytes|lens]).
Qed.

Lemma ipv4_in_ok o s b bs m n :
  own o s b bs m -> stack_ok (b :: o) s -> n ∈ dom (netif_buffer s) ->
  wp (fun r s' => taken o b s r s') (ipv4_in tcp_in (Some n) (Some b) s).
Proof.
  intros Hown Hst Hd. pose proof Hd as [i Hi]%elem_of_dom.
  apply (ipv4_in_frame tcp_in Hown Hi (stack_handlers _ _ Hst)).
  - intros e s' He _ Hc Hn. by apply taken_err.
  - intros g h s' Hg Hown' Hn. unfold ipv4_target in Hg.
    destruct (ipv4_parse bs) as [g'|] eqn:Hp; [|done]. cbn [mbind option_bind] in Hg.
    destruct (ipaddr_is_match _ _ _); [|done]. destruct (mjoin _); [|done]. injection Hg as -> ->.
    destruct (ipv4_parse_range bs g (proj1 (own_bytes _ _ _ _ _ Hown)) Hp) as [Hs Hdst].
    eapply wp_mono; [|apply (call_ipv4_handler_ok h o s' b _ _ n _ _ Hown')].
    + intros r s2 Ht. eapply taken_after; [by apply calm_passed|done].
    + eapply stack_calm; [done|by destruct Hown'|done].
    + by rewrite (calm_netif _ _ _ Hn).
    + done.
    + done.
Qed.

(** ** Ethernet *)

(** The handler and the payload of the frame [bs] on the interface [i]. *)
Definition ether_target (s : net) (i : netif_t) (bs : bytes) : option (ether_input * bytes) :=
  if (ETH_FRAME_MIN <=? len bs) && (len bs <=? ETH_FRAME_MAX) &&
     (negb (Z.of_nat ETH_HWA_SIZE <=? hw_len (hwaddr i)) ||
      bool_decide (take 6 bs = take ETH_HWA_SIZE (hw_addr (hwaddr i))) || ether_is_broadcast (take 6 bs))
  then h ← find_handler (x_ntohs (load16 bs 12)) (ether_handlers s); Some (h, drop 14 bs) else None.

Lemma ether_in_frame {o s b bs m n i} (Q : Z -> net -> Prop) :
  own o s b bs m -> netif_buffer s !! n = Some i ->
  (forall e s', e < 0 -> ether_target s i bs = None -> core (b :: o) s' -> calm [b] s s' -> Q e s') ->
  (forall h p s', ether_target s i bs = Some (h, p) -> own o s' b p 0 -> calm [b] s s' ->
     wp Q (call_ether_handler tcp_in h n b s')) ->
  wp Q (ether_in tcp_in (Some n) (Some b) s).
Proof.
  intros Hown Hi Herr Hok. unfold ether_in. eapply wp_eq; [by eapply own_total|].
  unfold ether_target in Herr, Hok. rewrite (Z.leb_antisym (len bs)), (Z.leb_antisym ETH_FRAME_MAX) in Herr, Hok.
  destruct (Z.ltb_spec (len bs) ETH_FRAME_MIN) as [|Hmin]; cbn [negb andb orb] in Herr, Hok |- *.
  { apply Herr; [done..|by destruct Hown|done]. }
  destruct (Z.ltb_spec ETH_FRAME_MAX (len bs)) as [|Hmax]; cbn [negb andb orb] in Herr, Hok |- *.
  { apply Herr; [done..|by destruct Hown|done]. }
  change ETH_FRAME_MIN with 60 in Hmin. wstep own_set_cont as [Hn1 H1]; [done|].
  rewrite (proj2 (Z.leb_le sizeof_ether_hdr_t (len bs))) in H1 by (unfold sizeof_ether_hdr_t; lia).
  change (sizeof_ether_hdr_t <=? PKTBUF_BLK_SIZE) with true in H1. destruct H1 as (-> & Hown1 & bi & d & Hf1).
  cbn [NET_ERR_OK Z.eqb negb]. eapply wp_eq; [by eapply own_data|].
  eapply wp_eq; [by eapply (own_hdr_load Hown1 Hf1)|].
  change (take (Z.to_nat (Z.of_nat ETH_HWA_SIZE)) (drop (Z.to_nat ether_dest) bs)) with (take 6 bs).
  eapply wp_eq; [apply load_netif_at; by rewrite (calm_netif _ _ _ Hn1)|].
  destruct (_ && _) eqn:Hdest.
  { apply andb_true_iff in Hdest as [[H1 H2]%andb_true_iff H3]. apply negb_true_iff in H2, H3.
    rewrite H1, H2, H3 in Herr. apply Herr; [done..|by destruct Hown1|done]. }
  assert (Hd : negb (Z.of_nat ETH_HWA_SIZE <=? hw_len (hwaddr i)) ||
      bool_decide (take 6 bs = take ETH_HWA_SIZE (hw_addr (hwaddr i))) || ether_is_broadcast (take 6 bs) = true).
  { revert Hdest. by destruct (_ <=? _), (bool_decide _), (ether_is_broadcast _). }
  rewrite Hd in Herr, Hok. unfold sizeof_ether_hdr_t in *. eapply wp_eq; [by eapply own_load16|].
  change (Z.to_nat ether_protocol) with 12%nat. eapply wp_eq; [reflexivity|].
  assert (Eh : ether_handlers s' = ether_handlers s) by (destruct Hn1 as [_ ->]; by destruct s). rewrite Eh.
  wstep own_remove_header as [Hn2 H2]; [done|]. rewrite (proj2 (Z.ltb_ge _ _)) in H2 by lia.
  destruct H2 as [-> Hown2]. cbn [NET_ERR_OK Z.eqb negb]. wstep own_reset_acc as (Hown3 & Hn3 & _).
  assert (calm [b] s s'1) by (by repeat (etransitivity; [eassumption|])).
  destruct (find_handler _ _) as [h|]; cbn in Herr, Hok.
  - by eapply Hok.
  - apply Herr; [done..|by destruct Hown3|done].
Qed.

Lemma arp_taken o s b bs m n :
  own o s b bs m -> stack_ok (b :: o) s -> n ∈ dom (netif_buffer s) ->
  wp (fun r s' => taken o b s r s') (arp_in (Some n) (Some b) s).
Proof.
  intros Hown Hst Hd. eapply wp_mono; [|eapply arp_in_ok; [done|by destruct Hst|done]].
  intros r s' (Hacc & Ha & Hf & _). apply taken_handled; [done|split_and!; [done..|by apply far_served]|].
  eapply far_udp_ok; [done|by destruct Hst].
Qed.

Lemma ether_in_ok o s b bs m n :
  own o s b bs m -> stack_ok (b :: o) s -> n ∈ dom (netif_buffer s) ->
  wp (fun r s' => taken o b s r s') (ether_in tcp_in (Some n) (Some b) s).
Proof.
  intros Hown Hst Hd. pose proof Hd as [i Hi]%elem_of_dom. apply (ether_in_frame _ Hown Hi).
  - intros e s' He _ Hc Hn. by apply taken_err.
  - intros h p s' _ Hown' Hn. rewrite <- (calm_netif _ _ _ Hn) in Hd.
    assert (Hst' : stack_ok (b :: o) s') by (eapply stack_calm; [done|by destruct Hown'|done]).
    eapply (wp_mono (fun r s2 => taken o b s' r s2)).
    + intros r s2 Ht. eapply taken_after; [by apply calm_passed|done].
    + destruct h; [by eapply arp_taken|by eapply ipv4_in_ok].
Qed.
End ether.
