(* ===== verification/NetStack.v ===== *)
(** * The worker's input path (net/net_stack.c)

    [net_stack_process_input] takes a packet from the queue of an interface
    and gives it to the link layer; [net_stack_poll_once] first asks the device
    for a frame.  The probes under [QS_M5_TEST] and [QS_M6A_TEST] are left out. *)

From S2P Require Import Prelude IpAddr Mblock Pktbuf Sys Fixq Net Netif Ether Arp NetifLink Ipv4 Icmp.
From S2P Require Import Udp Input.

Section stack.
Context (tcp_in : option nat -> option Z -> option Z -> option nat -> M net Z).

Definition net_stack_process_input (netif : option nat) : M net Z :=
  match netif with
  | None => mret NET_ERR_PARAM
  | Some n =>
      i ← load_netif n;
      if negb (bool_decide (state i = NETIF_ACTIVE)) then mret NET_ERR_STATE
      else
        buf ← get_in netif;
        match buf with
        | None => mret NET_ERR_NONE
        | Some b =>
            i ← load_netif n;
            err ← (if bool_decide (type i = NETIF_TYPE_LOOP) then ipv4_in tcp_in netif buf
                   else if bool_decide (type i = NETIF_TYPE_ETHER) then
                     match link_layer i ≫= ll_in with
                     | Some l => call_link_in tcp_in l n b
                     | None => mret NET_ERR_NOT_SUPPORT
                     end
                   else mret NET_ERR_NOT_SUPPORT);
            when (err <? 0) (pk (pktbuf_free buf));;
            mret err
        end
  end.

(** The deadline is passed on to the device, whose answers are [rx_results]. *)
Definition net_stack_poll_once (netif : option nat) : M net Z :=
  match netif with
  | None => mret NET_ERR_PARAM
  | Some n =>
      i ← load_netif n;
      if negb (bool_decide (state i = NETIF_ACTIVE)) then mret NET_ERR_STATE
      else
        err ← netif_virtio_poll netif;
        if err <? 0 then mret err else net_stack_process_input netif
  end.

End stack.
