(* ===== verification/OwnerStack.v ===== *)
(** * The input path under the ownership invariant *)

From S2P Require Import Prelude Tools IpAddr Nlist Timer Mblock Pktbuf PktbufSpec PktbufChain.
From S2P Require Import PktbufOps PktbufFrame Sys Fixq Net Netif Ether Arp NetifLink Ipv4 Icmp Udp Input.
From S2P Require Import NetStack Owner OwnerPkt OwnerQueue OwnerOut OwnerArp OwnerResolve OwnerIp.
From S2P Require Import OwnerIcmp OwnerUdp OwnerTcp OwnerTcpInput OwnerInput.

#[local] Opaque checksum16.

Lemma own_get_in o s n i :
  core o s -> netif_buffer s !! n = Some i -> opened i = true ->
  wp (fun x s' => near [] s s' /\
        match x with
        | None => s' = s /\ holds s (InQueue n) = []
        | Some b => exists bs l, own o s' b bs 0 /\ holds s (InQueue n) = b :: l
        end) (get_in (Some n) s).
Proof.
  intros Hc Hi Hop. unfold netif_get_in. change (in_ref n) with (side_ref SIn n).
  wstep own_recv as (Hn & Hp & Htx & H). destruct a as [b|]; [|done].
  destruct H as (l & Hc1 & Hl1 & Hh & Hh'). cbn [side_place] in *.
  destruct (own_intro _ _ _ Hc1 Hl1) as (bs & m & Hown).
  wstep own_reset_acc as (Hown' & Hcalm & _). split; [|by exists bs, l].
  apply (near_drop b). { left. intros Hl. apply (Hl (InQueue n)). rewrite Hh. set_solver. }
  transitivity s'; [eapply near_mono, Hn; set_solver|by apply calm_near].
Qed.

Lemma near_passed bs s s' : near bs s s' -> passed bs s s'.
Proof. intros. by apply served_passed, far_served, near_far. Qed.

Lemma stack_near o o' bs s s' : stack_ok o s -> core o' s' -> near bs s s' -> stack_ok o' s'.
Proof.
  intros [_ Ha Hu Ht Hh] Hc Hn. split; [done|by eapply arp_ok_near|by eapply far_udp_ok, Hu; apply near_far| |].
  - eapply served_tcp; [by apply far_served, near_far|done].
  - by rewrite (passed_handlers _ _ _ (near_passed _ _ _ Hn)).
Qed.

Lemma passed_drop b bs s s' :
  (~ loose s b \/ (forall p, ~ live (pkt s) b p)) -> passed (b :: bs) s s' -> passed bs s s'.
Proof. intros Hb [E H]. split; [done|by eapply spared_drop]. Qed.

(** What receiving packets and the passing of time leave alone of the
    interfaces and of the UDP control blocks. *)
Record kept (s s' : net) : Prop := {
  kept_dom : dom (netif_buffer s') = dom (netif_buffer s);
  kept_loop : loop_netif s' = loop_netif s;
  kept_pcbs : pcbs s' = pcbs s;
  kept_blocks : no_recv <$> udp_pcbs s' = no_recv <$> udp_pcbs s }.
#[global] Instance kept_refl : Reflexive kept.
Proof. by split. Qed.
#[global] Instance kept_trans : Transitive kept.
Proof. intros s1 s2 s3 [] []. split; congruence. Qed.
Lemma passed_kept bs s s' : passed bs s s' -> kept s s'.
Proof.
  intros H. split; [by eapply passed_dom|..]; destruct H as [E _].
  - exact (f_equal loop_netif E).
  - exact (f_equal pcbs E).
  - exact (f_equal udp_pcbs E).
Qed.

Section stack.
Context (tcp_in : option nat -> option Z -> option Z -> option nat -> M net Z) `{!InputHandler tcp_in}.

(** A caller that frees the packet when the input function failed. *)
Lemma taken_free o b s s1 r :
  taken o b s r s1 ->
  wp (fun _ s' => stack_ok o s' /\ passed [b] s s')
     ((when (r <? 0) (pk (pktbuf_free (Some b)));; mret r) s1).
Proof.
  intros [Hst Hs]. destruct (r <? 0); cbn [when].
  - wstep own_free as [Hc Hn]; [by destruct Hst|]. cbn [wp mret M_ret].
    split; [by eapply stack_calm|]. transitivity s1; [done|by apply calm_passed].
  - eapply wp_eq; [reflexivity|]. by cbn.
Qed.

Lemma process_input_ok o s n :
  stack_ok o s -> n ∈ dom (netif_buffer s) ->
  wp (fun _ s' => stack_ok o s' /\ passed [] s s') (net_stack_process_input tcp_in (Some n) s).
Proof.
  intros Hst [i Hi]%elem_of_dom. unfold net_stack_process_input.
  eapply wp_eq; [by apply load_netif_at|]. case_bool_decide as Hact; cbn [negb]; [|by cbn].
  assert (Hop : opened i = true) by (unfold opened; by rewrite Hact).
  wstep own_get_in as [Hn1 H1]; [by destruct Hst|]. destruct a as [b|]; [|by destruct H1 as [-> _]].
  destruct H1 as (bs & l & Hown & Hh).
  destruct (near_opened _ _ _ _ _ Hn1 Hi) as (i1 & Hi1 & _ & _).
  eapply wp_eq; [by apply load_netif_at|].
  assert (Hst1 : stack_ok (b :: o) s') by (eapply stack_near; [done|by destruct Hown|done]).
  assert (Hd1 : n ∈ dom (netif_buffer s')) by (apply elem_of_dom; by exists i1).
  assert (Hbad : taken o b s' NET_ERR_NOT_SUPPORT s') by (by apply taken_err; [|..|destruct Hown|]).
  eapply (wp_step (fun r s2 => taken o b s' r s2)).
  { repeat case_bool_decide; [by eapply ipv4_in_ok| |by cbn].
    destruct (link_layer i1 ≫= ll_in) as [[]|]; [by eapply ether_in_ok|by cbn]. }
  intros r s2 Ht. eapply wp_mono; [|by apply (taken_free o b s')]. intros _ s3 [Hst3 Hs3]. split; [done|].
  apply (passed_drop b). { left. intros Hl. apply (Hl (InQueue n)). rewrite Hh. set_solver. }
  transitivity s'; [|done]. apply near_passed. eapply near_mono, Hn1. set_solver.
Qed.

Lemma virtio_poll_ok o s n i :
  core o s -> netif_buffer s !! n = Some i -> opened i = true ->
  Forall (fun f => are_bytes (default [] f)) (rx_results s) ->
  wp (fun _ s' => core o s' /\ exists s1, s1 = s <| rx_results := tail (rx_results s) |> /\ near [] s1 s')
     (netif_virtio_poll (Some n) s).
Proof.
  intros Hc Hi Hop Hrx. unfold netif_virtio_poll, virtio_net_receive.
  set (s1 := s <| rx_results := tail (rx_results s) |>).
  eapply wp_eq; [reflexivity|]. fold s1. assert (Hc1 : core o s1) by (by destruct Hc).
  assert (Hsame : forall e : Z, wp (fun _ s' => core o s' /\ exists s1', s1' = s1 /\ near [] s1' s') (Ret e s1)).
  { intros e. cbn [wp]. split; [done|]. by exists s1. }
  destruct (default None (head (rx_results s))) as [frame|] eqn:Hf; [|apply Hsame].
  assert (Hb : are_bytes frame).
  { destruct (rx_results s) as [|f rx]; [done|]. cbn in Hf. subst f.
    apply Forall_cons in Hrx as [Hb _]. exact Hb. }
  destruct (_ || _) eqn:Hlen; [apply Hsame|].
  apply orb_false_iff in Hlen as [Hmin%Z.ltb_ge Hmax%Z.ltb_ge]. unfold ETHERNET_MIN_FRAME in Hmin.
  wstep own_alloc as [Hn2 H2]; [lia|]. destruct a as [b|].
  2: { cbn [wp mret M_ret]. split; [done|]. exists s1. split; [done|by apply calm_near]. }
  destruct H2 as (Hdead & (bs & Hl & Hown2) & _). wstep own_write as (Hn3 & _ & H3); [lia|].
  rewrite (proj2 (Z.ltb_ge _ _)) in H3 by lia. destruct H3 as [-> Hown3]. cbn [NET_ERR_OK Z.eqb negb].
  assert (Hn13 : calm [] s1 s'0) by (by eapply calm_fresh).
  unfold netif_put_in. change (in_ref n) with (side_ref SIn n).
  assert (Hi3 : netif_buffer s'0 !! n = Some i) by (by rewrite (calm_netif _ _ _ Hn13)).
  wstep (own_send o s'0 b _ _ SIn n i) as H4.
  destruct H4 as [(-> & Hc4 & Hn4 & _)|[-> ->]]; cbn [NET_ERR_OK NET_ERR_FULL Z.ltb Z.compare].
  - cbn [wp mret M_ret]. split; [done|]. exists s1. split; [done|].
    eapply near_fresh; [done|by apply calm_near|done].
  - wstep own_free as [Hc5 Hn5]; [by destruct Hown3|]. cbn [wp mret M_ret]. split; [done|]. exists s1.
    split; [done|]. eapply near_fresh; [done|by apply calm_near|by apply calm_near].
Qed.

(** A frame from the device, whatever it contains, and however far it gets. *)
Lemma poll_once_ok o s n :
  stack_ok o s -> n ∈ dom (netif_buffer s) -> Forall (fun f => are_bytes (default [] f)) (rx_results s) ->
  wp (fun _ s' => stack_ok o s' /\ spared [] s s' /\ kept s s') (net_stack_poll_once tcp_in (Some n) s).
Proof.
  intros Hst [i Hi]%elem_of_dom Hrx. unfold net_stack_poll_once.
  eapply wp_eq; [by apply load_netif_at|]. case_bool_decide as Hact; cbn [negb]; [|by cbn].
  assert (Hop : opened i = true) by (unfold opened; by rewrite Hact).
  wstep virtio_poll_ok as (Hc1 & s1 & E1 & Hn1); [by destruct Hst|].
  assert (Hst1 : stack_ok o s').
  { eapply (stack_near o o [] s1); [|done..]. rewrite E1. destruct Hst as [[] [] [] [] ?].
    split; [by split..|done]. }
  assert (Hsp : spared [] s s') by (transitivity s1; [rewrite E1; by intros c p|by destruct Hn1]).
  assert (Hkp : kept s s') by (transitivity s1; [rewrite E1; by split|by eapply passed_kept, near_passed]).
  destruct (a <? 0); [by cbn|]. eapply wp_mono; [|apply (process_input_ok o s' n); [done|]].
  - intros _ s2 [Hst2 Hp2]. pose proof (passed_kept _ _ _ Hp2). destruct Hp2 as [_ Hs2].
    split_and!; [done|by transitivity s'|by transitivity s'].
  - rewrite (outside_dom (proj1 Hn1)), E1. apply elem_of_dom. by exists i.
Qed.
End stack.
