(* ===== verification/OwnerRecv.v ===== *)
(** * The calls of a UDP socket under the invariant

    Binding, receiving without waiting, and closing when no task waits. *)

From S2P Require Import Prelude Tools IpAddr Nlist Timer Mblock Pktbuf PktbufSpec PktbufChain.
From S2P Require Import PktbufOps PktbufFrame Sys Fixq Net Netif Ether Arp NetifLink Ipv4 Udp Owner.
From S2P Require Import OwnerPkt OwnerQueue OwnerOut OwnerArp OwnerResolve OwnerIp OwnerIcmp.
From S2P Require Import OwnerUdp.

Definition with_pcb (s : net) (p : nat) (x : udp_pcb_t) : net :=
  s <| udp_pcbs := <[p := x]> (udp_pcbs s) |>.

Lemma load_pcb_at s p x : udp_pcbs s !! p = Some x -> load_pcb p s = Ret x s.
Proof. intros H. unfold load_pcb. mstep. by apply deref_ret. Qed.

Lemma store_pcb_at s p x f : udp_pcbs s !! p = Some x -> store_pcb p f s = Ret () (with_pcb s p (f x)).
Proof. intros H. unfold store_pcb. by mstep by (by apply load_pcb_at). Qed.

(** A change of a control block that keeps its queue and semaphore. *)
Lemma with_pcb_core o s p x x' :
  core o s -> udp_pcbs s !! p = Some x -> recv_queue x' = recv_queue x -> close_done x' = close_done x ->
  core o (with_pcb s p x').
Proof.
  intros [Hwf Ha Hn Hr Hs Hlv] Hx Hq Hd.
  assert (E : forall u, sems_at (with_pcb s p x') u = sems_at s u).
  { intros [m|m|r|r|r]; cbn [sems_at]; try done.
    all: change (pcbs (with_pcb s p x')) with (pcbs s); case_bool_decide; [|done];
      cbn; (destruct (decide (r = p)) as [->|]; [rewrite lookup_insert_eq, Hx|by rewrite lookup_insert_ne]);
      cbn; by rewrite ?Hq, ?Hd. }
  split; [done| |done| | |].
  - eapply acct_ext; [exact Ha|done| |done]. by intros [].
  - intros q y Hqp. cbn. intros [[<- <-]|[_ Hy]]%lookup_insert_Some; [|by eapply Hr].
    rewrite Hq. by eapply Hr.
  - intros u u' Hne. rewrite !E. by apply Hs.
  - intros u k. rewrite E. apply Hlv.
Qed.

(** ** Finding a slot *)

Lemma udp_find_slot_at s c :
  exists k, udp_find_slot c s = Ret k s /\
    if k <? 0 then c ∉ pcbs s else pcbs s !! Z.to_nat k = Some c.
Proof.
  eexists. split; [reflexivity|]. pose proof (find_slot_spec c 0 (pcbs s)) as H. cbn in H.
  destruct (Z.ltb_spec (find_slot_loop c 0 (pcbs s)) 0); [by apply H|].
  destruct H as (j & -> & Hj); [done|]. by rewrite Z.add_0_l, Nat2Z.id.
Qed.

(** ** Binding *)

Lemma port_taken_spec s p port l :
  (forall q, Some q ∈ l -> is_Some (udp_pcbs s !! q)) ->
  exists t, port_taken p port l s = Ret t s /\
    (t = true <-> exists q x, Some q ∈ l /\ q <> p /\ udp_pcbs s !! q = Some x /\
                              pcb_open x = true /\ local_port x = port).
Proof.
  induction l as [|[q|] l IH]; intros Hin; cbn [port_taken].
  - exists false. split; [done|]. split; [done|]. intros (q & x & Hq & _). set_solver.
  - destruct IH as (t & Ht & Hiff); [set_solver|]. destruct (Nat.eqb_spec q p) as [->|Hne].
    + exists t. split; [done|]. rewrite Hiff. split; intros (q & x & Hq & H); exists q, x; [set_solver|].
      split; [|done]. apply elem_of_cons in Hq as [[= ->]|]; [by destruct H|done].
    + destruct (Hin q) as [x Hx]; [set_solver|]. mstep by (by apply load_pcb_at).
      destruct (pcb_open x && (local_port x =? port)) eqn:Hc.
      * apply andb_true_iff in Hc as [Ho Hl%Z.eqb_eq]. exists true. split; [done|]. split; [|done].
        intros _. exists q, x. split; [set_solver|done].
      * exists t. split; [done|]. rewrite Hiff. split; intros (r & y & Hr & H); exists r, y; [set_solver|].
        split; [|done]. apply elem_of_cons in Hr as [[= ->]|]; [|done].
        destruct H as (_ & Hy & Ho & Hl). rewrite Hx in Hy. injection Hy as ->.
        by rewrite Ho, (proj2 (Z.eqb_eq _ _)) in Hc.
  - destruct IH as (t & Ht & Hiff); [set_solver|]. exists t. split; [done|]. rewrite Hiff.
    split; intros (q & x & Hq & H); exists q, x; set_solver.
Qed.

(** The port becomes the control block's if no other open one has it. *)
Lemma udp_bind_ok o s p port :
  core o s -> udp_ok s -> is_Some (udp_pcbs s !! p) -> 0 <= port < 2 ^ 16 ->
  wp (fun r s' => core o s' /\ udp_ok s' /\
        (s' = s \/ exists x, udp_pcbs s !! p = Some x /\ s' = with_pcb s p (x <| local_port := port |>)) /\
        ((r = NET_ERR_PARAM /\ s' = s) \/
         (r = NET_ERR_EXIST /\ s' = s /\ exists i q, q <> p /\ port_owner s port i q) \/
         (r = NET_ERR_OK /\ exists i, port_owner s' port i p /\
            forall i' q, port_owner s' port i' q -> q = p)))
     (udp_bind (Some p) port s).
Proof.
  intros Hc Hu [x Hx] Hport. unfold udp_bind. eapply wp_eq; [by apply load_pcb_at|].
  destruct (udp_find_slot_at s (Some p)) as (k & Hk & Hslot). eapply wp_eq; [exact Hk|].
  destruct (_ || _) eqn:Hbad; [cbn [wp mret M_ret]; by split_and!; [..|left|left]|].
  apply orb_false_iff in Hbad as [[Ho Hk0]%orb_false_iff Hp0%Z.eqb_neq]. apply negb_false_iff in Ho.
  rewrite Hk0 in Hslot. eapply wp_eq; [reflexivity|].
  destruct (port_taken_spec s p port (pcbs s)) as (t & Ht & Hiff).
  { intros q (j & Hj)%list_elem_of_lookup. destruct (udp_slot _ Hu j q Hj) as (y & Hy & _). by exists y. }
  eapply wp_eq; [exact Ht|]. destruct t.
  - cbn [wp mret M_ret]. split_and!; [done..|by left|]. right. left. split_and!; [done..|].
    destruct (proj1 Hiff eq_refl) as (q & y & (j & Hj)%list_elem_of_lookup & Hne & Hy & Ho' & Hl).
    exists j, q. split; [done|]. split; [done|]. by exists y.
  - assert (Hfree : forall q y, Some q ∈ pcbs s -> q <> p -> udp_pcbs s !! q = Some y ->
      pcb_open y = true -> local_port y <> port).
    { intros q y Hq Hne Hy Ho' Hl. by apply (fun H => Bool.diff_false_true (proj2 Hiff H)); exists q, y. }
    eapply wp_eq; [by apply store_pcb_at|]. cbn [wp mret M_ret]. set (x' := x <| local_port := port |>).
    set (s' := with_pcb s p x').
    assert (Hpo : forall i q, port_owner s' port i q -> q = p).
    { intros i q (Hi & y & Hy & Ho' & Hl). cbn in Hy. apply lookup_insert_Some in Hy as [[-> _]|[Hne Hy]]; [done|].
      exfalso. apply (Hfree q y); [by eapply list_elem_of_lookup_2|congruence|done..]. }
    split_and!; [by eapply with_pcb_core| |right; by exists x|].
    2: { right. right. split; [done|]. exists (Z.to_nat k). split; [|done]. split; [done|]. exists x'.
         cbn. by rewrite lookup_insert_eq. }
    destruct Hu as [H1 H2 H3 H4 H5 H6]. split; try done.
    + intros i q Hi. cbn. destruct (H3 i q Hi) as (y & Hy & Hok). destruct (decide (q = p)) as [->|Hne].
      * rewrite lookup_insert_eq. exists x'. split; [done|]. rewrite Hx in Hy. injection Hy as <-.
        destruct Hok as (? & ? & ? & ? & ?). by destruct Hport.
      * rewrite lookup_insert_ne by done. by exists y.
    + assert (Hother : forall q y, Some q ∈ pcbs s -> q <> p -> udp_pcbs s' !! q = Some y ->
        pcb_open y = true -> local_port y <> port).
      { intros q y Hq Hne Hy. apply (Hfree q); [done..|]. cbn in Hy. by rewrite lookup_insert_ne in Hy. }
      intros q1 q2 y1 y2 Hq1 Hq2 Hne Hy1 Hy2 Ho1 Ho2 Hl.
      change (pcbs s') with (pcbs s) in Hq1, Hq2.
      destruct (decide (q1 = p)) as [->|Hn1], (decide (q2 = p)) as [->|Hn2]; [done|..].
      * exfalso. apply (Hother q2 y2); try done. cbn in Hy1. rewrite lookup_insert_eq in Hy1. by simplify_eq.
      * exfalso. apply (Hother q1 y1); try done. cbn in Hy2. rewrite lookup_insert_eq in Hy2. by simplify_eq.
      * cbn in Hy1, Hy2. rewrite lookup_insert_ne in Hy1, Hy2 by done. by apply (H6 q1 q2 y1 y2).
Qed.

(** * Receiving a datagram from a UDP control block

    [udp_recvfrom] without waiting: the oldest datagram of the control block is
    copied to the caller and its packet is freed. *)

Lemma udp_ok_pcb s p x x' :
  udp_ok s -> udp_pcbs s !! p = Some x -> recv_queue x' = recv_queue x ->
  local_port x' = local_port x -> pcb_open x' = pcb_open x -> udp_ok (with_pcb s p x').
Proof.
  intros [H1 H2 H3 H4 H5 H6] Hx Hq Hl Ho. split; try done.
  - intros i q Hi. destruct (H3 i q Hi) as (y & Hy & Hok). cbn. destruct (decide (q = p)) as [->|].
    + rewrite lookup_insert_eq. exists x'. split; [done|]. rewrite Hx in Hy. injection Hy as <-.
      destruct Hok as (? & ? & ? & ? & ?). unfold slot_ok. by rewrite Hq, Hl.
    + rewrite lookup_insert_ne by done. by exists y.
  - assert (Hs : forall q y, udp_pcbs (with_pcb s p x') !! q = Some y -> exists y', udp_pcbs s !! q = Some y' /\
      local_port y = local_port y' /\ pcb_open y = pcb_open y').
    { intros q y. cbn. intros [[<- <-]|[_ Hy]]%lookup_insert_Some; [by exists x|by exists y]. }
    intros q1 q2 y1 y2 Hq1 Hq2 Hne Hy1 Hy2.
    destruct (Hs _ _ Hy1) as (z1 & Hz1 & -> & ->), (Hs _ _ Hy2) as (z2 & Hz2 & -> & ->).
    by apply (H6 q1 q2).
Qed.

Lemma alter_same {A} (f : A -> A) (l : list A) k : (forall x, l !! k = Some x -> f x = x) -> alter f k l = l.
Proof. intros Hf. transitivity (alter id k l); [by apply list_alter_ext|by apply list_alter_id]. Qed.

(** ** Working on a packet that is still in its record

    [v] is the state in which the record is empty and the packet is the
    caller's. *)
Section stored.
Context (i j : nat) (r0 : udp_recv_t).

Lemma over_pk {A} (m : M pkt_state A) v (P : A -> net -> Prop) :
  wp P (pk m v) ->
  wp (fun a s' => exists v', P a v' /\ s' = with_record v' i j r0) (pk m (with_record v i j r0)).
Proof.
  unfold zoom. cbn [pkt_lens lget lset]. change (pkt (with_record v i j r0)) with (pkt v).
  destruct (m (pkt v)) as [a k|]; [|done]. cbn. intros HP. eexists. split; [exact HP|]. by destruct v.
Qed.

Lemma with_record_id s r : record_at s i j = Some r -> with_record s i j r = s.
Proof.
  intros Hr. assert (E : alter (alter (fun _ => r) j) i (recv_records s) = recv_records s).
  { unfold record_at in Hr. apply alter_same. intros row Hrow. apply alter_same. intros r' Hr'.
    rewrite Hrow in Hr. cbn in Hr. congruence. }
  unfold with_record. rewrite E. by destruct s.
Qed.

Context (b : nat) (Hb : rec_buf r0 = Some b).

Lemma record_over v r1 : record_at v i j = Some r1 -> record_at (with_record v i j r0) i j = Some r0.
Proof. intros H. rewrite with_record_at by (by exists r1). by rewrite decide_True. Qed.

Lemma release_over o v :
  core (b :: o) v -> record_at v i j = Some (r0 <| rec_buf := None |>) ->
  wp (fun _ s' => core o s' /\ calm [b] v s') (release_record i j (with_record v i j r0)).
Proof using Hb.
  intros Hc Hr. unfold release_record. eapply wp_eq; [by eapply load_record_at, record_over|]. rewrite Hb.
  eapply wp_step; [by apply over_pk, own_free|]. intros _ s' (v' & [Hc' Hn] & ->).
  assert (Hr' : record_at v' i j = Some (r0 <| rec_buf := None |>)) by (destruct Hn as [_ ->]; exact Hr).
  eapply wp_run; [by eapply store_record_at, record_over|]. rewrite with_record_twice, with_record_id by done. done.
Qed.

(** The record is copied out and emptied. *)
Lemma take_record_over o v seg m size :
  own o v b seg m -> record_at v i j = Some (r0 <| rec_buf := None |>) -> 0 <= size ->
  wp (fun res s' => core o s' /\ calm [b] v s' /\
        if len seg <? UDP_HEADER_SIZE then res = (NET_ERR_SIZE, nothing)
        else let copied := Z.min size (len seg - UDP_HEADER_SIZE) in
          res = (copied, Received (take (Z.to_nat copied) (drop 8 seg)) (Some (rec_src r0)) (Some (rec_port r0))))
     (udp_take_record i j size (with_record v i j r0)).
Proof using Hb.
  intros Hown Hr Hsz. unfold udp_take_record. eapply wp_eq; [by eapply load_record_at, record_over|]. rewrite Hb.
  eapply wp_step; [apply over_pk; by eapply (own_remove_header Hown)|].
  intros e s1 (v1 & [Hn1 H1] & ->).
  assert (Hrec : forall v', calm [b] v v' -> record_at v' i j = Some (r0 <| rec_buf := None |>))
    by (intros v' [_ ->]; exact Hr).
  destruct (Z.ltb_spec (len seg) UDP_HEADER_SIZE) as [|Hl].
  { destruct H1 as [-> ->]. cbn [NET_ERR_SIZE Z.ltb Z.compare].
    eapply wp_step; [by apply release_over; [destruct Hown|]|]. intros _ s' [Hc' Hn']. by cbn. }
  destruct H1 as [-> Hown1]. cbn [NET_ERR_OK Z.ltb Z.compare]. unfold UDP_HEADER_SIZE in *.
  change (Z.to_nat 8) with 8%nat in Hown1.
  eapply wp_step; [apply over_pk, (wp_run (fun a v' => a = len (drop 8 seg) /\ v' = v1)
    _ _ _ (own_total Hown1)); done|].
  intros total s2 (v2 & [-> ->] & ->). rewrite length_drop. cbn [deref]. eapply wp_eq; [reflexivity|].
  eapply wp_step; [apply over_pk; by eapply (own_reset_acc Hown1)|]. intros _ s3 (v3 & (Hown3 & Hn3 & _) & ->).
  set (copied := if size <? _ then _ else _).
  assert (Hcop : copied = Z.min size (len seg - 8)) by (unfold copied; destruct (Z.ltb_spec size (Z.of_nat (length seg - 8))); lia).
  assert (Hread : wp (fun res v' => res = (NET_ERR_OK, take (Z.to_nat copied) (drop 8 seg)) /\
    core (b :: o) v' /\ calm [b] v3 v') (pk (pktbuf_read (Some b) true copied) v3)).
  { destruct (decide (copied = 0)) as [E|E].
    - rewrite E. eapply wp_run; [by apply pk_same|]. split_and!; [done|by destruct Hown3|done].
    - eapply wp_mono; [|apply (own_read Hown3); lia]. intros res v' [Hn H].
      rewrite length_drop, (proj2 (Z.ltb_ge _ _)) in H by lia. destruct H as [-> Hown4].
      split_and!; [done|by destruct Hown4|done]. }
  eapply wp_step; [by apply over_pk, Hread|]. intros res s4 (v4 & (-> & Hc4 & Hn4) & ->). cbn [fst snd].
  cbn [NET_ERR_OK Z.ltb Z.compare].
  assert (Hn : calm [b] v v4) by (by repeat (etransitivity; [eassumption|])).
  eapply wp_step; [by apply release_over; [|apply Hrec]|]. intros _ s' [Hc' Hn']. cbn [wp mret M_ret].
  split_and!; [done|by transitivity v4|]. by rewrite <- Hcop.
Qed.
End stored.

(** ** The call *)

Lemma with_pcb_id s p x : udp_pcbs s !! p = Some x -> with_pcb s p x = s.
Proof. intros Hx. unfold with_pcb. rewrite insert_id by done. by destruct s. Qed.
Lemma with_pcb_twice s p x y : with_pcb (with_pcb s p x) p y = with_pcb s p y.
Proof. unfold with_pcb. cbn [upd_field udp_pcbs]. rewrite insert_insert_eq. by destruct s. Qed.

(** The oldest item of the queue leaves it; its record is emptied in the state
    [v], in which the caller owns the packet. *)
Lemma dequeue_ok o s i p x j l q' y' :
  core o s -> udp_ok s -> pcbs s !! i = Some (Some p) -> udp_pcbs s !! p = Some x ->
  q_list (recv_queue x) = UdpRecord i j :: l -> fixq_ok y' q' (q_sems (recv_queue x)) l ->
  sems_kept (q_sems (recv_queue x)) (sys s) y' -> size q' = size (recv_queue x) ->
  exists r b, record_at s i j = Some r /\ rec_buf r = Some b /\
    let v := with_recv (with_record s i j (r <| rec_buf := None |>)) p q' y' in
    (exists bs m, own o v b bs m) /\ udp_ok v.
Proof.
  intros Hc Hu Hi Hx Hl Hq' Hk Hsz. destruct (udp_slot _ Hu i p Hi) as (x0 & Hx0 & _ & Hnd & Hit & Hrec & _).
  assert (x0 = x) as -> by congruence. rewrite Hl in *.
  assert (Hne : record_buf s i j <> None) by (apply Hrec; by left).
  destruct (record_at s i j) as [r|] eqn:Hr; [|by rewrite record_buf_at, Hr in Hne].
  destruct (rec_buf r) as [b|] eqn:Hb; [|by rewrite record_buf_at, Hr in Hne; cbn in Hne; rewrite Hb in Hne].
  exists r, b. split_and!; [done..|]. intros v. set (r1 := r <| rec_buf := None |>) in v.
  set (s1 := with_record s i j r1) in v.
  assert (Hsome : is_Some (record_at s i j)) by (by exists r).
  assert (Hacct : acct (refs (pkt s)) (holds s1) (b :: o) /\ loose s1 b).
  { apply (acct_take _ (holds s) _ _ _ [] (Stored i j)); [by apply core_acct|..].
    - cbn. by rewrite record_buf_at, Hr; cbn; rewrite Hb.
    - unfold s1. by rewrite with_record_holds, decide_True.
    - intros pl Hpl. unfold s1. by rewrite with_record_holds, decide_False. }
  destruct Hacct as [Ha Hloose].
  assert (Hc1 : core (b :: o) s1) by (by eapply with_record_core).
  assert (Hp : Some p ∈ pcbs s1) by (by eapply list_elem_of_lookup_2).
  destruct (fixq_ok_queue _ _ _ _ Hq') as (_ & _ & El).
  split.
  - apply own_intro; [by eapply with_recv_core|]. intros pl. specialize (Hloose pl). by destruct pl.
  - apply NoDup_cons in Hnd as [Hnj Hnd].
    apply (udp_ok_record s i j r1 p x q' y'); [done..| | | |]; rewrite El; [done|..].
    + intros it Hin. apply Hit. by right.
    + split; [done|]. by intros [].
    + intros j' Hj'. rewrite Hl, elem_of_cons. naive_solver.
Qed.

(** What receiving from the control block [p] and closing it change. *)
Definition udp_moves (p : nat) (s s' : net) : Prop :=
  exists k y rr u c, s' = s <| pkt := k |> <| sys := y |> <| recv_records := rr |> <| udp_pcbs := u |> <| pcbs := c |> /\
    (forall q, q <> p -> u !! q = udp_pcbs s !! q) /\ (is_Some (udp_pcbs s !! p) -> is_Some (u !! p)).
#[global] Instance udp_moves_trans p : Transitive (udp_moves p).
Proof.
  intros s1 s2 s3 (k & y & rr & u & c & -> & Hu & Hp) (k' & y' & rr' & u' & c' & -> & Hu' & Hp').
  exists k', y', rr', u', c'. split; [by destruct s1|]. split; [|intros ?; by apply Hp', Hp]. intros q Hq. rewrite Hu' by done. by apply Hu.
Qed.

(** What the caller of [udp_recvfrom] gets for the segment [seg] of the record [r]. *)
Definition datagram_of (r : udp_recv_t) (seg : bytes) (size : Z) : Z * received :=
  if len seg <? UDP_HEADER_SIZE then (NET_ERR_SIZE, nothing)
  else let copied := Z.min size (len seg - UDP_HEADER_SIZE) in
    (copied, Received (take (Z.to_nat copied) (drop 8 seg)) (Some (rec_src r)) (Some (rec_port r))).

Lemma udp_recvfrom_ok task_sleep fuel mtime o s i p x size :
  core o s -> arp_ok [] s -> udp_ok s -> pcbs s !! i = Some (Some p) -> udp_pcbs s !! p = Some x ->
  pcb_open x = true -> recv_waiting x = false -> 0 <= size ->
  wp (fun res s' => core o s' /\ arp_ok [] s' /\ udp_ok s' /\ udp_moves p s s' /\ pcbs s' = pcbs s /\
        (exists x', udp_pcbs s' !! p = Some x' /\ no_recv x' = no_recv x) /\
        match q_list (recv_queue x) with
        | [] => res = (NET_ERR_NONE, nothing) /\ s' = s
        | it :: l => exists j r b seg m rc x', it = UdpRecord i j /\ record_at s i j = Some r /\
            rec_buf r = Some b /\ has_view (pkt s) b (View seg m rc) /\ res = datagram_of r seg size /\
            udp_pcbs s' !! p = Some x' /\ q_list (recv_queue x') = l
        end)
     (udp_recvfrom task_sleep fuel mtime (Some p) true size (-1) s).
Proof.
  intros Hc Ha Hu Hi Hx Ho Hw Hsz. unfold udp_recvfrom.
  rewrite bool_decide_eq_false_2, (proj2 (Z.ltb_ge size 0)) by done. cbn [orb negb].
  eapply wp_eq.
  { unfold udp_recv_acquire. mstep by (by apply load_pcb_at). rewrite Ho, Hw. cbn [negb orb].
    by mstep by (by apply store_pcb_at). }
  cbn [NET_ERR_OK Z.ltb Z.compare]. set (x1 := x <| recv_waiting := true |>). set (s1 := with_pcb s p x1).
  unfold udp_recvfrom_acquired. rewrite (proj2 (Z.ltb_ge size 0)) by done. cbn [orb negb].
  assert (Hx1 : udp_pcbs s1 !! p = Some x1) by apply lookup_insert_eq.
  assert (Hc1 : core o s1) by (by eapply with_pcb_core).
  assert (Hu1 : udp_ok s1) by (by eapply udp_ok_pcb).
  assert (Hp : Some p ∈ pcbs s1) by (by eapply list_elem_of_lookup_2).
  assert (Hg : q_get (recv_ref p) s1 = Some (recv_queue x1)) by (cbn; by rewrite lookup_insert_eq).
  pose proof (core_recv _ _ Hc1 p x1 Hp Hx1) as Hq.
  destruct (fixq_recv_try (L := sys_lens) task_sleep fuel mtime s1 _ _ _ Hg Hq) as (s2 & Hrun & Hpost).
  eapply wp_eq; [exact Hrun|]. change (recv_queue x1) with (recv_queue x) in Hpost |- *.
  destruct (q_list (recv_queue x)) as [|it l] eqn:Hl; cbn [head].
  - subst s2. eapply wp_eq; [by apply store_pcb_at|]. unfold s1. rewrite with_pcb_twice.
    replace (x1 <| recv_waiting := false |>) with x by (destruct x; cbn in Hw |- *; by rewrite Hw).
    rewrite with_pcb_id by done. eapply wp_eq; [by apply load_pcb_at|]. rewrite Ho. cbn [negb].
    cbn [wp mret M_ret]. split_and!; [done..| |done|by exists x|done|done].
    exists (pkt s), (sys s), (recv_records s), (udp_pcbs s), (pcbs s). split; [by destruct s|done].
  - destruct Hpost as (q' & y' & -> & Hq' & Hk & Hsz'). fold (with_recv s1 p q' y').
    destruct (udp_slot _ Hu1 i p Hi) as (x0 & Hx0 & Hslot). rewrite Hx1 in Hx0. injection Hx0 as <-.
    destruct Hslot as (_ & _ & Hit & _). change (recv_queue x1) with (recv_queue x) in Hit. rewrite Hl in Hit.
    destruct (Hit it) as [j ->]; [by left|].
    destruct (dequeue_ok o s1 i p x1 j l q' y') as (r & b & Hr & Hb & (seg & m & Hown) & Huv); [done..|].
    set (v := with_recv _ p q' y') in Hown, Huv.
    assert (Hx2 : udp_pcbs v !! p = Some (x1 <| recv_queue := q' |>)).
    { unfold v. rewrite (with_recv_pcbs (s := with_record s1 i j (r <| rec_buf := None |>)) Hx1).
      apply lookup_insert_eq. }
    set (x3 := x1 <| recv_queue := q' |> <| recv_waiting := false |>).
    eapply wp_eq; [exact (store_pcb_at (with_recv s1 p q' y') p _ (fun x => x <| recv_waiting := false |>) Hx2)|].
    fold x3.
    assert (Es : with_pcb (with_recv s1 p q' y') p x3 = with_record (with_pcb v p x3) i j r).
    { assert (E : with_recv s1 p q' y' = with_record v i j r).
      { rewrite <- (with_record_id i j s1 r Hr) at 1. unfold v.
        rewrite <- (with_record_twice s1 i j (r <| rec_buf := None |>) r). reflexivity. }
      rewrite E. reflexivity. }
    cbv beta. fold x3. rewrite Es. set (v3 := with_pcb v p x3).
    eapply wp_eq; [apply (load_pcb_at _ p x3), lookup_insert_eq|]. change (pcb_open x3) with (pcb_open x).
    rewrite Ho. cbn [negb].
    assert (Hown3 : own o v3 b seg m).
    { destruct Hown as (Hcv & Hlv & Hv). split_and!; [by eapply with_pcb_core| |done].
      intros pl. specialize (Hlv pl). by destruct pl. }
    assert (Hr3 : record_at v3 i j = Some (r <| rec_buf := None |>)).
    { change (record_at (with_record s1 i j (r <| rec_buf := None |>)) i j = Some (r <| rec_buf := None |>)).
      rewrite with_record_at by (by exists r). by rewrite decide_True. }
    eapply wp_mono; [|by apply (take_record_over i j r b Hb o v3 seg m size)].
    intros res s' (Hc' & Hn & Hres). destruct (fixq_ok_queue _ _ _ _ Hq') as (_ & _ & El).
    assert (Hu3 : udp_ok v3) by (by eapply udp_ok_pcb).
    destruct Hn as [Hsp En]. assert (Hn : calm [b] v3 s') by (by split).
    split_and!; [done| |by eapply far_udp_ok; [apply calm_far|]| |by rewrite En| |].
    + eapply arp_ok_near; [by apply calm_near|]. by destruct Ha.
    + exists (pkt s'), (sys v3), (recv_records v3), (udp_pcbs v3), (pcbs v3). split; [rewrite En; by destruct s|].
      unfold v3 at 2. cbn [udp_pcbs with_pcb upd_field]. rewrite lookup_insert_eq. split; [|done]. intros k Hne.
      change (udp_pcbs v3) with (<[p := x3]> (udp_pcbs v)). rewrite lookup_insert_ne by done.
      unfold v. rewrite (with_recv_pcbs (s := with_record s1 i j (r <| rec_buf := None |>)) Hx1).
      rewrite lookup_insert_ne by done. change (udp_pcbs (with_record s1 i j _)) with (<[p := x1]> (udp_pcbs s)). by rewrite lookup_insert_ne.
    + exists x3. rewrite En. split; [apply lookup_insert_eq|]. by destruct x; cbn in Hw; subst.
    + pose proof Hown as (_ & _ & rc & Hv). exists j, r, b, seg, m, rc, x3. split_and!; [done..| | |exact El].
      * unfold datagram_of. by destruct (len seg <? UDP_HEADER_SIZE).
      * rewrite En. apply lookup_insert_eq.
Qed.
