(* ===== verification/OwnerWire.v ===== *)
(** * From the sockets to the wire and back

    What is on the wire after a datagram was sent, and what becomes of a frame
    from the wire: the formats of the layers ([eth_frame], [ipv4_packet],
    [icmp_request], [udp_segment]) composed as the functions of the stack
    compose them. *)

From S2P Require Import Prelude Tools IpAddr Nlist Timer Mblock Pktbuf PktbufSpec PktbufChain.
From S2P Require Import PktbufOps PktbufFrame Sys Fixq Net Netif Ether Arp NetifLink Ipv4 Icmp Udp Input.
From S2P Require Import NetStack Owner OwnerPkt OwnerQueue OwnerOut OwnerArp OwnerResolve OwnerIp.
From S2P Require Import OwnerIcmp OwnerUdp OwnerInput OwnerStack.

#[local] Opaque checksum16.

(** ** Output *)

(** An active Ethernet interface on the device with nothing left to send. *)
Record line (s : net) (n : nat) (i : netif_t) : Prop := {
  line_netif : netif_buffer s !! n = Some i;
  line_active : state i = NETIF_ACTIVE;
  line_out : link_layer i ≫= ll_out = Some EtherLink;
  line_xmit : ops i ≫= op_xmit = Some VirtioDriver;
  line_idle : holds s (OutQueue n) = [] }.

Lemma line_opened s n i : line s n i -> opened i = true.
Proof. intros Hl. unfold opened. by rewrite (line_active _ _ _ Hl). Qed.

Lemma calm_line bs s s' n i : calm bs s s' -> line s n i -> line s' n i.
Proof.
  intros Hn [H1 H2 H3 H4 H5]. split; [by rewrite (calm_netif _ _ _ Hn)|done..|].
  by rewrite (calm_holds _ _ _ _ Hn).
Qed.

Lemma calm_tx bs s s' : calm bs s s' -> tx_frames s' = tx_frames s.
Proof. intros [_ ->]. by destruct s. Qed.

(** The function succeeds only with the frame [f] on the wire. *)
Definition sends (f : bytes) (s : net) (r : Z) (s' : net) : Prop := 0 <= r -> tx_frames s' = tx_frames s ++ [f].

Lemma sends_err f s r s' : r < 0 -> sends f s r s'.
Proof. intros H ?. lia. Qed.
Lemma sends_tx f s s1 r s' : tx_frames s1 = tx_frames s -> sends f s1 r s' -> sends f s r s'.
Proof. unfold sends. by intros ->. Qed.

Lemma wire_frame_eth dest src protocol bs :
  (6 <= length dest)%nat -> (6 <= length src)%nat -> len bs <= ETH_MTU ->
  let f := eth_frame dest src protocol bs in wire_frame f = f /\ 0 < len f <= ETHERNET_MAX_FRAME.
Proof.
  intros Hd Hs Hl f. assert (E : len f = 14 + Z.max 46 (len bs)).
  { unfold f, eth_frame, eth_pad, ETH_DATA_MIN, ETH_HWA_SIZE.
    rewrite !length_app, !length_take, length_replicate. cbn [length be16]. lia. }
  unfold ETH_MTU, ETHERNET_MAX_FRAME, ETHERNET_MIN_FRAME in *. split; [|lia].
  unfold wire_frame, ETHERNET_MIN_FRAME. replace (Z.to_nat (60 - len f)) with 0%nat by lia. apply app_nil_r.
Qed.

Lemma ether_send_wire o s b frame n i dest :
  own o s b frame 0 -> line s n i -> take ETH_HWA_SIZE (hw_addr (hwaddr i)) <> take ETH_HWA_SIZE dest ->
  0 < len frame <= ETHERNET_MAX_FRAME ->
  wp (sends (wire_frame frame) s) (ether_send n i dest b s).
Proof.
  intros Hown Hl Hne Hlen. pose proof (line_opened _ _ _ Hl) as Hop. destruct Hl as [Hi _ _ Hx Hidle].
  unfold ether_send. rewrite bool_decide_eq_false_2 by done. rewrite Hx.
  pose proof Hown as (_ & _ & rc & Hv). wstep own_put_out as H.
  destruct H as [(-> & Hc1 & Hn1 & Hp1 & Htx1 & Hh1)|[-> ->]]; cbn [NET_ERR_OK NET_ERR_FULL Z.ltb Z.compare].
  2: { apply (free_return_ok o); [by destruct Hown|]. intros. by apply sends_err. }
  destruct (near_opened _ _ _ _ _ Hn1 Hi) as (i1 & Hi1 & _ & Hop1). cbn [call_xmit]. unfold netif_virtio_xmit.
  eapply wp_eq; [by apply load_netif_at|]. rewrite Hidle in Hh1. cbn [app] in Hh1.
  eapply wp_mono; [|apply (virtio_xmit_loop_ok _ o s' n i1); [done..|by rewrite Hop1|]].
  - intros r s2 (_ & _ & _ & Hf). apply (sends_tx _ _ s'); [done|]. intros _. eapply Hf; [done|by rewrite Hp1|done].
  - pose proof (core_side _ _ SOut _ _ Hc1 Hi1 ltac:(by rewrite Hop1)) as ((_ & _ & _ & _ & Hcnt & _) & _).
    cbn [side_q] in Hcnt. cbn [holds]. rewrite Hi1. cbn [from_option]. lia.
Qed.

Lemma ether_raw_out_wire o s b bs m n i protocol dest :
  own o s b bs m -> line s n i -> are_bytes dest -> (ETH_HWA_SIZE <= length dest)%nat ->
  take ETH_HWA_SIZE (hw_addr (hwaddr i)) <> take ETH_HWA_SIZE dest ->
  wp (sends (eth_frame dest (hw_addr (hwaddr i)) protocol bs) s)
     (ether_raw_out (Some n) protocol (Some dest) (Some b) s).
Proof.
  intros Hown Hl Hd Hdl Hne. destruct (core_netif _ _ (proj1 Hown) n i (line_netif _ _ _ Hl)) as (Hhl & _).
  apply (ether_raw_out_frame protocol dest _ Hown (line_netif _ _ _ Hl) Hd Hdl).
  - intros e s' He _ _. by apply sends_err.
  - intros s' _ Hmtu Hown' Hn. unfold NETIF_HWADDR_SIZE in Hhl. unfold ETH_HWA_SIZE in Hdl.
    destruct (wire_frame_eth dest (hw_addr (hwaddr i)) protocol bs) as [Hw Hlen]; [lia..|].
    eapply wp_mono; [|by eapply ether_send_wire; [|eapply calm_line| |]]. intros r s2.
    rewrite Hw. apply sends_tx. by eapply calm_tx.
Qed.

(** The cache has the address [mac] for [a], which is not a broadcast address. *)
Definition known (s : net) (n : nat) (i : netif_t) (a : Z) (mac : bytes) : Prop :=
  resolved s n a mac /\ ipaddr_is_local_broadcast (Some a) = false /\
  ipaddr_is_direct_broadcast (Some a) (Some (netmask i)) = false /\
  take ETH_HWA_SIZE (hw_addr (hwaddr i)) <> mac.

Lemma find_known s n a mac h :
  arp_ok h s -> resolved s n a mac ->
  exists e x, arp_find_entry n a s = Ret (Some e) (touched s e) /\ cache_entries s !! e = Some x /\
    e ∈ cache_list s /\ arp_state x = NET_ARP_RESOLVED /\ haddr x = mac /\ resolved (touched s e) n a mac.
Proof.
  intros Ha (e & x & He & Hx & Hk & Hst & Hm).
  destruct (find_entry_loop_ok s n a (cache_list s)) as (r & Hr & Hpost).
  { intros c Hc. by eapply arp_in_dom. }
  destruct r as [e'|]; [|by destruct (Hpost e x)]. destruct Hpost as (He' & x' & Hx' & Hk').
  assert (e' = e) as -> by (destruct Hk, Hk'; eapply (arp_keys _ _ Ha); by eauto; congruence).
  exists e, x. split_and!; [exact Hr|done..|]. exists e, x. split_and!; [by left|done..].
Qed.

Lemma arp_resolve_wire o s b bs m n i a mac :
  own o s b bs m -> line s n i -> arp_ok [] s -> known s n i a mac ->
  wp (sends (eth_frame mac (hw_addr (hwaddr i)) NET_PROTOCOL_IPV4 bs) s)
     (arp_resolve (Some n) (Some a) (Some b) s).
Proof.
  intros Hown Hl Ha (Hres & Hb1 & Hb2 & Hne). unfold arp_resolve, arp_find.
  destruct (find_known s n a mac [] Ha Hres) as (e & x & Hf & Hx & He & Hst & Hm & Hres1).
  pose proof (arp_find_entry_ok (b :: o) [] s n a (proj1 Hown) Ha) as Hok. rewrite Hf in Hok. cbn [wp] in Hok.
  destruct Hok as (Hc1 & Ha1 & Hf1 & _).
  assert (Hown1 : own o (touched s e) b bs m) by (eapply own_spared; [done|by destruct Hf1|set_solver|done]).
  destruct (find_known _ n a mac [] Ha1 Hres1) as (e2 & x2 & Hf2 & Hx2 & He2 & Hst2 & Hm2 & _).
  pose proof (arp_find_entry_ok (b :: o) [] _ n a Hc1 Ha1) as Hok2. rewrite Hf2 in Hok2. cbn [wp] in Hok2.
  destruct Hok2 as (Hc2 & Ha2 & Hs2 & _).
  assert (Hown2 : own o (touched (touched s e) e2) b bs m)
    by (eapply own_spared; [exact Hown1|by destruct Hs2|set_solver|done]).
  assert (Hl2 : line (touched (touched s e) e2) n i) by (destruct Hl as [? ? ? ? Hidle]; split; [done..|exact Hidle]).
  eapply wp_eq.
  { mstep by (by apply load_netif_at, line_netif). rewrite Hb1, Hb2. cbn [orb]. mstep by exact Hf.
    mstep by (by apply load_entry_at). rewrite bool_decide_eq_true_2 by done. reflexivity. }
  cbn beta iota. eapply wp_eq; [exact Hf2|]. unfold arp_resolve_found.
  eapply wp_eq; [by apply load_entry_at|]. rewrite bool_decide_eq_true_2 by done. rewrite Hm2.
  destruct (arp_used _ _ Ha2 e2 x2) as (_ & _ & Hhl & Hhb & _); [by left|done|]. rewrite Hm2 in Hhl, Hhb.
  eapply wp_mono; [|eapply ether_raw_out_wire; [done..|by rewrite Hhl|by rewrite (firstn_all2 mac) by lia]].
  intros r s2. by apply sends_tx.
Qed.

Lemma netif_out_wire o s b bs m n i a mac :
  own o s b bs m -> line s n i -> arp_ok [] s -> known s n i a mac ->
  wp (sends (eth_frame mac (hw_addr (hwaddr i)) NET_PROTOCOL_IPV4 bs) s)
     (netif_out (Some n) (Some a) (Some b) s).
Proof.
  intros Hown Hl Ha Hk. pose proof Hl as [Hi Hact Hout _ _]. unfold netif_out.
  eapply wp_eq; [by apply load_netif_at|]. rewrite bool_decide_eq_true_2, Hout by done. cbn [negb call_link_out].
  by eapply arp_resolve_wire.
Qed.

(** The frame that carries [payload] from [i] to [a] at [mac]. *)
Definition ip_frame (s : net) (i : netif_t) (mac : bytes) (proto a : Z) (payload : bytes) : bytes :=
  eth_frame mac (hw_addr (hwaddr i)) NET_PROTOCOL_IPV4
    (ipv4_packet (next_packet_id s) proto (ipaddr i) a payload).

Lemma ipv4_out_wire o s b bs m n i a mac proto :
  own o s b bs m -> line s n i -> arp_ok [] s -> known s n i a mac -> is_byte proto ->
  wp (sends (ip_frame s i mac proto a bs) s) (ipv4_out (Some n) (Some a) proto (Some b) s).
Proof.
  intros Hown Hl Ha Hk Hp. apply (ipv4_out_frame a proto _ Hown (line_netif _ _ _ Hl) Hp).
  - intros e s' He _ _. by apply sends_err.
  - intros s' _ _ Hown' Hst. pose proof Hst as [_ E].
    assert (Hl' : line s' n i).
    { destruct Hl as [H1 H2 H3 H4 H5]. rewrite E. split; [by destruct s|done..|by destruct s]. }
    assert (Hk' : known s' n i a mac) by (rewrite E; by destruct s).
    eapply wp_mono; [|eapply netif_out_wire; [done..|by eapply stamped_arp|done]]. intros r s2.
    apply sends_tx. rewrite E. by destruct s.
Qed.

Lemma send_echo_wire o s b bs m n i a mac :
  own o s b bs m -> line s n i -> arp_ok [] s -> known s n i a mac ->
  wp (sends (ip_frame s i mac NET_PROTOCOL_ICMPV4 a bs) s) (send_echo n a b s).
Proof.
  assert (Hby : is_byte NET_PROTOCOL_ICMPV4) by done.
  intros Hown Hl Ha Hk. unfold send_echo. wstep own_inc_ref as [Hown1 Hn1].
  assert (Ha1 : arp_ok [] s') by (by eapply arp_ok_near, Ha; apply calm_near).
  assert (Hk1 : known s' n i a mac) by (destruct Hn1 as [_ ->]; by destruct s).
  pose proof (calm_line _ _ _ _ _ Hn1 Hl) as Hl1.
  assert (Hr : 0 <= a < 2 ^ 32) by (destruct Hk as [(e & x & He & Hx & [_ <-] & _) _]; by eapply (arp_used _ _ Ha)).
  assert (E1 : next_packet_id s' = next_packet_id s) by (destruct Hn1 as [_ ->]; by destruct s).
  eapply (wp_step (fun r s2 => sends (ip_frame s i mac NET_PROTOCOL_ICMPV4 a bs) s r s2 /\ consumed (b :: o) b s' s2)).
  { apply wp_and.
    - eapply wp_mono; [|exact (ipv4_out_wire _ _ _ _ _ _ _ _ _ NET_PROTOCOL_ICMPV4 Hown1 Hl1 Ha1 Hk1 Hby)].
      intros r s2. unfold ip_frame. rewrite E1. apply sends_tx. by eapply calm_tx.
    - apply (ipv4_out_ok (b :: o) s' b bs m n); [exact Hown1|exact Ha1| |exact Hby|exact Hr].
      apply elem_of_dom. exists i. exact (line_netif _ _ _ Hl1). }
  intros r s2 (Hs & Hc2 & _ & _). destruct (Z.leb_spec 0 r); cbn [when].
  - wstep own_free as [Hc3 Hn3]. cbn [wp mret M_ret]. intros _. rewrite (calm_tx _ _ _ Hn3). by apply Hs.
  - eapply wp_eq; [reflexivity|]. cbn [wp mret M_ret]. apply sends_err. lia.
Qed.

Lemma calm_known bs s s' n i a mac : calm bs s s' -> known s n i a mac -> known s' n i a mac.
Proof. intros [_ ->]. by destruct s. Qed.
Lemma calm_id bs s s' : calm bs s s' -> next_packet_id s' = next_packet_id s.
Proof. intros [_ ->]. by destruct s. Qed.

Lemma udp_sendto_wire o s p x n i a mac dport data :
  core o s -> arp_ok [] s -> udp_pcbs s !! p = Some x -> pcb_open x = true -> line s n i -> known s n i a mac ->
  dport <> 0 -> are_bytes data -> UDP_HEADER_SIZE + len data < 2 ^ 16 ->
  wp (sends (ip_frame s i mac NET_PROTOCOL_UDP a (udp_segment (local_port x) dport (ipaddr i) a data)) s)
     (udp_sendto (Some p) (Some n) (Some a) dport (Some data) (len data) s).
Proof.
  assert (Hby : is_byte NET_PROTOCOL_UDP) by done.
  intros Hc Ha Hx Hop Hl Hk Hdp Hd Hlen.
  apply (udp_sendto_frame a dport data _ Hc Hx Hop (line_netif _ _ _ Hl) Hdp Hd).
  - intros s' _ _. by apply sends_err.
  - intros s' b seg m _ Hown Hn Hseg. specialize (Hseg Hlen). subst seg.
    assert (Ha' : arp_ok [] s') by (eapply arp_ok_near, Ha; by apply calm_near).
    pose proof (calm_line _ _ _ _ _ Hn Hl) as Hl'. pose proof (calm_known _ _ _ _ _ _ _ Hn Hk) as Hk'.
    eapply wp_mono; [|exact (ipv4_out_wire _ _ _ _ _ _ _ _ _ NET_PROTOCOL_UDP Hown Hl' Ha' Hk' Hby)].
    intros r s2. unfold ip_frame. rewrite (calm_id _ _ _ Hn). apply sends_tx. by eapply calm_tx.
Qed.

(** ** Input *)

(** The part of the state that the queues of the interfaces are not in. *)
Lemma own_get_in_frame o s n i b bs m r :
  core o s -> netif_buffer s !! n = Some i -> opened i = true -> holds s (InQueue n) = [b] ->
  has_view (pkt s) b (View bs m r) ->
  wp (fun x s' => x = Some b /\ own o s' b bs 0 /\ near [b] s s' /\ tx_frames s' = tx_frames s /\
        forall pl, pl <> InQueue n -> holds s' pl = holds s pl) (get_in (Some n) s).
Proof.
  intros Hc Hi Hop Hh Hv. unfold netif_get_in. change (in_ref n) with (side_ref SIn n).
  wstep own_recv as (Hn & Hp & Htx & H). cbn [side_place] in H. rewrite Hh in H.
  destruct a as [b'|]; [|by destruct H]. destruct H as (l & Hc1 & Hl1 & [= <- <-] & Hh').
  assert (Hown : own o s' b bs m) by (split_and!; [done..|exists r; by rewrite Hp]).
  wstep own_reset_acc as (Hown' & Hcalm & _). split_and!; [done..| | |].
  - transitivity s'; [eapply near_mono, Hn; set_solver|by apply calm_near].
  - by rewrite (calm_tx _ _ _ Hcalm).
  - intros pl Hne. rewrite (calm_holds _ _ _ _ Hcalm), Hh', decide_False by done. done.
Qed.

(** [s'] is [s] after a frame was taken from the device. *)
Definition arrived (s s' : net) : Prop :=
  outside s' = outside (s <| rx_results := tail (rx_results s) |>) /\ tx_frames s' = tx_frames s /\
  forall n, holds s' (OutQueue n) = holds s (OutQueue n).

Section poll.
Context (tcp_in : option nat -> option Z -> option Z -> option nat -> M net Z) `{!InputHandler tcp_in}.
Context {o : list nat} {s : net} {n : nat} {i : netif_t} {frame : bytes}.
Context (Hst : stack_ok o s) (Hi : netif_buffer s !! n = Some i) (Hact : state i = NETIF_ACTIVE).
Context (Hty : type i = NETIF_TYPE_ETHER) (Hll : link_layer i ≫= ll_in = Some EtherLink).
Context (Hin : holds s (InQueue n) = []) (Hrx : head (rx_results s) = Some (Some frame)).
Context (Hb : are_bytes frame) (Hlen : ETHERNET_MIN_FRAME <= len frame <= ETHERNET_MAX_FRAME).

(** The device's frame is the only packet in the queue. *)
Lemma poll_queues :
  wp (fun e s' => e < 0 \/ (e = NET_ERR_OK /\ core o s' /\ arrived s s' /\
        near [] (s <| rx_results := tail (rx_results s) |>) s' /\
        exists b m r, holds s' (InQueue n) = [b] /\ has_view (pkt s') b (View frame m r)))
     (netif_virtio_poll (Some n) s).
Proof.
  pose proof Hst as [Hc _ _ _ _]. unfold netif_virtio_poll, virtio_net_receive.
  set (s1 := s <| rx_results := tail (rx_results s) |>).
  eapply wp_eq; [reflexivity|]. fold s1. rewrite Hrx. cbn [from_option id].
  assert (Hc1 : core o s1) by (by destruct Hc). unfold ETHERNET_MIN_FRAME, ETHERNET_MAX_FRAME in *.
  rewrite (proj2 (Z.ltb_ge (len frame) _)), (proj2 (Z.ltb_ge _ (len frame))) by lia. cbn [orb].
  wstep own_alloc as [Hn2 H2]; [lia|]. destruct a as [b|]; [|by left].
  destruct H2 as (Hdead & (bs & Hl & Hown2) & _). wstep own_write as (Hn3 & _ & H3); [lia|].
  rewrite (proj2 (Z.ltb_ge _ _)) in H3 by lia. destruct H3 as [-> Hown3]. cbn [NET_ERR_OK Z.eqb negb].
  assert (Hn13 : calm [] s1 s'0) by (by eapply calm_fresh).
  unfold netif_put_in. change (in_ref n) with (side_ref SIn n).
  assert (Hi3 : netif_buffer s'0 !! n = Some i) by (by rewrite (calm_netif _ _ _ Hn13)).
  assert (Hop : opened i = true) by (unfold opened; by rewrite Hact).
  assert (Hfr : splice 0 frame bs = frame).
  { unfold splice. rewrite drop_ge by (cbn; lia). apply app_nil_r. }
  change (Z.to_nat 0) with 0%nat in Hown3. rewrite Hfr in Hown3. wstep (own_send o s'0 b _ _ SIn n i) as H4.
  destruct H4 as [(-> & Hc4 & Hn4 & Hp4 & Htx4 & l & El & Hh4)|[-> ->]]; cbn [NET_ERR_OK NET_ERR_FULL Z.ltb Z.compare].
  2: { wstep own_free as [Hc5 Hn5]; [by destruct Hown3|]. by left. }
  cbn [wp mret M_ret]. right. split_and!; [done..| |by eapply near_fresh; [done|by apply calm_near|done]|].
  - split; [destruct Hn4 as [-> _]; by destruct (calm_near _ _ _ Hn13)|]. split; [rewrite Htx4; exact (calm_tx _ _ _ Hn13)|].
    intros k. rewrite Hh4, decide_False by done. by rewrite (calm_holds _ _ _ _ Hn13).
  - destruct Hown3 as (_ & _ & rc & Hv). exists b, (0 + len frame), rc. rewrite Hh4, decide_True by done.
    cbn [side_place] in El. rewrite (calm_holds _ _ _ _ Hn13) in El. change (holds s1 (InQueue n)) with (holds s (InQueue n)) in El.
    rewrite <- El, Hin, Hp4. done.
Qed.

Context (Q : Z -> net -> Prop) (Herr : forall e s', e < 0 -> Q e s').
Context (Hok : forall s' b, own o s' b frame 0 -> stack_ok (b :: o) s' -> arrived s s' ->
  wp (fun r s2 => 0 <= r -> Q r s2) (ether_in tcp_in (Some n) (Some b) s')).

Lemma poll_once_frame : wp Q (net_stack_poll_once tcp_in (Some n) s).
Proof using All.
  unfold net_stack_poll_once. eapply wp_eq; [by apply load_netif_at|].
  rewrite bool_decide_eq_true_2 by done. cbn [negb]. wstep poll_queues as H1.
  destruct H1 as [He|(-> & Hc1 & (E1 & Htx1 & Hh1) & Hn1 & b & m & rc & Hq & Hv)].
  { rewrite (proj2 (Z.ltb_lt _ _)) by done. cbn [wp mret M_ret]. by apply Herr. }
  cbn [NET_ERR_OK Z.ltb Z.compare]. unfold net_stack_process_input.
  destruct (near_opened _ _ _ _ _ Hn1 Hi) as (i1 & Hi1 & Ef1 & _).
  assert (Hact1 : state i1 = NETIF_ACTIVE) by (apply (f_equal state) in Ef1; cbn in Ef1; congruence).
  assert (Hop1 : opened i1 = true) by (unfold opened; by rewrite Hact1).
  eapply wp_eq; [by apply load_netif_at|]. rewrite bool_decide_eq_true_2 by done. cbn [negb].
  wstep own_get_in_frame as (-> & Hown2 & Hn2 & Htx2 & Hh2).
  destruct (near_opened _ _ _ _ _ Hn2 Hi1) as (i2 & Hi2 & Ef2 & _). eapply wp_eq; [by apply load_netif_at|].
  assert (Hty2 : type i2 = NETIF_TYPE_ETHER) by (apply (f_equal type) in Ef1, Ef2; cbn in Ef1, Ef2; congruence).
  assert (Hll2 : link_layer i2 ≫= ll_in = Some EtherLink).
  { apply (f_equal link_layer) in Ef1, Ef2. cbn in Ef1, Ef2. congruence. }
  rewrite bool_decide_eq_false_2, bool_decide_eq_true_2, Hll2 by congruence. cbn [call_link_in].
  assert (Hst2 : stack_ok (b :: o) s'0).
  { eapply stack_near; [|by destruct Hown2|exact Hn2]. eapply (stack_near o o [] _ s'); [|done|exact Hn1].
    destruct Hst as [[] [] [] [] ?]. split; [by split..|done]. }
  assert (Hd : n ∈ dom (netif_buffer s'0)) by (apply elem_of_dom; by exists i2).
  eapply wp_step; [apply wp_and; [by eapply ether_in_ok|apply Hok; [done..|]]|].
  - split_and!; [rewrite (proj1 Hn2); done|by rewrite Htx2|]. intros k. by rewrite Hh2, Hh1.
  - cbn beta. intros r s2 [[Hst3 _] HQ]. destruct (Z.ltb_spec r 0); cbn [when].
    + wstep own_free as [Hc3 Hn3]; [by destruct Hst3|]. by apply Herr.
    + eapply wp_eq; [reflexivity|]. cbn [wp mret M_ret]. by apply HQ.
Qed.
End poll.

Lemma match_self a m : ipaddr_is_match (Some a) (Some a) (Some m) = true.
Proof. unfold ipaddr_is_match. destruct (_ || _); [done|]. cbn. apply Z.eqb_refl. Qed.

Lemma ether_target_frame s i src protocol bs h :
  (6 <= length (hw_addr (hwaddr i)))%nat -> (6 <= length src)%nat -> len bs <= ETH_MTU ->
  0 <= protocol < 2 ^ 16 -> find_handler protocol (ether_handlers s) = Some h ->
  ether_target s i (eth_frame (hw_addr (hwaddr i)) src protocol bs) = Some (h, eth_pad bs).
Proof.
  intros Hd Hs Hl Hp Hh. destruct (wire_frame_eth (hw_addr (hwaddr i)) src protocol bs Hd Hs Hl) as [Hw Hlen].
  unfold ether_target. set (f := eth_frame _ _ _ _) in *.
  assert (Hmin : 60 <= len f).
  { rewrite <- Hw. unfold wire_frame, ETHERNET_MIN_FRAME. rewrite length_app, length_replicate. lia. }
  change ETH_FRAME_MIN with 60. change ETH_FRAME_MAX with 1514. unfold ETHERNET_MAX_FRAME in Hlen.
  rewrite (proj2 (Z.leb_le 60 _)), (proj2 (Z.leb_le _ 1514)) by lia.
  assert (Hl1 : length (take 6 (hw_addr (hwaddr i))) = 6%nat) by (rewrite length_take; lia).
  assert (Hl2 : length (take 6 src) = 6%nat) by (rewrite length_take; lia).
  assert (E6 : take 6 f = take 6 (hw_addr (hwaddr i))).
  { unfold f, eth_frame, ETH_HWA_SIZE. by rewrite take_app_length'. }
  rewrite E6, bool_decide_eq_true_2, orb_true_r by done. cbn [andb orb].
  assert (Ed : drop 12 f = be16 protocol ++ eth_pad bs).
  { unfold f, eth_frame, ETH_HWA_SIZE. rewrite be16_u16, app_assoc, drop_app_length'; [done|rewrite length_app; lia]. }
  assert (E12 : forall k, byte_at f (12 + k) = byte_at (be16 protocol ++ eth_pad bs) k).
  { intros k. unfold byte_at. by rewrite <- Ed, !nth_lookup, lookup_drop. }
  rewrite (x_ntohs_be16 f 12 protocol); [|apply (E12 0%nat)|apply (E12 1%nat)|lia].
  rewrite Hh. change 14%nat with (12 + 2)%nat. rewrite <- drop_drop, Ed. done.
Qed.

(** The frame that carries [payload] from [a] to [i]. *)
Definition frame_for (i : netif_t) (mac : bytes) (id proto a : Z) (payload : bytes) : bytes :=
  eth_frame (hw_addr (hwaddr i)) mac NET_PROTOCOL_IPV4 (ipv4_packet id proto a (ipaddr i) payload).

Lemma ether_in_ipv4 tcp_in o s b n i mac id proto a payload h (Q : Z -> net -> Prop) :
  own o s b (frame_for i mac id proto a payload) 0 -> stack_ok (b :: o) s -> netif_buffer s !! n = Some i ->
  (6 <= length mac)%nat -> len payload <= ETH_MTU - IPV4_HEADER_MIN ->
  0 <= a < 2 ^ 32 -> 0 <= ipaddr i < 2 ^ 32 -> is_byte proto ->
  find_handler NET_PROTOCOL_IPV4 (ether_handlers s) = Some Ipv4In ->
  mjoin (ipv4_handlers s !! Z.to_nat proto) = Some h ->
  (forall s', own o s' b payload 0 -> calm [b] s s' ->
     wp Q (call_ipv4_handler tcp_in h n a (ipaddr i) b s')) ->
  wp Q (ether_in tcp_in (Some n) (Some b) s).
Proof.
  unfold ETH_MTU, IPV4_HEADER_MIN. intros Hown Hst Hi Hm Hl Ha Hip Hp Heh Hh HQ.
  destruct (core_netif _ _ (proj1 Hown) n i Hi) as (Hhl & _). unfold NETIF_HWADDR_SIZE in Hhl.
  set (pk := ipv4_packet id proto a (ipaddr i) payload).
  assert (Hlp : len pk = len payload + 20).
  { unfold pk, ipv4_packet. rewrite length_app, length_ipv4_hdr. lia. }
  pose proof (ether_target_frame s i mac NET_PROTOCOL_IPV4 pk Ipv4In ltac:(lia) Hm ltac:(unfold ETH_MTU; lia)
    ltac:(done) Heh) as Ht.
  assert (Hparse : ipv4_parse (eth_pad pk) = Some (Datagram proto a (ipaddr i) payload)).
  { apply ipv4_parse_packet; [done..|unfold IPV4_HEADER_MIN; lia]. }
  apply (ether_in_frame tcp_in Q Hown Hi).
  - intros e s' _ Hno. unfold frame_for in Hno. fold pk in Hno. congruence.
  - intros h' p s' Ht' Hown' Hn. unfold frame_for in Ht'. fold pk in Ht'. rewrite Ht in Ht'. injection Ht' as <- <-.
    cbn [call_ether_handler]. assert (Hi' : netif_buffer s' !! n = Some i) by (by rewrite (calm_netif _ _ _ Hn)).
    assert (Eh : ipv4_handlers s' = ipv4_handlers s) by (by rewrite (passed_handlers _ _ _ (calm_passed _ _ _ Hn))).
    assert (Htg : ipv4_target s' i (eth_pad pk) = Some (Datagram proto a (ipaddr i) payload, h)).
    { unfold ipv4_target. rewrite Hparse. cbn [mbind option_bind dg_dest dg_proto]. by rewrite match_self, Eh, Hh. }
    apply (ipv4_in_frame tcp_in Hown' Hi'); [by rewrite Eh; destruct Hst| |].
    + intros e s2 _ Hno. congruence.
    + intros g h2 s2 Hg Hown2 Hn2. rewrite Htg in Hg. injection Hg as <- <-. cbn [dg_payload dg_src dg_dest] in *.
      apply HQ; [done|by transitivity s'].
Qed.

(** ** A frame through the whole stack *)

Lemma arrived_netif s s' n i :
  arrived s s' -> netif_buffer s !! n = Some i ->
  exists i', netif_buffer s' !! n = Some i' /\ hwaddr i' = hwaddr i /\ ipaddr i' = ipaddr i /\ netmask i' = netmask i /\
    (line s n i -> line s' n i').
Proof.
  intros (E & _ & Hh) Hi. pose proof (f_equal (fun x => netif_buffer x !! n) E) as Ef. cbn in Ef.
  rewrite !lookup_fmap, Hi in Ef. cbn in Ef. destruct (netif_buffer s' !! n) as [i'|] eqn:Hi'; [|done].
  injection Ef as _ ? ? ? ? ? _ _ ? ?. exists i'. split_and!; [done..|].
  intros [_ ? ? ? ?]. split; [done|congruence..|by rewrite Hh].
Qed.

Lemma arrived_known s s' n i i' a mac :
  arrived s s' -> hwaddr i' = hwaddr i -> netmask i' = netmask i -> known s n i a mac -> known s' n i' a mac.
Proof.
  intros (E & _ & _) Eh Em ((e & x & He & Hx & H) & ? & ? & ?). split; [exists e, x|by rewrite Eh, Em].
  rewrite (f_equal cache_list E : cache_list s' = cache_list s).
  by rewrite (f_equal cache_entries E : cache_entries s' = cache_entries s).
Qed.

Lemma counted_line bs s s' n i : counted bs s s' -> line s n i -> line s' n i.
Proof. intros [_ E] [H1 H2 H3 H4 H5]. rewrite E. split; [by destruct s|done..|by destruct s]. Qed.
Lemma counted_known bs s s' n i a mac : counted bs s s' -> known s n i a mac -> known s' n i a mac.
Proof. intros [_ ->]. by destruct s. Qed.
Lemma counted_rest bs s s' :
  counted bs s s' -> next_packet_id s' = next_packet_id s /\ tx_frames s' = tx_frames s.
Proof. intros [_ ->]. by destruct s. Qed.

Lemma are_bytes_icmp_request identifier sequence payload :
  are_bytes payload -> are_bytes (icmp_request identifier sequence payload).
Proof.
  intros Hp. unfold icmp_request, icmp_msg. by repeat (apply are_bytes_app || apply Forall_cons_2 || eauto with bytes).
Qed.

Lemma are_bytes_eth_frame dest src protocol bs :
  are_bytes dest -> are_bytes src -> are_bytes bs -> are_bytes (eth_frame dest src protocol bs).
Proof.
  intros Hd Hs Hb. unfold eth_frame, eth_pad. apply are_bytes_app; [by apply are_bytes_take|].
  apply are_bytes_app; [by apply are_bytes_take|]. apply are_bytes_app; [apply are_bytes_be16|].
  apply are_bytes_app; [done|by apply are_bytes_replicate].
Qed.

Lemma are_bytes_ipv4_packet id proto src dest payload :
  is_byte proto -> are_bytes payload -> are_bytes (ipv4_packet id proto src dest payload).
Proof.
  intros Hp Hb. unfold ipv4_packet. apply are_bytes_app; [|done].
  generalize (checksum16 0 (ipv4_hdr id (len payload + IPV4_HEADER_MIN) proto src dest 0) 0 true). intros ck.
  unfold ipv4_hdr. apply are_bytes_app; [by repeat constructor|].
  do 3 (apply are_bytes_app; [apply are_bytes_be16|]). apply are_bytes_app; [by repeat constructor; try apply Hp|].
  apply are_bytes_app; [apply are_bytes_be16|]. apply are_bytes_app; apply are_bytes_ipaddr_to_buf.
Qed.

(** An interface that receives: nothing waits in its queues, and the handlers
    of IPv4 and of the protocol [proto] are in place. *)
Record ready (s : net) (n : nat) (i : netif_t) (proto : Z) (h : ipv4_input) : Prop := {
  ready_line : line s n i;
  ready_type : type i = NETIF_TYPE_ETHER;
  ready_in : link_layer i ≫= ll_in = Some EtherLink;
  ready_idle : holds s (InQueue n) = [];
  ready_ip : 0 <= ipaddr i < 2 ^ 32;
  ready_ether : find_handler NET_PROTOCOL_IPV4 (ether_handlers s) = Some Ipv4In;
  ready_ipv4 : mjoin (ipv4_handlers s !! Z.to_nat proto) = Some h }.

(** A frame from the device with the datagram [payload] from [a] reaches the
    handler of its protocol. *)
Lemma poll_once_datagram tcp_in `{!InputHandler tcp_in} o s n i proto h mac id a payload (Q : Z -> net -> Prop) :
  stack_ok o s -> ready s n i proto h -> is_byte proto ->
  head (rx_results s) = Some (Some (frame_for i mac id proto a payload)) ->
  are_bytes mac -> length mac = 6%nat -> are_bytes payload -> len payload <= ETH_MTU - IPV4_HEADER_MIN ->
  0 <= a < 2 ^ 32 -> (forall e s', e < 0 -> Q e s') ->
  (forall s' b s2, own o s2 b payload 0 -> stack_ok (b :: o) s2 -> arrived s s' -> calm [b] s' s2 ->
     wp (fun r s3 => 0 <= r -> Q r s3) (call_ipv4_handler tcp_in h n a (ipaddr i) b s2)) ->
  wp Q (net_stack_poll_once tcp_in (Some n) s).
Proof.
  intros Hst [Hl Hty Hll Hidle Hip Heh Hh] Hp Hrx Hm Hml Hb Hlen Ha Herr Hok.
  destruct (core_netif _ _ (stack_core _ _ Hst) n i (line_netif _ _ _ Hl)) as (Hhl & Hhb & _).
  unfold NETIF_HWADDR_SIZE in Hhl. unfold ETH_MTU, IPV4_HEADER_MIN in Hlen.
  destruct (wire_frame_eth (hw_addr (hwaddr i)) mac NET_PROTOCOL_IPV4 (ipv4_packet id proto a (ipaddr i) payload))
    as [Hw Hlf]; [lia|lia|unfold ipv4_packet, ETH_MTU; rewrite length_app, length_ipv4_hdr; lia|].
  eapply (poll_once_frame tcp_in Hst (line_netif _ _ _ Hl) (line_active _ _ _ Hl) Hty Hll Hidle Hrx).
  - apply are_bytes_eth_frame; [done..|by apply are_bytes_ipv4_packet].
  - split; [|apply Hlf]. unfold frame_for. rewrite <- Hw. unfold wire_frame.
    rewrite length_app, length_replicate. lia.
  - exact Herr.
  - intros s' b Hown' Hst' Harr.
    destruct (arrived_netif _ _ _ _ Harr (line_netif _ _ _ Hl)) as (i' & Hi' & Eh & Eip & _ & _).
    assert (Ef : frame_for i' mac id proto a payload = frame_for i mac id proto a payload)
      by (unfold frame_for; by rewrite Eh, Eip).
    rewrite <- Ef in Hown'. clear Ef.
    assert (Ee : ether_handlers s' = ether_handlers s) by exact (f_equal ether_handlers (proj1 Harr)).
    assert (E4 : ipv4_handlers s' = ipv4_handlers s) by exact (f_equal ipv4_handlers (proj1 Harr)).
    rewrite <- Eip in Hip. rewrite <- Ee in Heh. rewrite <- E4 in Hh.
    apply (ether_in_ipv4 tcp_in o s' b n i' mac id proto a payload h _ Hown' Hst' Hi'
      ltac:(lia) Hlen Ha Hip Hp Heh Hh).
    intros s2 Hown2 Hn2. rewrite Eip. apply (Hok s' b s2 Hown2); [|exact Harr|exact Hn2].
      eapply stack_calm; [exact Hst'|exact (proj1 Hown2)|exact Hn2].
Qed.
