(* ===== verification/TcpWire.v ===== *)
(** * TCP segments on the wire: what one side builds, the other side reads *)

From S2P Require Import Prelude Tools IpAddr Nlist Timer Mblock Pktbuf PktbufSpec PktbufChain.
From S2P Require Import PktbufOps PktbufFrame Sys Fixq TcpState Net Netif Ether Arp NetifLink Ipv4 Udp Tcp.
From S2P Require Import TcpInv TcpQueue Owner OwnerPkt OwnerQueue OwnerOut OwnerArp OwnerResolve OwnerIp OwnerIcmp.
From S2P Require Import OwnerTcp OwnerSegment OwnerUdp OwnerTcpInput.
Import Pcb.

#[local] Opaque checksum16.

Lemma x_ntohl_be32 l i v : take 4 (drop i l) = be32 v -> 0 <= v < 2 ^ 32 -> x_ntohl (load32 l i) = v.
Proof.
  intros Hl Hv. destruct (u32_bytes _ Hv) as (b0 & b1 & b2 & b3 & H0 & H1 & H2 & H3 & E & E0 & E1 & E2 & E3).
  assert (Hb : be32 v = [b3; b2; b1; b0]).
  { unfold be32, u8. rewrite !shiftr_div by done. unfold is_byte in *. clear Hl.
    f_equal; [zdm|]. f_equal; [zdm|]. f_equal; [zdm|]. f_equal; zdm. }
  rewrite Hb in Hl.
  assert (Hat : forall j b, [b3; b2; b1; b0] !! j = Some b -> byte_at l (i + j) = b).
  { intros j b Hj. rewrite <- Hl in Hj. apply lookup_take_Some in Hj as [Hj _]. rewrite lookup_drop in Hj.
    unfold byte_at. by rewrite nth_lookup, Hj. }
  unfold load32. pose proof (Hat 0%nat b3 eq_refl) as A0. pose proof (Hat 1%nat b2 eq_refl) as A1.
  pose proof (Hat 2%nat b1 eq_refl) as A2. pose proof (Hat 3%nat b0 eq_refl) as A3.
  replace (i + 0)%nat with i in A0 by lia. replace (i + 1)%nat with (S i) in A1 by lia.
  replace (i + 2)%nat with (S (S i)) in A2 by lia. replace (i + 3)%nat with (S (S (S i))) in A3 by lia. rewrite A0, A1, A2, A3.
  unfold x_ntohl. unfold is_byte in *. rewrite u32_small by lia. rewrite swap_u32_eq by lia. clear -E H0 H1 H2 H3. zdm.
Qed.

Lemma are_bytes_be32 v : are_bytes (be32 v).
Proof. unfold be32, is_byte. repeat constructor; apply u8_range. Qed.
#[local] Hint Resolve are_bytes_be32 : bytes.

Section segment.
Context (x : tcp_pcb_t) (seq ack flags : Z) (data : bytes).
Context (Hsp : 0 <= local_port x < 2 ^ 16) (Hdp : 0 <= remote_port x < 2 ^ 16).
Context (Hfl : is_byte flags) (Hknown : Z.land flags (Z.lnot TCP_FLAGS_KNOWN) = 0).
Context (Hrc : 0 <= recv_count x <= TCP_RECV_MAX) (Hd : are_bytes data) (Hl : TCP_HEADER_SIZE + len data < 2 ^ 16).

(** The receiver reads the fields that the sender has stored. *)
Lemma tcp_parse_segment :
  tcp_parse (local_ip x) (remote_ip x) (tcp_segment x seq ack flags data) =
  Some (local_port x, remote_port x,
        Segment (u32 seq) (u32 ack) flags (TCP_RECV_MAX - recv_count x) TCP_HEADER_SIZE (len data)).
Proof using All.
  unfold TCP_HEADER_SIZE, TCP_RECV_MAX in *. unfold tcp_segment, TCP_HEADER_SIZE, TCP_RECV_MAX.
  set (total := 20 + len data) in *. set (win := 2048 - recv_count x).
  set (hdr := tcp_hdr (local_port x) (remote_port x) (u32 seq) (u32 ack) flags win).
  set (sum := tcp_sum (local_ip x) (remote_ip x) total).
  set (c := checksum16 0 (hdr 0 ++ data) sum true).
  set (front := be16 (local_port x) ++ be16 (remote_port x) ++ be32 (u32 seq) ++ be32 (u32 ack) ++
    [Z.shiftl 5 4; flags] ++ be16 win).
  assert (Hpair : are_bytes [Z.shiftl 5 4; flags]) by (constructor; [done|by constructor]).
  assert (Hfront : are_bytes front) by (unfold front; by eauto 10 with bytes).
  assert (Hrest : are_bytes ([0; 0] ++ data)) by (by eauto with bytes).
  assert (Hsum : 0 <= sum <= 65535) by (apply pseudo_sum_range; unfold tcp_pseudo; by eauto with bytes).
  pose proof (checksum_field_verifies front ([0; 0] ++ data) sum c (if c =? 0 then 0xffff else c) Hfront Hrest Hsum eq_refl) as Hv.
  rewrite le16_x_htons, be16_u16 in Hv. set (c' := if c =? 0 then _ else c) in *.
  set (seg := hdr c' ++ data).
  assert (Hseg : len seg = total) by (unfold seg; rewrite length_app; unfold total; cbn [length hdr tcp_hdr be16 be32 app]; lia).
  assert (Eoff : byte_at seg 12 = 80) by done. assert (Efl : byte_at seg 13 = flags) by done.
  unfold tcp_parse, TCP_HEADER_SIZE. rewrite Hseg, Eoff, Efl, Hknown, (u16_small total) by lia.
  change (Z.shiftr 80 4 * 4) with 20. change (Z.land 80 15 =? 0) with true. fold sum.
  rewrite firstn_all2 by lia. rewrite (proj2 (Z.leb_le 20 total)) by lia. cbn [andb Z.leb Z.compare].
  replace (checksum16 0 seg sum true) with 0.
  - cbn [Z.eqb andb]. rewrite (x_ntohs_be16 seg 0 (local_port x) eq_refl eq_refl Hsp),
      (x_ntohs_be16 seg 2 (remote_port x) eq_refl eq_refl Hdp), (x_ntohl_be32 seg 4 (u32 seq) eq_refl (u32_range _)),
      (x_ntohl_be32 seg 8 (u32 ack) eq_refl (u32_range _)), (x_ntohs_be16 seg 14 win eq_refl eq_refl) by lia.
    do 2 f_equal. unfold total. f_equal. lia.
  - symmetry. unfold seg, hdr, tcp_hdr. unfold front in Hv. rewrite <- !app_assoc in Hv |- *.
    apply Hv; [|by right]. unfold c, hdr, tcp_hdr. by rewrite <- !app_assoc.
Qed.

Lemma tcp_segment_data : drop 20 (tcp_segment x seq ack flags data) = data.
Proof using Type. reflexivity. Qed.

Lemma tcp_segment_shape : are_bytes (tcp_segment x seq ack flags data) /\ len (tcp_segment x seq ack flags data) = 20 + len data.
Proof using Hd Hfl.
  unfold tcp_segment. set (c := if _ =? 0 then _ else _). clearbody c. unfold tcp_hdr.
  assert (H2 : are_bytes [Z.shiftl 5 4; flags]) by (by repeat constructor; try apply Hfl).
  assert (H0 : are_bytes [0; 0]) by (by repeat constructor). split; [by auto 20 with bytes|].
  rewrite !length_app. cbn. lia.
Qed.
End segment.
