(* ===== verification/TcpStream.v ===== *)
(** * The byte stream of a TCP connection

    What [tcp_in] stores behind the bytes that were received, and what
    [tcp_recv_bytes] takes from their front. *)

From S2P Require Import Prelude Tools IpAddr Nlist Timer Mblock Pktbuf PktbufSpec PktbufChain.
From S2P Require Import PktbufOps PktbufFrame Sys Fixq TcpState Net Netif Ether Arp NetifLink Ipv4 Udp Tcp.
From S2P Require Import TcpInv TcpQueue Owner OwnerPkt OwnerQueue OwnerOut OwnerArp OwnerResolve OwnerIp OwnerIcmp.
From S2P Require Import OwnerTcp OwnerSegment OwnerRelease OwnerTcpIn OwnerTcpSeg OwnerTcpOpen OwnerTcpInput.
Import Pcb.

#[local] Hint Resolve list_subseteq_nil : core.

(** ** Receiving data *)

(** What the receiving side of a connection has. *)
Definition same_stream (x x' : tcp_pcb_t) : Prop :=
  recv_storage x' = recv_storage x /\ recv_head x' = recv_head x /\ recv_count x' = recv_count x /\
  rcv_nxt x' = rcv_nxt x /\ state x' = state x /\ close_requested x' = close_requested x.

Lemma same_received x x' : same_stream x x' -> received x' = received x.
Proof. intros (E1 & E2 & E3 & _). unfold received. by rewrite E1, E2, E3. Qed.

Definition ack_acceptable (ack : Z) (x : tcp_pcb_t) : bool :=
  negb ((s32 (ack - snd_una x) <? 0) || (0 <? s32 (ack - snd_nxt x))).

Lemma acked_stream ack x : state x = TCP_STATE_ESTABLISHED -> close_requested x = false -> same_stream x (acked ack x).
Proof. intros E1 E2. unfold same_stream, acked, ack_complete. destruct x. cbn in E1, E2. subst. by split_and!. Qed.

(** An acknowledgement on an established connection that is not being closed. *)
Lemma accept_ack_open {B o s0 s t T} p x ack :
  tinv B o [] [] s0 s t T -> alive t p x -> state x = TCP_STATE_ESTABLISHED -> close_requested x = false ->
  wp (fun e s' => exists f T', tinv B o [] [] s0 s' (upd p f t) T' /\ alive (upd p f t) p (f x) /\ same_stream x (f x) /\
        e = if ack_acceptable ack x then NET_ERR_OK else NET_ERR_STATE)
     (tcp_accept_ack p ack s).
Proof.
  intros Hi Ha Hst Hcr. pose proof Ha as (Hp & Hs & Hnc & Hnl). pose proof Hi as [Hx Hok Htm].
  assert (Hsame : forall e, e = (if ack_acceptable ack x then NET_ERR_OK else NET_ERR_STATE) ->
    exists f T', tinv B o [] [] s0 s (upd p f t) T' /\ alive (upd p f t) p (f x) /\ same_stream x (f x) /\
      e = if ack_acceptable ack x then NET_ERR_OK else NET_ERR_STATE).
  { intros e He. exists id, T. rewrite (upd_id p id t x) by done. by split_and!. }
  unfold tcp_accept_ack. eapply wp_eq; [by eapply load_tcp_at|].
  unfold ack_acceptable in *. destruct (_ || _); cbn [negb] in *; [by apply Hsame|].
  destruct (bool_decide _ && _) eqn:Hg; [|by apply Hsame].
  apply andb_true_iff in Hg as [Ho%bool_decide_eq_true Hack%Z.eqb_eq]. subst ack.
  destruct (outstanding x) as [b|] eqn:Hb; [clear Ho|done].
  eapply wp_step; [eapply (store_tcp_ok Hx p (ack_complete (outstanding_end x)) x Hp)|].
  { clear. unfold ack_complete. destruct x; destruct state0, close_requested0, peer_fin_seen0; reflexivity. }
  { clear. unfold ack_complete. destruct x; destruct state0, close_requested0, peer_fin_seen0; reflexivity. }
  intros ? s1 Hx1. cbn beta in Hx1.
  eapply wp_step; [eapply (clear_outstanding_ok p _ Hx1); by apply pcb_upd_eq|]. intros [] s2 Hx2. rewrite upd_upd in Hx2.
  change (cleared ∘ ack_complete (outstanding_end x)) with (acked (outstanding_end x)) in Hx2.
  rewrite Hcr. cbn [andb wp mret M_ret]. exists (acked (outstanding_end x)). eexists. split; [split; [exact Hx2| |]|split_and!].
  - eapply acked_ok; [done..|unfold in_syn; rewrite Hst; by intros []|exact Hb].
  - pose proof (acked_keeps (outstanding_end x) x) as (_ & (_ & _ & _ & K5) & (_ & K7 & _ & _ & _ & K11) & _).
    eapply (timers_flight p _ x false Hok Htm Hp); [by rewrite K5| |exact K11|exact K7]. right. by rewrite acked_state, Hst.
  - by apply acked_alive.
  - by apply acked_stream.
  - done.
Qed.

(** The data of the segment [g] in the packet [bs] that [x] stores. *)
Definition accepted_data (bs : bytes) (g : segment) (x : tcp_pcb_t) : bytes :=
  if ack_acceptable (sg_ack g) x && (s32 (sg_seq g - rcv_nxt x) =? 0) && (sg_payload_size g <=? TCP_MSS) &&
     (sg_payload_size g <=? TCP_RECV_MAX - recv_count x)
  then drop (Z.to_nat (sg_header_size g)) bs else [].

(** [x'] is [x] with [d] received. *)
Definition got (d : bytes) (x x' : tcp_pcb_t) : Prop :=
  received x' = received x ++ d /\ rcv_nxt x' = u32 (rcv_nxt x + len d).

Lemma got_nothing D x x' : pcb_ok D x -> same_stream x x' -> got [] x x'.
Proof.
  intros Hp Hs. split; [by rewrite app_nil_r, (same_received x x')|]. destruct Hs as (_ & _ & _ & -> & _).
  cbn [length]. rewrite Z.add_0_r. symmetry. apply u32_small. apply Hp.
Qed.

Lemma got_data D x x1 v x2 :
  pcb_ok D x -> same_stream x x1 -> recv_count x + len v <= TCP_RECV_MAX ->
  same_stream (advance (len v) (with_data v x1)) x2 -> got v x x2.
Proof.
  intros Hp Hs Hl H2. pose proof (pcb_ring D x Hp) as (R1 & R2 & R3). split.
  - rewrite (same_received _ _ H2), <- (same_received _ _ Hs). destruct Hs as (E1 & E2 & E3 & _).
    apply (received_write (x := x1)); rewrite ?E1, ?E2, ?E3; done.
  - destruct H2 as (_ & _ & _ & -> & _), Hs as (_ & _ & _ & E & _). cbn. by rewrite E.
Qed.

Section deliver.
Context {o : list nat} {s0 : net} {b : nat} {bs : bytes} {m : Z} (Hown : own o s0 b bs m).
Context (p : nat) (x : tcp_pcb_t) (g : segment).
Context (Hst : state x = TCP_STATE_ESTABLISHED) (Hcr : close_requested x = false).
Context (Hack : has_flag g TCP_FLAG_ACK = true) (Hsyn : has_flag g TCP_FLAG_SYN = false).
Context (Hfin : has_flag g TCP_FLAG_FIN = false) (Hpos : 0 < sg_payload_size g) (Hhs : 0 <= sg_header_size g).
Context (Hlen : sg_header_size g + sg_payload_size g = len bs).

Lemma payload_len : len (drop (Z.to_nat (sg_header_size g)) bs) = sg_payload_size g.
Proof using Hlen Hpos Hhs. rewrite length_drop. lia. Qed.
Lemma payload_all : take (Z.to_nat (sg_payload_size g)) (drop (Z.to_nat (sg_header_size g)) bs) = drop (Z.to_nat (sg_header_size g)) bs.
Proof using Hlen Hpos Hhs. apply take_ge. pose proof payload_len. lia. Qed.

(** What the connection has after the call. *)
Definition delivered (s : net) : Prop :=
  exists o' t T x', tinv [b] o' [] [] s0 s t T /\ pcb_at t p = Some x' /\ got (accepted_data bs g x) x x'.

Lemma delivered_intro {B o' s t T} x' :
  tinv B o' [] [] s0 s t T -> B ⊆ [b] -> pcb_at t p = Some x' -> got (accepted_data bs g x) x x' -> delivered s.
Proof. intros Hi HB Hp Hg. exists o', t, T, x'. split_and!; [by eapply tinv_mono|done..]. Qed.

Lemma consume_delivered {B s t T} x' :
  tinv B (b :: o) [] [] s0 s t T -> B ⊆ [b] -> pcb_at t p = Some x' -> got (accepted_data bs g x) x x' ->
  wp (fun _ s' => delivered s') (tcp_consume b s).
Proof.
  intros Hi HB Hp Hg. unfold tcp_consume. eapply wp_step; [apply own_free, (in_cx _ _ _ _ _ _ _ _ Hi)|].
  intros ? s' [Hc Hn]. cbn [wp mret M_ret]. exists o, t, T, x'. split_and!; [|done..].
  eapply tinv_calm; [by eapply tinv_mono|done|done].
Qed.

(** The data is stored when it is in order and there is room for it. *)
Lemma in_order_data {s t T} x1 :
  tinv [] (b :: o) [] [] s0 s t T -> alive t p x1 -> pcb_ok (dom (netif_buffer s0)) x -> same_stream x x1 ->
  ack_acceptable (sg_ack g) x = true ->
  wp (fun e s' => exists t' x', tinv [b] (b :: o) [] [] s0 s' t' T /\ alive t' p x' /\ got (accepted_data bs g x) x x')
    ((if (0 <? sg_payload_size g) && (s32 (sg_seq g - rcv_nxt x1) =? 0) then
        err ← tcp_queue_data p b (sg_header_size g) (sg_payload_size g);
        if err <? 0 then mret err
        else store_tcp p (advance (sg_payload_size g));; mret NET_ERR_OK
      else mret NET_ERR_OK) s).
Proof using All.
  intros Hi Ha Hpcb Hsame Hacc. pose proof Hsame as (E1 & E2 & E3 & E4 & _). pose proof Ha as (Hp & Hs & _).
  assert (Hi' : tinv [b] (b :: o) [] [] s0 s t T) by (by apply (tinv_mono (list_subseteq_nil _))).
  unfold accepted_data. rewrite E4, (proj2 (Z.ltb_lt 0 _)), Hacc by done. cbn [andb].
  destruct (s32 _ =? 0); cbn [andb].
  2: { cbn [wp mret M_ret]. exists t, x1. split_and!; [done..|by eapply got_nothing]. }
  assert (Hown1 : own o s b bs m).
  { destruct Hi as [[Hc _ [_ Hsp] _ _ _ _] _ _]. eapply own_spared; [done..|set_solver|done]. }
  eapply wp_step; [eapply (queue_data_ok p x1); [by left|done..|lia]|].
  intros e s1 H1. cbn beta in H1. rewrite E3, payload_all in H1. destruct (_ && _) eqn:Hg; destruct H1 as [He Hi1].
  2: { rewrite (proj2 (Z.ltb_lt _ _)) by done. exists t, x1. split_and!; [done..|by eapply got_nothing]. }
  subst e. cbn [NET_ERR_OK Z.ltb Z.compare]. set (v := drop (Z.to_nat (sg_header_size g)) bs) in *.
  apply andb_true_iff in Hg as [_ Hroom%Z.leb_le].
  assert (Ha1 : alive (upd p (with_data v) t) p (with_data v x1)) by (by apply alive_upd).
  eapply wp_step; [by eapply (tinv_advance p _ _ Hi1)|]. intros ? s2 Hi2. cbn [wp mret M_ret].
  eexists _, _. split; [exact Hi2|]. split; [by apply alive_upd|].
  rewrite <- payload_len. fold v. eapply got_data; [done|exact Hsame|unfold v; rewrite payload_len; lia|by split_and!].
Qed.

Lemma in_connected_data {s t T} :
  tinv [] (b :: o) [] [] s0 s t T -> alive t p x -> wp (fun _ s' => delivered s') (tcp_in_connected p b g s).
Proof using All.
  intros Hi Ha. pose proof Ha as (Hp & Hs & _). pose proof Hi as [_ Hok _].
  pose proof (tcp_each _ _ Hok p x Hp) as Hpcb. unfold tcp_in_connected. rewrite Hack, Hsyn. cbn [negb orb].
  eapply wp_step; [by eapply (accept_ack_open p x _ Hi Ha)|]. intros e s1 (f & T1 & Hi1 & Ha1 & Hf & ->).
  unfold accepted_data in *. destruct (ack_acceptable _ _) eqn:Hacc; cbn [andb].
  2: { cbn [NET_ERR_STATE Z.ltb Z.compare wp mret M_ret]. eapply (delivered_intro (f x) Hi1); [done|by destruct Ha1|].
       unfold accepted_data. rewrite Hacc. by eapply got_nothing. }
  cbn [NET_ERR_OK Z.ltb Z.compare]. pose proof Ha1 as (Hp1 & Hs1 & _). pose proof Hi1 as [Hx1 Hok1 _].
  eapply wp_eq; [by eapply (load_tcp_at Hx1)|]. pose proof Hf as (F1 & F2 & F3 & F4 & F5 & F6).
  rewrite bool_decide_eq_false_2 by congruence. set (w := fun x => x <| window := sg_window g |>).
  eapply wp_step; [eapply (tinv_store p w (f x) Hi1 Hp1 Hs1); try done; [|by eapply role_refl]|].
  { destruct (tcp_each _ _ Hok1 p (f x) Hp1). by split. }
  intros ? s2 Hi2. cbn beta in Hi2. set (x1 := w (f x)) in *. assert (Hx1s : same_stream x x1) by done.
  assert (Ha2 : alive (upd p w (upd p f t)) p x1) by (by apply alive_upd).
  set (t2 := upd p w (upd p f t)) in *. clearbody t2 x1. clear Hi1 Hx1 Hok1 Hp1 Hs1 Ha1 Hf F1 F2 F3 F4 F5 F6 w f.
  (* the data *)
  unfold tcp_in_data. pose proof Ha2 as (Hp2 & Hs2 & Hnc2 & _). pose proof Hi2 as [Hx2 Hok2 _].
  eapply wp_eq; [by eapply (load_tcp_at Hx2)|]. pose proof Hx1s as (E1 & E2 & E3 & E4 & _).
  eapply (wp_step (fun e s' => exists t' x', tinv [b] (b :: o) [] [] s0 s' t' T1 /\ alive t' p x' /\
    got (accepted_data bs g x) x x')).
  { by apply (in_order_data (t := t2)). }
  intros e s3 (t3 & x3 & Hi3 & Ha3 & Hg3). pose proof Ha3 as (Hp3 & _ & Hnc3 & _).
  destruct (Z.ltb_spec e 0); [by eapply (delivered_intro x3 Hi3)|]. rewrite (proj2 (Z.ltb_lt 0 _)) by done.
  eapply wp_step; [by eapply (tinv_send_ack p x3 Hi3)|]. intros e4 s4 Hi4. cbn beta in Hi4.
  destruct (Z.ltb_spec e4 0); [by eapply (delivered_intro x3 Hi4)|]. rewrite Hfin.
  eapply wp_eq; [reflexivity|]. cbn [NET_ERR_OK Z.ltb Z.compare]. by eapply (consume_delivered x3 Hi4).
Qed.
End deliver.

(** [p] is the only open control block of the connection. *)
Definition for_connection (n : nat) (src dest sport dport : Z) (x : tcp_pcb_t) : bool :=
  opened x && bool_decide (netif x = Some n) && (local_port x =? dport) && (remote_port x =? sport) &&
  (local_ip x =? dest) && (remote_ip x =? src).
Definition connection (n : nat) (src dest sport dport : Z) (t : tcp_vars) (p : nat) (x : tcp_pcb_t) : Prop :=
  pcb_at t p = Some x /\ slot_at t p = Some (Some p) /\ for_connection n src dest sport dport x = true /\
  forall q y, slot_at t q = Some (Some q) -> pcb_at t q = Some y -> for_connection n src dest sport dport y = true -> q = p.

Lemma find_connection {B o P s0 s t T D} n src dest sport dport p x :
  tcx B o P s0 s t T -> tcp_ok D t -> connection n src dest sport dport t p x ->
  tcp_find_pcb n src dest sport dport s = Ret (Some p) s.
Proof.
  intros Hx Hok (Hp & Hs & Hc & Huq). destruct (find_pcb_at (for_connection n src dest sport dport) Hx Hok) as (r & Hr & Hspec).
  unfold tcp_find_pcb. mstep by (by apply (gets_tcp_at Hx)).
  assert (E : r = Some p); [|by rewrite <- E].
  destruct r as [q|]; [destruct Hspec as (y & Hy & Hsy & Hcy); f_equal; by eapply Huq|].
  rewrite (Hspec p x Hs Hp) in Hc. done.
Qed.

Lemma tcp_in_data_ok o s b bs m n src dest sport dport g p x :
  own o s b bs m -> arp_ok [] s -> tcp_inv s -> tcp_parse src dest bs = Some (sport, dport, g) ->
  connection n src dest sport dport (tcp s) p x -> state x = TCP_STATE_ESTABLISHED -> close_requested x = false ->
  has_flag g TCP_FLAG_ACK = true -> has_flag g TCP_FLAG_SYN = false -> has_flag g TCP_FLAG_FIN = false ->
  0 < sg_payload_size g ->
  wp (fun _ s' => exists x', pcb_at (tcp s') p = Some x' /\ got (accepted_data bs g x) x x')
     (tcp_in (Some n) (Some src) (Some dest) (Some b) s).
Proof.
  intros Hown Ha Hi Hparse Hconn Hst Hcr Hack Hsyn Hfin Hpos. apply (tcp_in_frame n src dest _ Hown); [congruence|].
  intros sport' dport' g' s1 m1 Hparse' Hown1 Hn. rewrite Hparse in Hparse'. injection Hparse' as <- <- <-.
  destruct (tcp_parse_range _ _ _ _ _ _ Hparse) as (R1 & R2 & R3 & R4).
  assert (Hc1 : core (b :: o) s1) by (by destruct Hown1).
  assert (Ha1 : arp_ok [] s1) by (eapply arp_ok_near; [by apply calm_near|done]).
  assert (Hi1 : tcp_inv s1) by (by eapply tcp_inv_calm).
  assert (Et : tcp s1 = tcp s) by (destruct Hn as [_ ->]; by destruct s).
  pose proof (tinv_start [] Hc1 Ha1 Hi1) as Htinv. rewrite Et in Htinv.
  unfold tcp_dispatch. eapply wp_eq; [eapply find_connection; [apply Htinv|apply Htinv|done]|].
  destruct Hconn as (Hp & Hs & _). eapply wp_eq; [eapply load_tcp_at; [apply Htinv|done]|]. rewrite Hst.
  eapply wp_mono; [|eapply (in_connected_data Hown1 p x g); [done..|lia|lia|exact Htinv|]].
  - intros r s2 (o' & t2 & T2 & x' & Hi2 & Hp2 & Hg). exists x'. split; [|done].
    by rewrite (cx_tcp _ _ _ _ _ _ _ (in_cx _ _ _ _ _ _ _ _ Hi2)).
  - split_and!; [done..|congruence|congruence].
Qed.

(** ** Reading *)

Section reading.
Context (task_sleep : nat -> Z -> M net Z) (fuel : nat) (mtime : Z).

(** A wait that does not block. *)
Lemma tcx_trywait {B o P s0 s t T} p x sem :
  tcx B o P s0 s t T -> pcb_at t p = Some x -> option_list sem ⊆ tcp_sems x ->
  wp (fun _ s' => tcx B o P s0 s' t T) (sem_wait_ms task_sleep fuel mtime sem (-1) s).
Proof.
  intros Hx Hp Hs. unfold sem_wait_ms, sys_sem_wait.
  assert (Eid : s <| sys := sys s |> = s) by (by destruct s). destruct sem as [k|].
  2: { eapply wp_eq; [apply zoom_ret; reflexivity|]. cbn. by rewrite Eid. }
  assert (Hk : k ∈ tcp_sems x) by set_solver. destruct (tcp_sem_live Hx p x k Hp Hk) as (c & Hc & Hr).
  pose proof Hc as [w Hw]. eapply wp_eq; [apply zoom_ret; by eapply sem_valid|]. cbn [lset sys_lens lget]. rewrite Eid.
  change (-1 <? 0) with true. cbv iota. eapply wp_eq; [apply zoom_ret; by eapply load_sem_at|]. cbn [lset sys_lens lget]. rewrite Eid.
  cbn [sem_count]. destruct (Z.ltb_spec 0 c); [|done].
  destruct (store_sem_at (sys s) k c ((Sem c w) <| sem_count := c - 1 |>) (c - 1) w Hc eq_refl) as (y' & H1 & H2 & H3).
  eapply wp_eq; [apply zoom_ret; exact H1|]. cbn [wp mret M_ret]. apply (tcx_sems Hx y' [k]); [exact H3| |].
  - intros u Hu. pose proof (tcp_sem_apart Hx p x u Hp Hu). set_solver.
  - intros u k' _ ->%list_elem_of_singleton. exists (c - 1). split; [done|lia].
Qed.

Definition consumed (k : Z) (x : tcp_pcb_t) : tcp_pcb_t :=
  x <| recv_head := (recv_head x + k) mod TCP_RECV_MAX |> <| recv_count := recv_count x - k |>.

Lemma consumed_ok D k x : pcb_ok D x -> 0 <= k <= recv_count x -> pcb_ok D (consumed k x).
Proof.
  intros [H1 [H2 H2'] H3 H4 H5 H6 H7 H8 H9] Hk. split; try done. split.
  - by apply Z.mod_pos_bound.
  - cbn. lia.
Qed.

Lemma recv_loop_ok {B o P E s0 s t T} turns p x size timeout :
  tinv B o P E s0 s t T -> pcb_at t p = Some x -> slot_at t p = Some (Some p) -> 0 < size -> recv_count x <> 0 ->
  let k := Z.min size (recv_count x) in
  wp (fun r s' => r = (k, take (Z.to_nat k) (received x)) /\ tinv B o P E s0 s' (upd p (consumed k) t) T)
     (recv_bytes_loop task_sleep fuel mtime turns p size timeout s).
Proof.
  intros Hi Hp Hs Hsz Hne k. pose proof Hi as [Hx Hok Htm]. pose proof (tcp_each _ _ Hok p x Hp) as Hpcb.
  pose proof (pcb_ring _ _ Hpcb) as (R1 & R2 & R3). assert (Hk : 0 <= k <= recv_count x) by lia.
  assert (Ek : (if size <? recv_count x then size else recv_count x) = k).
  { unfold k. destruct (Z.ltb_spec size (recv_count x)); lia. }
  assert (Hend : forall s', tinv B o P E s0 s' (upd p (consumed k) t) T ->
    wp (fun r s' => r = (k, take (Z.to_nat k) (received x)) /\ tinv B o P E s0 s' (upd p (consumed k) t) T)
      ((mret (k, ring_read x k) : M net (Z * bytes)) s')).
  { intros s' H'. cbn [wp mret M_ret]. split; [|done]. by rewrite ring_read_received. }
  destruct turns as [|turns]; cbn [recv_bytes_loop]; (eapply wp_eq; [by eapply load_tcp_at|]);
    rewrite (proj2 (Z.eqb_neq _ _)) by done; cbn [negb]; rewrite Ek.
  all: eapply wp_step; [eapply (tcx_trywait p x); [exact Hx|done|apply (in_tcp_sems x)]|]; intros ? s1 Hx1.
  all: assert (Hi1 : tinv B o P E s0 s1 t T) by (by split).
  all: eapply wp_step; [eapply (tinv_store p (consumed k) x Hi1 Hp Hs); try done; [by apply consumed_ok|by eapply role_refl]|].
  all: intros ? s2 Hi2; cbn beta in Hi2.
  all: destruct (recv_count x - k =? 0); cbn [negb when]; [eapply wp_eq; [reflexivity|]; by apply Hend|].
  all: eapply wp_step; [eapply (tinv_notify_once p (consumed k x) (recv_done x) Hi2);
         [by apply pcb_upd_eq|apply (in_tcp_sems (consumed k x))]|]; intros ? s3 Hi3; by apply Hend.
Qed.

Definition add_reader (k : Z) (x : tcp_pcb_t) : tcp_pcb_t := x <| recv_waiters := recv_waiters x + k |>.

Lemma tinv_reader {B o P E s0 s t T} p x k :
  tinv B o P E s0 s t T -> pcb_at t p = Some x -> slot_at t p = Some (Some p) ->
  wp (fun _ s' => tinv B o P E s0 s' (upd p (add_reader k) t) T) (store_tcp p (add_reader k) s).
Proof.
  intros Hi Hp Hs. pose proof Hi as [_ Hok _].
  eapply (tinv_store p (add_reader k) x Hi Hp Hs); try done; [|by eapply role_refl].
  destruct (tcp_each _ _ Hok p x Hp). by split.
Qed.

(** Reading from a connection that has bytes. *)
Lemma tcp_recv_bytes_ok {B o P E s0 s t T} turns p x size timeout :
  tinv B o P E s0 s t T -> pcb_at t p = Some x -> slot_at t p = Some (Some p) -> release_pending x = false ->
  (state x = TCP_STATE_ESTABLISHED \/ state x = TCP_STATE_FIN_WAIT_1 \/ state x = TCP_STATE_FIN_WAIT_2) ->
  0 < size -> recv_count x <> 0 ->
  let k := Z.min size (recv_count x) in
  wp (fun r s' => r = (k, take (Z.to_nat k) (received x)) /\ exists t' x', tinv B o P E s0 s' t' T /\
        pcb_at t' p = Some x' /\ received x' = drop (Z.to_nat k) (received x) /\ rcv_nxt x' = rcv_nxt x)
     (tcp_recv_bytes task_sleep fuel mtime turns (Some p) true size timeout s).
Proof.
  intros Hi Hp Hs Hrp Hst Hsz Hne k. pose proof Hi as [Hx Hok Htm].
  pose proof (pcb_ring _ _ (tcp_each _ _ Hok p x Hp)) as (R1 & R2 & R3).
  unfold tcp_recv_bytes. rewrite (proj2 (Z.leb_gt _ _)) by done. cbn [negb orb bool_decide]. rewrite bool_decide_eq_false_2 by done.
  cbn [orb]. unfold tcp_recv_acquire. eapply wp_step.
  { eapply wp_eq; [eapply (find_slot_used Hx (tcp_own_slot _ _ Hok)); done|]. rewrite (proj2 (Z.ltb_ge _ _)) by lia.
    eapply wp_eq; [by eapply load_tcp_at|]. rewrite (tcp_used _ _ Hok p x Hp Hs), Hrp. cbn [negb orb].
    replace (_ && _ && _ && _) with false.
    2: { symmetry. destruct Hst as [-> |[-> | ->]]; reflexivity. }
    eapply wp_step; [by eapply (tinv_reader p x 1 Hi)|]. intros ? s1 Hi1. cbn [wp mret M_ret].
    exact (conj eq_refl Hi1 : (fun e s' => e = NET_ERR_OK /\ tinv B o P E s0 s' (upd p (add_reader 1) t) T) NET_ERR_OK s1). }
  intros e s1 [-> Hi1]. cbn [NET_ERR_OK Z.ltb Z.compare]. unfold tcp_recv_bytes_acquired. cbn [negb orb].
  rewrite (proj2 (Z.leb_gt _ _)) by done.
  eapply wp_step; [eapply (recv_loop_ok turns p (add_reader 1 x) size timeout Hi1); [by apply pcb_upd_eq|done..]|].
  cbv zeta. change (recv_count (add_reader 1 x)) with (recv_count x). fold k. intros r s2 [-> Hi2]. rewrite upd_upd in Hi2.
  eapply wp_step; [eapply (tinv_reader p _ (-1) Hi2); [by apply pcb_upd_eq|done]|]. intros ? s3 Hi3. cbn [wp mret M_ret]. rewrite upd_upd in Hi3.
  split; [done|]. eexists _, _. split; [exact Hi3|]. split; [by apply pcb_upd_eq|]. split; [|done].
  apply (received_read (x := x)); lia.
Qed.
End reading.
