(* ===== verification/OwnerTcpApi.v ===== *)
(** * The calls of TCP under the invariants: binding, listening, accepting

    One lemma per function of tcp.h that a socket calls: it returns, and the
    invariants of the stack and of TCP hold after it.  The functions that block
    are in [TcpStream]. *)

From S2P Require Import Prelude Tools IpAddr Nlist Timer Mblock Pktbuf PktbufSpec PktbufChain.
From S2P Require Import PktbufOps PktbufFrame Sys Fixq TcpState Net Netif Ether Arp NetifLink Ipv4.
From S2P Require Import Udp Tcp TcpInv TcpQueue Owner OwnerPkt OwnerQueue OwnerOut OwnerArp.
From S2P Require Import OwnerResolve OwnerIp OwnerIcmp OwnerTcp OwnerSegment OwnerRelease.
From S2P Require Import OwnerTcpIn OwnerTcpSeg OwnerTcpOpen OwnerTcpInput.
Import Pcb.

#[local] Hint Resolve list_subseteq_nil : core.

(** The invariants hold in [s]. *)
Definition sound (B o : list nat) (s0 s : net) : Prop := exists t T, tinv B o [] [] s0 s t T.

Section searches.
Context {B o : list nat} {P : list (list nat)} {s0 s : net} {t : tcp_vars} {T : nat -> bool} {D : gset nat}.
Context (Hx : tcx B o P s0 s t T) (Hok : tcp_ok D t).

Lemma slot_elem p : Some p ∈ tcp_pcbs t <-> slot_at t p = Some (Some p).
Proof using Hok.
  split; [|intros H; by eapply list_elem_of_lookup_2]. intros (i & Hi)%list_elem_of_lookup.
  pose proof (tcp_own_slot _ _ Hok _ _ Hi) as ->. done.
Qed.

Lemma other_pcb_loop bad p l :
  (forall q, Some q ∈ l -> exists x, pcb_at t q = Some x) ->
  exists b, other_pcb bad p l s = Ret b s /\
    (b = false -> forall q x, q <> p -> Some q ∈ l -> pcb_at t q = Some x -> bad x = false).
Proof using All.
  induction l as [|[q|] l IH]; intros Hl; cbn [other_pcb].
  - exists false. split; [done|]. set_solver.
  - destruct IH as (b & Hb & Hspec); [intros r Hr; apply Hl; by right|]. destruct (Nat.eqb_spec q p) as [->|Hne].
    + exists b. split; [done|]. intros E r x Hr [[= ->]|Hin]%elem_of_cons Hx'; [done|by eapply Hspec].
    + destruct (Hl q) as [y Hy]; [by left|]. destruct (bad y) eqn:Ebad.
      * exists true. split; [|done]. mstep by (by eapply load_tcp_at). by rewrite Ebad.
      * exists b. split; [mstep by (by eapply load_tcp_at); by rewrite Ebad|].
        intros E r x Hr [[= ->]|Hin]%elem_of_cons Hx'; [congruence|by eapply Hspec].
  - destruct IH as (b & Hb & Hspec); [intros r Hr; apply Hl; by right|]. exists b. split; [done|].
    intros E r x Hr [?|Hin]%elem_of_cons Hx'; [done|by eapply Hspec].
Qed.

Lemma other_pcb_at bad p :
  exists b, other_pcb bad p (tcp_pcbs t) s = Ret b s /\
    (b = false -> forall q x, q <> p -> slot_at t q = Some (Some q) -> pcb_at t q = Some x -> bad x = false).
Proof using All.
  destruct (other_pcb_loop bad p (tcp_pcbs t)) as (b & Hb & Hspec).
  { intros q Hq%slot_elem. destruct (slot_pcb Hok q Hq) as (x & Hp & _). eauto. }
  exists b. split; [done|]. intros E q x Hne Hq Hp. eapply Hspec; [done..|by apply slot_elem|done].
Qed.
End searches.

(** A control block that is neither a listener nor a child, in any state. *)
Lemma closed_alone {D t} p x :
  tcp_ok D t -> pcb_at t p = Some x -> state x = TCP_STATE_CLOSED -> listener x = None /\ unreferenced t p.
Proof.
  intros Hok Hp Hc. split; [eapply not_child; [done..|congruence|congruence]|].
  eapply plain_unreferenced; [done..|congruence].
Qed.

(** ** Stores the invariants do not see *)

Definition visible (x : tcp_pcb_t) :=
  ((recv_storage x, recv_head x, recv_count x, accept_queue x, accept_head x, accept_count x, remote_ip x, netif x),
   (state x, outstanding x, outstanding_end x, snd_una x, snd_nxt x, rcv_nxt x, iss x, release_pending x),
   (opened x, listener x, pending_count x, backlog x, close_requested x, tcp_sems x)).

Lemma touch_ok {B o P E s0 s t T} p f x :
  tinv B o P E s0 s t T -> pcb_at t p = Some x -> visible (f x) = visible x ->
  wp (fun _ s' => tinv B o P E s0 s' (upd p f t) T) (store_tcp p f s).
Proof.
  intros [Hx Hok Htm] Hp [= E1 E2 E3 E4 E5 E6 E7 E8 F1 F2 F3 F4 F5 F6 F7 F8 G1 G2 G3 G4 G5 G6].
  pose proof (tcp_each _ _ Hok p x Hp) as Hpcb.
  eapply wp_mono; [|by eapply (store_tcp_ok Hx p f x)]. intros ? s' Hx'. cbn beta in Hx'. split; [done| |].
  - apply (tcp_ok_upd Hok p f x Hp).
    + apply (pcb_ok_field _ x); try done; [congruence|]. rewrite F6. apply Hpcb.
    + eapply role_refl; try done. unfold accept_list. by rewrite E4, E5, E6.
    + intros Hs. destruct (tcp_unused _ _ Hok p x Hp Hs) as (U1 & U2 & U3 & U4 & U5 & U6 & U7 & U8 & U9).
      assert (Hn : tcp_sems (f x) = []) by (rewrite G6; unfold tcp_sems; by rewrite U6, U7, U8, U9).
      unfold tcp_sems in Hn. rewrite !app_nil in Hn. destruct Hn as (N1 & N2 & N3 & N4).
      assert (Hnil : forall k : sys_sem_t, option_list k = [] -> k = None) by (by intros []).
      split_and!; try congruence; by apply Hnil.
  - eapply timers_ok_same; [by destruct (tcp_lengths _ _ Hok)|done..| |done|by left]. by rewrite F1.
Qed.

(** A call looks for the slot of its control block first. *)
Lemma slot_step {B o P s0 s t T D A} p (bad : M net A) (m : Z -> M net A) (Q : A -> net -> Prop) :
  tcx B o P s0 s t T -> tcp_ok D t -> wp Q (bad s) ->
  (forall x, pcb_at t p = Some x -> slot_at t p = Some (Some p) -> opened x = true -> wp Q (m (Z.of_nat p) s)) ->
  wp Q ((slot ← tcp_find_slot p; if slot <? 0 then bad else m slot) s).
Proof.
  intros Hx Hok Hbad Hm.
  destruct (find_slot_cases Hx (tcp_own_slot _ _ Hok) p) as [(k & Hneg & Hk & _)|[Hs Hk]]; (eapply wp_eq; [exact Hk|]).
  - by rewrite (proj2 (Z.ltb_lt _ _)).
  - rewrite (proj2 (Z.ltb_ge _ _)) by lia. destruct (slot_pcb Hok p Hs) as (x & Hp & Hop). by eapply Hm.
Qed.

Section calls.
Context {B o : list nat} {s0 s : net}.
Abbreviation D := (dom (netif_buffer s0)).
Context (Hsound : sound B o s0 s).

Lemma open_ok attached : wp (fun _ s' => sound B o s0 s') (tcp_alloc_locked attached s).
Proof using Hsound.
  destruct Hsound as (t & T & Hi). eapply wp_mono; [|by eapply (alloc_locked_ok attached Hi)].
  intros r s' [[_ (t' & H')]|(p & x & c & d & e & _ & _ & _ & H')]; by eexists _, T.
Qed.

(** ** Binding *)

Definition bound_to (n : nat) (ip port : Z) (x : tcp_pcb_t) : tcp_pcb_t :=
  x <| netif := Some n |> <| local_ip := ip |> <| local_port := port |> <| bound := true |>.

Lemma bind_ok p n local port :
  n ∈ dom (netif_buffer s) -> wp (fun _ s' => sound B o s0 s') (tcp_bind (Some p) (Some n) (Some local) port s).
Proof using Hsound.
  intros Hn. unfold tcp_bind. destruct (port =? 0); [exact Hsound|]. destruct Hsound as (t & T & Hi). pose proof Hi as [Hx Hok Htm].
  destruct (tcp_find_slot_at Hx p) as (k & Hk & _). pose proof Hn as [i Hni]%elem_of_dom. eapply wp_eq; [exact Hk|].
  eapply wp_eq; [by apply load_netif_at|].
  destruct (find_slot_cases Hx (tcp_own_slot _ _ Hok) p) as [(k' & Hneg & Hk' & _)|[Hs Hk']]; rewrite Hk in Hk'; injection Hk' as ->.
  { rewrite (proj2 (Z.ltb_lt _ _)) by done. exact Hsound. }
  rewrite (proj2 (Z.ltb_ge _ _)) by lia. cbn [orb]. destruct (negb _); [exact Hsound|]. destruct (_ && _); [exact Hsound|].
  destruct (slot_pcb Hok p Hs) as (x & Hp & Hop). eapply wp_eq; [by eapply load_tcp_at|].
  destruct (negb _) eqn:Hg; [exact Hsound|]. apply negb_false_iff in Hg. rewrite !andb_true_iff in Hg.
  destruct Hg as ((((_ & Hrp%negb_true_iff) & Hst%bool_decide_eq_true) & _) & _).
  eapply wp_eq; [by apply (gets_tcp_at Hx)|].
  destruct (other_pcb_at Hx Hok (fun y => opened y && (local_port y =? port) && (local_ip y =? Net.ipaddr i)) p) as (b & Hb & _).
  eapply wp_eq; [exact Hb|]. destruct b; [exact Hsound|].
  destruct (closed_alone p x Hok Hp Hst) as [Hl _].
  eapply wp_step; [eapply (tinv_store p (bound_to n (Net.ipaddr i) port) x Hi Hp Hs); try done|].
  - destruct (tcp_each _ _ Hok p x Hp) as [H1 H2 H3 H4 H5 H6 H7 H8 H9 H10]. split; try done.
    intros m. cbn. intros [= <-]. by rewrite <- (tcx_dom Hx).
  - by eapply role_refl.
  - intros ? s1 Hi1. cbn beta in Hi1. cbn [wp mret M_ret]. eexists _, T. exact Hi1.
Qed.

(** ** Listening *)

Definition listening (sem : sys_sem_t) (backlog_ : Z) (x : tcp_pcb_t) : tcp_pcb_t :=
  x <| accept_done := sem |> <| accept_queue := replicate TCP_ACCEPT_MAX None |> <| accept_head := 0 |>
    <| accept_count := 0 |> <| pending_count := 0 |> <| backlog := backlog_ |> <| accept_waiters := 0 |>
    <| state := TCP_STATE_LISTEN |>.

Lemma listen_ok p backlog_ : wp (fun _ s' => sound B o s0 s') (tcp_listen (Some p) backlog_ s).
Proof using Hsound.
  unfold tcp_listen. destruct (_ || _) eqn:Hbl; [exact Hsound|]. apply orb_false_iff in Hbl as [Hb1%Z.ltb_ge Hb2%Z.ltb_ge].
  destruct Hsound as (t & T & Hi). pose proof Hi as [Hx Hok Htm].
  apply (slot_step p _ _ _ Hx Hok); [exact Hsound|]. intros x Hp Hs Hop.
  eapply wp_eq; [by eapply load_tcp_at|]. destruct (negb _) eqn:Hg; [exact Hsound|]. apply negb_false_iff in Hg.
  rewrite !andb_true_iff in Hg.
  destruct Hg as (((((_ & Hrp%negb_true_iff) & Hst%bool_decide_eq_true) & Hn%bool_decide_eq_true) & _) & _).
  eapply wp_eq; [by apply (gets_tcp_at Hx)|].
  destruct (other_pcb_at Hx Hok (fun y => opened y && bool_decide (state y = TCP_STATE_LISTEN)) p) as (b & Hb & Hone).
  eapply wp_eq; [exact Hb|]. destruct b; [exact Hsound|]. specialize (Hone eq_refl).
  eapply wp_step; [by apply (sem_create_ok Hx)|]. intros sem s1 (Hx1 & _ & Hsem).
  case_bool_decide as Hnone; [subst sem; cbn in Hsem; subst s1; exact Hsound|].
  destruct (closed_alone p x Hok Hp Hst) as [Hl Hu].
  eapply wp_step; [eapply (store_tcp_sems Hx1 p (listening sem backlog_) x Hp); [done|]|].
  { intros k Hin. destruct sem as [q|]; [|done]. destruct Hsem as [Hspare _]. unfold tcp_sems in *. cbn in Hin.
    rewrite !elem_of_app in Hin |- *. destruct Hin as [?|[?|[?| ->%list_elem_of_singleton]]]; [left; tauto..|by right]. }
  intros ? s2 Hx2. cbn beta in Hx2. cbn [wp mret M_ret]. eexists _, T. split; [exact Hx2| |].
  - apply (tcp_ok_plain Hok Hp); try done.
    + destruct (tcp_each _ _ Hok p x Hp) as [H1 H2 H3 H4 H5 H6 H7 H8 H9 H10]. split; try done.
      * by intros [].
      * unfold flight_ok in *. cbn. destruct (outstanding x); [|right; by left]. destruct H9 as [_ [?|[?|[?|?]]]]; congruence.
      * intros ?. by right.
    + cbn. lia.
    + congruence.
    + intros _ q (y & Hy & Hyo & Hys). destruct (decide (q = p)) as [->|Hne]; [done|]. exfalso.
      destruct (slot_cases Hok q) as [Hsq|Hsq]; [by eapply pcb_range| |].
      * specialize (Hone q y Hne Hsq Hy). rewrite Hyo, Hys in Hone. done.
      * destruct (tcp_unused _ _ Hok q y Hy Hsq) as (? & _). congruence.
  - eapply timers_ok_same; [by destruct (tcp_lengths _ _ Hok)|done..| |done|by left]. rewrite Hst. done.
Qed.

(** ** Accepting *)

Lemma accept_acquire_ok l : wp (fun _ s' => sound B o s0 s') (tcp_accept_acquire (Some l) s).
Proof using Hsound.
  destruct Hsound as (t & T & Hi). pose proof Hi as [Hx Hok _]. unfold tcp_accept_acquire.
  apply (slot_step l _ _ _ Hx Hok); [exact Hsound|]. intros x Hp Hs Hop. eapply wp_eq; [by eapply load_tcp_at|].
  destruct (_ || _); [exact Hsound|]. eapply wp_step; [by eapply (touch_ok l _ x Hi)|].
  intros ? s1 Hi1. cbn beta in Hi1. eexists _, T. exact Hi1.
Qed.

Definition taken_child (y : tcp_pcb_t) : tcp_pcb_t :=
  y <| accept_pins := accept_pins y - 1 |> <| socket_attached := true |> <| accepted := true |> <| listener := None |>.
Definition popped (x : tcp_pcb_t) : tcp_pcb_t :=
  x <| accept_queue := <[Z.to_nat (accept_head x) := None]> (accept_queue x) |>
    <| accept_head := (accept_head x + 1) mod Z.of_nat TCP_ACCEPT_MAX |>
    <| accept_count := accept_count x - 1 |> <| pending_count := pending_count x - 1 |>
    <| accept_waiters := accept_waiters x - 1 |>.

Lemma popped_ok D x : pcb_ok D x -> 0 < accept_count x -> pcb_ok D (popped x).
Proof.
  intros [H1 H2 (H3 & H3' & H3'') H4 H5 H6 H7 H8 H9 H10] Hc. split; try done. unfold popped. cbn.
  split_and!; [by rewrite length_insert|apply Z.mod_pos_bound; lia|apply Z.mod_pos_bound; lia|lia|lia].
Qed.

(** The head of the queue leaves it. *)
Lemma popped_list D x c cs :
  pcb_ok D x -> 0 < accept_count x -> accept_queue x !! Z.to_nat (accept_head x) = Some (Some c) ->
  accept_list x = Some <$> cs -> NoDup cs -> accept_list (popped x) = Some <$> filter (fun d => d <> c) cs.
Proof.
  intros [_ _ (A1 & A2 & A3) _ _ _ _ _ _ _] Hc Hq E Hnd. rewrite accept_entries in E. unfold TCP_ACCEPT_MAX in *.
  destruct cs as [|d cs].
  - exfalso. apply (f_equal length) in E. unfold entries in E. rewrite length_fmap, length_seq in E. cbn in E. lia.
  - cbn in E. destruct (entries_pop _ _ _ _ _ A1 A2 A3 E) as (Hpop & Hhd & _).
    assert (d = c) as -> by congruence.
    change (accept_list (popped x)) with (entries (<[Z.to_nat (accept_head x) := None]> (accept_queue x))
      ((accept_head x + 1) mod 4) (accept_count x - 1)).
    by rewrite Hpop, <- (delete_filter 0 c (c :: cs)).
Qed.

Lemma accept_commit_ok l c : wp (fun _ s' => sound B o s0 s') (tcp_accept_commit_acquired (Some l) (Some c) s).
Proof using Hsound.
  destruct Hsound as (t & T & Hi). pose proof Hi as [Hx Hok Htm]. unfold tcp_accept_commit_acquired.
  apply (slot_step l _ _ _ Hx Hok); [exact Hsound|]. intros x Hp Hs Hop. eapply wp_eq; [by eapply load_tcp_at|].
  destruct (find_slot_cases Hx (tcp_own_slot _ _ Hok) c) as [(k & Hneg & Hk & _)|[Hsc Hk]]; (eapply wp_eq; [exact Hk|]).
  { rewrite (proj2 (Z.leb_gt _ _)) by done. rewrite !andb_false_r. exact Hsound. }
  destruct (negb _) eqn:Hg; [exact Hsound|]. apply negb_false_iff in Hg. rewrite !andb_true_iff in Hg.
  destruct Hg as ((((((_ & _) & Hst%bool_decide_eq_true) & _) & Hcnt%Z.ltb_lt) & Hq%bool_decide_eq_true) & _).
  destruct (slot_pcb Hok c Hsc) as (y & Hy & Hyo). eapply wp_eq; [by eapply load_tcp_at|].
  destruct (negb _) eqn:Hg; [exact Hsound|]. apply negb_false_iff in Hg. rewrite !andb_true_iff in Hg.
  destruct Hg as (((((_ & Hrp%negb_true_iff) & Hl%bool_decide_eq_true) & _) & Hys%bool_decide_eq_true) & _).
  pose proof (child_ne Hok Hy Hp Hl) as Hne. rewrite Nat2Z.id.
  eapply wp_step; [by eapply (store_tcp_ok Hx c taken_child y Hy)|]. intros ? s1 Hx1. cbn beta in Hx1.
  eapply wp_eq; [eapply (load_tcp_at Hx1); by apply pcb_upd_eq|].
  match goal with |- context [if ?b then Some l else None] => set (v := if b then Some l else None) end.
  eapply wp_step; [by eapply (set_tcp_ok Hx1)|]. intros ? s2 Hx2. cbn beta in Hx2.
  eapply wp_step; [eapply (store_tcp_ok Hx2 l popped x); [|done..]|].
  { change (pcb_at (upd c taken_child t) l = Some x). by rewrite pcb_upd_ne. }
  intros ? s3 Hx3. cbn beta in Hx3. cbn [wp mret M_ret].
  change (tcx B o [] s0 s3 (set_detached c v (upd l popped (upd c taken_child t))) T) in Hx3.
  rewrite (upd_comm l c) in Hx3 by done. eexists _, T. split; [exact Hx3| |].
  - destruct (child_listener Hok Hy Hp Hl) as (_ & _ & Hxl). destruct (tcp_backlog _ _ Hok c y Hy) as [_ Hyb].
    pose proof (tcp_each _ _ Hok l x Hp) as Hpl.
    apply (tcp_ok_unlink Hok Hy Hp Hl); try done.
    + destruct (tcp_each _ _ Hok c y Hy). by split.
    + by apply popped_ok.
    + change (state y <> TCP_STATE_LISTEN). congruence.
    + intros cs. by eapply popped_list.
    + unfold v. destruct (_ <? _); [by right|by left].
  - eapply (timers_ok_storage (t := upd c taken_child (upd l popped t))); [|done].
    eapply (timers_ok_same c _ y); [|eapply (timers_ok_same l _ x)|by rewrite pcb_upd_ne|done..|by left];
      [|by destruct (tcp_lengths _ _ Hok)|done..|by left].
    unfold upd. cbn. rewrite length_alter. by destruct (tcp_lengths _ _ Hok).
Qed.

(** [v] replaces an entry of [detached_listeners]. *)
Lemma tcp_ok_detached {D t} i v :
  tcp_ok D t -> v = None \/ detached_at t i = Some v -> tcp_ok D (set_detached i v t).
Proof.
  intros [H1 H2 H3 H4 H5 H6 H7 H8 H9 H10 H11] Hv. split; try done.
  - cbn. by rewrite length_insert.
  - intros j l. cbn. intros [(-> & -> & _)|[_ ?]]%list_lookup_insert_Some; [|by eapply H9].
    destruct Hv as [?|Hv]; [done|by eapply H9].
Qed.

Lemma accept_release_ok l x {s1 t T} :
  tinv B o [] [] s0 s1 t T -> pcb_at t l = Some x -> wp (fun _ s' => sound B o s0 s') (accept_release l s1).
Proof using Type.
  intros Hi Hp. unfold accept_release. eapply wp_step; [by eapply (touch_ok l _ x Hi)|]. intros ? s2 Hi2. cbn beta in Hi2.
  eapply wp_eq; [eapply (load_tcp_at (in_cx _ _ _ _ _ _ _ _ Hi2)); by apply pcb_upd_eq|].
  destruct (_ && _); cbn [when].
  - eapply wp_step; [eapply (tinv_notify_once l _ _ Hi2); [by apply pcb_upd_eq|apply in_tcp_sems]|].
    intros ? s3 Hi3. cbn beta in Hi3. cbn [wp mret M_ret]. eexists _, T. exact Hi3.
  - eapply wp_eq; [reflexivity|]. cbn [wp mret M_ret]. eexists _, T. exact Hi2.
Qed.

Lemma accept_release_acquired_ok l : wp (fun _ s' => sound B o s0 s') (tcp_accept_release_acquired (Some l) s).
Proof using Hsound.
  destruct Hsound as (t & T & Hi). pose proof Hi as [Hx Hok _]. unfold tcp_accept_release_acquired.
  apply (slot_step l _ _ _ Hx Hok); [exact Hsound|]. intros x Hp Hs Hop. eapply wp_eq; [by eapply load_tcp_at|].
  destruct (_ || _); [exact Hsound|]. by eapply accept_release_ok.
Qed.

Lemma accept_release_child_ok l c :
  wp (fun _ s' => sound B o s0 s') (tcp_accept_release_child_acquired (Some l) (Some c) s).
Proof using Hsound.
  destruct Hsound as (t & T & Hi). pose proof Hi as [Hx Hok Htm]. unfold tcp_accept_release_child_acquired.
  destruct (find_slot_cases Hx (tcp_own_slot _ _ Hok) c) as [(k & Hneg & Hk & _)|[Hsc Hk]]; (eapply wp_eq; [exact Hk|]);
  destruct (find_slot_cases Hx (tcp_own_slot _ _ Hok) l) as [(j & Hnej & Hj & _)|[Hsl Hj]]; (eapply wp_eq; [exact Hj|]).
  1-3: replace (_ || _) with true by lia; exact Hsound.
  rewrite !(proj2 (Z.ltb_ge (Z.of_nat _) 0)) by lia. cbn [orb]. destruct (slot_pcb Hok l Hsl) as (x & Hp & _). eapply wp_eq; [by eapply load_tcp_at|].
  destruct (_ || _); [exact Hsound|]. destruct (slot_pcb Hok c Hsc) as (y & Hy & _). eapply wp_eq; [by eapply load_tcp_at|].
  eapply wp_eq; [by apply (gets_tcp_at Hx)|]. destruct (_ || _); [exact Hsound|]. rewrite Nat2Z.id.
  eapply wp_step; [by eapply (touch_ok c _ y Hi)|]. intros ? s1 Hi1. cbn beta in Hi1.
  set (f := fun y => y <| accept_pins := accept_pins y - 1 |>) in *.
  pose proof (pcb_upd_eq t c f y Hy) as Hy1. pose proof Hi1 as [Hx1 Hok1 Htm1]. eapply wp_eq; [by eapply (load_tcp_at Hx1)|].
  assert (exists x', pcb_at (upd c f t) l = Some x') as [x' Hl].
  { rewrite pcb_upd. case_decide; [subst; rewrite Hy; eauto|eauto]. }
  destruct (_ && _); cbn [when].
  - eapply wp_step; [by eapply (set_tcp_ok Hx1)|]. intros ? s2 Hx2. cbn beta in Hx2.
    change (tcx B o [] s0 s2 (set_detached c None (upd c f t)) T) in Hx2.
    eapply (accept_release_ok l x' (t := set_detached c None (upd c f t)) (T := T)); [|done].
    split; [done|by apply tcp_ok_detached; [|left]|]. by eapply timers_ok_storage.
  - eapply wp_eq; [reflexivity|]. by eapply accept_release_ok.
Qed.

(** ** Waiting, and sending data *)

Lemma wait_acquire_ok p w : wp (fun _ s' => sound B o s0 s') (tcp_wait_completion_acquire (Some p) w s).
Proof using Hsound.
  destruct Hsound as (t & T & Hi). pose proof Hi as [Hx Hok _]. unfold tcp_wait_completion_acquire.
  apply (slot_step p _ _ _ Hx Hok); [exact Hsound|]. intros x Hp Hs Hop. eapply wp_eq; [by eapply load_tcp_at|].
  assert (Hadd : wp (fun _ s' => sound B o s0 s') ((store_tcp p (add_waiters w 1);; mret NET_ERR_OK) s)).
  { eapply wp_step; [eapply (touch_ok p _ x Hi Hp); by destruct w|]. intros ? s1 Hi1. cbn beta in Hi1. eexists _, T. exact Hi1. }
  destruct (_ || _); [exact Hsound|]. destruct (negb w && _); [exact Hadd|]. destruct (_ <? 0); [exact Hsound|].
  match goal with |- context [if ?b then mret NET_ERR_STATE else _] => destruct b end; [exact Hsound|exact Hadd].
Qed.

Lemma recv_acquire_ok p : wp (fun _ s' => sound B o s0 s') (tcp_recv_acquire (Some p) s).
Proof using Hsound.
  destruct Hsound as (t & T & Hi). pose proof Hi as [Hx Hok _]. unfold tcp_recv_acquire.
  apply (slot_step p _ _ _ Hx Hok); [exact Hsound|]. intros x Hp Hs Hop. eapply wp_eq; [by eapply load_tcp_at|].
  destruct (_ || _); [exact Hsound|]. destruct (_ && _); [exact Hsound|]. eapply wp_step; [by eapply (touch_ok p _ x Hi)|].
  intros ? s1 Hi1. cbn beta in Hi1. eexists _, T. exact Hi1.
Qed.
End calls.

(** * The calls of TCP under the invariants: closing

    [tcp_close] in every state of a control block, and the release of one that
    a socket gives up. *)

Section close.
Context {B o : list nat} {s0 : net}.
Abbreviation D := (dom (netif_buffer s0)).

Lemma release_now_sound {s t T} p :
  tinv B o [] [] s0 s t T -> wp (fun _ s' => sound B o s0 s') (tcp_release_now_locked p s).
Proof.
  intros Hi. eapply wp_mono; [|by apply (release_now_ok p Hi)].
  intros e s' [(_ & -> & _)|(_ & _ & _ & T' & _ & _ & H')]; [by exists t, T|by exists (vacate p t), T'].
Qed.

Lemma socket_detach_ok {s} p : sound B o s0 s -> wp (fun _ s' => sound B o s0 s') (tcp_socket_detach (Some p) s).
Proof.
  intros Hsound. pose proof Hsound as (t & T & Hi). pose proof Hi as [Hx Hok _]. unfold tcp_socket_detach.
  apply (slot_step p _ _ _ Hx Hok); [done|]. intros x Hp Hs Hop.
  destruct (has_children_at p Hx Hok) as (b & Hb & _). eapply wp_eq; [exact Hb|]. eapply wp_eq; [by eapply load_tcp_at|].
  destruct (negb _); [done|]. eapply wp_step; [by eapply (touch_ok p _ x Hi)|]. intros ? s1 Hi1. cbn beta in Hi1.
  by eapply release_now_sound.
Qed.

(** ** A connection is given up *)

Definition aborted (x : tcp_pcb_t) : tcp_pcb_t := releasing (notified (failed NET_ERR_STATE x)).

Lemma releasing_ok z : pcb_ok D z -> state z = TCP_STATE_CLOSED -> pcb_ok D (releasing z).
Proof. intros [] Hz. split; try done. intros _. by left. Qed.
Lemma aborted_ok x : pcb_ok D x -> pcb_ok D (aborted x).
Proof.
  intros Hx. apply releasing_ok; [|done]. apply (failed_ok D NET_ERR_STATE x (shut_ok _ _ Hx)).
Qed.

Lemma abort_ok {s t T} p x :
  tinv B o [] [] s0 s t T -> pcb_at t p = Some x -> slot_at t p = Some (Some p) -> listener x = None ->
  state x <> TCP_STATE_LISTEN -> wp (fun _ s' => sound B o s0 s') (tcp_abort_and_release p s).
Proof.
  intros Hi Hp Hs Hl Hnl. pose proof Hi as [Hx Hok Htm]. unfold tcp_abort_and_release.
  eapply wp_step; [eapply (clear_outstanding_ok p x Hx Hp)|]. intros [] s1 Hx1.
  eapply wp_step; [by apply (timer_remove_ok Hx1)|]. intros [] s2 Hx2.
  eapply wp_step; [eapply (store_tcp_ok Hx2 p); [by apply pcb_upd_eq|done..]|]. intros [] s3 Hx3. rewrite upd_upd in Hx3.
  eapply wp_step; [eapply (notify_terminal_ok p _ Hx3); by apply pcb_upd_eq|]. intros [] s4 Hx4. rewrite upd_upd in Hx4.
  rewrite (upd_ext p _ (notified ∘ failed NET_ERR_STATE) t x Hp) in Hx4 by done.
  eapply wp_mono; [|eapply (request_release_ok p _ Hx4); [exact (tcp_own_slot _ _ Hok)|by apply pcb_upd_eq|done|by eapply pcb_range]].
  intros e s5 (_ & v & Hv & Hx5). rewrite upd_upd in Hx5. destruct Hv as [-> |?]; [|set_solver].
  eexists _, _. split; [exact Hx5| |].
  - apply (tcp_ok_upd Hok p aborted x Hp); [|by eapply role_alone|congruence].
    apply aborted_ok. by eapply tcp_each.
  - destruct (timer_apart p) as (N1 & N2 & N3).
    eapply (timers_ok_upd p aborted x); [by destruct (tcp_lengths _ _ Hok)|exact Htm|done|..].
    + intros k Hk. unfold timer_of in Hk. rewrite !run_timer_ne by tauto. done.
    + apply tick_off; [|done]. by rewrite !run_timer_ne, run_timer_eq by tauto.
    + apply tick_off; [|done]. by rewrite run_timer_ne, run_timer_eq by tauto.
    + apply tick_on; [|done]. left. by rewrite run_timer_eq.
    + by left.
Qed.

(** ** A listener *)

Definition closing_listener (x : tcp_pcb_t) : tcp_pcb_t := x <| close_requested := true |> <| release_pending := true |>.

(** The cleanup, when [b] says so. *)
Lemma when_cleanup_ok {P E s t T} b l :
  tinv B o P E s0 s t T -> (l < TCP_PCB_MAX)%nat ->
  wp (fun _ s' => exists t' T', tinv B o P E s0 s' t' T' /\ stands l t t' /\ forall k, timer_of l k -> T' k = T k)
     (when b (tcp_listener_cleanup_locked l) s).
Proof. intros Hi Hl. destruct b; cbn [when]; [by eapply listener_cleanup_ok|]. by exists t, T. Qed.

Lemma close_listener_ok {s t T} l x :
  tinv B o [] [] s0 s t T -> pcb_at t l = Some x -> slot_at t l = Some (Some l) -> state x = TCP_STATE_LISTEN ->
  wp (fun _ s' => sound B o s0 s') (tcp_close_listener l s).
Proof.
  intros Hi Hp Hs Hst. pose proof Hi as [Hx Hok Htm]. unfold tcp_close_listener.
  assert (Hl : listener x = None) by (eapply not_child; [done..|congruence|congruence]).
  eapply wp_step; [by eapply (store_tcp_ok Hx l closing_listener x Hp)|]. intros ? s1 Hx1. cbn beta in Hx1.
  set (t1 := upd l closing_listener t) in *. assert (Hp1 : pcb_at t1 l = Some (closing_listener x)) by (by apply pcb_upd_eq).
  assert (Hi1 : tinv B o [] [release_timer l] s0 s1 t1 T).
  { split; [done| |].
    - apply (tcp_ok_upd Hok l closing_listener x Hp); [| |congruence].
      + destruct (tcp_each _ _ Hok l x Hp). split; try done. intros _. by right.
      + destruct (tcp_backlog _ _ Hok l x Hp) as [_ Hb]. by split.
    - destruct (Htm l x Hp) as (K1 & K2 & _). eapply (timers_ok_upd l _ x); [by destruct (tcp_lengths _ _ Hok)| |done|done|..].
      + eapply timers_ok_mono; [exact Htm|done].
      + intros _. apply K1. set_solver.
      + intros _. apply K2. set_solver.
      + intros []. set_solver.
      + by left. }
  clearbody t1. eapply wp_eq; [by eapply (load_tcp_at Hx1)|]. destruct (in_tcp_sems (closing_listener x)) as (_ & _ & S3 & S4).
  unfold notify_all. eapply wp_step; [by eapply (tinv_notify l _ _ _ Hi1)|]. intros ? s2 Hi2. cbn beta in Hi2.
  eapply wp_step; [by eapply (tinv_notify l _ _ _ Hi2)|]. intros ? s3 Hi3. cbn beta in Hi3.
  eapply wp_step; [eapply (when_cleanup_ok _ l Hi3); by eapply pcb_range|]. intros ? s4 (t4 & T4 & Hi4 & (Hsl & Hst4) & _).
  destruct (Hst4 _ Hp1) as (y & Hy & [E1 E2 E3 E4 E5]). pose proof Hi4 as [Hx4 Hok4 Htm4].
  assert (Hs4 : slot_at t4 l = Some (Some l)).
  { destruct (slot_cases Hok4 l) as [?|Hn]; [by eapply pcb_range|done|].
    destruct (tcp_unused _ _ Hok4 l y Hy Hn) as (_ & ? & _). cbn in E2. congruence. }
  eapply wp_mono; [|eapply (request_release_ok l y Hx4); [exact (tcp_own_slot _ _ Hok4)|done|done|by eapply pcb_range]].
  intros e s5 (_ & v & Hv & Hx5). destruct Hv as [-> |?]; [|set_solver]. cbn in E1.
  rewrite (upd_id l releasing t4 y Hy) in Hx5 by (clear -E1; destruct y; cbn in E1; by subst).
  eexists _, _. split; [exact Hx5|done|]. destruct (timer_apart l) as (N1 & N2 & N3).
  eapply (timers_ok_settle l y (release_timer l)); [by destruct (tcp_lengths _ _ Hok4)| |unfold timer_of; tauto|done|..].
  - intros q z Hz. destruct (Htm4 q z Hz) as (K1 & K2 & K3 & K4).
    assert (Ht : forall k, k ∉ [release_timer l] -> run_timer (release_timer l) true T4 k = T4 k).
    { intros k Hk. apply run_timer_ne. set_solver. }
    split_and!; [intros Hk; rewrite Ht by done; auto..|done].
  - intros E. by destruct N3.
  - intros E. by destruct N2.
  - intros _. apply tick_on; [|done]. left. by rewrite run_timer_eq.
Qed.

Lemma close_pending_ok {s t T} p x :
  tinv B o [] [] s0 s t T -> pcb_at t p = Some x -> wp (fun _ s' => sound B o s0 s') (tcp_close_pending p s).
Proof.
  intros Hi Hp. pose proof Hi as [Hx Hok _]. unfold tcp_close_pending. eapply wp_eq; [by eapply load_tcp_at|].
  eapply wp_step; [eapply (when_cleanup_ok _ p Hi); by eapply pcb_range|]. intros ? s1 (t1 & T1 & Hi1 & _).
  destruct (_ && _); [by eapply release_now_sound|by exists t1, T1].
Qed.

Lemma close_ok {s} p : sound B o s0 s -> wp (fun _ s' => sound B o s0 s') (tcp_close (Some p) s).
Proof.
  intros Hsound. pose proof Hsound as (t & T & Hi). pose proof Hi as [Hx Hok Htm]. unfold tcp_close.
  apply (slot_step p _ _ _ Hx Hok); [done|]. intros x Hp Hs Hop. eapply wp_eq; [by eapply load_tcp_at|].
  destruct (negb _); [done|]. case_bool_decide as Hl.
  { destruct (listener x) as [l|] eqn:El; [|done]. eapply wp_step; [by eapply (tinv_detach p x l _ Hi)|].
    intros ? s1 H1. exact H1. }
  destruct (release_pending x) eqn:Hrp; [by eapply close_pending_ok|].
  assert (Hab : state x <> TCP_STATE_LISTEN -> wp (fun _ s' => sound B o s0 s') (tcp_abort_and_release p s)).
  { intros. by eapply abort_ok. }
  destruct (state x) eqn:Hst; try (by apply Hab); [by eapply close_listener_ok| |done].
  assert (Ha : alive t p x) by (split_and!; [done..|congruence|congruence]).
  case_bool_decide as Ho.
  - eapply wp_step; [eapply (tinv_store p closing x Hi Hp Hs); try done|].
    + destruct (tcp_each _ _ Hok p x Hp). by split.
    + by eapply role_alone; [..|congruence|cbn; congruence| | |].
    + intros ? s1 Hi1. cbn beta in Hi1. eexists _, T. exact Hi1.
  - eapply wp_mono; [|by eapply (close_established_ok p x Hi Ha Hl); [set_solver|..]].
    intros e s1 [[_ (t' & T' & x' & H' & _)]|[_ (t' & T' & x' & H' & _)]]; by exists t', T'.
Qed.
End close.
