(* ===== verification/OwnerTcpConnect.v ===== *)
(** * The calls of TCP under the invariants: connecting and sending

    The port of a connection that is opened from this side, its SYN, and the
    data of an established connection. *)

From S2P Require Import Prelude Tools IpAddr Nlist Timer Mblock Pktbuf PktbufSpec PktbufChain.
From S2P Require Import PktbufOps PktbufFrame Sys Fixq TcpState Net Netif Ether Arp NetifLink Ipv4 Udp Tcp.
From S2P Require Import TcpInv TcpQueue Owner OwnerPkt OwnerQueue OwnerOut OwnerArp OwnerResolve OwnerIp OwnerIcmp.
From S2P Require Import OwnerTcp OwnerSegment OwnerRelease OwnerTcpIn OwnerTcpSeg OwnerTcpOpen OwnerTcpInput OwnerTcpApi.
Import Pcb.

#[local] Hint Resolve list_subseteq_nil : core.

(** ** Sending data *)

Lemma send_start_ok {B o s0 s} p data :
  sound B o s0 s -> are_bytes data -> wp (fun _ s' => sound B o s0 s') (tcp_send_start (Some p) (Some data) (len data) s).
Proof.
  intros Hsound Hd. pose proof Hsound as (t & T & Hi). pose proof Hi as [Hx Hok Htm]. unfold tcp_send_start.
  destruct (_ || _) eqn:Hsz; [done|]. apply orb_false_iff in Hsz as [_ Hmss%Z.ltb_ge].
  apply (slot_step p _ _ _ Hx Hok); [done|]. intros x Hp Hs Hop. eapply wp_eq; [by eapply load_tcp_at|].
  destruct (negb _) eqn:Hg; [done|]. apply negb_false_iff, andb_true_iff in Hg as [_ Hst%bool_decide_eq_true].
  case_bool_decide as Ho; [done|]. destruct (_ || _); [done|].
  assert (Ha : alive t p x) by (split_and!; [done..|congruence|congruence]).
  destruct (tinv_route p x Hi Hp) as (n & Hn & Hdm & Hr & Hrc); [congruence|].
  eapply wp_step; [by eapply (make_segment_ok p x _ _ _ (Some data) data)|]. intros [b|] s1 H1.
  2: { cbn [wp mret M_ret]. eexists _, T. split; [exact H1|done|done]. }
  set (end_ := u32 (snd_nxt x + len data)). set (h := fun x => x <| snd_nxt := end_ |>).
  eapply wp_mono; [|eapply (transmit_ok p x b _ end_ h H1); try done].
  - intros e s2 [[_ (t' & T' & x' & H' & _)]|[_ (t' & T' & x' & H' & _)]]; by exists t', T'.
  - set_solver.
  - apply u32_range.
  - intros. left. exact Hst.
  - intros b' e'. by eapply (role_refl _ t p x (fun z => h (sent b' e' z))).
Qed.

(** ** Choosing a port *)

(** Whether an open control block uses [port]. *)
Definition port_user (port : Z) (x : tcp_pcb_t) : bool := opened x && (local_port x =? port).
Definition port_free (t : tcp_vars) (port : Z) : Prop :=
  forall q x, slot_at t q = Some (Some q) -> pcb_at t q = Some x -> port_user port x = false.

Section ports.
Context {B o : list nat} {P : list (list nat)} {s0 : net} {T : nat -> bool} {D : gset nat}.

Lemma port_in_use_loop {s t} port l :
  tcx B o P s0 s t T -> (forall q, Some q ∈ l -> exists x, pcb_at t q = Some x) ->
  exists b, port_in_use port l s = Ret b s /\
    if b then exists q x, Some q ∈ l /\ pcb_at t q = Some x /\ port_user port x = true
    else forall q x, Some q ∈ l -> pcb_at t q = Some x -> port_user port x = false.
Proof.
  intros Hx. induction l as [|[q|] l IH]; intros Hl; cbn [port_in_use].
  - exists false. split; [done|]. set_solver.
  - destruct (Hl q) as [y Hy]; [by left|]. destruct IH as (b & Hb & Hspec); [intros r Hr; apply Hl; by right|].
    destruct (port_user port y) eqn:Eu.
    + exists true. unfold port_user in Eu. split; [mstep by (by eapply load_tcp_at); by rewrite Eu|]. exists q, y. by split_and!; [left|..].
    + exists b. split; [unfold port_user in Eu; mstep by (by eapply load_tcp_at); by rewrite Eu|]. destruct b.
      * destruct Hspec as (r & z & ? & ?). exists r, z. by split; [right|].
      * intros r z [[= ->]|Hin]%elem_of_cons Hz; [congruence|by eapply Hspec].
  - destruct IH as (b & Hb & Hspec); [intros r Hr; apply Hl; by right|]. exists b. split; [done|]. destruct b.
    + destruct Hspec as (r & z & ? & ?). exists r, z. by split; [right|].
    + intros r z [?|Hin]%elem_of_cons; [done|by apply Hspec].
Qed.

Lemma port_in_use_at {s t} port :
  tcx B o P s0 s t T -> tcp_ok D t ->
  exists b, tcp_port_in_use port s = Ret b s /\
    if b then exists x, x ∈ pcb_storage t /\ local_port x = port else port_free t port.
Proof.
  intros Hx Hok. destruct (port_in_use_loop port (tcp_pcbs t) Hx) as (b & Hb & Hspec).
  { intros q (i & Hi)%list_elem_of_lookup. pose proof (tcp_own_slot _ _ Hok _ _ Hi) as ->.
    destruct (slot_pcb Hok i Hi) as (x & Hp & _). eauto. }
  exists b. split; [unfold tcp_port_in_use; by mstep by (by apply (gets_tcp_at Hx))|]. destruct b.
  - destruct Hspec as (q & x & _ & Hq & [_ E%Z.eqb_eq]%andb_true_iff). exists x. split; [by eapply list_elem_of_lookup_2|done].
  - intros q x Hs Hq. apply (Hspec q); [by eapply list_elem_of_lookup_2|done].
Qed.

Definition next_port (e : Z) : Z := if u16 (e + 1) <? 49152 then 49152 else u16 (e + 1).
(** The port [i] tries after [e]. *)
Definition nth_port (e : Z) (i : nat) : Z := 49152 + (e - 49152 + Z.of_nat i) mod 16384.

Lemma next_port_eq e : 49152 <= e < 2 ^ 16 -> next_port e = nth_port e 1.
Proof.
  intros He. unfold next_port, nth_port, u16. destruct (decide (e = 65535)) as [->|]; [reflexivity|].
  rewrite (Z.mod_small (e + 1)), (Z.mod_small (e - _ + _)) by lia. destruct (Z.ltb_spec (e + 1) 49152); lia.
Qed.
Lemma nth_port_range e i : 49152 <= nth_port e i < 2 ^ 16.
Proof. unfold nth_port. pose proof (Z.mod_pos_bound (e - 49152 + Z.of_nat i) 16384). lia. Qed.
Lemma nth_port_0 e : 49152 <= e < 2 ^ 16 -> nth_port e 0 = e.
Proof. intros He. unfold nth_port. rewrite Z.mod_small by lia. lia. Qed.
Lemma nth_port_S e i : 49152 <= e < 2 ^ 16 -> nth_port (next_port e) i = nth_port e (S i).
Proof.
  intros He. rewrite next_port_eq by done. unfold nth_port.
  replace (49152 + (e - 49152 + Z.of_nat 1) mod 16384 - 49152 + Z.of_nat i)
    with ((e - 49152 + Z.of_nat 1) mod 16384 + Z.of_nat i) by lia.
  rewrite Zplus_mod_idemp_l. do 2 f_equal. lia.
Qed.

Definition ports_from (e : Z) (t : tcp_vars) : tcp_vars := t <| next_ephemeral := e |>.

Lemma choose_port_loop_ok n s t e :
  tcx B o P s0 s (ports_from e t) T -> tcp_ok D t -> 49152 <= e < 2 ^ 16 ->
  wp (fun port s' => exists e', 49152 <= e' < 2 ^ 16 /\ tcx B o P s0 s' (ports_from e' t) T /\
        ((49152 <= port < 2 ^ 16 /\ port_free t port) \/
         (port = 0 /\ forall i, (i < n)%nat -> exists x, x ∈ pcb_storage t /\ local_port x = nth_port e i)))
     (choose_port_loop n s).
Proof.
  revert s e. induction n as [|n IH]; intros s e Hx Hok He; cbn [choose_port_loop].
  { exists e. split; [done|]. split; [done|]. right. split; [done|]. lia. }
  eapply wp_eq; [by apply (gets_tcp_at Hx)|]. change (next_ephemeral (ports_from e t)) with e.
  eapply wp_step; [by eapply (set_tcp_ok Hx)|]. intros ? s1 Hx1. cbn beta in Hx1.
  change (tcx B o P s0 s1 (ports_from (next_port e) t) T) in Hx1. rewrite (proj2 (Z.eqb_neq e 0)) by lia.
  assert (Hok1 : tcp_ok D (ports_from (next_port e) t)).
  { destruct Hok as [H1 H2 H3 H4 H5 H6 H7 H8 H9 H10 [_ H11]]. split; try done. split; [|done]. cbn.
    rewrite next_port_eq by done. apply nth_port_range. }
  destruct (port_in_use_at e Hx1 Hok1) as (b & Hb & Hspec). eapply wp_eq; [exact Hb|].
  assert (Hn : 49152 <= next_port e < 2 ^ 16) by (rewrite next_port_eq by done; apply nth_port_range).
  destruct b; cbn [negb].
  - eapply wp_mono; [|by apply IH]. intros port s2 (e' & He' & Hx2 & Hcase). exists e'. split; [done|]. split; [done|].
    destruct Hcase as [?|[-> Hall]]; [by left|]. right. split; [done|]. intros [|i] Hi; [by rewrite nth_port_0|].
    rewrite <- nth_port_S by done. apply Hall. lia.
  - cbn [wp mret M_ret]. exists (next_port e). split; [done|]. split; [done|]. left. split; [done|]. exact Hspec.
Qed.

(** Twelve control blocks cannot use more than twelve ports. *)
Lemma ports_exhausted t n e :
  tcp_ok D t -> (TCP_PCB_MAX < n)%nat -> Z.of_nat n <= 16384 ->
  ~ forall i, (i < n)%nat -> exists x, x ∈ pcb_storage t /\ local_port x = nth_port e i.
Proof.
  intros Hok Hn Hmax H. set (ports := nth_port e <$> seq 0 (S TCP_PCB_MAX)).
  assert (Hnd : NoDup ports).
  { apply NoDup_fmap_2_strong; [|apply NoDup_seq]. intros i j Hi%elem_of_seq Hj%elem_of_seq E. unfold nth_port, TCP_PCB_MAX in *.
    assert (E' : (e - 49152 + Z.of_nat i) mod 16384 = (e - 49152 + Z.of_nat j) mod 16384) by lia.
    set (a := e - 49152) in *. pose proof (Z.div_mod (a + Z.of_nat i) 16384 ltac:(lia)).
    pose proof (Z.div_mod (a + Z.of_nat j) 16384 ltac:(lia)). nia. }
  assert (Hsub : ports ⊆ local_port <$> pcb_storage t).
  { intros port (i & -> & Hi%elem_of_seq)%list_elem_of_fmap. destruct (H i) as (x & Hx & <-); [lia|].
    by apply list_elem_of_fmap_2. }
  apply NoDup_submseteq in Hsub; [|done]. apply submseteq_length in Hsub.
  unfold ports in Hsub. rewrite !length_fmap, length_seq in Hsub. destruct (tcp_lengths _ _ Hok) as (E & _). lia.
Qed.

Lemma choose_port_ok s t :
  tcx B o P s0 s t T -> tcp_ok D t ->
  wp (fun port s' => exists e', 49152 <= e' < 2 ^ 16 /\ tcx B o P s0 s' (ports_from e' t) T /\
        49152 <= port < 2 ^ 16 /\ port_free t port) (tcp_choose_port s).
Proof.
  intros Hx Hok. pose proof (tcp_counters _ _ Hok) as [He _]. unfold tcp_choose_port.
  assert (Hmax : Z.of_nat (Z.to_nat 16384) <= 16384 /\ (TCP_PCB_MAX < Z.to_nat 16384)%nat) by (unfold TCP_PCB_MAX; lia).
  destruct Hmax as [Hmax Hmin]. generalize dependent (Z.to_nat 16384). intros n Hmax Hmin.
  eapply wp_mono; [|apply (choose_port_loop_ok n s t (next_ephemeral t)); [|done|done]].
  - intros port s' (e' & He' & Hx' & [[? ?]|[_ Hall]]); [by exists e'|]. by destruct (ports_exhausted t n (next_ephemeral t) Hok).
  - replace (ports_from (next_ephemeral t) t) with t; [done|]. by destruct t.
Qed.
End ports.

(** ** Emptying a semaphore *)

Section waiting.
Context (task_sleep : nat -> Z -> M net Z) (fuel : nat) (mtime : Z).

(** A wait that does not block. *)
Lemma trywait_ok {B o P s0 s t T} p x k c :
  tcx B o P s0 s t T -> pcb_at t p = Some x -> k ∈ tcp_sems x -> sem_at (sys s) k c -> 0 <= c <= INT_MAX ->
  wp (fun e s' => tcx B o P s0 s' t T /\
        if 0 <? c then e = NET_ERR_OK /\ sem_at (sys s') k (c - 1) else e = NET_ERR_TMO)
     (sys_sem_wait sys_lens task_sleep fuel mtime (Some k) (-1) s).
Proof.
  intros Hx Hp Hk Hc Hr. unfold sys_sem_wait. assert (Eid : s <| sys := sys s |> = s) by (by destruct s).
  pose proof Hc as [w Hw]. eapply wp_eq; [apply zoom_ret; by eapply sem_valid|]. cbn [lset sys_lens lget]. rewrite Eid.
  change (-1 <? 0) with true. cbv iota. eapply wp_eq; [apply zoom_ret; by eapply load_sem_at|]. cbn [lset sys_lens lget]. rewrite Eid.
  cbn [sem_count]. destruct (Z.ltb_spec 0 c); [|done].
  destruct (store_sem_at (sys s) k c ((Sem c w) <| sem_count := c - 1 |>) (c - 1) w Hc eq_refl) as (y' & H1 & H2 & H3).
  eapply wp_eq; [apply zoom_ret; exact H1|]. cbn [wp mret M_ret]. split; [|done]. apply (tcx_sems Hx y' [k]); [exact H3| |].
  - intros u Hu. pose proof (tcp_sem_apart Hx p x u Hp Hu). set_solver.
  - intros u k' _ ->%list_elem_of_singleton. exists (c - 1). split; [done|lia].
Qed.
End waiting.

Lemma drain_loop_ok {B o P s0 t T} p x k n s c :
  tcx B o P s0 s t T -> pcb_at t p = Some x -> k ∈ tcp_sems x -> sem_at (sys s) k c -> 0 <= c <= INT_MAX -> c <= Z.of_nat n ->
  wp (fun _ s' => tcx B o P s0 s' t T) (drain_loop n (Some k) s).
Proof.
  revert s c. induction n as [|n IH]; intros s c Hx Hp Hk Hc Hr Hn; cbn [drain_loop].
  all: eapply wp_step; [by eapply (trywait_ok no_sleep 0 0 p x k c)|]; intros e s1 [Hx1 H1].
  - rewrite (proj2 (Z.ltb_ge 0 c)) in H1 by lia. by subst e.
  - destruct (Z.ltb_spec 0 c); [destruct H1 as [-> H1]|by subst e]. cbn [NET_ERR_OK Z.eqb negb]. eapply IH; [done..|lia|lia].
Qed.

Lemma drain_sem_ok {B o P s0 s t T} p x sem_ :
  tcx B o P s0 s t T -> pcb_at t p = Some x -> option_list sem_ ⊆ tcp_sems x ->
  wp (fun _ s' => tcx B o P s0 s' t T) (tcp_drain_sem sem_ s).
Proof.
  intros Hx Hp Hs. unfold tcp_drain_sem. eapply wp_eq; [reflexivity|]. destruct sem_ as [k|].
  - assert (Hk : k ∈ tcp_sems x) by set_solver. destruct (tcp_sem_live Hx p x k Hp Hk) as (c & Hc & Hr).
    pose proof Hc as [w Hw]. cbn [mbind option_bind]. rewrite Hw. cbn [sem sem_count]. eapply drain_loop_ok; [done..|lia].
  - cbn [mbind option_bind]. cbn [drain_loop]. eapply wp_eq.
    { unfold sys_sem_wait. mstep by (apply (zoom_ret sys_lens); reflexivity). reflexivity. }
    cbn [wp mret M_ret]. cbn. by replace (s <| sys := sys s |>) with s by (by destruct s).
Qed.

(** ** Connecting *)

(** The control block with its new addresses and numbers, in two steps as the
    code sets them. *)
Definition dial_addr (n : nat) (ip a lport rport iss_ : Z) (x : tcp_pcb_t) : tcp_pcb_t :=
  (tcp_reset_connection x) <| error := NET_ERR_OK |>
    <| terminal_notified := false |> <| netif := Some n |> <| local_ip := ip |>
    <| remote_ip := a |> <| local_port := lport |> <| remote_port := rport |> <| iss := iss_ |>.
Definition dial_seq (x : tcp_pcb_t) : tcp_pcb_t := x <| snd_una := iss x |> <| snd_nxt := u32 (iss x + 1) |> <| rcv_nxt := 0 |>.
Definition emptied (x : tcp_pcb_t) : tcp_pcb_t := x <| recv_head := 0 |> <| recv_count := 0 |>.
Definition syn_sent (x : tcp_pcb_t) : tcp_pcb_t := x <| state := TCP_STATE_SYN_SENT |>.

(** What these steps leave alone. *)
Lemma dial_addr_keeps n ip a lport rport iss_ x :
  outstanding (dial_addr n ip a lport rport iss_ x) = outstanding x /\ tcp_sems (dial_addr n ip a lport rport iss_ x) = tcp_sems x.
Proof. by destruct x. Qed.
Lemma dial_seq_keeps x : outstanding (dial_seq x) = outstanding x /\ tcp_sems (dial_seq x) = tcp_sems x.
Proof. by destruct x. Qed.
Lemma syn_sent_keeps x : outstanding (syn_sent x) = outstanding x /\ tcp_sems (syn_sent x) = tcp_sems x.
Proof. by destruct x. Qed.
Lemma reset_keeps x :
  outstanding (tcp_reset_connection x) = outstanding x /\ tcp_sems (tcp_reset_connection x) = tcp_sems x /\
  release_pending (tcp_reset_connection x) = release_pending x /\ state (tcp_reset_connection x) = TCP_STATE_CLOSED /\
  opened (tcp_reset_connection x) = opened x.
Proof. by destruct x. Qed.
Lemma gave_up_fields b end_ x :
  let x' := cleared (sent b end_ x) in
  opened x' = opened x /\ recv_storage x' = recv_storage x /\ recv_head x' = recv_head x /\ recv_count x' = recv_count x /\
  release_pending x' = release_pending x /\ outstanding x' = None.
Proof. by destruct x. Qed.
Lemma store_kept {B o P s0 s t T} p f g x :
  tcx B o P s0 s (upd p g t) T -> pcb_at t p = Some x ->
  outstanding (f (g x)) = outstanding (g x) /\ tcp_sems (f (g x)) = tcp_sems (g x) ->
  wp (fun _ s' => tcx B o P s0 s' (upd p (fun z => f (g z)) t) T) (store_tcp p f s).
Proof.
  intros Hx Hp [H1 H2]. eapply wp_mono; [|eapply (store_tcp_ok Hx p f (g x)); [by apply pcb_upd_eq|done..]].
  intros ? s' H'. cbn beta in H'. by rewrite upd_upd in H'.
Qed.

Section dial.
Context {D : gset nat} {t : tcp_vars} {p n : nat} {x : tcp_pcb_t} (Hok : tcp_ok D t) (Hp : pcb_at t p = Some x).
Context (Hop : opened x = true) (Hst : state x = TCP_STATE_CLOSED) (Hrp : release_pending x = false).
Context (Hs : slot_at t p = Some (Some p)) (Hn : n ∈ D).
Context (ip a lport rport iss_ : Z) (Ha : 0 <= a < 2 ^ 32) (Hiss : 0 <= iss_ < 2 ^ 32).

Let dialed (z : tcp_pcb_t) : tcp_pcb_t := dial_seq (dial_addr n ip a lport rport iss_ (emptied z)).

(** The control block after a reset: nothing is left of the attempt. *)
Lemma reset_ok f :
  opened (f x) = true -> recv_storage (f x) = recv_storage x -> recv_head (f x) = 0 -> recv_count (f x) = 0 ->
  release_pending (f x) = false -> outstanding (f x) = None ->
  tcp_ok D (upd p (fun z => tcp_reset_connection (f z)) t).
Proof using All.
  intros F1 F2 F3 F4 F5 F6. destruct (closed_alone p x Hok Hp Hst) as [Hl Hu].
  pose proof (tcp_each _ _ Hok p x Hp) as [H1 _ _ _ _ _ _ _ _ _].
  apply (tcp_ok_plain Hok Hp); try done; [|congruence].
  generalize dependent (f x). clear -H1. intros z F1 F2 F3 F4 F5 F6. destruct z. cbn in F1, F2, F3, F4, F5, F6. subst.
  split; cbn; try done; [by intros []|by intros []|by left].
Qed.

Lemma dialed_ok b :
  pcb_ok D (syn_sent (sent b (u32 (iss_ + 1)) (dialed x))).
Proof using All.
  pose proof (tcp_each _ _ Hok p x Hp) as [H1 _ _ _ _ _ _ _ _ _]. unfold dialed.
  clear -H1 Hrp Hn Ha Hiss. destruct x. cbn in H1, Hrp. subst. split; cbn; try done.
  - by intros m [= <-].
  - split; [exact Hiss|]. split; [apply u32_range|done].
  - split; [done|]. by left.
Qed.

Lemma dialed_fields z :
  opened (dialed z) = opened z /\ recv_storage (dialed z) = recv_storage z /\ recv_head (dialed z) = 0 /\
  recv_count (dialed z) = 0 /\ release_pending (dialed z) = release_pending z /\ outstanding (dialed z) = outstanding z /\
  netif (dialed z) = Some n /\ remote_ip (dialed z) = a /\ snd_nxt (dialed z) = u32 (iss_ + 1).
Proof using Type. by destruct z. Qed.

Lemma dialing_ok b : tcp_ok D (upd p (fun z => syn_sent (sent b (u32 (iss_ + 1)) (dialed z))) t).
Proof using All.
  destruct (closed_alone p x Hok Hp Hst) as [Hl Hu].
  apply (tcp_ok_plain Hok Hp); try done; [by apply dialed_ok|congruence].
Qed.
End dial.

Lemma connect_start_ok {B o s0 s} p n a rport :
  sound B o s0 s -> n ∈ dom (netif_buffer s) -> 0 <= a < 2 ^ 32 ->
  wp (fun _ s' => sound B o s0 s') (tcp_connect_start (Some p) (Some n) (Some a) rport s).
Proof.
  intros Hsound Hn Ha. unfold tcp_connect_start. destruct (rport =? 0); [exact Hsound|].
  pose proof Hsound as (t & T & Hi). pose proof Hi as [Hx Hok Htm].
  apply (slot_step p _ _ _ Hx Hok); [done|]. intros x Hp Hs Hop. eapply wp_eq; [by eapply load_tcp_at|].
  destruct (_ || _) eqn:Hg; [done|]. rewrite !orb_false_iff in Hg.
  destruct Hg as (((((_ & Hrp) & _) & Hst%negb_false_iff%bool_decide_eq_true) & _) & Ho%bool_decide_eq_false).
  apply dec_stable in Ho. pose proof Hn as [i Hni]%elem_of_dom. eapply wp_eq; [by apply load_netif_at|].
  destruct (negb _); [done|].
  eapply wp_step; [by apply (choose_port_ok s t Hx Hok)|]. intros port s1 (e' & He' & Hx1 & Hport & _).
  rewrite (proj2 (Z.eqb_neq _ _)) by lia. rewrite (tcx_dom Hx) in Hn.
  set (t1 := ports_from e' t) in *. assert (Hp1 : pcb_at t1 p = Some x) by done.
  eapply wp_eq; [by eapply (load_tcp_at Hx1)|]. destruct (in_tcp_sems x) as (S1 & S2 & S3 & _).
  eapply wp_step; [by eapply (drain_sem_ok p x)|]. intros ? s2 Hx2. cbn beta in Hx2.
  eapply wp_step; [by eapply (drain_sem_ok p x)|]. intros ? s3 Hx3. cbn beta in Hx3.
  eapply wp_step; [by eapply (drain_sem_ok p x)|]. intros ? s4 Hx4. cbn beta in Hx4. clear Hx1 Hx2 Hx3 S1 S2 S3.
  eapply wp_step; [by eapply (store_tcp_ok Hx4 p emptied x)|]. intros ? s5 Hx5. cbn beta in Hx5.
  eapply wp_eq; [by apply (gets_tcp_at Hx5)|]. change (next_iss (upd p emptied t1)) with (next_iss t).
  pose proof (tcp_counters _ _ Hok) as [_ Hiss]. set (iss_ := next_iss t) in *.
  set (ip := Net.ipaddr i). 
  eapply wp_step; [exact (store_kept p (dial_addr n ip a port rport iss_) emptied x Hx5 Hp1 (dial_addr_keeps _ _ _ _ _ _ _))|].
  intros ? s6 Hx6. cbn beta in Hx6.
  eapply wp_step; [by eapply (set_tcp_ok Hx6)|]. intros ? s7 Hx7. cbn beta in Hx7.
  set (t2 := t1 <| next_iss := u32 (iss_ + 64000) |>).
  change (tcx B o [] s0 s7 (upd p (fun z => dial_addr n ip a port rport iss_ (emptied z)) t2) T) in Hx7.
  assert (Hok2 : tcp_ok (dom (netif_buffer s0)) t2).
  { apply tcp_ok_iss; [|apply u32_range]. destruct Hok as [H1 H2 H3 H4 H5 H6 H7 H8 H9 H10 [_ H11]]. by split. }
  assert (Htm2 : timers_ok [] [] t2 T) by done. assert (Hp2 : pcb_at t2 p = Some x) by done.
  assert (Hs2 : slot_at t2 p = Some (Some p)) by done. clearbody t2. clear Hx4 Hx5 Hx6 Hok Htm Hi Hp Hs Hp1 Hx t1.
  eapply wp_step; [exact (store_kept p dial_seq _ x Hx7 Hp2 (dial_seq_keeps _))|]. intros ? s8 Hx8. cbn beta in Hx8. clear Hx7.
  set (dialed := fun z => dial_seq (dial_addr n ip a port rport iss_ (emptied z))).
  fold dialed in Hx8.
  destruct (dialed_fields (n := n) ip a port rport iss_ x) as (D1 & D2 & D3 & D4 & D5 & D6 & D7 & D8 & D9).
  change (dial_seq (dial_addr n ip a port rport iss_ (emptied x))) with (dialed x) in *.
  assert (Hp8 : pcb_at (upd p dialed t2) p = Some (dialed x)) by (by apply (pcb_upd_eq t2 p dialed)).
  assert (Hreset : forall s9 f v (e : Z), tcx B o [] s0 s9 (upd p f t2) (run_timer (retrans_timer p) v T) -> v = false ->
    opened (f x) = true -> recv_storage (f x) = recv_storage x -> recv_head (f x) = 0 -> recv_count (f x) = 0 ->
    release_pending (f x) = false -> outstanding (f x) = None ->
    wp (fun _ s' => sound B o s0 s') ((store_tcp p tcp_reset_connection;; mret e : M net Z) s9)).
  { intros s9 f v e Hx9 -> F1 F2 F3 F4 F5 F6.
    destruct (reset_keeps (f x)) as (R1 & R2 & R3 & R4 & R5).
    eapply wp_step; [exact (store_kept p tcp_reset_connection f x Hx9 Hp2 (conj R1 R2))|].
    intros ? s10 Hx10. cbn beta in Hx10. cbn [wp mret M_ret]. eexists _, _. split; [exact Hx10| |].
    - by apply (reset_ok Hok2 Hp2 Hop Hst Hrp Hs2 Hn ip a port rport iss_ Ha Hiss f).
    - eapply (timers_flight p _ x false Hok2 Htm2 Hp2); [|right| |]; cbn beta.
      + by rewrite R1, F6.
      + by rewrite R4, Hst.
      + congruence.
      + rewrite R5. congruence. }
  assert (Hidle : T (retrans_timer p) = false).
  { destruct (Htm2 p x Hp2) as (K1 & _). rewrite Ho in K1. apply (tick_idle K1). set_solver. }
  eapply wp_eq; [by eapply (load_tcp_at Hx8)|].
  eapply wp_step; [eapply (make_control_ok p (dialed x) _ 0 _ Hx8 Hp8); [done|rewrite D4; done]|]. intros [b|] s9 H9.
  2: { eapply (Hreset s9 dialed false); [|done|congruence..].
       eapply tcx_timers; [exact H9|]. intros k. unfold run_timer. case_decide; [congruence|done]. }
  pose proof H9 as (_ & Hx9 & _). eapply wp_eq; [by eapply (load_tcp_at Hx9)|].
  rewrite D9.
  eapply wp_step; [eapply (start_outstanding_ok p (dialed x) n b _ (u32 (iss_ + 1)) H9 Hp8);
    [by eapply pcb_range|congruence|exact D7|done|by rewrite D8|done|set_solver]|].
  intros e s10 [[-> Hx10]|[He Hx10]]; rewrite upd_upd in Hx10.
  - cbn [NET_ERR_OK Z.ltb Z.compare]. eapply wp_step; [exact (store_kept p syn_sent _ x Hx10 Hp2 (syn_sent_keeps _))|].
    intros ? s11 Hx11. cbn beta in Hx11. cbn [wp mret M_ret]. eexists _, _. split; [exact Hx11| |].
    + exact (dialing_ok Hok2 Hp2 Hop Hst Hrp Hs2 Hn ip a port rport iss_ Ha Hiss b).
    + eapply (timers_flight p _ x true Hok2 Htm2 Hp2); [done|right; rewrite Hst; done| |].
      * assert (Hrel : forall b e y, release_pending (syn_sent (sent b e y)) = release_pending y) by (by intros ? ? []).
        exact (eq_trans (Hrel b (u32 (iss_ + 1)) (dialed x)) D5).
      * assert (Hrel : forall b e y, opened (syn_sent (sent b e y)) = opened y) by (by intros ? ? []).
        exact (eq_trans (Hrel b (u32 (iss_ + 1)) (dialed x)) D1).
  - rewrite (proj2 (Z.ltb_lt _ _)) by done. set (y := dialed x) in *.
    destruct (gave_up_fields b (u32 (iss_ + 1)) y) as (G1 & G2 & G3 & G4 & G5 & G6).
    eapply (Hreset s10 (fun z => cleared (sent b (u32 (iss_ + 1)) (dialed z))) false); [exact Hx10|done| | | | | |];
      cbn beta; fold y; congruence.
Qed.
