(* ===== verification/OwnerTcpTimer.v ===== *)
(** * The callbacks of the timers of TCP under the invariants

    A timer whose callback runs is in no list, so it is out of step with its
    control block ([E] of [tinv]); the callback brings it back in step. *)

From S2P Require Import Prelude Tools IpAddr Nlist Timer Mblock Pktbuf PktbufSpec PktbufChain.
From S2P Require Import PktbufOps PktbufFrame Sys Fixq TcpState Net Netif Ether Arp NetifLink Ipv4 Udp Tcp.
From S2P Require Import TcpInv TcpQueue Owner OwnerPkt OwnerQueue OwnerOut OwnerArp OwnerResolve OwnerIp OwnerIcmp.
From S2P Require Import OwnerTcp OwnerSegment OwnerRelease OwnerTcpIn OwnerTcpSeg OwnerTcpOpen OwnerTcpInput OwnerTcpApi.
Import Pcb.

#[local] Hint Resolve list_subseteq_nil : core.

Section callbacks.
Context {B o : list nat} {P : list (list nat)} {s0 : net}.
Abbreviation D := (dom (netif_buffer s0)).

(** The timers are in step with [v] for [k]. *)
Lemma due_timers {t T} p x k v :
  tcp_ok D t -> timers_ok [k] (concat P) t T -> timer_of p k -> pcb_at t p = Some x ->
  (k = retrans_timer p -> v = bool_decide (outstanding x <> None)) ->
  (k = time_wait_timer p -> v = bool_decide (state x = TCP_STATE_TIME_WAIT)) ->
  (k = release_timer p -> v = release_pending x) ->
  timers_ok [] (concat P) t (run_timer k v T).
Proof.
  intros Hok Htm Hk Hp H1 H2 H3. assert (Hl : length (pcb_storage t) = TCP_PCB_MAX) by (by destruct (tcp_lengths _ _ Hok)).
  eapply (timers_ok_settle p x k Hl); [|done|done|..].
  - intros q z Hz. destruct (Htm q z Hz) as (K1 & K2 & K3 & K4).
    assert (Ht : forall j, j ∉ [k] -> run_timer k v T j = T j) by (intros j Hj; apply run_timer_ne; set_solver).
    split_and!; [intros Hj; rewrite Ht by done; auto..|done].
  - intros E _. rewrite run_timer_eq. rewrite <- (H1 E). auto.
  - intros E _. rewrite run_timer_eq. rewrite <- (H2 E). auto.
  - intros E _. rewrite run_timer_eq. rewrite <- (H3 E). auto.
Qed.

Lemma run_timer_same (T : nat -> bool) k : forall j, run_timer k (T k) T j = T j.
Proof. intros j. unfold run_timer. by case_decide; [subst|]. Qed.

(** The timer stays off. *)
Lemma due_off {s t T} p x k :
  tinv B o P [k] s0 s t T -> T k = false -> timer_of p k -> pcb_at t p = Some x ->
  (k = retrans_timer p -> outstanding x = None) -> (k = time_wait_timer p -> state x <> TCP_STATE_TIME_WAIT) ->
  (k = release_timer p -> release_pending x = false) -> tinv B o P [] s0 s t T.
Proof.
  intros [Hx Hok Htm] HT Hk Hp H1 H2 H3. split; [done..|].
  eapply timers_ok_ext; [eapply (due_timers p x k false); try done|].
  - intros E. by rewrite H1.
  - intros E. symmetry. apply bool_decide_eq_false. auto.
  - intros E. symmetry. auto.
  - intros j. rewrite <- HT at 1. symmetry. apply run_timer_same.
Qed.

(** ** Retransmission *)

Definition retried (x : tcp_pcb_t) : tcp_pcb_t := x <| retry_count := retry_count x + 1 |>.

Lemma retransmit_due_ok {s t T} p :
  tinv B o P [retrans_timer p] s0 s t T -> T (retrans_timer p) = false -> retrans_timer p ∉ concat P -> (p < TCP_PCB_MAX)%nat ->
  wp (fun _ s' => exists t' T', tinv B o P [] s0 s' t' T') (tcp_retransmit_due (Some p) s).
Proof.
  intros Hi HT HP Hr. pose proof Hi as [Hx Hok Htm]. destruct (tcp_pcb_in Hok p Hr) as [x Hp]. destruct (timer_apart p) as (N1 & N2 & N3).
  assert (Hoff : outstanding x = None -> tinv B o P [] s0 s t T).
  { intros Ho. eapply (due_off p x); [done|done|by left|done|done|congruence|congruence]. }
  unfold tcp_retransmit_due.
  destruct (find_slot_cases Hx (tcp_own_slot _ _ Hok) p) as [(k & Hneg & Hk & Hno)|[Hs Hk]]; (eapply wp_eq; [exact Hk|]).
  { rewrite (proj2 (Z.ltb_lt _ _)) by done. exists t, T. apply Hoff. destruct (slot_cases Hok p Hr) as [?|Hs]; [done|].
    by destruct (tcp_unused _ _ Hok p x Hp Hs) as (_ & _ & ? & _). }
  rewrite (proj2 (Z.ltb_ge _ _)) by lia. eapply wp_eq; [by eapply load_tcp_at|].
  rewrite (tcp_used _ _ Hok p x Hp Hs). cbn [andb]. destruct (outstanding x) as [b|] eqn:Eo.
  2: { rewrite bool_decide_eq_false_2 by (by intros []). exists t, T. by apply Hoff. }
  rewrite bool_decide_eq_true_2 by done. cbn [negb]. clear Hoff.
  pose proof (tcp_each _ _ Hok p x Hp) as Hpcb. pose proof Hpcb as [P1 P2 P3 P4 P5 P6 P7 P8 P9 P10].
  destruct (netif x) as [n|] eqn:En; [|destruct P6; [by right; rewrite Eo|done]].
  assert (Hnl : state x <> TCP_STATE_LISTEN).
  { intros E. apply flight_idle in P9; [congruence|]. rewrite E. unfold busy. naive_solver. }
  set (T0 := run_timer (retrans_timer p) true T).
  assert (Htm0 : timers_ok [] (concat P) t T0).
  { eapply (due_timers p x); [done|done|by left|done|by rewrite Eo|congruence|congruence]. }
  assert (Hfail : forall s' h e, tcx B o P s0 s' (upd p h t) T -> visible (h x) = visible x ->
    wp (fun _ s'' => exists t' T', tinv B o P [] s0 s'' t' T') (tcp_fail p e s')).
  { intros s' h e Hx' [= E1 E2 E3 E4 E5 E6 E7 E8 F1 F2 F3 F4 F5 F6 F7 F8 G1 G2 G3 G4 G5 G6].
    eapply wp_mono; [|eapply (fail_ok (T0 := T0) p x e h Hx' Hok Htm0); try done].
    - by intros ? s'' [_ H'].
    - intros k K1 K2. symmetry. by apply run_timer_ne.
    - apply shut_ok. apply (pcb_ok_field _ x); try done; [congruence|by rewrite F6; apply P7].
    - split; try done. unfold accept_list. by rewrite E4, E5, E6. }
  eapply wp_step; [by apply (timer_remove_ok Hx)|]. intros ? s1 Hx1. cbn beta in Hx1.
  eapply (tcx_timers T) in Hx1; [|intros k; rewrite <- HT at 1; apply run_timer_same].
  eapply wp_step; [eapply (output_owned_ok p x b n Hx1); [done..|by apply P5|done]|]. intros e s2 Hx2. cbn beta in Hx2.
  destruct (Z.ltb_spec e 0).
  { apply (Hfail s2 id); [|done]. by rewrite (upd_id p id t x). }
  eapply wp_step; [by eapply (store_tcp_ok Hx2 p retried x)|]. intros ? s3 Hx3. cbn beta in Hx3.
  eapply wp_eq; [eapply (load_tcp_at Hx3); by apply pcb_upd_eq|].
  destruct (_ <=? _); [by apply (Hfail s3 retried)|].
  eapply wp_step; [eapply (timer_add_ok Hx3 (retrans_timer p)); [by apply retrans_tcp|done|done|intros; by apply KindRetrans]|].
  intros e4 s4 [(-> & _ & _ & Hx4)|(_ & [?|?] & _)]; [|congruence|done]. cbn [NET_ERR_OK Z.ltb Z.compare wp mret M_ret].
  eexists _, T0. split; [exact Hx4| |].
  - apply (tcp_ok_upd Hok p retried x Hp); [|by eapply role_refl|congruence].
    by apply (pcb_ok_field _ x); [..|apply P7|].
  - eapply timers_ok_same; [by destruct (tcp_lengths _ _ Hok)|exact Htm0|done..|by left].
Qed.

(** ** The end of TIME_WAIT *)

Definition timed_out (x : tcp_pcb_t) : tcp_pcb_t := x <| state := TCP_STATE_CLOSED |> <| error := NET_ERR_OK |>.

Lemma time_wait_proc_ok {s t T} p :
  tinv B o P [time_wait_timer p] s0 s t T -> T (time_wait_timer p) = false -> time_wait_timer p ∉ concat P ->
  (p < TCP_PCB_MAX)%nat -> wp (fun _ s' => exists t' T', tinv B o P [] s0 s' t' T') (tcp_time_wait_proc p s).
Proof.
  intros Hi HT HP Hr. pose proof Hi as [Hx Hok Htm]. destruct (tcp_pcb_in Hok p Hr) as [x Hp]. destruct (timer_apart p) as (N1 & N2 & N3).
  pose proof (tcp_each _ _ Hok p x Hp) as Hpcb. pose proof Hpcb as [P1 P2 P3 P4 P5 P6 P7 P8 P9 P10].
  unfold tcp_time_wait_proc. eapply wp_eq; [by eapply load_tcp_at|].
  destruct (decide (state x = TCP_STATE_TIME_WAIT)) as [Hst|Hst].
  2: { rewrite bool_decide_eq_false_2, andb_false_r by done. cbn [andb wp mret M_ret]. exists t, T.
       eapply (due_off p x); [done|done|right; by left|done|congruence|done|congruence]. }
  assert (Hs : slot_at t p = Some (Some p)).
  { destruct (slot_cases Hok p Hr) as [?|Hn]; [done|]. destruct (tcp_unused _ _ Hok p x Hp Hn) as (_ & ? & _). congruence. }
  assert (Hrp : release_pending x = false) by (destruct (release_pending x); [destruct P10; congruence|done]).
  rewrite (tcp_used _ _ Hok p x Hp Hs), bool_decide_eq_true_2, Hrp by done. cbn [andb negb].
  assert (Hl : listener x = None) by (eapply not_child; [done..|congruence|congruence]).
  assert (Ho : outstanding x = None) by (apply flight_idle; [done|]; rewrite Hst; unfold busy; naive_solver).
  eapply wp_step; [by eapply (store_tcp_ok Hx p timed_out x)|]. intros ? s1 Hx1. cbn beta in Hx1.
  unfold notify_some, notify_all.
  eapply wp_step; [eapply (tcx_notify_times p _ _ _ Hx1); [by apply pcb_upd_eq|apply (in_tcp_sems (timed_out x))]|].
  intros ? s2 Hx2. cbn beta in Hx2.
  eapply wp_step; [eapply (request_release_ok p _ Hx2); [exact (tcp_own_slot _ _ Hok)|by apply pcb_upd_eq|done..]|].
  intros e s3 (_ & v & Hv & Hx3). cbn [wp mret M_ret]. rewrite upd_upd in Hx3. eexists _, _. split; [exact Hx3| |].
  - apply (tcp_ok_upd Hok p (releasing ∘ timed_out) x Hp); [|by eapply role_alone; [..|congruence| | | |]|congruence].
    apply releasing_ok; [|done]. clear -Hpcb Ho. destruct Hpcb. destruct x. cbn in Ho. subst.
    split; try done; [by intros []|by intros []|by left|by left].
  - destruct (Htm p x Hp) as (K1 & _ & K3 & _).
    assert (Htm' : timers_ok [] (concat P) (upd p (releasing ∘ timed_out) t) (run_timer (release_timer p) v T)); [|done].
    eapply (timers_ok_settle p ((releasing ∘ timed_out) x) (time_wait_timer p)).
    + unfold upd. cbn. rewrite length_alter. by destruct (tcp_lengths _ _ Hok).
    + eapply (timers_ok_upd p _ x); [by destruct (tcp_lengths _ _ Hok)|exact Htm|done|..].
      * intros k Hk. unfold timer_of in Hk. rewrite run_timer_ne by tauto. done.
      * eapply tick_ext; [exact K1|by rewrite run_timer_ne by tauto|done].
      * intros []. set_solver.
      * apply tick_on; [|done]. by rewrite run_timer_eq.
      * intros _ _. by left.
    + right. by left.
    + by apply pcb_upd_eq.
    + congruence.
    + intros _. apply tick_off; [|done]. by rewrite run_timer_ne by tauto.
    + congruence.
Qed.
End callbacks.

(** ** Calls that leave the fields of the timers alone *)

Definition still {A} (m : M net A) : Prop :=
  forall s a s', m s = Ret a s' -> static_part (timers s') = static_part (timers s).

Create HintDb still.

Section still.
Context {A C : Type}.
Lemma still_ret (a : A) : still (mret a).
Proof. by intros s b s' [= _ <-]. Qed.
Lemma still_bind (m : M net A) (f : A -> M net C) : still m -> (forall a, still (f a)) -> still (m ≫= f).
Proof.
  intros Hm Hf s c s'. unfold mbind, M_bind. destruct (m s) as [a s1|] eqn:E; [|done].
  intros E'. etransitivity; [by eapply Hf|by eapply Hm].
Qed.
Lemma still_gets (f : net -> A) : still (gets f).
Proof. by intros s b s' [= _ <-]. Qed.
Lemma still_deref (x : option A) : still (deref x).
Proof. intros s b s'. destruct x; [|done]. by intros [= _ <-]. Qed.
Lemma still_if (b : bool) (m1 m2 : M net A) : still m1 -> still m2 -> still (if b then m1 else m2).
Proof. by destruct b. Qed.
Lemma still_modify (f : net -> net) : (forall s, timers (f s) = timers s) -> still (modify f).
Proof. intros H s b s' [= _ <-]. by rewrite H. Qed.
Lemma still_pk (m : M pkt_state A) : still (pk m).
Proof. intros s b s'. unfold pk, zoom. destruct (m _); [|done]. by intros [= _ <-]. Qed.
Lemma still_sys (m : M sys_state A) : still (zoom sys_lens m).
Proof. intros s b s'. unfold zoom. destruct (m _); [|done]. by intros [= _ <-]. Qed.
End still.
#[local] Hint Resolve still_ret still_bind still_gets still_deref still_if still_pk still_sys : still.

Lemma still_load p : still (load_tcp p).
Proof. apply still_bind; [by intros s b s' [= _ <-]|]. intros. apply still_deref. Qed.
Lemma still_store p f : still (store_tcp p f).
Proof. apply still_bind; [apply still_load|]. intros. by apply still_modify. Qed.
Lemma still_set f : still (set_tcp f).
Proof. by apply still_modify. Qed.

Lemma static_curr m k f m' :
  (forall tm, exists c, f tm = tm <| curr := c |>) -> store_timer k f m = Ret () m' -> static_part m' = static_part m.
Proof.
  intros Hf. destruct (Timer.timers m !! k) as [tm|] eqn:E.
  - rewrite (store_timer_ret m k f tm E). intros [= <-]. destruct (Hf tm) as [c ->]. by apply static_part_store.
  - unfold store_timer, load_timer, mbind, M_bind. cbn. by rewrite E.
Qed.

Lemma still_remove k : still (timer_remove k).
Proof.
  intros s a s'. unfold timer_remove, zoom, net_timer_remove, mbind, M_bind. cbn.
  assert (H : forall l m a m', net_timer_remove_loop k l m = Ret a m' -> static_part m' = static_part m).
  { induction l as [|x l IH]; intros m b m'; cbn [net_timer_remove_loop]; [by intros [= _ <-]|].
    destruct (x =? k)%nat; [|apply IH]. destruct l as [|y l].
    - by intros [= _ <-].
    - unfold mbind at 1, M_bind at 1, mbind, M_bind. destruct (load_timer x m) as [tm m0|] eqn:El; [|done].
      assert (m0 = m) as -> by (revert El; unfold load_timer, mbind, M_bind; cbn; destruct (Timer.timers m !! x); [by intros [= _ <-]|done]).
      cbn [rbind]. destruct (store_timer y (fun n => n <| curr := curr n + curr tm |>) m) as [[] m1|] eqn:E; [|done]. intros [= _ <-]. cbn.
      eapply static_curr, E. intros tm'. by eexists. }
  destruct (net_timer_remove_loop _ _ _) as [b m'|] eqn:E; [|done]. intros [= _ <-]. cbn. by eapply H.
Qed.
#[local] Hint Resolve still_load still_store still_set still_remove : still.
Ltac still := repeat (first [solve [eauto 2 with still nocore] | apply still_bind; [|intros ?] | apply still_if
  | match goal with |- still (match ?x with _ => _ end) => destruct x end]).

Lemma still_has_children l : still (tcp_listener_has_children_locked l).
Proof.
  unfold tcp_listener_has_children_locked. apply still_bind; [apply still_gets|]. intros t.
  generalize (tcp_pcbs t) (detached_listeners t). clear t. intros ps. induction ps as [|c ps IH]; intros [|d ds]; cbn [has_children_loop]; still.
Qed.
Lemma still_clear p : still (tcp_clear_outstanding p).
Proof. unfold tcp_clear_outstanding. still. Qed.
#[local] Hint Resolve still_has_children still_clear : still.
Lemma still_release_now p : still (tcp_release_now_locked p).
Proof. unfold tcp_release_now_locked, tcp_find_slot. still. Qed.

Lemma wp_still {A} (m : M net A) s (Q : A -> net -> Prop) :
  still m -> wp Q (m s) -> wp (fun a s' => Q a s' /\ static_part (timers s') = static_part (timers s)) (m s).
Proof. intros Hm H. destruct (m s) as [a s'|] eqn:E; [|done]. split; [done|by eapply Hm]. Qed.

(** ** The release of a control block *)

(** The timer does not run again. *)
Definition stopped (m : timer_state) (k : nat) : Prop := exists tm, fields m k = Some tm /\ flags tm = 0.

Lemma release_not_shot p : (p < TCP_PCB_MAX)%nat -> ~ one_shot (release_timer p).
Proof. unfold one_shot, release_timer, retrans_timer, time_wait_timer, TCP_PCB_MAX. intros ? (q & ? & [?|?]); lia. Qed.

Lemma clear_flags_ok {B o P E s0 s t T} p :
  tinv B o P E s0 s t T -> T (release_timer p) = false -> release_timer p ∉ concat P -> (p < TCP_PCB_MAX)%nat ->
  wp (fun _ s' => tinv B o P E s' s' t T /\ tended B s0 s' /\ stopped (timers s') (release_timer p))
     (clear_timer_flags (release_timer p) s).
Proof.
  intros [Hx Hok Htm] HT HP Hr. pose proof (tcx_dom Hx) as Ed. pose proof (release_not_shot p Hr) as Hns.
  pose proof (release_tcp p Hr) as Hkt. set (k := release_timer p) in *. clearbody k.
  pose proof Hx as [Hc Ha Hf Ht [[Hwf Hk Hlate Honce Hkind Hshot] Hre] Har Hp].
  assert (Hu : k ∉ scheduled (timers s)).
  { unfold scheduled. rewrite not_elem_of_app, <- armed_iff, Har, HT, Hp. done. }
  destruct (Hk k Hkt) as [st Hst]. pose proof Hst as [c Htm']%static_lookup.
  unfold clear_timer_flags. eapply wp_run; [apply zoom_ret; by apply store_timer_ret|].
  set (tm' := (st <| curr := c |>) <| flags := 0 |>).
  destruct (timer_wf_store (timers s) k tm' Hwf) as [Hwf' Hd']; [unfold scheduled in Hu; set_solver|].
  cbn [lset timer_lens lget]. fold tm'. set (m' := (timers s) <| Timer.timers := <[k := tm']> (Timer.timers (timers s)) |>) in *.
  assert (Hfd : forall j, fields m' j = if decide (j = k) then Some (tm' <| curr := 0 |>) else fields (timers s) j).
  { intros j. unfold m', static_part. cbn. rewrite fmap_insert. destruct (decide (j = k)) as [->|Hne].
    - by rewrite lookup_insert_eq.
    - by rewrite lookup_insert_ne. }
  split_and!; [|etransitivity; [exact Hf|]; split; [by destruct s|done]|].
  - split; [split|by rewrite <- Ed in Hok|done]; try done.
    + by destruct Hc.
    + by destruct Ha.
    + split; [|done]. split.
      * done.
      * intros j Hj. cbn. rewrite Hfd. case_decide; [done|by apply Hk].
      * change (Forall (fun '(_, d) => 1 <= d) (deadlines m')). by rewrite Hd'.
      * done.
      * intros j Hj. cbn. rewrite Hfd. change (j ∈ scheduled (timers s)) in Hj. case_decide; [congruence|by apply Hkind].
      * intros j tm2 Hj. cbn. rewrite Hfd. case_decide; [congruence|by apply Hshot].
  - eexists. cbn. rewrite Hfd, decide_True by done. split; [reflexivity|done].
Qed.

Section release.
Context {B o : list nat} {P : list (list nat)} {s0 : net} (p : nat).
Abbreviation k := (release_timer p).
Context (HP : k ∉ concat P) (Hr : (p < TCP_PCB_MAX)%nat).

(** The control block stays and its timer is to run again, or it is gone and
    its timer has stopped. *)
Definition release_outcome (s' : net) : Prop :=
  (exists t' T' x', tinv B o P [k] s0 s' t' T' /\ T' k = false /\ pcb_at t' p = Some x' /\ release_pending x' = true) \/
  (core o s' /\ arp_ok [] s' /\ tended B s0 s' /\ tcp_inv_at P [] s' /\ stopped (timers s') k).

Lemma release_stopped {s s1 t T} x :
  tinv B o P [k] s1 s t T -> tended B s0 s1 -> T k = false -> pcb_at t p = Some x -> release_pending x = false ->
  stopped (timers s) k -> release_outcome s.
Proof using Type.
  intros Hi Hf HT Hp Hrp Hst. right. destruct (timer_apart p) as (N1 & N2 & N3).
  assert (Hi2 : tinv B o P [] s1 s t T).
  { eapply (due_off p x); [exact Hi|done|unfold timer_of; tauto|done|congruence|congruence|done]. }
  destruct (tinv_finish Hi2) as (C1 & C2 & C3 & C4). split_and!; [done..|by transitivity s1|done|done].
Qed.

Lemma release_end_ok {s t T} x lc :
  tinv B o P [k] s0 s t T -> T k = false -> pcb_at t p = Some x -> slot_at t p = Some (Some p) ->
  release_pending x = true -> (lc = false -> idle x = true -> unreferenced t p) ->
  wp (fun _ s' => release_outcome s')
    ((x ← load_tcp p;
      when (opened x && release_pending x && negb (socket_attached x) && bool_decide (listener x = None) &&
          (accept_waiters x =? 0) && no_waiters x && negb lc && (accept_pins x =? 0))
      (clear_timer_flags k;; tcp_release_now_locked p;; mret ())) s).
Proof using All.
  intros Hi HT Hp Hs Hrp Hun. pose proof Hi as [Hx Hok _]. eapply wp_eq; [by eapply (load_tcp_at Hx)|].
  rewrite (tcp_used _ _ Hok p x Hp Hs). destruct (_ && _) eqn:Hc; cbn [when].
  2: { left. by exists t, T, x. }
  rewrite !andb_true_iff in Hc. destruct Hc as (((((((_ & I1) & I2) & I3) & I4) & I5) & Hlc%negb_true_iff) & I6).
  assert (Hid : idle x = true) by (unfold idle; by rewrite I1, I2, I3, I4, I5, I6).
  eapply wp_step; [by apply (clear_flags_ok p Hi)|]. intros ? s1 (Hi1 & Hf1 & Hst1).
  eapply wp_step; [apply wp_still; [apply still_release_now|by apply (release_now_ok p Hi1)]|].
  intros e s2 [[(_ & _ & Hno)|(_ & _ & _ & T2 & _ & HT2 & Hi2)] Es]; cbn [wp mret M_ret].
  - destruct Hno. exists x. split_and!; [done..|]. by apply Hun.
  - eapply (release_stopped (s1 := s1) (released x) Hi2); [done|done| |done|].
    + exact (pcb_upd_eq t p released x Hp).
    + unfold stopped in *. by rewrite Es.
Qed.

Lemma release_proc_ok {s t T} x :
  tinv B o P [k] s0 s t T -> T k = false -> pcb_at t p = Some x -> leaving x ->
  wp (fun _ s' => release_outcome s') (tcp_release_proc k p s).
Proof using All.
  intros Hi HT Hp Hlv. pose proof Hi as [Hx Hok Htm]. unfold tcp_release_proc.
  destruct (find_slot_cases Hx (tcp_own_slot _ _ Hok) p) as [(i & Hneg & Hk & Hno)|[Hs Hk]]; (eapply wp_eq; [exact Hk|]).
  { rewrite (proj2 (Z.ltb_lt _ _)) by done. eapply wp_mono; [|by apply (clear_flags_ok p Hi)].
    intros ? s1 (Hi1 & Hf1 & Hst). destruct (slot_cases Hok p Hr) as [?|Hs]; [done|].
    destruct (tcp_unused _ _ Hok p x Hp Hs) as (_ & _ & _ & _ & Hrp & _). by eapply (release_stopped x Hi1). }
  rewrite (proj2 (Z.ltb_ge _ _)) by lia. eapply wp_eq; [by eapply load_tcp_at|].
  pose proof (tcp_used _ _ Hok p x Hp Hs) as Hop. destruct Hlv as [Hrp|?]; [|congruence]. rewrite Hop, Hrp. cbn [andb].
  destruct (bool_decide (state x = TCP_STATE_LISTEN) && (accept_waiters x =? 0)) eqn:Ecl.
  - eapply wp_step; [by apply (when_cleanup_ok true p Hi)|]. intros ? s1 (t1 & T1 & Hi1 & [Hsl1 Hst1] & HT1). cbn beta.
    destruct (Hst1 x Hp) as (y & Hy & [E1 E2 E3 E4 E5]). pose proof Hi1 as [Hx1 Hok1 Htm1].
    destruct (has_children_at p Hx1 Hok1) as (b & Hb & Hbu). eapply wp_eq; [exact Hb|].
    apply (release_end_ok y b Hi1); [rewrite HT1; [done|unfold timer_of; tauto]|done|congruence|congruence|].
    intros E _. by apply Hbu.
  - eapply wp_eq; [reflexivity|]. eapply wp_eq; [reflexivity|]. apply (release_end_ok x false Hi HT Hp Hs Hrp).
    intros _ Hid. eapply (plain_unreferenced Hok Hp). intros Es. rewrite bool_decide_eq_true_2 in Ecl by done. cbn [andb] in Ecl.
    unfold idle in Hid. rewrite !andb_true_iff in Hid. destruct Hid as (((_ & Hw) & _) & _). congruence.
Qed.
End release.
