(* ===== verification/OwnerUdpOpen.v ===== *)
(** * Opening and closing a UDP control block under the invariant

    A control block that is not in the table can hold anything: [udp_open]
    fills it in and enters it, and when it fails it has given back the
    semaphores it took.  [udp_close] of a control block that no task waits on
    frees the packets of its records and its semaphores. *)

From S2P Require Import Prelude Tools IpAddr Nlist Timer Mblock Pktbuf PktbufSpec PktbufChain.
From S2P Require Import PktbufOps PktbufFrame Sys Fixq Net Netif Ether Arp NetifLink Ipv4 Udp TcpInv.
From S2P Require Import Owner OwnerPkt OwnerQueue OwnerOut OwnerArp OwnerResolve OwnerIp OwnerIcmp OwnerTcp OwnerRelease.
From S2P Require Import OwnerTcpInput OwnerUdp OwnerRecv OwnerInput.

(** ** The control block while it is filled in *)

Lemma with_pcb_sys_twice s y y' p x : (with_pcb (s <| sys := y |>) p x) <| sys := y' |> = with_pcb (s <| sys := y' |>) p x.
Proof. by destruct s. Qed.

Section filling.
Context (s : net) (p : nat).
Definition filled (y : sys_state) (x : udp_pcb_t) : net := with_pcb (s <| sys := y |>) p x.

Lemma filled_store y x f : store_pcb p f (filled y x) = Ret () (filled y (f x)).
Proof using Type.
  erewrite store_pcb_at by apply lookup_insert_eq. f_equal. unfold filled. exact (with_pcb_twice _ _ _ _).
Qed.
Lemma filled_load y x : load_pcb p (filled y x) = Ret x (filled y x).
Proof using Type. apply load_pcb_at, lookup_insert_eq. Qed.
Lemma filled_sys {A} y x (m : M sys_state A) a y' : m y = Ret a y' -> zoom sys_lens m (filled y x) = Ret a (filled y' x).
Proof using Type. intros H. exact (zoom_ret sys_lens m (filled y x) a y' H). Qed.
Lemma filled_load_q y x : load_q (recv_ref p) (filled y x) = Ret (recv_queue x) (filled y x).
Proof using Type. unfold load_q. mstep. apply deref_ret. cbn. by rewrite lookup_insert_eq. Qed.
Lemma filled_store_q y x f : store_q (recv_ref p) f (filled y x) = Ret () (filled y (x <| recv_queue := f (recv_queue x) |>)).
Proof using Type.
  unfold store_q. mstep by apply filled_load_q. unfold modify. f_equal. unfold filled, with_pcb. cbn. unfold upd_field. cbn.
  by rewrite alter_insert_eq.
Qed.

(** Semaphores that nobody has. *)
Definition unclaimed (own : list nat) : Prop := forall k c, k ∈ own -> ~ sem_at (sys s) k c.

Lemma queue_init_ok x :
  exists e y q, fixq_init sys_lens (recv_ref p) (Some (replicate UDP_RECV_MAX None)) (Z.of_nat UDP_RECV_MAX) (filled (sys s) x) =
      Ret e (filled y (x <| recv_queue := q |>)) /\
    exists own, unclaimed own /\ sems_kept own (sys s) y /\
      (e < 0 \/ (e = NET_ERR_OK /\ fixq_ok y q own [] /\ size q = Z.of_nat UDP_RECV_MAX)).
Proof using Type.
  unfold fixq_init. change (Z.of_nat UDP_RECV_MAX <=? 0) with false. cbv iota.
  set (n := Z.of_nat UDP_RECV_MAX). mstep by apply filled_store_q. set (q0 := Fixq _ _ _ _ _ _ _).
  destruct (sem_create_at (sys s) n) as ([i|] & y1 & H1 & C1); [done|..].
  2: { subst y1. exists NET_ERR_MEM, (sys s), (q0 <| send_sem := None |>). split.
       - mstep by (by apply filled_sys). by mstep by apply filled_store_q.
       - exists []. split_and!; [|done|by left]. intros k c Hk. by apply not_elem_of_nil in Hk. }
  destruct C1 as (U1 & L1 & K1).
  destruct (sem_create_at y1 0) as ([j|] & y2 & H2 & C2); [done|..].
  2: { subst y2. destruct (sem_free_at y1 (Some i)) as (y3 & H3 & K3).
       exists NET_ERR_MEM, y3. eexists. split.
       - mstep by (by apply filled_sys). mstep by apply filled_store_q. mstep by (by apply filled_sys). mstep by apply filled_store_q.
         mstep by (by apply filled_sys). by mstep by apply filled_store_q.
       - exists [i]. split_and!; [|intros k Hk; by rewrite (K3 k), (K1 k)|by left]. by intros k c ->%list_elem_of_singleton. }
  destruct C2 as (U2 & L2 & K2). assert (Hij : j <> i) by (intros ->; by eapply U2).
  exists NET_ERR_OK, y2. eexists. split.
  - mstep by (by apply filled_sys). mstep by apply filled_store_q. mstep by (by apply filled_sys). by mstep by apply filled_store_q.
  - exists [i; j]. assert (Hi : sem_at y2 i n) by (eapply sem_at_kept; [exact K2|set_solver|done]). split_and!.
    + intros k c [-> | ->%list_elem_of_singleton]%elem_of_cons; [apply U1|]. intros Hc. apply (U2 c).
      eapply sem_at_kept; [exact K1|set_solver|done].
    + intros k Hk. rewrite (K2 k), (K1 k) by set_solver. done.
    + right. split_and!; [done| |done]. split.
      * split_and!; try done.
      * exists i, j, 0. split_and!; done.
Qed.
End filling.

(** ** The invariant around one control block *)

Section core.
Context {o : list nat} {s : net} {y : sys_state} {u : gmap nat udp_pcb_t} {c : list (option nat)} {p : nat} {own : list nat}.
Let s' := s <| sys := y |> <| udp_pcbs := u |> <| pcbs := c |>.
Context (Hc : core o s) (Hk : sems_kept own (sys s) y).
Context (Hout : forall v, v <> URecv p -> v <> UClose p -> sems_at s v ## own).
Context (Hsame : forall q, q <> p -> (Some q ∈ c <-> Some q ∈ pcbs s) /\ u !! q = udp_pcbs s !! q).

Lemma sems_others v : v <> URecv p -> v <> UClose p -> sems_at s' v = sems_at s v.
Proof using Hsame.
  intros H1 H2. destruct v as [m|m|q|q|q]; try done; cbn.
  all: assert (q <> p) as Hq by congruence; destruct (Hsame q Hq) as [E1 E2]; by rewrite E2, (bool_decide_ext _ _ E1).
Qed.

(** The control block is in the table with semaphores of [own], or it is not. *)
Definition block_ok : Prop :=
  Some p ∈ c -> exists x, u !! p = Some x /\ queue_ok y (recv_queue x) /\ q_sems (recv_queue x) ## option_list (close_done x) /\
    forall k, k ∈ q_sems (recv_queue x) ++ option_list (close_done x) -> k ∈ own /\ sem_live y k.

Lemma core_block : block_ok -> core o s'.
Proof using Hc Hk Hout Hsame.
  intros Hp. pose proof Hc as [Hwf Ha Hn Hr Hs Hlv].
  assert (Hq : forall {A} v (q : fixq_t A), v <> URecv p -> v <> UClose p -> q_sems q = sems_at s v ->
    queue_ok (sys s) q -> queue_ok y q).
  { intros A v q H1 H2 E Hqk. eapply queue_ok_kept; [done|exact Hk|]. rewrite E. by apply Hout. }
  assert (Hmine : forall v k, v = URecv p \/ v = UClose p -> k ∈ sems_at s' v -> k ∈ own /\ sem_live y k).
  { intros v k Hv. destruct Hv as [-> | ->]; cbn; (case_bool_decide as Hin; [|by intros ?%not_elem_of_nil]).
    all: destruct (Hp Hin) as (x & Hx & _ & _ & H); rewrite Hx; cbn; intros Hk'; apply H, elem_of_app; auto. }
  assert (Hdisj : forall v v', v <> URecv p -> v <> UClose p -> v' = URecv p \/ v' = UClose p -> sems_at s' v ## sems_at s' v').
  { intros v v' H1 H2 Hv' k Hk1 Hk2. rewrite sems_others in Hk1 by done. destruct (Hmine v' k Hv' Hk2) as [? _].
    by apply (Hout v H1 H2 k). }
  assert (Hboth : sems_at s' (URecv p) ## sems_at s' (UClose p)).
  { cbn. case_bool_decide as Hin; [|by intros k ?%not_elem_of_nil]. destruct (Hp Hin) as (x & Hx & _ & H & _). by rewrite Hx. }
  assert (Hdec : forall v, (v <> URecv p /\ v <> UClose p) \/ v = URecv p \/ v = UClose p).
  { intros [m|m|q|q|q]; try (left; done); (destruct (decide (q = p)) as [->|]; [by right; auto|left; split; congruence]). }
  split.
  - done.
  - eapply acct_ext; [exact Ha|done| |done]. by intros [].
  - intros n i Hi. destruct (Hn n i Hi) as (H1 & H2 & H3). split_and!; [done..|]. intros Hop.
    destruct (H3 Hop) as [Hin Hou]. change (netif_buffer s !! n = Some i) in Hi. split.
    + apply (Hq _ (UIn n)); [done..| |done]. cbn. by rewrite Hi; cbn; rewrite Hop.
    + apply (Hq _ (UOut n)); [done..| |done]. cbn. by rewrite Hi; cbn; rewrite Hop.
  - intros q x Hq' Hx. change (Some q ∈ c) in Hq'. change (u !! q = Some x) in Hx. destruct (decide (q = p)) as [->|Hne].
    + destruct (Hp Hq') as (x' & Hx' & Hqok & _). assert (x' = x) as -> by congruence. done.
    + destruct (Hsame q Hne) as [E1 E2]. apply (Hq _ (URecv q)); [congruence..| |].
      * cbn. rewrite bool_decide_eq_true_2 by (by apply E1). by rewrite <- E2, Hx.
      * apply (Hr q); [by apply E1|by rewrite <- E2].
  - intros v v' Hne. destruct (Hdec v) as [[H1 H2]|Hv], (Hdec v') as [[H1' H2']|Hv'].
    + rewrite !sems_others by done. by apply Hs.
    + by apply Hdisj.
    + intros k Hk1 Hk2. by apply (Hdisj v' v H1' H2' Hv k).
    + destruct Hv as [-> | ->], Hv' as [-> | ->]; try done. intros k Hk1 Hk2. by apply (Hboth k).
  - intros v k Hv. destruct (Hdec v) as [[H1 H2]|H1]; [|by apply (Hmine v k H1)]. rewrite sems_others in Hv by done.
    eapply sem_live_kept; [exact Hk| |by eapply Hlv]. intros Hin. by apply (Hout v H1 H2 k).
Qed.
End core.

Lemma stack_block {o s} y u c :
  stack_ok o s -> core o (s <| sys := y |> <| udp_pcbs := u |> <| pcbs := c |>) ->
  udp_ok (s <| sys := y |> <| udp_pcbs := u |> <| pcbs := c |>) -> stack_ok o (s <| sys := y |> <| udp_pcbs := u |> <| pcbs := c |>).
Proof. intros [_ Ha _ [] Hh] Hc Hu. split; [done|by destruct Ha|done|by split|done]. Qed.

(** Only the semaphores, the control block [p] and the table change. *)
Definition block_step (p : nat) (s s' : net) : Prop :=
  exists y u c, s' = s <| sys := y |> <| udp_pcbs := u |> <| pcbs := c |> /\ (forall q, q <> p -> u !! q = udp_pcbs s !! q) /\ is_Some (u !! p).

Lemma filled_block s p y x : filled s p y x = s <| sys := y |> <| udp_pcbs := <[p := x]> (udp_pcbs s) |> <| pcbs := pcbs s |>.
Proof. by destruct s. Qed.

Section opening.
Context {o : list nat} {s : net} (p : nat) (Hst : stack_ok o s).

Lemma unclaimed_out own v : unclaimed s own -> sems_at s v ## own.
Proof using Hst.
  intros Hu k Hk Hin. destruct (core_used _ _ (stack_core _ _ Hst) v k Hk) as (c & Hc & _). by apply (Hu k c).
Qed.

(** The control block is not in the table. *)
Lemma filled_ok y x own :
  Some p ∉ pcbs s -> unclaimed s own -> sems_kept own (sys s) y -> stack_ok o (filled s p y x) /\ block_step p s (filled s p y x).
Proof using Hst.
  intros Hp Hu Hk. rewrite filled_block. split.
  - apply stack_block; [done|..].
    + apply (core_block (p := p) (own := own) (stack_core _ _ Hst) Hk); [|intros q Hq; by rewrite lookup_insert_ne|by intros Hin].
      intros v _ _. by apply unclaimed_out.
    + destruct (stack_udp _ _ Hst) as [H1 H2 H3 H4 H5 H6]. split; try done; cbn.
      * intros i q Hi. destruct (H3 i q Hi) as (x0 & Hx0 & Hok). exists x0. split; [|done].
        rewrite lookup_insert_ne; [done|]. intros ->. apply Hp. by eapply list_elem_of_lookup_2.
      * intros q r x0 y0 Hq Hr Hne. rewrite !lookup_insert_ne by congruence. by apply H6.
  - eexists _, _, _. split; [reflexivity|]. split; [intros q Hq; by rewrite lookup_insert_ne|by rewrite lookup_insert_eq].
Qed.

Lemma entered_ok y x i own cd :
  Some p ∉ pcbs s -> pcbs s !! i = Some None -> unclaimed s (cd :: own) -> sems_kept (cd :: own) (sys s) y ->
  fixq_ok y (recv_queue x) own [] -> size (recv_queue x) = Z.of_nat UDP_RECV_MAX -> close_done x = Some cd -> cd ∉ own ->
  sem_live y cd -> local_port x = 0 ->
  let s' := s <| sys := y |> <| udp_pcbs := <[p := x]> (udp_pcbs s) |> <| pcbs := <[i := Some p]> (pcbs s) |> in
  stack_ok o s' /\ block_step p s s'.
Proof using Hst.
  intros Hp Hi Hu Hk Hq Hsz Hcd Hn Hl Hlp s'. pose proof (lookup_lt_Some _ _ _ Hi) as Hlt.
  destruct (fixq_ok_queue _ _ _ _ Hq) as (Hqok & Eq & El).
  assert (Hmem : forall q, q <> p -> Some q ∈ <[i := Some p]> (pcbs s) <-> Some q ∈ pcbs s).
  { intros q Hne. rewrite !list_elem_of_lookup. split; intros (j & Hj).
    - apply list_lookup_insert_Some in Hj as [(_ & E & _)|[_ ?]]; [congruence|by exists j].
    - exists j. rewrite list_lookup_insert_ne; [done|]. intros ->. congruence. }
  split.
  - apply stack_block; [done|..].
    + apply (core_block (p := p) (own := cd :: own) (stack_core _ _ Hst) Hk).
      * intros v _ _. by apply unclaimed_out.
      * intros q Hne. split; [by apply Hmem|by rewrite lookup_insert_ne].
      * intros _. exists x. rewrite lookup_insert_eq, Hcd, Eq. split_and!; [done..|by intros k Hk1 ->%list_elem_of_singleton|].
        intros k [Hk1|Hk1]%elem_of_app; [split; [by right|]|apply list_elem_of_singleton in Hk1 as ->; split; [by left|done]].
        destruct Hq as (Hring & a & b & rc & -> & Hab & _ & _ & Ha & Hb & Hrc). destruct Hring as (Hr & _).
        apply elem_of_cons in Hk1 as [-> | ->%list_elem_of_singleton]; eexists; (split; [done|]); cbn in *; lia.
    + destruct (stack_udp _ _ Hst) as [H1 H2 H3 H4 H5 H6]. split; try done; cbn.
      * by rewrite length_insert.
      * intros j q [(-> & [= ->] & _)|[Hne Hj]]%list_lookup_insert_Some.
        -- exists x. rewrite lookup_insert_eq. split; [done|]. unfold slot_ok. rewrite El. split_and!; try done; [constructor|..].
           ++ by intros it ?%not_elem_of_nil.
           ++ intros k. split; [by intros ?%not_elem_of_nil|]. intros Hb. destruct Hb. exact (H5 j k Hi).
           ++ lia.
           ++ lia.
        -- destruct (H3 j q Hj) as (x0 & Hx0 & Hok). exists x0. split; [|done].
           rewrite lookup_insert_ne; [done|]. intros ->. apply Hp. by eapply list_elem_of_lookup_2.
      * assert (Hno : forall j, pcbs s !! j <> Some (Some p)) by (intros j Hj; apply Hp; by eapply list_elem_of_lookup_2).
        intros j j' q [(-> & [= <-] & _)|[Hne Hj]]%list_lookup_insert_Some [(-> & E & _)|[Hne' Hj']]%list_lookup_insert_Some; try done.
        -- by apply Hno in Hj'.
        -- injection E as ->. by apply Hno in Hj.
        -- by eapply H4.
      * intros j k [(-> & [=] & _)|[_ Hj]]%list_lookup_insert_Some. by apply H5.
      * intros q r a b Hq' Hr' Hne. destruct (decide (q = p)) as [->|Hqp]; [|destruct (decide (r = p)) as [->|Hrp]].
        -- rewrite lookup_insert_eq. by intros [= <-].
        -- rewrite (lookup_insert_eq _ p x). intros _ [= <-] _ _ ->. done.
        -- rewrite !lookup_insert_ne by congruence. apply H6; [by apply Hmem..|done].
  - eexists _, _, _. split; [reflexivity|]. split; [intros q Hq'; by rewrite lookup_insert_ne|by rewrite lookup_insert_eq].
Qed.

Lemma udp_open_ok :
  is_Some (udp_pcbs s !! p) ->
  wp (fun e s' => stack_ok o s' /\ block_step p s s' /\
        ((e < 0 /\ pcbs s' = pcbs s /\ (Some p ∈ pcbs s -> s' = s)) \/
         (e = NET_ERR_OK /\ Some p ∉ pcbs s /\ exists i x, pcbs s !! i = Some None /\ pcbs s' = <[i := Some p]> (pcbs s) /\
            udp_pcbs s' !! p = Some x /\ pcb_open x = true /\ recv_waiting x = false)))
     (udp_open (Some p) s).
Proof using Hst.
  intros [x0 Hx0]. unfold udp_open.
  assert (Hsame : block_step p s s).
  { exists (sys s), (udp_pcbs s), (pcbs s). split; [by destruct s|]. split; [done|by exists x0]. }
  destruct (udp_find_slot_at s (Some p)) as (k & Hk & Hkp). eapply wp_eq; [exact Hk|].
  destruct (Z.ltb_spec k 0) as [Hneg|Hpos]; [|rewrite (proj2 (Z.leb_le _ _)) by done; cbn; split_and!; [done..|by left]].
  rewrite (proj2 (Z.leb_gt _ _)) by done. destruct (udp_find_slot_at s None) as (j & Hj & Hjn). eapply wp_eq; [exact Hj|].
  destruct (Z.ltb_spec j 0) as [Hneg'|Hpos']; [cbn; split_and!; [done..|by left]|]. unfold udp_open_slot.
  set (x1 := x0 <| local_port := 0 |> <| pcb_open := true |>).
  assert (E1 : store_pcb p (fun x => x <| local_port := 0 |> <| pcb_open := true |>) s = Ret () (filled s p (sys s) x1)).
  { erewrite store_pcb_at by exact Hx0. by destruct s. }
  eapply wp_eq; [exact E1|]. destruct (queue_init_ok s p x1) as (e & y & q & Hr & own & Hu & Hkept & Hcase). eapply wp_eq; [exact Hr|].
  destruct Hcase as [He|(-> & Hq & Hsz)].
  { rewrite (proj2 (Z.ltb_lt _ _)) by done. cbn [wp mret M_ret]. destruct (filled_ok y (x1 <| recv_queue := q |>) own Hkp Hu Hkept).
    split_and!; [done..|left]. split_and!; [done..|]. by intros Hin. }
  change (NET_ERR_OK <? 0) with false. cbv iota.
  destruct (sem_create_at y 0) as (cd & y2 & Hc2 & Hcd); [done|]. eapply wp_eq; [by apply filled_sys|].
  eapply wp_eq; [apply filled_store|]. destruct cd as [cd|].
  - destruct Hcd as (U2 & L2 & K2).
    assert (Hncd : cd ∉ own).
    { intros Hin. destruct Hq as (_ & a & b & rc & -> & _ & _ & _ & Ha & Hb & _).
      apply elem_of_cons in Hin as [-> | ->%list_elem_of_singleton]; by eapply U2. }
    eapply wp_eq; [apply filled_store|]. eapply wp_eq; [reflexivity|]. cbn [wp mret M_ret].
    set (x3 := (x1 <| recv_queue := q |> <| close_done := Some cd |>) <| recv_waiting := false |>).
    destruct (entered_ok y2 x3 (Z.to_nat j) own cd) as [Hok Hstep]; try done.
    + intros k' c [->|Hin]%elem_of_cons; [|by apply Hu]. intros Hc. apply (U2 c). eapply sem_at_kept; [exact Hkept|done|done].
    + intros k' Hk'. rewrite not_elem_of_cons in Hk'. rewrite (K2 k'), (Hkept k') by set_solver. done.
    + eapply fixq_ok_kept; [done|exact K2|]. intros k' Hk' ->%list_elem_of_singleton. done.
    + by exists 0.
    + split_and!; [done..|]. right. split_and!; [done..|]. exists (Z.to_nat j), x3. split_and!; [done..|apply lookup_insert_eq|done|done].
  - subst y2. unfold fixq_destroy.
    destruct (sem_free_at y (send_sem q)) as (y3 & H3 & K3). destruct (sem_free_at y3 (recv_sem q)) as (y4 & H4 & K4).
    eapply wp_eq.
    { mstep by apply filled_load_q. mstep by (by apply filled_sys). apply filled_sys. exact H4. }
    assert (Hk4 : sems_kept own (sys s) y4).
    { destruct Hq as (_ & a & b & rc & -> & _ & Ea & Eb & _). intros k' Hk'. rewrite Ea in K3. rewrite Eb in K4. cbn in K3, K4.
      rewrite (K4 k'), (K3 k'), (Hkept k') by set_solver. done. }
    cbn [wp mret M_ret]. destruct (filled_ok y4 (x1 <| recv_queue := q |> <| close_done := None |>) own Hkp Hu Hk4) as [F1 F2].
    split; [exact F1|split; [exact F2|left]]. split_and!; [done..|]. by intros Hin.
Qed.
End opening.

(** ** Closing *)

Lemma stack_moves {o p s s'} : stack_ok o s -> udp_moves p s s' -> core o s' -> udp_ok s' -> stack_ok o s'.
Proof. intros [_ Ha _ [] Hh] (k & y & rr & u & c & -> & _) Hc Hu. split; [done|by destruct Ha|done|by split|done]. Qed.

Lemma udp_ok_shut s p x :
  udp_ok s -> udp_pcbs s !! p = Some x -> udp_ok (with_pcb s p (x <| pcb_open := false |>)).
Proof.
  intros [H1 H2 H3 H4 H5 H6] Hx. split; try done.
  - intros i q Hi. destruct (H3 i q Hi) as (z & Hz & Hok). cbn. destruct (decide (q = p)) as [->|].
    + rewrite lookup_insert_eq. eexists. split; [done|]. assert (z = x) as -> by congruence. exact Hok.
    + rewrite lookup_insert_ne by done. by exists z.
  - intros q r a b Hq Hr Hne. cbn. intros Ha Hb Hoa Hob. apply lookup_insert_Some in Ha as [[<- <-]|[_ Ha]]; [done|].
    apply lookup_insert_Some in Hb as [[<- <-]|[_ Hb]]; [done|]. by apply (H6 q r a b).
Qed.

(** The record of the oldest item is emptied. *)
Lemma drain_step o s i p x j l q' y' :
  core o s -> udp_ok s -> pcbs s !! i = Some (Some p) -> udp_pcbs s !! p = Some x ->
  q_list (recv_queue x) = UdpRecord i j :: l -> fixq_ok y' q' (q_sems (recv_queue x)) l ->
  sems_kept (q_sems (recv_queue x)) (sys s) y' -> size q' = size (recv_queue x) ->
  wp (fun _ s' => core o s' /\ udp_ok s' /\ udp_moves p s s' /\ pcbs s' = pcbs s /\ udp_pcbs s' !! p = Some (x <| recv_queue := q' |>))
     (release_item p (UdpRecord i j) (with_recv s p q' y')).
Proof.
  intros Hc Hu Hi Hx Hl Hq' Hk Hsz.
  destruct (dequeue_ok o s i p x j l q' y') as (r & b & Hr & Hb & (seg & m & Hown) & Huv); [done..|].
  set (v := with_recv _ p q' y') in Hown, Huv.
  assert (E : with_recv s p q' y' = with_record v i j r).
  { rewrite <- (with_record_id i j s r Hr) at 1. unfold v.
    rewrite <- (with_record_twice s i j (r <| rec_buf := None |>) r). reflexivity. }
  assert (Hx2 : udp_pcbs v !! p = Some (x <| recv_queue := q' |>)).
  { unfold v. rewrite (with_recv_pcbs (s := with_record s i j (r <| rec_buf := None |>)) Hx). apply lookup_insert_eq. }
  assert (Hrv : record_at v i j = Some (r <| rec_buf := None |>)).
  { change (record_at (with_record s i j (r <| rec_buf := None |>)) i j = Some (r <| rec_buf := None |>)).
    rewrite with_record_at by (by exists r). by rewrite decide_True. }
  assert (Hmv : udp_moves p s v).
  { exists (pkt s), y', (recv_records v), (udp_pcbs v), (pcbs s). split; [by destruct s|]. rewrite Hx2.
    split; [|by intros _]. intros k Hne. unfold v.
    rewrite (with_recv_pcbs (s := with_record s i j (r <| rec_buf := None |>)) Hx). by rewrite lookup_insert_ne. }
  cbn [release_item]. rewrite E. eapply wp_mono; [|eapply (release_over i j r b Hb o v); [by destruct Hown|done]].
  intros ? s' [Hc' [Hsp Es]]. split_and!; [done| | | |].
  - eapply far_udp_ok; [apply (calm_far [b]); by split|done].
  - etransitivity; [exact Hmv|]. exists (pkt s'), (sys v), (recv_records v), (udp_pcbs v), (pcbs v).
    split; [rewrite Es at 1; by destruct v|]. done.
  - by rewrite Es.
  - by rewrite Es.
Qed.

Lemma close_drain_ok fuel o s i p x :
  core o s -> udp_ok s -> pcbs s !! i = Some (Some p) -> udp_pcbs s !! p = Some x ->
  (length (q_list (recv_queue x)) <= fuel)%nat ->
  wp (fun _ s' => core o s' /\ udp_ok s' /\ udp_moves p s s' /\ pcbs s' = pcbs s /\
        exists q', udp_pcbs s' !! p = Some (x <| recv_queue := q' |>) /\ q_list q' = [])
     (close_drain fuel p s).
Proof.
  revert s x. induction fuel as [|fuel IH]; intros s x Hc Hu Hi Hx Hf; cbn [close_drain].
  all: assert (Hp : Some p ∈ pcbs s) by (by eapply list_elem_of_lookup_2).
  all: assert (Hg : q_get (recv_ref p) s = Some (recv_queue x)) by (cbn; by rewrite Hx).
  all: destruct (fixq_recv_try (L := sys_lens) no_sleep 0 0 s _ _ _ Hg (core_recv _ _ Hc p x Hp Hx)) as (s2 & Hrun & Hpost).
  all: eapply wp_eq; [exact Hrun|]; destruct (q_list (recv_queue x)) as [|it l] eqn:Hl; cbn [head].
  - subst s2. cbn [wp mret M_ret]. split_and!; [done..| |done|].
    + exists (pkt s), (sys s), (recv_records s), (udp_pcbs s), (pcbs s). split; [by destruct s|done].
    + exists (recv_queue x). split; [|done]. rewrite Hx. by destruct x.
  - cbn in Hf. lia.
  - subst s2. cbn [wp mret M_ret]. split_and!; [done..| |done|].
    + exists (pkt s), (sys s), (recv_records s), (udp_pcbs s), (pcbs s). split; [by destruct s|done].
    + exists (recv_queue x). split; [|done]. rewrite Hx. by destruct x.
  - destruct Hpost as (q' & y' & -> & Hq' & Hk & Hsz'). fold (with_recv s p q' y').
    destruct (udp_slot _ Hu i p Hi) as (x0 & Hx0 & _ & _ & Hit & _). assert (x0 = x) as -> by congruence. rewrite Hl in Hit.
    destruct (Hit it) as [j ->]; [by left|]. destruct (fixq_ok_queue _ _ _ _ Hq') as (_ & _ & El).
    eapply wp_step; [by eapply (drain_step o s i p x j l q' y')|]. intros ? s3 (Hc3 & Hu3 & Hm3 & Ep3 & Hx3).
    eapply wp_mono; [|eapply (IH s3 _ Hc3 Hu3); [by rewrite Ep3|exact Hx3|cbn in Hf |- *; rewrite El; lia]].
    intros ? s4 (Hc4 & Hu4 & Hm4 & Ep4 & q4 & Hx4 & Hq4). split_and!; [done..|by etransitivity|congruence|]. by exists q4.
Qed.

(** The control block leaves the table. *)
Lemma left_ok o s i p x x' y :
  core o s -> udp_ok s -> pcbs s !! i = Some (Some p) -> udp_pcbs s !! p = Some x -> q_list (recv_queue x) = [] ->
  sems_kept (q_sems (recv_queue x) ++ option_list (close_done x)) (sys s) y ->
  let s' := s <| sys := y |> <| udp_pcbs := <[p := x']> (udp_pcbs s) |> <| pcbs := <[i := None]> (pcbs s) |> in
  core o s' /\ udp_ok s'.
Proof.
  intros Hc Hu Hi Hx Hl Hk s'. pose proof Hu as [H1 H2 H3 H4 H5 H6].
  assert (Hp : Some p ∈ pcbs s) by (by eapply list_elem_of_lookup_2).
  assert (Hno : Some p ∉ <[i := None]> (pcbs s)).
  { intros (j & Hj)%list_elem_of_lookup. apply list_lookup_insert_Some in Hj as [(_ & ? & _)|[Hne Hj]]; [done|]. by apply Hne, (H4 _ _ p). }
  assert (Hmem : forall q, q <> p -> Some q ∈ <[i := None]> (pcbs s) <-> Some q ∈ pcbs s).
  { intros q Hne. rewrite !list_elem_of_lookup. split; intros (j & Hj).
    - apply list_lookup_insert_Some in Hj as [(_ & ? & _)|[_ ?]]; [done|by exists j].
    - exists j. rewrite list_lookup_insert_ne; [done|]. intros ->. congruence. }
  assert (Eo : q_sems (recv_queue x) ++ option_list (close_done x) = sems_at s (URecv p) ++ sems_at s (UClose p)).
  { cbn. by rewrite bool_decide_eq_true_2, Hx. }
  split.
  - apply (core_block (p := p) (own := q_sems (recv_queue x) ++ option_list (close_done x)) Hc Hk).
    + intros v Hv1 Hv2 k Hkv. rewrite Eo. intros [Hk'|Hk']%elem_of_app.
      * by apply (core_sems _ _ Hc v (URecv p) Hv1 k).
      * by apply (core_sems _ _ Hc v (UClose p) Hv2 k).
    + intros q Hne. split; [by apply Hmem|by rewrite lookup_insert_ne].
    + by intros Hin.
  - split; try done; cbn.
    + by rewrite length_insert.
    + intros j q [(_ & ? & _)|[Hne Hj]]%list_lookup_insert_Some; [done|]. destruct (H3 j q Hj) as (z & Hz & Hok). exists z.
      split; [|done]. rewrite lookup_insert_ne; [done|]. intros ->. by apply Hne, (H4 _ _ q).
    + intros j j' q [(_ & ? & _)|[_ Hj]]%list_lookup_insert_Some [(_ & ? & _)|[_ Hj']]%list_lookup_insert_Some; try done. by eapply H4.
    + intros j k [(-> & _ & _)|[_ Hj]]%list_lookup_insert_Some; [|by apply H5].
      destruct (H3 j p Hi) as (z & Hz & _ & _ & _ & Hr & _). assert (z = x) as -> by congruence. rewrite Hl in Hr.
      change (record_buf s' j k) with (record_buf s j k). destruct (record_buf s j k) eqn:E; [|done].
      assert (UdpRecord j k ∈ []) as ?%not_elem_of_nil by (apply Hr; by rewrite E). done.
    + intros q r a b Hq Hr Hne. assert (q <> p /\ r <> p) as [Hqp Hrp] by (split; intros ->; done).
      rewrite !lookup_insert_ne by congruence. apply H6; [by apply Hmem..|done].
Qed.

Lemma udp_close_ok sl fu mt o s p :
  stack_ok o s -> (forall x, Some p ∈ pcbs s -> udp_pcbs s !! p = Some x -> recv_waiting x = false) ->
  wp (fun e s' => stack_ok o s' /\ udp_moves p s s' /\
        ((e < 0 /\ s' = s) \/ (e = NET_ERR_OK /\ exists i, pcbs s !! i = Some (Some p) /\ pcbs s' = <[i := None]> (pcbs s))))
     (udp_close sl fu mt (Some p) s).
Proof.
  intros Hst Hwait. pose proof Hst as [Hc Ha Hu Ht Hh]. unfold udp_close.
  assert (Hsame : forall e, e < 0 -> wp (fun e s' => stack_ok o s' /\ udp_moves p s s' /\
        ((e < 0 /\ s' = s) \/ (e = NET_ERR_OK /\ exists i, pcbs s !! i = Some (Some p) /\ pcbs s' = <[i := None]> (pcbs s))))
        (Ret e s)).
  { intros e He. cbn. split_and!; [done| |by left]. exists (pkt s), (sys s), (recv_records s), (udp_pcbs s), (pcbs s).
    split; [by destruct s|done]. }
  destruct (udp_find_slot_at s (Some p)) as (k & Hk & Hkp). eapply wp_eq; [exact Hk|].
  destruct (Z.ltb_spec k 0) as [Hneg|Hpos]; [by apply Hsame|]. set (i := Z.to_nat k) in *.
  destruct (udp_slot _ Hu i p Hkp) as (x & Hx & _). eapply wp_eq; [by apply load_pcb_at|].
  destruct (pcb_open x) eqn:Hop; cbn [negb]; [|by apply Hsame].
  eapply wp_eq; [by apply store_pcb_at|]. rewrite (Hwait x) by (done || by eapply list_elem_of_lookup_2). cbn [when].
  eapply wp_eq; [reflexivity|]. set (x1 := x <| pcb_open := false |>). set (s1 := with_pcb s p x1).
  assert (Hx1 : udp_pcbs s1 !! p = Some x1) by apply lookup_insert_eq.
  assert (Hc1 : core o s1) by (by eapply with_pcb_core).
  assert (Hu1 : udp_ok s1) by (by apply udp_ok_shut).
  eapply wp_eq; [unfold load_q; mstep; apply deref_ret; cbn; by rewrite lookup_insert_eq|].
  change (recv_queue (x <| pcb_open := false |>)) with (recv_queue x).
  assert (Hcnt : count (recv_queue x) = len (q_list (recv_queue x))).
  { destruct (core_recv _ _ Hc p x) as [(_ & _ & _ & _ & E & _) _]; [by eapply list_elem_of_lookup_2|done|done]. }
  eapply wp_step; [eapply (close_drain_ok _ o s1 i p x1 Hc1 Hu1); [done|done|change (recv_queue x1) with (recv_queue x); rewrite Hcnt; lia]|].
  intros ? s2 (Hc2 & Hu2 & Hm2 & Ep2 & q2 & Hx2 & Hq2). set (x2 := x1 <| recv_queue := q2 |>) in *.
  destruct (sem_free_run s2 (send_sem q2)) as (y3 & H3 & K3).
  destruct (sem_free_run (s2 <| sys := y3 |>) (recv_sem q2)) as (y4 & H4 & K4).
  destruct (sem_free_run (s2 <| sys := y4 |>) (close_done x)) as (y5 & H5 & K5).
  change (sys (s2 <| sys := ?y |>)) with y in K4, K5.
  assert (Hp2 : pcbs s2 !! i = Some (Some p)) by (by rewrite Ep2).
  assert (Hqs : q_sems q2 = option_list (send_sem q2) ++ option_list (recv_sem q2)).
  { destruct (core_recv _ _ Hc2 p x2) as (_ & n1 & n2 & rc & _ & _ & Ea & Eb & _); [by eapply list_elem_of_lookup_2|done|].
    change (recv_queue x2) with q2 in Ea, Eb. unfold q_sems. by rewrite Ea, Eb. }
  eapply wp_eq.
  { unfold fixq_destroy. mstep by (unfold load_q; mstep; apply deref_ret; cbn; rewrite Hx2; reflexivity).
    change (send_sem (recv_queue x2)) with (send_sem q2). change (recv_sem (recv_queue x2)) with (recv_sem q2).
    mstep by exact H3. exact H4. }
  eapply wp_eq; [exact H5|]. eapply wp_eq; [by apply store_pcb_at|]. eapply wp_eq; [reflexivity|]. cbn [wp mret M_ret].
  set (x3 := x2 <| local_port := 0 |>).
  destruct (left_ok o s2 i p x2 x3 y5 Hc2 Hu2 Hp2 Hx2 Hq2) as [Hc5 Hu5].
  { change (recv_queue x2) with q2. rewrite Hqs. intros j. rewrite !not_elem_of_app. intros [[N1 N2] N3].
    by rewrite (K5 j), (K4 j), (K3 j). }
  set (s5 := s2 <| sys := y5 |> <| udp_pcbs := <[p := x3]> (udp_pcbs s2) |> <| pcbs := <[i := None]> (pcbs s2) |>) in *.
  assert (Hm5 : udp_moves p s s5).
  { transitivity s1; [|transitivity s2; [exact Hm2|]].
    - exists (pkt s), (sys s), (recv_records s), (udp_pcbs s1), (pcbs s). split; [by destruct s|].
      split; [intros q Hq; by apply lookup_insert_ne|by rewrite Hx1].
    - exists (pkt s2), y5, (recv_records s2), (<[p := x3]> (udp_pcbs s2)), (<[i := None]> (pcbs s2)). split; [by destruct s2|].
      split; [intros q Hq; by apply lookup_insert_ne|by rewrite lookup_insert_eq]. }
  assert (Hst5 : stack_ok o s5) by (by eapply stack_moves).
  split; [exact Hst5|split; [exact Hm5|]]. right. split; [done|]. exists i. split; [done|].
  change (<[i := None]> (pcbs s2) = <[i := None]> (pcbs s)). by rewrite Ep2.
Qed.
