(* ===== verification/Socket.v ===== *)
(** * Sockets (net/socket.c)

    A handle names an entry of the table by its index and its generation, which
    grows with every socket that is closed.  An entry holds the UDP control
    block itself, whose address the model names by the index of the entry, or a
    pointer to a TCP control block; the two share their memory in the code, and
    [type] says which one is there.  The sections under [socket_locker] are
    sequential code. *)

From S2P Require Import Prelude Sys Fixq TcpState Net Udp Tcp.

Definition NET_SOCKET_TCP : Z := 1.
Definition NET_SOCKET_UDP : Z := 2.
Definition NET_SOCKET_MAX : nat := 16.

Record socket_entry_t := Entry {
  pcb_tcp : option nat; generation : Z; used : bool; closing : bool; retired : bool; type : Z }.
#[global] Instance entry_settable : Settable socket_entry_t := fun r =>
  Entry (pcb_tcp r) (generation r) (used r) (closing r) (retired r) (type r).

(** The stack with the variables of socket.c, net_stack.c and net_exec.c, of
    which [request_done] are the semaphores [done] of the slots. *)
Record host := Host {
  stack : net; entries : list socket_entry_t;
  stack_netif : option nat; stack_initialized : bool;
  request_queue : fixq_t nat; request_done : list sys_sem_t; exec_initialized : bool }.
#[global] Instance host_settable : Settable host := fun r =>
  Host (stack r) (entries r) (stack_netif r) (stack_initialized r) (request_queue r) (request_done r) (exec_initialized r).
Definition stack_lens : lens host net := Lens stack (fun x h => h <| stack := x |>).
Abbreviation call m := (zoom stack_lens m).

(** [&entries[i].pcb.udp] *)
Definition pcb_udp (i : nat) : option nat := Some i.

Definition load_entry (i : nat) : M host socket_entry_t := h ← get; deref (entries h !! i).
Definition store_entry (i : nat) (f : socket_entry_t -> socket_entry_t) : M host unit :=
  e ← load_entry i; modify (fun h => h <| entries := <[i := f e]> (entries h) |>).

(** ** Handles *)

Definition socket_decode (handle : Z) : option (nat * Z) :=
  let index := Z.land handle 0xff in
  let value := Z.shiftr (u32 handle) 8 in
  if (handle <? 0) || (index <? 0) || (Z.of_nat NET_SOCKET_MAX <=? index) || (value =? 0) then None
  else Some (Z.to_nat index, value).

(** [((int)entry->generation << 8) | i] *)
Definition socket_handle (generation_ : Z) (i : nat) : Z := Z.lor (Z.shiftl generation_ 8) (Z.of_nat i).

Definition socket_find (handle : Z) : M host (option nat) :=
  match socket_decode handle with
  | None => mret None
  | Some (slot, generation_) =>
      e ← load_entry slot;
      mret (if used e && negb (closing e) && (generation e =? generation_) then Some slot else None)
  end.

Definition socket_find_used (handle : Z) : M host (option nat) :=
  match socket_decode handle with
  | None => mret None
  | Some (slot, generation_) =>
      e ← load_entry slot;
      mret (if used e && (generation e =? generation_) then Some slot else None)
  end.

Definition invalidated (e : socket_entry_t) : socket_entry_t :=
  let e := if type e =? NET_SOCKET_TCP then e <| pcb_tcp := None |> else e in
  let e := e <| used := false |> <| closing := false |> in
  if generation e =? 0x7fffff then e <| retired := true |> else e <| generation := u32 (generation e + 1) |>.

Definition socket_invalidate (i : nat) : M host unit := store_entry i invalidated.

(** ** Opening and the calls of the worker *)

Definition net_socket_init : M host Z :=
  modify (fun h => h <| entries := (fun e => e <| used := false |> <| closing := false |> <| retired := false |>
    <| generation := 1 |> <| pcb_tcp := None |>) <$> entries h |>);;
  mret NET_ERR_OK.

(** The first entry that is neither in use nor retired. *)
Fixpoint free_entry (i : nat) (l : list socket_entry_t) : option nat :=
  match l with
  | [] => None
  | e :: l => if negb (used e) && negb (retired e) then Some i else free_entry (S i) l
  end.

(** [udp_open(&entry->pcb.udp)] or [tcp_socket_open(&entry->pcb.tcp)], which
    stores a null pointer when it fails. *)
Definition open_pcb (i : nat) (type_ : Z) : M host Z :=
  if type_ =? NET_SOCKET_UDP then call (udp_open (pcb_udp i))
  else
    r ← call tcp_socket_open;
    store_entry i (fun e => e <| pcb_tcp := r.2 |>);;
    mret r.1.

Definition net_socket_open (type_ : Z) : M host Z :=
  if negb (type_ =? NET_SOCKET_UDP) && negb (type_ =? NET_SOCKET_TCP) then mret NET_ERR_NOT_SUPPORT
  else
    l ← gets entries;
    match free_entry 0 l with
    | None => mret NET_ERR_FULL
    | Some i =>
        err ← open_pcb i type_;
        if err <? 0 then mret err
        else
          store_entry i (fun e => e <| used := true |> <| closing := false |> <| type := type_ |>);;
          e ← load_entry i;
          mret (socket_handle (generation e) i)
    end.

Definition net_socket_bind (handle : Z) (netif : option nat) (local : option Z) (port : Z) : M host Z :=
  entry ← socket_find handle;
  match entry with
  | None => mret NET_ERR_PARAM
  | Some i =>
      e ← load_entry i;
      if type e =? NET_SOCKET_UDP then call (udp_bind (pcb_udp i) port)
      else call (tcp_bind (pcb_tcp e) netif local port)
  end.

(** The entry of a handle of a TCP socket, for [m]. *)
Definition with_tcp (handle : Z) (m : option nat -> M host Z) : M host Z :=
  entry ← socket_find handle;
  match entry with
  | None => mret NET_ERR_PARAM
  | Some i =>
      e ← load_entry i;
      if negb (type e =? NET_SOCKET_TCP) then mret NET_ERR_PARAM else m (pcb_tcp e)
  end.

Definition net_socket_listen (handle backlog_ : Z) : M host Z :=
  with_tcp handle (fun pcb => call (tcp_listen pcb backlog_)).

Definition net_socket_connect_start (handle : Z) (netif : option nat) (dest : option Z) (dest_port : Z) : M host Z :=
  with_tcp handle (fun pcb => call (tcp_connect_start pcb netif dest dest_port)).

Definition net_socket_send (handle : Z) (data : option bytes) (size : Z) : M host Z :=
  with_tcp handle (fun pcb => call (tcp_send_start pcb data size)).

Definition net_socket_sendto (handle : Z) (netif : option nat) (dest : option Z) (dest_port : Z)
    (data : option bytes) (size : Z) : M host Z :=
  entry ← socket_find handle;
  match entry with
  | None => mret NET_ERR_PARAM
  | Some i =>
      e ← load_entry i;
      if negb (type e =? NET_SOCKET_UDP) then mret NET_ERR_PARAM
      else call (udp_sendto (pcb_udp i) netif dest dest_port data size)
  end.

(** ** Closing *)

Definition socket_close_tcp (i : nat) : M host Z :=
  e ← load_entry i;
  if negb (closing e) then
    store_entry i (fun e => e <| closing := true |>);;
    err ← call (tcp_close (pcb_tcp e));
    when (err <? 0) (store_entry i (fun e => e <| closing := false |>));;
    mret (if err <? 0 then err else NET_ERR_NONE)
  else
    err ← call (tcp_close (pcb_tcp e));
    if err <? 0 then mret err
    else
      err ← call (tcp_socket_detach (pcb_tcp e));
      if err =? NET_ERR_STATE then mret NET_ERR_NONE
      else if err <? 0 then mret err
      else socket_invalidate i;; mret NET_ERR_OK.

(** ** Accepting *)

Record net_socket_accept_t := Accept {
  listener_handle : Z; acc_listener : option nat; child : option nat; acc_ip : Z; acc_port : Z; acquired : bool }.
Definition no_accept : net_socket_accept_t := Accept 0 None None 0 0 false.

(** The calls that work on [*accept] return its new value. *)
Definition socket_accept_abort_locked (a : net_socket_accept_t) : M host net_socket_accept_t :=
  if negb (acquired a) then mret a
  else
    (match child a with
     | Some _ => call (tcp_accept_release_child_acquired (acc_listener a) (child a))
     | None => call (tcp_accept_release_acquired (acc_listener a))
     end);;
    mret no_accept.

Definition net_socket_accept_abort (accept : option net_socket_accept_t) : M host (option net_socket_accept_t) :=
  match accept with
  | None => mret None
  | Some a => if negb (acquired a) then mret accept else a ← socket_accept_abort_locked a; mret (Some a)
  end.

Definition net_socket_accept_commit (accept : option net_socket_accept_t) : M host (Z * option net_socket_accept_t) :=
  match accept with
  | None => mret (NET_ERR_PARAM, None)
  | Some a =>
      if negb (acquired a) || bool_decide (acc_listener a = None) || bool_decide (child a = None)
      then mret (NET_ERR_PARAM, accept)
      else
        entry ← socket_find (listener_handle a);
        good ← (match entry with
                | None => mret false
                | Some i => e ← load_entry i; mret ((type e =? NET_SOCKET_TCP) && bool_decide (pcb_tcp e = acc_listener a))
                end);
        if negb good then a ← socket_accept_abort_locked a; mret (NET_ERR_STATE, Some a)
        else
          l ← gets entries;
          match free_entry 0 l with
          | None => a ← socket_accept_abort_locked a; mret (NET_ERR_FULL, Some a)
          | Some i =>
              err ← call (tcp_accept_commit_acquired (acc_listener a) (child a));
              if err <? 0 then a ← socket_accept_abort_locked a; mret (err, Some a)
              else
                store_entry i (fun e => e <| pcb_tcp := child a |> <| used := true |> <| closing := false |>
                  <| type := NET_SOCKET_TCP |>);;
                e ← load_entry i;
                mret (socket_handle (generation e) i, Some no_accept)
          end
  end.

(** ** The calls that wait

    [task_sleep] is what other tasks do to the stack while the caller sleeps;
    [turns] bounds the wake-ups of [tcp_accept_peek_acquired] and
    [tcp_recv_bytes_acquired]. *)
Section waiting.
Context (task_sleep : nat -> Z -> M net Z) (fuel : nat) (mtime : Z) (turns : nat).

Definition net_socket_close (handle : Z) : M host Z :=
  entry ← socket_find_used handle;
  match entry with
  | None => mret NET_ERR_PARAM
  | Some i =>
      e ← load_entry i;
      if type e =? NET_SOCKET_TCP then socket_close_tcp i
      else if closing e then mret NET_ERR_PARAM
      else
        store_entry i (fun e => e <| closing := true |>);;
        err ← call (udp_close task_sleep fuel mtime (pcb_udp i));
        if err <? 0 then store_entry i (fun e => e <| closing := false |>);; mret err
        else socket_invalidate i;; mret NET_ERR_OK
  end.

Definition net_socket_accept_prepare (handle : Z) (accept : option net_socket_accept_t)
    : M host (Z * option net_socket_accept_t) :=
  match accept with
  | None => mret (NET_ERR_PARAM, None)
  | Some _ =>
      entry ← socket_find handle;
      pcb ← (match entry with
             | None => mret None
             | Some i => e ← load_entry i; mret (if type e =? NET_SOCKET_TCP then Some (pcb_tcp e) else None)
             end);
      match pcb with
      | None => mret (NET_ERR_PARAM, Some no_accept)
      | Some listener_ =>
          err ← call (tcp_accept_acquire listener_);
          if err <? 0 then mret (err, Some no_accept)
          else
            let a := Accept handle listener_ None 0 0 true in
            r ← call (tcp_accept_peek_acquired task_sleep fuel mtime turns listener_ 0);
            let a := match r.2 with
                     | Some (c, ip, port) => Accept handle listener_ (Some c) ip port true
                     | None => a
                     end in
            if r.1 <? 0 then a ← net_socket_accept_abort (Some a); mret (r.1, a) else mret (r.1, Some a)
      end
  end.

Definition net_socket_wait_connect (handle timeout_ms : Z) : M host Z :=
  with_tcp handle (fun pcb =>
    err ← call (tcp_wait_connect_acquire pcb);
    if err <? 0 then mret err else call (tcp_wait_connect_acquired task_sleep fuel mtime pcb timeout_ms)).

Definition net_socket_recv (handle : Z) (data : bool) (size timeout_ms : Z) : M host (Z * bytes) :=
  if negb data || (size <=? 0) then mret (NET_ERR_PARAM, [])
  else
    entry ← socket_find handle;
    match entry with
    | None => mret (NET_ERR_PARAM, [])
    | Some i =>
        e ← load_entry i;
        if negb (type e =? NET_SOCKET_TCP) then mret (NET_ERR_PARAM, [])
        else
          err ← call (tcp_recv_acquire (pcb_tcp e));
          if err <? 0 then mret (err, [])
          else call (tcp_recv_bytes_acquired task_sleep fuel mtime turns (pcb_tcp e) data size timeout_ms)
    end.

Definition net_socket_wait_close (handle timeout_ms : Z) : M host Z :=
  entry ← socket_find_used handle;
  match entry with
  | None => mret NET_ERR_PARAM
  | Some i =>
      e ← load_entry i;
      if negb (type e =? NET_SOCKET_TCP) || negb (closing e) then mret NET_ERR_PARAM
      else
        err ← call (tcp_wait_close_acquire (pcb_tcp e));
        if err =? NET_ERR_PARAM then mret NET_ERR_OK
        else if err <? 0 then mret err
        else call (tcp_wait_close_acquired task_sleep fuel mtime (pcb_tcp e) timeout_ms)
  end.

Definition net_socket_recvfrom (handle : Z) (data : bool) (size timeout_ms : Z) : M host (Z * received) :=
  if negb data || (size <? 0) then mret (NET_ERR_PARAM, nothing)
  else
    entry ← socket_find handle;
    match entry with
    | None => mret (NET_ERR_PARAM, nothing)
    | Some i =>
        e ← load_entry i;
        if negb (type e =? NET_SOCKET_UDP) then mret (NET_ERR_PARAM, nothing)
        else
          err ← call (udp_recv_acquire (pcb_udp i));
          if err <? 0 then mret (NET_ERR_PARAM, nothing)
          else call (udp_recvfrom_acquired task_sleep fuel mtime (pcb_udp i) data size timeout_ms)
    end.

End waiting.
