(* ===== verification/SocketInv.v ===== *)
(** * Handles of sockets

    A handle that was closed names no socket any more, whatever sockets are
    opened afterwards: the generation of an entry only grows, and an entry
    whose generation cannot grow is retired. *)

From S2P Require Import Prelude Sys Fixq TcpState Net Udp Tcp Socket.

(** ** Encoding *)

Lemma socket_handle_eq g i : 0 <= g -> (i < 256)%nat -> socket_handle g i = g * 256 + Z.of_nat i.
Proof.
  intros Hg Hi. unfold socket_handle. rewrite Z.lor_comm, Z.shiftl_mul_pow2 by lia.
  pose proof (Z.add_lor_land (Z.of_nat i) (g * 2 ^ 8)) as Ha.
  replace (Z.land (Z.of_nat i) (g * 2 ^ 8)) with 0 in Ha; [lia|]. symmetry. apply Z.bits_inj'. intros k Hk.
  rewrite Z.land_spec, Z.bits_0. destruct (decide (k < 8)).
  - rewrite Z.mul_pow2_bits_low by lia. apply andb_false_r.
  - apply andb_false_intro1. destruct (decide (i = 0%nat)) as [->|]; [apply Z.bits_0|]. apply Z.bits_above_log2; [lia|].
    apply Z.log2_lt_pow2; [lia|]. assert (2 ^ 8 <= 2 ^ k) by (apply Z.pow_le_mono_r; lia). lia.
Qed.

Lemma land_255 h : Z.land h 0xff = h mod 256.
Proof. change 0xff with (Z.ones 8). by rewrite Z.land_ones. Qed.

Lemma shiftr_8 h : Z.shiftr h 8 = h / 256.
Proof. by rewrite Z.shiftr_div_pow2. Qed.

Lemma socket_decode_handle g i :
  0 < g <= 0x7fffff -> (i < NET_SOCKET_MAX)%nat ->
  socket_decode (socket_handle g i) = Some (i, g) /\ 0 < socket_handle g i <= INT_MAX.
Proof.
  intros Hg Hi. unfold NET_SOCKET_MAX in Hi. rewrite socket_handle_eq by lia. unfold socket_decode.
  rewrite land_255, shiftr_8. unfold u32, NET_SOCKET_MAX. rewrite (Z.mod_small _ (2 ^ 32)) by lia.
  replace ((g * 256 + Z.of_nat i) mod 256) with (Z.of_nat i) by (rewrite Z.add_comm, Z_mod_plus_full, Z.mod_small; lia).
  replace ((g * 256 + Z.of_nat i) / 256) with g by (rewrite Z.div_add_l, Z.div_small; lia).
  rewrite !(proj2 (Z.ltb_ge _ 0)), (proj2 (Z.leb_gt _ _)), (proj2 (Z.eqb_neq _ _)) by lia. cbn [orb]. rewrite Nat2Z.id. unfold INT_MAX. split; [done|lia].
Qed.

(** Only the handle of an entry and a generation is decoded to them. *)
Lemma socket_decode_inv h i g :
  h <= INT_MAX -> socket_decode h = Some (i, g) -> h = socket_handle g i /\ (i < NET_SOCKET_MAX)%nat /\ 0 < g <= 0x7fffff.
Proof.
  unfold socket_decode, INT_MAX. rewrite land_255, shiftr_8. intros Hm. destruct (_ || _) eqn:E; [done|]. intros [= <- <-].
  rewrite !orb_false_iff in E. destruct E as (((H1%Z.ltb_ge & H2%Z.ltb_ge) & H3%Z.leb_gt) & H4%Z.eqb_neq). unfold u32 in *. rewrite (Z.mod_small h) in * by lia.
  pose proof (Z.mod_pos_bound h 256). pose proof (Z.div_mod h 256). unfold NET_SOCKET_MAX in *.
  assert (0 <= h / 256 <= 0x7fffff) by (split; [apply Z.div_pos; lia|apply Z.lt_succ_r, Z.div_lt_upper_bound; lia]).
  rewrite socket_handle_eq by lia. lia.
Qed.

(** ** Entries age *)

Record entry_ok (e : socket_entry_t) : Prop := {
  entry_gen : 0 < generation e <= 0x7fffff;
  entry_retired : retired e = true -> used e = false }.

(** [e'] is the entry [e] later. *)
Record aged (e e' : socket_entry_t) : Prop := {
  aged_gen : generation e <= generation e';
  aged_retired : retired e = true -> retired e' = true }.
#[global] Instance aged_refl : Reflexive aged.
Proof. by split. Qed.
#[global] Instance aged_trans : Transitive aged.
Proof. intros e1 e2 e3 [] []. split; [lia|auto]. Qed.

Definition table_ok (h : host) : Prop := length (entries h) = NET_SOCKET_MAX /\ Forall entry_ok (entries h).
Definition grown (h h' : host) : Prop := table_ok h -> table_ok h' /\ Forall2 aged (entries h) (entries h').
#[global] Instance grown_refl : Reflexive grown.
Proof. intros h H. split; [done|]. change (Forall2 aged (entries h) (entries h)). reflexivity. Qed.
#[global] Instance grown_trans : Transitive grown.
Proof.
  intros h1 h2 h3 H1 H2 H. destruct (H1 H) as [H' F1]. destruct (H2 H') as [H'' F2]. split; [done|]. by etransitivity.
Qed.

(** A call that lets the entries age, if it returns. *)
Definition ages {A} (m : M host A) : Prop := forall h a h', m h = Ret a h' -> grown h h'.

Create HintDb ages.

Section ages.
Context {A C : Type}.
Lemma ages_ret (a : A) : ages (mret a).
Proof. by intros h b h' [= _ <-]. Qed.
Lemma ages_gets (f : host -> A) : ages (gets f).
Proof. by intros h b h' [= _ <-]. Qed.
Lemma ages_bind (m : M host A) (f : A -> M host C) : ages m -> (forall a, ages (f a)) -> ages (m ≫= f).
Proof.
  intros Hm Hf h c h'. unfold mbind, M_bind. destruct (m h) as [a h1|] eqn:E; [|done].
  intros E'. etransitivity; [by eapply Hm|by eapply Hf].
Qed.
Lemma ages_if (b : bool) (m1 m2 : M host A) : ages m1 -> ages m2 -> ages (if b then m1 else m2).
Proof. by destruct b. Qed.
Lemma ages_call (m : M net A) : ages (call m).
Proof. intros h b h'. unfold zoom. destruct (m _); [|done]. intros [= _ <-]. exact (grown_refl h). Qed.
Lemma ages_deref (x : option A) : ages (deref x).
Proof. intros h b h'. destruct x; [|done]. by intros [= _ <-]. Qed.
End ages.
#[global] Hint Resolve ages_ret ages_gets ages_call ages_deref : ages.

Lemma ages_load i : ages (load_entry i).
Proof. apply ages_bind; [by intros h a h' [= _ <-]|]. intros. apply ages_deref. Qed.
#[global] Hint Resolve ages_load : ages.

Lemma store_grown h i e e' :
  entries h !! i = Some e -> (entry_ok e -> entry_ok e' /\ aged e e') -> grown h (h <| entries := <[i := e']> (entries h) |>).
Proof.
  intros Hi He [Hl Hf]. destruct He as [H1 H2]; [by eapply Forall_lookup_1|]. split; [split|]; cbn.
  - by rewrite length_insert.
  - by apply Forall_insert.
  - rewrite <- (list_insert_id (entries h) i e Hi) at 1. apply Forall2_insert; [|done]. done.
Qed.

Lemma ages_store i f : (forall e, entry_ok e -> entry_ok (f e) /\ aged e (f e)) -> ages (store_entry i f).
Proof.
  intros Hf h a h'. unfold store_entry, load_entry, mbind, M_bind. cbn. destruct (entries h !! i) as [e|] eqn:E; [|done].
  intros [= _ <-]. apply (store_grown h i e); [done|apply Hf].
Qed.

(** The stores of socket.c outside of [net_socket_open] and
    [net_socket_accept_commit]. *)
Lemma ages_field i f :
  (forall e, generation (f e) = generation e /\ retired (f e) = retired e /\ used (f e) = used e) -> ages (store_entry i f).
Proof.
  intros Hf. apply ages_store. intros e [H1 H2]. destruct (Hf e) as (E1 & E2 & E3).
  split; split; rewrite ?E1, ?E2, ?E3; done.
Qed.
Lemma ages_invalidate i : ages (socket_invalidate i).
Proof.
  apply ages_store. intros e [H1 H2]. unfold invalidated.
  set (e1 := if type e =? NET_SOCKET_TCP then e <| pcb_tcp := None |> else e).
  assert (E : generation e1 = generation e /\ retired e1 = retired e) by (unfold e1; by destruct (_ =? _)).
  destruct E as [E1 E2]. cbn. rewrite E1. destruct (Z.eqb_spec (generation e) 0x7fffff) as [E|E].
  - split; split; cbn; rewrite ?E1, ?E2; done.
  - unfold u32. rewrite Z.mod_small by lia. split; split; cbn; rewrite ?E2; done || lia.
Qed.
#[global] Hint Resolve ages_invalidate : ages.
#[global] Hint Extern 1 (ages (store_entry _ _)) => (apply ages_field; done) : ages.

Ltac ages := repeat (first [solve [eauto 2 with ages nocore] | apply ages_bind; [|intros ?] | apply ages_if
  | match goal with |- ages (match ?x with _ => _ end) => destruct x end]).

Lemma ages_find hd : ages (socket_find hd).
Proof. unfold socket_find. ages. Qed.
Lemma ages_find_used hd : ages (socket_find_used hd).
Proof. unfold socket_find_used. ages. Qed.
#[global] Hint Resolve ages_find ages_find_used : ages.
Lemma ages_close_tcp i : ages (socket_close_tcp i).
Proof. unfold socket_close_tcp, when. ages. Qed.
Lemma ages_abort_locked a : ages (socket_accept_abort_locked a).
Proof. unfold socket_accept_abort_locked. ages. Qed.
#[global] Hint Resolve ages_close_tcp ages_abort_locked : ages.

(** ** Opening *)

Lemma free_entry_at i l k :
  free_entry i l = Some k -> exists j e, k = (i + j)%nat /\ l !! j = Some e /\ used e = false /\ retired e = false.
Proof.
  revert i. induction l as [|e l IH]; intros i; cbn [free_entry]; [done|].
  destruct (used e) eqn:Hu, (retired e) eqn:Hr; cbn [negb andb]; intros H;
    try (destruct (IH _ H) as (j & e' & -> & Hj); exists (S j), e'; split; [lia|done]).
  injection H as <-. exists 0%nat, e. split_and!; [lia|done..].
Qed.

(** What opening a socket does to the table. *)
Definition opened_at (h h' : host) (hd : Z) : Prop :=
  exists i e e', entries h !! i = Some e /\ used e = false /\ retired e = false /\
    entries h' = <[i := e']> (entries h) /\ used e' = true /\ closing e' = false /\ generation e' = generation e /\
    retired e' = false /\ hd = socket_handle (generation e) i.

Lemma opened_grown h h' hd : opened_at h h' hd -> grown h h'.
Proof.
  intros (i & e & e' & Hi & Hu & Hr & He & Hu' & _ & Hg & Hr' & _) Ht.
  destruct (store_grown h i e e' Hi) as [H1 H2]; [|done|].
  - intros [G _]. split; split; rewrite ?Hg, ?Hr'; done || congruence.
  - unfold table_ok. rewrite He. done.
Qed.

Lemma load_store_entry {A} i f (m : socket_entry_t -> M host A) h e :
  entries h !! i = Some e ->
  (store_entry i f;; x ← load_entry i; m x) h = m (f e) (h <| entries := <[i := f e]> (entries h) |>).
Proof.
  intros Hi. unfold store_entry, load_entry, mbind, M_bind. cbn. rewrite Hi. cbn.
  rewrite list_lookup_insert_eq by (by eapply lookup_lt_Some). done.
Qed.

Lemma open_pcb_entries i ty h e r h' :
  entries h !! i = Some e -> open_pcb i ty h = Ret r h' ->
  exists e', entries h' = <[i := e']> (entries h) /\ used e' = used e /\ retired e' = retired e /\ generation e' = generation e.
Proof.
  intros Hi. unfold open_pcb. destruct (_ =? _).
  - unfold zoom. destruct (udp_open _ _); [|done]. intros [= _ <-]. exists e. by rewrite list_insert_id.
  - unfold mbind, M_bind, zoom. destruct (tcp_socket_open _) as [x s'|]; [|done].
    unfold store_entry, load_entry, mbind, M_bind. cbn. rewrite Hi. cbn. intros [= _ <-]. by eexists.
Qed.

Lemma open_entries ty h r h' :
  table_ok h -> net_socket_open ty h = Ret r h' -> if r <? 0 then grown h h' else opened_at h h' r.
Proof.
  intros [Hl Hok]. unfold net_socket_open. destruct (_ && _); [by intros [= <- <-]|].
  rewrite (mbind_ret _ _ h (entries h) h) by reflexivity. destruct (free_entry 0 (entries h)) as [k|] eqn:Hk; [|intros [= <- <-]; done].
  apply free_entry_at in Hk as (i & e & -> & Hi & Hu & Hr). rewrite Nat.add_0_l.
  unfold mbind at 1, M_bind at 1. destruct (open_pcb i ty h) as [err h1|] eqn:Ho; [|done]. cbn [rbind].
  destruct (open_pcb_entries i ty h e err h1 Hi Ho) as (e1 & He1 & U1 & R1 & G1).
  assert (Hi1 : entries h1 !! i = Some e1) by (rewrite He1; apply list_lookup_insert_eq; by eapply lookup_lt_Some).
  assert (Hg1 : grown h h1).
  { intros Ht. destruct (store_grown h i e e1 Hi) as [K1 K2]; [|done|unfold table_ok; by rewrite He1].
    intros [G _]. split; split; rewrite ?G1, ?R1; done || congruence. }
  destruct (Z.ltb_spec err 0) as [Hneg|Hneg].
  - intros [= E1 E2]. subst r h'. by rewrite (proj2 (Z.ltb_lt _ _)).
  - rewrite (load_store_entry i _ _ h1 e1 Hi1). intros [= <- <-]. cbn.
    assert (Hlt : (i < NET_SOCKET_MAX)%nat) by (rewrite <- Hl; by eapply lookup_lt_Some).
    destruct (Forall_lookup_1 _ _ _ _ Hok Hi) as [G _]. rewrite G1.
    destruct (socket_decode_handle (generation e) i G Hlt) as [_ Hp]. rewrite (proj2 (Z.ltb_ge _ _)) by lia.
    exists i, e, (e1 <| used := true |> <| closing := false |> <| type := ty |>).
    split_and!; try done; [by rewrite He1, list_insert_insert_eq|exact (eq_trans R1 Hr)].
Qed.

Lemma commit_entries accept h r h' :
  table_ok h -> net_socket_accept_commit accept h = Ret r h' -> grown h h' \/ opened_at h h' r.1.
Proof.
  intros Ht. unfold net_socket_accept_commit. destruct accept as [a|]; [|intros [= <- <-]; by left].
  destruct (_ || _); [intros [= <- <-]; by left|].
  assert (Habort : forall {h1} (c : Z), grown h h1 ->
    (x ← socket_accept_abort_locked a; mret (c, Some x)) h1 = Ret r h' -> grown h h' \/ opened_at h h' r.1).
  { intros h1 c Hg Hr. left. etransitivity; [exact Hg|]. eapply (ages_bind _ _ (ages_abort_locked a)), Hr. intros. apply ages_ret. }
  unfold mbind at 1, M_bind at 1. destruct (socket_find (listener_handle a) h) as [entry h1|] eqn:Ef; [|done]. cbn [rbind].
  assert (h1 = h) as ->.
  { revert Ef. unfold socket_find. destruct (socket_decode _) as [[]|]; [|by intros [= _ <-]].
    unfold load_entry, mbind, M_bind. cbn. destruct (entries h !! _); [|done]. by intros [= _ <-]. }
  unfold mbind at 1, M_bind at 1.
  match goal with |- context [match entry with Some _ => _ | None => _ end h] => set (g := match entry with Some _ => _ | None => _ end) end.
  destruct (g h) as [good h1|] eqn:Eg; [|done]. cbn [rbind].
  assert (h1 = h) as ->.
  { revert Eg. unfold g. destruct entry; [|by intros [= _ <-]].
    unfold load_entry, mbind, M_bind. cbn. destruct (entries h !! _); [|done]. by intros [= _ <-]. }
  destruct good; cbn [negb]; [|by apply Habort].
  rewrite (mbind_ret _ _ h (entries h) h) by reflexivity. destruct (free_entry 0 (entries h)) as [k|] eqn:Hk; [|by apply Habort].
  apply free_entry_at in Hk as (i & e & -> & Hi & Hu & Hr). rewrite Nat.add_0_l.
  unfold mbind at 1, M_bind at 1, zoom. destruct (tcp_accept_commit_acquired _ _ _) as [err s'|]; [|done]. cbn [rbind].
  destruct (err <? 0); [by apply Habort|].
  rewrite (load_store_entry i _ _ (lset stack_lens s' h) e Hi). intros [= <- <-]. right. exists i, e. eexists. by split_and!.
Qed.

(** ** Histories *)

(** A call of socket.c that returns, or the rest of the stack at work. *)
Inductive socket_call (h : host) : host -> Prop :=
| call_open ty r h' : net_socket_open ty h = Ret r h' -> socket_call h h'
| call_bind hd n a port r h' : net_socket_bind hd n a port h = Ret r h' -> socket_call h h'
| call_listen hd b r h' : net_socket_listen hd b h = Ret r h' -> socket_call h h'
| call_connect hd n a port r h' : net_socket_connect_start hd n a port h = Ret r h' -> socket_call h h'
| call_send hd d n r h' : net_socket_send hd d n h = Ret r h' -> socket_call h h'
| call_sendto hd n a port d k r h' : net_socket_sendto hd n a port d k h = Ret r h' -> socket_call h h'
| call_close sl f m hd r h' : net_socket_close sl f m hd h = Ret r h' -> socket_call h h'
| call_prepare sl f m t hd a r h' : net_socket_accept_prepare sl f m t hd a h = Ret r h' -> socket_call h h'
| call_commit a r h' : net_socket_accept_commit a h = Ret r h' -> socket_call h h'
| call_abort a r h' : net_socket_accept_abort a h = Ret r h' -> socket_call h h'
| call_wait_connect sl f m hd t r h' : net_socket_wait_connect sl f m hd t h = Ret r h' -> socket_call h h'
| call_recv sl f m t hd d n w r h' : net_socket_recv sl f m t hd d n w h = Ret r h' -> socket_call h h'
| call_wait_close sl f m hd t r h' : net_socket_wait_close sl f m hd t h = Ret r h' -> socket_call h h'
| call_recvfrom sl f m hd d n w r h' : net_socket_recvfrom sl f m hd d n w h = Ret r h' -> socket_call h h'
| call_stack s : socket_call h (h <| stack := s |>).

Lemma ages_with_tcp hd m : (forall pcb, ages (m pcb)) -> ages (with_tcp hd m).
Proof. intros. unfold with_tcp. ages. Qed.
#[global] Hint Resolve ages_with_tcp : ages.
Lemma ages_abort a : ages (net_socket_accept_abort a).
Proof. unfold net_socket_accept_abort. ages. Qed.
#[global] Hint Resolve ages_abort : ages.

Lemma ages_run {A} (m : M host A) h a h' : ages m -> m h = Ret a h' -> grown h h'.
Proof. intros Hm. apply Hm. Qed.

Lemma call_grown h h' : socket_call h h' -> grown h h'.
Proof.
  assert (Hopen : forall h1 hd, (table_ok h -> grown h h1 \/ opened_at h h1 hd) -> grown h h1).
  { intros h1 hd H Ht. destruct (H Ht) as [Hg|Ho%opened_grown]; auto. }
  intros [ty r h1 H|hd n a port r h1 H|hd b r h1 H|hd n a port r h1 H|hd d n r h1 H|hd n a port d k r h1 H|sl f m hd r h1 H
    |sl f m t hd a r h1 H|a r h1 H|a r h1 H|sl f m hd t r h1 H|sl f m t hd d n w r h1 H|sl f m hd t r h1 H|sl f m hd d n w r h1 H|s].
  - apply (Hopen h1 r). intros Ht. pose proof (open_entries ty h r h1 Ht H) as Ho. destruct (r <? 0); auto.
  - eapply ages_run, H. unfold net_socket_bind. ages.
  - eapply ages_run, H. apply ages_with_tcp. intros. ages.
  - eapply ages_run, H. apply ages_with_tcp. intros. ages.
  - eapply ages_run, H. apply ages_with_tcp. intros. ages.
  - eapply ages_run, H. unfold net_socket_sendto. ages.
  - eapply ages_run, H. unfold net_socket_close. ages.
  - eapply ages_run, H. unfold net_socket_accept_prepare. ages.
  - apply (Hopen h1 r.1). intros Ht. by apply (commit_entries a h r h1).
  - by eapply ages_abort.
  - eapply ages_run, H. apply ages_with_tcp. intros. ages.
  - eapply ages_run, H. unfold net_socket_recv. ages.
  - eapply ages_run, H. unfold net_socket_wait_close. ages.
  - eapply ages_run, H. unfold net_socket_recvfrom. ages.
  - exact (grown_refl h).
Qed.

Lemma calls_grown h h' : rtc socket_call h h' -> grown h h'.
Proof. induction 1; [done|]. etransitivity; [by apply call_grown|done]. Qed.

(** ** Handles that were closed *)

(** The handle of an entry and an earlier generation of it. *)
Definition stale (hd : Z) (h : host) : Prop :=
  exists i g e, socket_decode hd = Some (i, g) /\ entries h !! i = Some e /\
    (g < generation e \/ (g <= generation e /\ retired e = true)).

Lemma stale_grown hd h h' : table_ok h -> grown h h' -> stale hd h -> stale hd h'.
Proof.
  intros Ht Hg (i & g & e & Hd & Hi & Hc). destruct (Hg Ht) as [_ Hf].
  destruct (Forall2_lookup_l _ _ _ _ _ Hf Hi) as (e' & Hi' & [A1 A2]). exists i, g, e'. split_and!; [done..|].
  destruct Hc as [?|[? ?]]; [left; lia|right; split; [lia|auto]].
Qed.

Lemma stale_not_found hd h : table_ok h -> stale hd h -> socket_find_used hd h = Ret None h.
Proof.
  intros [_ Hok] (i & g & e & Hd & Hi & Hc). unfold socket_find_used. rewrite Hd. unfold load_entry, mbind, M_bind. cbn. rewrite Hi. cbn.
  destruct (Forall_lookup_1 _ _ _ _ Hok Hi) as [G R]. destruct Hc as [Hc|[_ Hc]].
  - rewrite (proj2 (Z.eqb_neq _ _)), andb_false_r by lia. done.
  - by rewrite (R Hc).
Qed.

Lemma find_used_at hd h i h1 :
  socket_find_used hd h = Ret (Some i) h1 ->
  h1 = h /\ exists g e, socket_decode hd = Some (i, g) /\ entries h !! i = Some e /\ used e = true /\ generation e = g.
Proof.
  unfold socket_find_used. destruct (socket_decode hd) as [[j g]|]; [|by intros [= <-]].
  unfold load_entry, mbind, M_bind. cbn. destruct (entries h !! j) as [e|] eqn:E; [|done]. cbn.
  destruct (used e) eqn:Hu; cbn [andb]; [|by intros [= <-]]. destruct (Z.eqb_spec (generation e) g); [|by intros [= <-]].
  intros [= <- <-]. split; [done|]. by exists g, e.
Qed.

Lemma bind_inv {A C} (m : M host A) (f : A -> M host C) h c h' :
  (m ≫= f) h = Ret c h' -> exists a h1, m h = Ret a h1 /\ f a h1 = Ret c h'.
Proof. unfold mbind, M_bind. destruct (m h) as [a h1|]; [|done]. intros H. by exists a, h1. Qed.

Lemma load_entry_inv i h e h1 : load_entry i h = Ret e h1 -> h1 = h /\ entries h !! i = Some e.
Proof. unfold load_entry, mbind, M_bind. cbn. destruct (entries h !! i); [|done]. by intros [= <- <-]. Qed.

Lemma grown_entry h h' i e : table_ok h -> grown h h' -> entries h !! i = Some e -> exists e', entries h' !! i = Some e' /\ aged e e'.
Proof. intros Ht Hg Hi. destruct (Hg Ht) as [_ Hf]. destruct (Forall2_lookup_l _ _ _ _ _ Hf Hi) as (e' & H1 & H2). eauto. Qed.

Section closing.
Context (hd : Z) (h : host) (i : nat) (g : Z) (e : socket_entry_t).
Context (Ht : table_ok h) (Hd : socket_decode hd = Some (i, g)) (Hi : entries h !! i = Some e) (Hg : generation e = g).

(** The only way to report success. *)
Lemma invalidate_stale h1 h2 : grown h h1 -> socket_invalidate i h1 = Ret () h2 -> stale hd h2.
Proof using All.
  intros Hgr. destruct (grown_entry h h1 i e Ht Hgr Hi) as (e1 & Hi1 & [A1 _]). destruct (Hgr Ht) as [[_ Hok] _].
  destruct (Forall_lookup_1 _ _ _ _ Hok Hi1) as [G _].
  unfold socket_invalidate, store_entry, load_entry, mbind, M_bind. cbn. rewrite Hi1. intros [= <-].
  exists i, g, (invalidated e1). cbn [entries upd_field]. rewrite list_lookup_insert_eq by (by eapply lookup_lt_Some).
  split_and!; [done..|]. clear - A1 G Hg. destruct e1 as [a gen ? ? ? ty]. unfold invalidated. cbn in *. destruct (ty =? _); cbn.
  all: destruct (Z.eqb_spec gen 0x7fffff); cbn; [right; split; [lia|done]|left].
  all: unfold u32; rewrite Z.mod_small by lia; lia.
Qed.

Lemma close_tcp_stale h2 : socket_close_tcp i h = Ret NET_ERR_OK h2 -> stale hd h2.
Proof using All.
  unfold socket_close_tcp. intros (e0 & h1 & [-> He0]%load_entry_inv & H)%bind_inv. destruct (negb _).
  - apply bind_inv in H as (? & h3 & _ & H). apply bind_inv in H as (err & h4 & _ & H). apply bind_inv in H as (? & h5 & _ & H).
    destruct (Z.ltb_spec err 0); [|done]. injection H as -> _. done.
  - apply bind_inv in H as (err & h3 & H3 & H). destruct (Z.ltb_spec err 0); [injection H as -> _; done|].
    apply bind_inv in H as (err2 & h4 & H4 & H). destruct (Z.eqb_spec err2 NET_ERR_STATE); [done|].
    destruct (Z.ltb_spec err2 0); [injection H as -> _; done|]. apply bind_inv in H as ([] & h5 & H5 & [= ->]).
    eapply (invalidate_stale h4); [|done]. etransitivity; [eapply ages_run, H3; ages|eapply ages_run, H4; ages].
Qed.
End closing.

Lemma close_stale sl f m hd h h' :
  table_ok h -> net_socket_close sl f m hd h = Ret NET_ERR_OK h' -> stale hd h'.
Proof.
  intros Ht. unfold net_socket_close. intros (entry & h1 & H1 & H)%bind_inv. destruct entry as [i|]; [|done].
  apply find_used_at in H1 as (-> & g & e & Hd & Hi & Hu & Hg). apply bind_inv in H as (e0 & h2 & [-> He0]%load_entry_inv & H).
  destruct (_ =? _); [exact (close_tcp_stale hd h i g e Ht Hd Hi Hg h' H)|]. destruct (closing e0); [done|].
  apply bind_inv in H as ([] & h2 & H2 & H). apply bind_inv in H as (err & h3 & H3 & H). destruct (Z.ltb_spec err 0).
  - apply bind_inv in H as (? & h4 & _ & [= -> _]). done.
  - apply bind_inv in H as ([] & h4 & H4 & [= ->]). eapply (invalidate_stale hd h i g e Ht Hd Hi Hg h3); [|done].
    etransitivity; [eapply ages_run, H2; ages|eapply ages_run, H3; ages].
Qed.
