(* ===== verification/Worker.v ===== *)
(** * The worker task and the start of the stack (net/net_stack.c)

    [net_stack_init] calls the initialisation of every part in turn and opens
    the two interfaces.  The body of [net_stack_worker] is a machine: a step of
    it is one turn of one of its inner loops or the code between two of them.
    What comes from outside is an argument of the step: the request that
    [net_exec_run_once] takes from the queue, the clock, and what the device
    answers.  The probes under [QS_M5_TEST] and [QS_M6A_TEST] are left out. *)

From S2P Require Import Prelude IpAddr Timer Mblock Pktbuf Sys Fixq TcpState Net Netif Ether Arp NetifLink Ipv4 Icmp Udp Tcp.
From S2P Require Import NetStack Socket.

(** ** The timers *)

(** [timer->proc(timer, timer->arg)]: the four functions whose addresses are
    stored in timers. *)
Definition net_timer_proc (proc_ : Z) (timer : nat) (arg_ : Z) : M net unit :=
  if proc_ =? arp_cache_tmo_proc then arp_cache_tmo
  else if proc_ =? tcp_timer_proc_addr then tcp_timer_proc (Z.to_nat arg_)
  else if proc_ =? tcp_time_wait_proc_addr then tcp_time_wait_proc (Z.to_nat arg_)
  else if proc_ =? tcp_release_proc_addr then tcp_release_proc timer (Z.to_nat arg_)
  else stuck.

Definition stack_check_tmo (diff_ms : Z) : M net Z := net_timer_check_tmo timer_lens net_timer_proc diff_ms.

(** ** net_exec.c *)

Definition NET_EXEC_QUEUE_SIZE : nat := 8.
Definition request_ref : qref host nat :=
  QRef (fun h => Some (request_queue h)) (fun q h => h <| request_queue := q |>).
Definition host_sys_lens : lens host sys_state :=
  Lens (fun h => sys (stack h)) (fun y h => h <| stack := (stack h) <| sys := y |> |>).

Fixpoint exec_init_loop (slots : list nat) : M host Z :=
  match slots with
  | [] => modify (fun h => h <| exec_initialized := true |>);; mret NET_ERR_OK
  | i :: slots =>
      sem ← zoom host_sys_lens (sys_sem_create 0);
      modify (fun h => h <| request_done := <[i := sem]> (request_done h) |>);;
      match sem with None => mret NET_ERR_MEM | Some _ => exec_init_loop slots end
  end.

Definition net_exec_init : M host Z :=
  done ← gets exec_initialized;
  if done : bool then mret NET_ERR_EXIST
  else
    err ← fixq_init host_sys_lens request_ref (Some (replicate NET_EXEC_QUEUE_SIZE None)) (Z.of_nat NET_EXEC_QUEUE_SIZE);
    if err <? 0 then mret err else exec_init_loop (seq 0 NET_EXEC_QUEUE_SIZE).

(** ** net_stack_init *)

(** [err = f(); if (err < 0) return err;] for a list of calls, and then [m]. *)
Fixpoint init_all (l : list (M host Z)) (m : M host Z) : M host Z :=
  match l with
  | [] => m
  | f :: l => err ← f; if err <? 0 then mret err else init_all l m
  end.

(** "eth0", "192.168.100.2" and "255.255.255.0" *)
Definition eth0_name : bytes := [101; 116; 104; 48].
Definition eth0_ip : bytes := [49; 57; 50; 46; 49; 54; 56; 46; 49; 48; 48; 46; 50].
Definition eth0_mask : bytes := [50; 53; 53; 46; 50; 53; 53; 46; 50; 53; 53; 46; 48].

Definition open_eth0 : M host Z :=
  netif ← call (netif_open (Some eth0_name) (Some netif_virtio_ops));
  match netif with
  | None => mret NET_ERR_IO
  | Some n =>
      let '(e1, ip) := ipaddr_from_str (Some 0) (Some eth0_ip) in
      let '(e2, mask) := if e1 =? NET_ERR_OK then ipaddr_from_str (Some 0) (Some eth0_mask) else (e1, Some 0) in
      ok ← (if negb (e2 =? NET_ERR_OK) then mret false
            else
              e3 ← call (netif_set_addr netif ip mask None);
              if negb (e3 =? NET_ERR_OK) then mret false
              else e4 ← call (netif_set_active netif); mret (e4 =? NET_ERR_OK));
      if negb ok then call (netif_close netif);; mret NET_ERR_IO
      else
        call (netif_set_default netif);;
        modify (fun h => h <| stack_netif := netif |> <| stack_initialized := true |>);;
        mret NET_ERR_OK
  end.

Definition net_stack_init : M host Z :=
  done ← gets stack_initialized;
  if done : bool then mret NET_ERR_STATE
  else
    init_all [zoom host_sys_lens net_sys_init; net_exec_init; call (pk pktbuf_init); call (zoom timer_lens net_timer_init);
      call netif_init; call ether_init; call arp_init; call ipv4_init; call tcp_init; call icmpv4_init; call udp_init;
      net_socket_init; call loop_init] open_eth0.

Definition net_stack_default : M host (option nat) := gets stack_netif.

(** ** The requests of the system calls (syscall.c) *)

Definition SOCKET_EXEC_OPEN : Z := 0.
Definition SOCKET_EXEC_BIND : Z := 1.
Definition SOCKET_EXEC_LISTEN : Z := 2.
Definition SOCKET_EXEC_CONNECT : Z := 3.
Definition SOCKET_EXEC_SEND : Z := 4.
Definition SOCKET_EXEC_SENDTO : Z := 5.
Definition SOCKET_EXEC_CLOSE : Z := 6.

Record socket_exec_t := SocketExec {
  op : Z; handle : Z; req_type : Z; req_port : Z; data : option bytes; req_length : Z; address : Z; result : Z }.

(** The new value of [request->result]; [sl], [fuel] and [mtime] are for
    [udp_close], which waits for a task that is in [udp_recvfrom]. *)
Definition socket_exec (sl : nat -> Z -> M net Z) (fuel : nat) (mtime : Z) (r : socket_exec_t) : M host Z :=
  if op r =? SOCKET_EXEC_OPEN then net_socket_open (req_type r)
  else if op r =? SOCKET_EXEC_BIND then
    n ← net_stack_default; net_socket_bind (handle r) n (Some (address r)) (req_port r)
  else if op r =? SOCKET_EXEC_LISTEN then net_socket_listen (handle r) (req_length r)
  else if op r =? SOCKET_EXEC_CONNECT then
    n ← net_stack_default; net_socket_connect_start (handle r) n (Some (address r)) (req_port r)
  else if op r =? SOCKET_EXEC_SEND then net_socket_send (handle r) (data r) (req_length r)
  else if op r =? SOCKET_EXEC_SENDTO then
    n ← net_stack_default;
    net_socket_sendto (handle r) n (Some (address r)) (req_port r) (data r) (req_length r)
  else if op r =? SOCKET_EXEC_CLOSE then net_socket_close sl fuel mtime (handle r)
  else mret (result r).

(** ** net_stack_worker *)

Definition NET_STACK_RX_WAIT_MS : Z := 5000.

(** Where the worker is: in the loop over [net_exec_run_once], before the first
    [net_timer_check_tmo], in the loop over the loopback interface, before the
    second [net_timer_check_tmo], and in [net_stack_poll_once] with the ticks it
    may wait. *)
Inductive worker_pc := AtExec | AtTimers | AtLoop | AtTimersAgain | AtPoll (wait_ticks : Z).
Record worker := Worker { pc : worker_pc; w_netif : option nat; timer_time : Z }.
#[global] Instance worker_settable : Settable worker := fun r => Worker (pc r) (w_netif r) (timer_time r).

(** What is outside of the stack at a step: the oldest request in the queue, the
    register [mtime], and the answer of [virtio_net_receive]. *)
Record outside_t := Outside { next_request : option socket_exec_t; mtime : Z; rx_frame : option bytes }.

(** [netif = arg, or stack_netif]; [sys_time_curr(&timer_time)] *)
Definition worker_start (arg : option nat) (now : Z) : M host worker :=
  d ← net_stack_default;
  mret (Worker AtExec (match arg with Some n => Some n | None => d end) (sys_time_curr now)).

Definition wait_ticks (timer_ms : Z) : Z :=
  let ticks := u64 (NET_STACK_RX_WAIT_MS * NET_TIME_TICKS_PER_MS) in
  if (0 <? timer_ms) && (u64 (timer_ms * NET_TIME_TICKS_PER_MS) <? ticks) then u64 (timer_ms * NET_TIME_TICKS_PER_MS) else ticks.

Definition worker_step (e : outside_t) (w : worker) : M host worker :=
  match pc w with
  | AtExec =>
      match next_request e with
      | Some r => socket_exec no_sleep 0 (mtime e) r;; mret w
      | None => mret (w <| pc := AtTimers |>)
      end
  | AtTimers =>
      let '(ms, now) := sys_time_goes (mtime e) (timer_time w) in
      call (stack_check_tmo ms);;
      mret (w <| pc := AtLoop |> <| timer_time := now |>)
  | AtLoop =>
      loop ← call loop_get_netif;
      err ← call (net_stack_process_input tcp_in loop);
      mret (if (err =? NET_ERR_NONE) || (err <? 0) then w <| pc := AtTimersAgain |> else w)
  | AtTimersAgain =>
      let '(ms, now) := sys_time_goes (mtime e) (timer_time w) in
      call (stack_check_tmo ms);;
      timer_ms ← call (zoom timer_lens net_timer_first_tmo);
      mret (w <| pc := AtPoll (wait_ticks timer_ms) |> <| timer_time := now |>)
  | AtPoll _ =>
      call (modify (fun s => s <| rx_results := [rx_frame e] |>));;
      r ← call (net_stack_poll_once tcp_in (w_netif w));
      mret (w <| pc := if r =? NET_ERR_OK then AtPoll 0 else AtExec |>)
  end.

(** ** The worker among the other tasks

    A turn of the worker, or a call of another task that does not wait: a
    datagram is received if there is one, an accepted connection becomes a
    socket or is given back. *)
Inductive activity :=
| Turn (e : outside_t)
| Recvfrom (handle_ size : Z)
| AcceptCommit (a : option net_socket_accept_t)
| AcceptAbort (a : option net_socket_accept_t).

Definition act (a : activity) (w : worker) : M host worker :=
  match a with
  | Turn e => worker_step e w
  | Recvfrom hd n => net_socket_recvfrom no_sleep 0 0 hd true n (-1);; mret w
  | AcceptCommit a => net_socket_accept_commit a;; mret w
  | AcceptAbort a => net_socket_accept_abort a;; mret w
  end.

Fixpoint run (l : list activity) (w : worker) : M host worker :=
  match l with [] => mret w | a :: l => w ← act a w; run l w end.
