(* ===== verification/OwnerTimer.v ===== *)
(** * A tick of the timers under the invariants of the stack

    [net_timer_check_tmo] with the callbacks of the ARP cache and of TCP: it
    returns, whatever its callbacks arm and remove, and the invariants hold
    again afterwards.  A round of its loop moves the timers with the first
    deadline to the waiting list, so that time advances by at least one
    millisecond per round. *)

From S2P Require Import Prelude Tools IpAddr Nlist Timer Mblock Pktbuf PktbufSpec PktbufChain.
From S2P Require Import PktbufOps PktbufFrame Sys Fixq TcpState Net Netif Ether Arp NetifLink Ipv4 Udp Tcp Worker.
From S2P Require Import TcpInv TcpQueue Owner OwnerPkt OwnerQueue OwnerOut OwnerArp OwnerResolve OwnerIp OwnerIcmp.
From S2P Require Import OwnerTcp OwnerSegment OwnerRelease OwnerTcpIn OwnerTcpSeg OwnerTcpOpen OwnerTcpInput OwnerTcpApi.
From S2P Require Import OwnerTcpTimer.
Import Pcb.

#[local] Hint Resolve list_subseteq_nil : core.

(** The invariants while the callbacks of [P] are waiting. *)
Record world (o : list nat) (P : list (list nat)) (E : list nat) (s : net) : Prop := {
  world_core : core o s;
  world_arp : arp_ok [] s;
  world_tcp : tcp_inv_at P E s }.

Section tick.
Context {o : list nat}.

Lemma world_start {P E s} : world o P E s -> tinv [] o P E s s (tcp s) (armed (timers s)).
Proof. intros []. by apply tinv_begin. Qed.
Lemma world_finish {P E s0 s t T} : tinv [] o P E s0 s t T -> world o P E s /\ tended [] s0 s.
Proof. intros (H1 & H2 & H3 & H4)%tinv_finish. split; [by split|done]. Qed.

(** Only the timers change. *)
Lemma world_timers {P P' E E' s} m' :
  world o P E s -> timers_good m' -> pending_timers m' = P' -> timers_ok E' (concat P') (tcp s) (armed m') ->
  world o P' E' (s <| timers := m' |>) /\ tended [] s (s <| timers := m' |>).
Proof.
  intros [Hc Ha [H1 H2 H3 H4]] Hg Hp Ht. split; [split|].
  - by destruct Hc.
  - by destruct Ha.
  - by split.
  - split; [by destruct s|done].
Qed.

(** ** Taking the first timer that is due *)

Lemma world_pop {w s} k :
  world o [k :: w] [] s ->
  exists s', zoom timer_lens wait_list_remove_first s = Ret (Some k) s' /\ world o [w] [k] s' /\ tended [] s s' /\
    armed (timers s') k = false /\ k ∉ concat [w] /\ (exists tm, fields (timers s') k = Some tm /\ kind k tm) /\
    forall p x, k = release_timer p -> pcb_at (tcp s') p = Some x -> leaving x.
Proof.
  intros Hw. pose proof Hw as [Hc Ha [H1 [G1 G2 G3 G4 G5 G6] H3 H4]].
  set (m' := (timers s) <| pending_timers := [w] |>).
  assert (Esch : scheduled (timers s) ≡ₚ k :: scheduled m').
  { unfold scheduled, m'. rewrite H3. cbn. rewrite !app_nil_r. by rewrite Permutation_middle. }
  rewrite Esch in G4. apply NoDup_cons in G4 as [Hk G4].
  exists (s <| timers := m' |>). split.
  { refine (zoom_ret timer_lens _ s _ m' _). unfold wait_list_remove_first. mstep. cbn [lget timer_lens]. rewrite H3. done. }
  assert (Hg : timers_good m').
  { split; try done. intros j Hj. apply G5. rewrite Esch. by right. }
  assert (Hkin : k ∈ concat [k :: w]) by set_solver.
  destruct (world_timers (P' := [w]) (E' := [k]) m' Hw Hg eq_refl) as [Hw' Hf].
  { intros p x Hp. destruct (H4 p x Hp) as (K1 & K2 & K3 & K4).
    assert (Ht : forall j b, tick [] (concat [k :: w]) (armed (timers s)) j b -> tick [k] (concat [w]) (armed m') j b).
    { intros j b Hj Hn. destruct Hj as [J1 J2]; [set_solver|]. split; [done|]. intros Hb. destruct (J2 Hb) as [?|Hin]; [by left|].
      right. set_solver. }
    split_and!; [by apply Ht..|]. intros Hin. apply K4. set_solver. }
  unfold scheduled in Hk. rewrite not_elem_of_app in Hk. destruct Hk as [Hk1 Hk2].
  split_and!; [done|done| |done|apply G5; rewrite Esch; by left|].
  - apply not_true_iff_false. by rewrite armed_iff.
  - intros p x -> Hp. by apply (H4 p x Hp).
Qed.

(** ** A timer that runs again *)

Lemma rearm_ok {P s} k tm :
  world o P [k] s -> armed (timers s) k = false -> k ∉ concat P -> fields (timers s) k = Some tm -> kind k tm ->
  flags tm = NET_TIMER_RELOAD -> (forall p x, k = release_timer p -> pcb_at (tcp s) p = Some x -> release_pending x = true) ->
  wp (fun _ s' => world o P [] s' /\ tended [] s s')
     (zoom timer_lens (store_timer k (fun tm => tm <| curr := reload tm |>);; insert_timer k) s).
Proof.
  intros Hw HT HP Hf Hk Hfl Hrel. pose proof Hw as [Hc Ha [H1 Hg H3 H4]]. pose proof Hg as [G1 G2 G3 G4 G5 G6].
  pose proof Hf as [c Htm]%static_lookup.
  assert (Hu : k ∉ scheduled (timers s)).
  { unfold scheduled. rewrite not_elem_of_app, <- armed_iff, HT, H3. done. }
  assert (Hrl : 0 < reload tm <= INT_MAX).
  { destruct Hk as [p tm ? ? ? Hz|p tm ? ? ? Hz|p tm ? ? ? ? ->|tm ? ? ->]; try (by rewrite Hfl in Hz); done. }
  destruct (rearm_spec (timers s) k tm c G1 (proj2 (unscheduled_iff _ _) Hu) Hrl Htm) as (m' & Hr & Hwf & Hp & Hs & Hd).
  eapply wp_run; [apply zoom_ret; exact Hr|].
  assert (El : timer_list m' ≡ₚ k :: timer_list (timers s)).
  { rewrite <- (fst_deadlines m'), Hd. cbn. by rewrite fst_deadlines. }
  assert (Es : scheduled m' ≡ₚ k :: scheduled (timers s)) by (unfold scheduled; by rewrite El, Hp).
  assert (Har : forall j, armed m' j = run_timer k true (armed (timers s)) j).
  { intros j. apply bool_eq. rewrite armed_iff, El, elem_of_cons. unfold run_timer.
    case_decide; [naive_solver|]. rewrite armed_iff. naive_solver. }
  apply (world_timers (P' := P) (E' := []) m' Hw); [split; rewrite ?Hs; try done|congruence|].
  - rewrite Hd. constructor; [lia|done].
  - rewrite Es. by constructor.
  - intros j. rewrite Es, elem_of_cons. intros [->|Hj]; [eauto|by apply G5].
  - eapply timers_ok_ext; [|exact Har]. destruct (decide (k = cache_timer)) as [->|Hne].
    + assert (Hn : forall p j, timer_of p j -> j <> cache_timer).
      { intros p j. unfold timer_of, cache_timer, retrans_timer, time_wait_timer, release_timer. lia. }
      intros p x Hp'. destruct (H4 p x Hp') as (K1 & K2 & K3 & K4).
      split_and!; [(eapply tick_ext; [eapply tick_drop; [eassumption|apply (Hn p); unfold timer_of; tauto]
        |apply run_timer_ne, (Hn p); unfold timer_of; tauto|done])..|done].
    + assert (exists p, (p < TCP_PCB_MAX)%nat /\ k = release_timer p) as (p & Hr' & ->).
      { destruct Hk as [p tm ? ? ? Hz|p tm ? ? ? Hz|p tm|tm]; try (by rewrite Hfl in Hz); [by exists p|done]. }
      destruct (tcp_pcb_in H1 p Hr') as [x Hx]. destruct (timer_apart p) as (N1 & N2 & N3).
      eapply (due_timers (s0 := s) p x); [done|done|unfold timer_of; tauto|done|congruence|congruence|].
      intros _. symmetry. by eapply Hrel.
Qed.

(** ** The callbacks *)

(** A timer is back in step and does not run again, or it is to run again. *)
Definition called (w : list nat) (k : nat) (s s' : net) : Prop :=
  tended [] s s' /\
  ((world o [w] [] s' /\ stopped (timers s') k) \/
   (world o [w] [k] s' /\ armed (timers s') k = false /\
    (exists tm, fields (timers s') k = Some tm /\ kind k tm /\ flags tm = NET_TIMER_RELOAD) /\
    forall p x, k = release_timer p -> pcb_at (tcp s') p = Some x -> release_pending x = true)).

Lemma called_shot {w k s s' t T} : one_shot k -> is_tcp_timer k -> tinv [] o [w] [] s s' t T -> called w k s s'.
Proof.
  intros H1 H2 [Hw Hf]%world_finish. split; [done|]. left. split; [done|].
  destruct Hw as [_ _ [_ Hg _ _]]. destruct (good_known _ Hg k H2) as [tm Htm]. exists tm. split; [done|].
  by eapply (good_shot _ Hg).
Qed.

Lemma kind_reloads k tm : kind k tm -> ~ one_shot k -> flags tm = NET_TIMER_RELOAD.
Proof. intros [p ? Hr|p ? Hr|p ? Hr|?] Hn; [destruct Hn; exists p; tauto..|done|done]. Qed.

Lemma callback_ok {w s} k tm :
  world o [w] [k] s -> armed (timers s) k = false -> k ∉ concat [w] -> fields (timers s) k = Some tm -> kind k tm ->
  (forall p x, k = release_timer p -> pcb_at (tcp s) p = Some x -> leaving x) ->
  wp (fun _ s' => called w k s s') (net_timer_proc (proc tm) k (arg tm) s).
Proof.
  intros Hw HT HP Hf Hk Hlv. pose proof (world_start Hw) as Hi. unfold net_timer_proc.
  destruct Hk as [p tm Hr -> -> Hz|p tm Hr -> -> Hz|p tm Hr Hpr Hag Hz Hre|tm Hpr Hz Hre].
  - change (wp (fun _ s' => called w (retrans_timer p) s s') (tcp_timer_proc (Z.to_nat (Z.of_nat p)) s)).
    unfold tcp_timer_proc. rewrite Nat2Z.id. eapply wp_step; [by apply (retransmit_due_ok p Hi)|].
    intros ? s' (t' & T' & Hi'). eapply called_shot, Hi'; [exists p; tauto|by apply retrans_tcp].
  - change (wp (fun _ s' => called w (time_wait_timer p) s s') (tcp_time_wait_proc (Z.to_nat (Z.of_nat p)) s)).
    rewrite Nat2Z.id. eapply wp_mono; [|by apply (time_wait_proc_ok p Hi)].
    intros ? s' (t' & T' & Hi'). eapply called_shot, Hi'; [exists p; tauto|by apply time_wait_tcp].
  - rewrite Hpr, Hag. change (wp (fun _ s' => called w (release_timer p) s s') (tcp_release_proc (release_timer p) (Z.to_nat (Z.of_nat p)) s)).
    rewrite Nat2Z.id in *. destruct (tcp_pcb_in (in_ok _ _ _ _ _ _ _ _ Hi) p Hr) as [x Hx].
    eapply wp_mono; [|eapply (release_proc_ok p HP Hr x Hi HT Hx); by eapply Hlv].
    intros ? s' [(t' & T' & x' & Hi' & HT' & Hx' & Hrp)|(C1 & C2 & C3 & C4 & C5)].
    2: { split; [done|]. left. by split. }
    pose proof (world_finish Hi') as [Hw' Hf']. destruct Hi' as [[_ _ _ Et [Hg Hre'] Har _] _ _]. split; [done|]. right.
    split_and!; [done|by rewrite Har| |].
    + destruct (Hre' (release_timer p) tm) as (tm' & Htm' & Hk'); [by apply release_not_shot|done|by apply KindRelease|].
      exists tm'. split_and!; [done|done|]. by apply (kind_reloads (release_timer p)); [|apply release_not_shot].
    + intros q y E Hy. assert (q = p) as -> by (unfold release_timer in E; lia). congruence.
  - rewrite Hpr. change (wp (fun _ s' => called w cache_timer s s') (arp_cache_tmo s)). pose proof Hw as [Hc Ha Ht].
    eapply wp_mono; [|by apply arp_cache_tmo_ok]. intros ? s' (Hc' & Ha' & Hfar). cbn beta.
    destruct (far_tcp _ _ _ Hfar) as [Et Em]. pose proof (far_tended _ _ _ Hfar) as Hte. split; [done|]. right.
    split_and!; [|by rewrite Em|rewrite Em; exists tm; split_and!; [done|by apply KindArp|done]|].
    + split; [done|done|]. destruct Ht as [H1 H2 H3 H4]. split; rewrite ?Et, ?Em; [|done..].
      by rewrite (tended_dom _ _ _ Hte).
    + intros p x E. unfold cache_timer, release_timer in E. lia.
Qed.

(** ** The timers that are due *)

Lemma callback_done {w s s'} k tm :
  called w k s s' -> k ∉ concat [w] -> Timer.timers (timers s') !! k = Some tm ->
  wp (fun _ s'' => world o [w] [] s'' /\ tended [] s s'')
     ((b ← zoom timer_lens (timer_is_scheduled k);
       when (negb (Z.land (flags tm) NET_TIMER_RELOAD =? 0) && negb b)
         (zoom timer_lens (store_timer k (fun tm => tm <| curr := reload tm |>);; insert_timer k))) s').
Proof.
  intros [Hte Hcase] HP Htm. destruct (timer_is_scheduled_spec k (timers s')) as (b & Hb & Hiff).
  eapply wp_eq; [refine (zoom_ret timer_lens _ s' _ _ Hb)|]. cbn [lset timer_lens]. replace (s' <| timers := timers s' |>) with s' by (by destruct s').
  assert (Est : fields (timers s') k = Some (tm <| curr := 0 |>)) by (unfold static_part; by rewrite lookup_fmap, Htm).
  destruct Hcase as [[Hw (st & Hst & Hfl)]|(Hw & HT & (st & Hst & Hk & Hfl) & Hrel)];
    rewrite Est in Hst; injection Hst as <-; assert (flags tm = _) as -> by exact Hfl.
  - by split.
  - assert (b = false) as ->.
    { apply Hiff, unscheduled_iff. unfold scheduled. rewrite not_elem_of_app, <- armed_iff, HT.
      destruct Hw as [_ _ [_ _ -> _]]. done. }
    cbn [Z.land negb andb NET_TIMER_RELOAD when]. eapply wp_mono; [|by apply (rearm_ok k _ Hw HT HP Est)].
    intros ? s2 [Hw2 Hf2]. split; [done|by transitivity s'].
Qed.

Lemma fire_due_ok w {s} fuel :
  world o [w] [] s -> (length w <= fuel)%nat ->
  wp (fun _ s' => world o [[]] [] s' /\ tended [] s s') (fire_due timer_lens net_timer_proc fuel s).
Proof.
  revert s fuel. induction w as [|k w IH]; intros s fuel Hw Hf.
  - assert (Hr : zoom timer_lens wait_list_remove_first s = Ret None s).
    { destruct Hw as [_ _ [_ _ Hp _]]. unfold zoom, wait_list_remove_first, mbind, M_bind, gets. cbn [lget timer_lens].
      rewrite Hp. by destruct s. }
    destruct fuel; cbn [fire_due]; (eapply wp_eq; [exact Hr|]); by split.
  - destruct fuel as [|fuel]; [cbn in Hf; lia|]. cbn [fire_due].
    destruct (world_pop k Hw) as (s1 & Hr & Hw1 & Hf1 & HT & HP & (tm & Htm & Hk) & Hlv). eapply wp_eq; [exact Hr|].
    pose proof Htm as [c Hc]%static_lookup.
    eapply wp_eq; [refine (zoom_ret timer_lens _ s1 _ _ (load_timer_ret _ _ _ Hc))|]. cbn [lset timer_lens].
    replace (s1 <| timers := timers s1 |>) with s1 by (by destruct s1). change (proc (tm <| curr := c |>)) with (proc tm).
    change (arg (tm <| curr := c |>)) with (arg tm).
    eapply wp_step; [by apply (callback_ok k tm Hw1)|]. intros ? s2 Hcl.
    assert (exists tm2, Timer.timers (timers s2) !! k = Some tm2) as [tm2 Htm2].
    { destruct Hcl as [_ [[_ (st & Hst & _)]|(_ & _ & (st & Hst & _) & _)]]; apply static_lookup in Hst as [? ?]; eauto. }
    eapply wp_eq; [refine (zoom_ret timer_lens _ s2 _ _ (load_timer_ret _ _ _ Htm2))|]. cbn [lset timer_lens].
    replace (s2 <| timers := timers s2 |>) with s2 by (by destruct s2).
    eapply wp_assoc, wp_step; [by apply (callback_done k tm2 Hcl)|]. intros ? s3 [Hw3 Hf3].
    eapply wp_mono; [|apply (IH s3 fuel Hw3); cbn in Hf; lia]. intros ? s4 [Hw4 Hf4]. split; [done|].
    by transitivity s1; [|transitivity s3].
Qed.

(** ** The passing of time *)

Lemma set_timers_id s : s <| timers := timers s |> = s.
Proof. by destruct s. Qed.

Lemma deadlines_late m c : Forall (fun '(_, d) => 1 <= d) (filter (fun p => 0 < p.2) (shift c (deadlines m))).
Proof. apply Forall_forall. intros [k d] [H _]%list_elem_of_filter. cbn in H. lia. Qed.

(** The timers that are first are due. *)
Lemma collect_ok {s} k l tm :
  world o [[]] [] s -> timer_list (timers s) = k :: l -> Timer.timers (timers s) !! k = Some tm -> 0 <= curr tm ->
  exists s' w, (zoom timer_lens (store_timer k (fun tm => tm <| curr := 0 |>));; zoom timer_lens (collect_due (length (k :: l)))) s = Ret () s' /\
    world o [w] [] s' /\ tended [] s s' /\ pending_timers (timers s') = [w].
Proof.
  intros Hw Hl Htm Hc. pose proof Hw as [_ _ [H1 [G1 G2 G3 G4 G5 G6] H3 H4]].
  destruct (advance_spec (timers s) k l tm (curr tm)) as (Hwf1 & Hd1 & Hs1); [done..|lia|].
  rewrite Z.sub_diag in Hwf1, Hd1, Hs1. set (m1 := (timers s) <| Timer.timers := _ |>) in *.
  destruct (collect_spec m1 k l) as (m2 & w & Hr2 & Hwf2 & Hp2 & Hs2 & Hw2 & _ & Hd2); [done..|].
  assert (Hsch : scheduled m2 ≡ₚ scheduled (timers s)).
  { unfold scheduled. rewrite H3, Hp2. cbn. rewrite !app_nil_r, Permutation_app_comm, Hw2. done. }
  exists (s <| timers := m2 |>), w. rewrite Hs1 in Hs2.
  destruct (world_timers (P' := [w]) (E' := []) m2 Hw) as [Hw' Hf].
  - split; rewrite ?Hs2; try done.
    + rewrite Hd2, Hd1. apply deadlines_late.
    + by rewrite Hsch.
    + intros j. rewrite Hsch. apply G5.
  - done.
  - assert (Hin : forall j, armed (timers s) j = true <-> armed m2 j = true \/ j ∈ concat [w]).
    { intros j. rewrite !armed_iff. cbn. rewrite app_nil_r. change (timer_list (timers s)) with (timer_list m1).
      rewrite <- Hw2, elem_of_app. tauto. }
    intros p x Hp. destruct (H4 p x Hp) as (K1 & K2 & K3 & K4).
    assert (Ht : forall j b, tick [] (concat [[]]) (armed (timers s)) j b -> tick [] (concat [w]) (armed m2) j b).
    { intros j b Hj Hn. destruct (Hj Hn) as [J1 J2]. rewrite Hin in J1, J2. split; [tauto|]. intros Hb.
      destruct (J2 Hb) as [?|Hno]; [done|by apply not_elem_of_nil in Hno]. }
    split_and!; [by apply Ht..|]. intros Hr. left. apply K3; [apply not_elem_of_nil|]. apply Hin. by right.
  - split_and!; [|done..]. erewrite mbind_ret by (apply (zoom_ret timer_lens _ s _ m1); by apply (store_timer_ret _ _ _ tm)).
    exact (zoom_ret timer_lens _ (s <| timers := m1 |>) _ m2 Hr2).
Qed.

(** Less time passes than is left until the first deadline. *)
Lemma advance_ok {s} k l tm r :
  world o [[]] [] s -> timer_list (timers s) = k :: l -> Timer.timers (timers s) !! k = Some tm -> 0 <= r < curr tm ->
  wp (fun _ s' => world o [[]] [] s' /\ tended [] s s') (zoom timer_lens (store_timer k (fun tm => tm <| curr := curr tm - r |>)) s).
Proof.
  intros Hw Hl Htm Hr. pose proof Hw as [_ _ [H1 [G1 G2 G3 G4 G5 G6] H3 H4]].
  destruct (advance_spec (timers s) k l tm r) as (Hwf1 & Hd1 & Hs1); [done..|lia|].
  eapply wp_run; [refine (zoom_ret timer_lens _ s _ _ _); by apply (store_timer_ret _ _ _ tm)|].
  set (m1 := (timers s) <| Timer.timers := _ |>) in *.
  apply (world_timers (P' := [[]]) (E' := []) m1 Hw); [|done|done].
  split; rewrite ?Hs1; try done. rewrite Hd1.
  assert (Hge : Forall (fun p => curr tm <= p.2) (deadlines (timers s))).
  { destruct G1 as (_ & _ & Hpos & _). rewrite Hl, deltas_cons in Hpos. apply Forall_cons in Hpos as [_ Hpos].
    rewrite (deadlines_cons _ k l tm) by done. cbn. constructor; [done|]. by apply sums_ge. }
  unfold shift. apply Forall_fmap. eapply Forall_impl; [exact Hge|]. intros [j d]. cbn. lia.
Qed.

Lemma check_tmo_loop_ok fuel {s} r :
  world o [[]] [] s -> 0 <= r -> Z.of_nat fuel >= r + 1 ->
  wp (fun _ s' => world o [[]] [] s' /\ tended [] s s') (check_tmo_loop timer_lens net_timer_proc fuel r s).
Proof.
  revert s r. induction fuel as [|fuel IH]; intros s r Hw Hr Hf; [lia|]. cbn [check_tmo_loop].
  eapply wp_eq; [exact (zoom_ret timer_lens _ s _ _ eq_refl)|]. cbn [lget lset timer_lens]. rewrite set_timers_id.
  destruct (timer_list (timers s)) as [|k l] eqn:Hl; [by split|].
  pose proof Hw as [_ _ [_ [(_ & Hk & Hpos & _) _ Hlate _ _ _] _ _]]. rewrite Hl in Hk. apply Forall_cons in Hk as [[tm Htm] _].
  rewrite (deadlines_cons _ k l tm) in Hlate by done. apply Forall_cons in Hlate as [Hge _]. cbn in Hge.
  eapply wp_eq; [exact (zoom_ret timer_lens _ s _ _ (load_timer_ret _ _ _ Htm))|]. cbn [lset timer_lens]. rewrite set_timers_id.
  destruct ((r =? 0) && _); [by split|]. destruct (Z.ltb_spec r (curr tm)); [by eapply advance_ok|].
  destruct (collect_ok k l tm Hw Hl Htm) as (s1 & w & Hr1 & Hw1 & Hf1 & Hp1); [lia|].
  eapply wp_assoc, wp_eq; [exact Hr1|].
  eapply wp_eq; [exact (zoom_ret timer_lens _ s1 _ _ eq_refl)|]. cbn [lget lset timer_lens]. rewrite set_timers_id, Hp1.
  eapply wp_step; [by apply (fire_due_ok w)|]. intros ? s2 [Hw2 Hf2].
  eapply wp_mono; [|apply (IH s2 (r - curr tm) Hw2); lia]. intros ? s3 [Hw3 Hf3]. split; [done|].
  by transitivity s1; [|transitivity s2].
Qed.

Lemma check_tmo_ok {s} diff :
  world o [] [] s -> 0 <= diff ->
  wp (fun e s' => e = NET_ERR_OK /\ world o [] [] s' /\ tended [] s s') (stack_check_tmo diff s).
Proof.
  intros Hw Hd. unfold stack_check_tmo, net_timer_check_tmo. rewrite (proj2 (Z.ltb_ge _ _)) by done.
  pose proof Hw as [_ _ [H1 [G1 G2 G3 G4 G5 G6] H3 H4]].
  set (m1 := (timers s) <| pending_timers := [] :: pending_timers (timers s) |>).
  eapply wp_eq; [exact (zoom_ret timer_lens _ s _ m1 eq_refl)|]. cbn [lset timer_lens].
  destruct (world_timers (P' := [[]]) (E' := []) m1 Hw) as [Hw1 Hf1]; [|by unfold m1; rewrite H3|done|].
  { split; try done. }
  eapply wp_step; [apply (check_tmo_loop_ok _ diff Hw1); lia|]. intros ? s2 [Hw2 Hf2].
  pose proof Hw2 as [_ _ [K1 [B1 B2 B3 B4 B5 B6] K3 K4]].
  set (m2 := (timers s2) <| pending_timers := tail (pending_timers (timers s2)) |>).
  eapply wp_eq; [exact (zoom_ret timer_lens _ s2 _ m2 eq_refl)|]. cbn [lset timer_lens wp mret M_ret].
  destruct (world_timers (P' := []) (E' := []) m2 Hw2) as [Hw3 Hf3]; [|by unfold m2; rewrite K3|done|].
  { split; try done.
    - unfold scheduled, m2 in *. rewrite K3 in B4 |- *. done.
    - intros j. unfold scheduled, m2 in *. rewrite K3 in B5 |- *. apply B5. }
  split_and!; [done|done|]. by transitivity (s <| timers := m1 |>); [|transitivity s2].
Qed.
End tick.
