(* ===== verification/OwnerSocket.v ===== *)
(** * The sockets and the worker under the invariants

    [host_ok]: the invariants of the stack, of the table of sockets, and of the
    UDP control blocks in it.  The requests of the system calls that the worker
    runs return, whatever their arguments are, and keep it. *)

From S2P Require Import Prelude Tools IpAddr Nlist Timer Mblock Pktbuf PktbufSpec PktbufChain.
From S2P Require Import PktbufOps PktbufFrame Sys Fixq TcpState Net Netif Ether Arp NetifLink Ipv4 Udp Tcp.
From S2P Require Import TcpInv TcpQueue Owner OwnerPkt OwnerQueue OwnerOut OwnerArp OwnerResolve OwnerIp OwnerIcmp.
From S2P Require Import OwnerTcp OwnerSegment OwnerRelease OwnerTcpIn OwnerTcpSeg OwnerTcpOpen OwnerTcpInput OwnerTcpApi.
From S2P Require Import OwnerTcpConnect OwnerUdp OwnerRecv OwnerInput NetStack OwnerStack OwnerUdpOpen.
From S2P Require Import Socket SocketInv.

Record host_ok (h : host) : Prop := {
  host_stack : stack_ok [] (stack h);
  host_table : table_ok h;
  host_blocks : forall i, (i < NET_SOCKET_MAX)%nat -> is_Some (udp_pcbs (stack h) !! i);
  host_bound : forall i e, entries h !! i = Some e -> used e = true -> type e = NET_SOCKET_UDP -> Some i ∈ pcbs (stack h);
  host_quiet : forall p x, Some p ∈ pcbs (stack h) -> udp_pcbs (stack h) !! p = Some x -> pcb_open x = true /\ recv_waiting x = false;
  host_netif : forall n, stack_netif h = Some n \/ loop_netif (stack h) = Some n -> n ∈ dom (netif_buffer (stack h)) }.

(** The interfaces and the default one stay. *)
Definition fine (h h' : host) : Prop :=
  host_ok h' /\ stack_netif h' = stack_netif h /\ dom (netif_buffer (stack h')) = dom (netif_buffer (stack h)).

Lemma fine_refl h : host_ok h -> fine h h.
Proof. by intros. Qed.
Lemma fine_trans h1 h2 h3 : fine h1 h2 -> fine h2 h3 -> fine h1 h3.
Proof. intros (H1 & E1 & D1) (H2 & E2 & D2). split_and!; [done|congruence|congruence]. Qed.

Lemma set_stack_twice (h : host) s s' : (h <| stack := s |>) <| stack := s' |> = h <| stack := s' |>.
Proof. by destruct h. Qed.

(** ** Calls of the stack *)

Lemma wp_call {A} (m : M net A) h (P : A -> net -> Prop) (Q : A -> host -> Prop) :
  wp P (m (stack h)) -> (forall a s', P a s' -> Q a (h <| stack := s' |>)) -> wp Q (call m h).
Proof. intros Hm HQ. unfold zoom. cbn. destruct (m (stack h)); [|done]. by apply HQ. Qed.

Lemma host_kept h s' : host_ok h -> stack_ok [] s' -> kept (stack h) s' -> fine h (h <| stack := s' |>).
Proof.
  intros [H1 H2 H3 H4 H5 H6] Hst [K1 K2 K3 K4].
  assert (Hx : forall p x', udp_pcbs s' !! p = Some x' -> exists x, udp_pcbs (stack h) !! p = Some x /\ no_recv x = no_recv x').
  { intros p x' Hx'. apply (f_equal (lookup p)) in K4. rewrite !lookup_fmap, Hx' in K4. cbn in K4.
    destruct (udp_pcbs (stack h) !! p) as [x|]; [|done]. apply (inj Some) in K4. by exists x. }
  split_and!; [|done|done]. split; cbn; try done.
  - intros i Hi. destruct (H3 i Hi) as [x E]. apply (f_equal (lookup i)) in K4. rewrite !lookup_fmap, E in K4. cbn in K4.
    by destruct (udp_pcbs s' !! i).
  - intros i e Hi Hu Ht. rewrite K3. by eapply H4.
  - intros p x'. rewrite K3. intros Hp (x & Ex & E)%Hx. destruct (H5 p x Hp Ex) as [F1 F2]. destruct x, x'. cbn in *.
    unfold no_recv, upd_field in E. cbn in E. by injection E as -> -> -> ->.
  - intros n. rewrite K2, K1. apply H6.
Qed.

Lemma sound_start o s : stack_ok o s -> sound [] o s s.
Proof. intros [Hc Ha _ Ht _]. exists (tcp s), (armed (timers s)). by apply tinv_start. Qed.
Lemma sound_stack {o s s'} : stack_ok o s -> sound [] o s s' -> stack_ok o s' /\ kept s s'.
Proof.
  intros [_ _ Hu _ Hh] (t & T & (H1 & H2 & H3 & H4)%tinv_end). pose proof (tended_passed _ _ _ H3) as Hp.
  split; [|by eapply passed_kept]. split; [done|done|by eapply udp_ok_same; [eapply tended_udp|]|done|by rewrite (passed_handlers _ _ _ Hp)].
Qed.

Section host.
Context {h : host} (Hok : host_ok h).

Lemma stack_call {A} (m : M net A) :
  wp (fun _ s' => stack_ok [] s' /\ kept (stack h) s') (m (stack h)) ->
  wp (fun _ h' => fine h h' /\ h' = h <| stack := stack h' |>) (call m h).
Proof using Hok.
  intros Hm. eapply wp_call; [exact Hm|]. intros a s' [H1 H2]. split; [by apply host_kept|done].
Qed.

Lemma tcp_call {A} (m : M net A) :
  (sound [] [] (stack h) (stack h) -> wp (fun _ s' => sound [] [] (stack h) s') (m (stack h))) ->
  wp (fun _ h' => fine h h' /\ h' = h <| stack := stack h' |>) (call m h).
Proof using Hok.
  intros Hm. apply stack_call. pose proof (host_stack _ Hok) as Hst. eapply wp_mono; [|by apply Hm, sound_start].
  intros a s' Hs. by apply sound_stack.
Qed.
End host.

(** ** Changing an entry and its UDP control block *)

Definition set_entry (h : host) (i : nat) (e : socket_entry_t) : host := h <| entries := <[i := e]> (entries h) |>.

Lemma set_entry_twice h i e e' : set_entry (set_entry h i e) i e' = set_entry h i e'.
Proof. unfold set_entry. cbn. unfold upd_field. cbn. by rewrite list_insert_insert_eq. Qed.

Lemma store_socket_at h i e f : entries h !! i = Some e -> store_entry i f h = Ret () (set_entry h i (f e)).
Proof. intros Hi. unfold store_entry, load_entry, mbind, M_bind. cbn. by rewrite Hi. Qed.
Lemma load_socket_at h i e : entries h !! i = Some e -> load_entry i h = Ret e h.
Proof. intros Hi. unfold load_entry, mbind, M_bind. cbn. by rewrite Hi. Qed.
Lemma set_entry_eq h i e0 e : entries h !! i = Some e0 -> entries (set_entry h i e) !! i = Some e.
Proof. intros Hi. cbn. apply list_lookup_insert_eq. by eapply lookup_lt_Some. Qed.

(** Only the UDP control block [p] of the stack changes, perhaps with the table. *)
Record block_moved (p : nat) (s s' : net) : Prop := {
  moved_dom : dom (netif_buffer s') = dom (netif_buffer s);
  moved_loop : loop_netif s' = loop_netif s;
  moved_others : forall q, q <> p -> udp_pcbs s' !! q = udp_pcbs s !! q /\ (Some q ∈ pcbs s' <-> Some q ∈ pcbs s);
  moved_some : is_Some (udp_pcbs s !! p) -> is_Some (udp_pcbs s' !! p) }.

Lemma moves_moved p s s' :
  udp_moves p s s' -> (forall q, q <> p -> Some q ∈ pcbs s' <-> Some q ∈ pcbs s) -> block_moved p s s'.
Proof. intros (k & y & rr & u & c & -> & Hu & Hp) Hc. split; try done. intros q Hq. split; [by apply Hu|by apply Hc]. Qed.

Section moved.
Context {h : host} (Hok : host_ok h) {i : nat} {e e' : socket_entry_t} {s' : net}.
Context (Hi : entries h !! i = Some e) (He : entry_ok e -> entry_ok e' /\ aged e e').
Context (Hst : stack_ok [] s') (Hm : block_moved i (stack h) s').
Context (Hb : used e' = true -> type e' = NET_SOCKET_UDP -> Some i ∈ pcbs s').
Context (Hq : forall x, Some i ∈ pcbs s' -> udp_pcbs s' !! i = Some x -> pcb_open x = true /\ recv_waiting x = false).

Lemma host_moved : fine h (set_entry (h <| stack := s' |>) i e').
Proof using All.
  pose proof Hok as [H1 H2 H3 H4 H5 H6]. pose proof Hm as [M1 M2 M3 M4]. split_and!; [|done|done]. split; cbn; try done.
  - by destruct (store_grown h i e e' Hi He H2) as [? _].
  - intros j Hj. destruct (decide (j = i)) as [->|Hne]; [by apply M4, H3|]. destruct (M3 j Hne) as [-> _]. by apply H3.
  - intros j e0 Hj Hu Ht. apply list_lookup_insert_Some in Hj as [(-> & <- & _)|[Hne Hj]]; [by apply Hb|].
    apply M3; [done|]. by eapply H4.
  - intros p x Hp Hx. destruct (decide (p = i)) as [->|Hne]; [by apply Hq|]. destruct (M3 p Hne) as [E1 E2].
    apply (H5 p); [by apply E2|by rewrite <- E1].
  - intros n. rewrite M2, M1. apply H6.
Qed.
End moved.

(** Only the entry changes. *)
Lemma host_entry h i e e' :
  host_ok h -> entries h !! i = Some e -> (entry_ok e -> entry_ok e' /\ aged e e') ->
  (used e' = true -> type e' = NET_SOCKET_UDP -> Some i ∈ pcbs (stack h)) -> fine h (set_entry h i e').
Proof.
  intros Hok Hi He Hb. replace h with (h <| stack := stack h |>) at 2 by (by destruct h).
  apply (host_moved Hok Hi He (host_stack _ Hok)); [by split|done|]. intros x. by apply (host_quiet _ Hok).
Qed.

(** ** Finding an entry *)

Lemma entry_in h i : host_ok h -> (i < NET_SOCKET_MAX)%nat -> exists e, entries h !! i = Some e.
Proof. intros Hok Hi. destruct (host_table _ Hok) as [Hl _]. apply lookup_lt_is_Some_2. lia. Qed.

Lemma decode_slot hd i g : socket_decode hd = Some (i, g) -> (i < NET_SOCKET_MAX)%nat.
Proof.
  unfold socket_decode. destruct (_ || _) eqn:E; [done|]. intros [= <- _]. rewrite !orb_false_iff in E.
  destruct E as (((_ & H1%Z.ltb_ge) & H2%Z.leb_gt) & _). lia.
Qed.

Section found.
Context {h : host} (Hok : host_ok h) (hd : Z).

Lemma find_at {A} (f : option nat -> M host A) (Q : A -> host -> Prop) :
  wp Q (f None h) -> (forall i e, entries h !! i = Some e -> used e = true -> (i < NET_SOCKET_MAX)%nat -> wp Q (f (Some i) h)) ->
  wp Q ((socket_find hd ≫= f) h).
Proof using Hok.
  intros Hn Hs. unfold socket_find. destruct (socket_decode hd) as [[i g]|] eqn:Hd; [|exact Hn].
  pose proof (decode_slot _ _ _ Hd) as Hi. destruct (entry_in h i Hok Hi) as [e He].
  eapply wp_bind, wp_eq; [by apply load_socket_at|]. cbn. destruct (used e) eqn:Hu; cbn; [|exact Hn].
  destruct (_ && _); [by eapply Hs|exact Hn].
Qed.

Lemma find_used_step {A} (f : option nat -> M host A) (Q : A -> host -> Prop) :
  wp Q (f None h) -> (forall i e, entries h !! i = Some e -> used e = true -> (i < NET_SOCKET_MAX)%nat -> wp Q (f (Some i) h)) ->
  wp Q ((socket_find_used hd ≫= f) h).
Proof using Hok.
  intros Hn Hs. unfold socket_find_used. destruct (socket_decode hd) as [[i g]|] eqn:Hd; [|exact Hn].
  pose proof (decode_slot _ _ _ Hd) as Hi. destruct (entry_in h i Hok Hi) as [e He].
  eapply wp_bind, wp_eq; [by apply load_socket_at|]. cbn. destruct (used e) eqn:Hu; cbn; [|exact Hn].
  destruct (_ =? _); [by eapply Hs|exact Hn].
Qed.

Lemma with_tcp_ok (m : option nat -> M host Z) :
  (forall p, wp (fun _ h' => fine h h') (m (Some p) h)) -> wp (fun _ h' => fine h h') (m None h) ->
  wp (fun _ h' => fine h h') (with_tcp hd m h).
Proof using Hok.
  intros Hm Hn. apply find_at; [by apply fine_refl|]. intros i e Hi Hu Hlt. eapply wp_eq; [by apply load_socket_at|].
  destruct (negb _); [by apply fine_refl|]. by destruct (pcb_tcp e).
Qed.

(** ** The calls of a TCP socket *)

Abbreviation keeps m := (wp (fun _ h' => fine h h') (m h)).

Lemma tcp_keeps {A} (m : M net A) :
  (sound [] [] (stack h) (stack h) -> wp (fun _ s' => sound [] [] (stack h) s') (m (stack h))) -> keeps (call m).
Proof using Hok. intros Hm. eapply wp_mono; [|by apply (tcp_call Hok m)]. by intros a h' [? _]. Qed.
Lemma tcp_null {A} (m : M net A) a : m (stack h) = Ret a (stack h) -> keeps (call m).
Proof using Hok. intros Hm. apply tcp_keeps. intros Hs. rewrite Hm. exact Hs. Qed.

Lemma listen_keeps b : keeps (net_socket_listen hd b).
Proof using Hok. apply with_tcp_ok; [intros p; apply tcp_keeps; intros; by apply listen_ok|by eapply tcp_null]. Qed.

Lemma default_in n : stack_netif h = Some n -> n ∈ dom (netif_buffer (stack h)).
Proof using Hok. intros H. apply (host_netif _ Hok). by left. Qed.

Lemma connect_keeps n a port :
  (forall m, n = Some m -> m ∈ dom (netif_buffer (stack h))) -> 0 <= a < 2 ^ 32 -> keeps (net_socket_connect_start hd n (Some a) port).
Proof using Hok.
  intros Hn Ha. apply with_tcp_ok; [|by eapply tcp_null]. intros p. destruct n as [m|]; [|by eapply tcp_null].
  apply tcp_keeps. intros Hs. apply connect_start_ok; [done|by apply Hn|done].
Qed.

Lemma send_keeps d : are_bytes d -> keeps (net_socket_send hd (Some d) (len d)).
Proof using Hok. intros Hd. apply with_tcp_ok; [intros p; apply tcp_keeps; intros; by apply send_start_ok|by eapply tcp_null]. Qed.
End found.

(** ** Binding and sending datagrams *)

Section datagrams.
Context {h : host} (Hok : host_ok h) (hd : Z).
Abbreviation keeps m := (wp (fun _ h' => fine h h') (m h)).

Lemma bind_keeps n a port :
  (forall m, n = Some m -> m ∈ dom (netif_buffer (stack h))) -> 0 <= port < 2 ^ 16 -> keeps (net_socket_bind hd n (Some a) port).
Proof using Hok.
  intros Hn Hport. apply (find_at Hok); [by apply fine_refl|]. intros i e Hi Hu Hlt. eapply wp_eq; [by apply load_socket_at|].
  destruct (_ =? _).
  - pose proof (host_stack _ Hok) as Hst. pose proof (host_blocks _ Hok i Hlt) as Hb. pose proof Hst as [Hc _ Hud _ _].
    eapply wp_call; [by apply (udp_bind_ok [] (stack h) i port)|]. intros r s' (Hc' & Hu' & Hs' & _).
    destruct Hs' as [->|(x & Hx & ->)]; [apply host_kept; [done|done|reflexivity]|]. cbn in Hc', Hu'.
    set (s' := with_pcb _ _ _) in *.
    assert (Hst' : stack_ok [] s') by (destruct Hst as [_ Ha _ [] Hh]; split; [done|by destruct Ha|done|by split|done]).
    replace (h <| stack := s' |>) with (set_entry (h <| stack := s' |>) i e).
    2: { unfold set_entry. cbn. rewrite list_insert_id by done. by destruct h. }
    apply (host_moved Hok Hi); [done|done| |intros Hu2 Ht; by eapply (host_bound _ Hok)|].
    + split; try done.
      * intros q Hq. split; [by apply lookup_insert_ne|done].
      * intros _. unfold s'. cbn. by rewrite lookup_insert_eq.
    + intros x' Hp. unfold s'. cbn. rewrite lookup_insert_eq. intros [= <-]. by apply (host_quiet _ Hok i x).
  - destruct (pcb_tcp e) as [p|]; [|by eapply (tcp_null Hok)]. destruct n as [m|]; [|by eapply (tcp_null Hok)].
    apply (tcp_keeps Hok). intros Hs. apply bind_ok; [done|by apply Hn].
Qed.

Lemma sendto_keeps n a port d :
  (forall m, n = Some m -> m ∈ dom (netif_buffer (stack h))) -> 0 <= a < 2 ^ 32 -> are_bytes d ->
  keeps (net_socket_sendto hd n (Some a) port (Some d) (len d)).
Proof using Hok.
  intros Hn Ha Hd. apply (find_at Hok); [by apply fine_refl|]. intros i e Hi Hu Hlt. eapply wp_eq; [by apply load_socket_at|].
  destruct (negb _); [by apply fine_refl|]. pose proof (host_stack _ Hok) as Hst. pose proof Hst as [Hc Harp Hud Ht Hh].
  destruct (host_blocks _ Hok i Hlt) as [x Hx]. destruct n as [m|].
  - eapply wp_mono; [|apply (stack_call Hok (udp_sendto (pcb_udp i) (Some m) (Some a) port (Some d) (len d)))]; [by intros r h' [? _]|].
    eapply wp_mono; [|apply (udp_sendto_ok [] (stack h) i x m a port d); try done; by apply Hn].
    intros r s' (C1 & C2 & C3 & C4). pose proof (far_served _ _ _ C4) as Hsv. pose proof (served_passed _ _ _ Hsv) as Hps.
    split; [|by eapply passed_kept]. split; [done..|by eapply served_tcp|by rewrite (passed_handlers _ _ _ Hps)].
  - apply (tcp_null Hok _ NET_ERR_PARAM). unfold udp_sendto, pcb_udp. by rewrite (mbind_ret _ _ _ _ _ (load_pcb_at _ _ _ Hx)).
Qed.
End datagrams.

(** ** Opening *)

Section opening.
Context {h : host} (Hok : host_ok h).

Lemma in_insert (l : list (option nat)) i p q : l !! i = Some None -> q <> p -> Some q ∈ <[i := Some p]> l <-> Some q ∈ l.
Proof.
  intros Hi Hne. rewrite !list_elem_of_lookup. split; intros (j & Hj).
  - apply list_lookup_insert_Some in Hj as [(_ & E & _)|[_ ?]]; [congruence|by exists j].
  - exists j. rewrite list_lookup_insert_ne; [done|]. intros ->. congruence.
Qed.

Definition occupied (ty : Z) (e : socket_entry_t) : socket_entry_t := e <| used := true |> <| closing := false |> <| type := ty |>.
Lemma occupied_ok ty e : retired e = false -> entry_ok e -> entry_ok (occupied ty e) /\ aged e (occupied ty e).
Proof. intros Hr [G R]. split; split; cbn; done || congruence. Qed.

(** The control block is made and the entry is filled in. *)
Lemma open_pcb_ok i e ty :
  entries h !! i = Some e -> used e = false -> retired e = false -> (i < NET_SOCKET_MAX)%nat ->
  wp (fun err h1 => exists e1, entries h1 !! i = Some e1 /\ used e1 = false /\ fine h h1 /\ retired e1 = false /\
        (0 <= err -> fine h (set_entry h1 i (occupied ty e1)))) (open_pcb i ty h).
Proof using Hok.
  intros Hi Hu Hr Hlt. pose proof (host_stack _ Hok) as Hst. unfold open_pcb. destruct (Z.eqb_spec ty NET_SOCKET_UDP) as [->|Hne].
  - eapply wp_call; [apply (udp_open_ok i Hst), (host_blocks _ Hok i Hlt)|]. intros err s1 (Hst1 & Hstep & Hcase).
    assert (Hmv : block_moved i (stack h) s1).
    { destruct Hstep as (y & u & c & -> & Hus & Hup). split; try done. intros q Hq. split; [by apply Hus|].
      destruct Hcase as [(_ & E & _)|(_ & _ & j & x & Hj & E & _)]; cbn in E |- *; rewrite E; [done|by apply in_insert]. }
    exists e.
    split_and!; [done|done| |done|].
    + replace (h <| stack := s1 |>) with (set_entry (h <| stack := s1 |>) i e).
      2: { unfold set_entry. cbn. rewrite list_insert_id by done. by destruct h. }
      apply (host_moved Hok Hi); [done|done|done|congruence|]. intros x Hin Hx.
      destruct Hcase as [(_ & E & Hsame)|(_ & _ & j & x' & _ & _ & Hx' & ? & ?)]; [|by assert (x' = x) as -> by congruence].
      rewrite E in Hin. rewrite (Hsame Hin) in Hx. by apply (host_quiet _ Hok i).
    + intros Hpos. destruct Hcase as [(? & _)|(_ & Hnot & j & x & Hj & E & Hx & Ho & Hw)]; [lia|].
      apply (host_moved Hok Hi); [by apply occupied_ok|done|done| |].
      * intros _ _. rewrite E. apply (list_elem_of_lookup_2 _ j). apply list_lookup_insert_eq. by eapply lookup_lt_Some.
      * intros x' _ Hx'. by assert (x' = x) as -> by congruence.
  - eapply wp_step; [apply (tcp_call Hok tcp_socket_open); intros Hs; by apply open_ok|]. intros [err q] h1 [Hf1 E1].
    assert (Hi1 : entries h1 !! i = Some e) by (by rewrite E1).
    eapply wp_eq; [by apply store_socket_at|]. cbn [wp mret M_ret fst snd]. set (e1 := e <| pcb_tcp := q |>).
    pose proof Hf1 as (Hok1 & _).
    assert (He1 : entry_ok e -> entry_ok e1 /\ aged e e1) by (intros [G R]; split; by split).
    assert (Hf2 : fine h1 (set_entry h1 i e1)) by (apply (host_entry h1 i e); [done..|cbn; congruence]).
    exists e1. split_and!; [by eapply set_entry_eq|done|by eapply fine_trans|done|]. intros _. rewrite set_entry_twice.
    eapply fine_trans; [exact Hf1|]. apply (host_entry h1 i e); [done..| |].
    + intros He. destruct (He1 He) as [K1 K2]. destruct (occupied_ok ty e1) as [K3 K4]; [done..|]. split; [done|by transitivity e1].
    + intros _ Ht. cbn in Ht. congruence.
Qed.

Lemma open_keeps ty : wp (fun _ h' => fine h h') (net_socket_open ty h).
Proof using Hok.
  unfold net_socket_open. destruct (_ && _); [by apply fine_refl|]. eapply wp_eq; [reflexivity|].
  destruct (free_entry 0 (entries h)) as [k|] eqn:Hk; [|by apply fine_refl].
  apply free_entry_at in Hk as (i & e & -> & Hi & Hu & Hr). rewrite Nat.add_0_l.
  assert (Hlt : (i < NET_SOCKET_MAX)%nat) by (destruct (host_table _ Hok) as [<- _]; by eapply lookup_lt_Some).
  eapply wp_step; [by apply (open_pcb_ok i e ty)|]. intros err h1 (e1 & Hi1 & Hu1 & Hf1 & Hr1 & Hopen).
  destruct (Z.ltb_spec err 0); [exact Hf1|]. eapply wp_eq; [by apply store_socket_at|].
  eapply wp_eq; [by eapply load_socket_at, set_entry_eq|]. cbn [wp mret M_ret]. by apply Hopen.
Qed.
End opening.

(** ** Closing *)

Lemma invalidated_ok e : entry_ok e -> entry_ok (invalidated e) /\ aged e (invalidated e).
Proof.
  intros [H1 H2]. destruct e as [a gen u c r ty]. unfold invalidated. cbn in *. destruct (ty =? _); cbn.
  all: destruct (Z.eqb_spec gen 0x7fffff); [|unfold u32; rewrite Z.mod_small by lia]; split; split; cbn; done || lia.
Qed.
Lemma invalidated_unused e : used (invalidated e) = false.
Proof. destruct e as [a gen u c r ty]. unfold invalidated. cbn. destruct (ty =? _); cbn; by destruct (gen =? _). Qed.

(** An entry whose other fields change. *)
Lemma host_closing h i e b :
  host_ok h -> entries h !! i = Some e -> fine h (set_entry h i (e <| closing := b |>)).
Proof.
  intros Hok Hi. apply (host_entry h i e); [done..| |].
  - intros [G R]. split; by split.
  - intros Hu Ht. by eapply (host_bound _ Hok).
Qed.

Lemma call_entry {A} (m : M net A) h i e (Q : A -> host -> Prop) :
  host_ok h -> entries h !! i = Some e ->
  (sound [] [] (stack h) (stack h) -> wp (fun _ s' => sound [] [] (stack h) s') (m (stack h))) ->
  (forall a h1, fine h h1 -> entries h1 !! i = Some e -> Q a h1) -> wp Q (call m h).
Proof.
  intros Hok Hi Hm HQ. eapply wp_mono; [|by apply (tcp_call Hok m)]. intros a h1 [Hf E]. apply HQ; [done|]. by rewrite E.
Qed.

Section closing.
Context {h : host} (Hok : host_ok h).

Lemma tcp_close_any p s : sound [] [] s s -> wp (fun _ s' => sound [] [] s s') (tcp_close p s).
Proof. intros Hs. destruct p; [by apply close_ok|exact Hs]. Qed.
Lemma tcp_detach_any p s : sound [] [] s s -> wp (fun _ s' => sound [] [] s s') (tcp_socket_detach p s).
Proof. intros Hs. destruct p; [by apply socket_detach_ok|exact Hs]. Qed.

Lemma close_tcp_keeps i e : entries h !! i = Some e -> type e = NET_SOCKET_TCP -> wp (fun _ h' => fine h h') (socket_close_tcp i h).
Proof using Hok.
  intros Hi Ht. unfold socket_close_tcp. eapply wp_eq; [by apply load_socket_at|]. destruct (closing e); cbn [negb].
  - eapply wp_step; [apply (call_entry _ h i e (fun _ h1 => fine h h1 /\ entries h1 !! i = Some e) Hok Hi); [apply tcp_close_any|done]|].
    intros err h1 [Hf1 Hi1]. destruct (err <? 0); [exact Hf1|]. pose proof Hf1 as (Hok1 & _).
    eapply wp_step; [apply (call_entry _ h1 i e (fun _ h2 => fine h1 h2 /\ entries h2 !! i = Some e) Hok1 Hi1); [apply tcp_detach_any|done]|].
    intros err2 h2 [Hf2 Hi2]. pose proof (fine_trans _ _ _ Hf1 Hf2) as Hf. destruct (_ =? _); [exact Hf|].
    destruct (_ <? 0); [exact Hf|]. pose proof Hf2 as (Hok2 & _).
    eapply wp_eq; [by apply store_socket_at|]. cbn [wp mret M_ret]. eapply fine_trans; [exact Hf|].
    apply (host_entry h2 i e); [done|done|apply invalidated_ok|by rewrite invalidated_unused].
  - eapply wp_eq; [by apply store_socket_at|]. set (e1 := e <| closing := true |>). set (h1 := set_entry h i e1).
    assert (Hf1 : fine h h1) by (by apply host_closing). pose proof Hf1 as (Hok1 & _).
    assert (Hi1 : entries h1 !! i = Some e1) by (by eapply set_entry_eq).
    eapply wp_step; [apply (call_entry _ h1 i e1 (fun _ h2 => fine h1 h2 /\ entries h2 !! i = Some e1) Hok1 Hi1); [apply tcp_close_any|done]|].
    intros err h2 [Hf2 Hi2]. pose proof (fine_trans _ _ _ Hf1 Hf2) as Hf. pose proof Hf2 as (Hok2 & _). destruct (err <? 0); cbn [when].
    + eapply wp_eq; [by apply store_socket_at|]. cbn [wp mret M_ret]. eapply fine_trans; [exact Hf|]. by apply (host_closing h2 i e1).
    + eapply wp_eq; [reflexivity|]. exact Hf.
Qed.

Lemma close_keeps sl fu mt hd : wp (fun _ h' => fine h h') (net_socket_close sl fu mt hd h).
Proof using Hok.
  apply (find_used_step Hok); [by apply fine_refl|]. intros i e Hi Hu Hlt. eapply wp_eq; [by apply load_socket_at|].
  destruct (Z.eqb_spec (type e) NET_SOCKET_TCP) as [Ht|Ht]; [by eapply close_tcp_keeps|]. destruct (closing e); [by apply fine_refl|].
  eapply wp_eq; [by apply store_socket_at|]. set (e1 := e <| closing := true |>). set (h1 := set_entry h i e1).
  assert (Hf1 : fine h h1) by (by apply host_closing). pose proof Hf1 as (Hok1 & _).
  assert (Hi1 : entries h1 !! i = Some e1) by (by eapply set_entry_eq). pose proof (host_stack _ Hok1) as Hst1.
  eapply wp_step; [eapply (wp_call _ h1 _ (fun err h2 => (err < 0 /\ fine h1 h2 /\ entries h2 !! i = Some e1) \/
    (0 <= err /\ entries h2 !! i = Some e1 /\ fine h1 (set_entry h2 i (invalidated e1)))));
    [eapply (udp_close_ok sl fu mt [] (stack h1) i Hst1)|]|].
  - intros x Hin Hx. by destruct (host_quiet _ Hok1 i x Hin Hx).
  - intros err s2 (Hst2 & Hmv & Hcase). destruct Hcase as [[Hneg ->]|(-> & j & Hj & E)].
    + left. replace (h1 <| stack := stack h1 |>) with h1 by (by destruct h). split_and!; [done|by apply fine_refl|done].
    + right. destruct (stack_udp _ _ Hst1) as [_ _ _ Honce _ _].
      assert (Hin : forall q, Some q ∈ pcbs s2 <-> q <> i /\ Some q ∈ pcbs (stack h1)).
      { intros q. rewrite E, !list_elem_of_lookup. split.
        - intros (k & [(_ & ? & _)|[Hne Hk]]%list_lookup_insert_Some); [done|]. split; [|by exists k]. intros ->. by apply Hne, (Honce _ _ i).
        - intros [Hne (k & Hk)]. exists k. rewrite list_lookup_insert_ne; [done|]. intros ->. congruence. }
      split_and!; [done..|]. apply (host_moved Hok1 Hi1); [apply invalidated_ok|done| |by rewrite invalidated_unused|].
      * apply moves_moved; [done|]. intros q Hq. rewrite Hin. tauto.
      * intros x [? _]%Hin. done.
  - intros err h2 Hcase. destruct (Z.ltb_spec err 0).
    + destruct Hcase as [(_ & Hf2 & Hi2)|(? & _)]; [|lia]. pose proof Hf2 as (Hok2 & _).
      eapply wp_eq; [by apply store_socket_at|]. cbn [wp mret M_ret]. eapply fine_trans; [exact Hf1|]. eapply fine_trans; [exact Hf2|].
      by apply (host_closing h2 i e1).
    + destruct Hcase as [(? & _)|(_ & Hi2 & Hf2)]; [lia|]. eapply wp_eq; [by apply store_socket_at|]. cbn [wp mret M_ret].
      exact (fine_trans _ _ _ Hf1 Hf2).
Qed.
End closing.

(** ** Receiving a datagram, and the end of an accept *)

Section tasks.
Context {h : host} (Hok : host_ok h).

Lemma recvfrom_keeps sl fu mt hd n : 0 <= n -> wp (fun _ h' => fine h h') (net_socket_recvfrom sl fu mt hd true n (-1) h).
Proof using Hok.
  intros Hn. unfold net_socket_recvfrom. rewrite (proj2 (Z.ltb_ge _ _)) by done. cbn [negb orb].
  apply (find_at Hok); [by apply fine_refl|]. intros i e Hi Hu Hlt. eapply wp_eq; [by apply load_socket_at|].
  destruct (Z.eqb_spec (type e) NET_SOCKET_UDP) as [Ht|Ht]; cbn [negb]; [|by apply fine_refl].
  pose proof (host_stack _ Hok) as Hst. pose proof Hst as [Hc Ha Hud [] Hh].
  pose proof (host_bound _ Hok i e Hi Hu Ht) as Hin. pose proof Hin as (j & Hj)%list_elem_of_lookup.
  destruct (host_blocks _ Hok i Hlt) as [x Hx]. destruct (host_quiet _ Hok i x Hin Hx) as [Ho Hw].
  pose proof (udp_recvfrom_ok sl fu mt [] (stack h) j i x n Hc Ha Hud Hj Hx Ho Hw Hn) as H.
  unfold udp_recvfrom in H. rewrite bool_decide_eq_false_2, (proj2 (Z.ltb_ge n 0)) in H by done. cbn [orb negb] in H.
  assert (Ea : udp_recv_acquire (Some i) (stack h) = Ret NET_ERR_OK (with_pcb (stack h) i (x <| recv_waiting := true |>))).
  { unfold udp_recv_acquire. mstep by (by apply load_pcb_at). rewrite Ho, Hw. cbn [negb orb]. by mstep by (by apply store_pcb_at). }
  rewrite (mbind_ret _ _ _ _ _ Ea) in H. change (NET_ERR_OK <? 0) with false in H. cbv iota in H.
  eapply wp_eq; [exact (zoom_ret stack_lens _ h _ _ Ea)|]. change (NET_ERR_OK <? 0) with false. cbv iota.
  eapply (wp_call _ (h <| stack := with_pcb (stack h) i (x <| recv_waiting := true |>) |>)); [exact H|].
  intros r s' (C1 & C2 & C3 & C4 & C5 & (x' & Hx' & Ex) & _). rewrite set_stack_twice.
  assert (Hst' : stack_ok [] s') by (by eapply stack_moves).
  replace (h <| stack := s' |>) with (set_entry (h <| stack := s' |>) i e).
  2: { unfold set_entry. cbn. rewrite list_insert_id by done. by destruct h. }
  apply (host_moved Hok Hi); [done|done| |by rewrite C5|].
  - apply moves_moved; [done|]. intros q _. by rewrite C5.
  - intros z _ Hz. assert (z = x') as -> by congruence. destruct x, x'. cbn in *. unfold no_recv, upd_field in Ex. cbn in Ex.
    by injection Ex as -> -> -> ->.
Qed.

Lemma release_any l c s : sound [] [] s s -> wp (fun _ s' => sound [] [] s s') (tcp_accept_release_child_acquired l c s).
Proof. intros Hs. destruct l, c; [by apply accept_release_child_ok|exact Hs..]. Qed.

Lemma abort_locked_keeps a : wp (fun _ h' => fine h h') (socket_accept_abort_locked a h).
Proof using Hok.
  unfold socket_accept_abort_locked. destruct (negb _); [by apply fine_refl|].
  eapply wp_step; [|intros ? h1 Hf; exact Hf]. destruct (child a).
  - apply (tcp_keeps Hok). apply release_any.
  - apply (tcp_keeps Hok). intros Hs. destruct (acc_listener a); [by apply accept_release_acquired_ok|exact Hs].
Qed.

Lemma abort_keeps a : wp (fun _ h' => fine h h') (net_socket_accept_abort a h).
Proof using Hok.
  unfold net_socket_accept_abort. destruct a as [a|]; [|by apply fine_refl]. destruct (negb _); [by apply fine_refl|].
  eapply wp_step; [apply abort_locked_keeps|]. by intros ? h1 Hf.
Qed.
End tasks.

Lemma commit_keeps h accept : host_ok h -> wp (fun _ h' => fine h h') (net_socket_accept_commit accept h).
Proof.
  intros Hok. unfold net_socket_accept_commit. destruct accept as [a|]; [|by apply fine_refl]. destruct (_ || _); [by apply fine_refl|].
  assert (Habort : forall (c : Z) h1, fine h h1 -> wp (fun _ h' => fine h h') ((x ← socket_accept_abort_locked a; mret (c, Some x)) h1)).
  { intros c h1 Hf. pose proof Hf as (Hok1 & _). eapply wp_step; [by apply (abort_locked_keeps Hok1)|].
    intros ? h2 Hf2. exact (fine_trans _ _ _ Hf Hf2). }
  assert (Hself : fine h h) by (by apply fine_refl).
  apply (find_at Hok); [by apply Habort|]. intros i e Hi Hu Hlt.
  eapply wp_eq; [unfold mbind at 1, M_bind at 1; rewrite (load_socket_at h i e Hi); reflexivity|].
  destruct (negb _); [by apply Habort|]. eapply wp_eq; [reflexivity|].
  destruct (free_entry 0 (entries h)) as [k|] eqn:Hk; [|by apply Habort].
  apply free_entry_at in Hk as (j & e' & -> & Hj & Hu' & Hr). rewrite Nat.add_0_l.
  eapply wp_step; [apply (call_entry _ h j e' (fun _ h1 => fine h h1 /\ entries h1 !! j = Some e') Hok Hj); [|done]|].
  { intros Hs. destruct (acc_listener a), (child a); [by apply accept_commit_ok|exact Hs..]. }
  intros err h1 [Hf1 Hj1]. pose proof Hf1 as (Hok1 & _). destruct (_ <? 0); [by apply Habort|].
  eapply wp_eq; [by apply store_socket_at|]. eapply wp_eq; [by eapply load_socket_at, set_entry_eq|]. cbn [wp mret M_ret].
  eapply fine_trans; [exact Hf1|]. apply (host_entry h1 j e'); [done|done| |by intros _].
  intros [G R]. split; split; cbn; done || congruence.
Qed.
