(* ===== verification/OwnerWorker.v ===== *)
(** * The worker under the invariants

    Every turn of the worker returns and keeps [host_ok], whatever the requests,
    the clock and the device bring, and so does every sequence of turns among
    calls of other tasks. *)

From S2P Require Import Prelude Tools IpAddr Nlist Timer Mblock Pktbuf PktbufSpec PktbufChain.
From S2P Require Import PktbufOps PktbufFrame Sys Fixq TcpState Net Netif Ether Arp NetifLink Ipv4 Udp Tcp.
From S2P Require Import TcpInv TcpQueue Owner OwnerPkt OwnerQueue OwnerOut OwnerArp OwnerResolve OwnerIp OwnerIcmp.
From S2P Require Import OwnerTcp OwnerRelease OwnerTcpInput OwnerTcpTimer OwnerUdp OwnerInput NetStack OwnerStack OwnerTimer.
From S2P Require Import Socket SocketInv OwnerSocket Worker.

(** What the system calls check before they submit a request. *)
Record request_ok (r : socket_exec_t) : Prop := {
  request_port : 0 <= req_port r < 2 ^ 16;
  request_address : 0 <= address r < 2 ^ 32;
  request_data : op r = SOCKET_EXEC_SEND \/ op r = SOCKET_EXEC_SENDTO ->
    exists d, data r = Some d /\ req_length r = len d /\ are_bytes d }.

Definition outside_ok (e : outside_t) : Prop :=
  (forall r, next_request e = Some r -> request_ok r) /\ are_bytes (default [] (rx_frame e)).

Definition activity_ok (a : activity) : Prop :=
  match a with Turn e => outside_ok e | Recvfrom _ n => 0 <= n | _ => True end.

(** The interface that the worker polls is open. *)
Definition worker_ok (w : worker) (h : host) : Prop :=
  host_ok h /\ forall n, w_netif w = Some n -> n ∈ dom (netif_buffer (stack h)).

Lemma exec_keeps sl fu mt h r : host_ok h -> request_ok r -> wp (fun _ h' => fine h h') (socket_exec sl fu mt r h).
Proof.
  intros Hok [Hp Ha Hd]. pose proof (default_in Hok) as Hn. unfold socket_exec, net_stack_default.
  destruct (_ =? SOCKET_EXEC_OPEN); [by apply open_keeps|].
  destruct (_ =? SOCKET_EXEC_BIND); [eapply wp_eq; [reflexivity|]; by apply bind_keeps|].
  destruct (_ =? SOCKET_EXEC_LISTEN); [by apply listen_keeps|].
  destruct (_ =? SOCKET_EXEC_CONNECT); [eapply wp_eq; [reflexivity|]; by apply connect_keeps|].
  destruct (Z.eqb_spec (op r) SOCKET_EXEC_SEND).
  { destruct Hd as (d & -> & -> & Hb); [by left|]. by apply send_keeps. }
  destruct (Z.eqb_spec (op r) SOCKET_EXEC_SENDTO).
  { destruct Hd as (d & -> & -> & Hb); [by right|]. eapply wp_eq; [reflexivity|]. by apply sendto_keeps. }
  destruct (_ =? SOCKET_EXEC_CLOSE); [by apply close_keeps|by apply fine_refl].
Qed.

(** ** Time *)

Lemma goes_nonneg mt prev : 0 <= (sys_time_goes mt prev).1.
Proof.
  unfold sys_time_goes. cbn. set (e := u64 _). assert (0 <= e) by apply Z.mod_pos_bound, eq_refl. unfold INT_MAX.
  destruct (_ <? e); lia.
Qed.

Lemma tick_keeps h ms : host_ok h -> 0 <= ms -> wp (fun _ h' => fine h h') (call (stack_check_tmo ms) h).
Proof.
  intros Hok Hms. eapply wp_mono; [|apply (stack_call Hok (stack_check_tmo ms))]; [by intros ? h' [? _]|].
  pose proof (host_stack _ Hok) as Hst. pose proof Hst as [Hc Ha Hu Ht Hh].
  eapply wp_mono; [|apply (check_tmo_ok (o := []) ms); [by split|done]].
  intros e s' (_ & [Hc' Ha' Ht'] & Hte). pose proof (tended_passed _ _ _ Hte) as Hp. split; [|by eapply passed_kept].
  split; [done..|by eapply udp_ok_same; [eapply tended_udp|]|done|by rewrite (passed_handlers _ _ _ Hp)].
Qed.

Lemma first_tmo_at h : host_ok h -> exists ms, call (zoom timer_lens net_timer_first_tmo) h = Ret ms h.
Proof.
  intros Hok. destruct (host_stack _ Hok) as [_ _ _ [_ [(_ & Hk & _) _ _ _ _ _] _ _] _].
  assert (exists ms, net_timer_first_tmo (timers (stack h)) = Ret ms (timers (stack h))) as [ms Hr].
  { unfold net_timer_first_tmo. unfold mbind at 1, M_bind at 1. cbn [gets rbind].
    destruct (timer_list (timers (stack h))) as [|k l]; [by eexists|]. apply Forall_cons in Hk as [[tm Htm] _].
    exists (curr tm). cbn. by rewrite (mbind_ret _ _ _ _ _ (load_timer_ret _ _ _ Htm)). }
  exists ms. unfold zoom. cbn. rewrite Hr. by destruct h as [[]].
Qed.

(** ** A turn *)

Lemma stack_ok_rx o s l : stack_ok o s -> stack_ok o (s <| rx_results := l |>).
Proof. intros [[] [] [] [] ?]. split; [by split..|done]. Qed.

Section turn.
Context (e : outside_t) (w : worker) {h : host} (Hw : worker_ok w h) (He : outside_ok e).
Abbreviation onward := (fun w' h' => worker_ok w' h').

Lemma onward_fine w' h' : fine h h' -> w_netif w' = w_netif w -> worker_ok w' h'.
Proof using Hw. destruct Hw as [_ Hn]. intros (Hok & _ & Ed) E. split; [done|]. intros n. rewrite E, Ed. apply Hn. Qed.

Lemma poll_keeps : wp (fun _ h' => fine h h')
  ((call (modify (fun s => s <| rx_results := [rx_frame e] |>));; call (net_stack_poll_once tcp_in (w_netif w))) h).
Proof using Hw He.
  destruct Hw as [Hok Hn]. destruct He as [_ Hf]. pose proof (host_stack _ Hok) as Hst.
  set (s1 := (stack h) <| rx_results := [rx_frame e] |>).
  assert (Hst1 : stack_ok [] s1) by exact (stack_ok_rx _ _ _ Hst).
  assert (Hf1 : fine h (h <| stack := s1 |>)) by (apply host_kept; [done|done|by split]). pose proof Hf1 as (Hok1 & _).
  eapply wp_eq; [exact (zoom_ret stack_lens _ h _ _ eq_refl)|]. cbn [lset stack_lens lget]. fold s1.
  eapply wp_mono; [intros ? h2; apply (fine_trans _ _ _ Hf1)|].
  destruct (w_netif w) as [n|].
  - eapply wp_mono; [|apply (stack_call Hok1 (net_stack_poll_once tcp_in (Some n)))]; [by intros ? h' [? _]|].
    eapply wp_mono; [|apply (poll_once_ok tcp_in [] s1 n); [done|by apply Hn|by constructor]]. by intros r s' (? & _ & ?).
  - by apply (tcp_null Hok1 _ NET_ERR_PARAM).
Qed.

Lemma loop_keeps l : loop_netif (stack h) = l -> wp (fun _ h' => fine h h') (call (net_stack_process_input tcp_in l) h).
Proof using Hw.
  intros Hl. destruct Hw as [Hok _]. destruct l as [n|]; [|by apply (tcp_null Hok _ NET_ERR_PARAM)].
  eapply wp_mono; [|apply (stack_call Hok (net_stack_process_input tcp_in (Some n)))]; [by intros ? h' [? _]|].
  eapply wp_mono; [|apply (process_input_ok tcp_in [] (stack h) n); [by destruct Hok|apply (host_netif _ Hok); by right]].
  intros r s' [H1 H2]. split; [done|by eapply passed_kept].
Qed.

Lemma worker_step_ok : wp onward (worker_step e w h).
Proof using All.
  pose proof Hw as [Hok _]. unfold worker_step. destruct (pc w) as [| | | |ticks].
  - destruct (next_request e) as [r|] eqn:Er; [|exact Hw].
    eapply wp_step; [apply exec_keeps; [done|by apply He]|]. intros ? h1 Hf. by apply onward_fine.
  - pose proof (goes_nonneg (mtime e) (timer_time w)) as Hms. destruct (sys_time_goes _ _) as [ms now].
    eapply wp_step; [by apply tick_keeps|]. intros ? h1 Hf. by apply onward_fine.
  - eapply wp_eq; [exact (zoom_ret stack_lens _ h _ _ eq_refl)|]. cbn [lset stack_lens lget].
    replace (h <| stack := stack h |>) with h by (by destruct h).
    eapply wp_step; [by apply loop_keeps|]. intros err h1 Hf. apply onward_fine; [done|]. by destruct (_ || _).
  - pose proof (goes_nonneg (mtime e) (timer_time w)) as Hms. destruct (sys_time_goes _ _) as [ms now].
    eapply wp_step; [by apply tick_keeps|]. intros ? h1 Hf. pose proof Hf as (Hok1 & _).
    destruct (first_tmo_at h1 Hok1) as [t Ht]. eapply wp_eq; [exact Ht|]. by apply onward_fine.
  - eapply wp_assoc, wp_step; [apply poll_keeps|]. intros r h1 Hf. by apply onward_fine.
Qed.
End turn.

Lemma act_ok a w h : worker_ok w h -> activity_ok a -> wp (fun w' h' => worker_ok w' h') (act a w h).
Proof.
  intros Hw Ha. pose proof Hw as [Hok _]. destruct a as [e|hd n|a|a]; cbn [act activity_ok] in *.
  - by apply worker_step_ok.
  - eapply wp_step; [by apply recvfrom_keeps|]. intros ? h1 Hf. by eapply onward_fine.
  - eapply wp_step; [by apply commit_keeps|]. intros ? h1 Hf. by eapply onward_fine.
  - eapply wp_step; [by apply abort_keeps|]. intros ? h1 Hf. by eapply onward_fine.
Qed.

Lemma run_ok l w h : worker_ok w h -> Forall activity_ok l -> wp (fun w' h' => worker_ok w' h') (run l w h).
Proof.
  revert w h. induction l as [|a l IH]; intros w h Hw Hl; cbn [run]; [exact Hw|]. apply Forall_cons in Hl as [Ha Hl].
  eapply wp_step; [by apply act_ok|]. intros w1 h1 Hw1. by apply IH.
Qed.

Lemma start_ok arg now h :
  host_ok h -> (forall n, arg = Some n -> n ∈ dom (netif_buffer (stack h))) -> wp (fun w h' => worker_ok w h') (worker_start arg now h).
Proof.
  intros Hok Ha. unfold worker_start. eapply wp_eq; [reflexivity|]. cbn [wp mret M_ret]. split; [done|]. cbn. intros n.
  destruct arg as [m|]; [apply Ha|apply (default_in Hok)].
Qed.
