(* ===== verification/NetDemo.v ===== *)
(** * A concrete stack

    One Ethernet interface on the network device, with the handlers of ARP,
    IPv4, ICMP, UDP and TCP in place, one bound UDP control block, and TCP as
    [tcp_init] leaves it; the pool holds one packet with given bytes.  The state satisfies the invariants of the
    stack, so the theorems about them apply to it, and it is executable. *)

From S2P Require Import Prelude Tools IpAddr Nlist Timer Mblock Pktbuf PktbufSpec PktbufChain.
From S2P Require Import PktbufOps PktbufFrame Sys Fixq TcpState Net Netif Ether Arp NetifLink Ipv4 Icmp Udp Tcp Input.
From S2P Require Import Owner OwnerPkt OwnerQueue OwnerOut OwnerArp OwnerResolve OwnerIp OwnerIcmp OwnerUdp.
From S2P Require Import TcpInv OwnerTcp OwnerTcpInput OwnerInput.

(** ** The pool *)

Definition headroom : nat := 128.
Definition blank : bytes := replicate (Z.to_nat PKTBUF_BLK_SIZE) 0.

(** The packet 0 holds [bs]; the other packets and blocks are free. *)
Definition full_block (bs : bytes) : pktblk_t :=
  PktBlk (len bs) (Some (Z.of_nat headroom))
    (replicate headroom 0 ++ bs ++ replicate (Z.to_nat PKTBUF_BLK_SIZE - headroom - length bs) 0).
Definition full_buf (bs : bytes) : pktbuf_t :=
  PktBuf (len bs) [0%nat] 1 0 (Some 0%nat) (Some (Z.of_nat headroom)).
Definition spares {A} (x : A) : gmap nat A := list_to_map ((fun i => (i, x)) <$> seq 1 7).

Definition pool (bs : bytes) : pkt_state :=
  PktState (<[0%nat := full_block bs]> (spares (PktBlk 0 None blank))) (MBlock (seq 1 7))
    (<[0%nat := full_buf bs]> (spares (PktBuf 0 [] 0 0 None None))) (MBlock (seq 1 7)).

Lemma spares_lookup {A} (x y : A) i : spares x !! i = Some y <-> y = x /\ i ∈ seq 1 7.
Proof.
  unfold spares. rewrite <- elem_of_list_to_map.
  - rewrite list_elem_of_fmap. split; [by intros (j & [= -> ->] & Hj)|]. intros [-> Hi]. by exists i.
  - rewrite <- list_fmap_compose. cbn. apply NoDup_ListNoDup. repeat constructor; cbn; lia.
Qed.

Section pool.
Context (bs : bytes) (Hb : are_bytes bs) (Hl : 1 <= len bs <= 896).

Lemma pool_live b p : live (pool bs) b p <-> b = 0%nat /\ p = full_buf bs.
Proof.
  unfold live, pool. cbn [pktbuf_buffer pktbuf_list free_list].
  rewrite lookup_insert_Some, spares_lookup. split.
  - by intros [[[-> ->]|(_ & _ & H)] Hn].
  - intros [-> ->]. split; [by left|]. rewrite elem_of_seq. lia.
Qed.

Lemma full_block_used : blk_used (full_block bs).
Proof.
  unfold PKTBUF_BLK_SIZE in *. split; [split|].
  - cbn [payload full_block]. unfold headroom, PKTBUF_BLK_SIZE. rewrite !length_app, !length_replicate. lia.
  - cbn [payload full_block]. apply are_bytes_app; [by apply are_bytes_replicate|].
    apply are_bytes_app; [done|by apply are_bytes_replicate].
  - exists (Z.of_nat headroom). cbn [blk_data blk_size full_block]. unfold headroom, PKTBUF_BLK_SIZE. split; [done|lia].
Qed.

Lemma full_block_bytes : blk_bytes (full_block bs) = bs.
Proof.
  unfold blk_bytes. cbn [blk_data full_block blk_size payload]. rewrite !Nat2Z.id.
  rewrite drop_app_length' by (by rewrite length_replicate). apply take_app_length.
Qed.

Lemma pool_bytes : chain_bytes (block_buffer (pool bs)) [0%nat] = bs.
Proof. cbn [chain_bytes]. unfold bytes_of. cbn. rewrite app_nil_r. exact full_block_bytes. Qed.

Lemma pool_block i k : block_buffer (pool bs) !! i = Some k ->
  (i = 0%nat /\ k = full_block bs) \/ (k = PktBlk 0 None blank /\ i ∈ seq 1 7).
Proof. cbn [pool block_buffer]. rewrite lookup_insert_Some, spares_lookup. intuition. Qed.

Lemma pool_wf : pkt_wf (pool bs).
Proof.
  pose proof full_block_used as Hu.
  assert (H0 : 0%nat ∉ seq 1 7) by (rewrite elem_of_seq; lia).
  assert (Hdom : forall A (x y : A) i, i ∈ seq 1 7 -> i ∈ dom (<[0%nat := y]> (spares x))).
  { intros A x y i Hi. apply elem_of_dom. exists x. rewrite lookup_insert_ne by (intros <-; done).
    by apply spares_lookup. }
  split_and!; try apply NoDup_seq.
  - intros i. apply Hdom.
  - intros i. apply Hdom.
  - intros i k [[-> ->]|[-> _]]%pool_block; [apply Hu|]. split; [done|by apply are_bytes_replicate].
  - intros b p [-> ->]%pool_live. split_and!; cbn [ref full_buf blk_list total_size pos curr_blk blk_offset].
    + lia.
    + constructor; [|constructor]. exists (full_block bs). by split.
    + apply NoDup_singleton.
    + by rewrite pool_bytes.
    + lia.
    + lia.
    + unfold locate. cbn [seek_to]. unfold bytes_of. cbn [pool block_buffer]. rewrite lookup_insert_eq, full_block_bytes.
      destruct (Z.ltb_spec 0 (len bs)); [|lia]. reflexivity.
  - intros b p [-> ->]%pool_live. cbn. set_solver.
  - intros b b' p p' [-> ->]%pool_live [-> ->]%pool_live. done.
  - intros i [k Hk]%elem_of_dom. destruct (pool_block i k Hk) as [[-> ->]|[_ Hi]]; [right|by left].
    exists 0%nat, (full_buf bs). rewrite pool_live. split; [done|set_solver].
Qed.

Lemma pool_view : has_view (pool bs) 0 (View bs 0 1).
Proof. exists (full_buf bs). rewrite pool_live. split; [done|]. cbn [full_buf blk_list]. by rewrite pool_bytes. Qed.

Lemma pool_refs b : refs (pool bs) b = cnt b [0%nat].
Proof.
  destruct (decide (b = 0%nat)) as [->|Hne]; [by rewrite (refs_view _ _ _ _ _ pool_view)|].
  rewrite refs_dead; [|by intros p [-> _]%pool_live]. rewrite cnt_cons, decide_False by done. done.
Qed.
End pool.

(** ** The stack *)

Definition sem_with (count : Z) : net_sys_sem := NetSysSem (Sem count 0) true.
Definition demo_sys : sys_state :=
  SysState ([sem_with 16; sem_with 0; sem_with 16; sem_with 0; sem_with 8; sem_with 0; sem_with 0] ++
            replicate 61 (NetSysSem (Sem 0 0) false)) [].

Definition demo_queue {A} (n i : nat) : fixq_t A :=
  Fixq (Z.of_nat n) (replicate n None) 0 0 0 (Some i) (Some (S i)).

Definition demo_mac : bytes := [0x52; 0x54; 0; 0x12; 0x34; 0x56].
Definition demo_ip : Z := 0x0a00020f.
Definition peer_mac : bytes := [0x52; 0x55; 10; 0; 2; 2].
Definition peer_ip : Z := 0x0a000202.
Definition demo_netif : netif_t :=
  Netif (replicate NETIF_NAME_SIZE 0) (HwAddr 6 (demo_mac ++ [0; 0; 0; 0])) demo_ip 0xffffff00 peer_ip
    NETIF_ACTIVE NETIF_TYPE_ETHER 1500 (Some netif_virtio_ops) (Some ether_link_layer)
    (demo_queue NETIF_INQ_SIZE 0) (demo_queue NETIF_OUTQ_SIZE 2).

Definition demo_pcb : udp_pcb_t := UdpPcb 7777 true (demo_queue UDP_RECV_MAX 4) (Some 6%nat) false.
Definition idle_entry : arp_entry_t := ArpEntry 0 (replicate 6 0) NET_ARP_FREE 0 0 None [].

(** The timers of TCP, none of which runs, and that of the ARP cache, which
    expires in 400 ms. *)
Definition arp_timer : net_timer_t :=
  Timer (replicate (Z.to_nat TIMER_NAME_SIZE) 0) NET_TIMER_RELOAD 400 (ARP_TIMER_TMO * 1000) arp_cache_tmo_proc 0.
Definition demo_timers : timer_state :=
  TimerState (<[cache_timer := arp_timer]>
    (list_to_map ((fun t => (t, blank_timer)) <$> (seq 100 12 ++ seq 200 12 ++ seq 300 12)))) [cache_timer] [].

Definition demo_net (k : pkt_state) (rx : list (option bytes)) : net := {|
  pkt := k; sys := demo_sys; timers := demo_timers;
  netif_buffer := {[ 0%nat := demo_netif ]}; netif_mblock := MBlock [1; 2; 3]%nat; netif_list := [0%nat];
  netif_default := Some 0%nat; link_layers := [None; Some ether_link_layer; None]; loop_netif := None;
  ether_handlers := [(NET_PROTOCOL_ARP, Some ArpIn); (NET_PROTOCOL_IPV4, Some Ipv4In)];
  cache_entries := {[ 0%nat := idle_entry; 1%nat := idle_entry ]}; cache_blocks := MBlock [0; 1]%nat;
  cache_list := []; initialized := true;
  ipv4_handlers := <[1%nat := Some Icmpv4In]> (<[17%nat := Some UdpIn]> (<[6%nat := Some TcpIn]>
    (replicate IPV4_HANDLER_MAX None)));
  next_packet_id := 1; icmpv4_stats := no_stats;
  pcbs := Some 0%nat :: replicate 15 None; udp_pcbs := {[ 0%nat := demo_pcb ]};
  recv_records := replicate UDP_PCB_MAX (replicate UDP_RECV_MAX (UdpRecv None 0 0));
  tcp := tcp_cleared; tx_frames := []; tx_results := []; rx_results := rx; virtio_mac := Some demo_mac |}.

Lemma demo_queue_ok {A} n i c y :
  (0 < n)%nat -> Z.of_nat n <= INT_MAX -> sem_at y i (Z.of_nat n) -> sem_at y (S i) c -> 0 <= c <= INT_MAX ->
  fixq_ok y (demo_queue (A := A) n i) [i; S i] [].
Proof.
  intros Hn Hm Hi Hj Hc. split.
  - unfold ring_ok. cbn [demo_queue size buf in_ out count]. rewrite length_replicate. cbn [length]. split_and!; try lia; try done.
  - exists i, (S i), c. cbn [demo_queue send_sem recv_sem size length]. rewrite Z.sub_0_r. split_and!; done || lia.
Qed.

Lemma blank_pcb p : pcb_storage tcp_cleared !! p = Some Pcb.zero_pcb \/ pcb_storage tcp_cleared !! p = None.
Proof.
  cbn [tcp_cleared pcb_storage]. destruct (replicate _ _ !! p) as [x|] eqn:E; [left|by right].
  by apply lookup_replicate in E as [-> _].
Qed.

Section demo_net.
Context (k : pkt_state) (rx : list (option bytes)).
Abbreviation s := (demo_net k rx).

Lemma demo_sems u : sems_at s u =
  match u with
  | UIn 0 => [0; 1] | UOut 0 => [2; 3] | URecv 0 => [4; 5] | UClose 0 => [6]
  | _ => []
  end%nat.
Proof.
  assert (Hp : forall p, Some (S p) ∉ pcbs s).
  { intros p. cbn [pcbs demo_net]. rewrite elem_of_cons, elem_of_replicate. by intros [?|[? _]]. }
  destruct u as [[|n]|[|n]|[|n]|[|n]|p]; cbn [sems_at]; try done.
  all: first [by rewrite bool_decide_eq_false_2|cbn [netif_buffer demo_net]; by rewrite lookup_singleton_ne|idtac].
  cbn [tcp demo_net]. by destruct (blank_pcb p) as [-> | ->].
Qed.

Lemma demo_queues :
  queue_ok demo_sys (in_q demo_netif) /\ queue_ok demo_sys (out_q demo_netif) /\
  queue_ok demo_sys (recv_queue demo_pcb).
Proof.
  split; [|split]; (eapply fixq_ok_queue, (demo_queue_ok _ _ 0);
    [unfold NETIF_INQ_SIZE, NETIF_OUTQ_SIZE, UDP_RECV_MAX; lia|done|by eexists|by eexists|done]).
Qed.

Lemma demo_pcbs p x : Some p ∈ pcbs s -> udp_pcbs s !! p = Some x -> p = 0%nat /\ x = demo_pcb.
Proof. intros _ H. cbn in H. by apply lookup_singleton_Some in H as [<- <-]. Qed.

Lemma demo_holds pl : holds s pl = [].
Proof.
  destruct pl as [[|n]|[|n]|[|[|e]]|i j|p]; try done; cbn [holds netif_buffer cache_entries demo_net];
    [by rewrite lookup_singleton_ne|by rewrite lookup_singleton_ne|
     by rewrite lookup_insert_ne, lookup_singleton_ne| |].
  2: by cbn [tcp demo_net]; destruct (blank_pcb p) as [-> | ->].
  unfold record_buf. cbn [recv_records demo_net].
  destruct (decide (i < UDP_PCB_MAX)%nat).
  - rewrite lookup_replicate_2 by done. cbn [mbind option_bind].
    destruct (decide (j < UDP_RECV_MAX)%nat); [by rewrite lookup_replicate_2|].
    by rewrite (proj1 (lookup_replicate_None _ _ _)) by lia.
  - by rewrite (proj1 (lookup_replicate_None _ _ _)) by lia.
Qed.

Lemma demo_core o : pkt_wf k -> (forall b, refs k b = cnt b o) -> core o s.
Proof.
  intros Hwf Hr. destruct demo_queues as (Hqi & Hqo & Hqr). split.
  - done.
  - split_and!.
    + intros pl. rewrite demo_holds. apply NoDup_nil_2.
    + intros b pl pl'. rewrite demo_holds. set_solver.
    + intros b. right. split; [apply Hr|]. intros pl. rewrite demo_holds. set_solver.
  - intros n i. cbn [netif_buffer demo_net]. intros [<- <-]%lookup_singleton_Some. split_and!; [done|repeat constructor; done|done..].
  - intros p x Hp Hx. by destruct (demo_pcbs p x Hp Hx) as [-> ->].
  - intros u u' Hne. rewrite !demo_sems.
    destruct u as [[|n]|[|n]|[|n]|[|n]|p], u' as [[|n']|[|n']|[|n']|[|n']|p']; done || set_solver.
  - assert (H7 : forall q, (q < 7)%nat -> sem_live demo_sys q).
    { intros [|[|[|[|[|[|[|q]]]]]]] Hq; try lia; (eexists; split; [by eexists|done]). }
    intros u q. rewrite demo_sems. change (sys s) with demo_sys.
    destruct u as [[|n]|[|n]|[|n]|[|n]|p]; intros Hq; apply H7; set_solver by lia.
Qed.

Lemma demo_arp : arp_ok [] s.
Proof.
  split.
  - cbn [cache_list cache_blocks free_list demo_net cache_entries]. vm_compute. constructor.
  - intros e x He. cbn in He. set_solver.
  - intros e e' x x' He. cbn in He. set_solver.
  - intros e x _. cbn [cache_entries demo_net]. rewrite lookup_insert_Some.
    by intros [[_ <-]|[_ [_ <-]%lookup_singleton_Some]].
Qed.

Lemma demo_record i j : record_buf s i j = None.
Proof. pose proof (demo_holds (Stored i j)) as H. cbn [holds] in H. by destruct (record_buf s i j). Qed.

Lemma demo_udp : udp_ok s.
Proof.
  assert (Hone : forall i p, pcbs s !! i = Some (Some p) -> i = 0%nat /\ p = 0%nat).
  { intros [|i] p; [by intros [= <-]|].
    change (replicate 15 (@None nat) !! i = Some (Some p) -> S i = 0%nat /\ p = 0%nat).
    by intros [? _]%lookup_replicate. }
  split.
  - done.
  - split; [done|]. apply Forall_replicate, length_replicate.
  - intros i p [-> ->]%Hone. exists demo_pcb. split; [done|]. split_and!; try done.
    + apply NoDup_nil_2.
    + intros it Hit. cbn in Hit. set_solver.
    + intros j. rewrite demo_record. cbn. set_solver.
  - intros i i' p [-> ->]%Hone [-> _]%Hone. done.
  - intros i j _. apply demo_record.
  - intros p q x y Hp Hq Hne Hx Hy. destruct (demo_pcbs p x Hp Hx) as [-> _], (demo_pcbs q y Hq Hy) as [-> _]. done.
Qed.

Lemma demo_blank i tm : i <> cache_timer -> static_part demo_timers !! i = Some tm -> tm = blank_timer.
Proof.
  intros Hi. unfold static_part, demo_timers. cbn [Timer.timers]. rewrite lookup_fmap, lookup_insert_ne by done.
  intros (tm' & Htm & ->)%fmap_Some. apply elem_of_list_to_map_2, list_elem_of_fmap in Htm as (t & [= _ ->] & _). done.
Qed.

Lemma demo_timers_good : timers_good demo_timers.
Proof.
  split.
  - split_and!; [apply NoDup_singleton|repeat constructor; by eexists|by repeat constructor..].
  - intros t (p & Hp & Ht). unfold TCP_PCB_MAX in Hp. eexists. clear -Hp Ht.
    do 12 (destruct p as [|p]; [destruct Ht as [->|[-> | ->]]; reflexivity|]). lia.
  - by repeat constructor.
  - apply NoDup_singleton.
  - intros t ->%list_elem_of_singleton. eexists. split; [reflexivity|]. by constructor.
  - intros t tm (p & _ & Ht) Htm. rewrite (demo_blank t tm); [done| |done].
    destruct Ht as [-> | ->]; unfold cache_timer, retrans_timer, time_wait_timer; lia.
Qed.

Lemma demo_tcp : tcp_inv s.
Proof.
  split; [apply tcp_cleared_ok|apply demo_timers_good|done|].
  intros p x ->%cleared_pcb. assert (Hoff : forall t, t <> cache_timer -> armed (timers s) t = false).
  { intros t Ht. apply not_true_iff_false. rewrite armed_iff. by intros ->%list_elem_of_singleton. }
  split_and!; [(apply tick_off; [apply Hoff; unfold cache_timer, retrans_timer, time_wait_timer, release_timer; lia|done])..|].
  intros _. by right.
Qed.

Lemma demo_stack o : pkt_wf k -> (forall b, refs k b = cnt b o) -> stack_ok o s.
Proof. intros Hwf Hr. split; [by apply demo_core|apply demo_arp|apply demo_udp|apply demo_tcp|done]. Qed.

Lemma demo_loose b : loose s b.
Proof. intros pl. rewrite demo_holds. set_solver. Qed.
End demo_net.

(** The stack with the packet 0 in the caller's hands. *)
Definition with_packet (bs : bytes) : net := demo_net (pool bs) [].

Lemma with_packet_stack bs : are_bytes bs -> 1 <= len bs <= 896 -> stack_ok [0%nat] (with_packet bs).
Proof. intros Hb Hl. apply demo_stack; [by apply pool_wf|]. intros b. apply pool_refs. Qed.

Lemma with_packet_own bs : are_bytes bs -> 1 <= len bs <= 896 -> own [] (with_packet bs) 0 bs 0.
Proof.
  intros Hb Hl. split_and!; [by apply with_packet_stack|apply demo_loose|]. exists 1. by apply pool_view.
Qed.

(** The stack after it has learned the address of its peer. *)
Definition peer_entry : arp_entry_t := ArpEntry peer_ip peer_mac NET_ARP_RESOLVED 10 3 (Some 0%nat) [].
Definition peer_known (s : net) : net :=
  s <| cache_entries := {[ 0%nat := peer_entry; 1%nat := idle_entry ]} |>
    <| cache_blocks := MBlock [1%nat] |> <| cache_list := [0%nat] |>.

Section peer_known.
Context (k : pkt_state) (rx : list (option bytes)).
Abbreviation s := (peer_known (demo_net k rx)).

Lemma peer_known_entry e x : cache_entries s !! e = Some x ->
  (e = 0%nat /\ x = peer_entry) \/ (e = 1%nat /\ x = idle_entry).
Proof.
  cbn [cache_entries peer_known demo_net upd_field]. rewrite lookup_insert_Some.
  intros [[<- <-]|[_ [<- <-]%lookup_singleton_Some]]; auto.
Qed.

Lemma peer_known_holds pl : holds s pl = [].
Proof.
  destruct pl as [n|n|e|i j|p]; [exact (demo_holds k rx (InQueue n))|exact (demo_holds k rx (OutQueue n))| |
    exact (demo_holds k rx (Stored i j))|exact (demo_holds k rx (Unacked p))]. cbn [holds].
  destruct (cache_entries s !! e) as [x|] eqn:E; [|done]. by destruct (peer_known_entry e x E) as [[_ ->]|[_ ->]].
Qed.

Lemma peer_known_arp : arp_ok [] s.
Proof.
  split.
  - cbn [cache_list cache_blocks free_list peer_known cache_entries upd_field]. vm_compute. constructor.
  - intros e x He Hx. assert (e = 0%nat) as -> by (by apply list_elem_of_singleton in He).
    destruct (peer_known_entry 0 x Hx) as [[_ ->]|[? _]]; [|done].
    split; [exists 0%nat; split; [done|]; apply elem_of_dom; by eexists|].
    split_and!; try done. repeat constructor; done.
  - intros e e' x x' ->%list_elem_of_singleton ->%list_elem_of_singleton. done.
  - intros e x He Hx. destruct (peer_known_entry e x Hx) as [[-> _]|[_ ->]]; [|done].
    destruct He. by left.
Qed.

Lemma peer_known_stack o : stack_ok o (demo_net k rx) -> stack_ok o s.
Proof.
  intros [[Hwf Hacc Hni Hre Hse Hlv] _ [] [] ?]. split; [split; try done|apply peer_known_arp|by split|by split|done].
  eapply acct_ext; [exact Hacc|done| |done]. intros pl. by rewrite peer_known_holds, demo_holds.
Qed.
End peer_known.
