(* ===== verification/Boot.v ===== *)
(** * The start of the stack

    The variables of the stack as they are when the kernel starts, all zero, and
    the state [net_stack_init] leaves: the loopback interface and eth0 are
    active, and the invariants hold. *)

From S2P Require Import Prelude Tools IpAddr Nlist Timer Mblock Pktbuf PktbufSpec PktbufChain.
From S2P Require Import PktbufOps PktbufFrame Sys Fixq TcpState Net Netif Ether Arp NetifLink Ipv4.
From S2P Require Import Icmp Udp Tcp Input Owner OwnerPkt OwnerQueue OwnerOut OwnerArp OwnerResolve.
From S2P Require Import OwnerIp OwnerIcmp OwnerUdp TcpInv OwnerTcp OwnerTcpInput OwnerInput.
From S2P Require Import TcpQueue OwnerSegment NetStack OwnerStack OwnerWire.
From S2P Require Import Socket SocketInv OwnerSocket Worker OwnerWorker NetDemo.

(** ** Memory *)

(** [n] objects of a static array. *)
Definition array {A} (n : nat) (x : A) : gmap nat A := list_to_map ((fun i => (i, x)) <$> seq 0 n).

Lemma array_lookup {A} n (x y : A) i : array n x !! i = Some y <-> y = x /\ (i < n)%nat.
Proof.
  unfold array. rewrite <- elem_of_list_to_map.
  - rewrite list_elem_of_fmap. setoid_rewrite elem_of_seq. split; [intros (j & [= -> ->] & Hj); split; [done|lia]|].
    intros [-> Hi]. exists i. split; [done|lia].
  - rewrite <- list_fmap_compose. cbn. rewrite list_fmap_id. apply NoDup_seq.
Qed.

Definition zero_block : pktblk_t := PktBlk 0 None blank.
Definition zero_buf : pktbuf_t := PktBuf 0 [] 0 0 None None.
Definition zero_pool (bl pl : list nat) : pkt_state :=
  PktState (array (Z.to_nat PKTBUF_BLK_CNT) zero_block) (MBlock bl) (array (Z.to_nat PKTBUF_BUF_CNT) zero_buf) (MBlock pl).

Definition zero_udp : udp_pcb_t := UdpPcb 0 false (Fixq 0 [] 0 0 0 None None) None false.
Definition zero_records : list (list udp_recv_t) := replicate UDP_PCB_MAX (replicate UDP_RECV_MAX (UdpRecv None 0 0)).
Definition free_sem : net_sys_sem := NetSysSem (Sem 0 0) false.
Definition tcp_timers : list nat := seq 100 12 ++ seq 200 12 ++ seq 300 12.

Definition zero_net (k : pkt_state) (mac : bytes) : net := {|
  pkt := k; sys := SysState (replicate NET_SYS_SEM_MAX free_sem) [];
  timers := TimerState (list_to_map ((fun t => (t, blank_timer)) <$> (cache_timer :: tcp_timers))) [] [];
  netif_buffer := array (Z.to_nat NETIF_DEV_CNT) zero_netif; netif_mblock := MBlock []; netif_list := []; netif_default := None;
  link_layers := replicate (Z.to_nat NETIF_TYPE_SIZE) None; loop_netif := None; ether_handlers := replicate ETHER_HANDLER_MAX (0, None);
  cache_entries := array (Z.to_nat ARP_CACHE_SIZE) idle_entry; cache_blocks := MBlock []; cache_list := []; initialized := false;
  ipv4_handlers := replicate IPV4_HANDLER_MAX None; next_packet_id := 0; icmpv4_stats := no_stats;
  pcbs := replicate UDP_PCB_MAX None; udp_pcbs := array NET_SOCKET_MAX zero_udp; recv_records := zero_records;
  tcp := TcpVars (replicate TCP_PCB_MAX Pcb.zero_pcb) (replicate TCP_PCB_MAX None) (replicate TCP_PCB_MAX None) 0 0;
  tx_frames := []; tx_results := []; rx_results := []; virtio_mac := Some mac |}.

(** The kernel has started, and the device has the address [mac]. *)
Definition zero_host (mac : bytes) : host :=
  Host (zero_net (zero_pool [] []) mac) (replicate NET_SOCKET_MAX (Entry None 0 false false false 0)) None false
    (Fixq 0 [] 0 0 0 None None) (replicate NET_EXEC_QUEUE_SIZE None) false.

(** ** After net_stack_init *)

Definition boot_netif (name_ : bytes) (hw : netif_hwaddr_t) (ip mask : Z) (ty : netif_type_t) (o : netif_ops_t)
    (l : option link_layer_t) (k : nat) : netif_t :=
  Netif (netif_name_copy (Some name_)) hw ip mask 0 NETIF_ACTIVE ty 1500 (Some o) l
    (demo_queue NETIF_INQ_SIZE k) (demo_queue NETIF_OUTQ_SIZE (S (S k))).
Definition boot_loop : netif_t :=
  boot_netif loop_name (HwAddr 0 (replicate (Z.to_nat NETIF_HWADDR_SIZE) 0)) 0x7f000001 0xff000000 NETIF_TYPE_LOOP loop_ops None 10.
Definition boot_eth0 (mac : bytes) : netif_t :=
  boot_netif eth0_name (HwAddr 6 (mac ++ [0; 0; 0; 0])) 0xc0a86402 0xffffff00 NETIF_TYPE_ETHER netif_virtio_ops (Some ether_link_layer) 14.

Definition boot_sys : sys_state :=
  SysState ([sem_with 8] ++ replicate 9 (sem_with 0) ++ [sem_with 16; sem_with 0; sem_with 16; sem_with 0] ++
    [sem_with 16; sem_with 0; sem_with 16; sem_with 0] ++ replicate 50 free_sem) [].

Definition boot_arp_timer : net_timer_t :=
  Timer (timer_name_copy (replicate (Z.to_nat TIMER_NAME_SIZE) 0) [97; 114; 112; 32; 116; 105; 109; 101; 114]) NET_TIMER_RELOAD
    (ARP_TIMER_TMO * 1000) (ARP_TIMER_TMO * 1000) arp_cache_tmo_proc 0.
Definition boot_timers : timer_state :=
  TimerState (<[cache_timer := boot_arp_timer]> (list_to_map ((fun t => (t, blank_timer)) <$> tcp_timers))) [cache_timer] [].

Definition boot_net (k : pkt_state) (mac : bytes) : net := {|
  pkt := k; sys := boot_sys; timers := boot_timers;
  netif_buffer := <[0%nat := boot_loop]> (<[1%nat := boot_eth0 mac]> (array (Z.to_nat NETIF_DEV_CNT) zero_netif));
  netif_mblock := MBlock [2; 3]%nat; netif_list := [0; 1]%nat; netif_default := Some 1%nat;
  link_layers := [None; Some ether_link_layer; None]; loop_netif := Some 0%nat;
  ether_handlers := [(NET_PROTOCOL_ARP, Some ArpIn); (NET_PROTOCOL_IPV4, Some Ipv4In)] ++ replicate (ETHER_HANDLER_MAX - 2) (0, None);
  cache_entries := array (Z.to_nat ARP_CACHE_SIZE) idle_entry; cache_blocks := MBlock (seq 0 (Z.to_nat ARP_CACHE_SIZE));
  cache_list := []; initialized := true;
  ipv4_handlers := <[17%nat := Some UdpIn]> (<[1%nat := Some Icmpv4In]> (<[6%nat := Some TcpIn]> (replicate IPV4_HANDLER_MAX None)));
  next_packet_id := 0; icmpv4_stats := no_stats;
  pcbs := replicate UDP_PCB_MAX None; udp_pcbs := array NET_SOCKET_MAX zero_udp; recv_records := zero_records;
  tcp := tcp_cleared; tx_frames := []; tx_results := []; rx_results := []; virtio_mac := Some mac |}.

Definition boot_host (k : pkt_state) (mac : bytes) : host :=
  Host (boot_net k mac) (replicate NET_SOCKET_MAX (Entry None 1 false false false 0)) (Some 1%nat) true
    (demo_queue NET_EXEC_QUEUE_SIZE 0) (Some <$> seq 2 NET_EXEC_QUEUE_SIZE) true.

(** The pool is touched only by [mblock_init]. *)
Lemma boot_runs bb pp a b c d e f :
  net_stack_init (Host (zero_net (PktState bb (MBlock []) pp (MBlock [])) [a; b; c; d; e; f])
      (replicate NET_SOCKET_MAX (Entry None 0 false false false 0)) None false (Fixq 0 [] 0 0 0 None None)
      (replicate NET_EXEC_QUEUE_SIZE None) false) =
  Ret NET_ERR_OK (boot_host (PktState bb (MBlock (seq 0 (Z.to_nat PKTBUF_BLK_CNT))) pp (MBlock (seq 0 (Z.to_nat PKTBUF_BUF_CNT))))
    [a; b; c; d; e; f]).
Proof. vm_compute. reflexivity. Qed.

(** ** The invariants *)

Section pool.
Abbreviation nb := (Z.to_nat PKTBUF_BLK_CNT).
Abbreviation np := (Z.to_nat PKTBUF_BUF_CNT).
Definition boot_pool : pkt_state := zero_pool (seq 0 nb) (seq 0 np).

Lemma boot_dead b p : ~ live boot_pool b p.
Proof.
  intros [H Hn]. change (array np zero_buf !! b = Some p) in H. apply array_lookup in H as [_ Hb].
  apply Hn. change (b ∈ seq 0 np). apply elem_of_seq. lia.
Qed.

Lemma boot_pool_wf : pkt_wf boot_pool.
Proof.
  assert (Hdom : forall A (x : A) n i, i ∈ seq 0 n <-> i ∈ dom (array n x)).
  { intros A x n i. rewrite elem_of_seq, elem_of_dom. split.
    - intros Hi. exists x. apply array_lookup. split; [done|lia].
    - intros [y [_ ?]%array_lookup]. lia. }
  split_and!; try apply NoDup_seq.
  - intros i. apply Hdom.
  - intros i. apply Hdom.
  - intros i k Hk. change (array nb zero_block !! i = Some k) in Hk. apply array_lookup in Hk as [-> _].
    split; [done|by apply are_bytes_replicate].
  - intros b p Hp. by apply boot_dead in Hp.
  - intros b p Hp. by apply boot_dead in Hp.
  - intros b b' p p' Hp. by apply boot_dead in Hp.
  - intros i Hi. left. by apply (Hdom _ zero_block nb).
Qed.

Lemma boot_refs b : refs boot_pool b = cnt b [].
Proof. rewrite refs_dead; [done|]. intros p. apply boot_dead. Qed.
End pool.

Section booted.
Context (mac : bytes) (Hm : are_bytes mac) (Hl : length mac = 6%nat).
Abbreviation s := (boot_net boot_pool mac).

Lemma boot_netifs n i : netif_buffer s !! n = Some i ->
  (n = 0%nat /\ i = boot_loop) \/ (n = 1%nat /\ i = boot_eth0 mac) \/ (i = zero_netif /\ n <> 0%nat /\ n <> 1%nat).
Proof.
  change (netif_buffer s) with (<[0%nat := boot_loop]> (<[1%nat := boot_eth0 mac]> (array (Z.to_nat NETIF_DEV_CNT) zero_netif))).
  intros [[<- <-]|[H0 H]]%lookup_insert_Some; [by left|]. apply lookup_insert_Some in H as [[<- <-]|[H1 [-> _]%array_lookup]]; [by auto|].
  right. right. by split_and!.
Qed.

Lemma boot_records i j : record_buf s i j = None.
Proof.
  unfold record_buf. change (recv_records s) with zero_records. unfold zero_records.
  destruct (replicate _ _ !! i) as [row|] eqn:E; [|done]. apply lookup_replicate in E as [-> _]. cbn [mbind option_bind].
  destruct (replicate _ _ !! j) as [r|] eqn:E; [|done]. by apply lookup_replicate in E as [-> _].
Qed.

Lemma boot_pcbs p : Some p ∉ pcbs s.
Proof. change (pcbs s) with (replicate UDP_PCB_MAX (@None nat)). by intros [? _]%elem_of_replicate. Qed.

Lemma boot_holds pl : holds s pl = [].
Proof.
  destruct pl as [n|n|e|i j|p]; cbn [holds].
  - destruct (netif_buffer s !! n) as [i|] eqn:E; [|done]. by destruct (boot_netifs n i E) as [[_ ->]|[[_ ->]|[-> _]]].
  - destruct (netif_buffer s !! n) as [i|] eqn:E; [|done]. by destruct (boot_netifs n i E) as [[_ ->]|[[_ ->]|[-> _]]].
  - destruct (cache_entries s !! e) as [x|] eqn:E; [|done]. change (array (Z.to_nat ARP_CACHE_SIZE) idle_entry !! e = Some x) in E.
    by apply array_lookup in E as [-> _].
  - by rewrite boot_records.
  - change (tcp s) with tcp_cleared. by destruct (blank_pcb p) as [-> | ->].
Qed.

Lemma boot_sems u : sems_at s u =
  match u with
  | UIn 0 => [10; 11] | UOut 0 => [12; 13] | UIn 1 => [14; 15] | UOut 1 => [16; 17]
  | _ => []
  end%nat.
Proof.
  destruct u as [n|n|p|p|p]; cbn [sems_at].
  - destruct (netif_buffer s !! n) as [i|] eqn:E.
    + by destruct (boot_netifs n i E) as [[-> ->]|[[-> ->]|(-> & ? & ?)]]; [..|destruct n as [|[|n]]].
    + destruct n as [|[|n]]; done.
  - destruct (netif_buffer s !! n) as [i|] eqn:E.
    + by destruct (boot_netifs n i E) as [[-> ->]|[[-> ->]|(-> & ? & ?)]]; [..|destruct n as [|[|n]]].
    + destruct n as [|[|n]]; done.
  - rewrite bool_decide_eq_false_2; [by destruct p|apply boot_pcbs].
  - rewrite bool_decide_eq_false_2; [by destruct p|apply boot_pcbs].
  - change (tcp s) with tcp_cleared. by destruct (blank_pcb p) as [-> | ->].
Qed.

Lemma boot_core : core [] s.
Proof using Hm Hl.
  split.
  - apply boot_pool_wf.
  - split_and!.
    + intros pl. rewrite boot_holds. apply NoDup_nil_2.
    + intros b pl pl'. rewrite boot_holds. by intros ?%not_elem_of_nil.
    + intros b. right. split; [apply boot_refs|]. intros pl. rewrite boot_holds. apply not_elem_of_nil.
  - assert (Hq : forall n k, (0 < n)%nat -> Z.of_nat n <= INT_MAX -> sem_at boot_sys k (Z.of_nat n) -> sem_at boot_sys (S k) 0 ->
      queue_ok boot_sys (demo_queue (A := nat) n k)).
    { intros n k H1 H2 H3 H4. by eapply fixq_ok_queue, (demo_queue_ok _ _ 0). }
    intros n i Hi. change (sys s) with boot_sys. destruct (boot_netifs n i Hi) as [[_ ->]|[[_ ->]|[-> _]]].
    + split_and!; [done|by apply are_bytes_replicate|]. intros _.
      split; (apply Hq; [unfold NETIF_INQ_SIZE, NETIF_OUTQ_SIZE; lia|done|by eexists|by eexists]).
    + split_and!; cbn [boot_eth0 boot_netif hwaddr hw_addr].
      * rewrite length_app, Hl. done.
      * apply are_bytes_app; [done|]. repeat constructor; done.
      * intros _. split; (apply Hq; [unfold NETIF_INQ_SIZE, NETIF_OUTQ_SIZE; lia|done|by eexists|by eexists]).
    + split_and!; [done|by apply are_bytes_replicate|done].
  - intros p x Hp. by apply boot_pcbs in Hp.
  - intros u u' Hne. rewrite !boot_sems.
    destruct u as [[|[|n]]|[|[|n]]|p|p|p], u' as [[|[|n']]|[|[|n']]|p'|p'|p']; done || set_solver.
  - assert (Hlive : forall q, (10 <= q < 18)%nat -> sem_live boot_sys q).
    { intros q Hq. do 18 (destruct q as [|q]; [first [lia|eexists; split; [by eexists|done]]|]). lia. }
    intros u q. rewrite boot_sems. change (sys s) with boot_sys.
    destruct u as [[|[|n]]|[|[|n]]|p|p|p]; intros Hq; apply Hlive; set_solver by lia.
Qed.

Lemma boot_arp : arp_ok [] s.
Proof.
  split.
  - change (seq 0 8 ≡ₚ elements (dom (array 8 idle_entry))). apply NoDup_Permutation; [apply NoDup_seq|apply NoDup_elements|].
    intros i. rewrite elem_of_elements, elem_of_dom, elem_of_seq. split.
    + intros Hi. exists idle_entry. apply array_lookup. split; [done|lia].
    + intros [x [_ ?]%array_lookup]. lia.
  - intros e x He. by apply not_elem_of_nil in He.
  - intros e e' x x' He. by apply not_elem_of_nil in He.
  - intros e x _ Hx. change (array (Z.to_nat ARP_CACHE_SIZE) idle_entry !! e = Some x) in Hx. by apply array_lookup in Hx as [-> _].
Qed.

Lemma boot_udp : udp_ok s.
Proof.
  assert (Hno : forall i p, pcbs s !! i <> Some (Some p)).
  { intros i p Hi. apply (boot_pcbs p). by eapply list_elem_of_lookup_2. }
  split.
  - done.
  - split; [done|]. apply Forall_replicate, length_replicate.
  - intros i p Hi. by apply Hno in Hi.
  - intros i i' p Hi. by apply Hno in Hi.
  - intros i j _. apply boot_records.
  - intros p q x y Hp. by apply boot_pcbs in Hp.
Qed.

Lemma boot_timer_static t : t <> cache_timer -> static_part boot_timers !! t = static_part demo_timers !! t.
Proof.
  intros Ht. unfold static_part, boot_timers, demo_timers, tcp_timers. cbn [Timer.timers].
  by rewrite !lookup_fmap, !lookup_insert_ne.
Qed.

Lemma boot_timers_good : timers_good boot_timers.
Proof.
  destruct demo_timers_good as [_ H2 _ _ _ H6].
  assert (Hc : forall p, retrans_timer p <> cache_timer /\ time_wait_timer p <> cache_timer /\ release_timer p <> cache_timer).
  { intros p. unfold cache_timer, retrans_timer, time_wait_timer, release_timer. lia. }
  split.
  - split_and!; [apply NoDup_singleton|repeat constructor; by eexists|by repeat constructor..].
  - intros t Ht. rewrite boot_timer_static; [by apply H2|]. destruct Ht as (p & _ & [->|[-> | ->]]); destruct (Hc p) as (C1 & C2 & C3); assumption.
  - by repeat constructor.
  - apply NoDup_singleton.
  - intros t ->%list_elem_of_singleton. eexists. split; [reflexivity|]. by constructor.
  - intros t tm Ht. rewrite boot_timer_static; [by apply H6|]. destruct Ht as (p & _ & [-> | ->]); destruct (Hc p) as (C1 & C2 & C3); assumption.
Qed.

Lemma boot_tcp : tcp_inv s.
Proof.
  split; [apply tcp_cleared_ok|apply boot_timers_good|done|].
  intros p x ->%cleared_pcb. assert (Hoff : forall t, t <> cache_timer -> armed (timers s) t = false).
  { intros t Ht. apply not_true_iff_false. rewrite armed_iff. by intros ->%list_elem_of_singleton. }
  split_and!; [(apply tick_off; [apply Hoff; unfold cache_timer, retrans_timer, time_wait_timer, release_timer; lia|done])..|].
  intros _. by right.
Qed.

Lemma boot_host_ok : host_ok (boot_host boot_pool mac).
Proof using Hm Hl.
  assert (He : forall i e, entries (boot_host boot_pool mac) !! i = Some e -> e = Entry None 1 false false false 0).
  { intros i e Hi. change (replicate NET_SOCKET_MAX (Entry None 1 false false false 0) !! i = Some e) in Hi.
    by apply lookup_replicate in Hi as [-> _]. }
  split.
  - split; [apply boot_core|apply boot_arp|apply boot_udp|apply boot_tcp|done].
  - split; [done|]. by apply Forall_replicate.
  - intros i Hi. exists zero_udp. by apply array_lookup.
  - intros i e Hi. rewrite (He i e Hi). done.
  - intros p x Hp. by apply boot_pcbs in Hp.
  - intros n Hn. apply elem_of_dom. destruct Hn as [[= <-]|[= <-]]; by eexists.
Qed.
End booted.

(** [net_stack_init] succeeds and establishes the invariants. *)
Lemma boot_ok mac :
  are_bytes mac -> length mac = 6%nat ->
  net_stack_init (zero_host mac) = Ret NET_ERR_OK (boot_host boot_pool mac) /\ host_ok (boot_host boot_pool mac).
Proof.
  intros Hm Hl. split; [|by apply boot_host_ok].
  destruct mac as [|a [|b [|c [|d [|e [|f [|? ?]]]]]]]; try discriminate Hl. exact (boot_runs _ _ a b c d e f).
Qed.

(** * A session

    From the start of the kernel to an open connection: the stack is
    initialised, a task opens a TCP socket and connects it, the peer answers
    the ARP request and then the SYN.  Every state on the way is computed with
    the definitions, and the invariants hold there because the worker keeps
    them. *)

Import Pcb.

Definition server_ip : Z := 0xc0a86401.
Definition server_mac : bytes := [0x52; 0x55; 192; 168; 100; 1].
Definition eth0 : netif_t := boot_eth0 demo_mac.

(** The server's end of the connection. *)
Definition server : tcp_pcb_t :=
  zero_pcb <| local_ip := server_ip |> <| remote_ip := ipaddr eth0 |> <| local_port := 80 |> <| remote_port := 49152 |>.
Definition from_server (seq ack flags : Z) (data : bytes) : bytes :=
  frame_for eth0 server_mac 5 NET_PROTOCOL_TCP server_ip (tcp_segment server seq ack flags data).
Definition server_arp : bytes :=
  eth_frame demo_mac server_mac NET_PROTOCOL_ARP (arp_bytes ARP_REPLY server_mac server_ip demo_mac (ipaddr eth0)).

(** Requests of a task for its first socket. *)
Definition client : Z := socket_handle 1 0.
Definition ask_open : socket_exec_t := SocketExec SOCKET_EXEC_OPEN 0 NET_SOCKET_TCP 0 None 0 0 0.
Definition ask_connect : socket_exec_t := SocketExec SOCKET_EXEC_CONNECT client 0 80 None 0 server_ip 0.

Definition asked (r : socket_exec_t) : activity := Turn (Outside (Some r) 0 None).
Definition heard (f : bytes) : activity := Turn (Outside None 0 (Some f)).
Definition idle : activity := Turn (Outside None 0 None).

Definition handshake : list activity :=
  [asked ask_open; asked ask_connect; idle; idle; idle; idle; heard server_arp;
   heard (from_server 5000 1001 (Z.lor TCP_FLAG_SYN TCP_FLAG_ACK) [])].

Definition session (l : list activity) : M host worker :=
  net_stack_init;; w ← worker_start None 0; run l w.

(** ** The invariants *)

Lemma session_ok mac l :
  are_bytes mac -> length mac = 6%nat -> Forall activity_ok l ->
  wp (fun w h => worker_ok w h) (session l (zero_host mac)).
Proof.
  intros Hm Hl Ha. destruct (boot_ok mac Hm Hl) as [Hi Hok]. unfold session. eapply wp_eq; [exact Hi|].
  eapply wp_step; [by apply start_ok|]. intros w h Hw. by apply run_ok.
Qed.

Lemma demo_mac_ok : are_bytes demo_mac /\ length demo_mac = 6%nat.
Proof. split; [by repeat constructor|done]. Qed.

(** The state after the activities [l]. *)
Definition after (l : list activity) : host :=
  match session l (zero_host demo_mac) with Ret _ h => h | Stuck => zero_host demo_mac end.

Lemma after_ok l : Forall activity_ok l -> host_ok (after l).
Proof.
  intros Ha. unfold after. destruct demo_mac_ok as [Hm Hl]. pose proof (session_ok demo_mac l Hm Hl Ha) as H.
  destruct (session _ _) as [w h|]; [apply H|done].
Qed.

Lemma asked_ok r :
  0 <= req_port r < 2 ^ 16 -> 0 <= address r < 2 ^ 32 -> op r = SOCKET_EXEC_OPEN \/ op r = SOCKET_EXEC_CONNECT -> activity_ok (asked r).
Proof.
  intros Hp Ha Ho. split; [|done]. intros ? [= <-]. split; [done..|]. intros [E|E]; rewrite E in Ho; by destruct Ho.
Qed.

Definition all_bytes (f : bytes) : bool := forallb (fun b => (0 <=? b) && (b <? 256)) f.
Lemma all_bytes_ok f : all_bytes f = true -> are_bytes f.
Proof.
  intros Hf. apply Forall_forall. intros b Hb. unfold all_bytes in Hf. rewrite forallb_forall in Hf.
  specialize (Hf b (proj1 (list_elem_of_In _ _) Hb)). by apply andb_true_iff in Hf as [?%Z.leb_le ?%Z.ltb_lt].
Qed.
Lemma heard_ok f : all_bytes f = true -> activity_ok (heard f).
Proof. intros Hf. split; [done|]. by apply all_bytes_ok. Qed.

Lemma handshake_ok : Forall activity_ok handshake.
Proof.
  unfold handshake. repeat (apply Forall_cons; split); [..|constructor].
  1-2: apply asked_ok; [done|done|by (left + right)].
  1-4: by split.
  1-2: apply heard_ok; vm_compute; reflexivity.
Qed.

(** ** Talking *)

Definition word : bytes := [104; 101; 108; 108; 111].
Definition says : bytes := from_server 5001 1001 (Z.lor TCP_FLAG_PSH TCP_FLAG_ACK) word.

(** The connection is established, and the device has a frame with data. *)
Definition connected : net := (stack (after handshake)) <| rx_results := [Some says] |>.
(** The data has arrived. *)
Definition talked : net := stack (after (handshake ++ [heard says])).

Lemma connected_ok : stack_ok [] connected.
Proof. exact (stack_ok_rx _ _ _ (host_stack _ (after_ok _ handshake_ok))). Qed.
Lemma talked_ok : stack_ok [] talked.
Proof.
  apply host_stack, after_ok, Forall_app. split; [apply handshake_ok|]. constructor; [|constructor].
  apply heard_ok. vm_compute. reflexivity.
Qed.

Definition client_pcb (s : net) : tcp_pcb_t := default zero_pcb (pcb_storage (tcp s) !! 0%nat).

Example connected_state :
  let x := client_pcb connected in
  (opened x, state x, snd_una x, snd_nxt x, rcv_nxt x, recv_count x) = (true, TCP_STATE_ESTABLISHED, 1001, 1001, 5001, 0).
Proof. vm_compute. reflexivity. Qed.

Example talked_state :
  let x := client_pcb talked in (state x, rcv_nxt x, TcpQueue.received x) = (TCP_STATE_ESTABLISHED, 5006, word).
Proof. vm_compute. reflexivity. Qed.
