(* ===== verification/NetProps.v ===== *)
(** * The network stack as a whole: the properties and their witnesses *)

From S2P Require Import Prelude Tools IpAddr Nlist Timer Mblock Pktbuf PktbufSpec PktbufChain.
From S2P Require Import PktbufOps PktbufFrame Sys Fixq TcpState Net Netif Ether Arp NetifLink Ipv4 Icmp Udp Tcp Input.
From S2P Require Import NetStack Owner OwnerPkt OwnerQueue OwnerOut OwnerArp OwnerResolve OwnerIp.
From S2P Require Import OwnerIcmp OwnerUdp OwnerTcp OwnerTcpInput OwnerInput OwnerStack OwnerRecv OwnerWire NetDemo.

#[local] Opaque checksum16.

(** ** Ownership *)

(** C4: whatever frame the device delivers, [net_stack_poll_once] returns with
    the invariants of the stack intact: every packet is free, or owned once by
    a queue, a waiting list, a received datagram or a caller, so nothing leaks
    and nothing is freed twice; and the packets of the callers are untouched. *)
Theorem poll_once_keeps_packets o s n :
  stack_ok o s -> n ∈ dom (netif_buffer s) -> Forall (fun f => are_bytes (default [] f)) (rx_results s) ->
  exists r s', net_stack_poll_once tcp_in (Some n) s = Ret r s' /\ stack_ok o s' /\ spared [] s s'.
Proof.
  intros. apply wp_exists. eapply wp_mono; [|by apply (poll_once_ok tcp_in o)]. by intros r s' (? & ? & _).
Qed.

(** C26: an input function that fails leaves the packet to its caller, and one
    that succeeds has taken it, whatever the bytes of the packet are. *)
Theorem ether_in_ownership o s b bs m n :
  own o s b bs m -> stack_ok (b :: o) s -> n ∈ dom (netif_buffer s) ->
  exists r s', ether_in tcp_in (Some n) (Some b) s = Ret r s' /\
    stack_ok (if r <? 0 then b :: o else o) s' /\ passed [b] s s'.
Proof. intros. apply wp_exists. by eapply (ether_in_ok tcp_in). Qed.

(** [arp_in] takes a packet only if it is an ARP packet for IPv4 over
    Ethernet, and then the cache maps its sender's address to its sender's
    hardware address; the cache stays well formed in any case. *)
Lemma arp_in_learns o s b bs m n :
  own o s b bs m -> arp_ok [] s -> n ∈ dom (netif_buffer s) ->
  exists r s', arp_in (Some n) (Some b) s = Ret r s' /\ accepts o b r s' /\ arp_ok [] s' /\
    (0 <= r -> arp_valid bs = true /\ resolved s' n (sender_ip bs) (sender_mac bs)).
Proof.
  intros Hown Ha Hd. apply wp_exists. eapply wp_mono; [|by apply (arp_in_ok o s b bs m n)]. by intros r s' (? & ? & _ & ?).
Qed.

(** ** From end to end *)


(** C7: [udp_sendto] succeeds only with one frame on the wire, addressed to the
    hardware address of the destination, whose datagram holds the segment with
    the ports, the length, the checksum and the bytes of the caller. *)
Theorem udp_sendto_on_wire o s p x n i a mac dport data :
  stack_ok o s -> udp_pcbs s !! p = Some x -> pcb_open x = true -> line s n i -> known s n i a mac ->
  dport <> 0 -> are_bytes data -> UDP_HEADER_SIZE + len data < 2 ^ 16 ->
  exists r s', udp_sendto (Some p) (Some n) (Some a) dport (Some data) (len data) s = Ret r s' /\
    (0 <= r -> tx_frames s' = tx_frames s ++
      [ip_frame s i mac NET_PROTOCOL_UDP a (udp_segment (local_port x) dport (ipaddr i) a data)]).
Proof.
  intros [Hc Ha _ _] Hx Ho Hl Hk Hd Hb Hlen. apply wp_exists. by eapply udp_sendto_wire.
Qed.

Lemma port_owner_unique s port i p i' p' :
  udp_ok s -> port <> 0 -> port_owner s port i p -> port_owner s port i' p' -> i' = i /\ p' = p.
Proof.
  intros Hu Hp [Hi (x & Hx & Ho & Hl)] [Hi' (x' & Hx' & Ho' & Hl')].
  assert (p' = p) as ->; [|by split; [eapply udp_once|]].
  destruct (decide (p' = p)) as [|Hne]; [done|]. destruct Hp. rewrite <- Hl'.
  eapply (udp_ports _ Hu p' p x' x); try done; [by eapply list_elem_of_lookup_2..|congruence].
Qed.

Lemma udp_segment_shape sport dport src dest data :
  exists h, udp_segment sport dport src dest data = h ++ data /\ length h = 8%nat /\ are_bytes h.
Proof.
  unfold udp_segment. set (c := if _ =? 0 then _ else _). clearbody c. eexists. split; [reflexivity|]. split; [done|].
  unfold udp_hdr. by eauto with bytes.
Qed.

Lemma datagram_of_segment sport dport src dest data size port a b :
  0 <= size -> let copied := Z.min size (len data) in
  datagram_of (UdpRecv b a port) (udp_segment sport dport src dest data) size =
  (copied, Received (take (Z.to_nat copied) data) (Some a) (Some port)).
Proof.
  intros Hs. destruct (udp_segment_shape sport dport src dest data) as (h & -> & Hh & _).
  unfold datagram_of, UDP_HEADER_SIZE. rewrite length_app, Hh, (proj2 (Z.ltb_ge _ _)) by lia.
  rewrite (drop_app_length' h data 8) by lia. cbn [rec_src rec_port]. do 3 f_equal; lia.
Qed.

(** The control block that got the datagram gives it to its reader. *)
Lemma delivered_received task_sleep fuel mtime o s s' i p b seg a port x size :
  core o s' -> arp_ok [] s' -> udp_ok s' -> pcbs s' !! i = Some (Some p) ->
  delivered s s' i p b seg a port -> udp_pcbs s !! p = Some x -> pcb_open x = true -> recv_waiting x = false ->
  q_list (recv_queue x) = [] -> 0 <= size ->
  exists s2, udp_recvfrom task_sleep fuel mtime (Some p) true size (-1) s' =
    Ret (datagram_of (UdpRecv (Some b) a port) seg size) s2.
Proof.
  intros Hc Ha Hu Hi (k & x0 & q & m & rc & Hrec & Hx0 & Hx' & Hq' & Hv) Hx Ho Hw Hq Hsz.
  rewrite Hx in Hx0. injection Hx0 as <-. rewrite Hq in Hq'. cbn [app] in Hq'.
  pose proof (udp_recvfrom_ok task_sleep fuel mtime o s' i p _ size Hc Ha Hu Hi Hx' Ho Hw Hsz) as H.
  change (recv_queue (x <| recv_queue := q |>)) with q in H. rewrite Hq' in H.
  destruct (udp_recvfrom _ _ _ _ _ _ _ _) as [res s2|]; [|done]. exists s2. f_equal.
  destruct H as (_ & _ & _ & _ & _ & _ & k' & r & b' & seg' & m' & rc' & x' & [= <-] & Hr & Hb & Hv' & -> & _).
  rewrite Hrec in Hr. injection Hr as <-. injection Hb as <-.
  destruct Hv as (pb & [Hp _] & [= -> _ _]), Hv' as (pb' & [Hp' _] & [= -> _ _]).
  rewrite Hp in Hp'. by injection Hp' as <-.
Qed.


(** ** Ports and addresses *)

(** After [udp_bind] succeeded the port has one owner, the control block
    that was bound; a port that another open control block owns is refused,
    and a refused call changes nothing. *)
Lemma udp_bind_exclusive o s p port :
  stack_ok o s -> is_Some (udp_pcbs s !! p) -> 0 <= port < 2 ^ 16 ->
  exists r s', udp_bind (Some p) port s = Ret r s' /\ udp_ok s' /\
    ((r = NET_ERR_PARAM /\ s' = s) \/
     (r = NET_ERR_EXIST /\ s' = s /\ exists i q, q <> p /\ port_owner s port i q) \/
     (r = NET_ERR_OK /\ exists i, port_owner s' port i p /\ forall i' q, port_owner s' port i' q -> q = p)).
Proof.
  intros [Hc _ Hu _] Hp Hport. apply wp_exists. eapply wp_mono; [|by apply (udp_bind_ok o)].
  by intros r s' (_ & ? & _ & ?).
Qed.

(** C27: [arp_resolve] sends the packet, lets it wait or frees it, and the cache
    stays within its bounds: no more entries than it has blocks, no two entries
    for one address, and at most [ARP_MAX_PKT_WAIT] packets for an entry. *)
Theorem arp_resolve_bounded o s b bs m n a :
  own o s b bs m -> arp_ok [] s -> n ∈ dom (netif_buffer s) -> 0 <= a < 2 ^ 32 ->
  exists r s', arp_resolve (Some n) (Some a) (Some b) s = Ret r s' /\ core o s' /\
    (length (cache_list s') <= length (elements (dom (cache_entries s'))))%nat /\ NoDup (cache_list s') /\
    (forall e x, e ∈ cache_list s' -> cache_entries s' !! e = Some x -> len (buf_list x) <= ARP_MAX_PKT_WAIT) /\
    (forall e e' x x', e ∈ cache_list s' -> e' ∈ cache_list s' -> cache_entries s' !! e = Some x ->
       cache_entries s' !! e' = Some x' -> arp_netif x = arp_netif x' -> paddr x = paddr x' -> e = e').
Proof.
  intros Hown Ha Hd Hr. apply wp_exists. eapply wp_mono; [|by eapply arp_resolve_ok].
  intros r s' (Hc' & Ha' & _). split; [done|]. split; [|split; [by eapply arp_list_nodup|split]].
  - pose proof (Permutation_length (arp_perm _ _ Ha')) as Hl. rewrite !length_app in Hl.
    lia.
  - intros e x He Hx. by destruct (arp_used _ _ Ha' e x He Hx) as (_ & _ & _ & _ & _ & ?).
  - apply (arp_keys _ _ Ha').
Qed.

(** [arp_clear] forgets every address that was learned from the interface,
    frees the packets that waited for them, and keeps the other entries. *)
Lemma arp_clear_forgets o s n :
  core o s -> arp_ok [] s -> initialized s = true ->
  exists r s', arp_clear (Some n) s = Ret r s' /\ core o s' /\ arp_ok [] s' /\ fewer s s' /\
    forall e x, e ∈ cache_list s' -> cache_entries s' !! e = Some x -> arp_netif x <> Some n.
Proof.
  intros Hc Ha Hi. apply wp_exists. eapply wp_mono; [|by apply (arp_clear_ok o)].
  intros r s' (? & ? & _ & ? & H). split_and!; [done..|by apply H].
Qed.

(** ** Witnesses *)

Definition seven : bytes := [7].
Lemma seven_ok : are_bytes seven /\ 1 <= len seven <= 896.
Proof. split; [by repeat constructor|]. cbn. lia. Qed.
Lemma seven_stack rx : stack_ok [0%nat] (demo_net (pool seven) rx).
Proof. destruct seven_ok. apply demo_stack; [by apply pool_wf|]. intros b. by apply pool_refs. Qed.
Lemma demo_dom k rx : 0%nat ∈ dom (netif_buffer (demo_net k rx)).
Proof. apply elem_of_dom. by eexists. Qed.

Lemma poll_once_keeps_packets_witness :
  exists r s', net_stack_poll_once tcp_in (Some 0%nat) (demo_net (pool seven) [Some (replicate 60 255)]) = Ret r s' /\
    stack_ok [0%nat] s'.
Proof.
  destruct (poll_once_keeps_packets [0%nat] _ 0 (seven_stack [Some (replicate 60 255)]) (demo_dom _ _))
    as (r & s' & H & Hst & _).
  - constructor; [by apply are_bytes_replicate|constructor].
  - exists r, s'. exact (conj H Hst).
Defined.

Lemma ether_in_ownership_witness :
  exists r s', ether_in tcp_in (Some 0%nat) (Some 0%nat) (with_packet seven) = Ret r s' /\
    stack_ok (if r <? 0 then [0%nat] else []) s'.
Proof.
  destruct seven_ok as [Hb Hl].
  destruct (ether_in_ownership [] _ 0 seven 0 0 (with_packet_own seven Hb Hl) (with_packet_stack seven Hb Hl)
    (demo_dom _ _)) as (r & s' & H & Hst & _). exists r, s'. exact (conj H Hst).
Defined.

Definition arp_reply_packet : bytes := arp_bytes ARP_REPLY peer_mac peer_ip demo_mac demo_ip.
Lemma arp_reply_packet_ok : are_bytes arp_reply_packet /\ 1 <= len arp_reply_packet <= 896.
Proof. split; [by repeat constructor|]. cbn. lia. Qed.


Lemma demo_line rx : line (peer_known (demo_net (pool seven) rx)) 0 demo_netif.
Proof. by split. Qed.

Lemma demo_ready rx proto h :
  mjoin (ipv4_handlers (demo_net (pool seven) rx) !! Z.to_nat proto) = Some h ->
  ready (peer_known (demo_net (pool seven) rx)) 0 demo_netif proto h.
Proof. intros Hh. split; [apply demo_line|done..|exact Hh]. Qed.

Lemma demo_knows rx : known (peer_known (demo_net (pool seven) rx)) 0 demo_netif peer_ip peer_mac.
Proof. split; [|done]. exists 0%nat, peer_entry. split; [by left|done]. Qed.

Definition ping : bytes :=
  frame_for demo_netif peer_mac 5 NET_PROTOCOL_ICMPV4 peer_ip (icmp_request 1 2 [1; 2; 3; 4]).
Definition pinged : net := peer_known (demo_net (pool seven) [Some ping]).


(** The call does succeed there. *)
Example pinged_ok :
  match net_stack_poll_once tcp_in (Some 0%nat) pinged with
  | Ret r s' => (r =? NET_ERR_OK) && (length (tx_frames s') =? 1)%nat
  | Stuck => false
  end = true.
Proof. vm_compute. reflexivity. Qed.

Lemma udp_sendto_on_wire_witness :
  exists r s', udp_sendto (Some 0%nat) (Some 0%nat) (Some peer_ip) 53 (Some [1; 2; 3]) 3
      (peer_known (demo_net (pool seven) [])) = Ret r s' /\
    (0 <= r -> tx_frames s' = [] ++ [ip_frame (peer_known (demo_net (pool seven) [])) demo_netif peer_mac
      NET_PROTOCOL_UDP peer_ip (udp_segment 7777 53 demo_ip peer_ip [1; 2; 3])]).
Proof.
  apply (udp_sendto_on_wire [0%nat] (peer_known (demo_net (pool seven) [])) 0 demo_pcb 0 demo_netif peer_ip peer_mac 53 [1; 2; 3]).
  - apply peer_known_stack, seven_stack.
  - reflexivity.
  - reflexivity.
  - apply demo_line.
  - apply demo_knows.
  - lia.
  - by repeat constructor.
  - unfold UDP_HEADER_SIZE. cbn. lia.
Defined.

Definition message : bytes :=
  frame_for demo_netif peer_mac 5 NET_PROTOCOL_UDP peer_ip (udp_segment 53 7777 peer_ip demo_ip [1; 2; 3]).
Definition messaged : net := peer_known (demo_net (pool seven) [Some message]).


Example messaged_ok :
  match net_stack_poll_once tcp_in (Some 0%nat) messaged with Ret r _ => r =? NET_ERR_OK | Stuck => false end = true.
Proof. vm_compute. reflexivity. Qed.


Lemma arp_resolve_bounded_witness :
  exists r s', arp_resolve (Some 0%nat) (Some peer_ip) (Some 0%nat) (with_packet seven) = Ret r s' /\ core [] s'.
Proof.
  destruct seven_ok as [Hb Hl].
  destruct (arp_resolve_bounded [] _ 0 seven 0 0 peer_ip (with_packet_own _ Hb Hl) (demo_arp _ _) (demo_dom _ _))
    as (r & s' & H & Hc & _).
  - unfold peer_ip. lia.
  - exists r, s'. exact (conj H Hc).
Defined.


(** ** A failed [udp_open]

    With no semaphore left [udp_open] fails, but the control block stays marked
    as open, although it is in no slot. *)

Definition exhausted : net :=
  (demo_net (pool seven) []) <| sys := SysState (replicate NET_SYS_SEM_MAX (sem_with 0)) [] |>
    <| udp_pcbs := {[ 1%nat := UdpPcb 0 false (demo_queue UDP_RECV_MAX 0) None false ]} |>.

Example udp_open_failed_stays_open :
  match udp_open (Some 1%nat) exhausted with
  | Ret r s' => r = NET_ERR_MEM /\ pcbs s' = pcbs exhausted /\ (pcb_open <$> udp_pcbs s' !! 1%nat) = Some true
  | Stuck => False
  end.
Proof. vm_compute. by split_and!. Qed.
