(* ===== verification/StackProps.v ===== *)
(** * The running system: the properties and their witnesses

    The worker and the initialisation, TCP, and the handles of sockets. *)

From S2P Require Import Prelude Tools IpAddr Nlist Timer Mblock Pktbuf PktbufSpec PktbufChain.
From S2P Require Import PktbufOps PktbufFrame Sys Fixq TcpState Net Netif Ether Arp NetifLink Ipv4 Icmp Udp Tcp Input.
From S2P Require Import Owner OwnerPkt OwnerQueue OwnerOut OwnerArp OwnerResolve OwnerIp OwnerIcmp OwnerUdp OwnerWire.
From S2P Require Import TcpInv OwnerTcp OwnerSegment OwnerRelease OwnerTcpIn OwnerTcpSeg OwnerTcpOpen OwnerTcpInput OwnerTcpConnect OwnerInput OwnerStack NetStack.
From S2P Require Import TcpQueue TcpWire TcpStream NetDemo.
From S2P Require Import Socket SocketInv OwnerSocket Worker OwnerWorker Boot.

#[local] Opaque checksum16.

(** ** The worker *)


(** C24: [net_stack_init] succeeds from zeroed memory, establishes the
    invariants, and leaves the Ethernet interface active and the default one,
    with its address, its mask and the hardware address of the device; a second
    call is refused. *)
Theorem net_stack_init_starts mac :
  are_bytes mac -> length mac = 6%nat ->
  exists h n i, net_stack_init (zero_host mac) = Ret NET_ERR_OK h /\ host_ok h /\
    stack_netif h = Some n /\ netif_default (stack h) = Some n /\ netif_buffer (stack h) !! n = Some i /\
    Net.state i = NETIF_ACTIVE /\ ipaddr i = 0xc0a86402 /\ netmask i = 0xffffff00 /\
    take ETH_HWA_SIZE (hw_addr (hwaddr i)) = mac /\ net_stack_init h = Ret NET_ERR_STATE h.
Proof.
  intros Hm Hl. destruct (boot_ok mac Hm Hl) as [Hi Hok]. exists (boot_host boot_pool mac), 1%nat, (boot_eth0 mac).
  split_and!; [done..| |done]. cbn. apply take_app_length'. by rewrite Hl.
Qed.

(** ** TCP *)



(** C21: [tcp_recv_bytes] on a connection that has received bytes returns at
    once with the oldest of them, as many as the caller's buffer holds, and
    leaves the others in their order. *)
Theorem tcp_recv_takes_oldest task_sleep fuel mtime turns o s p x size timeout :
  stack_ok o s -> pcb_storage (tcp s) !! p = Some x -> tcp_pcbs (tcp s) !! p = Some (Some p) ->
  Pcb.release_pending x = false ->
  Pcb.state x = TCP_STATE_ESTABLISHED \/ Pcb.state x = TCP_STATE_FIN_WAIT_1 \/ Pcb.state x = TCP_STATE_FIN_WAIT_2 ->
  0 < size -> Pcb.recv_count x <> 0 ->
  exists k s' x', tcp_recv_bytes task_sleep fuel mtime turns (Some p) true size timeout s =
      Ret (k, take (Z.to_nat k) (TcpQueue.received x)) s' /\ k = Z.min size (len (TcpQueue.received x)) /\
    stack_ok o s' /\ pcb_storage (tcp s') !! p = Some x' /\ TcpQueue.received x' = drop (Z.to_nat k) (TcpQueue.received x) /\
    Pcb.rcv_nxt x' = Pcb.rcv_nxt x.
Proof.
  intros Hst Hp Hs Hrp Hsta Hsz Hne. pose proof Hst as [Hc Ha _ Ht _].
  pose proof (tcp_recv_bytes_ok task_sleep fuel mtime turns p x size timeout (tinv_start [] Hc Ha Ht) Hp Hs Hrp Hsta Hsz Hne) as H.
  cbv zeta in H. destruct (tcp_recv_bytes _ _ _ _ _ _ _ _ _) as [r s'|]; [|done].
  destruct H as (-> & t' & x' & Hi & Hp' & Hr & Hn). exists (Z.min size (Pcb.recv_count x)), s', x'.
  split; [done|]. split.
  { f_equal. destruct (pcb_ring _ _ (tcp_each _ _ (inv_tcp _ _ _ Ht) p x Hp)) as (R1 & R2 & R3).
    by rewrite (len_received R1 R2 R3). }
  split; [|split; [|done]].
  - eapply (sound_stack Hst). by exists t', (armed (timers s)).
  - by rewrite (cx_tcp _ _ _ _ _ _ _ (in_cx _ _ _ _ _ _ _ _ Hi)).
Qed.

(** C23: [tcp_choose_port] always finds a port, in the ephemeral range, that no
    open control block uses. *)
Theorem tcp_choose_port_free o s :
  stack_ok o s ->
  exists port s', tcp_choose_port s = Ret port s' /\ 49152 <= port < 2 ^ 16 /\
    (forall q x, tcp_pcbs (tcp s) !! q = Some (Some q) -> pcb_storage (tcp s) !! q = Some x ->
       Pcb.opened x = true -> Pcb.local_port x <> port) /\
    pcb_storage (tcp s') = pcb_storage (tcp s) /\ tcp_pcbs (tcp s') = tcp_pcbs (tcp s).
Proof.
  intros [Hc Ha _ Ht _]. apply wp_exists. pose proof (tinv_start [] Hc Ha Ht) as [Hx Hok _].
  eapply wp_mono; [|exact (choose_port_ok s _ Hx Hok)]. intros port s' (e' & _ & Hx' & Hp & Hf). split; [done|].
  rewrite (cx_tcp _ _ _ _ _ _ _ Hx'). split; [|done]. intros q x Hq Hqx Ho E. specialize (Hf q x Hq Hqx).
  unfold port_user in Hf. rewrite Ho, (proj2 (Z.eqb_eq _ _) E) in Hf. done.
Qed.

(** ** Sockets *)

(** C3: a handle that [net_socket_close] has closed names no socket in any
    later state, whatever calls are made and whatever sockets are opened: the
    entry has another generation, or it is retired. *)
Theorem closed_handle_stays_invalid sl f m hd h h1 h2 :
  table_ok h -> net_socket_close sl f m hd h = Ret NET_ERR_OK h1 -> rtc socket_call h1 h2 ->
  socket_find_used hd h2 = Ret None h2.
Proof.
  intros Ht Hc Hr. assert (Ht1 : table_ok h1) by (exact (proj1 (call_grown h h1 (call_close h sl f m hd _ h1 Hc) Ht))).
  pose proof (calls_grown _ _ Hr) as Hg. apply stale_not_found; [by apply Hg|].
  eapply stale_grown; [exact Ht1|done|]. exact (close_stale sl f m hd h h1 Ht Hc).
Qed.

(** A handle that [net_socket_open] returns is a positive [int], names the
    new entry from then on, and named no socket before. *)
Lemma opened_handle_found ty h r h' :
  table_ok h -> net_socket_open ty h = Ret r h' -> 0 <= r ->
  0 < r <= INT_MAX /\ socket_find_used r h = Ret None h /\
  exists i e, socket_find r h' = Ret (Some i) h' /\ entries h' !! i = Some e /\ used e = true /\
    r = socket_handle (generation e) i.
Proof.
  intros Ht Ho Hr. pose proof (open_entries ty h r h' Ht Ho) as H. rewrite (proj2 (Z.ltb_ge _ _)) in H by done.
  destruct H as (i & e & e' & Hi & Hu & _ & He & Hu' & Hcl & Hg & _ & ->). destruct Ht as [Hlen Hall].
  destruct (Forall_lookup_1 _ _ _ _ Hall Hi) as [G _].
  destruct (socket_decode_handle (generation e) i G) as [Hd Hp]; [rewrite <- Hlen; by eapply lookup_lt_Some|].
  assert (Hi' : entries h' !! i = Some e') by (rewrite He; apply list_lookup_insert_eq; by eapply lookup_lt_Some).
  split; [done|]. split; [|exists i, e'; split_and!; [|done|done|by rewrite Hg]].
  - unfold socket_find_used. rewrite Hd, (mbind_ret _ _ _ _ _ (load_socket_at h i e Hi)), Hu. done.
  - unfold socket_find. rewrite Hd, (mbind_ret _ _ _ _ _ (load_socket_at h' i e' Hi')), Hu', Hcl, Hg, Z.eqb_refl. done.
Qed.

(** C25: the table of sockets is well formed in every reachable state: 16 entries
    with a generation that fits in a handle, and no retired entry in use; a
    generation never decreases and a retired entry stays retired. *)
Theorem socket_table_well_formed h h' :
  table_ok h -> rtc socket_call h h' -> table_ok h' /\ Forall2 aged (entries h) (entries h').
Proof. intros Ht Hr. by apply (calls_grown _ _ Hr). Qed.

(** ** Witnesses *)


Lemma net_stack_init_starts_witness :
  exists h n i, net_stack_init (zero_host demo_mac) = Ret NET_ERR_OK h /\ netif_buffer (stack h) !! n = Some i /\
    take ETH_HWA_SIZE (hw_addr (hwaddr i)) = demo_mac.
Proof.
  destruct (net_stack_init_starts demo_mac) as (h & n & i & Hi & _ & _ & _ & Hn & _ & _ & _ & Hm & _); [apply demo_mac_ok|reflexivity|].
  exists h, n, i. exact (conj Hi (conj Hn Hm)).
Defined.


Definition eth0_of (s : net) : netif_t := default zero_netif (netif_buffer s !! 1%nat).


Lemma tcp_recv_takes_oldest_witness :
  exists s', tcp_recv_bytes no_sleep 0 0 0 (Some 0%nat) true 3 0 talked = Ret (3, take 3 word) s' /\ stack_ok [] s'.
Proof.
  destruct (tcp_recv_takes_oldest no_sleep 0 0 0 [] talked 0 (client_pcb talked) 3 0) as (k & s' & x' & E & Hk & Hst & _).
  - apply talked_ok.
  - vm_compute. reflexivity.
  - vm_compute. reflexivity.
  - vm_compute. reflexivity.
  - left. vm_compute. reflexivity.
  - lia.
  - vm_compute. discriminate.
  - assert (Hr : TcpQueue.received (client_pcb talked) = word) by (vm_compute; reflexivity). rewrite Hr in E, Hk.
    change (k = 3) in Hk. subst k. exists s'. exact (conj E Hst).
Defined.

Lemma tcp_choose_port_free_witness :
  exists port s', tcp_choose_port connected = Ret port s' /\ 49152 <= port < 2 ^ 16.
Proof.
  destruct (tcp_choose_port_free [] connected connected_ok) as (port & s' & E & H & _). exists port, s'. exact (conj E H).
Defined.

(** A UDP socket is opened and closed, and then two others are opened. *)
Definition ask_udp : socket_exec_t := SocketExec SOCKET_EXEC_OPEN 0 NET_SOCKET_UDP 0 None 0 0 0.
Definition one_socket : host := after [asked ask_udp].
Lemma one_socket_ok : table_ok one_socket.
Proof. apply host_table, after_ok. constructor; [|constructor]. apply asked_ok; [done|done|by left]. Qed.

Definition closed_once : host :=
  match net_socket_close no_sleep 0 0 client one_socket with Ret _ h => h | Stuck => one_socket end.
Definition reopened : host :=
  match net_socket_open NET_SOCKET_UDP closed_once with Ret _ h => h | Stuck => closed_once end.

Lemma closed_handle_stays_invalid_witness : socket_find_used client reopened = Ret None reopened.
Proof.
  apply (closed_handle_stays_invalid no_sleep 0 0 client one_socket closed_once reopened).
  - apply one_socket_ok.
  - vm_compute. reflexivity.
  - apply rtc_once, (call_open closed_once NET_SOCKET_UDP (socket_handle 2 0)). vm_compute. reflexivity.
Defined.


Lemma socket_table_well_formed_witness : table_ok reopened.
Proof.
  apply (socket_table_well_formed one_socket reopened); [apply one_socket_ok|].
  apply (rtc_l _ _ closed_once).
  - apply (call_close one_socket no_sleep 0 0 client NET_ERR_OK). vm_compute. reflexivity.
  - apply rtc_once, (call_open closed_once NET_SOCKET_UDP (socket_handle 2 0)). vm_compute. reflexivity.
Defined.
