(* ===== verification/NetExec.v ===== *)
(** * Calls into the worker task (net/net_exec.c)

    A task hands a function and its argument to the worker with
    [net_exec_submit] and waits; the argument lives on the stack of the task,
    so the worker must not run the function after [net_exec_submit] has
    returned.  The model is a step relation over any number of tasks and the
    worker, with a step for each section between two points where another task
    can run: the sections under [request_locker] are atomic, as are the
    operations of the queue (FixqConc.v) and of the semaphores.  A call is
    named by a number, which stands for its function and argument. *)

From Stdlib Require Import Wellfounded.
From S2P Require Import Prelude.

Definition NET_EXEC_QUEUE_SIZE : nat := 8.

(** [proc] is the call the slot is used for; [done] counts the posts of the
    semaphore. *)
Record net_exec_req_t := Req {
  proc : option nat; completed : bool; abandoned : bool; started : bool; done_ : Z }.
#[global] Instance req_settable : Settable net_exec_req_t := fun r =>
  Req (proc r) (completed r) (abandoned r) (started r) (done_ r).

(** Where a task is in [net_exec_submit]: before [fixq_send], in the first
    [sys_sem_wait] with its timeout, after it with its result, in the second
    [sys_sem_wait], and after that. *)
Inductive phase := Sending (timeout : Z) | Waiting (timeout : Z) | Woken (err : Z) | Waiting2 | Woken2.
Inductive client := Out | In (k n : nat) (ph : phase).

(** Where the worker is in [net_exec_run_once]: at the slot [k] it took from
    the queue, in [request->proc(request->arg)], and after it. *)
Inductive worker := WIdle | WGot (k : nat) | WRun (k n : nat) | WRan (k n : nat).

(** [runs] are the calls that the worker has run, [returns] those that have
    returned, with their codes. *)
Record exec_state := Exec {
  requests : list net_exec_req_t; request_queue : list nat;
  clients : list client; worker_at : worker;
  next_call : nat; runs : list nat; returns : list (nat * Z) }.
#[global] Instance exec_settable : Settable exec_state := fun r =>
  Exec (requests r) (request_queue r) (clients r) (worker_at r) (next_call r) (runs r) (returns r).

(** ** The sections *)

(** The first slot whose [proc] is null. *)
Fixpoint find_request (k : nat) (l : list net_exec_req_t) : option nat :=
  match l with
  | [] => None
  | r :: l => match proc r with None => Some k | Some _ => find_request (S k) l end
  end.

(** The stores of [net_exec_submit] to a free slot. *)
Definition claim_request (n : nat) (r : net_exec_req_t) : net_exec_req_t :=
  r <| proc := Some n |> <| completed := false |> <| abandoned := false |> <| started := false |>.

(** The end of [net_exec_submit]: the new request and the code returned. *)
Definition finish_request (err : Z) (r : net_exec_req_t) : net_exec_req_t * Z :=
  if completed r then
    (r <| done_ := if (err <? 0) && (0 <? done_ r) then done_ r - 1 else done_ r |> <| proc := None |>,
     NET_ERR_OK)
  else (r <| abandoned := true |>, err).

(** The first section of [net_exec_run_once], and its last one. *)
Definition start_request (r : net_exec_req_t) : net_exec_req_t :=
  if abandoned r then r <| proc := None |> else r <| started := true |>.
Definition end_request (r : net_exec_req_t) : net_exec_req_t :=
  if abandoned r then r <| proc := None |>
  else r <| completed := true |> <| done_ := done_ r + 1 |>.

Definition set_client (st : exec_state) (c : nat) (x : client) : exec_state :=
  st <| clients := <[c := x]> (clients st) |>.
Definition set_req (st : exec_state) (k : nat) (r : net_exec_req_t) : exec_state :=
  st <| requests := <[k := r]> (requests st) |>.

(** A step of a task in [net_exec_submit]. *)
Inductive submit (st : exec_state) : exec_state -> Prop :=
| submit_full c :
    clients st !! c = Some Out -> find_request 0 (requests st) = None -> submit st st
| submit_claim c timeout k r :
    clients st !! c = Some Out -> find_request 0 (requests st) = Some k -> requests st !! k = Some r ->
    submit st ((set_client (set_req st k (claim_request (next_call st) r)) c
      (In k (next_call st) (Sending timeout))) <| next_call := S (next_call st) |>)
| submit_send c k n timeout :
    clients st !! c = Some (In k n (Sending timeout)) -> (length (request_queue st) < NET_EXEC_QUEUE_SIZE)%nat ->
    submit st ((set_client st c (In k n (Waiting timeout))) <| request_queue := request_queue st ++ [k] |>)
| submit_send_fails c k n timeout err r :
    clients st !! c = Some (In k n (Sending timeout)) -> timeout <> 0 -> err < 0 -> requests st !! k = Some r ->
    submit st ((set_client (set_req st k (r <| proc := None |>)) c Out) <| returns := (n, err) :: returns st |>)
| submit_wakes c k n timeout r :
    clients st !! c = Some (In k n (Waiting timeout)) -> requests st !! k = Some r -> 0 < done_ r ->
    submit st (set_client (set_req st k (r <| done_ := done_ r - 1 |>)) c (In k n (Woken NET_ERR_OK)))
| submit_times_out c k n timeout :
    clients st !! c = Some (In k n (Waiting timeout)) -> timeout <> 0 ->
    submit st (set_client st c (In k n (Woken NET_ERR_TMO)))
| submit_waits_again c k n err r :
    clients st !! c = Some (In k n (Woken err)) -> requests st !! k = Some r ->
    err < 0 -> started r = true -> completed r = false ->
    submit st (set_client st c (In k n Waiting2))
| submit_wakes_again c k n r :
    clients st !! c = Some (In k n Waiting2) -> requests st !! k = Some r -> 0 < done_ r ->
    submit st (set_client (set_req st k (r <| done_ := done_ r - 1 |>)) c (In k n Woken2))
| submit_returns c k n err r :
    clients st !! c = Some (In k n (Woken err)) -> requests st !! k = Some r ->
    (err <? 0) && started r && negb (completed r) = false ->
    submit st ((set_client (set_req st k (finish_request err r).1) c Out)
      <| returns := (n, (finish_request err r).2) :: returns st |>)
| submit_returns_again c k n r :
    clients st !! c = Some (In k n Woken2) -> requests st !! k = Some r ->
    submit st ((set_client (set_req st k (finish_request NET_ERR_OK r).1) c Out)
      <| returns := (n, (finish_request NET_ERR_OK r).2) :: returns st |>).

(** A step of the worker in [net_exec_run_once]. *)
Inductive run_once (st : exec_state) : exec_state -> Prop :=
| run_takes k q :
    worker_at st = WIdle -> request_queue st = k :: q ->
    run_once st (st <| request_queue := q |> <| worker_at := WGot k |>)
| run_skips k r :
    worker_at st = WGot k -> requests st !! k = Some r -> abandoned r = true ->
    run_once st ((set_req st k (start_request r)) <| worker_at := WIdle |>)
| run_starts k n r :
    worker_at st = WGot k -> requests st !! k = Some r -> abandoned r = false -> proc r = Some n ->
    run_once st ((set_req st k (start_request r)) <| worker_at := WRun k n |>)
| run_runs k n :
    worker_at st = WRun k n -> run_once st (st <| worker_at := WRan k n |> <| runs := n :: runs st |>)
| run_ends k n r :
    worker_at st = WRan k n -> requests st !! k = Some r ->
    run_once st ((set_req st k (end_request r)) <| worker_at := WIdle |>).

Definition step (st st' : exec_state) : Prop := submit st st' \/ run_once st st'.

(** After [net_exec_init], with [m] tasks. *)
Definition exec_init (m : nat) : exec_state :=
  Exec (replicate NET_EXEC_QUEUE_SIZE (Req None false false false 0)) [] (replicate m Out) WIdle 0 [] [].

Inductive reachable (m : nat) : exec_state -> Prop :=
| reach_init : reachable m (exec_init m)
| reach_step st st' : reachable m st -> step st st' -> reachable m st'.

(** ** The invariant *)

Inductive wstat := Got | Run (n : nat) | Ran (n : nat).
Definition won (w : worker) (k : nat) : option wstat :=
  match w with
  | WIdle => None
  | WGot k' => if decide (k' = k) then Some Got else None
  | WRun k' n => if decide (k' = k) then Some (Run n) else None
  | WRan k' n => if decide (k' = k) then Some (Ran n) else None
  end.

(** The life of a slot that a task is using for the call [n]. *)
Definition pending (r : net_exec_req_t) (inq : Prop) (w : option wstat) : Prop :=
  started r = false /\ completed r = false /\ done_ r = 0 /\ ((inq /\ w = None) \/ (~ inq /\ w = Some Got)).
Definition running (n : nat) (r : net_exec_req_t) (inq : Prop) (w : option wstat) : Prop :=
  started r = true /\ completed r = false /\ done_ r = 0 /\ ~ inq /\ (w = Some (Run n) \/ w = Some (Ran n)).
Definition finished (d : Z) (r : net_exec_req_t) (inq : Prop) (w : option wstat) : Prop :=
  started r = true /\ completed r = true /\ done_ r = d /\ ~ inq /\ w = None.

Definition busy (n : nat) (ph : phase) (r : net_exec_req_t) (inq : Prop) (w : option wstat) : Prop :=
  proc r = Some n /\ abandoned r = false /\
  match ph with
  | Sending _ => started r = false /\ completed r = false /\ done_ r = 0 /\ ~ inq /\ w = None
  | Waiting _ => pending r inq w \/ running n r inq w \/ finished 1 r inq w
  | Woken err => if err <? 0 then pending r inq w \/ running n r inq w \/ finished 1 r inq w
                 else finished 0 r inq w
  | Waiting2 => running n r inq w \/ finished 1 r inq w
  | Woken2 => finished 0 r inq w
  end.

(** The life of a slot that no task is using. *)
Definition unused (r : net_exec_req_t) (inq : Prop) (w : option wstat) : Prop :=
  done_ r = 0 /\
  ((proc r = None /\ ~ inq /\ w = None) \/
   (proc r <> None /\ abandoned r = true /\ started r = false /\ completed r = false /\
    ((inq /\ w = None) \/ (~ inq /\ w = Some Got)))).

Definition slot_ok (st : exec_state) (k : nat) : Prop :=
  forall r, requests st !! k = Some r ->
    (exists c n ph, clients st !! c = Some (In k n ph) /\
       (forall c' n' ph', clients st !! c' = Some (In k n' ph') -> c' = c) /\
       busy n ph r (k ∈ request_queue st) (won (worker_at st) k)) \/
    ((forall c n ph, clients st !! c <> Some (In k n ph)) /\
     unused r (k ∈ request_queue st) (won (worker_at st) k)).

Record slots_ok (st : exec_state) : Prop := {
  so_len : length (requests st) = NET_EXEC_QUEUE_SIZE;
  so_queue : NoDup (request_queue st) /\ forall k, k ∈ request_queue st -> is_Some (requests st !! k);
  so_clients : forall c k n ph, clients st !! c = Some (In k n ph) -> is_Some (requests st !! k);
  so_worker : forall k, is_Some (won (worker_at st) k) -> is_Some (requests st !! k);
  so_slots : forall k, slot_ok st k }.

(** What happens at one slot leaves the others alone. *)
Lemma slot_ok_other st st' k :
  requests st' !! k = requests st !! k -> (k ∈ request_queue st' <-> k ∈ request_queue st) ->
  won (worker_at st') k = won (worker_at st) k ->
  (forall c n ph, clients st' !! c = Some (In k n ph) <-> clients st !! c = Some (In k n ph)) ->
  slot_ok st k -> slot_ok st' k.
Proof.
  intros Er Eq Ew Ec Hs r Hr. rewrite Er in Hr. rewrite Ew.
  assert (Hq : forall P : Prop -> Prop, (forall A B, (A <-> B) -> P A -> P B) -> P (k ∈ request_queue st) ->
    P (k ∈ request_queue st')) by (intros P HP; apply HP; tauto).
  destruct (Hs r Hr) as [(c & n & ph & Hc & Hu & Hb)|[Hno Hun]]; [left|right].
  - exists c, n, ph. rewrite Ec. split_and!; [done| |].
    + intros c' n' ph' Hc'%Ec. by eapply Hu.
    + revert Hb. apply (Hq (fun q => busy n ph r q _)). intros A B HAB.
      unfold busy, pending, running, finished. destruct ph; [..|destruct (err <? 0)| |]; tauto.
  - split; [intros c n ph; rewrite Ec; apply Hno|]. revert Hun.
    apply (Hq (fun q => unused r q _)). intros A B HAB. unfold unused. tauto.
Qed.

Lemma slots_step st st' k r' :
  slots_ok st -> is_Some (requests st !! k) -> requests st' = <[k := r']> (requests st) ->
  NoDup (request_queue st') -> (forall k', k' <> k -> k' ∈ request_queue st' <-> k' ∈ request_queue st) ->
  (forall k', k' <> k -> won (worker_at st') k' = won (worker_at st) k') ->
  (forall c k' n ph, k' <> k ->
     clients st' !! c = Some (In k' n ph) <-> clients st !! c = Some (In k' n ph)) ->
  slot_ok st' k -> slots_ok st'.
Proof.
  intros [Hl [_ Hqd] Hcd Hwd Hs] Hk Er Hnd Hq Hw Hc Hslot.
  assert (Hdom : forall k', is_Some (requests st' !! k') <-> is_Some (requests st !! k')).
  { intros k'. by rewrite Er, !lookup_lt_is_Some, length_insert. }
  split.
  - by rewrite Er, length_insert.
  - split; [done|]. intros k' Hk'. apply Hdom. destruct (decide (k' = k)) as [->|]; [done|].
    apply Hqd. by apply Hq.
  - intros c k' n ph Hc'. apply Hdom. destruct (decide (k' = k)) as [->|]; [done|].
    eapply Hcd. by apply Hc.
  - intros k' Hk'. apply Hdom. destruct (decide (k' = k)) as [->|]; [done|]. apply Hwd. by rewrite <- Hw.
  - intros k'. destruct (decide (k' = k)) as [->|Hne]; [done|].
    eapply slot_ok_other; [by rewrite Er, list_lookup_insert_ne|by apply Hq|by apply Hw| |done].
    intros c n ph. by apply Hc.
Qed.

(** The slot of a task. *)
Lemma at_client st c k n ph :
  slots_ok st -> clients st !! c = Some (In k n ph) ->
  exists r, requests st !! k = Some r /\
    (forall c' n' ph', clients st !! c' = Some (In k n' ph') -> c' = c) /\
    busy n ph r (k ∈ request_queue st) (won (worker_at st) k).
Proof.
  intros Hs Hc. destruct (so_clients _ Hs c k n ph Hc) as [r Hr]. exists r. split; [done|].
  destruct (so_slots _ Hs k r Hr) as [(c' & n' & ph' & Hc' & Hu & Hb)|[Hno _]]; [|by destruct (Hno c n ph)].
  assert (c = c') as <- by eauto. rewrite Hc in Hc'. injection Hc' as -> ->. done.
Qed.

Lemma client_step st st' c k n ph x' r' :
  slots_ok st -> clients st !! c = Some (In k n ph) ->
  requests st' = <[k := r']> (requests st) -> clients st' = <[c := x']> (clients st) ->
  worker_at st' = worker_at st -> NoDup (request_queue st') ->
  (forall k', k' <> k -> k' ∈ request_queue st' <-> k' ∈ request_queue st) ->
  match x' with
  | In k' n' ph' => k' = k /\ busy n' ph' r' (k ∈ request_queue st') (won (worker_at st) k)
  | Out => unused r' (k ∈ request_queue st') (won (worker_at st) k)
  end -> slots_ok st'.
Proof.
  intros Hs Hc Er Ec Ew Hnd Hq Hx. destruct (at_client _ _ _ _ _ Hs Hc) as (r & Hr & Hu & _).
  assert (Hlt : (c < length (clients st))%nat) by (by eapply lookup_lt_Some).
  assert (Hcl : forall c', clients st' !! c' = if decide (c' = c) then Some x' else clients st !! c').
  { intros c'. rewrite Ec. case_decide as E; [subst|].
    - by apply list_lookup_insert_eq.
    - by apply list_lookup_insert_ne. }
  eapply (slots_step st st' k r'); [done|by exists r|done..|by rewrite Ew| |].
  - intros c' k' n' ph' Hne. rewrite Hcl. case_decide as E; [subst c'|done]. rewrite Hc.
    destruct x' as [|k1 n1 ph1]; [|destruct Hx as [-> _]]; split; intros [=]; congruence.
  - intros r1 Hr1. rewrite Er, list_lookup_insert_eq in Hr1 by (by eapply lookup_lt_Some).
    injection Hr1 as <-. rewrite Ew. destruct x' as [|k1 n1 ph1].
    + right. split; [|done]. intros c' n' ph'. rewrite Hcl. case_decide as E; [done|]. intros Hc'. eauto.
    + destruct Hx as [-> Hb]. left. exists c, n1, ph1. split_and!; [by rewrite Hcl, decide_True| |done].
      intros c' n' ph'. rewrite Hcl. case_decide as E; [done|]. apply Hu.
Qed.

Lemma worker_step st st' k r r' :
  slots_ok st -> requests st !! k = Some r -> requests st' = <[k := r']> (requests st) ->
  clients st' = clients st -> NoDup (request_queue st') ->
  (forall k', k' <> k -> k' ∈ request_queue st' <-> k' ∈ request_queue st) ->
  (forall k', k' <> k -> won (worker_at st') k' = won (worker_at st) k') ->
  (forall n ph, busy n ph r (k ∈ request_queue st) (won (worker_at st) k) ->
     busy n ph r' (k ∈ request_queue st') (won (worker_at st') k)) ->
  (unused r (k ∈ request_queue st) (won (worker_at st) k) ->
     unused r' (k ∈ request_queue st') (won (worker_at st') k)) -> slots_ok st'.
Proof.
  intros Hs Hr Er Ec Hnd Hq Hw Hb Hun.
  eapply (slots_step st st' k r'); [done|by exists r|done..|by rewrite Ec|].
  intros r1 Hr1. rewrite Er, list_lookup_insert_eq in Hr1 by (by eapply lookup_lt_Some).
  injection Hr1 as <-. rewrite Ec.
  destruct (so_slots _ Hs k r Hr) as [(c & n & ph & Hc & Hu & H)|[Hno H]]; [left|right; by auto].
  exists c, n, ph. split_and!; [done..|]. by apply Hb.
Qed.

Lemma find_request_spec j l k :
  find_request j l = Some k -> (j <= k)%nat /\ exists r, l !! (k - j)%nat = Some r /\ proc r = None.
Proof.
  revert j. induction l as [|r l IH]; intros j; cbn [find_request]; [done|].
  destruct (proc r) as [n|] eqn:Hp.
  - intros (Hk & r' & Hr & Hn)%IH. split; [lia|]. exists r'. split; [|done].
    replace (k - j)%nat with (S (k - S j)) by lia. done.
  - intros [= <-]. split; [lia|]. exists r. by rewrite Nat.sub_diag.
Qed.

Ltac open_busy := unfold busy, unused, pending, running, finished in *.
Ltac fin := intuition (congruence || lia).

Lemma slots_ok_claim st c timeout k r :
  slots_ok st -> clients st !! c = Some Out -> requests st !! k = Some r -> proc r = None ->
  slots_ok ((set_client (set_req st k (claim_request (next_call st) r)) c
    (In k (next_call st) (Sending timeout))) <| next_call := S (next_call st) |>).
Proof.
  intros Hs Hc Hr Hp. pose proof (so_queue _ Hs) as [Hnd Hqd].
  destruct (so_slots _ Hs k r Hr) as [(c0 & n0 & ph0 & _ & _ & Hb)|[Hno Hun]].
  { destruct Hb as [Hb _]. congruence. }
  assert (Hlt : (c < length (clients st))%nat) by (by eapply lookup_lt_Some).
  eapply (slots_step st _ k (claim_request (next_call st) r)); [done|by exists r|done..| |].
  - intros c' k' n ph Hne. cbn. destruct (decide (c' = c)) as [->|].
    + rewrite list_lookup_insert_eq by done. rewrite Hc. split; [intros [=]; congruence|done].
    + by rewrite list_lookup_insert_ne.
  - intros r1. cbn. rewrite list_lookup_insert_eq by (by eapply lookup_lt_Some). intros [= <-]. left.
    exists c, (next_call st), (Sending timeout). split_and!; [by apply list_lookup_insert_eq| |].
    + intros c' n' ph'. destruct (decide (c' = c)) as [|Hne]; [done|].
      rewrite list_lookup_insert_ne by done. intros Hc'. by destruct (Hno c' n' ph').
    + open_busy. cbn. rewrite Hp in Hun. fin.
Qed.

Lemma slots_ok_submit st st' : slots_ok st -> submit st st' -> slots_ok st'.
Proof.
  intros Hs Hstep. pose proof (so_queue _ Hs) as [Hnd Hqd]. destruct Hstep as
    [c Hc Hf|c timeout k r Hc Hf Hr|c k n timeout Hc Hl|c k n timeout err r Hc Ht He Hr
    |c k n timeout r Hc Hr Hd|c k n timeout Hc Ht|c k n err r Hc Hr He Hst Hco|c k n r Hc Hr Hd
    |c k n err r Hc Hr Hcond|c k n r Hc Hr].
  1: done.
  1: { apply find_request_spec in Hf as (_ & r0 & Hr0 & Hp). rewrite Nat.sub_0_r, Hr in Hr0.
       injection Hr0 as <-. by apply slots_ok_claim. }
  all: destruct (at_client _ _ _ _ _ Hs Hc) as (r0 & Hr0 & _ & Hb); try (rewrite Hr in Hr0; injection Hr0 as <-).
  - eapply (client_step st _ c k n _ _ r0); [done|exact Hc|cbn; by rewrite list_insert_id|done|done|..].
    + cbn. apply NoDup_app. split_and!; [done| |apply NoDup_singleton]. open_busy. set_solver.
    + intros k' Hne. cbn. set_solver.
    + split; [done|]. open_busy. cbn. split_and!; [fin..|]. left. split_and!; [fin..|].
      left. split; [set_solver|fin].
  - eapply (client_step st _ c k n _ Out); [done|exact Hc|done..|]. open_busy. cbn. fin.
  - eapply (client_step st _ c k n _ (In k n (Woken NET_ERR_OK))); [done|exact Hc|done..|]. split; [done|].
    open_busy. cbn. destruct Hb as (? & ? & [(_ & _ & H & _)|[(_ & _ & H & _)|(? & ? & H & ? & ?)]]); [lia..|].
    split_and!; done || lia.
  - by eapply (client_step st _ c k n _ _ r0); [done|exact Hc|cbn; by rewrite list_insert_id|..].
  - eapply (client_step st _ c k n _ _ r); [done|exact Hc|cbn; by rewrite list_insert_id|done..|].
    split; [done|]. open_busy. rewrite (proj2 (Z.ltb_lt _ _)) in Hb by done. fin.
  - eapply (client_step st _ c k n _ (In k n Woken2)); [done|exact Hc|done..|]. split; [done|].
    open_busy. cbn. destruct Hb as (? & ? & [(_ & _ & H & _)|(? & ? & H & ? & ?)]); [lia|].
    split_and!; done || lia.
  - eapply (client_step st _ c k n _ Out); [done|exact Hc|done..|]. unfold finish_request. open_busy.
    destruct (Z.ltb_spec err 0); cbn [andb] in *.
    + destruct Hb as (? & Hab & [H'|[H'|H']]).
      * destruct H' as (? & Hco & ? & ?). rewrite Hco. cbn. fin.
      * destruct H' as (Hst & Hco & _). by rewrite Hst, Hco in Hcond.
      * destruct H' as (? & Hco & Hd & ? & ?). rewrite Hco, Hd. cbn. split; [done|]. left. fin.
    + destruct Hb as (? & ? & ? & Hco & ? & ? & ?). rewrite Hco. cbn. fin.
  - eapply (client_step st _ c k n _ Out); [done|exact Hc|done..|]. unfold finish_request. open_busy.
    destruct Hb as (? & ? & ? & Hco & ? & ? & ?). rewrite Hco. cbn. fin.
Qed.

Lemma slots_ok_run st st' : slots_ok st -> run_once st st' -> slots_ok st'.
Proof.
  intros Hs Hstep. pose proof (so_queue _ Hs) as [Hnd Hqd].
  destruct Hstep as [k q Hw Hq|k r Hw Hr Ha|k n r Hw Hr Ha Hp|k n Hw|k n r Hw Hr].
  - rewrite Hq in Hnd, Hqd. apply NoDup_cons in Hnd as [Hkq Hnd]. destruct (Hqd k) as [r Hr]; [by left|].
    eapply (worker_step st _ k r r); [done|done|cbn; by rewrite list_insert_id|done|done|..].
    + intros k' Hne. cbn. rewrite Hq. set_solver.
    + intros k' Hne. cbn. rewrite Hw, decide_False by done. done.
    + intros n ph. cbn. rewrite Hq, Hw, decide_True by done. open_busy. cbn.
      destruct ph; [set_solver|..|destruct (err <? 0)| |]; set_solver.
    + cbn. rewrite Hq, Hw, decide_True by done. open_busy. set_solver.
  - eapply (worker_step st _ k r (start_request r)); [done|done|done|done|done|done|..].
    + intros k' Hne. cbn. rewrite Hw. cbn. by rewrite decide_False.
    + intros n ph Hb. open_busy. fin.
    + unfold start_request. rewrite Ha, Hw. cbn. rewrite decide_True by done. open_busy. cbn. fin.
  - eapply (worker_step st _ k r (start_request r)); [done|done|done|done|done|done|..].
    + intros k' Hne. cbn. rewrite Hw. cbn. by rewrite !decide_False.
    + intros n' ph. unfold start_request. rewrite Ha, Hw. cbn. rewrite !decide_True by done. open_busy. cbn.
      intros (Hp' & Hab & H). assert (n' = n) as -> by congruence. split_and!; [done..|].
      destruct ph as [t|t|err| |]; [fin|..|destruct (err <? 0)| |]; fin.
    + rewrite Hw. cbn. rewrite decide_True by done. open_busy. cbn. fin.
  - destruct (so_worker _ Hs k) as [r Hr]; [rewrite Hw; cbn; by rewrite decide_True|].
    eapply (worker_step st _ k r r); [done|done|cbn; by rewrite list_insert_id|done|done|done|..].
    + intros k' Hne. cbn. rewrite Hw. cbn. by rewrite !decide_False.
    + intros n' ph. rewrite Hw. cbn. rewrite !decide_True by done. open_busy.
      destruct ph as [t|t|err| |]; [fin|..|destruct (err <? 0)| |]; fin.
    + rewrite Hw. cbn. rewrite !decide_True by done. open_busy. fin.
  - eapply (worker_step st _ k r (end_request r)); [done|done|done|done|done|done|..].
    + intros k' Hne. cbn. rewrite Hw. cbn. by rewrite decide_False.
    + intros n' ph. unfold end_request. rewrite Hw. cbn. rewrite decide_True by done. open_busy.
      intros (Hp' & Hab & H). rewrite Hab. cbn. split_and!; [done..|].
      destruct ph as [t|t|err| |]; [fin|..|destruct (err <? 0)| |]; fin.
    + rewrite Hw. cbn. rewrite decide_True by done. open_busy. fin.
Qed.

Lemma slots_ok_step st st' : slots_ok st -> step st st' -> slots_ok st'.
Proof. intros Hs [H|H]; [by eapply slots_ok_submit|by eapply slots_ok_run]. Qed.

Lemma slots_ok_init m : slots_ok (exec_init m).
Proof.
  split; [done|..].
  - split; [apply NoDup_nil_2|]. cbn. set_solver.
  - intros c k n ph. cbn [clients exec_init]. rewrite lookup_replicate. by intros [].
  - by intros k [].
  - intros k r. cbn [requests exec_init]. rewrite lookup_replicate. intros [-> _]. right. split.
    + intros c n ph. cbn [clients exec_init]. rewrite lookup_replicate. by intros [].
    + split; [done|]. left. split_and!; [done| |done]. cbn. apply not_elem_of_nil.
Qed.

(** The worker runs a call for a task that is still in it. *)
Lemma at_worker st k n :
  slots_ok st -> won (worker_at st) k = Some (Run n) \/ won (worker_at st) k = Some (Ran n) ->
  exists c ph r, clients st !! c = Some (In k n ph) /\ requests st !! k = Some r /\ completed r = false.
Proof.
  intros Hs Hw. destruct (so_worker _ Hs k) as [r Hr]; [by destruct Hw as [-> | ->]|].
  destruct (so_slots _ Hs k r Hr) as [(c & n' & ph & Hc & _ & Hb)|[_ Hun]]; [|open_busy; fin].
  exists c, ph, r. assert (n' = n /\ completed r = false) as [-> ?]; [|done]. open_busy.
  destruct ph as [t|t|err| |]; [..|destruct (err <? 0)| |]; fin.
Qed.

(** ** What has run and what has returned *)

(** The call [n] in the slot [k] has been run. *)
Definition ran (st : exec_state) (k n : nat) : Prop :=
  won (worker_at st) k = Some (Ran n) \/ exists r, requests st !! k = Some r /\ completed r = true.

Record log_ok (st : exec_state) : Prop := {
  lo_active : forall c k n ph, clients st !! c = Some (In k n ph) ->
    (n < next_call st)%nat /\ n ∉ (returns st).*1 /\ (n ∈ runs st <-> ran st k n) /\
    forall c' k' ph', clients st !! c' = Some (In k' n ph') -> c' = c;
  lo_runs : NoDup (runs st) /\ forall n, n ∈ runs st -> (n < next_call st)%nat;
  lo_returns : NoDup (returns st).*1 /\ forall n e, (n, e) ∈ returns st ->
    (n < next_call st)%nat /\ (e = NET_ERR_OK <-> n ∈ runs st) }.

Lemma log_ok_same st st' :
  log_ok st -> next_call st' = next_call st -> runs st' = runs st -> returns st' = returns st ->
  (forall c k n ph, clients st' !! c = Some (In k n ph) ->
     (exists ph', clients st !! c = Some (In k n ph')) /\ (ran st' k n <-> ran st k n)) ->
  log_ok st'.
Proof.
  intros [Ha Hru Hre] En Er Et Hc. split; rewrite ?En, ?Er, ?Et; [|done..].
  intros c k n ph H. destruct (Hc c k n ph H) as [[ph' H'] Hran].
  destruct (Ha c k n ph' H') as (? & ? & Hiff & Hu). rewrite Hran. split_and!; [done..|].
  intros c' k' ph'' H2. destruct (Hc c' k' n ph'' H2) as [[ph3 H3] _]. eauto.
Qed.

(** A task returns from its call [n] with the code [e]. *)
Lemma log_ok_return st st' c k n ph e :
  log_ok st -> clients st !! c = Some (In k n ph) -> next_call st' = next_call st -> runs st' = runs st ->
  returns st' = (n, e) :: returns st -> clients st' = <[c := Out]> (clients st) ->
  (e = NET_ERR_OK <-> ran st k n) ->
  (forall k' n', k' <> k -> ran st' k' n' <-> ran st k' n') ->
  (forall c' n' ph', clients st !! c' = Some (In k n' ph') -> c' = c) -> log_ok st'.
Proof.
  intros [Ha Hru Hre] Hc En Er Et Ec He Hran Hu. destruct (Ha c k n ph Hc) as (Hn & Hnr & Hiff & Hu').
  assert (Hcl : forall c' x, clients st' !! c' = Some x -> x <> Out -> c' <> c /\ clients st !! c' = Some x).
  { intros c' x. rewrite Ec. destruct (decide (c' = c)) as [->|]; [|by rewrite list_lookup_insert_ne].
    rewrite list_lookup_insert_eq by (by eapply lookup_lt_Some). by intros [= <-]. }
  split; rewrite ?En, ?Er, ?Et.
  - intros c' k' n' ph' H'. destruct (Hcl _ _ H') as [Hne H]; [done|].
    destruct (Ha c' k' n' ph' H) as (? & ? & Hiff' & Hu2). rewrite Hran by (intros ->; by eapply Hne, Hu).
    split_and!; [done| |done|].
    + cbn. apply not_elem_of_cons. split; [|done]. intros ->. apply Hne. eauto.
    + intros c2 k2 ph2 H2. destruct (Hcl _ _ H2) as [_ H3]; [done|]. eauto.
  - done.
  - destruct Hre as [Hnd Hre]. split; [cbn; by apply NoDup_cons|].
    intros n' e' [[= -> ->]|H]%elem_of_cons; [|by apply Hre]. split; [done|]. by rewrite He, Hiff.
Qed.

(** The flags that [ran] reads are those of the slot. *)
Lemma ran_set_req st st' k r r' k' n' :
  requests st' = <[k := r']> (requests st) -> worker_at st' = worker_at st -> requests st !! k = Some r ->
  completed r' = completed r -> ran st' k' n' <-> ran st k' n'.
Proof.
  intros Er Ew Hr Hco. unfold ran. rewrite Er, Ew. destruct (decide (k' = k)) as [->|].
  - rewrite list_lookup_insert_eq by (by eapply lookup_lt_Some). rewrite Hr.
    split; (intros [H|(x & [= <-] & H)]; [by left|right]); eexists; split; [done|congruence|done|congruence].
  - by rewrite list_lookup_insert_ne.
Qed.

(** A step of a task within its call. *)
Lemma log_ok_client st st' c k n ph ph' r r' :
  log_ok st -> clients st !! c = Some (In k n ph) -> requests st !! k = Some r ->
  requests st' = <[k := r']> (requests st) -> completed r' = completed r ->
  clients st' = <[c := In k n ph']> (clients st) -> worker_at st' = worker_at st ->
  next_call st' = next_call st -> runs st' = runs st -> returns st' = returns st -> log_ok st'.
Proof.
  intros Hl Hc Hr Er Hco Ec Ew En Eru Ere. apply (log_ok_same st); [done..|].
  intros c' k' n' ph2. rewrite Ec. destruct (decide (c' = c)) as [->|].
  - rewrite list_lookup_insert_eq by (by eapply lookup_lt_Some). intros [= <- <- <-].
    split; [by exists ph|]. by eapply ran_set_req.
  - rewrite list_lookup_insert_ne by done. intros H. split; [by exists ph2|]. by eapply ran_set_req.
Qed.

Lemma log_ok_claim st c timeout k r :
  slots_ok st -> log_ok st -> clients st !! c = Some Out -> requests st !! k = Some r -> proc r = None ->
  log_ok ((set_client (set_req st k (claim_request (next_call st) r)) c
    (In k (next_call st) (Sending timeout))) <| next_call := S (next_call st) |>).
Proof.
  intros Hs [Ha [Hnd Hru] [Hnd' Hre]] Hc Hr Hp.
  destruct (so_slots _ Hs k r Hr) as [(c0 & n0 & ph0 & _ & _ & Hb)|[Hno Hun]].
  { destruct Hb as [Hb _]. congruence. }
  assert (Hlt : (c < length (clients st))%nat) by (by eapply lookup_lt_Some).
  assert (Hrl : (k < length (requests st))%nat) by (by eapply lookup_lt_Some).
  match goal with |- log_ok ?x => set (st' := x) end.
  assert (Hcl : forall c', clients st' !! c' =
    if decide (c' = c) then Some (In k (next_call st) (Sending timeout)) else clients st !! c').
  { intros c'. cbn. case_decide as E; [subst; by apply list_lookup_insert_eq|by apply list_lookup_insert_ne]. }
  split; cbn [next_call runs returns].
  - intros c' k' n' ph'. rewrite Hcl. case_decide as E.
    + intros [= <- <- <-]. subst c'. split_and!; [cbn; lia| | |].
      * intros ((n1, e1) & E1 & H)%list_elem_of_fmap. apply Hre in H. cbn in E1. lia.
      * split; [intros H%Hru; lia|]. intros [H|(r1 & H & Hco)]; exfalso.
        -- cbn in H. open_busy. rewrite Hp in Hun. fin.
        -- cbn in H. rewrite list_lookup_insert_eq in H by done. by injection H as <-.
      * intros c2 k2 ph2. rewrite Hcl. case_decide as E; [done|]. intros H.
        destruct (Ha _ _ _ _ H) as [H' _]. lia.
    + intros H. destruct (Ha _ _ _ _ H) as (Hn & Hnr & Hiff & Hu). split_and!; [cbn; lia|done| |].
      * assert (k' <> k) by (intros ->; by destruct (Hno c' n' ph')).
        change (n' ∈ runs st <-> ran st' k' n'). rewrite Hiff. unfold ran. cbn. by rewrite list_lookup_insert_ne.
      * intros c2 k2 ph2. rewrite Hcl. case_decide as E2; [|by apply Hu]. intros [= _ H2 _]. lia.
  - split; [done|]. intros n H%Hru. cbn. lia.
  - split; [done|]. intros n e H. cbn. destruct (Hre n e H). split; [lia|done].
Qed.

Lemma log_ok_submit st st' : slots_ok st -> log_ok st -> submit st st' -> log_ok st'.
Proof.
  intros Hs Hlog Hstep. destruct Hstep as
    [c Hc Hf|c timeout k r Hc Hf Hr|c k n timeout Hc Hl|c k n timeout err r Hc Ht He Hr
    |c k n timeout r Hc Hr Hd|c k n timeout Hc Ht|c k n err r Hc Hr He Hst Hco|c k n r Hc Hr Hd
    |c k n err r Hc Hr Hcond|c k n r Hc Hr].
  1: done.
  1: { apply find_request_spec in Hf as (_ & r0 & Hr0 & Hp). rewrite Nat.sub_0_r, Hr in Hr0.
       injection Hr0 as <-. by apply log_ok_claim. }
  all: destruct (at_client _ _ _ _ _ Hs Hc) as (r0 & Hr0 & Hu & Hb);
    try (rewrite Hr in Hr0; injection Hr0 as <-).
  1, 4: by eapply (log_ok_client st _ c k n _ _ r0 r0); try done; cbn; rewrite list_insert_id.
  3: by eapply (log_ok_client st _ c k n _ _ r r); try done; cbn; rewrite list_insert_id.
  2, 3: by eapply (log_ok_client st _ c k n _ _ r).
  all: eapply (log_ok_return st _ c k n); try done;
    try (intros k' n' Hne; unfold ran; cbn; by rewrite list_lookup_insert_ne).
  - split; [intros ->; done|]. intros [H|(x & H & Hco)]; open_busy; [fin|]. rewrite Hr in H. injection H as <-. fin.
  - unfold finish_request, ran. rewrite Hr. open_busy. destruct (completed r) eqn:Hco; cbn.
    + split; [right; by exists r|done].
    + destruct (Z.ltb_spec err 0); cbn [andb] in Hcond; [|fin]. split; [intros ->; done|].
      intros [H'|(x & E & H')]; [|injection E as <-; congruence].
      exfalso. cbn [negb] in Hcond. rewrite andb_true_r in Hcond. fin.
  - unfold finish_request. open_busy. destruct Hb as (_ & _ & _ & Hco & _). rewrite Hco. cbn.
    split; [|done]. intros _. right. by exists r.
Qed.

(** A step of the worker that runs nothing. *)
Lemma log_ok_worker st st' k r r' :
  log_ok st -> requests st !! k = Some r -> requests st' = <[k := r']> (requests st) ->
  clients st' = clients st -> next_call st' = next_call st -> runs st' = runs st -> returns st' = returns st ->
  (forall k', k' <> k -> won (worker_at st') k' = won (worker_at st) k') ->
  (forall c n ph, clients st !! c = Some (In k n ph) -> ran st' k n <-> ran st k n) -> log_ok st'.
Proof.
  intros Hl Hr Er Ec En Eru Ere Hw Hran. apply (log_ok_same st); [done..|]. intros c k' n ph. rewrite Ec.
  intros H. split; [by exists ph|]. destruct (decide (k' = k)) as [->|Hne]; [by eapply Hran|].
  unfold ran. by rewrite Er, list_lookup_insert_ne, Hw.
Qed.

Lemma log_ok_runs st k n :
  slots_ok st -> log_ok st -> worker_at st = WRun k n ->
  log_ok (st <| worker_at := WRan k n |> <| runs := n :: runs st |>).
Proof.
  intros Hs [Ha [Hnd Hru] [Hnd' Hre]] Hw.
  destruct (at_worker st k n Hs) as (c & ph & r & Hc & Hr & Hco); [left; rewrite Hw; cbn; by rewrite decide_True|].
  destruct (Ha _ _ _ _ Hc) as (Hn & Hnr & Hiff & Hu).
  assert (Hnot : n ∉ runs st).
  { rewrite Hiff. intros [H|(x & H & H')]; [rewrite Hw in H; cbn in H; by rewrite decide_True in H|congruence]. }
  split; cbn [next_call runs returns clients].
  - intros c' k' n' ph' H. change (clients st !! c' = Some (In k' n' ph')) in H.
    destruct (Ha _ _ _ _ H) as (Hn' & Hnr' & Hiff' & Hu'). split_and!; [done..| |done].
    change (n' ∈ n :: runs st <-> ran (st <| worker_at := WRan k n |> <| runs := n :: runs st |>) k' n').
    rewrite elem_of_cons, Hiff'. unfold ran. cbn. rewrite Hw. cbn.
    destruct (decide (k = k')) as [<-|Hne].
    + assert (n' = n) as ->.
      { destruct (at_client _ _ _ _ _ Hs Hc) as (_ & _ & Hone & _). assert (c' = c) as -> by eauto. congruence. }
      split; [by left|by left].
    + assert (n' <> n); [|intuition congruence]. intros ->. assert (c' = c) as -> by eauto. congruence.
  - split; [by apply NoDup_cons|]. intros n' [->|H]%elem_of_cons; [done|by apply Hru].
  - split; [done|]. intros n' e H. destruct (Hre n' e H) as [H1 H2]. split; [done|]. cbn.
    rewrite elem_of_cons, H2. assert (n' <> n); [|tauto]. intros ->. apply Hnr, list_elem_of_fmap. by exists (n, e).
Qed.

Lemma log_ok_run st st' : slots_ok st -> log_ok st -> run_once st st' -> log_ok st'.
Proof.
  intros Hs Hl Hstep. pose proof (so_queue _ Hs) as [_ Hqd].
  destruct Hstep as [k q Hw Hq|k r Hw Hr Ha|k n r Hw Hr Ha Hp|k n Hw|k n r Hw Hr]; [..|by apply log_ok_runs|].
  - rewrite Hq in Hqd. destruct (Hqd k) as [r Hr]; [by left|].
    eapply (log_ok_worker st _ k r r); [done|done|cbn; by rewrite list_insert_id|done..| |].
    + intros k' Hne. cbn. rewrite Hw. by rewrite decide_False.
    + intros c n ph Hc. unfold ran. cbn. rewrite Hw. cbn. rewrite decide_True by done.
      intuition congruence.
  - eapply (log_ok_worker st _ k r (start_request r)); [done..| |].
    + intros k' Hne. cbn. rewrite Hw. cbn. by rewrite decide_False.
    + intros c n ph Hc. unfold ran. cbn. rewrite Hw. cbn. rewrite decide_True by done.
      destruct (at_client _ _ _ _ _ Hs Hc) as (r0 & Hr0 & _ & Hb). open_busy. assert (r0 = r) as -> by congruence. fin.
  - eapply (log_ok_worker st _ k r (start_request r)); [done..| |].
    + intros k' Hne. cbn. rewrite Hw. cbn. by rewrite !decide_False.
    + intros c n' ph Hc. unfold ran, start_request. cbn. rewrite Ha, Hw. cbn. rewrite !decide_True by done.
      rewrite list_lookup_insert_eq, Hr by (by eapply lookup_lt_Some).
      split; (intros [H|(x & [= <-] & H)]; [done|right]); by eexists.
  - destruct (at_worker st k n Hs) as (c & ph & r0 & Hc & Hr0 & Hco);
      [right; rewrite Hw; cbn; by rewrite decide_True|].
    eapply (log_ok_worker st _ k r (end_request r)); [done..| |].
    + intros k' Hne. cbn. rewrite Hw. cbn. by rewrite decide_False.
    + intros c' n' ph' Hc'. destruct (at_client _ _ _ _ _ Hs Hc) as (r1 & Hr1 & Hu & Hb).
      assert (c' = c) as -> by eauto. rewrite Hc in Hc'. injection Hc' as <- <-.
      assert (r1 = r) as -> by congruence. destruct Hb as (_ & Hab & _). unfold ran, end_request. cbn.
      rewrite Hw, Hab. cbn. rewrite decide_True by done.
      rewrite list_lookup_insert_eq by (by eapply lookup_lt_Some). split; [by left|]. intros _. right. by eexists.
Qed.

Lemma log_ok_init m : log_ok (exec_init m).
Proof.
  split; cbn [clients exec_init runs returns next_call].
  - intros c k n ph. rewrite lookup_replicate. by intros [].
  - split; [apply NoDup_nil_2|]. set_solver.
  - split; [apply NoDup_nil_2|]. set_solver.
Qed.

Lemma exec_reachable_ok m st : reachable m st -> slots_ok st /\ log_ok st.
Proof.
  induction 1 as [|st st' _ [Hs Hl] [H|H]]; [split; [apply slots_ok_init|apply log_ok_init]|..].
  - split; [by eapply slots_ok_submit|by eapply log_ok_submit].
  - split; [by eapply slots_ok_run|by eapply log_ok_run].
Qed.

(** ** Termination *)

Definition client_left (x : client) : nat :=
  match x with
  | Out => 0
  | In _ _ (Sending _) => 9
  | In _ _ (Waiting _) => 4
  | In _ _ (Woken _) => 3
  | In _ _ Waiting2 => 2
  | In _ _ Woken2 => 1
  end.
Definition worker_left (w : worker) : nat :=
  match w with WIdle => 0 | WGot _ => 3 | WRun _ _ => 2 | WRan _ _ => 1 end.

(** A bound on the steps that the calls under way still take. *)
Definition left_to_do (st : exec_state) : nat :=
  sum_list_with client_left (clients st) + 4 * length (request_queue st) + worker_left (worker_at st).

Lemma sum_list_insert {A} (f : A -> nat) l i x y :
  l !! i = Some x -> (sum_list_with f (<[i := y]> l) + f x = sum_list_with f l + f y)%nat.
Proof.
  revert i. induction l as [|z l IH]; intros [|i]; simpl; try done.
  - intros [= ->]. lia.
  - intros H. specialize (IH i H). lia.
Qed.

Lemma left_to_do_step st st' :
  step st st' -> st' = st \/ next_call st' = S (next_call st) \/ (left_to_do st' < left_to_do st)%nat.
Proof.
  intros [H|H]; destruct H; unfold left_to_do; cbn; auto; right; right;
    repeat match goal with
    | H : clients st !! ?c = Some ?x |- context [<[?c := ?y]> (clients st)] =>
        pose proof (sum_list_insert client_left _ _ _ y H); revert H
    | H : worker_at st = _ |- _ => rewrite H; clear H
    | H : request_queue st = _ |- _ => rewrite H; clear H
    end; intros; cbn in *; rewrite ?length_app; cbn; lia.
Qed.

(** A step that neither starts a call nor is a refused one. *)
Definition quiet (st st' : exec_state) : Prop :=
  step st st' /\ next_call st' = next_call st /\ st' <> st.

Lemma quiet_decreases st st' : quiet st st' -> (left_to_do st' < left_to_do st)%nat.
Proof. intros (H & Hn & Hne). destruct (left_to_do_step _ _ H) as [|[|]]; [done|lia|done]. Qed.

Lemma quiet_acc st : Acc (flip quiet) st.
Proof.
  revert st. apply (Inclusion.wf_incl _ _ (ltof _ left_to_do)); [|apply well_founded_ltof].
  intros x y. apply quiet_decreases.
Qed.

Lemma quiet_of st st' :
  step st st' -> next_call st' = next_call st -> left_to_do st' <> left_to_do st -> quiet st st'.
Proof. intros H Hn Hne. split_and!; [done..|]. intros ->. done. Qed.

(** With a call under way, or work for the worker, some step is possible. *)
Lemma worker_moves st k :
  slots_ok st -> is_Some (won (worker_at st) k) -> exists st', quiet st st'.
Proof.
  intros Hs Hk. destruct (so_worker _ Hs k Hk) as [r Hr].
  pose proof (so_slots _ Hs k r Hr) as Hslot. destruct Hk as [w Hw].
  assert (Hq : forall st', run_once st st' -> next_call st' = next_call st ->
    worker_left (worker_at st') <> worker_left (worker_at st) -> quiet st st').
  { intros st' H Hn Hne. split_and!; [by right|done|]. intros ->. done. }
  destruct (worker_at st) as [|k'|k' n|k' n] eqn:E; cbn [won] in Hw; [done|..];
    (destruct (decide (k' = k)) as [->|]; [|done]).
  - destruct (abandoned r) eqn:Ha; [eexists; apply Hq; [by eapply run_skips|done..]|].
    destruct (proc r) as [n|] eqn:Hp; [eexists; apply Hq; [by eapply run_starts|done..]|].
    exfalso. cbn [won] in Hslot. rewrite decide_True in Hslot by done.
    destruct Hslot as [(c & n & ph & _ & _ & Hb)|[_ Hun]]; open_busy; fin.
  - eexists. apply Hq; [by eapply run_runs|done..].
  - eexists. apply Hq; [by eapply run_ends|done..].
Qed.

Lemma queue_moves st k : slots_ok st -> k ∈ request_queue st -> exists st', quiet st st'.
Proof.
  intros Hs Hk. destruct (worker_at st) as [|k'|k' n|k' n] eqn:E;
    [|by apply (worker_moves st k'); [done|rewrite E; cbn; rewrite decide_True]..].
  destruct (request_queue st) as [|k' q] eqn:Hq; [by apply not_elem_of_nil in Hk|].
  eexists. split_and!; [right; by eapply run_takes|done|]. intros H.
  apply (f_equal worker_at) in H. cbn in H. congruence.
Qed.

(** There is always room in the queue for a slot that is not in it. *)
Lemma queue_room st k :
  slots_ok st -> is_Some (requests st !! k) -> k ∉ request_queue st ->
  (length (request_queue st) < NET_EXEC_QUEUE_SIZE)%nat.
Proof.
  intros Hs Hk Hnot. destruct (so_queue _ Hs) as [Hnd Hd].
  assert (H : (length (k :: request_queue st) <= length (seq 0 NET_EXEC_QUEUE_SIZE))%nat).
  { apply submseteq_length, NoDup_submseteq; [by apply NoDup_cons|].
    intros j Hj. apply elem_of_seq. rewrite <- (so_len _ Hs). split; [lia|]. cbn. apply lookup_lt_is_Some.
    apply elem_of_cons in Hj as [->|Hj]; auto. }
  rewrite length_seq in H. cbn [length] in H. lia.
Qed.

Lemma client_moves st c k n ph :
  slots_ok st -> clients st !! c = Some (In k n ph) -> exists st', quiet st st'.
Proof.
  intros Hs Hc. destruct (at_client _ _ _ _ _ Hs Hc) as (r & Hr & _ & Hb).
  assert (Hlt : (c < length (clients st))%nat) by (by eapply lookup_lt_Some).
  assert (Hq : forall st' x, submit st st' -> next_call st' = next_call st ->
    clients st' = <[c := x]> (clients st) -> x <> In k n ph -> exists st', quiet st st').
  { intros st' x H Hn Ex Hne. exists st'. split_and!; [by left|done|]. intros ->.
    apply (f_equal (lookup c)) in Ex. rewrite list_lookup_insert_eq in Ex by done. congruence. }
  assert (Hrun : running n r (k ∈ request_queue st) (won (worker_at st) k) -> exists st', quiet st st').
  { intros (_ & _ & _ & _ & Hw). apply (worker_moves st k Hs). destruct Hw as [->| ->]; by eexists. }
  assert (Hpend : pending r (k ∈ request_queue st) (won (worker_at st) k) -> exists st', quiet st st').
  { intros (_ & _ & _ & [[Hin _]|[_ Hw]]); [by apply (queue_moves st k)|].
    apply (worker_moves st k Hs). rewrite Hw. by eexists. }
  destruct Hb as (_ & _ & Hb). destruct ph as [timeout|timeout|err| |].
  - destruct Hb as (_ & _ & _ & Hnot & _).
    eapply Hq; [eapply submit_send; [done|]|done|done|done]. apply (queue_room st k); [done|by eexists|done].
  - destruct Hb as [Hb|[Hb|(_ & _ & Hd & _)]]; [auto..|].
    eapply Hq; [eapply submit_wakes; [done..|lia]|done|done|done].
  - destruct ((err <? 0) && started r && negb (completed r)) eqn:E.
    + apply andb_prop in E as [[He Hst]%andb_prop Hco]. apply Z.ltb_lt in He. apply negb_true_iff in Hco.
      eapply Hq; [by eapply submit_waits_again|done..].
    + eapply Hq; [by eapply submit_returns|done..].
  - destruct Hb as [Hb|(_ & _ & Hd & _)]; [auto|].
    eapply Hq; [eapply submit_wakes_again; [done..|lia]|done|done|done].
  - eapply Hq; [by eapply submit_returns_again|done..].
Qed.

(** Every call that was started is under way or has returned. *)
Definition all_accounted (st : exec_state) : Prop :=
  forall n, (n < next_call st)%nat ->
    n ∈ (returns st).*1 \/ exists c k ph, clients st !! c = Some (In k n ph).

Lemma accounted_client st st' c k n ph x :
  all_accounted st -> clients st !! c = Some (In k n ph) -> clients st' = <[c := x]> (clients st) ->
  next_call st' = next_call st -> (returns st).*1 ⊆ (returns st').*1 ->
  n ∈ (returns st').*1 \/ (exists ph', x = In k n ph') -> all_accounted st'.
Proof.
  intros Hall Hc Ec En Hsub Hx n'. rewrite En. intros [H|(c' & k' & ph' & H)]%Hall; [left; auto|].
  assert (Hlt : (c < length (clients st))%nat) by (by eapply lookup_lt_Some).
  destruct (decide (c' = c)) as [->|Hne].
  - assert (n' = n) as -> by congruence. destruct Hx as [Hx|[ph1 ->]]; [by left|right].
    exists c, k, ph1. by rewrite Ec, list_lookup_insert_eq.
  - right. exists c', k', ph'. by rewrite Ec, list_lookup_insert_ne.
Qed.

Lemma accounted_step st st' : all_accounted st -> step st st' -> all_accounted st'.
Proof.
  intros Hall [H|H]; [|by destruct H]. destruct H as
    [c Hc Hf|c timeout k r Hc Hf Hr|c k n timeout Hc Hl|c k n timeout err r Hc Ht He Hr
    |c k n timeout r Hc Hr Hd|c k n timeout Hc Ht|c k n err r Hc Hr He Hst Hco|c k n r Hc Hr Hd
    |c k n err r Hc Hr Hcond|c k n r Hc Hr]; [done| |..].
  { intros n. cbn. intros Hn. destruct (decide (n = next_call st)) as [->|Hne].
    - right. exists c, k, (Sending timeout). apply list_lookup_insert_eq. by eapply lookup_lt_Some.
    - destruct (Hall n) as [H|(c' & k' & ph' & H)]; [lia|by left|right]. exists c', k', ph'.
      rewrite list_lookup_insert_ne; [done|]. intros ->. congruence. }
  all: eapply (accounted_client st _ c k n); [done..|cbn; set_solver|cbn]; eauto; left; by left.
Qed.

Lemma reachable_accounted m st : reachable m st -> all_accounted st.
Proof. induction 1; [intros n; cbn; lia|by eapply accounted_step]. Qed.

(** ** What the callers rely on *)

(** C8: the worker runs a call only while the task that submitted it is still
    in [net_exec_submit], so that the argument on that task's stack is alive,
    whatever timeouts fire; the task that waits is the only one on the slot. *)
Theorem net_exec_argument_alive m st k n :
  reachable m st -> worker_at st = WRun k n ->
  exists c ph, clients st !! c = Some (In k n ph) /\
    forall c' n' ph', clients st !! c' = Some (In k n' ph') -> c' = c.
Proof.
  intros [Hs _]%exec_reachable_ok Hw.
  destruct (at_worker st k n Hs) as (c & ph & r & Hc & _ & _); [left; rewrite Hw; cbn; by rewrite decide_True|].
  exists c, ph. split; [done|]. by destruct (at_client _ _ _ _ _ Hs Hc) as (_ & _ & H & _).
Qed.

(** C9: a call that [net_exec_submit] reports as done has run exactly once, and
    one it reports as failed has not run and is not run later. *)
Theorem net_exec_result m st n e :
  reachable m st -> (n, e) ∈ returns st ->
  (e = NET_ERR_OK -> count_occ Nat.eq_dec (runs st) n = 1%nat) /\
    (e <> NET_ERR_OK -> count_occ Nat.eq_dec (runs st) n = 0%nat).
Proof.
  intros [_ Hl]%exec_reachable_ok H. destruct (lo_returns _ Hl) as [_ Hre]. destruct (Hre n e H) as [_ Hiff].
  destruct (lo_runs _ Hl) as [Hnd _]. split; intros He.
  - apply (proj1 (NoDup_count_occ' Nat.eq_dec (runs st))); [by apply NoDup_ListNoDup|].
    apply list_elem_of_In, Hiff, He.
  - apply count_occ_not_In. rewrite <- list_elem_of_In, <- Hiff. done.
Qed.

(** C10: without new calls [net_exec_submit] and the worker cannot run for ever,
    and they can only stop when every call has returned, with its verdict, and
    every slot is free again. *)
Theorem net_exec_drains m st :
  reachable m st ->
  Acc (flip quiet) st /\
    ((forall st', ~ quiet st st') ->
    Forall (eq Out) (clients st) /\ Forall (fun r => proc r = None /\ done_ r = 0) (requests st) /\
    request_queue st = [] /\ worker_at st = WIdle /\ forall n, (n < next_call st)%nat -> n ∈ (returns st).*1).
Proof.
  intros Hr. destruct (exec_reachable_ok _ _ Hr) as [Hs Hl]. split; [apply quiet_acc|]. intros Hstuck.
  assert (Hout : forall c k n ph, clients st !! c <> Some (In k n ph)).
  { intros c k n ph Hc. destruct (client_moves _ _ _ _ _ Hs Hc) as [st' H]. by destruct (Hstuck st'). }
  assert (Hw : forall k, won (worker_at st) k = None).
  { intros k. destruct (won (worker_at st) k) eqn:E; [|done].
    destruct (worker_moves st k Hs) as [st' H]; [by rewrite E|by destruct (Hstuck st')]. }
  assert (Hq : request_queue st = []).
  { destruct (request_queue st) as [|k q] eqn:E; [done|].
    destruct (queue_moves st k Hs) as [st' H]; [rewrite E; by left|by destruct (Hstuck st')]. }
  split_and!; [| |done| |].
  - apply Forall_lookup_2. intros c [|k n ph] H; [done|by destruct (Hout c k n ph)].
  - apply Forall_lookup_2. intros k r H. destruct (so_slots _ Hs k r H) as [(c & n & ph & Hc & _)|[_ Hun]];
      [by destruct (Hout c k n ph)|]. rewrite Hw, Hq in Hun. unfold unused in Hun. set_solver.
  - destruct (worker_at st) as [|k|k n|k n]; [done|..]; specialize (Hw k); cbn in Hw; by rewrite decide_True in Hw.
  - intros n Hn. destruct (reachable_accounted _ _ Hr n Hn) as [H|(c & k & ph & H)]; [done|by destruct (Hout c k n ph)].
Qed.

(** ** A call, step by step *)

Definition slot0 (r : net_exec_req_t) : list net_exec_req_t := r :: replicate 7 (Req None false false false 0).

Lemma reach_to m st st1 st' : reachable m st -> step st st1 -> st1 = st' -> reachable m st'.
Proof. intros H Hs <-. by eapply reach_step. Qed.

Lemma demo_running :
  reachable 1 (Exec (slot0 (Req (Some 0%nat) false false true 0)) [] [In 0 0 (Waiting 5)] (WRun 0 0) 1 [] []).
Proof.
  eapply reach_to; [eapply reach_step; [eapply reach_step; [eapply reach_step; [apply reach_init|]|]|]| |].
  - left. by eapply (submit_claim _ 0 5 0).
  - left. by eapply (submit_send _ 0 0 0 5); [|unfold NET_EXEC_QUEUE_SIZE; cbn; lia].
  - right. by eapply (run_takes _ 0 []).
  - right. by eapply (run_starts _ 0 0).
  - reflexivity.
Defined.

Lemma demo_returned :
  reachable 1 (Exec (slot0 (Req None true false true 0)) [] [Out] WIdle 1 [0%nat] [(0%nat, NET_ERR_OK)]).
Proof.
  eapply reach_to; [eapply reach_step; [eapply reach_step; [eapply reach_step; [apply demo_running|]|]|]| |].
  - right. by eapply (run_runs _ 0 0).
  - right. by eapply (run_ends _ 0 0).
  - left. by eapply (submit_wakes _ 0 0 0 5).
  - left. by eapply (submit_returns _ 0 0 0 NET_ERR_OK).
  - reflexivity.
Defined.

Lemma net_exec_argument_alive_witness :
  exists (c : nat) ph, [In 0 0 (Waiting 5)] !! c = Some (In 0 0 ph).
Proof.
  destruct (net_exec_argument_alive 1 _ 0 0 demo_running eq_refl) as (c & ph & H & _). by exists c, ph.
Defined.

Lemma net_exec_result_witness : count_occ Nat.eq_dec [0%nat] 0%nat = 1%nat.
Proof.
  destruct (net_exec_result 1 _ 0 NET_ERR_OK demo_returned) as [H _]; [by left|]. by apply H.
Defined.

Lemma net_exec_drains_witness :
  Acc (flip quiet) (Exec (slot0 (Req (Some 0%nat) false false true 0)) [] [In 0 0 (Waiting 5)] (WRun 0 0) 1 [] []).
Proof. exact (proj1 (net_exec_drains 1 _ demo_running)). Defined.
