(* ===== verification/Sha256.v ===== *)
(** * SHA-256 (user/sha256.c)

    The streaming hash of the TFTP client: the context collects the bytes of a
    block and compresses it when it is full.  The specification is that of
    FIPS 180-4: the message is padded, cut into blocks of 64 bytes, and the
    compression function is folded over them. *)

From S2P Require Import Prelude.

(** ** The code *)

Record sha256_ctx_t := Ctx { state : list Z; bits : Z; block : bytes; used : Z }.
#[global] Instance ctx_settable : Settable sha256_ctx_t := fun r => Ctx (state r) (bits r) (block r) (used r).

(** The table, line by line. *)
Definition k : list Z := concat [
  [0x428a2f98; 0x71374491; 0xb5c0fbcf; 0xe9b5dba5; 0x3956c25b; 0x59f111f1];
  [0x923f82a4; 0xab1c5ed5; 0xd807aa98; 0x12835b01; 0x243185be; 0x550c7dc3];
  [0x72be5d74; 0x80deb1fe; 0x9bdc06a7; 0xc19bf174; 0xe49b69c1; 0xefbe4786];
  [0x0fc19dc6; 0x240ca1cc; 0x2de92c6f; 0x4a7484aa; 0x5cb0a9dc; 0x76f988da];
  [0x983e5152; 0xa831c66d; 0xb00327c8; 0xbf597fc7; 0xc6e00bf3; 0xd5a79147];
  [0x06ca6351; 0x14292967; 0x27b70a85; 0x2e1b2138; 0x4d2c6dfc; 0x53380d13];
  [0x650a7354; 0x766a0abb; 0x81c2c92e; 0x92722c85; 0xa2bfe8a1; 0xa81a664b];
  [0xc24b8b70; 0xc76c51a3; 0xd192e819; 0xd6990624; 0xf40e3585; 0x106aa070];
  [0x19a4c116; 0x1e376c08; 0x2748774c; 0x34b0bcb5; 0x391c0cb3; 0x4ed8aa4a];
  [0x5b9cca4f; 0x682e6ff3; 0x748f82ee; 0x78a5636f; 0x84c87814; 0x8cc70208];
  [0x90befffa; 0xa4506ceb; 0xbef9a3f7; 0xc67178f2]].

Definition rotr (value bits_ : Z) : Z := Z.lor (Z.shiftr value bits_) (u32 (Z.shiftl value (32 - bits_))).

Definition at_ (l : list Z) (i : nat) : Z := nth i l 0.

Definition read32 (data : bytes) : Z :=
  Z.lor (Z.lor (Z.lor (Z.shiftl (at_ data 0) 24) (Z.shiftl (at_ data 1) 16)) (Z.shiftl (at_ data 2) 8)) (at_ data 3).

Definition write32 (value : Z) : bytes :=
  [u8 (Z.shiftr value 24); u8 (Z.shiftr value 16); u8 (Z.shiftr value 8); u8 value].

(** [for (i = 0; i < 16; i++) w[i] = read32(data + i * 4)] *)
Fixpoint load_loop (n i : nat) (data : bytes) (w : list Z) : list Z :=
  match n with O => w | S n => load_loop n (S i) data (<[i := read32 (drop (i * 4) data)]> w) end.

(** [for (i = 16; i < 64; i++)] *)
Fixpoint expand_loop (n i : nat) (w : list Z) : list Z :=
  match n with
  | O => w
  | S n =>
      let s0 := Z.lxor (Z.lxor (rotr (at_ w (i - 15)) 7) (rotr (at_ w (i - 15)) 18)) (Z.shiftr (at_ w (i - 15)) 3) in
      let s1 := Z.lxor (Z.lxor (rotr (at_ w (i - 2)) 17) (rotr (at_ w (i - 2)) 19)) (Z.shiftr (at_ w (i - 2)) 10) in
      expand_loop n (S i) (<[i := u32 (at_ w (i - 16) + s0 + at_ w (i - 7) + s1)]> w)
  end.

(** The variables [a] to [h]. *)
Definition vars : Type := Z * Z * Z * Z * Z * Z * Z * Z.

Fixpoint round_loop (n i : nat) (w : list Z) (v : vars) : vars :=
  match n with
  | O => v
  | S n =>
      let '(a, b, c, d, e, f, g, h) := v in
      let s1 := Z.lxor (Z.lxor (rotr e 6) (rotr e 11)) (rotr e 25) in
      let ch := Z.lxor (Z.land e f) (Z.land (u32 (Z.lnot e)) g) in
      let temp1 := u32 (h + s1 + ch + at_ k i + at_ w i) in
      let s0 := Z.lxor (Z.lxor (rotr a 2) (rotr a 13)) (rotr a 22) in
      let maj := Z.lxor (Z.lxor (Z.land a b) (Z.land a c)) (Z.land b c) in
      let temp2 := u32 (s0 + maj) in
      round_loop n (S i) w (u32 (temp1 + temp2), a, b, c, u32 (d + temp1), e, f, g)
  end.

(** [w] is not initialised: [junk] is what is on the stack. *)
Definition transform_state (junk st : list Z) (data : bytes) : list Z :=
  let w := expand_loop 48 16 (load_loop 16 0 data junk) in
  let '(a, b, c, d, e, f, g, h) :=
    round_loop 64 0 w (at_ st 0, at_ st 1, at_ st 2, at_ st 3, at_ st 4, at_ st 5, at_ st 6, at_ st 7) in
  [u32 (at_ st 0 + a); u32 (at_ st 1 + b); u32 (at_ st 2 + c); u32 (at_ st 3 + d);
   u32 (at_ st 4 + e); u32 (at_ st 5 + f); u32 (at_ st 6 + g); u32 (at_ st 7 + h)].

Definition initial : list Z := [
  0x6a09e667; 0xbb67ae85; 0x3c6ef372; 0xa54ff53a; 0x510e527f; 0x9b05688c; 0x1f83d9ab; 0x5be0cd19].

Definition store_block (i : Z) (b : Z) : M sha256_ctx_t unit :=
  c ← get;
  if (0 <=? i) && (i <? len (block c)) then modify (fun c => c <| block := <[Z.to_nat i := b]> (block c) |>) else stuck.

Section code.
Context (junk : list Z).

Definition transform (data : bytes) : M sha256_ctx_t unit :=
  modify (fun c => c <| state := transform_state junk (state c) data |>).

Definition sha256_init : M sha256_ctx_t unit :=
  modify (fun c => c <| state := initial |> <| bits := 0 |> <| used := 0 |>).

(** [ctx->block[ctx->used + i] = data[i]] *)
Fixpoint copy_loop (pos : Z) (l : bytes) : M sha256_ctx_t unit :=
  match l with [] => mret () | b :: l => store_block pos b;; copy_loop (pos + 1) l end.

Fixpoint update_loop (fuel : nat) (data : bytes) : M sha256_ctx_t unit :=
  if bool_decide (data = []) then mret ()
  else match fuel with
       | O => stuck
       | S fuel =>
           c ← get;
           let count := u32 (64 - used c) in
           let count := if len data <? count then len data else count in
           copy_loop (used c) (take (Z.to_nat count) data);;
           modify (fun c => c <| used := u32 (used c + count) |> <| bits := u64 (bits c + count * 8) |>);;
           c ← get;
           when (used c =? 64) (transform (block c);; modify (fun c => c <| used := 0 |>));;
           update_loop fuel (drop (Z.to_nat count) data)
       end.

(** [data] with its length; every turn of the loop takes a byte or more. *)
Definition sha256_update (data : bytes) : M sha256_ctx_t unit := update_loop (length data) data.

(** [while (used != 56)], where [used] is the variable of [sha256_final]. *)
Fixpoint pad_loop (fuel : nat) (used_ : Z) : M sha256_ctx_t Z :=
  if used_ =? 56 then mret used_
  else match fuel with
       | O => stuck
       | S fuel =>
           c ← get;
           used_ ← (if used_ =? 64 then transform (block c);; mret 0 else mret used_);
           store_block used_ 0;;
           pad_loop fuel (used_ + 1)
       end.

Fixpoint length_loop (n i : nat) (bits_ : Z) : M sha256_ctx_t unit :=
  match n with
  | O => mret ()
  | S n => store_block (56 + Z.of_nat i) (u8 (Z.shiftr bits_ (56 - Z.of_nat i * 8)));; length_loop n (S i) bits_
  end.

(** The bytes stored in [digest]; the padding is at most 64 bytes. *)
Definition sha256_final : M sha256_ctx_t bytes :=
  c ← get;
  let used_ := used c in
  let bits_ := bits c in
  store_block used_ 0x80;;
  pad_loop 64 (used_ + 1);;
  length_loop 8 0 bits_;;
  c ← get;
  transform (block c);;
  c ← get;
  mret (concat (write32 <$> take 8 (state c))).
End code.

(** ** FIPS 180-4 *)

Definition Ch (x y z : Z) : Z := Z.lxor (Z.land x y) (Z.land (u32 (Z.lnot x)) z).
Definition Maj (x y z : Z) : Z := Z.lxor (Z.lxor (Z.land x y) (Z.land x z)) (Z.land y z).
Definition Sigma0 (x : Z) : Z := Z.lxor (Z.lxor (rotr x 2) (rotr x 13)) (rotr x 22).
Definition Sigma1 (x : Z) : Z := Z.lxor (Z.lxor (rotr x 6) (rotr x 11)) (rotr x 25).
Definition sigma0 (x : Z) : Z := Z.lxor (Z.lxor (rotr x 7) (rotr x 18)) (Z.shiftr x 3).
Definition sigma1 (x : Z) : Z := Z.lxor (Z.lxor (rotr x 17) (rotr x 19)) (Z.shiftr x 10).

(** The words of a block, big-endian. *)
Fixpoint words (n : nat) (data : bytes) : list Z :=
  match n with
  | O => []
  | S n => (at_ data 0 * 2 ^ 24 + at_ data 1 * 2 ^ 16 + at_ data 2 * 2 ^ 8 + at_ data 3) :: words n (drop 4 data)
  end.

(** The message schedule, with [n] words to come. *)
Fixpoint schedule (n : nat) (w : list Z) : list Z :=
  match n with
  | O => w
  | S n =>
      let t := length w in
      schedule n (w ++ [u32 (sigma1 (at_ w (t - 2)) + at_ w (t - 7) + sigma0 (at_ w (t - 15)) + at_ w (t - 16))])
  end.

Definition fips_round (v : vars) (kw : Z * Z) : vars :=
  let '(a, b, c, d, e, f, g, h) := v in
  let t1 := h + Sigma1 e + Ch e f g + kw.1 + kw.2 in
  let t2 := Sigma0 a + Maj a b c in
  (u32 (t1 + t2), a, b, c, u32 (d + t1), e, f, g).

Definition compress (st : list Z) (data : bytes) : list Z :=
  let '(a, b, c, d, e, f, g, h) :=
    foldl fips_round (at_ st 0, at_ st 1, at_ st 2, at_ st 3, at_ st 4, at_ st 5, at_ st 6, at_ st 7)
      (zip k (schedule 48 (words 16 data))) in
  zip_with (fun x y => u32 (x + y)) [at_ st 0; at_ st 1; at_ st 2; at_ st 3; at_ st 4; at_ st 5; at_ st 6; at_ st 7]
    [a; b; c; d; e; f; g; h].

Fixpoint hash_blocks (n : nat) (st : list Z) (msg : bytes) : list Z :=
  match n with O => st | S n => hash_blocks n (compress st (take 64 msg)) (drop 64 msg) end.

(** The length of the message in 64 bits, and the padding in front of it. *)
Definition be64 (v : Z) : bytes := (fun i => u8 (Z.shiftr v (56 - i * 8))) <$> [0; 1; 2; 3; 4; 5; 6; 7].
Definition zeros (n : Z) : nat := Z.to_nat ((55 - n) mod 64).
Definition padded (msg : bytes) : bytes :=
  msg ++ [0x80] ++ replicate (zeros (len msg)) 0 ++ be64 (len msg * 8).
Definition sha256 (msg : bytes) : bytes :=
  let m := padded msg in concat (write32 <$> hash_blocks (length m / 64) initial m).

(** ** The compression function *)

Lemma at_app_l w j i : (i < length w)%nat -> at_ (w ++ j) i = at_ w i.
Proof. apply app_nth1. Qed.
Lemma insert_app_next {A} (w : list A) x y j : <[length w := y]> (w ++ x :: j) = (w ++ [y]) ++ j.
Proof. by rewrite insert_app_r_alt, Nat.sub_diag, <- app_assoc by done. Qed.

Lemma read32_eq data : are_bytes data ->
  read32 data = at_ data 0 * 2 ^ 24 + at_ data 1 * 2 ^ 16 + at_ data 2 * 2 ^ 8 + at_ data 3.
Proof.
  intros Hd. assert (Hb : forall i, is_byte (at_ data i)).
  { intros i. unfold at_. destruct (nth_in_or_default i data 0) as [Hi| ->]; [|done].
    eapply Forall_forall; [exact Hd|]. by apply list_elem_of_In. }
  unfold read32. pose proof (Hb 0%nat) as H0. pose proof (Hb 1%nat) as H1. pose proof (Hb 2%nat) as H2. pose proof (Hb 3%nat) as H3.
  unfold is_byte in *. revert H0 H1 H2 H3. generalize (at_ data 0) (at_ data 1) (at_ data 2) (at_ data 3). intros a b c d H0 H1 H2 H3.
  rewrite !shiftl_mul by done. rewrite lor_mul_add by lia.
  replace (a * 2 ^ 24 + b * 2 ^ 16) with ((a * 2 ^ 8 + b) * 2 ^ 16) by lia. rewrite lor_mul_add by lia.
  replace ((a * 2 ^ 8 + b) * 2 ^ 16 + c * 2 ^ 8) with (((a * 2 ^ 8 + b) * 2 ^ 8 + c) * 2 ^ 8) by lia. rewrite lor_mul_add by lia. lia.
Qed.

Lemma load_loop_words n i data w j :
  length w = i -> (n <= length j)%nat -> are_bytes data ->
  load_loop n i data (w ++ j) = (w ++ words n (drop (i * 4) data)) ++ drop n j.
Proof.
  revert i w j. induction n as [|n IH]; intros i w j Hw Hj Hd; cbn [load_loop words]; [by rewrite app_nil_r, drop_0|].
  destruct j as [|x j]; [cbn in Hj; lia|]. subst i. rewrite insert_app_next, IH; [|by rewrite length_app; cbn; lia|cbn in Hj; lia|done].
  rewrite read32_eq by (by apply Forall_drop). rewrite drop_drop. cbn [drop]. rewrite <- !app_assoc.
  replace (length w * 4 + 4)%nat with (S (length w) * 4)%nat by lia. done.
Qed.

Lemma expand_loop_schedule n i w j :
  length w = i -> (16 <= i)%nat -> (n <= length j)%nat -> expand_loop n i (w ++ j) = schedule n w ++ drop n j.
Proof.
  revert i w j. induction n as [|n IH]; intros i w j Hw Hi Hj; cbn [expand_loop schedule]; [by rewrite drop_0|].
  destruct j as [|x j]; [cbn in Hj; lia|]. subst i. rewrite !at_app_l by lia. rewrite insert_app_next, IH; [|by rewrite length_app; cbn; lia|lia|cbn in Hj; lia].
  cbn [drop]. do 5 f_equal. fold (sigma0 (at_ w (length w - 15))) (sigma1 (at_ w (length w - 2))). lia.
Qed.

Lemma drop_at (l : list Z) i : (i < length l)%nat -> drop i l = at_ l i :: drop (S i) l.
Proof. intros [x Hx]%lookup_lt_is_Some. unfold at_. rewrite nth_lookup, Hx. by apply drop_S. Qed.

Lemma u32_add_l a b : u32 (u32 a + b) = u32 (a + b).
Proof. apply Zplus_mod_idemp_l. Qed.
Lemma u32_add_r a b : u32 (a + u32 b) = u32 (a + b).
Proof. apply Zplus_mod_idemp_r. Qed.

Lemma round_loop_fold n i w v :
  length w = 64%nat -> (i + n = 64)%nat -> round_loop n i w v = foldl fips_round v (zip (drop i k) (drop i w)).
Proof.
  intros Hw. revert i v. induction n as [|n IH]; intros i v Hi.
  - replace i with 64%nat by lia. by destruct v as [[[[[[[]]]]]]].
  - rewrite (drop_at k i), (drop_at w i) by (rewrite ?Hw; change (length k) with 64%nat; lia). cbn [round_loop zip zip_with foldl].
    destruct v as [[[[[[[a b] c] d] e] f] g] h]. rewrite IH by lia. f_equal. unfold fips_round. cbn [fst snd].
    fold (Sigma0 a) (Sigma1 e) (Maj a b c) (Ch e f g). by rewrite u32_add_l, !u32_add_r.
Qed.

Lemma length_words n data : length (words n data) = n.
Proof. revert data. induction n as [|n IH]; intros; cbn; [done|]. by rewrite IH. Qed.
Lemma length_schedule n w : length (schedule n w) = (length w + n)%nat.
Proof. revert w. induction n as [|n IH]; intros; cbn [schedule]; [lia|]. rewrite IH, length_app. cbn. lia. Qed.

Lemma loops_schedule n m junk data :
  length junk = (m + n)%nat -> (16 <= m)%nat -> are_bytes data ->
  expand_loop n m (load_loop m 0 data junk) = schedule n (words m data).
Proof.
  intros Hj Hm Hd. pose proof (load_loop_words m 0 data [] junk eq_refl) as E. rewrite !app_nil_l, Nat.mul_0_l, drop_0 in E. rewrite E by (done || lia).
  rewrite expand_loop_schedule; [|apply length_words|lia|rewrite length_drop; lia]. by rewrite drop_drop, drop_ge, app_nil_r by lia.
Qed.

(** The loops of [transform] over the array [w] compute the function of the
    standard. *)
Lemma transform_compress junk st data :
  length junk = 64%nat -> are_bytes data -> transform_state junk st data = compress st data.
Proof.
  intros Hj Hd. unfold transform_state, compress. rewrite (loops_schedule 48 16 junk data) by (done || lia).
  rewrite round_loop_fold by (by rewrite ?length_schedule, ?length_words). rewrite !drop_0.
  by destruct (foldl _ _ _) as [[[[[[[]]]]]]].
Qed.

(** ** The blocks of a message *)

Lemma length_compress st data : length (compress st data) = 8%nat.
Proof. unfold compress. by destruct (foldl _ _ _) as [[[[[[[]]]]]]]. Qed.

#[local] Opaque compress transform_state.

Lemma hash_blocks_app n st msg x : (64 * n <= length msg)%nat -> hash_blocks n st (msg ++ x) = hash_blocks n st msg.
Proof.
  revert st msg. induction n as [|n IH]; intros st msg Hn; cbn [hash_blocks]; [done|].
  rewrite take_app_le, drop_app_le by lia. apply IH. rewrite length_drop. lia.
Qed.
Lemma hash_blocks_next n st msg : hash_blocks (S n) st msg = compress (hash_blocks n st msg) (take 64 (drop (64 * n) msg)).
Proof.
  revert st msg. induction n as [|n IH]; intros st msg; [done|].
  change (hash_blocks (S (S n)) st msg) with (hash_blocks (S n) (compress st (take 64 msg)) (drop 64 msg)).
  rewrite IH, drop_drop. by replace (64 + 64 * n)%nat with (64 * S n)%nat by lia.
Qed.
Lemma length_hash_blocks n msg : length (hash_blocks n initial msg) = 8%nat.
Proof. destruct n; [done|]. rewrite hash_blocks_next. apply length_compress. Qed.

(** ** The context

    [q] blocks of [msg] are hashed, and the [u] bytes after them are in the
    block. *)
Record has (q u : nat) (msg : bytes) (c : sha256_ctx_t) : Prop := {
  has_block : length (block c) = 64%nat;
  has_state : state c = hash_blocks q initial msg;
  has_length : length msg = (64 * q + u)%nat;
  has_rest : take u (block c) = drop (64 * q) msg }.

(** The rest of the context. *)
Definition kept (c c' : sha256_ctx_t) : Prop := bits c' = bits c /\ used c' = used c.

Lemma put_ok q u msg c b :
  has q u msg c -> (u < 64)%nat -> exists c', store_block (Z.of_nat u) b c = Ret () c' /\ has q (S u) (msg ++ [b]) c' /\ kept c c'.
Proof.
  intros [H1 H2 H3 H4] Hu. unfold store_block, mbind, M_bind. cbn [get rbind]. rewrite H1, (proj2 (Z.leb_le _ _)), (proj2 (Z.ltb_lt _ _)) by lia.
  cbn [andb]. eexists. split; [reflexivity|]. split; [|done]. rewrite Nat2Z.id. split; cbn [block state upd_field].
  - by rewrite length_insert.
  - rewrite hash_blocks_app by lia. done.
  - rewrite length_app. cbn. lia.
  - rewrite insert_take_drop, drop_app_le by lia. rewrite <- H4. change (b :: drop (S u) (block c)) with ([b] ++ drop (S u) (block c)).
    rewrite app_assoc, take_app_length'; [done|]. rewrite length_app, length_take. cbn. lia.
Qed.

Section streaming.
Context {junk : list Z} (Hj : length junk = 64%nat).

Lemma flush_ok q msg c :
  has q 64 msg c -> are_bytes msg -> exists c', transform junk (block c) c = Ret () c' /\ has (S q) 0 msg c' /\ kept c c'.
Proof using Hj.
  intros [H1 H2 H3 H4] Hb. eexists. split; [reflexivity|]. split; [|done].
  assert (Eb : block c = take 64 (drop (64 * q) msg)).
  { rewrite <- H4, !take_ge by (rewrite ?length_take; lia). done. }
  assert (are_bytes (block c)) by (rewrite Eb; by apply Forall_take, Forall_drop).
  split; cbn [block state upd_field]; [done| |lia|].
  - rewrite transform_compress, hash_blocks_next, <- Eb, H2 by done. done.
  - symmetry. apply drop_ge. lia.
Qed.

Lemma copy_ok q u msg c l :
  has q u msg c -> (u + length l <= 64)%nat ->
  exists c', copy_loop (Z.of_nat u) l c = Ret () c' /\ has q (u + length l) (msg ++ l) c' /\ kept c c'.
Proof.
  revert u msg c. induction l as [|b l IH]; intros u msg c Hh Hl; cbn [copy_loop length] in *.
  - exists c. rewrite app_nil_r, Nat.add_0_r. done.
  - destruct (put_ok q u msg c b Hh) as (c1 & E1 & H1 & K1); [lia|]. rewrite (mbind_ret _ _ _ _ _ E1).
    replace (Z.of_nat u + 1) with (Z.of_nat (S u)) by lia. destruct (IH (S u) (msg ++ [b]) c1 H1) as (c2 & E2 & H2 & K2); [lia|].
    exists c2. split; [done|]. rewrite <- app_assoc in H2. replace (u + S (length l))%nat with (S u + length l)%nat by lia.
    split; [done|]. destruct K1, K2. split; congruence.
Qed.

(** Between two calls the block is not full. *)
Definition absorbed (msg : bytes) (c : sha256_ctx_t) : Prop :=
  exists q u, has q u msg c /\ used c = Z.of_nat u /\ (u < 64)%nat /\ bits c = u64 (len msg * 8).

Lemma update_ok fuel data msg c :
  absorbed msg c -> are_bytes msg -> are_bytes data -> (length data <= fuel)%nat ->
  exists c', update_loop junk fuel data c = Ret () c' /\ absorbed (msg ++ data) c'.
Proof using Hj.
  revert data msg c. induction fuel as [|fuel IH]; intros data msg c Ha Hm Hd Hf.
  { destruct data; [|cbn in Hf; lia]. exists c. by rewrite app_nil_r. }
  destruct (decide (data = [])) as [->|Hne]; [exists c; by rewrite app_nil_r|]. cbn [update_loop].
  rewrite bool_decide_eq_false_2 by done. destruct Ha as (q & u & Hh & Eu & Hu & Eb).
  rewrite (mbind_ret get _ c c c eq_refl), Eu. rewrite (u32_small (64 - Z.of_nat u)) by lia.
  set (n := Nat.min (64 - u) (length data)). assert (0 < length data)%nat by (destruct data; [done|cbn; lia]).
  replace (if len data <? 64 - Z.of_nat u then len data else 64 - Z.of_nat u) with (Z.of_nat n).
  2: { destruct (Z.ltb_spec (len data) (64 - Z.of_nat u)); lia. }
  rewrite Nat2Z.id. destruct (copy_ok q u msg c (take n data) Hh) as (c1 & E1 & H1 & K1 & K1'); [rewrite length_take; lia|].
  rewrite (mbind_ret _ _ _ _ _ E1). rewrite length_take, Nat.min_l in H1 by lia.
  set (c2 := c1 <| used := u32 (used c1 + Z.of_nat n) |> <| bits := u64 (bits c1 + Z.of_nat n * 8) |>).
  rewrite (mbind_ret (modify (fun c => c <| used := u32 (used c + Z.of_nat n) |> <| bits := u64 (bits c + Z.of_nat n * 8) |>)) _ c1 () c2 eq_refl), (mbind_ret get _ c2 c2 c2 eq_refl).
  assert (H2 : has q (u + n) (msg ++ take n data) c2) by (destruct H1; by split).
  assert (E2 : used c2 = Z.of_nat (u + n)).
  { unfold c2. cbn. rewrite K1', Eu. rewrite u32_small by lia. lia. }
  assert (B2 : bits c2 = u64 (len (msg ++ take n data) * 8)).
  { unfold c2. cbn. rewrite K1, Eb. unfold u64. rewrite Zplus_mod_idemp_l. f_equal. rewrite length_app, length_take. lia. }
  clearbody c2. clear c1 E1 H1 K1 K1'.
  assert (Hm2 : are_bytes (msg ++ take n data)) by (apply Forall_app; split; [done|by apply Forall_take]).
  assert (Hc3 : exists c3, when (used c2 =? 64) (transform junk (block c2);; modify (fun c => c <| used := 0 |>)) c2 = Ret () c3 /\
    absorbed (msg ++ take n data) c3).
  { destruct (Z.eqb_spec (used c2) 64) as [E|E]; cbn [when].
    - replace (u + n)%nat with 64%nat in H2 by lia. destruct (flush_ok q _ c2 H2 Hm2) as (c3 & E3 & H3 & K3 & _).
      rewrite (mbind_ret _ _ _ _ _ E3). eexists. split; [reflexivity|]. exists (S q), 0%nat.
      split_and!; [destruct H3; by split|done|lia|]. cbn. by rewrite K3.
    - exists c2. split; [done|]. exists q, (u + n)%nat. split_and!; [done..|lia|done]. }
  destruct Hc3 as (c3 & E3 & H3). rewrite (mbind_ret _ _ _ _ _ E3).
  destruct (IH (drop n data) _ c3 H3 Hm2) as (c4 & E4 & H4); [by apply Forall_drop|rewrite length_drop; lia|].
  exists c4. split; [done|]. rewrite <- app_assoc, take_drop in H4. done.
Qed.

(** The zero bytes up to the length field. *)
Definition to_pad (u : nat) : nat := if decide (u <= 56)%nat then 56 - u else 120 - u.

Lemma pad_ok fuel q u msg c :
  has q u msg c -> are_bytes msg -> (u <= 64)%nat -> (to_pad u <= fuel)%nat ->
  exists q' c', pad_loop junk fuel (Z.of_nat u) c = Ret 56 c' /\ has q' 56 (msg ++ replicate (to_pad u) 0) c' /\ kept c c'.
Proof using Hj.
  revert q u msg c. induction fuel as [|fuel IH]; intros q u msg c Hh Hm Hu Hf; cbn [pad_loop].
  all: destruct (Z.eqb_spec (Z.of_nat u) 56) as [E|E]; [exists q, c; replace u with 56%nat in * by lia; by rewrite E, app_nil_r|].
  { unfold to_pad in Hf. destruct (decide _); lia. }
  rewrite (mbind_ret get _ c c c eq_refl).
  assert (Hc : exists q1 u1 c1, (if Z.of_nat u =? 64 then transform junk (block c);; mret 0 else mret (Z.of_nat u)) c = Ret (Z.of_nat u1) c1 /\
    has q1 u1 msg c1 /\ kept c c1 /\ (u1 < 64)%nat /\ to_pad u = S (to_pad (S u1))).
  { destruct (Z.eqb_spec (Z.of_nat u) 64) as [E64|E64].
    - replace u with 64%nat in * by lia. destruct (flush_ok q msg c Hh Hm) as (c1 & E1 & H1 & K1).
      exists (S q), 0%nat, c1. rewrite (mbind_ret _ _ _ _ _ E1). split_and!; [done..|lia|done].
    - exists q, u, c. split_and!; [done..|lia|]. unfold to_pad. destruct (decide (u <= 56)%nat), (decide (S u <= 56)%nat); lia. }
  destruct Hc as (q1 & u1 & c1 & E1 & H1 & K1 & Hu1 & Ep). rewrite (mbind_ret _ _ _ _ _ E1).
  destruct (put_ok q1 u1 msg c1 0 H1 Hu1) as (c2 & E2 & H2 & K2). rewrite (mbind_ret _ _ _ _ _ E2).
  replace (Z.of_nat u1 + 1) with (Z.of_nat (S u1)) by lia.
  destruct (IH q1 (S u1) (msg ++ [0]) c2 H2) as (q3 & c3 & E3 & H3 & K3); [apply Forall_app; split; [done|by repeat constructor]|lia|lia|].
  exists q3, c3. split; [done|]. rewrite Ep. cbn [replicate]. rewrite <- app_assoc in H3. split; [done|]. destruct K1, K2, K3. split; congruence.
Qed.

Lemma length_ok q msg c b :
  has q 56 msg c -> exists c', length_loop 8 0 b c = Ret () c' /\ has q 64 (msg ++ be64 b) c'.
Proof.
  intros Hh. assert (H : forall n i m c, (i + n = 8)%nat -> has q (56 + i) m c -> exists c', length_loop n i b c = Ret () c' /\
    has q 64 (m ++ drop i (be64 b)) c').
  { induction n as [|n IH]; intros i m c0 Hi H0; cbn [length_loop].
    - exists c0. replace i with 8%nat in * by lia. rewrite app_nil_r. done.
    - destruct (put_ok q (56 + i) m c0 (u8 (Z.shiftr b (56 - Z.of_nat i * 8))) H0) as (c1 & E1 & H1 & _); [lia|].
      replace (Z.of_nat (56 + i)) with (56 + Z.of_nat i) in E1 by lia. rewrite (mbind_ret _ _ _ _ _ E1).
      destruct (IH (S i) _ c1 ltac:(lia) ltac:(by replace (56 + S i)%nat with (S (56 + i)) by lia)) as (c2 & E2 & H2).
      exists c2. split; [done|]. rewrite <- app_assoc in H2.
      replace (drop i (be64 b)) with ([u8 (Z.shiftr b (56 - Z.of_nat i * 8))] ++ drop (S i) (be64 b)); [done|].
      symmetry. apply drop_S. unfold be64. rewrite list_lookup_fmap. do 8 (destruct i as [|i]; [done|]). lia. }
  destruct (H 8%nat 0%nat msg c eq_refl Hh) as (c' & ? & ?). by exists c'.
Qed.

Lemma are_bytes_be64 v : are_bytes (be64 v).
Proof. apply Forall_fmap, Forall_forall. intros i _. apply Z.mod_pos_bound. done. Qed.

Lemma u64_be64 v : be64 (u64 v) = be64 v.
Proof.
  apply list_fmap_ext. intros i x Hx. assert (0 <= x <= 7).
  { apply list_elem_of_lookup_2, list_elem_of_In in Hx. cbn in Hx. lia. }
  apply Z.bits_inj'. intros n Hn. unfold u8, u64. rewrite !Z.testbit_mod_pow2, !Z.shiftr_spec, Z.testbit_mod_pow2 by lia.
  destruct (Z.ltb_spec n 8); [|done]. by rewrite (proj2 (Z.ltb_lt _ _)) by lia.
Qed.

Lemma final_ok msg c :
  absorbed msg c -> are_bytes msg -> exists c', sha256_final junk c = Ret (sha256 msg) c'.
Proof using Hj.
  intros (q & u & Hh & Eu & Hu & Eb) Hm. unfold sha256_final. rewrite (mbind_ret get _ c c c eq_refl), Eu.
  destruct (put_ok q u msg c 0x80 Hh Hu) as (c1 & E1 & H1 & _). rewrite (mbind_ret _ _ _ _ _ E1).
  replace (Z.of_nat u + 1) with (Z.of_nat (S u)) by lia.
  assert (Hm1 : are_bytes (msg ++ [0x80])) by (apply Forall_app; split; [done|by repeat constructor]).
  destruct (pad_ok 64 q (S u) _ c1 H1 Hm1) as (q2 & c2 & E2 & H2 & _); [lia|unfold to_pad; destruct (decide _); lia|].
  rewrite (mbind_ret _ _ _ _ _ E2). destruct (length_ok q2 _ c2 (bits c) H2) as (c3 & E3 & H3). rewrite (mbind_ret _ _ _ _ _ E3).
  rewrite (mbind_ret get _ c3 c3 c3 eq_refl).
  assert (Ep : ((msg ++ [0x80]) ++ replicate (to_pad (S u)) 0) ++ be64 (bits c) = padded msg).
  { unfold padded. rewrite <- !app_assoc, Eb, u64_be64. do 4 f_equal. unfold zeros, to_pad. destruct Hh as [_ _ -> _].
    destruct (decide (S u <= 56)%nat).
    - rewrite <- (Z.mod_unique _ 64 (- Z.of_nat q) (55 - Z.of_nat u)) by lia. lia.
    - rewrite <- (Z.mod_unique _ 64 (- Z.of_nat q - 1) (119 - Z.of_nat u)) by lia. lia. }
  rewrite Ep in H3.
  assert (Hp : are_bytes (padded msg)).
  { rewrite <- Ep. apply Forall_app. split; [apply Forall_app; split; [done|by apply Forall_replicate]|apply are_bytes_be64]. }
  destruct (flush_ok q2 _ c3 H3 Hp) as (c4 & E4 & [_ H4 H4' _] & _). rewrite (mbind_ret _ _ _ _ _ E4), (mbind_ret get _ c4 c4 c4 eq_refl).
  exists c4. unfold sha256. cbn [mret M_ret]. rewrite H4, H4', take_ge by (rewrite length_hash_blocks; lia).
  replace ((64 * S q2 + 0) / 64)%nat with (S q2); [done|]. rewrite Nat.add_0_r, Nat.mul_comm, Nat.div_mul; done.
Qed.
End streaming.

(** [sha256_update] for one piece after the other. *)
Fixpoint update_all (junk : list Z) (pieces : list bytes) : M sha256_ctx_t unit :=
  match pieces with [] => mret () | d :: pieces => sha256_update junk d;; update_all junk pieces end.

Lemma update_all_ok junk pieces msg c :
  length junk = 64%nat -> absorbed msg c -> are_bytes msg -> Forall are_bytes pieces ->
  exists c', update_all junk pieces c = Ret () c' /\ absorbed (msg ++ concat pieces) c'.
Proof.
  intros Hj. revert msg c. induction pieces as [|d pieces IH]; intros msg c Ha Hm Hp; cbn [update_all concat].
  - exists c. by rewrite app_nil_r.
  - apply Forall_cons in Hp as [Hd Hp]. destruct (update_ok Hj (length d) d msg c Ha Hm Hd (le_n _)) as (c1 & E1 & H1).
    unfold sha256_update. rewrite (mbind_ret _ _ _ _ _ E1). rewrite app_assoc. apply IH; [done| |done]. by apply Forall_app.
Qed.

(** C20: however a message is cut into pieces, [sha256_init], [sha256_update] of
    every piece and [sha256_final] return, write only inside the block, and give
    the digest of FIPS 180-4 of the message, whatever was in the context and on
    the stack before. *)
Theorem sha256_streams junk pieces c :
  length junk = 64%nat -> length (block c) = 64%nat -> Forall are_bytes pieces ->
  exists c', (sha256_init;; update_all junk pieces;; sha256_final junk) c = Ret (sha256 (concat pieces)) c'.
Proof.
  intros Hj Hb Hp. set (c0 := c <| state := initial |> <| bits := 0 |> <| used := 0 |>).
  rewrite (mbind_ret sha256_init _ c () c0 eq_refl).
  assert (H0 : absorbed [] c0) by (exists 0%nat, 0%nat; split_and!; [by split|done|lia|done]).
  destruct (update_all_ok junk pieces [] c0 Hj H0) as (c1 & E1 & H1); [constructor|done|]. rewrite (mbind_ret _ _ _ _ _ E1).
  apply final_ok; [done|done|]. cbn. by apply Forall_concat.
Qed.

Definition stack_junk : list Z := replicate 64 0xdeadbeef.
Definition fresh_ctx : sha256_ctx_t := Ctx (replicate 8 7) 9 (replicate 64 1) 60.

Lemma sha256_streams_witness :
  exists c', (sha256_init;; update_all stack_junk [[97]; []; [98; 99]];; sha256_final stack_junk) fresh_ctx = Ret (sha256 [97; 98; 99]) c'.
Proof.
  apply (sha256_streams stack_junk [[97]; []; [98; 99]] fresh_ctx); [reflexivity|reflexivity|].
  repeat constructor; lia.
Defined.

(** The examples of the standard: "abc", and a message whose padding needs a
    block of its own. *)
Example sha256_abc :
  sha256 [97; 98; 99] = concat (write32 <$>
    [0xba7816bf; 0x8f01cfea; 0x414140de; 0x5dae2223; 0xb00361a3; 0x96177a9c; 0xb410ff61; 0xf20015ad]).
Proof. vm_compute. reflexivity. Qed.
Example sha256_two_blocks :
  sha256 (concat ((fun i => [i; i + 1; i + 2; i + 3]) <$> (Z.add 97 <$> [0; 1; 2; 3; 4; 5; 6; 7; 8; 9; 10; 11; 12; 13]))) =
  concat (write32 <$>
    [0x248d6a61; 0xd20638b8; 0xe5c02693; 0x0c3e6039; 0xa33ce459; 0x64ff2167; 0xf6ecedd4; 0x19db06c1]).
Proof. vm_compute. reflexivity. Qed.
