(* ===== verification/Paging.v ===== *)
(** * Physical pages and page tables (src/kernel/src/address.c)

    The memory that the kernel manages is a map from physical page numbers to
    pages of 512 words; a pointer is its address, and 0 is the null pointer.  A
    free page holds the address of the next one in its first word; a page of a
    page table holds 512 entries.  A struct with the one field [value] is that
    value.  The locks, the output of [printk] and the flushing of the TLBs are
    left out; [panic] and a failed [assert] are [stuck]. *)

From S2P Require Import Prelude.

Definition PAGE_SIZE : Z := 0x1000.
Definition PAGE_SIZE_BITS : Z := 0xc.
Definition PA_WIDTH_SV39 : Z := 56.
Definition VA_WIDTH_SV39 : Z := 39.
Definition PPN_WIDTH_SV39 : Z := PA_WIDTH_SV39 - PAGE_SIZE_BITS.
Definition VPN_WIDTH_SV39 : Z := VA_WIDTH_SV39 - PAGE_SIZE_BITS.
Definition KERNBASE : Z := 0x80200000.
Definition PHYSTOP : Z := KERNBASE + 128 * 1024 * 1024.
Definition MAXVA : Z := Z.shiftl 1 (9 + 9 + 9 + 12 - 1).
Definition TRAMPOLINE : Z := MAXVA - PAGE_SIZE.
Definition TRAPFRAME : Z := TRAMPOLINE - PAGE_SIZE.

Definition PTE_V : Z := 1.
Definition PTE_R : Z := 2.
Definition PTE_W : Z := 4.
Definition PTE_X : Z := 8.
Definition PTE2PA (pte : Z) : Z := u64 (Z.shiftl (Z.shiftr pte 10) 12).
Definition PTE_FLAGS (pte : Z) : Z := Z.land pte 0x3ff.

(** ** Addresses and page numbers *)

Definition phys_addr_from_size_t (v : Z) : Z := Z.land v (2 ^ PA_WIDTH_SV39 - 1).
Definition phys_page_num_from_size_t (v : Z) : Z := Z.land v (2 ^ PPN_WIDTH_SV39 - 1).
Definition size_t_from_phys_addr (v : Z) : Z := v.
Definition size_t_from_phys_page_num (v : Z) : Z := v.
Definition phys_addr_from_phys_page_num (ppn : Z) : Z := u64 (Z.shiftl ppn PAGE_SIZE_BITS).
Definition virt_addr_from_size_t (v : Z) : Z := Z.land v (2 ^ VA_WIDTH_SV39 - 1).
Definition virt_page_num_from_size_t (v : Z) : Z := Z.land v (2 ^ VPN_WIDTH_SV39 - 1).
Definition size_t_from_virt_addr (v : Z) : Z :=
  if 2 ^ (VA_WIDTH_SV39 - 1) <=? v then Z.lor v (u64 (Z.lnot (2 ^ VA_WIDTH_SV39 - 1))) else v.
Definition size_t_from_virt_page_num (v : Z) : Z := v.
Definition floor_phys (phys_addr : Z) : Z := phys_addr / PAGE_SIZE.
Definition ceil_phys (phys_addr : Z) : Z := u64 (phys_addr + PAGE_SIZE - 1) / PAGE_SIZE.
Definition floor_virts (virt_addr : Z) : Z := virt_addr / PAGE_SIZE.
Definition virt_page_num_from_virt_addr (virt_addr : Z) : Z := virt_addr / PAGE_SIZE.

Definition PageTableEntry_new (ppn flags : Z) : Z := Z.lor (u64 (Z.shiftl ppn 10)) flags.
Definition PageTableEntry_empty : Z := 0.
Definition PageTableEntry_ppn (bits : Z) : Z := Z.land (Z.shiftr bits 10) (2 ^ 44 - 1).
Definition PageTableEntry_flags (bits : Z) : Z := Z.land bits 0xff.
Definition PageTableEntry_is_valid (bits : Z) : bool := negb (Z.land (PageTableEntry_flags bits) PTE_V =? 0).
Definition get_bytes_array (ppn : Z) : Z := phys_addr_from_phys_page_num ppn.
Definition get_pte_array (ppn : Z) : Z := phys_addr_from_phys_page_num ppn.

(** ** Memory *)

Definition ALLOCATOR_PAGE_COUNT : nat := Z.to_nat ((PHYSTOP - KERNBASE) / PAGE_SIZE).
Record StackFrameAllocator := Allocator {
  start : Z; end_ : Z; freelist : Z; free_pages : Z; free_map : list Z }.
#[global] Instance allocator_settable : Settable StackFrameAllocator := fun r =>
  Allocator (start r) (end_ r) (freelist r) (free_pages r) (free_map r).

Record vm := Vm { pages : gmap Z (list Z); allocator : StackFrameAllocator }.
#[global] Instance vm_settable : Settable vm := fun r => Vm (pages r) (allocator r).

Definition page_of (a : Z) : Z := a / PAGE_SIZE.
Definition word_of (a : Z) : nat := Z.to_nat (a mod PAGE_SIZE / 8).

(** [*p] and [*p = w] for a pointer to a word. *)
Definition load_word (a : Z) : M vm Z :=
  s ← get;
  if negb (a mod 8 =? 0) then stuck
  else ws ← deref (pages s !! page_of a); deref (ws !! word_of a).
Definition store_word (a w : Z) : M vm unit :=
  load_word a;;
  modify (fun s => s <| pages := alter (fun ws => <[word_of a := w]> ws) (page_of a) (pages s) |>).

(** [memset(a, 0, PAGE_SIZE)] and [memcpy(d, a, PAGE_SIZE)] for pages. *)
Definition zero_page : list Z := replicate 512 0.
Definition clear_page (a : Z) : M vm unit :=
  load_word a;;
  if negb (a mod PAGE_SIZE =? 0) then stuck
  else modify (fun s => s <| pages := <[page_of a := zero_page]> (pages s) |>).
Definition copy_page (d a : Z) : M vm unit :=
  s ← get;
  if negb (d mod PAGE_SIZE =? 0) || negb (a mod PAGE_SIZE =? 0) then stuck
  else
    ws ← deref (pages s !! page_of a);
    deref (pages s !! page_of d);;
    modify (fun s => s <| pages := <[page_of d := ws]> (pages s) |>).

(** ** The allocator of pages *)

Definition set_allocator (f : StackFrameAllocator -> StackFrameAllocator) : M vm unit :=
  modify (fun s => s <| allocator := f (allocator s) |>).

Definition map_index (ppn : Z) : Z := ppn - Z.shiftr KERNBASE PAGE_SIZE_BITS.
Definition load_map (ppn : Z) : M vm Z :=
  s ← get;
  if map_index ppn <? 0 then stuck else deref (free_map (allocator s) !! Z.to_nat (map_index ppn)).
Definition store_map (ppn v : Z) : M vm unit :=
  load_map ppn;; set_allocator (fun a => a <| free_map := <[Z.to_nat (map_index ppn) := v]> (free_map a) |>).

Definition StackFrameAllocator_new : M vm unit :=
  set_allocator (fun a => a <| start := 0 |> <| end_ := 0 |> <| freelist := 0 |> <| free_pages := 0 |>
    <| free_map := replicate ALLOCATOR_PAGE_COUNT 0 |>).

(** [page->next = freelist; freelist = page; free_pages++; free_map[..] = 1] *)
Definition push_page (ppn : Z) : M vm unit :=
  let page := phys_addr_from_phys_page_num ppn in
  s ← get;
  store_word page (freelist (allocator s));;
  set_allocator (fun a => a <| freelist := page |> <| free_pages := u64 (free_pages a + 1) |>);;
  store_map ppn 1.

Fixpoint init_loop (n : nat) (value : Z) : M vm unit :=
  match n with O => mret () | S n => let value := value - 1 in push_page value;; init_loop n value end.

Definition StackFrameAllocator_init (l r : Z) : M vm unit :=
  set_allocator (fun a => a <| start := l |> <| end_ := r |>);;
  init_loop (Z.to_nat (r - l)) r.

Definition StackFrameAllocator_alloc : M vm Z :=
  s ← get;
  let page := freelist (allocator s) in
  ppn ← (if negb (page =? 0) then
           next ← load_word page;
           set_allocator (fun a => a <| freelist := next |> <| free_pages := u64 (free_pages a - 1) |>);;
           let ppn := floor_phys (phys_addr_from_size_t page) in
           store_map ppn 0;;
           mret ppn
         else mret 0);
  if ppn =? 0 then mret ppn
  else clear_page (phys_addr_from_phys_page_num ppn);; mret ppn.

Definition StackFrameAllocator_dealloc (ppn : Z) : M vm unit :=
  s ← get;
  if (ppn <? start (allocator s)) || (end_ (allocator s) <=? ppn) then mret ()
  else
    free ← load_map ppn;
    if negb (free =? 0) then mret () else push_page ppn.

Definition frame_alloctor_init (kernelend : Z) : M vm unit :=
  StackFrameAllocator_new;;
  StackFrameAllocator_init (ceil_phys (phys_addr_from_size_t kernelend)) (ceil_phys (phys_addr_from_size_t PHYSTOP)).

Definition kalloc : M vm Z := StackFrameAllocator_alloc.
Definition kfree (ppn : Z) : M vm unit := StackFrameAllocator_dealloc ppn.
Definition free_page_count : M vm Z := gets (fun s => free_pages (allocator s)).

(** ** Page tables *)

(** The indices from the root downwards. *)
Fixpoint indexes_loop (n : nat) (vpn : Z) (idx : list Z) : list Z :=
  match n with O => idx | S n => indexes_loop n (Z.shiftr vpn 9) (Z.land vpn 0x1ff :: idx) end.
Definition indexes (vpn : Z) : list Z := indexes_loop 3 vpn [].

Definition pte_addr (ppn i : Z) : Z := get_pte_array ppn + i * 8.

Fixpoint create_loop (idx : list Z) (ppn : Z) : M vm Z :=
  match idx with
  | [] => mret 0
  | [i] => mret (pte_addr ppn i)
  | i :: idx =>
      let pte := pte_addr ppn i in
      bits ← load_word pte;
      when (negb (PageTableEntry_is_valid bits))
        (frame ← kalloc;
         if frame =? 0 then stuck else store_word pte (PageTableEntry_new frame PTE_V));;
      bits ← load_word pte;
      create_loop idx (PageTableEntry_ppn bits)
  end.
Definition find_pte_create (root_ppn vpn : Z) : M vm Z := create_loop (indexes vpn) root_ppn.

Fixpoint find_loop (idx : list Z) (ppn : Z) : M vm Z :=
  match idx with
  | [] => mret 0
  | i :: idx =>
      let pte := pte_addr ppn i in
      bits ← load_word pte;
      if negb (PageTableEntry_is_valid bits) then mret 0
      else match idx with [] => mret pte | _ => find_loop idx (PageTableEntry_ppn bits) end
  end.
Definition find_pte (root_ppn vpn : Z) : M vm Z := find_loop (indexes vpn) root_ppn.

(** [n] pages are left. *)
Fixpoint map_loop (n : nat) (root_ppn vpn ppn last flags : Z) : M vm unit :=
  pte ← find_pte_create root_ppn vpn;
  bits ← load_word pte;
  if PageTableEntry_is_valid bits then stuck
  else
    store_word pte (PageTableEntry_new ppn (Z.lor PTE_V flags));;
    if vpn =? last then mret ()
    else match n with O => stuck | S n => map_loop n root_ppn (vpn + 1) (ppn + 1) last flags end.

Definition PageTable_map (root_ppn va pa size flags : Z) : M vm unit :=
  if size =? 0 then stuck
  else
    let ppn := floor_phys pa in
    let vpn := floor_virts va in
    let last := u64 (va + size - 1) / PAGE_SIZE in
    map_loop (Z.to_nat (last - vpn)) root_ppn vpn ppn last flags.

Fixpoint copy_loop (n : nat) (old new_ i : Z) : M vm Z :=
  match n with
  | O => mret 0
  | S n =>
      let vpn := floor_virts (virt_addr_from_size_t i) in
      pte ← find_pte old vpn;
      if negb (pte =? 0) then
        bits ← load_word pte;
        let phyaddr := PTE2PA bits in
        let flags := u8 (PTE_FLAGS bits) in
        ppn ← kalloc;
        if ppn =? 0 then mret (-1)
        else
          let paddr := phys_addr_from_phys_page_num ppn in
          copy_page paddr phyaddr;;
          PageTable_map new_ (virt_addr_from_size_t i) (phys_addr_from_size_t paddr) PAGE_SIZE flags;;
          copy_loop n old new_ (i + PAGE_SIZE)
      else copy_loop n old new_ (i + PAGE_SIZE)
  end.

(** [for (i = 0; i <= sz; i += PAGE_SIZE)] *)
Definition uvmcopy (old new_ sz : Z) : M vm Z := copy_loop (Z.to_nat (sz / PAGE_SIZE) + 1) old new_ 0.

Fixpoint unmap_loop (n : nat) (root_ppn a : Z) (do_free : bool) : M vm unit :=
  match n with
  | O => mret ()
  | S n =>
      pte ← find_pte root_ppn (virt_page_num_from_size_t a);
      when (negb (pte =? 0))
        (when do_free
           (bits ← load_word pte;
            kfree (floor_phys (phys_addr_from_size_t (PTE2PA bits))));;
         store_word pte PageTableEntry_empty);;
      unmap_loop n root_ppn (a + 1) do_free
  end.
Definition uvmunmap (root_ppn vpn npages : Z) (do_free : bool) : M vm unit :=
  unmap_loop (Z.to_nat npages) root_ppn vpn do_free.

(** [for (i = 0; i < 512; i++)] *)
Fixpoint for_entries (n : nat) (i : Z) (f : Z -> M vm unit) : M vm unit :=
  match n with O => mret () | S n => f i;; for_entries n (i + 1) f end.

(** A page table has three levels; [level] are left. *)
Fixpoint freewalk (level : nat) (ppn : Z) : M vm unit :=
  match level with
  | O => stuck
  | S level =>
      for_entries 512 0 (fun i =>
        let pte := pte_addr ppn i in
        bits ← load_word pte;
        if negb (Z.land bits PTE_V =? 0) && (Z.land bits (Z.lor (Z.lor PTE_R PTE_W) PTE_X) =? 0) then
          freewalk level (PageTableEntry_ppn bits);;
          store_word pte PageTableEntry_empty
        else if negb (Z.land bits PTE_V =? 0) then stuck
        else mret ());;
      kfree ppn
  end.

Definition uvmfree (root_ppn sz : Z) : M vm unit :=
  when (0 <? sz) (uvmunmap root_ppn (floor_virts (virt_addr_from_size_t 0)) (sz / PAGE_SIZE) true);;
  freewalk 3 root_ppn.

Definition proc_freepagetable (root_ppn sz : Z) : M vm unit :=
  uvmunmap root_ppn (floor_virts (virt_addr_from_size_t TRAMPOLINE)) 1 false;;
  uvmunmap root_ppn (floor_virts (virt_addr_from_size_t TRAPFRAME)) 1 false;;
  uvmfree root_ppn sz.
