(* ===== verification/Frames.v ===== *)
(** * The allocator of physical pages

    The free pages are a list that is linked through their first words; the map
    of free pages marks exactly the pages of the list, so that a page is never
    freed twice and never given out twice. *)

From S2P Require Import Prelude Paging.

(** ** Addresses *)

Definition base : Z := Z.shiftr KERNBASE PAGE_SIZE_BITS.

Lemma page_addr p : 0 <= p < 2 ^ 44 -> phys_addr_from_phys_page_num p = p * 4096.
Proof.
  intros Hp. unfold phys_addr_from_phys_page_num, PAGE_SIZE_BITS, u64. rewrite shiftl_mul by done. rewrite Z.mod_small; lia.
Qed.

Section addr.
Context (p i : Z) (Hi : 0 <= i < 512).
Lemma page_of_addr : page_of (p * 4096 + i * 8) = p.
Proof using Hi. unfold page_of, PAGE_SIZE. rewrite Z.div_add_l by done. rewrite Z.div_small; lia. Qed.
Lemma word_of_addr : word_of (p * 4096 + i * 8) = Z.to_nat i.
Proof using Hi.
  unfold word_of, PAGE_SIZE. rewrite Z.add_comm, Z_mod_plus_full, Z.mod_small by lia. by rewrite Z.div_mul.
Qed.
Lemma aligned_addr : (p * 4096 + i * 8) mod 8 = 0.
Proof. replace (p * 4096 + i * 8) with ((p * 512 + i) * 8) by lia. by apply Z_mod_mult. Qed.
End addr.

Definition word (m : gmap Z (list Z)) (p : Z) (i : Z) : option Z := m !! p ≫= fun ws => ws !! Z.to_nat i.

Lemma load_word_at s p i w :
  0 <= i < 512 -> word (pages s) p i = Some w -> load_word (p * 4096 + i * 8) s = Ret w s.
Proof.
  intros Hi Hw. unfold load_word, mbind, M_bind. cbn [get rbind]. rewrite aligned_addr. cbn [Z.eqb negb].
  rewrite page_of_addr, word_of_addr by done. unfold word in Hw. destruct (pages s !! p) as [ws|]; [|done]. cbn in *. by rewrite Hw.
Qed.

Definition set_word (p i w : Z) (m : gmap Z (list Z)) : gmap Z (list Z) := alter (fun ws => <[Z.to_nat i := w]> ws) p m.

Lemma store_word_at s p i w w0 :
  0 <= i < 512 -> word (pages s) p i = Some w0 ->
  store_word (p * 4096 + i * 8) w s = Ret () (s <| pages := set_word p i w (pages s) |>).
Proof.
  intros Hi Hw. unfold store_word. rewrite (mbind_ret _ _ _ _ _ (load_word_at s p i w0 Hi Hw)). unfold modify.
  by rewrite page_of_addr, word_of_addr.
Qed.

Lemma word_set_eq m p i w w0 : word m p i = Some w0 -> word (set_word p i w m) p i = Some w.
Proof.
  unfold word, set_word. rewrite lookup_alter_eq. destruct (m !! p) as [ws|]; [|done]. cbn. intros H%lookup_lt_Some.
  by apply list_lookup_insert_eq.
Qed.
Lemma word_set_ne m p i w q j : 0 <= i -> 0 <= j -> (q, j) <> (p, i) -> word (set_word p i w m) q j = word m q j.
Proof.
  intros Hi Hj Hne. unfold word, set_word. destruct (decide (q = p)) as [->|]; [|by rewrite lookup_alter_ne].
  rewrite lookup_alter_eq. destruct (m !! p) as [ws|]; [|done]. cbn. rewrite list_lookup_insert_ne; [done|]. intros E.
  apply Hne. f_equal. lia.
Qed.

(** A page has 512 words. *)
Definition has_page (m : gmap Z (list Z)) (p : Z) : Prop := exists ws, m !! p = Some ws /\ length ws = 512%nat.
Lemma has_word m p i : has_page m p -> 0 <= i < 512 -> exists w, word m p i = Some w.
Proof.
  intros (ws & Hp & Hl) Hi. destruct (lookup_lt_is_Some_2 ws (Z.to_nat i)) as [w Hw]; [lia|]. exists w. unfold word. by rewrite Hp.
Qed.
Lemma has_page_set m p i w q : has_page m q -> has_page (set_word p i w m) q.
Proof.
  intros (ws & Hq & Hl). unfold set_word, has_page. destruct (decide (q = p)) as [->|]; [|by rewrite lookup_alter_ne; eauto].
  rewrite lookup_alter_eq, Hq. eexists. split; [done|]. by rewrite length_insert.
Qed.
Lemma has_page_insert m p q : has_page m q -> has_page (<[p := zero_page]> m) q.
Proof.
  intros H. destruct (decide (q = p)) as [->|]; [exists zero_page; by rewrite lookup_insert_eq|]. unfold has_page. by rewrite lookup_insert_ne.
Qed.

(** ** The free list *)

Fixpoint chain (m : gmap Z (list Z)) (a : Z) (l : list Z) : Prop :=
  match l with
  | [] => a = 0
  | p :: l => a = p * 4096 /\ exists next, word m p 0 = Some next /\ chain m next l
  end.

Lemma chain_ext m m' a l : (forall p, p ∈ l -> m' !! p = m !! p) -> chain m a l -> chain m' a l.
Proof.
  revert a. induction l as [|p l IH]; intros a Hm; cbn; [done|]. intros (-> & next & Hw & Hc). split; [done|].
  exists next. split; [unfold word; rewrite Hm; [done|by left]|]. apply IH; [|done]. intros q Hq. apply Hm. by right.
Qed.

Definition managed (s : vm) (p : Z) : Prop := start (allocator s) <= p < end_ (allocator s).

Record frames_ok (fl : list Z) (s : vm) : Prop := {
  frames_range : base <= start (allocator s) /\ end_ (allocator s) <= base + Z.of_nat ALLOCATOR_PAGE_COUNT;
  frames_mem : forall p, managed s p -> has_page (pages s) p;
  frames_free : forall p, p ∈ fl -> managed s p;
  frames_nodup : NoDup fl;
  frames_chain : chain (pages s) (freelist (allocator s)) fl;
  frames_map : forall p, managed s p ->
    free_map (allocator s) !! Z.to_nat (map_index p) = Some (if decide (p ∈ fl) then 1 else 0);
  frames_count : free_pages (allocator s) = len fl }.

(** The limits never change after the start. *)
Definition bounds (s s' : vm) : Prop := start (allocator s') = start (allocator s) /\ end_ (allocator s') = end_ (allocator s).

Lemma bounds_managed s s' p : bounds s s' -> managed s' p <-> managed s p.
Proof. intros [E1 E2]. unfold managed. by rewrite E1, E2. Qed.
#[global] Instance bounds_refl : Reflexive bounds.
Proof. by split. Qed.
#[global] Instance bounds_trans : Transitive bounds.
Proof. intros s1 s2 s3 [E1 E2] [E3 E4]. split; congruence. Qed.

Lemma page_count : Z.of_nat ALLOCATOR_PAGE_COUNT = 32768.
Proof. unfold ALLOCATOR_PAGE_COUNT. rewrite Z2Nat.id; done. Qed.
Lemma base_eq : base = 0x80200.
Proof. done. Qed.

Section allocator.
Context {fl : list Z} {s : vm} (Hok : frames_ok fl s).

Lemma managed_range p : managed s p -> base <= p < base + 32768.
Proof using Hok. destruct (frames_range _ _ Hok). rewrite page_count in *. unfold managed. lia. Qed.

Lemma free_length : len fl <= 32768.
Proof using Hok.
  assert (Hs : fl ⊆+ seqZ base 32768).
  { apply NoDup_submseteq; [by destruct Hok|]. intros p Hp%(frames_free _ _ Hok)%managed_range. by apply elem_of_seqZ. }
  apply submseteq_length in Hs. rewrite length_seqZ in Hs. lia.
Qed.

Lemma load_map_at p : managed s p -> load_map p s = Ret (if decide (p ∈ fl) then 1 else 0) s.
Proof using Hok.
  intros Hp. pose proof (managed_range p Hp). unfold load_map, mbind, M_bind. cbn [get rbind].
  rewrite (proj2 (Z.ltb_ge _ _)) by (unfold map_index; fold base; lia). by rewrite (frames_map _ _ Hok p Hp).
Qed.
End allocator.

Lemma load_map_same s s' p x :
  free_map (allocator s') = free_map (allocator s) -> load_map p s = Ret x s -> load_map p s' = Ret x s'.
Proof.
  intros E. unfold load_map, mbind, M_bind. cbn. rewrite E. destruct (_ <? 0); [done|].
  destruct (_ !! _); [|done]. cbn. by intros [= ->].
Qed.

(** Changing the mark of a page. *)
Lemma map_marked (fl fl' : list Z) s p v :
  frames_ok fl s -> managed s p -> v = (if decide (p ∈ fl') then 1 else 0) -> (forall q, q <> p -> q ∈ fl' <-> q ∈ fl) ->
  forall q, managed s q -> <[Z.to_nat (map_index p) := v]> (free_map (allocator s)) !! Z.to_nat (map_index q) =
    Some (if decide (q ∈ fl') then 1 else 0).
Proof.
  intros Hok Hp -> Hq q Hm. pose proof (managed_range Hok p Hp). pose proof (managed_range Hok q Hm).
  destruct (decide (q = p)) as [->|Hne].
  - apply list_lookup_insert_eq. eapply lookup_lt_Some, (frames_map _ _ Hok p Hp).
  - rewrite list_lookup_insert_ne by (unfold map_index; fold base; lia). rewrite (frames_map _ _ Hok q Hm).
    f_equal. specialize (Hq q Hne). by destruct (decide (q ∈ fl)), (decide (q ∈ fl')); try done; exfalso; tauto.
Qed.

Lemma store_map_at s p v x : load_map p s = Ret x s ->
  store_map p v s = Ret () (s <| allocator := (allocator s) <| free_map := <[Z.to_nat (map_index p) := v]> (free_map (allocator s)) |> |>).
Proof. intros H. unfold store_map. by rewrite (mbind_ret _ _ _ _ _ H). Qed.

Lemma alloc_none s : frames_ok [] s -> kalloc s = Ret 0 s.
Proof. intros Hok. pose proof (frames_chain _ _ Hok) as Hc. cbn in Hc. unfold kalloc, StackFrameAllocator_alloc, mbind, M_bind. cbn. by rewrite Hc. Qed.

Lemma clear_page_at s p :
  has_page (pages s) p -> clear_page (p * 4096) s = Ret () (s <| pages := <[p := zero_page]> (pages s) |>).
Proof.
  intros Hp. destruct (has_word _ p 0 Hp) as [w Hw]; [lia|]. unfold clear_page. replace (p * 4096) with (p * 4096 + 0 * 8) by lia.
  rewrite (mbind_ret _ _ _ _ _ (load_word_at s p 0 w ltac:(lia) Hw)), page_of_addr by lia.
  replace (p * 4096 + 0 * 8) with (p * PAGE_SIZE) by (unfold PAGE_SIZE; lia). by rewrite Z_mod_mult.
Qed.

Lemma floor_addr p : 0 <= p < 2 ^ 44 -> floor_phys (phys_addr_from_size_t (p * 4096)) = p.
Proof.
  intros Hp. unfold floor_phys, phys_addr_from_size_t, PA_WIDTH_SV39, PAGE_SIZE. rewrite land_mask, Z.mod_small by lia. by apply Z.div_mul.
Qed.

(** The first page of the list is taken, and cleared. *)
Lemma alloc_some p fl s :
  frames_ok (p :: fl) s ->
  wp (fun r s' => r = p /\ frames_ok fl s' /\ pages s' = <[p := zero_page]> (pages s) /\ bounds s s') (kalloc s).
Proof.
  intros Hok. assert (Hp : managed s p) by (apply (frames_free _ _ Hok); by left). pose proof (managed_range Hok p Hp) as Hr.
  rewrite base_eq in Hr. pose proof (frames_nodup _ _ Hok) as [Hnp Hnd]%NoDup_cons. destruct (frames_chain _ _ Hok) as (Ea & next & Hw & Hc).
  unfold kalloc, StackFrameAllocator_alloc. eapply wp_eq; [reflexivity|]. rewrite Ea, (proj2 (Z.eqb_neq _ _)) by lia. cbn [negb].
  pose proof (free_length Hok) as Hlen.
  set (a1 := (allocator s) <| freelist := next |> <| free_pages := u64 (free_pages (allocator s) - 1) |>).
  set (a2 := a1 <| free_map := <[Z.to_nat (map_index p) := 0]> (free_map (allocator s)) |>).
  eapply (wp_step (fun r s1 => r = p /\ s1 = s <| allocator := a2 |>)).
  { replace (p * 4096) with (p * 4096 + 0 * 8) at 1 by lia. eapply wp_eq; [by apply load_word_at; [lia|]|].
    eapply wp_eq; [reflexivity|]. fold a1. rewrite floor_addr by lia.
    eapply wp_eq; [eapply store_map_at, load_map_same; [|exact (load_map_at Hok p Hp)]; done|by split]. }
  intros ? s1 [-> ->]. rewrite (proj2 (Z.eqb_neq _ _)), page_addr by lia.
  eapply wp_eq; [apply clear_page_at, (frames_mem _ _ Hok), Hp|]. cbn [wp mret M_ret].
  destruct Hok as [H1 H2 H3 H4 H5 H6 H7]. split_and!; [done| |done|done]. split; try done; cbn.
  - intros q Hq. by apply has_page_insert, H2.
  - intros q Hq. apply H3. by right.
  - eapply chain_ext; [|exact Hc]. intros q Hq. apply lookup_insert_ne. by intros <-.
  - apply (map_marked (p :: fl) fl s p); [by split|done|by rewrite decide_False|]. intros q Hne. set_solver.
  - rewrite H7. cbn [length]. unfold u64. rewrite Z.mod_small; [lia|]. cbn in Hlen. lia.
Qed.

(** ** Freeing *)

Definition linked (p next : Z) (m : gmap Z (list Z)) : gmap Z (list Z) := set_word p 0 next m.

Lemma push_ok fl s p :
  frames_ok fl s -> managed s p -> p ∉ fl ->
  wp (fun _ s' => frames_ok (p :: fl) s' /\ (exists next, pages s' = linked p next (pages s)) /\ bounds s s') (push_page p s).
Proof.
  intros Hok Hp Hn. pose proof (managed_range Hok p Hp) as Hr. rewrite base_eq in Hr. pose proof (free_length Hok) as Hlen.
  pose proof (frames_mem _ _ Hok p Hp) as Hpage. destruct (has_word _ p 0 Hpage) as [w Hw]; [lia|].
  unfold push_page. rewrite page_addr by lia. eapply wp_eq; [reflexivity|]. set (next := freelist (allocator s)).
  eapply wp_eq; [replace (p * 4096) with (p * 4096 + 0 * 8) by lia; by eapply store_word_at; [lia|]|].
  eapply wp_eq; [reflexivity|].
  eapply wp_run; [eapply store_map_at, load_map_same; [|exact (load_map_at Hok p Hp)]; done|].
  destruct Hok as [H1 H2 H3 H4 H5 H6 H7]. split_and!; [|by exists next|done]. split; try done; cbn.
  - intros q Hq. by apply has_page_set, H2.
  - intros q [-> | Hq]%elem_of_cons; [done|by apply H3].
  - by constructor.
  - split; [done|]. exists next. split; [by eapply word_set_eq|]. eapply chain_ext; [|exact H5]. intros q Hq.
    apply lookup_alter_ne. by intros <-.
  - apply (map_marked fl (p :: fl) s p); [by split|done|rewrite decide_True; [done|by left]|]. intros q Hne. set_solver.
  - rewrite H7. unfold u64. rewrite Z.mod_small; lia.
Qed.

Lemma free_ok fl s p :
  frames_ok fl s -> managed s p -> p ∉ fl ->
  wp (fun _ s' => frames_ok (p :: fl) s' /\ (exists next, pages s' = linked p next (pages s)) /\ bounds s s') (kfree p s).
Proof.
  intros Hok Hp Hn. unfold kfree, StackFrameAllocator_dealloc. eapply wp_eq; [reflexivity|].
  rewrite (proj2 (Z.ltb_ge _ _)), (proj2 (Z.leb_gt _ _)) by (apply Hp). cbn [orb].
  eapply wp_eq; [by apply (load_map_at Hok)|]. rewrite decide_False by done. by apply push_ok.
Qed.

(** A page that is free already, or is none of the allocator's, is ignored. *)
Lemma free_ignored fl s p : frames_ok fl s -> p ∈ fl \/ ~ managed s p -> kfree p s = Ret () s.
Proof.
  intros Hok Hp. unfold kfree, StackFrameAllocator_dealloc. rewrite (mbind_ret get _ s s s eq_refl).
  destruct (_ || _) eqn:E; [done|]. apply orb_false_iff in E as [E1%Z.ltb_ge E2%Z.leb_gt].
  destruct Hp as [Hp|Hp]; [|by destruct Hp]. rewrite (mbind_ret _ _ _ _ _ (load_map_at Hok p ltac:(done))). by rewrite decide_True.
Qed.

(** ** Initialisation *)

Lemma init_loop_ok n fl s :
  frames_ok fl s -> (forall q, q ∈ fl -> start (allocator s) + Z.of_nat n <= q) -> start (allocator s) + Z.of_nat n <= end_ (allocator s) ->
  wp (fun _ s' => frames_ok (seqZ (start (allocator s)) (Z.of_nat n) ++ fl) s' /\ bounds s s')
     (init_loop n (start (allocator s) + Z.of_nat n) s).
Proof.
  revert fl s. induction n as [|n IH]; intros fl s Hok Hfl Hn; cbn [init_loop]; [by cbn|].
  replace (start (allocator s) + Z.of_nat (S n) - 1) with (start (allocator s) + Z.of_nat n) by lia.
  set (p := start (allocator s) + Z.of_nat n). eapply wp_step; [apply (push_ok fl s p Hok)|].
  { unfold managed. lia. }
  { intros Hp%Hfl. lia. }
  intros ? s1 (Hok1 & _ & Hb). pose proof Hb as [E1 E2]. unfold p. rewrite <- E1.
  eapply wp_mono; [|apply (IH (p :: fl) s1 Hok1); [|lia]].
  - intros ? s2 [H2 H2']. split; [|by etransitivity]. rewrite E1 in H2. replace (Z.of_nat (S n)) with (Z.of_nat n + 1) by lia.
    rewrite seqZ_app by lia. rewrite <- app_assoc, E1.
    rewrite (seqZ_cons _ 1) by lia. exact H2.
  - intros q [-> | Hq]%elem_of_cons; [unfold p; lia|]. specialize (Hfl q Hq). lia.
Qed.

(** All pages between the kernel and the end of the memory are free. *)
Lemma allocator_init_ok kernelend s :
  KERNBASE <= kernelend <= PHYSTOP ->
  (forall p, base <= p < base + 32768 -> has_page (pages s) p) ->
  wp (fun _ s' => frames_ok (seqZ (ceil_phys kernelend) (base + 32768 - ceil_phys kernelend)) s') (frame_alloctor_init kernelend s).
Proof.
  unfold PHYSTOP, KERNBASE. intros Hk Hp. unfold frame_alloctor_init, StackFrameAllocator_new, StackFrameAllocator_init.
  eapply wp_eq; [reflexivity|]. eapply wp_eq; [reflexivity|].
  replace (phys_addr_from_size_t kernelend) with kernelend.
  2: { symmetry. unfold phys_addr_from_size_t, PA_WIDTH_SV39. rewrite land_mask, Z.mod_small; lia. }
  change (ceil_phys (phys_addr_from_size_t PHYSTOP)) with (base + 32768). set (l := ceil_phys kernelend).
  assert (Hl : base <= l <= base + 32768).
  { unfold l, ceil_phys, u64, PAGE_SIZE. rewrite base_eq, (Z.mod_small _ (2 ^ 64)) by lia.
    split; [apply Z.div_le_lower_bound; lia|apply Z.lt_succ_r, Z.div_lt_upper_bound; lia]. }
  rewrite base_eq in *. match goal with |- wp _ (init_loop _ _ ?x) => set (s1 := x) end.
  assert (Hok : frames_ok [] s1).
  { split; cbn; rewrite ?page_count, ?base_eq; try done; try lia.
    - intros p Hm. apply Hp. unfold managed in Hm. cbn in Hm. lia.
    - intros p ?%not_elem_of_nil. done.
    - apply NoDup_nil_2.
    - intros p Hm. unfold managed in Hm. cbn in Hm. rewrite decide_False by apply not_elem_of_nil. apply lookup_replicate_2.
      unfold map_index. fold base. rewrite base_eq. pose proof page_count. lia. }
  pose proof (init_loop_ok (Z.to_nat (0x80200 + 32768 - l)) [] s1 Hok) as H. change (start (allocator s1)) with l in H.
  rewrite Z2Nat.id in H by lia. replace (l + (0x80200 + 32768 - l)) with (0x80200 + 32768) in H by lia.
  eapply wp_mono; [|apply H].
  - intros ? s2 [H2 _]. by rewrite app_nil_r in H2.
  - intros q ?%not_elem_of_nil. done.
  - cbn. lia.
Qed.
