(* ===== verification/PageTree.v ===== *)
(** * Page tables as trees

    The pages of a page table are named by their paths from the root: the
    indices that lead to them.  Under the invariant [tables_ok] two paths never
    lead to the same page, an entry of an inner table is valid exactly if its
    table exists, and what a virtual page is mapped to is one word of one page,
    [entry].  The functions find it and change it and nothing else. *)

From S2P Require Import Prelude Paging Frames.

(** ** Entries *)

Lemma pte_new ppn fl : 0 <= ppn < 2 ^ 44 -> 0 <= fl < 1024 -> PageTableEntry_new ppn fl = ppn * 1024 + fl.
Proof.
  intros Hp Hf. unfold PageTableEntry_new, u64. rewrite shiftl_mul, Z.mod_small by lia.
  change 1024 with (2 ^ 10). rewrite lor_mul_add; [done|done|lia].
Qed.
Lemma pte_ppn ppn fl : 0 <= ppn < 2 ^ 44 -> 0 <= fl < 1024 -> PageTableEntry_ppn (ppn * 1024 + fl) = ppn.
Proof.
  intros Hp Hf. unfold PageTableEntry_ppn. rewrite shiftr_div by done. change (2 ^ 10) with 1024.
  rewrite Z.div_add_l, (Z.div_small fl) by lia. rewrite land_mask by done. rewrite Z.mod_small; lia.
Qed.
Lemma valid_odd w : PageTableEntry_is_valid w = Z.odd w.
Proof.
  unfold PageTableEntry_is_valid, PageTableEntry_flags, PTE_V. rewrite <- Z.land_assoc. change (Z.land 0xff 1) with (Z.ones 1).
  rewrite Z.land_ones by done. change (2 ^ 1) with 2. rewrite Zmod_odd. by destruct (Z.odd w).
Qed.
Lemma valid_new ppn fl : 0 <= ppn < 2 ^ 44 -> 0 <= fl < 1024 -> PageTableEntry_is_valid (PageTableEntry_new ppn fl) = Z.odd fl.
Proof.
  intros Hp Hf. rewrite valid_odd, pte_new, Z.odd_add, Z.odd_mul by done. by rewrite andb_false_r.
Qed.

(** The indices of a virtual page. *)
Definition dir1 (vpn : Z) : Z := vpn / 2 ^ 18 mod 512.
Definition dir2 (vpn : Z) : Z := vpn / 2 ^ 9 mod 512.
Definition leaf (vpn : Z) : Z := vpn mod 512.

Lemma indexes_eq vpn : indexes vpn = [dir1 vpn; dir2 vpn; leaf vpn].
Proof.
  assert (H : forall v, Z.land v 0x1ff = v mod 512) by (intros v; by apply (land_mask v 9)).
  unfold indexes. cbn [indexes_loop]. rewrite !H, Z.shiftr_shiftr, !shiftr_div by done. done.
Qed.
Lemma dir1_range vpn : 0 <= dir1 vpn < 512.
Proof. by apply Z.mod_pos_bound. Qed.
Lemma dir2_range vpn : 0 <= dir2 vpn < 512.
Proof. by apply Z.mod_pos_bound. Qed.
Lemma leaf_range vpn : 0 <= leaf vpn < 512.
Proof. by apply Z.mod_pos_bound. Qed.
#[local] Hint Resolve dir1_range dir2_range leaf_range : core.

Lemma indices_inj v v' :
  0 <= v < 2 ^ 27 -> 0 <= v' < 2 ^ 27 -> dir1 v = dir1 v' -> dir2 v = dir2 v' -> leaf v = leaf v' -> v = v'.
Proof.
  unfold dir1, dir2, leaf. intros Hv Hv' E1 E2 E3.
  assert (E : forall z, 0 <= z < 2 ^ 27 -> z = (z / 2 ^ 18 mod 512) * 2 ^ 18 + (z / 2 ^ 9 mod 512) * 512 + z mod 512).
  { clear. intros z Hz. pose proof (Z.div_mod z 512). change (2 ^ 18) with (512 * 512). change (2 ^ 9) with 512.
    rewrite <- Z.div_div by done. pose proof (Z.div_mod (z / 512) 512). rewrite (Z.mod_small (z / 512 / 512)); [lia|].
    split; [apply Z.div_pos; [apply Z.div_pos; lia|lia]|]. apply Z.div_lt_upper_bound; [lia|]. apply Z.div_lt_upper_bound; lia. }
  rewrite (E v Hv), (E v' Hv'). congruence.
Qed.

(** ** Trees of tables *)

Abbreviation mem := (gmap Z (list Z)).
Abbreviation tree := (gmap (list Z) Z).

Record tables_ok (T : tree) (root : Z) (m : mem) : Prop := {
  tables_root : T !! [] = Some root;
  tables_inj : forall p q x, T !! p = Some x -> T !! q = Some x -> p = q;
  tables_page : forall p x, T !! p = Some x -> has_page m x /\ 0 <= x < 2 ^ 44;
  tables_depth : forall p x, T !! p = Some x -> (length p <= 2)%nat;
  tables_parent : forall p i y, T !! (p ++ [i]) = Some y -> 0 <= i < 512 /\ is_Some (T !! p);
  tables_entry : forall p x i w, T !! p = Some x -> (length p < 2)%nat -> 0 <= i < 512 -> word m x i = Some w ->
    match T !! (p ++ [i]) with
    | Some y => w = PageTableEntry_new y PTE_V
    | None => PageTableEntry_is_valid w = false
    end }.

Definition table_of (T : tree) (vpn : Z) : option Z := T !! [dir1 vpn; dir2 vpn].
Definition entry (T : tree) (m : mem) (vpn : Z) : option Z :=
  table_of T vpn ≫= fun x => word m x (leaf vpn) ≫= fun w => if PageTableEntry_is_valid w then Some w else None.

Lemma tables_ext T root m m' :
  (forall p x, T !! p = Some x -> m' !! x = m !! x) -> tables_ok T root m -> tables_ok T root m'.
Proof.
  intros E [H1 H2 H3 H4 H5 H6]. split; try done.
  - intros p x Hp. unfold has_page. rewrite (E p x Hp). by eapply H3.
  - intros p x i w Hp Hl Hi Hw. eapply H6; try done. unfold word in *. by rewrite <- (E p x Hp).
Qed.
Lemma entry_ext T m m' vpn : (forall p x, T !! p = Some x -> m' !! x = m !! x) -> entry T m' vpn = entry T m vpn.
Proof.
  intros E. unfold entry, table_of. destruct (T !! _) as [x|] eqn:Hx; [|done]. cbn. unfold word. by rewrite (E _ _ Hx).
Qed.

Lemma pte_addr_eq x i : 0 <= x < 2 ^ 44 -> pte_addr x i = x * 4096 + i * 8.
Proof. intros Hx. unfold pte_addr, get_pte_array. by rewrite page_addr. Qed.

(** The entry of an inner table. *)
Lemma node_at {T root s} p x i :
  tables_ok T root (pages s) -> T !! p = Some x -> (length p < 2)%nat -> 0 <= i < 512 ->
  exists w, word (pages s) x i = Some w /\ load_word (pte_addr x i) s = Ret w s /\
    match T !! (p ++ [i]) with
    | Some y => PageTableEntry_is_valid w = true /\ PageTableEntry_ppn w = y
    | None => PageTableEntry_is_valid w = false
    end.
Proof.
  intros Ht Hp Hl Hi. destruct (tables_page _ _ _ Ht p x Hp) as [Hpage Hx]. destruct (has_word _ x i Hpage Hi) as [w Hw].
  exists w. split; [done|]. split; [rewrite pte_addr_eq by done; by apply load_word_at|].
  pose proof (tables_entry _ _ _ Ht p x i w Hp Hl Hi Hw) as He. destruct (T !! (p ++ [i])) as [y|] eqn:Hy; [|done].
  destruct (tables_page _ _ _ Ht _ _ Hy) as [_ Hyr]. subst w. split; [by rewrite valid_new|]. rewrite pte_new by done. by apply pte_ppn.
Qed.
(** The entry of a table of the last level. *)
Lemma leaf_at {T root s} vpn x :
  tables_ok T root (pages s) -> table_of T vpn = Some x ->
  exists w, word (pages s) x (leaf vpn) = Some w /\ load_word (pte_addr x (leaf vpn)) s = Ret w s /\ 0 <= x < 2 ^ 44 /\
    entry T (pages s) vpn = if PageTableEntry_is_valid w then Some w else None.
Proof.
  intros Ht Hx. destruct (tables_page _ _ _ Ht _ _ Hx) as [Hpage Hr]. destruct (has_word _ x (leaf vpn) Hpage) as [w Hw]; [done|].
  exists w. split; [done|]. split; [rewrite pte_addr_eq by done; by apply load_word_at|]. split; [done|].
  unfold entry. rewrite Hx. cbn. by rewrite Hw.
Qed.

Lemma find_pte_ok {T root s} vpn :
  tables_ok T root (pages s) ->
  find_pte root vpn s = Ret (match entry T (pages s) vpn, table_of T vpn with Some _, Some x => pte_addr x (leaf vpn) | _, _ => 0 end) s.
Proof.
  intros Ht. unfold find_pte. rewrite indexes_eq. cbn [find_loop].
  destruct (node_at [] root (dir1 vpn) Ht) as (w1 & Hw1 & E1 & H1); [by apply Ht|cbn; lia|done|]. rewrite (mbind_ret _ _ _ _ _ E1).
  assert (Hnone : forall i, T !! [i] = None -> forall j, T !! [i; j] = None).
  { intros i Hi j. destruct (T !! [i; j]) as [y|] eqn:E; [|done]. apply (tables_parent _ _ _ Ht [i]) in E as [_ [? ?]]. congruence. }
  cbn [app] in H1. destruct (T !! [dir1 vpn]) as [x1|] eqn:Hx1.
  2: { rewrite H1. unfold entry, table_of. by rewrite (Hnone _ Hx1). }
  destruct H1 as [-> ->]. cbn [negb].
  destruct (node_at [dir1 vpn] x1 (dir2 vpn) Ht) as (w2 & Hw2 & E2 & H2); [done|cbn; lia|done|]. rewrite (mbind_ret _ _ _ _ _ E2).
  cbn [app] in H2. destruct (T !! [dir1 vpn; dir2 vpn]) as [x2|] eqn:Hx2.
  2: { rewrite H2. unfold entry, table_of. by rewrite Hx2. }
  destruct H2 as [-> ->]. cbn [negb]. destruct (leaf_at vpn x2 Ht Hx2) as (w3 & Hw3 & E3 & _ & H3). rewrite (mbind_ret _ _ _ _ _ E3), H3.
  unfold table_of. rewrite Hx2. by destruct (PageTableEntry_is_valid w3).
Qed.

(** ** Creating tables *)

(** The tables of a page table are pages of the allocator that are not free. *)
Record space_ok (fl : list Z) (T : tree) (root : Z) (s : vm) : Prop := {
  space_frames : frames_ok fl s;
  space_tables : tables_ok T root (pages s);
  space_owned : forall p x, T !! p = Some x -> managed s x /\ x ∉ fl }.

Lemma frames_set fl s p i w :
  frames_ok fl s -> p ∉ fl -> frames_ok fl (s <| pages := set_word p i w (pages s) |>).
Proof.
  intros [H1 H2 H3 H4 H5 H6 H7] Hp. split; try done; cbn.
  - intros q Hq. by apply has_page_set, H2.
  - eapply chain_ext; [|exact H5]. intros q Hq. apply lookup_alter_ne. by intros <-.
Qed.

(** What creating tables leaves alone; a page that is free no longer is a table. *)
Record extends (fl : list Z) (T : tree) (s : vm) (fl' : list Z) (T' : tree) (s' : vm) : Prop := {
  extends_free : exists n, fl' = drop n fl;
  extends_tree : T ⊆ T';
  extends_new : forall p x, T' !! p = Some x -> T !! p = Some x \/ x ∈ fl;
  extends_entry : forall vpn, entry T' (pages s') vpn = entry T (pages s) vpn;
  extends_other : forall q, q ∉ fl -> (forall p, T !! p <> Some q) -> pages s' !! q = pages s !! q;
  extends_bounds : bounds s s';
  extends_used : forall q, q ∈ fl -> q ∈ fl' \/ exists p, T' !! p = Some q }.

Lemma used_trans (fl1 fl2 fl3 : list Z) (T2 T3 : tree) :
  T2 ⊆ T3 -> (forall q, q ∈ fl1 -> q ∈ fl2 \/ exists p, T2 !! p = Some q) -> (forall q, q ∈ fl2 -> q ∈ fl3 \/ exists p, T3 !! p = Some q) ->
  forall q, q ∈ fl1 -> q ∈ fl3 \/ exists p, T3 !! p = Some q.
Proof. intros HT H1 H2 q Hq. destruct (H1 q Hq) as [?|[p Hp]]; [by apply H2|right; exists p; by eapply lookup_weaken]. Qed.
Lemma extends_refl fl T s : extends fl T s fl T s.
Proof. split; try done; [by exists 0%nat|by left|by left]. Qed.
Lemma extends_trans fl1 T1 s1 fl2 T2 s2 fl3 T3 s3 :
  extends fl1 T1 s1 fl2 T2 s2 -> extends fl2 T2 s2 fl3 T3 s3 -> extends fl1 T1 s1 fl3 T3 s3.
Proof.
  intros [[n F1] A1 N1 E1 O1 B1 U1] [[k F2] A2 N2 E2 O2 B2 U2].
  assert (Hfl : forall q, q ∈ fl2 -> q ∈ fl1) by (intros q; rewrite F1; intros Hq; eapply elem_of_submseteq; [exact Hq|apply sublist_submseteq, sublist_drop]).
  split.
  - exists (n + k)%nat. by rewrite F2, F1, drop_drop.
  - by etransitivity.
  - intros p x Hx. destruct (N2 p x Hx) as [H|H]; [by apply N1|right; by apply Hfl].
  - intros vpn. by rewrite E2.
  - intros q Hq Hn. rewrite O2; [by apply O1|by intros ?%Hfl|]. intros p Hp. destruct (N1 p q Hp) as [?|?]; [by eapply Hn|done].
  - by etransitivity.
  - by eapply used_trans.
Qed.

Section grow.
Context {T : tree} {root : Z} {s : vm} {p : list Z} {x i f : Z}.
Context (Ht : tables_ok T root (pages s)) (Hp : T !! p = Some x) (Hl : (length p < 2)%nat) (Hi : 0 <= i < 512).
Context (Hno : T !! (p ++ [i]) = None) (Hf : forall q, T !! q <> Some f) (Hfr : 0 <= f < 2 ^ 44) (Hfx : f <> x).
Abbreviation T' := (<[p ++ [i] := f]> T).
Abbreviation m' := (set_word x i (PageTableEntry_new f PTE_V) (<[f := zero_page]> (pages s))).

Lemma grow_new j : word m' f j = zero_page !! Z.to_nat j.
Proof using Hfx. unfold word, set_word. rewrite lookup_alter_ne, lookup_insert_eq by done. done. Qed.
Lemma grow_zero j w : word m' f j = Some w -> w = 0.
Proof using Hfx. rewrite grow_new. by intros [-> _]%lookup_replicate. Qed.
Lemma grow_word q y j : T !! q = Some y -> 0 <= j -> (y, j) <> (x, i) -> word m' y j = word (pages s) y j.
Proof using Hf Hi Hfr Hfx.
  intros Hq Hj Hne. rewrite word_set_ne; [|by apply Hi|done|done]. unfold word. rewrite lookup_insert_ne; [done|]. intros ->. by apply (Hf q).
Qed.

Lemma grow_tables : tables_ok T' root m'.
Proof using All.
  pose proof Ht as [H1 H2 H3 H4 H5 H6]. assert (Hbelow : forall j, T !! ((p ++ [i]) ++ [j]) = None).
  { intros j. destruct (T !! ((p ++ [i]) ++ [j])) as [y|] eqn:E; [|done]. apply H5 in E as [_ [? ?]]. congruence. }
  assert (Hpage : forall q, has_page (pages s) q -> has_page m' q) by (intros q Hq; by apply has_page_set, has_page_insert).
  split.
  - rewrite lookup_insert_ne; [done|]. by destruct p.
  - intros q q' y [[<- <-]|[Hq Hy]]%lookup_insert_Some [[<- E]|[Hq' Hy']]%lookup_insert_Some; try done; [by destruct (Hf q')|subst; by destruct (Hf q)|by eapply H2].
  - intros q y [[<- <-]|[Hq Hy]]%lookup_insert_Some; [|destruct (H3 q y Hy); auto]. split; [|done].
    apply has_page_set. exists zero_page. by rewrite lookup_insert_eq.
  - intros q y [[<- <-]|[Hq Hy]]%lookup_insert_Some; [rewrite length_app; cbn; lia|by eapply H4].
  - intros q j y [[E <-]|[Hq Hy]]%lookup_insert_Some.
    + apply app_inj_tail in E as [-> ->]. split; [done|]. destruct (decide (q ++ [j] = q)); [by rewrite e, lookup_insert_eq|]. by rewrite lookup_insert_ne, Hp.
    + apply H5 in Hy as [? Hy]. split; [done|]. destruct (decide (p ++ [i] = q)) as [->|]; [by rewrite lookup_insert_eq|]. by rewrite lookup_insert_ne.
  - intros q y j w [[<- <-]|[Hq Hy]]%lookup_insert_Some Hlq Hj Hw.
    + rewrite lookup_insert_ne, Hbelow by (intros E%(f_equal length); rewrite !length_app in E; cbn in E; lia).
      apply grow_zero in Hw as ->. done.
    + destruct (decide ((y, j) = (x, i))) as [[= -> ->]|Hne].
      * assert (q = p) as -> by (by eapply H2). rewrite lookup_insert_eq. destruct (has_word (<[f := zero_page]> (pages s)) x i) as [w0 Hw0]; [|done|].
        { apply has_page_insert. by eapply H3. }
        rewrite (word_set_eq _ _ _ _ _ Hw0) in Hw. congruence.
      * rewrite (grow_word q y j Hy) in Hw by (done || lia). rewrite lookup_insert_ne; [by eapply H6|].
        intros [-> ->]%app_inj_tail. apply Hne. congruence.
Qed.

Lemma grow_entry vpn : entry T' m' vpn = entry T (pages s) vpn.
Proof using All.
  unfold entry, table_of. destruct (decide (p ++ [i] = [dir1 vpn; dir2 vpn])) as [E|E].
  - rewrite <- E, lookup_insert_eq, Hno. cbn. rewrite grow_new. unfold zero_page. rewrite lookup_replicate_2; [done|]. pose proof (leaf_range vpn). lia.
  - rewrite lookup_insert_ne by done. destruct (T !! [dir1 vpn; dir2 vpn]) as [y|] eqn:Hy; [|done]. cbn.
    rewrite (grow_word _ _ _ Hy); [done|by apply leaf_range|]. intros [= -> _].
    apply (tables_inj _ _ _ Ht _ _ _ Hp) in Hy. subst p. cbn in Hl. lia.
Qed.
End grow.

(** The next table on the way, created if it does not exist. *)
Lemma ensure_ok {fl T root s} p x i {A} (K : Z -> M vm A) (Q : A -> vm -> Prop) :
  space_ok fl T root s -> T !! p = Some x -> (length p < 2)%nat -> 0 <= i < 512 -> fl <> [] ->
  (forall fl' T' s' y, space_ok fl' T' root s' -> extends fl T s fl' T' s' -> T' !! (p ++ [i]) = Some y ->
     (length fl <= S (length fl'))%nat -> wp Q (K y s')) ->
  wp Q ((bits ← load_word (pte_addr x i);
         when (negb (PageTableEntry_is_valid bits))
           (frame ← kalloc; if frame =? 0 then stuck else store_word (pte_addr x i) (PageTableEntry_new frame PTE_V));;
         bits ← load_word (pte_addr x i);
         K (PageTableEntry_ppn bits)) s).
Proof.
  intros Hok Hp Hl Hi Hne HK. pose proof Hok as [Hfr Ht Hown]. destruct (node_at p x i Ht Hp Hl Hi) as (w & Hw & E & Hc).
  eapply wp_eq; [exact E|]. destruct (T !! (p ++ [i])) as [y|] eqn:Hy.
  - destruct Hc as [-> Hy']. cbn [negb when]. eapply wp_eq; [reflexivity|]. eapply wp_eq; [exact E|]. rewrite Hy'.
    eapply HK; [exact Hok|apply extends_refl|done|lia].
  - rewrite Hc. cbn [negb when]. destruct fl as [|f fl]; [done|].
    assert (Hfm : managed s f) by (apply (frames_free _ _ Hfr); by left). pose proof (managed_range Hfr f Hfm) as Hfrange. rewrite base_eq in Hfrange.
    assert (HfT : forall q, T !! q <> Some f) by (intros q Hq; destruct (Hown q f Hq) as [_ Hn]; apply Hn; by left).
    assert (Hfx : f <> x) by (intros ->; by apply (HfT p)).
    destruct (tables_page _ _ _ Ht p x Hp) as [Hpx Hx]. destruct (Hown p x Hp) as [Hxm Hxn].
    eapply (wp_step (fun _ s' => frames_ok fl s' /\ pages s' = set_word x i (PageTableEntry_new f PTE_V) (<[f := zero_page]> (pages s)) /\ bounds s s')).
    { eapply wp_step; [by apply alloc_some|]. intros ? s1 (-> & Hf1 & E1 & B1). rewrite (proj2 (Z.eqb_neq _ _)) by lia.
      rewrite pte_addr_eq by done. destruct (has_word (pages s1) x i) as [w0 Hw0]; [rewrite E1; by apply has_page_insert|done|].
      eapply wp_run; [by eapply store_word_at|]. split; [apply frames_set; [done|set_solver]|]. cbn. by rewrite E1. }
    intros ? s2 (Hf2 & E2 & B2).
    assert (Ht2 : tables_ok (<[p ++ [i] := f]> T) root (pages s2)).
    { rewrite E2. apply grow_tables; done || lia. }
    assert (Hok2 : space_ok fl (<[p ++ [i] := f]> T) root s2).
    { split; [done|done|]. intros q y [[_ <-]|[_ Hq]]%lookup_insert_Some.
      - split; [by apply (bounds_managed s s2)|]. by pose proof (frames_nodup _ _ Hfr) as [? _]%NoDup_cons.
      - destruct (Hown q y Hq) as [? ?]. split; [by apply (bounds_managed s s2)|set_solver]. }
    destruct (node_at p x i Ht2) as (w2 & _ & E3 & H3); [rewrite lookup_insert_ne; [done|]|done|done|].
    { intros Eq%(f_equal length). rewrite length_app in Eq. cbn in Eq. lia. }
    rewrite lookup_insert_eq in H3. destruct H3 as [_ H3].
    eapply wp_eq; [exact E3|]. rewrite H3. eapply HK; [exact Hok2| |by rewrite lookup_insert_eq|cbn; lia].
    split; [by exists 1%nat|by apply insert_subseteq| | | |done|].
    + intros q y [[_ <-]|[_ Hq]]%lookup_insert_Some; [right; by left|by left].
    + intros vpn. rewrite E2. apply (grow_entry (s := s) (root := root)); done || lia.
    + intros q Hq Hn. rewrite E2. unfold set_word. rewrite lookup_alter_ne; [|intros <-; by apply (Hn p)]. apply lookup_insert_ne. intros <-. apply Hq. by left.
    + intros q [-> | Hq]%elem_of_cons; [right; exists (p ++ [i]); by rewrite lookup_insert_eq|by left].
Qed.

(** ** Mapping *)

Lemma create_ok {fl T root s} vpn (Q : Z -> vm -> Prop) :
  space_ok fl T root s -> (2 <= length fl)%nat ->
  (forall fl' T' s' x, space_ok fl' T' root s' -> extends fl T s fl' T' s' -> table_of T' vpn = Some x ->
     (length fl <= S (S (length fl')))%nat -> Q (pte_addr x (leaf vpn)) s') ->
  wp Q (find_pte_create root vpn s).
Proof.
  intros Hok Hl HQ. unfold find_pte_create. rewrite indexes_eq.
  eapply (ensure_ok [] root (dir1 vpn) (create_loop [dir2 vpn; leaf vpn])); [exact Hok|apply Hok|cbn; lia|done|destruct fl; [cbn in Hl; lia|done]|].
  intros fl1 T1 s1 x1 Hok1 He1 Hx1 Hl1.
  eapply (ensure_ok [dir1 vpn] x1 (dir2 vpn) (create_loop [leaf vpn])); [exact Hok1|done|cbn; lia|done|destruct fl1; [cbn in Hl1; lia|done]|].
  intros fl2 T2 s2 x2 Hok2 He2 Hx2 Hl2. cbn [create_loop wp mret M_ret]. apply (HQ fl2 T2); [done|by eapply extends_trans|done|lia].
Qed.

(** A word of the last level changes. *)
Section set_leaf.
Context {fl : list Z} {T : tree} {root : Z} {s : vm} {vpn x w : Z}.
Context (Hok : space_ok fl T root s) (Hv : 0 <= vpn < 2 ^ 27) (Hx : table_of T vpn = Some x).
Abbreviation s' := (s <| pages := set_word x (leaf vpn) w (pages s) |>).

Lemma set_leaf_ok : space_ok fl T root s'.
Proof using Hok Hx.
  pose proof Hok as [Hf [H1 H2 H3 H4 H5 H6] Hown]. split; [apply frames_set; [done|]| |done].
  - by eapply Hown.
  - split; try done; cbn.
    + intros p y Hp. destruct (H3 p y Hp). split; [by apply has_page_set|done].
    + intros p y i w0 Hp Hl Hi. rewrite word_set_ne; [by eapply H6|by apply leaf_range|lia|]. intros [= -> _].
      pose proof (H2 _ _ _ Hp Hx) as ->. cbn in Hl. lia.
Qed.

Lemma set_leaf_entry v : 0 <= v < 2 ^ 27 ->
  entry T (pages s') v = if decide (v = vpn) then if PageTableEntry_is_valid w then Some w else None else entry T (pages s) v.
Proof using All.
  intros Hr. pose proof Hok as [_ Ht _]. destruct (decide (v = vpn)) as [->|Hne].
  - unfold entry. rewrite Hx. cbn. destruct (leaf_at vpn x Ht Hx) as (w0 & Hw & _). by rewrite (word_set_eq _ _ _ _ _ Hw).
  - unfold entry. destruct (table_of T v) as [y|] eqn:Hy; [|done]. cbn. rewrite word_set_ne; [done|by apply leaf_range..|].
    intros [= -> E]. pose proof (tables_inj _ _ _ Ht _ _ _ Hx Hy) as [= E1 E2]. by apply Hne, indices_inj.
Qed.
End set_leaf.

(** [m'] is [m] outside of the free pages and of the tables. *)
Definition untouched (fl : list Z) (T : tree) (m m' : mem) : Prop :=
  forall q, q ∉ fl -> (forall p, T !! p <> Some q) -> m' !! q = m !! q.

(** A mapping of [n] pages and the free pages that are left. *)
Definition mapped_pages (vpn ppn flags n v : Z) (old : option Z) : option Z :=
  if decide (vpn <= v < vpn + n) then Some (PageTableEntry_new (ppn + (v - vpn)) (Z.lor PTE_V flags)) else old.

Record maps (fl : list Z) (T : tree) (root : Z) (s : vm) (f : Z -> option Z) (k : nat) (fl' : list Z) (T' : tree) (s' : vm) : Prop := {
  maps_ok : space_ok fl' T' root s';
  maps_entry : forall v, 0 <= v < 2 ^ 27 -> entry T' (pages s') v = f v;
  maps_other : untouched fl T (pages s) (pages s');
  maps_new : forall p x, T' !! p = Some x -> T !! p = Some x \/ x ∈ fl;
  maps_tree : T ⊆ T';
  maps_free : exists n, fl' = drop n fl;
  maps_left : (length fl <= length fl' + k)%nat;
  maps_bounds : bounds s s';
  maps_used : forall q, q ∈ fl -> q ∈ fl' \/ exists p, T' !! p = Some q }.

Lemma flags_ok flags : 0 <= flags < 256 -> 0 <= Z.lor PTE_V flags < 1024 /\ Z.odd (Z.lor PTE_V flags) = true.
Proof.
  intros Hf. split.
  - split; [apply Z.lor_nonneg; split; [done|lia]|]. destruct (decide (Z.lor PTE_V flags = 0)) as [->|]; [done|].
    apply Z.log2_lt_cancel. rewrite Z.log2_lor by (done || lia). change (Z.log2 1024) with 10. change (Z.log2 PTE_V) with 0.
    assert (Z.log2 flags < 8) by (destruct (decide (flags = 0)) as [->|]; [done|apply Z.log2_lt_pow2; lia]).
    pose proof (Z.log2_nonneg flags). lia.
  - rewrite <- Z.bit0_odd, Z.lor_spec. done.
Qed.

Lemma map_one {fl T root s} vpn ppn flags (Q : unit -> vm -> Prop) (K : M vm unit) :
  space_ok fl T root s -> 0 <= vpn < 2 ^ 27 -> 0 <= ppn < 2 ^ 44 -> 0 <= flags < 256 -> (2 <= length fl)%nat ->
  entry T (pages s) vpn = None ->
  (forall fl' T' s', maps fl T root s (fun v => mapped_pages vpn ppn flags 1 v (entry T (pages s) v)) 2 fl' T' s' -> wp Q (K s')) ->
  wp Q ((pte ← find_pte_create root vpn;
         bits ← load_word pte;
         if PageTableEntry_is_valid bits then stuck
         else store_word pte (PageTableEntry_new ppn (Z.lor PTE_V flags));; K) s).
Proof.
  intros Hok Hv Hp Hf Hl He HK. destruct (flags_ok flags Hf) as [Hfr Hodd].
  eapply (wp_step (fun a s1 => exists fl1 T1 x, a = pte_addr x (leaf vpn) /\ space_ok fl1 T1 root s1 /\ extends fl T s fl1 T1 s1 /\
    table_of T1 vpn = Some x /\ (length fl <= S (S (length fl1)))%nat)).
  { eapply create_ok; [exact Hok|done|]. intros fl1 T1 s1 x H1 H2 H3 H4. by exists fl1, T1, x. }
  intros ? s1 (fl1 & T1 & x & -> & Hok1 & [F1 A1 N1 E1 O1 B1 U1] & Hx & Hl1).
  destruct (leaf_at vpn x (space_tables _ _ _ _ Hok1) Hx) as (w & Hw & Ew & Hxr & Hent). eapply wp_eq; [exact Ew|].
  rewrite E1, He in Hent. destruct (PageTableEntry_is_valid w); [done|].
  eapply wp_eq; [rewrite pte_addr_eq by done; by eapply store_word_at; [apply leaf_range|]|]. apply (HK fl1 T1).
  split; [by apply set_leaf_ok| | |done|done|done|lia|done|done].
  - intros v Hvr. rewrite (set_leaf_entry Hok1 Hv Hx v Hvr), valid_new, Hodd by done. unfold mapped_pages.
    destruct (decide (v = vpn)) as [->|Hne]; [rewrite decide_True by lia; by rewrite Z.sub_diag, Z.add_0_r|by rewrite decide_False by lia].
  - intros q Hq Hn. cbn. unfold set_word. rewrite lookup_alter_ne; [by apply O1|]. intros <-.
    destruct (N1 _ _ Hx) as [?|?]; [by eapply Hn|done].
Qed.

Lemma maps_trans fl1 T1 root s1 f g k1 k2 fl2 T2 s2 fl3 T3 s3 :
  maps fl1 T1 root s1 f k1 fl2 T2 s2 -> maps fl2 T2 root s2 g k2 fl3 T3 s3 -> maps fl1 T1 root s1 g (k1 + k2) fl3 T3 s3.
Proof.
  intros [_ _ O1 N1 A1 [n F1] L1 B1 U1] [H2 E2 O2 N2 A2 [m F2] L2 B2 U2].
  assert (Hfl : forall q, q ∈ fl2 -> q ∈ fl1) by (intros q; rewrite F1; intros Hq; eapply elem_of_submseteq; [exact Hq|apply sublist_submseteq, sublist_drop]).
  split; try done.
  - intros q Hq Hn. rewrite O2; [by apply O1|by intros ?%Hfl|]. intros p Hp. destruct (N1 p q Hp) as [?|?]; [by eapply Hn|done].
  - intros p x Hx. destruct (N2 p x Hx) as [H|H]; [by apply N1|right; by apply Hfl].
  - by etransitivity.
  - exists (n + m)%nat. by rewrite F2, F1, drop_drop.
  - lia.
  - by etransitivity.
  - by eapply used_trans.
Qed.
Lemma maps_eq {fl T root s f k fl' T' s'} g :
  maps fl T root s f k fl' T' s' -> (forall v, 0 <= v < 2 ^ 27 -> f v = g v) -> maps fl T root s g k fl' T' s'.
Proof. intros [] E. split; try done. intros v Hv. rewrite <- E; auto. Qed.

Lemma map_loop_ok n fl T root s vpn ppn flags :
  space_ok fl T root s -> 0 <= vpn -> vpn + Z.of_nat n < 2 ^ 27 -> 0 <= ppn -> ppn + Z.of_nat n < 2 ^ 44 -> 0 <= flags < 256 ->
  (2 * S n <= length fl)%nat -> (forall v, vpn <= v <= vpn + Z.of_nat n -> entry T (pages s) v = None) ->
  wp (fun _ s' => exists fl' T', maps fl T root s
        (fun v => mapped_pages vpn ppn flags (Z.of_nat n + 1) v (entry T (pages s) v)) (2 * S n) fl' T' s')
     (map_loop n root vpn ppn (vpn + Z.of_nat n) flags s).
Proof.
  revert fl T s vpn ppn. induction n as [|n IH]; intros fl T s vpn ppn Hok Hv Hv2 Hp Hp2 Hf Hl He.
  - unfold map_loop. eapply (map_one vpn ppn flags); [exact Hok|lia|lia|done|lia|apply He; lia|].
    intros fl1 T1 s1 H1. rewrite Z.add_0_r, Z.eqb_refl. cbn [wp mret M_ret]. exists fl1, T1. exact H1.
  - cbn [map_loop]. eapply (map_one vpn ppn flags); [exact Hok|lia|lia|done|lia|apply He; lia|].
    intros fl1 T1 s1 H1. rewrite (proj2 (Z.eqb_neq _ _)) by lia.
    replace (vpn + Z.of_nat (S n)) with (vpn + 1 + Z.of_nat n) by lia. pose proof H1 as [Hok1 E1 _ _ _ _ L1 _].
    eapply wp_mono; [|apply (IH fl1 T1 s1); [done|lia|lia|lia|lia|done|lia|]].
    + intros ? s2 (fl2 & T2 & H2). exists fl2, T2. replace (2 * S (S n))%nat with (2 + 2 * S n)%nat by lia.
      eapply maps_trans; [exact H1|]. eapply maps_eq; [exact H2|]. intros v Hvr. cbn beta. rewrite (E1 v Hvr). unfold mapped_pages.
      destruct (decide (vpn + 1 <= v < vpn + 1 + (Z.of_nat n + 1))).
      * rewrite decide_True by lia. do 2 f_equal. lia.
      * destruct (decide (vpn <= v < vpn + 1)); [rewrite decide_True by lia; done|by rewrite decide_False by lia].
    + intros v Hvr. rewrite E1 by lia. unfold mapped_pages. rewrite decide_False by lia. apply He. lia.
Qed.

(** [PageTable_map] with enough free pages, where nothing is mapped yet. *)
Lemma map_ok fl T root s va pa size flags :
  let vpn := floor_virts va in
  let n := u64 (va + size - 1) / PAGE_SIZE - vpn + 1 in
  space_ok fl T root s -> 0 <= va -> 0 < size -> va + size <= 2 ^ 39 -> 0 <= pa -> floor_phys pa + n <= 2 ^ 44 -> 0 <= flags < 256 ->
  2 * n <= len fl -> (forall v, vpn <= v < vpn + n -> entry T (pages s) v = None) ->
  wp (fun _ s' => exists fl' T', maps fl T root s
        (fun v => mapped_pages vpn (floor_phys pa) flags n v (entry T (pages s) v)) (2 * Z.to_nat n) fl' T' s')
     (PageTable_map root va pa size flags s).
Proof.
  intros vpn n Hok Hva Hsz Hvs Hpa Hps Hf Hl He. unfold PageTable_map. rewrite (proj2 (Z.eqb_neq _ _)) by lia. fold vpn.
  assert (Hn : 0 < n).
  { unfold n, vpn, floor_virts, u64, PAGE_SIZE. rewrite (Z.mod_small _ (2 ^ 64)) by lia.
    assert (va / 4096 <= (va + size - 1) / 4096) by (apply Z.div_le_mono; lia). lia. }
  set (last := u64 (va + size - 1) / PAGE_SIZE) in *. replace last with (vpn + Z.of_nat (Z.to_nat (n - 1))) by lia.
  replace (Z.to_nat (vpn + Z.of_nat (Z.to_nat (n - 1)) - vpn)) with (Z.to_nat (n - 1)) by lia.
  assert (Hlast : last < 2 ^ 27) by (unfold last, u64, PAGE_SIZE; rewrite (Z.mod_small _ (2 ^ 64)) by lia; apply Z.div_lt_upper_bound; lia).
  assert (Hv0 : 0 <= vpn) by (apply Z.div_pos; [lia|done]). assert (Hp0 : 0 <= floor_phys pa) by (apply Z.div_pos; [lia|done]).
  eapply wp_mono; [|apply (map_loop_ok (Z.to_nat (n - 1)) fl T root s vpn (floor_phys pa) flags); [done|lia|lia|done|lia|done|lia|]].
  - intros ? s' (fl' & T' & H). exists fl', T'. replace (S (Z.to_nat (n - 1))) with (Z.to_nat n) in H by lia.
    eapply maps_eq; [exact H|]. intros v _. by replace (Z.of_nat (Z.to_nat (n - 1)) + 1) with n by lia.
  - intros v Hv. apply He. lia.
Qed.

(** ** What the hardware sees

    The page walk of the privileged specification for a page of 4096 bytes: an
    entry of an inner table must be a pointer, one of the last level a leaf. *)

Definition pte_pointer (w : Z) : bool := PageTableEntry_is_valid w && (Z.land w (Z.lor (Z.lor PTE_R PTE_W) PTE_X) =? 0).
Definition pte_leaf (w : Z) : bool :=
  PageTableEntry_is_valid w && negb (Z.land w (Z.lor PTE_R PTE_X) =? 0) && negb ((Z.land w PTE_R =? 0) && negb (Z.land w PTE_W =? 0)).
Definition sv39_walk (m : mem) (root vpn : Z) : option Z :=
  w2 ← word m root (dir1 vpn);
  if negb (pte_pointer w2) then None
  else
    w1 ← word m (PageTableEntry_ppn w2) (dir2 vpn);
    if negb (pte_pointer w1) then None
    else
      w0 ← word m (PageTableEntry_ppn w1) (leaf vpn);
      if pte_leaf w0 then Some w0 else None.

Lemma pointer_new y : 0 <= y < 2 ^ 44 -> pte_pointer (PageTableEntry_new y PTE_V) = true.
Proof.
  intros Hy. unfold pte_pointer. rewrite valid_new by done. change (Z.odd PTE_V) with true. cbn [andb]. apply Z.eqb_eq.
  rewrite pte_new by done. apply Z.bits_inj'. intros k Hk. rewrite Z.land_spec, Z.bits_0.
  destruct (decide (k < 4)) as [Hk4|]; [|apply andb_false_intro2, Z.bits_above_log2; [done|]; change (3 < k); lia].
  replace (y * 1024 + PTE_V) with (Z.lor (y * 2 ^ 10) 1) by (rewrite lor_mul_add; done).
  rewrite Z.lor_spec, Z.mul_pow2_bits_low by lia. assert (k = 0 \/ k = 1 \/ k = 2 \/ k = 3) as [-> |[-> |[-> | ->]]] by lia; done.
Qed.

(** The walk finds the entry of the tree, if it is a leaf. *)
Lemma walk_entry {T root m} vpn : tables_ok T root m -> sv39_walk m root vpn = w ← entry T m vpn; if pte_leaf w then Some w else None.
Proof.
  intros Ht. unfold sv39_walk. pose proof Ht as [H1 H2 H3 H4 H5 H6].
  assert (Hstep : forall p x i, T !! p = Some x -> (length p < 2)%nat -> 0 <= i < 512 ->
    exists w, word m x i = Some w /\ match T !! (p ++ [i]) with
      | Some y => pte_pointer w = true /\ PageTableEntry_ppn w = y | None => pte_pointer w = false end).
  { intros p x i Hp Hl Hi. destruct (H3 p x Hp) as [Hpg _]. destruct (has_word m x i Hpg Hi) as [w Hw]. exists w. split; [done|].
    pose proof (H6 p x i w Hp Hl Hi Hw) as He. destruct (T !! (p ++ [i])) as [y|] eqn:Hy; [|unfold pte_pointer; by rewrite He].
    destruct (H3 _ _ Hy) as [_ Hyr]. subst w. split; [by apply pointer_new|]. rewrite pte_new by done. by apply pte_ppn. }
  destruct (Hstep [] root (dir1 vpn) H1) as (w2 & -> & Hw2); [cbn; lia|done|]. cbn [mbind option_bind app] in *.
  destruct (T !! [dir1 vpn]) as [x1|] eqn:Hx1.
  2: { rewrite Hw2. cbn. unfold entry, table_of. destruct (T !! [dir1 vpn; dir2 vpn]) as [y|] eqn:E; [|done].
       apply (H5 [dir1 vpn]) in E as [_ [? ?]]. congruence. }
  destruct Hw2 as [-> ->]. cbn. destruct (Hstep [dir1 vpn] x1 (dir2 vpn) Hx1) as (w1 & -> & Hw1); [cbn; lia|done|]. cbn [mbind option_bind app] in *.
  unfold entry, table_of. destruct (T !! [dir1 vpn; dir2 vpn]) as [x0|] eqn:Hx0; [|by rewrite Hw1].
  destruct Hw1 as [-> ->]. cbn. destruct (H3 _ _ Hx0) as [Hpg _]. destruct (has_word m x0 (leaf vpn) Hpg) as [w0 Hw0]; [done|].
  rewrite Hw0. cbn. destruct (PageTableEntry_is_valid w0) eqn:E; cbn; [done|]. unfold pte_leaf. by rewrite E.
Qed.
