(* ===== verification/PageSpace.v ===== *)
(** * Address spaces: unmapping, tearing down and copying *)

From S2P Require Import Prelude Paging Frames PageTree.

#[local] Hint Resolve dir1_range dir2_range leaf_range : core.

(** The page that an entry maps to. *)
Definition frame (w : Z) : Z := w / 1024.

Lemma pte_frame w : 0 <= w < 2 ^ 54 -> floor_phys (phys_addr_from_size_t (PTE2PA w)) = frame w /\ 0 <= frame w < 2 ^ 44 /\ PTE2PA w = frame w * 4096.
Proof.
  intros Hw. assert (Hf : 0 <= frame w < 2 ^ 44).
  { unfold frame. split; [apply Z.div_pos; lia|apply Z.div_lt_upper_bound; lia]. }
  assert (E : PTE2PA w = frame w * 4096).
  { unfold PTE2PA, u64. rewrite shiftl_mul, shiftr_div by done. change (w / 2 ^ 10) with (frame w). rewrite Z.mod_small; lia. }
  rewrite E. split; [by apply floor_addr|done].
Qed.
Lemma frame_new ppn fl : 0 <= ppn < 2 ^ 44 -> 0 <= fl < 1024 -> frame (PageTableEntry_new ppn fl) = ppn.
Proof. intros Hp Hf. rewrite pte_new by done. unfold frame. rewrite Z.div_add_l, Z.div_small by lia. lia. Qed.

(** ** Unmapping *)

(** The page [q] belongs to nobody else. *)
Definition loose (fl : list Z) (T : tree) (s : vm) (q : Z) : Prop := managed s q /\ q ∉ fl /\ forall p, T !! p <> Some q.

Lemma release_ok fl T root s q :
  space_ok fl T root s -> loose fl T s q ->
  wp (fun _ s' => space_ok (q :: fl) T root s' /\ (exists next, pages s' = linked q next (pages s)) /\ bounds s s') (kfree q s).
Proof.
  intros [Hf Ht Hown] (Hm & Hn & Hq). eapply wp_mono; [|by apply (free_ok fl s q)]. intros ? s' (Hf' & [next E] & Hb).
  split; [|split; [by exists next|done]]. split; [done| |].
  - eapply tables_ext, Ht. intros p x Hp. rewrite E. apply lookup_alter_ne. intros <-. by apply (Hq p).
  - intros p x Hp. destruct (Hown p x Hp). split; [by apply (bounds_managed s s')|]. intros [-> | ?]%elem_of_cons; [by apply (Hq p)|done].
Qed.

(** What unmapping the pages from [a] to [b] does; [do_free] frees what they
    were mapped to. *)
Record unmapped (fl : list Z) (T : tree) (root : Z) (s : vm) (a b : Z) (do_free : bool) (fl' : list Z) (s' : vm) : Prop := {
  unmapped_ok : space_ok fl' T root s';
  unmapped_entry : forall v, 0 <= v < 2 ^ 27 -> entry T (pages s') v = if decide (a <= v < b) then None else entry T (pages s) v;
  unmapped_free : forall q, q ∈ fl' <-> q ∈ fl \/ do_free = true /\ exists v w, a <= v < b /\ entry T (pages s) v = Some w /\ q = frame w;
  unmapped_other : forall q, q ∉ fl' -> (forall p, T !! p <> Some q) -> pages s' !! q = pages s !! q;
  unmapped_bounds : bounds s s' }.

(** The pages mapped from [a] to [b] belong to the address space. *)
Definition private (fl : list Z) (T : tree) (s : vm) (a b : Z) : Prop :=
  (forall v w, a <= v < b -> entry T (pages s) v = Some w -> 0 <= w < 2 ^ 54 /\ loose fl T s (frame w)) /\
  (forall v v' w w', a <= v < b -> a <= v' < b -> entry T (pages s) v = Some w -> entry T (pages s) v' = Some w' ->
     frame w = frame w' -> v = v').

Section unmap_one.
Context {fl : list Z} {T : tree} {root : Z} {s : vm} {a : Z} {do_free : bool}.
Context (Hok : space_ok fl T root s) (Ha : 0 <= a < 2 ^ 27) (Hp : do_free = true -> private fl T s a (a + 1)).

Lemma unmap_one : wp (fun _ s' => exists fl', unmapped fl T root s a (a + 1) do_free fl' s')
  ((pte ← find_pte root (virt_page_num_from_size_t a);
    when (negb (pte =? 0))
      (when do_free (bits ← load_word pte; kfree (floor_phys (phys_addr_from_size_t (PTE2PA bits))));;
       store_word pte PageTableEntry_empty)) s).
Proof using All.
  replace (virt_page_num_from_size_t a) with a.
  2: { symmetry. unfold virt_page_num_from_size_t, VPN_WIDTH_SV39, VA_WIDTH_SV39, PAGE_SIZE_BITS. rewrite land_mask, Z.mod_small by lia. done. }
  pose proof Hok as [Hf Ht Hown]. eapply wp_eq; [apply (find_pte_ok a Ht)|].
  destruct (entry T (pages s) a) as [w|] eqn:He.
  2: { cbn. exists fl. split; [done| | |done|done].
       - intros v Hv. destruct (decide (a <= v < a + 1)); [|done]. by replace v with a by lia.
       - intros q. split; [by left|]. intros [?|(_ & v & w & Hv & Hw & _)]; [done|]. replace v with a in Hw by lia. congruence. }
  destruct (table_of T a) as [x|] eqn:Hx; [|unfold entry in He; by rewrite Hx in He].
  destruct (leaf_at a x Ht Hx) as (w0 & Hw0 & El & Hxr & Hent). rewrite He in Hent.
  destruct (PageTableEntry_is_valid w0) eqn:Hval; [|done]. injection Hent as <-.
  assert (Hx0 : 0 < x). { destruct (Hown _ _ Hx) as [Hm _]. pose proof (managed_range Hf x Hm). rewrite base_eq in *. lia. }
  pose proof (leaf_range a) as Hlf. rewrite (proj2 (Z.eqb_neq _ _)) by (rewrite pte_addr_eq by done; lia). cbn [negb when].
  eapply (wp_step (fun _ s1 => exists fl1, space_ok fl1 T root s1 /\ bounds s s1 /\ (forall q, q ∈ fl1 <-> q ∈ fl \/ do_free = true /\ q = frame w) /\
    (forall q, q ∉ fl1 -> pages s1 !! q = pages s !! q))).
  { destruct do_free; cbn [when].
    - destruct (Hp eq_refl) as [Hp1 _]. destruct (Hp1 a w) as [Hw Hl]; [lia|done|]. destruct (pte_frame w Hw) as (E & _).
      eapply wp_eq; [exact El|]. rewrite E. eapply wp_mono; [|by apply (release_ok fl T root s)].
      intros ? s1 (H1 & [next E1] & B1). exists (frame w :: fl). split_and!; [done|done| |].
      + intros q. rewrite elem_of_cons. tauto.
      + intros q Hq. rewrite E1. apply lookup_alter_ne. intros <-. apply Hq. by left.
    - exists fl. split_and!; [done|done| |done]. intros q. split; [by left|by intros [?|[? _]]]. }
  intros ? s1 (fl1 & Hok1 & B1 & Hfl1 & Ho1). pose proof Hok1 as [_ Ht1 Hown1].
  assert (Hent1 : forall v, entry T (pages s1) v = entry T (pages s) v).
  { intros v. apply entry_ext. intros p y Hy. apply Ho1. by eapply Hown1. }
  destruct (leaf_at a x Ht1 Hx) as (w1 & Hw1 & _). eapply wp_run; [rewrite pte_addr_eq by done; by eapply store_word_at|].
  exists fl1. split; [by apply set_leaf_ok| | | |done].
  - intros v Hv. rewrite (set_leaf_entry Hok1 Ha Hx v Hv), Hent1. change (PageTableEntry_is_valid PageTableEntry_empty) with false.
    destruct (decide (v = a)), (decide (a <= v < a + 1)); done || lia.
  - intros q. rewrite Hfl1. split; (intros [?|[? H]]; [by left|right; split; [done|]]).
    + exists a, w. by split_and!; [lia|lia|..].
    + destruct H as (v & w' & Hv & Hw' & ->). replace v with a in Hw' by lia. congruence.
  - intros q Hq Hn. cbn. unfold set_word. rewrite lookup_alter_ne; [by apply Ho1|]. intros <-. by eapply Hn.
Qed.
End unmap_one.

Lemma unmap_loop_ok n fl T root s a do_free :
  space_ok fl T root s -> 0 <= a -> a + Z.of_nat n <= 2 ^ 27 -> (do_free = true -> private fl T s a (a + Z.of_nat n)) ->
  wp (fun _ s' => exists fl', unmapped fl T root s a (a + Z.of_nat n) do_free fl' s') (unmap_loop n root a do_free s).
Proof.
  revert fl s a. induction n as [|n IH]; intros fl s a Hok Ha Hn Hp; cbn [unmap_loop].
  - exists fl. split; [done| | |done|done].
    + intros v _. by rewrite decide_False by lia.
    + intros q. split; [by left|]. intros [?|(_ & v & w & Hv & _)]; [done|lia].
  - apply wp_assoc. eapply wp_step.
    { apply (unmap_one (fl := fl) (T := T) (a := a) (do_free := do_free) Hok); [lia|]. intros Hd. destruct (Hp Hd) as [P1 P2]. split.
      - intros v w Hv. apply P1. lia.
      - intros v v' w w' Hv Hv'. apply P2; lia. }
    intros ? s1 (fl1 & H1). pose proof H1 as [Hok1 E1 F1 O1 B1].
    eapply wp_mono; [|apply (IH fl1 s1 (a + 1) Hok1); [lia|lia|]].
    + intros ? s2 (fl2 & [Hok2 E2 F2 O2 B2]). exists fl2. split; [done| | | |by etransitivity].
      * intros v Hv. rewrite E2, E1 by done.
        destruct (decide (a + 1 <= v < a + 1 + Z.of_nat n)), (decide (a <= v < a + 1)), (decide (a <= v < a + Z.of_nat (S n))); done || lia.
      * intros q. rewrite F2, F1. split.
        -- intros [[?|(Hd & v & w & Hv & Hw & ->)]|(Hd & v & w & Hv & Hw & ->)]; [by left|right..]; (split; [done|]; exists v, w).
           ++ by split_and!; [lia|lia|..].
           ++ rewrite E1 in Hw by lia. rewrite decide_False in Hw by lia. by split_and!; [lia|lia|..].
        -- intros [?|(Hd & v & w & Hv & Hw & ->)]; [by left; left|]. destruct (decide (v = a)) as [->|].
           ++ left. right. split; [done|]. exists a, w. by split_and!; [lia|lia|..].
           ++ right. split; [done|]. exists v, w. rewrite E1, decide_False by lia. by split_and!; [lia|lia|..].
      * intros q Hq Hnq. rewrite O2 by done. apply O1; [|done]. intros Hq1. apply Hq, F2. by left.
    + intros Hd. destruct (Hp Hd) as [P1 P2]. split.
      * intros v w Hv Hw. rewrite E1, decide_False in Hw by lia. destruct (P1 v w) as (R1 & R2 & R3 & R4); [lia|done|]. split; [done|].
        split_and!; [by apply (bounds_managed s s1)| |done]. rewrite F1. intros [?|(_ & v' & w' & Hv' & Hw' & E)]; [done|].
        assert (v = v') by (apply (P2 v v' w w'); done || lia). lia.
      * intros v v' w w' Hv Hv' Hw Hw'. rewrite E1, decide_False in Hw by lia. rewrite E1, decide_False in Hw' by lia. apply P2; done || lia.
Qed.

Lemma uvmunmap_ok fl T root s vpn npages do_free :
  space_ok fl T root s -> 0 <= vpn -> 0 <= npages -> vpn + npages <= 2 ^ 27 -> (do_free = true -> private fl T s vpn (vpn + npages)) ->
  wp (fun _ s' => exists fl', unmapped fl T root s vpn (vpn + npages) do_free fl' s') (uvmunmap root vpn npages do_free s).
Proof.
  intros Hok Hv Hn Hs Hp. unfold uvmunmap. pose proof (unmap_loop_ok (Z.to_nat npages) fl T root s vpn do_free Hok Hv) as H.
  rewrite Z2Nat.id in H by done. by apply H.
Qed.

(** ** Freeing the tables *)

Lemma land_v w : (Z.land w PTE_V =? 0) = negb (PageTableEntry_is_valid w).
Proof.
  rewrite valid_odd. unfold PTE_V. change 1 with (Z.ones 1). rewrite Z.land_ones, Zmod_odd by done. by destruct (Z.odd w).
Qed.

(** One turn of the loop of [freewalk]. *)
Definition walk_body (level : nat) (x i : Z) : M vm unit :=
  bits ← load_word (pte_addr x i);
  if negb (Z.land bits PTE_V =? 0) && (Z.land bits (Z.lor (Z.lor PTE_R PTE_W) PTE_X) =? 0) then
    freewalk level (PageTableEntry_ppn bits);; store_word (pte_addr x i) PageTableEntry_empty
  else if negb (Z.land bits PTE_V =? 0) then stuck else mret ().
Lemma freewalk_S level x : freewalk (S level) x = (for_entries 512 0 (walk_body level x);; kfree x).
Proof. reflexivity. Qed.

(** The pages of the tables below [p]. *)
Definition below (T : tree) (p : list Z) (q : Z) : Prop := exists r, T !! (p ++ r) = Some q.

Lemma below_inj {T root m} p p' i i' q :
  tables_ok T root m -> T !! (p ++ [i] ++ p') = Some q -> (exists r, T !! (p ++ [i'] ++ r) = Some q) -> i = i'.
Proof.
  intros Ht H1 (r & H2). pose proof (tables_inj _ _ _ Ht _ _ _ H1 H2) as E. apply app_inv_head in E. by injection E.
Qed.

Section walk.
Context {T : tree} {root : Z} {m0 : mem} (Ht : tables_ok T root m0).
Context (Hleaf : forall p x i w, T !! p = Some x -> length p = 2%nat -> 0 <= i < 512 -> word m0 x i = Some w -> PageTableEntry_is_valid w = false).

(** Before the walk through the tables below [p]. *)
Definition walk_pre (p : list Z) (fl : list Z) (s : vm) : Prop :=
  frames_ok fl s /\ forall q, below T p q -> managed s q /\ q ∉ fl /\ pages s !! q = m0 !! q.
Definition walk_post (p : list Z) (fl : list Z) (s s' : vm) : Prop :=
  exists fl', frames_ok fl' s' /\ (forall q, q ∈ fl' <-> q ∈ fl \/ below T p q) /\
    (forall q, ~ below T p q -> pages s' !! q = pages s !! q) /\ bounds s s'.

(** After the entries below [i] of the table [x] at [p]. *)
Record walked (p : list Z) (x i : Z) (fl : list Z) (s : vm) (fl' : list Z) (s' : vm) : Prop := {
  walked_ok : frames_ok fl' s';
  walked_free : forall q, q ∈ fl' <-> q ∈ fl \/ exists j r, 0 <= j < i /\ T !! (p ++ [j] ++ r) = Some q;
  walked_other : forall q, q <> x -> (forall j r, 0 <= j < i -> T !! (p ++ [j] ++ r) <> Some q) -> pages s' !! q = pages s !! q;
  walked_page : has_page (pages s') x;
  walked_rest : forall k, i <= k < 512 -> word (pages s') x k = word (pages s) x k;
  walked_bounds : bounds s s' }.

Section level.
Context (level : nat) (p : list Z) (x : Z) (Hx : T !! p = Some x) (Hl : (length p + S level = 3)%nat).
Context (IH : forall p x fl s, T !! p = Some x -> (length p + level = 3)%nat -> walk_pre p fl s -> wp (fun _ s' => walk_post p fl s s') (freewalk level x s)).

Lemma not_above i r : T !! (p ++ [i] ++ r) <> Some x.
Proof using Ht Hx.
  clear Hl. intros H. pose proof (tables_inj _ _ _ Ht _ _ _ Hx H) as E%(f_equal length). rewrite !length_app in E. cbn in E. lia.
Qed.

Lemma entry_walk fl s i fl1 s1 :
  walk_pre p fl s -> walked p x i fl s fl1 s1 -> 0 <= i < 512 ->
  wp (fun _ s2 => exists fl2, walked p x (i + 1) fl s fl2 s2)
    (walk_body level x i s1).
Proof using All.
  intros [Hf Hpre] [W1 W2 W3 W4 W5 W6] Hi. destruct (tables_page _ _ _ Ht p x Hx) as [Hpg Hxr].
  destruct (has_word (pages s1) x i W4 Hi) as [w Hw]. assert (Hw0 : word m0 x i = Some w).
  { rewrite W5 in Hw by lia. destruct (Hpre x) as (_ & _ & E); [exists []; by rewrite app_nil_r|]. unfold word in *. by rewrite <- E. }
  unfold walk_body. eapply wp_eq; [rewrite pte_addr_eq by done; by apply load_word_at|]. rewrite land_v.
  assert (Hbelow : forall j r q, T !! (p ++ [j] ++ r) = Some q -> managed s q /\ q ∉ fl /\ pages s !! q = m0 !! q).
  { intros j r q Hq. apply Hpre. by exists ([j] ++ r). }
  assert (Hnone : T !! (p ++ [i]) = None -> wp (fun _ s2 => exists fl2, walked p x (i + 1) fl s fl2 s2) ((mret () : M vm unit) s1)).
  { intros Hn. exists fl1. assert (Hnb : forall r q, T !! (p ++ [i] ++ r) <> Some q).
    { intros r. induction r as [|k r IHr] using rev_ind; intros q Hq; [by rewrite app_nil_r, Hn in Hq|].
      rewrite !app_assoc in Hq. apply (tables_parent _ _ _ Ht) in Hq as [_ [y Hy]]. rewrite <- app_assoc in Hy. by apply IHr in Hy. }
    split; [done| | |done| |done].
    - intros q. rewrite W2. split; (intros [?|(j & r & Hj & Hq)]; [by left|right; exists j, r; split; [|done]]); [lia|].
      destruct (decide (j = i)) as [->|]; [by apply Hnb in Hq|lia].
    - intros q Hq Hj. apply W3; [done|]. intros j r ?. apply Hj. lia.
    - intros k Hk. apply W5. lia. }
  destruct (decide (length p = 2%nat)) as [Hl2|Hl2].
  { rewrite (Hleaf p x i w Hx Hl2 Hi Hw0). cbn [negb andb]. apply Hnone. destruct (T !! (p ++ [i])) as [y|] eqn:E; [|done].
    apply (tables_depth _ _ _ Ht) in E. rewrite length_app in E. cbn in E. lia. }
  pose proof (tables_entry _ _ _ Ht p x i w Hx ltac:(lia) Hi Hw0) as He. destruct (T !! (p ++ [i])) as [y|] eqn:Hy.
  2: { rewrite He. cbn [negb andb]. by apply Hnone. }
  destruct (tables_page _ _ _ Ht _ _ Hy) as [_ Hyr]. pose proof (pointer_new y Hyr) as Hptr. unfold pte_pointer in Hptr. rewrite <- He in Hptr.
  apply andb_true_iff in Hptr as [-> ->]. cbn [negb andb]. replace (PageTableEntry_ppn w) with y by (subst w; rewrite pte_new by done; by rewrite pte_ppn).
  eapply wp_step; [apply (IH (p ++ [i]) y fl1 s1 Hy); [rewrite length_app; cbn; lia|]|].
  { split; [done|]. intros q (r & Hq). rewrite <- app_assoc in Hq. destruct (Hbelow _ _ _ Hq) as (B1 & B2 & B3).
    assert (Hne : forall j r', 0 <= j < i -> T !! (p ++ [j] ++ r') <> Some q).
    { intros j r' Hj Hq'. assert (i = j) by (eapply (below_inj p r i j q Ht Hq); by exists r'). lia. }
    split_and!; [by apply (bounds_managed s s1)| |].
    - rewrite W2. intros [?|(j & r' & Hj & Hq')]; [done|]. by apply (Hne j r') in Hq'.
    - rewrite W3; [done| |done]. intros ->. by apply not_above in Hq. }
  intros ? s2 (fl2 & Hf2 & Hfl2 & Ho2 & B2).
  assert (Hxb : ~ below T (p ++ [i]) x) by (intros (r & Hr); rewrite <- app_assoc in Hr; by apply not_above in Hr).
  assert (Ex : pages s2 !! x = pages s1 !! x) by (by apply Ho2).
  assert (Hpx2 : has_page (pages s2) x) by (unfold has_page; by rewrite Ex).
  destruct (has_word _ x i Hpx2 Hi) as [w2 Hw2].
  assert (Hx2 : x ∉ fl2).
  { rewrite Hfl2, W2. destruct (Hpre x) as (_ & Hn & _); [exists []; by rewrite app_nil_r|].
    intros [[?|(j & r & _ & Hq)]|?]; [done|by apply not_above in Hq|done]. }
  eapply wp_run; [rewrite pte_addr_eq by done; by eapply store_word_at|]. exists fl2.
  assert (Hin : forall q, below T (p ++ [i]) q <-> exists r, T !! (p ++ [i] ++ r) = Some q).
  { intros q. unfold below. by setoid_rewrite <- app_assoc. }
  split; [by apply frames_set| | |by apply has_page_set| |by etransitivity].
  - intros q. rewrite Hfl2, W2, Hin. split.
    + intros [[?|(j & r & Hj & Hq)]|[r Hq]]; [by left|right; exists j, r; split; [lia|done]|right; exists i, r; split; [lia|done]].
    + intros [?|(j & r & Hj & Hq)]; [by left; left|]. destruct (decide (j = i)) as [->|]; [right; by exists r|left; right; exists j, r; split; [lia|done]].
  - intros q Hq Hj. cbn. unfold set_word. rewrite lookup_alter_ne by done. rewrite Ho2.
    + apply W3; [done|]. intros j r ?. apply Hj. lia.
    + rewrite Hin. intros [r Hr]. by apply (Hj i r ltac:(lia)) in Hr.
  - intros k Hk. cbn. rewrite word_set_ne; [|lia|lia|intros [= ]; lia]. rewrite <- W5 by lia. unfold word. by rewrite Ex.
Qed.

Lemma level_walk fl s : walk_pre p fl s -> wp (fun _ s' => walk_post p fl s s') (freewalk (S level) x s).
Proof using All.
  intros Hpre. pose proof Hpre as [Hf Hb]. destruct (Hb x) as (Hm & Hn & Em); [exists []; by rewrite app_nil_r|].
  assert (Hloop : forall n i fl1 s1, walked p x i fl s fl1 s1 -> 0 <= i -> i + Z.of_nat n = 512 ->
    wp (fun _ s' => exists fl', walked p x 512 fl s fl' s') (for_entries n i (walk_body level x) s1)).
  { induction n as [|n IHn]; intros i fl1 s1 H1 Hi En; cbn [for_entries]; [replace i with 512 in H1 by lia; by exists fl1|].
    eapply wp_step; [by eapply entry_walk; [..|lia]|]. intros ? s2 (fl2 & H2). apply (IHn _ fl2); [done|lia|lia]. }
  rewrite freewalk_S.
  eapply wp_step; [apply (Hloop 512%nat 0 fl s); [|lia|lia]|].
  { split; try done.
    - intros q. split; [by left|]. intros [?|(j & r & Hj & _)]; [done|lia].
    - apply (frames_mem _ _ Hf x Hm). }
  intros ? s1 (fl1 & [W1 W2 W3 W4 W5 W6]). eapply wp_mono; [|apply (free_ok fl1 s1 x W1); [by apply (bounds_managed s s1)|]].
  - intros ? s2 (H2 & [next E2] & B2). exists (x :: fl1).
    assert (Hin : forall q, below T p q <-> q = x \/ exists j r, 0 <= j < 512 /\ T !! (p ++ [j] ++ r) = Some q).
    { intros q. split.
      - intros ([|j r] & Hr); [rewrite app_nil_r in Hr; left; congruence|]. right. exists j, r. split; [|done].
        revert Hr. change (p ++ j :: r) with (p ++ [j] ++ r). revert q. induction r as [|k r IHr] using rev_ind; intros q Hr.
        + rewrite app_nil_r in Hr. by apply (tables_parent _ _ _ Ht) in Hr as [? _].
        + rewrite !app_assoc in Hr. apply (tables_parent _ _ _ Ht) in Hr as [_ [y Hy]]. rewrite <- app_assoc in Hy. by apply IHr in Hy.
      - intros [-> |(j & r & _ & Hr)]; [exists []; by rewrite app_nil_r|by exists ([j] ++ r)]. }
    split_and!; [done| | |by etransitivity].
    + intros q. rewrite elem_of_cons, W2, Hin. tauto.
    + intros q Hq. rewrite Hin in Hq. assert (q <> x) by (intros ->; apply Hq; by left).
      rewrite E2. unfold linked, set_word. rewrite lookup_alter_ne by done. apply W3; [done|]. intros j r Hj Hr. apply Hq. right. by exists j, r.
  - rewrite W2. intros [?|(j & r & _ & Hr)]; [done|by apply not_above in Hr].
Qed.
End level.

Lemma freewalk_ok level p x fl s :
  T !! p = Some x -> (length p + level = 3)%nat -> walk_pre p fl s -> wp (fun _ s' => walk_post p fl s s') (freewalk level x s).
Proof using All.
  revert p x fl s. induction level as [|level IH]; intros p x fl s Hx Hl Hpre.
  - apply (tables_depth _ _ _ Ht) in Hx. lia.
  - by eapply level_walk.
Qed.
End walk.

(** ** Tearing down an address space *)

Lemma compose_vpn a b i : 0 <= a < 512 -> 0 <= b < 512 -> 0 <= i < 512 ->
  let v := a * 2 ^ 18 + b * 2 ^ 9 + i in 0 <= v < 2 ^ 27 /\ dir1 v = a /\ dir2 v = b /\ leaf v = i.
Proof.
  intros Ha Hb Hi v. unfold dir1, dir2, leaf. subst v. split; [lia|].
  replace (a * 2 ^ 18 + b * 2 ^ 9 + i) with ((a * 512 + b) * 512 + i) by lia. change (2 ^ 18) with (512 * 512). change (2 ^ 9) with 512.
  rewrite <- Z.div_div, Z.div_add_l, (Z.div_small i), Z.add_0_r by lia. rewrite Z.div_add_l, (Z.div_small b), Z.add_0_r by lia.
  rewrite (Z.add_comm (a * 512)), (Z.add_comm ((b + a * 512) * 512)), !Z_mod_plus_full, !Z.mod_small by lia. done.
Qed.

(** No page is mapped any more: the tables become free, and only they. *)
Lemma tables_freed fl T root s :
  space_ok fl T root s -> (forall v, 0 <= v < 2 ^ 27 -> entry T (pages s) v = None) ->
  wp (fun _ s' => exists fl', frames_ok fl' s' /\ (forall q, q ∈ fl' <-> q ∈ fl \/ exists p, T !! p = Some q) /\
        (forall q, q ∉ fl' -> pages s' !! q = pages s !! q) /\ bounds s s') (freewalk 3 root s).
Proof.
  intros [Hf Ht Hown] He. eapply wp_mono; [|eapply (freewalk_ok Ht _ 3 [] root fl s); [apply Ht|done|]].
  - intros ? s' (fl' & H1 & H2 & H3 & H4). exists fl'. split_and!; [done|done| |done]. intros q Hq. apply H3. intros Hb. apply Hq, H2. by right.
  - split; [done|]. intros q (r & Hr). destruct (Hown _ _ Hr). by split_and!.
Unshelve.
  intros p x i w Hx Hl Hi Hw. destruct p as [|a [|b [|? ?]]]; try discriminate Hl.
  destruct (tables_parent _ _ _ Ht [a] b x Hx) as [Hb [y Hy]]. destruct (tables_parent _ _ _ Ht [] a y Hy) as [Ha _].
  destruct (compose_vpn a b i Ha Hb Hi) as (Hv & E1 & E2 & E3). specialize (He _ Hv). unfold entry, table_of in He. rewrite E1, E2, E3, Hx in He.
  cbn in He. rewrite Hw in He. cbn in He. by destruct (PageTableEntry_is_valid w).
Qed.

(** An address space of a process: the pages below [sz] are its own, and the
    trampoline and the trap frame are mapped at the top. *)
Definition tramp_vpn : Z := floor_virts (virt_addr_from_size_t TRAMPOLINE).
Definition trapframe_vpn : Z := floor_virts (virt_addr_from_size_t TRAPFRAME).
Record process_space (fl : list Z) (T : tree) (root : Z) (s : vm) (sz : Z) : Prop := {
  process_ok : space_ok fl T root s;
  process_size : 0 <= sz <= TRAPFRAME;
  process_top : forall v, 0 <= v < 2 ^ 27 -> sz / PAGE_SIZE <= v -> entry T (pages s) v <> None -> v = tramp_vpn \/ v = trapframe_vpn;
  process_private : private fl T s 0 (sz / PAGE_SIZE) }.

(** The pages that belong to it. *)
Definition belongs (T : tree) (s : vm) (sz q : Z) : Prop :=
  (exists p, T !! p = Some q) \/ exists v w, 0 <= v < sz / PAGE_SIZE /\ entry T (pages s) v = Some w /\ q = frame w.

Lemma teardown_ok fl T root s sz :
  process_space fl T root s sz ->
  wp (fun _ s' => exists fl', frames_ok fl' s' /\ (forall q, q ∈ fl' <-> q ∈ fl \/ belongs T s sz q) /\
        (forall q, q ∉ fl' -> pages s' !! q = pages s !! q) /\ bounds s s') (proc_freepagetable root sz s).
Proof.
  intros [Hok Hsz Htop Hpriv]. unfold proc_freepagetable. fold tramp_vpn trapframe_vpn.
  assert (E1 : tramp_vpn = 2 ^ 26 - 1) by done. assert (E2 : trapframe_vpn = 2 ^ 26 - 2) by done.
  assert (Hn : 0 <= sz / PAGE_SIZE <= 2 ^ 26 - 2).
  { unfold PAGE_SIZE. split; [apply Z.div_pos; lia|]. change TRAPFRAME with ((2 ^ 26 - 2) * 4096) in Hsz. apply Z.lt_succ_r, Z.div_lt_upper_bound; lia. }
  eapply wp_step; [apply (uvmunmap_ok fl T root s tramp_vpn 1 false Hok); [lia|lia|lia|done]|].
  intros ? s1 (fl1 & [Ok1 Ent1 F1 O1 B1]).
  eapply wp_step; [apply (uvmunmap_ok fl1 T root s1 trapframe_vpn 1 false Ok1); [lia|lia|lia|done]|].
  intros ? s2 (fl2 & [Ok2 Ent2 F2 O2 B2]).
  assert (Hfl2 : forall q, q ∈ fl2 <-> q ∈ fl) by (intros q; rewrite F2, F1; split; [by intros [[?|[? _]]|[? _]]|by left; left]).
  assert (Ent : forall v, 0 <= v < 2 ^ 27 -> entry T (pages s2) v = if decide (v < sz / PAGE_SIZE) then entry T (pages s) v else None).
  { intros v Hv. rewrite Ent2, Ent1 by done. destruct (decide (v < sz / PAGE_SIZE)); [by rewrite !decide_False by lia|].
    destruct (decide (trapframe_vpn <= v < trapframe_vpn + 1)); [done|]. destruct (decide (tramp_vpn <= v < tramp_vpn + 1)); [done|].
    destruct (entry T (pages s) v) eqn:E; [|done]. destruct (Htop v Hv) as [-> | ->]; [lia|congruence|lia|lia]. }
  assert (Hpriv2 : private fl2 T s2 0 (sz / PAGE_SIZE)).
  { destruct Hpriv as [P1 P2]. split.
    - intros v w Hv Hw. rewrite Ent, decide_True in Hw by lia. destruct (P1 v w Hv Hw) as (R1 & R2 & R3 & R4). split; [done|].
      split_and!; [apply (bounds_managed s s2); [by etransitivity|done]|by rewrite Hfl2|done].
    - intros v v' w w' Hv Hv' Hw Hw'. rewrite Ent, decide_True in Hw by lia. rewrite Ent, decide_True in Hw' by lia. by apply (P2 v v' w w'). }
  unfold uvmfree. change (floor_virts (virt_addr_from_size_t 0)) with 0.
  eapply (wp_step (fun _ s3 => exists fl3, unmapped fl2 T root s2 0 (0 + sz / PAGE_SIZE) true fl3 s3)).
  { destruct (Z.ltb_spec 0 sz); cbn [when]; [by apply uvmunmap_ok; [done|lia|lia|lia|]|]. exists fl2.
    assert (sz / PAGE_SIZE = 0) as -> by (replace sz with 0 by lia; done). split; [done| | |done|done].
    - intros v _. by rewrite decide_False by lia.
    - intros q. split; [by left|]. intros [?|(_ & v & w & Hv & _)]; [done|lia]. }
  intros ? s3 (fl3 & [Ok3 Ent3 F3 O3 B3]). rewrite Z.add_0_l in *.
  eapply wp_mono; [|apply (tables_freed fl3 T root s3 Ok3)].
  2: { intros v Hv. rewrite Ent3, Ent by done. destruct (decide (0 <= v < sz / PAGE_SIZE)); [done|]. by rewrite decide_False by lia. }
  intros ? s4 (fl4 & Hf4 & F4 & O4 & B4). exists fl4. split_and!; [done| | |by etransitivity; [|etransitivity; [|etransitivity]]].
  - intros q. rewrite F4, F3, Hfl2. unfold belongs. split.
    + intros [[?|(_ & v & w & Hv & Hw & ->)]|?]; [by left| |by right; left]. rewrite Ent, decide_True in Hw by lia. right. right. by exists v, w.
    + intros [?|[?|(v & w & Hv & Hw & ->)]]; [by left; left|by right|]. left. right. split; [done|]. exists v, w. by rewrite Ent, decide_True by lia.
  - intros q Hq. rewrite O4 by done. assert (Hnq : forall p, T !! p <> Some q) by (intros p Hp; apply Hq, F4; right; by exists p).
    assert (Hq3 : q ∉ fl3) by (intros H; apply Hq, F4; by left). assert (Hq2 : q ∉ fl) by (intros H; apply Hq3, F3; left; by apply Hfl2).
    rewrite O3, O2, O1; [done|rewrite F1; by intros [?|[? _]]|done|by rewrite Hfl2|done..].
Qed.

(** * Copying an address space

    [uvmcopy] gives the child a copy of every page of the parent, at the same
    address and with the same flags, in a page of its own. *)

Lemma floor_virts_page v : 0 <= v < 2 ^ 27 -> virt_addr_from_size_t (v * PAGE_SIZE) = v * 4096 /\ floor_virts (v * 4096) = v.
Proof.
  intros Hv. unfold virt_addr_from_size_t, VA_WIDTH_SV39, floor_virts, PAGE_SIZE. rewrite land_mask, Z.mod_small by lia.
  split; [done|]. by apply Z.div_mul.
Qed.

Lemma copied_flags w : 0 <= w -> PageTableEntry_is_valid w = true ->
  0 <= u8 (PTE_FLAGS w) < 256 /\ Z.lor PTE_V (u8 (PTE_FLAGS w)) = PageTableEntry_flags w.
Proof.
  intros Hw Hv. assert (E : u8 (PTE_FLAGS w) = PageTableEntry_flags w).
  { unfold u8, PTE_FLAGS, PageTableEntry_flags. change 0x3ff with (Z.ones 10). change 0xff with (Z.ones 8).
    rewrite <- Z.land_ones, <- Z.land_assoc by done. done. }
  split; [by apply Z.mod_pos_bound|]. rewrite E. unfold PageTableEntry_is_valid, PTE_V in *. set (f := PageTableEntry_flags w) in *.
  apply Z.bits_inj'. intros k Hk. rewrite Z.lor_spec. destruct (decide (k = 0)) as [->|].
  - destruct (Z.testbit f 0) eqn:Eb; [done|]. exfalso. change 1 with (Z.ones 1) in Hv. rewrite Z.land_ones in Hv by done.
    rewrite Z.bit0_odd in Eb. rewrite Zmod_odd, Eb in Hv. done.
  - by rewrite (Z.bits_above_log2 1 k) by (cbn; lia).
Qed.

Section copy.
Context {T1 : tree} {root1 root2 : Z}.

(** The pages of the parent from [a] to [b] are none of the child's and none
    of the free ones. *)
Record family (fl : list Z) (T : tree) (s : vm) (a b : Z) : Prop := {
  family_parent : space_ok fl T1 root1 s;
  family_child : space_ok fl T root2 s;
  family_apart : forall p q x, T1 !! p = Some x -> T !! q <> Some x;
  family_pages : forall v w, a <= v < b -> entry T1 (pages s) v = Some w ->
    0 <= w < 2 ^ 54 /\ has_page (pages s) (frame w) /\ frame w ∉ fl /\ forall p, T !! p <> Some (frame w) }.

Record copied (fl : list Z) (T : tree) (s : vm) (a b : Z) (fl' : list Z) (T' : tree) (s' : vm) : Prop := {
  copied_ok : space_ok fl' T' root2 s';
  copied_in : forall v w, a <= v < b -> entry T1 (pages s) v = Some w ->
    exists w', entry T' (pages s') v = Some w' /\ PageTableEntry_flags w' = PageTableEntry_flags w /\
      frame w' ∈ fl /\ frame w' ∉ fl' /\ (forall p, T' !! p <> Some (frame w')) /\ pages s' !! frame w' = pages s !! frame w;
  copied_inj : forall v v' w w', a <= v < b -> a <= v' < b -> entry T1 (pages s) v <> None -> entry T1 (pages s) v' <> None ->
    entry T' (pages s') v = Some w -> entry T' (pages s') v' = Some w' -> frame w = frame w' -> v = v';
  copied_out : forall v, 0 <= v < 2 ^ 27 -> ~ (a <= v < b) \/ entry T1 (pages s) v = None -> entry T' (pages s') v = entry T (pages s) v;
  copied_other : untouched fl T (pages s) (pages s');
  copied_new : forall p x, T' !! p = Some x -> T !! p = Some x \/ x ∈ fl;
  copied_free : exists n, fl' = drop n fl;
  copied_left : len fl <= len fl' + 3 * (b - a);
  copied_bounds : bounds s s';
  copied_tree : T ⊆ T';
  copied_used : forall q, q ∈ fl -> q ∈ fl' \/ (exists p, T' !! p = Some q) \/ exists v w, a <= v < b /\ entry T' (pages s') v = Some w /\ frame w = q }.

Lemma drop_in (fl : list Z) n q : q ∈ drop n fl -> q ∈ fl.
Proof. intros Hq. eapply elem_of_submseteq; [exact Hq|apply sublist_submseteq, sublist_drop]. Qed.

Lemma space_untouched fl T s s' :
  space_ok fl T1 root1 s -> (forall p q x, T1 !! p = Some x -> T !! q <> Some x) -> untouched fl T (pages s) (pages s') ->
  forall p x, T1 !! p = Some x -> pages s' !! x = pages s !! x.
Proof. intros [_ _ Hown] Hap Hu p x Hx. apply Hu; [by eapply Hown|]. intros q. by eapply Hap. Qed.

(** The relation of parent and child after a part was copied. *)
Lemma family_copied fl T s a b fl' T' s' c :
  family fl T s a c -> a <= b <= c -> copied fl T s a b fl' T' s' -> family fl' T' s' b c.
Proof.
  intros [Hp Hc Hap Hpg] Hb [C1 _ _ _ C4 C5 [n C6] _ C7]. pose proof (space_untouched fl T s s' Hp Hap C4) as Hsame.
  pose proof Hp as [Hf Ht Hown]. assert (Hfl : forall q, q ∈ fl' -> q ∈ fl) by (intros q; rewrite C6; apply drop_in).
  split; [|done| |].
  - split; [apply C1|by eapply tables_ext|]. intros p x Hx. destruct (Hown p x Hx). split; [by apply (bounds_managed s s')|]. by intros ?%Hfl.
  - intros p q x Hx Hq. destruct (C5 q x Hq) as [?|?]; [by eapply Hap|]. by eapply Hown.
  - intros v w Hv Hw. rewrite (entry_ext T1 (pages s)) in Hw by done. destruct (Hpg v w) as (R1 & R2 & R3 & R4); [lia|done|].
    split_and!; [lia|lia|unfold has_page; rewrite C4 by done; done|by intros ?%Hfl|].
    intros p Hp'. destruct (C5 p _ Hp') as [?|?]; [by eapply R4|done].
Qed.

Lemma copied_trans fl T s a b c fl1 T2 s1 fl2 T3 s2 :
  space_ok fl T1 root1 s -> (forall p q x, T1 !! p = Some x -> T !! q <> Some x) ->
  0 <= a <= b -> b <= c <= 2 ^ 27 -> copied fl T s a b fl1 T2 s1 -> copied fl1 T2 s1 b c fl2 T3 s2 -> 
  (forall v w, a <= v < c -> entry T1 (pages s) v = Some w -> frame w ∉ fl /\ forall p, T !! p <> Some (frame w)) ->
  copied fl T s a c fl2 T3 s2.
Proof.
  intros Hp Hap Ha Hbc [A1 A2 A3 A4 A5 A6 [n A7] A8 A9 A10 A11] [B1 B2 B3 B4 B5 B6 [m B7] B8 B9 B10 B11] Hfr.
  pose proof (space_untouched fl T s s1 Hp Hap A5) as Hsame.
  assert (Hent : forall v, entry T1 (pages s1) v = entry T1 (pages s) v) by (intros v; by apply entry_ext).
  assert (Hfl : forall q, q ∈ fl1 -> q ∈ fl) by (intros q; rewrite A7; apply drop_in).
  assert (Hfl2 : forall q, q ∈ fl2 -> q ∈ fl1) by (intros q; rewrite B7; apply drop_in).
  assert (Hfirst : forall v w, a <= v < b -> entry T1 (pages s) v = Some w -> entry T3 (pages s2) v = entry T2 (pages s1) v).
  { intros v w Hv _. apply B4; [lia|]. left. lia. }
  split; [done| | | | | |exists (n + m)%nat; by rewrite B7, A7, drop_drop|lia|by etransitivity|by etransitivity|].
  - intros v w Hv Hw. destruct (decide (v < b)) as [Hvb|Hvb].
    + destruct (A2 v w ltac:(lia) Hw) as (w' & E1 & E2 & E3 & E4 & E5 & E6). exists w'.
      rewrite (Hfirst v w) by (done || lia). split_and!; [done|done|done|by intros ?%Hfl2| |by rewrite B5].
      intros p Hx. destruct (B6 p _ Hx) as [?|?]; [by eapply E5|done].
    + destruct (B2 v w) as (w' & E1 & E2 & E3 & E4 & E5 & E6); [lia|by rewrite Hent|]. exists w'. split_and!; [done|done|by apply Hfl|done|done|].
      rewrite E6. destruct (Hfr v w) as [F1 F2]; [lia|done|]. by apply A5.
  - intros v v' w w' Hv Hv' Hn Hn' Hw Hw' E.
    assert (Hearly : forall v w, a <= v < b -> entry T1 (pages s) v <> None -> entry T3 (pages s2) v = Some w -> frame w ∉ fl1 /\ entry T2 (pages s1) v = Some w).
    { intros u z Hu Hne Hz. destruct (entry T1 (pages s) u) as [z0|] eqn:Ez; [|done]. rewrite (Hfirst u z0) in Hz by done.
      destruct (A2 u z0 Hu Ez) as (z1 & F1 & _ & _ & F4 & _). rewrite Hz in F1. injection F1 as <-. done. }
    assert (Hlate : forall v w, b <= v < c -> entry T1 (pages s) v <> None -> entry T3 (pages s2) v = Some w -> frame w ∈ fl1).
    { intros u z Hu Hne Hz. destruct (entry T1 (pages s) u) as [z0|] eqn:Ez; [|done].
      destruct (B2 u z0 Hu) as (z1 & F1 & _ & F3 & _); [by rewrite Hent|]. rewrite Hz in F1. by injection F1 as <-. }
    destruct (decide (v < b)) as [H1|H1], (decide (v' < b)) as [H2|H2].
    + destruct (Hearly v w ltac:(lia) Hn Hw) as [_ G1], (Hearly v' w' ltac:(lia) Hn' Hw') as [_ G2]. by apply (A3 v v' w w'); [lia|lia|..].
    + destruct (Hearly v w ltac:(lia) Hn Hw) as [G1 _]. destruct G1. rewrite E. by apply (Hlate v' w' ltac:(lia) Hn' Hw').
    + destruct (Hearly v' w' ltac:(lia) Hn' Hw') as [G1 _]. destruct G1. rewrite <- E. by apply (Hlate v w ltac:(lia) Hn Hw).
    + apply (B3 v v' w w'); [lia|lia|by rewrite Hent|by rewrite Hent|done..].
  - intros v Hv Hcase. rewrite B4, A4; [done|done| |done|]; rewrite ?Hent; (destruct Hcase as [?|?]; [left; lia|by right]).
  - intros q Hq Hn. rewrite B5; [by apply A5|by intros ?%Hfl|]. intros p Hx. destruct (A6 p q Hx) as [?|?]; [by eapply Hn|done].
  - intros p x Hx. destruct (B6 p x Hx) as [?|?]; [by apply A6|right; by apply Hfl].
  - intros q Hq. destruct (A11 q Hq) as [Hq1|[[p Hp']|(v & w & Hv & Hw & Ew)]].
    + destruct (B11 q Hq1) as [?|[?|(v & w & Hv & Hw)]]; [by left|by right; left|]. right. right. exists v, w. split; [lia|done].
    + right. left. exists p. by eapply lookup_weaken.
    + right. right. exists v, w. rewrite B4; [|lia|left; lia]. split; [lia|done].
Qed.

Lemma copy_page_at s d a ws :
  pages s !! a = Some ws -> is_Some (pages s !! d) ->
  copy_page (d * 4096) (a * 4096) s = Ret () (s <| pages := <[d := ws]> (pages s) |>).
Proof.
  intros Ha [wd Hd]. unfold copy_page. rewrite (mbind_ret get _ s s s eq_refl). change 4096 with PAGE_SIZE. rewrite !Z_mod_mult.
  cbn [Z.eqb negb orb]. unfold page_of. rewrite !Z.div_mul, Ha, Hd by done. done.
Qed.

(** A page that is free no longer is filled. *)
Lemma space_filled fl T root s d ws :
  space_ok fl T root s -> d ∉ fl -> (forall p, T !! p <> Some d) -> length ws = 512%nat ->
  space_ok fl T root (s <| pages := <[d := ws]> (pages s) |>).
Proof.
  intros [[H1 H2 H3 H4 H5 H6 H7] Ht Hown] Hd Hn Hl. split; [|cbn|done].
  - split; try done; cbn.
    + intros q Hq. destruct (decide (q = d)) as [->|]; [exists ws; by rewrite lookup_insert_eq|]. unfold has_page. rewrite lookup_insert_ne by done. by apply H2.
    + eapply chain_ext; [|exact H5]. intros q Hq. apply lookup_insert_ne. by intros <-.
  - eapply tables_ext, Ht. intros p x Hx. apply lookup_insert_ne. intros <-. by eapply Hn.
Qed.
Lemma space_alloc f fl T root s s' :
  space_ok (f :: fl) T root s -> frames_ok fl s' -> pages s' = <[f := zero_page]> (pages s) -> bounds s s' -> space_ok fl T root s'.
Proof.
  intros [_ Ht Hown] Hf E Hb. split; [done| |].
  - rewrite E. eapply tables_ext, Ht. intros p x Hx. apply lookup_insert_ne. intros <-. destruct (Hown p f Hx) as [_ Hn]. apply Hn. by left.
  - intros p x Hx. destruct (Hown p x Hx) as [? Hn]. split; [by apply (bounds_managed s s')|]. intros ?. apply Hn. by right.
Qed.

Section one.
Context {fl : list Z} {T : tree} {s : vm} {v : Z}.
Context (Hfam : family fl T s v (v + 1)) (Hv : 0 <= v < 2 ^ 27 - 1) (Hl : (3 <= length fl)%nat) (Hfree : entry T (pages s) v = None).

Lemma copied_none : entry T1 (pages s) v = None -> copied fl T s v (v + 1) fl T s.
Proof using All.
  intros He. split; [apply Hfam| | |done|done|by left|by exists 0%nat|lia|done|done|by left].
  - intros u w Hu. replace u with v by lia. congruence.
  - intros u u' w w' Hu Hu' Hn. by replace u with v in Hn by lia.
Qed.

Lemma copied_some f fl1 w ws s3 fl3 T3 :
  fl = f :: fl1 -> entry T1 (pages s) v = Some w -> pages s !! frame w = Some ws ->
  (exists s2, pages s2 = <[f := ws]> (pages s) /\ bounds s s2 /\
    maps fl1 T root2 s2 (fun u => mapped_pages v f (u8 (PTE_FLAGS w)) 1 u (entry T (pages s) u)) 2 fl3 T3 s3) ->
  copied fl T s v (v + 1) fl3 T3 s3.
Proof using All.
  intros -> He Hws (s2 & E2 & B2 & [M1 M2 M3 M4 M8 [n M5] M6 M7 M9]). destruct Hfam as [Hp Hc Hap Hpg]. pose proof Hp as [Hf Ht Hown].
  destruct (Hpg v w ltac:(lia) He) as (Hw & _ & Hwf & HwT). pose proof (frames_nodup _ _ Hf) as [Hnf _]%NoDup_cons.
  assert (HfT : forall p, T !! p <> Some f) by (intros p Hx; destruct (space_owned _ _ _ _ Hc p f Hx) as [_ Hn]; apply Hn; by left).
  assert (Hfm : managed s f) by (apply (frames_free _ _ Hf); by left). pose proof (managed_range Hf f Hfm) as Hfr. rewrite base_eq in Hfr.
  destruct (copied_flags w) as [Hfl Hflag]; [lia| |].
  { unfold entry in He. destruct (table_of T1 v); [|done]. cbn in He. destruct (word _ _ _) as [z0|]; [|done]. cbn in He.
    destruct (PageTableEntry_is_valid z0) eqn:Ez; [|done]. by injection He as <-. }
  destruct (flags_ok _ Hfl) as [Hfr2 _].
  assert (Hent : entry T3 (pages s3) v = Some (PageTableEntry_new f (PageTableEntry_flags w))).
  { rewrite M2 by lia. unfold mapped_pages. rewrite decide_True by lia. by rewrite Z.sub_diag, Z.add_0_r, Hflag. }
  assert (Hf3 : forall q, q ∈ fl3 -> q ∈ fl1) by (intros q; rewrite M5; apply drop_in). rewrite Hflag in Hfr2.
  split; [done| | | | | |exists (S n); by rewrite M5|cbn [length] in *; lia|by etransitivity|done|].
  - intros u z Hu Hz. replace u with v in * by lia. rewrite He in Hz. injection Hz as <-. eexists. split; [exact Hent|].
    rewrite frame_new by (done || lia). split_and!; [|by left|by intros ?%Hf3| |].
    + rewrite pte_new by (done || lia). unfold PageTableEntry_flags. change 0xff with (Z.ones 8). rewrite !Z.land_ones by done.
      rewrite Z.add_comm. replace (f * 1024) with (f * 4 * 2 ^ 8) by lia. rewrite Z_mod_plus_full. by apply Z.mod_mod.
    + intros p Hx. destruct (M4 p f Hx) as [?|?]; [by eapply HfT|done].
    + rewrite M3, E2, lookup_insert_eq by done. done.
  - intros u u' z z' Hu Hu' _ _ _ _ _. lia.
  - intros u Hu Hcase. rewrite M2 by done. unfold mapped_pages. rewrite decide_False; [done|]. intros Hr. replace u with v in * by lia.
    destruct Hcase as [?|?]; [lia|congruence].
  - intros q Hq Hn. rewrite M3, E2; [|intros ?; apply Hq; by right|done]. apply lookup_insert_ne. intros <-. apply Hq. by left.
  - intros p x Hx. destruct (M4 p x Hx) as [?|?]; [by left|right; by right].
  - intros q [-> | Hq]%elem_of_cons; [|destruct (M9 q Hq); [by left|by right; left]]. right. right. eexists v, _. split; [lia|]. split; [exact Hent|]. apply frame_new; lia.
Qed.

Lemma copy_one (K : M vm Z) (Q : Z -> vm -> Prop) :
  (forall fl' T' s', copied fl T s v (v + 1) fl' T' s' -> wp Q (K s')) ->
  wp Q ((pte ← find_pte root1 (floor_virts (virt_addr_from_size_t (v * PAGE_SIZE)));
    if negb (pte =? 0) then
      bits ← load_word pte;
      ppn ← kalloc;
      if ppn =? 0 then mret (-1)
      else
        copy_page (phys_addr_from_phys_page_num ppn) (PTE2PA bits);;
        PageTable_map root2 (virt_addr_from_size_t (v * PAGE_SIZE))
          (phys_addr_from_size_t (phys_addr_from_phys_page_num ppn)) PAGE_SIZE (u8 (PTE_FLAGS bits));;
        K
    else K) s).
Proof using All.
  intros HK. destruct (floor_virts_page v) as [Ev Ev']; [lia|]. rewrite Ev, Ev'. pose proof Hfam as [Hp Hc Hap Hpg]. pose proof Hp as [Hf Ht Hown].
  eapply wp_eq; [apply (find_pte_ok v Ht)|]. destruct (entry T1 (pages s) v) as [w|] eqn:He.
  2: { cbn. apply (HK fl T), (copied_none He). }
  destruct (table_of T1 v) as [x|] eqn:Hx; [|unfold entry in He; by rewrite Hx in He].
  destruct (leaf_at v x Ht Hx) as (w0 & Hw0 & El & Hxr & Hent). rewrite He in Hent.
  destruct (PageTableEntry_is_valid w0) eqn:Hval; [|done]. injection Hent as <-.
  assert (Hx0 : 0 < x). { destruct (Hown _ _ Hx) as [Hm _]. pose proof (managed_range Hf x Hm). rewrite base_eq in *. lia. }
  pose proof (leaf_range v) as Hlf. rewrite (proj2 (Z.eqb_neq _ _)) by (rewrite pte_addr_eq by done; lia). cbn [negb].
  eapply wp_eq; [exact El|]. 
  assert (Hcons : exists f fl1, fl = f :: fl1) by (clear - Hl; destruct fl as [|f fl1]; [cbn in Hl; lia|by exists f, fl1]).
  destruct Hcons as (f & fl1 & Efl). pose proof Hf as Hf'. rewrite Efl in Hf'. pose proof Hc as Hc'. rewrite Efl in Hc'.
  destruct (Hpg v w ltac:(lia) He) as (Hw & (ws & Hws & Hlen) & Hwf & HwT). rewrite Efl in Hwf. destruct (pte_frame w Hw) as (_ & Hfw & ->).
  assert (Hfm : managed s f) by (apply (frames_free _ _ Hf'); by left). pose proof (managed_range Hf' f Hfm) as Hfr. rewrite base_eq in Hfr.
  pose proof (frames_nodup _ _ Hf') as [Hnf _]%NoDup_cons.
  assert (HfT : forall p, T !! p <> Some f) by (intros p Hx'; destruct (space_owned _ _ _ _ Hc' p f Hx') as [_ Hn]; apply Hn; by left).
  eapply wp_step; [apply (alloc_some _ _ _ Hf')|]. intros ? s1 (-> & Hf1 & E1 & B1). rewrite (proj2 (Z.eqb_neq _ _)), page_addr by lia.
  assert (Hne : f <> frame w) by (intros ->; apply Hwf; by left).
  eapply wp_eq; [apply copy_page_at; rewrite E1; [by rewrite lookup_insert_ne|by rewrite lookup_insert_eq]|].
  set (s2 := s1 <| pages := <[f := ws]> (pages s1) |>).
  assert (E2 : pages s2 = <[f := ws]> (pages s)) by (unfold s2; cbn; by rewrite E1, insert_insert_eq).
  assert (Hok2 : space_ok fl1 T root2 s2) by (apply space_filled; [by apply (space_alloc f fl1 T root2 s s1)|done..]).
  replace (phys_addr_from_size_t (f * 4096)) with (f * 4096).
  2: { symmetry. unfold phys_addr_from_size_t, PA_WIDTH_SV39. rewrite land_mask, Z.mod_small; lia. }
  destruct (copied_flags w) as [Hfl _]; [lia|done|].
  assert (En : u64 (v * 4096 + PAGE_SIZE - 1) / PAGE_SIZE - floor_virts (v * 4096) + 1 = 1).
  { rewrite Ev'. unfold u64, PAGE_SIZE. rewrite (Z.mod_small _ (2 ^ 64)) by lia. rewrite <- Z.add_sub_assoc, Z.div_add_l by done. change ((4096 - 1) / 4096) with 0. lia. }
  assert (Ent2 : forall u, entry T (pages s2) u = entry T (pages s) u).
  { intros u. apply entry_ext. intros p y Hy. rewrite E2. apply lookup_insert_ne. intros <-. by eapply HfT. }
  pose proof (map_ok fl1 T root2 s2 (v * 4096) (f * 4096) PAGE_SIZE (u8 (PTE_FLAGS w))) as Hmap. cbv zeta in Hmap. rewrite En, Ev' in Hmap.
  assert (Eff : floor_phys (f * 4096) = f) by (unfold floor_phys, PAGE_SIZE; by apply Z.div_mul). rewrite Eff in Hmap.
  eapply wp_step; [apply Hmap; [done|lia|done|unfold PAGE_SIZE; lia|lia|lia|done|pose proof Hl as Hl'; rewrite Efl in Hl'; cbn in Hl'; lia|]|].
  { intros u Hu. rewrite Ent2. by replace u with v by lia. }
  intros ? s3 (fl3 & T3 & Hm). apply (HK fl3 T3). eapply (copied_some f fl1 w ws); [done|done|done|]. exists s2. split; [done|]. split; [done|].
  eapply maps_eq; [exact Hm|]. intros u _. cbn beta. by rewrite Ent2.
Qed.
End one.

Lemma copy_loop_ok n fl T s v :
  family fl T s v (v + Z.of_nat n) -> 0 <= v -> v + Z.of_nat n < 2 ^ 27 -> 3 * Z.of_nat n <= len fl ->
  (forall u, v <= u < v + Z.of_nat n -> entry T (pages s) u = None) ->
  wp (fun r s' => r = 0 /\ exists fl' T', copied fl T s v (v + Z.of_nat n) fl' T' s') (copy_loop n root1 root2 (v * PAGE_SIZE) s).
Proof.
  revert fl T s v. induction n as [|n IH]; intros fl T s v Hfam Hv Hn Hl He; cbn [copy_loop].
  - cbn [wp mret M_ret]. split; [done|]. exists fl, T. split; [apply Hfam| | |done|done|by left|by exists 0%nat|lia|done|done|by left]; intros; lia.
  - pose proof Hfam as [Hp Hc Hap Hpg].
    apply (copy_one (fl := fl) (T := T) (v := v)); [|lia|lia|apply He; lia|].
    { split; try done. intros u w Hu. apply Hpg. lia. }
    intros fl1 T2 s1 H1. replace (v * PAGE_SIZE + PAGE_SIZE) with ((v + 1) * PAGE_SIZE) by lia.
    eapply wp_mono; [|apply (IH fl1 T2 s1 (v + 1))].
    + intros r s2 (-> & fl2 & T3 & H2). split; [done|]. exists fl2, T3. replace (v + 1 + Z.of_nat n) with (v + Z.of_nat (S n)) in H2 by lia.
      eapply copied_trans; [exact Hp|exact Hap| | |exact H1|exact H2|]; [lia|lia|]. intros u w Hu Hw. by destruct (Hpg u w Hu Hw) as (_ & _ & ?).
    + replace (v + 1 + Z.of_nat n) with (v + Z.of_nat (S n)) by lia. eapply family_copied; [exact Hfam|lia|exact H1].
    + lia.
    + lia.
    + pose proof (copied_left _ _ _ _ _ _ _ _ H1). lia.
    + intros u Hu. rewrite (copied_out _ _ _ _ _ _ _ _ H1) by (lia || (left; lia)). apply He. lia.
Qed.

(** The loop of [uvmcopy] also visits the page at [sz]. *)
Lemma uvmcopy_ok fl T s sz :
  let n := sz / PAGE_SIZE + 1 in
  family fl T s 0 n -> 0 <= sz -> n < 2 ^ 27 -> 3 * n <= len fl -> (forall u, 0 <= u < n -> entry T (pages s) u = None) ->
  wp (fun r s' => r = 0 /\ exists fl' T', copied fl T s 0 n fl' T' s') (uvmcopy root1 root2 sz s).
Proof.
  intros n Hfam Hsz Hn Hl He. unfold uvmcopy. assert (0 <= sz / PAGE_SIZE) by (apply Z.div_pos; [done|done]).
  assert (E : Z.of_nat (Z.to_nat (sz / PAGE_SIZE) + 1) = n) by lia.
  pose proof (copy_loop_ok (Z.to_nat (sz / PAGE_SIZE) + 1) fl T s 0) as H'. rewrite E in H'. by apply H'.
Qed.
End copy.
