(* ===== verification/VmProps.v ===== *)
(** * Virtual memory: the properties and their witnesses *)

From S2P Require Import Prelude Paging Frames PageTree PageSpace.

(** ** A process with one page, and the root of its child *)

(** A page of zeros is an empty page table. *)
Lemma new_space p fl s :
  frames_ok (p :: fl) s ->
  wp (fun r s' => r = p /\ space_ok fl {[ [] := p ]} p s' /\ pages s' = <[p := zero_page]> (pages s) /\ bounds s s' /\
        forall v, entry {[ [] := p ]} (pages s') v = None) (kalloc s).
Proof.
  intros Hok. assert (Hm : managed s p) by (apply (frames_free _ _ Hok); by left).
  pose proof (managed_range Hok p Hm) as Hr. rewrite base_eq in Hr. pose proof (frames_nodup _ _ Hok) as [Hn _]%NoDup_cons.
  eapply wp_mono; [|by apply alloc_some]. intros r s' (-> & H1 & H2 & H3). split; [done|].
  assert (Hone : forall (q : list Z) x, ({[ [] := p ]} : gmap (list Z) Z) !! q = Some x -> q = [] /\ x = p)
    by (intros q x [<- <-]%lookup_singleton_Some; by split).
  split_and!; [|done|done|intros v; unfold entry, table_of; by rewrite lookup_singleton_ne]. split; [done| |].
  - split.
    + apply lookup_singleton_eq.
    + by intros q q' x [-> _]%Hone [-> _]%Hone.
    + intros q x [-> ->]%Hone. split; [|lia]. rewrite H2. exists zero_page. by rewrite lookup_insert_eq.
    + intros q x [-> _]%Hone. cbn. lia.
    + intros q i y [E _]%Hone. by destruct q.
    + intros q x i w [-> ->]%Hone _ Hi Hw. cbn [app]. rewrite lookup_singleton_ne by done.
      unfold word in Hw. rewrite H2, lookup_insert_eq in Hw. apply lookup_replicate_1 in Hw as [-> _]. done.
  - intros q x [-> ->]%Hone. split; [by apply (bounds_managed s s')|done].
Qed.

Definition demo_start : vm :=
  Vm (list_to_map ((fun p => (p, zero_page)) <$> seqZ base 16)) (Allocator base (base + 16) 0 0 (replicate 16 0)).

Lemma demo_empty : exists s, frames_ok [] s /\ start (allocator s) = base /\ end_ (allocator s) = base + 16.
Proof.
  exists demo_start. split; [|done].
  split; rewrite ?page_count; cbn [demo_start allocator start end_ freelist free_pages free_map]; try done.
  - intros p Hp. exists zero_page. split; [|done]. cbn [demo_start pages]. apply elem_of_list_to_map_1.
    + rewrite <- list_fmap_compose, (list_fmap_ext _ id), list_fmap_id by done. apply NoDup_seqZ.
    + apply list_elem_of_fmap. exists p. split; [done|]. by apply elem_of_seqZ.
  - intros p ?%not_elem_of_nil. done.
  - apply NoDup_nil_2.
  - intros p Hp. rewrite decide_False by apply not_elem_of_nil. apply lookup_replicate_2.
    unfold managed in Hp. cbn in Hp. unfold map_index. fold base. rewrite base_eq in *. lia.
Qed.

Lemma demo_frames : exists s, frames_ok (seqZ base 16) s.
Proof.
  destruct demo_empty as (s0 & Hok & E1 & E2). pose proof (init_loop_ok 16 [] s0 Hok) as H. rewrite E1, E2 in H.
  destruct (wp_exists _ _ (H ltac:(intros q ?%not_elem_of_nil; done) ltac:(lia))) as (? & s & _ & H1 & _).
  exists s. by rewrite app_nil_r in H1.
Qed.

Lemma entry_alloc f fl T root s m v :
  space_ok (f :: fl) T root s -> entry T (<[f := m]> (pages s)) v = entry T (pages s) v.
Proof.
  intros [_ _ Hown]. apply entry_ext. intros p x Hx. apply lookup_insert_ne. intros <-. destruct (Hown p f Hx) as [_ Hn]. apply Hn. by left.
Qed.

Lemma demo_process f r fl s :
  frames_ok (f :: r :: fl) s -> (9 <= length fl)%nat ->
  exists fl1 T1 s1, space_ok fl1 T1 r s1 /\ (7 <= length fl1)%nat /\ managed s1 f /\ f ∉ fl1 /\ (forall p, T1 !! p <> Some f) /\
    forall v, 0 <= v < 2 ^ 27 -> entry T1 (pages s1) v = if decide (v = 0) then Some (PageTableEntry_new f 0x17) else None.
Proof.
  intros Hok Hl. assert (Hm : managed s f) by (apply (frames_free _ _ Hok); by left).
  pose proof (managed_range Hok f Hm) as Hr. rewrite base_eq in Hr. pose proof (frames_nodup _ _ Hok) as [Hn [Hn2 _]%NoDup_cons]%NoDup_cons.
  destruct (wp_exists _ _ (alloc_some _ _ _ Hok)) as (? & s1 & _ & -> & H1 & _ & B1).
  destruct (wp_exists _ _ (new_space _ _ _ H1)) as (? & s2 & _ & -> & H2 & _ & B2 & He).
  assert (Ef : floor_phys (f * 4096) = f) by (by apply Z.div_mul).
  pose proof (map_ok fl {[ [] := r ]} r s2 0 (f * 4096) 4096 0x16 H2) as H. cbv zeta in H.
  change (u64 (0 + 4096 - 1) / PAGE_SIZE - floor_virts 0 + 1) with 1 in H. change (floor_virts 0) with 0 in H. rewrite Ef in H.
  destruct (wp_exists _ _ (H ltac:(done) ltac:(done) ltac:(done) ltac:(lia) ltac:(lia) ltac:(done) ltac:(lia) ltac:(intros; apply He)))
    as (? & s3 & _ & fl3 & T3 & [M1 M2 _ M4 _ [n M5] M6 M7]).
  exists fl3, T3, s3. split_and!; [done|lia| | | |].
  - apply (bounds_managed s2 s3 f M7), (bounds_managed s1 s2 f B2), (bounds_managed s s1 f B1), Hm.
  - rewrite M5. intros ?%drop_in. apply Hn. by right.
  - intros p Hp. destruct (M4 p f Hp) as [[_ ->]%lookup_singleton_Some|Hin]; apply Hn; [by left|by right].
  - intros v Hv. rewrite M2, He by done. unfold mapped_pages. destruct (decide (0 <= v < 0 + 1)), (decide (v = 0)); try lia; [|done].
    subst v. by rewrite Z.add_0_r.
Qed.

Lemma demo_family f r fl s :
  frames_ok (f :: r :: fl) s -> (9 <= length fl)%nat ->
  exists fl1 T1 T2 q s1, family (T1 := T1) (root1 := r) (root2 := q) fl1 T2 s1 0 2 /\ process_space fl1 T1 r s1 4096 /\ 6 <= len fl1 /\
    (forall v, entry T2 (pages s1) v = None) /\ entry T1 (pages s1) 0 = Some (PageTableEntry_new f 0x17).
Proof.
  intros Hok Hl. assert (Hm0 : managed s f) by (apply (frames_free _ _ Hok); by left).
  pose proof (managed_range Hok f Hm0) as Hr. rewrite base_eq in Hr. clear Hm0.
  destruct (demo_process f r fl s Hok Hl) as (fl1 & T1 & s1 & H1 & Hl1 & Hm & Hf & HT & He). clear Hok.
  destruct fl1 as [|q fl1]; [cbn in Hl1; lia|]. pose proof H1 as [Hfr1 Ht1 Hown1].
  destruct (wp_exists _ _ (new_space _ _ _ Hfr1)) as (? & s2 & _ & -> & H2 & E2 & B2 & He2).
  assert (H1' : space_ok fl1 T1 r s2) by (apply (space_alloc q fl1 T1 r s1 s2); [done|apply H2|done..]).
  assert (Hent : forall v, 0 <= v < 2 ^ 27 -> entry T1 (pages s2) v = if decide (v = 0) then Some (PageTableEntry_new f 0x17) else None)
    by (intros v Hv; by rewrite E2, (entry_alloc q fl1 T1 r), He).
  assert (Hm2 : managed s2 f) by by apply (bounds_managed s1 s2).
  assert (Hff : frame (PageTableEntry_new f 0x17) = f) by (apply frame_new; lia).
  assert (Hw : 0 <= PageTableEntry_new f 0x17 < 2 ^ 54) by (rewrite pte_new; lia).
  assert (Hfl : f ∉ fl1) by (intros ?; apply Hf; by right).
  assert (Hent' : forall v w, 0 <= v < 2 -> entry T1 (pages s2) v = Some w -> v = 0 /\ w = PageTableEntry_new f 0x17)
    by (intros v w Hv; rewrite Hent by lia; case_decide; by intros [= <-]).
  exists fl1, T1, {[ [] := q ]}, q, s2. split_and!; [| |cbn in Hl1; lia|done|by rewrite Hent].
  - split; [done|done| |].
    + intros p p' x Hp [_ <-]%lookup_singleton_Some. destruct (Hown1 p q Hp) as [_ Hn]. apply Hn. by left.
    + intros v w Hv [-> ->]%Hent'; [|done]. rewrite Hff. split_and!; [lia|lia|by apply (frames_mem _ _ (space_frames _ _ _ _ H2))|done|].
      intros p [_ <-]%lookup_singleton_Some. apply Hf. by left.
  - split; [done|done| |].
    + intros v Hv Hsz Hne. rewrite Hent in Hne by done. change (4096 / PAGE_SIZE) with 1 in Hsz. rewrite decide_False in Hne by lia. done.
    + change (4096 / PAGE_SIZE) with 1. split.
      * intros v w Hv [-> ->]%Hent'; [|lia]. by rewrite Hff.
      * intros v v' w w' Hv Hv' _ _ _. lia.
Qed.

Lemma demo_pages : exists s, frames_ok (base :: base + 1 :: seqZ (base + 2) 14) s.
Proof. exact demo_frames. Qed.

(** ** The allocator *)

Inductive frame_op := Alloc | Free (p : Z).

Definition run_op (o : frame_op) : M vm Z := match o with Alloc => kalloc | Free p => kfree p;; mret p end.
Fixpoint run_ops (l : list frame_op) : M vm (list Z) :=
  match l with [] => mret [] | o :: l => r ← run_op o; rs ← run_ops l; mret (r :: rs) end.

(** The specification: a set of free pages between [lo] and [hi].  Only a free
    page is given out, and freeing a page that is free already or is not the
    allocator's changes nothing. *)
Inductive spec_op (lo hi : Z) (F : gset Z) : frame_op -> Z -> gset Z -> Prop :=
| spec_alloc p : p ∈ F -> spec_op lo hi F Alloc p (F ∖ {[p]})
| spec_none : F = ∅ -> spec_op lo hi F Alloc 0 F
| spec_free p : lo <= p < hi -> spec_op lo hi F (Free p) p (F ∪ {[p]})
| spec_ignored p : ~ lo <= p < hi -> spec_op lo hi F (Free p) p F.
Inductive spec_ops (lo hi : Z) : gset Z -> list frame_op -> list Z -> gset Z -> Prop :=
| spec_nil F : spec_ops lo hi F [] [] F
| spec_cons F o r F1 l rs F2 : spec_op lo hi F o r F1 -> spec_ops lo hi F1 l rs F2 -> spec_ops lo hi F (o :: l) (r :: rs) F2.

Lemma frame_op_ok o fl s :
  frames_ok fl s ->
  wp (fun r s' => exists fl', frames_ok fl' s' /\ bounds s s' /\
        spec_op (start (allocator s)) (end_ (allocator s)) (list_to_set fl) o r (list_to_set fl')) (run_op o s).
Proof.
  intros Hok. destruct o as [|p]; cbn [run_op].
  - destruct fl as [|p fl].
    + rewrite (alloc_none s Hok). exists []. split_and!; [done|done|]. by apply spec_none.
    + eapply wp_mono; [|by apply alloc_some]. intros r s' (-> & H1 & _ & H2). exists fl. split_and!; [done|done|].
      pose proof (frames_nodup _ _ Hok) as [Hn _]%NoDup_cons.
      replace (list_to_set fl : gset Z) with ((list_to_set (p :: fl) : gset Z) ∖ {[p]}) by set_solver. apply spec_alloc. set_solver.
  - destruct (decide (managed s p)) as [Hm|Hm]; [destruct (decide (p ∈ fl)) as [Hp|Hp]|].
    + eapply wp_eq; [apply (free_ignored fl); [done|by left]|]. cbn. exists fl. split_and!; [done|done|].
      replace (list_to_set fl : gset Z) with ((list_to_set fl : gset Z) ∪ {[p]}) at 2 by set_solver. by apply spec_free.
    + eapply wp_step; [by apply (free_ok fl s p)|]. intros ? s' (H1 & _ & H2). cbn. exists (p :: fl). split_and!; [done|done|].
      replace (list_to_set (p :: fl) : gset Z) with ((list_to_set fl : gset Z) ∪ {[p]}) by set_solver. by apply spec_free.
    + eapply wp_eq; [apply (free_ignored fl); [done|by right]|]. cbn. exists fl. split_and!; [done|done|]. by apply spec_ignored.
Qed.

(** C15: the allocator of physical pages refines a set of free pages: every
    sequence of [kalloc] and [kfree] returns what the set allows, so that a
    page is never given out twice, freed twice, or lost. *)
Theorem frames_refine_set ops fl s :
  frames_ok fl s ->
  exists rs s' fl', run_ops ops s = Ret rs s' /\ frames_ok fl' s' /\
    spec_ops (start (allocator s)) (end_ (allocator s)) (list_to_set fl) ops rs (list_to_set fl').
Proof.
  revert fl s. induction ops as [|o ops IH]; intros fl s Hok; cbn [run_ops].
  - exists [], s, fl. split_and!; [done|done|constructor].
  - pose proof (frame_op_ok o fl s Hok) as H. apply wp_exists in H as (r & s1 & E1 & fl1 & H1 & [B1 B2] & Hs1).
    destruct (IH fl1 s1 H1) as (rs & s2 & fl2 & E2 & H2 & Hs2). exists (r :: rs), s2, fl2.
    rewrite (mbind_ret _ _ _ _ _ E1), (mbind_ret _ _ _ _ _ E2). split_and!; [done|done|]. rewrite B1, B2 in Hs2. by econstructor.
Qed.
Lemma frames_refine_set_witness : exists s rs s' F,
  frames_ok (base :: base + 1 :: seqZ (base + 2) 14) s /\ run_ops [Alloc; Alloc; Free base; Free base; Alloc] s = Ret rs s' /\
  spec_ops (start (allocator s)) (end_ (allocator s)) (list_to_set (base :: base + 1 :: seqZ (base + 2) 14))
    [Alloc; Alloc; Free base; Free base; Alloc] rs F.
Proof.
  destruct demo_pages as [s Hok]. destruct (frames_refine_set [Alloc; Alloc; Free base; Free base; Alloc] _ s Hok) as (rs & s' & fl' & E & _ & Hs).
  by exists s, rs, s', (list_to_set fl').
Defined.

(** ** Mapping *)

Lemma leaf_new ppn fl : 0 <= ppn < 2 ^ 44 -> 0 <= fl < 1024 -> pte_leaf (PageTableEntry_new ppn fl) = pte_leaf fl.
Proof.
  intros Hp Hf. assert (H : forall k, 0 <= k < 1024 -> Z.land (ppn * 1024 + fl) k = Z.land fl k).
  { intros k Hk. replace k with (Z.land (Z.ones 10) k).
    2: { rewrite Z.land_comm, Z.land_ones, Z.mod_small; done. }
    rewrite !Z.land_assoc. f_equal. rewrite !Z.land_ones by done. change (2 ^ 10) with 1024. by rewrite Z.add_comm, Z_mod_plus_full. }
  unfold pte_leaf. rewrite !valid_odd, pte_new by done. rewrite !H by done. rewrite Z.odd_add, Z.odd_mul. by rewrite andb_false_r.
Qed.

(** C16: [PageTable_map] maps every page of the range to its physical page with
    the flags of the caller, as the page walk of the hardware sees it, and no
    other virtual page changes; it returns if the range is not mapped yet and
    there are two free pages for every page of it, and then no page outside of
    the tables changes, and every page that is free no longer is a table. *)
Theorem page_table_map_walk fl T root s va pa size flags :
  let vpn := floor_virts va in
  let n := u64 (va + size - 1) / PAGE_SIZE - vpn + 1 in
  space_ok fl T root s -> 0 <= va -> 0 < size -> va + size <= 2 ^ 39 -> 0 <= pa -> floor_phys pa + n <= 2 ^ 44 ->
  0 <= flags < 256 -> pte_leaf (Z.lor PTE_V flags) = true -> 2 * n <= len fl ->
  (forall v, vpn <= v < vpn + n -> entry T (pages s) v = None) ->
  exists s' fl' T', PageTable_map root va pa size flags s = Ret () s' /\ space_ok fl' T' root s' /\ untouched fl T (pages s) (pages s') /\
    (forall q, q ∈ fl -> q ∈ fl' \/ exists p, T' !! p = Some q) /\
    forall v, 0 <= v < 2 ^ 27 -> sv39_walk (pages s') root v =
      if decide (vpn <= v < vpn + n) then Some (PageTableEntry_new (floor_phys pa + (v - vpn)) (Z.lor PTE_V flags))
      else sv39_walk (pages s) root v.
Proof.
  intros vpn n Hok Hva Hsz Hvs Hpa Hpn Hf Hleaf Hl He.
  pose proof (map_ok fl T root s va pa size flags Hok Hva Hsz Hvs Hpa Hpn Hf Hl He) as H. apply wp_exists in H as ([] & s' & E & fl' & T' & [M1 M2 M3 _ _ _ _ _ M9]).
  exists s', fl', T'. split_and!; [done|done|done|done|]. intros v Hv. rewrite (walk_entry v (space_tables _ _ _ _ M1)), M2 by done.
  fold vpn n. unfold mapped_pages. destruct (decide (vpn <= v < vpn + n)); [|by rewrite (walk_entry v (space_tables _ _ _ _ Hok))].
  cbn. destruct (flags_ok flags Hf) as [Hfr _]. rewrite leaf_new, Hleaf; [done| |done].
  assert (0 <= floor_phys pa) by (apply Z.div_pos; [done|done]). lia.
Qed.
Lemma page_table_map_walk_witness : exists s root s',
  PageTable_map root 0x10000 0x80400000 0x2000 (Z.lor PTE_R PTE_X) s = Ret () s' /\
  sv39_walk (pages s') root 0x11 = Some (PageTableEntry_new 0x80401 (Z.lor PTE_V (Z.lor PTE_R PTE_X))).
Proof.
  destruct demo_pages as [s Hok]. destruct (wp_exists _ _ (new_space _ _ _ Hok)) as (root & s1 & _ & -> & Hsp & _ & _ & He).
  destruct (page_table_map_walk _ _ _ s1 0x10000 0x80400000 0x2000 (Z.lor PTE_R PTE_X) Hsp) as (s2 & fl' & T' & E & _ & _ & _ & Hw);
    [done|done|done|done|done|done|done|done|intros v _; apply He|].
  exists s1, base, s2. split; [exact E|]. by rewrite Hw.
Defined.

(** ** Processes *)

(** C17: [proc_freepagetable] returns and gives back every page of the process:
    the free pages afterwards are those that were free before, the pages of the
    tables, and the pages that were mapped below its size; all other pages are
    as they were. *)
Theorem process_memory_returned fl T root s sz :
  process_space fl T root s sz ->
  exists s' fl', proc_freepagetable root sz s = Ret () s' /\ frames_ok fl' s' /\
    (forall q, q ∈ fl' <-> q ∈ fl \/ belongs T s sz q) /\ (forall q, q ∉ fl' -> pages s' !! q = pages s !! q).
Proof.
  intros Hp. pose proof (teardown_ok fl T root s sz Hp) as H. apply wp_exists in H as ([] & s' & E & fl' & H1 & H2 & H3 & _).
  exists s', fl'. by split_and!.
Qed.
Lemma process_memory_returned_witness : exists (fl : list Z) T root s s' fl',
  entry T (pages s) 0 = Some (PageTableEntry_new base 0x17) /\ proc_freepagetable root 4096 s = Ret () s' /\ frames_ok fl' s' /\
  forall q, q ∈ fl' <-> q ∈ fl \/ belongs T s 4096 q.
Proof.
  destruct demo_pages as [s Hok]. destruct (demo_family _ _ _ s Hok) as (fl1 & T1 & T2 & q & s1 & _ & Hp & _ & _ & He); [by apply Nat.leb_le|].
  destruct (process_memory_returned fl1 T1 _ s1 4096 Hp) as (s' & fl' & E & H1 & H2 & _). by exists fl1, T1, (base + 1), s1, s', fl'.
Defined.

(** C19: with enough free pages [uvmcopy] succeeds: every page that the parent
    has mapped up to its size is mapped in the child at the same address, with
    the same flags and the same contents, to a page of its own that was free
    before; the pages of the parent and of everybody else do not change, and no
    page is lost: what is free no longer is a table or a page of the child. *)
Theorem uvmcopy_copies T1 root1 root2 fl T s sz :
  let n := sz / PAGE_SIZE + 1 in
  family (T1 := T1) (root1 := root1) (root2 := root2) fl T s 0 n -> 0 <= sz -> n < 2 ^ 27 -> 3 * n <= len fl ->
  (forall u, 0 <= u < n -> entry T (pages s) u = None) ->
  exists s' fl' T', uvmcopy root1 root2 sz s = Ret 0 s' /\ space_ok fl' T' root2 s' /\
    (forall v w, 0 <= v < n -> entry T1 (pages s) v = Some w ->
       exists w', entry T' (pages s') v = Some w' /\ PageTableEntry_flags w' = PageTableEntry_flags w /\
         frame w' ∈ fl /\ frame w' ∉ fl' /\ pages s' !! frame w' = pages s !! frame w) /\
    (forall v v' w w', 0 <= v < n -> 0 <= v' < n -> entry T' (pages s') v = Some w -> entry T' (pages s') v' = Some w' ->
       frame w = frame w' -> v = v') /\
    (forall v, 0 <= v < n -> entry T1 (pages s) v = None -> entry T' (pages s') v = None) /\
    untouched fl T (pages s) (pages s') /\
    forall q, q ∈ fl -> q ∈ fl' \/ (exists p, T' !! p = Some q) \/ exists v w, 0 <= v < n /\ entry T' (pages s') v = Some w /\ frame w = q.
Proof.
  intros n Hfam Hsz Hn Hl He. pose proof (uvmcopy_ok fl T s sz Hfam Hsz Hn Hl He) as H. fold n in H.
  apply wp_exists in H as (r & s' & E & -> & fl' & T' & [C1 C2 C3 C4 C5 _ _ _ _ _ C11]). exists s', fl', T'. split_and!; [done|done| | | |done|done].
  - intros v w Hv Hw. destruct (C2 v w Hv Hw) as (w' & H1 & H2 & H3 & H4 & _ & H5). by exists w'.
  - intros v v' w w' Hv Hv' Hw Hw'. apply (C3 v v' w w'); try done; intros Hnone.
    + rewrite C4, He in Hw by (done || lia || by right). done.
    + rewrite C4, He in Hw' by (done || lia || by right). done.
  - intros v Hv Hnone. rewrite C4 by (done || lia || by right). by apply He.
Qed.
Lemma uvmcopy_copies_witness : exists T1 root1 root2 s s' T' w',
  entry T1 (pages s) 0 = Some (PageTableEntry_new base 0x17) /\ uvmcopy root1 root2 4096 s = Ret 0 s' /\
  entry T' (pages s') 0 = Some w' /\ PageTableEntry_flags w' = 0x17 /\ pages s' !! frame w' = pages s !! base.
Proof.
  destruct demo_pages as [s Hok]. destruct (demo_family _ _ _ s Hok) as (fl1 & T1 & T2 & q & s1 & Hf & _ & Hl & He2 & He); [by apply Nat.leb_le|].
  destruct (uvmcopy_copies T1 _ q fl1 T2 s1 4096 Hf) as (s' & fl' & T' & E & _ & Hc & _); [done|done|exact Hl|intros u _; apply He2|].
  destruct (Hc 0 _ ltac:(done) He) as (w' & H1 & H2 & _ & _ & H3). by exists T1, (base + 1), q, s1, s', T', w'.
Defined.
