(* ===== verification/Task.v ===== *)
(** * Tasks and the scheduler (src/kernel/src/task.c)

    The state is the table of tasks, the processors, and the memory of
    Paging.v.  What runs under [task_lock] is one step: a call of [__switch]
    leaves such a section to the scheduler, which releases the lock.  The saved
    registers and the kernel stack of a task are the point of the code where it
    goes on, [context].  The interrupts that wake idle processors, the flushing
    of the TLBs, the output and the self tests are left out; [panic] is [stuck],
    and so is an overflow of the counter of the process identifiers.

    The symbol [trampoline] and the registers that [app_init] stores are
    parameters. *)

From S2P Require Import Prelude Sys Paging.

Definition MAX_TASKS : nat := 10.
Definition MAX_CPUS : nat := 7.
Definition WAIT_FOREVER : Z := 2 ^ 64 - 1.
Definition KSTACK (p : Z) : Z := TRAMPOLINE - (p + 1) * 2 * PAGE_SIZE.
Definition PTE_U : Z := 16.

Inductive TaskState := UnInit | Creating | Ready | Running | Sleeping | Zombie.
#[global] Instance TaskState_eq_dec : EqDecision TaskState.
Proof. solve_decision. Defined.

(** [&tasks[i].child_exit.wait], or the address of another wait queue. *)
Inductive channel := child_exit_of (i : nat) | channel_at (a : Z).
#[global] Instance channel_eq_dec : EqDecision channel.
Proof. solve_decision. Defined.

(** Where a task goes on. *)
Inductive context :=
| FirstRun                                  (* [task_first_run] *)
| Normal                                    (* outside the functions of this file *)
| InSleep                                   (* in [task_sleep] for another module *)
| InFork (np : nat)                         (* [__sys_fork], with the child reserved *)
| WaitScan                                  (* [wait], at the head of its loop *)
| WaitSem                                   (* [wait], before [sem_wait] *)
| WaitAsleep                                (* [wait], in the [task_sleep] of [sem_wait] *)
| WaitWoken (result : Z)                    (* [wait], after that [task_sleep] *)
| ExitRead (code : Z)                       (* [lock_parent_exit], at the head of its loop *)
| ExitLock (code : Z) (parent : option nat). (* ... with the parent it has read *)

Record TaskControlBlock := Tcb {
  task_state : TaskState; pid : Z; parent : option nat; task_context : context; trap_cx_ppn : Z; base_size : Z;
  kstack : Z; ustack : Z; entry : Z; kernel_entry : Z; kernel_arg : Z; pagetable : Z; exit_code : Z; last_hart : Z;
  wait_channel : option channel; wait_deadline : Z; wait_result : Z; child_exit : semaphore }.
#[global] Instance tcb_settable : Settable TaskControlBlock := fun r =>
  Tcb (task_state r) (pid r) (parent r) (task_context r) (trap_cx_ppn r) (base_size r) (kstack r) (ustack r) (entry r)
    (kernel_entry r) (kernel_arg r) (pagetable r) (exit_code r) (last_hart r) (wait_channel r) (wait_deadline r)
    (wait_result r) (child_exit r).

Record cpu := Cpu { hartid : Z; present : bool; online : bool; proc : option nat; idle : bool; need_resched : bool }.
#[global] Instance cpu_settable : Settable cpu := fun r =>
  Cpu (hartid r) (present r) (online r) (proc r) (idle r) (need_resched r).

Record kernel := Kernel {
  memory : vm; tasks : list TaskControlBlock; cpus : list cpu; task_count : Z; nextpid : Z;
  migration_count : Z; migration_reported : bool }.
#[global] Instance kernel_settable : Settable kernel := fun r =>
  Kernel (memory r) (tasks r) (cpus r) (task_count r) (nextpid r) (migration_count r) (migration_reported r).

Definition memory_lens : lens kernel vm := Lens memory (fun m k => k <| memory := m |>).
Definition on_mem {A} (m : M vm A) : M kernel A := zoom memory_lens m.

Definition load_task (i : nat) : M kernel TaskControlBlock := k ← get; deref (tasks k !! i).
Definition store_task (i : nat) (f : TaskControlBlock -> TaskControlBlock) : M kernel unit :=
  load_task i;; modify (fun k => k <| tasks := alter f i (tasks k) |>).
Definition load_cpu (c : nat) : M kernel cpu := k ← get; deref (cpus k !! c).
Definition store_cpu (c : nat) (f : cpu -> cpu) : M kernel unit :=
  load_cpu c;; modify (fun k => k <| cpus := alter f c (cpus k) |>).
Definition jump (i : nat) (x : context) : M kernel unit := store_task i (fun t => t <| task_context := x |>).

(** ** Creating tasks *)

Section code.
Context (trampoline kernel_satp trap_handler sstatus : Z).

Definition task_reset_wait (p : TaskControlBlock) : TaskControlBlock :=
  p <| wait_channel := None |> <| wait_deadline := WAIT_FOREVER |> <| wait_result := 0 |>
    <| child_exit := default (child_exit p) (sem_init 0) |>.

Definition allocpid_locked : M kernel Z :=
  k ← get;
  if nextpid k =? INT_MAX then stuck
  else modify (fun k => k <| nextpid := nextpid k + 1 |>);; mret (nextpid k).
Definition allocpid : M kernel Z := allocpid_locked.

Definition procinit : M kernel unit :=
  modify (fun k => k <| task_count := 0 |> <| nextpid := 0 |> <| migration_count := 0 |> <| migration_reported := false |>
    <| tasks := (fun p => task_reset_wait (p <| task_state := UnInit |> <| last_hart := -1 |> <| kernel_entry := 0 |>
                            <| kernel_arg := 0 |>)) <$> tasks k |>).

Fixpoint mapstacks_loop (n : nat) (i : nat) (kpgtbl : Z) : M kernel unit :=
  match n with
  | O => mret ()
  | S n =>
      ppn ← on_mem kalloc;
      if ppn =? 0 then stuck
      else
        let va := KSTACK (Z.of_nat i) in
        on_mem (PageTable_map kpgtbl (virt_addr_from_size_t va) (phys_addr_from_phys_page_num ppn) PAGE_SIZE (Z.lor PTE_R PTE_W));;
        store_task i (fun p => p <| kstack := va + PAGE_SIZE |>);;
        mapstacks_loop n (S i) kpgtbl
  end.
Definition proc_mapstacks (kpgtbl : Z) : M kernel unit := mapstacks_loop MAX_TASKS 0 kpgtbl.

Definition proc_trap (i : nat) : M kernel unit :=
  ppn ← on_mem kalloc;
  if ppn =? 0 then stuck else store_task i (fun p => p <| trap_cx_ppn := phys_addr_from_phys_page_num ppn |>).

Definition proc_pagetable (i : nat) : M kernel unit :=
  root ← on_mem kalloc;
  if root =? 0 then stuck
  else
    on_mem (PageTable_map root (virt_addr_from_size_t TRAMPOLINE) (phys_addr_from_size_t trampoline) PAGE_SIZE (Z.lor PTE_R PTE_X));;
    p ← load_task i;
    on_mem (PageTable_map root (virt_addr_from_size_t TRAPFRAME) (phys_addr_from_size_t (trap_cx_ppn p)) PAGE_SIZE (Z.lor PTE_R PTE_W));;
    store_task i (fun p => p <| pagetable := root |>).

Definition proc_ustack (i : nat) : M kernel unit :=
  ppn ← on_mem kalloc;
  if ppn =? 0 then stuck
  else
    p ← load_task i;
    on_mem (PageTable_map (pagetable p) (virt_addr_from_size_t (u64 (ustack p - PAGE_SIZE)))
      (phys_addr_from_size_t (phys_addr_from_phys_page_num ppn)) PAGE_SIZE (Z.lor (Z.lor PTE_R PTE_W) PTE_U)).

Definition task_create_pt (app_id : nat) : M kernel nat :=
  if (MAX_TASKS <=? app_id)%nat then stuck
  else
    p ← load_task app_id;
    if negb (bool_decide (task_state p = UnInit)) then stuck
    else
      store_task app_id (fun p => task_reset_wait (p <| task_state := Creating |> <| last_hart := -1 |>));;
      proc_trap app_id;;
      proc_pagetable app_id;;
      mret app_id.

(** The registers of a [TrapContext], by the number of their word. *)
Definition store_reg (cx n w : Z) : M kernel unit := on_mem (store_word (cx + n * 8) w).
Definition cx_sp : Z := 2.
Definition cx_a0 : Z := 10.
Definition cx_sstatus : Z := 32.
Definition cx_sepc : Z := 33.
Definition cx_kernel_satp : Z := 34.
Definition cx_kernel_sp : Z := 35.
Definition cx_trap_handler : Z := 36.
Definition SSTATUS_SPP : Z := Z.shiftl 1 8.
Definition SSTATUS_SPIE : Z := Z.shiftl 1 5.

Definition app_init (app_id : nat) : M kernel unit :=
  p ← load_task app_id;
  let cx_ptr := trap_cx_ppn p in
  let status := Z.lor (Z.land sstatus (u64 (Z.lnot SSTATUS_SPP))) SSTATUS_SPIE in
  store_reg cx_ptr cx_sepc (entry p);;
  store_reg cx_ptr cx_sstatus status;;
  store_reg cx_ptr cx_sp (ustack p);;
  store_reg cx_ptr cx_kernel_satp kernel_satp;;
  store_reg cx_ptr cx_kernel_sp (kstack p);;
  store_reg cx_ptr cx_trap_handler trap_handler;;
  jump app_id FirstRun;;
  p ← load_task app_id;
  if negb (bool_decide (task_state p = Creating)) then stuck
  else
    id ← allocpid_locked;
    store_task app_id (fun p => p <| pid := id |> <| task_state := Ready |>);;
    modify (fun k => k <| task_count := task_count k + 1 |>).

(** The first entry of the table that is not used. *)
Definition free_task : M kernel (option nat) :=
  k ← get; mret (fst <$> list_find (fun p => task_state p = UnInit) (tasks k)).

Definition task_create_kernel (entry arg : Z) : M kernel Z :=
  if entry =? 0 then mret (-1)
  else
    task ← free_task;
    match task with
    | Some i =>
        store_task i (fun t => t <| task_state := Creating |>);;
        id ← allocpid_locked;
        store_task i (fun t => (task_reset_wait (t <| pid := id |> <| parent := None |> <| kernel_entry := entry |> <| kernel_arg := arg |>))
          <| task_context := FirstRun |> <| task_state := Ready |>);;
        modify (fun k => k <| task_count := task_count k + 1 |>);;
        mret 0
    | None => mret (-1)
    end.

Definition allocproc : M kernel (option nat) :=
  p ← free_task;
  match p with
  | Some i =>
      store_task i (fun t => t <| task_state := Creating |>);;
      id ← allocpid_locked;
      store_task i (fun t => task_reset_wait (t <| pid := id |> <| last_hart := -1 |>));;
      proc_trap i;;
      proc_pagetable i;;
      mret (Some i)
  | None => mret None
  end.

(** ** The scheduler *)

Definition current_proc (c : nat) : M kernel nat := x ← load_cpu c; deref (proc x).

Definition other_cpu_idle (hart : Z) (l : list cpu) : bool :=
  existsb (fun x => negb (Z.of_nat x.1 =? hart) && present x.2 && online x.2 && idle x.2) (imap pair l).

(** The loop of [pick_runnable]: a task to return at once, or the fallback. *)
Fixpoint pick_loop (hart : Z) (l : list TaskControlBlock) (i : nat) (fallback : option nat) : nat + option nat :=
  match l with
  | [] => inr fallback
  | p :: l =>
      if negb (bool_decide (task_state p = Ready)) then pick_loop hart l (S i) fallback
      else if (0 <=? last_hart p) && negb (last_hart p =? hart) then inl i
      else pick_loop hart l (S i) (match fallback with None => Some i | Some j => Some j end)
  end.
Definition pick_runnable (x : cpu) : M kernel (option nat) :=
  k ← get;
  match pick_loop (hartid x) (tasks k) 0 None with
  | inl i => mret (Some i)
  | inr None => mret None
  | inr (Some i) =>
      p ← load_task i;
      if (last_hart p =? hartid x) && other_cpu_idle (hartid x) (cpus k) then mret None else mret (Some i)
  end.

Fixpoint wake_loop (ch : channel) (wake_all : bool) (l : list TaskControlBlock) : list TaskControlBlock * Z :=
  match l with
  | [] => ([], 0)
  | p :: l =>
      if bool_decide (task_state p = Sleeping) && bool_decide (wait_channel p = Some ch) then
        let p := p <| wait_result := 0 |> <| task_state := Ready |> in
        if wake_all then let r := wake_loop ch wake_all l in (p :: r.1, 1 + r.2) else (p :: l, 1)
      else let r := wake_loop ch wake_all l in (p :: r.1, r.2)
  end.
Definition task_wake_locked (ch : channel) (wake_all : bool) : M kernel Z :=
  k ← get;
  let r := wake_loop ch wake_all (tasks k) in
  modify (fun k => k <| tasks := r.1 |>);;
  mret r.2.
Definition task_wake (ch : channel) (wake_all : bool) : M kernel Z := task_wake_locked ch wake_all.

Definition expired (now : Z) (p : TaskControlBlock) : TaskControlBlock :=
  if bool_decide (task_state p = Sleeping) && negb (wait_deadline p =? WAIT_FOREVER) && (wait_deadline p <=? now)
  then p <| wait_result := -1 |> <| task_state := Ready |> else p.
Definition task_wake_expired_locked (now : Z) : M kernel unit :=
  modify (fun k => k <| tasks := expired now <$> tasks k |>).

Definition SMP_SCHED_MIGRATIONS : Z := 100.
Definition record_migration (i : nat) (x : cpu) : M kernel unit :=
  p ← load_task i;
  when ((0 <=? last_hart p) && negb (last_hart p =? hartid x))
    (modify (fun k => k <| migration_count := u64 (migration_count k + 1) |>);;
     k ← get;
     when (negb (migration_reported k) && (SMP_SCHED_MIGRATIONS <=? migration_count k))
       (modify (fun k => k <| migration_reported := true |>)));;
  store_task i (fun p => p <| last_hart := hartid x |>).

(** One turn of [scheduler] up to [__switch] or [wfi]. *)
Definition scheduler_turn (c : nat) (now : Z) : M kernel (option nat) :=
  task_wake_expired_locked now;;
  x ← load_cpu c;
  p ← pick_runnable x;
  match p with
  | None => store_cpu c (fun x => x <| idle := true |>);; mret None
  | Some i =>
      store_cpu c (fun x => x <| idle := false |>);;
      record_migration i x;;
      store_task i (fun t => t <| task_state := Running |>);;
      store_cpu c (fun x => x <| proc := Some i |> <| need_resched := false |>);;
      mret (Some i)
  end.
(** ... and after [__switch] has returned to it. *)
Definition scheduler_back (c : nat) : M kernel unit := store_cpu c (fun x => x <| proc := None |>).

Definition schedule (c : nat) : M kernel unit :=
  i ← current_proc c;
  p ← load_task i;
  if negb (bool_decide (task_state p = Running)) then stuck
  else
    store_task i (fun t => t <| task_state := Ready |>);;
    store_cpu c (fun x => x <| need_resched := false |>);;
    scheduler_back c.

(** [task_sleep] up to [__switch] ... *)
Definition task_sleep_enter (c : nat) (ch : channel) (deadline : Z) : M kernel unit :=
  i ← current_proc c;
  p ← load_task i;
  if negb (bool_decide (task_state p = Running)) then stuck
  else
    store_task i (fun t => t <| wait_channel := Some ch |> <| wait_deadline := deadline |> <| wait_result := 0 |>
      <| task_state := Sleeping |>);;
    scheduler_back c.
(** ... and after it. *)
Definition task_sleep_leave (i : nat) : M kernel Z :=
  p ← load_task i;
  store_task i (fun t => t <| wait_channel := None |> <| wait_deadline := WAIT_FOREVER |>);;
  mret (wait_result p).

(** ** fork, exit and wait *)

(** [__sys_fork] after [allocproc]. *)
Definition fork_finish (i np : nat) : M kernel Z :=
  p ← load_task i;
  n ← load_task np;
  on_mem (uvmcopy (pagetable p) (pagetable n) (base_size p));;
  on_mem (copy_page (trap_cx_ppn n) (trap_cx_ppn p));;
  store_reg (trap_cx_ppn n) cx_a0 0;;
  store_reg (trap_cx_ppn n) cx_kernel_sp (kstack n);;
  store_task np (fun n => n <| entry := entry p |> <| base_size := base_size p |> <| ustack := ustack p |>
    <| task_context := FirstRun |>);;
  store_task np (fun n => n <| parent := Some i |> <| task_state := Ready |>);;
  modify (fun k => k <| task_count := task_count k + 1 |>);;
  mret (pid n).

Definition freeproc_locked (i : nat) : M kernel unit :=
  p ← load_task i;
  on_mem (proc_freepagetable (pagetable p) (base_size p));;
  when (negb (trap_cx_ppn p =? 0))
    (on_mem (kfree (floor_phys (phys_addr_from_size_t (trap_cx_ppn p))));;
     store_task i (fun p => p <| trap_cx_ppn := 0 |>));;
  store_task i (fun p => p <| pagetable := 0 |> <| base_size := 0 |> <| parent := None |> <| ustack := 0 |> <| entry := 0 |>
    <| kernel_entry := 0 |> <| kernel_arg := 0 |> <| exit_code := 0 |> <| last_hart := -1 |> <| wait_channel := None |>
    <| wait_deadline := WAIT_FOREVER |> <| wait_result := 0 |> <| task_state := UnInit |>).
Definition freeproc (i : nat) : M kernel unit := freeproc_locked i.

Definition children_proc_clear_locked (i : nat) : M kernel unit :=
  modify (fun k => k <| tasks := (fun child => if bool_decide (parent child = Some i) then child <| parent := Some 0%nat |> else child)
    <$> tasks k |>).

(** [exit_current_and_run_next] after [lock_parent_exit]. *)
Definition exit_locked (c i : nat) (par : nat) (code : Z) : M kernel unit :=
  store_task i (fun p => p <| exit_code := code |> <| task_state := Zombie |>);;
  children_proc_clear_locked i;;
  modify (fun k => k <| task_count := task_count k - 1 |>);;
  q ← load_task par;
  let r := sem_post (child_exit q) in
  store_task par (fun q => q <| child_exit := r.1 |>);;
  when r.2 (task_wake_locked (child_exit_of par) false;; mret ());;
  scheduler_back c.

(** The loop of [wait] over the children: a zombie, and whether there are any. *)
Fixpoint scan_loop (i : nat) (l : list TaskControlBlock) (j : nat) (havekids : bool) : option nat * bool :=
  match l with
  | [] => (None, havekids)
  | child :: l =>
      if negb (bool_decide (parent child = Some i)) then scan_loop i l (S j) havekids
      else if bool_decide (task_state child = Zombie) then (Some j, true)
      else scan_loop i l (S j) true
  end.
(** A turn of [wait] up to [sem_wait]; [None] if it goes on to that. *)
Definition wait_scan (i : nat) : M kernel (option Z) :=
  k ← get;
  match scan_loop i (tasks k) 0 false with
  | (Some j, _) => child ← load_task j; freeproc_locked j;; mret (Some (pid child))
  | (None, havekids) => mret (if havekids then None else Some (-1))
  end.

(** [sem_wait(&p->child_exit)]: the token is taken, or the task sleeps. *)
Definition child_sem_turn (c i : nat) : M kernel unit :=
  p ← load_task i;
  let r := sem_turn (child_exit p) in
  store_task i (fun p => p <| child_exit := r.1 |>);;
  if r.2 then jump i WaitScan
  else jump i WaitAsleep;; task_sleep_enter c (child_exit_of i) WAIT_FOREVER.

(** ** The machine

    What a processor does next: a turn of its scheduler, the preemption of its
    task, the next section of a function that its task is in, or a call of its
    task.  [Image] stands for what user programs and [exec] do to the memory
    and the address space of the task. *)
Inductive action :=
| Turn (now : Z) | Preempt | Continue
| Sleep (a deadline : Z) | Wake (a : Z) (wake_all : bool) | Spawn (entry arg : Z) | Fork | Wait | Exit (code : Z)
| Image (m : vm) (root size stack : Z).

Definition continue (c i : nat) (x : context) : M kernel unit :=
  match x with
  | Normal => stuck
  | FirstRun => jump i Normal
  | InSleep => task_sleep_leave i;; jump i Normal
  | InFork np => fork_finish i np;; jump i Normal
  | WaitScan => r ← wait_scan i; jump i (match r with Some _ => Normal | None => WaitSem end)
  | WaitSem => child_sem_turn c i
  | WaitAsleep => r ← task_sleep_leave i; jump i (WaitWoken r)
  | WaitWoken r =>
      store_task i (fun p => p <| child_exit := sem_wakened (child_exit p) |>);;
      if r <? 0 then jump i WaitScan else child_sem_turn c i
  | ExitRead code => p ← load_task i; jump i (ExitLock code (parent p))
  | ExitLock code par =>
      q ← deref par;
      p ← load_task i;
      if bool_decide (parent p = Some q) then exit_locked c i q code else jump i (ExitRead code)
  end.

(** A call of another function begins where the task is in none of them. *)
Definition call (c i : nat) (a : action) : M kernel unit :=
  match a with
  | Sleep a deadline => jump i InSleep;; task_sleep_enter c (channel_at a) deadline
  | Wake a wake_all => task_wake (channel_at a) wake_all;; mret ()
  | Spawn entry arg => task_create_kernel entry arg;; mret ()
  | Fork => np ← allocproc; match np with Some np => jump i (InFork np) | None => mret () end
  | Wait => jump i WaitScan
  | Exit code => p ← load_task i; if pid p =? 0 then stuck else jump i (ExitRead code)
  | Image m root size stack =>
      modify (fun k => k <| memory := m |>);;
      store_task i (fun p => p <| pagetable := root |> <| base_size := size |> <| ustack := stack |>)
  | _ => stuck
  end.

Definition run (c : nat) (a : action) : M kernel unit :=
  match a with
  | Turn now => x ← load_cpu c; match proc x with None => scheduler_turn c now;; mret () | Some _ => stuck end
  | Preempt => schedule c
  | _ =>
      i ← current_proc c;
      p ← load_task i;
      match a, task_context p with
      | Continue, x => continue c i x
      | a, Normal => call c i a
      | _, _ => stuck
      end
  end.

Fixpoint run_all (l : list (nat * action)) : M kernel unit :=
  match l with [] => mret () | (c, a) :: l => run c a;; run_all l end.

(** [os_main], as far as it concerns the tasks: the first task, whose image the
    loader makes. *)
Definition boot (m : vm) (root size stack start : Z) : M kernel unit :=
  procinit;;
  task_create_pt 0;;
  modify (fun k => k <| memory := m |>);;
  store_task 0 (fun p => p <| pagetable := root |> <| base_size := size |> <| ustack := stack |> <| entry := start |>);;
  app_init 0.
End code.
