(* ===== verification/TaskInv.v ===== *)
(** * The table of tasks: its invariant

    The invariant of the tasks and the processors, with the lemmas that the
    steps of the machine are made of. *)

From S2P Require Import Prelude Sys Paging Task.

(** [wlp Q r]: if the call returns, then with [Q]; a call that gets stuck stops
    the machine. *)
Definition wlp {S A} (Q : A -> S -> Prop) (r : res S A) : Prop := match r with Ret a s => Q a s | Stuck => True end.

Lemma wlp_step {S A B} (P : A -> S -> Prop) (Q : B -> S -> Prop) (m : M S A) (f : A -> M S B) s :
  wlp P (m s) -> (forall a s', P a s' -> wlp Q (f a s')) -> wlp Q ((m ≫= f) s).
Proof. unfold mbind, M_bind. destruct (m s); cbn; auto. Qed.
Lemma wlp_mono {S A} (Q Q' : A -> S -> Prop) r : (forall a s, Q a s -> Q' a s) -> wlp Q r -> wlp Q' r.
Proof. destruct r; cbn; auto. Qed.
Lemma wlp_eq {S A B} (Q : B -> S -> Prop) (m : M S A) (f : A -> M S B) s a s' :
  m s = Ret a s' -> wlp Q (f a s') -> wlp Q ((m ≫= f) s).
Proof. unfold mbind, M_bind. by intros ->. Qed.

(** ** Tasks *)

Definition alive (t : TaskControlBlock) : bool :=
  match task_state t with Ready | Running | Sleeping => true | _ => false end.
Definition waiting (x : context) : bool := match x with WaitAsleep | WaitWoken _ => true | _ => false end.
(** A token that [wait] has taken and not yet used. *)
Definition credit (x : context) : Z := match x with WaitScan => 1 | _ => 0 end.
Definition is_zombie_of (q : nat) (t : TaskControlBlock) : bool :=
  bool_decide (task_state t = Zombie) && bool_decide (parent t = Some q).

Definition count (P : TaskControlBlock -> bool) (l : list TaskControlBlock) : Z := len (filter (fun t => P t = true) l).
Definition zombies (l : list TaskControlBlock) (q : nat) : Z := count (is_zombie_of q) l.

Record local_ok (i : nat) (t : TaskControlBlock) : Prop := {
  local_sleep : task_state t = Sleeping ->
    task_context t = InSleep /\ (exists a, wait_channel t = Some (channel_at a)) \/
    task_context t = WaitAsleep /\ wait_channel t = Some (child_exit_of i) /\ wait_deadline t = WAIT_FOREVER;
  local_waiters : waiters (child_exit t) = if waiting (task_context t) then 1 else 0;
  local_count : 0 <= sem_count (child_exit t) }.

(** A task that a fork reserves is created by one task. *)
Record forks_ok (l : list TaskControlBlock) : Prop := {
  forks_created : forall i t n, l !! i = Some t -> alive t = true -> task_context t = InFork n ->
    exists tn, l !! n = Some tn /\ task_state tn = Creating;
  forks_inj : forall i j t u n, l !! i = Some t -> l !! j = Some u -> alive t = true -> alive u = true ->
    task_context t = InFork n -> task_context u = InFork n -> i = j }.

Record table_ok (l : list TaskControlBlock) (next : Z) : Prop := {
  table_init : exists t, l !! 0%nat = Some t /\ alive t = true /\ parent t = None /\ pid t = 0;
  table_parent : forall i t q, l !! i = Some t -> parent t = Some q -> q <> i /\ exists tq, l !! q = Some tq /\ alive tq = true;
  table_fresh : forall i t, l !! i = Some t -> task_state t = UnInit \/ task_state t = Creating -> parent t = None;
  table_created : forall i t, l !! i = Some t -> task_state t = Creating -> child_exit t = Sem 0 0;
  table_zombie : forall i t, l !! i = Some t -> task_state t = Zombie -> is_Some (parent t);
  table_local : forall i t, l !! i = Some t -> alive t = true -> local_ok i t;
  table_tokens : forall i t, l !! i = Some t -> alive t = true -> i <> 0%nat -> zombies l i <= sem_count (child_exit t) + credit (task_context t);
  table_forks : forks_ok l;
  table_pids : forall i t, l !! i = Some t -> task_state t <> UnInit -> 0 <= pid t < next;
  table_pid : forall i j t u, l !! i = Some t -> l !! j = Some u -> task_state t <> UnInit -> task_state u <> UnInit -> pid t = pid u -> i = j }.

Definition running (l : list TaskControlBlock) (i : nat) : Prop := exists t, l !! i = Some t /\ task_state t = Running.
Definition runs (cs : list cpu) (c i : nat) : Prop := exists x, cs !! c = Some x /\ proc x = Some i.

Record cpus_ok (cs : list cpu) (l : list TaskControlBlock) : Prop := {
  cpus_runs : forall c i, runs cs c i -> running l i;
  cpus_inj : forall c c' i, runs cs c i -> runs cs c' i -> c = c';
  cpus_all : forall i, running l i -> exists c, runs cs c i }.

(** A task that sleeps in [wait] has no token. *)
Definition asleep_ok (l : list TaskControlBlock) : Prop :=
  forall i t, l !! i = Some t -> task_state t = Sleeping -> task_context t = WaitAsleep -> sem_count (child_exit t) = 0.

Record tasks_ok (k : kernel) : Prop := {
  tasks_table : table_ok (tasks k) (nextpid k);
  tasks_cpus : cpus_ok (cpus k) (tasks k);
  tasks_asleep : asleep_ok (tasks k);
  tasks_count : task_count k = count alive (tasks k) }.

(** ** Counting *)

Lemma count_same P (l l' : list TaskControlBlock) :
  length l' = length l -> (forall i t, l !! i = Some t -> exists t', l' !! i = Some t' /\ P t' = P t) -> count P l' = count P l.
Proof.
  revert l'. induction l as [|t l IH]; intros [|t' l'] Hlen Hp; try done. destruct (Hp 0%nat t eq_refl) as (? & [= <-] & E).
  assert (IHl : count P l' = count P l). { apply IH; [by injection Hlen|]. intros i u Hu. by apply (Hp (S i) u). }
  unfold count in *. rewrite !filter_cons. repeat case_decide; try congruence; cbn [length]; lia.
Qed.
Lemma count_insert P (l : list TaskControlBlock) i t t' :
  l !! i = Some t -> count P (<[i := t']> l) = count P l - Z.b2z (P t) + Z.b2z (P t').
Proof.
  revert i. induction l as [|u l IH]; intros [|i] Hi; try done.
  - injection Hi as ->. cbn. unfold count. rewrite !filter_cons. destruct (P t), (P t'); cbn; repeat case_decide; try done; cbn [length]; lia.
  - specialize (IH i Hi). change (<[S i := t']> (u :: l)) with (u :: <[i := t']> l). unfold count in *. rewrite !filter_cons. case_decide; cbn [length]; lia.
Qed.
Lemma count_zero P (l : list TaskControlBlock) : (forall i t, l !! i = Some t -> P t = false) -> count P l = 0.
Proof.
  intros H. unfold count. destruct (filter _ l) as [|t r] eqn:E; [done|]. exfalso.
  assert (Hin : t ∈ filter (fun t => P t = true) l) by (rewrite E; by left).
  apply list_elem_of_filter in Hin as [Ht [i Hi]%list_elem_of_lookup]. by rewrite (H i t Hi) in Ht.
Qed.
Lemma count_pos P (l : list TaskControlBlock) i t : l !! i = Some t -> P t = true -> 0 < count P l.
Proof.
  intros Hi Ht. unfold count. assert (Hin : t ∈ filter (fun t => P t = true) l) by (apply list_elem_of_filter; split; [done|by apply list_elem_of_lookup_2 in Hi]).
  destruct (filter _ l); [by apply not_elem_of_nil in Hin|]. cbn [length]. lia.
Qed.

(** ** Steps that keep who is alive, the parents and the identifiers *)

Definition same_status (t t' : TaskControlBlock) : Prop :=
  alive t' = alive t /\ (alive t = false -> task_state t' = task_state t).

Record gentle (l : list TaskControlBlock) (i : nat) (t t' : TaskControlBlock) : Prop := {
  gentle_status : same_status t t';
  gentle_parent : parent t' = parent t;
  gentle_pid : pid t' = pid t;
  gentle_created : task_state t = Creating -> child_exit t' = child_exit t;
  gentle_local : alive t = true -> local_ok i t -> local_ok i t';
  gentle_tokens : alive t = true -> i <> 0%nat -> local_ok i t -> zombies l i <= sem_count (child_exit t) + credit (task_context t) ->
    zombies l i <= sem_count (child_exit t') + credit (task_context t') }.
Definition keeps_fork (t t' : TaskControlBlock) : Prop := alive t = true -> forall n, task_context t' = InFork n -> task_context t = InFork n.

Lemma gentle_refl l i t : gentle l i t t.
Proof. by split. Qed.

Lemma status_state t t' x : same_status t t' -> (x = UnInit \/ x = Creating \/ x = Zombie) -> task_state t' = x <-> task_state t = x.
Proof.
  unfold same_status, alive. intros [E1 E2] Hx. destruct (task_state t), (task_state t'); naive_solver.
Qed.

Section gentle.
Context {l l' : list TaskControlBlock} (Hlen : length l' = length l).
Context (Hg : forall i t, l !! i = Some t -> exists t', l' !! i = Some t' /\ gentle l i t t').

Lemma gentle_back i t' : l' !! i = Some t' -> exists t, l !! i = Some t /\ gentle l i t t'.
Proof using Hlen Hg.
  intros Hi. destruct (lookup_lt_is_Some_2 l i) as [t Ht]; [rewrite <- Hlen; by eapply lookup_lt_Some|].
  destruct (Hg i t Ht) as (t'' & E & H). rewrite Hi in E. injection E as <-. by exists t.
Qed.
Lemma gentle_zombies q : zombies l' q = zombies l q.
Proof using Hlen Hg.
  apply count_same; [done|]. intros i t Hi. destruct (Hg i t Hi) as (t' & E & [H1 H2 _ _ _ _]). exists t'. split; [done|].
  unfold is_zombie_of. rewrite H2. f_equal. apply bool_decide_ext, (status_state t t' Zombie H1). auto.
Qed.
Lemma gentle_table next : table_ok l next -> forks_ok l' -> table_ok l' next.
Proof using Hlen Hg.
  intros [H1 H2 H3 H0 H4 H5 H6 _ H9 H10] Hf.
  assert (Huninit : forall t t', same_status t t' -> task_state t' <> UnInit -> task_state t <> UnInit).
  { intros t t' Hs Hn E. apply Hn. apply (status_state t t' UnInit Hs); auto. }
  split.
  - destruct H1 as (t & E & Ha & Hp & Hid). destruct (Hg _ _ E) as (t' & E' & [[G1 _] G2 G3 _ _ _]). exists t'. split_and!; congruence.
  - intros i t' q Hi Hq. destruct (gentle_back i t' Hi) as (t & E & [G1 G2 _ _ _ _]). rewrite G2 in Hq.
    destruct (H2 i t q E Hq) as (Hne & tq & Eq & Ha). split; [done|]. destruct (Hg _ _ Eq) as (tq' & Eq' & [[G _] _ _ _ _ _]). exists tq'. split; congruence.
  - intros i t' Hi Hs. destruct (gentle_back i t' Hi) as (t & E & [G1 G2 _ _ _ _]). rewrite G2. apply (H3 i t E).
    destruct Hs as [Hs|Hs]; [left|right]; apply (status_state t t' _ G1); auto.
  - intros i t' Hi Hs. destruct (gentle_back i t' Hi) as (t & E & [G1 _ _ G _ _]). apply (status_state t t' _ G1) in Hs; [|auto]. rewrite G by done. by apply (H0 i t E).
  - intros i t' Hi Hs. destruct (gentle_back i t' Hi) as (t & E & [G1 G2 _ _ _ _]). rewrite G2. apply (H4 i t E).
    apply (status_state t t' _ G1); auto.
  - intros i t' Hi Ha. destruct (gentle_back i t' Hi) as (t & E & [[G1 _] _ _ _ G _]). rewrite G1 in Ha. by apply G, (H5 i t E).
  - intros i t' Hi Ha Hn. destruct (gentle_back i t' Hi) as (t & E & [[G1 _] _ _ _ _ G]). rewrite G1 in Ha. rewrite gentle_zombies.
    apply G; [done|done|by apply (H5 i t E)|by apply (H6 i t E)].
  - done.
  - intros i t' Hi Hs. destruct (gentle_back i t' Hi) as (t & E & [G1 _ G2 _ _ _]). rewrite G2. apply (H9 i t E). by eapply Huninit.
  - intros i j t' u' Hi Hj Hs Hs' Hp. destruct (gentle_back i t' Hi) as (t & E & [G1 _ G2 _ _ _]), (gentle_back j u' Hj) as (u & F & [G1' _ G2' _ _ _]).
    apply (H10 i j t u E F); [by eapply Huninit..|congruence].
Qed.
Lemma gentle_forks : (forall i t t', l !! i = Some t -> l' !! i = Some t' -> keeps_fork t t') -> forks_ok l -> forks_ok l'.
Proof using Hlen Hg.
  intros Hk [H7 H8]. split.
  - intros i t' n Hi Ha Hc. destruct (gentle_back i t' Hi) as (t & E & [[G1 _] _ _ _ _ _]). rewrite G1 in Ha.
    destruct (H7 i t n E Ha (Hk i t t' E Hi Ha n Hc)) as (tn & En & Hs). destruct (Hg _ _ En) as (tn' & En' & [Gn _ _ _ _ _]). exists tn'. split; [done|].
    apply (status_state tn tn' _ Gn); auto.
  - intros i j t' u' n Hi Hj Ha Hb Hc Hd. destruct (gentle_back i t' Hi) as (t & E & [[G1 _] _ _ _ _ _]), (gentle_back j u' Hj) as (u & F & [[G2 _] _ _ _ _ _]).
    rewrite G1 in Ha. rewrite G2 in Hb. apply (H8 i j t u n); try done; [by apply (Hk i t t')|by apply (Hk j u u')].
Qed.
Lemma gentle_alive : count alive l' = count alive l.
Proof using Hlen Hg. apply count_same; [done|]. intros i t Hi. destruct (Hg i t Hi) as (t' & E & [[H _] _ _ _ _ _]). by exists t'. Qed.
End gentle.

(** One task changes. *)
Lemma gentle_one l i t t' :
  l !! i = Some t -> gentle l i t t' -> forall j u, l !! j = Some u -> exists u', <[i := t']> l !! j = Some u' /\ gentle l j u u'.
Proof.
  intros Hi Hg j u Hj. destruct (decide (j = i)) as [->|].
  - exists t'. rewrite list_lookup_insert_eq by (by eapply lookup_lt_Some). rewrite Hi in Hj. injection Hj as <-. done.
  - exists u. rewrite list_lookup_insert_ne by done. split; [done|apply gentle_refl].
Qed.
Lemma gentle_insert l next i t t' :
  table_ok l next -> l !! i = Some t -> gentle l i t t' -> keeps_fork t t' ->
  table_ok (<[i := t']> l) next /\ count alive (<[i := t']> l) = count alive l.
Proof.
  intros Hok Hi Hg Hk. pose proof (gentle_one l i t t' Hi Hg) as H. split; [|by apply gentle_alive; [apply length_insert|..]].
  apply (gentle_table (l := l)); [apply length_insert|done|done|]. apply (gentle_forks (l := l)); [apply length_insert|done| |apply Hok].
  intros j u u' Hj Hj'. destruct (decide (j = i)) as [->|].
  - rewrite list_lookup_insert_eq in Hj' by (by eapply lookup_lt_Some). rewrite Hi in Hj. injection Hj as <-. by injection Hj' as <-.
  - rewrite list_lookup_insert_ne in Hj' by done. rewrite Hj in Hj'. injection Hj' as <-. by intros _ m.
Qed.

(** ** Steps that change them *)

Lemma no_kids l next i t q : table_ok l next -> l !! i = Some t -> alive t = false -> forall j u, l !! j = Some u -> parent u = Some q -> q <> i.
Proof. intros Hok Hi Ha j u Hj Hq ->. destruct (table_parent _ _ Hok j u i Hj Hq) as (_ & tq & E & Ha'). congruence. Qed.
Lemma no_zombies l next i t : table_ok l next -> l !! i = Some t -> alive t = false -> zombies l i = 0.
Proof.
  intros Hok Hi Ha. apply count_zero. intros j u Hj. unfold is_zombie_of. apply andb_false_iff. right. apply bool_decide_eq_false_2.
  intros Hq. by apply (no_kids l next i t i Hok Hi Ha j u Hj Hq).
Qed.
Lemma init_alive l next i t : table_ok l next -> l !! i = Some t -> alive t = false -> i <> 0%nat.
Proof. intros Hok Hi Ha ->. destruct (table_init _ _ Hok) as (t0 & E & Ha' & _). congruence. Qed.
Lemma lookup_two {A} (l : list A) i x j y : l !! i = Some x -> <[i := y]> l !! j = if decide (j = i) then Some y else l !! j.
Proof.
  intros Hi. destruct (decide (j = i)) as [->|]; [|by apply list_lookup_insert_ne]. apply list_lookup_insert_eq. by eapply lookup_lt_Some.
Qed.

(** The parent [i] takes the zombie [j] away. *)
Lemma reap_table l next i ti j t t' :
  table_ok l next -> l !! i = Some ti -> alive ti = true -> l !! j = Some t -> task_state t = Zombie -> parent t = Some i ->
  task_state t' = UnInit -> parent t' = None ->
  let l' := <[j := t']> l in
  table_ok l' next /\ count alive l' = count alive l /\ l' !! i = Some ti /\
  (i <> 0%nat -> task_context ti = WaitScan -> zombies l' i <= sem_count (child_exit ti)).
Proof.
  intros Hok Hi Ha Hj Hz Hp Hs Hp' l'. assert (Hne : i <> j) by (intros ->; unfold alive in Ha; rewrite Hi in Hj; injection Hj as ->; by rewrite Hz in Ha).
  assert (Hal : alive t = false /\ alive t' = false) by (unfold alive; by rewrite Hz, Hs). destruct Hal as [Hal Hal'].
  assert (Hl : forall x, l' !! x = if decide (x = j) then Some t' else l !! x) by (intros x; by apply (lookup_two l j t)).
  assert (Hzo : forall q, zombies l' q = zombies l q - Z.b2z (is_zombie_of q t)).
  { intros q. unfold zombies, l'. rewrite (count_insert _ _ _ _ _ Hj).
    replace (is_zombie_of q t') with false by (unfold is_zombie_of; by rewrite Hs). cbn. lia. }
  assert (Hcase : forall x u, l' !! x = Some u -> task_state u <> UnInit -> x <> j /\ l !! x = Some u).
  { intros x u Hx Hu. rewrite Hl in Hx. case_decide; [|done]. by injection Hx as <-. }
  assert (Hst : forall x u, l' !! x = Some u -> alive u = true -> x <> j /\ l !! x = Some u).
  { intros x u Hx Hu. apply Hcase; [done|]. intros E. unfold alive in Hu. by rewrite E in Hu. }
  assert (Hkeep : forall x u, l !! x = Some u -> task_state u <> Zombie -> l' !! x = Some u).
  { intros x u Hx Hu. rewrite Hl. case_decide; [|done]. subst. congruence. }
  pose proof Hok as [H1 H2 H3 H0 H4 H5 H6 [H7 H8] H9 H10]. split_and!.
  - split.
    + destruct H1 as (t0 & E & Ha0 & ?). exists t0. split; [|done]. apply Hkeep; [done|]. intros E'. unfold alive in Ha0. by rewrite E' in Ha0.
    + intros x u q Hx Hq. rewrite Hl in Hx. case_decide as Hd; [injection Hx as <-; congruence|]. destruct (H2 x u q Hx Hq) as (Hn & tq & Eq & Haq). split; [done|].
      exists tq. split; [|done]. apply Hkeep; [done|]. intros E'. unfold alive in Haq. by rewrite E' in Haq.
    + intros x u Hx Hu. rewrite Hl in Hx. case_decide; [by injection Hx as <-|]. by apply (H3 x u).
    + intros x u Hx Hu. apply Hcase in Hx as [_ Hx]; [by apply (H0 x u)|congruence].
    + intros x u Hx Hu. apply Hcase in Hx as [_ Hx]; [by apply (H4 x u)|congruence].
    + intros x u Hx Hu. apply Hst in Hx as [_ Hx]; [|done]. by apply H5.
    + intros x u Hx Hu Hn. apply Hst in Hx as [_ Hx]; [|done]. rewrite Hzo. specialize (H6 x u Hx Hu Hn). destruct (is_zombie_of x t); cbn; lia.
    + split.
      * intros x u n Hx Hu Hc. apply Hst in Hx as [_ Hx]; [|done]. destruct (H7 x u n Hx Hu Hc) as (tn & E & Hn). exists tn. split; [|done]. apply Hkeep; congruence.
      * intros x y u v n Hx Hy Hu Hv. apply Hst in Hx as [_ Hx]; [|done]. apply Hst in Hy as [_ Hy]; [|done]. by apply H8.
    + intros x u Hx Hu. apply Hcase in Hx as [_ Hx]; [|done]. by apply (H9 x).
    + intros x y u v Hx Hy Hu Hv. apply Hcase in Hx as [_ Hx]; [|done]. apply Hcase in Hy as [_ Hy]; [|done]. by apply H10.
  - unfold l'. rewrite (count_insert _ _ _ _ _ Hj), Hal, Hal'. cbn. lia.
  - by rewrite Hl, decide_False.
  - intros Hi0 Hc. rewrite Hzo. specialize (H6 i ti Hi Ha Hi0). rewrite Hc in H6. cbn in H6. unfold is_zombie_of. rewrite Hz, Hp, !bool_decide_eq_true_2 by done. cbn. lia.
Qed.

Definition no_fork (l : list TaskControlBlock) (n : nat) : Prop :=
  forall j u, l !! j = Some u -> alive u = true -> task_context u <> InFork n.

(** The entry [n], which no task is, is reserved or becomes a task. *)
Lemma enter_table l next next' n t t' :
  table_ok l next -> l !! n = Some t -> task_state t = UnInit \/ task_state t = Creating -> no_fork l n ->
  task_state t' = Creating /\ parent t' = None \/ task_state t' = Ready /\ task_context t' = FirstRun ->
  child_exit t' = Sem 0 0 ->
  (forall q, parent t' = Some q -> q <> n /\ exists tq, l !! q = Some tq /\ alive tq = true) ->
  next <= next' -> 0 <= pid t' < next' -> (forall j u, j <> n -> l !! j = Some u -> task_state u <> UnInit -> pid u <> pid t') ->
  let l' := <[n := t']> l in
  table_ok l' next' /\ count alive l' = count alive l + (if alive t' then 1 else 0) /\ no_fork l' n /\ forall q, zombies l' q = zombies l q.
Proof.
  intros Hok Hn Hs Hnf Hs' Hc' Hp' Hnx Hpid Hpids l'.
  assert (Hal : alive t = false) by (unfold alive; destruct Hs as [-> | ->]; done).
  assert (Hnz : task_state t' <> Zombie /\ task_state t' <> Sleeping) by (destruct Hs' as [[-> _]|[-> _]]; done).
  assert (Hl : forall x, l' !! x = if decide (x = n) then Some t' else l !! x) by (intros x; by apply (lookup_two l n t)).
  assert (Hzo : forall q, zombies l' q = zombies l q).
  { intros q. unfold zombies, l'. rewrite (count_insert _ _ _ _ _ Hn).
    replace (is_zombie_of q t') with false; [replace (is_zombie_of q t) with false; [cbn; lia|]|]; unfold is_zombie_of; symmetry; apply andb_false_iff; left;
      apply bool_decide_eq_false_2; [destruct Hs as [-> | ->]; done|apply Hnz]. }
  assert (Hold : forall x u, l' !! x = Some u -> u = t' /\ x = n \/ x <> n /\ l !! x = Some u).
  { intros x u Hx. rewrite Hl in Hx. case_decide; [left; by injection Hx as <-|by right]. }
  assert (Hkeep : forall x u, l !! x = Some u -> alive u = true -> l' !! x = Some u).
  { intros x u Hx Hu. rewrite Hl. case_decide; [|done]. subst. congruence. }
  assert (Hfork : alive t' = true -> forall m, task_context t' <> InFork m).
  { intros Ha m. destruct Hs' as [[E _]|[_ ->]]; [unfold alive in Ha; by rewrite E in Ha|done]. }
  pose proof Hok as [H1 H2 H3 H0 H4 H5 H6 [H7 H8] H9 H10]. split_and!; [|unfold l'; rewrite (count_insert _ _ _ _ _ Hn), Hal; destruct (alive t'); cbn; lia| |done].
  2: { intros j u Hj Hu. destruct (Hold j u Hj) as [[-> _]|[_ Hj']]; [by apply Hfork|by apply (Hnf j u)]. }
  split.
  - destruct H1 as (t0 & E & Ha0 & ?). exists t0. split; [|done]. by apply Hkeep.
  - intros x u q Hx Hq. assert (H : q <> x /\ exists tq, l !! q = Some tq /\ alive tq = true).
    { destruct (Hold x u Hx) as [[-> ->]|[_ Hx']]; [by apply Hp'|by apply (H2 x u)]. }
    destruct H as (Hne & tq & E & Ha). split; [done|]. exists tq. split; [by apply Hkeep|done].
  - intros x u Hx Hu. destruct (Hold x u Hx) as [[-> _]|[_ Hx']]; [|by apply (H3 x u)]. destruct Hs' as [[_ ?]|[E _]]; [done|]. rewrite E in Hu. by destruct Hu.
  - intros x u Hx Hu. destruct (Hold x u Hx) as [[-> _]|[_ Hx']]; [done|by apply (H0 x u)].
  - intros x u Hx Hu. destruct (Hold x u Hx) as [[-> _]|[_ Hx']]; [by destruct Hnz|by apply (H4 x u)].
  - intros x u Hx Hu. destruct (Hold x u Hx) as [[-> _]|[_ Hx']]; [|by apply H5]. destruct Hs' as [[E _]|[E Ec]]; [unfold alive in Hu; by rewrite E in Hu|].
    split; [by rewrite E|by rewrite Hc', Ec|by rewrite Hc'].
  - intros x u Hx Hu Hi0. rewrite Hzo. destruct (Hold x u Hx) as [[-> ->]|[_ Hx']]; [|by apply H6].
    rewrite (no_zombies l next n t Hok Hn Hal), Hc'. destruct (task_context t'); cbn; lia.
  - split.
    + intros x u m Hx Hu Hc. destruct (Hold x u Hx) as [[-> _]|[_ Hx']]; [by destruct (Hfork Hu m)|]. destruct (H7 x u m Hx' Hu Hc) as (tm & E & Hm).
      exists tm. split; [|done]. rewrite Hl, decide_False; [done|]. intros ->. by apply (Hnf x u).
    + intros x y u v m Hx Hy Hu Hv Hc Hd. destruct (Hold x u Hx) as [[-> _]|[_ Hx']]; [by destruct (Hfork Hu m)|].
      destruct (Hold y v Hy) as [[-> _]|[_ Hy']]; [by destruct (Hfork Hv m)|]. by apply (H8 x y u v m).
  - intros x u Hx Hu. destruct (Hold x u Hx) as [[-> _]|[_ Hx']]; [done|]. specialize (H9 x u Hx' Hu). lia.
  - intros x y u v Hx Hy Hu Hv E. destruct (Hold x u Hx) as [[-> ->]|[Hxn Hx']], (Hold y v Hy) as [[-> ->]|[Hyn Hy']]; [done| | |by apply (H10 x y u v)].
    + by destruct (Hpids y v Hyn Hy' Hv).
    + by destruct (Hpids x u Hxn Hx' Hu).
Qed.

Lemma unused_no_fork l next n t : table_ok l next -> l !! n = Some t -> task_state t <> Creating -> no_fork l n.
Proof. intros Hok Hn Hs j u Hj Hu Hc. destruct (forks_created _ (table_forks _ _ Hok) j u n Hj Hu Hc) as (tn & E & Hs'). congruence. Qed.

(** A task begins [__sys_fork]. *)
Lemma begin_fork l next i t t' n tn :
  table_ok l next -> l !! i = Some t -> alive t = true -> task_context t = Normal -> l !! n = Some tn -> task_state tn = Creating -> no_fork l n ->
  task_state t' = task_state t -> parent t' = parent t -> pid t' = pid t -> child_exit t' = child_exit t -> task_context t' = InFork n ->
  table_ok (<[i := t']> l) next /\ count alive (<[i := t']> l) = count alive l.
Proof.
  intros Hok Hi Ha Hc Hn Hsn Hnf Es Ep Ei Ee Ec.
  assert (Hg : gentle l i t t').
  { split; try done.
    - unfold same_status, alive. by rewrite Es.
    - intros _ [L1 L2 L3]. split; rewrite ?Ee, ?Ec, ?Es; [|by rewrite L2, Hc|done]. intros Hz. destruct (L1 Hz) as [[E _]|[E _]]; congruence.
    - intros _ _ _. by rewrite Ee, Ec, Hc. }
  pose proof (gentle_one l i t t' Hi Hg) as H. split; [|by apply gentle_alive; [apply length_insert|..]].
  assert (Hl : forall x, <[i := t']> l !! x = if decide (x = i) then Some t' else l !! x) by (intros x; by apply (lookup_two l i t)).
  assert (Hni : n <> i) by (intros ->; rewrite Hi in Hn; injection Hn as <-; unfold alive in Ha; by rewrite Hsn in Ha).
  apply (gentle_table (l := l)); [apply length_insert|done|done|]. destruct (table_forks _ _ Hok) as [H7 H8]. split.
  - intros x u m Hx Hu Hm. rewrite Hl in Hx. case_decide; [exists tn; rewrite Hl, decide_False; [split; congruence|congruence]|].
    destruct (H7 x u m Hx Hu Hm) as (tm & Em & Hsm). exists tm. rewrite Hl, decide_False; [done|]. intros ->. unfold alive in Ha. rewrite Hi in Em. injection Em as ->. by rewrite Hsm in Ha.
  - intros x y u v m Hx Hy Hu Hv Hm Hm'. rewrite Hl in Hx. rewrite Hl in Hy.
    destruct (decide (x = i)) as [->|], (decide (y = i)) as [->|]; [done| | |by apply (H8 x y u v m)]; exfalso.
    + injection Hx as <-. rewrite Ec in Hm. injection Hm as <-. by apply (Hnf y v).
    + injection Hy as <-. rewrite Ec in Hm'. injection Hm' as <-. by apply (Hnf x u).
Qed.

(** The task [i] exits: its children get a new parent, and its own parent [q]
    has a token for it. *)
Definition adopt (i : nat) (child : TaskControlBlock) : TaskControlBlock :=
  if bool_decide (parent child = Some i) then child <| parent := Some 0%nat |> else child.

Lemma adopt_same i t :
  task_state (adopt i t) = task_state t /\ task_context (adopt i t) = task_context t /\ child_exit (adopt i t) = child_exit t /\
  pid (adopt i t) = pid t /\ wait_channel (adopt i t) = wait_channel t /\ wait_deadline (adopt i t) = wait_deadline t.
Proof. unfold adopt. by case_bool_decide. Qed.
Lemma adopt_alive i t : alive (adopt i t) = alive t.
Proof. unfold alive. by destruct (adopt_same i t) as (-> & _). Qed.
Lemma adopt_parent i t q : parent (adopt i t) = Some q -> parent t = Some i /\ q = 0%nat \/ parent t = Some q /\ q <> i.
Proof. unfold adopt. case_bool_decide; cbn; [intros [= <-]; auto|]. intros E. right. split; [done|]. by intros ->. Qed.

Section exit.
Context {l : list TaskControlBlock} {next : Z} {i : nat} {t t' : TaskControlBlock} {q : nat} {tq : TaskControlBlock}.
Context (Hok : table_ok l next) (Hi : l !! i = Some t) (Ha : alive t = true) (Hi0 : i <> 0%nat) (Hpar : parent t = Some q).
Context (Hctx : forall n, task_context t <> InFork n) (Hq : l !! q = Some tq).
Context (Hz : task_state t' = Zombie) (Hp' : parent t' = parent t) (Hid : pid t' = pid t).
Context (Htok : q <> 0%nat -> zombies l q + 1 <= sem_count (child_exit tq) + credit (task_context tq)).
Let l' := adopt i <$> <[i := t']> l.

Lemma exit_lookup x u : l' !! x = Some u -> x = i /\ u = t' \/ x <> i /\ exists v, l !! x = Some v /\ u = adopt i v.
Proof using All.
  unfold l'. rewrite list_lookup_fmap, (lookup_two l i t) by done. case_decide; cbn; [|intros (v & E & ->)%fmap_Some; right; eauto].
  intros [= <-]. left. split; [done|]. unfold adopt. rewrite bool_decide_eq_false_2; [done|]. rewrite Hp', Hpar. intros [= ->].
  by destruct (table_parent _ _ Hok i t i Hi Hpar).
Qed.
Lemma exit_keep x v : l !! x = Some v -> x <> i -> l' !! x = Some (adopt i v).
Proof using All. intros Hx Hn. unfold l'. by rewrite list_lookup_fmap, (lookup_two l i t), decide_False, Hx. Qed.
Lemma exit_alive x u : l' !! x = Some u -> alive u = true -> x <> i /\ exists v, l !! x = Some v /\ u = adopt i v /\ alive v = true.
Proof using All.
  intros Hx Hu. destruct (exit_lookup x u Hx) as [[_ ->]|(Hn & v & E & ->)]; [unfold alive in Hu; by rewrite Hz in Hu|]. rewrite adopt_alive in Hu. split; [done|]. by exists v.
Qed.

Lemma exit_zombies r : r <> i -> r <> 0%nat -> zombies l' r = zombies l r + (if decide (r = q) then 1 else 0).
Proof using All.
  intros Hri Hr0. unfold zombies. transitivity (count (is_zombie_of r) (<[i := t']> l)).
  - apply count_same; [apply length_fmap|]. intros x u Hx. exists (adopt i u). unfold l'. rewrite list_lookup_fmap, Hx. split; [done|].
    unfold is_zombie_of. destruct (adopt_same i u) as (-> & _). f_equal. apply bool_decide_ext. unfold adopt.
    case_bool_decide as E; [|done]. cbn. rewrite E. split; congruence.
  - rewrite (count_insert _ _ _ _ _ Hi). unfold is_zombie_of. rewrite Hz, Hp', Hpar, (bool_decide_eq_true_2 (Zombie = Zombie)) by done.
    rewrite (bool_decide_eq_false_2 (task_state t = Zombie)) by (intros E; unfold alive in Ha; by rewrite E in Ha). cbn.
    destruct (decide (r = q)) as [->|]; [rewrite bool_decide_eq_true_2 by done; cbn; lia|]. rewrite bool_decide_eq_false_2 by congruence. cbn. lia.
Qed.

Lemma exit_forks : forks_ok l'.
Proof using All.
  destruct (table_forks _ _ Hok) as [H7 H8]. split.
  - intros x u n Hx Hu Hc. destruct (exit_alive x u Hx Hu) as (Hn & v & E & -> & Hv). destruct (adopt_same i v) as (_ & Ec & _). rewrite Ec in Hc.
    destruct (H7 x v n E Hv Hc) as (tn & En & Hs). exists (adopt i tn). destruct (adopt_same i tn) as (-> & _). split; [|done]. apply exit_keep; [done|].
    intros ->. rewrite Hi in En. injection En as <-. unfold alive in Ha. by rewrite Hs in Ha.
  - intros x y u v n Hx Hy Hu Hv Hc Hd. destruct (exit_alive x u Hx Hu) as (_ & u1 & E & -> & Hu1), (exit_alive y v Hy Hv) as (_ & v1 & F & -> & Hv1).
    destruct (adopt_same i u1) as (_ & Ec & _), (adopt_same i v1) as (_ & Ed & _). apply (H8 x y u1 v1 n); congruence.
Qed.

Lemma exit_table : table_ok l' next /\ count alive l' = count alive l - 1.
Proof using All.
  pose proof Hok as [H1 H2 H3 H0 H4 H5 H6 _ H9 H10].
  destruct (table_parent _ _ Hok i t q Hi Hpar) as (Hqi & tq1 & Eq1 & Haq). rewrite Hq in Eq1. injection Eq1 as <-.
  assert (Hused : forall x u, l' !! x = Some u -> task_state u <> UnInit -> exists v, l !! x = Some v /\ task_state v <> UnInit /\ pid v = pid u).
  { intros x u Hx Hu. destruct (exit_lookup x u Hx) as [[-> ->]|(Hn & v & E & ->)].
    - exists t. split_and!; [done| |done]. intros E. unfold alive in Ha. by rewrite E in Ha.
    - destruct (adopt_same i v) as (Es & _ & _ & Ei & _). exists v. split_and!; [done|congruence|done]. }
  split; [split|].
  - destruct H1 as (t0 & E & Ha0 & Hp0 & Hid0). exists (adopt i t0). split; [by apply exit_keep|]. rewrite adopt_alive. split; [done|].
    unfold adopt. rewrite bool_decide_eq_false_2; [done|congruence].
  - intros x u r Hx Hr. assert (H : r <> x /\ r <> i /\ exists tr, l !! r = Some tr /\ alive tr = true).
    { destruct (exit_lookup x u Hx) as [[-> ->]|(Hn & v & E & ->)].
      - rewrite Hp', Hpar in Hr. injection Hr as <-. eauto.
      - destruct (adopt_parent i v r Hr) as [[Hc ->]|[Hc Hri]].
        + destruct H1 as (t0 & E0 & Ha0 & Hp0 & _). split_and!; [|done|by exists t0]. intros <-. congruence.
        + destruct (H2 x v r E Hc) as (? & ?). done. }
    destruct H as (Hrx & Hri & tr & Er & Har). split; [done|]. exists (adopt i tr). split; [by apply exit_keep|by rewrite adopt_alive].
  - intros x u Hx Hu. destruct (exit_lookup x u Hx) as [[_ ->]|(_ & v & E & ->)]; [rewrite Hz in Hu; by destruct Hu|]. destruct (adopt_same i v) as (Es & _).
    rewrite Es in Hu. unfold adopt. rewrite bool_decide_eq_false_2; [by apply (H3 x v)|]. by rewrite (H3 x v E Hu).
  - intros x u Hx Hu. destruct (exit_lookup x u Hx) as [[_ ->]|(_ & v & E & ->)]; [congruence|]. destruct (adopt_same i v) as (Es & _ & -> & _). apply (H0 x v E). congruence.
  - intros x u Hx Hu. destruct (exit_lookup x u Hx) as [[_ ->]|(_ & v & E & ->)]; [rewrite Hp', Hpar; eauto|]. destruct (adopt_same i v) as (Es & _).
    unfold adopt. case_bool_decide; [by eexists|]. apply (H4 x v E). congruence.
  - intros x u Hx Hu. destruct (exit_alive x u Hx Hu) as (_ & v & E & -> & Hv). destruct (H5 x v E Hv) as [L1 L2 L3].
    destruct (adopt_same i v) as (Es & Ec & Ee & _ & Ew & Ed). split; rewrite ?Es, ?Ec, ?Ee, ?Ew, ?Ed; done.
  - intros x u Hx Hu Hx0. destruct (exit_alive x u Hx Hu) as (Hn & v & E & -> & Hv). destruct (adopt_same i v) as (_ & -> & -> & _).
    rewrite exit_zombies by done. specialize (H6 x v E Hv Hx0). case_decide; [|lia]. subst x. rewrite Hq in E. injection E as <-. by apply Htok.
  - apply exit_forks.
  - intros x u Hx Hu. destruct (Hused x u Hx Hu) as (v & E & Hv & <-). by apply (H9 x v).
  - intros x y u v Hx Hy Hu Hv Epid. destruct (Hused x u Hx Hu) as (u1 & E & Hu1 & Ep1), (Hused y v Hy Hv) as (v1 & F & Hv1 & Ep2).
    apply (H10 x y u1 v1); congruence.
  - transitivity (count alive (<[i := t']> l)).
    + apply count_same; [apply length_fmap|]. intros x u Hx. exists (adopt i u). unfold l'. rewrite list_lookup_fmap, Hx. split; [done|apply adopt_alive].
    + rewrite (count_insert _ _ _ _ _ Hi), Ha. unfold alive at 2. rewrite Hz. cbn. lia.
Qed.
End exit.

(** ** Waking *)

Definition woken (r : Z) (t : TaskControlBlock) : TaskControlBlock := t <| wait_result := r |> <| task_state := Ready |>.

Lemma gentle_woken l i t r : task_state t = Sleeping -> gentle l i t (woken r t) /\ keeps_fork t (woken r t).
Proof.
  intros Hs. split; [|by intros _ n]. split; try done.
  - unfold same_status, alive. cbn. by rewrite Hs.
  - intros _ [L1 L2 L3]. by split.
Qed.

Lemma wake_loop_lookup ch all l i t :
  l !! i = Some t -> exists t', (wake_loop ch all l).1 !! i = Some t' /\
    (t' = t \/ task_state t = Sleeping /\ wait_channel t = Some ch /\ t' = woken 0 t).
Proof.
  revert i. induction l as [|u l IH]; intros [|i] Hi; try done; cbn [wake_loop].
  - injection Hi as ->. destruct (bool_decide (task_state t = Sleeping)) eqn:E1, (bool_decide (wait_channel t = Some ch)) eqn:E2; cbn [andb];
      [|by exists t; split; [|left]..]. apply bool_decide_eq_true in E1, E2. destruct all; (eexists; split; [reflexivity|right; done]).
  - destruct (IH i Hi) as (t' & E & H). destruct (_ && _); [destruct all|]; [by exists t'| |by exists t']. exists t. split; [exact Hi|by left].
Qed.
Lemma wake_loop_length ch all l : length (wake_loop ch all l).1 = length l.
Proof. induction l as [|u l IH]; [done|]. cbn [wake_loop]. destruct (_ && _); [destruct all|]; cbn; by rewrite ?IH. Qed.
(** The only sleeper of a channel is woken. *)
Lemma wake_loop_only ch l i t :
  l !! i = Some t -> task_state t = Sleeping -> wait_channel t = Some ch ->
  (forall j u, l !! j = Some u -> task_state u = Sleeping -> wait_channel u = Some ch -> j = i) ->
  (wake_loop ch false l).1 !! i = Some (woken 0 t).
Proof.
  revert i. induction l as [|u l IH]; intros [|i] Hi Hs Hc Ho; try done; cbn [wake_loop].
  - injection Hi as ->. by rewrite !bool_decide_eq_true_2.
  - destruct (bool_decide (task_state u = Sleeping)) eqn:E1, (bool_decide (wait_channel u = Some ch)) eqn:E2; cbn [andb];
      try (apply (IH i Hi Hs Hc); intros j v Hj Hv Hw; by injection (Ho (S j) v Hj Hv Hw)).
    apply bool_decide_eq_true in E1, E2. by pose proof (Ho 0%nat u eq_refl E1 E2).
Qed.
