(* ===== verification/TaskSteps.v ===== *)
(** * The steps of the machine of tasks keep its invariant *)

From S2P Require Import Prelude Sys Paging Task TaskInv.

(** ** Changing one task or one processor *)

Definition put (i : nat) (t : TaskControlBlock) (k : kernel) : kernel := k <| tasks := <[i := t]> (tasks k) |>.
Definition put_cpu (c : nat) (x : cpu) (k : kernel) : kernel := k <| cpus := <[c := x]> (cpus k) |>.

Lemma alter_insert {A} (f : A -> A) i (l : list A) x : l !! i = Some x -> alter f i l = <[i := f x]> l.
Proof.
  intros Hi. apply list_eq. intros j. rewrite (lookup_two l i x) by done. case_decide; [subst; by rewrite list_lookup_alter_eq, Hi|by rewrite list_lookup_alter_ne].
Qed.
Lemma load_task_at k i t : tasks k !! i = Some t -> load_task i k = Ret t k.
Proof. intros H. unfold load_task. rewrite (mbind_ret get _ k k k eq_refl). by apply deref_ret. Qed.
Lemma store_task_at k i t f : tasks k !! i = Some t -> store_task i f k = Ret () (put i (f t) k).
Proof.
  intros H. unfold store_task. rewrite (mbind_ret _ _ _ _ _ (load_task_at k i t H)). unfold modify, put. by rewrite (alter_insert f i _ t).
Qed.
Lemma load_cpu_at k c x : cpus k !! c = Some x -> load_cpu c k = Ret x k.
Proof. intros H. unfold load_cpu. rewrite (mbind_ret get _ k k k eq_refl). by apply deref_ret. Qed.
Lemma store_cpu_at k c x f : cpus k !! c = Some x -> store_cpu c f k = Ret () (put_cpu c (f x) k).
Proof.
  intros H. unfold store_cpu. rewrite (mbind_ret _ _ _ _ _ (load_cpu_at k c x H)). unfold modify, put_cpu. by rewrite (alter_insert f c _ x).
Qed.
Lemma put_lookup k i t u : tasks k !! i = Some t -> tasks (put i u k) !! i = Some u.
Proof. intros H. apply list_lookup_insert_eq. by eapply lookup_lt_Some. Qed.
Lemma put_other k i j u : j <> i -> tasks (put i u k) !! j = tasks k !! j.
Proof. intros H. by apply list_lookup_insert_ne. Qed.
Lemma put_put k i t u : put i u (put i t k) = put i u k.
Proof. unfold put. destruct k. cbn. by rewrite list_insert_insert_eq. Qed.
Lemma put_cpu_lookup k c x y : cpus k !! c = Some x -> cpus (put_cpu c y k) !! c = Some y.
Proof. intros H. apply list_lookup_insert_eq. by eapply lookup_lt_Some. Qed.
Lemma put_cpu_put k c x y : put_cpu c y (put_cpu c x k) = put_cpu c y k.
Proof. unfold put_cpu. destruct k. cbn. by rewrite list_insert_insert_eq. Qed.

Lemma wlp_load {B} (K : TaskControlBlock -> M kernel B) i k Q :
  (forall t, tasks k !! i = Some t -> wlp Q (K t k)) -> wlp Q ((load_task i ≫= K) k).
Proof.
  intros H. destruct (tasks k !! i) as [t|] eqn:E; [eapply wlp_eq; [by apply load_task_at|by apply H]|].
  unfold load_task, mbind, M_bind, deref. cbn. by rewrite E.
Qed.
Lemma wlp_store {B} (K : unit -> M kernel B) i t f k Q :
  tasks k !! i = Some t -> wlp Q (K () (put i (f t) k)) -> wlp Q ((store_task i f ≫= K) k).
Proof. intros Hi H. eapply wlp_eq; [by apply store_task_at|done]. Qed.
Lemma wlp_load_cpu {B} (K : cpu -> M kernel B) c k Q :
  (forall x, cpus k !! c = Some x -> wlp Q (K x k)) -> wlp Q ((load_cpu c ≫= K) k).
Proof.
  intros H. destruct (cpus k !! c) as [t|] eqn:E; [eapply wlp_eq; [by apply load_cpu_at|by apply H]|].
  unfold load_cpu, mbind, M_bind, deref. cbn. by rewrite E.
Qed.
Lemma wlp_store_cpu {B} (K : unit -> M kernel B) c x f k Q :
  cpus k !! c = Some x -> wlp Q (K () (put_cpu c (f x) k)) -> wlp Q ((store_cpu c f ≫= K) k).
Proof. intros Hi H. eapply wlp_eq; [by apply store_cpu_at|done]. Qed.
Lemma wlp_current {B} (K : nat -> M kernel B) c k Q :
  (forall i, runs (cpus k) c i -> wlp Q (K i k)) -> wlp Q ((current_proc c ≫= K) k).
Proof.
  intros H. unfold current_proc. destruct (cpus k !! c) as [x|] eqn:E; [|unfold load_cpu, mbind, M_bind, deref; cbn; by rewrite E].
  destruct (proc x) as [i|] eqn:Ep.
  - eapply wlp_eq; [rewrite (mbind_ret _ _ _ _ _ (load_cpu_at k c x E)); by apply deref_ret|]. apply H. by exists x.
  - unfold mbind at 1, M_bind. rewrite (mbind_ret _ _ _ _ _ (load_cpu_at k c x E)), Ep. done.
Qed.
(** What the memory does concerns no task. *)
Lemma wlp_mem {A B} (m : M vm A) (K : A -> M kernel B) k Q :
  (forall a m, wlp Q (K a (k <| memory := m |>))) -> wlp Q ((on_mem m ≫= K) k).
Proof. intros H. unfold on_mem, zoom, mbind, M_bind. cbn. by destruct (m (memory k)) as [a m'|]; cbn. Qed.

(** ** Processors *)

Lemma runs_insert cs c x y d j : cs !! c = Some x -> runs (<[c := y]> cs) d j <-> d = c /\ proc y = Some j \/ d <> c /\ runs cs d j.
Proof.
  intros Hc. unfold runs. rewrite (lookup_two cs c x) by done. case_decide; [subst d|].
  - split; [intros (z & [= <-] & E); by left|intros [[_ E]|[? _]]; [by exists y|done]].
  - split; [by right|by intros [[? _]|[_ ?]]].
Qed.
Lemma running_insert (l : list TaskControlBlock) i t t' j : l !! i = Some t ->
  running (<[i := t']> l) j <-> j = i /\ task_state t' = Running \/ j <> i /\ running l j.
Proof.
  intros Hi. unfold running. rewrite (lookup_two l i t) by done. case_decide; [subst j|].
  - split; [intros (z & [= <-] & E); by left|intros [[_ E]|[? _]]; [by exists t'|done]].
  - split; [by right|by intros [[? _]|[_ ?]]].
Qed.

Lemma cpus_same cs cs' l l' :
  cpus_ok cs l -> (forall c i, runs cs' c i <-> runs cs c i) -> (forall i, running l' i <-> running l i) -> cpus_ok cs' l'.
Proof.
  intros [H1 H2 H3] Hc Hl. split.
  - intros c i H%Hc. by apply Hl, (H1 c).
  - intros c c' i H%Hc H'%Hc. by apply (H2 c c' i).
  - intros i [c H]%Hl%H3. exists c. by apply Hc.
Qed.
(** A processor gives up its task, and takes one. *)
Lemma cpus_leave cs cs' l l' c i :
  cpus_ok cs l -> runs cs c i -> (forall d j, runs cs' d j <-> d <> c /\ runs cs d j) -> (forall j, running l' j <-> j <> i /\ running l j) -> cpus_ok cs' l'.
Proof.
  intros [H1 H2 H3] Hr Hc Hl. split.
  - intros d j [Hd H]%Hc. apply Hl. split; [|by apply (H1 d)]. intros ->. by apply Hd, (H2 d c i).
  - intros d d' j [_ H]%Hc [_ H']%Hc. by apply (H2 d d' j).
  - intros j [Hj [d H]%H3]%Hl. exists d. apply Hc. split; [|done]. intros ->. destruct Hr as (x & E & Ep), H as (y & E' & Ep'). congruence.
Qed.
Lemma cpus_enter cs cs' l l' c i :
  cpus_ok cs l -> ~ running l i -> (forall d j, runs cs' d j <-> d = c /\ j = i \/ d <> c /\ runs cs d j) -> (forall j, ~ runs cs c j) ->
  (forall j, running l' j <-> j = i \/ running l j) -> cpus_ok cs' l'.
Proof.
  intros [H1 H2 H3] Hn Hc Hfree Hl. split.
  - intros d j [[_ ->]|[_ H]]%Hc; apply Hl; [by left|right; by apply (H1 d)].
  - intros d d' j [[-> ->]|[Hd H]]%Hc [[-> E]|[Hd' H']]%Hc; [done| |subst; by apply H1 in H|by apply (H2 d d' j)]. by apply H1 in H'.
  - intros j [-> | H]%Hl; [exists c; apply Hc; by left|]. destruct (H3 j H) as [d Hd]. exists d. apply Hc. right. split; [|done]. intros ->. by apply (Hfree j).
Qed.

(** ** The invariant under a change of one task *)

Lemma gentle_mk l i t t' :
  alive t = true -> alive t' = true -> parent t' = parent t -> pid t' = pid t -> (local_ok i t -> local_ok i t') ->
  (i <> 0%nat -> local_ok i t -> zombies l i <= sem_count (child_exit t) + credit (task_context t) ->
   zombies l i <= sem_count (child_exit t') + credit (task_context t')) -> gentle l i t t'.
Proof.
  intros Ha Ha' Hp Hi Hl Hz. split; try done.
  - split; [congruence|]. rewrite Ha. done.
  - intros E. unfold alive in Ha. by rewrite E in Ha.
Qed.
Definition sleep_ok (t : TaskControlBlock) : Prop :=
  task_state t = Sleeping -> task_context t = WaitAsleep -> sem_count (child_exit t) = 0.

Lemma asleep_insert l i t t' : asleep_ok l -> l !! i = Some t -> sleep_ok t' -> asleep_ok (<[i := t']> l).
Proof. intros Hl Hi Ht j u Hj. rewrite (lookup_two l i t) in Hj by done. case_decide; [by injection Hj as <-|by apply (Hl j)]. Qed.

Lemma put_gentle k i t t' :
  tasks_ok k -> tasks k !! i = Some t -> gentle (tasks k) i t t' -> keeps_fork t t' -> (task_state t' = Running <-> task_state t = Running) ->
  sleep_ok t' -> tasks_ok (put i t' k).
Proof.
  intros [H1 H2 H3 H4] Hi Hg Hk Hr Hs. destruct (gentle_insert _ _ i t t' H1 Hi Hg Hk) as [G1 G2]. split; [exact G1| |by eapply asleep_insert|].
  - eapply cpus_same; [exact H2|done|]. intros j. cbn. rewrite (running_insert _ i t) by done. split.
    + intros [[-> E]|[_ ?]]; [exists t; split; [done|by apply Hr]|done].
    + intros H. destruct (decide (j = i)) as [->|]; [left|by right]. split; [done|]. destruct H as (u & E & Hu). rewrite Hi in E. injection E as <-. by apply Hr.
  - cbn. by rewrite G2.
Qed.
Lemma put_leave k c x x' i t t' :
  tasks_ok k -> runs (cpus k) c i -> cpus k !! c = Some x -> proc x' = None -> tasks k !! i = Some t -> gentle (tasks k) i t t' -> keeps_fork t t' ->
  task_state t' <> Running -> sleep_ok t' -> tasks_ok (put_cpu c x' (put i t' k)).
Proof.
  intros [H1 H2 H3 H4] Hruns Hc Hx Hi Hg Hk Hr Hs. destruct (gentle_insert _ _ i t t' H1 Hi Hg Hk) as [G1 G2].
  split; [exact G1| |by eapply asleep_insert|by cbn; rewrite G2].
  eapply cpus_leave; [exact H2|exact Hruns| |].
  - intros d j. cbn. rewrite (runs_insert _ c x) by done. rewrite Hx. split; [by intros [[_ ?]|?]|by right].
  - intros j. cbn. rewrite (running_insert _ i t) by done. split; [by intros [[_ ?]|?]|by right].
Qed.
(** A processor changes, but not its task. *)
Lemma put_cpu_ok k c x x' : tasks_ok k -> cpus k !! c = Some x -> proc x' = proc x -> tasks_ok (put_cpu c x' k).
Proof.
  intros [H1 H2 H3 H4] Hc Hp. split; [done| |done|done]. eapply cpus_same; [exact H2| |done]. intros d j. cbn.
  rewrite (runs_insert _ c x) by done. rewrite Hp. split; [intros [[-> ?]|[_ ?]]; [by exists x|done]|].
  intros H. destruct (decide (d = c)) as [->|]; [left|by right]. split; [done|]. destruct H as (y & E & Hy). congruence.
Qed.

Lemma put_cpu_lookup_task k c x i : tasks (put_cpu c x k) !! i = tasks k !! i.
Proof. done. Qed.
Lemma runs_task k c i : tasks_ok k -> runs (cpus k) c i -> exists t, tasks k !! i = Some t /\ task_state t = Running /\ alive t = true.
Proof.
  intros Hok Hr. destruct (cpus_runs _ _ (tasks_cpus _ Hok) c i Hr) as (t & E & Hs). exists t. unfold alive. by rewrite Hs.
Qed.

(** ** Single steps *)

Abbreviation keeps := (wlp (fun _ k' => tasks_ok k')).

Section step.
Context {k : kernel} {c i : nat} {t : TaskControlBlock}.
Context (Hok : tasks_ok k) (Hrun : runs (cpus k) c i) (Hi : tasks k !! i = Some t) (Hs : task_state t = Running).

Lemma step_alive : alive t = true.
Proof using Hs. unfold alive. by rewrite Hs. Qed.
Lemma step_local : local_ok i t.
Proof using All. apply (table_local _ _ (tasks_table _ Hok) i t Hi step_alive). Qed.

(** The running task goes on somewhere else. *)
Lemma jump_ok x :
  (forall n, x = InFork n -> task_context t = InFork n) -> waiting x = waiting (task_context t) ->
  (i <> 0%nat -> zombies (tasks k) i <= sem_count (child_exit t) + credit x) ->
  tasks_ok (put i (t <| task_context := x |>) k).
Proof using All.
  intros Hf Hw Hz. apply (put_gentle k i t); [done|done| |by intros _ n; apply Hf|done|by intros E; cbn in E; congruence].
  apply gentle_mk; [apply step_alive|apply step_alive|done|done| |by intros ? _ _; apply Hz].
  intros [L1 L2 L3]. split; cbn; [congruence|by rewrite Hw|done].
Qed.
Lemma tokens : i <> 0%nat -> zombies (tasks k) i <= sem_count (child_exit t) + credit (task_context t).
Proof using All. apply (table_tokens _ _ (tasks_table _ Hok) i t Hi step_alive). Qed.

(** The running task stops. *)
Lemma stop_ok x' t' :
  alive t' = true -> task_state t' <> Running -> parent t' = parent t -> pid t' = pid t -> local_ok i t' -> sleep_ok t' -> keeps_fork t t' ->
  (i <> 0%nat -> zombies (tasks k) i <= sem_count (child_exit t') + credit (task_context t')) ->
  proc x' = None -> tasks_ok (put_cpu c x' (put i t' k)).
Proof using All.
  intros Ha Hs' Hp Hid Hl Hsl Hk Hz Hx. pose proof Hrun as (x & Hc & _).
  apply (put_leave k c x x' i t t'); try done. apply gentle_mk; [apply step_alive|done..|]. intros ? _ _. by apply Hz.
Qed.

Lemma sleep_enter_ok ch deadline t0 :
  t0 = task_context t -> (ch = child_exit_of i /\ t0 = WaitAsleep /\ deadline = WAIT_FOREVER /\ sem_count (child_exit t) = 0 \/
   (exists a, ch = channel_at a) /\ t0 = InSleep) -> keeps (task_sleep_enter c ch deadline k).
Proof using All.
  intros -> Hch. unfold task_sleep_enter. apply wlp_current. intros j Hj.
  assert (j = i) as -> by (destruct Hj as (x & E & Ep), Hrun as (y & E' & Ep'); congruence).
  eapply wlp_eq; [by apply load_task_at|]. rewrite bool_decide_eq_true_2 by done. cbn [negb].
  eapply wlp_store; [done|]. pose proof Hrun as (x & Hc & _). unfold scheduler_back. cbv beta. rewrite (store_cpu_at _ c x) by done. cbn [wlp].
  pose proof step_local as [L1 L2 L3]. apply stop_ok; try done.
  - split; cbn; [|done|done]. intros _. destruct Hch as [(-> & -> & -> & _)|[[a ->] ->]]; [by right|left; split; [done|by exists a]].
  - intros _ E. cbn in E. destruct Hch as [(_ & _ & _ & ?)|[_ ?]]; [done|congruence].
  - by intros _ n.
  - apply tokens.
Qed.
End step.

Lemma preempt_ok k c : tasks_ok k -> keeps (schedule c k).
Proof.
  intros Hok. unfold schedule. apply wlp_current. intros i Hrun. destruct (runs_task k c i Hok Hrun) as (t & Hi & Hs & Ha).
  eapply wlp_eq; [by apply load_task_at|]. rewrite bool_decide_eq_true_2 by done. cbn [negb]. eapply wlp_store; [done|].
  pose proof Hrun as (x & Hc & _). eapply wlp_store_cpu; [done|]. unfold scheduler_back.
  rewrite (store_cpu_at _ c (x <| need_resched := false |>)) by (by eapply (put_cpu_lookup _ c x)). cbn [wlp]. rewrite put_cpu_put.
  pose proof (table_local _ _ (tasks_table _ Hok) i t Hi Ha) as [L1 L2 L3].
  apply (stop_ok Hok Hrun Hi Hs); try done; [by intros _ n|]. by apply (tokens Hok Hrun Hi Hs).
Qed.

Lemma sleep_leave_ok k c i t (K : Z -> M kernel unit) :
  tasks_ok k -> runs (cpus k) c i -> tasks k !! i = Some t -> task_state t = Running ->
  (forall r t', t' = t <| wait_channel := None |> <| wait_deadline := WAIT_FOREVER |> -> tasks_ok (put i t' k) ->
     keeps (K r (put i t' k))) -> keeps ((task_sleep_leave i ≫= K) k).
Proof.
  intros Hok Hrun Hi Hs HK. eapply wlp_eq.
  - unfold task_sleep_leave. rewrite (mbind_ret _ _ _ _ _ (load_task_at k i t Hi)), (mbind_ret _ _ _ _ _ (store_task_at k i t _ Hi)). reflexivity.
  - apply HK; [done|]. pose proof (step_alive Hs) as Ha. apply (put_gentle k i t); [done|done| |by intros _ n|done|by intros E; cbn in E; congruence].
    apply gentle_mk; try done. intros [L1 L2 L3]. split; cbn; [congruence|done|done].
Qed.

(** ** The functions of the running task *)

(** A turn of [sem_wait]; the task waits for no token of its own yet. *)
Lemma sem_turn_ok k c i t :
  tasks_ok k -> runs (cpus k) c i -> tasks k !! i = Some t -> task_state t = Running -> waiting (task_context t) = false ->
  (forall n, task_context t <> InFork n) -> (i <> 0%nat -> zombies (tasks k) i <= sem_count (child_exit t)) -> keeps (child_sem_turn c i k).
Proof.
  intros Hok Hrun Hi Hs Hw Hf Hz. pose proof (step_alive Hs) as Ha. pose proof (step_local Hok Hrun Hi Hs) as [L1 L2 L3]. rewrite Hw in L2.
  unfold child_sem_turn. eapply wlp_eq; [by apply load_task_at|]. eapply wlp_store; [done|]. unfold sem_turn.
  destruct (Z.eqb_spec (sem_count (child_exit t)) 0) as [E0|E0]; cbn [fst snd].
  - set (t1 := t <| child_exit := _ |>). eapply wlp_store; [by eapply put_lookup|]. rewrite put_put. set (t2 := t1 <| task_context := WaitAsleep |>).
    assert (Hok2 : tasks_ok (put i t2 k)).
    { apply (put_gentle k i t); [done|done| |by intros _ n|done|by intros _ _]. apply gentle_mk; try done.
      - intros _. split; cbn; [congruence|by rewrite L2|done].
      - intros Hi0 _ _. cbn. rewrite Z.add_0_r. by apply Hz. }
    apply (sleep_enter_ok (i := i) (t := t2) Hok2 Hrun) with (t0 := WaitAsleep); [by eapply put_lookup|done|done|]. left. done.
  - set (t1 := t <| child_exit := _ |>). unfold jump. rewrite (store_task_at _ i t1) by (by eapply put_lookup). cbn [wlp]. rewrite put_put.
    apply (put_gentle k i t); [done|done| |by intros _ n|done|by intros E; cbn in E; congruence]. apply gentle_mk; try done.
    + intros _. split; cbn; [congruence|by rewrite L2|lia].
    + intros Hi0 _ _. cbn. specialize (Hz Hi0). lia.
Qed.

Lemma scan_loop_zombie i l j kids x : (scan_loop i l j kids).1 = Some x ->
  exists t, (j <= x)%nat /\ l !! (x - j)%nat = Some t /\ parent t = Some i /\ task_state t = Zombie.
Proof.
  revert j kids. induction l as [|t l IH]; intros j kids; cbn [scan_loop]; [done|].
  assert (Hrec : forall kids, (scan_loop i l (S j) kids).1 = Some x -> exists u, (j <= x)%nat /\ (t :: l) !! (x - j)%nat = Some u /\ parent u = Some i /\ task_state u = Zombie).
  { intros b H. destruct (IH _ _ H) as (u & Hle & E & Hu). exists u. split; [lia|]. replace (x - j)%nat with (S (x - S j)) by lia. done. }
  case_bool_decide as Hp; cbn [negb]; [|apply Hrec]. case_bool_decide as Hz; [|apply Hrec].
  cbn. intros [= <-]. exists t. rewrite Nat.sub_diag. done.
Qed.
Lemma scan_loop_none i l j kids : (scan_loop i l j kids).1 = None -> zombies l i = 0.
Proof.
  intros H. apply count_zero. revert j kids H. induction l as [|t l IH]; intros j kids; cbn [scan_loop]; [done|].
  intros H [|x] u Hx; [injection Hx as <-|].
  - unfold is_zombie_of. destruct (bool_decide (parent t = Some i)); [|by rewrite andb_false_r]. cbn [negb] in H. by destruct (bool_decide (task_state t = Zombie)).
  - cbn in Hx. destruct (bool_decide (parent t = Some i)); cbn [negb] in H; [destruct (bool_decide (task_state t = Zombie)); [done|]|]; by eapply (IH _ _ H).
Qed.

(** [freeproc_locked] resets the entry. *)
Lemma freeproc_ok k j t {B} (K : unit -> M kernel B) (Q : B -> kernel -> Prop) :
  tasks k !! j = Some t ->
  (forall m t', task_state t' = UnInit -> parent t' = None -> wlp Q (K () (put j t' (k <| memory := m |>)))) ->
  wlp Q ((freeproc_locked j ≫= K) k).
Proof.
  intros Hj HK. unfold freeproc_locked. eapply (wlp_step (fun _ k1 => exists m t', task_state t' = UnInit /\ parent t' = None /\ k1 = put j t' (k <| memory := m |>))).
  2: { intros [] k1 (m & t' & H1 & H2 & ->). by apply HK. }
  eapply wlp_eq; [by apply load_task_at|]. apply wlp_mem. intros _ m1. destruct (trap_cx_ppn t =? 0); cbn [negb when].
  - eapply wlp_eq; [reflexivity|]. erewrite store_task_at by done. cbn [wlp]. eexists m1, _. split_and!; [| |reflexivity]; done.
  - eapply (wlp_step (fun _ k1 => exists m, k1 = put j (t <| trap_cx_ppn := 0 |>) (k <| memory := m |>))).
    + apply wlp_mem. intros _ m2. erewrite store_task_at by done. cbn [wlp]. exists m2. done.
    + intros _ k1 (m2 & ->). erewrite store_task_at by (by eapply put_lookup). cbn [wlp]. rewrite put_put. eexists m2, _. split_and!; [| |reflexivity]; done.
Qed.

Lemma tasks_ok_memory k m : tasks_ok k -> tasks_ok (k <| memory := m |>).
Proof. intros [H1 H2 H3 H4]. by split. Qed.

Lemma wait_scan_ok k c i t :
  tasks_ok k -> runs (cpus k) c i -> tasks k !! i = Some t -> task_state t = Running -> task_context t = WaitScan ->
  keeps ((r ← wait_scan i; jump i (match r with Some _ => Normal | None => WaitSem end)) k).
Proof.
  intros Hok Hrun Hi Hs Hc. pose proof (step_alive Hs) as Ha. unfold wait_scan.
  destruct (scan_loop i (tasks k) 0 false) as [[j|] kids] eqn:E.
  - destruct (scan_loop_zombie i (tasks k) 0 false j) as (u & _ & Hj & Hp & Hz); [by rewrite E|]. rewrite Nat.sub_0_r in Hj.
    eapply (wlp_step (fun r k1 => is_Some r /\ exists t' m, k1 = put j t' (k <| memory := m |>) /\ task_state t' = UnInit /\ parent t' = None)).
    { eapply wlp_eq; [reflexivity|]. rewrite E. eapply wlp_eq; [by apply load_task_at|]. apply (freeproc_ok k j u); [done|].
      intros m t' H1 H2. cbn. split; [by eexists|]. by exists t', m. }
    intros r k1 [[z ->] (t' & m & -> & H1 & H2)].
    destruct (reap_table _ _ i t j u t' (tasks_table _ Hok) Hi Ha Hj Hz Hp H1 H2) as (R1 & R2 & R3 & R4).
    set (k1 := put j t' (k <| memory := m |>)). assert (Hok1 : tasks_ok k1).
    { destruct Hok as [T1 T2 T3 T4]. split; [exact R1| |by eapply asleep_insert; [done|done|intros E1; congruence]|by cbn; rewrite R2].
      eapply cpus_same; [exact T2|done|]. intros x. cbn. rewrite (running_insert _ j u) by done. rewrite H1. split; [by intros [[_ ?]|[_ ?]]|].
      intros Hx. right. split; [|done]. intros ->. destruct Hx as (v & Ev & Hv). congruence. }
    unfold jump. rewrite (store_task_at k1 i t) by exact R3. cbn [wlp].
    apply (jump_ok (c := c) Hok1 Hrun R3 Hs); [done|by rewrite Hc|]. intros Hi0. cbn. rewrite Z.add_0_r. by apply R4.
  - assert (Hz : zombies (tasks k) i = 0) by (apply (scan_loop_none i (tasks k) 0 false); by rewrite E).
    eapply wlp_eq; [unfold wait_scan; rewrite (mbind_ret get _ k k k eq_refl), E; reflexivity|]. unfold jump. rewrite (store_task_at k i t) by done. cbn [wlp].
    pose proof (step_local Hok Hrun Hi Hs) as [_ _ L3].
    apply (jump_ok (c := c) Hok Hrun Hi Hs); [by destruct kids|rewrite Hc; by destruct kids|]. intros _. rewrite Hz. destruct kids; cbn; lia.
Qed.

(** ** The table as a whole *)

(** Every task stays as it is or wakes up. *)
Definition wakes (t t' : TaskControlBlock) : Prop := t' = t \/ task_state t = Sleeping /\ exists r, t' = woken r t.

Section wakes.
Context {l l' : list TaskControlBlock} (Hlen : length l' = length l).
Context (Hw : forall i t, l !! i = Some t -> exists t', l' !! i = Some t' /\ wakes t t').

Lemma wakes_gentle i t : l !! i = Some t -> exists t', l' !! i = Some t' /\ gentle l i t t'.
Proof using Hw.
  intros Hi. destruct (Hw i t Hi) as (t' & E & [-> | [Hs [r ->]]]); eexists; (split; [done|]); [apply gentle_refl|by apply gentle_woken].
Qed.
Lemma wakes_back i t' : l' !! i = Some t' -> exists t, l !! i = Some t /\ wakes t t'.
Proof using Hlen Hw.
  intros Hi. destruct (gentle_back Hlen wakes_gentle i t' Hi) as (t & E & _). exists t. split; [done|]. destruct (Hw i t E) as (u & Eu & Hu). congruence.
Qed.
Lemma wakes_table next : table_ok l next -> table_ok l' next /\ count alive l' = count alive l.
Proof using Hlen Hw.
  intros Hok. split; [|by apply (gentle_alive Hlen wakes_gentle)]. apply (gentle_table Hlen wakes_gentle _ Hok), (gentle_forks Hlen wakes_gentle); [|apply Hok].
  intros i t t' Hi Hi'. destruct (Hw i t Hi) as (u & E & Hu). rewrite Hi' in E. injection E as <-. destruct Hu as [-> | [_ [r ->]]]; by intros _ n.
Qed.
Lemma wakes_running i : running l' i <-> running l i.
Proof using Hlen Hw.
  split.
  - intros (t' & Hi & Hs). destruct (wakes_back i t' Hi) as (t & E & [-> | [_ [r ->]]]); [by exists t|done].
  - intros (t & Hi & Hs). destruct (Hw i t Hi) as (t' & E & [-> | [Hs' _]]); [by exists t|congruence].
Qed.
End wakes.

Lemma wake_all_ok k l' :
  tasks_ok k -> length l' = length (tasks k) -> (forall i t, tasks k !! i = Some t -> exists t', l' !! i = Some t' /\ wakes t t') ->
  tasks_ok (k <| tasks := l' |>).
Proof.
  intros [H1 H2 H3 H4] Hlen Hw. destruct (wakes_table Hlen Hw _ H1) as [T1 T2]. split; cbn; [done| | |by rewrite T2].
  - eapply cpus_same; [exact H2|done|by apply wakes_running].
  - intros i t' Hi Hs Hc. destruct (wakes_back Hlen Hw i t' Hi) as (t & E & [-> | [_ [r ->]]]); [by apply (H3 i)|done].
Qed.

Lemma wake_loop_wakes ch all l i t : l !! i = Some t -> exists t', (wake_loop ch all l).1 !! i = Some t' /\ wakes t t'.
Proof.
  intros Hi. destruct (wake_loop_lookup ch all l i t Hi) as (t' & E & H). exists t'. split; [done|].
  destruct H as [-> | (H1 & _ & ->)]; [by left|right; split; [done|by exists 0]].
Qed.

Lemma expired_wakes now t : wakes t (expired now t).
Proof.
  unfold expired. destruct (bool_decide (task_state t = Sleeping)) eqn:E; cbn [andb]; [|by left]. apply bool_decide_eq_true in E.
  destruct (_ && _); [right; split; [done|by exists (-1)]|by left].
Qed.

Lemma wake_ok k ch all : tasks_ok k -> keeps (task_wake_locked ch all k).
Proof.
  intros Hok. unfold task_wake_locked. eapply wlp_eq; [reflexivity|]. cbn [modify mret M_ret wlp mbind M_bind rbind].
  apply wake_all_ok; [done|apply wake_loop_length|apply wake_loop_wakes].
Qed.

(** A Ready task is chosen. *)
Lemma pick_loop_ready hart l j fb :
  (forall x, fb = Some x -> (x < j)%nat) ->
  match pick_loop hart l j fb with
  | inl x => exists t, (j <= x)%nat /\ l !! (x - j)%nat = Some t /\ task_state t = Ready /\ 0 <= last_hart t /\ last_hart t <> hart
  | inr (Some x) => fb = Some x \/ exists t, fb = None /\ (j <= x)%nat /\ l !! (x - j)%nat = Some t /\ task_state t = Ready /\ (last_hart t < 0 \/ last_hart t = hart)
  | inr None => fb = None /\ forall x t, l !! x = Some t -> task_state t <> Ready
  end.
Proof.
  revert j fb. induction l as [|t l IH]; intros j fb Hfb; cbn [pick_loop]; [destruct fb; [by left|done]|].
  assert (Hsh : forall x, (S j <= x)%nat -> (t :: l) !! (x - j)%nat = l !! (x - S j)%nat) by (intros x Hx; by replace (x - j)%nat with (S (x - S j)) by lia).
  case_bool_decide as Hr; cbn [negb].
  - destruct ((0 <=? last_hart t) && negb (last_hart t =? hart)) eqn:El.
    { apply andb_true_iff in El as [E1%Z.leb_le E2%negb_true_iff%Z.eqb_neq]. exists t. rewrite Nat.sub_diag. done. }
    specialize (IH (S j) (match fb with None => Some j | Some x => Some x end)). destruct (pick_loop _ _ _ _) as [x|[x|]].
    + destruct IH as (u & Hx & E & H); [|exists u; rewrite Hsh by lia; split; [lia|done]]. destruct fb as [y|]; intros z [= <-]; [specialize (Hfb y eq_refl); lia|lia].
    + destruct IH as [E|(u & E & _)]; [|destruct fb as [y|]; [by left|injection E as <-; right; exists t]|by destruct fb].
      { destruct fb as [y|]; intros z [= <-]; [specialize (Hfb y eq_refl); lia|lia]. }
      rewrite Nat.sub_diag. split_and!; [done|lia|done|done|]. apply andb_false_iff in El as [E1%Z.leb_gt|E2%negb_false_iff%Z.eqb_eq]; [by left|by right].
    + destruct IH as [E _]; [|by destruct fb]. destruct fb as [y|]; intros z [= <-]; [specialize (Hfb y eq_refl); lia|lia].
  - specialize (IH (S j) fb). destruct (pick_loop _ _ _ _) as [x|[x|]].
    + destruct IH as (u & Hx & E & H); [intros z Hz; specialize (Hfb z Hz); lia|]. exists u. rewrite Hsh by lia. split; [lia|done].
    + destruct IH as [E|(u & E & Hx & Eu & H)]; [intros z Hz; specialize (Hfb z Hz); lia|by left|]. right. exists u. rewrite Hsh by lia. split_and!; [done|lia|done|apply H|apply H].
    + destruct IH as [E H]; [intros z Hz; specialize (Hfb z Hz); lia|]. split; [done|]. intros [|x] u Hu; [by injection Hu as <-|by apply (H x)].
Qed.

Lemma pick_ok k x {B} (K : option nat -> M kernel B) (Q : B -> kernel -> Prop) :
  wlp Q (K None k) -> (forall i t, tasks k !! i = Some t -> task_state t = Ready -> wlp Q (K (Some i) k)) -> wlp Q ((pick_runnable x ≫= K) k).
Proof.
  intros H1 H2. pose proof (pick_loop_ready (hartid x) (tasks k) 0 None ltac:(done)) as H.
  assert (E : (pick_runnable x ≫= K) k = match pick_loop (hartid x) (tasks k) 0 None with
    | inl i => K (Some i) k | inr None => K None k
    | inr (Some i) => (p ← load_task i; if (last_hart p =? hartid x) && other_cpu_idle (hartid x) (cpus k) then K None else K (Some i)) k end).
  { unfold pick_runnable, mbind, M_bind. cbn. destruct (pick_loop _ _ _ _) as [?|[?|]]; [done| |done]. destruct (load_task _ _); [|done]. cbn. by destruct (_ && _). }
  rewrite E. destruct (pick_loop _ _ _ _) as [i|[i|]]; [|destruct H as [?|H]; [done|]|done].
  - destruct H as (t & _ & Hi & Hs & _). rewrite Nat.sub_0_r in Hi. by eapply H2.
  - destruct H as (t & _ & _ & Hi & Hs & _). rewrite Nat.sub_0_r in Hi. eapply wlp_eq; [by apply load_task_at|]. destruct (_ && _); [done|]. by eapply H2.
Qed.

(** ** Scheduling *)

(** The invariant reads only these parts of the state. *)
Record alike (k k' : kernel) : Prop := {
  alike_tasks : tasks k' = tasks k; alike_cpus : cpus k' = cpus k; alike_count : task_count k' = task_count k; alike_pid : nextpid k' = nextpid k }.
Lemma alike_ok k k' : alike k k' -> tasks_ok k -> tasks_ok k'.
Proof. intros [E1 E2 E3 E4] [H1 H2 H3 H4]. by split; rewrite ?E1, ?E2, ?E3, ?E4. Qed.

Lemma record_ok k i t x {B} (K : unit -> M kernel B) (Q : B -> kernel -> Prop) :
  tasks k !! i = Some t -> (forall k1, alike (put i (t <| last_hart := hartid x |>) k) k1 -> wlp Q (K () k1)) -> wlp Q ((record_migration i x ≫= K) k).
Proof.
  intros Hi HK. eapply (wlp_step (fun _ k1 => alike (put i (t <| last_hart := hartid x |>) k) k1)); [|by intros []].
  unfold record_migration. eapply wlp_eq; [by apply load_task_at|]. eapply (wlp_step (fun _ k1 => alike k k1)).
  - destruct (_ && _); cbn [when]; [|done]. eapply wlp_eq; [reflexivity|]. eapply wlp_eq; [reflexivity|]. by destruct (_ && _).
  - intros _ k1 [E1 E2 E3 E4]. rewrite (store_task_at k1 i t) by (by rewrite E1). cbn [wlp]. split; cbn; by rewrite ?E1, ?E2, ?E3, ?E4.
Qed.

Lemma put_enter k c x x' i t t' :
  tasks_ok k -> cpus k !! c = Some x -> proc x = None -> proc x' = Some i -> tasks k !! i = Some t -> task_state t = Ready ->
  gentle (tasks k) i t t' -> keeps_fork t t' -> task_state t' = Running -> tasks_ok (put_cpu c x' (put i t' k)).
Proof.
  intros [H1 H2 H3 H4] Hc Hx Hx' Hi Hs Hg Hk Hs'. destruct (gentle_insert _ _ i t t' H1 Hi Hg Hk) as [G1 G2].
  split; [exact G1| |eapply asleep_insert; [done|done|by intros E; congruence]|by cbn; rewrite G2].
  assert (Hn : ~ running (tasks k) i) by (intros (u & E & Hu); congruence).
  eapply (cpus_enter _ _ _ _ c i); [exact H2|exact Hn| | |].
  - intros d j. cbn. rewrite (runs_insert _ c x) by done. rewrite Hx'. split; (intros [[-> E]|?]; [left|by right]); [by injection E as ->|by subst].
  - intros j (y & E & Hy). congruence.
  - intros j. cbn. rewrite (running_insert _ i t) by done. destruct (decide (j = i)) as [->|]; [split; [by left|intros _; by left]|].
    split; [intros [[? _]|[_ ?]]; [done|by right]|intros [?|?]; [done|by right]].
Qed.

Lemma turn_ok k c now x : tasks_ok k -> cpus k !! c = Some x -> proc x = None -> keeps (scheduler_turn c now k).
Proof.
  intros Hok Hc Hx. unfold scheduler_turn. eapply wlp_eq; [reflexivity|]. set (k1 := k <| tasks := _ |>).
  assert (Hok1 : tasks_ok k1).
  { apply wake_all_ok; [done|apply length_fmap|]. intros i t Hi. exists (expired now t). rewrite list_lookup_fmap, Hi. split; [done|apply expired_wakes]. }
  assert (Hc1 : cpus k1 !! c = Some x) by done. clearbody k1. eapply wlp_eq; [by apply load_cpu_at|]. apply pick_ok.
  - eapply wlp_store_cpu; [done|]. cbn [wlp mret M_ret]. by apply (put_cpu_ok k1 c x).
  - intros i t Hi Hs. eapply wlp_store_cpu; [done|]. set (x1 := x <| idle := false |>).
    assert (Hok2 : tasks_ok (put_cpu c x1 k1)) by (by apply (put_cpu_ok k1 c x)).
    assert (Hi2 : tasks (put_cpu c x1 k1) !! i = Some t) by done. assert (Hc2 : cpus (put_cpu c x1 k1) !! c = Some x1) by (by eapply put_cpu_lookup).
    assert (Hx1 : proc x1 = None) by done. set (k2 := put_cpu c x1 k1) in *. clearbody k2 x1. apply (record_ok k2 i t x); [done|].
    intros k3 Hk3. set (t1 := t <| last_hart := hartid x |>) in *. assert (Hi3 : tasks k3 !! i = Some t1) by (rewrite (alike_tasks _ _ Hk3); by eapply put_lookup).
    eapply wlp_store; [done|]. eapply wlp_store_cpu; [cbn; by rewrite (alike_cpus _ _ Hk3)|]. cbn [wlp mret M_ret].
    assert (Ha : alive t = true) by (unfold alive; by rewrite Hs).
    eapply alike_ok; [|apply (put_enter k2 c x1 (x1 <| proc := Some i |> <| need_resched := false |>) i t (t1 <| task_state := Running |>)); try done].
    + destruct Hk3 as [E1 E2 E3 E4]. split; cbn; rewrite ?E1, ?E2, ?E3, ?E4; [cbn; by rewrite list_insert_insert_eq|done..].
    + apply gentle_mk; try done. intros [L1 L2 L3]. by split.
    + by intros _ n.
Qed.

(** ** Creating tasks *)

(** Only the entry [n] changes, and not in what the invariant says of it. *)
Definition same_task (t t' : TaskControlBlock) : Prop :=
  task_state t' = task_state t /\ pid t' = pid t /\ parent t' = parent t /\ child_exit t' = child_exit t.
Definition equips (n : nat) (t : TaskControlBlock) (k k' : kernel) : Prop := exists t', same_task t t' /\ alike (put n t' k) k'.

Lemma equips_lookup n t k k' : tasks k !! n = Some t -> equips n t k k' -> exists t', same_task t t' /\ tasks k' !! n = Some t' /\ alike (put n t' k) k'.
Proof. intros Hn (t' & Hs & Ha). exists t'. split_and!; [done| |done]. rewrite (alike_tasks _ _ Ha). by eapply put_lookup. Qed.
Lemma equips_trans n t t1 k k1 k2 : same_task t t1 -> alike (put n t1 k) k1 -> equips n t1 k1 k2 -> equips n t k k2.
Proof.
  intros (A1 & A2 & A3 & A4) [E1 E2 E3 E4] (t2 & (B1 & B2 & B3 & B4) & [F1 F2 F3 F4]). exists t2.
  split; [split_and!; congruence|]. split; cbn in *; [rewrite F1, E1; by rewrite list_insert_insert_eq|congruence..].
Qed.
Lemma alike_memory k m : alike k (k <| memory := m |>).
Proof. done. Qed.

Section memory.
Context {n : nat} {t : TaskControlBlock} {k : kernel} (Hn : tasks k !! n = Some t).

Lemma put_self : alike (put n t k) k.
Proof using Hn. split; [|done..]. cbn. symmetry. by apply list_insert_id. Qed.
Lemma proc_trap_ok : wlp (fun _ k' => equips n t k k') (proc_trap n k).
Proof using Hn.
  unfold proc_trap. apply wlp_mem. intros ppn m. destruct (ppn =? 0); [done|]. rewrite (store_task_at _ n t) by done. cbn [wlp].
  eexists. split; [|by split]. done.
Qed.
Lemma proc_pagetable_ok trampoline : wlp (fun _ k' => equips n t k k') (proc_pagetable trampoline n k).
Proof using Hn.
  unfold proc_pagetable. apply wlp_mem. intros root m1. destruct (root =? 0); [done|]. apply wlp_mem. intros _ m2. eapply wlp_eq; [by apply load_task_at|].
  apply wlp_mem. intros _ m3. rewrite (store_task_at _ n t) by done. cbn [wlp]. eexists. split; [|by split]. done.
Qed.
End memory.

Lemma free_task_at k : wlp (fun r k' => k' = k /\ match r with Some n => exists t, tasks k !! n = Some t /\ task_state t = UnInit | None => True end) (free_task k).
Proof.
  unfold free_task. eapply wlp_eq; [reflexivity|]. cbn [wlp mret M_ret]. split; [done|]. destruct (list_find _ _) as [[n t]|] eqn:E; [|done].
  apply list_find_Some in E as (E & Hs & _). by exists t.
Qed.

(** What [allocproc] makes of a free entry. *)
Record reserved (k : kernel) (n : nat) (k' : kernel) : Prop := {
  reserved_entry : exists t t', tasks k !! n = Some t /\ task_state t = UnInit /\ tasks k' = <[n := t']> (tasks k) /\
    task_state t' = Creating /\ pid t' = nextpid k /\ parent t' = parent t /\ child_exit t' = Sem 0 0;
  reserved_cpus : cpus k' = cpus k;
  reserved_count : task_count k' = task_count k;
  reserved_pid : nextpid k' = nextpid k + 1 }.

Lemma allocproc_ok trampoline k : wlp (fun r k' => match r with Some n => reserved k n k' | None => k' = k end) (allocproc trampoline k).
Proof.
  unfold allocproc. eapply wlp_step; [apply free_task_at|]. intros [n|] k0 [-> Hn]; [|done]. destruct Hn as (t & Hn & Hs).
  eapply wlp_store; [done|]. set (t1 := t <| task_state := Creating |>). unfold allocpid_locked.
  eapply (wlp_step (fun id k1 => id = nextpid k /\ k1 = put n t1 k <| nextpid := nextpid k + 1 |>)).
  { eapply wlp_eq; [reflexivity|]. cbn [put nextpid]. by destruct (nextpid _ =? INT_MAX). }
  intros ? k1 [-> ->]. eapply wlp_store; [by eapply put_lookup|]. set (t2 := task_reset_wait _). set (k1 := put n t2 _).
  assert (Ek : tasks k1 = <[n := t2]> (tasks k)) by (unfold k1; cbn; by rewrite list_insert_insert_eq).
  assert (Hk1 : tasks k1 !! n = Some t2) by (rewrite Ek; apply list_lookup_insert_eq; by eapply lookup_lt_Some).
  assert (Hrest : cpus k1 = cpus k /\ task_count k1 = task_count k /\ nextpid k1 = nextpid k + 1) by done.
  assert (Ht2 : task_state t2 = Creating /\ pid t2 = nextpid k /\ parent t2 = parent t /\ child_exit t2 = Sem 0 0) by done. clearbody t2 k1.
  eapply wlp_step; [apply (proc_trap_ok Hk1)|]. intros ? k2 H2. destruct (equips_lookup n t2 k1 k2 Hk1 H2) as (t3 & S3 & Hk2 & A3).
  eapply wlp_step; [apply (proc_pagetable_ok Hk2)|]. intros ? k3 H3. apply (equips_trans n t2 t3 k1 k2 k3 S3 A3) in H3 as (t4 & (S1 & S2 & S4 & S5) & [E1 E2 E3 E4]).
  cbn [wlp mret M_ret]. destruct Hrest as (R1 & R2 & R3), Ht2 as (Q1 & Q2 & Q3 & Q4). cbn in *.
  split; [|congruence..]. exists t, t4. split_and!; try congruence. rewrite E1, Ek. by rewrite list_insert_insert_eq.
Qed.

Lemma pids_new l next : table_ok l next -> forall j u, l !! j = Some u -> task_state u <> UnInit -> pid u <> next.
Proof. intros Hok j u Hj Hu. pose proof (table_pids _ _ Hok j u Hj Hu). lia. Qed.
Lemma next_pos k : tasks_ok k -> 0 < nextpid k.
Proof.
  intros Hok. destruct (table_init _ _ (tasks_table _ Hok)) as (t & E & Ha & _ & Hp).
  pose proof (table_pids _ _ (tasks_table _ Hok) 0%nat t E) as H. rewrite Hp in H. apply H. intros E'. unfold alive in Ha. by rewrite E' in Ha.
Qed.
Lemma running_kept (l : list TaskControlBlock) n t t' : l !! n = Some t -> task_state t <> Running -> task_state t' <> Running ->
  forall i, running (<[n := t']> l) i <-> running l i.
Proof.
  intros Hn H1 H2 i. rewrite (running_insert l n t) by done. split; [by intros [[_ ?]|[_ ?]]|]. intros H. right. split; [|done]. intros ->.
  destruct H as (u & E & Hu). congruence.
Qed.

(** [__sys_fork] reserves the entry of the child ... *)
Lemma fork_begin_ok k c i t n k1 :
  tasks_ok k -> runs (cpus k) c i -> tasks k !! i = Some t -> task_state t = Running -> task_context t = Normal -> reserved k n k1 ->
  keeps (jump i (InFork n) k1).
Proof.
  intros Hok Hrun Hi Hs Hc [(u & u' & Hn & Hu & E1 & Q1 & Q2 & Q3 & Q4) E2 E3 E4]. pose proof (step_alive Hs) as Ha.
  assert (Hne : i <> n) by (intros ->; congruence). pose proof (tasks_table _ Hok) as Htab.
  pose proof (unused_no_fork _ _ n u Htab Hn ltac:(congruence)) as Hnf. pose proof (table_fresh _ _ Htab n u Hn (or_introl Hu)) as Hpar. rewrite Hpar in Q3.
  pose proof (next_pos k Hok) as Hnp.
  destruct (enter_table _ _ (nextpid k + 1) n u u' Htab Hn ltac:(by left) Hnf ltac:(by left) Q4) as (T1 & T2 & T3 & T4); [by rewrite Q3|lia|lia| |].
  { intros j v Hj Hv Hst. rewrite Q2. by eapply pids_new. }
  rewrite <- E1 in *. assert (Hi1 : tasks k1 !! i = Some t) by (by rewrite E1, list_lookup_insert_ne).
  assert (Hn1 : tasks k1 !! n = Some u') by (rewrite E1; apply list_lookup_insert_eq; by eapply lookup_lt_Some).
  unfold jump. rewrite (store_task_at k1 i t) by done. cbn [wlp]. rewrite <- E4 in T1.
  destruct (begin_fork _ _ i t (t <| task_context := InFork n |>) n u' T1 Hi1 Ha Hc Hn1 Q1 T3) as [B1 B2]; [done..|].
  destruct Hok as [H1 H2 H3 H4]. split; [exact B1| | |].
  - eapply cpus_same; [exact H2|by intros d j; cbn; rewrite E2|]. intros j. cbn. rewrite (running_insert _ i t) by done. rewrite E1.
    rewrite (running_kept _ n u u') by (done || congruence). split; [intros [[-> _]|[_ ?]]; [by exists t|done]|].
    intros H. destruct (decide (j = i)) as [->|]; [by left|by right].
  - eapply asleep_insert; [|exact Hi1|by intros E; cbn in E; congruence]. rewrite E1. eapply asleep_insert; [done|done|]. intros E. congruence.
  - cbn. rewrite B2, T2, E3, H4. unfold alive. rewrite Q1. lia.
Qed.

(** ... and makes it a task. *)
Lemma join_ok k n t t' dn :
  tasks_ok k -> tasks k !! n = Some t -> task_state t = UnInit \/ task_state t = Creating -> no_fork (tasks k) n ->
  task_state t' = Ready -> task_context t' = FirstRun -> child_exit t' = Sem 0 0 ->
  (forall q, parent t' = Some q -> q <> n /\ exists tq, tasks k !! q = Some tq /\ alive tq = true) ->
  0 <= dn -> 0 <= pid t' < nextpid k + dn -> (forall j u, j <> n -> tasks k !! j = Some u -> task_state u <> UnInit -> pid u <> pid t') ->
  tasks_ok (put n t' k <| task_count := task_count k + 1 |> <| nextpid := nextpid k + dn |>).
Proof.
  intros Hok Hn Hs Hnf Hs' Hc He Hp Hd Hid Hids. destruct Hok as [H1 H2 H3 H4].
  destruct (enter_table _ _ (nextpid k + dn) n t t' H1 Hn Hs Hnf ltac:(by right) He Hp ltac:(lia) Hid Hids) as (T1 & T2 & _ & _).
  split; [exact T1| |cbn; eapply asleep_insert; [done|done|by intros E; congruence]|cbn].
  - eapply cpus_same; [exact H2|done|]. cbn. apply (running_kept _ n t); [done| |congruence]. destruct Hs as [-> | ->]; done.
  - rewrite T2, H4. replace (alive t') with true by (unfold alive; by rewrite Hs'). done.
Qed.

Lemma fork_finish_ok k c i t n :
  tasks_ok k -> runs (cpus k) c i -> tasks k !! i = Some t -> task_state t = Running -> task_context t = InFork n ->
  keeps ((fork_finish i n;; jump i Normal) k).
Proof.
  intros Hok Hrun Hi Hs Hc. pose proof (step_alive Hs) as Ha. pose proof (tasks_table _ Hok) as Htab.
  destruct (forks_created _ (table_forks _ _ Htab) i t n Hi Ha Hc) as (u & Hn & Hu). assert (Hne : i <> n) by (intros ->; congruence).
  pose proof (table_created _ _ Htab n u Hn Hu) as He.
  set (t' := t <| task_context := Normal |>). assert (Hok1 : tasks_ok (put i t' k)).
  { apply (jump_ok Hok Hrun Hi Hs); [done|by rewrite Hc|]. intros Hi0. pose proof (tokens Hok Hrun Hi Hs Hi0) as H. by rewrite Hc in H. }
  assert (Hi1 : tasks (put i t' k) !! i = Some t') by (by eapply put_lookup). assert (Hn1 : tasks (put i t' k) !! n = Some u) by (by rewrite put_other).
  assert (Hnf : no_fork (tasks (put i t' k)) n).
  { intros j v Hj Hv Hf. destruct (decide (j = i)) as [->|Hji]; [rewrite Hi1 in Hj; by injection Hj as <-|]. rewrite put_other in Hj by done.
    by apply Hji, (forks_inj _ (table_forks _ _ Htab) j i v t n). }
  eapply (wlp_step (fun _ k1 => exists u', task_state u' = Ready /\ task_context u' = FirstRun /\ child_exit u' = child_exit u /\ parent u' = Some i /\ pid u' = pid u /\
    alike (put n u' k <| task_count := task_count k + 1 |>) k1)).
  { unfold fork_finish. eapply wlp_eq; [by apply load_task_at|]. eapply wlp_eq; [by apply load_task_at|].
    apply wlp_mem; intros _ m1. apply wlp_mem; intros _ m2. unfold store_reg. apply wlp_mem; intros _ m3. apply wlp_mem; intros _ m4.
    eapply wlp_store; [done|]. eapply wlp_store; [by eapply put_lookup|]. rewrite put_put. cbn [wlp modify mret M_ret mbind M_bind rbind]. eexists.
    split_and!; [| | | | |split; reflexivity]; done. }
  intros _ k1 (u' & U1 & U2 & U3 & U4 & U5 & [E1 E2 E3 E4]). unfold jump.
  assert (Hik : tasks k1 !! i = Some t) by (rewrite E1; cbn; by rewrite list_lookup_insert_ne). rewrite (store_task_at k1 i t) by done. cbn [wlp].
  eapply alike_ok; [|apply (join_ok (put i t' k) n u u' 0 Hok1 Hn1 ltac:(by right) Hnf U1 U2)]; try done.
  - split; cbn in *; rewrite ?E1, ?E2, ?E3, ?E4; [by rewrite list_insert_insert_ne|done|done|lia].
  - congruence.
  - intros q Hq. rewrite U4 in Hq. injection Hq as <-. split; [done|]. exists t'. split; [done|exact Ha].
  - rewrite U5, Z.add_0_r. apply (table_pids _ _ Htab n u Hn). congruence.
  - intros j v Hj Hv Hst E. rewrite U5 in E. apply Hj. by apply (table_pid _ _ (tasks_table _ Hok1) j n v u Hv Hn1 Hst ltac:(congruence) E).
Qed.

Lemma spawn_ok k entry arg : tasks_ok k -> keeps (task_create_kernel entry arg k).
Proof.
  intros Hok. unfold task_create_kernel. destruct (entry =? 0); [done|]. eapply wlp_step; [apply free_task_at|]. intros [n|] k0 [-> Hn]; [|done].
  destruct Hn as (t & Hn & Hs). eapply wlp_store; [done|]. set (t1 := t <| task_state := Creating |>). unfold allocpid_locked.
  eapply (wlp_step (fun id k1 => id = nextpid k /\ k1 = put n t1 k <| nextpid := nextpid k + 1 |>)).
  { eapply wlp_eq; [reflexivity|]. cbn [put nextpid]. by destruct (nextpid _ =? INT_MAX). }
  intros ? k1 [-> ->]. eapply wlp_store; [by eapply put_lookup|]. set (t2 := _ <| task_context := FirstRun |> <| task_state := Ready |>).
  cbn [wlp modify mret M_ret mbind M_bind rbind]. pose proof (next_pos k Hok) as Hnp.
  eapply alike_ok; [|apply (join_ok k n t t2 1 Hok Hn ltac:(by left))]; try done.
  - split; cbn; [by rewrite list_insert_insert_eq|done..].
  - eapply unused_no_fork; [apply Hok|done|congruence].
  - cbn. lia.
  - intros j u _ Hj Hu. by eapply pids_new; [apply Hok|..].
Qed.

(** ** Exit *)

Section exit_step.
Context {k : kernel} {c i : nat} {t : TaskControlBlock} {q : nat} {code : Z}.
Context (Hok : tasks_ok k) (Hrun : runs (cpus k) c i) (Hi : tasks k !! i = Some t) (Hs : task_state t = Running).
Context (Hi0 : i <> 0%nat) (Hf : forall n, task_context t <> InFork n) (Hp : parent t = Some q).

Let t' := t <| exit_code := code |> <| task_state := Zombie |>.
Definition posted (tq : TaskControlBlock) : TaskControlBlock := tq <| child_exit := (sem_post (child_exit tq)).1 |>.

Lemma exit_parent : exists tq, tasks k !! q = Some tq /\ alive tq = true /\ q <> i.
Proof using All. destruct (table_parent _ _ (tasks_table _ Hok) i t q Hi Hp) as (Hne & tq & E & Ha). by exists tq. Qed.

Lemma exit_list tq : tasks k !! q = Some tq ->
  let l3 := <[q := posted (adopt i tq)]> (adopt i <$> <[i := t']> (tasks k)) in
  table_ok l3 (nextpid k) /\ count alive l3 = count alive (tasks k) - 1 /\ (forall j, running l3 j <-> j <> i /\ running (tasks k) j) /\
  l3 !! q = Some (posted (adopt i tq)) /\ (forall j u, l3 !! j = Some u -> j <> q -> sleep_ok u).
Proof using All.
  intros Hq l3. destruct exit_parent as (tq1 & E & Haq & Hqi). rewrite Hq in E. injection E as <-. pose proof (tasks_table _ Hok) as Htab.
  pose proof (table_local _ _ Htab q tq Hq Haq) as [L1 L2 L3].
  assert (Hg : gentle (tasks k) q tq (posted tq)).
  { apply gentle_mk; try done; [intros _; split; cbn; [done|done|lia]|]. cbn. lia. }
  destruct (gentle_insert _ _ q tq (posted tq) Htab Hq Hg ltac:(by intros _ n)) as [G1 G2].
  set (l0 := <[q := posted tq]> (tasks k)) in *. assert (Hi1 : l0 !! i = Some t) by (unfold l0; by rewrite list_lookup_insert_ne).
  assert (Hq1 : l0 !! q = Some (posted tq)) by (apply list_lookup_insert_eq; by eapply lookup_lt_Some).
  assert (El : l3 = adopt i <$> <[i := t']> l0).
  { unfold l3, l0. rewrite list_insert_insert_ne by done. rewrite (list_fmap_insert (adopt i) (<[i := t']> (tasks k)) q). f_equal.
    unfold posted, adopt. by case_bool_decide; case_bool_decide. }
  assert (Hz : zombies l0 q = zombies (tasks k) q) by (apply gentle_zombies; [apply length_insert|by eapply gentle_one]).
  destruct (exit_table (t' := t') G1 Hi1 (step_alive Hs) Hi0 Hp Hf Hq1) as [T1 T2]; try done.
  { intros Hq0. rewrite Hz. pose proof (table_tokens _ _ Htab q tq Hq Haq Hq0) as H. cbn. lia. }
  rewrite <- El in T1, T2. assert (Hlk : forall j u, l3 !! j = Some u -> j = i /\ u = t' \/ j <> i /\ exists v, l0 !! j = Some v /\ u = adopt i v).
  { intros j u Hj. rewrite El in Hj. by eapply (exit_lookup (t' := t') G1 Hi1 (step_alive Hs) Hi0 Hp Hf Hq1); [..|exact Hj]; try done; intros Hq0; rewrite Hz;
      pose proof (table_tokens _ _ Htab q tq Hq Haq Hq0); cbn; lia. }
  assert (Hl0 : forall j v, l0 !! j = Some v -> j = q /\ v = posted tq \/ j <> q /\ tasks k !! j = Some v).
  { intros j v Hj. unfold l0 in Hj. rewrite (lookup_two _ q tq) in Hj by done. case_decide; [left; split; [done|congruence]|by right]. }
  assert (Hq3 : l3 !! q = Some (posted (adopt i tq))).
  { unfold l3. rewrite list_lookup_insert_eq; [done|]. rewrite length_fmap, length_insert. by eapply lookup_lt_Some. }
  split_and!; [done|lia| |done|].
  - intros j. split.
    + intros (u & Hj & Hu). destruct (Hlk j u Hj) as [[-> ->]|(Hne & v & Hv & ->)]; [done|]. split; [done|]. rewrite (proj1 (adopt_same i v)) in Hu.
      destruct (Hl0 j v Hv) as [[-> ->]|[_ Hv']]; [by exists tq|by exists v].
    + intros [Hne (u & Hj & Hu)]. destruct (decide (j = q)) as [->|Hjq]; [exists (posted (adopt i tq)); split; [done|]; cbn; rewrite (proj1 (adopt_same i tq)); congruence|].
      exists (adopt i u). rewrite (proj1 (adopt_same i u)). split; [|done]. unfold l3. rewrite list_lookup_insert_ne by done. by rewrite list_lookup_fmap, list_lookup_insert_ne, Hj by done.
  - intros j u Hj Hjq E1 E2. destruct (Hlk j u Hj) as [[-> ->]|(Hne & v & Hv & ->)]; [done|]. destruct (Hl0 j v Hv) as [[? _]|[_ Hv']]; [done|].
    destruct (adopt_same i v) as (A1 & A2 & -> & _). apply (tasks_asleep _ Hok j v Hv'); congruence.
Qed.

Lemma exit_ok : keeps (exit_locked c i q code k).
Proof using All.
  destruct exit_parent as (tq & Hq & Haq & Hqi). destruct (exit_list tq Hq) as (T1 & T2 & T3 & T4 & T5). set (l3 := <[q := posted (adopt i tq)]> _) in *.
  pose proof (table_local _ _ T1 q _ T4) as HL. destruct HL as [L1 L2 L3]; [unfold posted, alive; cbn; rewrite (proj1 (adopt_same i tq)); exact Haq|].
  pose proof Hrun as (x & Hc & Hx). unfold exit_locked. eapply wlp_store; [done|]. fold t'. eapply wlp_eq; [reflexivity|]. eapply wlp_eq; [reflexivity|].
  match goal with |- wlp _ (_ ?s) => set (k1 := s) end.
  assert (A1 : tasks k1 = adopt i <$> <[i := t']> (tasks k)) by done. assert (A2 : cpus k1 = cpus k) by done.
  assert (A3 : task_count k1 = task_count k - 1) by done. assert (A4 : nextpid k1 = nextpid k) by done. clearbody k1.
  assert (Hq1 : tasks k1 !! q = Some (adopt i tq)) by (rewrite A1, list_lookup_fmap, list_lookup_insert_ne, Hq; done).
  eapply wlp_eq; [by apply load_task_at|]. eapply wlp_store; [done|]. fold (posted (adopt i tq)).
  assert (B1 : tasks (put q (posted (adopt i tq)) k1) = l3) by (unfold l3; cbn; by rewrite A1).
  set (k2 := put q (posted (adopt i tq)) k1) in *. assert (B2 : cpus k2 = cpus k) by done. assert (B3 : task_count k2 = task_count k - 1) by done.
  assert (B4 : nextpid k2 = nextpid k) by done. clearbody k2.
  assert (Hfin : forall l', length l' = length l3 -> (forall j u, l3 !! j = Some u -> exists u', l' !! j = Some u' /\ wakes u u') ->
    (forall u, l' !! q = Some u -> sleep_ok u) -> keeps (scheduler_back c (k2 <| tasks := l' |>))).
  { intros l' Hlen Hw Hsl. unfold scheduler_back. rewrite (store_cpu_at _ c x) by (cbn; by rewrite B2). cbn [wlp].
    destruct (wakes_table Hlen Hw _ T1) as [W1 W2]. pose proof (wakes_running Hlen Hw) as W3. destruct Hok as [H1 H2 H3 H4].
    split; cbn; [by rewrite B4| | |lia].
    - eapply (cpus_leave _ _ _ _ c i); [exact H2|done| |intros j; rewrite W3; apply T3].
      intros d j. rewrite B2, (runs_insert _ c x) by done. cbn. split; [by intros [[_ ?]|?]|by right].
    - intros j u Hj. destruct (decide (j = q)) as [->|Hjq]; [by apply Hsl|]. intros E1 E2. destruct (wakes_back Hlen Hw j u Hj) as (v & Hv & [-> | [_ [r ->]]]); [|done].
      by apply (T5 j v). }
  assert (Eself : k2 <| tasks := l3 |> = k2) by (rewrite <- B1; by destruct k2).
  destruct (negb (waiters (child_exit (adopt i tq)) =? 0)) eqn:Ew; unfold sem_post; cbn [snd]; rewrite Ew; cbn [when].
  - unfold task_wake_locked. eapply wlp_eq; [reflexivity|]. rewrite B1. apply Hfin; [apply wake_loop_length|apply wake_loop_wakes|].
    intros u Hu E1 E2. destruct (wakes_back (wake_loop_length _ _ l3) (wake_loop_wakes _ _ l3) q u Hu) as (v & Hv & [-> | [_ [r ->]]]); [|done].
    rewrite T4 in Hv. injection Hv as <-. exfalso. destruct (L1 E1) as [[? _]|(_ & Hch & _)]; [congruence|].
    rewrite (wake_loop_only (child_exit_of q) l3 q _ T4 E1 Hch) in Hu; [apply (f_equal (fmap task_state)) in Hu; cbn in Hu; cbn in E1; congruence|].
    intros j w Hj Hw1 Hw2. destruct (table_local _ _ T1 j w Hj) as [M1 _ _]; [unfold alive; by rewrite Hw1|].
    destruct (M1 Hw1) as [[_ [a Ea]]|(_ & Ea & _)]; congruence.
  - eapply wlp_eq; [reflexivity|]. rewrite <- Eself. apply Hfin; [done| |].
    + intros j u Hj. exists u. split; [done|by left].
    + intros u Hu E1 E2. rewrite T4 in Hu. injection Hu as <-. exfalso. apply negb_false_iff, Z.eqb_eq in Ew. rewrite E2 in L2. cbn in L2. lia.
Qed.
End exit_step.
