(* ===== verification/TaskProps.v ===== *)
(** * Tasks: what the steps of the machine show *)

From S2P Require Import Prelude Sys Paging Task TaskInv TaskSteps.

(** [sem_wait] does not read where the task was. *)
Lemma sem_turn_context k c i t t1 x : tasks k !! i = Some t ->
  child_sem_turn c i (put i t1 k) = child_sem_turn c i (put i (t1 <| task_context := x |>) k).
Proof.
  intros Hi. unfold child_sem_turn, jump. rewrite !(mbind_ret _ _ _ _ _ (load_task_at _ i _ (put_lookup k i t _ Hi))).
  rewrite !(mbind_ret _ _ _ _ _ (store_task_at _ i _ _ (put_lookup k i t _ Hi))), !put_put. cbn [child_exit].
  destruct (sem_turn _) as [s []]; cbn [fst snd].
  - rewrite !(store_task_at _ i _ _ (put_lookup k i t _ Hi)), !put_put. done.
  - rewrite !(mbind_ret _ _ _ _ _ (store_task_at _ i _ _ (put_lookup k i t _ Hi))), !put_put. done.
Qed.

Section step.
Context {k : kernel} {c i : nat} {t : TaskControlBlock}.
Context (Hok : tasks_ok k) (Hrun : runs (cpus k) c i) (Hi : tasks k !! i = Some t) (Hs : task_state t = Running).

Lemma jump_keeps x :
  (forall n, x = InFork n -> task_context t = InFork n) -> waiting x = waiting (task_context t) ->
  credit (task_context t) <= credit x -> keeps (jump i x k).
Proof using All.
  intros Hf Hw Hc. unfold jump. rewrite (store_task_at k i t) by done. cbn [wlp]. apply (jump_ok Hok Hrun Hi Hs); [done|done|].
  intros Hi0. pose proof (tokens Hok Hrun Hi Hs Hi0). lia.
Qed.

Lemma woken_ok r : task_context t = WaitWoken r ->
  keeps ((store_task i (fun p => p <| child_exit := sem_wakened (child_exit p) |>);; if r <? 0 then jump i WaitScan else child_sem_turn c i) k).
Proof using All.
  intros Hc. eapply wlp_store; [done|]. pose proof (step_local Hok Hrun Hi Hs) as [L1 L2 L3]. rewrite Hc in L2. cbn in L2. pose proof (step_alive Hs) as Ha.
  pose proof (tokens Hok Hrun Hi Hs) as Hz. rewrite Hc in Hz. cbn in Hz.
  assert (Hmove : forall x, waiting x = false -> (forall n, x <> InFork n) -> tasks_ok (put i (t <| child_exit := sem_wakened (child_exit t) |> <| task_context := x |>) k)).
  { intros x Hx Hf. apply (put_gentle k i t); [done|done| |by intros _ n E; destruct (Hf n)|done|by intros E; cbn in E; congruence].
    apply gentle_mk; try done; [intros _; split; cbn; [congruence|by rewrite Hx, L2|done]|]. intros Hi0 _ _. specialize (Hz Hi0). cbn. destruct x; cbn; lia. }
  destruct (r <? 0).
  - unfold jump. rewrite (store_task_at _ i _ _ (put_lookup k i t _ Hi)), put_put. cbn [wlp]. by apply Hmove.
  - rewrite (sem_turn_context k c i t _ WaitSem Hi). eapply (sem_turn_ok _ c i); [by apply Hmove|done|by eapply put_lookup|done|done|done|].
    intros Hi0. cbn. unfold put. cbn. rewrite (gentle_zombies (l := tasks k)); [specialize (Hz Hi0); lia|apply length_insert|]. eapply gentle_one; [done|].
    apply gentle_mk; try done; [intros _; split; cbn; [congruence|by rewrite L2|done]|]. intros _ _ _. specialize (Hz Hi0). cbn. lia.
Qed.

Lemma continue_ok : keeps (continue c i (task_context t) k).
Proof using All.
  destruct (task_context t) as [| | |n| | | |r|code|code par] eqn:Hc; cbn [continue].
  - apply jump_keeps; by rewrite ?Hc.
  - done.
  - eapply (sleep_leave_ok k c); try done. intros r t' -> Hok'. unfold jump. rewrite (store_task_at _ i _ _ (put_lookup k i t _ Hi)). cbn [wlp].
    apply (jump_ok (c := c) Hok' Hrun (put_lookup k i t _ Hi) Hs); [done|cbn; by rewrite ?Hc|]. intros Hi0.
    pose proof (tokens Hok' Hrun (put_lookup k i t _ Hi) Hs Hi0) as H. cbn in H. by rewrite Hc in H.
  - by apply (fork_finish_ok k c i t).
  - by apply (wait_scan_ok k c i t).
  - apply (sem_turn_ok k c i t); try done; rewrite ?Hc; try done. intros Hi0. pose proof (tokens Hok Hrun Hi Hs Hi0) as H. rewrite Hc in H. cbn in H. lia.
  - eapply (sleep_leave_ok k c); try done. intros r t' -> Hok'. unfold jump. rewrite (store_task_at _ i _ _ (put_lookup k i t _ Hi)). cbn [wlp].
    apply (jump_ok (c := c) Hok' Hrun (put_lookup k i t _ Hi) Hs); [done|cbn; by rewrite ?Hc|]. intros Hi0.
    pose proof (tokens Hok' Hrun (put_lookup k i t _ Hi) Hs Hi0) as H. cbn in H. by rewrite Hc in H.
  - by apply woken_ok.
  - eapply wlp_eq; [by apply load_task_at|]. apply jump_keeps; by rewrite ?Hc.
  - destruct par as [q|]; [|done]. eapply wlp_eq; [reflexivity|]. eapply wlp_eq; [by apply load_task_at|].
    case_bool_decide as Hp; [|apply jump_keeps; by rewrite ?Hc]. apply (exit_ok (t := t)); try done; [|by rewrite Hc].
    intros ->. destruct (table_init _ _ (tasks_table _ Hok)) as (t0 & E & _ & Hp0 & _). congruence.
Qed.

Lemma call_ok trampoline a : task_context t = Normal -> keeps (call trampoline c i a k).
Proof using All.
  intros Hc. destruct a as [now| | |a deadline|a all|entry arg| | |code|m root size stack]; cbn [call]; try done.
  - unfold jump. eapply wlp_store; [done|]. eapply (sleep_enter_ok (i := i) (t := t <| task_context := InSleep |>)) with (t0 := InSleep); try done.
    + apply (jump_ok Hok Hrun Hi Hs); [done|by rewrite Hc|]. intros Hi0. pose proof (tokens Hok Hrun Hi Hs Hi0) as H. by rewrite Hc in H.
    + by eapply put_lookup.
    + right. split; [by exists a|done].
  - eapply wlp_step; [by apply (wake_ok k)|]. by intros ? k1 ?.
  - eapply wlp_step; [by apply spawn_ok|]. by intros ? k1 ?.
  - eapply wlp_step; [apply allocproc_ok|]. intros [n|] k1 H; [|by subst]. by eapply (fork_begin_ok k c i t n k1).
  - apply jump_keeps; by rewrite ?Hc.
  - eapply wlp_eq; [by apply load_task_at|]. destruct (pid t =? 0); [done|]. apply jump_keeps; by rewrite ?Hc.
  - eapply wlp_eq; [reflexivity|]. rewrite (store_task_at _ i t) by done. cbn [wlp]. pose proof (step_alive Hs) as Ha.
    apply (put_gentle (k <| memory := m |>) i t); [by apply tasks_ok_memory|done| |by intros _ n|done|by intros E; cbn in E; congruence].
    apply gentle_mk; try done. intros [L1 L2 L3]. by split.
Qed.
End step.

Lemma action_ok trampoline c a k : tasks_ok k -> keeps (run trampoline c a k).
Proof.
  intros Hok. assert (Hother : forall a, keeps ((i ← current_proc c; p ← load_task i; match a, task_context p with
      | Continue, x => continue c i x | a, Normal => call trampoline c i a | _, _ => stuck end) k)).
  { intros b. apply wlp_current. intros i Hrun. destruct (runs_task k c i Hok Hrun) as (t & Hi & Hs & _). eapply wlp_eq; [by apply load_task_at|].
    pose proof (continue_ok Hok Hrun Hi Hs) as H1. pose proof (fun b Hc => call_ok Hok Hrun Hi Hs trampoline b Hc) as H2.
    destruct b; try done; destruct (task_context t) eqn:Hc; try done; by apply H2. }
  destruct a as [now| | |a d|a all|e arg| | |code|m r z st]; cbn [run];
    [| |apply (Hother Continue)|apply (Hother (Sleep a d))|apply (Hother (Wake a all))|apply (Hother (Spawn e arg))|apply (Hother Fork)|apply (Hother Wait)
     |apply (Hother (Exit code))|apply (Hother (Image m r z st))].
  - apply wlp_load_cpu. intros x Hx. destruct (proc x) eqn:Ep; [done|]. eapply wlp_step; [by apply (turn_ok k c now x)|]. by intros ? k1 ?.
  - by apply preempt_ok.
Qed.

(** ** The machine from its start *)

(** The memory before [os_main]: no task has a parent, no processor a task. *)
Record bare (k : kernel) : Prop := {
  bare_tasks : (0 < length (tasks k))%nat;
  bare_parent : forall i t, tasks k !! i = Some t -> parent t = None;
  bare_cpus : forall c x, cpus k !! c = Some x -> proc x = None }.

(** The first task among unused entries. *)
Lemma first_task_ok k t :
  tasks k !! 0%nat = Some t -> task_state t = Ready -> parent t = None -> pid t = 0 -> task_context t = FirstRun -> child_exit t = Sem 0 0 ->
  (forall i u, i <> 0%nat -> tasks k !! i = Some u -> task_state u = UnInit /\ parent u = None) -> (forall c x, cpus k !! c = Some x -> proc x = None) ->
  nextpid k = 1 -> task_count k = 1 -> tasks_ok k.
Proof.
  intros H0 Hs Hp Hid Hc He Hrest Hcpu Hn Hcnt.
  assert (Hall : forall i u, tasks k !! i = Some u -> i = 0%nat /\ u = t \/ task_state u = UnInit /\ parent u = None).
  { intros i u Hi. destruct (decide (i = 0%nat)) as [->|]; [left; split; congruence|right; by apply (Hrest i)]. }
  assert (Halive : forall i u, tasks k !! i = Some u -> alive u = true -> i = 0%nat /\ u = t).
  { intros i u Hi Hu. destruct (Hall i u Hi) as [?|[E _]]; [done|]. unfold alive in Hu. by rewrite E in Hu. }
  assert (Ha : alive t = true) by (unfold alive; by rewrite Hs).
  split; [split|split| |].
  - by exists t.
  - intros i u q Hi Hq. destruct (Hall i u Hi) as [[_ ->]|[_ ?]]; congruence.
  - intros i u Hi _. by destruct (Hall i u Hi) as [[_ ->]|[_ ?]].
  - intros i u Hi Hu. destruct (Hall i u Hi) as [[_ ->]|[? _]]; congruence.
  - intros i u Hi Hu. destruct (Hall i u Hi) as [[_ ->]|[? _]]; congruence.
  - intros i u Hi Hu. destruct (Halive i u Hi Hu) as [-> ->]. split; [congruence|by rewrite He, Hc|by rewrite He].
  - intros i u Hi Hu Hi0. by destruct (Halive i u Hi Hu).
  - split.
    + intros i u n Hi Hu Hf. destruct (Halive i u Hi Hu) as [-> ->]. congruence.
    + intros i j u v n Hi Hj Hu Hv _ _. destruct (Halive i u Hi Hu) as [-> _], (Halive j v Hj Hv) as [-> _]. done.
  - intros i u Hi Hu. destruct (Hall i u Hi) as [[_ ->]|[? _]]; [lia|done].
  - intros i j u v Hi Hj Hu Hv _. destruct (Hall i u Hi) as [[-> _]|[? _]]; [|done]. by destruct (Hall j v Hj) as [[-> _]|[? _]].
  - intros c i (x & Hx & Hpx). rewrite (Hcpu c x Hx) in Hpx. done.
  - intros c c' i (x & Hx & Hpx). rewrite (Hcpu c x Hx) in Hpx. done.
  - intros i (u & Hi & Hu). destruct (Hall i u Hi) as [[_ ->]|[? _]]; congruence.
  - intros i u Hi Hu. destruct (Hall i u Hi) as [[_ ->]|[? _]]; congruence.
  - rewrite Hcnt. destruct (tasks k) as [|t0 l] eqn:El; [done|]. injection H0 as ->. unfold count. rewrite filter_cons, decide_True by done. cbn [length].
    assert (Hl : count alive l = 0). { apply count_zero. intros i u Hi. destruct (Hrest (S i) u ltac:(done)) as [E _]; [done|]. unfold alive. by rewrite E. }
    unfold count in Hl. lia.
Qed.

Section machine.
Context (trampoline kernel_satp trap_handler sstatus : Z).

Lemma tasks_boot_ok m root size stack start k : bare k -> keeps (boot trampoline kernel_satp trap_handler sstatus m root size stack start k).
Proof.
  intros [B1 B2 B3]. unfold boot. eapply wlp_eq; [reflexivity|]. set (k1 := _ <| tasks := _ |>).
  assert (Hk1 : forall i u, tasks k1 !! i = Some u -> task_state u = UnInit /\ parent u = None).
  { intros i u Hu. cbn in Hu. rewrite list_lookup_fmap in Hu. apply fmap_Some in Hu as (v & Hv & ->). split; [done|]. cbn. by apply (B2 i). }
  assert (Hrest : cpus k1 = cpus k /\ nextpid k1 = 0 /\ task_count k1 = 0) by done. destruct Hrest as (E2 & E3 & E4).
  assert (Hlen : (0 < length (tasks k1))%nat) by (cbn; by rewrite length_fmap). clearbody k1.
  destruct (lookup_lt_is_Some_2 (tasks k1) 0 Hlen) as [t Ht]. destruct (Hk1 0%nat t Ht) as [Hs Hp].
  eapply (wlp_step (fun _ k2 => exists t', alike (put 0 t' k1) k2 /\ task_state t' = Creating /\ parent t' = None /\ child_exit t' = Sem 0 0)).
  { unfold task_create_pt. cbn [Nat.leb MAX_TASKS]. eapply wlp_eq; [by apply load_task_at|]. rewrite bool_decide_eq_true_2 by done. cbn [negb].
    eapply wlp_store; [done|]. set (t1 := task_reset_wait _). assert (Hq : task_state t1 = Creating /\ parent t1 = None /\ child_exit t1 = Sem 0 0) by done. clearbody t1.
    assert (H1 : tasks (put 0 t1 k1) !! 0%nat = Some t1) by (by eapply put_lookup).
    eapply wlp_step; [apply (proc_trap_ok H1)|]. intros ? k2 H2. destruct (equips_lookup 0 t1 _ k2 H1 H2) as (t2 & S2 & H3 & A2).
    eapply wlp_step; [apply (proc_pagetable_ok H3)|]. intros ? k3 H4. apply (equips_trans 0 t1 t2 (put 0 t1 k1) k2 k3 S2 A2) in H4 as (t3 & (S1 & S3 & S4 & S5) & A3).
    rewrite put_put in A3. cbn [wlp mret M_ret]. exists t3. split; [done|]. destruct Hq as (Q1 & Q2 & Q3). split_and!; congruence. }
  intros _ k2 (t1 & [A1 A2 A3 A4] & Q1 & Q2 & Q3). eapply wlp_eq; [reflexivity|].
  assert (H0 : tasks k2 !! 0%nat = Some t1) by (rewrite A1; by eapply put_lookup). eapply wlp_store; [done|]. set (t2 := t1 <| pagetable := root |> <| base_size := size |> <| ustack := stack |> <| entry := start |>).
  set (k3 := put 0 t2 _). assert (H3 : tasks k3 !! 0%nat = Some t2) by (by eapply put_lookup). unfold app_init. eapply wlp_eq; [by apply load_task_at|].
  unfold store_reg. do 6 (apply wlp_mem; intros _ ?). unfold jump. eapply wlp_store; [done|]. eapply wlp_eq; [apply load_task_at; by eapply put_lookup|].
  rewrite bool_decide_eq_true_2 by done. cbn [negb]. unfold allocpid_locked.
  match goal with |- wlp _ (_ ?s) => set (k4 := s) end. assert (H4 : tasks k4 = <[0%nat := t2 <| task_context := FirstRun |>]> (tasks k1)).
  { unfold k4, k3. cbn in *. by rewrite A1, !list_insert_insert_eq. }
  assert (Hr4 : cpus k4 = cpus k /\ nextpid k4 = 0 /\ task_count k4 = 0) by (unfold k4, k3; cbn in *; rewrite A2, A3, A4; done). clearbody k4. destruct Hr4 as (F2 & F3 & F4).
  eapply (wlp_step (fun id k5 => id = 0 /\ k5 = k4 <| nextpid := 1 |>)).
  { eapply wlp_eq; [reflexivity|]. rewrite F3. change (0 =? INT_MAX) with false. eapply wlp_eq; [reflexivity|]. by rewrite F3. }
  intros ? k5 [-> ->]. assert (H5 : tasks (k4 <| nextpid := 1 |>) !! 0%nat = Some (t2 <| task_context := FirstRun |>)) by (cbn; rewrite H4; by apply list_lookup_insert_eq).
  eapply wlp_store; [done|]. cbn [modify wlp]. eapply first_task_ok; [cbn; apply list_lookup_insert_eq; by eapply lookup_lt_Some|..]; cbn; try done; try congruence.
  - intros i u Hi Hu. rewrite list_lookup_insert_ne, H4, list_lookup_insert_ne in Hu by done. by apply (Hk1 i).
  - by rewrite F2.
  - by rewrite F4.
Qed.

Inductive reachable : kernel -> Prop :=
| reach_boot k m root size stack start k' :
    bare k -> boot trampoline kernel_satp trap_handler sstatus m root size stack start k = Ret () k' -> reachable k'
| reach_step k c a k' : reachable k -> run trampoline c a k = Ret () k' -> reachable k'.

Lemma machine_ok k : reachable k -> tasks_ok k.
Proof.
  induction 1 as [k m root size stack start k' Hb E|k c a k' _ IH E].
  - pose proof (tasks_boot_ok m root size stack start k Hb) as H. by rewrite E in H.
  - pose proof (action_ok trampoline c a k IH) as H. by rewrite E in H.
Qed.
Lemma reachable_all l k k' : reachable k -> run_all trampoline l k = Ret () k' -> reachable k'.
Proof.
  revert k. induction l as [|[c a] l IH]; intros k Hk; cbn [run_all]; [by intros [= ->]|]. unfold mbind, M_bind.
  destruct (run trampoline c a k) as [[] k1|] eqn:E; [|done]. cbn. apply IH. by eapply reach_step.
Qed.
End machine.

(** ** A concrete machine with tasks, for the witnesses *)

Definition is_ret {S A} (r : res S A) : bool := match r with Ret _ _ => true | Stuck => false end.
Definition state_of {S A} (r : res S A) (s : S) : S := match r with Ret _ s' => s' | Stuck => s end.
Lemma is_ret_state {S} (r : res S unit) s : is_ret r = true -> r = Ret () (state_of r s).
Proof. by destruct r as [[] ?|]. Qed.

(** 48 pages. *)
Definition first_page : Z := 0x80200.
Definition no_pages : vm :=
  Vm (list_to_map ((fun p => (p, zero_page)) <$> seqZ first_page 48)) (Allocator first_page (first_page + 48) 0 0 (replicate 48 0)).
Definition all_pages : vm := state_of (init_loop 48 (first_page + 48) no_pages) no_pages.

Definition zero_tcb : TaskControlBlock := Tcb UnInit 0 None Normal 0 0 0 0 0 0 0 0 0 0 None 0 0 (Sem 0 0).
Definition bare_kernel : kernel :=
  Kernel all_pages (replicate MAX_TASKS zero_tcb) ((fun c => Cpu c true true None false false) <$> seqZ 0 7) 0 0 0 false.
Definition tramp : Z := 0x80201000.

(** The image of the first task: nothing is mapped but the trampoline and the trap frame. *)
Definition image : kernel := state_of ((procinit;; task_create_pt tramp 0;; mret ()) bare_kernel) bare_kernel.
Definition image_root : Z := match tasks image !! 0%nat with Some t => pagetable t | None => 0 end.
Definition booted : kernel := state_of (boot tramp 0 0 0 (memory image) image_root 0 0 0x10000 bare_kernel) bare_kernel.

(** The first task forks a child [1] and waits; the child forks [2], which forks
    [3], each on a processor of its own. *)
Definition three_forks : list (nat * action) :=
  [(0, Turn 0); (0, Continue); (0, Fork); (0, Continue); (0, Wait); (0, Continue); (0, Continue);
   (0, Turn 0); (0, Continue); (0, Fork); (0, Continue);
   (1, Turn 0); (1, Continue); (1, Fork); (1, Continue);
   (2, Turn 0); (2, Continue)]%nat.
(** [2] waits, and then [3] exits. *)
Definition child_waited : list (nat * action) := [(1, Wait); (1, Continue); (1, Continue)]%nat.
Definition child_exits : list (nat * action) := [(2, Exit 7); (2, Continue); (2, Continue)]%nat.
(** [2] exits as well, without waiting. *)
Definition parent_exits : list (nat * action) := [(1, Exit 0); (1, Continue); (1, Continue)]%nat.

Definition after (l : list (nat * action)) : kernel := state_of (run_all tramp l booted) booted.

Lemma bare_ok : bare bare_kernel.
Proof.
  split; [cbn; lia| |].
  - intros i t Hi. change (tasks bare_kernel) with (replicate MAX_TASKS zero_tcb) in Hi. by apply lookup_replicate_1 in Hi as [-> _].
  - intros c x Hx. change (cpus bare_kernel) with ((fun c => Cpu c true true None false false) <$> seqZ 0 7) in Hx.
    rewrite list_lookup_fmap in Hx. by apply fmap_Some in Hx as (z & _ & ->).
Qed.
Lemma reach_state m root size stack start k :
  bare k -> is_ret (boot tramp 0 0 0 m root size stack start k) = true -> reachable tramp 0 0 0 (state_of (boot tramp 0 0 0 m root size stack start k) k).
Proof. intros Hb H. eapply reach_boot; [exact Hb|]. by apply is_ret_state. Qed.
Lemma booted_returns : is_ret (boot tramp 0 0 0 (memory image) image_root 0 0 0x10000 bare_kernel) = true.
Proof. vm_compute. reflexivity. Qed.
#[local] Opaque state_of boot.
Lemma booted_reachable : reachable tramp 0 0 0 booted.
Proof. exact (reach_state _ _ _ _ _ _ bare_ok booted_returns). Qed.
#[local] Transparent state_of boot.
Lemma after_reachable l : is_ret (run_all tramp l booted) = true -> reachable tramp 0 0 0 (after l).
Proof.
  generalize booted_reachable. unfold after. generalize booted. intros k Hk H. eapply reachable_all; [exact Hk|]. by apply is_ret_state.
Qed.

(** What a state says of its tasks. *)
Definition summary (k : kernel) : list (TaskState * Z * option nat * option channel) :=
  (fun t => (task_state t, pid t, parent t, wait_channel t)) <$> take 4 (tasks k).

Example three_forks_summary : summary (after three_forks) =
  [(Sleeping, 0, None, Some (child_exit_of 0)); (Running, 1, Some 0%nat, None); (Running, 2, Some 1%nat, None); (Running, 3, Some 2%nat, None)].
Proof. vm_compute. reflexivity. Qed.

(** The parent is woken. *)
Example child_exits_summary : summary (after (three_forks ++ child_waited ++ child_exits)) =
  [(Sleeping, 0, None, Some (child_exit_of 0)); (Running, 1, Some 0%nat, None); (Ready, 2, Some 1%nat, Some (child_exit_of 2)); (Zombie, 3, Some 2%nat, None)].
Proof. vm_compute. reflexivity. Qed.

(** The first task adopts a child that has exited before, and is not woken: it
    stays asleep in [wait] although that child could be collected. *)
Example init_misses_adopted_zombie : summary (after (three_forks ++ child_exits ++ parent_exits)) =
  [(Sleeping, 0, None, Some (child_exit_of 0)); (Running, 1, Some 0%nat, None); (Zombie, 2, Some 1%nat, None); (Zombie, 3, Some 0%nat, None)].
Proof. vm_compute. reflexivity. Qed.
