(* ===== verification/SchedProps.v ===== *)
(** * Tasks: the properties and their witnesses *)

From S2P Require Import Prelude Sys Paging Task TaskInv TaskSteps TaskProps.

(** C11: in every state that the kernel reaches, whatever the processors do and
    in whatever order, a task runs on at most one processor, a task is marked
    as running if and only if a processor runs it, and the calls of [schedule]
    and [task_sleep] by a running task do not panic. *)
Theorem one_cpu_per_task trampoline kernel_satp trap_handler sstatus k :
  reachable trampoline kernel_satp trap_handler sstatus k ->
  (forall c c' i, runs (cpus k) c i -> runs (cpus k) c' i -> c = c') /\
  (forall i t, tasks k !! i = Some t -> task_state t = Running <-> exists c, runs (cpus k) c i) /\
  (forall c i ch deadline, runs (cpus k) c i ->
     (exists k', schedule c k = Ret () k') /\ exists k', task_sleep_enter c ch deadline k = Ret () k').
Proof.
  intros Hr%machine_ok. pose proof (tasks_cpus _ Hr) as [H1 H2 H3]. split_and!; [done| |].
  - intros i t Hi. split; [intros Hs; apply H3; by exists t|]. intros [c Hc]. destruct (H1 c i Hc) as (u & E & Hu). congruence.
  - intros c i ch deadline Hc. destruct (runs_task k c i Hr Hc) as (t & Hi & Hs & _). destruct Hc as (x & Hx & Hp).
    assert (Hcur : current_proc c k = Ret i k).
    { unfold current_proc. rewrite (mbind_ret _ _ _ _ _ (load_cpu_at k c x Hx)). by apply deref_ret. }
    split; eexists.
    + unfold schedule. rewrite (mbind_ret _ _ _ _ _ Hcur), (mbind_ret _ _ _ _ _ (load_task_at k i t Hi)), bool_decide_eq_true_2 by done. cbn [negb].
      rewrite (mbind_ret _ _ _ _ _ (store_task_at k i t _ Hi)), (mbind_ret _ _ _ _ _ (store_cpu_at (put i _ k) c x _ Hx)).
      apply store_cpu_at. by eapply put_cpu_lookup.
    + unfold task_sleep_enter. rewrite (mbind_ret _ _ _ _ _ Hcur), (mbind_ret _ _ _ _ _ (load_task_at k i t Hi)), bool_decide_eq_true_2 by done. cbn [negb].
      rewrite (mbind_ret _ _ _ _ _ (store_task_at k i t _ Hi)). by apply (store_cpu_at (put i _ k) c x).
Qed.
Lemma one_cpu_per_task_witness : runs (cpus (after three_forks)) 1 2 /\ ~ runs (cpus (after three_forks)) 0 2 /\
  exists k', schedule 1 (after three_forks) = Ret () k'.
Proof.
  assert (E : proc <$> cpus (after three_forks) !! 1%nat = Some (Some 2%nat)) by (vm_compute; reflexivity).
  apply fmap_Some in E as (x & Hx & Hp). symmetry in Hp.
  assert (Hr : runs (cpus (after three_forks)) 1 2) by exact (ex_intro _ x (conj Hx Hp)).
  destruct (one_cpu_per_task tramp 0 0 0 (after three_forks)) as (H1 & _ & H3); [apply after_reachable; vm_compute; reflexivity|].
  split; [exact Hr|split; [intros H0; discriminate (H1 0%nat 1%nat 2%nat H0 Hr)|]].
  exact (proj1 (H3 1%nat 2%nat (child_exit_of 0) 0 Hr)).
Defined.

(** C12: no exit is missed: in no state that the kernel reaches does a task other
    than the first one sleep in [wait] while one of its children has exited and
    waits to be collected. *)
Theorem exit_not_missed trampoline kernel_satp trap_handler sstatus k i t j u :
  reachable trampoline kernel_satp trap_handler sstatus k ->
  i <> 0%nat -> tasks k !! i = Some t -> task_state t = Sleeping -> wait_channel t = Some (child_exit_of i) ->
  tasks k !! j = Some u -> parent u = Some i -> task_state u <> Zombie.
Proof.
  intros Hr%machine_ok Hi0 Hi Hs Hch Hj Hp Hz. pose proof (tasks_table _ Hr) as Htab. assert (Ha : alive t = true) by (unfold alive; by rewrite Hs).
  pose proof (table_local _ _ Htab i t Hi Ha) as [L1 _ _]. destruct (L1 Hs) as [[_ [a Ea]]|(Hc & _)]; [congruence|].
  pose proof (table_tokens _ _ Htab i t Hi Ha Hi0) as H. rewrite (tasks_asleep _ Hr i t Hi Hs Hc), Hc in H. cbn in H.
  assert (0 < zombies (tasks k) i) by (eapply count_pos; [exact Hj|]; unfold is_zombie_of; by rewrite Hz, Hp, !bool_decide_eq_true_2). lia.
Qed.
Lemma exit_not_missed_witness : exists t u,
  tasks (after (three_forks ++ child_waited)) !! 2%nat = Some t /\ task_state t = Sleeping /\
  tasks (after (three_forks ++ child_waited)) !! 3%nat = Some u /\ parent u = Some 2%nat /\ task_state u <> Zombie.
Proof.
  pose proof (exit_not_missed tramp 0 0 0 (after (three_forks ++ child_waited)) 2) as H.
  assert (E : summary (after (three_forks ++ child_waited)) =
    [(Sleeping, 0, None, Some (child_exit_of 0)); (Running, 1, Some 0%nat, None); (Sleeping, 2, Some 1%nat, Some (child_exit_of 2)); (Running, 3, Some 2%nat, None)])
    by (vm_compute; reflexivity).
  pose proof (after_reachable (three_forks ++ child_waited) ltac:(vm_compute; reflexivity)) as Hr.
  specialize (fun t j u => H t j u Hr). revert H E. generalize (after (three_forks ++ child_waited)). clear. intros k H E.
  unfold summary in E. destruct (tasks k) as [|t0 [|t1 [|t2 [|t3 l]]]] eqn:El; cbn in E; try discriminate E. injection E as _ _ _ _ _ _ _ _ E1 _ _ E2 _ _ E3 _.
  exists t2, t3. split_and!; [done|done|done|done|]. by apply (H t2 3%nat t3).
Defined.

(** C13: the tree of processes is sound in every state that the kernel reaches:
    a task that has exited has a parent that is alive and can collect it, every
    parent is alive, the identifiers of the tasks are distinct, and
    [task_count] is the number of tasks that are alive. *)
Theorem process_tree_sound trampoline kernel_satp trap_handler sstatus k :
  reachable trampoline kernel_satp trap_handler sstatus k ->
  (forall i t, tasks k !! i = Some t -> task_state t = Zombie -> is_Some (parent t)) /\
  (forall i t q, tasks k !! i = Some t -> parent t = Some q -> q <> i /\ exists u, tasks k !! q = Some u /\ alive u = true) /\
  (forall i j t u, tasks k !! i = Some t -> tasks k !! j = Some u -> task_state t <> UnInit -> task_state u <> UnInit -> pid t = pid u -> i = j) /\
  task_count k = count alive (tasks k).
Proof. intros [[H1 H2 H3 H0 H4 H5 H6 H7 H8 H9] _ _ H10]%machine_ok. done. Qed.
Lemma process_tree_sound_witness :
  task_count (after (three_forks ++ child_exits ++ parent_exits)) = count alive (tasks (after (three_forks ++ child_exits ++ parent_exits))).
Proof. apply (process_tree_sound tramp 0 0 0), after_reachable. vm_compute. reflexivity. Defined.

(** ** The choice of a task *)

Lemma pick_loop_rest hart l j fb fb' :
  pick_loop hart l j fb = inr fb' -> forall i t, l !! i = Some t -> task_state t = Ready -> last_hart t < 0 \/ last_hart t = hart.
Proof.
  revert j fb. induction l as [|u l IH]; intros j fb; cbn [pick_loop]; [done|]. case_bool_decide as Hr; cbn [negb].
  - destruct ((0 <=? last_hart u) && negb (last_hart u =? hart)) eqn:E; [done|]. intros H [|i] t Hi Hs; [injection Hi as <-|by eapply IH].
    apply andb_false_iff in E as [E%Z.leb_gt|E%negb_false_iff%Z.eqb_eq]; [by left|by right].
  - intros H [|i] t Hi Hs; [by injection Hi as <-|by eapply IH].
Qed.
Lemma pick_runnable_eq k x : pick_runnable x k = match pick_loop (hartid x) (tasks k) 0 None with
  | inl i => Ret (Some i) k | inr None => Ret None k
  | inr (Some i) => match tasks k !! i with
      | Some p => Ret (if (last_hart p =? hartid x) && other_cpu_idle (hartid x) (cpus k) then None else Some i) k
      | None => Stuck end
  end.
Proof.
  unfold pick_runnable, load_task, mbind, M_bind. cbn. destruct (pick_loop _ _ _ _) as [?|[i|]]; [done| |done].
  destruct (tasks k !! i) as [p|]; [|done]. cbn. by destruct (_ && _).
Qed.

(** C14: the choice of the scheduler wastes no processor: [pick_runnable] always
    returns, and what it chooses is ready.  If it chooses nothing although a
    task is ready, then another processor is idle, and every processor with
    another number chooses a task. *)
Theorem pick_runnable_conserves k x :
  0 <= hartid x ->
  exists r, pick_runnable x k = Ret r k /\
  match r with
  | Some i => exists t, tasks k !! i = Some t /\ task_state t = Ready
  | None => (forall i t, tasks k !! i = Some t -> task_state t <> Ready) \/
      other_cpu_idle (hartid x) (cpus k) = true /\
      forall y, hartid y <> hartid x -> exists j t, pick_runnable y k = Ret (Some j) k /\ tasks k !! j = Some t /\ task_state t = Ready
  end.
Proof.
  intros Hx. rewrite pick_runnable_eq. pose proof (pick_loop_ready (hartid x) (tasks k) 0 None ltac:(done)) as H.
  destruct (pick_loop (hartid x) (tasks k) 0 None) as [i|[i|]] eqn:E.
  - destruct H as (t & _ & Hi & Hs & _). rewrite Nat.sub_0_r in Hi. eexists. split; [done|]. by exists t.
  - destruct H as [?|(t & _ & _ & Hi & Hs & _)]; [done|]. rewrite Nat.sub_0_r in Hi. rewrite Hi. eexists. split; [done|].
    destruct ((last_hart t =? hartid x) && other_cpu_idle (hartid x) (cpus k)) eqn:Ed; [|by exists t].
    apply andb_true_iff in Ed as [Eh%Z.eqb_eq Eo]. right. split; [done|]. intros y Hy. rewrite pick_runnable_eq.
    pose proof (pick_loop_ready (hartid y) (tasks k) 0 None ltac:(done)) as H. destruct (pick_loop (hartid y) (tasks k) 0 None) as [j|fb] eqn:Ey.
    + destruct H as (u & _ & Hj & Hu & _). rewrite Nat.sub_0_r in Hj. by exists j, u.
    + destruct (pick_loop_rest _ _ _ _ _ Ey i t Hi Hs); lia.
  - destruct H as [_ H]. eexists. split; [done|]. by left.
Qed.
Lemma pick_runnable_conserves_witness : exists r, pick_runnable (Cpu 3 true true None false false) (after (three_forks ++ [(1, Preempt)]%nat)) =
  Ret r (after (three_forks ++ [(1, Preempt)]%nat)).
Proof.
  destruct (pick_runnable_conserves (after (three_forks ++ [(1, Preempt)]%nat)) (Cpu 3 true true None false false)) as (r & E & _); [done|]. by exists r.
Defined.
