(* ===== verification/ProcProps.v ===== *)
(** * The memory of a process: from [allocproc] to [freeproc] *)

From S2P Require Import Prelude Sys Task TaskInv TaskSteps TaskProps Paging Frames PageTree PageSpace VmProps.

Lemma wp_mem {A B} (m : M vm A) (K : A -> M kernel B) k (P : A -> vm -> Prop) (Q : B -> kernel -> Prop) :
  wp P (m (memory k)) -> (forall a m', P a m' -> wp Q (K a (k <| memory := m' |>))) -> wp Q ((on_mem m ≫= K) k).
Proof. intros Hm HK. unfold on_mem, zoom, mbind, M_bind. cbn. destruct (m (memory k)) as [a m'|]; [|done]. by apply HK. Qed.

(** One page is mapped at [v], where nothing was mapped. *)
Lemma map_page fl T root s v pa flags :
  space_ok fl T root s -> 0 <= v < 2 ^ 27 - 1 -> 0 <= pa < 2 ^ 56 -> 0 <= flags < 256 -> (2 <= length fl)%nat -> entry T (pages s) v = None ->
  wp (fun _ s' => exists fl' T', maps fl T root s (fun u => if decide (u = v) then Some (PageTableEntry_new (pa / 4096) (Z.lor PTE_V flags)) else entry T (pages s) u) 2 fl' T' s')
    (PageTable_map root (v * 4096) pa PAGE_SIZE flags s).
Proof.
  intros Hok Hv Hpa Hf Hl He. pose proof (map_ok fl T root s (v * 4096) pa PAGE_SIZE flags Hok) as H. cbv zeta in H.
  assert (Ev : floor_virts (v * 4096) = v) by (by apply Z.div_mul).
  assert (En : u64 (v * 4096 + PAGE_SIZE - 1) / PAGE_SIZE - v + 1 = 1).
  { unfold u64, PAGE_SIZE. rewrite (Z.mod_small _ (2 ^ 64)) by lia. rewrite <- Z.add_sub_assoc, Z.div_add_l by done. change ((4096 - 1) / 4096) with 0. lia. }
  assert (Hp : 0 <= pa / 4096 < 2 ^ 44) by (split; [apply Z.div_pos; lia|apply Z.div_lt_upper_bound; lia]).
  rewrite Ev, En in H. eapply wp_mono; [|apply H]; try (unfold floor_phys, PAGE_SIZE; done || lia).
  - intros ? s' (fl' & T' & Hm). exists fl', T'. eapply maps_eq; [exact Hm|]. intros u _. unfold mapped_pages.
    destruct (decide (v <= u < v + 1)), (decide (u = v)); try lia; [|done]. subst u. by rewrite Z.sub_diag, Z.add_0_r.
  - intros u Hu. by replace u with v by lia.
Qed.

Section create.
Context (trampoline : Z) {k : kernel} {n : nat} {t : TaskControlBlock} {f r : Z} {fl : list Z}.
Context (Hn : tasks k !! n = Some t) (Hfr : frames_ok (f :: r :: fl) (memory k)) (Hl : (4 <= length fl)%nat).

(** The new address space: the trampoline, and the page [f] as trap frame. *)
Record equipped (k1 : kernel) : Prop := {
  equipped_task : exists t1, tasks k1 !! n = Some t1 /\ task_state t1 = task_state t /\ base_size t1 = base_size t /\ trap_cx_ppn t1 = f * 4096 /\ pagetable t1 = r;
  equipped_space : exists fl1 T, space_ok fl1 T r (memory k1) /\
    (forall v, 0 <= v < 2 ^ 27 -> entry T (pages (memory k1)) v =
       if decide (v = trapframe_vpn) then Some (PageTableEntry_new f 7)
       else if decide (v = tramp_vpn) then Some (PageTableEntry_new (floor_phys (phys_addr_from_size_t trampoline)) 11) else None) /\
    managed (memory k1) f /\ f ∉ fl1 /\ (forall p, T !! p <> Some f) /\
    forall q, q ∈ f :: r :: fl <-> q = f \/ q ∈ fl1 \/ exists p, T !! p = Some q }.

Lemma equip_ok : wp (fun _ k1 => equipped k1) ((proc_trap n;; proc_pagetable trampoline n) k).
Proof using All.
  assert (Hm : managed (memory k) f) by (apply (frames_free _ _ Hfr); by left). pose proof (managed_range Hfr f Hm) as Hfrange. rewrite base_eq in Hfrange.
  assert (Hmr : managed (memory k) r) by (apply (frames_free _ _ Hfr); by right; left). pose proof (managed_range Hfr r Hmr) as Hrrange. rewrite base_eq in Hrrange.
  pose proof (frames_nodup _ _ Hfr) as [Hn1 [Hn2 _]%NoDup_cons]%NoDup_cons.
  assert (Etramp : virt_addr_from_size_t TRAMPOLINE = tramp_vpn * 4096) by done. assert (Etrap : virt_addr_from_size_t TRAPFRAME = trapframe_vpn * 4096) by done.
  assert (Htr : 0 <= phys_addr_from_size_t trampoline < 2 ^ 56).
  { unfold phys_addr_from_size_t, PA_WIDTH_SV39. rewrite land_mask by lia. by apply Z.mod_pos_bound. }
  eapply (wp_step (fun _ k1 => exists m1, k1 = put n (t <| trap_cx_ppn := f * 4096 |>) (k <| memory := m1 |>) /\ frames_ok (r :: fl) m1 /\ bounds (memory k) m1)).
  { unfold proc_trap. apply (wp_mem _ _ _ _ _ (alloc_some _ _ _ Hfr)). intros ? m1 (-> & H1 & _ & B1). rewrite (proj2 (Z.eqb_neq _ _)), page_addr by lia.
    erewrite store_task_at by done. cbn [wp]. by exists m1. }
  intros ? ? (m1 & -> & H1 & B1).
  set (t1 := t <| trap_cx_ppn := f * 4096 |>). set (k1 := put n t1 _). assert (Hk1 : tasks k1 !! n = Some t1) by (by eapply put_lookup).
  assert (Ek1 : memory k1 = m1) by done. clearbody k1. unfold proc_pagetable.
  eapply wp_mem; [rewrite Ek1; apply (new_space _ _ _ H1)|]. intros ? m2 (-> & H2 & _ & B2 & He). rewrite (proj2 (Z.eqb_neq _ _)), Etramp by lia.
  eapply wp_mem; [cbn [memory]; apply (map_page _ _ _ _ tramp_vpn _ _ H2); [done|done|done|lia|apply He]|]. intros ? m3 (fl3 & T3 & [M1 M2 _ M4 _ [n3 M5] M6 M7 M9]).
  eapply wp_eq; [by apply load_task_at|]. rewrite Etrap. cbn [trap_cx_ppn t1].
  assert (Ef : phys_addr_from_size_t (f * 4096) = f * 4096) by (unfold phys_addr_from_size_t, PA_WIDTH_SV39; rewrite land_mask, Z.mod_small; lia).
  change (trap_cx_ppn t1) with (f * 4096). rewrite Ef.
  eapply wp_mem; [cbn [memory]; apply (map_page _ _ _ _ trapframe_vpn _ _ M1); [done|lia|done|lia|rewrite M2 by done; apply He]|].
  intros ? m4 (fl4 & T4 & [N1 N2 _ N4 N8 [n4 N5] N6 N7 N9]).
  rewrite (store_task_at _ n t1) by done. cbn [wp]. split.
  - eexists. split; [by eapply put_lookup|]. done.
  - cbn [memory put]. assert (Hsub : forall q, q ∈ fl4 -> q ∈ fl) by (intros q; rewrite N5, M5; intros ?%drop_in%drop_in; done).
    assert (HT : forall p q, T4 !! p = Some q -> q = r \/ q ∈ fl).
    { intros p q Hp. destruct (N4 p q Hp) as [Hp'|Hq]; [|right; rewrite M5 in Hq; by eapply drop_in]. destruct (M4 p q Hp') as [[_ <-]%lookup_singleton_Some|Hq]; [by left|by right]. }
    exists fl4, T4. split_and!; [done| | | | |].
    + intros v Hv. rewrite N2, M2, He by done. rewrite Z.div_mul by done. done.
    + apply (bounds_managed m3 m4 f N7), (bounds_managed m2 m3 f M7), (bounds_managed m1 m2 f B2), (bounds_managed _ m1 f B1), Hm.
    + intros Hq%Hsub. apply Hn1. by right.
    + intros p Hp. destruct (HT p f Hp) as [-> | Hq]; apply Hn1; [by left|by right].
    + intros q. split.
      * intros [-> | [-> | Hq]%elem_of_cons]%elem_of_cons; [by left| |]; right.
        { right. exists []. eapply lookup_weaken; [apply M1|done]. }
        destruct (M9 q Hq) as [Hq3|[p Hp]]; [by apply N9|right; exists p; by eapply lookup_weaken].
      * intros [-> | [Hq|[p Hp]]]; [by left|right; right; by apply Hsub|]. destruct (HT p q Hp) as [-> | ?]; [by right; left|by right; right].
Qed.
End create.

(** The new process owns nothing but its tables and its trap frame. *)
Lemma equipped_free trampoline n t f r fl k1 :
  equipped trampoline (n := n) (t := t) (f := f) (r := r) (fl := fl) k1 -> 0 < f < 2 ^ 44 -> base_size t = 0 ->
  wp (fun _ k2 => exists fl2, frames_ok fl2 (memory k2) /\ forall q, q ∈ fl2 <-> q ∈ f :: r :: fl) (freeproc n k1).
Proof.
  intros [(t1 & Hn & _ & Hsz & Htrap & Hroot) (fl1 & T & Hok & He & Hm & Hf & HT & Hall)] Hfr Hb. unfold freeproc, freeproc_locked.
  eapply wp_eq; [by apply load_task_at|]. rewrite Hsz, Hb, Htrap, Hroot.
  assert (Hp : process_space fl1 T r (memory k1) 0).
  { split; [done|done| |split; intros v w; intros; change (0 / PAGE_SIZE) with 0 in *; lia].
    intros v Hv _ Hne. rewrite He in Hne by done. repeat case_decide; [by right|by left|done]. }
  eapply wp_mem; [apply (teardown_ok _ _ _ _ _ Hp)|]. intros ? m2 (fl2 & F1 & F2 & _ & B2).
  assert (Hnb : forall v w, ~ (0 <= v < 0 / PAGE_SIZE /\ entry T (pages (memory k1)) v = Some w)) by (intros v w [? _]; change (0 / PAGE_SIZE) with 0 in *; lia).
  assert (Hf2 : f ∉ fl2) by (intros [?|[[p Hp']|(v & w & ? & ? & _)]]%F2; [done|by apply (HT p)|by apply (Hnb v w)]).
  rewrite (proj2 (Z.eqb_neq _ _)) by lia. cbn [negb when]. rewrite floor_addr by lia.
  eapply (wp_step (fun _ k2 => (exists t2, tasks k2 !! n = Some t2) /\ frames_ok (f :: fl2) (memory k2))).
  { eapply wp_mem; [apply (free_ok fl2); [exact F1|by apply (bounds_managed _ _ f B2)|done]|]. intros ? m3 (G1 & _). erewrite store_task_at by done. cbn [wp].
    split; [eexists; by eapply put_lookup|done]. }
  intros ? k2 [[t2 Hn2] G1]. rewrite (store_task_at k2 n t2) by done. cbn [wp]. exists (f :: fl2). split; [done|].
  intros q. rewrite Hall, elem_of_cons, F2. split.
  - intros [-> | [?|[[p Hp']|(v & w & ? & ? & _)]]]; [by left|by right; left|right; right; by exists p|by destruct (Hnb v w)].
  - intros [-> | [?|[p Hp']]]; [by left|by right; left|right; right; left; by exists p].
Qed.

(** C18: creating a process and freeing it is a round trip for the memory: with
    six free pages [allocproc] takes the first unused entry and returns; the
    address space has the trampoline and the trap frame at their places, with
    the trap frame on a page of its own, and nothing else; and [freeproc] then
    returns with exactly the pages free that were free before. *)
Theorem process_created_freed trampoline k fl n t :
  frames_ok fl (memory k) -> 6 <= len fl -> fst <$> list_find (fun p => task_state p = UnInit) (tasks k) = Some n ->
  tasks k !! n = Some t -> base_size t = 0 -> nextpid k <> INT_MAX ->
  exists k1 k2 t1 f fl2, allocproc trampoline k = Ret (Some n) k1 /\ tasks k1 !! n = Some t1 /\ task_state t1 = Creating /\ trap_cx_ppn t1 = f * 4096 /\ f ∈ fl /\
    sv39_walk (pages (memory k1)) (pagetable t1) trapframe_vpn = Some (PageTableEntry_new f (Z.lor PTE_V (Z.lor PTE_R PTE_W))) /\
    freeproc n k1 = Ret () k2 /\ frames_ok fl2 (memory k2) /\ forall q, q ∈ fl2 <-> q ∈ fl.
Proof.
  intros Hfr Hlen Hfind Hn Hb Hnx. destruct fl as [|f [|r fl]]; [cbn in Hlen; lia|cbn in Hlen; lia|].
  assert (Hm : managed (memory k) f) by (apply (frames_free _ _ Hfr); by left). pose proof (managed_range Hfr f Hm) as Hfrange. rewrite base_eq in Hfrange.
  assert (Halloc : wp (fun x k1 => x = Some n /\ exists t0, task_state t0 = Creating /\ base_size t0 = 0 /\
    equipped trampoline (n := n) (t := t0) (f := f) (r := r) (fl := fl) k1) (allocproc trampoline k)).
  { unfold allocproc. eapply (wp_eq _ _ _ k (Some n) k); [unfold free_task; rewrite (mbind_ret get _ k k k eq_refl), Hfind; reflexivity|].
    eapply wp_eq; [by apply store_task_at|]. unfold allocpid_locked. set (t1 := t <| task_state := Creating |>).
    eapply (wp_step (fun id k1 => k1 = put n t1 k <| nextpid := nextpid k + 1 |>)).
    { eapply wp_eq; [reflexivity|]. cbn [put nextpid]. rewrite (proj2 (Z.eqb_neq _ _)) by done. done. }
    intros id ? ->. eapply wp_eq; [apply store_task_at; by eapply put_lookup|]. cbv beta. set (t2 := task_reset_wait _). set (k1 := put n t2 _).
    assert (H1 : tasks k1 !! n = Some t2) by (eapply put_lookup; by eapply put_lookup). assert (Em : memory k1 = memory k) by done.
    assert (Ht2 : task_state t2 = Creating /\ base_size t2 = 0) by done. clearbody k1 t2.
    apply (wp_assoc (proc_trap n) (fun _ => proc_pagetable trampoline n) (fun _ => mret (Some n))).
    eapply wp_step; [apply (equip_ok trampoline H1 (f := f) (r := r) (fl := fl)); [by rewrite Em|cbn in Hlen; lia]|].
    intros ? k2 He. cbn [wp mret M_ret]. split; [done|]. exists t2. by destruct Ht2. }
  apply wp_exists in Halloc as (? & k1 & E1 & -> & t0 & Hs & Hb0 & Heq).
  destruct (wp_exists _ _ (equipped_free _ _ _ _ _ _ _ Heq ltac:(lia) Hb0)) as ([] & k2 & E2 & fl2 & F1 & F2).
  destruct Heq as [(t1 & Ht1 & Hs1 & _ & Htrap & Hroot) (fl1 & T & Hok & He & _)]. exists k1, k2, t1, f, fl2.
  split_and!; [done|done|congruence|done|by left| |done|done|done].
  rewrite Hroot, (walk_entry trapframe_vpn (space_tables _ _ _ _ Hok)), He by done. rewrite decide_True by done. cbn.
  rewrite leaf_new; [done|lia|done].
Qed.

Lemma process_created_freed_witness : exists k k1 k2, allocproc tramp k = Ret (Some 0%nat) k1 /\ freeproc 0 k1 = Ret () k2.
Proof.
  destruct demo_pages as [s Hok].
  destruct (process_created_freed tramp (Kernel s (replicate MAX_TASKS zero_tcb) [] 0 0 0 false) (base :: base + 1 :: seqZ (base + 2) 14) 0%nat zero_tcb Hok)
    as (k1 & k2 & _ & _ & _ & E1 & _ & _ & _ & _ & _ & E2 & _); [by apply Z.leb_le|done|done|done|done|].
  exists (Kernel s (replicate MAX_TASKS zero_tcb) [] 0 0 0 false), k1, k2. exact (conj E1 E2).
Defined.
